(* ===== verification/_CoqProject ===== *)
-Q . S2P
Prelude.v
WireCodec.v
WireReassembly.v
WireSession.v
Api.v
Grouping.v
LinkEndpoints.v
LinkAllocation.v
LinkReconcile.v
TopologyRollout.v
TopologyEmitted.v
ObservationCache.v
TopologyStatus.v
TopologyReconcile.v
StartupHost.v
StartupAdmission.v
GoStrings.v
CompilerDiagnostics.v
CompilerDefinition.v
CompilerPorts.v
CompilerLinks.v
CompilerNodes.v
CompilerDocument.v
CompilerFlatten.v
CompilerCompile.v
GoNet.v
DevicePlanTypes.v
Management.v
ManagementTheorems.v
PeerDirectory.v
Hosts.v
NameResolution.v
PeerDirectoryController.v
GoSort.v
PlanValidation.v
PlanSpec.v
PlanAcceptance.v
PlanCodec.v
PlanCanonical.v
PlanTheorems.v
PlanExamples.v
InputCodec.v
InputSpec.v
InputTheorems.v
CompilerNames.v
CompilerRender.v
CompilerRenderTheorems.v
ConnectivityRevision.v
ConnectivityTheorems.v
PlanInput.v
NodeArtifacts.v
NodeConnectivity.v
NodeConnectivityTheorems.v
PodNames.v
NodeStatus.v
NodeStatusTheorems.v
NodeProfiles.v
NodeExposure.v
NodeExposureTheorems.v
NodeServices.v
NodeServicesTheorems.v
NodeVolumes.v
NodeVolumesTheorems.v
PlanCapabilities.v
PlanCapabilitiesTheorems.v
LocalLinks.v
LocalLinksTheorems.v
LocalLinksPass.v
LocalLinksRealized.v
LocalLinksSettle.v
LocalLinksExamples.v
OciAccess.v
OciResolve.v
OciCache.v
OciAccessTheorems.v
OciResolveTheorems.v
OciCacheTheorems.v
OciExamples.v
