(* ===== verification/Prelude.v ===== *)
(** * c9s: a verification library for clabernetes

    ** The program

    clabernetes (c9s) runs containerlab topologies on Kubernetes.  A Topology resource
    carries a containerlab definition; the compiler ([compiler/]) flattens it into Node,
    Link and NodeProfile objects; the topology controller ([controllers/topology/]) enforces
    those objects in the namespace, admits their start-up in batches and aggregates their
    status; the link controller ([controllers/link/]) accepts Links, binds their endpoints
    and allocates a wire id to each wire between two Pods; and inside every Pod the direct
    runtime's fabric wire ([internal/directruntime/wire.go], [wire_linux.go]) carries the
    Ethernet frames of those wires over UDP: frames are fragmented, reassembled, and the
    carrier of the two ends is kept in step by heartbeats and link-state messages.

    ** The library

    Data plane:
    - [WireCodec]: the datagram formats of [wire.go]: headers, data fragments, link-state
      tables, and the splitting of a frame.  Round trips in both directions, when splitting
      succeeds, that concatenating the fragments gives the frame, and how large the datagrams
      are for every underlay MTU: they fit it, unless it is below 1250 bytes.
    - [WireReassembly]: the bounded reassembly buffer: expiry, eviction, duplicate and
      geometry handling ([absorb]).  Every delivered frame is the concatenation of received
      fragments of one frame of matching geometry, and a frame whose fragments arrive, in
      any order and with duplicates, is delivered once for each time its fragments were
      collected: at least once, and no more often than any of them arrived.
    - [WireSession]: the whole daemon of [wire_linux.go] as a state machine: links,
      sessions with generations, heartbeats, link states, carrier forcing, the periodic
      tick.  The carrier invariant over all reachable states, that datagrams never make it
      panic, that datagrams of an old generation change one drop counter at most, how newer
      generations and silent peers are treated, and end-to-end
      delivery of a frame from one daemon to the other.

    Control plane:
    - [Api]: the fields of the API objects, shared helpers.
    - [Grouping]: which node's Pod hosts a node ([util/containerlab/grouping.go]).
    - [LinkEndpoints]: which Link owns an endpoint ([util/containerlab/links.go]).
    - [LinkAllocation]: wire id allocation ([controllers/link/allocate.go]).
    - [LinkReconcile]: the namespace pass of the link controller
      ([controllers/link/reconcile.go]): unique wire ids, idempotence.
    - [TopologyRollout]: start-up batches ([controllers/topology/rollout.go]).
    - [TopologyEmitted]: enforcing emitted objects: the generic loop over the interface
      [EmittedKind] with the laws [LawfulKind], proved for the three kinds; the conflict
      check ([controllers/topology/reconcile.go]).
    - [ObservationCache]: the cache of [controllers/observationcache.go] under any
      interleaving of its operations.
    - [TopologyStatus]: readiness, lifecycle and coalesced status writes
      ([controllers/topology/status.go]).
    - [TopologyReconcile]: one whole reconcile of a topology, over an API server and a cache
      that lags behind it: what it may touch and in which order, and that conflicts stop it.

    Compiler:
    - [GoStrings]: the functions of Go's [strings], [strconv] and [fmt] it uses.
    - [CompilerDiagnostics]: collecting and reporting diagnostics ([compile.go]).
    - [CompilerDefinition]: the containerlab definition as the compiler reads it.
    - [CompilerPorts]: port definitions ([ports.go]) and the directive labels.
    - [CompilerLinks]: the links section ([links.go]).
    - [CompilerNodes]: network modes, policies, aliases ([compilecontainerlab.go]) and the
      renaming of nodes ([names.go]).
    - [CompilerDocument]: unknown, rejected and ignored fields of the document.
    - [CompilerFlatten]: the layers a node inherits from and kind-owned configuration.
    - [CompilerCompile]: the whole pipeline: what a topology that compiles is compiled to.
    - [CompilerNames], [CompilerRender], [CompilerRenderTheorems]:
      the Kubernetes objects of a compiled topology ([render.go]) and their names: names
      are valid, links that are not the same may get one name, and what is rendered for
      each node, link and profile.

    Start-up admission ([controllers/node/]):
    - [StartupHost]: how many Pods boot on one host for the first time at once
      ([startuphost.go]), with restarts, a lagging cache and patches whose answer is lost.
    - [StartupAdmission]: the batches of the installation ([startupadmission.go]).

    Management network:
    - [GoNet]: the parts of Go's [net/netip] that are used.
    - [DevicePlanTypes]: the data of a device plan ([internal/deviceplan/types.go]).
    - [Management], [ManagementTheorems]: address pools, allocation and the management input
      of a group ([controllers/node/directmanagement.go], [direct.go]): addresses are unique,
      within the pool of the policy and not its gateway, and the published identities agree
      with what the groups realize.
    - [PeerDirectory], [PeerDirectoryController]: the directory of identities, sharded into
      ConfigMaps, published over a lagging cache and read back by the Pods.
    - [Hosts], [NameResolution]: the hosts file of a Pod, what it resolves, and the
      composition: a name resolves to the address the group of its node realizes.

    Device plans ([internal/deviceplan/codec.go]):
    - [GoSort]: [slices.SortFunc] by its contract, an ordered permutation, for any algorithm.
    - [PlanValidation]: [validatePlan], every loop and check, with its errors.
    - [PlanSpec], [PlanAcceptance]: a declarative well-formedness of plans, and that
      validation accepts exactly the well-formed ones.
    - [PlanCodec], [PlanCanonical], [PlanTheorems]: normal form, digest and decoding; for
      plans without ties between devices or port mappings ([unambiguous]) the normal form does
      not depend on the order of unordered fields or on the sorting algorithm, and decoding
      inverts the canonical text; for the others it does so up to order.
    - [PlanExamples]: concrete plans, and what the checks let through.
    - [InputCodec], [InputSpec], [InputTheorems]: the same for the planning
      input the node controller hands to the planner.

    Connectivity of a device Pod:
    - [ConnectivityRevision], [ConnectivityTheorems]: the revisions
      by which a running Pod's links change ([internal/directruntime/connectivity.go]): how
      a revision is built from the cold plan and the desired plan, encoded, decoded and
      merged; that the Pod recovers the desired links, and that a revision changes nothing
      but links.
    - [PlanInput]: the planning input of a group ([controllers/node/planinput.go]): both
      Pods of a wire are told the same wire id, each the other's endpoint.
    - [NodeArtifacts]: the immutable ConfigMaps of plans, inputs and revisions, on an API
      server that may refuse each request: publishing, and collecting old ones.
    - [NodeConnectivity], [NodeConnectivityTheorems]: whether a
      change of links is applied to the running Pod or recreates it
      ([controllers/node/directconnectivity.go]).
    - [PlanCapabilities], [PlanCapabilitiesTheorems]: what the helpers of a Pod can do
      ([ValidatePlanCapabilities]): they accept exactly the plans they implement.
    - [LocalLinks], [LocalLinksTheorems], [LocalLinksPass], [LocalLinksRealized],
      [LocalLinksSettle], [LocalLinksExamples]: the links between Nodes of one Pod
      ([reconcileLocalInterfaces] and the veth operations of [links_linux.go]) over any kernel
      that obeys the laws of netlink: operations are specified by triples, and composed to
      what a pass realizes, that it touches nothing of anybody else, and that it succeeds
      within the limits of the kernel (names, MTUs and aliases).

    What a Node has in the cluster ([controllers/node/]):
    - [PodNames], [NodeStatus], [NodeStatusTheorems]: what the controller
      reports of the Nodes of a group from their Pod ([directstatus.go]): a Node is ready only
      if its Pod runs the plan it is compared with, and a stale group is withdrawn.
    - [NodeProfiles]: the realization profile of a Node or of a group ([profile.go]).
    - [NodeExposure], [NodeExposureTheorems]: which ports of a group are
      exposed, and for which Node ([expose.go], [direct.go]).
    - [NodeServices], [NodeServicesTheorems]: the Services of a Node
      ([service.go], [reconcile.go]): two passes bring a Service to what is rendered, unless
      a Service of the other kind stands in its way that is not the Node's or is held, and the
      alias pass touches only what the Node owns.
    - [NodeVolumes], [NodeVolumesTheorems]: the volume claims of Nodes
      ([persistentvolumeclaim.go], [reconcile.go]): a retained volume outlives its Nodes, and
      which updates of a claim cannot be made.

    Image metadata ([internal/ocimetadata/]):
    - [OciAccess], [OciAccessTheorems]: pull Secrets, trust, mirrors and redacted errors
      ([auth.go], [mirror.go], [resolver.go]): which credentials are used, whom a request
      reaches, and what an error withholds.
    - [OciResolve], [OciResolveTheorems]: [Resolve]: what is resolved is what was asked for.
    - [OciCache], [OciCacheTheorems]: the cache of metadata ([cache.go]): whom an answer is
      given to, and how many are kept, under any interleaving of concurrent calls.
    - [OciExamples]: concrete runs.

    This file holds what the others share: Go's error results, record update, automation,
    ordered strings and sorting, lemmas on lists, and [range] over a map.

    ** How code is translated

    A Go function becomes a definition of the same name; a method takes its receiver's
    state as an argument and returns the new state.  A function that may fail returns
    [result] (or [option] where only failure matters); a run-time panic is the value [None]
    of the operations that can panic ([absorb], the daemon's steps), and theorems say when
    it cannot happen.  Machine integers are [Z] with the code's wrap-around written out
    where it can occur (wire headers, generations, cache tokens).  Go maps are [gmap];
    where the code ranges over a map and the result could depend on the order, the
    definition is over an arbitrary [RangeOrder] and the theorem holds for every order.
    Time is an argument in nanoseconds.  What the API server, the kernel and the clock
    answer are arguments of the definitions, so theorems hold for all their answers unless
    they say otherwise.

    Code that is not part of the sources is a parameter: Kubernetes' [SetStatusCondition]
    ([ConditionSetter]), [SetControllerReference], the apimachinery name validators,
    containerlab's name sanitizer, its [Topology] getters and its reflected vocabulary,
    yaml.v3's parser and [Decode], [metav1.GetControllerOf], SHA-256 ([Sha256]), the JSON
    text of a directory, a plan and an input ([DirectoryJSON], [PlanJSON], [InputJSON]),
    [json.Compact] ([JSONText]), the JSON text of a revision and of a list of strings
    ([RevisionJSON], [StringsJSON]), apimachinery's condition readers ([ConditionReader]),
    the Kubernetes and containerlab vocabularies the renderer consults ([KubernetesTypes],
    [NodeVocabulary], [MgmtNet], [ManifestDecoder]), the comparison of a rendered Deployment
    with the live one ([conforms]), the requests the API server refuses ([faults]) and what it
    stores of the others ([storedAs], [updatedAs]), [SetOwnerReference]
    ([setOwnerReference]), [resource.ParseQuantity], the netlink package ([Netlink]),
    containerlab's default MTU ([DefaultLinkMTU]), apimachinery's check of a DNS subdomain
    ([validPeerTransport]), the reference parser and the client of go-containerregistry
    ([Containerregistry], [Registry]), [net/url]'s codec ([UrlCodec]), the JSON of Docker
    configurations and of metadata ([DockerJSON], [MetadataJSON]), decoding PEM ([ValidPEM]),
    the sorting algorithm of [slices.SortFunc] ([GoSort]), and [fmt]'s [%q] ([FmtQuote]).
    A theorem that relies on their documented behaviour has it as a hypothesis, and its
    witness instantiates them by concrete functions.

    ** Fuel

    Loops whose termination is not structural have fuel, and are proved to have enough:
    resolving a primary node and the cycle check of the compiler take [size nodes + 2]
    steps; the wire id search takes one step more than there are reserved ids; splitting a
    frame takes one step per fragment; a status write is retried at most five times, as in
    [retry.DefaultRetry]; a dump of the interfaces is tried five times, as in the code;
    printing a number has twenty digits, enough for 64 bits.

    ** Not modelled

    The adapters that derive a device plan from containerlab's node kinds
    ([internal/deviceplan/adapter.go], [mapper.go]) and Pod rendering
    ([internal/directpod/]); the parts of the node controller that are not listed above
    (planner Pods and sessions, certificates, resolving payloads, probes, and
    the driver that calls the modelled passes in turn); what the direct runtime does in the
    network namespace besides local links and the fabric wire (management addresses, wire and
    host endpoints, interposition); the netlink and socket calls of the fabric wire, which
    appear as effects; the JSON of status patches;
    logging, metrics, watches and process start-up; generated clients.  JSON numbers are
    exact below 2^53.  Non-ASCII letters and spaces in the compiler's strings and in
    interface names.  The topology reconcile is proved for any rendered children; what the
    renderer produces is proved of [CompilerRender]. *)

From stdpp Require Export base gmap sets list strings sorting option pretty.
From stdpp Require Import numbers.
From Stdlib Require Export ZArith Lia.

(** ** Results: Go's [(value, error)] pairs *)

(** A Go function that returns [(T, error)] is modelled by a function into
    [result E T]: [Ok v] is a nil error, [Err e] a non-nil one. *)
Inductive result (E A : Type) : Type :=
| Ok (a : A)
| Err (e : E).
Arguments Ok {E A} a.
Arguments Err {E A} e.

#[export] Instance result_eq_dec {E A} `{EqDecision E, EqDecision A} :
  EqDecision (result E A).
Proof. solve_decision. Defined.

Definition rbind {E A B} (m : result E A) (k : A → result E B) : result E B :=
  match m with Ok a => k a | Err e => Err e end.

Definition is_ok {E A} (m : result E A) : bool :=
  match m with Ok _ => true | Err _ => false end.

Declare Scope c9s_scope.
Delimit Scope c9s_scope with c9s.
Notation "'let?' x ':=' m 'in' k" := (rbind m (λ x, k))
  (at level 10, x binder, m at level 100, k at level 200) : c9s_scope.
#[global] Open Scope c9s_scope.

Lemma rbind_Ok_inv {E A B} (m : result E A) (k : A → result E B) b :
  rbind m k = Ok b → ∃ a, m = Ok a ∧ k a = Ok b.
Proof. destruct m; simpl; [eauto | discriminate]. Qed.

(** Left fold that stops at the first error: the shape of a Go [for] loop whose
    body may [return err]. *)
Fixpoint rfold {E A B} (f : B → A → result E B) (acc : B) (l : list A) : result E B :=
  match l with
  | [] => Ok acc
  | x :: l => let? acc' := f acc x in rfold f acc' l
  end.

Lemma rfold_app {E A B} (f : B → A → result E B) acc l1 l2 :
  rfold f acc (l1 ++ l2) = rbind (rfold f acc l1) (λ acc', rfold f acc' l2).
Proof.
  revert acc; induction l1 as [|x l1 IH]; intros acc; simpl; [done|].
  destruct (f acc x); simpl; auto.
Qed.

(** Invariant rule for [rfold]: the shape of every loop proof of the library. *)
Lemma rfold_invariant {E A B} (f : B → A → result E B) (I : B → list A → Prop) :
  (∀ acc x l acc', I acc (x :: l) → f acc x = Ok acc' → I acc' l) →
  ∀ l acc acc', I acc l → rfold f acc l = Ok acc' → I acc' [].
Proof.
  intros Hstep l; induction l as [|x l IH]; intros acc acc' HI Hf; simpl in Hf.
  - by simplify_eq.
  - apply rbind_Ok_inv in Hf as (acc1 & Hx & Hl). eauto.
Qed.

(** ** Record update: Go's assignment to one field of a struct *)

(** [Updatable R] names the eta-expansion of a record type; the setter of a field
    is obtained from it by abstracting the field's projection. *)
Class Updatable (R : Type) : Type := eta_record : R → R.

Class FieldSetter {R T : Type} (field : R → T) : Type := set_field : (T → T) → R → R.
Arguments set_field {R T} field {_} _ _ /.

Ltac derive_setter :=
  lazymatch goal with
  | |- @FieldSetter ?R _ ?field =>
      let inst := constr:(_ : Updatable R) in
      let eta := eval hnf in inst in
      lazymatch eval pattern field in eta with
      | ?setter _ => let s := eval cbv beta in (λ upd, setter (λ r, upd (field r))) in exact s
      end
  end.
#[export] Hint Extern 1 (FieldSetter _) => derive_setter : typeclass_instances.

Notation "r <| field := v |>" := (set_field field (λ _, v) r)
  (at level 12, left associativity, field at next level, v at level 200) : c9s_scope.
Notation "r <| field ::= f |>" := (set_field field f r)
  (at level 12, left associativity, field at next level, f at level 200) : c9s_scope.

(** ** Automation *)

Create HintDb c9s.
Create Rewrite HintDb c9s.

(** Case analysis on the scrutinee of a [match] or [if] of the goal or of a
    hypothesis, remembering the equation. *)
Ltac case_step :=
  match goal with
  | |- context [match ?x with _ => _ end] =>
      lazymatch x with context [match _ with _ => _ end] => fail | _ => destruct x eqn:? end
  | H : context [match ?x with _ => _ end] |- _ =>
      lazymatch x with context [match _ with _ => _ end] => fail | _ => destruct x eqn:? end
  end.
Ltac crush_cases := repeat (simplify_eq/=; try case_step); simplify_eq/=.

(** Turn the boolean comparisons of the code into propositions for [lia]. *)
Ltac bool_to_prop :=
  repeat match goal with
  | H : (_ && _) = true |- _ => apply andb_true_iff in H as [? ?]
  | H : (_ || _) = false |- _ => apply orb_false_iff in H as [? ?]
  | H : (_ || _) = true |- _ => apply orb_true_iff in H
  | H : (_ && _) = false |- _ => apply andb_false_iff in H
  | H : negb _ = true |- _ => apply negb_true_iff in H
  | H : negb _ = false |- _ => apply negb_false_iff in H
  | H : Z.ltb _ _ = true |- _ => apply Z.ltb_lt in H
  | H : Z.ltb _ _ = false |- _ => apply Z.ltb_ge in H
  | H : Z.leb _ _ = true |- _ => apply Z.leb_le in H
  | H : Z.leb _ _ = false |- _ => apply Z.leb_gt in H
  | H : Z.eqb _ _ = true |- _ => apply Z.eqb_eq in H
  | H : Z.eqb _ _ = false |- _ => apply Z.eqb_neq in H
  | H : Nat.ltb _ _ = true |- _ => apply Nat.ltb_lt in H
  | H : Nat.ltb _ _ = false |- _ => apply Nat.ltb_ge in H
  | H : Nat.leb _ _ = true |- _ => apply Nat.leb_le in H
  | H : Nat.leb _ _ = false |- _ => apply Nat.leb_gt in H
  | H : Nat.eqb _ _ = true |- _ => apply Nat.eqb_eq in H
  | H : Nat.eqb _ _ = false |- _ => apply Nat.eqb_neq in H
  | H : bool_decide _ = true |- _ => apply bool_decide_eq_true in H
  | H : bool_decide _ = false |- _ => apply bool_decide_eq_false in H
  end.

(** ** Ordered names: Go's [<] on strings and [sort.Strings] *)

(** Go compares strings byte-wise; [String.leb] does the same. *)
Definition str_ltb (a b : string) : bool := String.ltb a b.

Lemma str_compare_refl a : String.compare a a = Eq.
Proof.
  induction a; simpl; [done|]. unfold Ascii.compare. by rewrite N.compare_refl.
Qed.

Lemma str_ltb_irrefl a : str_ltb a a = false.
Proof. unfold str_ltb, String.ltb. by rewrite str_compare_refl. Qed.

Lemma str_ltb_spec a b : str_ltb a b = true ↔ String.le a b ∧ a ≠ b.
Proof.
  unfold str_ltb, String.ltb, String.le, String.leb.
  destruct (String.compare a b) eqn:E; simpl.
  - apply String.compare_eq_iff in E. split; [done|]. by intros [_ ?].
  - split; [|done]. intros _. split; [done|]. intros ->.
    by rewrite str_compare_refl in E.
  - split; [done|]. by intros [[] _].
Qed.

Lemma str_ltb_trans a b c :
  str_ltb a b = true → str_ltb b c = true → str_ltb a c = true.
Proof.
  rewrite !str_ltb_spec. intros [Hab Hne] [Hbc Hne']. split; [by etrans|].
  intros ->. apply Hne. by apply (anti_symm String.le).
Qed.

Lemma str_ltb_total a b : a ≠ b → str_ltb a b = true ∨ str_ltb b a = true.
Proof.
  intros Hne. rewrite !str_ltb_spec.
  destruct (total String.le a b); [left | right]; auto.
Qed.

Lemma str_ltb_asym a b : str_ltb a b = true → str_ltb b a = false.
Proof.
  intros H. destruct (str_ltb b a) eqn:E; [|done].
  pose proof (str_ltb_trans _ _ _ H E) as H'. by rewrite str_ltb_irrefl in H'.
Qed.

(** [sort.Strings]. *)
Definition sort_strings (l : list string) : list string := merge_sort String.le l.

(** The keys of a Go map in sorted order: [maps.Keys] followed by a sort. *)
Definition sorted_keys {V} (m : gmap string V) : list string :=
  sort_strings (map_to_list m).*1.

Lemma sort_strings_perm l : sort_strings l ≡ₚ l.
Proof. apply merge_sort_Permutation. Qed.

Lemma sort_strings_sorted l : StronglySorted String.le (sort_strings l).
Proof. apply (StronglySorted_merge_sort _); apply _. Qed.

(** Sorting erases the iteration order: two orders of one map give one list. *)
Lemma sort_strings_perm_eq l1 l2 : l1 ≡ₚ l2 → sort_strings l1 = sort_strings l2.
Proof.
  intros Hp. apply (StronglySorted_unique String.le); try apply sort_strings_sorted.
  by rewrite !sort_strings_perm.
Qed.

Lemma elem_of_sorted_keys {V} (m : gmap string V) k :
  k ∈ sorted_keys m ↔ is_Some (m !! k).
Proof.
  unfold sorted_keys. rewrite sort_strings_perm, list_elem_of_fmap. split.
  - intros ([k' v] & -> & Hin). apply elem_of_map_to_list in Hin. by eexists.
  - intros [v Hv]. exists (k, v). split; [done|]. by apply elem_of_map_to_list.
Qed.

Lemma NoDup_sorted_keys {V} (m : gmap string V) : NoDup (sorted_keys m).
Proof.
  unfold sorted_keys. rewrite sort_strings_perm. apply NoDup_fst_map_to_list.
Qed.

(** [sort.Slice] and [slices.SortFunc] by a string key.  Neither is stable; the
    results agree with any sort when the keys are distinct. *)
Definition key_le {A} (key : A → string) (a b : A) : Prop := String.le (key a) (key b).

#[export] Instance key_le_dec {A} (key : A → string) : RelDecision (key_le key).
Proof. intros a b. unfold key_le. apply _. Defined.

Definition sort_by {A} (key : A → string) (l : list A) : list A := merge_sort (key_le key) l.

Lemma sort_by_perm {A} (key : A → string) l : sort_by key l ≡ₚ l.
Proof. apply merge_sort_Permutation. Qed.

Lemma sort_by_sorted {A} (key : A → string) l : StronglySorted (key_le key) (sort_by key l).
Proof.
  apply StronglySorted_merge_sort.
  - intros a b c. unfold key_le. apply transitivity.
  - intros a b. unfold key_le. apply total, _.
Qed.

(** With distinct keys the result is strictly sorted. *)
Lemma sort_by_strict {A} (key : A → string) l :
  NoDup (key <$> l) →
  StronglySorted (λ a b, str_ltb (key a) (key b) = true) (sort_by key l).
Proof.
  intros Hnd. rewrite <- (sort_by_perm key l) in Hnd. pose proof (sort_by_sorted key l) as Hs.
  induction Hs as [|x xs Hs IH Hall]; [constructor|].
  rewrite fmap_cons in Hnd. pose proof (NoDup_cons_1_1 _ _ Hnd) as Hx.
  apply NoDup_cons_1_2 in Hnd. constructor; [by apply IH|].
  rewrite Forall_forall in Hall |- *. intros y Hy. apply str_ltb_spec. split; [by apply Hall|].
  intros Heq. apply Hx. rewrite Heq. by apply list_elem_of_fmap_2, list_elem_of_In.
Qed.

Lemma sort_by_perm_eq {A} (key : A → string) l1 l2 :
  NoDup (key <$> l1) → l1 ≡ₚ l2 → sort_by key l1 = sort_by key l2.
Proof.
  intros Hnd Hp.
  apply (StronglySorted_unique_strong (λ a b, str_ltb (key a) (key b) = true)).
  - intros x1 x2 _ _ H12 H21. by rewrite (str_ltb_asym _ _ H12) in H21.
  - by apply sort_by_strict.
  - apply sort_by_strict. by rewrite <- Hp.
  - by rewrite !sort_by_perm.
Qed.

(** Sorting a strictly sorted list changes nothing. *)
Lemma sort_by_id {A} (key : A → string) l :
  StronglySorted (λ a b, str_ltb (key a) (key b) = true) l → sort_by key l = l.
Proof.
  intros Hs. apply (StronglySorted_unique_strong (key_le key)).
  - intros x1 x2 Hx1 Hx2 H12 H21. rewrite sort_by_perm in Hx1.
    assert (key x1 = key x2) as Heq by by apply (anti_symm String.le).
    clear -Hs Hx1 Hx2 Heq. induction Hs as [|y l Hs IH Hall]; [by apply elem_of_nil in Hx1|].
    rewrite list.Forall_forall in Hall.
    apply elem_of_cons in Hx1 as [->|Hx1], Hx2 as [->|Hx2]; [done| | |by apply IH]; exfalso.
    + specialize (Hall _ Hx2). by rewrite Heq, str_ltb_irrefl in Hall.
    + specialize (Hall _ Hx1). by rewrite <- Heq, str_ltb_irrefl in Hall.
  - apply sort_by_sorted.
  - induction Hs as [|y l Hs IH Hall]; constructor; [done|].
    eapply list.Forall_impl; [exact Hall|]. intros x Hx. by apply str_ltb_spec in Hx as [? _].
  - apply sort_by_perm.
Qed.

Lemma StronglySorted_filter_sub {A} (R : A → A → Prop) (P : A → Prop) `{∀ x, Decision (P x)} l :
  StronglySorted R l → StronglySorted R (filter P l).
Proof.
  induction 1 as [|x l Hs IH Hall]; [constructor|]. rewrite filter_cons.
  case_decide; [|done]. constructor; [done|]. rewrite list.Forall_forall in Hall |- *.
  intros y [_ Hy]%list_elem_of_filter. by apply Hall.
Qed.

#[export] Hint Resolve NoDup_sorted_keys sort_strings_sorted : c9s.

(** ** Lists *)

(** Go's [slices.ContainsFunc]. *)
Definition contains_func {A} (f : A → bool) (l : list A) : bool := existsb f l.

Lemma contains_func_true {A} (f : A → bool) l :
  contains_func f l = true ↔ ∃ x, x ∈ l ∧ f x = true.
Proof.
  unfold contains_func. rewrite existsb_exists.
  split; intros (x & Hx & Hf); exists x; split; auto; by apply list_elem_of_In.
Qed.

Lemma contains_func_false {A} (f : A → bool) l :
  contains_func f l = false ↔ ∀ x, x ∈ l → f x = false.
Proof.
  rewrite <- not_true_iff_false, contains_func_true. split.
  - intros H x Hx. destruct (f x) eqn:E; [exfalso; eauto|done].
  - intros H (x & Hx & Hf). rewrite H in Hf; done.
Qed.

(** Two elements of a list with distinct keys that have the same key are equal. *)
Lemma NoDup_key_inj {A B} (f : A → B) (l : list A) x y :
  NoDup (f <$> l) → x ∈ l → y ∈ l → f x = f y → x = y.
Proof.
  induction l as [|z l IH]; intros Hnd Hx Hy Hf; [by apply elem_of_nil in Hx|].
  rewrite fmap_cons in Hnd. pose proof (NoDup_cons_1_1 _ _ Hnd) as Hz.
  apply NoDup_cons_1_2 in Hnd.
  apply elem_of_cons in Hx as [->|Hx], Hy as [->|Hy]; [done| | |by apply IH]; exfalso; apply Hz.
  - rewrite Hf. by apply list_elem_of_fmap_2.
  - rewrite <- Hf. by apply list_elem_of_fmap_2.
Qed.

Lemma NoDup_fmap_filter {A B} (f : A → B) (P : A → Prop) `{∀ x, Decision (P x)} (l : list A) :
  NoDup (f <$> l) → NoDup (f <$> filter P l).
Proof.
  induction l as [|x l IH]; intros Hnd; [done|]. rewrite fmap_cons in Hnd.
  pose proof (NoDup_cons_1_1 _ _ Hnd) as Hx. apply NoDup_cons_1_2 in Hnd.
  rewrite filter_cons. case_decide; [|by apply IH]. rewrite fmap_cons.
  apply NoDup_cons_2; [|by apply IH]. intros (y & Hy & [_ Hin]%list_elem_of_filter)%list_elem_of_fmap.
  apply Hx. rewrite Hy. by apply list_elem_of_fmap_2.
Qed.

(** Mapping a function over elements it leaves alone. *)
Lemma list_fmap_fixed {A} (f : A → A) (l : list A) : (∀ x, x ∈ l → f x = x) → f <$> l = l.
Proof.
  induction l as [|x l IH]; intros Hl; [done|]. rewrite fmap_cons, Hl by left.
  f_equal. apply IH. intros y Hy. apply Hl. by right.
Qed.

Lemma list_filter_all {A} (P : A → Prop) `{∀ x, Decision (P x)} (l : list A) :
  (∀ x, x ∈ l → P x) → filter P l = l.
Proof.
  induction l as [|x l IH]; intros Hl; [done|].
  rewrite filter_cons_True by (apply Hl; left). f_equal. apply IH. intros y Hy. apply Hl. by right.
Qed.

Lemma list_filter_none {A} (P : A → Prop) `{∀ x, Decision (P x)} (l : list A) :
  (∀ x, x ∈ l → ¬ P x) → filter P l = [].
Proof.
  induction l as [|x l IH]; intros Hl; [done|].
  rewrite filter_cons_False by (apply Hl; left). apply IH. intros y Hy. apply Hl. by right.
Qed.

Lemma list_filter_ext_in {A} (P Q : A → Prop) `{∀ x, Decision (P x)} `{∀ x, Decision (Q x)}
    (l : list A) :
  (∀ x, x ∈ l → P x ↔ Q x) → filter P l = filter Q l.
Proof.
  induction l as [|x l IH]; intros Hl; [done|]. rewrite !filter_cons.
  rewrite IH by (intros y Hy; apply Hl; by right).
  pose proof (Hl x (list_elem_of_here _ _)). repeat case_decide; tauto.
Qed.

(** Filtering a list without duplicates by its own prefix gives the prefix. *)
Lemma list_filter_prefix {A} (P : A → Prop) `{∀ x, Decision (P x)} k (l : list A) :
  NoDup l → (∀ x, x ∈ l → P x ↔ x ∈ take k l) → filter P l = take k l.
Proof.
  intros Hnd HP. rewrite <- (take_drop k l) at 1. rewrite list.filter_app.
  rewrite <- (take_drop k l) in Hnd. apply list.NoDup_app in Hnd as (_ & Hdis & _).
  rewrite (list_filter_all P (take k l)), (list_filter_none P (drop k l)); [by rewrite app_nil_r| |].
  - intros x Hx Hp. apply (Hdis x); [|done]. apply HP; [|done].
    rewrite <- (take_drop k l). apply elem_of_app. by right.
  - intros x Hx. apply HP; [|done]. rewrite <- (take_drop k l). apply elem_of_app. by left.
Qed.

(** ** Go's [range] over a map *)

(** A Go program that ranges over a map sees its entries in an unspecified
    order.  Code whose result can depend on that order is modelled over an
    arbitrary [RangeOrder]: a theorem about it holds for every order. *)
Class RangeOrder (K : Type) `{Countable K} : Type := {
  range_list : ∀ {V : Type}, gmap K V → list (K * V);
  range_list_perm : ∀ {V : Type} (m : gmap K V), range_list m ≡ₚ map_to_list m
}.

(** The order in which [map_to_list] lists the entries is one such order; the
    concrete runs of the library use it. *)
Definition canonical_range {K} `{Countable K} : RangeOrder K :=
  {| range_list := λ V m, map_to_list m; range_list_perm := λ V m, reflexivity _ |}.

Section range_facts.
Context {K : Type} `{RangeOrder K} {V : Type}.
Implicit Types m : gmap K V.

Lemma elem_of_range_list m k v : (k, v) ∈ range_list m ↔ m !! k = Some v.
Proof. by rewrite range_list_perm, elem_of_map_to_list. Qed.

Lemma NoDup_range_keys m : NoDup (range_list m).*1.
Proof. rewrite range_list_perm. apply NoDup_fst_map_to_list. Qed.

Lemma length_range_list m : length (range_list m) = size m.
Proof. by rewrite range_list_perm, length_map_to_list. Qed.
End range_facts.
