(* ===== verification/WireCodec.v ===== *)
(** * The fabric wire: datagram formats and frame fragmentation

    Models the codec half of [internal/directruntime/wire.go]: the common
    header, the data-fragment header, the link-state and heartbeat datagrams,
    and [splitFabricWireFrame].  A byte is an integer below 256 and a Go byte
    slice a list of them; a multi-byte field is written big endian. *)

From S2P Require Import Prelude.
Local Open Scope Z_scope.

(** ** Bytes and big-endian integers ([encoding/binary]) *)

Abbreviation byte := Z (only parsing).
Definition is_byte (b : byte) : Prop := 0 ≤ b < 256.

(** [binary.BigEndian.PutUintN]: the [n] low bytes of [v], most significant first. *)
Fixpoint be_bytes (n : nat) (v : Z) : list byte :=
  match n with
  | O => []
  | S n => Z.land (Z.shiftr v (8 * Z.of_nat n)) 255 :: be_bytes n v
  end.

(** [binary.BigEndian.UintN]. *)
Definition be_value (l : list byte) : Z :=
  fold_left (λ acc b, Z.lor (Z.shiftl acc 8) b) l 0.

(** Writing [bytes] into a buffer at [off]: [copy(buf[off:], bytes)] for a
    buffer that is long enough. *)
Definition put_at (off : nat) (bytes buf : list byte) : list byte :=
  take off buf ++ bytes ++ drop (off + length bytes) buf.

(** ** Protocol constants *)

Definition fabricWireVersion : byte := 1.
Definition fabricWireMsgData : byte := 1.
Definition fabricWireMsgLinkState : byte := 2.
Definition fabricWireMsgHeartbeat : byte := 3.
Definition fabricWireHeaderSize : nat := 10.
Definition fabricWireDataHeaderSize : nat := 12.
Definition fabricWireLinkStateEntrySize : nat := 5.
Definition fabricWireTransportOverhead : Z :=
  28 + Z.of_nat fabricWireHeaderSize + Z.of_nat fabricWireDataHeaderSize.
Definition fabricWireMinimumFragmentPayload : Z := 1200.
Definition fabricWireMaximumFrameSize : Z := Z.shiftl 1 16 - 1.
Definition fabricWireMaximumFragments : Z := Z.shiftl 1 8 - 1.

(** The two sentinel errors, each with the text it is wrapped with. *)
Inductive wireError :=
| errFabricWireDatagram (what : string)
| errFabricWireFrame (what : string).

Record fabricWireHeader := FabricWireHeader {
  Version : byte;
  MsgType : byte;
  Generation : Z
}.

Record fabricWireDataHeader := FabricWireDataHeader {
  LinkID : Z;
  FrameID : Z;
  FragIndex : Z;
  FragCount : Z;
  TotalLength : Z
}.

Record fabricWireLinkState := FabricWireLinkState {
  StateLinkID : Z;
  OperUp : bool
}.

#[export] Instance wireError_eq_dec : EqDecision wireError.
Proof. solve_decision. Defined.
#[export] Instance fabricWireDataHeader_eq_dec : EqDecision fabricWireDataHeader.
Proof. solve_decision. Defined.
#[export] Instance fabricWireLinkState_eq_dec : EqDecision fabricWireLinkState.
Proof. solve_decision. Defined.

(** ** Encoding and parsing *)

Definition putFabricWireHeader (dst : list byte) (msgType : byte) (generation : Z) :
    list byte :=
  put_at 2 (be_bytes 8 generation)
    (put_at 1 [msgType] (put_at 0 [fabricWireVersion] dst)).

Definition parseFabricWireHeader (datagram : list byte) :
    result wireError (fabricWireHeader * list byte) :=
  if bool_decide (length datagram < fabricWireHeaderSize)%nat
  then Err (errFabricWireDatagram "short header")
  else
    let header := FabricWireHeader (nth 0 datagram 0) (nth 1 datagram 0)
                    (be_value (take 8 (drop 2 datagram))) in
    if negb (Version header =? fabricWireVersion)
    then Err (errFabricWireDatagram "unknown version")
    else Ok (header, drop fabricWireHeaderSize datagram).

Definition encodeFabricWireFragment (generation : Z) (header : fabricWireDataHeader)
    (payload : list byte) : list byte :=
  let datagram :=
    replicate (fabricWireHeaderSize + fabricWireDataHeaderSize + length payload) 0 in
  let datagram := putFabricWireHeader datagram fabricWireMsgData generation in
  let at_body off := (fabricWireHeaderSize + off)%nat in
  put_at (at_body fabricWireDataHeaderSize) payload
    (put_at (at_body 10%nat) (be_bytes 2 (TotalLength header))
      (put_at (at_body 9%nat) [FragCount header]
        (put_at (at_body 8%nat) [FragIndex header]
          (put_at (at_body 4%nat) (be_bytes 4 (FrameID header))
            (put_at (at_body 0%nat) (be_bytes 4 (LinkID header)) datagram))))).

Definition parseFabricWireDataHeader (body : list byte) :
    result wireError (fabricWireDataHeader * list byte) :=
  if bool_decide (length body < fabricWireDataHeaderSize)%nat
  then Err (errFabricWireDatagram "short data header")
  else
    let header := {| LinkID := be_value (take 4 body);
                     FrameID := be_value (take 4 (drop 4 body));
                     FragIndex := nth 8 body 0;
                     FragCount := nth 9 body 0;
                     TotalLength := be_value (take 2 (drop 10 body)) |} in
    let payload := drop fabricWireDataHeaderSize body in
    if (FragCount header =? 0) || (FragCount header <=? FragIndex header)
       || (Z.of_nat (length payload) =? 0)
       || (TotalLength header <? Z.of_nat (length payload))
    then Err (errFabricWireDatagram "inconsistent fragment geometry")
    else Ok (header, payload).

(** One entry of a link-state body: the link id, then a byte that is 1 when the
    interface is up and stays 0 otherwise. *)
Definition putLinkStateEntry (state : fabricWireLinkState) : list byte :=
  let entry := put_at 0 (be_bytes 4 (StateLinkID state)) (replicate 5 0) in
  if OperUp state then put_at 4 [1] entry else entry.

Definition encodeFabricWireLinkStates (generation : Z) (states : list fabricWireLinkState) :
    list byte :=
  let datagram :=
    replicate (fabricWireHeaderSize + length states * fabricWireLinkStateEntrySize) 0 in
  let datagram := putFabricWireHeader datagram fabricWireMsgLinkState generation in
  foldl (λ dst (entry : nat * fabricWireLinkState),
           put_at (fabricWireHeaderSize + fst entry * fabricWireLinkStateEntrySize)
             (putLinkStateEntry (snd entry)) dst)
        datagram (imap (λ index state, (index, state)) states).

(** The [offset] loop over a body whose length is a multiple of the entry size;
    the number of entries bounds the iterations. *)
Fixpoint parseLinkStateEntries (count : nat) (body : list byte) : list fabricWireLinkState :=
  match count with
  | O => []
  | S count =>
      {| StateLinkID := be_value (take 4 body); OperUp := nth 4 body 0 =? 1 |}
      :: parseLinkStateEntries count (drop fabricWireLinkStateEntrySize body)
  end.

Definition parseFabricWireLinkStates (body : list byte) :
    result wireError (list fabricWireLinkState) :=
  if bool_decide (length body = 0%nat)
     || negb (bool_decide (length body mod fabricWireLinkStateEntrySize = 0)%nat)
  then Err (errFabricWireDatagram "malformed link state body")
  else Ok (parseLinkStateEntries (length body / fabricWireLinkStateEntrySize) body).

Definition encodeFabricWireHeartbeat (generation : Z) : list byte :=
  putFabricWireHeader (replicate fabricWireHeaderSize 0) fabricWireMsgHeartbeat generation.

(** ** Fragmentation *)

(** [for offset := 0; offset < len(frame); offset += payloadSize].  A fragment
    holds at least one byte, so [length frame] iterations are enough. *)
Fixpoint splitLoop (fuel : nat) (frame : list byte) (payloadSize offset : nat) :
    list (list byte) :=
  match fuel with
  | O => []
  | S fuel =>
      if bool_decide (offset < length frame)%nat then
        let stop := Nat.min (offset + payloadSize) (length frame) in
        take (stop - offset) (drop offset frame)
        :: splitLoop fuel frame payloadSize (offset + payloadSize)
      else []
  end.

Definition splitFabricWireFrame (frame : list byte) (payloadSize : Z) :
    result wireError (list (list byte)) :=
  let len := Z.of_nat (length frame) in
  if payloadSize <? 1
  then Err (errFabricWireFrame "fragment payload size is not positive")
  else if (len =? 0) || (fabricWireMaximumFrameSize <? len)
  then Err (errFabricWireFrame ("frame size " +:+ pretty len))
  else
    let count := (len + payloadSize - 1) / payloadSize in
    if fabricWireMaximumFragments <? count
    then Err (errFabricWireFrame ("frame needs " +:+ pretty count +:+ " fragments"))
    else Ok (splitLoop (length frame) frame (Z.to_nat payloadSize) 0).

(** The per-fragment payload for a given underlay MTU; zero means unknown. *)
Definition fabricWireFragmentPayload (underlayMTU : Z) : Z :=
  let payload := underlayMTU - fabricWireTransportOverhead in
  if payload <? fabricWireMinimumFragmentPayload
  then fabricWireMinimumFragmentPayload
  else payload.

(** ** Lemmas: big-endian integers *)

Definition u8 (v : Z) : Prop := 0 ≤ v < 2 ^ 8.
Definition u16 (v : Z) : Prop := 0 ≤ v < 2 ^ 16.
Definition u32 (v : Z) : Prop := 0 ≤ v < 2 ^ 32.
Definition u64 (v : Z) : Prop := 0 ≤ v < 2 ^ 64.

Lemma length_be_bytes n v : length (be_bytes n v) = n.
Proof. induction n; simpl; auto. Qed.

Lemma land_255 v : Z.land v 255 = v mod 256.
Proof. change 255 with (Z.ones 8). by rewrite Z.land_ones. Qed.

Lemma shiftl_lor a b n :
  0 ≤ n → 0 ≤ b < 2 ^ n → Z.lor (Z.shiftl a n) b = a * 2 ^ n + b.
Proof.
  intros Hn Hb. rewrite Z.shiftl_mul_pow2 by lia.
  assert (Z.land (a * 2 ^ n) b = 0) as Hdis.
  { apply Z.bits_inj'. intros i Hi. rewrite Z.land_spec, Z.bits_0.
    rewrite Z.mul_pow2_bits by lia.
    destruct (Z.ltb_spec i n); [by rewrite Z.testbit_neg_r by lia|].
    rewrite andb_comm. replace b with (b mod 2 ^ n) by (apply Z.mod_small; apply Hb).
    by rewrite Z.mod_pow2_bits_high by lia. }
  by rewrite Z.add_nocarry_lxor, Z.lxor_lor.
Qed.

Lemma shiftl_lor_byte a b : is_byte b → Z.lor (Z.shiftl a 8) b = a * 256 + b.
Proof. intros Hb. by apply (shiftl_lor a b 8). Qed.

Lemma be_value_app l b : is_byte b → be_value (l ++ [b]) = be_value l * 256 + b.
Proof.
  intros Hb. unfold be_value. rewrite fold_left_app. simpl. by apply shiftl_lor_byte.
Qed.

Lemma be_bytes_snoc n v :
  be_bytes (S n) v = be_bytes n (Z.shiftr v 8) ++ [Z.land v 255].
Proof.
  induction n as [|n IH]; [by simpl; rewrite Z.shiftr_0_r|].
  change (be_bytes (S (S n)) v)
    with (Z.land (Z.shiftr v (8 * Z.of_nat (S n))) 255 :: be_bytes (S n) v).
  rewrite IH. simpl. do 2 f_equal. rewrite Z.shiftr_shiftr by lia. f_equal. lia.
Qed.

Lemma be_bytes_is_byte n v : Forall is_byte (be_bytes n v).
Proof.
  induction n as [|n IH]; simpl; constructor; [|done].
  rewrite land_255. apply Z.mod_pos_bound. lia.
Qed.

Lemma be_value_be_bytes n v : be_value (be_bytes n v) = v mod 2 ^ (8 * Z.of_nat n).
Proof.
  revert v. induction n as [|n IH]; intros v; [by rewrite Z.mod_1_r|].
  rewrite be_bytes_snoc, be_value_app, IH, land_255.
  2: { rewrite land_255. apply Z.mod_pos_bound. lia. }
  rewrite Z.shiftr_div_pow2 by lia. change (2 ^ 8) with 256.
  replace (8 * Z.of_nat (S n)) with (8 + 8 * Z.of_nat n) by lia.
  rewrite Z.pow_add_r by lia. change (2 ^ 8) with 256.
  rewrite Z.rem_mul_r by lia. lia.
Qed.

Lemma be_value_be_bytes_small n v :
  0 ≤ v < 2 ^ (8 * Z.of_nat n) → be_value (be_bytes n v) = v.
Proof. intros ?. rewrite be_value_be_bytes. by apply Z.mod_small. Qed.

Lemma be_value_bound l :
  Forall is_byte l → 0 ≤ be_value l < 2 ^ (8 * Z.of_nat (length l)).
Proof.
  induction l as [|b l IH] using rev_ind; [done|].
  rewrite Forall_app, Forall_singleton. intros [Hl Hb]. specialize (IH Hl).
  rewrite be_value_app, length_app by done. cbn [length].
  replace (8 * Z.of_nat (length l + 1)) with (8 + 8 * Z.of_nat (length l)) by lia.
  rewrite Z.pow_add_r by lia. change (2 ^ 8) with 256. unfold is_byte in Hb. lia.
Qed.

Lemma be_bytes_be_value n l :
  Forall is_byte l → length l = n → be_bytes n (be_value l) = l.
Proof.
  intros Hl <-. revert Hl. induction l as [|b l IH] using rev_ind; [done|].
  rewrite Forall_app, Forall_singleton. intros [Hl Hb].
  rewrite be_value_app, length_app by done. cbn [length].
  rewrite Nat.add_1_r, be_bytes_snoc, land_255, Z.shiftr_div_pow2 by lia.
  change (2 ^ 8) with 256. unfold is_byte in Hb. f_equal; [|f_equal].
  - rewrite Z.div_add_l, Z.div_small, Z.add_0_r by lia. auto.
  - rewrite Z.add_comm, Z.mod_add, Z.mod_small by lia. done.
Qed.

(** ** Lemmas: buffer writes *)

Lemma put_at_exact pre old post bytes :
  length old = length bytes →
  put_at (length pre) bytes (pre ++ old ++ post) = pre ++ bytes ++ post.
Proof.
  intros Hlen. unfold put_at. rewrite take_app_length. f_equal. f_equal.
  rewrite app_assoc, <- Hlen, <- length_app. apply drop_app_length.
Qed.

Lemma putFabricWireHeader_replicate k t g :
  putFabricWireHeader (replicate (fabricWireHeaderSize + k) 0) t g
  = [fabricWireVersion; t] ++ be_bytes 8 g ++ replicate k 0.
Proof. reflexivity. Qed.

(** A fragment datagram is the concatenation of its fields. *)
Lemma encodeFabricWireFragment_eq g h p :
  encodeFabricWireFragment g h p
  = [fabricWireVersion; fabricWireMsgData] ++ be_bytes 8 g
    ++ be_bytes 4 (LinkID h) ++ be_bytes 4 (FrameID h)
    ++ [FragIndex h; FragCount h] ++ be_bytes 2 (TotalLength h) ++ p.
Proof.
  unfold encodeFabricWireFragment. rewrite <- Nat.add_assoc, putFabricWireHeader_replicate.
  cbn -[Z.land Z.shiftr]. repeat f_equal.
  rewrite drop_0, take_0, drop_ge; [by rewrite app_nil_r|]. by rewrite length_replicate.
Qed.

Lemma encodeFabricWireHeartbeat_eq g :
  encodeFabricWireHeartbeat g = [fabricWireVersion; fabricWireMsgHeartbeat] ++ be_bytes 8 g.
Proof. reflexivity. Qed.

Lemma length_putLinkStateEntry s : length (putLinkStateEntry s) = 5%nat.
Proof. destruct s as [? []]; reflexivity. Qed.

Lemma put_link_states pre k states :
  length pre = (fabricWireHeaderSize + k * fabricWireLinkStateEntrySize)%nat →
  foldl (λ dst (entry : nat * fabricWireLinkState),
           put_at (fabricWireHeaderSize + fst entry * fabricWireLinkStateEntrySize)
             (putLinkStateEntry (snd entry)) dst)
        (pre ++ replicate (length states * fabricWireLinkStateEntrySize) 0)
        (imap (λ index state, ((k + index)%nat, state)) states)
  = pre ++ concat (putLinkStateEntry <$> states).
Proof.
  revert pre k. induction states as [|s states IH]; intros pre k Hpre; [done|].
  rewrite imap_cons, Nat.add_0_r. cbn [foldl length fmap list_fmap concat fst snd].
  replace (S (length states) * fabricWireLinkStateEntrySize)%nat
    with (5 + length states * fabricWireLinkStateEntrySize)%nat
    by (unfold fabricWireLinkStateEntrySize; lia).
  rewrite replicate_add, <- Hpre, put_at_exact
    by (by rewrite length_replicate, length_putLinkStateEntry).
  rewrite app_assoc. rewrite (imap_ext _ (λ index state, ((S k + index)%nat, state))).
  2: { intros i x _. simpl. f_equal. lia. }
  rewrite IH; [by rewrite <- app_assoc|].
  rewrite length_app, length_putLinkStateEntry, Hpre.
  unfold fabricWireLinkStateEntrySize. lia.
Qed.

Lemma encodeFabricWireLinkStates_eq g states :
  encodeFabricWireLinkStates g states
  = ([fabricWireVersion; fabricWireMsgLinkState] ++ be_bytes 8 g)
    ++ concat (putLinkStateEntry <$> states).
Proof.
  unfold encodeFabricWireLinkStates.
  rewrite putFabricWireHeader_replicate, app_assoc.
  rewrite <- (put_link_states _ 0); [done|].
  by rewrite length_app, length_be_bytes.
Qed.

#[global] Arguments be_bytes : simpl never.

(** ** Lemmas: parsing *)

(** The fragments the parser accepts: what a receiver may rely on. *)
Definition valid_fragment (h : fabricWireDataHeader) (payload : list byte) : Prop :=
  u32 (LinkID h) ∧ u32 (FrameID h) ∧ u16 (TotalLength h) ∧
  0 ≤ FragIndex h < FragCount h ∧ FragCount h < 256 ∧
  0 < Z.of_nat (length payload) ≤ TotalLength h.

Lemma parse_header_app t g rest :
  u64 g →
  parseFabricWireHeader (([fabricWireVersion; t] ++ be_bytes 8 g) ++ rest)
  = Ok (FabricWireHeader fabricWireVersion t g, rest).
Proof.
  intros Hg. unfold parseFabricWireHeader. rewrite bool_decide_eq_false_2.
  2: { rewrite length_app. simpl. unfold fabricWireHeaderSize. lia. }
  change (take 8 (drop 2 (([fabricWireVersion; t] ++ be_bytes 8 g) ++ rest)))
    with (be_bytes 8 g).
  rewrite be_value_be_bytes_small by exact Hg. reflexivity.
Qed.

Lemma parse_data_app h p :
  valid_fragment h p →
  parseFabricWireDataHeader
    (be_bytes 4 (LinkID h) ++ be_bytes 4 (FrameID h)
     ++ [FragIndex h; FragCount h] ++ be_bytes 2 (TotalLength h) ++ p)
  = Ok (h, p).
Proof.
  intros (Hl & Hf & Ht & Hi & Hc & Hp). unfold parseFabricWireDataHeader.
  rewrite bool_decide_eq_false_2.
  2: { simpl. unfold fabricWireDataHeaderSize. lia. }
  set (body := be_bytes 4 (LinkID h) ++ _).
  change (take 4 body) with (be_bytes 4 (LinkID h)).
  change (take 4 (drop 4 body)) with (be_bytes 4 (FrameID h)).
  change (take 2 (drop 10 body)) with (be_bytes 2 (TotalLength h)).
  change (drop fabricWireDataHeaderSize body) with p.
  change (nth 8 body 0) with (FragIndex h). change (nth 9 body 0) with (FragCount h).
  rewrite !be_value_be_bytes_small by assumption. clear body.
  destruct h as [lid fid fi fc tl]; simpl in *.
  rewrite (proj2 (Z.eqb_neq fc 0)), (proj2 (Z.leb_gt fc fi)),
    (proj2 (Z.eqb_neq _ 0)), (proj2 (Z.ltb_ge tl _)) by lia.
  done.
Qed.

Lemma parse_data_inv body h p :
  Forall is_byte body →
  parseFabricWireDataHeader body = Ok (h, p) →
  valid_fragment h p ∧
  body = be_bytes 4 (LinkID h) ++ be_bytes 4 (FrameID h)
         ++ [FragIndex h; FragCount h] ++ be_bytes 2 (TotalLength h) ++ p.
Proof.
  intros Hb. unfold parseFabricWireDataHeader. case_bool_decide as Hlen; [done|].
  destruct body as [|b0 [|b1 [|b2 [|b3 [|b4 [|b5 [|b6 [|b7 [|b8 [|b9 [|b10 [|b11 rest]]]]]]]]]]]];
    try (exfalso; apply Hlen; simpl; unfold fabricWireDataHeaderSize; lia).
  clear Hlen. set (body := b0 :: _).
  change (take 4 body) with [b0; b1; b2; b3].
  change (take 4 (drop 4 body)) with [b4; b5; b6; b7].
  change (take 2 (drop 10 body)) with [b10; b11].
  change (drop fabricWireDataHeaderSize body) with rest.
  change (nth 8 body 0) with b8. change (nth 9 body 0) with b9. subst body.
  cbn [LinkID FrameID FragIndex FragCount TotalLength].
  intros H. destruct (_ || _) eqn:E in H; [done|]. bool_to_prop. simplify_eq.
  repeat (apply Forall_cons in Hb as [? Hb]).
  unfold valid_fragment. cbn [LinkID FrameID FragIndex FragCount TotalLength].
  assert (Forall is_byte [b0; b1; b2; b3]) by (rewrite !Forall_cons, Forall_nil; tauto).
  assert (Forall is_byte [b4; b5; b6; b7]) by (rewrite !Forall_cons, Forall_nil; tauto).
  assert (Forall is_byte [b10; b11]) by (rewrite !Forall_cons, Forall_nil; tauto).
  rewrite (be_bytes_be_value _ [b0; b1; b2; b3]), (be_bytes_be_value _ [b4; b5; b6; b7]),
    (be_bytes_be_value _ [b10; b11]) by done.
  split; [|done].
  pose proof (be_value_bound [b0; b1; b2; b3]). pose proof (be_value_bound [b4; b5; b6; b7]).
  pose proof (be_value_bound [b10; b11]). unfold is_byte, u32, u16 in *.
  repeat split; try (apply be_value_bound; assumption); lia.
Qed.

Lemma parse_header_inv d h rest :
  Forall is_byte d →
  parseFabricWireHeader d = Ok (h, rest) →
  d = ([fabricWireVersion; MsgType h] ++ be_bytes 8 (Generation h)) ++ rest ∧
  Version h = fabricWireVersion ∧ u64 (Generation h).
Proof.
  intros Hb. unfold parseFabricWireHeader. case_bool_decide as Hlen; [done|].
  destruct d as [|v [|t d]]; try (exfalso; apply Hlen; simpl; unfold fabricWireHeaderSize; lia).
  change (nth 0 (v :: t :: d) 0) with v. change (nth 1 (v :: t :: d) 0) with t.
  change (drop 2 (v :: t :: d)) with d.
  change (drop fabricWireHeaderSize (v :: t :: d)) with (drop 8 d).
  cbn [Version]. destruct (v =? fabricWireVersion) eqn:E; cbn [negb]; [|done].
  intros [= <- <-]. bool_to_prop. subst v. cbn [Version MsgType Generation].
  assert (length (take 8 d) = 8%nat) as Hlen8.
  { rewrite length_take. simpl in Hlen. unfold fabricWireHeaderSize in Hlen. lia. }
  repeat (apply Forall_cons in Hb as [? Hb]).
  assert (Forall is_byte (take 8 d)) as Ht by (by apply Forall_take).
  rewrite be_bytes_be_value by done. split; [|split; [done|]].
  - cbn [app]. by rewrite take_drop.
  - pose proof (be_value_bound _ Ht) as Hv. by rewrite Hlen8 in Hv.
Qed.

Lemma parseLinkStateEntries_concat states :
  Forall (λ s, u32 (StateLinkID s)) states →
  parseLinkStateEntries (length states) (concat (putLinkStateEntry <$> states)) = states.
Proof.
  induction 1 as [|s states Hs _ IH]; [done|].
  cbn [length fmap list_fmap concat parseLinkStateEntries].
  assert (be_value (take 4 (putLinkStateEntry s ++ concat (putLinkStateEntry <$> states)))
          = StateLinkID s) as ->.
  { etrans; [|apply (be_value_be_bytes_small 4 _ Hs)].
    f_equal. destruct s as [? []]; reflexivity. }
  f_equal; [by destruct s as [? []]|].
  etrans; [|exact IH]. f_equal. by destruct s as [? []].
Qed.

Lemma length_concat_entries states :
  length (concat (putLinkStateEntry <$> states))
  = (length states * fabricWireLinkStateEntrySize)%nat.
Proof.
  induction states as [|s states IH]; [done|]. rewrite fmap_cons.
  cbn [concat length]. rewrite length_app, length_putLinkStateEntry, IH.
  unfold fabricWireLinkStateEntrySize. lia.
Qed.

Lemma parse_link_states_concat states :
  states ≠ [] → Forall (λ s, u32 (StateLinkID s)) states →
  parseFabricWireLinkStates (concat (putLinkStateEntry <$> states)) = Ok states.
Proof.
  intros Hne Hs. unfold parseFabricWireLinkStates. rewrite length_concat_entries.
  rewrite bool_decide_eq_false_2.
  2: { destruct states; [done|]. simpl. lia. }
  rewrite bool_decide_eq_true_2 by (apply Nat.Div0.mod_mul).
  cbn [orb negb]. rewrite Nat.div_mul by done. by rewrite parseLinkStateEntries_concat.
Qed.

(** ** Lemmas: fragmentation *)

Lemma splitLoop_concat fuel frame ps off :
  (1 ≤ ps)%nat → (length frame - off ≤ fuel)%nat →
  concat (splitLoop fuel frame ps off) = drop off frame.
Proof.
  intros Hps. revert off. induction fuel as [|fuel IH]; intros off Hf; simpl.
  - rewrite drop_ge by lia. done.
  - case_bool_decide; [|by rewrite drop_ge by lia].
    simpl. rewrite IH by lia. rewrite <- (take_drop ps (drop off frame)) at 2.
    rewrite drop_drop. f_equal.
    destruct (decide (off + ps ≤ length frame)%nat).
    + rewrite Nat.min_l by lia. f_equal. lia.
    + rewrite Nat.min_r by lia. rewrite !take_ge; rewrite ?length_drop; lia || done.
Qed.

Lemma splitLoop_sizes fuel frame ps off :
  (1 ≤ ps)%nat →
  Forall (λ f, 1 ≤ length f ≤ ps)%nat (splitLoop fuel frame ps off).
Proof.
  intros Hps. revert off. induction fuel as [|fuel IH]; intros off; simpl; [constructor|].
  case_bool_decide; [|constructor]. constructor; [|apply IH].
  rewrite length_take, length_drop. lia.
Qed.

Lemma splitLoop_count fuel frame ps off :
  (1 ≤ ps)%nat → (length frame - off ≤ fuel)%nat →
  let n := length (splitLoop fuel frame ps off) in
  (length frame - off ≤ n * ps)%nat ∧ (n * ps < length frame - off + ps)%nat.
Proof.
  intros Hps. revert off. induction fuel as [|fuel IH]; intros off Hf; simpl; [lia|].
  case_bool_decide; simpl; [|lia].
  specialize (IH (off + ps)%nat ltac:(lia)) as [H1 H2].
  destruct (length (splitLoop fuel frame ps (off + ps))); lia.
Qed.

(** The fragment count is the rounded-up quotient the code computes first. *)
Lemma split_count_div frame ps :
  1 ≤ ps →
  Z.of_nat (length (splitLoop (length frame) frame (Z.to_nat ps) 0))
  = (Z.of_nat (length frame) + ps - 1) / ps.
Proof.
  intros Hps.
  pose proof (splitLoop_count (length frame) frame (Z.to_nat ps) 0
                ltac:(lia) ltac:(lia)) as [H1 H2].
  set (n := length (splitLoop _ _ _ _)) in *.
  apply Z.div_unique with (r := Z.of_nat (length frame) + ps - 1 - ps * Z.of_nat n); [|lia].
  left. nia.
Qed.

Lemma split_Ok_inv frame ps frags :
  splitFabricWireFrame frame ps = Ok frags →
  1 ≤ ps ∧ 0 < Z.of_nat (length frame) ≤ fabricWireMaximumFrameSize ∧
  Z.of_nat (length frags) = (Z.of_nat (length frame) + ps - 1) / ps ∧
  Z.of_nat (length frags) ≤ fabricWireMaximumFragments ∧
  frags = splitLoop (length frame) frame (Z.to_nat ps) 0.
Proof.
  unfold splitFabricWireFrame. intros H. crush_cases. bool_to_prop.
  rewrite split_count_div by lia. repeat split; lia || done.
Qed.

Lemma split_concat frame ps frags :
  splitFabricWireFrame frame ps = Ok frags → concat frags = frame.
Proof.
  intros (? & ? & _ & _ & ->)%split_Ok_inv. rewrite splitLoop_concat by lia. done.
Qed.

#[export] Hint Resolve be_bytes_is_byte : c9s.
#[export] Hint Rewrite length_be_bytes length_putLinkStateEntry length_concat_entries : c9s.

(** Only the last piece may be short. *)
Lemma splitLoop_full fuel frame ps off i f :
  (1 ≤ ps)%nat → splitLoop fuel frame ps off !! i = Some f →
  (S i < length (splitLoop fuel frame ps off))%nat → length f = ps.
Proof.
  intros Hps. revert off i. induction fuel as [|fuel IH]; intros off i; simpl; [done|].
  case_bool_decide; [|done]. destruct i as [|i]; simpl; [|intros Hi Hlen; apply (IH _ i Hi); lia].
  intros [= <-]. destruct fuel as [|fuel]; simpl; [lia|]. case_bool_decide; simpl; [|lia]. intros _.
  rewrite length_take, length_drop. lia.
Qed.

(** ** The codec's contract *)

(** a data datagram round-trips: whatever fragment a sender encodes with
    field values inside their widths and a consistent geometry, the receiver
    parses back the same generation, data header and payload. *)
Theorem fragment_roundtrip g h p :
  u64 g → valid_fragment h p →
  ∃ body,
    parseFabricWireHeader (encodeFabricWireFragment g h p)
    = Ok (FabricWireHeader fabricWireVersion fabricWireMsgData g, body) ∧
    parseFabricWireDataHeader body = Ok (h, p).
Proof.
  intros Hg Hv. eexists. rewrite encodeFabricWireFragment_eq, app_assoc.
  split; [by apply parse_header_app | by apply parse_data_app].
Qed.

Definition sample_fragment : fabricWireDataHeader :=
  {| LinkID := 70000; FrameID := 9; FragIndex := 1; FragCount := 3; TotalLength := 1500 |}.

Lemma fragment_roundtrip_witness :
  ∃ body,
    parseFabricWireHeader (encodeFabricWireFragment 7 sample_fragment [1; 2; 255])
    = Ok (FabricWireHeader fabricWireVersion fabricWireMsgData 7, body) ∧
    parseFabricWireDataHeader body = Ok (sample_fragment, [1; 2; 255]).
Proof.
  apply fragment_roundtrip; unfold valid_fragment, u64, u32, u16; simpl; lia.
Defined.

(** the accepted encoding is canonical: a received data datagram (a list of
    bytes) that parses at both layers is byte for byte the encoding of what was
    parsed, and the parsed fragment has a geometry inside its field widths, with
    [FragIndex] below [FragCount] and a non-empty payload of at most
    [TotalLength] bytes. *)
Theorem fragment_parse_canonical d h body dh p :
  Forall is_byte d →
  parseFabricWireHeader d = Ok (h, body) → MsgType h = fabricWireMsgData →
  parseFabricWireDataHeader body = Ok (dh, p) →
  d = encodeFabricWireFragment (Generation h) dh p ∧ u64 (Generation h) ∧ valid_fragment dh p.
Proof.
  intros Hd Hh Ht Hp. apply parse_header_inv in Hh as (Heq & _ & Hg); [|done].
  rewrite Heq in Hd. apply Forall_app in Hd as [_ Hb].
  apply parse_data_inv in Hp as [Hv ->]; [|done].
  rewrite Heq, Ht, encodeFabricWireFragment_eq. by rewrite <- !app_assoc.
Qed.

Lemma fragment_parse_canonical_witness :
  encodeFabricWireFragment 7 sample_fragment [1; 2; 255]
  = encodeFabricWireFragment (Generation (FabricWireHeader 1 1 7)) sample_fragment [1; 2; 255] ∧
  u64 (Generation (FabricWireHeader 1 1 7)) ∧ valid_fragment sample_fragment [1; 2; 255].
Proof.
  eapply (fragment_parse_canonical
            (encodeFabricWireFragment 7 sample_fragment [1; 2; 255])
            (FabricWireHeader 1 1 7)).
  - vm_compute. repeat (constructor; [split; [intros ?; discriminate | reflexivity]|]). constructor.
  - vm_compute. reflexivity.
  - reflexivity.
  - vm_compute. reflexivity.
Defined.

(** a link-state advertisement round-trips: a non-empty list of states whose
    link ids fit 32 bits is parsed back unchanged and in order. *)
Theorem link_states_roundtrip g states :
  u64 g → states ≠ [] → Forall (λ s, u32 (StateLinkID s)) states →
  ∃ body,
    parseFabricWireHeader (encodeFabricWireLinkStates g states)
    = Ok (FabricWireHeader fabricWireVersion fabricWireMsgLinkState g, body) ∧
    parseFabricWireLinkStates body = Ok states.
Proof.
  intros Hg Hne Hs. eexists. rewrite encodeFabricWireLinkStates_eq.
  split; [by apply parse_header_app|]. by apply parse_link_states_concat.
Qed.

Lemma link_states_roundtrip_witness :
  ∃ body,
    parseFabricWireHeader
      (encodeFabricWireLinkStates 5 [FabricWireLinkState 300 true; FabricWireLinkState 2 false])
    = Ok (FabricWireHeader fabricWireVersion fabricWireMsgLinkState 5, body) ∧
    parseFabricWireLinkStates body
    = Ok [FabricWireLinkState 300 true; FabricWireLinkState 2 false].
Proof.
  apply link_states_roundtrip; unfold u64; [lia|discriminate|].
  repeat (constructor; [unfold u32; simpl; lia|]). constructor.
Defined.

(** fragmentation succeeds exactly on a positive payload size, a non-empty
    frame of at most 65535 bytes and at most 255 fragments. *)
Theorem split_succeeds_iff frame ps :
  is_ok (splitFabricWireFrame frame ps) = true ↔
  1 ≤ ps ∧ 1 ≤ Z.of_nat (length frame) ≤ 65535 ∧
  (Z.of_nat (length frame) + ps - 1) / ps ≤ 255.
Proof.
  unfold splitFabricWireFrame.
  change fabricWireMaximumFrameSize with 65535.
  change fabricWireMaximumFragments with 255.
  split.
  - intros H. crush_cases; bool_to_prop. lia.
  - intros (H1 & H2 & H3).
    rewrite (proj2 (Z.ltb_ge ps 1)) by lia.
    rewrite (proj2 (Z.eqb_neq _ 0)), (proj2 (Z.ltb_ge 65535 _)) by lia. cbn [orb].
    rewrite (proj2 (Z.ltb_ge 255 _)) by lia. done.
Qed.

(** fragmentation loses nothing: the fragments of a frame concatenate to the
    frame, there are as many as the rounded-up quotient and at most 255, and
    each holds between one and [payloadSize] bytes. *)
Theorem split_reassembles frame ps frags :
  splitFabricWireFrame frame ps = Ok frags →
  concat frags = frame ∧
  Z.of_nat (length frags) = (Z.of_nat (length frame) + ps - 1) / ps ∧
  1 ≤ Z.of_nat (length frags) ≤ 255 ∧
  Forall (λ f, 1 ≤ Z.of_nat (length f) ≤ ps) frags.
Proof.
  intros H. apply split_Ok_inv in H as (Hps & Hlen & Hc & Hmax & Hf).
  split_and!.
  - rewrite Hf, splitLoop_concat by lia. done.
  - done.
  - rewrite Hc. apply Z.div_le_lower_bound; lia.
  - exact Hmax.
  - rewrite Hf. eapply Forall_impl; [apply splitLoop_sizes; lia|]. simpl. lia.
Qed.

Lemma split_reassembles_witness :
  concat [[1; 2]; [3; 4]; [5]] = [1; 2; 3; 4; 5] ∧
  Z.of_nat (length [[1; 2]; [3; 4]; [5]]) = (Z.of_nat (length [1; 2; 3; 4; 5]) + 2 - 1) / 2 ∧
  1 ≤ Z.of_nat (length [[1; 2]; [3; 4]; [5]]) ≤ 255 ∧
  Forall (λ f : list byte, 1 ≤ Z.of_nat (length f) ≤ 2) [[1; 2]; [3; 4]; [5]].
Proof. apply (split_reassembles [1; 2; 3; 4; 5] 2). reflexivity. Defined.

(** C39: the size of what a sender puts on its underlay, for every underlay MTU, also an
    unknown one (0) or one below the floor.  Every datagram, with the outer IPv4 and UDP
    headers (28 bytes; the wire refuses to start on another family), is at most the MTU or
    1250 bytes, whichever is more, and all but the last one of a frame have exactly that
    size.  So a datagram fits its underlay from an MTU of 1250 on, and below that it has 1250
    bytes and is left to IP fragmentation. *)
Theorem fragment_sizes underlay frame frags :
  splitFabricWireFrame frame (fabricWireFragmentPayload underlay) = Ok frags →
  let limit := Z.max underlay 1250 in
  ∀ g h i f, frags !! i = Some f →
    let size := 28 + Z.of_nat (length (encodeFabricWireFragment g h f)) in
    size ≤ limit ∧ ((S i < length frags)%nat → size = limit).
Proof.
  intros Hs limit g h i f Hf size. apply split_Ok_inv in Hs as (Hps & _ & _ & _ & ->).
  assert (size = 50 + Z.of_nat (length f)) as ->.
  { unfold size. rewrite encodeFabricWireFragment_eq, !length_app, !length_be_bytes. cbn [length]. lia. }
  assert (limit = 50 + fabricWireFragmentPayload underlay) as ->.
  { unfold limit, fabricWireFragmentPayload. change fabricWireTransportOverhead with 50.
    change fabricWireMinimumFragmentPayload with 1200. destruct (underlay - 50 <? 1200) eqn:E; bool_to_prop; lia. }
  pose proof (splitLoop_sizes (length frame) frame (Z.to_nat (fabricWireFragmentPayload underlay)) 0 ltac:(lia)) as Hsz.
  rewrite Forall_forall in Hsz. specialize (Hsz _ (list_elem_of_lookup_2 _ _ _ Hf)). split; [lia|].
  intros Hi. apply splitLoop_full in Hf; [|lia|done]. lia.
Qed.

(** A frame of 2000 bytes on an underlay nobody knows the MTU of. *)
Lemma fragment_sizes_witness :
  let size := 28 + Z.of_nat (length (encodeFabricWireFragment 7 sample_fragment (replicate 1200 9))) in
  size ≤ 1250 ∧ ((1 < 2)%nat → size = 1250).
Proof.
  apply (fragment_sizes 0 (replicate 2000 9) [replicate 1200 9; replicate 800 9]) with (i := 0%nat); reflexivity.
Defined.
