(* ===== verification/WireReassembly.v ===== *)
(** * The fabric wire: loss-preserving frame reassembly

    Models [wireReassembler] of [internal/directruntime/wire.go]: the in-flight
    frames of one link, their expiry, the eviction of the oldest one under the
    in-flight cap, and [absorb].  Times are nanoseconds.  The [drops] callback
    is modelled by the list of causes it is called with, in call order. *)

From S2P Require Import Prelude WireCodec.
Local Open Scope Z_scope.

(** ** State *)

(** Nanoseconds per millisecond, as in Go's [time.Millisecond]. *)
Definition millisecond : Z := 1000000.
Definition second : Z := 1000 * millisecond.

Definition fabricWireReassemblyExpiry : Z := 100 * millisecond.
Definition fabricWireReassemblyFrameLimit : nat := 64.

Inductive fabricWireDropCause :=
| fabricWireDropNone
| fabricWireDropExpiry
| fabricWireDropMemoryCap
| fabricWireDropGeometry
| fabricWireDropOversize.

#[export] Instance fabricWireDropCause_eq_dec : EqDecision fabricWireDropCause.
Proof. solve_decision. Defined.

(** One partially reassembled frame.  A slot of [fragments] is [None] while the
    Go slice holds nil there. *)
Record pendingWireFrame := PendingWireFrame {
  arrived : Z;
  fragCount : Z;
  totalLen : Z;
  received : Z;
  bytes : Z;
  fragments : list (option (list byte))
}.

(** [pending map[uint32]*pendingWireFrame]. *)
Abbreviation pendingFrames := (gmap Z pendingWireFrame) (only parsing).

Definition newWireReassembler : pendingFrames := ∅.

(** [append([]byte(nil), payload...)]: copying an empty payload gives nil. *)
Definition copyFragment (payload : list byte) : option (list byte) :=
  match payload with [] => None | _ => Some payload end.

Section reassembler.
Context `{!RangeOrder Z}.

(** ** Operations *)

Definition overdue (now : Z) (frame : pendingWireFrame) : bool :=
  fabricWireReassemblyExpiry <? now - arrived frame.

Definition expireEntry (now : Z) (acc : pendingFrames * list fabricWireDropCause)
    (entry : Z * pendingWireFrame) : pendingFrames * list fabricWireDropCause :=
  if overdue now (snd entry)
  then (delete (fst entry) (fst acc), snd acc ++ [fabricWireDropExpiry])
  else acc.

Definition expire (now : Z) (pending : pendingFrames) :
    pendingFrames * list fabricWireDropCause :=
  foldl (expireEntry now) (pending, []) (range_list pending).

(** The scan for the longest-pending frame: the first entry seen, replaced by a
    later one that arrived strictly earlier. *)
Definition oldest (entries : list (Z * pendingWireFrame)) : option (Z * pendingWireFrame) :=
  foldl (λ best entry,
           match best with
           | None => Some entry
           | Some (_, oldestFrame) =>
               if arrived (snd entry) <? arrived oldestFrame then Some entry else best
           end)
        None entries.

Definition evictOldest (pending : pendingFrames) : pendingFrames * list fabricWireDropCause :=
  match oldest (range_list pending) with
  | Some (oldestID, _) => (delete oldestID pending, [fabricWireDropMemoryCap])
  | None => (pending, [])
  end.

Record absorbed := Absorbed {
  pendingAfter : pendingFrames;
  dropsAfter : list fabricWireDropCause;
  completed : option (list byte)
}.

(** The first half of [absorb]: the pending frame a fragment belongs to, created
    (after an eviction when the cap is reached) when there is none. *)
Definition admitFrame (now : Z) (header : fabricWireDataHeader) (pending : pendingFrames) :
    pendingFrames * list fabricWireDropCause * pendingWireFrame :=
  match pending !! FrameID header with
  | Some frame => (pending, [], frame)
  | None =>
      let '(pending, evicted) :=
        if bool_decide (fabricWireReassemblyFrameLimit ≤ size pending)%nat
        then evictOldest pending else (pending, []) in
      let frame := {| arrived := now; fragCount := FragCount header;
                      totalLen := TotalLength header; received := 0; bytes := 0;
                      fragments := replicate (Z.to_nat (FragCount header)) None |} in
      (<[FrameID header := frame]> pending, evicted, frame)
  end.

(** The frame with one more fragment stored. *)
Definition storeFragment (header : fabricWireDataHeader) (payload : list byte)
    (frame : pendingWireFrame) : pendingWireFrame :=
  {| arrived := arrived frame; fragCount := fragCount frame; totalLen := totalLen frame;
     received := received frame + 1;
     bytes := bytes frame + Z.of_nat (length payload);
     fragments := <[Z.to_nat (FragIndex header) := copyFragment payload]> (fragments frame) |}.

Definition assemble (frame : pendingWireFrame) : list byte :=
  concat (default [] <$> fragments frame).

(** [absorb].  [None] is the run-time panic of an index outside
    [frame.fragments]. *)
Definition absorb (now : Z) (header : fabricWireDataHeader) (payload : list byte)
    (pending : pendingFrames) : option absorbed :=
  let '(pending, expired) := expire now pending in
  let '(pending, evicted, frame) := admitFrame now header pending in
  let drops := expired ++ evicted in
  if negb (fragCount frame =? FragCount header) || negb (totalLen frame =? TotalLength header)
  then Some (Absorbed (delete (FrameID header) pending) (drops ++ [fabricWireDropGeometry]) None)
  else
    match fragments frame !! Z.to_nat (FragIndex header) with
    | None => None
    | Some (Some _) => Some (Absorbed pending drops None)
    | Some None =>
        let frame := storeFragment header payload frame in
        if received frame <? fragCount frame
        then Some (Absorbed (<[FrameID header := frame]> pending) drops None)
        else
          let pending := delete (FrameID header) pending in
          if negb (bytes frame =? totalLen frame)
          then Some (Absorbed pending (drops ++ [fabricWireDropGeometry]) None)
          else Some (Absorbed pending drops (Some (assemble frame)))
    end.

(** A run of [absorb] over a list of arrivals (time, header, payload): the final
    pending frames and the frames delivered, in order, each with its frame id. *)
Fixpoint absorb_run (events : list (Z * fabricWireDataHeader * list byte))
    (pending : pendingFrames) : option (pendingFrames * list (Z * list byte)) :=
  match events with
  | [] => Some (pending, [])
  | (now, header, payload) :: events =>
      match absorb now header payload pending with
      | None => None
      | Some r =>
          match absorb_run events (pendingAfter r) with
          | None => None
          | Some (pending', frames) =>
              Some (pending', (pair (FrameID header) <$> option_list (completed r)) ++ frames)
          end
      end
  end.

(** ** Lemmas: expiry and eviction *)

Lemma expire_fold_lookup now l m d k :
  (foldl (expireEntry now) (m, d) l).1 !! k
  = if contains_func (λ e, bool_decide (e.1 = k) && overdue now e.2) l then None else m !! k.
Proof.
  revert m d. induction l as [|[k' f] l IH]; intros m d; [done|].
  unfold contains_func. cbn [foldl existsb fst snd].
  unfold expireEntry at 2. cbn [fst snd].
  destruct (overdue now f) eqn:E; rewrite IH; unfold contains_func.
  - rewrite andb_true_r. case_bool_decide; subst; simpl.
    + destruct (existsb _ _); [done|]. apply lookup_delete_eq.
    + by rewrite lookup_delete_ne.
  - by rewrite andb_false_r.
Qed.

(** Expiry keeps exactly the frames that are not overdue. *)
Lemma lookup_expire now pending k :
  (expire now pending).1 !! k
  = match pending !! k with
    | Some f => if overdue now f then None else Some f
    | None => None
    end.
Proof.
  unfold expire. rewrite expire_fold_lookup.
  destruct (contains_func _ _) eqn:E.
  - apply contains_func_true in E as ([k' f] & Hin & Hf). bool_to_prop. simpl in *. subst.
    apply elem_of_range_list in Hin. by rewrite Hin, H0.
  - destruct (pending !! k) as [f|] eqn:Hk; [|done].
    rewrite contains_func_false in E. specialize (E (k, f)).
    rewrite elem_of_range_list in E. specialize (E Hk). simpl in E.
    rewrite bool_decide_eq_true_2 in E by done. simpl in E. by rewrite E.
Qed.

Lemma expire_subseteq now pending : (expire now pending).1 ⊆ pending.
Proof.
  apply map_subseteq_spec. intros k f. rewrite lookup_expire.
  destruct (pending !! k) as [g|]; [destruct (overdue now g)|]; naive_solver.
Qed.

Lemma oldest_spec l :
  match oldest l with
  | None => l = []
  | Some e => e ∈ l ∧ ∀ e', e' ∈ l → arrived e.2 ≤ arrived e'.2
  end.
Proof.
  unfold oldest. induction l as [|x l IH] using rev_ind; [done|].
  rewrite foldl_snoc. destruct (foldl _ None l) as [[k f]|].
  - destruct IH as [Hin Hmin]. cbn [snd] in *. destruct (arrived x.2 <? arrived f) eqn:E; bool_to_prop.
    + split; [set_solver|]. intros e'. rewrite elem_of_app, list_elem_of_singleton.
      intros [He| ->]; [specialize (Hmin _ He); lia | lia].
    + split; [set_solver|]. intros e'. rewrite elem_of_app, list_elem_of_singleton.
      intros [He| ->]; simpl; auto.
  - subst l. split; [set_solver|]. intros e'. rewrite app_nil_l, list_elem_of_singleton. by intros ->.
Qed.

Lemma evictOldest_spec pending :
  pending ≠ ∅ →
  ∃ k f, pending !! k = Some f ∧ (∀ k' f', pending !! k' = Some f' → arrived f ≤ arrived f') ∧
    evictOldest pending = (delete k pending, [fabricWireDropMemoryCap]).
Proof.
  intros Hne. unfold evictOldest. pose proof (oldest_spec (range_list pending)) as Ho.
  destruct (oldest _) as [[k f]|].
  - destruct Ho as [Hin Hmin]. exists k, f. split; [by apply elem_of_range_list|].
    split; [|done]. intros k' f' Hk'. apply (Hmin (k', f')). by apply elem_of_range_list.
  - exfalso. apply Hne. apply map_size_empty_iff. by rewrite <- length_range_list, Ho.
Qed.

Definition freshFrame (now : Z) (header : fabricWireDataHeader) : pendingWireFrame :=
  {| arrived := now; fragCount := FragCount header; totalLen := TotalLength header;
     received := 0; bytes := 0; fragments := replicate (Z.to_nat (FragCount header)) None |}.

(** What [admitFrame] guarantees: the fragment's frame is pending, other frames
    are untouched except for at most one eviction, and the cap is respected. *)
Lemma admitFrame_spec now header p :
  let '(p2, evicted, frame) := admitFrame now header p in
  p2 !! FrameID header = Some frame ∧
  (∀ k, k ≠ FrameID header → p2 !! k = p !! k ∨ p2 !! k = None) ∧
  ((p !! FrameID header = Some frame ∧ p2 = p) ∨
   (p !! FrameID header = None ∧ frame = freshFrame now header)) ∧
  (size p ≤ fabricWireReassemblyFrameLimit → size p2 ≤ fabricWireReassemblyFrameLimit)%nat.
Proof.
  unfold admitFrame. destruct (p !! FrameID header) as [frame|] eqn:Hid; [naive_solver|].
  case_bool_decide as Hcap.
  - destruct (evictOldest_spec p) as (k & f & Hk & _ & ->).
    { intros ->. rewrite map_size_empty in Hcap. unfold fabricWireReassemblyFrameLimit in Hcap. lia. }
    split_and!.
    + apply lookup_insert_eq.
    + intros k' Hne. rewrite lookup_insert_ne by done.
      destruct (decide (k = k')) as [->|?];
        [right; apply lookup_delete_eq | left; by apply lookup_delete_ne].
    + right. done.
    + intros Hs. rewrite map_size_insert_None.
      * rewrite map_size_delete_Some by eauto. unfold fabricWireReassemblyFrameLimit in *. lia.
      * rewrite lookup_delete_ne by congruence. done.
  - split_and!.
    + apply lookup_insert_eq.
    + intros k' Hne. left. by apply lookup_insert_ne.
    + right. done.
    + intros _. rewrite map_size_insert_None by done. lia.
Qed.

(** Without memory pressure nothing is evicted. *)
Lemma admitFrame_no_pressure now header p k :
  (size p < fabricWireReassemblyFrameLimit)%nat → k ≠ FrameID header →
  (admitFrame now header p).1.1 !! k = p !! k.
Proof.
  intros Hs Hne. unfold admitFrame. destruct (p !! FrameID header); [done|].
  rewrite bool_decide_eq_false_2 by lia. simpl. by apply lookup_insert_ne.
Qed.

End reassembler.

(** ** Lemmas: fragment slots *)

Fixpoint filled {A} (l : list (option A)) : nat :=
  match l with
  | [] => 0
  | Some _ :: l => S (filled l)
  | None :: l => filled l
  end.

Lemma filled_le {A} (l : list (option A)) : (filled l ≤ length l)%nat.
Proof. induction l as [|[x|] l IH]; simpl; lia. Qed.

Lemma filled_all {A} (l : list (option A)) i x :
  filled l = length l → l !! i = Some x → ∃ a, x = Some a.
Proof.
  revert i. induction l as [|[y|] l IH]; intros i Hf Hi; simpl in *.
  - done.
  - destruct i; simpl in *; simplify_eq; eauto.
  - pose proof (filled_le l). lia.
Qed.

Lemma filled_insert {A} (l : list (option A)) i a :
  l !! i = Some None → filled (<[i := Some a]> l) = S (filled l).
Proof.
  revert i. induction l as [|y l IH]; intros [|i] Hi; simpl in *; simplify_eq; [done|].
  destruct y; simpl; auto.
Qed.

Lemma length_assemble_insert (l : list (option (list byte))) i a :
  l !! i = Some None →
  length (concat (default [] <$> <[i := Some a]> l))
  = (length (concat (default [] <$> l)) + length a)%nat.
Proof.
  revert i. induction l as [|y l IH]; intros [|i] Hi; [done..| |].
  - injection Hi as ->. cbn. rewrite length_app. lia.
  - change (<[S i := Some a]> (y :: l)) with (y :: <[i := Some a]> l).
    rewrite !fmap_cons. cbn [concat]. rewrite !length_app, (IH i Hi). lia.
Qed.

Lemma filled_replicate {A} n : filled (replicate n (@None A)) = 0%nat.
Proof. induction n; simpl; auto. Qed.

Lemma concat_replicate_None n :
  concat (default [] <$> replicate n (@None (list byte))) = [].
Proof. induction n; simpl; auto. Qed.

(** ** The reassembler's invariant *)

(** One arrival: its time, its parsed header and its payload. *)
Abbreviation arrival := (Z * fabricWireDataHeader * list byte)%type (only parsing).

(** [part_of hist id n len i p]: the history holds a fragment [p] at index [i] of
    an [n]-fragment, [len]-byte frame [id]. *)
Definition part_of (hist : list arrival) (id n len : Z) (i : nat) (p : list byte) : Prop :=
  ∃ t h, (t, h, p) ∈ hist ∧ FrameID h = id ∧ FragCount h = n ∧ TotalLength h = len ∧
    FragIndex h = Z.of_nat i.

Record frame_ok (hist : list arrival) (id : Z) (f : pendingWireFrame) : Prop := {
  fo_length : Z.of_nat (length (fragments f)) = fragCount f;
  fo_received : received f = Z.of_nat (filled (fragments f));
  fo_incomplete : received f < fragCount f;
  fo_bytes : bytes f = Z.of_nat (length (assemble f));
  fo_parts : ∀ i p, fragments f !! i = Some (Some p) →
    part_of hist id (fragCount f) (totalLen f) i p
}.

(** Every pending frame is a consistent, incomplete collection of fragments that
    really arrived, and at most 64 frames are in flight. *)
Record reassembly_ok (hist : list arrival) (pending : pendingFrames) : Prop := {
  ro_frames : ∀ id f, pending !! id = Some f → frame_ok hist id f;
  ro_size : (size pending ≤ fabricWireReassemblyFrameLimit)%nat
}.

Lemma part_of_mono hist hist' id n len i p :
  (∀ e, e ∈ hist → e ∈ hist') → part_of hist id n len i p → part_of hist' id n len i p.
Proof. intros Hsub (t & h & Hin & ?). exists t, h. auto. Qed.

Lemma frame_ok_mono hist hist' id f :
  (∀ e, e ∈ hist → e ∈ hist') → frame_ok hist id f → frame_ok hist' id f.
Proof. intros Hsub []. constructor; auto. intros. eapply part_of_mono; eauto. Qed.

Lemma frame_ok_fresh hist now h p :
  valid_fragment h p → frame_ok hist (FrameID h) (freshFrame now h).
Proof.
  intros (_ & _ & _ & Hi & _). unfold freshFrame.
  constructor; simpl.
  - rewrite length_replicate. lia.
  - by rewrite filled_replicate.
  - lia.
  - unfold assemble. simpl. by rewrite concat_replicate_None.
  - intros i q Hq. apply lookup_replicate in Hq as [? ?]. done.
Qed.

(** Storing a fragment keeps everything but incompleteness. *)
Lemma storeFragment_facts hist now h p f :
  valid_fragment h p → frame_ok hist (FrameID h) f →
  fragCount f = FragCount h → totalLen f = TotalLength h →
  fragments f !! Z.to_nat (FragIndex h) = Some None →
  let f' := storeFragment h p f in
  Z.of_nat (length (fragments f')) = fragCount f' ∧
  received f' = Z.of_nat (filled (fragments f')) ∧
  bytes f' = Z.of_nat (length (assemble f')) ∧
  (∀ i q, fragments f' !! i = Some (Some q) →
     part_of (hist ++ [(now, h, p)]) (FrameID h) (fragCount f') (totalLen f') i q).
Proof.
  intros (_ & _ & _ & Hi & _ & Hp) [Hlen Hrec _ Hby Hparts] Hc Ht Hslot.
  unfold assemble, storeFragment in *. simpl.
  assert (copyFragment p = Some p) as -> by (destruct p; [simpl in Hp; lia|done]).
  split_and!.
  - by rewrite length_insert.
  - rewrite filled_insert by done. lia.
  - rewrite length_assemble_insert by done. lia.
  - intros i q Hq. destruct (decide (i = Z.to_nat (FragIndex h))) as [->|Hne].
    + rewrite list_lookup_insert_eq in Hq by (by eapply lookup_lt_Some). simplify_eq.
      exists now, h. split_and!; [set_solver|done|done|done|lia].
    + rewrite list_lookup_insert_ne in Hq by done. eapply part_of_mono; [|by apply Hparts].
      set_solver.
Qed.

(** One step of the reassembler, by cases on what it does to the fragment's
    frame: the whole case analysis of [absorb], shared by the theorems below. *)
Lemma absorb_cases `{!RangeOrder Z} hist now h p pending :
  valid_fragment h p → reassembly_ok hist pending →
  ∃ p2 drops f,
    p2 !! FrameID h = Some f ∧ (size p2 ≤ fabricWireReassemblyFrameLimit)%nat ∧
    frame_ok hist (FrameID h) f ∧
    (∀ k g, p2 !! k = Some g → frame_ok hist k g) ∧
    ((∃ d, absorb now h p pending = Some (Absorbed (delete (FrameID h) p2) d None)) ∨
     (∃ q, absorb now h p pending = Some (Absorbed p2 drops None) ∧
        fragments f !! Z.to_nat (FragIndex h) = Some (Some q)) ∨
     (fragCount f = FragCount h ∧ totalLen f = TotalLength h ∧
      fragments f !! Z.to_nat (FragIndex h) = Some None ∧
      let f' := storeFragment h p f in
      (received f' < fragCount f' ∧
       absorb now h p pending = Some (Absorbed (<[FrameID h := f']> p2) drops None)) ∨
      (fragCount f' ≤ received f' ∧ bytes f' = totalLen f' ∧
       absorb now h p pending
       = Some (Absorbed (delete (FrameID h) p2) drops (Some (assemble f')))))).
Proof.
  intros Hv [Hok Hsz]. unfold absorb.
  pose proof (expire_subseteq now pending) as Hsub.
  destruct (expire now pending) as [p1 expired] eqn:Hexp. simpl in Hsub.
  pose proof (admitFrame_spec now h p1) as Hadm.
  destruct (admitFrame now h p1) as [[p2 evicted] f] eqn:Hadm'.
  destruct Hadm as (Hf & Hoth & Hcase & Hsize).
  assert (∀ k g, p1 !! k = Some g → frame_ok hist k g) as Hok1.
  { intros k g Hk. apply Hok. by eapply lookup_weaken. }
  assert (frame_ok hist (FrameID h) f) as Hfok.
  { destruct Hcase as [[Hp1 _]|[_ ->]]; [by apply Hok1 | by eapply frame_ok_fresh]. }
  exists p2, (expired ++ evicted), f. split_and!.
  - done.
  - apply Hsize. etrans; [by apply map_subseteq_size | done].
  - done.
  - intros k g Hk. destruct (decide (k = FrameID h)) as [->|Hne]; [congruence|].
    destruct (Hoth k Hne) as [He|He]; rewrite Hk in He; [|done]. by apply Hok1.
  - destruct (negb _ || negb _) eqn:Hgeo; [by left; eexists|]. bool_to_prop.
    destruct (fragments f !! Z.to_nat (FragIndex h)) as [[q|]|] eqn:Hslot.
    + right. left. by exists q.
    + cbn zeta. destruct (received _ <? fragCount _) eqn:Hr; bool_to_prop.
      { right. right. split_and!; [done..|]. by left. }
      destruct (negb (bytes _ =? totalLen _)) eqn:Hb; [by left; eexists|]. bool_to_prop.
      right. right. split_and!; [done..|]. by right.
    + exfalso. apply lookup_ge_None in Hslot.
      destruct Hfok as [Hlen _ _ _ _]. destruct Hv as (_ & _ & _ & Hi & _). lia.
Qed.

(** [delivered hist (id, fr)]: [fr] is the concatenation, in index order, of one
    arrived fragment per index of frame [id], and has the advertised length. *)
Definition delivered (hist : list arrival) (out : Z * list byte) : Prop :=
  ∃ n (parts : list (list byte)),
    0 < n ∧ Z.of_nat (length parts) = n ∧ out.2 = concat parts ∧
    (∀ i p, parts !! i = Some p → part_of hist out.1 n (Z.of_nat (length out.2)) i p).

Lemma assemble_delivered hist id f :
  0 < fragCount f →
  Z.of_nat (length (fragments f)) = fragCount f →
  fragCount f ≤ Z.of_nat (filled (fragments f)) →
  totalLen f = Z.of_nat (length (assemble f)) →
  (∀ i q, fragments f !! i = Some (Some q) → part_of hist id (fragCount f) (totalLen f) i q) →
  delivered hist (id, assemble f).
Proof.
  intros Hpos Hlen Hrec Htot Hparts.
  exists (fragCount f), (default [] <$> fragments f). simpl.
  split_and!; [done| by rewrite length_fmap | done |].
  intros i p Hp. apply list_lookup_fmap_Some in Hp as (o & -> & Ho).
  assert (filled (fragments f) = length (fragments f)) as Hall
    by (pose proof (filled_le (fragments f)); lia).
  destruct (filled_all _ _ _ Hall Ho) as [q ->]. rewrite <- Htot. by apply Hparts.
Qed.

(** One step keeps the invariant, never panics, and delivers only complete
    frames. *)
Lemma absorb_step `{!RangeOrder Z} hist now h p pending :
  valid_fragment h p → reassembly_ok hist pending →
  ∃ r, absorb now h p pending = Some r ∧
    reassembly_ok (hist ++ [(now, h, p)]) (pendingAfter r) ∧
    (∀ fr, completed r = Some fr → delivered (hist ++ [(now, h, p)]) (FrameID h, fr)).
Proof.
  intros Hv Hok. destruct (absorb_cases hist now h p pending Hv Hok)
    as (p2 & drops & f & Hf & Hsz & Hfok & Hp2 & Hcase).
  assert (∀ k g, p2 !! k = Some g → frame_ok (hist ++ [(now, h, p)]) k g) as Hp2'.
  { intros k g Hk. eapply frame_ok_mono; [|by eapply Hp2]. intros. apply elem_of_app. auto. }
  assert (∀ k g, delete (FrameID h) p2 !! k = Some g →
                 frame_ok (hist ++ [(now, h, p)]) k g) as Hdel.
  { intros k g Hk. apply lookup_delete_Some in Hk as [_ Hk]. eauto. }
  assert (size (delete (FrameID h) p2) ≤ fabricWireReassemblyFrameLimit)%nat as Hdsz.
  { rewrite map_size_delete_Some by eauto. lia. }
  destruct Hcase as [[d ->]|[(q & -> & _)|(Hc & Ht & Hslot & Hcase)]];
    [by eexists; split; [done|split; [constructor|]]..|].
  pose proof (storeFragment_facts hist now h p f Hv Hfok Hc Ht Hslot)
    as (Hlen & Hrec & Hby & Hparts).
  destruct Hcase as [(Hlt & ->)|(Hge & Hb & ->)]; eexists; (split; [done|]).
  - split; [|done]. constructor; simpl.
    + intros k g Hk. destruct (decide (k = FrameID h)) as [->|Hne].
      * rewrite lookup_insert_eq in Hk. simplify_eq. by constructor.
      * rewrite lookup_insert_ne in Hk by done. eauto.
    + rewrite map_size_insert_Some by eauto. done.
  - split; [by constructor|]. intros fr [= <-].
    apply assemble_delivered with (id := FrameID h); try done.
    + destruct Hv as (_ & _ & _ & Hi & _). simpl. lia.
    + lia.
    + lia.
Qed.

Lemma absorb_run_ok `{!RangeOrder Z} events hist pending :
  (∀ t h p, (t, h, p) ∈ events → valid_fragment h p) → reassembly_ok hist pending →
  ∃ pending' frames, absorb_run events pending = Some (pending', frames) ∧
    reassembly_ok (hist ++ events) pending' ∧ Forall (delivered (hist ++ events)) frames.
Proof.
  revert hist pending. induction events as [|[[t h] p] events IH]; intros hist pending Hv Hok.
  - simpl. rewrite app_nil_r. eauto.
  - destruct (absorb_step hist t h p pending) as (r & Hr & Hok' & Hdel);
      [apply (Hv t); left|done|].
    destruct (IH (hist ++ [(t, h, p)]) (pendingAfter r)) as (p' & fs & Hrun & Hok'' & Hfs).
    { intros ??? Hin. eapply Hv. right. exact Hin. }
    { done. }
    simpl. rewrite Hr, Hrun. rewrite <- app_assoc in Hok'', Hfs. eexists _, _. split; [done|].
    split; [done|]. apply Forall_app. split; [|done].
    destruct (completed r) as [fr|]; [|constructor]. apply Forall_singleton.
    destruct (Hdel fr eq_refl) as (n & parts & ? & ? & ? & Hparts).
    exists n, parts. split_and!; try done. intros i q Hq.
    eapply part_of_mono; [|by apply Hparts].
    intros e. rewrite !elem_of_app, list_elem_of_singleton. intros [?| ->]; [by left|right; left].
Qed.

Lemma reassembly_ok_empty hist : reassembly_ok hist ∅.
Proof. constructor; [intros ? ?; by rewrite lookup_empty | by rewrite map_size_empty; lia]. Qed.

(** ** Completeness: tracking one frame through an interleaving *)

Section tracking.
Context `{!RangeOrder Z}.
Variables (id : Z) (parts : list (list byte)).

(** The slots of the tracked frame once the indices in [seen] have arrived. *)
Definition slots (seen : gset nat) : list (option (list byte)) :=
  imap (λ i p, if bool_decide (i ∈ seen) then Some p else None) parts.

Definition trackedFrame (t : Z) (seen : gset nat) : pendingWireFrame :=
  {| arrived := t; fragCount := Z.of_nat (length parts);
     totalLen := Z.of_nat (length (concat parts));
     received := Z.of_nat (filled (slots seen));
     bytes := Z.of_nat (length (concat (default [] <$> slots seen)));
     fragments := slots seen |}.

(** A fragment of the tracked frame, as the sender cuts it. *)
Definition fragment_of (h : fabricWireDataHeader) (p : list byte) : Prop :=
  FrameID h = id ∧ FragCount h = Z.of_nat (length parts) ∧
  TotalLength h = Z.of_nat (length (concat parts)) ∧
  0 ≤ FragIndex h ∧ parts !! Z.to_nat (FragIndex h) = Some p.

Definition tracked (times : list Z) (seen : gset nat) (pending : pendingFrames) : Prop :=
  (seen = ∅ ∧ pending !! id = None) ∨
  (∃ t, t ∈ times ∧ pending !! id = Some (trackedFrame t seen)).

Definition all_seen (seen : gset nat) : Prop := ∀ i, (i < length parts)%nat → i ∈ seen.

(** The indices of the tracked frame among a list of arrivals. *)
Fixpoint indices (events : list arrival) : gset nat :=
  match events with
  | [] => ∅
  | (_, h, _) :: events =>
      if bool_decide (FrameID h = id) then {[ Z.to_nat (FragIndex h) ]} ∪ indices events
      else indices events
  end.

Lemma elem_of_indices events i :
  i ∈ indices events ↔
  ∃ t h p, (t, h, p) ∈ events ∧ FrameID h = id ∧ i = Z.to_nat (FragIndex h).
Proof.
  induction events as [|[[t h] p] events IH]; simpl.
  - split; [set_solver|]. intros (? & ? & ? & []%elem_of_nil & _).
  - case_bool_decide as Hid; rewrite ?elem_of_union, ?elem_of_singleton, IH;
      setoid_rewrite elem_of_cons; naive_solver.
Qed.

Lemma length_slots seen : length (slots seen) = length parts.
Proof. apply length_imap. Qed.

Lemma lookup_slots seen i p :
  parts !! i = Some p →
  slots seen !! i = Some (if bool_decide (i ∈ seen) then Some p else None).
Proof. intros Hi. unfold slots. by rewrite list_lookup_imap, Hi. Qed.

Lemma slots_insert seen i p :
  parts !! i = Some p → <[i := Some p]> (slots seen) = slots ({[i]} ∪ seen).
Proof.
  intros Hi. apply list_eq. intros j. unfold slots. rewrite !list_lookup_imap.
  destruct (decide (i = j)) as [<-|Hne].
  - rewrite list_lookup_insert_eq by (rewrite length_imap; by eapply lookup_lt_Some).
    rewrite Hi. simpl. rewrite bool_decide_eq_true_2 by set_solver. done.
  - rewrite list_lookup_insert_ne, list_lookup_imap by done.
    destruct (parts !! j); simpl; [|done]. f_equal. rewrite (bool_decide_ext (j ∈ {[i]} ∪ seen) (j ∈ seen)) by set_solver. done.
Qed.

Lemma slots_empty : slots ∅ = replicate (length parts) None.
Proof.
  apply list_eq. intros j. unfold slots. rewrite list_lookup_imap.
  destruct (parts !! j) as [p|] eqn:Hj; simpl.
  - symmetry. apply lookup_replicate. split; [done|]. by eapply lookup_lt_Some.
  - symmetry. apply lookup_ge_None. rewrite length_replicate. by apply lookup_ge_None.
Qed.

Lemma slots_all seen : all_seen seen → slots seen = Some <$> parts.
Proof.
  intros Hall. apply list_eq. intros j. unfold slots. rewrite list_lookup_imap, list_lookup_fmap.
  destruct (parts !! j) as [p|] eqn:Hj; simpl; [|done].
  rewrite bool_decide_eq_true_2; [done|]. apply Hall. by eapply lookup_lt_Some.
Qed.

Lemma filled_slots_lt seen : ¬ all_seen seen → (filled (slots seen) < length parts)%nat.
Proof.
  intros Hn. pose proof (filled_le (slots seen)) as Hle. rewrite length_slots in Hle.
  destruct (decide (filled (slots seen) = length parts)) as [Heq|]; [|lia].
  exfalso. apply Hn. intros i Hi. apply lookup_lt_is_Some_2 in Hi as [p Hp].
  pose proof (lookup_slots seen i p Hp) as Hs.
  apply filled_all in Hs as [a Ha]; [|by rewrite length_slots].
  case_bool_decide; done.
Qed.

Lemma filled_Some {A} (l : list A) : filled (Some <$> l) = length l.
Proof. induction l; simpl; auto. Qed.

Lemma default_Some (l : list (list byte)) : default [] <$> (Some <$> l) = l.
Proof. induction l; simpl; by f_equal. Qed.

Lemma freshFrame_tracked now h p :
  fragment_of h p → freshFrame now h = trackedFrame now ∅.
Proof.
  intros (_ & Hc & Ht & _). unfold freshFrame, trackedFrame.
  rewrite Hc, Ht, slots_empty, filled_replicate, concat_replicate_None, Nat2Z.id. done.
Qed.

Lemma storeFragment_tracked h p t seen :
  fragment_of h p → valid_fragment h p → Z.to_nat (FragIndex h) ∉ seen →
  storeFragment h p (trackedFrame t seen) = trackedFrame t ({[Z.to_nat (FragIndex h)]} ∪ seen).
Proof.
  intros (_ & _ & _ & _ & Hp) (_ & _ & _ & _ & _ & Hne) Hi. unfold storeFragment, trackedFrame.
  assert (copyFragment p = Some p) as -> by (destruct p; [simpl in Hne; lia|done]).
  assert (slots seen !! Z.to_nat (FragIndex h) = Some None) as Hs.
  { rewrite (lookup_slots _ _ _ Hp). by rewrite bool_decide_eq_false_2. }
  simpl. rewrite <- (slots_insert seen _ p Hp), filled_insert, length_assemble_insert by done.
  f_equal; lia.
Qed.

(** No eviction happens when the fragment's frame is pending or there is room. *)
Definition no_pressure (k : Z) (pending : pendingFrames) : Prop :=
  pending !! k = None → (size pending < fabricWireReassemblyFrameLimit)%nat.

Lemma no_pressure_expire now k pending :
  (size ({[k]} ∪ dom pending) ≤ fabricWireReassemblyFrameLimit)%nat →
  no_pressure k (expire now pending).1.
Proof.
  intros Hs Hk. rewrite <- size_dom.
  assert (dom (expire now pending).1 ⊆ dom pending) as Hd
    by apply subseteq_dom, expire_subseteq.
  apply not_elem_of_dom in Hk.
  assert (size ({[k]} ∪ dom (expire now pending).1) ≤ size ({[k]} ∪ dom pending))%nat
    by (apply subseteq_size; set_solver).
  rewrite size_union in H by set_solver. rewrite size_singleton in H. lia.
Qed.

(** What [absorb] does to the entries of other frames. *)
Lemma absorb_other now h p pending r k :
  k ≠ FrameID h → no_pressure (FrameID h) (expire now pending).1 →
  absorb now h p pending = Some r →
  pendingAfter r !! k = (expire now pending).1 !! k.
Proof.
  intros Hk Hp. unfold absorb. destruct (expire now pending) as [p1 e]. simpl in *.
  assert ((admitFrame now h p1).1.1 !! k = p1 !! k) as Hadm.
  { unfold admitFrame. destruct (p1 !! FrameID h) eqn:E; [done|].
    rewrite bool_decide_eq_false_2 by (specialize (Hp E); lia). simpl.
    by apply lookup_insert_ne. }
  destruct (admitFrame now h p1) as [[p2 ev] f]. simpl in Hadm. rewrite <- Hadm.
  cbn zeta. intros Hr. repeat case_match; simplify_eq; simpl;
    rewrite ?lookup_delete_ne, ?lookup_insert_ne by done; done.
Qed.

Lemma absorb_dom now h p pending r :
  absorb now h p pending = Some r → dom (pendingAfter r) ⊆ {[FrameID h]} ∪ dom pending.
Proof.
  unfold absorb. pose proof (subseteq_dom _ _ (expire_subseteq now pending)) as Hd.
  destruct (expire now pending) as [p1 e]. simpl in Hd.
  pose proof (admitFrame_spec now h p1) as Hadm.
  destruct (admitFrame now h p1) as [[p2 ev] f]. destruct Hadm as (_ & Hoth & _).
  assert (dom p2 ⊆ {[FrameID h]} ∪ dom pending) as Hp2.
  { intros k Hk. destruct (decide (k = FrameID h)) as [->|Hne]; [set_solver|].
    apply elem_of_dom in Hk as [g Hg].
    destruct (Hoth k Hne) as [He|He]; rewrite Hg in He; [|done].
    apply elem_of_union_r, Hd, elem_of_dom. eauto. }
  cbn zeta. intros Hr. repeat case_match; simplify_eq; simpl;
    rewrite ?dom_delete, ?dom_insert; set_solver.
Qed.

(** The tracked frame is found (or created empty) by [admitFrame]. *)
Lemma admit_tracked times now h p pending seen :
  fragment_of h p → (∀ t, t ∈ times → now - t ≤ fabricWireReassemblyExpiry) →
  now ∈ times → tracked times seen pending →
  ∃ t p2 ev, t ∈ times ∧ p2 !! id = Some (trackedFrame t seen) ∧
    admitFrame now h (expire now pending).1 = (p2, ev, trackedFrame t seen).
Proof.
  intros Hf Hw Hnow Htr. pose proof Hf as (Hid & _).
  pose proof (lookup_expire now pending id) as Hex. unfold admitFrame. rewrite Hid.
  destruct Htr as [[-> Hk]|(t & Htin & Hk)]; rewrite Hk in Hex.
  - rewrite Hex. fold (freshFrame now h). rewrite (freshFrame_tracked now h p Hf).
    destruct (if bool_decide _ then _ else _) as [p' ev]. eexists now, _, ev.
    split; [done|]. split; [|done]. apply lookup_insert_eq.
  - unfold overdue in Hex. simpl in Hex. specialize (Hw t Htin).
    destruct (fabricWireReassemblyExpiry <? now - t) eqn:E; bool_to_prop; [lia|].
    rewrite Hex. eexists t, _, []. done.
Qed.

(** One fragment of the tracked frame: stored, ignored as a duplicate, or the
    last missing one, which delivers the frame. *)
Lemma absorb_tracked times now h p pending seen :
  fragment_of h p → valid_fragment h p → (∀ t, t ∈ times → now - t ≤ fabricWireReassemblyExpiry) →
  now ∈ times → ¬ all_seen seen → tracked times seen pending →
  ∃ r, absorb now h p pending = Some r ∧
    (all_seen ({[Z.to_nat (FragIndex h)]} ∪ seen) →
       completed r = Some (concat parts) ∧ pendingAfter r !! id = None) ∧
    (¬ all_seen ({[Z.to_nat (FragIndex h)]} ∪ seen) → completed r = None ∧
       tracked times ({[Z.to_nat (FragIndex h)]} ∪ seen) (pendingAfter r)).
Proof.
  intros Hf Hv Hw Hnow Hinc Htr.
  destruct (admit_tracked times now h p pending seen Hf Hw Hnow Htr)
    as (t & p2 & ev & Htin & Hp2 & Hadm).
  pose proof Hf as (Hid & Hc & Ht & Hi0 & Hp). set (i := Z.to_nat (FragIndex h)) in *.
  unfold absorb. destruct (expire now pending) as [p1 e]. simpl in Hadm. rewrite Hadm.
  cbn [trackedFrame fragCount totalLen]. rewrite Hc, Ht, !Z.eqb_refl. cbn [negb orb].
  change (fragments (trackedFrame t seen)) with (slots seen).
  fold i. rewrite (lookup_slots seen i p Hp). case_bool_decide as Hin.
  - replace ({[i]} ∪ seen) with seen by set_solver.
    eexists. split; [done|]. split; [done|]. intros _. split; [done|]. right. eauto.
  - rewrite (storeFragment_tracked h p t seen Hf Hv Hin). fold i. cbn zeta.
    cbn [trackedFrame received fragCount].
    destruct (_ <? _) eqn:Hr; bool_to_prop.
    + eexists. split; [done|]. split.
      * intros Hall. rewrite (slots_all _ Hall), filled_Some in Hr. lia.
      * intros _. split; [done|]. right. exists t. split; [done|]. simpl. rewrite Hid.
        apply lookup_insert_eq.
    + assert (all_seen ({[i]} ∪ seen)) as Hall.
      { destruct (decide (Forall (λ j, j ∈ {[i]} ∪ seen) (seq 0 (length parts)))) as [HF|HF].
        - intros j Hj. rewrite Forall_forall in HF. apply HF, elem_of_seq. lia.
        - exfalso. enough (filled (slots ({[i]} ∪ seen)) < length parts)%nat by lia.
          apply filled_slots_lt. intros Hall. apply HF, Forall_forall. intros j Hj%elem_of_seq. apply Hall. lia. }
      unfold assemble. simpl. rewrite (slots_all _ Hall), default_Some, Z.eqb_refl. simpl.
      eexists. split; [done|]. split; [|done]. intros _. split; [done|]. simpl. rewrite Hid.
      apply lookup_delete_eq.
Qed.

Definition frame_ids (events : list arrival) : gset Z :=
  list_to_set ((λ e, FrameID e.1.2) <$> events).

(** A legal interleaving around the tracked frame: parsed fragments, those of
    the tracked frame cut from it, all within one expiry window. *)
Definition legal (times : list Z) (events : list arrival) : Prop :=
  ∀ t h p, (t, h, p) ∈ events →
    valid_fragment h p ∧ (FrameID h = id → fragment_of h p) ∧ t ∈ times.

Lemma tracked_other times now h p pending seen r :
  FrameID h ≠ id → (∀ t, t ∈ times → now - t ≤ fabricWireReassemblyExpiry) →
  (size ({[FrameID h]} ∪ dom pending) ≤ fabricWireReassemblyFrameLimit)%nat →
  absorb now h p pending = Some r → tracked times seen pending →
  tracked times seen (pendingAfter r).
Proof.
  intros Hne Hw Hs Hr Htr. pose proof (lookup_expire now pending id) as Hex.
  rewrite <- (absorb_other now h p pending r id) in Hex;
    [|done|by apply no_pressure_expire|done].
  destruct Htr as [[-> Hk]|(t & Hin & Hk)]; rewrite Hk in Hex; [by left|].
  right. exists t. split; [done|]. rewrite Hex. unfold overdue. simpl.
  specialize (Hw t Hin). destruct (_ <? _) eqn:E; bool_to_prop; [lia|done].
Qed.

Lemma run_tracked times events hist pending seen :
  (∀ t1 t2, t1 ∈ times → t2 ∈ times → t1 - t2 ≤ fabricWireReassemblyExpiry) →
  legal times events → (size (frame_ids events ∪ dom pending) ≤ fabricWireReassemblyFrameLimit)%nat →
  reassembly_ok hist pending → tracked times seen pending → ¬ all_seen (indices events ∪ seen) →
  ∃ pending' frames, absorb_run events pending = Some (pending', frames) ∧
    tracked times (indices events ∪ seen) pending' ∧ reassembly_ok (hist ++ events) pending' ∧
    filter (λ out, out.1 = id) frames = [].
Proof.
  intros Hw. revert hist pending seen.
  induction events as [|[[t h] p] events IH]; intros hist pending seen Hl Hs Hok Htr Hinc.
  { exists pending, []. rewrite app_nil_r. simpl. replace (∅ ∪ seen) with seen by set_solver. done. }
  destruct (Hl t h p) as (Hv & Hfr & Ht); [left|].
  destruct (absorb_step hist t h p pending Hv Hok) as (r & Hr & Hok' & _).
  assert (legal times events) as Hl'. { intros ??? Hin. apply Hl. by right. }
  assert (size ({[FrameID h]} ∪ dom pending) ≤ fabricWireReassemblyFrameLimit)%nat as Hs1.
  { etrans; [|exact Hs]. apply subseteq_size. unfold frame_ids. set_solver. }
  assert (size (frame_ids events ∪ dom (pendingAfter r)) ≤ fabricWireReassemblyFrameLimit)%nat as Hs2.
  { etrans; [|exact Hs]. apply subseteq_size. pose proof (absorb_dom _ _ _ _ _ Hr).
    unfold frame_ids. set_solver. }
  set (seen' := if bool_decide (FrameID h = id) then {[Z.to_nat (FragIndex h)]} ∪ seen else seen).
  assert (indices ((t, h, p) :: events) ∪ seen = indices events ∪ seen') as Hseen.
  { unfold seen'. simpl. case_bool_decide; set_solver. }
  assert (tracked times seen' (pendingAfter r) ∧ (FrameID h = id → completed r = None)) as [Htr' Hnone].
  { unfold seen'. case_bool_decide as Hid; [|split; [|done]; by eapply tracked_other; eauto].
    destruct (absorb_tracked times t h p pending seen) as (r' & Hr' & _ & Hcont); auto.
    { intros Hall. apply Hinc. intros i Hi. specialize (Hall i Hi). set_solver. }
    rewrite Hr in Hr'. simplify_eq. destruct Hcont as [? ?]; [|done].
    intros Hall. apply Hinc. rewrite Hseen. unfold seen'.
    intros i Hi. specialize (Hall i Hi). set_solver. }
  rewrite Hseen in Hinc |- *.
  destruct (IH (hist ++ [(t, h, p)]) (pendingAfter r) seen' Hl' Hs2 Hok' Htr' Hinc)
    as (pending' & frames & Hrun & Htr'' & Hok'' & Hnil).
  simpl. rewrite Hr, Hrun. rewrite <- app_assoc in Hok''. eexists _, _. split_and!; try done.
  rewrite filter_app, Hnil, app_nil_r. destruct (completed r) eqn:Hc; [|done].
  simpl. rewrite filter_cons_False; [done|]. simpl. intros Hid. by specialize (Hnone Hid).
Qed.

Lemma absorb_run_snoc events e pending pending' frames :
  absorb_run events pending = Some (pending', frames) →
  absorb_run (events ++ [e]) pending
  = match absorb e.1.1 e.1.2 e.2 pending' with
    | None => None
    | Some r => Some (pendingAfter r, frames ++ (pair (FrameID e.1.2) <$> option_list (completed r)))
    end.
Proof.
  destruct e as [[t h] p]. simpl.
  revert pending frames. induction events as [|[[t' h'] p'] events IH]; intros pending frames; simpl.
  - intros [= <- <-]. destruct (absorb t h p pending) as [r|]; [|done].
    by rewrite app_nil_r.
  - destruct (absorb t' h' p' pending) as [r|]; [|done].
    destruct (absorb_run events (pendingAfter r)) as [[pe fs]|] eqn:Hrun; [|done].
    intros [= <- <-]. rewrite (IH _ _ Hrun).
    destruct (absorb t h p pe) as [r'|]; [|done]. by rewrite app_assoc.
Qed.

(** The tracked frame is delivered, once, by the event that completes it. *)
Lemma run_delivers times pre t h p hist pending :
  (∀ t1 t2, t1 ∈ times → t2 ∈ times → t1 - t2 ≤ fabricWireReassemblyExpiry) →
  legal times (pre ++ [(t, h, p)]) →
  (size (frame_ids (pre ++ [(t, h, p)]) ∪ dom pending) ≤ fabricWireReassemblyFrameLimit)%nat →
  reassembly_ok hist pending → pending !! id = None → FrameID h = id →
  Z.to_nat (FragIndex h) ∉ indices pre →
  (∀ i, (i < length parts)%nat → i = Z.to_nat (FragIndex h) ∨ i ∈ indices pre) →
  ∃ pending' frames,
    absorb_run (pre ++ [(t, h, p)]) pending = Some (pending', frames) ∧
    filter (λ out, out.1 = id) frames = [(id, concat parts)].
Proof.
  intros Hw Hl Hs Hok Hnone Hid Hnew Hall.
  destruct (Hl t h p) as (Hv & Hfr & Ht); [apply elem_of_app; right; left|]. specialize (Hfr Hid).
  assert (¬ all_seen (indices pre ∪ ∅)) as Hinc.
  { destruct Hfr as (_ & _ & _ & _ & Hp). apply lookup_lt_Some in Hp. intros Ha.
    specialize (Ha _ Hp). set_solver. }
  destruct (run_tracked times pre hist pending ∅) as (pe & fs & Hrun & Htr & _ & Hnil); try done.
  { intros ??? Hin. apply Hl. apply elem_of_app. by left. }
  { etrans; [|exact Hs]. apply subseteq_size. unfold frame_ids.
    rewrite fmap_app, list_to_set_app. set_solver. }
  { by left. }
  destruct (absorb_tracked times t h p pe (indices pre ∪ ∅)) as (r & Hr & Hdone & _); auto.
  rewrite (absorb_run_snoc _ _ _ _ _ Hrun). simpl. rewrite Hr.
  destruct Hdone as [-> _]; [intros i Hi; specialize (Hall i Hi); set_solver|].
  eexists _, _. split; [done|]. rewrite filter_app, Hnil. simpl.
  rewrite filter_cons_True by done. by rewrite Hid.
Qed.

(** How often a sequence of arrivals makes up the tracked frame: the indices are collected,
    and start over each time they are all there. *)
Definition collected (seen : gset nat) : bool :=
  bool_decide (Forall (λ i, i ∈ seen) (seq 0 (length parts))).

Fixpoint rounds (seen : gset nat) (events : list arrival) : nat :=
  match events with
  | [] => 0
  | (_, h, _) :: events =>
      if bool_decide (FrameID h = id) then
        let seen := {[ Z.to_nat (FragIndex h) ]} ∪ seen in
        if collected seen then S (rounds ∅ events) else rounds seen events
      else rounds seen events
  end.

(** How many arrivals carry fragment [i] of the tracked frame. *)
Definition copies (i : nat) (events : list arrival) : nat :=
  length (filter (λ e, FrameID e.1.2 = id ∧ Z.to_nat (FragIndex e.1.2) = i) events).

Lemma collected_spec seen : collected seen = true ↔ all_seen seen.
Proof.
  unfold collected, all_seen. rewrite bool_decide_eq_true, Forall_forall. setoid_rewrite elem_of_seq.
  split; intros H i Hi; apply H; lia.
Qed.

(** A frame that was not there yet is made up once its missing fragments arrive. *)
Lemma rounds_complete events seen :
  ¬ all_seen seen → all_seen (indices events ∪ seen) → (1 ≤ rounds seen events)%nat.
Proof.
  revert seen. induction events as [|[[t h] p] events IH]; intros seen Hn Hall; simpl in *.
  { destruct Hn. intros i Hi. specialize (Hall i Hi). set_solver. }
  case_bool_decide as Hid; [|by apply IH].
  destruct (collected _) eqn:E; [lia|]. apply IH.
  - rewrite <- collected_spec. congruence.
  - intros i Hi. specialize (Hall i Hi). set_solver.
Qed.

(** Each time takes a copy of every fragment. *)
Lemma rounds_copies events seen i :
  (i < length parts)%nat → (rounds seen events ≤ copies i events + if bool_decide (i ∈ seen) then 1 else 0)%nat.
Proof.
  intros Hi. unfold copies. revert seen. induction events as [|[[t h] p] events IH]; intros seen; simpl; [lia|].
  rewrite filter_cons. simpl. case_bool_decide as Hid; [|rewrite decide_False by tauto; apply IH].
  set (j := Z.to_nat (FragIndex h)). set (rest := filter _ events) in *.
  assert (length (if decide (FrameID h = id ∧ j = i) then (t, h, p) :: rest else rest)
    = (length rest + if decide (j = i) then 1 else 0)%nat) as ->.
  { destruct (decide (j = i)); [rewrite decide_True by done|rewrite decide_False by tauto]; simpl; lia. }
  destruct (collected ({[j]} ∪ seen)) eqn:E.
  - specialize (IH ∅). rewrite bool_decide_eq_false_2 in IH by set_solver.
    apply collected_spec in E. specialize (E i Hi). apply elem_of_union in E.
    destruct (decide (j = i)); [case_bool_decide; lia|]. rewrite bool_decide_eq_true_2 by set_solver. lia.
  - specialize (IH ({[j]} ∪ seen)). destruct (decide (j = i)) as [->|Hne].
    + rewrite bool_decide_eq_true_2 in IH by set_solver. case_bool_decide; lia.
    + rewrite (bool_decide_ext (i ∈ {[j]} ∪ seen) (i ∈ seen)) in IH by set_solver. lia.
Qed.

(** A run delivers the tracked frame each time its fragments make it up. *)
Lemma run_rounds times events hist pending seen :
  (∀ t1 t2, t1 ∈ times → t2 ∈ times → t1 - t2 ≤ fabricWireReassemblyExpiry) →
  legal times events → (size (frame_ids events ∪ dom pending) ≤ fabricWireReassemblyFrameLimit)%nat →
  reassembly_ok hist pending → tracked times seen pending → ¬ all_seen seen → parts ≠ [] →
  ∃ pending' frames, absorb_run events pending = Some (pending', frames) ∧
    filter (λ out, out.1 = id) frames = replicate (rounds seen events) (id, concat parts).
Proof.
  intros Hw. revert hist pending seen.
  induction events as [|[[t h] p] events IH]; intros hist pending seen Hl Hs Hok Htr Hinc Hne.
  { by exists pending, []. }
  destruct (Hl t h p) as (Hv & Hfr & Ht); [left|].
  destruct (absorb_step hist t h p pending Hv Hok) as (r & Hr & Hok' & _).
  assert (legal times events) as Hl'. { intros ??? Hin. apply Hl. by right. }
  assert (size ({[FrameID h]} ∪ dom pending) ≤ fabricWireReassemblyFrameLimit)%nat as Hs1.
  { etrans; [|exact Hs]. apply subseteq_size. unfold frame_ids. set_solver. }
  assert (size (frame_ids events ∪ dom (pendingAfter r)) ≤ fabricWireReassemblyFrameLimit)%nat as Hs2.
  { etrans; [|exact Hs]. apply subseteq_size. pose proof (absorb_dom _ _ _ _ _ Hr).
    unfold frame_ids. set_solver. }
  assert (∀ seen' (own : list (Z * list byte)), tracked times seen' (pendingAfter r) → ¬ all_seen seen' →
    filter (λ out, out.1 = id) (pair (FrameID h) <$> option_list (completed r)) = own →
    ∃ pending' frames, absorb_run ((t, h, p) :: events) pending = Some (pending', frames) ∧
      filter (λ out, out.1 = id) frames = own ++ replicate (rounds seen' events) (id, concat parts)) as Hgo.
  { intros seen' own Htr' Hinc' Hown. cbn [absorb_run]. rewrite Hr.
    destruct (IH _ (pendingAfter r) seen' Hl' Hs2 Hok' Htr' Hinc' Hne) as (pending' & frames & -> & Hf).
    eexists _, _. split; [done|]. by rewrite filter_app, Hown, Hf. }
  simpl rounds. case_bool_decide as Hid.
  - destruct (absorb_tracked times t h p pending seen) as (r' & Hr' & Hdone & Hcont); auto.
    rewrite Hr in Hr'. simplify_eq. destruct (collected _) eqn:E.
    + apply collected_spec in E. destruct (Hdone E) as [Hc Hnone].
      apply (Hgo ∅ [(id, concat parts)]); [by left| |rewrite Hc].
      2: { simpl. rewrite filter_cons_True by done. by rewrite Hid. }
      intros Ha. assert (0 < length parts)%nat as Hlen by (destruct parts; [done|simpl; lia]).
      specialize (Ha 0%nat Hlen). set_solver.
    + assert (¬ all_seen ({[Z.to_nat (FragIndex h)]} ∪ seen)) as Hn by (rewrite <- collected_spec; congruence).
      destruct (Hcont Hn) as [Hc Htr']. apply (Hgo _ []); [done..|]. by rewrite Hc.
  - apply (Hgo seen []); [by eapply tracked_other; eauto|done|].
    destruct (completed r); [|done]. simpl. by rewrite filter_cons_False.
Qed.

Lemma absorb_run_ids events pending pending' frames out :
  absorb_run events pending = Some (pending', frames) → out ∈ frames →
  ∃ e, e ∈ events ∧ out.1 = FrameID e.1.2.
Proof.
  revert pending frames. induction events as [|[[t h] p] events IH]; intros pending frames; simpl.
  - intros [= <- <-] []%elem_of_nil.
  - destruct (absorb t h p pending) as [r|]; [|done].
    destruct (absorb_run events (pendingAfter r)) as [[pe fs]|] eqn:Hrun; [|done].
    intros [= <- <-] [Hin|Hin]%elem_of_app.
    + apply list_elem_of_fmap in Hin as (x & -> & _). eexists. split; [left|done].
    + destruct (IH _ _ Hrun Hin) as (e & He & Heq). exists e. split; [by right|done].
Qed.

End tracking.

(** ** The reassembler's contract *)

(** C6: soundness of reassembly, whatever fragments arrive and whatever order Go
    ranges over the pending map: a run of [absorb] over parsed fragments never
    panics, never holds more than 64 in-flight frames, and delivers only frames
    that are the concatenation of one arrived fragment per index and have the
    advertised length, so that a lost fragment loses its frame and a damaged
    frame is never delivered. *)
Theorem reassembly_sound `{!RangeOrder Z} events :
  (∀ t h p, (t, h, p) ∈ events → valid_fragment h p) →
  ∃ pending frames,
    absorb_run events newWireReassembler = Some (pending, frames) ∧
    (size pending ≤ fabricWireReassemblyFrameLimit)%nat ∧
    Forall (delivered events) frames.
Proof.
  intros Hv. destruct (absorb_run_ok events [] newWireReassembler Hv)
    as (pending & frames & Hrun & [_ Hs] & Hd); [apply reassembly_ok_empty|].
  by exists pending, frames.
Qed.

(** Two fragments of frame 9 and one of frame 5, interleaved, one duplicated. *)
Definition sample_header (fid i n len : Z) : fabricWireDataHeader :=
  {| LinkID := 7; FrameID := fid; FragIndex := i; FragCount := n; TotalLength := len |}.

Definition sample_arrivals : list arrival :=
  [ (100, sample_header 9 1 2 3, [12]); (105, sample_header 5 0 2 2, [1]);
    (110, sample_header 9 1 2 3, [12]) ].

Lemma reassembly_sound_witness :
  ∃ pending frames,
    @absorb_run canonical_range (sample_arrivals ++ [(120, sample_header 9 0 2 3, [10; 11])])
      newWireReassembler = Some (pending, frames) ∧
    (size pending ≤ fabricWireReassemblyFrameLimit)%nat ∧
    Forall (delivered (sample_arrivals ++ [(120, sample_header 9 0 2 3, [10; 11])])) frames.
Proof.
  apply (@reassembly_sound canonical_range). intros t h p Hin.
  repeat (apply elem_of_cons in Hin as [[= -> -> ->]|Hin];
    [unfold valid_fragment, u32, u16; simpl; lia|]).
  by apply elem_of_nil in Hin.
Defined.

(** C4: completeness of reassembly, with duplicates: when the fragments
    [splitFabricWireFrame] cuts from a frame arrive in any order, any number of times each,
    before and after the frame is complete, interleaved with fragments of other frames,
    within 100 ms and with at most 64 frames in flight, the frame is delivered unchanged,
    exactly as often as the arrivals make it up from the start ([rounds]).  That is at least
    once when every fragment arrives, and never more often than any one fragment arrives: so
    exactly once when some fragment is not duplicated, whatever happens to the others. *)
Theorem reassembly_deliveries `{!RangeOrder Z} frame ps frags id events :
  splitFabricWireFrame frame ps = Ok frags →
  let times := (λ e : arrival, e.1.1) <$> events in
  legal id frags times events →
  (∀ t1 t2, t1 ∈ times → t2 ∈ times → t1 - t2 ≤ fabricWireReassemblyExpiry) →
  (size (frame_ids events) ≤ fabricWireReassemblyFrameLimit)%nat →
  let n := rounds id frags ∅ events in
  (∃ pending frames,
    absorb_run events newWireReassembler = Some (pending, frames) ∧
    filter (λ out, out.1 = id) frames = replicate n (id, frame)) ∧
  ((∀ i, (i < length frags)%nat → i ∈ indices id events) → (1 ≤ n)%nat) ∧
  ∀ i, (i < length frags)%nat → (n ≤ copies id i events)%nat.
Proof.
  intros Hsplit times Hl Hw Hs n.
  assert (frags ≠ []) as Hne.
  { apply split_reassembles in Hsplit as (_ & _ & [H _] & _). intros ->. simpl in H. lia. }
  assert (¬ all_seen frags ∅) as Hnone.
  { intros Ha. destruct frags as [|x l]; [done|]. specialize (Ha 0%nat ltac:(simpl; lia)). set_solver. }
  split_and!.
  - rewrite <- (split_concat _ _ _ Hsplit).
    apply (run_rounds id frags times events [] newWireReassembler ∅); try done.
    + unfold newWireReassembler. by rewrite dom_empty_L, union_empty_r_L.
    + apply reassembly_ok_empty.
    + by left.
  - intros Hall. apply rounds_complete; [done|]. intros i Hi. specialize (Hall i Hi). set_solver.
  - intros i Hi. pose proof (rounds_copies id frags events ∅ i Hi) as H.
    rewrite bool_decide_eq_false_2 in H by set_solver. unfold n. lia.
Qed.

(** Frame 9 is complete with the third of its arrivals; the duplicate that follows is one of
    the other fragment only, and the frame is not delivered again. *)
Definition duplicated_arrivals : list arrival :=
  sample_arrivals ++ [(120, sample_header 9 0 2 3, [10; 11]); (130, sample_header 9 1 2 3, [12])].

Lemma reassembly_deliveries_witness :
  (∃ pending frames,
    @absorb_run canonical_range duplicated_arrivals newWireReassembler = Some (pending, frames) ∧
    filter (λ out, out.1 = 9) frames = [(9, [10; 11; 12])]) ∧
  copies 9 0 duplicated_arrivals = 1%nat ∧ copies 9 1 duplicated_arrivals = 3%nat.
Proof.
  split; [|by vm_compute].
  apply (@reassembly_deliveries canonical_range [10; 11; 12] 2 [[10; 11]; [12]] 9 duplicated_arrivals).
  - reflexivity.
  - intros t h p Hin. simpl in Hin.
    repeat (apply elem_of_cons in Hin as [[= -> -> ->]|Hin];
      [unfold valid_fragment, fragment_of, u32, u16; simpl; split_and!; try lia; try done;
       try (by intros ?); set_solver|]).
    by apply elem_of_nil in Hin.
  - intros t1 t2 H1 H2. simpl in H1, H2. rewrite !elem_of_cons, elem_of_nil in H1, H2.
    unfold fabricWireReassemblyExpiry, millisecond. lia.
  - apply (bool_decide_unpack _). vm_compute. exact I.
Defined.

(** A duplicate of the whole frame delivers it again. *)
Example duplicated_frame_delivered_twice :
  let fragment i p := (100, sample_header 9 i 2 3, p) in
  let events := [fragment 0 [10; 11]; fragment 1 [12]; fragment 0 [10; 11]; fragment 1 [12]] in
  snd <$> @absorb_run canonical_range events newWireReassembler = Some [(9, [10; 11; 12]); (9, [10; 11; 12])].
Proof. vm_compute. reflexivity. Qed.
