(* ===== verification/WireSession.v ===== *)
(** * The fabric wire: peer sessions and carrier propagation

    Models the state machine of [internal/directruntime/wire_linux.go]: one
    sidecar's links, peer sessions and the handlers that run under [w.mu]
    (registration, sweep, datagrams, leg observations, the periodic tick, peer
    re-resolution, frame transmission).  A handler is a function from the wire
    state to the next one and to the list of kernel calls it makes, in order.
    The kernel's answers are arguments ([kernel]); times are nanoseconds, with
    Go's zero [time.Time] far in the past; log lines are not modelled.  [None]
    is a run-time panic: an index out of range in the reassembler, or closing a
    link's stop channel twice. *)

From S2P Require Import Prelude WireCodec WireReassembly.
Local Open Scope Z_scope.

(** ** Data *)

Definition fabricWireSessionTimeout : Z := 3 * second + 500 * millisecond.
Definition fabricWireResolveInterval : Z := 2 * second.
Definition fabricWireFrameHeadroom : Z := 22.
Definition fabricWireCarrierSettleWindow : Z := 500 * millisecond.

(** Go's zero [time.Time], in nanoseconds from the Unix epoch. *)
Definition zeroTime : Z := -62135596800 * second.

(** [netip.Addr]: the zero value, an IPv4 address or an IPv6 address with a
    zone. *)
Inductive addr :=
| AddrInvalid
| Addr4 (v : Z)
| Addr6 (v : Z) (zone : string).

#[export] Instance addr_eq_dec : EqDecision addr.
Proof. solve_decision. Defined.

#[export] Instance addr_countable : Countable addr.
Proof.
  refine (inj_countable'
    (λ a, match a with
          | AddrInvalid => inl ()
          | Addr4 v => inr (inl v)
          | Addr6 v z => inr (inr (v, z))
          end)
    (λ c, match c with
          | inl _ => AddrInvalid
          | inr (inl v) => Addr4 v
          | inr (inr (v, z)) => Addr6 v z
          end) _).
  by intros [].
Defined.

Definition addrIsValid (a : addr) : bool :=
  match a with AddrInvalid => false | _ => true end.

(** [Addr.Unmap]: an IPv4-mapped IPv6 address becomes the IPv4 one. *)
Definition addrUnmap (a : addr) : addr :=
  match a with
  | Addr6 v _ => if Z.shiftr v 32 =? 65535 then Addr4 (Z.land v (2 ^ 32 - 1)) else a
  | _ => a
  end.

Record fabricWireLinkSpec := FabricWireLinkSpec {
  SpecLinkID : Z;
  Owner : string;
  LegName : string;
  PeerTransport : string;
  PeerAddress : addr;
  MTU : Z
}.

(** The per-link counters, all [uint64]. *)
Record fabricWireLinkCounters := FabricWireLinkCounters {
  txFrames : Z;
  txFragments : Z;
  rxFrames : Z;
  rxFragments : Z;
  dropExpiry : Z;
  dropMemoryCap : Z;
  dropGeometry : Z;
  dropOversize : Z;
  dropStaleGeneration : Z;
  dropForeignSource : Z;
  dropUnresolvedPeer : Z;
  dropSendFull : Z;
  dropInject : Z
}.
#[export] Instance fabricWireLinkCounters_updatable : Updatable fabricWireLinkCounters :=
  λ c, FabricWireLinkCounters (txFrames c) (txFragments c) (rxFrames c) (rxFragments c)
         (dropExpiry c) (dropMemoryCap c) (dropGeometry c) (dropOversize c)
         (dropStaleGeneration c) (dropForeignSource c) (dropUnresolvedPeer c)
         (dropSendFull c) (dropInject c).

(** [+=] on a [uint64]. *)
Definition add64 (n v : Z) : Z := (v + n) mod 2 ^ 64.
Definition inc64 : Z → Z := add64 1.

Definition zeroCounters : fabricWireLinkCounters :=
  FabricWireLinkCounters 0 0 0 0 0 0 0 0 0 0 0 0 0.

(** [stopClosed] is whether the [stop] channel of the current capture pump has
    been closed. *)
Record fabricWireLink := FabricWireLink {
  linkID : Z;
  owner : string;
  legName : string;
  legIndex : Z;
  packetFD : Z;
  peerTransport : string;
  peerAddr : addr;
  mtu : Z;
  lastLocalUp : bool;
  remoteOperUp : bool;
  forcedDown : bool;
  settleUntil : Z;
  frameID : Z;
  reassembler : gmap Z pendingWireFrame;
  counters : fabricWireLinkCounters;
  reported : fabricWireLinkCounters;
  resolveInFlight : bool;
  lastResolve : Z;
  stopClosed : bool
}.
#[export] Instance fabricWireLink_updatable : Updatable fabricWireLink :=
  λ l, FabricWireLink (linkID l) (owner l) (legName l) (legIndex l) (packetFD l)
         (peerTransport l) (peerAddr l) (mtu l) (lastLocalUp l) (remoteOperUp l) (forcedDown l)
         (settleUntil l) (frameID l) (reassembler l) (counters l) (reported l)
         (resolveInFlight l) (lastResolve l) (stopClosed l).

Record fabricWireSession := FabricWireSession {
  remote : addr;
  sessionGeneration : Z;
  generationKnown : bool;
  lastHeard : Z;
  up : bool
}.
#[export] Instance fabricWireSession_updatable : Updatable fabricWireSession :=
  λ s, FabricWireSession (remote s) (sessionGeneration s) (generationKnown s) (lastHeard s) (up s).

Record fabricWire := FabricWire {
  FragmentPayload : Z;
  generation : Z;
  links : gmap Z fabricWireLink;
  byLeg : gmap Z Z;
  sessions : gmap addr fabricWireSession;
  closed : bool
}.
#[export] Instance fabricWire_updatable : Updatable fabricWire :=
  λ w, FabricWire (FragmentPayload w) (generation w) (links w) (byLeg w) (sessions w) (closed w).

(** The kernel calls a handler makes. *)
Inductive effect :=
| LegSetDown (index : Z)
| LegSetUp (index : Z)
| SendDatagrams (peer : addr) (datagrams : list (list byte))
| InjectFrame (fd : Z) (frame : list byte)
| StartPump (id fd : Z)
| StopPump (id : Z)
| ResolvePeer (id : Z).

(** The kernel's answers during one handler: the clock as read while a link is
    handled, whether a leg index resolves, whether the set-down, set-up and
    injection calls succeed, and a leg's sampled oper state. *)
Record kernel := Kernel {
  clock : Z → Z;
  linkByIndex : Z → bool;
  linkSetDown : Z → bool;
  linkSetUp : Z → bool;
  legOperUp : Z → option bool;
  injectOk : Z → list byte → bool
}.

(** ** Carrier propagation *)

(** A link whose peer session is up and whose peer advertises carrier. *)
Definition remoteUp (ss : gmap addr fabricWireSession) (link : fabricWireLink) : bool :=
  match ss !! peerAddr link with
  | Some session => up session && remoteOperUp link
  | None => false
  end.

Definition applyLinkCarrierLocked (k : kernel) (ss : gmap addr fabricWireSession)
    (link : fabricWireLink) : fabricWireLink * list effect :=
  let desired := lastLocalUp link && negb (remoteUp ss link) in
  if eqb desired (forcedDown link) then (link, [])
  else
    let link := link <| forcedDown := desired |> in
    if negb (linkByIndex k (legIndex link)) then (link, [])
    else if desired then (link, [LegSetDown (legIndex link)])
    else if linkSetUp k (legIndex link)
    then (link <| settleUntil := clock k (linkID link) + fabricWireCarrierSettleWindow |>,
          [LegSetUp (legIndex link)])
    else (link, [LegSetUp (legIndex link)]).

Section wire.
Context `{!RangeOrder Z, !RangeOrder addr}.

(** A loop over [w.links] whose body changes only its own link. *)
Definition rangeLinks (body : fabricWireLink → fabricWireLink * list effect)
    (ls : gmap Z fabricWireLink) : gmap Z fabricWireLink * list effect :=
  ((λ link, (body link).1) <$> ls,
   concat ((λ entry : Z * fabricWireLink, (body entry.2).2) <$> range_list ls)).

Definition applyPeerCarrierLocked (k : kernel) (w : fabricWire) (source : addr) :
    fabricWire * list effect :=
  let '(ls, effects) :=
    rangeLinks (λ link, if bool_decide (peerAddr link = source)
                        then applyLinkCarrierLocked k (sessions w) link else (link, []))
      (links w) in
  (w <| links := ls |>, effects).

Definition advertiseLinkLocked (w : fabricWire) (link : fabricWireLink) : list effect :=
  if negb (addrIsValid (peerAddr link)) then []
  else [SendDatagrams (peerAddr link)
          [encodeFabricWireLinkStates (generation w)
             [ {| StateLinkID := linkID link; OperUp := lastLocalUp link |} ]]].

Definition observeLegStateLocked (k : kernel) (w : fabricWire) (operUp : bool)
    (link : fabricWireLink) : fabricWireLink * list effect :=
  if forcedDown link || eqb (lastLocalUp link) operUp then (link, [])
  else if negb operUp && (clock k (linkID link) <? settleUntil link) then (link, [])
  else
    let '(link, applied) :=
      applyLinkCarrierLocked k (sessions w) (link <| lastLocalUp := operUp |>) in
    (link, applied ++ advertiseLinkLocked w link).

(** The body of [watchLinks] for one netlink update. *)
Definition watchLink (k : kernel) (index : Z) (operUp : bool) (w : fabricWire) :
    fabricWire * list effect :=
  match byLeg w !! index with
  | None => (w, [])
  | Some id =>
      match links w !! id with
      | None => (w, [])
      | Some link =>
          let '(link, effects) := observeLegStateLocked k w operUp link in
          (w <| links ::= <[id := link]> |>, effects)
      end
  end.

(** ** Peer sessions *)

Definition sessionReferencedLocked (w : fabricWire) (remote : addr) : bool :=
  contains_func (λ entry : Z * fabricWireLink, bool_decide (peerAddr entry.2 = remote))
    (range_list (links w)).

Definition resetPeerLinksLocked (source : addr) (w : fabricWire) : fabricWire :=
  w <| links ::= fmap (λ link,
         if bool_decide (peerAddr link = source)
         then link <| reassembler := newWireReassembler |> <| remoteOperUp := false |>
         else link) |>.

(** [refreshSessionLocked]: the state after the datagram is accepted into its
    session, or [None] when the code returns nil (nothing is changed then). *)
Definition refreshSessionLocked (now : Z) (source : addr) (gen : Z) (w : fabricWire) :
    option fabricWire :=
  let opened :=
    match sessions w !! source with
    | Some session => Some session
    | None =>
        if negb (sessionReferencedLocked w source) then None
        else Some {| remote := source; sessionGeneration := 0; generationKnown := false;
                     lastHeard := zeroTime; up := false |}
    end in
  match opened with
  | None => None
  | Some session =>
      let displaced := generationKnown session && negb (sessionGeneration session =? gen) in
      if displaced && (gen <? sessionGeneration session)
         && (now - lastHeard session <=? fabricWireSessionTimeout)
      then None
      else
        let w := if displaced then resetPeerLinksLocked source w else w in
        let session :=
          if negb (generationKnown session) || negb (sessionGeneration session =? gen)
          then session <| sessionGeneration := gen |> <| generationKnown := true |>
          else session in
        let session := session <| lastHeard := now |> <| up := true |> in
        Some (w <| sessions ::= <[source := session]> |>)
  end.

(** ** Received datagrams *)

Definition bumpDrop (cause : fabricWireDropCause) (c : fabricWireLinkCounters) :
    fabricWireLinkCounters :=
  match cause with
  | fabricWireDropNone => c
  | fabricWireDropExpiry => c <| dropExpiry ::= inc64 |>
  | fabricWireDropMemoryCap => c <| dropMemoryCap ::= inc64 |>
  | fabricWireDropGeometry => c <| dropGeometry ::= inc64 |>
  | fabricWireDropOversize => c <| dropOversize ::= inc64 |>
  end.

Definition bumpDrops (causes : list fabricWireDropCause) (c : fabricWireLinkCounters) :
    fabricWireLinkCounters :=
  foldl (λ c cause, bumpDrop cause c) c causes.

(** The link's part of [handleData], once its session accepted the fragment. *)
Definition receiveFragment (k : kernel) (now : Z) (header : fabricWireDataHeader)
    (payload : list byte) (link : fabricWireLink) : option (fabricWireLink * list effect) :=
  let link := link <| counters ::= set_field rxFragments inc64 |> in
  match absorb now header payload (reassembler link) with
  | None => None
  | Some r =>
      let link := link <| reassembler := pendingAfter r |>
                       <| counters ::= bumpDrops (dropsAfter r) |> in
      match completed r with
      | None => Some (link, [])
      | Some assembled =>
          if mtu link + fabricWireFrameHeadroom <? Z.of_nat (length assembled)
          then Some (link <| counters ::= set_field dropOversize inc64 |>, [])
          else
            let link := link <| counters ::= set_field rxFrames inc64 |> in
            let link := if injectOk k (packetFD link) assembled then link
                        else link <| counters ::= set_field dropInject inc64 |> in
            Some (link, [InjectFrame (packetFD link) assembled])
      end
  end.

Definition handleData (k : kernel) (now : Z) (source : addr) (gen : Z)
    (header : fabricWireDataHeader) (payload : list byte) (w : fabricWire) :
    option (fabricWire * list effect) :=
  match links w !! LinkID header with
  | None => Some (w, [])
  | Some link =>
      if negb (bool_decide (peerAddr link = source))
      then Some (w <| links ::= <[LinkID header :=
                   link <| counters ::= set_field dropForeignSource inc64 |>]> |>, [])
      else
        match refreshSessionLocked now source gen w with
        | None =>
            Some (w <| links ::= <[LinkID header :=
                    link <| counters ::= set_field dropStaleGeneration inc64 |>]> |>, [])
        | Some w =>
            let '(w, applied) := applyPeerCarrierLocked k w source in
            match links w !! LinkID header with
            | None => None
            | Some link =>
                match receiveFragment k now header payload link with
                | None => None
                | Some (link, injected) =>
                    Some (w <| links ::= <[LinkID header := link]> |>, applied ++ injected)
                end
            end
        end
  end.

(** One advertised state of [handleLinkStates]. *)
Definition noteLinkState (source : addr) (ls : gmap Z fabricWireLink)
    (state : fabricWireLinkState) : gmap Z fabricWireLink :=
  match ls !! StateLinkID state with
  | None => ls
  | Some link =>
      if negb (bool_decide (peerAddr link = source)) then ls
      else <[StateLinkID state := link <| remoteOperUp := OperUp state |>]> ls
  end.

Definition handleLinkStates (k : kernel) (now : Z) (source : addr) (gen : Z)
    (states : list fabricWireLinkState) (w : fabricWire) : fabricWire * list effect :=
  match refreshSessionLocked now source gen w with
  | None => (w, [])
  | Some w =>
      applyPeerCarrierLocked k
        (w <| links ::= λ ls, foldl (noteLinkState source) ls states |>) source
  end.

Definition handleHeartbeat (k : kernel) (now : Z) (source : addr) (gen : Z) (w : fabricWire) :
    fabricWire * list effect :=
  match refreshSessionLocked now source gen w with
  | None => (w, [])
  | Some w => applyPeerCarrierLocked k w source
  end.

Definition handleDatagram (k : kernel) (now : Z) (source : addr) (datagram : list byte)
    (w : fabricWire) : option (fabricWire * list effect) :=
  match parseFabricWireHeader datagram with
  | Err _ => Some (w, [])
  | Ok (header, body) =>
      if MsgType header =? fabricWireMsgData then
        match parseFabricWireDataHeader body with
        | Err _ => Some (w, [])
        | Ok (dataHeader, payload) =>
            handleData k now source (Generation header) dataHeader payload w
        end
      else if MsgType header =? fabricWireMsgLinkState then
        match parseFabricWireLinkStates body with
        | Err _ => Some (w, [])
        | Ok states => Some (handleLinkStates k now source (Generation header) states w)
        end
      else if MsgType header =? fabricWireMsgHeartbeat then
        Some (handleHeartbeat k now source (Generation header) w)
      else Some (w, [])
  end.

(** ** Registration, sweep and shutdown *)

(** What the kernel answers to a registration: the leg's index and oper state,
    and the capture socket opened on it. *)
Record legAnswer := LegAnswer {
  legByName : option (Z * bool);
  openCapture : option Z
}.

Inductive ensureError :=
| errIncompleteRegistration
| errReadingLeg (legName : string)
| errWireClosed
| errOpeningCapture.

Definition newWireLink (k : kernel) (spec : fabricWireLinkSpec) (index : Z) (operUp : bool)
    (fd : Z) : fabricWireLink :=
  {| linkID := SpecLinkID spec; owner := ""; legName := ""; legIndex := index; packetFD := fd;
     peerTransport := ""; peerAddr := AddrInvalid; mtu := 0; lastLocalUp := operUp;
     remoteOperUp := false; forcedDown := false;
     settleUntil := clock k (SpecLinkID spec) + fabricWireCarrierSettleWindow;
     frameID := 0; reassembler := newWireReassembler; counters := zeroCounters;
     reported := zeroCounters; resolveInFlight := false; lastResolve := zeroTime;
     stopClosed := false |}.

(** The common tail of [EnsureLink]: the registration's parameters, then the
    carrier. *)
Definition assignSpec (spec : fabricWireLinkSpec) (link : fabricWireLink) : fabricWireLink :=
  let link := link <| owner := Owner spec |> <| legName := LegName spec |>
                   <| peerTransport := PeerTransport spec |> <| mtu := MTU spec |> in
  if addrIsValid (PeerAddress spec) && negb (bool_decide (PeerAddress spec = peerAddr link))
  then link <| peerAddr := addrUnmap (PeerAddress spec) |>
  else link.

Definition finishEnsure (k : kernel) (spec : fabricWireLinkSpec) (link : fabricWireLink)
    (before : list effect) (w : fabricWire) :
    option (fabricWire * list effect * result ensureError unit) :=
  let '(link, applied) := applyLinkCarrierLocked k (sessions w) (assignSpec spec link) in
  Some (w <| links ::= <[SpecLinkID spec := link]> |>, before ++ applied, Ok tt).

Definition EnsureLink (k : kernel) (answer : legAnswer) (spec : fabricWireLinkSpec)
    (w : fabricWire) : option (fabricWire * list effect * result ensureError unit) :=
  if (SpecLinkID spec =? 0) || bool_decide (LegName spec = "")
     || bool_decide (Owner spec = "") || (MTU spec <? 1)
  then Some (w, [], Err errIncompleteRegistration)
  else
    match legByName answer with
    | None => Some (w, [], Err (errReadingLeg (LegName spec)))
    | Some (index, operUp) =>
        if closed w then Some (w, [], Err errWireClosed)
        else
          match links w !! SpecLinkID spec with
          | None =>
              match openCapture answer with
              | None => Some (w, [], Err errOpeningCapture)
              | Some fd =>
                  finishEnsure k spec (newWireLink k spec index operUp fd)
                    [StartPump (SpecLinkID spec) fd]
                    (w <| byLeg ::= <[index := SpecLinkID spec]> |>)
              end
          | Some link =>
              if legIndex link =? index then finishEnsure k spec link [] w
              else if stopClosed link then None
              else
                let w := w <| byLeg ::= delete (legIndex link) |> in
                match openCapture answer with
                | None =>
                    Some (w <| links ::= <[SpecLinkID spec := link <| stopClosed := true |>]> |>,
                          [StopPump (SpecLinkID spec)], Err errOpeningCapture)
                | Some fd =>
                    let link := link <| legIndex := index |> <| packetFD := fd |>
                      <| stopClosed := false |> <| forcedDown := false |>
                      <| lastLocalUp := operUp |>
                      <| settleUntil := clock k (linkID link) + fabricWireCarrierSettleWindow |> in
                    finishEnsure k spec link
                      [StopPump (SpecLinkID spec); StartPump (SpecLinkID spec) fd]
                      (w <| byLeg ::= <[index := SpecLinkID spec]> |>)
                end
          end
    end.

(** A link the sweep forgets. *)
Definition sweeps (ownerPrefix : string) (keepOwners : list string) (link : fabricWireLink) : bool :=
  negb (bool_decide (owner link ∈ keepOwners)) && String.prefix ownerPrefix (owner link).

Definition sweepLink (ownerPrefix : string) (keepOwners : list string)
    (acc : option (fabricWire * list effect)) (entry : Z * fabricWireLink) :
    option (fabricWire * list effect) :=
  match acc with
  | None => None
  | Some (w, effects) =>
      if negb (sweeps ownerPrefix keepOwners entry.2) then Some (w, effects)
      else if stopClosed entry.2 then None
      else Some (w <| links ::= delete entry.1 |> <| byLeg ::= delete (legIndex entry.2) |>,
                 effects ++ [StopPump entry.1])
  end.

Definition sweepSession (now : Z) (w : fabricWire) (entry : addr * fabricWireSession) : fabricWire :=
  if negb (sessionReferencedLocked w entry.1)
     && (fabricWireSessionTimeout <? now - lastHeard entry.2)
  then w <| sessions ::= delete entry.1 |> else w.

Definition SweepLinks (now : Z) (ownerPrefix : string) (keepOwners : list string)
    (w : fabricWire) : option (fabricWire * list effect) :=
  match foldl (sweepLink ownerPrefix keepOwners) (Some (w, [])) (range_list (links w)) with
  | None => None
  | Some (w, effects) => Some (foldl (sweepSession now) w (range_list (sessions w)), effects)
  end.

Definition ForcesLegDown (id : Z) (w : fabricWire) : bool * bool :=
  match links w !! id with
  | None => (false, false)
  | Some link => (true, forcedDown link)
  end.

(** [Close]: every pump is stopped; closing twice is a no-op. *)
Definition Close (w : fabricWire) : option (fabricWire * list effect) :=
  if closed w then Some (w, [])
  else if contains_func (λ entry : Z * fabricWireLink, stopClosed entry.2) (range_list (links w))
  then None
  else Some (w <| closed := true |>
               <| links ::= fmap (λ link, link <| stopClosed := true |>) |>,
             StopPump <$> (range_list (links w)).*1).

(** ** Transmission *)

(** The three parts of [transmitFrame]: the first critical section, the
    datagrams, and the second critical section. *)
Definition transmitBegin (link : fabricWireLink) : fabricWireLink * bool :=
  if negb (addrIsValid (peerAddr link))
  then (link <| counters ::= set_field dropUnresolvedPeer inc64 |>, false)
  else (link <| frameID ::= λ id, (id + 1) mod 2 ^ 32 |>, true).

Definition frameDatagrams (gen : Z) (link : fabricWireLink) (frame : list byte)
    (frags : list (list byte)) : list (list byte) :=
  imap (λ index fragment,
          encodeFabricWireFragment gen
            {| LinkID := linkID link; FrameID := frameID link;
               FragIndex := Z.of_nat index mod 2 ^ 8;
               FragCount := Z.of_nat (length frags) mod 2 ^ 8;
               TotalLength := Z.of_nat (length frame) mod 2 ^ 16 |} fragment)
       frags.

Definition transmitEnd (sent : Z) (failed : bool) (count : nat) (link : fabricWireLink) :
    fabricWireLink :=
  let link := link <| counters ::= set_field txFragments (add64 sent) |> in
  if failed || (sent <? Z.of_nat count)
  then link <| counters ::= set_field dropSendFull inc64 |>
  else link <| counters ::= set_field txFrames inc64 |>.

(** [send] is the kernel's answer to the batch: how many datagrams it took and
    whether it failed. *)
Definition transmitFrame (send : list (list byte) → Z * bool) (w : fabricWire)
    (frame : list byte) (link : fabricWireLink) : fabricWireLink * list effect :=
  let '(link, resolved) := transmitBegin link in
  if negb resolved then (link, [])
  else
    match splitFabricWireFrame frame (FragmentPayload w) with
    | Err _ => (link <| counters ::= set_field dropOversize inc64 |>, [])
    | Ok frags =>
        let datagrams := frameDatagrams (generation w) link frame frags in
        let '(sent, failed) := send datagrams in
        (transmitEnd sent failed (length datagrams) link,
         [SendDatagrams (peerAddr link) datagrams])
    end.

(** The generation of a new wire: the start second above a random nonce. *)
Definition newFabricWireGeneration (seconds nonce : Z) : Z :=
  Z.lor (Z.shiftl seconds 32 mod 2 ^ 64) nonce.

(** ** The periodic tick *)

(** The sampling loop: the lost-event backstop. *)
Definition sampleLinks (k : kernel) (w : fabricWire) : fabricWire * list effect :=
  let '(ls, effects) :=
    rangeLinks (λ link,
                  if forcedDown link then (link, [])
                  else match legOperUp k (legIndex link) with
                       | None => (link, [])
                       | Some operUp => observeLegStateLocked k w operUp link
                       end)
      (links w) in
  (w <| links := ls |>, effects).

(** One iteration of the loop that expires silent sessions. *)
Definition expireSession (k : kernel) (now : Z) (acc : fabricWire * list effect)
    (entry : addr * fabricWireSession) : fabricWire * list effect :=
  let '(w, effects) := acc in
  let '(key, session) := entry in
  if up session && (fabricWireSessionTimeout <? now - lastHeard session) then
    let w := w <| sessions ::=
                 <[key := session <| up := false |> <| generationKnown := false |>]> |> in
    let '(w, applied) := applyPeerCarrierLocked k w (remote session) in
    (w, effects ++ applied)
  else acc.

Definition expireSessions (k : kernel) (now : Z) (w : fabricWire) : fabricWire * list effect :=
  foldl (expireSession k now) (w, []) (range_list (sessions w)).

(** Whether a link asks for a re-resolution of its peer transport. *)
Definition wantsResolve (now : Z) (ss : gmap addr fabricWireSession) (link : fabricWireLink) : bool :=
  (negb (addrIsValid (peerAddr link))
   || match ss !! peerAddr link with None => true | Some session => negb (up session) end)
  && negb (bool_decide (peerTransport link = "")) && negb (resolveInFlight link)
  && (fabricWireResolveInterval <=? now - lastResolve link).

Definition tickLink (now : Z) (ss : gmap addr fabricWireSession) (link : fabricWireLink) :
    fabricWireLink :=
  let '(pending, drops) := expire now (reassembler link) in
  let link := link <| reassembler := pending |> <| counters ::= bumpDrops drops |> in
  if wantsResolve now ss link
  then link <| resolveInFlight := true |> <| lastResolve := now |> else link.

(** [states[link.peerAddr] = append(states[link.peerAddr], ...)] over the links. *)
Definition groupStates (ls : gmap Z fabricWireLink) : gmap addr (list fabricWireLinkState) :=
  foldl (λ states (entry : Z * fabricWireLink),
           let link := entry.2 in
           if negb (addrIsValid (peerAddr link)) then states
           else <[peerAddr link :=
                    default [] (states !! peerAddr link)
                    ++ [ {| StateLinkID := linkID link; OperUp := lastLocalUp link |} ]]> states)
        ∅ (range_list ls).

Definition tickSends (gen : Z) (ls : gmap Z fabricWireLink) : list effect :=
  (λ entry : addr * list fabricWireLinkState,
     SendDatagrams entry.1
       [encodeFabricWireHeartbeat gen; encodeFabricWireLinkStates gen entry.2])
  <$> range_list (groupStates ls).

Definition tickResolves (now : Z) (ss : gmap addr fabricWireSession)
    (ls : gmap Z fabricWireLink) : list effect :=
  (λ entry : Z * fabricWireLink, ResolvePeer (linkID entry.2))
  <$> filter (λ entry, wantsResolve now ss entry.2 = true) (range_list ls).

(** [tick].  [k] answers the sampling loop, [k'] the expiry loop. *)
Definition tick (k k' : kernel) (now : Z) (w : fabricWire) : fabricWire * list effect :=
  let '(w, sampled) := sampleLinks k w in
  let '(w, expired) := expireSessions k' now w in
  let ticked := tickLink now (sessions w) <$> links w in
  (w <| links := ticked |>,
   sampled ++ expired ++ tickSends (generation w) (links w)
   ++ tickResolves now (sessions w) (links w)).

(** ** Peer re-resolution and diagnostics *)

Definition adoptPeerAddress (k : kernel) (ss : gmap addr fabricWireSession) (address : addr)
    (link : fabricWireLink) : fabricWireLink * list effect :=
  if negb (addrIsValid address) || bool_decide (peerAddr link = address) then (link, [])
  else applyLinkCarrierLocked k ss (link <| peerAddr := address |> <| remoteOperUp := false |>).

(** [resolvePeer], given what the resolution of the transport name produced. *)
Definition resolvePeer (k : kernel) (resolved : option addr) (id : Z) (w : fabricWire) :
    fabricWire * list effect :=
  match links w !! id with
  | None => (w, [])
  | Some link =>
      let '(link, effects) :=
        match resolved with
        | None => (link, [])
        | Some address => adoptPeerAddress k (sessions w) (addrUnmap address) link
        end in
      (w <| links ::= <[id := link <| resolveInFlight := false |>]> |>, effects)
  end.

(** The drops of a link since the last report, all in [uint64] arithmetic. *)
Definition dropDelta (current previous : fabricWireLinkCounters) : Z :=
  ((dropExpiry current - dropExpiry previous) + (dropMemoryCap current - dropMemoryCap previous)
   + (dropGeometry current - dropGeometry previous)
   + (dropOversize current - dropOversize previous)
   + (dropStaleGeneration current - dropStaleGeneration previous)
   + (dropForeignSource current - dropForeignSource previous)
   + (dropUnresolvedPeer current - dropUnresolvedPeer previous)
   + (dropSendFull current - dropSendFull previous)
   + (dropInject current - dropInject previous)) mod 2 ^ 64.

Definition reportCounters (w : fabricWire) : fabricWire :=
  w <| links ::= fmap (λ link,
         if dropDelta (counters link) (reported link) =? 0 then link
         else link <| reported := counters link |>) |>.

(** ** The transition system *)

(** Everything that changes a wire's state, one constructor per critical
    section. *)
Inductive event :=
| EvEnsure (k : kernel) (answer : legAnswer) (spec : fabricWireLinkSpec)
| EvSweep (now : Z) (ownerPrefix : string) (keepOwners : list string)
| EvDatagram (k : kernel) (now : Z) (source : addr) (datagram : list byte)
| EvWatch (k : kernel) (index : Z) (operUp : bool)
| EvTick (k k' : kernel) (now : Z)
| EvResolved (k : kernel) (resolved : option addr) (id : Z)
| EvTransmitBegin (id : Z)
| EvTransmitEnd (sent : Z) (failed : bool) (count : nat) (id : Z)
| EvTransmitOversize (id : Z)
| EvReport
| EvClose.

Definition onLink (f : fabricWireLink → fabricWireLink) (id : Z) (w : fabricWire) : fabricWire :=
  w <| links ::= alter f id |>.

Definition wireStep (e : event) (w : fabricWire) : option (fabricWire * list effect) :=
  match e with
  | EvEnsure k answer spec => fst <$> EnsureLink k answer spec w
  | EvSweep now pre keep => SweepLinks now pre keep w
  | EvDatagram k now source d => handleDatagram k now source d w
  | EvWatch k index operUp => Some (watchLink k index operUp w)
  | EvTick k k' now => Some (tick k k' now w)
  | EvResolved k resolved id => Some (resolvePeer k resolved id w)
  | EvTransmitBegin id => Some (onLink (λ link, (transmitBegin link).1) id w, [])
  | EvTransmitEnd sent failed count id => Some (onLink (transmitEnd sent failed count) id w, [])
  | EvTransmitOversize id =>
      Some (onLink (λ link, link <| counters ::= set_field dropOversize inc64 |>) id w, [])
  | EvReport => Some (reportCounters w, [])
  | EvClose => Close w
  end.

(** The datagrams of an event are lists of bytes. *)
Definition event_ok (e : event) : Prop :=
  match e with EvDatagram _ _ _ d => Forall is_byte d | _ => True end.

Inductive reachable (w : fabricWire) : fabricWire → Prop :=
| reachable_refl : reachable w w
| reachable_step w1 e w2 effects :
    reachable w w1 → event_ok e → wireStep e w1 = Some (w2, effects) → reachable w w2.

Inductive wireStartError :=
| errLocalAddressNotIPv4
| errFragmentPayload
| errWireSocket.

(** [newFabricWire]: [socket] is whether the shared socket opens and binds. *)
Definition newFabricWire (local : addr) (payload gen : Z) (socket : bool) :
    result wireStartError fabricWire :=
  match local with
  | Addr4 _ =>
      if payload <? 1 then Err errFragmentPayload
      else if negb socket then Err errWireSocket
      else Ok {| FragmentPayload := payload; generation := gen; links := ∅; byLeg := ∅;
                 sessions := ∅; closed := false |}
  | _ => Err errLocalAddressNotIPv4
  end.

(** ** The invariant *)

(** Carrier propagation is settled: the wire holds a leg down exactly while the
    local side is up and the peer end is dead or down. *)
Definition carrier_settled (ss : gmap addr fabricWireSession) (link : fabricWireLink) : Prop :=
  forcedDown link = lastLocalUp link && negb (remoteUp ss link).

Record link_ok (id : Z) (link : fabricWireLink) : Prop := {
  lo_id : linkID link = id;
  lo_reassembler : ∃ hist, reassembly_ok hist (reassembler link)
}.

(** The indexes agree: sessions are filed under their remote address, and the
    leg index only names registered links. *)
Record base_ok (w : fabricWire) : Prop := {
  bo_links : map_Forall link_ok (links w);
  bo_sessions : ∀ a s, sessions w !! a = Some s → remote s = a;
  bo_legs : ∀ index id, byLeg w !! index = Some id →
    ∃ link, links w !! id = Some link ∧ legIndex link = index
}.

(** Carrier propagation is settled on every link whose peer satisfies [P]. *)
Definition settled_for (P : addr → Prop) (w : fabricWire) : Prop :=
  ∀ id link, links w !! id = Some link → P (peerAddr link) → carrier_settled (sessions w) link.

Definition wire_ok (w : fabricWire) : Prop := base_ok w ∧ settled_for (λ _, True) w.

(** ** Lemmas: the carrier *)

Lemma apply_carrier_eq k ss link :
  ∃ settle, (applyLinkCarrierLocked k ss link).1
    = link <| forcedDown := lastLocalUp link && negb (remoteUp ss link) |>
           <| settleUntil := settle |>.
Proof.
  unfold applyLinkCarrierLocked. destruct (eqb _ _) eqn:E.
  - apply eqb_prop in E. exists (settleUntil link). destruct link. simpl in *. by rewrite E.
  - destruct (negb (linkByIndex _ _)); [by exists (settleUntil link)|].
    destruct (_ && _); [by exists (settleUntil link)|].
    destruct (linkSetUp _ _); by eexists.
Qed.

Lemma apply_carrier_settled k ss link :
  carrier_settled ss (applyLinkCarrierLocked k ss link).1.
Proof. destruct (apply_carrier_eq k ss link) as [s ->]. done. Qed.

(** The carrier machine changes nothing but the admin state it owns. *)
Lemma apply_carrier_frame k ss link :
  let link' := (applyLinkCarrierLocked k ss link).1 in
  linkID link' = linkID link ∧ reassembler link' = reassembler link ∧
  peerAddr link' = peerAddr link ∧ legIndex link' = legIndex link ∧
  lastLocalUp link' = lastLocalUp link ∧ remoteOperUp link' = remoteOperUp link ∧
  packetFD link' = packetFD link ∧ mtu link' = mtu link ∧
  stopClosed link' = stopClosed link.
Proof. destruct (apply_carrier_eq k ss link) as [s ->]. done. Qed.

Lemma link_ok_apply k ss id link :
  link_ok id link → link_ok id (applyLinkCarrierLocked k ss link).1.
Proof.
  intros []. destruct (apply_carrier_frame k ss link) as (Hid & Hr & _).
  constructor; [by rewrite Hid | by rewrite Hr].
Qed.

(** ** Lemmas: invariant transport *)

(** A loop over the links that keeps their identity keeps the base invariant. *)
Lemma base_ok_links (w w' : fabricWire) (f : fabricWireLink → fabricWireLink) :
  (∀ id, links w' !! id = f <$> links w !! id) → byLeg w' = byLeg w →
  (∀ a s, sessions w' !! a = Some s → remote s = a) →
  (∀ id link, links w !! id = Some link → link_ok id link →
     link_ok id (f link) ∧ legIndex (f link) = legIndex link) →
  base_ok w → base_ok w'.
Proof.
  intros Hl Hb Hs Hf [Hlinks _ Hlegs]. constructor; [|done|].
  - intros id link'. rewrite Hl, fmap_Some. intros (link & Hid & ->).
    apply (Hf id link Hid). by apply Hlinks.
  - intros index id. rewrite Hb. intros Hi. destruct (Hlegs _ _ Hi) as (link & Hid & <-).
    exists (f link). rewrite Hl, Hid. split; [done|]. apply (Hf id); [done|]. by apply Hlinks.
Qed.

(** Writing one link back keeps the invariant when the link itself is fine. *)
Lemma wire_ok_insert w id link link' :
  wire_ok w → links w !! id = Some link → link_ok id link' → legIndex link' = legIndex link →
  carrier_settled (sessions w) link' → wire_ok (w <| links ::= <[id := link']> |>).
Proof.
  intros [[Hl Hs Hb] Hc] Hid Hok Hleg Hset. split.
  - constructor; simpl; [by apply map_Forall_insert_2|done|].
    intros index id' Hi. destruct (Hb _ _ Hi) as (l & Hl' & <-).
    destruct (decide (id = id')) as [<-|Hne].
    + exists link'. rewrite lookup_insert_eq. simplify_eq. done.
    + exists l. by rewrite lookup_insert_ne.
  - intros id' l. simpl. destruct (decide (id = id')) as [<-|Hne].
    + rewrite lookup_insert_eq. by intros [= <-].
    + rewrite lookup_insert_ne by done. apply Hc.
Qed.

(** Re-evaluating the carrier of one peer's links settles the whole wire. *)
Lemma applyPeer_ok k w source :
  base_ok w → settled_for (λ a, a ≠ source) w →
  wire_ok (applyPeerCarrierLocked k w source).1.
Proof.
  intros Hbase Hset. unfold applyPeerCarrierLocked. simpl. split.
  - apply (base_ok_links w _ (λ link,
      if bool_decide (peerAddr link = source)
      then (applyLinkCarrierLocked k (sessions w) link).1 else link)); [| done | apply Hbase | | done].
    + intros id. simpl. rewrite lookup_fmap. destruct (links w !! id); [|done]. simpl.
      by case_bool_decide.
    + intros id link _ Hok. case_bool_decide; [|done].
      split; [by apply link_ok_apply | apply apply_carrier_frame].
  - intros id link'. simpl. rewrite lookup_fmap, fmap_Some. intros (link & Hid & ->) _.
    case_bool_decide as Hp; simpl; [apply apply_carrier_settled | by apply (Hset id)].
Qed.

(** ** Lemmas: sessions *)

(** What accepting a datagram does: the links are only reset, and only the
    source's session is written, as up, heard now, in the datagram's generation. *)
Lemma refresh_spec now source gen w w' :
  refreshSessionLocked now source gen w = Some w' →
  ∃ s, sessions w' = <[source := s]> (sessions w) ∧
    sessionGeneration s = gen ∧ generationKnown s = true ∧ lastHeard s = now ∧ up s = true ∧
    ((∃ s0, sessions w !! source = Some s0 ∧ remote s = remote s0) ∨
     (sessions w !! source = None ∧ remote s = source)) ∧
    byLeg w' = byLeg w ∧ generation w' = generation w ∧
    (w' = w <| sessions := sessions w' |> ∨
     w' = resetPeerLinksLocked source w <| sessions := sessions w' |>).
Proof.
  unfold refreshSessionLocked. intros H.
  destruct (sessions w !! source) as [s0|] eqn:Hs.
  - destruct (_ && _ && _); [done|]. simplify_eq.
    eexists. split; [by destruct (_ && _)|]. split_and!;
      [ repeat case_match; simpl; bool_to_prop; naive_solver
      | repeat case_match; simpl; bool_to_prop; naive_solver
      | done | done | left; exists s0; split; [done|]; by case_match
      | by destruct (_ && _) | by destruct (_ && _) |].
    destruct (_ && negb _); [by right|]. left. by destruct w.
  - destruct (negb _); [done|]. simpl in H. simplify_eq. eexists. simpl.
    split; [done|]. split_and!; try done; [by right|]. left. by destruct w.
Qed.

Lemma refresh_ok now source gen w w' :
  wire_ok w → refreshSessionLocked now source gen w = Some w' →
  base_ok w' ∧ settled_for (λ a, a ≠ source) w'.
Proof.
  intros [[Hl Hs Hb] Hc] Hr.
  destruct (refresh_spec _ _ _ _ _ Hr) as (s & Hss & _ & _ & _ & _ & Hrem & Hleg & _ & Hcase).
  assert (∃ f, links w' = f <$> links w ∧
    (∀ id link, link_ok id link → link_ok id (f link) ∧ legIndex (f link) = legIndex link) ∧
    (∀ link, peerAddr (f link) = peerAddr link) ∧
    (∀ link, peerAddr link ≠ source → f link = link)) as (f & Hf & Hfok & Hfp & Hfid).
  { destruct Hcase as [->| ->].
    - exists id. split_and!; try done. simpl. by rewrite map_fmap_id.
    - exists (λ link, if bool_decide (peerAddr link = source)
               then link <| reassembler := newWireReassembler |> <| remoteOperUp := false |>
               else link).
      split_and!; [done| | |].
      + intros id link Hlo. case_bool_decide; [destruct Hlo|done]. split; [|done].
        constructor; [done|]. exists []. apply reassembly_ok_empty.
      + intros link. by case_bool_decide.
      + intros link Hne. by rewrite bool_decide_eq_false_2. }
  split.
  - apply (base_ok_links w w' f); [| done | | | done].
    + intros id. by rewrite Hf, lookup_fmap.
    + intros a s'. rewrite Hss. intros [[<- <-]|[Hne Ha]]%lookup_insert_Some; [|eauto].
      destruct Hrem as [(s0 & Hs0 & ->)|[_ ->]]; eauto.
    + intros id link _ Hok. by apply Hfok.
  - intros id link Hid Hne. unfold carrier_settled, remoteUp. rewrite Hss, lookup_insert_ne by done.
    rewrite Hf, lookup_fmap, fmap_Some in Hid. destruct Hid as (l0 & Hid & ->).
    rewrite Hfp in Hne. rewrite (Hfid _ Hne). by apply (Hc id).
Qed.

Lemma handleHeartbeat_ok k now source gen w :
  wire_ok w → wire_ok (handleHeartbeat k now source gen w).1.
Proof.
  intros Hok. unfold handleHeartbeat.
  destruct (refreshSessionLocked _ _ _ _) as [w'|] eqn:Hr; [|done].
  destruct (refresh_ok _ _ _ _ _ Hok Hr). by apply applyPeer_ok.
Qed.

Lemma noteLinkStates_lookup source states ls id :
  foldl (noteLinkState source) ls states !! id
  = (λ link, if bool_decide (peerAddr link = source)
             then link <| remoteOperUp :=
                    foldl (λ b st, if StateLinkID st =? id then OperUp st else b)
                      (remoteOperUp link) states |>
             else link) <$> ls !! id.
Proof.
  revert ls. induction states as [|st states IH]; intros ls; simpl.
  - destruct (ls !! id) as [[]|]; simpl; [|done]. by case_bool_decide.
  - rewrite IH. unfold noteLinkState. destruct (StateLinkID st =? id) eqn:E; bool_to_prop.
    + subst. destruct (ls !! StateLinkID st) as [l|] eqn:Hl; simpl; [|by rewrite Hl].
      case_bool_decide as Hp; simpl; [|rewrite Hl; simpl; by rewrite bool_decide_eq_false_2].
      rewrite lookup_insert_eq. simpl. by rewrite bool_decide_eq_true_2.
    + destruct (ls !! StateLinkID st) as [l|] eqn:Hl; [|done].
      destruct (negb _); [done|]. by rewrite lookup_insert_ne.
Qed.

Lemma handleLinkStates_ok k now source gen states w :
  wire_ok w → wire_ok (handleLinkStates k now source gen states w).1.
Proof.
  intros Hok. unfold handleLinkStates.
  destruct (refreshSessionLocked _ _ _ _) as [w'|] eqn:Hr; [|done].
  destruct (refresh_ok _ _ _ _ _ Hok Hr) as [Hb Hs]. apply applyPeer_ok.
  - constructor; simpl.
    + intros id link. rewrite noteLinkStates_lookup, fmap_Some. intros (l & Hl & ->).
      destruct (bo_links _ Hb id l Hl). by case_bool_decide; constructor.
    + apply Hb.
    + intros index id Hi. destruct (bo_legs _ Hb _ _ Hi) as (l & Hl & Hleg).
      rewrite noteLinkStates_lookup, Hl. eexists. split; [done|]. by case_bool_decide.
  - intros id link. simpl. rewrite noteLinkStates_lookup, fmap_Some. intros (l & Hl & ->).
    case_bool_decide; [done|]. by apply (Hs id).
Qed.

Lemma receiveFragment_ok k now header payload id link :
  valid_fragment header payload → link_ok id link →
  ∃ link' effects, receiveFragment k now header payload link = Some (link', effects) ∧
    link_ok id link' ∧ legIndex link' = legIndex link ∧ peerAddr link' = peerAddr link ∧
    lastLocalUp link' = lastLocalUp link ∧ remoteOperUp link' = remoteOperUp link ∧
    forcedDown link' = forcedDown link.
Proof.
  intros Hv [Hid (hist & Hok)]. unfold receiveFragment. simpl.
  destruct (absorb_step hist now header payload _ Hv Hok) as (r & -> & Hr & _).
  repeat case_match; eexists _, _; (split; [done|]); simpl; (split; [|done]);
    (constructor; [done|]); simpl; eauto.
Qed.

Lemma handleData_ok k now source gen header payload w :
  valid_fragment header payload → wire_ok w →
  ∃ w' effects, handleData k now source gen header payload w = Some (w', effects) ∧ wire_ok w'.
Proof.
  intros Hv Hok. unfold handleData.
  destruct (links w !! LinkID header) as [link|] eqn:Hl; [|eauto].
  assert (link_ok (LinkID header) link) as [Hid Hre] by by apply Hok.
  assert (carrier_settled (sessions w) link) as Hset by by apply (proj2 Hok (LinkID header)).
  destruct (negb _); [eexists _, _; split; [done|]; by eapply wire_ok_insert|].
  destruct (refreshSessionLocked _ _ _ _) as [w'|] eqn:Hr;
    [|eexists _, _; split; [done|]; by eapply wire_ok_insert].
  destruct (refresh_ok _ _ _ _ _ Hok Hr) as [Hb Hs].
  pose proof (applyPeer_ok k w' source Hb Hs) as Hw.
  assert (is_Some (links (applyPeerCarrierLocked k w' source).1 !! LinkID header)) as [l Hl'].
  { unfold applyPeerCarrierLocked. simpl. rewrite lookup_fmap, fmap_is_Some.
    destruct (refresh_spec _ _ _ _ _ Hr) as (? & _ & _ & _ & _ & _ & _ & _ & _ & [->| ->]); simpl.
    - eauto.
    - rewrite lookup_fmap, fmap_is_Some. eauto. }
  destruct (applyPeerCarrierLocked k w' source) as [w2 applied]. simpl in *. rewrite Hl'.
  assert (link_ok (LinkID header) l) as Hlok by by apply Hw.
  destruct (receiveFragment_ok k now header payload (LinkID header) l Hv Hlok)
    as (l2 & eff & -> & Hok2 & Hleg & Hp & Hlu & Hru & Hfd).
  eexists _, _. split; [done|]. eapply wire_ok_insert; try done.
  unfold carrier_settled, remoteUp. rewrite Hp, Hlu, Hru, Hfd. by apply (proj2 Hw (LinkID header)).
Qed.

(** ** Lemmas: the other handlers *)

(** A link updated on its own keeps its identity and settles its carrier. *)
Definition link_update_ok (ss : gmap addr fabricWireSession) (f : fabricWireLink → fabricWireLink)
    : Prop :=
  ∀ id link, link_ok id link → carrier_settled ss link →
    link_ok id (f link) ∧ legIndex (f link) = legIndex link ∧ carrier_settled ss (f link).

Lemma wire_ok_fmap f w :
  link_update_ok (sessions w) f → wire_ok w → wire_ok (w <| links ::= fmap f |>).
Proof.
  intros Hf [Hb Hc]. split.
  - apply (base_ok_links w _ f); [|done|apply Hb| |done].
    + intros id. apply lookup_fmap.
    + intros id link Hid Hok. destruct (Hf id link Hok) as (? & ? & _); [by apply (Hc id)|done].
  - intros id link'. simpl. rewrite lookup_fmap, fmap_Some. intros (link & Hid & ->) _.
    apply (Hf id); [by apply Hb | by apply (Hc id)].
Qed.

Lemma wire_ok_alter f id w :
  link_update_ok (sessions w) f → wire_ok w → wire_ok (onLink f id w).
Proof.
  intros Hf Hok. unfold onLink. destruct (links w !! id) as [link|] eqn:Hl.
  - replace (w <| links ::= alter f id |>) with (w <| links ::= <[id := f link]> |>).
    2: { destruct w. simpl in *. f_equal. apply map_eq. intros j.
         destruct (decide (id = j)) as [<-|Hne].
         - by rewrite lookup_insert_eq, lookup_alter_eq, Hl.
         - by rewrite lookup_insert_ne, lookup_alter_ne. }
    destruct (Hf id link) as (? & ? & ?); [by apply Hok | by apply (proj2 Hok id)|].
    by eapply wire_ok_insert.
  - replace (w <| links ::= alter f id |>) with w; [done|].
    destruct w. simpl in *. f_equal. symmetry. by apply alter_id'.
Qed.

Lemma observe_update_ok k w operUp :
  link_update_ok (sessions w) (λ link, (observeLegStateLocked k w operUp link).1).
Proof.
  intros id link Hok Hc. unfold observeLegStateLocked.
  destruct (_ || _); [done|]. destruct (_ && _); [done|].
  set (l := link <| lastLocalUp := operUp |>).
  assert (link_ok id l) as Hl by (destruct Hok; by constructor).
  pose proof (link_ok_apply k (sessions w) id l Hl) as H1.
  pose proof (apply_carrier_settled k (sessions w) l) as H2.
  destruct (apply_carrier_frame k (sessions w) l) as (_ & _ & _ & H3 & _).
  destruct (applyLinkCarrierLocked k (sessions w) l). done.
Qed.

Lemma watchLink_ok k index operUp w : wire_ok w → wire_ok (watchLink k index operUp w).1.
Proof.
  intros Hok. unfold watchLink. destruct (byLeg w !! index) as [id|]; [|done].
  destruct (links w !! id) as [link|] eqn:Hl; [|done].
  destruct (observe_update_ok k w operUp id link) as (H1 & H2 & H3);
    [by apply Hok | by apply (proj2 Hok id)|].
  destruct (observeLegStateLocked k w operUp link) as [l' e]. by eapply wire_ok_insert.
Qed.

Lemma sampleLinks_ok k w : wire_ok w → wire_ok (sampleLinks k w).1.
Proof.
  intros Hok. unfold sampleLinks. simpl.
  refine (wire_ok_fmap _ w _ Hok). intros id link Hl Hc. simpl.
  destruct (forcedDown link); [done|]. destruct (legOperUp k _) as [b|]; [|done].
  by apply observe_update_ok.
Qed.

Lemma expireSession_ok k now w effects a s :
  wire_ok w → sessions w !! a = Some s →
  wire_ok (expireSession k now (w, effects) (a, s)).1 ∧
  (∀ a', a' ≠ a → sessions (expireSession k now (w, effects) (a, s)).1 !! a' = sessions w !! a').
Proof.
  intros Hok Ha. unfold expireSession. destruct (_ && _); [|done].
  assert (remote s = a) as Hr by by apply Hok. rewrite Hr.
  set (w1 := w <| sessions ::= _ |>).
  pose proof (applyPeer_ok k w1 a) as Hw. destruct Hok as [[Hl Hs Hb] Hc].
  change (sessions w) with (sessions w) in *.
  split.
  - unfold applyPeerCarrierLocked in *. simpl in *. apply Hw.
    + constructor; [done| |done]. intros a' s'. simpl.
      intros [[<- <-]|[? ?]]%lookup_insert_Some; eauto.
    + intros id link Hid Hne. unfold carrier_settled, remoteUp. simpl.
      rewrite lookup_insert_ne by done. by apply (Hc id).
  - intros a' Hne. simpl. by rewrite lookup_insert_ne.
Qed.

Lemma expireSessions_fold_ok k now entries w effects :
  NoDup entries.*1 → (∀ a s, (a, s) ∈ entries → sessions w !! a = Some s) → wire_ok w →
  wire_ok (foldl (expireSession k now) (w, effects) entries).1.
Proof.
  revert w effects. induction entries as [|[a s] entries IH]; intros w effects Hnd Hin Hok; [done|].
  cbn [foldl]. apply NoDup_cons in Hnd as [Ha Hnd].
  destruct (expireSession_ok k now w effects a s) as [H1 H2]; [done|apply Hin; left|].
  destruct (expireSession k now (w, effects) (a, s)) as [w' e']. apply IH; [done| |done].
  intros a' s' Hin'. simpl in H2. rewrite H2; [apply Hin; by right|].
  intros ->. apply Ha, list_elem_of_fmap. by exists (a, s').
Qed.

Lemma expireSessions_ok k now w : wire_ok w → wire_ok (expireSessions k now w).1.
Proof.
  intros Hok. apply expireSessions_fold_ok; [apply NoDup_range_keys| |done].
  intros a s. apply elem_of_range_list.
Qed.

Lemma tickLink_update_ok now ss : link_update_ok ss (tickLink now ss).
Proof.
  intros id link [Hid (hist & [Hf Hs])] Hc. unfold tickLink.
  pose proof (expire_subseteq now (reassembler link)) as Hsub.
  destruct (expire now (reassembler link)) as [pe drops]. simpl in Hsub.
  assert (reassembly_ok hist pe) as Hok.
  { constructor; [intros k f Hk; apply Hf; by eapply lookup_weaken|].
    etrans; [by apply map_subseteq_size | done]. }
  destruct (wantsResolve _ _ _); split_and!; simpl; try done; constructor; simpl; eauto.
Qed.

Lemma tick_ok k k' now w : wire_ok w → wire_ok (tick k k' now w).1.
Proof.
  intros Hok. unfold tick. apply (sampleLinks_ok k) in Hok.
  destruct (sampleLinks k w) as [w1 e1]. simpl in Hok. apply (expireSessions_ok k' now) in Hok.
  destruct (expireSessions k' now w1) as [w2 e2]. simpl in *.
  apply (wire_ok_fmap (tickLink now (sessions w2)) w2); [apply tickLink_update_ok|done].
Qed.

Lemma adopt_update_ok k ss address :
  link_update_ok ss (λ link, (adoptPeerAddress k ss address link).1).
Proof.
  intros id link Hok Hc. unfold adoptPeerAddress. destruct (_ || _); [done|].
  set (l := _ <| remoteOperUp := false |>).
  assert (link_ok id l) as Hl by (destruct Hok; by constructor).
  split_and!; [by apply link_ok_apply | apply (apply_carrier_frame k ss l) | apply apply_carrier_settled].
Qed.

Lemma resolvePeer_ok k resolved id w : wire_ok w → wire_ok (resolvePeer k resolved id w).1.
Proof.
  intros Hok. unfold resolvePeer. destruct (links w !! id) as [link|] eqn:Hl; [|done].
  assert (link_ok id link) as Hlo by by apply Hok.
  assert (carrier_settled (sessions w) link) as Hc by by apply (proj2 Hok id).
  destruct resolved as [a|].
  - destruct (adopt_update_ok k (sessions w) (addrUnmap a) id link Hlo Hc) as (H1 & H2 & H3).
    destruct (adoptPeerAddress _ _ _ _) as [l' e].
    refine (wire_ok_insert w id link (l' <| resolveInFlight := false |>) Hok Hl _ _ _).
    + destruct H1. by constructor.
    + exact H2.
    + unfold carrier_settled in *. exact H3.
  - refine (wire_ok_insert w id link (link <| resolveInFlight := false |>) Hok Hl _ _ _).
    + destruct Hlo. by constructor.
    + reflexivity.
    + unfold carrier_settled in *. exact Hc.
Qed.

Lemma transmit_update_ok ss :
  link_update_ok ss (λ link, (transmitBegin link).1) ∧
  (∀ sent failed count, link_update_ok ss (transmitEnd sent failed count)) ∧
  link_update_ok ss (λ link, link <| counters ::= set_field dropOversize inc64 |>).
Proof.
  split_and!; [|intros sent failed count|]; intros id link [? ?] Hc;
    unfold transmitBegin, transmitEnd; repeat case_match; split_and!; try done; by constructor.
Qed.

Lemma reportCounters_ok w : wire_ok w → wire_ok (reportCounters w).
Proof.
  intros Hok. apply (wire_ok_fmap _ w); [|done]. intros id link [] Hc.
  destruct (_ =? 0); split_and!; try done; by constructor.
Qed.

Lemma Close_ok w w' effects : wire_ok w → Close w = Some (w', effects) → wire_ok w'.
Proof.
  intros Hok. unfold Close. destruct (closed w); [by intros [= <- <-]|].
  destruct (contains_func _ _); [done|]. intros [= <- <-].
  assert (wire_ok (w <| links ::= fmap (λ link, link <| stopClosed := true |>) |>)) as [[] ?].
  { apply wire_ok_fmap; [|done]. intros id link [] Hc. by split_and!; [constructor|..]. }
  split; [by constructor|done].
Qed.

(** Registering or re-registering a link: the link is settled by the final
    carrier evaluation, and the leg index is kept in step. *)
Lemma finishEnsure_ok k spec link before w w' effects r :
  map_Forall link_ok (links w) → (∀ a s, sessions w !! a = Some s → remote s = a) →
  settled_for (λ _, True) w →
  (∀ index id, byLeg w !! index = Some id →
     (id = SpecLinkID spec ∧ legIndex link = index) ∨
     (∃ other, links w !! id = Some other ∧ legIndex other = index ∧ id ≠ SpecLinkID spec)) →
  link_ok (SpecLinkID spec) link →
  finishEnsure k spec link before w = Some (w', effects, r) → wire_ok w'.
Proof.
  intros Hl Hs Hc Hleg Hok. unfold finishEnsure.
  assert (link_ok (SpecLinkID spec) (assignSpec spec link)) as Ha.
  { destruct Hok. unfold assignSpec. case_match; by constructor. }
  assert (legIndex (assignSpec spec link) = legIndex link) as Hal.
  { unfold assignSpec. by case_match. }
  pose proof (link_ok_apply k (sessions w) _ _ Ha) as H1.
  pose proof (apply_carrier_settled k (sessions w) (assignSpec spec link)) as H2.
  destruct (apply_carrier_frame k (sessions w) (assignSpec spec link)) as (_ & _ & _ & H3 & _).
  destruct (applyLinkCarrierLocked _ _ _) as [l e]. simpl in *. intros [= <- <- <-]. split.
  - constructor; simpl; [by apply map_Forall_insert_2|done|].
    intros index id Hi. destruct (Hleg index id Hi) as [[-> Hx]|(other & Ho & Hx & Hne)].
    + exists l. rewrite lookup_insert_eq. split; [done|]. by rewrite H3, Hal.
    + exists other. by rewrite lookup_insert_ne.
  - intros id l'. simpl. intros [[<- <-]|[Hne Hid]]%lookup_insert_Some _; [done|].
    by apply (Hc id).
Qed.

Lemma EnsureLink_ok k answer spec w w' effects r :
  wire_ok w → EnsureLink k answer spec w = Some (w', effects, r) → wire_ok w'.
Proof.
  intros Hok. pose proof Hok as [[Hl Hs Hb] Hc]. unfold EnsureLink.
  destruct (_ || _); [by intros [= <- <- <-]|].
  destruct (legByName answer) as [[index operUp]|]; [|by intros [= <- <- <-]].
  destruct (closed w); [by intros [= <- <- <-]|].
  destruct (links w !! SpecLinkID spec) as [link|] eqn:Hlink.
  - pose proof (Hl _ _ Hlink) as [Hid Hre].
    assert (∀ i id, byLeg w !! i = Some id →
      (id = SpecLinkID spec ∧ legIndex link = i) ∨
      (∃ other, links w !! id = Some other ∧ legIndex other = i ∧ id ≠ SpecLinkID spec)) as Hb'.
    { intros i id Hi. destruct (Hb _ _ Hi) as (other & Ho & Hx).
      destruct (decide (id = SpecLinkID spec)) as [->|]; [left; by simplify_eq|right; eauto]. }
    destruct (legIndex link =? index) eqn:Hix; bool_to_prop.
    + by apply finishEnsure_ok.
    + destruct (stopClosed link); [done|]. destruct (openCapture answer) as [fd|].
      * apply finishEnsure_ok; simpl; [done..| |by constructor].
        intros i id. rewrite lookup_insert_Some, lookup_delete_Some.
        intros [[<- <-]|(Hne & Hne' & Hi)]; [by left|].
        destruct (Hb' _ _ Hi) as [[-> ?]|?]; [done|by right].
      * intros [= <- <- <-].
        set (w1 := w <| byLeg ::= delete (legIndex link) |>).
        assert (wire_ok w1) as Hw1.
        { split; [|done]. constructor; [done|done|]. intros i id. simpl.
          intros [_ Hi]%lookup_delete_Some. by apply Hb. }
        apply (wire_ok_insert w1 (SpecLinkID spec) link); try done. apply (Hc _ _ Hlink I).
  - destruct (openCapture answer) as [fd|]; [|by intros [= <- <- <-]].
    apply finishEnsure_ok; simpl; [done..| |].
    + intros i id. rewrite lookup_insert_Some. intros [[<- <-]|[Hne Hi]]; [by left|].
      destruct (Hb _ _ Hi) as (other & Ho & Hx). right. exists other. split_and!; try done.
      intros ->. congruence.
    + constructor; [done|]. exists []. apply reassembly_ok_empty.
Qed.

Lemma sweepLink_ok pre keep w effects id link acc :
  wire_ok w → links w !! id = Some link →
  sweepLink pre keep (Some (w, effects)) (id, link) = Some acc →
  wire_ok acc.1 ∧ (∀ id', id' ≠ id → links acc.1 !! id' = links w !! id').
Proof.
  intros Hok Hid. pose proof Hok as [[Hl Hs Hb] Hc]. unfold sweepLink. simpl.
  destruct (negb _); [by intros [= <-]|]. destruct (stopClosed link); [done|].
  intros [= <-]. simpl. split.
  - split; simpl.
    + constructor; simpl; [by apply map_Forall_delete|done|].
      intros i id' [Hne Hi]%lookup_delete_Some. destruct (Hb _ _ Hi) as (l' & Hl' & Hx).
      exists l'. rewrite lookup_delete_ne by congruence. done.
    + intros id' l'. simpl. intros [_ Hid']%lookup_delete_Some. by apply (Hc id').
  - intros id' Hne. by rewrite lookup_delete_ne.
Qed.

Lemma sweepLink_None pre keep entries : foldl (sweepLink pre keep) None entries = None.
Proof. by induction entries. Qed.

Lemma sweep_fold_ok pre keep entries w effects acc :
  NoDup entries.*1 → (∀ id link, (id, link) ∈ entries → links w !! id = Some link) → wire_ok w →
  foldl (sweepLink pre keep) (Some (w, effects)) entries = Some acc → wire_ok acc.1.
Proof.
  revert w effects. induction entries as [|[id link] entries IH]; intros w effects Hnd Hin Hok.
  { by intros [= <-]. }
  apply NoDup_cons in Hnd as [Ha Hnd]. cbn [foldl].
  destruct (sweepLink pre keep (Some (w, effects)) (id, link)) as [[w' e']|] eqn:Hstep.
  - destruct (sweepLink_ok pre keep w effects id link (w', e')) as [H1 H2]; [done|apply Hin; left|done|].
    apply IH; [done| |done]. intros id' link' Hin'. simpl in H2. rewrite H2; [apply Hin; by right|].
    intros ->. apply Ha, list_elem_of_fmap. by exists (id, link').
  - by rewrite sweepLink_None.
Qed.

Lemma sweepSession_ok now w entry : wire_ok w → wire_ok (sweepSession now w entry).
Proof.
  intros Hok. pose proof Hok as [[Hl Hs Hb] Hc]. unfold sweepSession.
  destruct (negb _ && _) eqn:E; [|done]. bool_to_prop.
  assert (∀ id link, links w !! id = Some link → peerAddr link ≠ entry.1) as Hun.
  { intros id link Hid Hp. unfold sessionReferencedLocked in *.
    rewrite contains_func_false in *. specialize (H (id, link)).
    rewrite elem_of_range_list in H. specialize (H Hid). simpl in H.
    by apply bool_decide_eq_false in H. }
  split.
  - constructor; [done| |done]. intros a s. simpl. intros [_ Ha]%lookup_delete_Some. eauto.
  - intros id link Hid _. specialize (Hc id link Hid I). specialize (Hun id link Hid).
    unfold carrier_settled, remoteUp in *. simpl. by rewrite lookup_delete_ne.
Qed.

Lemma SweepLinks_ok now pre keep w w' effects :
  wire_ok w → SweepLinks now pre keep w = Some (w', effects) → wire_ok w'.
Proof.
  intros Hok. unfold SweepLinks.
  destruct (foldl _ _ _) as [[w1 e1]|] eqn:Hf; [|done]. intros [= <- <-].
  apply sweep_fold_ok in Hf; [|apply NoDup_range_keys| |done];
    [|intros id link; apply elem_of_range_list]. simpl in Hf.
  generalize (range_list (sessions w1)). intros entries. revert w1 Hf.
  induction entries as [|e entries IH]; intros w1 Hf; [done|]. simpl.
  by apply IH, sweepSession_ok.
Qed.

Lemma handleDatagram_ok k now source d w :
  Forall is_byte d → wire_ok w →
  ∃ w' effects, handleDatagram k now source d w = Some (w', effects) ∧ wire_ok w'.
Proof.
  intros Hd Hok. unfold handleDatagram.
  destruct (parseFabricWireHeader d) as [[header body]|] eqn:Hh; [|eauto].
  apply parse_header_inv in Hh as [Heq _]; [|done].
  rewrite Heq in Hd. apply Forall_app in Hd as [_ Hbody].
  destruct (_ =? fabricWireMsgData).
  { destruct (parseFabricWireDataHeader body) as [[dh p]|] eqn:Hp; [|eauto].
    apply parse_data_inv in Hp as [Hv _]; [|done]. by apply handleData_ok. }
  destruct (_ =? fabricWireMsgLinkState).
  { destruct (parseFabricWireLinkStates body) as [states|]; [|eauto].
    pose proof (handleLinkStates_ok k now source (Generation header) states w Hok).
    destruct (handleLinkStates _ _ _ _ _ _). eauto. }
  destruct (_ =? fabricWireMsgHeartbeat); [|eauto].
  pose proof (handleHeartbeat_ok k now source (Generation header) w Hok).
  destruct (handleHeartbeat _ _ _ _ _). eauto.
Qed.

Lemma wireStep_ok e w w' effects :
  event_ok e → wire_ok w → wireStep e w = Some (w', effects) → wire_ok w'.
Proof.
  intros He Hok. destruct (transmit_update_ok (sessions w)) as (Ht1 & Ht2 & Ht3).
  destruct e; simpl.
  - destruct (EnsureLink k answer spec w) as [[[w1 e1] r]|] eqn:E; [|done].
    intros [= <- <-]. by eapply EnsureLink_ok.
  - by apply SweepLinks_ok.
  - intros H. destruct (handleDatagram_ok k now source datagram w He Hok) as (? & ? & ? & ?).
    by simplify_eq.
  - intros [= H]. pose proof (watchLink_ok k index operUp w Hok). by rewrite H in *.
  - intros [= H]. pose proof (tick_ok k k' now w Hok). by rewrite H in *.
  - intros [= H]. pose proof (resolvePeer_ok k resolved id w Hok). by rewrite H in *.
  - intros [= <- <-]. by apply wire_ok_alter.
  - intros [= <- <-]. by apply wire_ok_alter.
  - intros [= <- <-]. by apply wire_ok_alter.
  - intros [= <- <-]. by apply reportCounters_ok.
  - by apply Close_ok.
Qed.

Lemma newFabricWire_ok local payload gen socket w :
  newFabricWire local payload gen socket = Ok w → wire_ok w.
Proof.
  unfold newFabricWire. intros H. repeat case_match; simplify_eq.
  split; [constructor; simpl; [apply map_Forall_empty| |]; by intros ?? ?%lookup_empty_Some|].
  intros id link Hid. simpl in Hid. by rewrite lookup_empty in Hid.
Qed.

Lemma reachable_ok w w' : wire_ok w → reachable w w' → wire_ok w'.
Proof. intros Hok. induction 1; [done|]. by eapply wireStep_ok. Qed.

(** A session that goes silent is marked down by the tick. *)
Lemma expireSessions_down k now entries w effects a s :
  NoDup entries.*1 → (a, s) ∈ entries → (∀ a s, (a, s) ∈ entries → sessions w !! a = Some s) →
  wire_ok w → up s = true → fabricWireSessionTimeout < now - lastHeard s →
  ∃ s', sessions (foldl (expireSession k now) (w, effects) entries).1 !! a = Some s' ∧
    up s' = false ∧ generationKnown s' = false.
Proof.
  intros Hnd Hin Hall Hok Hup Hsil. revert w effects Hall Hok.
  induction entries as [|[a' s'] entries IH]; intros w effects Hall Hok; [by apply elem_of_nil in Hin|].
  apply NoDup_cons in Hnd as [Ha Hnd]. cbn [foldl].
  destruct (expireSession_ok k now w effects a' s') as [H1 H2]; [done|apply Hall; left|].
  apply elem_of_cons in Hin as [[= -> ->]|Hin].
  - assert (∃ s1, sessions (expireSession k now (w, effects) (a', s')).1 !! a' = Some s1 ∧
      up s1 = false ∧ generationKnown s1 = false) as Hex.
    { unfold expireSession. rewrite Hup, (proj2 (Z.ltb_lt _ _) Hsil). simpl.
      eexists. split; [apply lookup_insert_eq|done]. }
    clear IH H1 H2 Hall Hok.
    revert Hex. generalize (expireSession k now (w, effects) (a', s')).
    induction entries as [|[a2 s2] entries IH]; intros [w' e'] Hex; [done|].
    cbn [foldl]. apply NoDup_cons in Hnd as [_ Hnd]. apply IH; [set_solver|done|].
    destruct Hex as (s3 & Hs3 & Hd). exists s3. split; [|done].
    unfold expireSession. destruct (_ && _); [|done]. simpl.
    rewrite lookup_insert_ne; [done|]. intros ->. apply Ha. simpl. left.
  - destruct (expireSession k now (w, effects) (a', s')) as [w' e'].
    apply IH; [done|done| |done]. intros a2 s2 Hin2. simpl in H2. rewrite H2; [apply Hall; by right|].
    intros ->. apply Ha, list_elem_of_fmap. by exists (a', s2).
Qed.

Lemma tick_sessions k k' now w : sessions (tick k k' now w).1 = sessions (expireSessions k' now (sampleLinks k w).1).1.
Proof.
  unfold tick. destruct (sampleLinks k w) as [w1 e1]. simpl.
  by destruct (expireSessions k' now w1) as [w2 e2].
Qed.
End wire.

(** ** The wire's contract *)

(** C2: the carrier invariant, by induction over every critical section of the
    wire: in every state reachable from a fresh wire, whatever the kernel answers
    and whatever arrives, the wire holds a link's leg down exactly when the local
    side is up and the peer session is dead or the peer advertises no carrier, so
    a device never sees carrier on a link whose peer end is dead or down; leg
    indexes name registered links; and each link's reassembly stays bounded. *)
Theorem wire_carrier_invariant `{!RangeOrder Z, !RangeOrder addr} local payload gen socket w0 w :
  newFabricWire local payload gen socket = Ok w0 → reachable w0 w →
  (∀ id link, links w !! id = Some link →
     ForcesLegDown id w = (true, lastLocalUp link && negb (remoteUp (sessions w) link)) ∧
     (size (reassembler link) ≤ fabricWireReassemblyFrameLimit)%nat) ∧
  (∀ index id, byLeg w !! index = Some id →
     ∃ link, links w !! id = Some link ∧ legIndex link = index).
Proof.
  intros Hnew Hr. apply newFabricWire_ok in Hnew. destruct (reachable_ok _ _ Hnew Hr) as [Hb Hc].
  split; [|apply Hb]. intros id link Hid. unfold ForcesLegDown. rewrite Hid. split.
  - f_equal. by apply (Hc id).
  - destruct (bo_links _ Hb id link Hid) as [_ (hist & Hre)]. apply Hre.
Qed.

(** A kernel that answers yes to everything, and a wire with one link to it. *)
Definition sample_kernel : kernel :=
  {| clock := λ _, 0; linkByIndex := λ _, true; linkSetDown := λ _, true;
     linkSetUp := λ _, true; legOperUp := λ _, Some true; injectOk := λ _ _, true |}.

Definition sample_spec : fabricWireLinkSpec :=
  {| SpecLinkID := 7; Owner := "pod/link-7"; LegName := "c9s7"; PeerTransport := "peer";
     PeerAddress := Addr4 2; MTU := 1500 |}.

Definition sample_answer : legAnswer :=
  {| legByName := Some (40, true); openCapture := Some 11 |}.

Definition sample_start : fabricWire :=
  {| FragmentPayload := 1400; generation := 50; links := ∅; byLeg := ∅; sessions := ∅;
     closed := false |}.

Definition run_from (w : fabricWire) (r : option (fabricWire * list effect)) : fabricWire :=
  default w (fst <$> r).

#[local] Instance sample_range : RangeOrder Z := canonical_range.
#[local] Instance sample_range_addr : RangeOrder addr := canonical_range.

Definition sample_wire : fabricWire :=
  run_from sample_start (wireStep (EvEnsure sample_kernel sample_answer sample_spec) sample_start).

(** The wire after the peer's generation 100 advertised carrier at time 0. *)
Definition sample_up : fabricWire :=
  run_from sample_wire
    (wireStep (EvDatagram sample_kernel 0 (Addr4 2)
                 (encodeFabricWireLinkStates 100 [ {| StateLinkID := 7; OperUp := true |} ]))
       sample_wire).

Lemma reachable_run w w1 e :
  reachable w w1 → event_ok e → reachable w (run_from w1 (wireStep e w1)).
Proof.
  intros Hr He. destruct (wireStep e w1) as [[w2 effects]|] eqn:Hs; [|done].
  by eapply reachable_step.
Qed.

Lemma sample_up_reachable : reachable sample_start sample_up.
Proof.
  repeat (apply reachable_run; [|try exact I]); [apply reachable_refl|].
  apply (bool_decide_unpack _). vm_compute. exact I.
Qed.

Lemma sample_up_ok : wire_ok sample_up.
Proof.
  apply (reachable_ok sample_start).
  - apply (newFabricWire_ok (Addr4 1) 1400 50 true). reflexivity.
  - apply sample_up_reachable.
Qed.

Lemma wire_carrier_invariant_witness :
  (∀ id link, links sample_up !! id = Some link →
     ForcesLegDown id sample_up
     = (true, lastLocalUp link && negb (remoteUp (sessions sample_up) link)) ∧
     (size (reassembler link) ≤ fabricWireReassemblyFrameLimit)%nat) ∧
  (∀ index id, byLeg sample_up !! index = Some id →
     ∃ link, links sample_up !! id = Some link ∧ legIndex link = index).
Proof.
  apply (wire_carrier_invariant (Addr4 1) 1400 50 true sample_start);
    [reflexivity | apply sample_up_reachable].
Defined.

(** C10: no datagram can crash the wire: in every reachable state, any sequence of
    bytes from any source is handled without a panic (an index out of range in the
    reassembler, a missing link). *)
Theorem wire_datagrams_never_panic `{!RangeOrder Z, !RangeOrder addr} local payload gen socket
    w0 w k now source d :
  newFabricWire local payload gen socket = Ok w0 → reachable w0 w → Forall is_byte d →
  ∃ w' effects, handleDatagram k now source d w = Some (w', effects).
Proof.
  intros Hnew Hr Hd. apply newFabricWire_ok in Hnew.
  destruct (handleDatagram_ok k now source d w Hd (reachable_ok _ _ Hnew Hr)) as (w' & e & H & _).
  eauto.
Qed.

Lemma wire_datagrams_never_panic_witness :
  ∃ w' effects, handleDatagram sample_kernel 5 (Addr4 2) [1; 1; 0; 0] sample_up = Some (w', effects).
Proof.
  apply (wire_datagrams_never_panic (Addr4 1) 1400 50 true sample_start);
    [reflexivity | apply sample_up_reachable |].
  repeat (apply Forall_cons; split; [unfold is_byte; lia|]). apply Forall_nil. exact I.
Defined.

Lemma refresh_stale `{!RangeOrder Z} now source gen w s :
  sessions w !! source = Some s → generationKnown s = true → gen < sessionGeneration s →
  now - lastHeard s ≤ fabricWireSessionTimeout →
  refreshSessionLocked now source gen w = None.
Proof.
  intros Hs Hk Hg Ht. unfold refreshSessionLocked. rewrite Hs, Hk.
  rewrite (proj2 (Z.ltb_lt _ _) Hg), (proj2 (Z.leb_le _ _) Ht).
  rewrite (proj2 (Z.eqb_neq _ _)) by lia. done.
Qed.

(** One drop counter of a link is one more, and that is all. *)
Definition countedDrop (w : fabricWire) (id : Z) (link : fabricWireLink)
    (drop : fabricWireLinkCounters → fabricWireLinkCounters) : fabricWire :=
  w <| links ::= <[id := link <| counters ::= drop |>]> |>.

(** C7: a dead process's stragglers cannot displace a live peer: while the peer's current
    generation was heard within the session timeout, every datagram of an older generation,
    of any type, is ignored.  No kernel call is made and nothing changes, except that a data
    datagram for a known link adds one to a drop counter of that link: the one for stale
    generations, or, where the link has another peer, the one for foreign sources. *)
Theorem stale_generation_ignored `{!RangeOrder Z} `{!RangeOrder addr} k now source d h body w s :
  parseFabricWireHeader d = Ok (h, body) →
  sessions w !! source = Some s → generationKnown s = true →
  Generation h < sessionGeneration s → now - lastHeard s ≤ fabricWireSessionTimeout →
  ∃ w', handleDatagram k now source d w = Some (w', []) ∧
    (w' = w ∨
     MsgType h = fabricWireMsgData ∧
     ∃ dh p link, parseFabricWireDataHeader body = Ok (dh, p) ∧ links w !! LinkID dh = Some link ∧
       w' = countedDrop w (LinkID dh) link
              (if decide (peerAddr link = source) then set_field dropStaleGeneration inc64
               else set_field dropForeignSource inc64)).
Proof.
  intros Hh Hs Hk Hg Ht. unfold handleDatagram. rewrite Hh.
  pose proof (refresh_stale now source (Generation h) w s Hs Hk Hg Ht) as Hr.
  unfold handleData, handleLinkStates, handleHeartbeat. rewrite Hr.
  destruct (_ =? fabricWireMsgData) eqn:Ed.
  { bool_to_prop. destruct (parseFabricWireDataHeader body) as [[dh p]|]; [|eauto].
    destruct (links w !! LinkID dh) as [link|] eqn:Hl; [|eauto].
    destruct (decide (peerAddr link = source)) as [He|He];
      [rewrite bool_decide_eq_true_2 by done|rewrite bool_decide_eq_false_2 by done]; cbn [negb];
      (eexists; split; [done|]); right; (split; [done|]); exists dh, p, link; (split; [done|]); (split; [done|]);
      [by rewrite decide_True|by rewrite decide_False]. }
  repeat case_match; eauto.
Qed.

(** A stale heartbeat, and a stale fragment of the sample link. *)
Lemma stale_generation_ignored_witness :
  ∃ w', handleDatagram sample_kernel 1000 (Addr4 2) (encodeFabricWireHeartbeat 99) sample_up = Some (w', []) ∧
    (w' = sample_up ∨
     MsgType (FabricWireHeader 1 3 99) = fabricWireMsgData ∧
     ∃ dh p link, parseFabricWireDataHeader [] = Ok (dh, p) ∧ links sample_up !! LinkID dh = Some link ∧
       w' = countedDrop sample_up (LinkID dh) link
              (if decide (peerAddr link = Addr4 2) then set_field dropStaleGeneration inc64
               else set_field dropForeignSource inc64)).
Proof.
  apply (stale_generation_ignored sample_kernel 1000 (Addr4 2) _
    (FabricWireHeader 1 3 99) [] sample_up (FabricWireSession (Addr4 2) 100 true 0 true));
    vm_compute; first [reflexivity | discriminate].
Defined.

(** The links after re-evaluating one peer's carrier. *)
Lemma applyPeer_lookup `{!RangeOrder Z} k w source id link :
  links w !! id = Some link → peerAddr link = source →
  links (applyPeerCarrierLocked k w source).1 !! id
  = Some (applyLinkCarrierLocked k (sessions w) link).1.
Proof.
  intros Hl Hp. unfold applyPeerCarrierLocked. simpl. rewrite lookup_fmap, Hl. simpl.
  by rewrite bool_decide_eq_true_2.
Qed.

(** a restarted peer is adopted at once: a heartbeat of a newer generation
    than the current one makes it the session's generation, and every link homed
    on the peer forgets its partial frames and the old generation's carrier, so the
    leg of a locally-up link is held down until the new generation advertises. *)
Theorem newer_generation_displaces `{!RangeOrder Z} k now source gen w s id link :
  sessions w !! source = Some s → generationKnown s = true → sessionGeneration s < gen →
  links w !! id = Some link → peerAddr link = source →
  let w' := (handleHeartbeat k now source gen w).1 in
  (∃ s', sessions w' !! source = Some s' ∧ sessionGeneration s' = gen ∧ up s' = true ∧
     lastHeard s' = now) ∧
  (∃ link', links w' !! id = Some link' ∧ remoteOperUp link' = false ∧
     reassembler link' = newWireReassembler ∧ forcedDown link' = lastLocalUp link).
Proof.
  intros Hs Hk Hg Hl Hp. unfold handleHeartbeat, refreshSessionLocked. rewrite Hs, Hk.
  rewrite (proj2 (Z.eqb_neq _ _)) by lia. rewrite (proj2 (Z.ltb_ge _ _)) by lia.
  cbn [andb negb orb]. set (w1 := set_field sessions _ _).
  set (link1 := link <| reassembler := newWireReassembler |> <| remoteOperUp := false |>).
  assert (links w1 !! id = Some link1) as Hl1.
  { unfold w1. simpl. rewrite lookup_fmap, Hl. simpl. by rewrite bool_decide_eq_true_2. }
  split.
  - eexists. split; [apply lookup_insert_eq|]. done.
  - rewrite (applyPeer_lookup k w1 source id link1 Hl1) by done.
    destruct (apply_carrier_eq k (sessions w1) link1) as [t ->].
    eexists. split; [done|]. split_and!; [done..|]. simpl.
    unfold remoteUp. simpl. rewrite Hp, lookup_insert_eq. simpl. by rewrite andb_true_r.
Qed.

Definition sample_link_up : fabricWireLink :=
  FabricWireLink 7 "pod/link-7" "c9s7" 40 11 "peer" (Addr4 2) 1500 true true false 500000000 0 ∅
    zeroCounters zeroCounters false zeroTime false.

Lemma newer_generation_displaces_witness :
  let w' := (handleHeartbeat sample_kernel 9 (Addr4 2) 101 sample_up).1 in
  (∃ s', sessions w' !! Addr4 2 = Some s' ∧ sessionGeneration s' = 101 ∧ up s' = true ∧
     lastHeard s' = 9) ∧
  (∃ link', links w' !! 7 = Some link' ∧ remoteOperUp link' = false ∧
     reassembler link' = newWireReassembler ∧ forcedDown link' = lastLocalUp sample_link_up).
Proof.
  apply (newer_generation_displaces sample_kernel 9 (Addr4 2) 101 sample_up
    (FabricWireSession (Addr4 2) 100 true 0 true) 7 sample_link_up);
    vm_compute; reflexivity.
Defined.

(** C8: a silent peer loses carrier: in a reachable state, a tick more than the
    session timeout after the peer was last heard marks the session down, and
    holds down the leg of every link homed on the peer whose local side is up. *)
Theorem silent_session_drops_carrier `{!RangeOrder Z, !RangeOrder addr} local payload gen socket
    w0 k k' now w a s :
  newFabricWire local payload gen socket = Ok w0 → reachable w0 w →
  sessions w !! a = Some s → up s = true → fabricWireSessionTimeout < now - lastHeard s →
  let w' := (tick k k' now w).1 in
  (∃ s', sessions w' !! a = Some s' ∧ up s' = false) ∧
  (∀ id link, links w' !! id = Some link → peerAddr link = a →
     forcedDown link = lastLocalUp link).
Proof.
  intros Hnew Hr Hs Hup Hsil w'. apply newFabricWire_ok in Hnew.
  pose proof (reachable_ok _ _ Hnew Hr) as Hok.
  assert (∃ s', sessions w' !! a = Some s' ∧ up s' = false) as (s' & Hs' & Hdown).
  { unfold w'. rewrite tick_sessions.
    destruct (expireSessions_down k' now (range_list (sessions (sampleLinks k w).1))
      (sampleLinks k w).1 [] a s) as (s' & ? & ? & ?);
      [apply NoDup_range_keys | by apply elem_of_range_list
      | intros ??; apply elem_of_range_list | by apply sampleLinks_ok | done | done |].
    eauto. }
  split; [eauto|]. intros id link Hid Hp.
  pose proof (proj2 (tick_ok k k' now w Hok) id link Hid I) as Hc.
  unfold carrier_settled, remoteUp in Hc. rewrite Hp in Hc. fold w' in Hc.
  rewrite Hs', Hdown in Hc. by rewrite andb_true_r in Hc.
Qed.

Lemma silent_session_drops_carrier_witness :
  let w' := (tick sample_kernel sample_kernel 4000000000 sample_up).1 in
  (∃ s', sessions w' !! Addr4 2 = Some s' ∧ up s' = false) ∧
  (∀ id link, links w' !! id = Some link → peerAddr link = Addr4 2 →
     forcedDown link = lastLocalUp link).
Proof.
  apply (silent_session_drops_carrier (Addr4 1) 1400 50 true sample_start _ _ _ _ _
    (FabricWireSession (Addr4 2) 100 true 0 true));
    [reflexivity | apply sample_up_reachable | vm_compute; reflexivity..].
Defined.

Lemma foldl_state_unique id b (states : list fabricWireLinkState) b0 :
  {| StateLinkID := id; OperUp := b |} ∈ states → NoDup (StateLinkID <$> states) →
  foldl (λ b st, if StateLinkID st =? id then OperUp st else b) b0 states = b.
Proof.
  revert b0. induction states as [|st states IH]; intros b0 Hin Hnd; [by apply elem_of_nil in Hin|].
  rewrite fmap_cons in Hnd. apply NoDup_cons in Hnd as [Hn Hnd]. cbn [foldl].
  apply elem_of_cons in Hin as [<-|Hin]; [|by apply IH].
  cbn [StateLinkID OperUp] in *. rewrite Z.eqb_refl. clear IH.
  revert Hn. clear Hnd. induction states as [|st states IH]; intros Hn; [done|].
  rewrite fmap_cons, not_elem_of_cons in Hn. destruct Hn as [Hne Hn]. cbn [foldl].
  rewrite (proj2 (Z.eqb_neq _ _)) by done. by apply IH.
Qed.

Lemma refresh_current `{!RangeOrder Z} now source gen w s :
  sessions w !! source = Some s → generationKnown s = true → sessionGeneration s = gen →
  ∃ s', refreshSessionLocked now source gen w = Some (w <| sessions ::= <[source := s']> |>) ∧
    up s' = true.
Proof.
  intros Hs Hk <-. unfold refreshSessionLocked. rewrite Hs, Hk, Z.eqb_refl. simpl. eauto.
Qed.

Lemma generation_value seconds nonce :
  0 ≤ seconds < 2 ^ 32 → 0 ≤ nonce < 2 ^ 32 →
  newFabricWireGeneration seconds nonce = seconds * 2 ^ 32 + nonce.
Proof.
  intros Hs Hn. unfold newFabricWireGeneration.
  rewrite Z.mod_small; [by apply shiftl_lor|]. rewrite Z.shiftl_mul_pow2 by lia. lia.
Qed.

(** carrier propagates like a cable's: when a link-state datagram of the
    peer's current generation (as the peer encodes it, one entry per link)
    advertises state [b] for a link homed on the peer, the link's leg is held down
    exactly if the local side is up and [b] is down.  In particular two ends that
    are both up and have heard each other both show carrier. *)
Theorem link_state_propagates `{!RangeOrder Z, !RangeOrder addr} k now source gen states w s
    id link b :
  u64 gen → Forall (λ st, u32 (StateLinkID st)) states →
  {| StateLinkID := id; OperUp := b |} ∈ states → NoDup (StateLinkID <$> states) →
  sessions w !! source = Some s → generationKnown s = true → sessionGeneration s = gen →
  links w !! id = Some link → peerAddr link = source →
  ∃ w' effects link',
    handleDatagram k now source (encodeFabricWireLinkStates gen states) w = Some (w', effects) ∧
    links w' !! id = Some link' ∧ lastLocalUp link' = lastLocalUp link ∧
    forcedDown link' = lastLocalUp link && negb b.
Proof.
  intros Hg Hst Hin Hnd Hs Hk Hgen Hl Hp. unfold handleDatagram.
  rewrite encodeFabricWireLinkStates_eq, parse_header_app by done. cbn [MsgType Generation].
  change (fabricWireMsgLinkState =? fabricWireMsgData) with false.
  change (fabricWireMsgLinkState =? fabricWireMsgLinkState) with true. cbv iota.
  rewrite parse_link_states_concat; [|by intros ->; apply elem_of_nil in Hin|done].
  unfold handleLinkStates. destruct (refresh_current now source gen w s Hs Hk Hgen) as (s' & -> & Hup).
  set (w1 := set_field links _ _).
  assert (links w1 !! id = Some (link <| remoteOperUp := b |>)) as Hl1.
  { unfold w1. simpl. rewrite noteLinkStates_lookup, Hl. simpl.
    rewrite bool_decide_eq_true_2 by done. by rewrite (foldl_state_unique id b). }
  pose proof (applyPeer_lookup k w1 source id _ Hl1 Hp) as Hap.
  destruct (applyPeerCarrierLocked k w1 source) as [w' effects]. simpl in Hap.
  eexists w', effects, _. split; [done|]. split; [exact Hap|].
  destruct (apply_carrier_eq k (sessions w1) (link <| remoteOperUp := b |>)) as [t Ht].
  simpl in Ht. rewrite Ht. simpl. split; [done|].
  unfold remoteUp. simpl. by rewrite Hp, lookup_insert_eq, Hup.
Qed.

Lemma link_state_propagates_witness :
  ∃ w' effects link',
    handleDatagram sample_kernel 9 (Addr4 2)
      (encodeFabricWireLinkStates 100 [ {| StateLinkID := 7; OperUp := false |} ]) sample_up
    = Some (w', effects) ∧
    links w' !! 7 = Some link' ∧ lastLocalUp link' = lastLocalUp sample_link_up ∧
    forcedDown link' = lastLocalUp sample_link_up && negb false.
Proof.
  apply (link_state_propagates sample_kernel 9 (Addr4 2) 100
    [ {| StateLinkID := 7; OperUp := false |} ] sample_up
    (FabricWireSession (Addr4 2) 100 true 0 true) 7 sample_link_up false).
  - unfold u64. lia.
  - apply Forall_singleton. unfold u32. simpl. lia.
  - left.
  - apply NoDup_singleton.
  - vm_compute. reflexivity.
  - reflexivity.
  - reflexivity.
  - vm_compute. reflexivity.
  - reflexivity.
Defined.

(** after a session timed out, a heartbeat alone, of any generation, raises the
    carrier again on the word of the generation that died: the timeout forgets the
    generation, so the restart is not seen, the links' [remoteOperUp] is not reset,
    and a leg is raised although the new generation has advertised nothing. *)
Theorem stale_carrier_after_timeout `{!RangeOrder Z} k now source gen w s id link :
  sessions w !! source = Some s → generationKnown s = false →
  links w !! id = Some link → peerAddr link = source → remoteOperUp link = true →
  ∃ link', links (handleHeartbeat k now source gen w).1 !! id = Some link' ∧
    remoteOperUp link' = true ∧ forcedDown link' = false.
Proof.
  intros Hs Hk Hl Hp Hrem. unfold handleHeartbeat, refreshSessionLocked. rewrite Hs, Hk.
  cbn [andb negb orb]. set (w1 := set_field sessions _ _).
  assert (links w1 !! id = Some link) as Hl1 by done.
  rewrite (applyPeer_lookup k w1 source id link Hl1 Hp).
  destruct (apply_carrier_eq k (sessions w1) link) as [t ->].
  eexists. split; [done|]. split; [done|]. simpl.
  unfold remoteUp. simpl. rewrite Hp, lookup_insert_eq. simpl. by rewrite Hrem, andb_false_r.
Qed.

(** Generation 100 advertised carrier and fell silent; the tick held the leg
    down; a heartbeat of generation 200 raises it. *)
Definition sample_timed_out : fabricWire :=
  (tick sample_kernel sample_kernel 4000000000 sample_up).1.

Lemma stale_carrier_after_timeout_witness :
  ForcesLegDown 7 sample_timed_out = (true, true) ∧
  ∃ link', links (handleHeartbeat sample_kernel 5000000000 (Addr4 2) 200 sample_timed_out).1 !! 7
           = Some link' ∧ remoteOperUp link' = true ∧ forcedDown link' = false.
Proof.
  split; [vm_compute; reflexivity|].
  apply (stale_carrier_after_timeout sample_kernel 5000000000 (Addr4 2) 200 sample_timed_out
    (FabricWireSession (Addr4 2) 100 false 0 false) 7
    (FabricWireLink 7 "pod/link-7" "c9s7" 40 11 "peer" (Addr4 2) 1500 true true true 500000000 0 ∅
       zeroCounters zeroCounters true 4000000000 false));
    vm_compute; reflexivity.
Defined.

(** a registration whose leg moved but whose new capture socket could not be
    opened leaves the link with its stop channel closed and its old leg index, so
    the next registration of the moved leg closes the channel again: the retry
    panics. *)
Theorem failed_rebind_retry_panics k k' spec w link index operUp index' operUp' capture' :
  SpecLinkID spec ≠ 0 → LegName spec ≠ "" → Owner spec ≠ "" → 1 ≤ MTU spec → closed w = false →
  links w !! SpecLinkID spec = Some link → stopClosed link = false →
  legIndex link ≠ index → legIndex link ≠ index' →
  ∃ w' effects,
    EnsureLink k (LegAnswer (Some (index, operUp)) None) spec w
    = Some (w', effects, Err errOpeningCapture) ∧
    EnsureLink k' (LegAnswer (Some (index', operUp')) capture') spec w' = None.
Proof.
  intros Hid Hleg Hown Hmtu Hcl Hl Hst Hi Hi'. unfold EnsureLink.
  rewrite (proj2 (Z.eqb_neq (SpecLinkID spec) 0) Hid), (bool_decide_eq_false_2 _ Hleg),
    (bool_decide_eq_false_2 _ Hown), (proj2 (Z.ltb_ge (MTU spec) 1) Hmtu).
  cbn [orb legByName openCapture]. rewrite Hcl, Hl, Hst.
  rewrite (proj2 (Z.eqb_neq (legIndex link) index)) by done.
  eexists _, _. split; [done|]. simpl. rewrite Hcl, lookup_insert_eq. simpl.
  by rewrite (proj2 (Z.eqb_neq (legIndex link) index')).
Qed.

Lemma failed_rebind_retry_panics_witness :
  ∃ w' effects,
    EnsureLink sample_kernel (LegAnswer (Some (41, true)) None) sample_spec sample_up
    = Some (w', effects, Err errOpeningCapture) ∧
    EnsureLink sample_kernel (LegAnswer (Some (41, true)) (Some 12)) sample_spec w' = None.
Proof.
  apply (failed_rebind_retry_panics sample_kernel sample_kernel sample_spec sample_up sample_link_up);
    vm_compute; first [reflexivity | discriminate].
Defined.

(** Generations order process instances by start second: an instance started
    in a later second has a larger generation, whatever the nonces, until the
    32-bit second counter ends. *)
Theorem generation_ordered_by_start s1 s2 n1 n2 :
  0 ≤ s1 < s2 → s2 < 2 ^ 32 → u32 n1 → u32 n2 →
  newFabricWireGeneration s1 n1 < newFabricWireGeneration s2 n2.
Proof.
  intros Hs Hb H1 H2. unfold u32 in *.
  rewrite !generation_value by lia. nia.
Qed.

Lemma generation_ordered_by_start_witness :
  newFabricWireGeneration 1700000000 4294967295 < newFabricWireGeneration 1700000001 0.
Proof. apply generation_ordered_by_start; unfold u32; lia. Defined.

(** ** A frame from one device leg to the other *)

(** The receiver's state as far as one link's data path is concerned. *)
Definition receives (w : fabricWire) (source : addr) (gen id : Z) (fd mtuBound : Z)
    (pending : gmap Z pendingWireFrame) : Prop :=
  (∃ s, sessions w !! source = Some s ∧ generationKnown s = true ∧ sessionGeneration s = gen) ∧
  (∃ link, links w !! id = Some link ∧ peerAddr link = source ∧ packetFD link = fd ∧
     mtu link = mtuBound ∧ reassembler link = pending).

(** The frames a list of kernel calls injects. *)
Definition injected (effects : list effect) : list (Z * list byte) :=
  omap (λ e, match e with InjectFrame fd frame => Some (fd, frame) | _ => None end) effects.

Lemma injected_app e1 e2 : injected (e1 ++ e2) = injected e1 ++ injected e2.
Proof. apply omap_app. Qed.

Lemma injected_apply k ss link : injected (applyLinkCarrierLocked k ss link).2 = [].
Proof. unfold applyLinkCarrierLocked. repeat case_match; done. Qed.

Lemma injected_applyPeer `{!RangeOrder Z} k w source :
  injected (applyPeerCarrierLocked k w source).2 = [].
Proof.
  unfold applyPeerCarrierLocked. simpl. induction (range_list (links w)) as [|e l IH]; [done|].
  rewrite fmap_cons. cbn [concat]. rewrite injected_app, IH, app_nil_r.
  case_bool_decide; [apply injected_apply|done].
Qed.

Lemma receiveFragment_spec `{!RangeOrder Z} k now h p link r :
  absorb now h p (reassembler link) = Some r →
  ∃ link' effects, receiveFragment k now h p link = Some (link', effects) ∧
    peerAddr link' = peerAddr link ∧ packetFD link' = packetFD link ∧ mtu link' = mtu link ∧
    reassembler link' = pendingAfter r ∧
    injected effects
    = match completed r with
      | Some frame =>
          if mtu link + fabricWireFrameHeadroom <? Z.of_nat (length frame) then []
          else [(packetFD link, frame)]
      | None => []
      end.
Proof.
  intros Hr. unfold receiveFragment. simpl. rewrite Hr.
  destruct (completed r) as [frame|]; [|by eexists _, _].
  destruct (_ <? _); [by eexists _, _|]. destruct (injectOk _ _ _); by eexists _, _.
Qed.

(** One data datagram of the current generation: the link absorbs the fragment,
    and injects the frame it completes when the frame fits the link. *)
Lemma handleDatagram_data `{!RangeOrder Z, !RangeOrder addr} k now source gen w fd m pending h p r :
  u64 gen → valid_fragment h p → receives w source gen (LinkID h) fd m pending →
  absorb now h p pending = Some r →
  ∃ w' effects,
    handleDatagram k now source (encodeFabricWireFragment gen h p) w = Some (w', effects) ∧
    receives w' source gen (LinkID h) fd m (pendingAfter r) ∧
    injected effects
    = match completed r with
      | Some frame =>
          if m + fabricWireFrameHeadroom <? Z.of_nat (length frame) then [] else [(fd, frame)]
      | None => []
      end.
Proof.
  intros Hg Hv ((s & Hs & Hk & Hgen) & (link & Hl & Hp & Hfd & Hm & Hre)) Hr.
  unfold handleDatagram. rewrite encodeFabricWireFragment_eq, app_assoc, parse_header_app by done.
  cbn [MsgType Generation]. rewrite Z.eqb_refl, parse_data_app by done.
  unfold handleData. rewrite Hl, bool_decide_eq_true_2 by done. cbn [negb].
  destruct (refresh_current now source gen w s Hs Hk Hgen) as (s' & Href & Hup).
  destruct (refresh_spec now source gen w _ Href) as (s2 & Hss & Hg2 & Hk2 & _).
  rewrite Href. set (w1 := set_field sessions _ w) in *.
  pose proof (applyPeer_lookup k w1 source (LinkID h) link Hl Hp) as Hap.
  pose proof (injected_applyPeer k w1 source) as Hinj.
  assert (sessions (applyPeerCarrierLocked k w1 source).1 = sessions w1) as Hsess by done.
  destruct (apply_carrier_frame k (sessions w1) link) as (_ & Hre' & Hp' & _ & _ & _ & Hfd' & Hm' & _).
  destruct (applyPeerCarrierLocked k w1 source) as [w2 applied]. cbn [fst snd] in Hap, Hinj, Hsess.
  rewrite Hap. clear Hap. set (link1 := (applyLinkCarrierLocked k (sessions w1) link).1) in *.
  rewrite <- Hre, <- Hre' in Hr.
  destruct (receiveFragment_spec k now h p link1 r Hr)
    as (link2 & eff & -> & Hp2 & Hfd2 & Hm2 & Hre2 & Hin2).
  eexists _, _. split; [done|]. split.
  - split.
    + exists s2. simpl. rewrite Hsess, Hss, lookup_insert_eq. done.
    + exists link2. simpl. rewrite lookup_insert_eq. split; [done|]. split_and!; congruence.
  - rewrite injected_app, Hinj, Hin2, Hm', Hm, Hfd', Hfd. done.
Qed.

(** Datagrams from one source, each with its arrival time, handled in order. *)
Fixpoint handleDatagrams `{!RangeOrder Z, !RangeOrder addr} (k : kernel) (source : addr)
    (arrivals : list (Z * list byte)) (w : fabricWire) : option (fabricWire * list effect) :=
  match arrivals with
  | [] => Some (w, [])
  | (now, d) :: arrivals =>
      match handleDatagram k now source d w with
      | None => None
      | Some (w, effects) =>
          match handleDatagrams k source arrivals w with
          | None => None
          | Some (w, effects') => Some (w, effects ++ effects')
          end
      end
  end.

(** The frames of a run that fit a link. *)
Definition fitting (fd m : Z) (frames : list (Z * list byte)) : list (Z * list byte) :=
  omap (λ out, if m + fabricWireFrameHeadroom <? Z.of_nat (length out.2) then None
               else Some (fd, out.2)) frames.

Lemma handleDatagrams_absorb `{!RangeOrder Z, !RangeOrder addr} k source gen id fd m events w
    pending pending' frames :
  u64 gen → (∀ t h p, (t, h, p) ∈ events → valid_fragment h p ∧ LinkID h = id) →
  receives w source gen id fd m pending →
  absorb_run events pending = Some (pending', frames) →
  ∃ w' effects,
    handleDatagrams k source
      ((λ e : Z * fabricWireDataHeader * list byte,
          (e.1.1, encodeFabricWireFragment gen e.1.2 e.2)) <$> events) w = Some (w', effects) ∧
    injected effects = fitting fd m frames.
Proof.
  intros Hg. revert w pending frames.
  induction events as [|[[t h] p] events IH]; intros w pending frames Hev Hrec Hrun; simpl in Hrun.
  { injection Hrun as <- <-. by exists w, []. }
  destruct (absorb t h p pending) as [r|] eqn:Hr; [|done].
  destruct (absorb_run events (pendingAfter r)) as [[pe fs]|] eqn:Hrun'; [|done].
  injection Hrun as <- <-.
  destruct (Hev t h p) as [Hv Hid]; [left|]. rewrite <- Hid in Hrec.
  destruct (handleDatagram_data k t source gen w fd m pending h p r Hg Hv Hrec Hr)
    as (w1 & e1 & Hd & Hrec1 & Hin1). rewrite Hid in Hrec1.
  destruct (IH w1 (pendingAfter r) fs) as (w2 & e2 & Hd2 & Hin2); [|done|done|].
  { intros t' h' p' Hin. apply (Hev t' h' p'). by right. }
  rewrite fmap_cons. cbn [fst snd handleDatagrams]. rewrite Hd, Hd2.
  eexists _, _. split; [done|]. rewrite injected_app, Hin1, Hin2. unfold fitting.
  rewrite omap_app. f_equal. destruct (completed r) as [frame|]; [|done]. simpl.
  by destruct (_ <? _).
Qed.

(** The header of the [i]-th fragment a sender emits. *)
Definition sent_header (link : fabricWireLink) (frame : list byte) (n : nat) (i : nat) :
    fabricWireDataHeader :=
  {| LinkID := linkID link; FrameID := frameID link; FragIndex := Z.of_nat i;
     FragCount := Z.of_nat n; TotalLength := Z.of_nat (length frame) |}.

Lemma sent_fragments ps frame frags link i p :
  splitFabricWireFrame frame ps = Ok frags → u32 (linkID link) → u32 (frameID link) →
  frags !! i = Some p →
  valid_fragment (sent_header link frame (length frags) i) p ∧
  fragment_of (frameID link) frags (sent_header link frame (length frags) i) p.
Proof.
  intros Hsplit Hl Hf Hp. pose proof (split_Ok_inv _ _ _ Hsplit) as (Hps & Hlen & _ & Hmax & Hfr).
  pose proof (split_concat _ _ _ Hsplit) as Hcat.
  pose proof (lookup_lt_Some _ _ _ Hp) as Hi.
  assert (0 < length p ≤ length frame)%nat as Hpl.
  { split.
    - assert (Forall (λ f, 1 ≤ length f ≤ Z.to_nat ps)%nat frags) as Hsz
        by (rewrite Hfr; apply splitLoop_sizes; lia).
      rewrite Forall_lookup in Hsz. specialize (Hsz i p Hp). simpl in Hsz. lia.
    - rewrite <- Hcat. apply list_elem_of_lookup_2, list_elem_of_In, in_split in Hp as (l1 & l2 & ->).
      rewrite concat_app. simpl. rewrite !length_app. lia. }
  unfold valid_fragment, fragment_of, sent_header, u16, fabricWireMaximumFrameSize,
    fabricWireMaximumFragments in *. simpl in *. rewrite Hcat, Nat2Z.id.
  change (1 ≪ 16) with 65536 in Hlen. change (1 ≪ 8) with 256 in Hmax.
  split_and!; try done; lia.
Qed.

Lemma frameDatagrams_eq gen link frame frags ps :
  splitFabricWireFrame frame ps = Ok frags →
  frameDatagrams gen link frame frags
  = (λ hp : fabricWireDataHeader * list byte, encodeFabricWireFragment gen hp.1 hp.2) <$>
    imap (λ i f, (sent_header link frame (length frags) i, f)) frags.
Proof.
  intros Hsplit. apply split_Ok_inv in Hsplit as (Hps & Hlen & _ & Hmax & _).
  unfold frameDatagrams. apply list_eq. intros i.
  rewrite list_lookup_fmap, !list_lookup_imap. destruct (frags !! i) as [f|] eqn:Hi; [|done].
  simpl. apply lookup_lt_Some in Hi. unfold sent_header.
  unfold fabricWireMaximumFrameSize, fabricWireMaximumFragments in *. simpl in *.
  change (1 ≪ 16) with 65536 in Hlen. change (1 ≪ 8) with 256 in Hmax.
  rewrite !Z.mod_small by lia. done.
Qed.

(** The arrivals of a frame's fragments in any order: each is one of the fragments. *)
Lemma arrivals_fragments link frame (frags : list (list byte)) (times : list Z) hps :
  hps ≡ₚ imap (λ i f, (sent_header link frame (length frags) i, f)) frags →
  ∀ t h p, (t, h, p) ∈ zip_with (λ t hp, (t, hp.1, hp.2)) times hps →
    t ∈ times ∧ ∃ i, frags !! i = Some p ∧ h = sent_header link frame (length frags) i.
Proof.
  intros Hperm t h p (t' & hp & [= -> -> ->] & Ht & Hin)%elem_of_zip_with. split; [done|].
  rewrite Hperm in Hin. apply list_elem_of_lookup in Hin as (i & Hi).
  rewrite list_lookup_imap in Hi. destruct (frags !! i) as [f|] eqn:Hfi; [|done].
  injection Hi as <-. exists i. done.
Qed.

(** And every index of the frame arrives exactly once. *)
Lemma arrivals_indices link frame (frags : list (list byte)) (times : list Z) hps :
  hps ≡ₚ imap (λ i f, (sent_header link frame (length frags) i, f)) frags → length times = length hps →
  (λ e : arrival, Z.to_nat (FragIndex e.1.2)) <$> zip_with (λ t hp, (t, hp.1, hp.2)) times hps
  ≡ₚ seq 0 (length frags).
Proof.
  intros Hperm Hlen.
  assert ((λ e : arrival, (e.1.2, e.2)) <$> zip_with (λ t hp, (t, hp.1, hp.2)) times hps = hps) as Hfmap
    by (apply fmap_zip_with_r; [by intros ? []|lia]).
  transitivity (Z.to_nat ∘ FragIndex ∘ fst <$> hps); [by rewrite <- Hfmap at 2; rewrite <- list_fmap_compose|].
  rewrite Hperm. match goal with |- ?a ≡ₚ ?b => assert (a = b) as ->; [|done] end.
  apply list_eq. intros i. rewrite list_lookup_fmap, list_lookup_imap.
  destruct (frags !! i) as [f|] eqn:Hi; simpl.
  - rewrite lookup_seq_lt by by eapply lookup_lt_Some. by rewrite Nat2Z.id.
  - rewrite lookup_seq_ge; [done|]. by apply lookup_ge_None.
Qed.

(** All fragments of one frame, in any order and at any times of one window, run
    through the reassembler: exactly that frame comes out. *)
Lemma permuted_fragments_deliver `{!RangeOrder Z} link frame ps frags times hps hist pending :
  splitFabricWireFrame frame ps = Ok frags → u32 (linkID link) → u32 (frameID link) →
  hps ≡ₚ imap (λ i f, (sent_header link frame (length frags) i, f)) frags →
  length times = length hps →
  (∀ t1 t2, t1 ∈ times → t2 ∈ times → t1 - t2 ≤ fabricWireReassemblyExpiry) →
  reassembly_ok hist pending → (size pending < fabricWireReassemblyFrameLimit)%nat →
  pending !! frameID link = None →
  ∃ pending',
    absorb_run (zip_with (λ t hp, (t, hp.1, hp.2)) times hps) pending
    = Some (pending', [(frameID link, frame)]).
Proof.
  intros Hsplit Hl Hf Hperm Hlen Hw Hok Hsz Hnone.
  set (events := zip_with _ times hps).
  pose proof (arrivals_fragments link frame frags times hps Hperm) as Hev.
  pose proof (arrivals_indices link frame frags times hps Hperm Hlen) as Hidx. fold events in Hev, Hidx.
  clearbody events. clear Hperm Hlen hps.
  assert (∀ t h p, (t, h, p) ∈ events → FrameID h = frameID link) as Hids.
  { intros t h p Hin. by destruct (Hev t h p Hin) as (_ & i & _ & ->). }
  destruct events as [|[[t h] p] pre _] using rev_ind.
  { apply Permutation_nil_l in Hidx. pose proof (split_concat _ _ _ Hsplit) as Hcat.
    apply split_Ok_inv in Hsplit as (_ & Hpos & _). destruct frags; [|done].
    simpl in Hcat. subst frame. simpl in Hpos. lia. }
  assert (FrameID h = frameID link) as Hid by (eapply Hids, elem_of_app; right; left).
  rewrite fmap_app, Permutation_app_comm in Hidx. simpl in Hidx.
  assert (NoDup (Z.to_nat (FragIndex h) :: ((λ e : arrival, Z.to_nat (FragIndex e.1.2)) <$> pre)))
    as [Hnew _]%NoDup_cons by (rewrite Hidx; apply NoDup_seq).
  destruct (run_delivers (frameID link) frags times pre t h p hist pending)
    as (pe & fs & Hrun & Hfs); try done.
  - intros t' h' p' Hin. destruct (Hev _ _ _ Hin) as (Ht & i & Hi & ->).
    destruct (sent_fragments ps frame frags link i p' Hsplit Hl Hf Hi). done.
  - etrans; [apply (subseteq_size _ ({[frameID link]} ∪ dom pending))|].
    + unfold frame_ids. intros i. rewrite !elem_of_union, elem_of_list_to_set, list_elem_of_fmap.
      intros [([[t' h'] p'] & -> & Hin)|?]; [|by right]. left. apply elem_of_singleton. simpl. eauto.
    + rewrite size_union by (apply not_elem_of_dom in Hnone; set_solver).
      rewrite size_singleton, size_dom. lia.
  - intros (t' & h' & p' & Hin & _ & Heq)%elem_of_indices. apply Hnew, list_elem_of_fmap.
    exists (t', h', p'). done.
  - intros i Hi. assert (i ∈ seq 0 (length frags)) as Hin by (apply elem_of_seq; lia).
    rewrite <- Hidx, elem_of_cons, list_elem_of_fmap in Hin.
    destruct Hin as [?|([[t' h'] p'] & -> & Hin)]; [by left|]. right. apply elem_of_indices.
    exists t', h', p'. split_and!; try done. eapply Hids, elem_of_app. left. exact Hin.
  - exists pe. rewrite Hrun, <- (split_concat _ _ _ Hsplit), <- Hfs. do 2 f_equal.
    symmetry. apply list_filter_all. intros out Hout.
    destruct (absorb_run_ids _ _ _ _ _ Hrun Hout) as ([[t' h'] p'] & Hin & ->). by eapply Hids.
Qed.

Lemma zip_encode gen (times : list Z) (hps : list (fabricWireDataHeader * list byte)) :
  (λ e : Z * fabricWireDataHeader * list byte, (e.1.1, encodeFabricWireFragment gen e.1.2 e.2))
    <$> zip_with (λ t hp, (t, hp.1, hp.2)) times hps
  = zip times (map (λ hp, encodeFabricWireFragment gen hp.1 hp.2) hps).
Proof.
  revert hps. induction times as [|t times IH]; intros [|hp hps]; [done..|].
  simpl. f_equal. apply IH.
Qed.

(** C1: end to end, a captured frame crosses the wire unchanged: the datagrams
    [transmitFrame] sends for a frame, handled by the peer in any order within the
    reassembly window, while the peer's session is in the sender's generation and
    fewer than 64 of the link's frames are in flight, make the peer inject exactly
    that frame into its leg, once; all the datagrams of an over-long frame (beyond
    the link's MTU and Ethernet headroom) make it inject nothing. *)
Theorem wire_delivers_frame `{!RangeOrder Z, !RangeOrder addr} k send sender frame link ds peer
    effects receiver source fd m pending hist arrivals :
  (transmitFrame send sender frame link).2 = effects →
  effects = [SendDatagrams peer ds] →
  u64 (generation sender) → u32 (linkID link) →
  arrivals.*2 ≡ₚ ds →
  (∀ t1 t2, t1 ∈ arrivals.*1 → t2 ∈ arrivals.*1 → t1 - t2 ≤ fabricWireReassemblyExpiry) →
  receives receiver source (generation sender) (linkID link) fd m pending →
  reassembly_ok hist pending → (size pending < fabricWireReassemblyFrameLimit)%nat →
  pending !! ((frameID link + 1) mod 2 ^ 32) = None →
  ∃ receiver' effects',
    handleDatagrams k source arrivals receiver = Some (receiver', effects') ∧
    injected effects'
    = if m + fabricWireFrameHeadroom <? Z.of_nat (length frame) then [] else [(fd, frame)].
Proof.
  intros Htx -> Hg Hid Hperm Hw Hrec Hok Hsz Hnone.
  unfold transmitFrame, transmitBegin in Htx.
  destruct (negb (addrIsValid (peerAddr link))); [done|]. cbn [negb] in Htx.
  destruct (splitFabricWireFrame frame _) as [frags|] eqn:Hsplit; [|done].
  destruct (send _) as [sent failed]. cbn [snd] in Htx. injection Htx as _ Hds.
  set (link1 := link <| frameID ::= λ id, (id + 1) mod 2 ^ 32 |>) in *.
  rewrite <- Hds, (frameDatagrams_eq _ _ _ _ _ Hsplit) in Hperm.
  apply Permutation_map_inv in Hperm as (hps & Henc & Hperm).
  assert (u32 (frameID link1)) as Hfid by (apply Z.mod_pos_bound; lia).
  destruct (permuted_fragments_deliver link1 frame _ frags arrivals.*1 hps hist pending Hsplit Hid Hfid)
    as (pe & Hrun); [by symmetry| |done..|].
  { rewrite length_fmap, <- (length_fmap snd arrivals), Henc. apply length_map. }
  assert (∀ t h p, (t, h, p) ∈ zip_with (λ t hp, (t, hp.1, hp.2)) arrivals.*1 hps →
    valid_fragment h p ∧ LinkID h = linkID link) as Hvalid.
  { intros t h p (t' & hp & [= -> -> ->] & _ & Hin)%elem_of_zip_with.
    rewrite <- Hperm in Hin. apply list_elem_of_lookup in Hin as (i & Hi).
    rewrite list_lookup_imap in Hi. destruct (frags !! i) as [f|] eqn:Hfi; [|done].
    injection Hi as <-. split; [|done]. by eapply sent_fragments. }
  destruct (handleDatagrams_absorb k source (generation sender) (linkID link) fd m
    (zip_with (λ t hp, (t, hp.1, hp.2)) arrivals.*1 hps) receiver pending pe
    [(frameID link1, frame)] Hg Hvalid Hrec Hrun) as (w' & effects & Hd & Hinj).
  rewrite zip_encode, <- Henc, zip_fst_snd in Hd.
  exists w', effects. split; [done|]. rewrite Hinj. unfold fitting. simpl. by destruct (_ <? _).
Qed.

(** A three-byte frame in fragments of two, received in reverse order. *)
Definition sample_sender : fabricWire := sample_start <| FragmentPayload := 2 |> <| generation := 100 |>.

Lemma wire_delivers_frame_witness :
  ∃ receiver' effects',
    handleDatagrams sample_kernel (Addr4 2)
      [ (20, encodeFabricWireFragment 100 (sample_header 1 1 2 3) [12]);
        (25, encodeFabricWireFragment 100 (sample_header 1 0 2 3) [10; 11]) ] sample_up
    = Some (receiver', effects') ∧
    injected effects'
    = if 1500 + fabricWireFrameHeadroom <? Z.of_nat (length [10; 11; 12]) then []
      else [(11, [10; 11; 12])].
Proof.
  apply (wire_delivers_frame sample_kernel (λ ds, (Z.of_nat (length ds), false)) sample_sender
    [10; 11; 12] sample_link_up
    [ encodeFabricWireFragment 100 (sample_header 1 0 2 3) [10; 11];
      encodeFabricWireFragment 100 (sample_header 1 1 2 3) [12] ] (Addr4 2) _ _ _ _ _ ∅ [] _ eq_refl).
  - vm_compute. reflexivity.
  - unfold u64. simpl. lia.
  - unfold u32. simpl. lia.
  - apply perm_swap.
  - intros t1 t2 H1 H2. simpl in H1, H2. rewrite !elem_of_cons, elem_of_nil in H1, H2.
    unfold fabricWireReassemblyExpiry, millisecond. lia.
  - split.
    + exists (FabricWireSession (Addr4 2) 100 true 0 true). split; [vm_compute; reflexivity|done].
    + exists sample_link_up. split; [vm_compute; reflexivity|done].
  - apply reassembly_ok_empty.
  - vm_compute. lia.
  - reflexivity.
Defined.
