(* ===== verification/Api.v ===== *)
(** * The API objects the controllers read and write

    The fields of the [v1alpha1] objects and of their Kubernetes metadata that the
    modelled code reads or writes, and Go's string helpers on them. *)

From S2P Require Import Prelude.
Local Open Scope Z_scope.

(** ** Strings *)

(** [strings.TrimPrefix]. *)
Fixpoint trim_prefix (pre s : string) : option string :=
  match pre, s with
  | EmptyString, _ => Some s
  | String a pre, String b s => if decide (a = b) then trim_prefix pre s else None
  | String _ _, EmptyString => None
  end.

Definition TrimPrefix (s pre : string) : string := default s (trim_prefix pre s).

(** [strings.HasPrefix]. *)
Definition HasPrefix (s pre : string) : bool :=
  match trim_prefix pre s with Some _ => true | None => false end.

Lemma trim_prefix_app pre s : trim_prefix pre (pre +:+ s) = Some s.
Proof.
  induction pre as [|a pre IH]; [done|]. simpl. by rewrite decide_True.
Qed.

Lemma trim_prefix_Some pre s t : trim_prefix pre s = Some t ↔ s = pre +:+ t.
Proof.
  split; [|intros ->; apply trim_prefix_app]. revert s.
  induction pre as [|a pre IH]; intros s; simpl; [by intros [= ->]|].
  destruct s as [|b s]; [done|]. destruct (decide (a = b)) as [->|]; [|done].
  intros H%IH. by rewrite H.
Qed.

(** [fmt]'s [%q]: the quoting of strings in messages, whose exact output no
    theorem depends on. *)
Class FmtQuote : Type := fmt_q : string → string.

Lemma append_inj_l (p a b : string) : p +:+ a = p +:+ b → a = b.
Proof. induction p; simpl; [done|]. intros [= H]. auto. Qed.

(** Prefixing both sides does not change Go's string order. *)
Lemma str_ltb_prefix p a b : str_ltb (p +:+ a) (p +:+ b) = str_ltb a b.
Proof.
  unfold str_ltb, String.ltb. induction p as [|c p IH]; [done|]. simpl.
  unfold Ascii.compare. by rewrite N.compare_refl.
Qed.

(** ** Conditions *)

Inductive ConditionStatus := ConditionTrue | ConditionFalse | ConditionUnknown.

Record Condition := MkCondition {
  ConditionType : string;
  CStatus : ConditionStatus;
  ObservedGeneration : Z;
  LastTransitionTime : Z;
  Reason : string;
  Message : string
}.

#[export] Instance ConditionStatus_eq_dec : EqDecision ConditionStatus.
Proof. solve_decision. Defined.
#[export] Instance Condition_eq_dec : EqDecision Condition.
Proof. solve_decision. Defined.

(** [apimachinery]'s [meta.SetStatusCondition] is not part of the sources: its
    operation is a parameter. *)
Class ConditionSetter : Type := SetStatusCondition : list Condition → Condition → list Condition.

(** ** Nodes *)

Record OwnerReference := MkOwnerReference {
  OwnerKind : string;
  OwnerName : string;
  OwnerUID : string;
  OwnerController : bool
}.
#[export] Instance OwnerReference_eq_dec : EqDecision OwnerReference.
Proof. solve_decision. Defined.

(** A Node's metadata, the spec fields the modelled code looks into, the JSON of the
    rest of its spec, and its status. *)
Record Node := BuildNode {
  NodeObjectName : string;
  NodeUID : string;
  NodeResourceVersion : string;
  NodeLabels : gmap string string;
  NodeAnnotations : gmap string string;
  NodeOwners : list OwnerReference;
  NetworkMode : string;
  RunState : string;
  NodeSpecRest : string;
  Readiness : string
}.
#[export] Instance Node_updatable : Updatable Node :=
  λ n, BuildNode (NodeObjectName n) (NodeUID n) (NodeResourceVersion n) (NodeLabels n)
         (NodeAnnotations n) (NodeOwners n) (NetworkMode n) (RunState n) (NodeSpecRest n)
         (Readiness n).
#[export] Instance Node_eq_dec : EqDecision Node.
Proof. solve_decision. Defined.

(** A node of which only the identity and the network mode matter. *)
Definition MkNode (name uid mode : string) : Node :=
  BuildNode name uid "" ∅ ∅ [] mode "" "" "".

Definition NodeRunStateStopped : string := "Stopped".

Definition IsStopped (node : Node) : bool := bool_decide (RunState node = NodeRunStateStopped).

(** ** Links *)

Definition LinkHostNodeName : string := "host".
Definition LinkConditionAccepted : string := "Accepted".

Record LinkEndpointSpec := MkLinkEndpointSpec {
  NodeName : string;
  InterfaceName : string
}.

Record LinkResolvedEndpointStatus := MkLinkResolvedEndpointStatus {
  ResolvedNodeName : string;
  ResolvedUID : string
}.

Record LinkResolvedEndpointsStatus := MkLinkResolvedEndpointsStatus {
  ResolvedA : LinkResolvedEndpointStatus;
  ResolvedB : LinkResolvedEndpointStatus
}.

Record LinkStatus := MkLinkStatus {
  WireID : Z;
  ResolvedEndpoints : option LinkResolvedEndpointsStatus;
  Conditions : list Condition
}.

(** A Link: its metadata, spec and status. *)
Record Link := MkLink {
  LinkNamespace : string;
  LinkName : string;
  LinkUID : string;
  LinkGeneration : Z;
  LinkResourceVersion : string;
  LinkDeleting : bool;
  LinkLabels : gmap string string;
  LinkAnnotations : gmap string string;
  LinkOwners : list OwnerReference;
  EndpointA : LinkEndpointSpec;
  EndpointB : LinkEndpointSpec;
  LinkMTU : Z;
  Status : LinkStatus
}.
#[export] Instance Link_updatable : Updatable Link :=
  λ l, MkLink (LinkNamespace l) (LinkName l) (LinkUID l) (LinkGeneration l)
         (LinkResourceVersion l) (LinkDeleting l) (LinkLabels l) (LinkAnnotations l)
         (LinkOwners l) (EndpointA l) (EndpointB l) (LinkMTU l) (Status l).

#[export] Instance LinkEndpointSpec_eq_dec : EqDecision LinkEndpointSpec.
Proof. solve_decision. Defined.
#[export] Instance LinkResolvedEndpointStatus_eq_dec : EqDecision LinkResolvedEndpointStatus.
Proof. solve_decision. Defined.
#[export] Instance LinkResolvedEndpointsStatus_eq_dec : EqDecision LinkResolvedEndpointsStatus.
Proof. solve_decision. Defined.
#[export] Instance LinkStatus_eq_dec : EqDecision LinkStatus.
Proof. solve_decision. Defined.
#[export] Instance Link_eq_dec : EqDecision Link.
Proof. solve_decision. Defined.

(** ** Node profiles *)

(** A NodeProfile's metadata and the JSON of its spec. *)
Record NodeProfile := MkNodeProfile {
  ProfileName : string;
  ProfileResourceVersion : string;
  ProfileLabels : gmap string string;
  ProfileAnnotations : gmap string string;
  ProfileOwners : list OwnerReference;
  ProfileSpec : string
}.
#[export] Instance NodeProfile_updatable : Updatable NodeProfile :=
  λ p, MkNodeProfile (ProfileName p) (ProfileResourceVersion p) (ProfileLabels p)
         (ProfileAnnotations p) (ProfileOwners p) (ProfileSpec p).

(** ** Shared metadata *)

Definition LabelIgnoreReconcile : string := "c9s.run/ignoreReconcile".

(** [BaseController.ShouldIgnoreReconcile]. *)
Definition ShouldIgnoreReconcile (labels : gmap string string) : bool :=
  match labels !! LabelIgnoreReconcile with Some _ => true | None => false end.

(** Startup admission: the annotations of Nodes and Pods and the Pod condition it reads. *)
Definition AnnotationStartupHold : string := "c9s.run/startup-hold".
Definition AnnotationStartupAdmitted : string := "c9s.run/startup-admitted".
Definition NodeUIDAnnotation : string := "c9s.run/direct-node-uid".
Definition PodReadyToStartContainers : string := "PodReadyToStartContainers".

Definition LabelApp : string := "c9s.run/app".
Definition LabelTopologyOwner : string := "c9s.run/topologyOwner".
Definition Clabernetes : string := "clabernetes".

(** [util/kubernetes]'s [ExistingMapStringStringContainsAllExpectedKeyValues]. *)
Definition ExistingMapStringStringContainsAllExpectedKeyValues
    (existing expected : gmap string string) : bool :=
  if bool_decide (size existing = 0%nat) && negb (bool_decide (size expected = 0%nat)) then false
  else
    forallb (λ kv, contains_func (λ nkv, bool_decide (kv.1 = nkv.1) && bool_decide (kv.2 = nkv.2))
                     (map_to_list existing))
      (map_to_list expected).

Lemma contains_all_spec existing expected :
  ExistingMapStringStringContainsAllExpectedKeyValues existing expected = true ↔ expected ⊆ existing.
Proof.
  assert (∀ kv, contains_func (λ nkv : string * string, bool_decide (kv.1 = nkv.1) && bool_decide (kv.2 = nkv.2))
    (map_to_list existing) = true ↔ existing !! kv.1 = Some kv.2) as Hone.
  { intros [k v]. rewrite contains_func_true. split.
    - intros ([k' v'] & Hin%elem_of_map_to_list & Heq). bool_to_prop. simpl in *. by subst.
    - intros Hk. exists (k, v). split; [by apply elem_of_map_to_list|].
      by rewrite !bool_decide_eq_true_2. }
  unfold ExistingMapStringStringContainsAllExpectedKeyValues.
  destruct (_ && negb _) eqn:E.
  - bool_to_prop. split; [done|]. intros Hsub. exfalso. apply H0.
    apply map_subseteq_size in Hsub. lia.
  - rewrite forallb_forall, map_subseteq_spec. split.
    + intros Hall k v Hk. apply (Hone (k, v)), Hall, list_elem_of_In. by apply elem_of_map_to_list.
    + intros Hsub [k v] Hin%list_elem_of_In. apply Hone, Hsub. by apply elem_of_map_to_list.
Qed.

(** [range] over two endpoints, in the order the code lists them. *)
Definition endpoints (link : Link) : list LinkEndpointSpec := [EndpointA link; EndpointB link].
