(* ===== verification/Grouping.v ===== *)
(** * Pod grouping: which node's Pod hosts a node

    Models [util/containerlab/networkmode.go] and [util/containerlab/grouping.go]:
    the walk along [network-mode: container:<primary>] references and the members of
    a group. *)

From S2P Require Import Prelude Api.

(** ** Operations *)

Definition NetworkModeContainerPrefix : string := "container:".

Definition ParseNetworkModeContainer (networkMode : string) : string :=
  if negb (HasPrefix networkMode NetworkModeContainerPrefix) then ""
  else TrimPrefix networkMode NetworkModeContainerPrefix.

(** Later nodes of the same name replace earlier ones. *)
Definition NodesByName (nodes : list Node) : gmap string Node :=
  foldl (λ byName node, <[NodeObjectName node := node]> byName) ∅ nodes.

(** The loop of [ResolvePrimaryNode]; [None] means the fuel ran out. *)
Fixpoint resolvePrimaryLoop (fuel : nat) (nodes : gmap string Node) (seen : gset string)
    (current : string) : option string :=
  match fuel with
  | O => None
  | S fuel =>
      match nodes !! current with
      | None => Some current
      | Some node =>
          let primary := ParseNetworkModeContainer (NetworkMode node) in
          if bool_decide (primary = "") then Some current
          else if bool_decide (primary ∈ seen) then Some current
          else resolvePrimaryLoop fuel nodes ({[current]} ∪ seen) primary
      end
  end.

(** Every iteration but the last marks one more node as seen, except that a node
    that refers to itself is marked and visited once more: [size nodes + 2]
    iterations are enough ([resolvePrimaryLoop_total]). *)
Definition ResolvePrimaryNode (nodes : gmap string Node) (nodeName : string) : string :=
  default nodeName (resolvePrimaryLoop (size nodes + 2) nodes ∅ nodeName).

(** The members in map order are sorted, so the order does not matter. *)
Definition ResolveGroupMembers `{!RangeOrder string} (nodes : gmap string Node)
    (primaryNode : string) : list string :=
  primaryNode
  :: sort_strings
       (filter (λ n, n ≠ primaryNode ∧ ResolvePrimaryNode nodes n = primaryNode)
          (range_list nodes).*1).

(** ** The reference graph *)

(** [refers nodes a b]: node [a] shares the network namespace of [b]. *)
Definition refers (nodes : gmap string Node) (a b : string) : Prop :=
  ∃ node, nodes !! a = Some node ∧ ParseNetworkModeContainer (NetworkMode node) = b ∧ b ≠ "".

(** A node that hosts its own Pod: it refers to nobody. *)
Definition root (nodes : gmap string Node) (a : string) : Prop := ∀ b, ¬ refers nodes a b.

Definition acyclic (nodes : gmap string Node) : Prop := ∀ a, ¬ tc (refers nodes) a a.

Lemma refers_functional nodes a b c : refers nodes a b → refers nodes a c → b = c.
Proof. intros (n & Hn & <- & _) (n' & Hn' & <- & _). by simplify_eq. Qed.

Lemma root_no_step nodes r x : root nodes r → rtc (refers nodes) r x → x = r.
Proof. intros Hr. inversion 1; subst; [done|]. exfalso. by eapply Hr. Qed.

Lemma ParseNetworkModeContainer_prefix n :
  ParseNetworkModeContainer (NetworkModeContainerPrefix +:+ n) = n.
Proof.
  unfold ParseNetworkModeContainer, HasPrefix, TrimPrefix. by rewrite trim_prefix_app.
Qed.

(** ** The walk *)

(** The walk's invariant: the seen nodes are known nodes, and the walk started at
    [start] reached each of them and the current one, and can get from each of them
    to the current one. *)
Record walk_inv (nodes : gmap string Node) (start : string) (seen : gset string)
    (current : string) : Prop := {
  wi_dom : seen ⊆ dom nodes;
  wi_reach : rtc (refers nodes) start current;
  wi_back : ∀ s, s ∈ seen → rtc (refers nodes) s current
}.

Lemma walk_inv_step nodes start seen current node :
  walk_inv nodes start seen current → nodes !! current = Some node →
  ParseNetworkModeContainer (NetworkMode node) ≠ "" →
  walk_inv nodes start ({[current]} ∪ seen) (ParseNetworkModeContainer (NetworkMode node)).
Proof.
  intros [Hd Hr Hb] Hn Hp.
  assert (refers nodes current (ParseNetworkModeContainer (NetworkMode node))) as Hstep
    by by exists node.
  constructor.
  - intros s [->%elem_of_singleton|Hs]%elem_of_union; [apply elem_of_dom; eauto|set_solver].
  - by eapply rtc_r.
  - intros s [->%elem_of_singleton|Hs]%elem_of_union; [by apply rtc_once|].
    eapply rtc_r; [by apply Hb|done].
Qed.

Lemma resolvePrimaryLoop_spec fuel nodes start seen current r :
  walk_inv nodes start seen current → resolvePrimaryLoop fuel nodes seen current = Some r →
  rtc (refers nodes) start r ∧
  (root nodes r ∨ tc (refers nodes) r r).
Proof.
  revert seen current. induction fuel as [|fuel IH]; intros seen current Hinv; [done|]. simpl.
  destruct (nodes !! current) as [node|] eqn:Hn.
  - case_bool_decide as Hempty.
    + intros [= <-]. split; [apply Hinv|]. left. intros b (n' & Hn' & Hb & Hne).
      by simplify_eq.
    + case_bool_decide as Hseen; [|by apply IH, walk_inv_step].
      intros [= <-]. split; [apply Hinv|]. right.
      apply tc_rtc_r with (ParseNetworkModeContainer (NetworkMode node)); [|by apply Hinv].
      apply tc_once. by exists node.
  - intros [= <-]. split; [apply Hinv|]. left. intros b (n' & Hn' & _). congruence.
Qed.

(** The fuel is enough: while the current node is unseen, each iteration spends one
    of the unseen known nodes. *)
Lemma resolvePrimaryLoop_total fuel nodes seen current :
  seen ⊆ dom nodes →
  (size (dom nodes ∖ seen) + 1 < fuel)%nat →
  (current ∈ seen → ∀ b, refers nodes current b → b ∈ seen) →
  is_Some (resolvePrimaryLoop fuel nodes seen current).
Proof.
  revert seen current. induction fuel as [|fuel IH]; intros seen current Hd Hf Hc; [lia|]. simpl.
  destruct (nodes !! current) as [node|] eqn:Hn; [|eauto].
  case_bool_decide as Hempty; [eauto|]. case_bool_decide as Hseen; [eauto|].
  set (primary := ParseNetworkModeContainer (NetworkMode node)) in *.
  assert (refers nodes current primary) as Hstep by by exists node.
  destruct (decide (current ∈ seen)) as [Hin|Hin]; [exfalso; by apply Hseen, (Hc Hin)|].
  assert (current ∈ dom nodes) as Hcur by (apply elem_of_dom; eauto).
  apply IH.
  - set_solver.
  - assert (size (dom nodes ∖ ({[current]} ∪ seen)) < size (dom nodes ∖ seen))%nat.
    { apply subset_size. split; [set_solver|]. intros Hsub. specialize (Hsub current). set_solver. }
    lia.
  - intros [Hp%elem_of_singleton|Hp]%elem_of_union b Hb; [|done].
    rewrite Hp in Hb. rewrite (refers_functional _ _ _ _ Hb Hstep), Hp. set_solver.
Qed.

Lemma ResolvePrimaryNode_loop nodes n :
  resolvePrimaryLoop (size nodes + 2) nodes ∅ n = Some (ResolvePrimaryNode nodes n).
Proof.
  unfold ResolvePrimaryNode.
  destruct (resolvePrimaryLoop_total (size nodes + 2) nodes ∅ n) as [r ->]; [set_solver| |set_solver|done].
  rewrite difference_empty_L, size_dom. lia.
Qed.

Lemma ResolvePrimaryNode_spec nodes n :
  rtc (refers nodes) n (ResolvePrimaryNode nodes n) ∧
  (root nodes (ResolvePrimaryNode nodes n) ∨
   tc (refers nodes) (ResolvePrimaryNode nodes n) (ResolvePrimaryNode nodes n)).
Proof.
  eapply resolvePrimaryLoop_spec; [|apply ResolvePrimaryNode_loop].
  constructor; [set_solver|constructor|set_solver].
Qed.

(** A node whose references lead to a root is on no cycle. *)
Lemma root_reach_acyclic nodes a r :
  rtc (refers nodes) a r → root nodes r → ¬ tc (refers nodes) a a.
Proof.
  intros Har Hroot. induction Har as [r|a b r Hab Hbr IH]; intros Hcyc.
  - inversion Hcyc; subst; by eapply Hroot.
  - apply IH; [done|]. inversion Hcyc as [? ? Haa|? c ? Hac Hca]; subst.
    + by rewrite <- (refers_functional _ _ _ _ Haa Hab).
    + rewrite (refers_functional _ _ _ _ Hac Hab) in Hca. by eapply tc_r.
Qed.

Lemma ResolvePrimaryNode_root nodes n r :
  rtc (refers nodes) n r → root nodes r → ResolvePrimaryNode nodes n = r.
Proof.
  intros Hr Hroot. destruct (ResolvePrimaryNode_spec nodes n) as [Hres Hcase].
  revert Hr Hres Hcase. generalize (ResolvePrimaryNode nodes n). intros x Hr Hres Hcase.
  induction Hr as [r|a b r Hab Hbr IH].
  - by apply (root_no_step nodes) in Hres.
  - inversion Hres as [|? b' ? Hab' Hb'x]; subst.
    + exfalso. destruct Hcase as [Hx|Hcyc]; [by destruct (Hx b)|].
      eapply root_reach_acyclic; [|done|exact Hcyc]. by eapply rtc_l.
    + rewrite (refers_functional _ _ _ _ Hab Hab') in *. by apply IH.
Qed.

Lemma elem_of_ResolveGroupMembers `{!RangeOrder string} nodes primary n :
  n ∈ ResolveGroupMembers nodes primary ↔
  n = primary ∨ (n ∈ dom nodes ∧ ResolvePrimaryNode nodes n = primary).
Proof.
  unfold ResolveGroupMembers. rewrite elem_of_cons, sort_strings_perm, list_elem_of_filter.
  assert (n ∈ (range_list nodes).*1 ↔ n ∈ dom nodes) as ->.
  { rewrite list_elem_of_fmap, elem_of_dom. split.
    - intros ([n' v] & -> & Hin%elem_of_range_list). simpl. eauto.
    - intros [v Hv]. exists (n, v). split; [done|]. by apply elem_of_range_list. }
  destruct (decide (n = primary)); naive_solver.
Qed.

(** ** The contract *)

(** C29: resolving a node's primary always terminates, within one pass over the known
    nodes, at a node the references lead to; that node is the group's root (it refers
    to nobody) whenever the references lead to one, and otherwise lies on a reference
    cycle. *)
Theorem primary_is_root_or_cycle nodes n :
  resolvePrimaryLoop (size nodes + 2) nodes ∅ n = Some (ResolvePrimaryNode nodes n) ∧
  rtc (refers nodes) n (ResolvePrimaryNode nodes n) ∧
  (root nodes (ResolvePrimaryNode nodes n) ∨
   (tc (refers nodes) (ResolvePrimaryNode nodes n) (ResolvePrimaryNode nodes n) ∧
    ∀ r, rtc (refers nodes) n r → ¬ root nodes r)).
Proof.
  split; [apply ResolvePrimaryNode_loop|]. destruct (ResolvePrimaryNode_spec nodes n) as [Hr Hcase].
  split; [done|]. destruct Hcase as [?|Hcyc]; [by left|]. right. split; [done|].
  intros r Hnr Hroot. rewrite (ResolvePrimaryNode_root nodes n r Hnr Hroot) in Hcyc.
  inversion Hcyc; subst; by eapply Hroot.
Qed.

(** C26: when no references form a cycle, the groups partition the nodes: every node is
    a member of its primary's group and of no other primary's group, a group's primary
    hosts itself and is listed first, and the member list has no duplicates, whatever
    order Go ranges over the node map. *)
Theorem groups_partition_nodes `{!RangeOrder string} nodes n p :
  acyclic nodes → n ∈ dom nodes → root nodes p →
  (n ∈ ResolveGroupMembers nodes p ↔ p = ResolvePrimaryNode nodes n) ∧
  root nodes (ResolvePrimaryNode nodes n) ∧
  ResolvePrimaryNode nodes (ResolvePrimaryNode nodes n) = ResolvePrimaryNode nodes n ∧
  head (ResolveGroupMembers nodes p) = Some p ∧
  NoDup (ResolveGroupMembers nodes p).
Proof.
  intros Hac Hn Hp.
  assert (∀ m, root nodes (ResolvePrimaryNode nodes m)) as Hroot.
  { intros m. destruct (ResolvePrimaryNode_spec nodes m) as [_ [?|Hcyc]]; [done|].
    by destruct (Hac _ Hcyc). }
  assert (∀ r, root nodes r → ResolvePrimaryNode nodes r = r) as Hself.
  { intros r Hr. by apply ResolvePrimaryNode_root. }
  split_and!.
  - rewrite elem_of_ResolveGroupMembers. split.
    + intros [->|[_ <-]]; [by rewrite Hself|done].
    + intros ->. by right.
  - apply Hroot.
  - by apply Hself.
  - done.
  - apply NoDup_cons. split.
    + rewrite sort_strings_perm, list_elem_of_filter. by intros [[? _] _].
    + rewrite sort_strings_perm. apply NoDup_filter, NoDup_range_keys.
Qed.

Definition sample_nodes : gmap string Node :=
  NodesByName [MkNode "cpm" "u1" ""; MkNode "iom" "u2" "container:cpm"; MkNode "leaf" "u3" "bridge"].

Lemma groups_partition_nodes_witness :
  ("iom" ∈ @ResolveGroupMembers canonical_range sample_nodes "cpm" ↔
   "cpm" = ResolvePrimaryNode sample_nodes "iom") ∧
  root sample_nodes (ResolvePrimaryNode sample_nodes "iom") ∧
  ResolvePrimaryNode sample_nodes (ResolvePrimaryNode sample_nodes "iom")
  = ResolvePrimaryNode sample_nodes "iom" ∧
  head (@ResolveGroupMembers canonical_range sample_nodes "cpm") = Some "cpm" ∧
  NoDup (@ResolveGroupMembers canonical_range sample_nodes "cpm").
Proof.
  assert (∀ a b, refers sample_nodes a b → a = "iom" ∧ b = "cpm") as Hrefers.
  { intros a b (node & Hn & Hp & Hne). unfold sample_nodes, NodesByName in Hn. simpl in Hn.
    rewrite !lookup_insert_Some, lookup_empty in Hn.
    destruct Hn as [[<- <-]|(_ & [[<- <-]|(_ & [[<- <-]|[_ ?]])])]; vm_compute in Hp; by subst. }
  apply (@groups_partition_nodes canonical_range).
  - intros a Hcyc. assert (a = "iom") as ->.
    { inversion Hcyc as [? ? H|? ? ? H]; by apply Hrefers in H as [-> _]. }
    inversion Hcyc as [? ? H|? ? ? H H2]; subst; apply Hrefers in H as [_ Hb]; [done|]. subst.
    inversion H2 as [? ? H|? ? ? H]; by apply Hrefers in H as [? _].
  - apply elem_of_dom. by eexists.
  - intros b Hb%Hrefers. by destruct Hb.
Defined.
