(* ===== verification/LinkEndpoints.v ===== *)
(** * Endpoint ownership of links

    Models [util/containerlab/links.go] (and the wrappers of
    [controllers/link/allocate.go]): which links of a namespace are valid, and
    which of two links that claim one interface owns it. *)

From S2P Require Import Prelude Api.

(** ** Operations *)

(** The errors, all wrapping [ErrInvalidData]. *)
Inductive linkError :=
| errBothHost
| errSelfLink (node iface : string)
| errEndpointMissing (node : string).

#[export] Instance linkError_eq_dec : EqDecision linkError.
Proof. solve_decision. Defined.

Definition linkErrorText `{FmtQuote} (e : linkError) : string :=
  "errInvalidData: " +:+
  match e with
  | errBothHost =>
      "both endpoints are " +:+ fmt_q LinkHostNodeName +:+ " links, one endpoint must be a node"
  | errSelfLink node iface =>
      "link connects interface '" +:+ node +:+ ":" +:+ iface +:+ "' to itself"
  | errEndpointMissing node => "endpoint Node " +:+ fmt_q node +:+ " does not exist"
  end.

Definition isHost (endpoint : LinkEndpointSpec) : bool :=
  bool_decide (NodeName endpoint = LinkHostNodeName).

Definition ValidateLink (link : Link) : result linkError unit :=
  if isHost (EndpointA link) && isHost (EndpointB link) then Err errBothHost
  else if bool_decide (NodeName (EndpointA link) = NodeName (EndpointB link))
          && bool_decide (InterfaceName (EndpointA link) = InterfaceName (EndpointB link))
  then Err (errSelfLink (NodeName (EndpointA link)) (InterfaceName (EndpointA link)))
  else Ok tt.

Definition endpointKey (endpoint : LinkEndpointSpec) : string :=
  NodeName endpoint +:+ ":" +:+ InterfaceName endpoint.

(** The first endpoint's owner, else the second's; [""] when neither is claimed. *)
Definition conflictForClaimedEndpoints (link : Link) (claimed : gmap string string) : string :=
  foldr (λ endpoint rest,
           if isHost endpoint then rest
           else
             let owner := default "" (claimed !! endpointKey endpoint) in
             if bool_decide (owner = "") then rest else owner)
        "" (endpoints link).

Definition claimLinkEndpoints (link : Link) (claimed : gmap string string) : gmap string string :=
  foldl (λ claimed endpoint,
           if isHost endpoint then claimed else <[endpointKey endpoint := LinkName link]> claimed)
        claimed (endpoints link).

Definition endpointStep (acc : gmap string string * gmap string string) (candidate : Link) :
    gmap string string * gmap string string :=
  let '(claimed, conflicts) := acc in
  match ValidateLink candidate with
  | Err _ => acc
  | Ok _ =>
      let conflict := conflictForClaimedEndpoints candidate claimed in
      if bool_decide (conflict ≠ "")
      then (claimed, <[LinkName candidate := conflict]> conflicts)
      else (claimLinkEndpoints candidate claimed, conflicts)
  end.

Definition EndpointConflicts (namespaceLinks : list Link) : gmap string string :=
  (foldl endpointStep (∅, ∅) (sort_by LinkName namespaceLinks)).2.

(** The snapshot with the given link in place of the listed one of its name. *)
Fixpoint replaceLink (link : Link) (candidates : list Link) : list Link :=
  match candidates with
  | [] => [link]
  | c :: cs => if bool_decide (LinkName c = LinkName link) then link :: cs
               else c :: replaceLink link cs
  end.

Definition FindEndpointConflict (link : Link) (namespaceLinks : list Link) : string :=
  default "" (EndpointConflicts (replaceLink link namespaceLinks) !! LinkName link).

(** ** Lemmas *)

(** The interfaces a link claims. *)
Definition claims (link : Link) : list string :=
  endpointKey <$> filter (λ e, isHost e = false) (endpoints link).

Definition valid (link : Link) : Prop := ValidateLink link = Ok tt.

Lemma claimLinkEndpoints_lookup link claimed k :
  claimLinkEndpoints link claimed !! k
  = if bool_decide (k ∈ claims link) then Some (LinkName link) else claimed !! k.
Proof.
  unfold claimLinkEndpoints, claims, endpoints. simpl.
  destruct (isHost (EndpointA link)) eqn:Ha, (isHost (EndpointB link)) eqn:Hb;
    rewrite ?filter_cons, ?Ha, ?Hb; simpl;
    repeat (case_bool_decide as Hk || rewrite lookup_insert);
    repeat case_decide; subst; simpl in *; try set_solver.
Qed.

Lemma conflict_spec link claimed o :
  conflictForClaimedEndpoints link claimed = o → o ≠ "" →
  ∃ k, k ∈ claims link ∧ claimed !! k = Some o.
Proof.
  unfold conflictForClaimedEndpoints, claims, endpoints. simpl.
  intros Ho Hne. rewrite !filter_cons.
  destruct (isHost (EndpointA link)) eqn:Ha, (isHost (EndpointB link)) eqn:Hb; simpl;
    repeat (case_bool_decide; [|]); subst; try done;
    repeat match goal with
    | H : default "" (claimed !! ?k) ≠ "" |- _ =>
        destruct (claimed !! k) eqn:?; simpl in *; [|done]
    end; try (eexists; split; [|eassumption]; set_solver).
Qed.

Lemma no_conflict_spec link claimed k o :
  conflictForClaimedEndpoints link claimed = "" → k ∈ claims link → claimed !! k = Some o → o = "".
Proof.
  unfold conflictForClaimedEndpoints, claims, endpoints. simpl. intros Hc. rewrite !filter_cons.
  destruct (isHost (EndpointA link)) eqn:Ha, (isHost (EndpointB link)) eqn:Hb; simpl in *;
    rewrite ?elem_of_cons, ?elem_of_nil; intros Hk Hl;
    repeat case_bool_decide; simplify_eq;
    destruct_or?; subst; rewrite ?Hl in *; simpl in *; done.
Qed.

(** ** The ownership invariant *)

(** [past] are the links already processed. *)
Definition winner (conflicts : gmap string string) (link : Link) : Prop :=
  valid link ∧ conflicts !! LinkName link = None.

Record ownership (past : list Link) (claimed conflicts : gmap string string) : Prop := {
  ow_claimed : ∀ k o, claimed !! k = Some o ↔
    ∃ l, l ∈ past ∧ winner conflicts l ∧ LinkName l = o ∧ k ∈ claims l;
  ow_conflicts : ∀ n w, conflicts !! n = Some w → ∃ l lw k, l ∈ past ∧ LinkName l = n ∧ valid l ∧
    lw ∈ past ∧ LinkName lw = w ∧ winner conflicts lw ∧ str_ltb w n = true ∧
    k ∈ claims l ∧ k ∈ claims lw;
  ow_disjoint : ∀ l1 l2 k, l1 ∈ past → l2 ∈ past → winner conflicts l1 → winner conflicts l2 →
    k ∈ claims l1 → k ∈ claims l2 → LinkName l1 = LinkName l2
}.

Lemma ownership_empty : ownership [] ∅ ∅.
Proof.
  constructor.
  - intros k o. rewrite lookup_empty. split; [done|]. intros (l & []%elem_of_nil & _).
  - intros n w. by rewrite lookup_empty.
  - intros l1 l2 k []%elem_of_nil.
Qed.

Section ownership_step.
Variables (past : list Link) (claimed conflicts : gmap string string) (c : Link).
Hypothesis Hown : ownership past claimed conflicts.
Hypothesis Hlater : ∀ l, l ∈ past → str_ltb (LinkName l) (LinkName c) = true.
Hypothesis Hname : ∀ l, l ∈ past → LinkName l ≠ "".

Lemma later_fresh : conflicts !! LinkName c = None.
Proof.
  destruct (conflicts !! LinkName c) as [w|] eqn:Hc; [|done].
  destruct (ow_conflicts _ _ _ Hown _ _ Hc) as (l & _ & _ & Hl & Hn & _).
  specialize (Hlater l Hl). rewrite Hn, str_ltb_irrefl in Hlater. done.
Qed.

Lemma ownership_invalid : ¬ valid c → ownership (past ++ [c]) claimed conflicts.
Proof.
  intros Hinv. assert (∀ l, l ∈ past ++ [c] → valid l → l ∈ past) as Hold.
  { intros l [Hl| ->%list_elem_of_singleton]%elem_of_app Hv; done. }
  assert (∀ l, l ∈ past → l ∈ past ++ [c]) as Hnew by (intros; apply elem_of_app; by left).
  destruct Hown as [H1 H2 H3]. constructor.
  - intros k o. rewrite H1. split; intros (l & Hl & Hw & ?); exists l; [auto|].
    split; [apply Hold; [done|apply Hw]|auto].
  - intros n w Hn. destruct (H2 n w Hn) as (l & lw & k & Hl & ? & ? & Hlw & ?).
    exists l, lw, k. auto 10.
  - intros l1 l2 k Hl1 Hl2 Hw1 Hw2. apply H3; try done; apply Hold; try done; [apply Hw1|apply Hw2].
Qed.

Lemma winner_insert w l :
  l ∈ past → winner (<[LinkName c := w]> conflicts) l ↔ winner conflicts l.
Proof.
  intros Hl. unfold winner. rewrite lookup_insert_ne; [done|]. intros Heq.
  specialize (Hlater l Hl). by rewrite Heq, str_ltb_irrefl in Hlater.
Qed.

Lemma ownership_conflict w k :
  valid c → k ∈ claims c → claimed !! k = Some w →
  ownership (past ++ [c]) claimed (<[LinkName c := w]> conflicts).
Proof.
  intros Hv Hk Hw.
  assert (∀ l, l ∈ past ++ [c] → winner (<[LinkName c := w]> conflicts) l →
    l ∈ past ∧ winner conflicts l) as Hold.
  { intros l [Hl| ->%list_elem_of_singleton]%elem_of_app Hwin.
    - split; [done|]. by apply (winner_insert w).
    - destruct Hwin as [_ Hn]. by rewrite lookup_insert_eq in Hn. }
  assert (∀ l, l ∈ past → l ∈ past ++ [c]) as Hnew by (intros; apply elem_of_app; by left).
  destruct Hown as [H1 H2 H3]. constructor.
  - intros k' o. rewrite H1. split.
    + intros (l & Hl & Hwin & ?). exists l. rewrite winner_insert by done. auto.
    + intros (l & Hl & Hwin & ?). destruct (Hold l Hl Hwin). exists l. auto.
  - intros n w' [[<- <-]|[Hne Hn]]%lookup_insert_Some.
    + apply H1 in Hw as (lw & Hlw & Hwin & Hwn & Hkw). exists c, lw, k.
      rewrite winner_insert by done. subst w. split_and!; try done; [|by auto|by apply Hlater].
      apply elem_of_app. right. by left.
    + destruct (H2 n w' Hn) as (l & lw & k' & Hl & ? & ? & Hlw & ? & ? & ?).
      exists l, lw, k'. rewrite winner_insert by done. auto 10.
  - intros l1 l2 k' Hl1 Hl2 Hw1 Hw2. destruct (Hold l1 Hl1 Hw1), (Hold l2 Hl2 Hw2). by apply H3.
Qed.

Lemma ownership_claim :
  valid c → conflictForClaimedEndpoints c claimed = "" →
  ownership (past ++ [c]) (claimLinkEndpoints c claimed) conflicts.
Proof.
  intros Hv Hc.
  assert (∀ k l, k ∈ claims c → l ∈ past → winner conflicts l → ¬ k ∈ claims l) as Hfree.
  { intros k l Hk Hl Hw Hkl. apply (Hname l Hl).
    apply (no_conflict_spec c claimed k); [done|done|]. apply (ow_claimed _ _ _ Hown). eauto. }
  assert (winner conflicts c) as Hwc by (split; [done|apply later_fresh]).
  destruct Hown as [H1 H2 H3]. constructor.
  - intros k o. rewrite claimLinkEndpoints_lookup. setoid_rewrite elem_of_app.
    setoid_rewrite list_elem_of_singleton. case_bool_decide as Hk.
    + split; [intros [= <-]; exists c; auto|]. intros (l & [Hl| ->] & Hw & Hn & Hkl); [|by subst].
      by destruct (Hfree k l).
    + rewrite H1. split; [intros (l & Hl & ?); exists l; auto|].
      intros (l & [Hl| ->] & ? & ? & ?); [exists l; auto|done].
  - intros n w Hn. destruct (H2 n w Hn) as (l & lw & k' & Hl & ? & ? & Hlw & ?).
    exists l, lw, k'. rewrite !elem_of_app. auto 10.
  - intros l1 l2 k. rewrite !elem_of_app, !list_elem_of_singleton.
    intros [Hl1| ->] [Hl2| ->] Hw1 Hw2 Hk1 Hk2; [by eapply H3| | |done];
      exfalso; by eapply Hfree.
Qed.
End ownership_step.

Lemma endpointStep_ownership past claimed conflicts c :
  ownership past claimed conflicts →
  (∀ l, l ∈ past → str_ltb (LinkName l) (LinkName c) = true) →
  (∀ l, l ∈ past → LinkName l ≠ "") →
  ownership (past ++ [c]) (endpointStep (claimed, conflicts) c).1
    (endpointStep (claimed, conflicts) c).2.
Proof.
  intros Hown Hlater Hname. unfold endpointStep.
  destruct (ValidateLink c) as [[]|e] eqn:Hv.
  - case_bool_decide as Hc; simpl.
    + destruct (conflict_spec c claimed _ eq_refl Hc) as (k & Hk & Hw).
      by eapply ownership_conflict.
    + by apply ownership_claim.
  - apply ownership_invalid; [done|]. unfold valid. by rewrite Hv.
Qed.

Lemma ownership_fold past claimed conflicts l :
  ownership past claimed conflicts → StronglySorted (λ a b, str_ltb (LinkName a) (LinkName b) = true) l →
  (∀ a b, a ∈ past → b ∈ l → str_ltb (LinkName a) (LinkName b) = true) →
  (∀ a, a ∈ past ++ l → LinkName a ≠ "") →
  ownership (past ++ l) (foldl endpointStep (claimed, conflicts) l).1
    (foldl endpointStep (claimed, conflicts) l).2.
Proof.
  revert past claimed conflicts. induction l as [|c l IH]; intros past claimed conflicts Hown Hs Hlt Hne.
  { by rewrite app_nil_r. }
  inversion Hs as [|? ? Hs' Hall]; subst. cbn [foldl].
  pose proof (endpointStep_ownership past claimed conflicts c Hown) as Hstep.
  destruct (endpointStep (claimed, conflicts) c) as [cl cf]. simpl in Hstep.
  rewrite (cons_middle c past l), app_assoc. apply IH.
  - apply Hstep; [intros; apply Hlt; [done|left] | intros; apply Hne, elem_of_app; by left].
  - done.
  - intros a b [Ha| ->%list_elem_of_singleton]%elem_of_app Hb; [apply Hlt; [done|by right]|].
    rewrite Forall_forall in Hall. by apply Hall.
  - intros a Ha. apply Hne. by rewrite <- app_assoc in Ha.
Qed.

(** What [EndpointConflicts] computes for a namespace: the ownership invariant over
    all its links. *)
Lemma EndpointConflicts_ownership ls :
  NoDup (LinkName <$> ls) → (∀ l, l ∈ ls → LinkName l ≠ "") →
  ∃ claimed, ownership (sort_by LinkName ls) claimed (EndpointConflicts ls).
Proof.
  intros Hnd Hne.
  pose proof (ownership_fold [] ∅ ∅ (sort_by LinkName ls) ownership_empty) as Hfold.
  eexists. apply Hfold.
  - by apply sort_by_strict.
  - intros a b []%elem_of_nil.
  - intros a Ha. apply Hne. by rewrite app_nil_l, sort_by_perm in Ha.
Qed.

(** ** The contract *)

(** endpoint ownership in a namespace (distinct, non-empty names): two valid links
    that are not reported as conflicting never claim the same node interface; a link
    is reported as conflicting exactly when it is valid and shares an interface with
    such an owner of a lexically smaller name, and the reported winner is one, so a
    rejected link never costs another link its interface; and the result does not
    depend on the order in which the links are listed. *)
Theorem endpoint_ownership ls ls' :
  NoDup (LinkName <$> ls) → (∀ l, l ∈ ls → LinkName l ≠ "") → ls ≡ₚ ls' →
  let conflicts := EndpointConflicts ls in
  EndpointConflicts ls' = conflicts ∧
  (∀ l1 l2 k, l1 ∈ ls → l2 ∈ ls → winner conflicts l1 → winner conflicts l2 →
     k ∈ claims l1 → k ∈ claims l2 → l1 = l2) ∧
  (∀ l, l ∈ ls → is_Some (conflicts !! LinkName l) ↔
     valid l ∧ ∃ lw k, lw ∈ ls ∧ winner conflicts lw ∧ str_ltb (LinkName lw) (LinkName l) = true ∧
       k ∈ claims l ∧ k ∈ claims lw) ∧
  (∀ l w, l ∈ ls → conflicts !! LinkName l = Some w →
     ∃ lw, lw ∈ ls ∧ LinkName lw = w ∧ winner conflicts lw).
Proof.
  intros Hnd Hne Hperm conflicts.
  destruct (EndpointConflicts_ownership ls Hnd Hne) as [claimed [H1 H2 H3]]. fold conflicts in H1, H2, H3.
  setoid_rewrite sort_by_perm in H1. setoid_rewrite sort_by_perm in H2.
  setoid_rewrite sort_by_perm in H3.
  assert (∀ l1 l2, l1 ∈ ls → l2 ∈ ls → LinkName l1 = LinkName l2 → l1 = l2) as Hinj.
  { intros l1 l2 Hl1 Hl2 Heq. by eapply (NoDup_key_inj LinkName). }
  split_and!.
  - unfold conflicts, EndpointConflicts. by rewrite (sort_by_perm_eq LinkName ls ls').
  - intros l1 l2 k Hl1 Hl2 Hw1 Hw2 Hk1 Hk2. apply Hinj; [done..|]. by eapply H3.
  - intros l Hl. split.
    + intros [w Hw]. destruct (H2 _ _ Hw) as (l' & lw & k & Hl' & Hn & Hv & Hlw & <- & Hwin & Hlt & Hk & Hkw).
      rewrite (Hinj l' l Hl' Hl Hn) in *. split; [done|]. exists lw, k. done.
    + intros (Hv & lw & k & Hlw & Hwin & Hlt & Hk & Hkw).
      destruct (conflicts !! LinkName l) as [w|] eqn:Hc; [eauto|]. exfalso.
      rewrite (H3 lw l k Hlw Hl Hwin (conj Hv Hc) Hkw Hk), str_ltb_irrefl in Hlt. done.
  - intros l w Hl Hw. destruct (H2 _ _ Hw) as (? & lw & ? & ? & ? & ? & Hlw & ? & ? & ?). by exists lw.
Qed.

(** A namespace of three links: [b] loses [r1:e1] to [a], and [c] then owns [r3:e3],
    which only the rejected [b] also names. *)
Definition sample_link (name : string) (a b : LinkEndpointSpec) : Link :=
  MkLink "lab" name ("uid-" +:+ name) 1 "1" false ∅ ∅ [] a b 0 (MkLinkStatus 0 None []).

Definition sample_links : list Link :=
  [ sample_link "c" (MkLinkEndpointSpec "r3" "e3") (MkLinkEndpointSpec "r4" "e4");
    sample_link "b" (MkLinkEndpointSpec "r1" "e1") (MkLinkEndpointSpec "r3" "e3");
    sample_link "a" (MkLinkEndpointSpec "r1" "e1") (MkLinkEndpointSpec "host" "eth9") ].

Lemma endpoint_ownership_witness :
  let conflicts := EndpointConflicts sample_links in
  EndpointConflicts (reverse sample_links) = conflicts ∧
  (∀ l1 l2 k, l1 ∈ sample_links → l2 ∈ sample_links → winner conflicts l1 → winner conflicts l2 →
     k ∈ claims l1 → k ∈ claims l2 → l1 = l2) ∧
  (∀ l, l ∈ sample_links → is_Some (conflicts !! LinkName l) ↔
     valid l ∧ ∃ lw k, lw ∈ sample_links ∧ winner conflicts lw ∧
       str_ltb (LinkName lw) (LinkName l) = true ∧ k ∈ claims l ∧ k ∈ claims lw) ∧
  (∀ l w, l ∈ sample_links → conflicts !! LinkName l = Some w →
     ∃ lw, lw ∈ sample_links ∧ LinkName lw = w ∧ winner conflicts lw).
Proof.
  apply endpoint_ownership.
  - apply (bool_decide_unpack _). vm_compute. exact I.
  - intros l Hl. repeat (apply elem_of_cons in Hl as [->|Hl]; [done|]). by apply elem_of_nil in Hl.
  - symmetry. apply reverse_Permutation.
Defined.

Example sample_conflicts : EndpointConflicts sample_links = {[ "b" := "a" ]}.
Proof. vm_compute. reflexivity. Qed.
