(* ===== verification/LinkAllocation.v ===== *)
(** * Wire id allocation

    Models [controllers/link/allocate.go]: which links need a wire id, and the
    reservations of one namespace pass ([wireReservations]). *)

From S2P Require Import Prelude Api Grouping LinkEndpoints.
Local Open Scope Z_scope.

(** ** Operations *)

Definition maxWireID : Z := 16000000.

Fixpoint validateEndpointList (nodes : gmap string Node) (es : list LinkEndpointSpec) :
    result linkError unit :=
  match es with
  | [] => Ok tt
  | endpoint :: es =>
      if isHost endpoint then validateEndpointList nodes es
      else match nodes !! NodeName endpoint with
           | None => Err (errEndpointMissing (NodeName endpoint))
           | Some _ => validateEndpointList nodes es
           end
  end.

Definition ValidateLinkEndpoints (link : Link) (nodes : gmap string Node) : result linkError unit :=
  validateEndpointList nodes (endpoints link).

Definition IsHostLink (link : Link) : bool := isHost (EndpointA link) || isHost (EndpointB link).

Definition IsSamePodLink (link : Link) (nodes : gmap string Node) : bool :=
  bool_decide (ResolvePrimaryNode nodes (NodeName (EndpointA link))
               = ResolvePrimaryNode nodes (NodeName (EndpointB link))).

Definition LinksWithResolvedEndpoints (namespaceLinks : list Link) (nodes : gmap string Node) :
    list Link :=
  filter (λ link, is_ok (ValidateLinkEndpoints link nodes) = true) namespaceLinks.

(** [owners] maps a wire id to the keys of the links that hold it. *)
Record wireReservations := WireReservations {
  owners : gmap Z (gset string);
  next : Z
}.
#[export] Instance wireReservations_updatable : Updatable wireReservations :=
  λ r, WireReservations (owners r) (next r).

Definition linkKey (link : Link) : string := LinkNamespace link +:+ "/" +:+ LinkName link.

(** [r.owners[id]], with Go's nil map for an absent one. *)
Definition ownersOf (r : wireReservations) (id : Z) : gset string := default ∅ (owners r !! id).

Definition release (key : string) (previous : Z) (r : wireReservations) : wireReservations :=
  let remaining := ownersOf r previous ∖ {[key]} in
  if bool_decide (remaining = ∅)
  then WireReservations (delete previous (owners r)) (Z.min (next r) previous)
  else r <| owners ::= <[previous := remaining]> |>.

Definition record (link : Link) (previous : Z) (r : wireReservations) : wireReservations :=
  let id := WireID (Status link) in
  if previous =? id then r
  else
    let r := if 0 <? previous then release (linkKey link) previous r else r in
    if 0 <? id then r <| owners ::= <[id := {[linkKey link]} ∪ ownersOf r id]> |> else r.

Definition newWireReservations (ls : list Link) : wireReservations :=
  foldl (λ r link, record link 0 r) (WireReservations ∅ 1) ls.

Inductive allocateError := errNoWireIDs.

(** [len(owners) == 0 || (len(owners) == 1 && owners[key])]. *)
Definition available (key : string) (taken : gset string) : bool :=
  bool_decide (taken = ∅) || bool_decide (taken = {[key]}).

(** The search loop; every iteration but the last passes one reserved id, so the
    number of reserved ids bounds them ([searchWireID_total]). *)
Fixpoint searchWireID (fuel : nat) (key : string) (r : wireReservations) :
    option (result allocateError Z * wireReservations) :=
  match fuel with
  | O => None
  | S fuel =>
      if next r <=? maxWireID then
        if available key (ownersOf r (next r)) then Some (Ok (next r), r)
        else searchWireID fuel key (r <| next ::= λ n, n + 1 |>)
      else Some (Err errNoWireIDs, r)
  end.

Definition contested (link : Link) (r : wireReservations) : bool :=
  contains_func (λ owner, str_ltb owner (linkKey link))
    (elements (ownersOf r (WireID (Status link)))).

Definition desired (link : Link) (nodes : gmap string Node) (r : wireReservations) :
    result allocateError Z * wireReservations :=
  if IsHostLink link || IsSamePodLink link nodes then (Ok 0, r)
  else
    let id := WireID (Status link) in
    if (1 <=? id) && (id <=? maxWireID) && negb (contested link r) then (Ok id, r)
    else default (Err errNoWireIDs, r) (searchWireID (size (owners r) + 1) (linkKey link) r).

Definition ResolveDesiredWireID (link : Link) (namespaceLinks : list Link)
    (namespaceNodes : list Node) : result allocateError Z :=
  (desired link (NodesByName namespaceNodes) (newWireReservations namespaceLinks)).1.

(** ** Lemmas: the search *)

Definition reserved_from (r : wireReservations) : gset Z :=
  filter (λ id, next r ≤ id) (dom (owners r)).

Lemma searchWireID_total fuel key r :
  (size (reserved_from r) < fuel)%nat → is_Some (searchWireID fuel key r).
Proof.
  revert r. induction fuel as [|fuel IH]; intros r Hf; [lia|]. simpl.
  destruct (next r <=? maxWireID); [|eauto].
  destruct (available _ _) eqn:Ha; [eauto|]. apply IH.
  assert (next r ∈ dom (owners r)) as Hin.
  { apply elem_of_dom. unfold available, ownersOf in Ha.
    destruct (owners r !! next r); [eauto|]. done. }
  enough (size (reserved_from (WireReservations (owners r) (next r + 1))) < size (reserved_from r))%nat by lia.
  apply subset_size. unfold reserved_from. simpl. split.
  - intros id. rewrite !elem_of_filter. intros [? ?]. split; [lia|done].
  - intros Hsub. specialize (Hsub (next r)). rewrite !elem_of_filter in Hsub.
    destruct Hsub as [? _]; [split; [lia|done]|]. lia.
Qed.

Lemma searchWireID_spec fuel key r out r' :
  searchWireID fuel key r = Some (out, r') →
  owners r' = owners r ∧ next r ≤ next r' ∧
  (∀ j, next r ≤ j < next r' → available key (ownersOf r j) = false) ∧
  match out with
  | Ok n => n = next r' ∧ n ≤ maxWireID ∧ available key (ownersOf r n) = true
  | Err _ => maxWireID < next r'
  end.
Proof.
  revert r. induction fuel as [|fuel IH]; intros r; [done|]. simpl.
  destruct (next r <=? maxWireID) eqn:Hmax; bool_to_prop.
  - destruct (available _ _) eqn:Ha.
    + intros [= <- <-]. split_and!; [done|lia| |done|lia|done]. intros j Hj. lia.
    + intros (H1 & H2 & H3 & H4)%IH. simpl in *. split_and!; [done|lia| |done].
      intros j Hj. destruct (decide (j = next r)) as [->|Hne]; [done|].
      apply (H3 j). lia.
  - intros [= <- <-]. split_and!; [done|lia| |lia]. intros j Hj. lia.
Qed.

Lemma searchWireID_enough key r :
  ∃ out r', searchWireID (size (owners r) + 1) key r = Some (out, r').
Proof.
  destruct (searchWireID_total (size (owners r) + 1) key r) as [[out r'] ?]; [|eauto].
  unfold reserved_from.
  assert (size (filter (λ id, (next r ≤ id)%Z) (dom (owners r))) ≤ size (dom (owners r)))%nat
    by (apply subseteq_size; set_solver).
  rewrite size_dom in *. lia.
Qed.

Lemma contested_spec link r :
  contested link r = true ↔
  ∃ owner, owner ∈ ownersOf r (WireID (Status link)) ∧ str_ltb owner (linkKey link) = true.
Proof. unfold contested. rewrite contains_func_true. by setoid_rewrite elem_of_elements. Qed.

Lemma available_spec key taken : available key taken = true ↔ taken ⊆ {[key]}.
Proof.
  unfold available. rewrite orb_true_iff, !bool_decide_eq_true. split.
  - intros [->| ->]; set_solver.
  - intros Hsub. destruct (decide (key ∈ taken)); [right|left]; set_solver.
Qed.

(** What [desired] answers, on every branch. *)
Lemma desired_spec link nodes r out r' :
  desired link nodes r = (out, r') →
  owners r' = owners r ∧ next r ≤ next r' ∧
  ((IsHostLink link || IsSamePodLink link nodes = true ∧ out = Ok 0) ∨
   (IsHostLink link || IsSamePodLink link nodes = false ∧
    let id := WireID (Status link) in
    ((1 ≤ id ≤ maxWireID ∧ contested link r = false ∧ out = Ok id) ∨
     (¬ (1 ≤ id ≤ maxWireID ∧ contested link r = false) ∧
      (∀ j, next r ≤ j < next r' → ¬ ownersOf r j ⊆ {[linkKey link]}) ∧
      match out with
      | Ok n => next r ≤ n ≤ maxWireID ∧ ownersOf r n ⊆ {[linkKey link]} ∧ n = next r'
      | Err _ => maxWireID < next r'
      end)))).
Proof.
  unfold desired. destruct (_ || _); [intros [= <- <-]; split_and!; [done|lia|]; by left|].
  destruct (_ && _ && _) eqn:E; bool_to_prop.
  - intros [= <- <-]. split_and!; [done|lia|]. right. split; [done|]. left. split_and!; done || lia.
  - destruct (searchWireID_enough (linkKey link) r) as (o & r1 & Hs). rewrite Hs. simpl.
    intros [= <- <-]. destruct (searchWireID_spec _ _ _ _ _ Hs) as (H1 & H2 & H3 & H4).
    split_and!; [done|lia|]. right. split; [done|]. right. split_and!.
    + intros [Hr Hc]. rewrite Hc in E. destruct E as [E|E]; [|done].
      apply andb_false_iff in E as [E|E]; bool_to_prop; lia.
    + intros j Hj Hsub. specialize (H3 j Hj). apply available_spec in Hsub. congruence.
    + destruct o as [n|e]; [|done]. destruct H4 as (-> & ? & Ha). apply available_spec in Ha.
      split_and!; done || lia.
Qed.

(** ** Lemmas: the reservations mirror the links *)

(** The reservations hold exactly the positive ids of [ls], and every id below
    [next] is reserved. *)
Record mirrors (r : wireReservations) (ls : list Link) : Prop := {
  mi_owners : ∀ id key, key ∈ ownersOf r id ↔
    0 < id ∧ ∃ l, l ∈ ls ∧ linkKey l = key ∧ WireID (Status l) = id;
  mi_next : 1 ≤ next r;
  mi_low : ∀ j, 1 ≤ j < next r → ownersOf r j ≠ ∅
}.

Lemma ownersOf_release key p r id :
  ownersOf (release key p r) id
  = if decide (id = p) then ownersOf r p ∖ {[key]} else ownersOf r id.
Proof.
  unfold release. case_bool_decide as He; unfold ownersOf at 1; simpl.
  - case_decide; subst; [by rewrite lookup_delete_eq, He | by rewrite lookup_delete_ne].
  - case_decide; subst; [by rewrite lookup_insert_eq | by rewrite lookup_insert_ne].
Qed.

Lemma ownersOf_reserve key n r id :
  ownersOf (r <| owners ::= <[n := {[key]} ∪ ownersOf r n]> |>) id
  = if decide (id = n) then {[key]} ∪ ownersOf r n else ownersOf r id.
Proof.
  unfold ownersOf at 1. simpl.
  case_decide; subst; [by rewrite lookup_insert_eq | by rewrite lookup_insert_ne].
Qed.

Lemma release_next key p r :
  1 ≤ next r → 0 < p → (∀ j, 1 ≤ j < next r → ownersOf r j ≠ ∅) →
  1 ≤ next (release key p r) ∧
  (∀ j, 1 ≤ j < next (release key p r) → ownersOf (release key p r) j ≠ ∅).
Proof.
  intros Hn Hp Hlow. split.
  - unfold release. case_bool_decide; simpl; lia.
  - intros j Hj. rewrite ownersOf_release. unfold release in Hj.
    case_bool_decide as He; simpl in Hj; case_decide; subst; [lia|apply Hlow; lia|done|apply Hlow; lia].
Qed.

(** Who holds an id among a link and others. *)
Lemma holder_cons others c c' :
  linkKey c' = linkKey c → ∀ id key, 0 < id →
  (∃ l, l ∈ c' :: others ∧ linkKey l = key ∧ WireID (Status l) = id) ↔
  (key = linkKey c ∧ id = WireID (Status c'))
  ∨ (∃ l, l ∈ others ∧ linkKey l = key ∧ WireID (Status l) = id).
Proof.
  intros Hkey id key Hid. setoid_rewrite elem_of_cons. split.
  - intros (l & [->|Hl] & Hk & Hw); [left|right; eauto]. split; [congruence|done].
  - intros [[-> ->]|(l & Hl & ?)]; [exists c'; auto|exists l; tauto].
Qed.

(** Recording one link's new id, with the keys of the others distinct from its. *)
Lemma record_mirrors r others c c' :
  (∀ l, l ∈ others → linkKey l ≠ linkKey c) → linkKey c' = linkKey c →
  mirrors r (c :: others) → mirrors (record c' (WireID (Status c)) r) (c' :: others).
Proof.
  intros Hkeys Hkey [Hown Hnext Hlow]. unfold record. rewrite Hkey.
  set (p := WireID (Status c)) in *. set (w := WireID (Status c')) in *.
  destruct (p =? w) eqn:Hpw; bool_to_prop.
  { constructor; [|done|done]. intros id key. rewrite Hown.
    setoid_rewrite elem_of_cons. split; intros (Hid & l & [->|Hl] & Hk & Hw); split; try done;
      try (by exists l; auto).
    - exists c'. unfold p, w in *. split_and!; [by left|congruence|congruence].
    - exists c. unfold p, w in *. split_and!; [by left|congruence|congruence]. }
  set (r1 := if 0 <? p then _ else r).
  assert (1 ≤ next r1 ∧ (∀ j, 1 ≤ j < next r1 → ownersOf r1 j ≠ ∅)) as [Hn1 Hl1].
  { unfold r1. destruct (0 <? p) eqn:Hp; bool_to_prop; [by apply release_next|done]. }
  assert (∀ id key, key ∈ ownersOf r1 id ↔
    0 < id ∧ ∃ l, l ∈ others ∧ linkKey l = key ∧ WireID (Status l) = id) as Hown1.
  { intros id key.
    assert (key ∈ ownersOf r1 id ↔ key ∈ ownersOf r id ∧ ¬ (key = linkKey c ∧ id = p)) as ->.
    { unfold r1. destruct (0 <? p) eqn:Hp; bool_to_prop.
      - rewrite ownersOf_release. case_decide; subst; set_solver.
      - split; [|tauto]. intros Hin. split; [done|]. intros [-> ->].
        apply Hown in Hin as [? _]. lia. }
    rewrite Hown. setoid_rewrite elem_of_cons. split.
    - intros [(Hid & l & [->|Hl] & Hk & Hw) Hne]; [|by eauto 6].
      exfalso. apply Hne. unfold p. subst. done.
    - intros (Hid & l & Hl & Hk & Hw). split; [by eauto 6|]. intros [-> ->]. by apply (Hkeys l). }
  pose proof (holder_cons others c c' Hkey) as Hsplit. fold w in Hsplit.
  destruct (0 <? w) eqn:Hw; bool_to_prop.
  - constructor; [|done|].
    + intros id key. rewrite ownersOf_reserve. destruct (decide (id = w)) as [->|Hne].
      * rewrite elem_of_union, elem_of_singleton, Hown1, Hsplit by done. tauto.
      * rewrite Hown1. split; intros [Hid Hl]; (split; [done|]); apply Hsplit in Hl || apply Hsplit; tauto.
    + intros j Hj. rewrite ownersOf_reserve. case_decide; [set_solver|by apply Hl1].
  - constructor; [|done|done]. intros id key. rewrite Hown1.
    split; intros [Hid Hl]; (split; [done|]); [apply Hsplit; tauto|].
    apply Hsplit in Hl as [[_ ->]|?]; [lia|done|done].
Qed.

Lemma mirrors_perm r l1 l2 : l1 ≡ₚ l2 → mirrors r l1 → mirrors r l2.
Proof.
  intros Hp [H1 H2 H3]. constructor; [|done|done]. intros id key. rewrite H1.
  by setoid_rewrite Hp.
Qed.

Lemma newWireReservations_mirrors ls :
  NoDup (linkKey <$> ls) → mirrors (newWireReservations ls) ls.
Proof.
  unfold newWireReservations. induction ls as [|c ls IH] using rev_ind; intros Hnd.
  { constructor; simpl; [|lia|intros; lia]. intros id key. unfold ownersOf. simpl.
    rewrite lookup_empty. simpl. split; [set_solver|]. by intros (_ & l & []%elem_of_nil & _). }
  rewrite fmap_app in Hnd. apply NoDup_app in Hnd as (Hnd & Hdis & _).
  rewrite foldl_snoc. apply (mirrors_perm _ (c :: ls)); [apply Permutation_cons_append|].
  set (c0 := c <| Status ::= λ s, MkLinkStatus 0 (ResolvedEndpoints s) (Conditions s) |>).
  apply (record_mirrors _ ls c0 c).
  - intros l Hl Heq. apply (Hdis (linkKey l)); [by apply list_elem_of_fmap_2|].
    rewrite Heq. apply list_elem_of_singleton. done.
  - done.
  - destruct (IH Hnd) as [H1 H2 H3]. constructor; [|done|done].
    intros id key. rewrite H1. setoid_rewrite elem_of_cons.
    split; intros [Hid (l & Hl & ?)]; (split; [done|]).
    + exists l. auto.
    + destruct Hl as [->|Hl]; [|by exists l]. exfalso. simpl in *. naive_solver lia.
Qed.

(** ** The contract *)

(** Some other link of the namespace holds the id. *)
Definition held_by_other (ls : list Link) (link : Link) (id : Z) : Prop :=
  ∃ l, l ∈ ls ∧ linkKey l ≠ linkKey link ∧ WireID (Status l) = id.

(** A link of a smaller key holds the link's id. *)
Definition outranked (ls : list Link) (link : Link) : Prop :=
  ∃ l, l ∈ ls ∧ str_ltb (linkKey l) (linkKey link) = true ∧
    WireID (Status l) = WireID (Status link).

Lemma mirrors_outranked r ls link :
  mirrors r ls → 0 < WireID (Status link) → contested link r = true ↔ outranked ls link.
Proof.
  intros [Hown _ _] Hid. rewrite contested_spec. setoid_rewrite Hown. unfold outranked. split.
  - intros (owner & (_ & l & Hl & <- & Hw) & Hlt). by exists l.
  - intros (l & Hl & Hlt & Hw). exists (linkKey l). split; [|done]. split; [done|]. by exists l.
Qed.

Lemma mirrors_available r ls link id :
  mirrors r ls → 0 < id → ownersOf r id ⊆ {[linkKey link]} ↔ ¬ held_by_other ls link id.
Proof.
  intros [Hown _ _] Hid. split.
  - intros Hsub (l & Hl & Hne & Hw). apply Hne.
    assert (linkKey l ∈ ownersOf r id) as Hin by (apply Hown; eauto). set_solver.
  - intros Hfree key (_ & l & Hl & <- & Hw)%Hown. apply elem_of_singleton.
    destruct (decide (linkKey l = linkKey link)); [done|]. destruct Hfree. by exists l.
Qed.

Lemma search_low r ls link nodes out r' :
  mirrors r ls → (∃ l, l ∈ ls ∧ linkKey l = linkKey link ∧ Status l = Status link) →
  NoDup (linkKey <$> ls) → desired link nodes r = (out, r') →
  ¬ (1 ≤ WireID (Status link) ≤ maxWireID ∧ contested link r = false) →
  ∀ j, 1 ≤ j < next r → j ≤ maxWireID → held_by_other ls link j.
Proof.
  intros Hm (l0 & Hl0 & Hk0 & Hs0) Hnd _ Hnot j Hj Hmax.
  destruct Hm as [Hown Hn Hlow]. specialize (Hlow j Hj).
  apply set_choose_L in Hlow as [key (_ & l & Hl & <- & Hw)%Hown].
  destruct (decide (linkKey l = linkKey link)) as [Heq|Hne]; [|by exists l].
  (* the link's own id, in range, is below [next]: then it is contested *)
  assert (l = l0) as -> by (eapply (NoDup_key_inj linkKey); [done..|congruence]).
  destruct (contested link r) eqn:Hc; [|exfalso; apply Hnot; rewrite <- Hs0, Hw; done || lia].
  apply contested_spec in Hc as (owner & (_ & l' & Hl' & <- & Hw')%Hown & Hlt).
  exists l'. split_and!; [done| |congruence]. intros Heq'. rewrite Heq', str_ltb_irrefl in Hlt. done.
Qed.

(** C21: the wire id a link should hold, for a namespace snapshot with distinct keys that
    contains the link: 0 for links that never touch the wire; its present id when that
    is valid and no link of a smaller key holds it; otherwise the lowest id from 1 to
    16,000,000 that no other link holds; and an error exactly when all of them are held
    by others.  The id is never one held by another link, unless it is retained. *)
Theorem wire_id_allocation link ls nodeList :
  link ∈ ls → NoDup (linkKey <$> ls) →
  let nodes := NodesByName nodeList in
  let id := WireID (Status link) in
  match ResolveDesiredWireID link ls nodeList with
  | Ok n =>
      (IsHostLink link || IsSamePodLink link nodes = true ∧ n = 0) ∨
      (IsHostLink link || IsSamePodLink link nodes = false ∧ 1 ≤ n ≤ maxWireID ∧
       ((n = id ∧ ¬ outranked ls link) ∨
        (¬ (1 ≤ id ≤ maxWireID ∧ ¬ outranked ls link) ∧ ¬ held_by_other ls link n ∧
         ∀ j, 1 ≤ j < n → held_by_other ls link j)))
  | Err _ =>
      IsHostLink link || IsSamePodLink link nodes = false ∧
      ∀ j, 1 ≤ j ≤ maxWireID → held_by_other ls link j
  end.
Proof.
  intros Hin Hnd nodes id. unfold ResolveDesiredWireID. fold nodes.
  pose proof (newWireReservations_mirrors ls Hnd) as Hm.
  destruct (desired link nodes (newWireReservations ls)) as [out r'] eqn:Hd. simpl.
  destruct (desired_spec _ _ _ _ _ Hd) as (Ho & Hn & [[Hh ->]|(Hh & [(Hr & Hc & ->)|(Hnot & Hskip & Hout)])]).
  - by left.
  - right. split_and!; [done|lia|lia|]. left. split; [done|].
    rewrite <- (mirrors_outranked _ _ _ Hm) by lia. by rewrite Hc.
  - assert (∀ j, 1 ≤ j < next r' → j ≤ maxWireID → held_by_other ls link j) as Hheld.
    { intros j Hj Hmax. destruct (decide (j < next (newWireReservations ls))) as [Hlt|Hge].
      - eapply search_low; try done; [|lia]. by exists link.
      - destruct (decide (Exists (λ l, linkKey l ≠ linkKey link ∧ WireID (Status l) = j) ls))
          as [(l & Hl & ? & ?)%list.Exists_exists|Hnone]; [by exists l|].
        exfalso. apply (Hskip j); [lia|]. apply (mirrors_available _ ls); [done|lia|].
        intros (l & Hl & ?). apply Hnone, list.Exists_exists. by exists l. }
    assert (¬ (1 ≤ id ≤ maxWireID ∧ ¬ outranked ls link)) as Hnot'.
    { intros [Hr Hout']. apply Hnot. split; [done|]. apply not_true_iff_false.
      rewrite (mirrors_outranked _ _ _ Hm) by (unfold id in *; lia). done. }
    destruct Hm as [Hown Hm1 Hlow].
    destruct out as [n|e].
    + destruct Hout as (Hrange & Hsub & ->). right. split_and!; [done|lia|lia|]. right.
      split_and!; [done| |intros j Hj; apply Hheld; lia].
      apply (mirrors_available (newWireReservations ls)); [by constructor|lia|done].
    + split; [done|]. intros j Hj. apply Hheld; lia.
Qed.

(** Three cross-pod links: [a] and [b] hold id 1, [c] holds id 2; [b] is outranked and
    gets the lowest free id. *)
Definition sample_held (name : string) (id : Z) : Link :=
  sample_link name (MkLinkEndpointSpec "r1" name) (MkLinkEndpointSpec "r2" name)
  <| Status := MkLinkStatus id None [] |>.

Definition sample_namespace : list Link := [sample_held "a" 1; sample_held "b" 1; sample_held "c" 2].

Definition sample_node_list : list Node := [MkNode "r1" "u1" ""; MkNode "r2" "u2" ""].

Lemma wire_id_allocation_witness :
  ResolveDesiredWireID (sample_held "b" 1) sample_namespace sample_node_list = Ok 3 ∧
  let nodes := NodesByName sample_node_list in
  let link := sample_held "b" 1 in
  let id := WireID (Status link) in
  match ResolveDesiredWireID link sample_namespace sample_node_list with
  | Ok n =>
      (IsHostLink link || IsSamePodLink link nodes = true ∧ n = 0) ∨
      (IsHostLink link || IsSamePodLink link nodes = false ∧ 1 ≤ n ≤ maxWireID ∧
       ((n = id ∧ ¬ outranked sample_namespace link) ∨
        (¬ (1 ≤ id ≤ maxWireID ∧ ¬ outranked sample_namespace link) ∧
         ¬ held_by_other sample_namespace link n ∧
         ∀ j, 1 ≤ j < n → held_by_other sample_namespace link j)))
  | Err _ =>
      IsHostLink link || IsSamePodLink link nodes = false ∧
      ∀ j, 1 ≤ j ≤ maxWireID → held_by_other sample_namespace link j
  end.
Proof.
  split; [vm_compute; reflexivity|].
  apply wire_id_allocation; [right; left | apply (bool_decide_unpack _); vm_compute; exact I].
Defined.
