(* ===== verification/LinkReconcile.v ===== *)
(** * The Link controller

    Models [controllers/link/reconcile.go]: one namespace pass over a snapshot of
    links and nodes.  The API server's answers to the pass's writes are arguments,
    and the writes are listed in order; a failed write ends the pass, as in the
    code.  Setting a condition is [SetStatusCondition]'s business ([Api]). *)

From S2P Require Import Prelude Api Grouping LinkEndpoints LinkAllocation.
Local Open Scope Z_scope.

(** ** Endpoint identity bindings *)

Definition resolvedEndpointIsComplete (endpoint : LinkResolvedEndpointStatus) : bool :=
  bool_decide (ResolvedNodeName endpoint = LinkHostNodeName)
  || negb (bool_decide (ResolvedUID endpoint = "")).

Definition endpointBindingMatchesSpec (link : Link)
    (resolved : option LinkResolvedEndpointsStatus) : bool :=
  match resolved with
  | None => false
  | Some resolved =>
      bool_decide (ResolvedNodeName (ResolvedA resolved) = NodeName (EndpointA link))
      && bool_decide (ResolvedNodeName (ResolvedB resolved) = NodeName (EndpointB link))
      && resolvedEndpointIsComplete (ResolvedA resolved)
      && resolvedEndpointIsComplete (ResolvedB resolved)
  end.

(** Why a bound endpoint is gone; the code's message is a function of it. *)
Inductive lifecycleReason :=
| reasonDeleted (side : string) (endpoint : LinkResolvedEndpointStatus)
| reasonReplaced (side : string) (endpoint : LinkResolvedEndpointStatus) (current : string).

Definition resolvedEndpointLifecycleReason (side : string)
    (endpoint : LinkResolvedEndpointStatus) (nodes : gmap string Node) : option lifecycleReason :=
  if bool_decide (ResolvedNodeName endpoint = LinkHostNodeName) then None
  else
    match nodes !! ResolvedNodeName endpoint with
    | None => Some (reasonDeleted side endpoint)
    | Some node =>
        if bool_decide (NodeUID node = ResolvedUID endpoint) then None
        else Some (reasonReplaced side endpoint (NodeUID node))
    end.

Definition resolveEndpoint (nodeName : string) (nodes : gmap string Node) :
    option LinkResolvedEndpointStatus :=
  if bool_decide (nodeName = LinkHostNodeName)
  then Some (MkLinkResolvedEndpointStatus nodeName "")
  else
    match nodes !! nodeName with
    | None => None
    | Some node =>
        if bool_decide (NodeUID node = "") then None
        else Some (MkLinkResolvedEndpointStatus nodeName (NodeUID node))
    end.

(** The binding to store, and the reason to delete the link, if there is one. *)
Definition resolveLinkEndpoints (link : Link) (nodes : gmap string Node) :
    option LinkResolvedEndpointsStatus * option lifecycleReason :=
  let fresh :=
    match resolveEndpoint (NodeName (EndpointA link)) nodes with
    | None => (None, None)
    | Some a =>
        match resolveEndpoint (NodeName (EndpointB link)) nodes with
        | None => (None, None)
        | Some b => (Some (MkLinkResolvedEndpointsStatus a b), None)
        end
    end in
  match ResolvedEndpoints (Status link) with
  | None => fresh
  | Some observed =>
      if negb (endpointBindingMatchesSpec link (Some observed)) then fresh
      else
        match resolvedEndpointLifecycleReason "endpoint A" (ResolvedA observed) nodes with
        | Some reason => (None, Some reason)
        | None =>
            match resolvedEndpointLifecycleReason "endpoint B" (ResolvedB observed) nodes with
            | Some reason => (None, Some reason)
            | None => (Some observed, None)
            end
        end
  end.

(** ** One link *)

Inductive apiWrite :=
| DeleteLink (name uid resourceVersion : string)
| UpdateLinkStatus (name : string) (status : LinkStatus).

Inductive deleteAnswer := Deleted | DeleteNotFound | DeleteFailed.

(** The API server's answers during one pass, by link name. *)
Record apiAnswers := ApiAnswers {
  onDelete : string → deleteAnswer;
  onUpdate : string → bool
}.

Inductive linkReconcileError :=
| errWireIDs (e : allocateError)
| errDeletingLink (name : string)
| errUpdatingLink (name : string).

Section pass.
Context `{FmtQuote, ConditionSetter}.

Definition desiredLinkStatus (link : Link) (wireID : Z)
    (resolved : option LinkResolvedEndpointsStatus) (conditionStatus : ConditionStatus)
    (reason message : string) : LinkStatus :=
  {| WireID := wireID; ResolvedEndpoints := resolved;
     Conditions := SetStatusCondition (Conditions (Status link))
       {| ConditionType := LinkConditionAccepted; CStatus := conditionStatus;
          ObservedGeneration := LinkGeneration link; LastTransitionTime := 0;
          Reason := reason; Message := message |} |}.

(** The link in memory, the writes and the error. *)
Definition updateLinkStatus (api : apiAnswers) (link : Link) (status : LinkStatus) :
    Link * list apiWrite * option linkReconcileError :=
  if bool_decide (Status link = status) then (link, [], None)
  else (link <| Status := status |>, [UpdateLinkStatus (LinkName link) status],
        if onUpdate api (LinkName link) then None else Some (errUpdatingLink (LinkName link))).

Definition acceptedMessage (wireID : Z) : string :=
  if wireID =? 0 then "Link endpoints and direct connectivity policy are accepted"
  else "Link endpoints are resolved and direct wire ID " +:+ pretty wireID +:+ " is allocated".

Definition reconcileLink (api : apiAnswers) (nodes : gmap string Node) (conflictingLink : string)
    (r : wireReservations) (link : Link) :
    wireReservations * (Link * list apiWrite * option linkReconcileError) :=
  if LinkDeleting link || ShouldIgnoreReconcile (LinkLabels link) then (r, (link, [], None))
  else
    match resolveLinkEndpoints link nodes with
    | (_, Some _) =>
        (r, (link, [DeleteLink (LinkName link) (LinkUID link) (LinkResourceVersion link)],
             match onDelete api (LinkName link) with
             | DeleteFailed => Some (errDeletingLink (LinkName link))
             | _ => None
             end))
    | (resolved, None) =>
        match ValidateLink link with
        | Err e =>
            (r, updateLinkStatus api link
                  (desiredLinkStatus link 0 resolved ConditionFalse "InvalidSpec" (linkErrorText e)))
        | Ok _ =>
            match ValidateLinkEndpoints link nodes with
            | Err e =>
                (r, updateLinkStatus api link
                      (desiredLinkStatus link 0 resolved ConditionFalse "EndpointsUnresolved"
                         (linkErrorText e)))
            | Ok _ =>
                if bool_decide (conflictingLink ≠ "") then
                  (r, updateLinkStatus api link
                        (desiredLinkStatus link 0 resolved ConditionFalse "EndpointConflict"
                           ("endpoint already claimed by link " +:+ fmt_q conflictingLink)))
                else
                  match desired link nodes r with
                  | (Err e, r) => (r, (link, [], Some (errWireIDs e)))
                  | (Ok wireID, r) =>
                      (r, updateLinkStatus api link
                            (desiredLinkStatus link wireID resolved ConditionTrue "Accepted"
                               (acceptedMessage wireID)))
                  end
            end
        end
    end.

(** ** The pass *)

Record passResult := PassResult {
  passLinks : list Link;
  passWrites : list apiWrite;
  passError : option linkReconcileError
}.

(** The loop over the sorted links; on an error the rest is left as it is. *)
Fixpoint reconcileLoop (api : apiAnswers) (nodes : gmap string Node)
    (conflicts : gmap string string) (r : wireReservations) (ls : list Link) : passResult :=
  match ls with
  | [] => PassResult [] [] None
  | link :: ls =>
      let previous := WireID (Status link) in
      match reconcileLink api nodes (default "" (conflicts !! LinkName link)) r link with
      | (_, (link, writes, Some e)) => PassResult (link :: ls) writes (Some e)
      | (r, (link, writes, None)) =>
          let rest := reconcileLoop api nodes conflicts (record link previous r) ls in
          PassResult (link :: passLinks rest) (writes ++ passWrites rest) (passError rest)
      end
  end.

(** [Reconcile], given the listed links and nodes. *)
Definition Reconcile (api : apiAnswers) (items : list Link) (nodeList : list Node) : passResult :=
  match items with
  | [] => PassResult [] [] None
  | _ =>
      let nodes := NodesByName nodeList in
      let ls := sort_by LinkName items in
      let conflicts := EndpointConflicts (LinksWithResolvedEndpoints ls nodes) in
      reconcileLoop api nodes conflicts (newWireReservations ls) ls
  end.
End pass.

(** ** Lemmas: one link *)

(** The link takes part in the pass: it is not being deleted or ignored, and no bound
    endpoint is gone. *)
Definition handled (nodes : gmap string Node) (link : Link) : Prop :=
  LinkDeleting link = false ∧ ShouldIgnoreReconcile (LinkLabels link) = false ∧
  (resolveLinkEndpoints link nodes).2 = None.

(** Two links that differ at most in their status. *)
Definition same_spec (l1 l2 : Link) : Prop := l2 = l1 <| Status := Status l2 |>.

#[export] Instance same_spec_refl : Reflexive same_spec.
Proof. by intros []. Qed.

Lemma same_spec_key l1 l2 : same_spec l1 l2 → linkKey l2 = linkKey l1 ∧ LinkName l2 = LinkName l1.
Proof. intros H. by rewrite H. Qed.

Lemma desired_mirrors link nodes r ls out r' :
  mirrors r ls → desired link nodes r = (out, r') → mirrors r' ls.
Proof.
  intros [H1 H2 H3] Hd. destruct (desired_spec _ _ _ _ _ Hd) as (Ho & Hn & Hcase).
  assert (∀ id, ownersOf r' id = ownersOf r id) as Hof by (intros id; unfold ownersOf; by rewrite Ho).
  assert (∀ j, next r ≤ j < next r' → ownersOf r j ≠ ∅) as Hskip.
  { assert (next r' = next r ∨ ∀ j, next r ≤ j < next r' → ¬ ownersOf r j ⊆ {[linkKey link]}) as [He|Hs].
    { destruct Hcase as [[Hh _]|(Hh & [(Hr & Hc & _)|(_ & Hs & _)])]; [left|left|by right];
        unfold desired in Hd; rewrite Hh in Hd; [by simplify_eq|].
      rewrite Hc in Hd. destruct (_ && _) eqn:E; [|bool_to_prop; destruct E; bool_to_prop; lia].
      by simplify_eq/=. }
    - rewrite He. intros; lia.
    - intros j Hj He. apply (Hs j Hj). rewrite He. set_solver. }
  constructor; [|lia|].
  - intros id key. by rewrite Hof.
  - intros j Hj. rewrite Hof. destruct (decide (j < next r)); [apply H3; lia | apply Hskip; lia].
Qed.

Section pass_facts.
Context `{FmtQuote, ConditionSetter}.

Lemma updateLinkStatus_spec api link st l' ws e :
  updateLinkStatus api link st = (l', ws, e) → l' = link <| Status := st |>.
Proof.
  unfold updateLinkStatus. case_bool_decide as Hs; [|by intros [= <- <- <-]].
  intros [= <- <- <-]. subst st. by destruct link.
Qed.

(** What one successful step does to the link and the reservations. *)
Lemma reconcileLink_spec api nodes conflict r c r' c' ws ls :
  mirrors r ls → reconcileLink api nodes conflict r c = (r', (c', ws, None)) →
  same_spec c c' ∧ mirrors r' ls ∧ (∀ id, ownersOf r' id = ownersOf r id) ∧
  (c' = c ∨ handled nodes c) ∧
  (handled nodes c →
   WireID (Status c') = 0 ∨
   (1 ≤ WireID (Status c') ≤ maxWireID ∧
    ((WireID (Status c') = WireID (Status c) ∧ contested c r = false) ∨
     ownersOf r (WireID (Status c')) ⊆ {[linkKey c]}))).
Proof.
  intros Hm. unfold reconcileLink.
  destruct (_ || _) eqn:Hskip.
  { intros [= <- <- <-]. split_and!; [done..|by left|]. intros (H1 & H2 & _). by rewrite H1, H2 in Hskip. }
  apply orb_false_iff in Hskip as [Hdel Hign].
  destruct (resolveLinkEndpoints c nodes) as [resolved [reason|]] eqn:Hres.
  { intros [= <- <- <-]. split_and!; [done..|by left|]. intros (_ & _ & Hr). by rewrite Hres in Hr. }
  assert (handled nodes c) as Hh by (split_and!; [done..|by rewrite Hres]).
  assert (∀ st l' w' e, updateLinkStatus api c st = (l', w', e) → WireID st = 0 →
    same_spec c l' ∧ mirrors r ls ∧ (∀ id, ownersOf r id = ownersOf r id) ∧
    (l' = c ∨ handled nodes c) ∧
    (handled nodes c → WireID (Status l') = 0 ∨
      (1 ≤ WireID (Status l') ≤ maxWireID ∧
       ((WireID (Status l') = WireID (Status c) ∧ contested c r = false) ∨
        ownersOf r (WireID (Status l')) ⊆ {[linkKey c]})))) as Hrej.
  { intros st l' w' e ->%updateLinkStatus_spec Hst. split_and!; try done; [by right|by left]. }
  destruct (ValidateLink c); [|intros [= <- Hu]; by eapply Hrej].
  destruct (ValidateLinkEndpoints c nodes); [|intros [= <- Hu]; by eapply Hrej].
  case_bool_decide; [intros [= <- Hu]; by eapply Hrej|].
  destruct (desired c nodes r) as [[wid|e] r1] eqn:Hd; [|done].
  intros [= <- ->%updateLinkStatus_spec]. simpl.
  pose proof (desired_mirrors _ _ _ _ _ _ Hm Hd) as Hm1.
  destruct (desired_spec _ _ _ _ _ Hd) as (Ho & Hn & Hcase).
  split_and!; [done|done|intros id; unfold ownersOf; by rewrite Ho|by right|]. intros _.
  destruct Hcase as [[_ [= ->]]|(_ & [(Hr & Hc & [= ->])|(_ & _ & Hr & Hsub & _)])]; [by left|right..].
  - split; [lia|]. by left.
  - split; [|by right]. destruct Hm. lia.
Qed.

(** ** Lemmas: the pass *)

(** The links already processed hold ids that no processed link of a smaller key
    holds. *)
Definition settled_ids (nodes : gmap string Node) (past : list Link) : Prop :=
  ∀ d, d ∈ past → handled nodes d → WireID (Status d) ≠ 0 →
    1 ≤ WireID (Status d) ≤ maxWireID ∧
    ∀ l, l ∈ past → str_ltb (linkKey l) (linkKey d) = true → WireID (Status l) ≠ WireID (Status d).

(** Processing order: strictly increasing keys. *)
Definition in_order (ls : list Link) : Prop :=
  StronglySorted (λ a b, str_ltb a b = true) (linkKey <$> ls).

Lemma in_order_inv past c ls :
  in_order (past ++ c :: ls) →
  (∀ d, d ∈ past → str_ltb (linkKey d) (linkKey c) = true) ∧
  (∀ l, l ∈ past ++ ls → linkKey l ≠ linkKey c).
Proof.
  unfold in_order. rewrite fmap_app, fmap_cons. intros Hs.
  assert (∀ d, d ∈ past → str_ltb (linkKey d) (linkKey c) = true) as Hpast.
  { intros d Hd. eapply (StronglySorted_app_1_elem_of (λ a b, str_ltb a b = true)); [exact Hs| |left].
    by apply list_elem_of_fmap_2. }
  split; [done|]. intros l [Hl|Hl]%elem_of_app Heq.
  - specialize (Hpast l Hl). by rewrite Heq, str_ltb_irrefl in Hpast.
  - apply StronglySorted_app in Hs as (_ & _ & Hs). apply StronglySorted_inv in Hs as [_ Hall].
    rewrite list.Forall_forall in Hall. specialize (Hall (linkKey l) (list_elem_of_fmap_2 _ _ _ Hl)).
    by rewrite Heq, str_ltb_irrefl in Hall.
Qed.

Lemma settled_ids_step nodes past c c' r ls :
  in_order (past ++ c :: ls) → mirrors r (past ++ c :: ls) → settled_ids nodes past →
  same_spec c c' → (handled nodes c' →
   WireID (Status c') = 0 ∨
   (1 ≤ WireID (Status c') ≤ maxWireID ∧
    ((WireID (Status c') = WireID (Status c) ∧ contested c r = false) ∨
     ownersOf r (WireID (Status c')) ⊆ {[linkKey c]}))) →
  settled_ids nodes (past ++ [c']).
Proof.
  intros Hord Hm Hset Hspec Hid. destruct (in_order_inv _ _ _ Hord) as [Hpast _].
  destruct (same_spec_key _ _ Hspec) as [Hkey _].
  intros d [Hd| ->%list_elem_of_singleton]%elem_of_app Hh Hnz.
  - destruct (Hset d Hd Hh Hnz) as [Hr Hl]. split; [done|].
    intros l [Hin| ->%list_elem_of_singleton]%elem_of_app Hlt; [by apply Hl|].
    specialize (Hpast d Hd). rewrite Hkey in Hlt. by rewrite (str_ltb_asym _ _ Hlt) in Hpast.
  - destruct (Hid Hh) as [?|[Hr Hcase]]; [done|]. split; [done|].
    intros l [Hin| ->%list_elem_of_singleton]%elem_of_app Hlt Heq;
      [|by rewrite str_ltb_irrefl in Hlt].
    assert (linkKey l ∈ ownersOf r (WireID (Status c'))) as Hown.
    { apply (mi_owners _ _ Hm). split; [lia|]. exists l. split_and!; try done.
      apply elem_of_app. by left. }
    rewrite Hkey in Hlt. destruct Hcase as [[Hw Hc]|Hsub].
    + rewrite Hw in Hown. apply not_true_iff_false in Hc. apply Hc, contested_spec. eauto.
    + assert (linkKey l = linkKey c) as Hl by set_solver. by rewrite Hl, str_ltb_irrefl in Hlt.
Qed.

Lemma reconcileLoop_spec api nodes conflicts r past ls :
  in_order (past ++ ls) → mirrors r (past ++ ls) → settled_ids nodes past →
  passError (reconcileLoop api nodes conflicts r ls) = None →
  let out := passLinks (reconcileLoop api nodes conflicts r ls) in
  Forall2 same_spec ls out ∧ settled_ids nodes (past ++ out).
Proof.
  revert r past. induction ls as [|c ls IH]; intros r past Hord Hm Hset; simpl.
  { intros _. rewrite app_nil_r. by split. }
  destruct (reconcileLink _ _ _ r c) as [r1 [[c' ws] [e|]]] eqn:Hc; [done|]. simpl. intros Herr.
  destruct (reconcileLink_spec _ _ _ _ _ _ _ _ _ Hm Hc) as (Hspec & Hm1 & Hof & Hor & Hid).
  destruct (same_spec_key _ _ Hspec) as [Hkey _].
  assert (settled_ids nodes (past ++ [c'])) as Hset'.
  { apply (settled_ids_step nodes past c c' r ls); try done. intros Hh. apply Hid. by destruct Hor as [<-|?]. }
  assert (in_order ((past ++ [c']) ++ ls)) as Hord'.
  { unfold in_order in *. rewrite !fmap_app in *. simpl in *. by rewrite Hkey, <- app_assoc. }
  assert (mirrors (record c' (WireID (Status c)) r1) ((past ++ [c']) ++ ls)) as Hm'.
  { rewrite <- app_assoc. apply (mirrors_perm _ (c' :: past ++ ls)); [by rewrite Permutation_middle|].
    apply record_mirrors; [|done|]; [apply (in_order_inv _ _ _ Hord)|].
    eapply mirrors_perm; [|exact Hm1]. by rewrite Permutation_middle. }
  destruct (IH _ _ Hord' Hm' Hset' Herr) as [Hspecs Hsets]. split; [by constructor|].
  by rewrite <- app_assoc in Hsets.
Qed.
End pass_facts.

Lemma sorted_in_order ns items :
  (∀ l, l ∈ items → LinkNamespace l = ns) → NoDup (LinkName <$> items) →
  in_order (sort_by LinkName items).
Proof.
  intros Hns Hnd. pose proof (sort_by_strict LinkName items Hnd) as Hs.
  assert (∀ l, l ∈ sort_by LinkName items → LinkNamespace l = ns) as Hns'
    by (intros l; rewrite sort_by_perm; apply Hns).
  unfold in_order. induction Hs as [|c ls Hs IH Hall]; [constructor|].
  rewrite fmap_cons. constructor.
  - apply IH. intros l Hl. apply Hns'. by right.
  - apply Forall_fmap. rewrite list.Forall_forall in Hall |- *. intros l Hl. simpl. unfold linkKey.
    rewrite (Hns' c), (Hns' l), !str_ltb_prefix by (left || by right). by apply Hall.
Qed.

Lemma in_order_NoDup ls : in_order ls → NoDup (linkKey <$> ls).
Proof.
  unfold in_order. induction 1 as [|k ks Hs IH Hall]; [constructor|]. constructor; [|done].
  intros Hin. rewrite list.Forall_forall in Hall. specialize (Hall k Hin).
  by rewrite str_ltb_irrefl in Hall.
Qed.

(** ** The pass's contract *)

(** C19: a successful pass over a namespace leaves wire ids unique: it changes only link
    statuses, every link it handled holds 0 or an id from 1 to 16,000,000, and no two
    links it handled hold the same non-zero id, so no two wires of a namespace can be
    confused by a receiving sidecar. *)
Theorem link_pass_unique_ids `{FmtQuote, ConditionSetter} api ns items nodeList :
  (∀ l, l ∈ items → LinkNamespace l = ns) → NoDup (LinkName <$> items) →
  passError (Reconcile api items nodeList) = None →
  let nodes := NodesByName nodeList in
  let out := passLinks (Reconcile api items nodeList) in
  Forall2 same_spec (sort_by LinkName items) out ∧
  (∀ l, l ∈ out → handled nodes l → 0 ≤ WireID (Status l) ≤ maxWireID) ∧
  (∀ l1 l2, l1 ∈ out → l2 ∈ out → handled nodes l1 → handled nodes l2 →
     WireID (Status l1) = WireID (Status l2) → WireID (Status l1) ≠ 0 →
     LinkName l1 = LinkName l2).
Proof.
  intros Hns Hnd Herr nodes out.
  pose proof (sorted_in_order ns items Hns Hnd) as Hord.
  assert (Forall2 same_spec (sort_by LinkName items) out ∧ settled_ids nodes out) as [Hspec Hset].
  { unfold out, Reconcile in *. destruct items as [|i items]; [by split; [constructor|intros ? []%elem_of_nil]|].
    apply (reconcileLoop_spec api nodes _ _ []); [done| |by intros ? []%elem_of_nil|done].
    by apply newWireReservations_mirrors, in_order_NoDup. }
  split; [done|]. split.
  - intros l Hl Hh. destruct (decide (WireID (Status l) = 0)) as [->|Hne]; [unfold maxWireID; lia|].
    destruct (Hset l Hl Hh Hne). lia.
  - intros l1 l2 Hl1 Hl2 Hh1 Hh2 Heq Hne.
    destruct (decide (linkKey l1 = linkKey l2)) as [Hk|Hk].
    + assert (∀ l, l ∈ out → LinkNamespace l = ns) as Hns'.
      { intros l Hl. apply list_elem_of_lookup in Hl as [i Hi].
        destruct (Forall2_lookup_r _ _ _ _ _ Hspec Hi) as (l0 & Hi0 & Hs). rewrite Hs. simpl.
        apply Hns. rewrite <- (sort_by_perm LinkName). by apply list_elem_of_lookup_2 in Hi0. }
      unfold linkKey in Hk. rewrite (Hns' l1 Hl1), (Hns' l2 Hl2) in Hk.
      by apply append_inj_l, append_inj_l in Hk.
    + exfalso. destruct (str_ltb_total _ _ Hk) as [Hlt|Hlt].
      * destruct (Hset l2 Hl2 Hh2) as [_ Hno]; [congruence|]. by apply (Hno l1).
      * destruct (Hset l1 Hl1 Hh1) as [_ Hno]; [congruence|]. by apply (Hno l2).
Qed.

(** ** Lemmas: a second pass *)

Lemma resolveEndpoint_complete name nodes e :
  resolveEndpoint name nodes = Some e →
  ResolvedNodeName e = name ∧ resolvedEndpointIsComplete e = true ∧
  ∀ side, resolvedEndpointLifecycleReason side e nodes = None.
Proof.
  unfold resolveEndpoint, resolvedEndpointIsComplete, resolvedEndpointLifecycleReason.
  case_bool_decide as Hh; [intros [= <-]; simpl; by rewrite bool_decide_eq_true_2|].
  destruct (nodes !! name) as [node|] eqn:Hn; [|done]. case_bool_decide as Hu; [done|].
  intros [= <-]. simpl. rewrite bool_decide_eq_false_2 by done. split; [done|]. split.
  - rewrite bool_decide_eq_false_2; done.
  - intros side. by rewrite Hn, bool_decide_eq_true_2.
Qed.

(** Once the resolved binding is stored, resolving again gives the same binding. *)
Lemma resolve_stable c c' nodes resolved :
  same_spec c c' → resolveLinkEndpoints c nodes = (resolved, None) →
  ResolvedEndpoints (Status c') = resolved → resolveLinkEndpoints c' nodes = (resolved, None).
Proof.
  intros Hs Hres Hst.
  assert (EndpointA c' = EndpointA c ∧ EndpointB c' = EndpointB c) as [Ha Hb] by (by rewrite Hs).
  unfold resolveLinkEndpoints in *. rewrite Hst, Ha, Hb. unfold endpointBindingMatchesSpec in *.
  rewrite Ha, Hb.
  set (fresh := match resolveEndpoint (NodeName (EndpointA c)) nodes with Some _ => _ | None => _ end) in *.
  assert (fresh = (resolved, None) →
    match resolved with
    | Some observed =>
        ResolvedNodeName (ResolvedA observed) = NodeName (EndpointA c) ∧
        ResolvedNodeName (ResolvedB observed) = NodeName (EndpointB c) ∧
        resolvedEndpointIsComplete (ResolvedA observed) = true ∧
        resolvedEndpointIsComplete (ResolvedB observed) = true ∧
        (∀ side, resolvedEndpointLifecycleReason side (ResolvedA observed) nodes = None) ∧
        (∀ side, resolvedEndpointLifecycleReason side (ResolvedB observed) nodes = None)
    | None => True
    end) as Hfresh.
  { unfold fresh. destruct (resolveEndpoint (NodeName (EndpointA c)) nodes) as [a|] eqn:Hra; [|by intros [= <-]].
    destruct (resolveEndpoint (NodeName (EndpointB c)) nodes) as [b|] eqn:Hrb; intros [= <-]; [|done].
    simpl. apply resolveEndpoint_complete in Hra as (? & ? & ?), Hrb as (? & ? & ?). done. }
  destruct resolved as [observed|].
  - destruct (ResolvedEndpoints (Status c)) as [old|];
      [destruct (negb _) eqn:Hneg|].
    2: { repeat (case_match; simplify_eq); done. }
    all: destruct (Hfresh Hres) as (H1 & H2 & H3 & H4 & H5 & H6);
      rewrite !bool_decide_eq_true_2, H3, H4 by done; simpl; by rewrite H5, H6.
  - destruct (ResolvedEndpoints (Status c)) as [old|]; [|done].
    repeat case_match; by simplify_eq.
Qed.

Lemma desired_retains c c' nodes r wid r1 r2 ls :
  mirrors r ls → same_spec c c' → desired c nodes r = (Ok wid, r1) → WireID (Status c') = wid →
  (wid ≠ 0 → contested c' r2 = false) → desired c' nodes r2 = (Ok wid, r2).
Proof.
  intros Hm Hs Hd Hw Hc.
  assert (IsHostLink c' = IsHostLink c ∧ IsSamePodLink c' nodes = IsSamePodLink c nodes) as [Hh Hp]
    by (by rewrite Hs).
  destruct (desired_spec _ _ _ _ _ Hd) as (_ & _ & Hcase).
  unfold desired. rewrite Hh, Hp, Hw.
  destruct Hcase as [[-> [= ->]]|(-> & Hcase)]; [done|].
  assert (1 ≤ wid ≤ maxWireID) as Hr.
  { destruct Hm as [_ Hn _]. destruct Hcase as [(? & _ & [= ->])|(_ & _ & ? & _)]; lia. }
  rewrite (proj2 (Z.leb_le 1 wid)), (proj2 (Z.leb_le wid maxWireID)), Hc by lia. done.
Qed.

(** The condition setters of two passes: setting again what was set changes nothing,
    although the clock has moved (the transition time is kept while the status is). *)
Definition condition_set_stable (set1 set2 : ConditionSetter) : Prop :=
  ∀ cs c, set2 (set1 cs c) c = set1 cs c.

Lemma desiredLinkStatus_stable (set1 set2 : ConditionSetter) c c' wid resolved cs reason msg :
  condition_set_stable set1 set2 → same_spec c c' →
  Status c' = @desiredLinkStatus set1 c wid resolved cs reason msg →
  @desiredLinkStatus set2 c' wid resolved cs reason msg = Status c'.
Proof.
  intros Hset Hs Hst. unfold desiredLinkStatus in *.
  assert (LinkGeneration c' = LinkGeneration c) as -> by (by rewrite Hs).
  rewrite Hst. simpl. f_equal. apply Hset.
Qed.

Lemma updateLinkStatus_noop api link : updateLinkStatus api link (Status link) = (link, [], None).
Proof. unfold updateLinkStatus. by rewrite bool_decide_eq_true_2. Qed.

(** A link that was handled needs no second write. *)
Lemma reconcileLink_again `{FmtQuote} (set1 set2 : ConditionSetter) api1 api2 nodes conflict r1 r2 c ls
    r1' c' ws :
  condition_set_stable set1 set2 → mirrors r1 ls → (resolveLinkEndpoints c nodes).2 = None →
  @reconcileLink _ set1 api1 nodes conflict r1 c = (r1', (c', ws, None)) →
  (handled nodes c' → WireID (Status c') ≠ 0 → contested c' r2 = false) →
  @reconcileLink _ set2 api2 nodes conflict r2 c' = (r2, (c', [], None)).
Proof.
  intros Hset Hm Hlife Hrec Hcont.
  destruct (reconcileLink_spec _ _ _ _ _ _ _ _ _ Hm Hrec) as (Hs & _).
  unfold reconcileLink in *.
  assert (LinkDeleting c' = LinkDeleting c ∧ LinkLabels c' = LinkLabels c ∧
    ValidateLink c' = ValidateLink c ∧ ValidateLinkEndpoints c' nodes = ValidateLinkEndpoints c nodes)
    as (Hd & Hl & Hv & He) by (by rewrite Hs).
  rewrite Hd, Hl, Hv, He. destruct (_ || _) eqn:Hskip; [by simplify_eq|].
  destruct (resolveLinkEndpoints c nodes) as [resolved [reason|]] eqn:Hres; [done|].
  apply orb_false_iff in Hskip as [Hdel Hign].
  assert (∀ st l' w' e, updateLinkStatus api1 c st = (l', w', e) → ResolvedEndpoints st = resolved →
    Status l' = st ∧ resolveLinkEndpoints l' nodes = (resolved, None)) as Hupd.
  { intros st l' w' e ->%updateLinkStatus_spec Hst. split; [done|].
    eapply resolve_stable; [|done|done]. done. }
  destruct (ValidateLink c).
  2: { injection Hrec as -> Hu. destruct (Hupd _ _ _ _ Hu eq_refl) as [Hst ->].
       rewrite (desiredLinkStatus_stable set1 set2 c c') by done. by rewrite updateLinkStatus_noop. }
  destruct (ValidateLinkEndpoints c nodes).
  2: { injection Hrec as -> Hu. destruct (Hupd _ _ _ _ Hu eq_refl) as [Hst ->].
       rewrite (desiredLinkStatus_stable set1 set2 c c') by done. by rewrite updateLinkStatus_noop. }
  case_bool_decide.
  { injection Hrec as -> Hu. destruct (Hupd _ _ _ _ Hu eq_refl) as [Hst ->].
    rewrite (desiredLinkStatus_stable set1 set2 c c') by done. by rewrite updateLinkStatus_noop. }
  destruct (desired c nodes r1) as [[wid|e] r1x] eqn:Hdes; [|done].
  injection Hrec as -> Hu. destruct (Hupd _ _ _ _ Hu eq_refl) as [Hst Hres'].
  assert (WireID (Status c') = wid) as Hw by by rewrite Hst.
  rewrite Hres', (desired_retains c c' nodes r1 wid r1' r2 ls Hm Hs Hdes Hw).
  2: { intros Hnz. apply Hcont; [|congruence]. split_and!; [congruence..|by rewrite Hres']. }
  rewrite (desiredLinkStatus_stable set1 set2 c c') by done. by rewrite updateLinkStatus_noop.
Qed.

Lemma reconcileLoop_cons_ok `{FmtQuote, ConditionSetter} api nodes conflicts r c ls :
  passError (reconcileLoop api nodes conflicts r (c :: ls)) = None →
  ∃ r' c' ws,
    reconcileLink api nodes (default "" (conflicts !! LinkName c)) r c = (r', (c', ws, None)) ∧
    passError (reconcileLoop api nodes conflicts (record c' (WireID (Status c)) r') ls) = None ∧
    passLinks (reconcileLoop api nodes conflicts r (c :: ls))
    = c' :: passLinks (reconcileLoop api nodes conflicts (record c' (WireID (Status c)) r') ls).
Proof.
  simpl. destruct (reconcileLink _ _ _ r c) as [r1 [[c' ws] [e|]]] eqn:Hc; [done|]. simpl.
  intros Herr. by exists r1, c', ws.
Qed.

(** The second pass makes no write: [past] and [out] are the first pass's results. *)
Lemma reconcileLoop_again `{FmtQuote} (set1 set2 : ConditionSetter) api1 api2 nodes conflicts r1 r2
    past ls :
  condition_set_stable set1 set2 → in_order (past ++ ls) → mirrors r1 (past ++ ls) →
  (∀ l, l ∈ ls → (resolveLinkEndpoints l nodes).2 = None) →
  passError (@reconcileLoop _ set1 api1 nodes conflicts r1 ls) = None →
  let out := passLinks (@reconcileLoop _ set1 api1 nodes conflicts r1 ls) in
  settled_ids nodes (past ++ out) → mirrors r2 (past ++ out) →
  in_order (past ++ out) →
  @reconcileLoop _ set2 api2 nodes conflicts r2 out = PassResult out [] None.
Proof.
  intros Hset. revert r1 past. induction ls as [|c ls IH]; intros r1 past Hord Hm Hlife Herr; [done|].
  destruct (reconcileLoop_cons_ok _ _ _ _ _ _ Herr) as (r' & c' & ws & Hc & Herr' & ->).
  intros out Hsettled Hm2 Hord2. unfold out in *. clear out.
  destruct (reconcileLink_spec _ _ _ _ _ _ _ _ _ Hm Hc) as (Hspec & Hm1 & _).
  destruct (same_spec_key _ _ Hspec) as [Hkey Hname].
  assert (handled nodes c' → WireID (Status c') ≠ 0 → contested c' r2 = false) as Hcont.
  { intros Hh Hnz. apply not_true_iff_false. intros (owner & Hown & Hlt)%contested_spec.
    apply (mi_owners _ _ Hm2) in Hown as (_ & l & Hl & <- & Hw).
    destruct (Hsettled c') as [_ Hno]; [apply elem_of_app; right; left|done|done|].
    by apply (Hno l). }
  cbn [reconcileLoop]. rewrite Hname.
  rewrite (reconcileLink_again set1 set2 api1 api2 nodes _ r1 r2 c (past ++ c :: ls) r' c' ws
    Hset Hm (Hlife c (list_elem_of_here _ _)) Hc Hcont).
  assert (record c' (WireID (Status c')) r2 = r2) as -> by (unfold record; by rewrite Z.eqb_refl).
  assert (∀ tail, tail = passLinks (@reconcileLoop _ set1 api1 nodes conflicts
      (record c' (WireID (Status c)) r') ls) →
    @reconcileLoop _ set2 api2 nodes conflicts r2 tail = PassResult tail [] None) as Htail.
  2: { by rewrite (Htail _ eq_refl). }
  intros tail ->. apply (IH (record c' (WireID (Status c)) r') (past ++ [c'])).
  - unfold in_order in *. rewrite !fmap_app in *. simpl in *. by rewrite Hkey, <- app_assoc.
  - rewrite <- app_assoc. apply (mirrors_perm _ (c' :: past ++ ls)); [by rewrite Permutation_middle|].
    apply record_mirrors; [apply (in_order_inv _ _ _ Hord)|done|].
    eapply mirrors_perm; [|exact Hm1]. by rewrite Permutation_middle.
  - intros l Hl. apply Hlife. by right.
  - done.
  - by rewrite <- app_assoc.
  - by rewrite <- app_assoc.
  - by rewrite <- app_assoc.
Qed.

Lemma endpointStep_same_spec acc l1 l2 : same_spec l1 l2 → endpointStep acc l2 = endpointStep acc l1.
Proof. intros Hs. destruct acc. rewrite Hs. done. Qed.

Lemma resolved_same_spec ls out nodes :
  Forall2 same_spec ls out →
  Forall2 same_spec (LinksWithResolvedEndpoints ls nodes) (LinksWithResolvedEndpoints out nodes).
Proof.
  unfold LinksWithResolvedEndpoints. induction 1 as [|l1 l2 ls out Hs Hf IH]; [constructor|].
  rewrite !filter_cons.
  assert (ValidateLinkEndpoints l2 nodes = ValidateLinkEndpoints l1 nodes) as -> by (by rewrite Hs).
  case_decide; [by constructor|done].
Qed.

Lemma names_same_spec ls out : Forall2 same_spec ls out → LinkName <$> out = LinkName <$> ls.
Proof.
  induction 1 as [|l1 l2 ls out Hs Hf IH]; [done|]. rewrite !fmap_cons, IH.
  by rewrite (proj2 (same_spec_key _ _ Hs)).
Qed.

Lemma name_sorted_fmap ls :
  StronglySorted (λ a b, str_ltb (LinkName a) (LinkName b) = true) ls ↔
  StronglySorted (λ a b, str_ltb a b = true) (LinkName <$> ls).
Proof.
  induction ls as [|l ls IH]; [split; constructor|]. rewrite fmap_cons. split.
  - intros [? Hall]%StronglySorted_inv. constructor; [by apply IH|]. by apply Forall_fmap.
  - intros [? Hall]%StronglySorted_inv. constructor; [by apply IH|].
    rewrite Forall_fmap in Hall. exact Hall.
Qed.

(** The endpoint conflicts of a sorted namespace do not depend on link statuses. *)
Lemma conflicts_same_spec ls out nodes :
  StronglySorted (λ a b, str_ltb (LinkName a) (LinkName b) = true) ls → Forall2 same_spec ls out →
  EndpointConflicts (LinksWithResolvedEndpoints out nodes)
  = EndpointConflicts (LinksWithResolvedEndpoints ls nodes).
Proof.
  intros Hs Hf.
  assert (StronglySorted (λ a b, str_ltb (LinkName a) (LinkName b) = true) out) as Hs'.
  { apply name_sorted_fmap. rewrite (names_same_spec _ _ Hf). by apply name_sorted_fmap. }
  unfold EndpointConflicts. rewrite !sort_by_id by (by apply StronglySorted_filter_sub).
  f_equal. pose proof (resolved_same_spec ls out nodes Hf) as Hrs. revert Hrs.
  generalize (LinksWithResolvedEndpoints ls nodes) (LinksWithResolvedEndpoints out nodes).
  generalize (@empty (gmap string string) _, @empty (gmap string string) _).
  intros acc l1 l2 Hrs. revert acc. induction Hrs as [|a b l1 l2 Hab Hrs IH]; intros acc; [done|].
  simpl. rewrite (endpointStep_same_spec _ _ _ Hab). apply IH.
Qed.

(** the pass is idempotent: after a successful pass in which no link lost a bound
    endpoint, a second pass over the resulting links and the same nodes makes no API
    write and succeeds, whatever the API server would answer: one pass converges a
    namespace. *)
Theorem link_pass_idempotent `{FmtQuote} (set1 set2 : ConditionSetter) api1 api2 ns items nodeList :
  condition_set_stable set1 set2 →
  (∀ l, l ∈ items → LinkNamespace l = ns) → NoDup (LinkName <$> items) →
  (∀ l, l ∈ items → (resolveLinkEndpoints l (NodesByName nodeList)).2 = None) →
  passError (@Reconcile _ set1 api1 items nodeList) = None →
  let out := passLinks (@Reconcile _ set1 api1 items nodeList) in
  @Reconcile _ set2 api2 out nodeList = PassResult out [] None.
Proof.
  intros Hset Hns Hnd Hlife Herr out.
  destruct items as [|i items]; [done|]. set (all := i :: items) in *.
  pose proof (sorted_in_order ns all Hns Hnd) as Hord.
  pose proof (sort_by_strict LinkName all Hnd) as Hsorted.
  set (nodes := NodesByName nodeList) in *. set (ls := sort_by LinkName all) in *.
  set (conflicts := EndpointConflicts (LinksWithResolvedEndpoints ls nodes)).
  pose proof (newWireReservations_mirrors ls (in_order_NoDup ls Hord)) as Hm.
  assert (settled_ids nodes []) as Hempty by by intros ? []%elem_of_nil.
  change (passError (@reconcileLoop _ set1 api1 nodes conflicts (newWireReservations ls) ls) = None) in Herr.
  destruct (@reconcileLoop_spec _ set1 api1 nodes conflicts _ [] ls Hord Hm Hempty Herr) as [Hf Hsettled].
  change (passLinks _) with out in Hf, Hsettled.
  assert (in_order out) as Hord2.
  { unfold in_order. assert (linkKey <$> out = linkKey <$> ls) as ->; [|done].
    clear -Hf. induction Hf as [|a b l1 l2 Hab Hf IH]; [done|].
    rewrite !fmap_cons, IH. by rewrite (proj1 (same_spec_key _ _ Hab)). }
  assert (sort_by LinkName out = out) as Hsort.
  { apply sort_by_id, name_sorted_fmap. rewrite (names_same_spec _ _ Hf). by apply name_sorted_fmap. }
  assert (out ≠ []) as Hne.
  { intros Ho. rewrite Ho in Hf. apply Forall2_nil_inv_r in Hf.
    assert (length ls = length all) by (unfold ls; by rewrite sort_by_perm). by rewrite Hf in *. }
  unfold Reconcile. destruct out as [|o out'] eqn:Hout; [done|]. rewrite <- Hout in *.
  cbn zeta. rewrite Hsort. fold nodes.
  rewrite (conflicts_same_spec ls out nodes Hsorted Hf). fold conflicts.
  apply (@reconcileLoop_again _ set1 set2 api1 api2 nodes conflicts (newWireReservations ls) _ [] ls);
    try done.
  - intros l. unfold ls. rewrite sort_by_perm. apply Hlife.
  - change (passLinks _) with out. by apply newWireReservations_mirrors, in_order_NoDup.
Qed.

(** ** A concrete pass *)

Definition sample_quote : FmtQuote := λ s, "'" +:+ s +:+ "'".

(** Replaces the condition of the same type. *)
Definition sample_setter : ConditionSetter :=
  λ cs c, filter (λ x, ConditionType x ≠ ConditionType c) cs ++ [c].

Lemma sample_setter_stable : condition_set_stable sample_setter sample_setter.
Proof.
  intros cs c. unfold sample_setter. rewrite filter_app. f_equal.
  rewrite filter_cons_False by (intros Hne; by apply Hne). simpl. rewrite app_nil_r.
  rewrite list_filter_filter. apply list_filter_iff. tauto.
Qed.

Definition sample_api : apiAnswers := ApiAnswers (λ _, Deleted) (λ _, true).

Lemma link_pass_unique_ids_witness :
  let nodes := NodesByName sample_node_list in
  let out := passLinks (@Reconcile sample_quote sample_setter sample_api sample_namespace sample_node_list) in
  Forall2 same_spec (sort_by LinkName sample_namespace) out ∧
  (∀ l, l ∈ out → handled nodes l → 0 ≤ WireID (Status l) ≤ maxWireID) ∧
  (∀ l1 l2, l1 ∈ out → l2 ∈ out → handled nodes l1 → handled nodes l2 →
     WireID (Status l1) = WireID (Status l2) → WireID (Status l1) ≠ 0 →
     LinkName l1 = LinkName l2).
Proof.
  apply (@link_pass_unique_ids sample_quote sample_setter sample_api "lab").
  - intros l Hl. repeat (apply elem_of_cons in Hl as [->|Hl]; [done|]). by apply elem_of_nil in Hl.
  - apply (bool_decide_unpack _). vm_compute. exact I.
  - vm_compute. reflexivity.
Defined.

Lemma link_pass_idempotent_witness :
  let out := passLinks (@Reconcile sample_quote sample_setter sample_api sample_namespace sample_node_list) in
  WireID ∘ Status <$> out = [1; 3; 2] ∧
  @Reconcile sample_quote sample_setter (ApiAnswers (λ _, DeleteFailed) (λ _, false)) out sample_node_list
  = PassResult out [] None.
Proof.
  split; [vm_compute; reflexivity|].
  apply (@link_pass_idempotent sample_quote sample_setter sample_setter sample_api _ "lab").
  - apply sample_setter_stable.
  - intros l Hl. repeat (apply elem_of_cons in Hl as [->|Hl]; [done|]). by apply elem_of_nil in Hl.
  - apply (bool_decide_unpack _). vm_compute. exact I.
  - intros l Hl. repeat (apply elem_of_cons in Hl as [->|Hl]; [vm_compute; reflexivity|]).
    by apply elem_of_nil in Hl.
  - vm_compute. reflexivity.
Defined.
