(* ===== verification/TopologyRollout.v ===== *)
(** * Startup batches of a Topology

    Models [controllers/topology/rollout.go]: the admission of whole Pod groups in
    bounded batches.  The listed nodes and pods and the API server's answers to the
    patches are arguments; the released node names are listed in order. *)

From S2P Require Import Prelude Api Grouping.
Local Open Scope Z_scope.

(** ** Data *)


(** The fields of a Topology this file reads; [Rollout] is nil or a batch size. *)
Record rolloutTopology := RolloutTopology {
  TopologyUID : string;
  Rollout : option Z
}.

Record Pod := MkPod {
  PodDeleting : bool;
  PodAnnotations : gmap string string;
  PodCreated : Z;
  PodConditions : list (string * ConditionStatus)
}.

Inductive rolloutError :=
| errStartupHoldOwner (node : string)
| errPatchingNode (node : string)
| errListingPods.

(** ** Operations *)

Definition startupBatchSize (topology : rolloutTopology) : Z := default 0 (Rollout topology).

(** [node.Annotations[AnnotationStartupHold]]. *)
Definition startupHold (node : Node) : string :=
  default "" (NodeAnnotations node !! AnnotationStartupHold).

Definition held (node : Node) : bool := negb (bool_decide (startupHold node = "")).

Definition ownedBy (owners : list OwnerReference) (uid : string) : bool :=
  contains_func (λ ref, bool_decide (OwnerUID ref = uid)) owners.

Definition startupNodes (topology : rolloutTopology) (compiled : gset string) (items : list Node) :
    gmap string Node * bool :=
  foldl (λ acc node,
           if negb (bool_decide (NodeObjectName node ∈ compiled))
              || negb (ownedBy (NodeOwners node) (TopologyUID topology))
           then acc
           else (<[NodeObjectName node := node]> acc.1, acc.2 || held node))
        (∅, false) items.

Section rollout.
Context `{!RangeOrder string}.

(** One iteration of the loop over the nodes; [None] is the early return. *)
Definition groupStep (nodes : gmap string Node) (acc : option (gmap string (list string)))
    (entry : string * Node) : option (gmap string (list string)) :=
  match acc with
  | None => None
  | Some groups =>
      let primary := ResolvePrimaryNode nodes entry.1 in
      match nodes !! primary with
      | None => None
      | Some _ => Some (<[primary := default [] (groups !! primary) ++ [entry.1]]> groups)
      end
  end.

(** [None] is the code's [(nil, false)]: some group's primary is not listed. *)
Definition startupGroups (nodes : gmap string Node) : option (gmap string (list string)) :=
  foldl (groupStep nodes) (Some ∅) (range_list nodes).

Record classified := Classified {
  pending : list string;
  admitted : list string;
  active : bool
}.

Definition heldIn (nodes : gmap string Node) (name : string) : bool :=
  match nodes !! name with Some node => held node | None => false end.

Definition stoppedIn (nodes : gmap string Node) (name : string) : bool :=
  match nodes !! name with Some node => IsStopped node | None => false end.

Definition classifyStep (nodes : gmap string Node) (acc : classified)
    (entry : string * list string) : classified :=
  let '(primary, members) := entry in
  if stoppedIn nodes primary then acc
  else
    let active := active acc || contains_func (heldIn nodes) members in
    if heldIn nodes primary
    then Classified (pending acc ++ [primary]) (admitted acc) active
    else Classified (pending acc) (admitted acc ++ [primary]) active.

Definition classifyStartupGroups (nodes : gmap string Node) (groups : gmap string (list string)) :
    classified :=
  foldl (classifyStep nodes) (Classified [] [] false) (range_list groups).

(** The nodes after the release, and the names patched, in order. *)
Record released := Released {
  releasedNodes : gmap string Node;
  releasedNames : list string;
  releaseError : option rolloutError
}.

Definition releaseNode (topology : rolloutTopology) (patchOk : string → bool)
    (acc : released) (name : string) : released :=
  match releaseError acc with
  | Some _ => acc
  | None =>
      match releasedNodes acc !! name with
      | None => acc
      | Some node =>
          if negb (held node) then acc
          else if negb (bool_decide (startupHold node = TopologyUID topology))
          then Released (releasedNodes acc) (releasedNames acc) (Some (errStartupHoldOwner name))
          else if negb (patchOk name)
          then Released (releasedNodes acc) (releasedNames acc) (Some (errPatchingNode name))
          else Released
                 (<[name := node <| NodeAnnotations ::= delete AnnotationStartupHold |>]>
                    (releasedNodes acc))
                 (releasedNames acc ++ [name]) None
      end
  end.

Definition releaseStartupGroup (topology : rolloutTopology) (patchOk : string → bool)
    (acc : released) (members : list string) : released :=
  foldl (releaseNode topology patchOk) acc members.

(** The newest pod of each node UID that is not being deleted. *)
Definition newestPods (pods : list Pod) : gmap string Pod :=
  foldl (λ newest pod,
           if PodDeleting pod then newest
           else
             let uid := default "" (PodAnnotations pod !! NodeUIDAnnotation) in
             match newest !! uid with
             | None => <[uid := pod]> newest
             | Some prior => if PodCreated prior <? PodCreated pod then <[uid := pod]> newest
                             else newest
             end)
        ∅ pods.

Definition sandboxReady (pod : Pod) : bool :=
  contains_func (λ c, bool_decide (c.1 = PodReadyToStartContainers)
                      && bool_decide (c.2 = ConditionTrue)) (PodConditions pod).

(** [ready[string(nodes[primary].UID)]]. *)
Definition primaryReady (pods : list Pod) (nodes : gmap string Node) (primary : string) : bool :=
  match nodes !! primary with
  | None => false
  | Some node =>
      match newestPods pods !! NodeUID node with
      | None => false
      | Some pod => sandboxReady pod
      end
  end.

Definition admittedSandboxesReady (pods : list Pod) (nodes : gmap string Node)
    (admitted : list string) : bool :=
  forallb (primaryReady pods nodes) admitted.

(** Release the groups of the listed primaries, in order. *)
Definition releaseGroups (topology : rolloutTopology) (patchOk : string → bool)
    (groups : gmap string (list string)) (acc : released) (primaries : list string) : released :=
  foldl (λ acc primary, releaseStartupGroup topology patchOk acc (default [] (groups !! primary)))
        acc primaries.

(** Whether startup is still pending, and what was released.  [pods] is [None] when listing
    the Pods fails. *)
Definition advanceStartupBatch (topology : rolloutTopology) (compiled : gset string)
    (items : list Node) (pods : option (list Pod)) (patchOk : string → bool) : bool * released :=
  let '(nodes, anyHeld) := startupNodes topology compiled items in
  let unchanged := Released nodes [] None in
  if negb anyHeld then (false, unchanged)
  else if negb (bool_decide (size nodes = size compiled)) then (true, unchanged)
  else
    match startupGroups nodes with
    | None => (true, unchanged)
    | Some groups =>
        let c := classifyStartupGroups nodes groups in
        if negb (active c) then (false, unchanged)
        else
          let sorted := sort_strings (pending c) in
          let acc := releaseGroups topology patchOk groups unchanged (admitted c) in
          match releaseError acc with
          | Some _ => (true, acc)
          | None =>
              let batch := startupBatchSize topology in
              if 0 <? batch then
                match pods with
                | None => (true, Released (releasedNodes acc) (releasedNames acc) (Some errListingPods))
                | Some pods =>
                    if negb (admittedSandboxesReady pods (releasedNodes acc) (admitted c))
                    then (true, acc)
                    else
                      let sorted :=
                        if batch <? Z.of_nat (length sorted) then take (Z.to_nat batch) sorted
                        else sorted in
                      (true, releaseGroups topology patchOk groups acc sorted)
                end
              else (true, releaseGroups topology patchOk groups acc sorted)
          end
    end.

(** ** Lemmas: releases *)

Definition dropHold (node : Node) : Node :=
  if held node then node <| NodeAnnotations ::= delete AnnotationStartupHold |> else node.

Lemma held_dropHold node : held (dropHold node) = false.
Proof.
  unfold dropHold. destruct (held node) eqn:Hh; [|done].
  unfold held, startupHold. simpl. by rewrite lookup_delete_eq.
Qed.

Lemma dropHold_id node : held node = false → dropHold node = node.
Proof. unfold dropHold. by intros ->. Qed.

Lemma releaseNode_error topology ok acc names e :
  releaseError acc = Some e → releaseError (foldl (releaseNode topology ok) acc names) = Some e.
Proof.
  revert acc. induction names as [|n names IH]; intros acc He; [done|]. simpl. apply IH.
  unfold releaseNode. by rewrite He.
Qed.

(** A successful run of releases drops the holds of exactly the named nodes. *)
Lemma release_fold topology ok acc names :
  releaseError (foldl (releaseNode topology ok) acc names) = None →
  ∀ n, releasedNodes (foldl (releaseNode topology ok) acc names) !! n
       = (if bool_decide (n ∈ names) then dropHold else id) <$> releasedNodes acc !! n.
Proof.
  revert acc. induction names as [|m names IH]; intros acc; cbn [foldl].
  { intros _ n. rewrite bool_decide_eq_false_2 by set_solver. by rewrite option_fmap_id. }
  intros Herr n. rewrite (IH _ Herr). clear IH.
  assert (releaseError (releaseNode topology ok acc m) = None) as Hm.
  { destruct (releaseError (releaseNode topology ok acc m)) eqn:E; [|done].
    by rewrite (releaseNode_error _ _ _ _ _ E) in Herr. }
  assert (releasedNodes (releaseNode topology ok acc m) !! n
    = (if bool_decide (n = m) then dropHold else id) <$> releasedNodes acc !! n) as ->.
  { unfold releaseNode in *. destruct (releaseError acc) eqn:Ha; [congruence|].
    destruct (releasedNodes acc !! m) as [node|] eqn:Hn.
    - destruct (negb (held node)) eqn:Hh.
      + apply negb_true_iff in Hh. case_bool_decide; [subst|by rewrite option_fmap_id].
        rewrite Hn. simpl. by rewrite dropHold_id.
      + apply negb_false_iff in Hh. destruct (negb _); [done|]. destruct (negb _); [done|]. simpl.
        case_bool_decide; [subst; rewrite lookup_insert_eq, Hn; simpl; unfold dropHold; by rewrite Hh|].
        by rewrite lookup_insert_ne, option_fmap_id.
    - case_bool_decide; [subst; by rewrite Hn | by rewrite option_fmap_id]. }
  rewrite <- option_fmap_compose. destruct (releasedNodes acc !! n) as [node|]; [|done]. simpl.
  f_equal. unfold compose.
  destruct (decide (n = m)) as [->|Hne].
  - rewrite (bool_decide_eq_true_2 (m = m)), (bool_decide_eq_true_2 (m ∈ m :: names)) by (done || left).
    case_bool_decide; [|done]. by rewrite dropHold_id by apply held_dropHold.
  - rewrite (bool_decide_eq_false_2 (n = m)) by done. simpl.
    by rewrite (bool_decide_ext (n ∈ m :: names) (n ∈ names)) by set_solver.
Qed.

(** The nodes of the groups of some primaries. *)
Definition membersOf (groups : gmap string (list string)) (primaries : list string) : list string :=
  concat ((λ p, default [] (groups !! p)) <$> primaries).

Lemma releaseGroups_flat topology ok groups acc primaries :
  releaseGroups topology ok groups acc primaries
  = foldl (releaseNode topology ok) acc (membersOf groups primaries).
Proof.
  unfold releaseGroups, membersOf. revert acc.
  induction primaries as [|p ps IH]; intros acc; [done|]. simpl. rewrite IH, foldl_app. done.
Qed.

(** ** Lemmas: groups *)

Lemma startupGroups_fold nodes entries groups0 groups :
  foldl (groupStep nodes) (Some groups0) entries = Some groups →
  (∀ p, p ∈ dom groups0 → p ∈ dom nodes ∧ ∃ n, ResolvePrimaryNode nodes n = p) →
  (∀ p, p ∈ dom groups → p ∈ dom nodes ∧ ∃ n, ResolvePrimaryNode nodes n = p) ∧
  (∀ p n, n ∈ default [] (groups !! p) ↔
     n ∈ default [] (groups0 !! p) ∨ (n ∈ entries.*1 ∧ ResolvePrimaryNode nodes n = p)).
Proof.
  revert groups0. induction entries as [|[m node] entries IH]; intros groups0; cbn [foldl].
  { intros [= <-] Hd. split; [done|]. intros p n. simpl. set_solver. }
  unfold groupStep at 2. cbn [fst].
  destruct (nodes !! ResolvePrimaryNode nodes m) as [pn|] eqn:Hp.
  - intros Hf Hd. destruct (IH _ Hf) as [H1 H2].
    { intros p. rewrite dom_insert. intros [->%elem_of_singleton|?]%elem_of_union; [|auto].
      split; [apply elem_of_dom; eauto|eauto]. }
    split; [done|]. intros p n. rewrite H2. rewrite fmap_cons. cbn [fst].
    destruct (decide (ResolvePrimaryNode nodes m = p)) as [<-|Hne].
    + rewrite lookup_insert_eq. simpl. rewrite elem_of_app, list_elem_of_singleton, elem_of_cons.
      naive_solver.
    + rewrite lookup_insert_ne by done. rewrite elem_of_cons. naive_solver.
  - intros Hf. exfalso. clear -Hf. induction entries; simpl in *; [done|auto].
Qed.

(** A node is a member of its primary's group, and of no other. *)
Lemma startupGroups_spec nodes groups :
  startupGroups nodes = Some groups →
  (∀ p, p ∈ dom groups → p ∈ dom nodes ∧ ∃ n, ResolvePrimaryNode nodes n = p) ∧
  (∀ p n, n ∈ default [] (groups !! p) ↔ n ∈ dom nodes ∧ ResolvePrimaryNode nodes n = p).
Proof.
  intros Hg. destruct (startupGroups_fold nodes _ _ _ Hg) as [H1 H2].
  { intros p. rewrite dom_empty. set_solver. }
  split; [done|]. intros p n. rewrite H2, lookup_empty. simpl.
  assert (n ∈ (range_list nodes).*1 ↔ n ∈ dom nodes) as ->.
  { rewrite list_elem_of_fmap, elem_of_dom. split.
    - intros ([n' v] & -> & Hin%elem_of_range_list). simpl. eauto.
    - intros [v Hv]. exists (n, v). split; [done|]. by apply elem_of_range_list. }
  set_solver.
Qed.

Lemma classify_fold nodes entries acc :
  let c := foldl (classifyStep nodes) acc entries in
  pending c = pending acc ++ (filter (λ e, stoppedIn nodes e.1 = false ∧ heldIn nodes e.1 = true) entries).*1 ∧
  admitted c = admitted acc ++ (filter (λ e, stoppedIn nodes e.1 = false ∧ heldIn nodes e.1 = false) entries).*1 ∧
  active c = active acc || contains_func (λ e, negb (stoppedIn nodes e.1) && contains_func (heldIn nodes) e.2) entries.
Proof.
  cbv zeta. revert acc. induction entries as [|[p ms] entries IH]; intros acc; cbn [foldl].
  { simpl. by rewrite !app_nil_r, orb_false_r. }
  destruct (IH (classifyStep nodes acc (p, ms))) as (H1 & H2 & H3). rewrite H1, H2, H3.
  rewrite !filter_cons. unfold classifyStep. simpl.
  destruct (stoppedIn nodes p) eqn:Hs; simpl.
  { done. }
  destruct (heldIn nodes p) eqn:Hh; simpl; by rewrite <- app_assoc, orb_assoc.
Qed.

Lemma classify_spec nodes groups :
  let c := classifyStartupGroups nodes groups in
  (∀ p, p ∈ pending c ↔ p ∈ dom groups ∧ stoppedIn nodes p = false ∧ heldIn nodes p = true) ∧
  (∀ p, p ∈ admitted c ↔ p ∈ dom groups ∧ stoppedIn nodes p = false ∧ heldIn nodes p = false) ∧
  (active c = false → ∀ p n, p ∈ dom groups → stoppedIn nodes p = false →
     n ∈ default [] (groups !! p) → heldIn nodes n = false) ∧
  NoDup (pending c).
Proof.
  unfold classifyStartupGroups. destruct (classify_fold nodes (range_list groups) (Classified [] [] false))
    as (H1 & H2 & H3). simpl in *. rewrite H1, H2, H3. split_and!.
  - intros p. rewrite list_elem_of_fmap. setoid_rewrite list_elem_of_filter. split.
    + intros ([p' ms] & -> & [Hf Hin%elem_of_range_list]). split; [apply elem_of_dom; eauto|done].
    + intros [[ms Hms]%elem_of_dom ?]. exists (p, ms). split; [done|]. by rewrite elem_of_range_list.
  - intros p. rewrite list_elem_of_fmap. setoid_rewrite list_elem_of_filter. split.
    + intros ([p' ms] & -> & [Hf Hin%elem_of_range_list]). split; [apply elem_of_dom; eauto|done].
    + intros [[ms Hms]%elem_of_dom ?]. exists (p, ms). split; [done|]. by rewrite elem_of_range_list.
  - rewrite contains_func_false. intros Hall p n [ms Hms]%elem_of_dom Hs Hn.
    specialize (Hall (p, ms)). rewrite elem_of_range_list in Hall. specialize (Hall Hms).
    simpl in Hall. rewrite Hs in Hall. simpl in Hall. rewrite Hms in Hn. simpl in Hn.
    by apply (proj1 (contains_func_false _ _) Hall).
  - apply NoDup_fmap_filter, NoDup_range_keys.
Qed.

(** ** The contract *)

Lemma heldIn_release topology ok acc names n :
  releaseError (foldl (releaseNode topology ok) acc names) = None →
  heldIn (releasedNodes (foldl (releaseNode topology ok) acc names)) n
  = negb (bool_decide (n ∈ names)) && heldIn (releasedNodes acc) n.
Proof.
  intros Herr. unfold heldIn. rewrite (release_fold _ _ _ _ Herr).
  destruct (releasedNodes acc !! n) as [node|]; simpl; [|by rewrite andb_false_r].
  case_bool_decide; simpl; [apply held_dropHold|done].
Qed.

(** The admitted part of the pending primaries is a prefix of the sorted list. *)
Definition batchOf (topology : rolloutTopology) (sorted : list string) : list string :=
  if 0 <? startupBatchSize topology then take (Z.to_nat (startupBatchSize topology)) sorted
  else sorted.

(** The holds of the members of [primaries]' groups are dropped, nothing else. *)
Definition released_for (nodes : gmap string Node) (groups : gmap string (list string))
    (primaries : list string) (after : gmap string Node) : Prop :=
  ∀ n, after !! n
       = (if bool_decide (n ∈ membersOf groups primaries) then dropHold else id) <$> nodes !! n.

Lemma releaseGroups_for topology ok nodes groups primaries :
  let out := releaseGroups topology ok groups (Released nodes [] None) primaries in
  releaseError out = None → released_for nodes groups primaries (releasedNodes out).
Proof. cbv zeta. rewrite releaseGroups_flat. intros Herr n. by rewrite (release_fold _ _ _ _ Herr). Qed.

Lemma releaseGroups_app topology ok groups acc l1 l2 :
  releaseGroups topology ok groups acc (l1 ++ l2)
  = releaseGroups topology ok groups (releaseGroups topology ok groups acc l1) l2.
Proof. unfold releaseGroups. apply foldl_app. Qed.

(** Releasing holds does not change which sandboxes are ready. *)
Lemma ready_released pods nodes groups primaries after ps :
  released_for nodes groups primaries after →
  admittedSandboxesReady pods after ps = admittedSandboxesReady pods nodes ps.
Proof.
  intros Hrel. unfold admittedSandboxesReady. induction ps as [|p ps IH]; [done|]. simpl.
  rewrite IH. f_equal. unfold primaryReady. rewrite Hrel.
  destruct (nodes !! p) as [node|]; [|done]. simpl.
  case_bool_decide; [unfold dropHold; by destruct (held node)|done].
Qed.

(** What one call does when the inventory is complete, on every branch. *)
Lemma advance_complete topology compiled items pods ok nodes groups still out :
  startupNodes topology compiled items = (nodes, true) → size nodes = size compiled →
  startupGroups nodes = Some groups →
  advanceStartupBatch topology compiled items pods ok = (still, out) →
  releaseError out = None →
  let c := classifyStartupGroups nodes groups in
  ∃ primaries, released_for nodes groups primaries (releasedNodes out) ∧
    ((active c = false ∧ primaries = []) ∨
     (primaries = admitted c ∧ 0 < startupBatchSize topology) ∨
     (primaries = admitted c ++ batchOf topology (sort_strings (pending c)) ∧
      (0 < startupBatchSize topology →
       ∃ listed, pods = Some listed ∧ admittedSandboxesReady listed nodes (admitted c) = true))).
Proof.
  intros Hn Hsize Hg. unfold advanceStartupBatch. rewrite Hn. simpl.
  rewrite bool_decide_eq_true_2 by done. simpl. rewrite Hg.
  set (c := classifyStartupGroups nodes groups).
  destruct (active c) eqn:Hact; simpl.
  2: { intros [= <- <-] _. exists []. split; [|by left]. intros n.
       rewrite bool_decide_eq_false_2 by (unfold membersOf; simpl; set_solver).
       by rewrite option_fmap_id. }
  pose proof (releaseGroups_for topology ok nodes groups (admitted c)) as Hadm.
  destruct (releaseError (releaseGroups topology ok groups (Released nodes [] None) (admitted c))) eqn:He.
  { intros [= <- <-]. congruence. }
  specialize (Hadm He).
  unfold batchOf. destruct (0 <? startupBatchSize topology) eqn:Hb; bool_to_prop.
  - destruct pods as [pods|]; [|by intros [= <- <-]].
    rewrite (ready_released pods nodes groups (admitted c) _ _ Hadm).
    destruct (admittedSandboxesReady pods nodes (admitted c)) eqn:Hready; simpl.
    2: { intros [= <- <-] _. exists (admitted c). split; [done|]. right. left. done. }
    set (batch := if _ <? _ then _ else _).
    assert (batch = take (Z.to_nat (startupBatchSize topology)) (sort_strings (pending c))) as ->.
    { unfold batch. destruct (_ <? _) eqn:Hlen; [done|]. bool_to_prop. rewrite take_ge; [done|lia]. }
    rewrite <- releaseGroups_app. intros [= <- <-] Herr. eexists. split; [by apply releaseGroups_for|].
    right. right. split; [done|]. by exists pods.
  - rewrite <- releaseGroups_app. intros [= <- <-] Herr. eexists. split; [by apply releaseGroups_for|].
    right. right. split; [done|]. lia.
Qed.

Lemma elem_of_membersOf groups primaries n :
  n ∈ membersOf groups primaries ↔ ∃ p, p ∈ primaries ∧ n ∈ default [] (groups !! p).
Proof.
  unfold membersOf. induction primaries as [|q ps IH]; simpl.
  - split; [by intros []%elem_of_nil|]. by intros (p & []%elem_of_nil & _).
  - rewrite elem_of_app, IH. setoid_rewrite elem_of_cons. naive_solver.
Qed.
End rollout.

(** A primary that [before] held and [after] released. *)
Definition newlyAdmitted (before after : gmap string Node) (primaries : list string) : list string :=
  filter (λ p, heldIn before p = true ∧ heldIn after p = false) primaries.

(** ** Which groups one call admits *)

Section admission.
Context `{!RangeOrder string}.
Variables (topology : rolloutTopology) (nodes after : gmap string Node)
  (groups : gmap string (list string)) (prims : list string).
Hypotheses (Hg : startupGroups nodes = Some groups) (Hac : acyclic nodes)
  (Hrel : released_for nodes groups prims after).
Let c := classifyStartupGroups nodes groups.
Let sorted := sort_strings (pending c).

Lemma primary_self p : p ∈ dom groups → ResolvePrimaryNode nodes p = p.
Proof.
  intros Hp. destruct (startupGroups_spec nodes groups Hg) as [Hdom _].
  destruct (Hdom p Hp) as [_ (n & <-)].
  destruct (ResolvePrimaryNode_spec nodes n) as [_ [Hroot|Hcyc]]; [|by destruct (Hac _ Hcyc)].
  by apply ResolvePrimaryNode_root.
Qed.

(** A node is released with the group of its primary, and only then. *)
Lemma held_after n :
  heldIn after n
  = negb (bool_decide (n ∈ dom nodes ∧ ResolvePrimaryNode nodes n ∈ prims)) && heldIn nodes n.
Proof.
  destruct (startupGroups_spec nodes groups Hg) as [_ Hmem]. unfold heldIn. rewrite Hrel.
  rewrite (bool_decide_ext _ (n ∈ dom nodes ∧ ResolvePrimaryNode nodes n ∈ prims)).
  - destruct (nodes !! n) as [node|]; simpl; [|by rewrite andb_false_r].
    case_bool_decide; simpl; [apply held_dropHold|done].
  - rewrite elem_of_membersOf. setoid_rewrite Hmem. naive_solver.
Qed.

Lemma elem_of_pending p : p ∈ sorted → heldIn nodes p = true ∧ p ∈ pending c ∧ p ∉ admitted c.
Proof.
  destruct (classify_spec nodes groups) as (Hpend & Hadm & _). unfold sorted, c in *.
  rewrite sort_strings_perm. intros Hp. split_and!; [by apply Hpend|done|].
  intros (_ & _ & Hh)%Hadm. apply Hpend in Hp as (_ & _ & Hh'). congruence.
Qed.

Lemma newlyAdmitted_prims : newlyAdmitted nodes after sorted = filter (λ p, p ∈ prims) sorted.
Proof.
  destruct (startupGroups_spec nodes groups Hg) as [Hdom _].
  destruct (classify_spec nodes groups) as (Hpend & _). apply list_filter_ext_in. intros p Hp.
  destruct (elem_of_pending p Hp) as (Hh & Hin & _). apply Hpend in Hin as (Hd & _).
  rewrite held_after, Hh, andb_true_r, (primary_self p Hd).
  destruct (Hdom p Hd) as [? _]. case_bool_decide as Hb; cbn [negb]; naive_solver.
Qed.

(** The newly admitted groups are the first of the batch. *)
Lemma newlyAdmitted_batch :
  0 < startupBatchSize topology → prims = admitted c ++ batchOf topology sorted →
  newlyAdmitted nodes after sorted = take (Z.to_nat (startupBatchSize topology)) sorted.
Proof.
  intros Hb Hprims. rewrite newlyAdmitted_prims, Hprims. unfold batchOf.
  rewrite (proj2 (Z.ltb_lt _ _) Hb). apply list_filter_prefix.
  - destruct (classify_spec nodes groups) as (_ & _ & _ & Hnd). unfold sorted. by rewrite sort_strings_perm.
  - intros p Hp. rewrite elem_of_app. split; [|tauto]. intros [Ha|?]; [|done].
    by destruct (elem_of_pending p Hp) as (_ & _ & []).
Qed.

(** Only running groups are released. *)
Lemma prims_running p :
  (prims = [] ∨ prims = admitted c ∨ prims = admitted c ++ batchOf topology sorted) →
  p ∈ prims → stoppedIn nodes p = false.
Proof.
  destruct (classify_spec nodes groups) as (Hpend & Hadm & _). intros Hcase Hp.
  assert (p ∈ admitted c ∨ p ∈ pending c) as [(_ & ? & _)%Hadm|(_ & ? & _)%Hpend]; [|done|done].
  destruct Hcase as [Hc|[Hc|Hc]]; rewrite Hc in Hp; [by apply elem_of_nil in Hp|by left|].
  apply elem_of_app in Hp as [?|Hin]; [by left|right]. apply elem_of_pending. unfold batchOf in Hin.
  destruct (_ <? _); [|done]. apply elem_of_take in Hin as (? & Hin & _). by apply list_elem_of_lookup_2 in Hin.
Qed.
End admission.

(** C38: startup batching, with the complete inventory listed (every compiled node, every
    group's primary) and no failed patch or list.  With a batch size [b > 0], at most [b] groups
    are newly admitted per call, they are the lexically first held ones, and none is
    admitted unless every group admitted before has a network-ready sandbox; with [b = 0]
    every running group is admitted.  Admission is by whole groups: whenever the primary
    of a running group is released, so is every member; and stopped groups are never
    touched. *)
Theorem startup_batch_admission `{!RangeOrder string} topology compiled items pods ok nodes groups
    still out :
  startupNodes topology compiled items = (nodes, true) → size nodes = size compiled →
  startupGroups nodes = Some groups → acyclic nodes →
  advanceStartupBatch topology compiled items pods ok = (still, out) →
  releaseError out = None → 0 ≤ startupBatchSize topology →
  let c := classifyStartupGroups nodes groups in
  let after := releasedNodes out in
  let fresh := newlyAdmitted nodes after (sort_strings (pending c)) in
  (0 < startupBatchSize topology →
     Z.of_nat (length fresh) ≤ startupBatchSize topology ∧
     fresh = take (length fresh) (sort_strings (pending c)) ∧
     (fresh ≠ [] → ∃ listed, pods = Some listed ∧ ∀ p, p ∈ admitted c → primaryReady listed nodes p = true)) ∧
  (startupBatchSize topology = 0 → active c = true → fresh = sort_strings (pending c)) ∧
  (∀ p n, p ∈ dom groups → n ∈ default [] (groups !! p) →
     (stoppedIn nodes p = true → after !! n = nodes !! n) ∧
     (stoppedIn nodes p = false → heldIn after p = false → heldIn after n = false)).
Proof.
  intros Hn Hsize Hg Hac Hadv Herr Hpos c after fresh.
  destruct (startupGroups_spec nodes groups Hg) as [_ Hmem].
  destruct (classify_spec nodes groups) as (_ & Hadm & Hact & _). fold c in Hadm, Hact.
  destruct (advance_complete _ _ _ pods ok _ _ _ _ Hn Hsize Hg Hadv Herr) as (prims & Hrel & Hcase).
  fold after c in Hrel, Hcase.
  pose proof (newlyAdmitted_prims nodes after groups prims Hg Hac Hrel) as Hfresh.
  pose proof (λ p, elem_of_pending nodes groups p) as Hpend. fold c fresh in Hfresh. fold c in Hpend.
  split_and!.
  - intros Hb. destruct Hcase as [[_ Hp]|[(Hp & _)|(Hp & Hready)]].
    + rewrite Hfresh, Hp, list_filter_none by set_solver. simpl. split_and!; [lia|done|done].
    + rewrite Hfresh, Hp, list_filter_none by (intros p (_ & _ & ?)%Hpend; done).
      simpl. split_and!; [lia|done|done].
    + pose proof (newlyAdmitted_batch topology nodes after groups prims Hg Hac Hrel Hb Hp) as Hbatch.
      fold c fresh in Hbatch. rewrite Hbatch, length_take. split_and!; [lia| |].
      * destruct (Nat.min_spec (Z.to_nat (startupBatchSize topology)) (length (sort_strings (pending c))))
          as [[_ ->]|[? ->]]; [done|]. by rewrite !take_ge by lia.
      * intros _. destruct (Hready Hb) as (listed & -> & Hr). exists listed. split; [done|]. intros p Hpa.
        unfold admittedSandboxesReady in Hr. rewrite forallb_forall in Hr. by apply Hr, list_elem_of_In.
  - intros Hb Ha. destruct Hcase as [[Hna _]|[(_ & Hb')|(Hp & _)]]; [congruence|lia|].
    rewrite Hfresh, Hp. apply list_filter_all. intros p Hin. apply elem_of_app. right.
    unfold batchOf. by rewrite (proj2 (Z.ltb_ge _ _)) by lia.
  - intros p n Hp Hnp. apply Hmem in Hnp as [Hnd' Hres]. split.
    + intros Hstop. rewrite Hrel. rewrite bool_decide_eq_false_2; [by rewrite option_fmap_id|].
      rewrite elem_of_membersOf. intros (p' & Hp' & [_ Hres']%Hmem).
      rewrite Hres in Hres'. subst p'. rewrite (prims_running topology nodes groups prims p) in Hstop;
        [done| |done]. destruct Hcase as [[_ ?]|[(? & _)|(? & _)]]; auto.
    + intros Hrun Hph. rewrite (held_after nodes after groups prims Hg Hrel) in Hph |- *. rewrite Hres.
      rewrite (primary_self nodes groups Hg Hac p Hp) in Hph. destruct (decide (p ∈ prims)) as [Hin|Hnin].
      * by rewrite bool_decide_eq_true_2.
      * rewrite bool_decide_eq_false_2 in Hph by tauto. simpl in Hph.
        assert (p ∈ admitted c) as Hpa by by apply Hadm.
        destruct Hcase as [[Hna _]|[(Hc & _)|(Hc & _)]];
          [|by rewrite Hc in Hnin|exfalso; apply Hnin; rewrite Hc; apply elem_of_app; by left].
        rewrite (Hact Hna p n Hp Hrun); [by rewrite andb_false_r|]. by apply Hmem.
Qed.

(** Two held groups, [a] (with [a2]) and [b], and a batch of one: [a] is admitted. *)
Definition sample_held_node (name mode : string) : Node :=
  BuildNode name ("uid-" +:+ name) "1" ∅ {[ AnnotationStartupHold := "topo" ]}
    [MkOwnerReference "Topology" "lab" "topo" true] mode "" "" "".

Definition sample_items : list Node :=
  [sample_held_node "a" ""; sample_held_node "a2" "container:a"; sample_held_node "b" ""].

Definition sample_topology : rolloutTopology := RolloutTopology "topo" (Some 1).

#[local] Instance sample_range_string : RangeOrder string := canonical_range.

Definition sample_startup : gmap string Node := NodesByName sample_items.
Definition sample_groups : gmap string (list string) :=
  default ∅ (startupGroups sample_startup).
Definition sample_advance : bool * released :=
  advanceStartupBatch sample_topology {[ "a"; "a2"; "b" ]} sample_items (Some []) (λ _, true).

Lemma sample_startup_acyclic : acyclic sample_startup.
Proof.
  assert (∀ x y, refers sample_startup x y → x = "a2" ∧ y = "a") as Hrefers.
  { intros x y (node & Hn & Hp & Hne). unfold sample_startup, NodesByName in Hn. simpl in Hn.
    rewrite !lookup_insert_Some, lookup_empty in Hn.
    destruct Hn as [[<- <-]|(_ & [[<- <-]|(_ & [[<- <-]|[_ ?]])])]; vm_compute in Hp; by subst. }
  intros x Hcyc. assert (x = "a2") as ->.
  { inversion Hcyc as [? ? H|? ? ? H]; by apply Hrefers in H as [-> _]. }
  inversion Hcyc as [? ? H|? ? ? H H2]; subst; apply Hrefers in H as [_ Hb]; [done|]. subst.
  inversion H2 as [? ? H|? ? ? H]; by apply Hrefers in H as [? _].
Qed.

Lemma startup_batch_admission_witness :
  let fresh := newlyAdmitted sample_startup (releasedNodes sample_advance.2) ["a"; "b"] in
  fresh = ["a"] ∧ Z.of_nat (length fresh) ≤ 1 ∧ releasedNames sample_advance.2 = ["a2"; "a"].
Proof.
  split; [vm_compute; reflexivity|]. split; [|vm_compute; reflexivity].
  destruct (startup_batch_admission sample_topology {[ "a"; "a2"; "b" ]} sample_items (Some []) (λ _, true)
    sample_startup sample_groups true sample_advance.2) as [Hbatch _].
  - vm_compute. reflexivity.
  - vm_compute. reflexivity.
  - vm_compute. reflexivity.
  - apply sample_startup_acyclic.
  - vm_compute. reflexivity.
  - vm_compute. reflexivity.
  - vm_compute. discriminate.
  - destruct Hbatch as [Hlen _]; [vm_compute; reflexivity|].
    replace ["a"; "b"] with (sort_strings (pending (classifyStartupGroups sample_startup sample_groups)))
      by (vm_compute; reflexivity).
    exact Hlen.
Defined.
