(* ===== verification/TopologyEmitted.v ===== *)
(** * Enforcing a Topology's emitted objects

    Models [controllers/topology/reconcile.go] after compilation: which rendered
    children conflict with foreign objects, and how Nodes, Links and NodeProfiles are
    created, updated and pruned.  The generic [reconcileEmitted] is modelled over the
    interface [EmittedKind]; its laws, which the convergence theorem needs, are proved
    for the three kinds. *)

From S2P Require Import Prelude Api Grouping TopologyRollout.
Local Open Scope Z_scope.

(** ** Owner references *)

(** The fields of a Topology this file reads. *)
Record emittingTopology := EmittingTopology {
  TopologyName : string;
  TopologyRolloutPart : rolloutTopology
}.

Definition generatedForTopology (labels : gmap string string) (owners : list OwnerReference)
    (topology : emittingTopology) : bool :=
  if ownedBy owners (TopologyUID (TopologyRolloutPart topology)) then true
  else bool_decide (default "" (labels !! LabelApp) = Clabernetes)
       && bool_decide (default "" (labels !! LabelTopologyOwner) = TopologyName topology).

Definition ownerReferencesConform (existing rendered : list OwnerReference) : bool :=
  forallb (λ expected, contains_func (λ ref, bool_decide (ref = expected)) existing) rendered.

(** ** Emitted kinds *)

(** What [reconcileEmitted] uses of an object kind: its accessors, whether an existing
    object conforms to a rendered one, and what is carried over from the existing one
    when it does not. *)
Class EmittedKind (T : Type) : Type := {
  objName : T → string;
  setResourceVersion : T → T → T;
  conforms : T → T → bool;
  carryOver : T → T → T
}.

(** What the controller relies on, for the objects the compiler renders: an object
    conforms to itself, an updated object conforms to what it was rendered from, and
    updating keeps the name. *)
Class LawfulKind (T : Type) `{EmittedKind T} (compiled : T → Prop) : Prop := {
  conforms_self : ∀ o, conforms o o = true;
  conforms_updated : ∀ e o, compiled o → conforms (setResourceVersion e (carryOver e o)) o = true;
  name_updated : ∀ e o, objName (setResourceVersion e (carryOver e o)) = objName o
}.

(** The metadata part of [emittedObjectConforms]. *)
Definition metadataConforms (existingLabels renderedLabels existingAnnotations renderedAnnotations :
    gmap string string) (existingOwners renderedOwners : list OwnerReference) : bool :=
  ownerReferencesConform existingOwners renderedOwners
  && ExistingMapStringStringContainsAllExpectedKeyValues existingLabels renderedLabels
  && ExistingMapStringStringContainsAllExpectedKeyValues existingAnnotations renderedAnnotations.

(** [specConforms] compares the JSON of the specs: here the fields modelled one by one
    and the JSON of the others. *)
Definition nodeSpecConforms (existing rendered : Node) : bool :=
  bool_decide (NetworkMode existing = NetworkMode rendered)
  && bool_decide (RunState existing = RunState rendered)
  && bool_decide (NodeSpecRest existing = NodeSpecRest rendered).

Definition emittedNodeConforms (existing rendered : Node) : bool :=
  let normalized := rendered <| RunState := RunState existing |> in
  nodeSpecConforms existing normalized
  && metadataConforms (NodeLabels existing) (NodeLabels normalized) (NodeAnnotations existing)
       (NodeAnnotations normalized) (NodeOwners existing) (NodeOwners normalized).

Definition RestartRequestedAnnotation : string := "c9s.run/restart-requested".
Definition DeviceStateResetAnnotation : string := "c9s.run/device-state-reset".

Definition operationalNodeAnnotations : list string :=
  [RestartRequestedAnnotation; DeviceStateResetAnnotation].

Definition carryOverNode (existing rendered : Node) : Node :=
  let rendered := rendered <| Readiness := Readiness existing |> <| RunState := RunState existing |> in
  foldl (λ rendered key,
           match NodeAnnotations existing !! key with
           | None => rendered
           | Some value => rendered <| NodeAnnotations ::= <[key := value]> |>
           end)
        rendered operationalNodeAnnotations.

#[export] Instance node_kind : EmittedKind Node := {|
  objName := NodeObjectName;
  setResourceVersion := λ e o, o <| NodeResourceVersion := NodeResourceVersion e |>;
  conforms := emittedNodeConforms;
  carryOver := carryOverNode
|}.

Definition emittedLinkConforms (existing rendered : Link) : bool :=
  bool_decide (EndpointA existing = EndpointA rendered)
  && bool_decide (EndpointB existing = EndpointB rendered)
  && bool_decide (LinkMTU existing = LinkMTU rendered)
  && metadataConforms (LinkLabels existing) (LinkLabels rendered) (LinkAnnotations existing)
       (LinkAnnotations rendered) (LinkOwners existing) (LinkOwners rendered).

#[export] Instance link_kind : EmittedKind Link := {|
  objName := LinkName;
  setResourceVersion := λ e o, o <| LinkResourceVersion := LinkResourceVersion e |>;
  conforms := emittedLinkConforms;
  carryOver := λ e o, o <| Status := Status e |>
|}.

Definition emittedProfileConforms (existing rendered : NodeProfile) : bool :=
  bool_decide (ProfileSpec existing = ProfileSpec rendered)
  && metadataConforms (ProfileLabels existing) (ProfileLabels rendered)
       (ProfileAnnotations existing) (ProfileAnnotations rendered)
       (ProfileOwners existing) (ProfileOwners rendered).

#[export] Instance profile_kind : EmittedKind NodeProfile := {|
  objName := ProfileName;
  setResourceVersion := λ e o, o <| ProfileResourceVersion := ProfileResourceVersion e |>;
  conforms := emittedProfileConforms;
  carryOver := λ _ o, o
|}.

(** ** The generic enforcement loop *)

Inductive emittedWrite (T : Type) : Type :=
| CreateObject (o : T)
| UpdateObject (o : T)
| DeleteObject (name : string).
Arguments CreateObject {T} o.
Arguments UpdateObject {T} o.
Arguments DeleteObject {T} name.

(** The API server's answer to one write. *)
Inductive writeAnswer := WriteOk | WriteNotFound | WriteFailed.

Inductive emitError :=
| errControllerReference (name : string)
| errWrite (name : string).

Section emitted.
Context {T : Type} `{EmittedKind T} `{!RangeOrder string}.
(** [controllerutil.SetControllerReference] and the API server's answers, by name. *)
Variables (setController : T → option T) (answer : string → writeAnswer).

Record emitted := Emitted {
  emittedWrites : list (emittedWrite T);
  emittedError : option emitError
}.

(** The loop over the rendered objects: its writes, the existing objects left, and the
    error that ended it. *)
Fixpoint emitLoop (rendered : list T) (existing : gmap string T) :
    list (emittedWrite T) * gmap string T * option emitError :=
  match rendered with
  | [] => ([], existing, None)
  | o :: rendered =>
      match setController o with
      | None => ([], existing, Some (errControllerReference (objName o)))
      | Some o =>
          match existing !! objName o with
          | None =>
              match answer (objName o) with
              | WriteOk =>
                  let '(ws, kept, e) := emitLoop rendered existing in
                  (CreateObject o :: ws, kept, e)
              | _ => ([CreateObject o], existing, Some (errWrite (objName o)))
              end
          | Some current =>
              let existing := delete (objName o) existing in
              if conforms current o then emitLoop rendered existing
              else
                let o' := setResourceVersion current (carryOver current o) in
                match answer (objName o) with
                | WriteOk =>
                    let '(ws, kept, e) := emitLoop rendered existing in
                    (UpdateObject o' :: ws, kept, e)
                | _ => ([UpdateObject o'], existing, Some (errWrite (objName o)))
                end
          end
      end
  end.

Fixpoint pruneLoop (extra : list (string * T)) : list (emittedWrite T) * option emitError :=
  match extra with
  | [] => ([], None)
  | (_, o) :: extra =>
      match answer (objName o) with
      | WriteFailed => ([DeleteObject (objName o)], Some (errWrite (objName o)))
      | _ => let '(ws, e) := pruneLoop extra in (DeleteObject (objName o) :: ws, e)
      end
  end.

Definition reconcileEmitted (rendered : list T) (existing : gmap string T) : emitted :=
  match emitLoop rendered existing with
  | (ws, _, Some e) => Emitted ws (Some e)
  | (ws, kept, None) =>
      let '(ws', e) := pruneLoop (range_list kept) in
      Emitted (ws ++ ws') e
  end.

(** The objects on the server after the writes. *)
Definition applyWrite (store : gmap string T) (w : emittedWrite T) : gmap string T :=
  match w with
  | CreateObject o | UpdateObject o => <[objName o := o]> store
  | DeleteObject name => delete name store
  end.

(** What the enforcement means to leave on the server for one rendered object. *)
Definition enforced (existing : gmap string T) (o : T) : T :=
  match existing !! objName o with
  | None => o
  | Some current =>
      if conforms current o then current else setResourceVersion current (carryOver current o)
  end.
End emitted.
Arguments emitted T : clear implicits.

(** ** Enforcing each kind *)


(** [existing] of the three callers: the listed objects generated for the topology. *)
Definition generatedObjects {T} `{EmittedKind T} (labels : T → gmap string string)
    (owners : T → list OwnerReference) (topology : emittingTopology) (items : list T) : gmap string T :=
  foldl (λ existing o,
           if negb (generatedForTopology (labels o) (owners o) topology) then existing
           else <[objName o := o]> existing)
        ∅ items.

(** One iteration of [reconcileNodes]' loop: the startup annotations of a rendered Node
    come from the existing Node, or hold a new one when startup is batched. *)
Definition prepareNode (topology : emittingTopology) (existing : gmap string Node) (node : Node) : Node :=
  let node := node <| NodeAnnotations ::= delete AnnotationStartupHold |> in
  let node := node <| NodeAnnotations ::= delete AnnotationStartupAdmitted |> in
  match existing !! NodeObjectName node with
  | Some current =>
      let admission := default "" (NodeAnnotations current !! AnnotationStartupAdmitted) in
      let node := if bool_decide (admission = "") then node
                  else node <| NodeAnnotations ::= <[AnnotationStartupAdmitted := admission]> |> in
      let hold := startupHold current in
      if bool_decide (hold = "") then node
      else node <| NodeAnnotations ::= <[AnnotationStartupHold := hold]> |>
  | None =>
      if Z.ltb 0 (startupBatchSize (TopologyRolloutPart topology))
      then node <| NodeAnnotations ::=
             <[AnnotationStartupHold := TopologyUID (TopologyRolloutPart topology)]> |>
      else node
  end.

Record renderedChildren := RenderedChildren {
  renderedProfiles : list NodeProfile;
  renderedLinks : list Link;
  renderedNodes : list Node
}.

(** The objects of the topology's namespace. *)
Record namespaceObjects := NamespaceObjects {
  listedProfiles : list NodeProfile;
  listedLinks : list Link;
  listedNodes : list Node
}.

Section kinds.
Context `{!RangeOrder string}.
Variables (topology : emittingTopology).

Definition reconcileNodes (setController : Node → option Node) (answer : string → writeAnswer)
    (items rendered : list Node) : emitted Node :=
  let existing := generatedObjects NodeLabels NodeOwners topology items in
  reconcileEmitted setController answer (prepareNode topology existing <$> rendered) existing.

Definition reconcileLinks (setController : Link → option Link) (answer : string → writeAnswer)
    (items rendered : list Link) : emitted Link :=
  reconcileEmitted setController answer rendered
    (generatedObjects LinkLabels LinkOwners topology items).

Definition reconcileNodeProfiles (setController : NodeProfile → option NodeProfile)
    (answer : string → writeAnswer) (items rendered : list NodeProfile) : emitted NodeProfile :=
  reconcileEmitted setController answer rendered
    (generatedObjects ProfileLabels ProfileOwners topology items).
End kinds.

(** ** Conflicting children *)

(** The metadata of one listed object. *)
Definition objectMetadata : Type := gmap string string * list OwnerReference.

Definition conflictName (kind name : string) : string := kind +:+ "/" +:+ name.

(** [renderedChildren.all], by kind and name. *)
Definition all (rendered : renderedChildren) : list (string * string) :=
  ((λ p, ("nodeprofile", ProfileName p)) <$> renderedProfiles rendered)
  ++ ((λ l, ("link", LinkName l)) <$> renderedLinks rendered)
  ++ ((λ n, ("node", NodeObjectName n)) <$> renderedNodes rendered).

(** One inventory of the code's table: nothing is listed for a kind without rendered
    objects; [None] is a failed list. *)
Definition listInventory {A B} (kind : string) (name : A → string) (meta : A → objectMetadata)
    (rendered : list B) (items : option (list A)) (existing : gmap string objectMetadata) :
    option (gmap string objectMetadata) :=
  if bool_decide (length rendered = 0%nat) then Some existing
  else match items with
       | None => None
       | Some items =>
           Some (foldl (λ existing o, <[conflictName kind (name o) := meta o]> existing) existing items)
       end.

Definition conflictStep (topology : emittingTopology) (existing : gmap string objectMetadata)
    (acc : gset string * gset string) (child : string * string) : gset string * gset string :=
  let '(seen, conflictSet) := acc in
  let name := conflictName child.1 child.2 in
  if bool_decide (name ∈ seen) then (seen, {[name]} ∪ conflictSet)
  else
    let seen := {[name]} ∪ seen in
    match existing !! name with
    | Some object =>
        if negb (generatedForTopology object.1 object.2 topology) then (seen, {[name]} ∪ conflictSet)
        else (seen, conflictSet)
    | None => (seen, conflictSet)
    end.

(** The three lists, in the code's order; [None] is a failed list. *)
Definition findChildResourceConflicts (topology : emittingTopology) (rendered : renderedChildren)
    (profiles : option (list NodeProfile)) (links : option (list Link)) (nodes : option (list Node)) :
    option (list string) :=
  match listInventory "nodeprofile" ProfileName (λ o, (ProfileLabels o, ProfileOwners o))
          (renderedProfiles rendered) profiles ∅ with
  | None => None
  | Some existing =>
      match listInventory "link" LinkName (λ o, (LinkLabels o, LinkOwners o))
              (renderedLinks rendered) links existing with
      | None => None
      | Some existing =>
          match listInventory "node" NodeObjectName (λ o, (NodeLabels o, NodeOwners o))
                  (renderedNodes rendered) nodes existing with
          | None => None
          | Some existing =>
              Some (sort_strings (elements
                (foldl (conflictStep topology existing) (∅, ∅) (all rendered)).2))
          end
      end
  end.

(** ** The laws of the three kinds *)

Lemma ownerReferencesConform_refl l : ownerReferencesConform l l = true.
Proof.
  apply forallb_forall. intros x Hx%list_elem_of_In. apply contains_func_true.
  exists x. split; [done|]. by apply bool_decide_eq_true_2.
Qed.

Lemma metadataConforms_refl labels as_existing as_rendered owners :
  as_rendered ⊆ as_existing →
  metadataConforms labels labels as_existing as_rendered owners owners = true.
Proof.
  intros Hs. unfold metadataConforms. rewrite ownerReferencesConform_refl. simpl.
  rewrite andb_true_iff. split; by apply contains_all_spec.
Qed.

(** The compiler renders no operational annotation. *)
Definition noOperationalAnnotations (o : Node) : Prop :=
  ∀ key, key ∈ operationalNodeAnnotations → NodeAnnotations o !! key = None.

Lemma carryOverNode_spec e o :
  let o' := carryOverNode e o in
  o' = o <| Readiness := Readiness e |> <| RunState := RunState e |>
         <| NodeAnnotations := NodeAnnotations o' |>
  ∧ (∀ key, NodeAnnotations o' !! key =
       if decide (key ∈ operationalNodeAnnotations ∧ is_Some (NodeAnnotations e !! key))
       then NodeAnnotations e !! key else NodeAnnotations o !! key).
Proof.
  unfold carryOverNode, operationalNodeAnnotations. cbn [foldl].
  assert (RestartRequestedAnnotation ≠ DeviceStateResetAnnotation) as Hne by done.
  split.
  - by destruct (NodeAnnotations e !! RestartRequestedAnnotation),
      (NodeAnnotations e !! DeviceStateResetAnnotation).
  - intros key.
    case_decide as Hd; rewrite list_elem_of_In in Hd; cbn [In] in Hd.
    + destruct Hd as [[<-|[<-|[]]] [v Hv]]; rewrite Hv;
        destruct (NodeAnnotations e !! DeviceStateResetAnnotation) eqn:E2;
        destruct (NodeAnnotations e !! RestartRequestedAnnotation) eqn:E1; simplify_eq; simpl;
        by simplify_map_eq.
    + destruct (NodeAnnotations e !! DeviceStateResetAnnotation) eqn:E2;
        destruct (NodeAnnotations e !! RestartRequestedAnnotation) eqn:E1; simpl; try done;
        repeat (rewrite lookup_insert_ne; [|intros <-; apply Hd; eauto 6]); done.
Qed.

#[export] Instance node_lawful : LawfulKind Node noOperationalAnnotations.
Proof.
  split.
  - intros o. simpl. unfold emittedNodeConforms, nodeSpecConforms. simpl.
    rewrite !bool_decide_eq_true_2, metadataConforms_refl by done. done.
  - intros e o Hc. destruct (carryOverNode_spec e o) as [Heq Hann].
    simpl. unfold emittedNodeConforms, nodeSpecConforms. rewrite Heq. simpl.
    rewrite !bool_decide_eq_true_2 by done. rewrite metadataConforms_refl; [done|].
    apply map_subseteq_spec. intros k v Hk. rewrite Hann. case_decide as Hd; [|done].
    destruct Hd as [Hop _]. by rewrite (Hc _ Hop) in Hk.
  - intros e o. destruct (carryOverNode_spec e o) as [Heq _]. simpl. by rewrite Heq.
Qed.

#[export] Instance link_lawful : LawfulKind Link (λ _, True).
Proof.
  split; intros *; simpl; unfold emittedLinkConforms; simpl; try done; intros;
    by rewrite !bool_decide_eq_true_2, metadataConforms_refl by done.
Qed.

#[export] Instance profile_lawful : LawfulKind NodeProfile (λ _, True).
Proof.
  split; intros *; simpl; unfold emittedProfileConforms; simpl; try done; intros;
    by rewrite !bool_decide_eq_true_2, metadataConforms_refl by done.
Qed.

(** ** Convergence of the enforcement *)

Section converges.
Context {T : Type} `{LawfulKind T compiled} `{!RangeOrder string}.
Variables (setController : T → option T) (answer : string → writeAnswer).

(** A rendered object whose controller reference can be set, which keeps its name. *)
Definition controllable (o : T) : Prop :=
  ∃ o', setController o = Some o' ∧ objName o' = objName o ∧ compiled o'.

Definition controlled (o : T) : T := default o (setController o).

Lemma controllable_controlled o :
  controllable o →
  setController o = Some (controlled o) ∧ objName (controlled o) = objName o ∧ compiled (controlled o).
Proof. intros (o' & Ho & Hn & Hc). unfold controlled. by rewrite Ho. Qed.

Lemma enforced_name (existing : gmap string T) o :
  (∀ n e, existing !! n = Some e → objName e = n) → objName (enforced existing o) = objName o.
Proof.
  intros Hkey. unfold enforced. destruct (existing !! objName o) as [e|] eqn:E; [|done].
  destruct (conforms e o); [by apply Hkey in E|apply name_updated].
Qed.

Lemma enforced_conforms (existing : gmap string T) o :
  compiled o → conforms (enforced existing o) o = true.
Proof.
  intros Hc. unfold enforced. destruct (existing !! objName o) as [e|]; [|apply conforms_self].
  destruct (conforms e o) eqn:E; [done|]. by apply conforms_updated.
Qed.

(** The write the loop makes for one object. *)
Definition writeFor (existing : gmap string T) (o : T) : list (emittedWrite T) :=
  match existing !! objName o with
  | None => [CreateObject o]
  | Some current =>
      if conforms current o then []
      else [UpdateObject (setResourceVersion current (carryOver current o))]
  end.

Lemma writeFor_delete (existing : gmap string T) n o :
  objName o ≠ n → writeFor (delete n existing) o = writeFor existing o.
Proof. intros Hne. unfold writeFor. by rewrite lookup_delete_ne. Qed.

(** What the loop over the rendered objects does when every answer is positive. *)
Lemma emitLoop_spec rendered : ∀ existing : gmap string T,
  NoDup (objName <$> rendered) → Forall controllable rendered → (∀ n, answer n = WriteOk) →
  ∃ kept, emitLoop setController answer rendered existing =
    (rendered ≫= (λ o, writeFor existing (controlled o)), kept, None)
  ∧ ∀ n, kept !! n = if decide (n ∈ objName <$> rendered) then None else existing !! n.
Proof.
  induction rendered as [|o rendered IH]; intros existing Hnd Hc Hok; [by exists existing|].
  rewrite fmap_cons in Hnd. pose proof (NoDup_cons_1_1 _ _ Hnd) as Ho. apply NoDup_cons_1_2 in Hnd.
  apply list.Forall_cons in Hc as [(Hset & Hname & _)%controllable_controlled Hc].
  cbn [emitLoop]. rewrite Hset, Hok. setoid_rewrite bind_cons. rewrite Hname.
  destruct (existing !! objName o) as [cur|] eqn:E.
  - destruct (IH (delete (objName o) existing) Hnd Hc Hok) as (kept & Hl & Hk).
    exists kept. split.
    + rewrite Hl.
      assert (rendered ≫= (λ x, writeFor (delete (objName o) existing) (controlled x)) =
              rendered ≫= (λ x, writeFor existing (controlled x))) as ->.
      { apply Forall_bind_ext. rewrite list.Forall_forall in Hc |- *. intros x Hx.
        apply writeFor_delete. destruct (controllable_controlled _ (Hc x Hx)) as (_ & -> & _).
        intros Heq. apply Ho. rewrite <- Heq. by apply list_elem_of_fmap_2. }
      assert (writeFor existing (controlled o) = if conforms cur (controlled o) then [] else _) as ->
        by (unfold writeFor; by rewrite Hname, E). by destruct (conforms cur (controlled o)).
    + intros n. rewrite Hk, fmap_cons. destruct (decide (n ∈ _ :: _)) as [Hin|Hin].
      * destruct (decide (n ∈ objName <$> rendered)); [done|].
        apply elem_of_cons in Hin as [->|]; [apply lookup_delete_eq|done].
      * rewrite not_elem_of_cons in Hin. destruct Hin.
        rewrite decide_False, lookup_delete_ne by done. done.
  - destruct (IH existing Hnd Hc Hok) as (kept & Hl & Hk). exists kept. split.
    + rewrite Hl. assert (writeFor existing (controlled o) = [CreateObject (controlled o)]) as ->
        by (unfold writeFor; by rewrite Hname, E). done.
    + intros n. rewrite Hk, fmap_cons. destruct (decide (n ∈ _ :: _)) as [Hin|Hin].
      * destruct (decide (n ∈ objName <$> rendered)); [done|].
        by apply elem_of_cons in Hin as [->|].
      * rewrite not_elem_of_cons in Hin. destruct Hin. by rewrite decide_False.
Qed.

(** The loop's writes leave each rendered object enforced. *)
Lemma apply_writeFor (existing store : gmap string T) o :
  (∀ n e, existing !! n = Some e → objName e = n) →
  store !! objName o = existing !! objName o →
  foldl applyWrite store (writeFor existing o) = <[objName o := enforced existing o]> store.
Proof.
  intros Hkey Hs. unfold writeFor, enforced. destruct (existing !! objName o) as [cur|] eqn:E; [|done].
  destruct (conforms cur o); cbn [foldl]; [by rewrite insert_id|].
  unfold applyWrite. by rewrite name_updated.
Qed.

Definition enforcedMap (existing : gmap string T) (rendered : list T) : gmap string T :=
  list_to_map ((λ o, (objName o, enforced existing (controlled o))) <$> rendered).

Lemma apply_writes (existing : gmap string T) rendered :
  (∀ n e, existing !! n = Some e → objName e = n) →
  NoDup (objName <$> rendered) → Forall controllable rendered →
  ∀ store, (∀ n, n ∈ objName <$> rendered → store !! n = existing !! n) →
  foldl applyWrite store (rendered ≫= (λ o, writeFor existing (controlled o))) =
    enforcedMap existing rendered ∪ store.
Proof.
  intros Hkey. unfold enforcedMap. induction rendered as [|o rendered IH]; intros Hnd Hc store Hs.
  { cbn. by rewrite (left_id_L ∅ (∪)). }
  rewrite fmap_cons in Hnd. pose proof (NoDup_cons_1_1 _ _ Hnd) as Ho. apply NoDup_cons_1_2 in Hnd.
  apply list.Forall_cons in Hc as [(_ & Hname & _)%controllable_controlled Hc].
  rewrite bind_cons, foldl_app, apply_writeFor, Hname; [|done|rewrite Hname; apply Hs; left].
  rewrite IH; [|done|done|].
  - rewrite fmap_cons, list_to_map_cons, <- insert_union_l. symmetry.
    apply insert_union_r. apply not_elem_of_list_to_map. by rewrite <- list_fmap_compose.
  - intros n Hn. rewrite lookup_insert_ne by (intros <-; done). apply Hs. by right.
Qed.

Lemma pruneLoop_spec extra :
  (∀ n, answer n = WriteOk) →
  pruneLoop answer extra = ((λ kv : string * T, DeleteObject (objName kv.2)) <$> extra, None).
Proof.
  intros Hok. induction extra as [|[k o] extra IH]; [done|]. cbn [pruneLoop]. by rewrite Hok, IH.
Qed.

Lemma apply_deletes (extra : list (string * T)) : ∀ store n,
  foldl applyWrite store ((λ kv : string * T, DeleteObject (objName kv.2)) <$> extra) !! n =
    if decide (n ∈ (λ kv, objName kv.2) <$> extra) then None else store !! n.
Proof.
  induction extra as [|[k o] extra IH]; intros store n; [done|].
  rewrite !fmap_cons. cbn [foldl]. rewrite IH. cbn [applyWrite snd].
  destruct (decide (n ∈ _ :: _)) as [Hin|Hin].
  - destruct (decide _); [done|]. apply elem_of_cons in Hin as [->|]; [apply lookup_delete_eq|done].
  - apply not_elem_of_cons in Hin as [Hne Hin]. rewrite decide_False by done.
    by apply lookup_delete_ne.
Qed.

Lemma elem_of_enforcedMap (existing : gmap string T) rendered n :
  n ∈ objName <$> rendered ↔ is_Some (enforcedMap existing rendered !! n).
Proof.
  unfold enforcedMap. rewrite <- (not_eq_None_Some (list_to_map _ !! n)).
  rewrite <- not_elem_of_list_to_map, <- list_fmap_compose. simpl.
  split; [tauto|]. intros Hn. by apply dec_stable.
Qed.

Lemma reconcileEmitted_result (existing : gmap string T) rendered :
  (∀ n e, existing !! n = Some e → objName e = n) →
  NoDup (objName <$> rendered) → Forall controllable rendered → (∀ n, answer n = WriteOk) →
  let r := reconcileEmitted setController answer rendered existing in
  emittedError r = None ∧ foldl applyWrite existing (emittedWrites r) = enforcedMap existing rendered.
Proof.
  intros Hkey Hnd Hc Hok. destruct (emitLoop_spec rendered existing Hnd Hc Hok) as (kept & Hl & Hk).
  unfold reconcileEmitted. rewrite Hl, pruneLoop_spec by done. split; [done|].
  cbn [emittedWrites]. rewrite foldl_app, apply_writes by done.
  apply map_eq. intros n. rewrite apply_deletes.
  destruct (decide (n ∈ objName <$> rendered)) as [Hin|Hin].
  - rewrite decide_False.
    + apply (elem_of_enforcedMap existing) in Hin as [o Ho].
      rewrite Ho. by apply lookup_union_Some_l.
    + intros ([k o] & -> & Hko%elem_of_range_list)%list_elem_of_fmap. rewrite Hk in Hko.
      destruct (decide _) in Hko; [done|]. apply Hkey in Hko. cbn in *. by subst.
  - assert (enforcedMap existing rendered !! n = None) as Hnone.
    { apply eq_None_not_Some. by rewrite <- elem_of_enforcedMap. }
    rewrite Hnone. destruct (decide _) as [|Hnot]; [done|].
    rewrite lookup_union_r by done. destruct (existing !! n) as [e|] eqn:E; [|done].
    exfalso. apply Hnot. apply list_elem_of_fmap. exists (n, e). split; [by apply Hkey in E|].
    apply elem_of_range_list. by rewrite Hk, decide_False.
Qed.

(** Once enforced, nothing is written again. *)
Lemma reconcileEmitted_settled (store : gmap string T) rendered :
  NoDup (objName <$> rendered) → Forall controllable rendered → (∀ n, answer n = WriteOk) →
  (∀ n, is_Some (store !! n) → n ∈ objName <$> rendered) →
  (∀ o, o ∈ rendered → ∃ e, store !! objName o = Some e ∧ conforms e (controlled o) = true) →
  reconcileEmitted setController answer rendered store = Emitted [] None.
Proof.
  intros Hnd Hc Hok Hdom Hconf.
  destruct (emitLoop_spec rendered store Hnd Hc Hok) as (kept & Hl & Hk).
  assert (kept = ∅) as ->.
  { apply map_empty. intros n. rewrite Hk. destruct (decide _) as [|Hn]; [done|].
    apply eq_None_not_Some. auto. }
  unfold reconcileEmitted. rewrite Hl, pruneLoop_spec by done.
  assert (range_list (∅ : gmap string T) = []) as ->.
  { apply length_zero_iff_nil. by rewrite length_range_list, map_size_empty. }
  rewrite app_nil_r. f_equal. apply length_zero_iff_nil.
  assert (∀ o, o ∈ rendered → writeFor store (controlled o) = []) as Hw.
  { intros o Ho. destruct (Hconf o Ho) as (e & He & Hce). unfold writeFor.
    rewrite list.Forall_forall in Hc. destruct (controllable_controlled _ (Hc o Ho)) as (_ & -> & _).
    by rewrite He, Hce. }
  clear -Hw. induction rendered as [|o rendered IH]; [done|].
  rewrite bind_cons, Hw by left. apply IH. intros x Hx. apply Hw. by right.
Qed.

(** C35: Enforcing one kind of compiled objects converges in one pass.  When the
    rendered names are distinct, the controller references can be set and the API
    server accepts the writes, a pass ends without an error; afterwards the objects
    generated for the topology are exactly the rendered ones -- a missing one created,
    a drifted one replaced by its rendering with the controller-owned parts carried over,
    a conforming one left as it was, every other one deleted -- and a second pass with
    the same rendering writes nothing.  It holds in every order the map of the extra
    objects is ranged over. *)
Theorem emitted_converges (existing : gmap string T) rendered :
  (∀ n e, existing !! n = Some e → objName e = n) →
  NoDup (objName <$> rendered) → Forall controllable rendered → (∀ n, answer n = WriteOk) →
  let r := reconcileEmitted setController answer rendered existing in
  let store := foldl applyWrite existing (emittedWrites r) in
  emittedError r = None
  ∧ store = enforcedMap existing rendered
  ∧ reconcileEmitted setController answer rendered store = Emitted [] None.
Proof.
  intros Hkey Hnd Hc Hok. destruct (reconcileEmitted_result existing rendered Hkey Hnd Hc Hok) as [He Hs].
  cbv zeta. rewrite He, Hs. split_and!; [done..|].
  apply reconcileEmitted_settled; [done..| |].
  - intros n. apply elem_of_enforcedMap.
  - intros o Ho. exists (enforced existing (controlled o)). rewrite list.Forall_forall in Hc.
    destruct (controllable_controlled _ (Hc o Ho)) as (_ & _ & Hco).
    split; [|by apply enforced_conforms].
    apply elem_of_list_to_map_1.
    + by rewrite <- list_fmap_compose.
    + apply (list_elem_of_fmap_2 (λ o, (objName o, enforced existing (controlled o)))). done.
Qed.
End converges.

(** ** Conflicts *)

Definition childKinds : list string := ["nodeprofile"; "link"; "node"].

Lemma conflictName_inj k k' n n' :
  k ∈ childKinds → k' ∈ childKinds → conflictName k n = conflictName k' n' → k = k' ∧ n = n'.
Proof.
  rewrite !list_elem_of_In. cbn [In childKinds]. unfold conflictName.
  intros [<-|[<-|[<-|[]]]] [<-|[<-|[<-|[]]]] [=]; by subst.
Qed.

(** [c] occurs at least twice in [l]. *)
Definition duplicated {A} (c : A) (l : list A) : Prop := ∃ l1 l2, l = l1 ++ c :: l2 ∧ c ∈ l2.

Lemma duplicated_cons {A} (c x : A) l : duplicated c (x :: l) ↔ (c = x ∧ c ∈ l) ∨ duplicated c l.
Proof.
  split.
  - intros (l1 & l2 & Heq & Hin). destruct l1 as [|y l1]; simplify_eq/=; [by left|].
    right. by exists l1, l2.
  - intros [[-> Hin]|(l1 & l2 & -> & Hin)]; [by exists [], l|by exists (x :: l1), l2].
Qed.

Lemma not_duplicated_NoDup {A} (l : list A) : (∀ c, ¬ duplicated c l) → NoDup l.
Proof.
  induction l as [|x l IH]; intros Hd; constructor.
  - intros Hin. apply (Hd x), duplicated_cons. by left.
  - apply IH. intros c Hc. apply (Hd c), duplicated_cons. by right.
Qed.

Lemma duplicated_elem {A} (c : A) l : duplicated c l → c ∈ l.
Proof. intros (l1 & l2 & -> & _). apply elem_of_app. right. left. Qed.

Definition foreignAt (topology : emittingTopology) (existing : gmap string objectMetadata)
    (c : string) : Prop :=
  ∃ m, existing !! c = Some m ∧ generatedForTopology m.1 m.2 topology = false.

Lemma conflictStep_conflicts topology existing c children : ∀ seen cs,
  c ∈ (foldl (conflictStep topology existing) (seen, cs) children).2 ↔
  c ∈ cs
  ∨ (c ∈ (λ ch, conflictName ch.1 ch.2) <$> children ∧ (c ∈ seen ∨ foreignAt topology existing c))
  ∨ duplicated c ((λ ch, conflictName ch.1 ch.2) <$> children).
Proof.
  induction children as [|ch children IH]; intros seen cs.
  { cbn. assert (¬ duplicated c ([] : list string)) by (by intros ([] & ? & ? & _)).
    rewrite elem_of_nil. tauto. }
  rewrite fmap_cons. cbn [foldl]. unfold conflictStep at 2. rewrite duplicated_cons, elem_of_cons.
  set (x := conflictName ch.1 ch.2). destruct (bool_decide (x ∈ seen)) eqn:Es.
  - bool_to_prop. rewrite IH, elem_of_union, elem_of_singleton.
    destruct (decide (c = x)) as [->|]; [|tauto]. split; intros; [|tauto]. auto.
  - bool_to_prop. destruct (existing !! x) as [m|] eqn:Em; [destruct (generatedForTopology m.1 m.2 topology) eqn:Eg|].
    + cbn [negb]. rewrite IH, elem_of_union, elem_of_singleton.
      destruct (decide (c = x)) as [->|]; [|tauto].
      assert (¬ foreignAt topology existing x) by (intros (m' & Hm & Hg); congruence). tauto.
    + cbn [negb]. rewrite IH, !elem_of_union, !elem_of_singleton.
      destruct (decide (c = x)) as [->|]; [|tauto].
      assert (foreignAt topology existing x) by (by exists m). tauto.
    + rewrite IH, elem_of_union, elem_of_singleton.
      destruct (decide (c = x)) as [->|]; [|tauto].
      assert (¬ foreignAt topology existing x) by (intros (m' & Hm & Hg); congruence). tauto.
Qed.

(** What an inventory adds to the map. *)
Lemma listInventory_lookup {A B} kind (name : A → string) meta (rendered : list B) items existing existing' :
  NoDup (name <$> items) →
  (∀ n, existing !! conflictName kind n = None) →
  listInventory kind name meta rendered (Some items) existing = Some existing' →
  (∀ n m, existing' !! conflictName kind n = Some m ↔
     rendered ≠ [] ∧ ∃ o, o ∈ items ∧ name o = n ∧ meta o = m)
  ∧ (∀ c, (∀ n, c ≠ conflictName kind n) → existing' !! c = existing !! c).
Proof.
  intros Hnd Hnew. unfold listInventory. destruct (bool_decide _) eqn:E; bool_to_prop; intros [= <-].
  { apply nil_length_inv in E as ->. split; [|done]. intros n m. rewrite Hnew. split; [done|tauto]. }
  assert (rendered ≠ []) as Hr by (by destruct rendered). clear E.
  induction items as [|o items IH] using rev_ind.
  { split; [|done]. intros n m. cbn. rewrite Hnew. split; [done|].
    intros (_ & o & Ho & _). by apply elem_of_nil in Ho. }
  rewrite fmap_app in Hnd. apply list.NoDup_app in Hnd as (Hnd & Hdis & _).
  destruct (IH Hnd) as [IH1 IH2]. rewrite foldl_app. cbn [foldl]. split.
  - intros n m. destruct (decide (n = name o)) as [->|Hne].
    + rewrite lookup_insert_eq. split.
      * intros [= <-]. split; [done|]. exists o. split; [|done]. apply elem_of_app. right. left.
      * intros (_ & o' & Ho' & Hn & <-). apply elem_of_app in Ho' as [Ho'|Ho'].
        -- exfalso. apply (Hdis (name o)); [|left]. rewrite <- Hn. by apply list_elem_of_fmap_2.
        -- by apply list_elem_of_singleton in Ho' as ->.
    + rewrite lookup_insert_ne by (unfold conflictName; intros ?%append_inj_l; simplify_eq).
      rewrite IH1. split; intros (_ & o' & Ho' & Hn & Hm); (split; [done|]); exists o'.
      * split; [apply elem_of_app; by left|done].
      * apply elem_of_app in Ho' as [Ho'|Ho']; [done|].
        by apply list_elem_of_singleton in Ho' as ->.
  - intros c Hc. rewrite lookup_insert_ne by (intros <-; by apply (Hc (name o))). by apply IH2.
Qed.

(** The namespace's objects by kind and name, with their metadata. *)
Definition listed (objects : namespaceObjects) : list (string * string * objectMetadata) :=
  ((λ p, (("nodeprofile", ProfileName p), (ProfileLabels p, ProfileOwners p))) <$> listedProfiles objects)
  ++ ((λ l, (("link", LinkName l), (LinkLabels l, LinkOwners l))) <$> listedLinks objects)
  ++ ((λ n, (("node", NodeObjectName n), (NodeLabels n, NodeOwners n))) <$> listedNodes objects).

(** Names are unique in a namespace. *)
Definition uniqueNames (objects : namespaceObjects) : Prop :=
  NoDup (ProfileName <$> listedProfiles objects) ∧ NoDup (LinkName <$> listedLinks objects)
  ∧ NoDup (NodeObjectName <$> listedNodes objects).

Lemma all_kinds rendered ch : ch ∈ all rendered → ch.1 ∈ childKinds.
Proof.
  unfold all. rewrite !elem_of_app, !list_elem_of_fmap.
  intros [(?&->&_)|[(?&->&_)|(?&->&_)]]; unfold childKinds; simpl; repeat constructor.
Qed.

(** The map of the conflict check holds the listed objects of the rendered kinds. *)
Lemma inventories_lookup rendered objects :
  uniqueNames objects →
  ∃ existing,
    (∀ topology, findChildResourceConflicts topology rendered (Some (listedProfiles objects))
       (Some (listedLinks objects)) (Some (listedNodes objects)) =
       Some (sort_strings (elements (foldl (conflictStep topology existing) (∅, ∅) (all rendered)).2)))
    ∧ ∀ ch m, ch ∈ all rendered →
        existing !! conflictName ch.1 ch.2 = Some m ↔ (ch, m) ∈ listed objects.
Proof.
  intros (Hp & Hl & Hn). unfold findChildResourceConflicts.
  destruct (listInventory "nodeprofile" _ _ _ _ _) as [e1|] eqn:E1;
    [|unfold listInventory in E1; by destruct (bool_decide _)].
  destruct (listInventory "link" _ _ _ _ e1) as [e2|] eqn:E2;
    [|unfold listInventory in E2; by destruct (bool_decide _)].
  destruct (listInventory "node" _ _ _ _ e2) as [e3|] eqn:E3;
    [|unfold listInventory in E3; by destruct (bool_decide _)].
  exists e3. split; [done|].
  apply listInventory_lookup in E1 as [A1 B1]; [|done|done].
  apply listInventory_lookup in E2 as [A2 B2]; [|done|intros n; by rewrite B1].
  apply listInventory_lookup in E3 as [A3 B3]; [|done|intros n; by rewrite B2, B1].
  intros [k n] m Hch. unfold listed. rewrite !elem_of_app, !list_elem_of_fmap.
  unfold all in Hch. rewrite !elem_of_app, !list_elem_of_fmap in Hch.
  destruct Hch as [(o&[= -> ->]&Ho)|[(o&[= -> ->]&Ho)|(o&[= -> ->]&Ho)]]; cbn [fst snd].
  - rewrite B3, B2, A1 by done. split.
    + intros (_ & o' & Ho' & Heq & <-). left. exists o'. by rewrite <- Heq.
    + intros [(o'&Heq&Ho')|[(o'&Heq&Ho')|(o'&Heq&Ho')]]; simplify_eq.
      split; [by intros H; rewrite H in Ho; apply elem_of_nil in Ho|]. by exists o'.
  - rewrite B3, A2 by done. split.
    + intros (_ & o' & Ho' & Heq & <-). right. left. exists o'. by rewrite <- Heq.
    + intros [(o'&Heq&Ho')|[(o'&Heq&Ho')|(o'&Heq&Ho')]]; simplify_eq.
      split; [by intros H; rewrite H in Ho; apply elem_of_nil in Ho|]. by exists o'.
  - rewrite A3. split.
    + intros (_ & o' & Ho' & Heq & <-). right. right. exists o'. by rewrite <- Heq.
    + intros [(o'&Heq&Ho')|[(o'&Heq&Ho')|(o'&Heq&Ho')]]; simplify_eq.
      split; [by intros H; rewrite H in Ho; apply elem_of_nil in Ho|]. by exists o'.
Qed.

Lemma duplicated_fmap {A B} (f : A → B) (x : A) l :
  (∀ y, y ∈ l → f y = f x → y = x) → duplicated (f x) (f <$> l) ↔ duplicated x l.
Proof.
  induction l as [|y l IH]; intros Hinj.
  { split; intros (l1 & l2 & Heq & _); by destruct l1. }
  rewrite fmap_cons, !duplicated_cons, IH by (intros z Hz; apply Hinj; by right).
  assert (f x = f y ↔ x = y) as ->.
  { split; [|by intros ->]. intros Heq. symmetry. apply Hinj; [left|done]. }
  assert (f x ∈ f <$> l ↔ x ∈ l) as ->; [|done].
  split; [|apply list_elem_of_fmap_2]. intros (z & Heq & Hz)%list_elem_of_fmap.
  rewrite <- (Hinj z); [done|by right|done].
Qed.

Lemma child_conflicts_spec topology rendered objects :
  uniqueNames objects →
  ∃ conflicts,
    findChildResourceConflicts topology rendered (Some (listedProfiles objects))
      (Some (listedLinks objects)) (Some (listedNodes objects)) = Some conflicts
    ∧ StronglySorted (λ a b, str_ltb a b = true) conflicts
    ∧ ∀ c, c ∈ conflicts ↔ ∃ ch, ch ∈ all rendered ∧ c = conflictName ch.1 ch.2
        ∧ (duplicated ch (all rendered)
           ∨ ∃ m, (ch, m) ∈ listed objects ∧ generatedForTopology m.1 m.2 topology = false).
Proof.
  intros Hu. destruct (inventories_lookup rendered objects Hu) as (existing & -> & Hlook).
  eexists. split; [done|]. split.
  - apply (sort_by_strict (λ s, s)). rewrite list_fmap_id. apply NoDup_elements.
  - intros c. rewrite sort_strings_perm, elem_of_elements, conflictStep_conflicts.
    assert (∀ ch, ch ∈ all rendered →
      duplicated (conflictName ch.1 ch.2) ((λ ch, conflictName ch.1 ch.2) <$> all rendered)
      ↔ duplicated ch (all rendered)) as Hdup.
    { intros ch Hch. apply (duplicated_fmap (λ ch, conflictName ch.1 ch.2)).
      intros ch' Hch' Heq. apply conflictName_inj in Heq as [? ?]; [|by eapply all_kinds..].
      destruct ch, ch'; simpl in *; congruence. }
    assert (∀ ch, ch ∈ all rendered → foreignAt topology existing (conflictName ch.1 ch.2) ↔
      ∃ m, (ch, m) ∈ listed objects ∧ generatedForTopology m.1 m.2 topology = false) as Hfor.
    { intros ch Hch. unfold foreignAt. by setoid_rewrite (Hlook ch _ Hch). }
    split.
    + intros [H|[[(ch & -> & Hch)%list_elem_of_fmap [H|Hf]]|Hd]]; [set_solver|set_solver| |].
      * exists ch. split_and!; [done..|]. right. by apply Hfor.
      * pose proof (duplicated_elem _ _ Hd) as (ch & -> & Hch)%list_elem_of_fmap.
        exists ch. split_and!; [done..|]. left. by apply Hdup.
    + intros (ch & Hch & -> & [Hd|Hf]); right.
      * right. by apply Hdup.
      * left. split; [by apply (list_elem_of_fmap_2 (λ ch, conflictName ch.1 ch.2))|].
        right. by apply Hfor.
Qed.

(** ** Which objects a pass may touch *)

Definition touches {T} `{EmittedKind T} (w : emittedWrite T) : string :=
  match w with CreateObject o | UpdateObject o => objName o | DeleteObject n => n end.

Section touched.
Context {T : Type} `{LawfulKind T compiled} `{!RangeOrder string}.
Variables (setController : T → option T) (answer : string → writeAnswer).
Hypothesis controller_name : ∀ o o', setController o = Some o' → objName o' = objName o.

(** A write creates a rendered object that is not there, updates a rendered one that is, under
    the version it has there, or deletes one that is there and not rendered. *)
Definition withinExisting (existing : gmap string T) (names : list string) (w : emittedWrite T) : Prop :=
  match w with
  | CreateObject o => objName o ∈ names ∧ existing !! objName o = None
  | UpdateObject o => objName o ∈ names ∧
      ∃ current o', existing !! objName o = Some current ∧ o = setResourceVersion current o'
  | DeleteObject n => n ∉ names ∧ is_Some (existing !! n)
  end.

Lemma withinExisting_weaken (existing : gmap string T) n names w :
  n ∉ names →
  withinExisting (delete n existing) names w → withinExisting existing (n :: names) w.
Proof.
  unfold withinExisting. intros Hn. destruct w as [o|o|m].
  - intros [Hin Hl]. split; [by right|]. rewrite lookup_delete_ne in Hl; [done|]. by intros ->.
  - intros (Hin & c & o' & [_ He]%lookup_delete_Some & Ho). split; [by right|]. eauto.
  - intros (Hin & e & [Hne He]%lookup_delete_Some). split; [|by exists e]. rewrite elem_of_cons. by intros [->|?].
Qed.

Lemma withinExisting_free (existing : gmap string T) n names w :
  existing !! n = None → withinExisting existing names w → withinExisting existing (n :: names) w.
Proof.
  unfold withinExisting. intros Hn. destruct w as [o|o|m].
  - intros [Hin Hl]. split; [by right|done].
  - intros (Hin & c & o' & He & Ho). split; [by right|]. eauto.
  - intros (Hin & e & He). split; [|by exists e]. rewrite elem_of_cons. intros [->|?]; [congruence|done].
Qed.

Lemma emitLoop_touches rendered : ∀ existing : gmap string T,
  NoDup (objName <$> rendered) →
  let '(ws, kept, e) := emitLoop setController answer rendered existing in
  Forall (withinExisting existing (objName <$> rendered)) ws ∧ kept ⊆ existing
  ∧ (e = None → ∀ n, n ∈ objName <$> rendered → kept !! n = None).
Proof.
  induction rendered as [|o rendered IH]; intros existing Hnd.
  { split; [constructor|]. split; [done|]. by intros _ n ?%elem_of_nil. }
  rewrite fmap_cons in Hnd |- *. pose proof (NoDup_cons_1_1 _ _ Hnd) as Ho.
  apply NoDup_cons_1_2 in Hnd. cbn [emitLoop].
  destruct (setController o) as [o'|] eqn:Hset; [|by split; [constructor|]].
  pose proof (controller_name _ _ Hset) as Hname. rewrite Hname.
  destruct (existing !! objName o) as [cur|] eqn:E.
  - specialize (IH (delete (objName o) existing) Hnd).
    destruct (emitLoop _ _ rendered _) as [[ws kept] e]. destruct IH as (IH & Hsub & Hgone).
    assert (Forall (withinExisting existing (objName o :: (objName <$> rendered))) ws ∧ kept ⊆ existing
      ∧ (e = None → ∀ n, n ∈ objName o :: (objName <$> rendered) → kept !! n = None)) as (Hws & Hk & Hg).
    { split_and!; [|etrans; [exact Hsub|apply delete_subseteq]|].
      - eapply list.Forall_impl; [exact IH|]. intros w. by apply withinExisting_weaken.
      - intros He n [->|Hn]%elem_of_cons; [|by apply Hgone]. eapply lookup_weaken_None; [|exact Hsub]. apply lookup_delete_eq. }
    assert (withinExisting existing (objName o :: (objName <$> rendered))
      (UpdateObject (setResourceVersion cur (carryOver cur o')))) as Hup.
    { unfold withinExisting. rewrite name_updated, Hname. split; [left|]. eauto. }
    destruct (conforms cur o'); [done|]. destruct (answer (objName o)).
    + split; [by constructor|done].
    + split; [constructor; [done|constructor]|]. split; [apply delete_subseteq|done].
    + split; [constructor; [done|constructor]|]. split; [apply delete_subseteq|done].
  - specialize (IH existing Hnd).
    destruct (emitLoop _ _ rendered _) as [[ws kept] e]. destruct IH as (IH & Hsub & Hgone).
    assert (withinExisting existing (objName o :: (objName <$> rendered)) (CreateObject o')) as Hcr.
    { unfold withinExisting. rewrite Hname. split; [left|done]. }
    destruct (answer (objName o)); (split; [|split; [done|]]); try done.
    + constructor; [done|]. eapply list.Forall_impl; [exact IH|]. intros w. by apply withinExisting_free.
    + intros He n [->|Hn]%elem_of_cons; [|by apply Hgone]. by eapply lookup_weaken_None.
    + constructor; [done|constructor].
    + constructor; [done|constructor].
Qed.

Lemma pruneLoop_touches extra w :
  w ∈ (pruneLoop answer extra).1 → ∃ k o, (k, o) ∈ extra ∧ w = @DeleteObject T (objName o).
Proof.
  induction extra as [|[k o] extra IH]; cbn [pruneLoop]; [by intros ?%elem_of_nil|].
  destruct (pruneLoop answer extra) as [ws e]. cbn [fst] in IH.
  destruct (answer (objName o)); cbn [fst]; rewrite ?elem_of_cons, ?elem_of_nil.
  - intros [->|(k' & o' & ? & ->)%IH]; eexists _, _; (split; [|reflexivity]); [left|by right].
  - intros [->|(k' & o' & ? & ->)%IH]; eexists _, _; (split; [|reflexivity]); [left|by right].
  - intros [->|[]]. eexists _, _. split; [left|done].
Qed.

Lemma reconcileEmitted_touches (existing : gmap string T) rendered :
  (∀ n e, existing !! n = Some e → objName e = n) → NoDup (objName <$> rendered) →
  Forall (withinExisting existing (objName <$> rendered))
    (emittedWrites (reconcileEmitted setController answer rendered existing)).
Proof.
  intros Hkey Hnd. pose proof (emitLoop_touches rendered existing Hnd) as Hl.
  unfold reconcileEmitted. destruct (emitLoop _ _ rendered existing) as [[ws kept] [e|]];
    destruct Hl as (Hws & Hk & Hgone); [done|].
  destruct (pruneLoop answer (range_list kept)) as [ws' e'] eqn:Ep. cbn [emittedWrites].
  apply Forall_app. split; [done|]. apply list.Forall_forall. intros w Hw.
  assert (w ∈ (pruneLoop answer (range_list kept)).1) as Hw' by by rewrite Ep.
  apply pruneLoop_touches in Hw' as (k & o & Hin%elem_of_range_list & ->).
  pose proof (lookup_weaken _ _ _ _ Hin Hk) as He. unfold withinExisting. rewrite (Hkey _ _ He).
  split; [|by exists o]. intros Hn. rewrite (Hgone eq_refl k Hn) in Hin. done.
Qed.
End touched.

(** What [existing] holds in the three callers. *)
Lemma generatedObjects_lookup {T} `{EmittedKind T} labels owners topology (items : list T) n o :
  NoDup (objName <$> items) →
  generatedObjects labels owners topology items !! n = Some o ↔
    o ∈ items ∧ objName o = n ∧ generatedForTopology (labels o) (owners o) topology = true.
Proof.
  unfold generatedObjects. induction items as [|x items IH] using rev_ind; intros Hnd.
  { cbn. rewrite elem_of_nil. split; [done|tauto]. }
  rewrite fmap_app in Hnd. apply list.NoDup_app in Hnd as (Hnd & Hdis & _).
  rewrite foldl_app. cbn [foldl]. rewrite elem_of_app, list_elem_of_singleton.
  destruct (generatedForTopology (labels x) (owners x) topology) eqn:E; cbn [negb].
  - destruct (decide (n = objName x)) as [->|Hne].
    + rewrite lookup_insert_eq. split; [intros [= ->]; auto|].
      intros ([Hin| ->] & Hn & _); [|done]. exfalso. apply (Hdis (objName x)); [|left].
      rewrite <- Hn. by apply list_elem_of_fmap_2.
    + rewrite lookup_insert_ne, IH by done. split; [tauto|]. intros ([?| ->] & Hn & ?); [tauto|by subst].
  - rewrite IH by done. split; [tauto|]. intros ([?| ->] & ? & ?); [tauto|congruence].
Qed.

Lemma prepareNode_name topology existing node :
  NodeObjectName (prepareNode topology existing node) = NodeObjectName node.
Proof.
  unfold prepareNode. cbn. destruct (existing !! NodeObjectName node); [|by destruct (Z.ltb _ _)].
  by repeat destruct (bool_decide _).
Qed.

(** ** A concrete pass *)

#[local] Instance sample_range : RangeOrder string := canonical_range.

Definition sample_rendered (name : string) : Node :=
  BuildNode name "" "" {[LabelTopologyOwner := "topo"]} ∅ [] "" "" "new" "".

Definition sample_owner (n : Node) : option Node :=
  Some (n <| NodeOwners := [MkOwnerReference "Topology" "topo" "uid-t" true] |>).

(** A drifted, stopped node with a pending restart request, and one no longer defined. *)
Definition sample_existing : gmap string Node :=
  {["srl1" := BuildNode "srl1" "uid-1" "4" ∅ {[RestartRequestedAnnotation := "now"]} [] ""
                NodeRunStateStopped "old" "ready";
    "gone" := sample_rendered "gone"]}.

Lemma emitted_converges_witness :
  let rendered := [sample_rendered "srl1"; sample_rendered "srl2"] in
  let r := reconcileEmitted sample_owner (λ _, WriteOk) rendered sample_existing in
  let store := foldl applyWrite sample_existing (emittedWrites r) in
  emittedError r = None
  ∧ (touches <$> emittedWrites r) = ["srl1"; "srl2"; "gone"]
  ∧ (RunState <$> (store !! "srl1")) = Some NodeRunStateStopped
  ∧ reconcileEmitted sample_owner (λ _, WriteOk) rendered store = Emitted [] None.
Proof.
  destruct (emitted_converges (compiled := noOperationalAnnotations) sample_owner (λ _, WriteOk)
    sample_existing [sample_rendered "srl1"; sample_rendered "srl2"]) as (He & Hs & Hagain).
  - intros n e. unfold sample_existing. rewrite !lookup_insert_Some, lookup_singleton_Some.
    by intros [[<- <-]|[_ [<- <-]]].
  - by apply (bool_decide_unpack _).
  - assert (∀ name, controllable (compiled := noOperationalAnnotations) sample_owner (sample_rendered name)) as Hc.
    { intros name. eexists. split_and!; [done..|]. intros key _. apply lookup_empty. }
    by repeat constructor.
  - done.
  - split; [exact He|]. split; [vm_compute; reflexivity|]. split; [vm_compute; reflexivity|exact Hagain].
Defined.
