(* ===== verification/ObservationCache.v ===== *)
(** * The observation cache

    Models [controllers/observationcache.go]: the cache of successful desired-state work
    shared by the topology and node controllers, the tokens that keep a reconcile in
    flight from publishing work an event has invalidated, and the decision which events
    invalidate. *)

From S2P Require Import Prelude Api.
Local Open Scope Z_scope.

(** ** The cache *)

(** A [NamespacedName]. *)
Definition objectKey : Type := string * string.

(** [uint64] arithmetic. *)
Definition wrap64 (z : Z) : Z := z mod 2 ^ 64.

Record observationEntry (T : Type) := ObservationEntry {
  token : Z;
  value : option T;
  valid : bool
}.
Arguments ObservationEntry {T} token value valid.
Arguments token {T} _.
Arguments value {T} _.
Arguments valid {T} _.

Record ObservationCache (T : Type) := MkObservationCache {
  next : Z;
  entries : gmap objectKey (observationEntry T)
}.
Arguments MkObservationCache {T} next entries.
Arguments next {T} _.
Arguments entries {T} _.

Section cache.
Context {T : Type}.
Implicit Types c : ObservationCache T.

(** The zero value of the cache. *)
Definition newCache : ObservationCache T := MkObservationCache 0 ∅.

(** The zero value of [T] is [None]. *)
Definition Load (key : objectKey) c : option T * Z * bool * ObservationCache T :=
  match entries c !! key with
  | Some entry => (value entry, token entry, valid entry, c)
  | None =>
      let n := wrap64 (next c + 1) in
      let entry := ObservationEntry n None false in
      (value entry, token entry, valid entry, MkObservationCache n (<[key := entry]> (entries c)))
  end.

Definition Store (key : objectKey) (tok : Z) (v : T) c : ObservationCache T :=
  match entries c !! key with
  | Some entry =>
      if Z.eqb (token entry) tok
      then MkObservationCache (next c) (<[key := ObservationEntry tok (Some v) true]> (entries c))
      else c
  | None => c
  end.

Definition Invalidate (key : objectKey) c : ObservationCache T :=
  MkObservationCache (next c) (delete key (entries c)).

(** The operations of concurrent reconciles and events, in the order the lock admits
    them. *)
Inductive cacheOp :=
| OpLoad (key : objectKey)
| OpStore (key : objectKey) (tok : Z) (v : T)
| OpInvalidate (key : objectKey).

Definition cacheStep c (op : cacheOp) : ObservationCache T :=
  match op with
  | OpLoad key => (Load key c).2
  | OpStore key tok v => Store key tok v c
  | OpInvalidate key => Invalidate key c
  end.

Definition runCache c (ops : list cacheOp) : ObservationCache T := foldl cacheStep c ops.

(** ** Which tokens are live *)

(** Every token in the cache was given out, and none has wrapped. *)
Definition tokensBelow (bound : Z) c : Prop :=
  0 ≤ next c ≤ bound ∧ ∀ key entry, entries c !! key = Some entry → 0 < token entry ≤ next c.

Lemma step_tokensBelow bound c op :
  bound + 1 < 2 ^ 64 → tokensBelow bound c →
  tokensBelow (bound + 1) (cacheStep c op) ∧ next c ≤ next (cacheStep c op).
Proof.
  intros Hb [Hn He].
  assert (wrap64 (next c + 1) = next c + 1) as Hw by (apply Z.mod_small; lia).
  destruct op as [key|key tok v|key]; cbn [cacheStep]; unfold Load, Store, Invalidate, tokensBelow.
  - destruct (entries c !! key) eqn:E; simpl; [split; [split; [lia|done]|lia]|]. rewrite Hw.
    split; [split; [lia|]|lia]. intros k e [[_ <-]|[_ Hk]]%lookup_insert_Some; simpl; [lia|].
    specialize (He _ _ Hk). lia.
  - destruct (entries c !! key) as [entry|] eqn:E; [|split; [split; [lia|done]|lia]].
    destruct (Z.eqb _ _) eqn:Et; bool_to_prop; simpl; (split; [split; [lia|]|lia]); [|done].
    intros k e [[_ <-]|[_ Hk]]%lookup_insert_Some; simpl; [|by apply (He k)].
    specialize (He _ _ E). lia.
  - simpl. split; [split; [lia|]|lia]. intros k e [_ Hk]%lookup_delete_Some. by apply (He k).
Qed.

Lemma run_tokensBelow ops : ∀ bound c,
  bound + Z.of_nat (length ops) < 2 ^ 64 → tokensBelow bound c →
  tokensBelow (bound + Z.of_nat (length ops)) (runCache c ops) ∧ next c ≤ next (runCache c ops).
Proof.
  induction ops as [|op ops IH]; intros bound c Hb Ht.
  { split; [by rewrite Z.add_0_r|done]. }
  cbn [runCache foldl length] in *. destruct (step_tokensBelow bound c op) as [Ht' Hle]; [lia|done|].
  destruct (IH (bound + 1) (cacheStep c op)) as [Ht'' Hle']; [lia|done|]. unfold runCache in *.
  split; [|lia]. replace (bound + Z.of_nat (S (length ops)))
    with (bound + 1 + Z.of_nat (length ops)) by lia. done.
Qed.

(** A token that an invalidation has retired: the key has no entry or a later one. *)
Definition retired (key : objectKey) (tok : Z) c : Prop :=
  tok ≤ next c ∧ ∀ entry, entries c !! key = Some entry → tok < token entry.

Lemma step_retired bound key tok c op :
  bound + 1 < 2 ^ 64 → tokensBelow bound c → retired key tok c → retired key tok (cacheStep c op).
Proof.
  intros Hb [Hn He] [Hle Hr].
  assert (wrap64 (next c + 1) = next c + 1) as Hw by (apply Z.mod_small; lia).
  destruct op as [k|k t v|k]; cbn [cacheStep]; unfold Load, Store, Invalidate, retired.
  - destruct (entries c !! k) eqn:E; simpl; [done|]. rewrite Hw. split; [lia|].
    intros e [[_ <-]|[_ Hk]]%lookup_insert_Some; simpl; [lia|by apply Hr].
  - destruct (entries c !! k) as [entry|] eqn:E; [|done].
    destruct (Z.eqb _ _) eqn:Et; bool_to_prop; simpl; [|done]. split; [done|].
    intros e [[-> <-]|[_ Hk]]%lookup_insert_Some; simpl; [|by apply Hr].
    rewrite <- Et. by apply Hr.
  - simpl. split; [done|]. intros e [_ Hk]%lookup_delete_Some. by apply Hr.
Qed.

(** A live token: the key's entry still carries it. *)
Definition live (key : objectKey) (tok : Z) c : Prop :=
  tok ≤ next c ∧ ∃ entry, entries c !! key = Some entry ∧ token entry = tok.

Lemma step_live bound key tok c op :
  bound + 1 < 2 ^ 64 → tokensBelow bound c → live key tok c →
  op ≠ OpInvalidate key → live key tok (cacheStep c op).
Proof.
  intros Hb Ht (Hle & entry & Hl & Htok) Hop.
  destruct (step_tokensBelow bound c op Hb Ht) as [_ Hnext]. split; [lia|].
  destruct op as [k|k t v|k]; cbn [cacheStep]; unfold Load, Store, Invalidate.
  - destruct (entries c !! k) eqn:E; simpl; [by exists entry|]. exists entry.
    rewrite lookup_insert_ne; [done|]. intros ->. congruence.
  - destruct (entries c !! k) as [entry'|] eqn:E; [|by exists entry].
    destruct (Z.eqb _ _) eqn:Et; bool_to_prop; simpl; [|by exists entry].
    destruct (decide (k = key)) as [->|Hne].
    + eexists. rewrite lookup_insert_eq. split; [done|]. simpl. congruence.
    + exists entry. by rewrite lookup_insert_ne.
  - exists entry. simpl. rewrite lookup_delete_ne; [done|]. intros ->. done.
Qed.

Lemma run_retired ops : ∀ bound key tok c,
  bound + Z.of_nat (length ops) < 2 ^ 64 → tokensBelow bound c →
  retired key tok c → retired key tok (runCache c ops).
Proof.
  induction ops as [|op ops IH]; intros bound key tok c Hb Ht Hr; [done|].
  cbn [runCache foldl length] in *. destruct (step_tokensBelow bound c op) as [Ht' _]; [lia|done|].
  apply (IH (bound + 1)); [lia|done|]. apply (step_retired bound); [lia|done..].
Qed.

Definition isInvalidate (key : objectKey) (op : cacheOp) : bool :=
  match op with OpInvalidate k => bool_decide (k = key) | _ => false end.

(** From a live token, the run ends live exactly when the key was not invalidated. *)
Lemma run_live ops : ∀ bound key tok c,
  bound + Z.of_nat (length ops) < 2 ^ 64 → tokensBelow bound c → live key tok c →
  if existsb (isInvalidate key) ops
  then retired key tok (runCache c ops) else live key tok (runCache c ops).
Proof.
  induction ops as [|op ops IH]; intros bound key tok c Hb Ht Hl; [done|].
  cbn [runCache foldl length existsb] in *.
  destruct (step_tokensBelow bound c op) as [Ht' _]; [lia|done|].
  destruct (isInvalidate key op) eqn:Eo; cbn [orb].
  - destruct op as [| |k]; try done. apply bool_decide_eq_true in Eo as ->.
    apply (run_retired ops (bound + 1)); [lia|done|]. destruct Hl as [Hle _]. split; [done|].
    unfold cacheStep, Invalidate. cbn [entries]. intros e [Hne _]%lookup_delete_Some. done.
  - apply (IH (bound + 1)); [lia|done|]. apply (step_live bound); [lia|done|done|].
    intros ->. cbn in Eo. by rewrite bool_decide_eq_true_2 in Eo.
Qed.

Lemma newCache_tokensBelow : tokensBelow 0 newCache.
Proof. split; [simpl; lia|]. intros k e He. cbn in He. by rewrite lookup_empty in He. Qed.

Lemma Load_live bound key c :
  bound + 1 < 2 ^ 64 → tokensBelow bound c → live key (Load key c).1.1.2 (Load key c).2.
Proof.
  intros Hb [Hn He]. unfold Load, live. destruct (entries c !! key) as [entry|] eqn:E; simpl.
  - split; [by apply (He key)|]. by exists entry.
  - split; [done|]. eexists. by rewrite lookup_insert_eq.
Qed.

(** A reconcile can publish its work exactly when nothing invalidated it meanwhile.
    Take any history of loads, stores and invalidations of the shared cache, by any
    number of reconciles and events; a reconcile loads a key, more operations follow, and
    it stores a value under the token it was given.  If the key was invalidated in
    between the store changes nothing, even when the key was loaded again by others;
    otherwise the next load returns the stored value as valid, under the same token.
    The history is shorter than 2^64 operations, so the token counter does not wrap. *)
Theorem observation_cache_fresh (before between : list cacheOp) key (v : T) :
  Z.of_nat (length before + length between) + 1 < 2 ^ 64 →
  let '(_, tok, _, c) := Load key (runCache newCache before) in
  let c' := runCache c between in
  if existsb (isInvalidate key) between
  then Store key tok v c' = c'
  else (Load key (Store key tok v c')).1 = (Some v, tok, true).
Proof.
  intros Hlen.
  destruct (run_tokensBelow before 0 newCache) as [Ht _]; [lia|apply newCache_tokensBelow|].
  rewrite Z.add_0_l in Ht. set (c0 := runCache newCache before) in *.
  destruct (step_tokensBelow (Z.of_nat (length before)) c0 (OpLoad key)) as [Ht' _]; [lia|done|].
  pose proof (Load_live (Z.of_nat (length before)) key c0 ltac:(lia) Ht) as Hl.
  cbn [cacheStep] in Ht'. destruct (Load key c0) as [[[x tok] b] c]. cbn [fst snd] in *.
  pose proof (run_live between (Z.of_nat (length before) + 1) key tok c ltac:(lia) Ht' Hl) as Hr.
  destruct (existsb _ between).
  - destruct Hr as [_ Hr]. unfold Store. destruct (entries (runCache c between) !! key) as [e|] eqn:E; [|done].
    destruct (Z.eqb _ _) eqn:Et; [|done]. bool_to_prop. specialize (Hr _ eq_refl). lia.
  - destruct Hr as (_ & e & He & Htok). unfold Store, Load. rewrite He, Htok, Z.eqb_refl.
    cbn [entries]. by rewrite lookup_insert_eq.
Qed.
End cache.

(** ** Which changes invalidate *)

Record objectMeta := ObjectMeta {
  metaNamespace : string;
  metaName : string;
  metaUID : string;
  metaGeneration : Z;
  metaLabels : gmap string string;
  metaAnnotations : gmap string string;
  metaOwners : list OwnerReference;
  metaDeletion : option Z
}.

(** The concrete types the comparison tells apart.  The compared parts are given by
    their JSON; [Spec] is [None] for a type without a spec field. *)
Inductive payload :=
| ConfigMap (data binaryData immutable : string)
| Secret (secretType data immutable : string)
| Service (spec status : string)
| OtherKind (kind : string) (spec : option string).

Record watchedObject := WatchedObject {
  meta : objectMeta;
  body : payload;
  restOfStatus : string
}.

(** [reflect.TypeOf(old) == reflect.TypeOf(current)]. *)
Definition sameType (old current : payload) : bool :=
  match old, current with
  | ConfigMap _ _ _, ConfigMap _ _ _ | Secret _ _ _, Secret _ _ _ | Service _ _, Service _ _ => true
  | OtherKind k _, OtherKind k' _ => bool_decide (k = k')
  | _, _ => false
  end.

Definition objectMetadataChanged (old current : objectMeta) : bool :=
  if negb (bool_decide (metaUID old = metaUID current))
     || negb (Z.eqb (metaGeneration old) (metaGeneration current))
     || negb (bool_decide (metaLabels old = metaLabels current))
     || negb (bool_decide (metaAnnotations old = metaAnnotations current))
     || negb (bool_decide (metaOwners old = metaOwners current))
     || negb (bool_decide (metaDeletion old = metaDeletion current))
  then true else false.

Definition DesiredStateChanged (old current : option watchedObject) : bool :=
  match old, current with
  | Some old, Some current =>
      if negb (sameType (body old) (body current)) then true
      else if objectMetadataChanged (meta old) (meta current) then true
      else
        match body old, body current with
        | ConfigMap d b i, ConfigMap d' b' i' =>
            negb (bool_decide (d = d')) || negb (bool_decide (b = b')) || negb (bool_decide (i = i'))
        | Secret t d i, Secret t' d' i' =>
            negb (bool_decide (t = t')) || negb (bool_decide (d = d')) || negb (bool_decide (i = i'))
        | Service s st, Service s' st' =>
            negb (bool_decide (s = s')) || negb (bool_decide (st = st'))
        | OtherKind _ (Some s), OtherKind _ s' => negb (bool_decide (Some s = s'))
        | _, _ => false
        end
  | _, _ => true
  end.

Inductive watchEvent :=
| EventCreate (object : option watchedObject)
| EventUpdate (old current : option watchedObject)
| EventDelete (object : option watchedObject)
| EventGeneric (object : option watchedObject).

Definition objectKeyOf (o : watchedObject) : objectKey := (metaNamespace (meta o), metaName (meta o)).

(** [ObservationPredicate]'s [mark]: the keys it invalidates. *)
Definition mark (object : option watchedObject) : list objectKey :=
  match object with Some o => [objectKeyOf o] | None => [] end.

(** The keys the predicate invalidates for an event; it admits every event. *)
Definition ObservationPredicate (e : watchEvent) : list objectKey * bool :=
  match e with
  | EventCreate o => (mark o, true)
  | EventUpdate old current => (if DesiredStateChanged old current then mark current else [], true)
  | EventDelete o => (mark o, true)
  | EventGeneric o => (mark o, true)
  end.

(** [ObserveWith]: the requests the wrapped handler adds are queued, and invalidated too
    unless the event is an update that keeps the desired state. *)
Definition ObserveWith (handler : watchEvent → list objectKey) (e : watchEvent) :
    list objectKey * list objectKey :=
  let requests := handler e in
  match e with
  | EventUpdate old current =>
      (requests, if DesiredStateChanged old current then requests else [])
  | _ => (requests, requests)
  end.

(** What the comparison looks at. *)
Definition desiredState (o : watchedObject) :=
  (metaUID (meta o), metaGeneration (meta o), metaLabels (meta o), metaAnnotations (meta o),
   metaOwners (meta o), metaDeletion (meta o), body o).

(** An update keeps the observation exactly when the desired state, as compared, is the
    same; a type either has a spec field or has none. *)
Lemma DesiredStateChanged_spec old current :
  (∀ k s s', body old = OtherKind k s → body current = OtherKind k s' → is_Some s ↔ is_Some s') →
  DesiredStateChanged (Some old) (Some current) = false ↔ desiredState old = desiredState current.
Proof.
  intros Hspec. unfold DesiredStateChanged, objectMetadataChanged, desiredState. split.
  - intros H. destruct (sameType (body old) (body current)) eqn:Et; [|done]. cbn [negb] in H.
    match type of H with context [if ?b then true else false] => destruct b eqn:Em; [done|] end.
    bool_to_prop. destruct (body old) as [| | |k [s|]], (body current) as [| | |k' s'];
      try done; bool_to_prop; try congruence.
    + cbn in Et. bool_to_prop. congruence.
    + cbn in Et. bool_to_prop. subst k'. destruct s' as [s'|]; [|congruence].
      destruct (Hspec k None (Some s')) as [_ Hs]; [done..|]. by destruct Hs.
  - intros [= -> -> -> -> -> -> ->]. rewrite Z.eqb_refl, !bool_decide_eq_true_2 by done. cbn [negb orb].
    destruct (body current) as [| | |k [s|]]; cbn; rewrite ?bool_decide_eq_true_2 by done; done.
Qed.

Lemma observation_cache_fresh_witness :
  let key := ("lab", "node") in
  let stale := Load key (runCache newCache [OpLoad ("lab", "other")]) in
  Store key stale.1.1.2 "stale" (runCache stale.2 [OpInvalidate key; OpLoad key]) =
    runCache stale.2 [OpInvalidate key; OpLoad key]
  ∧ (Load key (Store key stale.1.1.2 "current" (runCache stale.2 [OpLoad key]))).1 =
    (Some "current", 2, true).
Proof.
  split.
  - exact (observation_cache_fresh [OpLoad ("lab", "other")]
      [OpInvalidate ("lab", "node"); OpLoad ("lab", "node")] ("lab", "node") "stale" eq_refl).
  - exact (observation_cache_fresh [OpLoad ("lab", "other")]
      [OpLoad ("lab", "node")] ("lab", "node") "current" eq_refl).
Defined.
