(* ===== verification/TopologyStatus.v ===== *)
(** * The status of a Topology

    Models [controllers/topology/status.go]: aggregating the emitted Nodes into the
    Topology's status, its lifecycle state, the coalescing of progress-only updates and
    the write with its retry on conflicts. *)

From S2P Require Import Prelude Api Grouping TopologyRollout TopologyEmitted ObservationCache.
Local Open Scope Z_scope.

(** ** Data *)

Definition TopologyStateDeploying : string := "deploying".
Definition TopologyStateRunning : string := "running".
Definition TopologyStateDegraded : string := "degraded".
Definition TopologyStateDeployFailed : string := "deployfailed".
Definition TopologyReadyStatus : string := "TopologyReady".
Definition TopologyChildResourceConflictReason : string := "ChildResourceConflict".
Definition NodeStatusReady : string := "ready".
Definition NodeStatusNotReady : string := "notready".

Record TopologyStatus := MkTopologyStatus {
  StatusKind : string;
  StatusObservedGeneration : Z;
  NodeCount : nat;
  ReadyNodeCount : nat;
  LinkCount : nat;
  TopologyReady : bool;
  TopologyState : string;
  StatusError : string;
  TopologyConditions : list Condition
}.
#[export] Instance TopologyStatus_updatable : Updatable TopologyStatus :=
  λ s, MkTopologyStatus (StatusKind s) (StatusObservedGeneration s) (NodeCount s)
         (ReadyNodeCount s) (LinkCount s) (TopologyReady s) (TopologyState s) (StatusError s)
         (TopologyConditions s).
#[export] Instance TopologyStatus_eq_dec : EqDecision TopologyStatus.
Proof. solve_decision. Defined.

(** The fields of a Topology the status code reads and writes. *)
Record Topology := MkTopology {
  TopologyNamespace : string;
  TopologySpec : emittingTopology;
  TopologyGeneration : Z;
  TopologyResourceVersion : string;
  TStatus : TopologyStatus
}.
#[export] Instance Topology_updatable : Updatable Topology :=
  λ t, MkTopology (TopologyNamespace t) (TopologySpec t) (TopologyGeneration t)
         (TopologyResourceVersion t) (TStatus t).

Definition topologyUID (topology : Topology) : string :=
  TopologyUID (TopologyRolloutPart (TopologySpec topology)).
Definition topologyKey (topology : Topology) : objectKey :=
  (TopologyNamespace topology, TopologyName (TopologySpec topology)).

(** What the status code reads of a compiled topology. *)
Record CompiledTopology := MkCompiledTopology {
  CompiledKind : string;
  CompiledNodes : gset string;
  CompiledLinks : nat
}.

(** ** The aggregated status *)

(** The Nodes [reconcileStatusWithError] lists: those labelled with the topology's name. *)
Definition labelledNodes (topology : Topology) (nodes : list Node) : list Node :=
  filter (λ n, NodeLabels n !! LabelTopologyOwner = Some (TopologyName (TopologySpec topology))) nodes.

Definition countReady (topology : Topology) (nodes : list Node) : nat :=
  foldl (λ ready n,
           if negb (ownedBy (NodeOwners n) (topologyUID topology)) then ready
           else if bool_decide (Readiness n = NodeStatusReady) then S ready else ready)
        0%nat (labelledNodes topology nodes).

Definition resolveTopologyState (topology : Topology) (desiredStatus : TopologyStatus) : string :=
  if TopologyReady desiredStatus then TopologyStateRunning
  else
    let previousState := TopologyState (TStatus topology) in
    let hasEverBeenRunning :=
      bool_decide (previousState = TopologyStateRunning)
      || bool_decide (previousState = TopologyStateDegraded) in
    if hasEverBeenRunning then TopologyStateDegraded else TopologyStateDeploying.

Section status.
Context `{!ConditionSetter}.

(** The transition time of a condition is set by [SetStatusCondition]. *)
Definition readyCondition (status : ConditionStatus) (reason message : string) : Condition :=
  MkCondition TopologyReadyStatus status 0 0 reason message.

(** [reconcileStatusWithError] up to the write. *)
Definition desiredTopologyStatus (topology : Topology) (compiled : CompiledTopology)
    (nodes : list Node) (topologyError : string) : TopologyStatus :=
  let readyNodeCount := countReady topology nodes in
  let desired := MkTopologyStatus (CompiledKind compiled) (TopologyGeneration topology)
    (size (CompiledNodes compiled)) readyNodeCount (CompiledLinks compiled)
    (bool_decide (topologyError = "")
     && Nat.ltb 0 (size (CompiledNodes compiled))
     && Nat.eqb readyNodeCount (size (CompiledNodes compiled)))
    "" topologyError (TopologyConditions (TStatus topology)) in
  let desired := desired <| TopologyState := resolveTopologyState topology desired |> in
  let condition :=
    if negb (bool_decide (topologyError = "")) then
      readyCondition ConditionFalse TopologyChildResourceConflictReason topologyError
    else if TopologyReady desired then
      readyCondition ConditionTrue NodeStatusReady "all nodes report ready"
    else
      readyCondition ConditionFalse NodeStatusNotReady
        "one or more nodes report not ready, check the node objects for more information" in
  desired <| TopologyConditions ::= (λ cs, SetStatusCondition cs condition) |>.
End status.

(** ** Coalescing of progress *)

Definition topologyProgressInterval : Z := 2 * 1000000000.
Definition millisecond : Z := 1000000.

Record statusWrite := StatusWrite {
  writeUID : string;
  at_ : Z;
  writePending : bool
}.

(** The zero value a missing key reads as; times are nanoseconds since the zero time. *)
Definition noStatusWrite : statusWrite := StatusWrite "" 0 false.

Notation statusWrites := (gmap objectKey statusWrite).

Definition statusProgressDelay (now : Z) (written : statusWrites) (topology : Topology) : Z :=
  let last := default noStatusWrite (written !! topologyKey topology) in
  if negb (bool_decide (writeUID last = topologyUID topology)) then 0
  else Z.max 0 (at_ last + topologyProgressInterval - now).

Definition recordStatusWrite (now : Z) (written : statusWrites) (topology : Topology) : statusWrites :=
  <[topologyKey topology := StatusWrite (topologyUID topology) now false]> written.

Definition forgetStatusWrite (written : statusWrites) (key : objectKey) : statusWrites :=
  delete key written.

Definition setStatusProgressPending (written : statusWrites) (topology : Topology) (pending : bool) :
    statusWrites :=
  match written !! topologyKey topology with
  | None => written
  | Some last => <[topologyKey topology := StatusWrite (writeUID last) (at_ last) pending]> written
  end.

Definition pendingStatusDelay (now : Z) (written : statusWrites) (topology : Topology) : Z :=
  let last := default noStatusWrite (written !! topologyKey topology) in
  if negb (writePending last) || negb (bool_decide (writeUID last = topologyUID topology)) then 0
  else Z.max millisecond (at_ last + topologyProgressInterval - now).

(** ** Writing the status *)

Inductive statusError := errGet | errConflict | errPatch.

(** The server's answers to the [n]th read and to the [n]th patch of one update. *)
Inductive patchAnswer := PatchOk (resourceVersion : string) | PatchConflict | PatchFailed.

Section write.
Variables (serverGet : nat → option Topology) (serverPatch : nat → patchAnswer).

(** The attempts of [RetryOnConflict]: a conflict is retried while attempts are left.
    The value is the topology whose status was found or written, and the statuses sent. *)
Fixpoint attempts (fuel n : nat) (refresh : bool) (current topology : Topology)
    (desired : TopologyStatus) : result statusError (option Topology) * list TopologyStatus :=
  match fuel with
  | O => (Err errConflict, [])
  | S fuel =>
      match (if refresh then serverGet n else Some current) with
      | None => (Err errGet, [])
      | Some current =>
          if negb (bool_decide (topologyUID current = topologyUID topology))
             || negb (Z.eqb (TopologyGeneration current) (TopologyGeneration topology))
          then (Ok None, [])
          else if bool_decide (TStatus current = desired) then (Ok (Some current), [])
          else
            match serverPatch n with
            | PatchOk version =>
                (Ok (Some (current <| TStatus := desired |> <| TopologyResourceVersion := version |>)),
                 [desired])
            | PatchFailed => (Err errPatch, [desired])
            | PatchConflict =>
                let '(r, sent) :=
                  attempts fuel (S n) true (current <| TStatus := desired |>) topology desired in
                (r, desired :: sent)
            end
      end
  end.

(** [retry.DefaultRetry] makes five attempts. *)
Definition defaultRetrySteps : nat := 5.

Record statusUpdate := StatusUpdate {
  updatedTopology : Topology;
  updatedWrites : statusWrites;
  sentStatuses : list TopologyStatus;
  updateErr : option statusError
}.

Definition updateTopologyStatus (now : Z) (written : statusWrites) (topology : Topology)
    (desired : TopologyStatus) : statusUpdate :=
  if bool_decide (TStatus topology = desired) then
    StatusUpdate topology (setStatusProgressPending written topology false) [] None
  else
    let previous := TStatus topology <| ReadyNodeCount := ReadyNodeCount desired |> in
    if bool_decide (previous = desired) && Z.ltb 0 (statusProgressDelay now written topology) then
      StatusUpdate topology (setStatusProgressPending written topology true) [] None
    else
      let refresh := bool_decide (TopologyResourceVersion topology = "") in
      match attempts defaultRetrySteps 0 refresh topology topology desired with
      | (Err e, sent) => StatusUpdate topology written sent (Some e)
      | (Ok None, sent) => StatusUpdate topology written sent None
      | (Ok (Some updated), sent) =>
          let topology := topology <| TStatus := TStatus updated |>
                            <| TopologyResourceVersion := TopologyResourceVersion updated |> in
          StatusUpdate topology (recordStatusWrite now written topology) sent None
      end.
End write.

(** ** Readiness *)

(** A node of the topology that reports ready. *)
Definition readyNode (topology : Topology) (n : Node) : Prop :=
  NodeLabels n !! LabelTopologyOwner = Some (TopologyName (TopologySpec topology))
  ∧ ownedBy (NodeOwners n) (topologyUID topology) = true ∧ Readiness n = NodeStatusReady.

#[export] Instance readyNode_dec topology n : Decision (readyNode topology n).
Proof. unfold readyNode. apply _. Defined.

Lemma countReady_filter topology nodes :
  countReady topology nodes = length (filter (readyNode topology) nodes).
Proof.
  unfold countReady, labelledNodes.
  assert (∀ l k, foldl (λ ready n, if negb (ownedBy (NodeOwners n) (topologyUID topology)) then ready
      else if bool_decide (Readiness n = NodeStatusReady) then S ready else ready) k
      (filter (λ n, NodeLabels n !! LabelTopologyOwner = Some (TopologyName (TopologySpec topology))) l) =
    (k + length (filter (readyNode topology) l))%nat) as H; [|apply H].
  intros l. induction l as [|n l IH]; intros k; [simpl; lia|].
  rewrite !filter_cons.
  destruct (decide (NodeLabels n !! _ = _)) as [Hl|Hl]; cbn [foldl].
  - destruct (ownedBy _ _) eqn:Ho; cbn [negb]; [case_bool_decide as Hr|].
    + rewrite decide_True by done. rewrite IH. cbn [length]. lia.
    + rewrite decide_False by (unfold readyNode; tauto). apply IH.
    + rewrite decide_False by (intros (_ & ? & _); congruence). apply IH.
  - rewrite decide_False by (unfold readyNode; tauto). apply IH.
Qed.

Section readiness.
Context `{!ConditionSetter}.

Lemma desired_TopologyReady topology compiled nodes err :
  TopologyReady (desiredTopologyStatus topology compiled nodes err) =
  bool_decide (err = "") && Nat.ltb 0 (size (CompiledNodes compiled))
  && Nat.eqb (countReady topology nodes) (size (CompiledNodes compiled)).
Proof. done. Qed.

(** When no Node of the topology is left over from an earlier definition, the
    reported readiness is exact: the status says [topologyReady] if and only if no child
    conflict is reported, the topology compiled to at least one node, and every compiled
    node exists, is owned by the topology and reports ready. *)
Theorem topology_ready_exact topology compiled nodes err :
  NoDup (NodeObjectName <$> nodes) →
  (∀ n, n ∈ nodes → readyNode topology n → NodeObjectName n ∈ CompiledNodes compiled) →
  TopologyReady (desiredTopologyStatus topology compiled nodes err) = true ↔
  err = "" ∧ CompiledNodes compiled ≠ ∅
  ∧ ∀ name, name ∈ CompiledNodes compiled →
      ∃ n, n ∈ nodes ∧ NodeObjectName n = name ∧ readyNode topology n.
Proof.
  intros Hnd Hsub. rewrite desired_TopologyReady, countReady_filter.
  set (ready := filter (readyNode topology) nodes).
  assert (size (list_to_set (NodeObjectName <$> ready) : gset string) = length ready) as Hsize.
  { rewrite size_list_to_set by (by apply NoDup_fmap_filter). apply length_fmap. }
  assert ((list_to_set (NodeObjectName <$> ready) : gset string) ⊆ CompiledNodes compiled) as Hss.
  { intros x Hx%elem_of_list_to_set. apply list_elem_of_fmap in Hx as (n & -> & [Hr Hn]%list_elem_of_filter).
    by apply Hsub. }
  rewrite !andb_true_iff, bool_decide_eq_true, Nat.ltb_lt, Nat.eqb_eq. split.
  - intros [[-> Hpos] Heq]. split_and!; [done| |].
    + intros He. rewrite He, size_empty in Hpos. lia.
    + intros name Hname.
      assert (name ∈ (list_to_set (NodeObjectName <$> ready) : gset string)) as Hin.
      { by rewrite (set_subseteq_size_eq _ _ Hss) by lia. }
      apply elem_of_list_to_set, list_elem_of_fmap in Hin as (n & -> & [Hr Hn]%list_elem_of_filter).
      by exists n.
  - intros (-> & Hne & Hall). split_and!; [done| |].
    + apply Nat.neq_0_lt_0. intros Hz. apply Hne. by apply size_empty_inv, leibniz_equiv in Hz.
    + rewrite <- Hsize. f_equal. apply set_eq. intros x. split; [apply Hss|].
      intros (n & Hn & <- & Hr)%Hall. apply elem_of_list_to_set, list_elem_of_fmap_2.
      by apply list_elem_of_filter.
Qed.
End readiness.

(** ** The lifecycle *)

(** One status pass: the topology may have been given another definition since the last
    one; the listed nodes, the error, the time and the server's answers are arbitrary. *)
Definition statusPass `{!ConditionSetter} (t t' : Topology) : Prop :=
  ∃ spec generation version compiled nodes err now written get patch,
    let t0 := t <| TopologySpec := spec |> <| TopologyGeneration := generation |>
                <| TopologyResourceVersion := version |> in
    t' = updatedTopology (updateTopologyStatus get patch now written t0
           (desiredTopologyStatus t0 compiled nodes err)).

Lemma attempts_updated get patch topology desired fuel : ∀ n refresh current updated sent,
  attempts get patch fuel n refresh current topology desired = (Ok (Some updated), sent) →
  TStatus updated = desired.
Proof.
  induction fuel as [|fuel IH]; intros n refresh current updated sent; cbn [attempts]; [done|].
  destruct (if refresh then _ else _) as [cur|]; [|done].
  destruct (_ || _); [done|]. case_bool_decide as Hs; [intros [= <- <-]; done|].
  destruct (patch n) as [v| |]; [by intros [= <- <-]| |done].
  destruct (attempts _ _ fuel _ _ _ _ _) as [r sent'] eqn:Ha. intros [= -> <-]. by eapply IH.
Qed.

Lemma update_status get patch now written topology desired :
  let t' := updatedTopology (updateTopologyStatus get patch now written topology desired) in
  TStatus t' = TStatus topology ∨ TStatus t' = desired.
Proof.
  unfold updateTopologyStatus. case_bool_decide; [by left|]. destruct (_ && _); [by left|].
  destruct (attempts _ _ _ _ _ _ _ _) as [[[updated|]|e] sent] eqn:Ha; [|by left|by left].
  right. cbn. by eapply attempts_updated.
Qed.

Definition settledState (s : string) : Prop := s = TopologyStateRunning ∨ s = TopologyStateDegraded.

(** The states the controller writes, and how they relate to readiness. *)
Definition lifecycleInv (s : TopologyStatus) : Prop :=
  (TopologyReady s = true ↔ TopologyState s = TopologyStateRunning)
  ∧ TopologyState s ∈ [""; TopologyStateDeploying; TopologyStateRunning; TopologyStateDegraded].

Section lifecycle.
Context `{!ConditionSetter}.

Lemma desired_state topology compiled nodes err :
  let d := desiredTopologyStatus topology compiled nodes err in
  TopologyState d =
    if TopologyReady d then TopologyStateRunning
    else if bool_decide (TopologyState (TStatus topology) = TopologyStateRunning)
            || bool_decide (TopologyState (TStatus topology) = TopologyStateDegraded)
         then TopologyStateDegraded else TopologyStateDeploying.
Proof. done. Qed.

Lemma statusPass_lifecycle t t' :
  statusPass t t' → lifecycleInv (TStatus t) →
  lifecycleInv (TStatus t') ∧ (settledState (TopologyState (TStatus t)) → settledState (TopologyState (TStatus t'))).
Proof.
  intros (spec & gen & ver & compiled & nodes & err & now & written & get & patch & ->) Hinv.
  match goal with |- context [updateTopologyStatus _ _ _ _ ?x _] => set (t0 := x) end.
  set (desired := desiredTopologyStatus t0 compiled nodes err).
  assert (TStatus t0 = TStatus t) as H0 by done.
  destruct (update_status get patch now written t0 desired) as [Hu|Hu]; cbv zeta; rewrite Hu, ?H0; [done|].
  pose proof (desired_state t0 compiled nodes err : TopologyState desired = _) as Hd.
  fold desired in Hd. rewrite H0 in Hd. unfold lifecycleInv, settledState.
  destruct (TopologyReady desired); [rewrite Hd; split; [split; [done|repeat constructor]|by left]|].
  destruct (_ || _) eqn:E; rewrite Hd.
  - split; [split; [done|]|by right]. do 3 right. left.
  - split; [split; [done|]|]; [right; left|].
    apply orb_false_iff in E as [E1 E2]. bool_to_prop. by intros [?|?].
Qed.

(** The lifecycle of a topology.  From a fresh topology, over any sequence of
    status passes (with definitions changing in between, any nodes observed, failed and
    conflicting writes included), the state is [running] exactly while [topologyReady] is
    set, a topology that has once been running or degraded is never reported as deploying
    again, and the state [deployfailed] the API documents is never reported. *)
Theorem topology_lifecycle t0 t t' :
  TopologyState (TStatus t0) = "" → TopologyReady (TStatus t0) = false →
  rtc statusPass t0 t → rtc statusPass t t' →
  (TopologyReady (TStatus t') = true ↔ TopologyState (TStatus t') = TopologyStateRunning)
  ∧ (settledState (TopologyState (TStatus t)) → settledState (TopologyState (TStatus t')))
  ∧ TopologyState (TStatus t') ≠ TopologyStateDeployFailed.
Proof.
  intros Hs Hr H0 H1.
  assert (∀ a b, rtc statusPass a b → lifecycleInv (TStatus a) → lifecycleInv (TStatus b)
    ∧ (settledState (TopologyState (TStatus a)) → settledState (TopologyState (TStatus b)))) as Hrun.
  { intros a b Hab. induction Hab as [a|a b c Hab Hbc IH]; intros Hi; [done|].
    destruct (statusPass_lifecycle a b Hab Hi) as [Hb Hset]. destruct (IH Hb) as [Hc Hset']. auto. }
  assert (lifecycleInv (TStatus t0)) as Hi0.
  { split; [by rewrite Hs, Hr|]. rewrite Hs. left. }
  destruct (Hrun _ _ H0 Hi0) as [Hi _]. destruct (Hrun _ _ H1 Hi) as [[Hready Hin] Hset].
  split_and!; [done..|]. intros Hf. rewrite Hf, list_elem_of_In in Hin.
  cbn in Hin. by destruct Hin as [?|[?|[?|[?|[]]]]].
Qed.
End lifecycle.

(** ** Coalescing *)

(** A status read from the server is sent at once when it is not withheld. *)
Lemma attempts_send get patch topology desired fuel :
  TStatus topology ≠ desired →
  head (attempts get patch (S fuel) 0 false topology topology desired).2 = Some desired.
Proof.
  intros Hne. cbn [attempts]. rewrite bool_decide_eq_true_2, Z.eqb_refl, bool_decide_eq_false_2 by done.
  cbn [negb orb]. destruct (patch 0%nat); [done| |done]. by destruct (attempts _ _ fuel _ _ _ _ _).
Qed.

Lemma update_send get patch now written topology desired :
  TStatus topology ≠ desired → TopologyResourceVersion topology ≠ "" →
  let previous := TStatus topology <| ReadyNodeCount := ReadyNodeCount desired |> in
  (previous = desired → statusProgressDelay now written topology ≤ 0) →
  head (sentStatuses (updateTopologyStatus get patch now written topology desired)) = Some desired.
Proof.
  intros Hne Hrv previous Hp. unfold updateTopologyStatus.
  rewrite bool_decide_eq_false_2 by done. fold previous.
  assert (bool_decide (previous = desired) && Z.ltb 0 (statusProgressDelay now written topology) = false)
    as ->.
  { case_bool_decide as Hd; [|done]. simpl. apply Z.ltb_ge. by apply Hp. }
  rewrite bool_decide_eq_false_2 by done.
  pose proof (attempts_send get patch topology desired 4 Hne) as Hs. unfold defaultRetrySteps.
  destruct (attempts _ _ _ _ _ _ _ _) as [[[u|]|e] sent]; exact Hs.
Qed.

(** Coalescing withholds nothing but progress, and progress by at most the
    interval.  For a topology read from the server whose desired status differs, the
    status is sent at once, unless the count of ready nodes is the only difference and
    this topology's status was written less than two seconds ago; then a requeue within
    two seconds is due, and an update made when it fires, or later, sends the status. *)
Theorem status_progress_not_lost get patch get' patch' now now' written topology desired :
  TStatus topology ≠ desired → TopologyResourceVersion topology ≠ "" →
  (∀ w, written !! topologyKey topology = Some w → at_ w ≤ now) →
  topologyUID topology ≠ "" →
  let r := updateTopologyStatus get patch now written topology desired in
  let delay := pendingStatusDelay now (updatedWrites r) topology in
  head (sentStatuses r) = Some desired
  ∨ (TStatus topology <| ReadyNodeCount := ReadyNodeCount desired |> = desired
     ∧ (∃ w, written !! topologyKey topology = Some w ∧ writeUID w = topologyUID topology
             ∧ now < at_ w + topologyProgressInterval)
     ∧ 0 < delay ≤ topologyProgressInterval
     ∧ (now + delay ≤ now' →
        head (sentStatuses (updateTopologyStatus get' patch' now' (updatedWrites r) topology desired))
          = Some desired)).
Proof.
  intros Hne Hrv Hclock Huid r delay.
  set (previous := TStatus topology <| ReadyNodeCount := ReadyNodeCount desired |>).
  destruct (decide (previous = desired ∧ 0 < statusProgressDelay now written topology)) as [[Hp Hd]|Hnot].
  2:{ left. apply update_send; [done..|]. fold previous. intros Heq. apply Z.nlt_ge. tauto. }
  right. pose proof Hd as Hdelay. unfold statusProgressDelay in Hdelay.
  destruct (written !! topologyKey topology) as [w|] eqn:Hw; cbn [default] in Hdelay.
  2:{ unfold from_option, noStatusWrite in Hdelay. cbn in Hdelay.
      rewrite bool_decide_eq_false_2 in Hdelay by congruence. simpl in Hdelay. lia. }
  cbn in Hdelay. case_bool_decide as Hu; cbn [negb] in Hdelay; [|lia].
  specialize (Hclock w eq_refl).
  assert (updatedWrites r =
    <[topologyKey topology := StatusWrite (writeUID w) (at_ w) true]> written) as Hr.
  { unfold r, updateTopologyStatus. rewrite bool_decide_eq_false_2 by done. fold previous.
    rewrite bool_decide_eq_true_2 by done. apply Z.ltb_lt in Hd. rewrite Hd. cbn.
    unfold setStatusProgressPending. by rewrite Hw. }
  assert (delay = Z.max millisecond (at_ w + topologyProgressInterval - now)) as Hdl.
  { unfold delay, pendingStatusDelay. rewrite Hr, lookup_insert_eq. cbn.
    by rewrite bool_decide_eq_true_2. }
  unfold topologyProgressInterval, millisecond in *. split_and!; [done| |lia|lia|].
  - exists w. split_and!; [done..|lia].
  - intros Hlater. apply update_send; [done..|]. intros _. unfold statusProgressDelay.
    rewrite Hr, lookup_insert_eq. cbn. destruct (negb _); [done|]. unfold topologyProgressInterval. lia.
Qed.

(** ** Concrete runs *)

(** A setter that replaces the condition of the same type. *)
#[local] Instance replacing_setter : ConditionSetter :=
  λ cs c, filter (λ x, ConditionType x ≠ ConditionType c) cs ++ [c].

Definition sample_topology (state : string) (ready : bool) (count : nat) : Topology :=
  MkTopology "lab" (EmittingTopology "topo" (RolloutTopology "uid-t" None)) 3 "17"
    (MkTopologyStatus "containerlab" 3 1 count 0 ready state "" []).

Definition sample_owned (name readiness : string) : Node :=
  BuildNode name ("uid-" +:+ name) "1" {[LabelTopologyOwner := "topo"]} ∅
    [MkOwnerReference "Topology" "topo" "uid-t" true] "" "" "" readiness.

(** A leftover can mask an unready node.  The status compares the number of ready
    Nodes the topology owns with the number of compiled nodes, not their names: while a
    ready Node that fell out of the definition is still listed (being deleted, or deleted
    but still in the cache), a topology whose only compiled node is not ready is reported
    as ready and running. *)
Theorem leftover_node_masks_unready :
  let topology := sample_topology "" false 0 in
  let compiled := MkCompiledTopology "containerlab" {["srl1"]} 0 in
  let nodes := [sample_owned "srl1" NodeStatusNotReady; sample_owned "removed" NodeStatusReady] in
  let d := desiredTopologyStatus topology compiled nodes "" in
  TopologyReady d = true ∧ TopologyState d = TopologyStateRunning.
Proof. vm_compute. done. Qed.

Lemma topology_ready_exact_witness :
  let topology := sample_topology "" false 0 in
  let compiled := MkCompiledTopology "containerlab" {["srl1"]} 0 in
  TopologyReady (desiredTopologyStatus topology compiled
    [sample_owned "srl1" NodeStatusReady] "") = true.
Proof.
  apply topology_ready_exact.
  - apply NoDup_singleton.
  - intros n ->%list_elem_of_singleton _. vm_compute. reflexivity.
  - split_and!; [done| |].
    + intros H. apply (f_equal size) in H. vm_compute in H. done.
    + cbn [CompiledNodes]. intros name ->%elem_of_singleton. exists (sample_owned "srl1" NodeStatusReady).
      split_and!; [left|done|]. vm_compute. done.
Defined.

Lemma topology_lifecycle_witness :
  ∃ t', statusPass (sample_topology "" false 0) t'
  ∧ TopologyState (TStatus t') = TopologyStateRunning
  ∧ TopologyState (TStatus t') ≠ TopologyStateDeployFailed.
Proof.
  set (t0 := sample_topology "" false 0).
  set (compiled := MkCompiledTopology "containerlab" {["srl1"]} 0).
  set (nodes := [sample_owned "srl1" NodeStatusReady]).
  exists (updatedTopology (updateTopologyStatus (λ _, None) (λ _, PatchOk "18") 5 ∅ t0
    (desiredTopologyStatus t0 compiled nodes ""))).
  match goal with |- statusPass _ ?t' ∧ _ =>
    assert (statusPass t0 t') as Hpass
  end.
  { by exists (TopologySpec t0), 3, "17", compiled, nodes, "", 5, ∅, (λ _, None), (λ _, PatchOk "18"). }
  split; [done|]. split; [vm_compute; reflexivity|].
  refine (proj2 (proj2 (topology_lifecycle t0 t0 _
    eq_refl eq_refl (rtc_refl _ _) (rtc_once _ _ Hpass)))).
Defined.

Lemma status_progress_not_lost_witness :
  let topology := sample_topology TopologyStateDeploying false 0 in
  let desired := TStatus topology <| ReadyNodeCount := 1%nat |> in
  let written := {[("lab", "topo") := StatusWrite "uid-t" 1000 false]} in
  let r := updateTopologyStatus (λ _, None) (λ _, PatchOk "18") 2000 written topology desired in
  sentStatuses r = []
  ∧ pendingStatusDelay 2000 (updatedWrites r) topology = 1999999000
  ∧ head (sentStatuses (updateTopologyStatus (λ _, None) (λ _, PatchOk "18") 2000001000
            (updatedWrites r) topology desired)) = Some desired.
Proof.
  intros topology desired written r. split; [vm_compute; reflexivity|].
  split; [vm_compute; reflexivity|].
  destruct (status_progress_not_lost (λ _, None) (λ _, PatchOk "18") (λ _, None) (λ _, PatchOk "18")
    2000 2000001000 written topology desired) as [Hsent|(_ & _ & _ & Hlater)].
  - intros H. apply (f_equal ReadyNodeCount) in H. done.
  - done.
  - intros w Hw. vm_compute in Hw. injection Hw as <-. done.
  - done.
  - exfalso. vm_compute in Hsent. done.
  - apply Hlater. vm_compute. done.
Defined.
