(* ===== verification/TopologyReconcile.v ===== *)
(** * One reconcile of a Topology

    Models [Controller.Reconcile], [Reconciler.Reconcile] and [observeTopology] of
    [controllers/topology/reconcile.go]: the cached observation, the conflict check that
    precedes every write, the order in which the three kinds are enforced, and the status.
    What the compiler renders for a topology is an argument, as are the API server's
    answers and the clock. *)

From S2P Require Import Prelude Api Grouping TopologyRollout TopologyEmitted ObservationCache TopologyStatus.
Local Open Scope Z_scope.

(** ** Data *)

Definition second : Z := 1000000000.
Definition topologyChildConflictRequeueAfter : Z := 10 * second.

Record topologyObservation := TopologyObservation {
  observedTopology : Topology;
  observedCompiled : CompiledTopology;
  checkedAt : Z
}.

(** The reconciler's own state; [observations] may be nil. *)
Record Reconciler := MkReconciler {
  observations : option (ObservationCache topologyObservation);
  statusWritten : statusWrites
}.
#[export] Instance Reconciler_updatable : Updatable Reconciler :=
  λ r, MkReconciler (observations r) (statusWritten r).

Inductive topologyError :=
| errInvalidBatchSize
| errGettingTopology
| errCompile
| errList
| errEmit (e : emitError)
| errRollout (e : rolloutError)
| errStatus (e : statusError).

(** What a pass reads and how the API server answers its writes; [None] is a failed
    list.  The Nodes listed while observing are those after the writes. *)
Record cluster := Cluster {
  serverProfiles : option (list NodeProfile);
  serverLinks : option (list Link);
  serverNodes : option (list Node);
  cachedProfiles : option (list NodeProfile);
  cachedLinks : option (list Link);
  cachedNodes : option (list Node);
  observedNodes : option (list Node);
  observedPods : option (list Pod);
  controllerProfile : NodeProfile → option NodeProfile;
  controllerLink : Link → option Link;
  controllerNode : Node → option Node;
  answerProfile : string → writeAnswer;
  answerLink : string → writeAnswer;
  answerNode : string → writeAnswer;
  patchNode : string → bool;
  statusGet : nat → option Topology;
  statusPatch : nat → patchAnswer;
  now : Z
}.

Record passOutput := PassOutput {
  profileWrites : list (emittedWrite NodeProfile);
  linkWrites : list (emittedWrite Link);
  nodeWrites : list (emittedWrite Node);
  admittedNames : list string;
  statusSent : list TopologyStatus;
  requeueAfter : Z;
  passErr : option topologyError;
  passState : Reconciler
}.
#[export] Instance passOutput_updatable : Updatable passOutput :=
  λ o, PassOutput (profileWrites o) (linkWrites o) (nodeWrites o) (admittedNames o)
         (statusSent o) (requeueAfter o) (passErr o) (passState o).

(** Nothing done yet. *)
Definition noOutput (r : Reconciler) : passOutput := PassOutput [] [] [] [] [] 0 None r.

Definition failWith (e : topologyError) (o : passOutput) : passOutput := o <| passErr := Some e |>.

Definition formatChildResourceConflicts (namespace : string) (conflicts : list string) : string :=
  "duplicate resources found in the " +:+ namespace +:+ " namespace: "
  +:+ String.concat ", " conflicts +:+ String (Ascii.ascii_of_nat 10) ""
  +:+ "create the topology in a different namespace or disambiguate node names.".

(** ** The pass *)

Section pass.
Context `{!ConditionSetter, !RangeOrder string}.
(** The metadata and spec of a Topology as the cache compares them, and the compiler's
    output for it; [None] is a compile or render error. *)
Variables (asObject : Topology → watchedObject)
  (compile : Topology → option (CompiledTopology * renderedChildren)).
Variable w : cluster.

Definition reconcileStatusWithError (r : Reconciler) (topology : Topology) (compiled : CompiledTopology)
    (topologyError : string) (o : passOutput) : passOutput :=
  match observedNodes w with
  | None => failWith errList o
  | Some nodes =>
      let u := updateTopologyStatus (statusGet w) (statusPatch w) (now w) (statusWritten r) topology
                 (desiredTopologyStatus topology compiled nodes topologyError) in
      let o := o <| statusSent := sentStatuses u |>
                 <| passState := r <| statusWritten := updatedWrites u |> |> in
      match updateErr u with
      | Some e => failWith (errStatus e) o
      | None => o
      end
  end.

Definition observeTopology (r : Reconciler) (topology : Topology) (compiled : CompiledTopology)
    (o : passOutput) : passOutput :=
  match observedNodes w with
  | None => failWith errList o
  | Some nodes =>
      let '(pending, rel) :=
        advanceStartupBatch (TopologyRolloutPart (TopologySpec topology)) (CompiledNodes compiled)
          nodes (observedPods w) (patchNode w) in
      let o := o <| admittedNames := releasedNames rel |> in
      match releaseError rel with
      | Some e => failWith (errRollout e) o
      | None =>
          let after := if pending then second else 60 * second in
          let o := reconcileStatusWithError r topology compiled "" o in
          let delay := pendingStatusDelay (now w) (statusWritten (passState o)) topology in
          let after := if Z.ltb 0 delay && Z.ltb delay after then delay else after in
          o <| requeueAfter := after |>
      end
  end.

(** The part of [Reconcile] after the cached observation was not usable. *)
Definition enforceTopology (r : Reconciler) (token : Z) (topology : Topology) : passOutput :=
  let o := noOutput r in
  match compile topology with
  | None => failWith errCompile o
  | Some (compiled, rendered) =>
      match findChildResourceConflicts (TopologySpec topology) rendered
              (serverProfiles w) (serverLinks w) (serverNodes w) with
      | None => failWith errList o
      | Some (c :: conflicts) =>
          let o := reconcileStatusWithError r topology compiled
            (formatChildResourceConflicts (TopologyNamespace topology) (c :: conflicts)) o in
          match passErr o with
          | Some _ => o
          | None => o <| requeueAfter := topologyChildConflictRequeueAfter |>
          end
      | Some [] =>
          match cachedProfiles w with
          | None => failWith errList o
          | Some profiles =>
              let ep := reconcileNodeProfiles (TopologySpec topology) (controllerProfile w)
                          (answerProfile w) profiles (renderedProfiles rendered) in
              let o := o <| profileWrites := emittedWrites ep |> in
              match emittedError ep with
              | Some e => failWith (errEmit e) o
              | None =>
                  match cachedLinks w with
                  | None => failWith errList o
                  | Some links =>
                      let el := reconcileLinks (TopologySpec topology) (controllerLink w)
                                  (answerLink w) links (renderedLinks rendered) in
                      let o := o <| linkWrites := emittedWrites el |> in
                      match emittedError el with
                      | Some e => failWith (errEmit e) o
                      | None =>
                          match cachedNodes w with
                          | None => failWith errList o
                          | Some nodes =>
                              let en := reconcileNodes (TopologySpec topology) (controllerNode w)
                                          (answerNode w) nodes (renderedNodes rendered) in
                              let o := o <| nodeWrites := emittedWrites en |> in
                              match emittedError en with
                              | Some e => failWith (errEmit e) o
                              | None =>
                                  let r := r <| observations ::=
                                    fmap (M := option) (Store (topologyKey topology) token
                                      (TopologyObservation topology compiled (now w))) |> in
                                  observeTopology r topology compiled (o <| passState := r |>)
                              end
                          end
                      end
                  end
              end
          end
      end
  end.

Definition Reconcile (r : Reconciler) (topology : Topology) : passOutput :=
  if Z.ltb (startupBatchSize (TopologyRolloutPart (TopologySpec topology))) 0 then
    failWith errInvalidBatchSize (noOutput r)
  else
    match observations r with
    | None => enforceTopology r 0 topology
    | Some cache =>
        let '(cached, epoch, valid, cache) := Load (topologyKey topology) cache in
        let r := r <| observations := Some cache |> in
        match cached with
        | Some seen =>
            if valid && Z.ltb (now w - checkedAt seen) (5 * 60 * second)
               && negb (DesiredStateChanged (Some (asObject (observedTopology seen)))
                          (Some (asObject topology)))
            then observeTopology r topology (observedCompiled seen) (noOutput r)
            else enforceTopology r epoch topology
        | None => enforceTopology r epoch topology
        end
    end.

Inductive getAnswer := GetFound (topology : Topology) | GetNotFound | GetFailed.

(** [Controller.Reconcile] for a request. *)
Definition ControllerReconcile (r : Reconciler) (key : objectKey) (get : getAnswer) : passOutput :=
  match get with
  | GetNotFound =>
      noOutput (r <| observations ::= fmap (M := option) (Invalidate key) |>
                  <| statusWritten ::= (λ ws, forgetStatusWrite ws key) |>)
  | GetFailed => failWith errGettingTopology (noOutput r)
  | GetFound topology =>
      if bool_decide (is_Some (metaDeletion (meta (asObject topology)))) then noOutput r
      else if ShouldIgnoreReconcile (metaLabels (meta (asObject topology))) then noOutput r
      else Reconcile r topology
  end.
End pass.

(** ** What a pass may touch *)

(** A write under the objects the API server listed for the conflict check and those of the
    cache.  A create is of a rendered object that the cache does not show; an update is of a
    rendered one that the cache shows as generated for the topology, under the version shown;
    neither uses a name that the API server lists for an object of anybody else.  A delete is
    of an object that is not rendered and that the cache shows as generated for the
    topology. *)
Definition safeWrite {T} `{EmittedKind T} (labels : T → gmap string string)
    (owners : T → list OwnerReference) (topology : emittingTopology) (server cached rendered : list T)
    (wr : emittedWrite T) : Prop :=
  let ours o := generatedForTopology (labels o) (owners o) topology = true in
  let free name := ∀ s, s ∈ server → objName s = name → ours s in
  match wr with
  | CreateObject o =>
      objName o ∈ objName <$> rendered ∧ free (objName o) ∧ ∀ c, c ∈ cached → objName c = objName o → ¬ ours c
  | UpdateObject o =>
      objName o ∈ objName <$> rendered ∧ free (objName o)
      ∧ ∃ c o', c ∈ cached ∧ objName c = objName o ∧ ours c ∧ o = setResourceVersion c o'
  | DeleteObject name =>
      name ∉ objName <$> rendered ∧ ∃ c, c ∈ cached ∧ objName c = name ∧ ours c
  end.

Lemma kind_safe {T} `{LawfulKind T compiled} `{!RangeOrder string} labels owners topology
    setController answer (server cached rendered rendered' : list T) :
  (∀ o o', setController o = Some o' → objName o' = objName o) →
  NoDup (objName <$> cached) → NoDup (objName <$> rendered) → objName <$> rendered' = objName <$> rendered →
  (∀ o, o ∈ server → objName o ∈ objName <$> rendered →
     generatedForTopology (labels o) (owners o) topology = true) →
  Forall (safeWrite labels owners topology server cached rendered)
    (emittedWrites (reconcileEmitted setController answer rendered'
       (generatedObjects labels owners topology cached))).
Proof.
  intros Hset Hni Hnr Hnames Hgen.
  eapply list.Forall_impl.
  - apply (reconcileEmitted_touches setController answer Hset
      (generatedObjects labels owners topology cached) rendered'); [|by rewrite Hnames].
    intros n e He. by apply generatedObjects_lookup in He as (_ & ? & _).
  - intros wr. unfold withinExisting, safeWrite. rewrite Hnames. destruct wr as [o|o|name].
    + intros [Hin Hnone]. split; [done|]. split; [intros s Hs Hn; apply Hgen; [done|by rewrite Hn]|].
      intros c Hc Hn Hours. assert (generatedObjects labels owners topology cached !! objName o = Some c) as Hl; [|congruence].
      by apply generatedObjects_lookup.
    + intros (Hin & c & o' & (Hc & Hn & Hg)%generatedObjects_lookup & Ho); [|done].
      split; [done|]. split; [intros s Hs Hs'; apply Hgen; [done|by rewrite Hs']|]. eauto 10.
    + intros (Hin & c & (Hc & Hn & Hg)%generatedObjects_lookup); [|done]. eauto 10.
Qed.

(** What an empty conflict list says of each kind. *)
Lemma no_conflicts topology rendered objects :
  uniqueNames objects →
  findChildResourceConflicts topology rendered (Some (listedProfiles objects))
    (Some (listedLinks objects)) (Some (listedNodes objects)) = Some [] →
  NoDup (all rendered)
  ∧ ∀ ch m, ch ∈ all rendered → (ch, m) ∈ listed objects → generatedForTopology m.1 m.2 topology = true.
Proof.
  intros Hu Hc. destruct (child_conflicts_spec topology rendered objects Hu) as (cs & Hcs & _ & Hin).
  rewrite Hc in Hcs. injection Hcs as <-. split.
  - apply not_duplicated_NoDup. intros ch Hd.
    apply (elem_of_nil (conflictName ch.1 ch.2)), Hin. exists ch. split_and!; [|done|by left].
    by apply duplicated_elem.
  - intros ch m Hch Hm. destruct (generatedForTopology m.1 m.2 topology) eqn:E; [done|]. exfalso.
    apply (elem_of_nil (conflictName ch.1 ch.2)), Hin. exists ch. split_and!; [done..|]. right. by exists m.
Qed.

Lemma NoDup_all rendered :
  NoDup (all rendered) →
  NoDup (ProfileName <$> renderedProfiles rendered) ∧ NoDup (LinkName <$> renderedLinks rendered)
  ∧ NoDup (NodeObjectName <$> renderedNodes rendered).
Proof.
  unfold all. intros (Hp & _ & (Hl & _ & Hn)%list.NoDup_app)%list.NoDup_app.
  assert (∀ {A} (kind : string) (name : A → string) l,
    NoDup ((λ o, (kind, name o)) <$> l) → NoDup (name <$> l)) as Hstrip.
  { intros A kind name l H. apply (NoDup_fmap_1 (pair kind)). by rewrite <- list_fmap_compose. }
  split_and!; by eapply Hstrip.
Qed.

Lemma elem_of_all rendered ch :
  ch ∈ all rendered ↔
    (ch.1 = "nodeprofile" ∧ ch.2 ∈ ProfileName <$> renderedProfiles rendered)
    ∨ (ch.1 = "link" ∧ ch.2 ∈ LinkName <$> renderedLinks rendered)
    ∨ (ch.1 = "node" ∧ ch.2 ∈ NodeObjectName <$> renderedNodes rendered).
Proof.
  assert (∀ {A} (kind : string) (name : A → string) (l : list A),
    ch ∈ (λ o, (kind, name o)) <$> l ↔ ch.1 = kind ∧ ch.2 ∈ name <$> l) as Hkind.
  { intros A kind name l. destruct ch as [k n]. rewrite !list_elem_of_fmap. cbn. naive_solver. }
  unfold all. rewrite !elem_of_app. by rewrite !Hkind.
Qed.

Lemma elem_of_listed objects ch m :
  (ch, m) ∈ listed objects ↔
    (∃ x, x ∈ listedProfiles objects ∧ ch = ("nodeprofile", ProfileName x) ∧ m = (ProfileLabels x, ProfileOwners x))
    ∨ (∃ x, x ∈ listedLinks objects ∧ ch = ("link", LinkName x) ∧ m = (LinkLabels x, LinkOwners x))
    ∨ (∃ x, x ∈ listedNodes objects ∧ ch = ("node", NodeObjectName x) ∧ m = (NodeLabels x, NodeOwners x)).
Proof.
  unfold listed. rewrite !elem_of_app, !list_elem_of_fmap. split.
  - intros [(x & [= -> ->] & Hx)|[(x & [= -> ->] & Hx)|(x & [= -> ->] & Hx)]];
      [left|right; left|right; right]; by exists x.
  - intros [(x & Hx & -> & ->)|[(x & Hx & -> & ->)|(x & Hx & -> & ->)]];
      [left|right; left|right; right]; by exists x.
Qed.

Lemma prepared_names topology existing (rendered : list Node) :
  NodeObjectName <$> (prepareNode topology existing <$> rendered) = NodeObjectName <$> rendered.
Proof.
  rewrite <- list_fmap_compose. apply list_fmap_ext. intros _ o _. apply prepareNode_name.
Qed.

(** [SetControllerReference] keeps names. *)
Definition keepsNames (w : cluster) : Prop :=
  (∀ o o', controllerProfile w o = Some o' → ProfileName o' = ProfileName o)
  ∧ (∀ o o', controllerLink w o = Some o' → LinkName o' = LinkName o)
  ∧ (∀ o o', controllerNode w o = Some o' → NodeObjectName o' = NodeObjectName o).

(** What the API server lists for the conflict check, past the cache. *)
Definition serves (w : cluster) (objects : namespaceObjects) : Prop :=
  serverProfiles w = Some (listedProfiles objects) ∧ serverLinks w = Some (listedLinks objects)
  ∧ serverNodes w = Some (listedNodes objects).

(** What the cache lists, where it does; it may be behind the API server. *)
Definition cachedObjects (w : cluster) : namespaceObjects :=
  NamespaceObjects (default [] (cachedProfiles w)) (default [] (cachedLinks w)) (default [] (cachedNodes w)).

Section safe.
Context `{!ConditionSetter, !RangeOrder string}.
Variables (compile : Topology → option (CompiledTopology * renderedChildren)) (w : cluster).

(** Observing writes no children. *)
Lemma observe_writes r topology compiled o :
  let o' := observeTopology w r topology compiled o in
  profileWrites o' = profileWrites o ∧ linkWrites o' = linkWrites o ∧ nodeWrites o' = nodeWrites o.
Proof.
  unfold observeTopology, reconcileStatusWithError. destruct (observedNodes w); [|done].
  destruct (advanceStartupBatch _ _ _ _ _) as [pending rel]. destruct (releaseError rel); [done|].
  by destruct (updateErr _).
Qed.

Lemma status_writes r topology compiled err o :
  let o' := reconcileStatusWithError w r topology compiled err o in
  profileWrites o' = profileWrites o ∧ linkWrites o' = linkWrites o ∧ nodeWrites o' = nodeWrites o.
Proof.
  unfold reconcileStatusWithError. destruct (observedNodes w); [|done]. by destruct (updateErr _).
Qed.

(** The writes a pass makes for the kinds, in the order the code makes them. *)
Definition orderedWrites (topology : emittingTopology) (rendered : renderedChildren) (o : passOutput) : Prop :=
  let objects := cachedObjects w in
  let ep := reconcileNodeProfiles topology (controllerProfile w) (answerProfile w)
              (listedProfiles objects) (renderedProfiles rendered) in
  let el := reconcileLinks topology (controllerLink w) (answerLink w)
              (listedLinks objects) (renderedLinks rendered) in
  let en := reconcileNodes topology (controllerNode w) (answerNode w)
              (listedNodes objects) (renderedNodes rendered) in
  (profileWrites o = [] ∨ profileWrites o = emittedWrites ep)
  ∧ (linkWrites o = [] ∨ (linkWrites o = emittedWrites el ∧ profileWrites o = emittedWrites ep
       ∧ emittedError ep = None))
  ∧ (nodeWrites o = [] ∨ (nodeWrites o = emittedWrites en ∧ linkWrites o = emittedWrites el
       ∧ profileWrites o = emittedWrites ep ∧ emittedError ep = None ∧ emittedError el = None)).

Lemma enforce_ordered r token topology compiled rendered :
  compile topology = Some (compiled, rendered) →
  let o := enforceTopology compile w r token topology in
  orderedWrites (TopologySpec topology) rendered o
  ∧ (findChildResourceConflicts (TopologySpec topology) rendered (serverProfiles w) (serverLinks w)
       (serverNodes w) ≠ Some [] → profileWrites o = [] ∧ linkWrites o = [] ∧ nodeWrites o = []).
Proof.
  intros Hcomp. unfold enforceTopology, orderedWrites, cachedObjects. cbn [listedProfiles listedLinks listedNodes].
  rewrite Hcomp.
  destruct (findChildResourceConflicts _ _ _ _ _) as [[|c cs]|]; [|cbn zeta|cbn; tauto].
  - split; [|done]. destruct (cachedProfiles w) as [profiles|]; cbn [default id]; [|cbn; tauto].
    destruct (emittedError (reconcileNodeProfiles _ _ _ _ _)) eqn:Ep; [cbn; tauto|].
    destruct (cachedLinks w) as [links|]; cbn [default id]; [|cbn; tauto].
    destruct (emittedError (reconcileLinks _ _ _ _ _)) eqn:El; [cbn; tauto|].
    destruct (cachedNodes w) as [nodes|]; cbn [default id]; [|cbn; tauto].
    destruct (emittedError (reconcileNodes _ _ _ _ _)) eqn:En; [cbn; tauto|].
    cbn zeta. match goal with |- context [observeTopology w ?r ?t ?c ?o] =>
      destruct (observe_writes r t c o) as (-> & -> & ->) end. cbn. tauto.
  - match goal with |- context [reconcileStatusWithError w ?r ?t ?c ?e ?o] =>
      pose proof (status_writes r t c e o) as (Hp & Hl & Hn); set (o' := reconcileStatusWithError w r t c e o) in *
    end. clearbody o'. destruct (passErr o'); cbn; rewrite Hp, Hl, Hn; cbn; tauto.
Qed.

(** C31: What a reconcile of a topology may write, with a cache that is behind the API server
    and whatever the API server answers.  No object is created or updated under a name that
    the API server, asked past the cache, lists for an object not generated for this topology;
    creates are of rendered objects the cache does not show, updates carry the version of the
    generated object the cache shows, and deletes are of objects that are no longer rendered
    and that the cache shows as generated for the topology.  Links are written only after the
    profiles have been enforced without an error, and Nodes only after both.  (A delete has
    only the cache's word for whose object it is.) *)
Theorem topology_pass_safe asObject r topology compiled rendered server :
  serves w server → uniqueNames server → uniqueNames (cachedObjects w) → keepsNames w →
  compile topology = Some (compiled, rendered) →
  let o := Reconcile asObject compile w r topology in
  let t := TopologySpec topology in
  let cached := cachedObjects w in
  Forall (safeWrite ProfileLabels ProfileOwners t (listedProfiles server) (listedProfiles cached) (renderedProfiles rendered))
    (profileWrites o)
  ∧ Forall (safeWrite LinkLabels LinkOwners t (listedLinks server) (listedLinks cached) (renderedLinks rendered))
      (linkWrites o)
  ∧ Forall (safeWrite NodeLabels NodeOwners t (listedNodes server) (listedNodes cached) (renderedNodes rendered))
      (nodeWrites o)
  ∧ orderedWrites t rendered o.
Proof.
  intros Hserves Hu Huc Hk Hcomp o t cached.
  assert (orderedWrites t rendered o
    ∧ (findChildResourceConflicts t rendered (serverProfiles w) (serverLinks w) (serverNodes w) ≠ Some [] →
       profileWrites o = [] ∧ linkWrites o = [] ∧ nodeWrites o = [])) as [Hord Hnone].
  { unfold o, Reconcile. destruct (Z.ltb _ 0); [unfold orderedWrites; cbn; tauto|].
    destruct (observations r) as [cache|]; [|by eapply enforce_ordered].
    destruct (Load _ cache) as [[[seen epoch] valid] cache'].
    destruct seen as [seen|]; [|by eapply enforce_ordered].
    destruct (valid && _ && _); [|by eapply enforce_ordered].
    match goal with |- context [observeTopology w ?r ?t ?c ?o] =>
      unfold orderedWrites; destruct (observe_writes r t c o) as (-> & -> & ->) end. cbn. tauto. }
  destruct (decide (findChildResourceConflicts t rendered (serverProfiles w) (serverLinks w)
    (serverNodes w) = Some [])) as [Hc|Hc].
  2:{ destruct (Hnone Hc) as (-> & -> & ->). by split_and!. }
  destruct Hserves as (Hsp & Hsl & Hsn). rewrite Hsp, Hsl, Hsn in Hc.
  destruct (no_conflicts t rendered server Hu Hc) as [Hnd Hgen].
  apply NoDup_all in Hnd as (Hndp & Hndl & Hndn). destruct Huc as (Hup & Hul & Hun).
  destruct Hk as (Hkp & Hkl & Hkn).
  pose proof Hord as (Hp & Hl & Hn).
  split_and!; [| | |done].
  - destruct Hp as [-> | ->]; [constructor|]. eapply kind_safe; [done..|]. intros x Hx Hin.
    apply (Hgen ("nodeprofile", ProfileName x) (ProfileLabels x, ProfileOwners x));
      [by apply elem_of_all; left|apply elem_of_listed; left; by exists x].
  - destruct Hl as [-> | [-> _]]; [constructor|]. eapply kind_safe; [done..|]. intros x Hx Hin.
    apply (Hgen ("link", LinkName x) (LinkLabels x, LinkOwners x));
      [by apply elem_of_all; right; left|apply elem_of_listed; right; left; by exists x].
  - destruct Hn as [-> | [-> _]]; [constructor|]. eapply kind_safe; [done..|apply prepared_names|].
    intros x Hx Hin. apply (Hgen ("node", NodeObjectName x) (NodeLabels x, NodeOwners x));
      [by apply elem_of_all; right; right|apply elem_of_listed; right; right; by exists x].
Qed.
End safe.

(** ** Conflicts block the pass *)

Section conflicts.
Context `{!ConditionSetter, !RangeOrder string}.
Variables (compile : Topology → option (CompiledTopology * renderedChildren)) (w : cluster).

(** A rendered child another object occupies, or which is rendered twice. *)
Definition conflicting (topology : emittingTopology) (objects : namespaceObjects)
    (rendered : renderedChildren) (ch : string * string) : Prop :=
  ch ∈ all rendered
  ∧ (duplicated ch (all rendered)
     ∨ ∃ m, (ch, m) ∈ listed objects ∧ generatedForTopology m.1 m.2 topology = false).

Lemma sent_desired r topology compiled err s :
  err ≠ "" →
  s ∈ statusSent (reconcileStatusWithError w r topology compiled err (noOutput r)) →
  TopologyReady s = false ∧ StatusError s = err.
Proof.
  intros Herr. unfold reconcileStatusWithError. destruct (observedNodes w) as [nodes|]; [|by intros ?%elem_of_nil].
  set (d := desiredTopologyStatus topology compiled nodes err).
  assert (TopologyReady d = false ∧ StatusError d = err) as Hd.
  { split; [|done]. unfold d. rewrite desired_TopologyReady, bool_decide_eq_false_2 by done. done. }
  assert (∀ get patch fuel n refresh current,
    Forall (λ s, s = d) (attempts get patch fuel n refresh current topology d).2) as Hatt.
  { intros get patch fuel. induction fuel as [|fuel IH]; intros n refresh current; cbn [attempts]; [constructor|].
    destruct (if refresh then _ else _); [|constructor]. destruct (_ || _); [constructor|].
    case_bool_decide; [constructor|]. destruct (patch n); [by constructor| |by constructor].
    specialize (IH (S n) true (t <| TStatus := d |>)).
    destruct (attempts _ _ fuel _ _ _ _ _) as [x sent]. by constructor. }
  assert (Forall (λ s, s = d) (sentStatuses (updateTopologyStatus (statusGet w) (statusPatch w) (now w)
    (statusWritten r) topology d))) as Hsent.
  { unfold updateTopologyStatus. case_bool_decide; [constructor|]. destruct (_ && _); [constructor|].
    specialize (Hatt (statusGet w) (statusPatch w) defaultRetrySteps 0%nat
      (bool_decide (TopologyResourceVersion topology = "")) topology).
    by destruct (attempts _ _ _ _ _ _ _ _) as [[[u|]|e] sent]. }
  intros Hs. assert (s = d) as ->; [|done]. rewrite list.Forall_forall in Hsent. apply Hsent.
  by destruct (updateErr _).
Qed.

(** Conflicting names stop a topology before anything is written.  The conflict
    check reports exactly the rendered children that are rendered twice or whose name is
    taken by an object not generated for the topology, in strictly increasing order; if
    there is one, the pass creates, updates and deletes no child at all, the status it
    sends is not ready and carries the error naming the conflicts, and the topology is
    looked at again after ten seconds. *)
Theorem topology_conflicts_block r token topology compiled rendered objects ch nodes :
  serves w objects → uniqueNames objects → compile topology = Some (compiled, rendered) →
  observedNodes w = Some nodes → conflicting (TopologySpec topology) objects rendered ch →
  let o := enforceTopology compile w r token topology in
  ∃ conflicts,
    StronglySorted (λ a b, str_ltb a b = true) conflicts
    ∧ (∀ c, c ∈ conflicts ↔ ∃ ch, conflicting (TopologySpec topology) objects rendered ch
                              ∧ c = conflictName ch.1 ch.2)
    ∧ profileWrites o = [] ∧ linkWrites o = [] ∧ nodeWrites o = []
    ∧ (∀ s, s ∈ statusSent o → TopologyReady s = false
         ∧ StatusError s = formatChildResourceConflicts (TopologyNamespace topology) conflicts)
    ∧ (passErr o = None → requeueAfter o = topologyChildConflictRequeueAfter).
Proof.
  intros Hserves Hu Hcomp Hnodes Hch o.
  destruct (child_conflicts_spec (TopologySpec topology) rendered objects Hu) as (cs & Hcs & Hsort & Hin).
  assert (∀ c, c ∈ cs ↔ ∃ ch, conflicting (TopologySpec topology) objects rendered ch
                              ∧ c = conflictName ch.1 ch.2) as Hin'.
  { intros c. rewrite Hin. unfold conflicting. split; intros (x & ?); exists x; tauto. }
  exists cs. destruct cs as [|c cs].
  { exfalso. apply (elem_of_nil (conflictName ch.1 ch.2)), Hin'. by exists ch. }
  destruct (enforce_ordered compile w r token topology compiled rendered Hcomp) as [_ Hnone].
  destruct Hserves as (Hsp & Hsl & Hsn). rewrite Hsp, Hsl, Hsn, Hcs in Hnone.
  destruct (Hnone ltac:(done)) as (Hp & Hl & Hn). fold o in Hp, Hl, Hn.
  split_and!; [done..| |].
  - intros s Hs. unfold o, enforceTopology in Hs. rewrite Hcomp, Hsp, Hsl, Hsn, Hcs in Hs. cbv zeta in Hs.
    match type of Hs with context [reconcileStatusWithError w r topology compiled ?e ?o] =>
      apply (sent_desired r topology compiled e); [done|];
      destruct (passErr (reconcileStatusWithError w r topology compiled e o)); exact Hs
    end.
  - unfold o, enforceTopology. rewrite Hcomp, Hsp, Hsl, Hsn, Hcs. cbv zeta.
    destruct (passErr (reconcileStatusWithError _ _ _ _ _ _)) eqn:Ee; [congruence|done].
Qed.
End conflicts.

(** ** Concrete passes *)

#[local] Instance appending_setter : ConditionSetter := λ cs c, cs ++ [c].
#[local] Instance map_range : RangeOrder string := canonical_range.

Definition lab : Topology :=
  MkTopology "lab" (EmittingTopology "topo" (RolloutTopology "uid-t" None)) 1 "5"
    (MkTopologyStatus "containerlab" 1 0 0 0 false "" "" []).

Definition bare_node (name : string) : Node :=
  BuildNode name "" "" {[LabelApp := Clabernetes; LabelTopologyOwner := "topo"]} ∅ [] "" "" "spec" "".

(** The namespace holds a Node of somebody else named [taken] and a stale generated one. *)
Definition lab_objects : namespaceObjects :=
  NamespaceObjects [] [] [BuildNode "taken" "uid-1" "7" ∅ ∅ [] "" "" "" "";
                          bare_node "stale" <| NodeResourceVersion := "8" |>].

Definition controlled_node (n : Node) : option Node :=
  Some (n <| NodeOwners := [MkOwnerReference "Topology" "topo" "uid-t" true] |>).

Definition lab_cluster : cluster :=
  Cluster (Some []) (Some []) (Some (listedNodes lab_objects)) (Some []) (Some [])
    (Some (listedNodes lab_objects)) (Some []) (Some []) Some Some controlled_node
    (λ _, WriteOk) (λ _, WriteOk) (λ _, WriteOk) (λ _, true) (λ _, None) (λ _, PatchOk "6") 100.

Definition compile_to (names : list string) (_ : Topology) : option (CompiledTopology * renderedChildren) :=
  Some (MkCompiledTopology "containerlab" (list_to_set names) 0,
        RenderedChildren [] [] (bare_node <$> names)).

Lemma lab_unique : uniqueNames lab_objects.
Proof. split_and!; [constructor..|]. by apply (bool_decide_unpack _). Qed.

(** The same namespace through a cache that does not show the foreign Node yet. *)
Definition lagging_cluster : cluster :=
  Cluster (Some []) (Some []) (Some (listedNodes lab_objects)) (Some []) (Some [])
    (Some [bare_node "stale" <| NodeResourceVersion := "8" |>]) (Some []) (Some []) Some Some controlled_node
    (λ _, WriteOk) (λ _, WriteOk) (λ _, WriteOk) (λ _, true) (λ _, None) (λ _, PatchOk "6") 100.

Definition labObject (_ : Topology) : watchedObject :=
  WatchedObject (ObjectMeta "lab" "topo" "" 1 ∅ ∅ [] None) (OtherKind "Topology" None) "".

Lemma topology_pass_safe_witness :
  let o := Reconcile labObject (compile_to ["srl1"]) lagging_cluster (MkReconciler None ∅) lab in
  nodeWrites o = [CreateObject (default (bare_node "srl1") (controlled_node (bare_node "srl1")));
                  DeleteObject "stale"]
  ∧ Forall (safeWrite NodeLabels NodeOwners (TopologySpec lab) (listedNodes lab_objects)
      (listedNodes (cachedObjects lagging_cluster)) [bare_node "srl1"]) (nodeWrites o).
Proof.
  split; [vm_compute; reflexivity|].
  destruct (topology_pass_safe (compile_to ["srl1"]) lagging_cluster labObject
    (MkReconciler None ∅) lab
    (MkCompiledTopology "containerlab" (list_to_set ["srl1"]) 0)
    (RenderedChildren [] [] [bare_node "srl1"]) lab_objects) as (_ & _ & Hn & _).
  - done.
  - apply lab_unique.
  - split_and!; [constructor..|]. by apply (bool_decide_unpack _).
  - split_and!; intros a b; unfold lagging_cluster; cbn; by intros [= <-].
  - done.
  - exact Hn.
Defined.

(** A generated Node was deleted and somebody else created one of that name; the cache still
    shows the old one.  The pass deletes by name, and so the Node of somebody else. *)
Definition replaced_cluster : cluster :=
  Cluster (Some []) (Some []) (Some [BuildNode "stale" "uid-9" "9" ∅ ∅ [] "" "" "" ""]) (Some []) (Some [])
    (Some [bare_node "stale" <| NodeResourceVersion := "8" |>]) (Some []) (Some []) Some Some controlled_node
    (λ _, WriteOk) (λ _, WriteOk) (λ _, WriteOk) (λ _, true) (λ _, None) (λ _, PatchOk "6") 100.

Example prune_deletes_replacement :
  let o := Reconcile labObject (compile_to ["srl1"]) replaced_cluster (MkReconciler None ∅) lab in
  DeleteObject "stale" ∈ nodeWrites o
  ∧ (∃ nodes, serverNodes replaced_cluster = Some nodes
     ∧ Forall (λ n, generatedForTopology (NodeLabels n) (NodeOwners n) (TopologySpec lab) = false) nodes).
Proof.
  split.
  - replace (nodeWrites _) with [CreateObject (default (bare_node "srl1") (controlled_node (bare_node "srl1")));
      DeleteObject "stale"] by (vm_compute; reflexivity). right. left.
  - eexists. split; [reflexivity|]. repeat constructor.
Qed.

Lemma topology_conflicts_block_witness :
  let o := enforceTopology (compile_to ["taken"]) lab_cluster (MkReconciler None ∅) 0 lab in
  nodeWrites o = [] ∧ requeueAfter o = 10000000000
  ∧ StatusError <$> head (statusSent o) = Some (formatChildResourceConflicts "lab" ["node/taken"]).
Proof.
  destruct (topology_conflicts_block (compile_to ["taken"]) lab_cluster (MkReconciler None ∅) 0 lab
    (MkCompiledTopology "containerlab" (list_to_set ["taken"]) 0)
    (RenderedChildren [] [] [bare_node "taken"]) lab_objects ("node", "taken") [])
    as (conflicts & _ & _ & _ & _ & Hn & _ & Hr).
  - done.
  - apply lab_unique.
  - done.
  - done.
  - split; [left|]. right. exists (∅, []). split; [left|done].
  - split; [exact Hn|]. split; [by rewrite Hr|]. vm_compute. reflexivity.
Defined.
