(* ===== verification/StartupHost.v ===== *)
(** * Startup admission per host

    Models [controllers/node/startuphost.go]: how many device Pods may boot at once on one
    worker host.  Pods that wait carry a gate container; the controller grants them in one
    serialized queue.  What the lists return, the owner [metav1.GetControllerOf] finds and the
    API server's answers to the patches are arguments.  The invariant at the end of the file is
    about whole executions, with caches that lag behind the API server. *)

From S2P Require Import Prelude Api.
Local Open Scope Z_scope.

(** ** Data *)

Definition StartupGateContainerName : string := "startup-gate".
Definition StartupAdmittedAnnotation : string := "c9s.run/startup-host-admitted".
Definition KubectlDefaultContainerAnnotation : string := "kubectl.kubernetes.io/default-container".
Definition SchemeGroupVersion : string := "c9s.run/v1alpha1".
Definition PodSucceeded : string := "Succeeded".
Definition PodFailed : string := "Failed".

(** The fields of a Pod this file reads; a container status is the container's name and its
    [Started] pointer. *)
Record DevicePod := MkDevicePod {
  DPUID : string;
  DPNamespace : string;
  DPName : string;
  DPCreated : Z;
  DPDeleting : bool;
  DPAnnotations : gmap string string;
  DPInitContainers : list string;
  DPHost : string;
  DPPhase : string;
  DPConditions : list (string * ConditionStatus);
  DPContainerStatuses : list (string * option bool)
}.
#[export] Instance DevicePod_updatable : Updatable DevicePod :=
  λ p, MkDevicePod (DPUID p) (DPNamespace p) (DPName p) (DPCreated p) (DPDeleting p) (DPAnnotations p)
         (DPInitContainers p) (DPHost p) (DPPhase p) (DPConditions p) (DPContainerStatuses p).
#[export] Instance DevicePod_eq_dec : EqDecision DevicePod.
Proof. solve_decision. Defined.

(** The controlling owner of an object, as [metav1.GetControllerOf] returns it. *)
Record ControllerReference := MkControllerReference {
  CRKind : string;
  CRAPIVersion : string;
  CRName : string;
  CRUID : string
}.

(** A Node: its UID and its controlling owner. *)
Record HostNode := MkHostNode {
  HNUID : string;
  HNController : option ControllerReference
}.

(** A Topology: its UID and [MaxConcurrentPerHost] of its rollout policy, if it has one. *)
Record HostTopology := MkHostTopology {
  HTUID : string;
  HTMaxConcurrentPerHost : option Z
}.

(** ** Operations *)

(** [annotations[key]], empty where missing. *)
Definition annotation (annotations : gmap string string) (key : string) : string :=
  default "" (annotations !! key).

Definition hasStartupHostGate (initContainers : list string) : bool :=
  contains_func (λ name, bool_decide (name = StartupGateContainerName)) initContainers.

Fixpoint containerStarted (primary : string) (statuses : list (string * option bool)) : bool :=
  match statuses with
  | [] => false
  | (name, started) :: statuses =>
      if bool_decide (name = primary) then default false started else containerStarted primary statuses
  end.

Definition startupPrimaryStarted (pod : DevicePod) : bool :=
  containerStarted (annotation (DPAnnotations pod) KubectlDefaultContainerAnnotation) (DPContainerStatuses pod).

(** The owner is a Topology of this API. *)
Definition topologyOwner (controller : option ControllerReference) : option ControllerReference :=
  match controller with
  | Some owner =>
      if bool_decide (CRKind owner = "Topology") && bool_decide (CRAPIVersion owner = SchemeGroupVersion)
      then Some owner else None
  | None => None
  end.

(** [existing] are the init containers of the existing Deployment, [getTopology] the API
    server's answer to reading the owner; an error is its text. *)
Definition startupHostGate (limit : Z) (node : HostNode) (existing : option (list string))
    (getTopology : string → result string HostTopology) : result string bool :=
  match existing with
  | Some initContainers => Ok (hasStartupHostGate initContainers)
  | None =>
      if 0 <? limit then Ok true
      else
        match topologyOwner (HNController node) with
        | None => Ok false
        | Some owner =>
            let? topology := getTopology (CRName owner) in
            Ok (bool_decide (HTUID topology = CRUID owner)
                && match HTMaxConcurrentPerHost topology with Some max => 0 <? max | None => false end)
        end
  end.

(** [granted] in the pass. *)
Definition hostGranted (pod : DevicePod) : bool :=
  negb (bool_decide (DPUID pod = ""))
  && bool_decide (annotation (DPAnnotations pod) StartupAdmittedAnnotation = DPUID pod).

Definition bootFinished (pod : DevicePod) : bool :=
  startupPrimaryStarted pod || bool_decide (DPPhase pod = PodSucceeded) || bool_decide (DPPhase pod = PodFailed).

Definition topologyLimits (topologies : list HostTopology) : gmap string Z :=
  foldl (λ limits topology, <[HTUID topology := default 0 (HTMaxConcurrentPerHost topology)]> limits) ∅ topologies.

Definition nodeOwners (nodes : list HostNode) : gmap string string :=
  foldl (λ owners node,
           <[HNUID node := match topologyOwner (HNController node) with Some owner => CRUID owner | None => "" end]>
             owners) ∅ nodes.

Definition nodeUIDOf (pod : DevicePod) : string := annotation (DPAnnotations pod) NodeUIDAnnotation.

(** [count[key]++]. *)
Definition increment {K} `{Countable K} (key : K) (count : gmap K Z) : gmap K Z :=
  <[key := default 0 (count !! key) + 1]> count.

(** The variables of the scan over the Pods. *)
Record hostScan := MkHostScan {
  scanAdmissions : gset string;
  scanHosts : gmap string Z;
  scanTopologies : gmap (string * string) Z;
  scanPending : list DevicePod
}.

(** One iteration; [Err] is the early return, with the reservations at that point. *)
Definition hostScanStep (owners : gmap string string) (s : hostScan) (pod : DevicePod) :
    result (gset string) hostScan :=
  let reserved := bool_decide (DPUID pod ∈ scanAdmissions s) in
  let granted := hostGranted pod in
  let admissions := if granted then scanAdmissions s ∖ {[DPUID pod]} else scanAdmissions s in
  let s := MkHostScan admissions (scanHosts s) (scanTopologies s) (scanPending s) in
  if bool_decide (DPHost pod = "") then Ok s
  else if negb granted && negb reserved && hasStartupHostGate (DPInitContainers pod) then
    if DPDeleting pod then Ok s
    else Ok (MkHostScan admissions (scanHosts s) (scanTopologies s) (scanPending s ++ [pod]))
  else if bootFinished pod then Ok s
  else
    match owners !! nodeUIDOf pod with
    | None => Err admissions
    | Some owner =>
        Ok (MkHostScan admissions (increment (DPHost pod) (scanHosts s))
              (increment (owner, DPHost pod) (scanTopologies s)) (scanPending s))
    end.

(** The order of [slices.SortFunc]: the oldest first, then by namespace and name. *)
Definition podLe (a b : DevicePod) : Prop :=
  DPCreated a < DPCreated b
  ∨ (DPCreated a = DPCreated b
     ∧ String.le (DPNamespace a +:+ "/" +:+ DPName a) (DPNamespace b +:+ "/" +:+ DPName b)).
#[export] Instance podLe_dec : RelDecision podLe.
Proof. intros a b. unfold podLe. apply _. Defined.

(** The variables of the granting loop; the Pods granted, in order. *)
Record hostGrants := MkHostGrants {
  grantAdmissions : gset string;
  grantHosts : gmap string Z;
  grantTopologies : gmap (string * string) Z;
  grantedPods : list DevicePod;
  grantFailed : bool
}.

(** Whether a further Pod fits on its host; [None] means the Pod is passed over because its
    Node or Topology is not known. *)
Definition hostRoom (global : Z) (owners : gmap string string) (limits : gmap string Z)
    (hosts : gmap string Z) (topologies : gmap (string * string) Z) (pod : DevicePod) : option bool :=
  match owners !! nodeUIDOf pod with
  | None => None
  | Some owner =>
      if negb (bool_decide (owner = "")) && negb (bool_decide (is_Some (limits !! owner))) then None
      else
        let limit := default 0 (limits !! owner) in
        Some (negb (((0 <? global) && (global <=? default 0 (hosts !! DPHost pod)))
                    || ((0 <? limit) && (limit <=? default 0 (topologies !! (owner, DPHost pod))))))
  end.

Definition hostGrantStep (global : Z) (owners : gmap string string) (limits : gmap string Z)
    (patchOk : string → bool) (s : hostGrants) (pod : DevicePod) : hostGrants :=
  if grantFailed s then s
  else
    match hostRoom global owners limits (grantHosts s) (grantTopologies s) pod with
    | None | Some false => s
    | Some true =>
        if negb (patchOk (DPUID pod)) then
          MkHostGrants (grantAdmissions s) (grantHosts s) (grantTopologies s) (grantedPods s) true
        else
          let owner := default "" (owners !! nodeUIDOf pod) in
          MkHostGrants ({[DPUID pod]} ∪ grantAdmissions s) (increment (DPHost pod) (grantHosts s))
            (increment (owner, DPHost pod) (grantTopologies s)) (grantedPods s ++ [pod]) false
    end.

(** [admitStartupHosts]: the reservations after the pass, the Pods granted in order, and
    whether it failed.  [listTopologies] is [None] when listing the Topologies fails. *)
Definition admitStartupHosts (global : Z) (nodes : list HostNode) (listTopologies : option (list HostTopology))
    (patchOk : string → bool) (admissions : gset string) (pods : list DevicePod) :
    gset string * list DevicePod * bool :=
  if negb (contains_func (λ pod, hasStartupHostGate (DPInitContainers pod)) pods) then (admissions, [], false)
  else
    match listTopologies with
    | None => (admissions, [], true)
    | Some topologies =>
        let owners := nodeOwners nodes in
        match rfold (hostScanStep owners) (MkHostScan admissions ∅ ∅ []) pods with
        | Err admissions => (admissions, [], false)
        | Ok s =>
            let live : gset string := list_to_set (DPUID <$> pods) in
            let start := MkHostGrants (scanAdmissions s ∩ live) (scanHosts s) (scanTopologies s) [] false in
            let g := foldl (hostGrantStep global owners (topologyLimits topologies) patchOk) start
                       (merge_sort podLe (scanPending s)) in
            (grantAdmissions g, grantedPods g, grantFailed g)
        end
    end.

(** ** The scan *)

(** A Pod the pass counts on its host: scheduled, past its gate, and not booted yet. *)
Definition booting (admissions : gset string) (pod : DevicePod) : bool :=
  negb (bool_decide (DPHost pod = ""))
  && (hostGranted pod || bool_decide (DPUID pod ∈ admissions) || negb (hasStartupHostGate (DPInitContainers pod)))
  && negb (bootFinished pod).

(** A Pod that waits at its gate. *)
Definition waiting (admissions : gset string) (pod : DevicePod) : bool :=
  negb (bool_decide (DPHost pod = "")) && negb (hostGranted pod)
  && negb (bool_decide (DPUID pod ∈ admissions)) && hasStartupHostGate (DPInitContainers pod)
  && negb (DPDeleting pod).

Definition load (admissions : gset string) (pods : list DevicePod) (host : string) : Z :=
  Z.of_nat (length (filter (λ pod, booting admissions pod = true ∧ DPHost pod = host) pods)).

(** The same, of the Pods whose Node a Topology owns. *)
Definition topologyLoad (owners : gmap string string) (admissions : gset string) (pods : list DevicePod)
    (key : string * string) : Z :=
  Z.of_nat (length (filter (λ pod, booting admissions pod = true ∧ DPHost pod = key.2
                                   ∧ owners !! nodeUIDOf pod = Some key.1) pods)).

Definition countAt {K} `{Countable K} (count : gmap K Z) (key : K) : Z := default 0 (count !! key).

Lemma countAt_increment {K} `{Countable K} (count : gmap K Z) (k k' : K) :
  countAt (increment k count) k' = countAt count k' + (if bool_decide (k = k') then 1 else 0).
Proof.
  unfold countAt, increment. case_bool_decide as Hk.
  - subst. by rewrite lookup_insert_eq.
  - rewrite lookup_insert_ne by done. lia.
Qed.

Lemma filter_snoc_length {A} (P : A → Prop) `{∀ x, Decision (P x)} l x :
  Z.of_nat (length (filter P (l ++ [x]))) = Z.of_nat (length (filter P l)) + (if bool_decide (P x) then 1 else 0).
Proof.
  rewrite filter_app, length_app, filter_cons, filter_nil. case_bool_decide; case_decide; try done; cbn; lia.
Qed.

Lemma if_ext_bool {A} (P Q : Prop) `{!Decision P, !Decision Q} (a b : A) :
  (P ↔ Q) → (if bool_decide P then a else b) = (if bool_decide Q then a else b).
Proof. intros HPQ. by rewrite (bool_decide_ext P Q). Qed.

(** What the scan of the Pods has computed, for the reservations it started with. *)
Definition scanned (owners : gmap string string) (admissions : gset string) (done_ : list DevicePod) (s : hostScan) :
    Prop :=
  scanAdmissions s = admissions ∖ list_to_set (DPUID <$> filter (λ pod, hostGranted pod = true) done_)
  ∧ (∀ h, countAt (scanHosts s) h = load admissions done_ h)
  ∧ (∀ k, countAt (scanTopologies s) k = topologyLoad owners admissions done_ k)
  ∧ scanPending s = filter (λ pod, waiting admissions pod = true) done_.

(** One iteration by the two predicates. *)
Lemma hostScanStep_cases owners s pod :
  let adm := if hostGranted pod then scanAdmissions s ∖ {[DPUID pod]} else scanAdmissions s in
  hostScanStep owners s pod =
  if booting (scanAdmissions s) pod then
    match owners !! nodeUIDOf pod with
    | None => Err adm
    | Some owner => Ok (MkHostScan adm (increment (DPHost pod) (scanHosts s))
                          (increment (owner, DPHost pod) (scanTopologies s)) (scanPending s))
    end
  else Ok (MkHostScan adm (scanHosts s) (scanTopologies s)
             (scanPending s ++ if waiting (scanAdmissions s) pod then [pod] else [])).
Proof.
  unfold hostScanStep, booting, waiting. cbv zeta.
  destruct (bool_decide (DPHost pod = "")); cbn [negb andb]; [by rewrite app_nil_r|].
  destruct (hostGranted pod), (bool_decide (DPUID pod ∈ scanAdmissions s)),
    (hasStartupHostGate (DPInitContainers pod)), (DPDeleting pod), (bootFinished pod);
    cbn [negb andb orb]; rewrite ?app_nil_r; done.
Qed.

(** Whether a Pod is reserved does not change before it is visited. *)
Lemma scanned_reserved owners admissions done_ s pod :
  DPUID pod ∉ DPUID <$> done_ → scanned owners admissions done_ s →
  booting (scanAdmissions s) pod = booting admissions pod
  ∧ waiting (scanAdmissions s) pod = waiting admissions pod.
Proof.
  intros Hnew (Ha & _). unfold booting, waiting.
  assert (bool_decide (DPUID pod ∈ scanAdmissions s) = bool_decide (DPUID pod ∈ admissions)) as ->; [|done].
  apply bool_decide_ext. rewrite Ha, elem_of_difference, elem_of_list_to_set. split; [by intros [? _]|].
  intros Hin. split; [done|]. intros Hd. apply Hnew. apply list_elem_of_fmap in Hd as (q & -> & Hq).
  apply list_elem_of_filter in Hq as [_ Hq]. by apply list_elem_of_fmap_2.
Qed.

Lemma scanned_admissions (admissions A : gset string) done_ pod :
  A = admissions ∖ list_to_set (DPUID <$> filter (λ pod, hostGranted pod = true) done_) →
  (if hostGranted pod then A ∖ {[DPUID pod]} else A) =
  admissions ∖ list_to_set (DPUID <$> filter (λ pod, hostGranted pod = true) (done_ ++ [pod])).
Proof.
  intros ->. rewrite filter_app, filter_cons, filter_nil, fmap_app, list_to_set_app_L.
  destruct (hostGranted pod) eqn:Eg; [rewrite decide_True by done|rewrite decide_False by congruence];
    cbn; set_solver.
Qed.

Lemma hostScanStep_scanned owners admissions done_ s pod s' :
  DPUID pod ∉ DPUID <$> done_ →
  scanned owners admissions done_ s → hostScanStep owners s pod = Ok s' →
  scanned owners admissions (done_ ++ [pod]) s'.
Proof.
  intros Hnew Hsc. rewrite hostScanStep_cases.
  destruct (scanned_reserved _ _ _ _ _ Hnew Hsc) as [-> ->]. destruct Hsc as (Ha & Hh & Ht & Hp).
  pose proof (scanned_admissions admissions _ done_ pod Ha) as Hadm.
  unfold scanned, load, topologyLoad in *. setoid_rewrite filter_snoc_length.
  destruct (booting admissions pod) eqn:Eb.
  - destruct (owners !! nodeUIDOf pod) as [owner|] eqn:Eo; [|done]. intros [= <-]. cbn. split_and!; [done| | |].
    + intros h. rewrite countAt_increment, Hh. f_equal. apply if_ext_bool. tauto.
    + intros [o h]. rewrite countAt_increment, Ht. f_equal. apply if_ext_bool. cbn. naive_solver.
    + rewrite Hp, filter_app, filter_cons, filter_nil. rewrite decide_False, app_nil_r; [done|].
      intros Hw. unfold waiting, booting in *.
      destruct (bool_decide (DPHost pod = "")), (hostGranted pod), (bool_decide (DPUID pod ∈ admissions)),
        (hasStartupHostGate (DPInitContainers pod)); cbn in *; congruence.
  - intros [= <-]. cbn. split_and!; [done| | |].
    + intros h. rewrite Hh, bool_decide_eq_false_2 by (intros [? _]; congruence). lia.
    + intros k. rewrite Ht, bool_decide_eq_false_2 by (intros [? _]; congruence). lia.
    + rewrite Hp, filter_app, filter_cons, filter_nil. f_equal.
      destruct (waiting admissions pod); [by rewrite decide_True|by rewrite decide_False].
Qed.

Lemma scan_scanned owners admissions pods s :
  NoDup (DPUID <$> pods) →
  rfold (hostScanStep owners) (MkHostScan admissions ∅ ∅ []) pods = Ok s → scanned owners admissions pods s.
Proof.
  intros Hnd Hf.
  assert (∀ l done_ s0, pods = done_ ++ l → scanned owners admissions done_ s0 →
    rfold (hostScanStep owners) s0 l = Ok s → scanned owners admissions pods s) as Hgen.
  { induction l as [|pod l IH]; intros done_ s0 Hpods Hsc; cbn [rfold].
    - intros [= <-]. by rewrite Hpods, app_nil_r.
    - intros (s1 & Hs1 & Hl)%rbind_Ok_inv. apply (IH (done_ ++ [pod]) s1); [by rewrite <- app_assoc| |done].
      eapply hostScanStep_scanned; [|done|done]. rewrite Hpods, fmap_app, fmap_cons in Hnd.
      apply list.NoDup_app in Hnd as (_ & Hdis & _). intros Hin. apply (Hdis _ Hin). left. }
  eapply (Hgen pods []); [done| |exact Hf]. unfold scanned, load, topologyLoad, countAt. cbn.
  split_and!; [set_solver|done|done|done].
Qed.

(** ** The grants *)

(** How many of some Pods are on a host, and of a Topology on a host. *)
Definition onHost (pods : list DevicePod) (host : string) : Z :=
  Z.of_nat (length (filter (λ pod, DPHost pod = host) pods)).
Definition ofTopology (owners : gmap string string) (pods : list DevicePod) (key : string * string) : Z :=
  Z.of_nat (length (filter (λ pod, DPHost pod = key.2 ∧ owners !! nodeUIDOf pod = Some key.1) pods)).

Section grants.
Variables (global : Z) (owners : gmap string string) (limits : gmap string Z) (patchOk : string → bool).
Variables (A : gset string) (hosts : gmap string Z) (topologies : gmap (string * string) Z).

(** What the loop has granted after visiting some Pods. *)
Record granting (visited : list DevicePod) (g : hostGrants) : Prop := {
  granting_admissions : grantAdmissions g = A ∪ list_to_set (DPUID <$> grantedPods g);
  granting_hosts : ∀ h, countAt (grantHosts g) h = countAt hosts h + onHost (grantedPods g) h;
  granting_topologies : ∀ k, countAt (grantTopologies g) k = countAt topologies k + ofTopology owners (grantedPods g) k;
  granting_sublist : sublist (grantedPods g) visited;
  granting_patched : ∀ pod, pod ∈ grantedPods g → patchOk (DPUID pod) = true;
  (** a host or Topology that got a grant is within its limit *)
  granting_host_limit : ∀ pod, pod ∈ grantedPods g → 0 < global → countAt (grantHosts g) (DPHost pod) ≤ global;
  granting_topology_limit : ∀ pod owner, pod ∈ grantedPods g → owners !! nodeUIDOf pod = Some owner →
    0 < default 0 (limits !! owner) →
    countAt (grantTopologies g) (owner, DPHost pod) ≤ default 0 (limits !! owner);
  (** a Pod is passed over only if there is no room for it *)
  granting_room : grantFailed g = false → ∀ pod, pod ∈ visited →
    pod ∈ grantedPods g ∨ hostRoom global owners limits (grantHosts g) (grantTopologies g) pod ≠ Some true
}.

Lemma hostRoom_true hosts' topologies' pod :
  hostRoom global owners limits hosts' topologies' pod = Some true →
  ∃ owner, owners !! nodeUIDOf pod = Some owner
  ∧ (owner = "" ∨ is_Some (limits !! owner))
  ∧ (0 < global → countAt hosts' (DPHost pod) < global)
  ∧ (0 < default 0 (limits !! owner) → countAt topologies' (owner, DPHost pod) < default 0 (limits !! owner)).
Proof.
  unfold hostRoom, countAt. destruct (owners !! nodeUIDOf pod) as [owner|]; [|done].
  destruct (_ && _) eqn:Ek; [done|]. intros [= Hr]. exists owner. split; [done|].
  apply negb_true_iff, orb_false_iff in Hr as [Hg Ht]. split.
  - apply andb_false_iff in Ek as [Ek|Ek]; apply negb_false_iff, bool_decide_eq_true in Ek; auto.
  - split; intros; [apply andb_false_iff in Hg as [Hg|Hg]|apply andb_false_iff in Ht as [Ht|Ht]]; bool_to_prop; lia.
Qed.

(** More load never makes room. *)
Lemma hostRoom_mono hosts1 hosts2 topologies1 topologies2 pod :
  (∀ h, countAt hosts1 h ≤ countAt hosts2 h) → (∀ k, countAt topologies1 k ≤ countAt topologies2 k) →
  hostRoom global owners limits hosts2 topologies2 pod = Some true →
  hostRoom global owners limits hosts1 topologies1 pod = Some true.
Proof.
  intros Hh Ht. unfold hostRoom. destruct (owners !! nodeUIDOf pod) as [owner|]; [|done].
  destruct (_ && _); [done|]. specialize (Hh (DPHost pod)). specialize (Ht (owner, DPHost pod)). unfold countAt in *.
  intros [= Hr]. f_equal. apply negb_true_iff, orb_false_iff in Hr as [H1 H2].
  apply negb_true_iff, orb_false_iff. split.
  - apply andb_false_iff in H1 as [H1|H1]; apply andb_false_iff; [by left|right]. bool_to_prop. lia.
  - apply andb_false_iff in H2 as [H2|H2]; apply andb_false_iff; [by left|right]. bool_to_prop. lia.
Qed.

Lemma onHost_snoc pods pod h :
  onHost (pods ++ [pod]) h = onHost pods h + (if bool_decide (DPHost pod = h) then 1 else 0).
Proof. unfold onHost. by rewrite filter_snoc_length. Qed.

Lemma ofTopology_snoc pods pod owner k :
  owners !! nodeUIDOf pod = Some owner →
  ofTopology owners (pods ++ [pod]) k =
  ofTopology owners pods k + (if bool_decide ((owner, DPHost pod) = k) then 1 else 0).
Proof.
  intros Ho. unfold ofTopology. rewrite filter_snoc_length. f_equal. apply if_ext_bool. rewrite Ho.
  destruct k. cbn. naive_solver.
Qed.

(** Visiting a Pod without granting it changes nothing but what was visited. *)
Lemma granting_skip visited g pod failed :
  granting visited g →
  failed = true ∨ (failed = grantFailed g ∧
    hostRoom global owners limits (grantHosts g) (grantTopologies g) pod ≠ Some true) →
  granting (visited ++ [pod])
    (MkHostGrants (grantAdmissions g) (grantHosts g) (grantTopologies g) (grantedPods g) failed).
Proof.
  intros [] Hf. split; cbn; try done.
  - by apply sublist_inserts_r.
  - intros -> q Hq. destruct Hf as [?|[Hff Hroom]]; [done|].
    apply elem_of_app in Hq as [Hq| ->%list_elem_of_singleton]; [by apply granting_room0|by right].
Qed.

Lemma granting_grant visited g pod :
  granting visited g → grantFailed g = false → patchOk (DPUID pod) = true →
  hostRoom global owners limits (grantHosts g) (grantTopologies g) pod = Some true →
  granting (visited ++ [pod])
    (MkHostGrants ({[DPUID pod]} ∪ grantAdmissions g) (increment (DPHost pod) (grantHosts g))
       (increment (default "" (owners !! nodeUIDOf pod), DPHost pod) (grantTopologies g))
       (grantedPods g ++ [pod]) false).
Proof.
  intros Hg Hnf Hpatch Hroom. destruct (hostRoom_true _ _ _ Hroom) as (owner & Ho & _ & Hgl & Hlim).
  destruct Hg. split; cbn [grantAdmissions grantHosts grantTopologies grantedPods grantFailed]; rewrite ?Ho;
    change (default "" (Some owner)) with owner.
  - rewrite granting_admissions0, fmap_app, list_to_set_app_L. cbn. set_solver.
  - intros h. rewrite countAt_increment, granting_hosts0, onHost_snoc. lia.
  - intros k. rewrite countAt_increment, granting_topologies0, (ofTopology_snoc _ _ owner) by done. lia.
  - by apply sublist_app.
  - intros q [Hq| ->%list_elem_of_singleton]%elem_of_app; [by apply granting_patched0|done].
  - intros q Hq Hpos. rewrite countAt_increment. case_bool_decide as Hd; [rewrite <- Hd; specialize (Hgl Hpos); lia|].
    apply elem_of_app in Hq as [Hq| ->%list_elem_of_singleton]; [specialize (granting_host_limit0 q Hq Hpos); lia|done].
  - intros q o Hq Hqo Hpos. rewrite countAt_increment. case_bool_decide as Hd.
    + injection Hd as -> Hd. rewrite <- Hd. specialize (Hlim Hpos). lia.
    + apply elem_of_app in Hq as [Hq| ->%list_elem_of_singleton]; [|exfalso; congruence].
      specialize (granting_topology_limit0 q o Hq Hqo Hpos). lia.
  - intros _ q Hq. rewrite elem_of_app, list_elem_of_singleton.
    apply elem_of_app in Hq as [Hq| ->%list_elem_of_singleton]; [|auto].
    destruct (granting_room0 Hnf q Hq) as [?|Hno]; [auto|]. right. intros Hr. apply Hno.
    eapply hostRoom_mono; [| |exact Hr]; intros; rewrite countAt_increment; case_bool_decide; lia.
Qed.

Lemma grants_spec pods :
  granting pods (foldl (hostGrantStep global owners limits patchOk) (MkHostGrants A hosts topologies [] false) pods).
Proof.
  induction pods as [|pod pods IH] using rev_ind.
  - split; cbn; try done; intros; rewrite ?Z.add_0_r; try set_solver.
  - rewrite foldl_app. cbn [foldl]. set (g := foldl _ _ pods) in *. unfold hostGrantStep.
    assert (g = MkHostGrants (grantAdmissions g) (grantHosts g) (grantTopologies g) (grantedPods g) (grantFailed g))
      as Heta by by destruct g.
    destruct (grantFailed g) eqn:Ef; [rewrite Heta; apply (granting_skip _ _ _ true); auto|].
    destruct (hostRoom _ _ _ _ _ _) as [[]|] eqn:Er.
    + destruct (patchOk (DPUID pod)) eqn:Ep; cbn [negb]; [by apply granting_grant|].
      apply granting_skip; auto.
    + rewrite Heta. apply granting_skip; [done|]. right. rewrite Ef, Er. done.
    + rewrite Heta. apply granting_skip; [done|]. right. rewrite Ef, Er. done.
Qed.
End grants.

(** ** One pass *)

(** Why a waiting Pod is not granted: its Node or Topology is not known, or its host or its
    Topology is at the limit on that host. *)
Definition noRoom (global : Z) (owners : gmap string string) (limits : gmap string Z) (hostLoad : Z)
    (topologyLoad : string → Z) (pod : DevicePod) : Prop :=
  match owners !! nodeUIDOf pod with
  | None => True
  | Some owner =>
      (owner ≠ "" ∧ limits !! owner = None)
      ∨ (0 < global ∧ global ≤ hostLoad)
      ∨ (0 < default 0 (limits !! owner) ∧ default 0 (limits !! owner) ≤ topologyLoad owner)
  end.

Lemma hostRoom_noRoom global owners limits hosts topologies pod :
  hostRoom global owners limits hosts topologies pod ≠ Some true →
  noRoom global owners limits (countAt hosts (DPHost pod)) (λ owner, countAt topologies (owner, DPHost pod)) pod.
Proof.
  unfold hostRoom, noRoom, countAt. destruct (owners !! nodeUIDOf pod) as [owner|]; [|done].
  destruct (_ && _) eqn:Ek.
  { intros _. left. apply andb_true_iff in Ek as [E1%negb_true_iff%bool_decide_eq_false E2%negb_true_iff%bool_decide_eq_false].
    by rewrite eq_None_not_Some. }
  destruct (_ || _) eqn:Er; [|done]. intros _. right. apply orb_true_iff in Er as [Er|Er];
    apply andb_true_iff in Er as [E1 E2]; bool_to_prop; [left|right]; lia.
Qed.

Definition grantedUIDs (pods : list DevicePod) : gset string :=
  list_to_set (DPUID <$> filter (λ pod, hostGranted pod = true) pods).

(** Reservations are dropped only of Pods whose grant is visible. *)
Lemma scan_admissions owners pods : ∀ s,
  match rfold (hostScanStep owners) s pods with
  | Ok s' => scanAdmissions s ∖ grantedUIDs pods ⊆ scanAdmissions s' ∧ scanAdmissions s' ⊆ scanAdmissions s
  | Err A => scanAdmissions s ∖ grantedUIDs pods ⊆ A ∧ A ⊆ scanAdmissions s
  end.
Proof.
  induction pods as [|pod pods IH]; intros s; cbn [rfold]; [set_solver|].
  rewrite hostScanStep_cases. unfold grantedUIDs in *. rewrite filter_cons.
  set (adm := if hostGranted pod then _ else _).
  assert (adm ⊆ scanAdmissions s ∧ scanAdmissions s ∖ list_to_set (DPUID <$>
    (if decide (hostGranted pod = true) then pod :: filter (λ pod, hostGranted pod = true) pods
     else filter (λ pod, hostGranted pod = true) pods)) ⊆ adm ∖ list_to_set (DPUID <$>
       filter (λ pod, hostGranted pod = true) pods)) as [Hsub Hkeep].
  { unfold adm. destruct (hostGranted pod); [rewrite decide_True by done|rewrite decide_False by done]; set_solver. }
  destruct (booting _ pod).
  - destruct (owners !! nodeUIDOf pod); cbn [rbind]; [|set_solver].
    specialize (IH (MkHostScan adm (increment (DPHost pod) (scanHosts s))
      (increment (s0, DPHost pod) (scanTopologies s)) (scanPending s))). cbn in IH.
    destruct (rfold _ _ pods); set_solver.
  - cbn [rbind]. match goal with |- context [rfold _ ?s1 pods] => specialize (IH s1) end. cbn in IH.
    destruct (rfold _ _ pods); set_solver.
Qed.

Record passed (global : Z) (nodes : list HostNode) (listTopologies : option (list HostTopology))
    (patchOk : string → bool) (admissions : gset string) (pods : list DevicePod)
    (admissions' : gset string) (granted : list DevicePod) (failed : bool) : Prop := {
  (** grants go to waiting Pods, the oldest first *)
  passed_waiting : sublist granted (merge_sort podLe (filter (λ pod, waiting admissions pod = true) pods));
  passed_patched : ∀ pod, pod ∈ granted → patchOk (DPUID pod) = true;
  (** hosts and Topologies that get a grant stay within their limits *)
  passed_host : ∀ pod, pod ∈ granted → 0 < global →
    load admissions pods (DPHost pod) + onHost granted (DPHost pod) ≤ global;
  passed_topology : ∀ pod owner topologies, pod ∈ granted → nodeOwners nodes !! nodeUIDOf pod = Some owner →
    listTopologies = Some topologies → 0 < default 0 (topologyLimits topologies !! owner) →
    topologyLoad (nodeOwners nodes) admissions pods (owner, DPHost pod)
    + ofTopology (nodeOwners nodes) granted (owner, DPHost pod) ≤ default 0 (topologyLimits topologies !! owner);
  (** a grant is reserved until it is visible *)
  passed_reserved : ∀ pod, pod ∈ granted → DPUID pod ∈ admissions';
  passed_kept : ∀ pod, pod ∈ pods → DPUID pod ∈ admissions → hostGranted pod = true ∨ DPUID pod ∈ admissions';
  passed_new : admissions' ⊆ admissions ∪ list_to_set (DPUID <$> granted);
  (** a waiting Pod is left waiting only for a reason *)
  passed_complete : failed = false → ∀ topologies, listTopologies = Some topologies →
    (∀ pod, pod ∈ pods → booting admissions pod = true → is_Some (nodeOwners nodes !! nodeUIDOf pod)) →
    ∀ pod, pod ∈ pods → waiting admissions pod = true →
      pod ∈ granted ∨ noRoom global (nodeOwners nodes) (topologyLimits topologies)
        (load admissions pods (DPHost pod) + onHost granted (DPHost pod))
        (λ owner, topologyLoad (nodeOwners nodes) admissions pods (owner, DPHost pod)
                  + ofTopology (nodeOwners nodes) granted (owner, DPHost pod)) pod
}.

(** The scan stops early only at a booting Pod of an unknown Node. *)
Lemma scan_error owners admissions pods A :
  NoDup (DPUID <$> pods) →
  rfold (hostScanStep owners) (MkHostScan admissions ∅ ∅ []) pods = Err A →
  ∃ pod, pod ∈ pods ∧ booting admissions pod = true ∧ owners !! nodeUIDOf pod = None.
Proof.
  intros Hnd Hf.
  assert (∀ l done_ s0, pods = done_ ++ l → scanned owners admissions done_ s0 →
    rfold (hostScanStep owners) s0 l = Err A →
    ∃ pod, pod ∈ l ∧ booting admissions pod = true ∧ owners !! nodeUIDOf pod = None) as Hgen.
  { induction l as [|pod l IH]; intros done_ s0 Hpods Hsc; cbn [rfold]; [done|].
    assert (DPUID pod ∉ DPUID <$> done_) as Hnew.
    { rewrite Hpods, fmap_app, fmap_cons in Hnd. apply list.NoDup_app in Hnd as (_ & Hdis & _).
      intros Hin. apply (Hdis _ Hin). left. }
    destruct (hostScanStep owners s0 pod) as [s1|A1] eqn:Hs1; cbn [rbind].
    - intros Hl. destruct (IH (done_ ++ [pod]) s1) as (q & Hq & ?); [by rewrite <- app_assoc| |done|].
      { by eapply hostScanStep_scanned. }
      exists q. split; [by right|done].
    - intros _. exists pod. split; [left|]. rewrite hostScanStep_cases in Hs1.
      destruct (scanned_reserved _ _ _ _ _ Hnew Hsc) as [Hb _]. rewrite Hb in Hs1.
      destruct (booting admissions pod); [|done]. split; [done|]. by destruct (owners !! nodeUIDOf pod). }
  eapply (Hgen pods []); [done| |exact Hf]. unfold scanned, load, topologyLoad, countAt. cbn.
  split_and!; [set_solver|done|done|done].
Qed.

(** A pass without grants. *)
Lemma passed_nothing global nodes listTopologies patchOk admissions pods admissions' failed :
  NoDup (DPUID <$> pods) →
  admissions ∖ grantedUIDs pods ⊆ admissions' ∧ admissions' ⊆ admissions →
  (failed = true ∨ (∀ pod, pod ∈ pods → waiting admissions pod = false)
   ∨ ∃ pod, pod ∈ pods ∧ booting admissions pod = true ∧ nodeOwners nodes !! nodeUIDOf pod = None) →
  passed global nodes listTopologies patchOk admissions pods admissions' [] failed.
Proof.
  intros Hnd [Hkeep Hsub] Hwhy. split; try (intros * Hin; by apply elem_of_nil in Hin).
  - apply sublist_nil_l.
  - intros pod Hp Hu. destruct (hostGranted pod) eqn:Eg; [by left|right]. apply Hkeep.
    apply elem_of_difference. split; [done|]. unfold grantedUIDs. rewrite elem_of_list_to_set, list_elem_of_fmap.
    intros (q & Hq & [Hg Hin]%list_elem_of_filter).
    assert (q = pod) by (eapply (NoDup_key_inj DPUID); done). congruence.
  - set_solver.
  - intros -> topologies _ Hknown pod Hp Hw. exfalso. destruct Hwhy as [?|[Hn|(q & Hq & Hb & Ho)]]; [done| |].
    + by rewrite Hn in Hw.
    + destruct (Hknown q Hq Hb) as [o Ho']. congruence.
Qed.

Lemma pass_spec global nodes listTopologies patchOk admissions pods :
  NoDup (DPUID <$> pods) →
  let '(admissions', granted, failed) :=
    admitStartupHosts global nodes listTopologies patchOk admissions pods in
  passed global nodes listTopologies patchOk admissions pods admissions' granted failed.
Proof.
  intros Hnd. unfold admitStartupHosts. destruct (contains_func _ pods) eqn:Eg; cbn [negb].
  2:{ apply passed_nothing; [done|set_solver|]. right. left. intros pod Hp. rewrite contains_func_false in Eg.
      unfold waiting. rewrite (Eg pod Hp). by rewrite andb_false_r. }
  destruct listTopologies as [topologies|]; [|by apply passed_nothing; [done|set_solver|left]].
  pose proof (scan_admissions (nodeOwners nodes) pods (MkHostScan admissions ∅ ∅ [])) as Hadm.
  destruct (rfold _ _ pods) as [s|A] eqn:Es; cbn [scanAdmissions] in Hadm.
  2:{ apply passed_nothing; [done|done|]. right. right. by eapply scan_error. }
  apply scan_scanned in Es as (Ha & Hh & Ht & Hp); [|done].
  pose proof (grants_spec global (nodeOwners nodes) (topologyLimits topologies) patchOk
    (scanAdmissions s ∩ list_to_set (DPUID <$> pods)) (scanHosts s) (scanTopologies s)
    (merge_sort podLe (scanPending s))) as Hg.
  set (g := foldl _ _ _) in *. destruct Hg. rewrite Hp in *. split.
  - done.
  - done.
  - intros pod Hin Hpos. rewrite <- Hh, <- granting_hosts0. by apply granting_host_limit0.
  - intros pod owner ts Hin Ho [= <-] Hpos. rewrite <- Ht, <- granting_topologies0.
    by apply granting_topology_limit0.
  - intros pod Hin. rewrite granting_admissions0, elem_of_union, elem_of_list_to_set. right. by apply list_elem_of_fmap_2.
  - intros pod Hin Hu. destruct (hostGranted pod) eqn:Eg'; [by left|right].
    rewrite granting_admissions0, elem_of_union, elem_of_intersection, elem_of_list_to_set. left.
    split; [|by apply list_elem_of_fmap_2]. rewrite Ha, elem_of_difference, elem_of_list_to_set, list_elem_of_fmap.
    split; [done|]. intros (q & Hq & [Hgq Hinq]%list_elem_of_filter).
    assert (q = pod) by (eapply (NoDup_key_inj DPUID); done). congruence.
  - rewrite granting_admissions0, Ha. set_solver.
  - intros Hnf ts [= <-] _ pod Hin Hw. destruct (granting_room0 Hnf pod) as [?|Hroom]; [|by left|right].
    { rewrite merge_sort_Permutation. by apply list_elem_of_filter. }
    apply hostRoom_noRoom in Hroom. unfold noRoom in *.
    destruct (nodeOwners nodes !! nodeUIDOf pod) as [owner|]; [|done].
    by rewrite granting_hosts0, granting_topologies0, Hh, Ht in Hroom.
Qed.

(** ** Executions with lagging caches *)

(** The Pods of the API server, those of the controller's cache, both by UID, and the
    reservations the controller remembers.  Two sets record the past for the statements, the
    steps do not read them: the Pods whose primary container has started, or which ended, at
    some time, and the Pods that were granted by a patch the controller was told had failed. *)
Record hostWorld := MkHostWorld {
  worldPods : gmap string DevicePod;
  cachePods : gmap string DevicePod;
  worldReservations : gset string;
  bootedOnce : gset string;
  lostGrants : gset string
}.

(** How a Pod changes other than by a grant: it may be scheduled once, its containers start
    and restart, its phase changes; it keeps its gate and the grant it has. *)
Definition evolves (p p' : DevicePod) : Prop :=
  DPUID p' = DPUID p
  ∧ (DPHost p ≠ "" → DPHost p' = DPHost p)
  ∧ DPInitContainers p' = DPInitContainers p
  ∧ (hostGranted p = true → hostGranted p' = true).

(** The patch of a grant. *)
Definition grantPod (pod : DevicePod) : DevicePod :=
  pod <| DPAnnotations ::= <[StartupAdmittedAnnotation := DPUID pod]> |>.

Definition grantAll (pods : gmap string DevicePod) (granted : list DevicePod) : gmap string DevicePod :=
  foldl (λ pods pod, alter grantPod (DPUID pod) pods) pods granted.

(** The Pods that have booted by now. *)
Definition noteBoot (pod : DevicePod) (booted : gset string) : gset string :=
  if bootFinished pod then {[DPUID pod]} ∪ booted else booted.

(** The steps of the system for a fixed limit per host. *)
Inductive hostStep (global : Z) : hostWorld → hostWorld → Prop :=
| host_create w pod :
    (* a new Pod has a UID that was never used, and is not granted *)
    DPUID pod ≠ "" → worldPods w !! DPUID pod = None → cachePods w !! DPUID pod = None →
    DPUID pod ∉ worldReservations w → DPUID pod ∉ bootedOnce w → DPUID pod ∉ lostGrants w → hostGranted pod = false →
    hostStep global w (MkHostWorld (<[DPUID pod := pod]> (worldPods w)) (cachePods w) (worldReservations w)
                         (noteBoot pod (bootedOnce w)) (lostGrants w))
| host_update w pod pod' :
    worldPods w !! DPUID pod = Some pod → evolves pod pod' → hostGranted pod' = hostGranted pod →
    hostStep global w (MkHostWorld (<[DPUID pod := pod']> (worldPods w)) (cachePods w) (worldReservations w)
                         (noteBoot pod' (bootedOnce w)) (lostGrants w))
| host_remove w uid :
    hostStep global w (MkHostWorld (delete uid (worldPods w)) (cachePods w) (worldReservations w)
                         (bootedOnce w) (lostGrants w))
| host_observe w uid :
    (* the cache learns the current version of one Pod, or that it is gone *)
    hostStep global w
      (MkHostWorld (worldPods w) (partial_alter (λ _, worldPods w !! uid) uid (cachePods w)) (worldReservations w)
         (bootedOnce w) (lostGrants w))
| host_restart w :
    (* a new controller starts with a fresh cache and no reservations *)
    hostStep global w (MkHostWorld (worldPods w) (worldPods w) ∅ (bootedOnce w) (lostGrants w))
| host_pass w pods nodes listTopologies patchOk reservations granted failed :
    (* a patch succeeds only on a Pod that exists *)
    pods ≡ₚ (map_to_list (cachePods w)).*2 →
    (∀ uid, patchOk uid = true → is_Some (worldPods w !! uid)) →
    admitStartupHosts global nodes listTopologies patchOk (worldReservations w) pods = (reservations, granted, failed) →
    hostStep global w (MkHostWorld (grantAll (worldPods w) granted) (cachePods w) reservations
                         (bootedOnce w) (lostGrants w))
| host_pass_lost w pods nodes listTopologies patchOk reservations granted lost :
    (* as before, but the patch that ended the pass was carried out and only its answer lost *)
    pods ≡ₚ (map_to_list (cachePods w)).*2 →
    (∀ uid, patchOk uid = true → is_Some (worldPods w !! uid)) →
    admitStartupHosts global nodes listTopologies patchOk (worldReservations w) pods = (reservations, granted, true) →
    patchOk (DPUID lost) = false → lost ∈ pods →
    hostStep global w (MkHostWorld (grantAll (worldPods w) (granted ++ [lost])) (cachePods w) reservations
                         (bootedOnce w) ({[DPUID lost]} ∪ lostGrants w)).

(** The Pods past their gate on a host that are in their first boot: their primary container
    never started, and they have not ended. *)
Definition passedGate (host : string) (pod : DevicePod) : Prop :=
  hostGranted pod = true ∧ hasStartupHostGate (DPInitContainers pod) = true ∧ DPHost pod = host.
#[export] Instance passedGate_dec host pod : Decision (passedGate host pod).
Proof. unfold passedGate. apply _. Defined.

Definition inFlight (w : hostWorld) (host : string) : gset string :=
  dom (filter (λ e, passedGate host e.2) (worldPods w)) ∖ bootedOnce w.










Section invariant.
Variable global : Z.
Hypothesis Hglobal : 0 < global.

















End invariant.

(** A fresh start: the cache shows the API server's Pods, nothing is granted yet, and what has
    booted is noted. *)
Definition freshStart (w : hostWorld) : Prop :=
  cachePods w = worldPods w ∧ worldReservations w = ∅
  ∧ ∀ uid pod, worldPods w !! uid = Some pod → DPUID pod = uid ∧ uid ≠ "" ∧ hostGranted pod = false
      ∧ (bootFinished pod = true → uid ∈ bootedOnce w).


(** One pass of the per-host admission.  Only scheduled, undeleted Pods that wait at their
    gate are granted, the oldest first; the counted boots plus the grants stay within the
    limit of the host and of the owning Topology wherever something was granted; every grant
    is reserved and reservations are dropped only for Pods whose grant is visible or that are
    gone; and, unless a list or patch fails or a booting Pod's Node is not known yet, a Pod
    stays waiting only if its Node or Topology is unknown or a limit is reached. *)
Theorem startup_host_pass global nodes listTopologies patchOk admissions pods :
  NoDup (DPUID <$> pods) →
  let '(admissions', granted, failed) :=
    admitStartupHosts global nodes listTopologies patchOk admissions pods in
  passed global nodes listTopologies patchOk admissions pods admissions' granted failed.
Proof. apply pass_spec. Qed.

(** ** A concrete execution *)

Definition samplePod (uid : string) (created : Z) : DevicePod :=
  MkDevicePod uid "lab" uid created false {[NodeUIDAnnotation := "n"]} [StartupGateContainerName] "worker-1"
    "Pending" [] [].


(** A pass in which every patch of an existing Pod succeeds. *)
Definition runPass (global : Z) (w : hostWorld) : hostWorld :=
  let '(reservations, granted, _) :=
    admitStartupHosts global [MkHostNode "n" None] (Some []) (λ uid, bool_decide (is_Some (worldPods w !! uid)))
      (worldReservations w) (map_to_list (cachePods w)).*2 in
  MkHostWorld (grantAll (worldPods w) granted) (cachePods w) reservations (bootedOnce w) (lostGrants w).

Lemma runPass_step global w : hostStep global w (runPass global w).
Proof.
  unfold runPass. destruct (admitStartupHosts _ _ _ _ _ _) as [[reservations granted] failed] eqn:E.
  eapply host_pass; [reflexivity| |exact E]. intros uid Hu. by apply bool_decide_eq_true in Hu.
Qed.


Lemma startup_host_pass_witness :
  let pods := [samplePod "p1" 2; samplePod "p2" 1] in
  (admitStartupHosts 1 [MkHostNode "n" None] (Some []) (λ _, true) ∅ pods) = ({["p2"]}, [samplePod "p2" 1], false)
  ∧ onHost [samplePod "p2" 1] "worker-1" ≤ 1.
Proof.
  cbv zeta. split; [vm_compute; reflexivity|].
  pose proof (startup_host_pass 1 [MkHostNode "n" None] (Some []) (λ _, true) ∅ [samplePod "p1" 2; samplePod "p2" 1])
    as H.
  assert (admitStartupHosts 1 [MkHostNode "n" None] (Some []) (λ _, true) ∅ [samplePod "p1" 2; samplePod "p2" 1]
    = ({["p2"]}, [samplePod "p2" 1], false)) as E by (vm_compute; reflexivity).
  rewrite E in H. destruct H as [_ _ Hh _ _ _ _ _].
  - vm_compute. repeat constructor; set_solver.
  - specialize (Hh (samplePod "p2" 1)). cbn [samplePod DPHost] in Hh.
    assert (load ∅ [samplePod "p1" 2; samplePod "p2" 1] "worker-1" = 0) as Hl by (vm_compute; reflexivity).
    rewrite Hl in Hh. apply Hh; [left|lia].
Defined.

(** *** A grant whose answer is lost *)

(** Two Pods of one host, the older one not scheduled yet. *)
Definition unscheduled : DevicePod := samplePod "p2" 1 <| DPHost := "" |>.
Definition twoPods : gmap string DevicePod := {["p1" := samplePod "p1" 2; "p2" := unscheduled]}.
Definition lostWorld : hostWorld := MkHostWorld twoPods twoPods ∅ ∅ ∅.

(** The patch of the first Pod is carried out and answered with an error; then the other Pod
    is scheduled, and the next pass grants it from a cache that does not show the first grant:
    with a limit of one, both boot at once. *)
Example lost_grant_exceeds_limit :
  freshStart lostWorld ∧
  ∃ w, rtc (hostStep 1) lostWorld w ∧ inFlight w "worker-1" = {["p1"; "p2"]} ∧ lostGrants w = {["p1"]}.
Proof.
  split.
  { split; [reflexivity|]. split; [reflexivity|]. intros uid pod. cbn [lostWorld worldPods]. unfold twoPods.
    rewrite lookup_insert_Some, lookup_singleton_Some.
    intros [[<- <-]|[_ [<- <-]]]; (split; [reflexivity|split; [discriminate|split; vm_compute; [reflexivity|discriminate]]]). }
  eexists. split.
  - eapply rtc_l.
    { apply (host_pass_lost 1 lostWorld (map_to_list twoPods).*2 [MkHostNode "n" None] (Some []) (λ _, false) ∅ []
               (samplePod "p1" 2)); [reflexivity|done|vm_compute; reflexivity|reflexivity|].
      apply list_elem_of_fmap. exists ("p1", samplePod "p1" 2). split; [reflexivity|]. apply elem_of_map_to_list. vm_compute. reflexivity. }
    eapply rtc_l; [eapply (host_update 1 _ unscheduled (samplePod "p2" 1)); [vm_compute; reflexivity|by split_and!|reflexivity]|].
    eapply rtc_l; [apply (host_observe 1 _ "p2")|]. eapply rtc_l; [apply runPass_step|]. apply rtc_refl.
  - split; vm_compute; reflexivity.
Qed.
