(* ===== verification/StartupAdmission.v ===== *)
(** * Startup admission of the installation

    Models [controllers/node/startupadmission.go]: the one queue that lets the Pod groups of
    all namespaces start in bounded batches, and drives the per-host admission.  The lists of
    the cache and the API server's answers to the patches are arguments. *)

From S2P Require Import Prelude Api Grouping StartupHost.
Local Open Scope Z_scope.

(** ** Data *)

Definition directRequeueInterval : Z := 60 * 10 ^ 9.
Definition admissionRetry : Z := 10 ^ 9.

(** A Node with the metadata admission reads. *)
Record AdmissionNode := MkAdmissionNode {
  ANNamespace : string;
  ANCreated : Z;
  ANDeleting : bool;
  ANController : option ControllerReference;
  ANNode : Node
}.
#[export] Instance AdmissionNode_updatable : Updatable AdmissionNode :=
  λ n, MkAdmissionNode (ANNamespace n) (ANCreated n) (ANDeleting n) (ANController n) (ANNode n).

Definition ANUID (node : AdmissionNode) : string := NodeUID (ANNode node).
Definition ANName (node : AdmissionNode) : string := NodeObjectName (ANNode node).
Definition ANAnnotations (node : AdmissionNode) : gmap string string := NodeAnnotations (ANNode node).

(** [node.Annotations[key] = value] and [delete(node.Annotations, key)]. *)
Definition annotate (node : AdmissionNode) (f : gmap string string → gmap string string) : AdmissionNode :=
  node <| ANNode := ANNode node <| NodeAnnotations ::= f |> |>.

Record startupPodGroup := StartupPodGroup {
  groupPrimary : AdmissionNode;
  groupMembers : list AdmissionNode
}.

(** ** Operations *)

Definition startupAdmissionRequired (node : AdmissionNode) (size : Z) : bool :=
  (0 <? size)
  && (bool_decide (ANUID node = "")
      || negb (bool_decide (annotation (ANAnnotations node) AnnotationStartupAdmitted = ANUID node))).

Definition startupSandboxReady (pod : DevicePod) : bool :=
  contains_func (λ c, bool_decide (c.1 = PodReadyToStartContainers) && bool_decide (c.2 = ConditionTrue)) (DPConditions pod).

(** Whether an update of a Pod wakes the queue, besides a change of its desired state. *)
Definition podUpdateWakes (old current : DevicePod) : bool :=
  negb (bool_decide (startupSandboxReady old = startupSandboxReady current))
  || negb (bool_decide (DPHost old = DPHost current))
  || negb (bool_decide (startupPrimaryStarted old = startupPrimaryStarted current))
  || negb (bool_decide (DPPhase old = DPPhase current)).

Definition startupHostPending (pod : DevicePod) : bool :=
  negb (DPDeleting pod) && hasStartupHostGate (DPInitContainers pod) && negb (startupPrimaryStarted pod).

(** The newest Pod of each Node UID that is not being deleted. *)
Definition startupAdmissionPods (pods : list DevicePod) : gmap string DevicePod :=
  foldl (λ newest pod,
           if DPDeleting pod then newest
           else
             let uid := nodeUIDOf pod in
             match newest !! uid with
             | None => <[uid := pod]> newest
             | Some prior => if DPCreated prior <? DPCreated pod then <[uid := pod]> newest else newest
             end) ∅ pods.

(** Nodes whose admission was written but is not visible yet are taken as admitted; a
    reservation that is visible, or whose Node is gone, is dropped. *)
Definition observeNode (size : Z) (acc : gset string * list AdmissionNode) (node : AdmissionNode) :
    gset string * list AdmissionNode :=
  let '(admissions, seen) := acc in
  if bool_decide (ANUID node ∈ admissions) then
    if negb (startupAdmissionRequired node size) then (admissions ∖ {[ANUID node]}, seen ++ [node])
    else (admissions, seen ++ [annotate node (<[AnnotationStartupAdmitted := ANUID node]>)])
  else (admissions, seen ++ [node]).

Definition observeStartupAdmissions (admissions : gset string) (nodes : list AdmissionNode) (size : Z) :
    gset string * list AdmissionNode :=
  let '(admissions, seen) := foldl (observeNode size) (admissions, []) nodes in
  (admissions ∩ list_to_set (ANUID <$> nodes), seen).

Section admission.
Context `{!RangeOrder string}.

Definition byNamespace (nodes : list AdmissionNode) : gmap string (gmap string AdmissionNode) :=
  foldl (λ namespaces node,
           if ANDeleting node then namespaces
           else <[ANNamespace node := <[ANName node := node]> (default ∅ (namespaces !! ANNamespace node))]> namespaces)
        ∅ nodes.

(** The members of each group of a namespace, by the primary's name. *)
Definition namespaceGroupStep (byName : gmap string AdmissionNode) (groups : gmap string (list AdmissionNode))
    (entry : string * AdmissionNode) : gmap string (list AdmissionNode) :=
  let primary := ResolvePrimaryNode (ANNode <$> byName) entry.1 in
  match byName !! primary with
  | None => groups
  | Some _ => <[primary := default [] (groups !! primary) ++ [entry.2]]> groups
  end.

(** The primary first, the other members by name. *)
Definition orderedGroup (byName : gmap string AdmissionNode) (entry : string * list AdmissionNode) :
    option startupPodGroup :=
  let '(name, members) := entry in
  match byName !! name with
  | None => None
  | Some primary =>
      if ShouldIgnoreReconcile (NodeLabels (ANNode primary)) then None
      else Some (StartupPodGroup primary
                   (primary :: filter (λ member, ANName member ≠ name) (sort_by ANName members)))
  end.

Definition namespaceGroups (byName : gmap string AdmissionNode) : list startupPodGroup :=
  omap (orderedGroup byName) (range_list (foldl (namespaceGroupStep byName) ∅ (range_list byName))).

Definition startupAdmissionGroups (nodes : list AdmissionNode) : list startupPodGroup :=
  (range_list (byNamespace nodes)).*2 ≫= namespaceGroups.

(** What a pass writes: an admission or its withdrawal, of a Node. *)
Inductive admissionWrite :=
| AdmitNode (node : AdmissionNode)
| WithdrawNode (node : AdmissionNode).

(** The controller's reservations and the writes so far. *)
Record admissionState := MkAdmissionState {
  stateAdmissions : gset string;
  stateWrites : list admissionWrite
}.

Variable patchOk : AdmissionNode → bool.

(** [Err] is a failed patch, with the state before it. *)
Definition admitStep (s : admissionState) (node : AdmissionNode) : result admissionState admissionState :=
  if negb (startupAdmissionRequired node 1) then Ok s
  else if negb (patchOk node) then Err s
  else Ok (MkAdmissionState ({[ANUID node]} ∪ stateAdmissions s) (stateWrites s ++ [AdmitNode node])).

(** A Node is a member of one group, unless network-mode references form a cycle; each group of
    the model has its own copies of its members.  In the code groups share the objects, so a
    Node of two groups of a cycle that one group had admitted is passed over by the other, where
    the model repeats the write. *)
Definition admitStartupGroup (s : admissionState) (group : startupPodGroup) : result admissionState admissionState :=
  rfold admitStep s (groupMembers group).

Definition withdrawStep (s : admissionState) (node : AdmissionNode) : result admissionState admissionState :=
  if negb (bool_decide (is_Some (ANAnnotations node !! AnnotationStartupAdmitted))) then Ok s
  else if negb (patchOk node) then Err s
  else Ok (MkAdmissionState (stateAdmissions s ∖ {[ANUID node]}) (stateWrites s ++ [WithdrawNode node])).

Definition withdrawStartupGroup (s : admissionState) (group : startupPodGroup) :
    result admissionState admissionState :=
  rfold withdrawStep s (groupMembers group).

(** The state, the pending groups and whether an admitted group is not ready. *)
Definition pendingStep (newest : gmap string DevicePod) (size : Z)
    (acc : admissionState * list startupPodGroup * bool) (group : startupPodGroup) :
    result admissionState (admissionState * list startupPodGroup * bool) :=
  let '(s, pending, blocked) := acc in
  let primary := groupPrimary group in
  if IsStopped (ANNode primary) then
    let? s := withdrawStartupGroup s group in Ok (s, pending, blocked)
  else
    let pod := newest !! ANUID primary in
    if negb (startupAdmissionRequired primary size) || bool_decide (is_Some pod) then
      let? s := admitStartupGroup s group in
      Ok (s, pending, blocked || match pod with None => true | Some pod => negb (startupSandboxReady pod) end)
    else if bool_decide (annotation (ANAnnotations primary) AnnotationStartupHold = "") then
      Ok (s, pending ++ [group], blocked)
    else Ok (s, pending, blocked).

Definition pendingStartupGroups (groups : list startupPodGroup) (newest : gmap string DevicePod) (size : Z)
    (s : admissionState) : result admissionState (admissionState * list startupPodGroup * bool) :=
  rfold (pendingStep newest size) (s, [], false) groups.

(** The order of the pending groups: the oldest primary first, then by namespace and name. *)
Definition groupLe (a b : startupPodGroup) : Prop :=
  ANCreated (groupPrimary a) < ANCreated (groupPrimary b)
  ∨ (ANCreated (groupPrimary a) = ANCreated (groupPrimary b)
     ∧ String.le (ANNamespace (groupPrimary a) +:+ "/" +:+ ANName (groupPrimary a))
                 (ANNamespace (groupPrimary b) +:+ "/" +:+ ANName (groupPrimary b))).
#[export] Instance groupLe_dec : RelDecision groupLe.
Proof. intros a b. unfold groupLe. apply _. Defined.

(** When the queue is run again ([RequeueAfter], zero for never), and whether with an error. *)
Record admissionResult := MkAdmissionResult {
  resultRequeue : Z;
  resultFailed : bool;
  resultAdmissions : admissionState;
  resultHosts : gset string;
  resultGranted : list DevicePod
}.

Definition hostNodeOf (node : AdmissionNode) : HostNode := MkHostNode (ANUID node) (ANController node).

(** [reconcileStartupAdmission]: [size] and [global] are the configured limits, a list that
    is [None] failed. *)
Definition reconcileStartupAdmission (size global : Z) (listNodes : option (list AdmissionNode))
    (listPods : option (list DevicePod)) (listTopologies : option (list HostTopology)) (patchPodOk : string → bool)
    (admissions hostAdmissions : gset string) : admissionResult :=
  let start := MkAdmissionState admissions [] in
  match listNodes, listPods with
  | None, _ | Some _, None => MkAdmissionResult admissionRetry true start hostAdmissions []
  | Some nodes, Some pods =>
      let '(hostAdmissions, granted, hostsFailed) :=
        admitStartupHosts global (hostNodeOf <$> nodes) listTopologies patchPodOk hostAdmissions pods in
      let done_ requeue failed s := MkAdmissionResult requeue failed s hostAdmissions granted in
      if hostsFailed then done_ admissionRetry true start
      else if size <=? 0 then
        done_ (if contains_func startupHostPending pods then admissionRetry else directRequeueInterval) false start
      else
        let newest := startupAdmissionPods pods in
        let '(admissions, nodes) := observeStartupAdmissions admissions nodes size in
        match pendingStartupGroups (startupAdmissionGroups nodes) newest size (MkAdmissionState admissions []) with
        | Err s => done_ admissionRetry true s
        | Ok (s, pending, blocked) =>
            if blocked then done_ admissionRetry false s
            else
              let pending := merge_sort groupLe pending in
              let pending :=
                if size <? Z.of_nat (length pending) then take (Z.to_nat size) pending else pending in
              match rfold admitStartupGroup s pending with
              | Err s => done_ admissionRetry true s
              | Ok s => done_ (if bool_decide (length pending = 0%nat) then 0 else admissionRetry) false s
              end
        end
  end.
End admission.

(** ** What a pass is meant to do *)

Definition admitWrites (group : startupPodGroup) : list admissionWrite :=
  AdmitNode <$> filter (λ node, startupAdmissionRequired node 1 = true) (groupMembers group).

Definition withdrawWrites (group : startupPodGroup) : list admissionWrite :=
  WithdrawNode <$> filter (λ node, is_Some (ANAnnotations node !! AnnotationStartupAdmitted)) (groupMembers group).

Section plan.
Variables (newest : gmap string DevicePod) (size : Z).

Definition stoppedGroup (group : startupPodGroup) : bool := IsStopped (ANNode (groupPrimary group)).

(** A running group that was admitted, or whose Pod exists. *)
Definition activeGroup (group : startupPodGroup) : bool :=
  negb (stoppedGroup group)
  && (negb (startupAdmissionRequired (groupPrimary group) size)
      || bool_decide (is_Some (newest !! ANUID (groupPrimary group)))).

(** A running group that may be admitted. *)
Definition candidateGroup (group : startupPodGroup) : bool :=
  negb (stoppedGroup group) && negb (activeGroup group)
  && bool_decide (annotation (ANAnnotations (groupPrimary group)) AnnotationStartupHold = "").

Definition sandboxUp (group : startupPodGroup) : bool :=
  match newest !! ANUID (groupPrimary group) with None => false | Some pod => startupSandboxReady pod end.

(** The writes for the groups that are not new: stopped groups lose their admission, active
    ones are admitted completely. *)
Definition upkeepWrites (group : startupPodGroup) : list admissionWrite :=
  if stoppedGroup group then withdrawWrites group
  else if activeGroup group then admitWrites group else [].

(** The groups newly admitted: none while the sandbox of an active one is not up; otherwise
    the first candidates, one batch of them. *)
Definition freshGroups (groups : list startupPodGroup) : list startupPodGroup :=
  if contains_func (λ group, activeGroup group && negb (sandboxUp group)) groups then []
  else take (Z.to_nat size) (merge_sort groupLe (filter (λ group, candidateGroup group = true) groups)).

Definition plannedWrites (groups : list startupPodGroup) : list admissionWrite :=
  (groups ≫= upkeepWrites) ++ (freshGroups groups ≫= admitWrites).

(** ** The loops follow the plan *)

Variable patchOk : AdmissionNode → bool.

(** A run that added [writes], or stopped at a failed patch after a prefix of them. *)
Definition follows (s : admissionState) (writes : list admissionWrite)
    (r : result admissionState admissionState) : Prop :=
  match r with
  | Ok s' => stateWrites s' = stateWrites s ++ writes
  | Err s' => ∃ w, stateWrites s' = stateWrites s ++ w ∧ w `prefix_of` writes
  end.

Lemma follows_bind s writes1 writes2 r (k : admissionState → result admissionState admissionState) :
  follows s writes1 r → (∀ s', r = Ok s' → follows s' writes2 (k s')) → follows s (writes1 ++ writes2) (rbind r k).
Proof.
  intros Hr Hk. destruct r as [s1|s1]; cbn in *.
  - specialize (Hk s1 eq_refl). destruct (k s1) as [s2|s2]; cbn in *.
    + by rewrite Hk, Hr, <- app_assoc.
    + destruct Hk as (w & Hw & Hp). exists (writes1 ++ w). rewrite Hw, Hr, <- app_assoc. split; [done|].
      by apply prefix_app.
  - destruct Hr as (w & Hw & Hp). exists w. split; [done|]. by apply prefix_app_r.
Qed.

Lemma follows_fold {A} (f : admissionState → A → result admissionState admissionState)
    (writes : A → list admissionWrite) l : ∀ s,
  (∀ s x, follows s (writes x) (f s x)) → follows s (l ≫= writes) (rfold f s l).
Proof.
  induction l as [|x l IH]; intros s Hf; cbn [rfold].
  - cbn. by rewrite app_nil_r.
  - rewrite bind_cons. apply follows_bind; [apply Hf|]. intros s' _. by apply IH.
Qed.

Lemma fmap_filter_bind {A B} (P : A → Prop) `{∀ x, Decision (P x)} (f : A → B) l :
  f <$> filter P l = l ≫= λ x, if bool_decide (P x) then [f x] else [].
Proof.
  induction l as [|x l IH]; [done|]. rewrite filter_cons, bind_cons, <- IH.
  case_bool_decide; case_decide; done.
Qed.

Lemma admitStartupGroup_follows s group : follows s (admitWrites group) (admitStartupGroup patchOk s group).
Proof.
  unfold admitWrites. rewrite fmap_filter_bind. apply follows_fold. intros s' node. unfold admitStep.
  destruct (startupAdmissionRequired node 1); cbn [negb].
  - rewrite bool_decide_eq_true_2 by done. destruct (patchOk node); cbn; [done|]. exists []. rewrite app_nil_r.
    split; [done|apply prefix_nil].
  - rewrite bool_decide_eq_false_2 by done. cbn. by rewrite app_nil_r.
Qed.

Lemma withdrawStartupGroup_follows s group : follows s (withdrawWrites group) (withdrawStartupGroup patchOk s group).
Proof.
  unfold withdrawWrites. rewrite fmap_filter_bind. apply follows_fold. intros s' node. unfold withdrawStep.
  case_bool_decide; cbn [negb].
  - destruct (patchOk node); cbn; [done|]. exists []. rewrite app_nil_r. split; [done|apply prefix_nil].
  - cbn. by rewrite app_nil_r.
Qed.

(** One group: its upkeep, and whether it becomes a candidate or blocks new admissions. *)
Lemma pendingStep_cases s pending blocked group :
  ∃ r, follows s (upkeepWrites group) r
  ∧ pendingStep patchOk newest size (s, pending, blocked) group =
    let? s' := r in
    Ok (s', pending ++ (if candidateGroup group then [group] else []),
        blocked || (activeGroup group && negb (sandboxUp group))).
Proof.
  unfold pendingStep, upkeepWrites, candidateGroup, activeGroup, sandboxUp, stoppedGroup.
  destruct (IsStopped (ANNode (groupPrimary group))); cbn [negb andb].
  { exists (withdrawStartupGroup patchOk s group). split; [apply withdrawStartupGroup_follows|].
    by rewrite app_nil_r, orb_false_r. }
  destruct (negb (startupAdmissionRequired (groupPrimary group) size) || _) eqn:Ea; cbn [negb andb].
  { exists (admitStartupGroup patchOk s group). split; [apply admitStartupGroup_follows|].
    rewrite app_nil_r. by destruct (newest !! ANUID (groupPrimary group)). }
  exists (Ok s). split; [cbn; by rewrite app_nil_r|]. cbn [rbind]. rewrite orb_false_r.
  destruct (bool_decide (annotation _ _ = "")); by rewrite ?app_nil_r.
Qed.

(** The loop over the groups: its writes, the candidates it collects and whether an active
    group's sandbox is not up. *)
Lemma pendingStartupGroups_follows groups : ∀ s pending blocked,
  match rfold (pendingStep patchOk newest size) (s, pending, blocked) groups with
  | Ok (s', pending', blocked') =>
      stateWrites s' = stateWrites s ++ (groups ≫= upkeepWrites)
      ∧ pending' = pending ++ filter (λ group, candidateGroup group = true) groups
      ∧ blocked' = blocked || contains_func (λ group, activeGroup group && negb (sandboxUp group)) groups
  | Err s' => ∃ w, stateWrites s' = stateWrites s ++ w ∧ w `prefix_of` (groups ≫= upkeepWrites)
  end.
Proof.
  induction groups as [|group groups IH]; intros s pending blocked; cbn [rfold].
  { cbn. by rewrite !app_nil_r, orb_false_r. }
  destruct (pendingStep_cases s pending blocked group) as (r & Hr & ->).
  rewrite bind_cons, filter_cons. cbn [contains_func existsb].
  destruct r as [s1|s1]; cbn [rbind follows] in *.
  - match goal with |- context [rfold _ (s1, ?p, ?b) groups] => specialize (IH s1 p b) end.
    destruct (rfold _ _ groups) as [[[s' pending'] blocked']|s'].
    + destruct IH as (-> & -> & ->). rewrite Hr, <- !app_assoc, orb_assoc. split_and!; [done| |done].
      destruct (candidateGroup group); [by rewrite decide_True|by rewrite decide_False].
    + destruct IH as (w & -> & Hp). exists (upkeepWrites group ++ w). rewrite Hr, <- app_assoc. split; [done|].
      by apply prefix_app.
  - destruct Hr as (w & Hw & Hp). exists w. split; [done|]. by apply prefix_app_r.
Qed.

(** The groups that are let start in this pass, if none is still coming up. *)
Lemma batch_take (pending : list startupPodGroup) :
  0 < size →
  (if size <? Z.of_nat (length pending) then take (Z.to_nat size) pending else pending)
  = take (Z.to_nat size) pending.
Proof.
  intros Hs. destruct (size <? Z.of_nat (length pending)) eqn:E; [done|]. apply Z.ltb_ge in E.
  rewrite take_ge; [done|lia].
Qed.
End plan.

(** ** Remembered admissions *)

(** How the pass sees a Node: as it is, or with its remembered admission. *)
Definition remembers (admissions : gset string) (size : Z) (node node' : AdmissionNode) : Prop :=
  ANUID node' = ANUID node ∧ ANName node' = ANName node
  ∧ (ANUID node ∈ admissions → startupAdmissionRequired node' size = false)
  ∧ (ANUID node ∉ admissions → node' = node).

Lemma observeNode_remembers admissions size adm seen node :
  ANUID node ≠ "" → (ANUID node ∈ adm ↔ ANUID node ∈ admissions) →
  ∃ adm' node', observeNode size (adm, seen) node = (adm', seen ++ [node'])
  ∧ (adm' = adm ∨ adm' = adm ∖ {[ANUID node]}) ∧ remembers admissions size node node'.
Proof.
  intros Hne Hadm. unfold observeNode. case_bool_decide as Hin.
  - destruct (startupAdmissionRequired node size) eqn:Er; cbn [negb].
    + eexists _, _. split; [done|]. split; [by left|]. split_and!; [done|done| |tauto].
      intros _. unfold startupAdmissionRequired, annotation, ANAnnotations. cbn. rewrite lookup_insert_eq. cbn.
      unfold ANUID in *. cbn. rewrite (bool_decide_eq_false_2 (NodeUID (ANNode node) = "")) by done.
      rewrite (bool_decide_eq_true_2 (NodeUID (ANNode node) = NodeUID (ANNode node))) by done. by rewrite andb_false_r.
    + eexists _, _. split; [done|]. split; [by right|]. split_and!; [done|done|done|tauto].
  - eexists _, _. split; [done|]. split; [by left|]. split_and!; [done|done|tauto|done].
Qed.

(** Along the list the reservations of the Nodes still to visit are untouched. *)
Lemma observe_along admissions size nodes : ∀ adm seen,
  NoDup (ANUID <$> nodes) → (∀ node, node ∈ nodes → ANUID node ≠ "") →
  (∀ node, node ∈ nodes → ANUID node ∈ adm ↔ ANUID node ∈ admissions) →
  ∃ seen2, (foldl (observeNode size) (adm, seen) nodes).2 = seen ++ seen2
  ∧ Forall2 (remembers admissions size) nodes seen2.
Proof.
  induction nodes as [|node nodes IH]; intros adm seen Hnd Hne Hadm; cbn [foldl].
  { exists []. by rewrite app_nil_r. }
  cbn in Hnd. apply NoDup_cons in Hnd as [Hnew Hnd].
  destruct (observeNode_remembers admissions size adm seen node) as (adm' & node' & -> & Hadm' & Hrem);
    [apply Hne; left|apply Hadm; left|].
  destruct (IH adm' (seen ++ [node'])) as (seen2 & -> & HF); [done|intros n Hn; apply Hne; by right| |].
  - intros n Hn. rewrite <- (Hadm n) by by right. destruct Hadm' as [-> | ->]; [done|].
    rewrite elem_of_difference, elem_of_singleton. split; [by intros [? _]|]. intros Hin. split; [done|].
    intros Heq. apply Hnew. rewrite <- Heq. by apply list_elem_of_fmap_2.
  - exists (node' :: seen2). rewrite <- app_assoc. split; [done|]. by constructor.
Qed.

(** A reservation is dropped only when the cache shows the admission. *)
Lemma observe_dropped size nodes : ∀ admissions seen,
  let admissions' := (foldl (observeNode size) (admissions, seen) nodes).1 in
  ∀ uid, uid ∈ admissions → uid ∉ admissions' →
    ∃ node, node ∈ nodes ∧ ANUID node = uid ∧ startupAdmissionRequired node size = false.
Proof.
  induction nodes as [|node nodes IH]; intros admissions seen; cbv zeta; cbn [foldl]; [done|]. intros uid Hu Hn.
  destruct (observeNode size (admissions, seen) node) as [adm1 seen1] eqn:E.
  destruct (decide (uid ∈ adm1)) as [Hin|Hout].
  - destruct (IH adm1 seen1 uid Hin Hn) as (n & Hn' & ?). exists n. split; [by right|done].
  - exists node. split; [left|]. unfold observeNode in E. case_bool_decide; [|naive_solver].
    destruct (startupAdmissionRequired node size); cbn [negb] in E; [naive_solver|]. simplify_eq. split; [|done]. destruct (decide (ANUID node = uid)); [done|]. set_solver.
Qed.

(** A remembered admission counts as long as its Node exists, and is forgotten only once the
    cache shows it. *)
Lemma observe_spec admissions nodes size :
  NoDup (ANUID <$> nodes) → (∀ node, node ∈ nodes → ANUID node ≠ "") →
  let '(admissions', seen) := observeStartupAdmissions admissions nodes size in
  Forall2 (remembers admissions size) nodes seen
  ∧ ∀ node, node ∈ nodes → ANUID node ∈ admissions →
      ANUID node ∈ admissions' ∨ startupAdmissionRequired node size = false.
Proof.
  intros Hnd Hne. unfold observeStartupAdmissions.
  destruct (observe_along admissions size nodes admissions [] Hnd Hne ltac:(done)) as (seen2 & Hs & HF).
  pose proof (observe_dropped size nodes admissions []) as Hd.
  destruct (foldl _ _ nodes) as [adm' seen']. cbn in *. subst seen'. split; [done|]. intros node Hn Hin.
  destruct (decide (ANUID node ∈ adm')) as [Hk|Hk]; [left; apply elem_of_intersection; split; [done|]|right].
  - apply elem_of_list_to_set. by apply list_elem_of_fmap_2.
  - destruct (Hd _ Hin Hk) as (n & Hn' & Heq & Hr). by assert (n = node) as -> by (by eapply (NoDup_key_inj ANUID)).
Qed.

Section pass.
Context `{!RangeOrder string}.

(** C28: The installation-wide queue implements its plan.  A pass of the queue with a batch
    size does exactly the planned writes, in order, or stops at a failed patch after a prefix
    of them: stopped groups lose their admission, active groups (admitted, or with a Pod) are
    admitted completely, and then, only if the sandbox of every active group is up, the
    oldest candidates are admitted, at most one batch of groups.  Admissions that were
    written but are not visible in the cache yet count as admitted, and are forgotten only
    when they are. *)
Theorem startup_admission_pass patchOk size global nodes pods listTopologies patchPodOk admissions hostAdmissions :
  0 < size → NoDup (ANUID <$> nodes) → (∀ node, node ∈ nodes → ANUID node ≠ "") →
  let r := reconcileStartupAdmission patchOk size global (Some nodes) (Some pods) listTopologies patchPodOk
             admissions hostAdmissions in
  let '(remembered, seen) := observeStartupAdmissions admissions nodes size in
  let groups := startupAdmissionGroups seen in
  let newest := startupAdmissionPods pods in
  (if resultFailed r then stateWrites (resultAdmissions r) `prefix_of` plannedWrites newest size groups
   else stateWrites (resultAdmissions r) = plannedWrites newest size groups)
  ∧ (length (freshGroups newest size groups) ≤ Z.to_nat size)%nat
  ∧ (freshGroups newest size groups ≠ [] →
       ∀ group, group ∈ groups → activeGroup newest size group = true → sandboxUp newest group = true)
  ∧ Forall2 (λ node node', ANUID node' = ANUID node
      ∧ (ANUID node ∈ admissions → startupAdmissionRequired node' size = false)) nodes seen
  ∧ (∀ node, node ∈ nodes → ANUID node ∈ admissions →
       ANUID node ∈ remembered ∨ startupAdmissionRequired node size = false).
Proof.
  intros Hs Hnd Hne r. pose proof (observe_spec admissions nodes size Hnd Hne) as Hobs.
  unfold r, reconcileStartupAdmission. clear r.
  destruct (observeStartupAdmissions admissions nodes size) as [remembered seen]. destruct Hobs as (HF & Hrem).
  cbv zeta. set (groups := startupAdmissionGroups seen). set (newest := startupAdmissionPods pods).
  split_and!.
  - destruct (admitStartupHosts _ _ _ _ _ _) as [[hostAdmissions' granted] hostsFailed].
    destruct hostsFailed; [cbn; apply prefix_nil|].
    assert ((size <=? 0) = false) as -> by (apply Z.leb_gt; lia).
    pose proof (pendingStartupGroups_follows newest size patchOk groups (MkAdmissionState remembered []) [] false) as Hp.
    unfold pendingStartupGroups. destruct (rfold _ _ groups) as [[[s pending] blocked]|s].
    2:{ destruct Hp as (w & Hw & Hp). cbn in *. rewrite Hw. unfold plannedWrites. by apply prefix_app_r. }
    destruct Hp as (Hw & -> & Hb). cbn in Hw, Hb. unfold plannedWrites, freshGroups. fold newest groups in Hb.
    rewrite Hb. destruct (contains_func _ groups) eqn:Ec; cbn [app]; [cbn; by rewrite app_nil_r|].
    rewrite batch_take by done. match goal with |- context [take _ ?l] => set (fresh := take (Z.to_nat size) l) end.
    pose proof (follows_fold (admitStartupGroup patchOk) admitWrites fresh s
      (λ s g, admitStartupGroup_follows patchOk s g)) as Hf.
    destruct (rfold _ s fresh) as [s'|s']; cbn in *; [by rewrite Hf, Hw|].
    destruct Hf as (w & -> & Hpre). rewrite Hw. by apply prefix_app.
  - unfold freshGroups. destruct (contains_func _ groups); [cbn; lia|]. rewrite length_take. lia.
  - unfold freshGroups. destruct (contains_func _ groups) eqn:Ec; [done|]. intros _ group Hg Ha.
    rewrite contains_func_false in Ec. specialize (Ec group Hg). rewrite Ha in Ec. cbn in Ec.
    by apply negb_false_iff in Ec.
  - eapply Forall2_impl; [exact HF|]. unfold remembers. tauto.
  - done.
Qed.
End pass.

(** ** A concrete pass *)

#[local] Instance admission_range : RangeOrder string := canonical_range.

Definition sampleNode (name : string) (created : Z) (mode : string) : AdmissionNode :=
  MkAdmissionNode "lab" created false None (MkNode name ("uid-" +:+ name) mode).

(** Two groups wait, one of two nodes; the batch size is one and the older group is admitted
    as a whole, its primary first. *)
Lemma startup_admission_pass_witness :
  let nodes := [sampleNode "b" 1 ""; sampleNode "a" 2 ""; sampleNode "b-side" 9 "container:b"] in
  let r := reconcileStartupAdmission (λ _, true) 1 0 (Some nodes) (Some []) (Some []) (λ _, true) ∅ ∅ in
  stateWrites (resultAdmissions r) = [AdmitNode (sampleNode "b" 1 ""); AdmitNode (sampleNode "b-side" 9 "container:b")]
  ∧ (length (freshGroups ∅ 1 (startupAdmissionGroups nodes)) ≤ 1)%nat.
Proof.
  cbv zeta. split; [vm_compute; reflexivity|].
  pose proof (startup_admission_pass (λ _, true) 1 0
    [sampleNode "b" 1 ""; sampleNode "a" 2 ""; sampleNode "b-side" 9 "container:b"] [] (Some []) (λ _, true) ∅ ∅) as H.
  destruct (observeStartupAdmissions _ _ _) as [remembered seen] eqn:E.
  destruct H as (_ & Hlen & _).
  - lia.
  - vm_compute. repeat constructor; set_solver.
  - intros node Hn. rewrite !elem_of_cons, elem_of_nil in Hn. destruct Hn as [->|[->|[->|[]]]]; done.
  - assert (seen = [sampleNode "b" 1 ""; sampleNode "a" 2 ""; sampleNode "b-side" 9 "container:b"]) as ->.
    { vm_compute in E. injection E as <- <-. vm_compute. reflexivity. }
    exact Hlen.
Defined.
