(* ===== verification/GoStrings.v ===== *)
(** * Go's string functions

    The functions of Go's [strings], [strconv] and [fmt] the topology compiler uses, on
    byte strings.  Case mapping and white space are those of ASCII: the definitions agree
    with Go on strings without non-ASCII letters or spaces, which is what the compiled
    vocabulary (names, ports, protocols) is made of. *)

From S2P Require Import Prelude Api.
Local Open Scope Z_scope.

(** ** Characters *)

Definition code (a : Ascii.ascii) : Z := Z.of_nat (Ascii.nat_of_ascii a).
Definition char (z : Z) : Ascii.ascii := Ascii.ascii_of_nat (Z.to_nat z).

Lemma code_char z : 0 ≤ z < 256 → code (char z) = z.
Proof. intros Hz. unfold code, char. rewrite Ascii.nat_ascii_embedding; lia. Qed.

Definition isSpace (a : Ascii.ascii) : bool :=
  (Z.leb 9 (code a) && Z.leb (code a) 13) || Z.eqb (code a) 32.
Definition isDigit (a : Ascii.ascii) : bool := Z.leb 48 (code a) && Z.leb (code a) 57.
Definition upperChar (a : Ascii.ascii) : Ascii.ascii :=
  if Z.leb 97 (code a) && Z.leb (code a) 122 then char (code a - 32) else a.
Definition lowerChar (a : Ascii.ascii) : Ascii.ascii :=
  if Z.leb 65 (code a) && Z.leb (code a) 90 then char (code a + 32) else a.

Fixpoint mapString (f : Ascii.ascii → Ascii.ascii) (s : string) : string :=
  match s with EmptyString => EmptyString | String a s => String (f a) (mapString f s) end.

Definition ToUpper : string → string := mapString upperChar.
Definition ToLower : string → string := mapString lowerChar.

(** All characters of a string satisfy a predicate. *)
Fixpoint allChars (p : Ascii.ascii → bool) (s : string) : bool :=
  match s with EmptyString => true | String a s => p a && allChars p s end.

Definition ContainsChar (s : string) (c : Ascii.ascii) : bool :=
  negb (allChars (λ a, negb (bool_decide (a = c))) s).

(** [strings.Contains]. *)
Fixpoint Contains (sub s : string) : bool :=
  HasPrefix s sub || match s with EmptyString => false | String _ s => Contains sub s end.

(** ** Splitting and trimming *)

(** [strings.Cut] by a one-character separator; [None] when it does not occur. *)
Fixpoint Cut (sep : Ascii.ascii) (s : string) : option (string * string) :=
  match s with
  | EmptyString => None
  | String a s =>
      if decide (a = sep) then Some (EmptyString, s)
      else match Cut sep s with
           | Some (before, after) => Some (String a before, after)
           | None => None
           end
  end.

(** [strings.Split] by a one-character separator. *)
Fixpoint Split (sep : Ascii.ascii) (s : string) : list string :=
  match s with
  | EmptyString => [EmptyString]
  | String a s =>
      if decide (a = sep) then EmptyString :: Split sep s
      else match Split sep s with
           | part :: parts => String a part :: parts
           | [] => [String a EmptyString]
           end
  end.

(** [s[strings.LastIndex(s, sep)+1:]]: what follows the last separator. *)
Fixpoint afterLast (sep : Ascii.ascii) (s : string) : string :=
  match s with
  | EmptyString => EmptyString
  | String a rest => if ContainsChar (String a rest) sep
                     then (if ContainsChar rest sep then afterLast sep rest else rest)
                     else s
  end.

Fixpoint trimLeft (s : string) : string :=
  match s with
  | EmptyString => EmptyString
  | String a rest => if isSpace a then trimLeft rest else s
  end.

Fixpoint trimRight (s : string) : string :=
  match s with
  | EmptyString => EmptyString
  | String a rest =>
      let rest := trimRight rest in
      if isSpace a && bool_decide (rest = EmptyString) then EmptyString else String a rest
  end.

Definition TrimSpace (s : string) : string := trimRight (trimLeft s).

(** [strings.Join]. *)
Definition Join (parts : list string) (sep : string) : string := String.concat sep parts.

(** ** Paths *)

Definition slash : Ascii.ascii := char 47.

(** One component of [path.Clean]'s rewriting, on the components kept so far (reversed). *)
Definition cleanStep (rooted : bool) (kept : list string) (part : string) : list string :=
  if bool_decide (part = "") || bool_decide (part = ".") then kept
  else if bool_decide (part = "..") then
    match kept with
    | top :: rest =>
        if bool_decide (top = "..") then part :: kept else rest
    | [] => if rooted then [] else [part]
    end
  else part :: kept.

(** [path.Clean]. *)
Definition Clean (value : string) : string :=
  if bool_decide (value = "") then "."
  else
    let rooted := HasPrefix value "/" in
    let joined := Join (rev (foldl (cleanStep rooted) [] (Split slash value))) "/" in
    if rooted then "/" +:+ joined else if bool_decide (joined = "") then "." else joined.

Definition IsAbs (value : string) : bool := HasPrefix value "/".

(** ** Numbers *)

Fixpoint digitsValue (acc : Z) (s : string) : option Z :=
  match s with
  | EmptyString => Some acc
  | String a s => if isDigit a then digitsValue (acc * 10 + (code a - 48)) s else None
  end.

(** The unsigned part of [strconv.Atoi]: at least one digit, digits only. *)
Definition unsignedValue (s : string) : option Z :=
  if bool_decide (s = EmptyString) then None else digitsValue 0 s.

(** [strconv.Atoi] on a 64-bit platform; [None] is an error. *)
Definition Atoi (s : string) : option Z :=
  let value :=
    match s with
    | String a rest =>
        if bool_decide (code a = 45) then Z.opp <$> unsignedValue rest
        else if bool_decide (code a = 43) then unsignedValue rest
        else unsignedValue s
    | EmptyString => None
    end in
  match value with
  | Some v => if Z.leb (- 2 ^ 63) v && Z.ltb v (2 ^ 63) then Some v else None
  | None => None
  end.

(** Decimal digits, most significant first; twenty of them hold any 64-bit value. *)
Fixpoint decimal (fuel : nat) (n : Z) (acc : string) : string :=
  match fuel with
  | O => acc
  | S fuel =>
      let acc' := String (char (48 + n mod 10)) acc in
      if Z.ltb n 10 then acc' else decimal fuel (n / 10) acc'
  end.

(** [fmt]'s [%d] of an [int64]. *)
Definition Itoa (n : Z) : string :=
  if Z.ltb n 0 then "-" +:+ decimal 20 (- n) "" else decimal 20 n "".

(** ** Lemmas *)

Lemma digit_char d : 0 ≤ d < 10 → isDigit (char (48 + d)) = true ∧ code (char (48 + d)) - 48 = d.
Proof. intros Hd. unfold isDigit. rewrite code_char by lia. split; [lia|lia]. Qed.

Lemma decimal_value fuel : ∀ n acc,
  0 ≤ n < 10 ^ Z.of_nat fuel → (0 < fuel)%nat →
  digitsValue 0 (decimal fuel n acc) = digitsValue n acc.
Proof.
  induction fuel as [|fuel IH]; intros n acc Hn Hf; [lia|]. cbn [decimal].
  pose proof (Z.mod_pos_bound n 10 ltac:(lia)) as Hm.
  destruct (digit_char (n mod 10) Hm) as [Hd Hv].
  destruct (Z.ltb n 10) eqn:E; bool_to_prop.
  - cbn [digitsValue]. rewrite Hd, Hv. f_equal. rewrite Z.mod_small; lia.
  - rewrite IH.
    + cbn [digitsValue]. rewrite Hd, Hv. f_equal. pose proof (Z.div_mod n 10 ltac:(lia)). lia.
    + split; [apply Z.div_pos; lia|]. apply Z.div_lt_upper_bound; [lia|].
      rewrite Nat2Z.inj_succ, Z.pow_succ_r in Hn by lia. lia.
    + destruct fuel; [|lia]. cbn in Hn. lia.
Qed.

(** The first character of a decimal is a digit. *)
Lemma decimal_head fuel : ∀ n acc,
  (0 < fuel)%nat → ∃ a s, decimal fuel n acc = String a s ∧ isDigit a = true.
Proof.
  assert (∀ fuel n a s, isDigit a = true →
    ∃ a' s', decimal fuel n (String a s) = String a' s' ∧ isDigit a' = true) as Hkeep.
  { intros f. induction f as [|f IH]; intros n a s Ha; cbn [decimal]; [by exists a, s|].
    pose proof (Z.mod_pos_bound n 10 ltac:(lia)) as Hm. destruct (digit_char (n mod 10) Hm) as [Hd _].
    destruct (Z.ltb n 10); [by eexists _, _|]. by apply IH. }
  intros n acc Hf. destruct fuel as [|fuel]; [lia|]. cbn [decimal].
  pose proof (Z.mod_pos_bound n 10 ltac:(lia)) as Hm. destruct (digit_char (n mod 10) Hm) as [Hd _].
  destruct (Z.ltb n 10); [by eexists _, _|]. by apply Hkeep.
Qed.

Lemma decimal_digits fuel : ∀ n acc,
  allChars isDigit acc = true → allChars isDigit (decimal fuel n acc) = true.
Proof.
  induction fuel as [|fuel IH]; intros n acc Ha; [done|]. cbn [decimal].
  pose proof (Z.mod_pos_bound n 10 ltac:(lia)) as Hm. destruct (digit_char (n mod 10) Hm) as [Hd _].
  assert (allChars isDigit (String (char (48 + n mod 10)) acc) = true) as Hacc by (cbn; by rewrite Hd).
  destruct (Z.ltb n 10); [done|]. by apply IH.
Qed.

Lemma Itoa_digits n : 0 ≤ n → allChars isDigit (Itoa n) = true.
Proof.
  intros Hn. unfold Itoa. destruct (Z.ltb n 0) eqn:E; bool_to_prop; [lia|]. by apply decimal_digits.
Qed.

(** Printing and parsing an [int64] that is not negative. *)
Lemma Atoi_Itoa n : 0 ≤ n < 2 ^ 63 → Atoi (Itoa n) = Some n.
Proof.
  intros Hn. unfold Itoa. destruct (Z.ltb n 0) eqn:E; bool_to_prop; [lia|].
  pose proof (decimal_value 20 n "" ltac:(lia) ltac:(lia)) as Hv.
  destruct (decimal_head 20 n "" ltac:(lia)) as (a & s & Hs & Ha).
  rewrite Hs in *. unfold Atoi, unsignedValue. cbn in Hv.
  assert (code a ≠ 45 ∧ code a ≠ 43) as [H1 H2] by (unfold isDigit in Ha; bool_to_prop; lia).
  rewrite !bool_decide_eq_false_2 by done. cbn [digitsValue]. rewrite Ha in Hv |- *.
  rewrite Hv. destruct (Z.leb (- 2 ^ 63) n && Z.ltb n (2 ^ 63)) eqn:Er; [done|].
  apply andb_false_iff in Er as [Er|Er]; bool_to_prop; lia.
Qed.

Lemma allChars_app p s t : allChars p (s +:+ t) = allChars p s && allChars p t.
Proof. induction s as [|a s IH]; simpl; [done|]. by rewrite IH, andb_assoc. Qed.

Lemma allChars_impl (p q : Ascii.ascii → bool) s :
  (∀ a, p a = true → q a = true) → allChars p s = true → allChars q s = true.
Proof.
  intros H. induction s as [|a s IH]; cbn; [done|]. rewrite !andb_true_iff. intros [? ?]. auto.
Qed.

Lemma Cut_app sep s t :
  ContainsChar s sep = false → Cut sep (s +:+ String sep t) = Some (s, t).
Proof.
  unfold ContainsChar. rewrite negb_false_iff. induction s as [|a s IH]; simpl.
  - by rewrite decide_True.
  - rewrite andb_true_iff, negb_true_iff, bool_decide_eq_false. intros [Hne Hs].
    rewrite decide_False by done. by rewrite IH.
Qed.

Lemma Cut_Some sep s before after :
  Cut sep s = Some (before, after) ↔ s = before +:+ String sep after ∧ ContainsChar before sep = false.
Proof.
  split; [|intros [-> ?]; by apply Cut_app]. revert before after.
  induction s as [|a s IH]; intros before after; cbn; [done|].
  destruct (decide (a = sep)) as [->|Hne]; [by intros [= <- <-]|].
  destruct (Cut sep s) as [[b af]|]; [|done]. intros [= <- <-].
  destruct (IH b af eq_refl) as [-> Hb]. split; [done|]. revert Hb. unfold ContainsChar.
  rewrite !negb_false_iff. cbn. intros ->. by rewrite bool_decide_eq_false_2.
Qed.

Lemma Cut_None sep s : Cut sep s = None ↔ ContainsChar s sep = false.
Proof.
  unfold ContainsChar. rewrite negb_false_iff. induction s as [|a s IH]; cbn; [done|].
  destruct (decide (a = sep)) as [->|Hne].
  - rewrite bool_decide_eq_true_2 by done. done.
  - rewrite bool_decide_eq_false_2 by done. cbn. rewrite <- IH. by destruct (Cut sep s) as [[]|].
Qed.

Lemma afterLast_app sep s t : ContainsChar t sep = false → afterLast sep (s +:+ String sep t) = t.
Proof.
  intros Ht. induction s as [|a s IH].
  - change ("" +:+ String sep t) with (String sep t). cbn [afterLast].
    assert (ContainsChar (String sep t) sep = true) as ->; [|by rewrite Ht].
    unfold ContainsChar. cbn. by rewrite bool_decide_eq_true_2.
  - assert (ContainsChar (s +:+ String sep t) sep = true) as Hc.
    { unfold ContainsChar. rewrite allChars_app. cbn. rewrite bool_decide_eq_true_2 by done. cbn.
      by rewrite andb_false_r. }
    change (String a s +:+ String sep t) with (String a (s +:+ String sep t)). cbn [afterLast].
    assert (ContainsChar (String a (s +:+ String sep t)) sep = true) as Hc'.
    { unfold ContainsChar in *. cbn. rewrite negb_true_iff in Hc |- *. rewrite Hc. apply andb_false_r. }
    by rewrite Hc', Hc.
Qed.

Lemma afterLast_id sep s : ContainsChar s sep = false → afterLast sep s = s.
Proof. destruct s as [|a s]; [done|]. intros H. cbn [afterLast]. by rewrite H. Qed.

(** A string of characters that are not spaces is left alone by trimming. *)
Lemma trimRight_id s : allChars (λ a, negb (isSpace a)) s = true → trimRight s = s.
Proof.
  induction s as [|a s IH]; cbn; [done|]. rewrite andb_true_iff, negb_true_iff. intros [-> H].
  cbn. by rewrite IH.
Qed.

Lemma TrimSpace_id s : allChars (λ a, negb (isSpace a)) s = true → TrimSpace s = s.
Proof.
  intros H. unfold TrimSpace. rewrite (trimRight_id (trimLeft s)).
  - destruct s as [|a s]; [done|]. cbn in *. apply andb_true_iff in H as [H%negb_true_iff _]. by rewrite H.
  - destruct s as [|a s]; [done|]. cbn in *. pose proof H as H'.
    apply andb_true_iff in H as [H%negb_true_iff _]. by rewrite H.
Qed.

(** ** Joining and splitting *)

Lemma Split_Join_single sep s : ContainsChar s sep = false → Split sep s = [s].
Proof.
  unfold ContainsChar. rewrite negb_false_iff. induction s as [|a s IH]; cbn; [done|].
  rewrite andb_true_iff, negb_true_iff, bool_decide_eq_false. intros [Hne Hs].
  rewrite decide_False, IH by done. done.
Qed.

Lemma Split_cons sep s t :
  ContainsChar s sep = false → Split sep (s +:+ String sep t) = s :: Split sep t.
Proof.
  unfold ContainsChar. rewrite negb_false_iff. induction s as [|a s IH]; simpl.
  - by rewrite decide_True.
  - rewrite andb_true_iff, negb_true_iff, bool_decide_eq_false. intros [Hne Hs].
    rewrite decide_False, IH by done. done.
Qed.

Lemma Split_nonempty sep s : Split sep s ≠ [].
Proof.
  induction s as [|a s IH]; cbn; [done|]. destruct (decide (a = sep)); [done|].
  by destruct (Split sep s).
Qed.

(** ** UTF-8 *)

Definition between (lo c hi : Z) : bool := Z.leb lo c && Z.leb c hi.
Definition continuation (c : Z) : bool := between 128 c 191.

(** The length of the UTF-8 sequence a string starts with, as [utf8.DecodeRuneInString]
    finds it; [0] when the string starts with an invalid byte or is empty. *)
Definition runeLength (s : string) : nat :=
  match s with
  | EmptyString => 0
  | String a s =>
      let c := code a in
      if Z.ltb c 128 then 1
      else match s with
      | EmptyString => 0
      | String b s =>
          let d := code b in
          if between 194 c 223 then if continuation d then 2 else 0
          else match s with
          | EmptyString => 0
          | String e s =>
              let third := continuation (code e) in
              if between 224 c 239 then
                if between (if Z.eqb c 224 then 160 else 128) d (if Z.eqb c 237 then 159 else 191) && third
                then 3 else 0
              else match s with
              | EmptyString => 0
              | String f s =>
                  if between 240 c 244
                     && between (if Z.eqb c 240 then 144 else 128) d (if Z.eqb c 244 then 143 else 191)
                     && third && continuation (code f)
                  then 4 else 0
              end
          end
      end
  end%nat.

(** The replacement character U+FFFD. *)
Definition replacement : string := String (char 239) (String (char 191) (String (char 189) "")).

(** What encoding a string as JSON and decoding it gives: every byte that starts no valid
    sequence becomes the replacement character.  The counter is how many more bytes belong to
    the sequence being copied. *)
Fixpoint utf8Copy (pending : nat) (s : string) : string :=
  match s with
  | EmptyString => EmptyString
  | String a rest =>
      match pending with
      | S pending => String a (utf8Copy pending rest)
      | O => match runeLength s with
             | O => replacement +:+ utf8Copy 0 rest
             | S n => String a (utf8Copy n rest)
             end
      end
  end.

Definition toValidUTF8 (s : string) : string := utf8Copy 0 s.

Lemma length_string_app s t : String.length (s +:+ t) = (String.length s + String.length t)%nat.
Proof. induction s as [|a s IH]; [done|]. simpl. by rewrite <- IH. Qed.

Lemma utf8Copy_skip p t : utf8Copy (String.length p) (p +:+ t) = p +:+ utf8Copy 0 t.
Proof. induction p as [|a p IH]; [done|]. simpl. by rewrite IH. Qed.

(** A sequence is recognized by its own bytes alone. *)
Lemma runeLength_sequence s n :
  runeLength s = S n → ∃ p t, s = p +:+ t ∧ String.length p = S n ∧ ∀ t', runeLength (p +:+ t') = S n.
Proof.
  destruct s as [|a s]; [done|]. intros H. unfold runeLength in H. cbv zeta in H.
  destruct (Z.ltb (code a) 128) eqn:E1.
  { simplify_eq. exists (String a ""), s. split_and!; [done..|]. intros t'. cbv [String.append]. unfold runeLength. cbv zeta. by rewrite E1. }
  destruct s as [|b s]; [done|]. destruct (between 194 (code a) 223) eqn:E2.
  { destruct (continuation (code b)) eqn:E3; [|done]. simplify_eq.
    exists (String a (String b "")), s. split_and!; [done..|]. intros t'. cbv [String.append]. unfold runeLength. cbv zeta. by rewrite E1, E2, E3. }
  destruct s as [|c s]; [done|]. destruct (between 224 (code a) 239) eqn:E3.
  { destruct (_ && _) eqn:E4 in H; [|done]. simplify_eq.
    exists (String a (String b (String c ""))), s. split_and!; [done..|]. intros t'. cbv [String.append]. unfold runeLength. cbv zeta.
    by rewrite E1, E2, E3, E4. }
  destruct s as [|d s]; [done|]. destruct (_ && _) eqn:E4 in H; [|done]. simplify_eq.
  exists (String a (String b (String c (String d "")))), s. split_and!; [done..|]. intros t'. cbv [String.append]. unfold runeLength. cbv zeta.
  by rewrite E1, E2, E3, E4.
Qed.

Lemma utf8Copy_sequence p t n :
  String.length p = S n → runeLength (p +:+ t) = S n → utf8Copy 0 (p +:+ t) = p +:+ utf8Copy 0 t.
Proof.
  destruct p as [|a p]; [done|]. cbn [String.length]. intros [= <-] H.
  change (String a p +:+ t) with (String a (p +:+ t)) in *. cbn [utf8Copy]. rewrite H, utf8Copy_skip. done.
Qed.

Lemma toValidUTF8_idem s : toValidUTF8 (toValidUTF8 s) = toValidUTF8 s.
Proof.
  unfold toValidUTF8. remember (String.length s) as n eqn:Hn.
  revert s Hn. induction (lt_wf n) as [n _ IH]; intros s Hn.
  destruct s as [|a s]; [done|]. destruct (runeLength (String a s)) as [|k] eqn:Hr.
  - replace (utf8Copy 0 (String a s)) with (replacement +:+ utf8Copy 0 s) by (cbn [utf8Copy]; by rewrite Hr).
    rewrite (utf8Copy_sequence replacement _ 2) by done. f_equal.
    apply (IH (String.length s)); simpl in Hn; [lia|done].
  - destruct (runeLength_sequence _ _ Hr) as (p & t & Hs & Hp & Hlen). rewrite Hs in *.
    rewrite (utf8Copy_sequence p t k), (utf8Copy_sequence p _ k) by auto. f_equal.
    apply (IH (String.length t)); [|done]. subst n. rewrite length_string_app. lia.
Qed.
