(* ===== verification/CompilerDiagnostics.v ===== *)
(** * Compiler diagnostics

    Models the diagnostics of [compiler/compile.go]: what is collected during a compile,
    which of it fails the compile, and the order it is reported in. *)

From S2P Require Import Prelude Api GoStrings.
Local Open Scope Z_scope.

(** ** Data *)

Record Diagnostic := MkDiagnostic {
  Code : string;
  Path : string;
  Line : Z;
  DiagnosticMessage : string;
  Warning : bool
}.
#[export] Instance Diagnostic_eq_dec : EqDecision Diagnostic.
Proof. solve_decision. Defined.

(** An error diagnostic without a line, as most passes add. *)
Definition diagnostic (code path message : string) : Diagnostic :=
  MkDiagnostic code path 0 message false.

(** [compileDiagnostics]: the diagnostics collected so far. *)
Notation compileDiagnostics := (list Diagnostic).

Definition add (d : compileDiagnostics) (x : Diagnostic) : compileDiagnostics := d ++ [x].

Definition warnings (d : compileDiagnostics) : list Diagnostic := filter (λ x, Warning x = true) d.

(** ** Order *)

(** The comparison [err] sorts with. *)
Definition diagnosticLess (a b : Diagnostic) : bool :=
  if negb (bool_decide (Path a = Path b)) then str_ltb (Path a) (Path b)
  else if negb (Z.eqb (Line a) (Line b)) then Z.ltb (Line a) (Line b)
  else if negb (bool_decide (Code a = Code b)) then str_ltb (Code a) (Code b)
  else str_ltb (DiagnosticMessage a) (DiagnosticMessage b).

(** [sort.SliceStable] with it: a stable sort by "not greater". *)
Definition diagnosticLe (a b : Diagnostic) : Prop := diagnosticLess b a = false.
#[export] Instance diagnosticLe_dec : RelDecision diagnosticLe.
Proof. intros a b. unfold diagnosticLe. apply _. Defined.

(** [err]: [None] is a nil error, [Some] the [UnsupportedFeaturesError]'s diagnostics. *)
Definition err (d : compileDiagnostics) : option (list Diagnostic) :=
  let diagnostics := filter (λ x, Warning x = false) d in
  if bool_decide (length diagnostics = 0%nat) then None
  else Some (merge_sort diagnosticLe diagnostics).

Definition formatDiagnostic (x : Diagnostic) : string :=
  let location := if bool_decide (Path x = "") then "topology" else Path x in
  let location := if Z.ltb 0 (Line x) then location +:+ " (line " +:+ Itoa (Line x) +:+ ")"
                  else location in
  location +:+ ": " +:+ DiagnosticMessage x.

(** [UnsupportedFeaturesError.Error]; [None] is a nil receiver. *)
Definition UnsupportedFeaturesErrorText (e : option (list Diagnostic)) : string :=
  match e with
  | None | Some [] => "topology contains features unsupported by c9s"
  | Some ds => "topology contains features unsupported by c9s: " +:+ Join (formatDiagnostic <$> ds) "; "
  end.

(** ** The order is total and sees every field *)

Lemma diagnosticLess_irrefl a : diagnosticLess a a = false.
Proof.
  unfold diagnosticLess. rewrite !bool_decide_eq_true_2, Z.eqb_refl by done. apply str_ltb_irrefl.
Qed.

(** Lexicographic reading of the comparison. *)
Lemma diagnosticLess_spec a b :
  diagnosticLess a b = true ↔
    str_ltb (Path a) (Path b) = true
    ∨ (Path a = Path b ∧ (Line a < Line b
       ∨ (Line a = Line b ∧ (str_ltb (Code a) (Code b) = true
          ∨ (Code a = Code b ∧ str_ltb (DiagnosticMessage a) (DiagnosticMessage b) = true))))).
Proof.
  unfold diagnosticLess. case_bool_decide as Hp; cbn [negb].
  2:{ split; [by left|]. intros [?|[? _]]; done. }
  rewrite Hp, str_ltb_irrefl. destruct (Z.eqb _ _) eqn:El; bool_to_prop; cbn [negb].
  2:{ rewrite Z.ltb_lt. split; [by right; split; [|left]|]. intros [?|[_ [?|[? _]]]]; [done|lia|lia]. }
  case_bool_decide as Hc; cbn [negb].
  2:{ split; [intros; right; split; [done|]; right; split; [done|by left]|].
      intros [?|[_ [?|[_ [?|[? _]]]]]]; [done|lia|done|done]. }
  rewrite Hc, str_ltb_irrefl. split; [intros; right; split; [done|]; right; split; [done|by right]|].
  intros [?|[_ [?|[_ [?|[_ ?]]]]]]; [done|lia|done|done].
Qed.

Lemma diagnosticLess_trans a b c :
  diagnosticLess a b = true → diagnosticLess b c = true → diagnosticLess a c = true.
Proof.
  rewrite !diagnosticLess_spec.
  intros [H1|(E1 & [H1|(F1 & [H1|(G1 & H1)])])] [H2|(E2 & [H2|(F2 & [H2|(G2 & H2)])])];
    rewrite ?E1, <- ?E2, ?F1, <- ?F2, ?G1, <- ?G2 in *; eauto using str_ltb_trans.
  all: right; split; [congruence|].
  all: try (left; lia).
  all: right; split; [lia|].
  all: rewrite ?G1, <- ?G2 in *; eauto using str_ltb_trans.
Qed.

(** What the comparison reads. *)
Definition diagnosticKey (a : Diagnostic) := (Path a, Line a, Code a, DiagnosticMessage a).

Lemma diagnosticLess_key a a' b :
  diagnosticKey a = diagnosticKey a' → diagnosticLess a b = diagnosticLess a' b.
Proof. unfold diagnosticLess. by intros [= -> -> -> ->]. Qed.

Lemma diagnosticLess_total a b :
  diagnosticKey a ≠ diagnosticKey b → diagnosticLess a b = true ∨ diagnosticLess b a = true.
Proof.
  intros Hne. rewrite !diagnosticLess_spec.
  destruct (decide (Path a = Path b)) as [Hp|Hp].
  2:{ destruct (str_ltb_total _ _ Hp); auto. }
  destruct (decide (Line a = Line b)) as [Hl|Hl].
  2:{ destruct (Z.lt_total (Line a) (Line b)) as [?|[?|?]]; [|lia|]; auto 10. }
  destruct (decide (Code a = Code b)) as [Hc|Hc].
  2:{ destruct (str_ltb_total _ _ Hc); auto 10. }
  destruct (decide (DiagnosticMessage a = DiagnosticMessage b)) as [Hm|Hm].
  - exfalso. apply Hne. unfold diagnosticKey. congruence.
  - destruct (str_ltb_total _ _ Hm); auto 10.
Qed.

#[export] Instance diagnosticLe_total : Total diagnosticLe.
Proof.
  intros a b. unfold diagnosticLe. destruct (diagnosticLess b a) eqn:E; [|by left]. right.
  destruct (diagnosticLess a b) eqn:E'; [|done].
  pose proof (diagnosticLess_trans _ _ _ E E') as H. by rewrite diagnosticLess_irrefl in H.
Qed.

#[export] Instance diagnosticLe_trans : Transitive diagnosticLe.
Proof.
  intros a b c. unfold diagnosticLe. intros Hab Hbc. destruct (diagnosticLess c a) eqn:E; [|done].
  destruct (decide (diagnosticKey b = diagnosticKey c)) as [Hk|Hk].
  - by rewrite (diagnosticLess_key _ _ _ Hk), E in Hab.
  - destruct (diagnosticLess_total b c Hk) as [H|H]; [|congruence].
    by rewrite (diagnosticLess_trans _ _ _ H E) in Hab.
Qed.

(** Diagnostics of one severity that compare as equal are equal. *)
Lemma diagnosticLe_antisymm a b :
  Warning a = Warning b → diagnosticLe a b → diagnosticLe b a → a = b.
Proof.
  unfold diagnosticLe. intros Hw Hab Hba. destruct (decide (diagnosticKey a = diagnosticKey b)) as [Hk|Hk].
  - unfold diagnosticKey in Hk. destruct a, b; cbn in *; congruence.
  - destruct (diagnosticLess_total a b Hk); congruence.
Qed.

(** A compile fails exactly when an error was collected. *)
Lemma err_None ds : err ds = None ↔ Forall (λ x, Warning x = true) ds.
Proof.
  unfold err. rewrite list.Forall_forall. case_bool_decide as Hlen.
  - split; [intros _|done]. intros x Hx. destruct (Warning x) eqn:E; [done|].
    apply nil_length_inv in Hlen. exfalso. apply (elem_of_nil x). rewrite <- Hlen.
    by apply list_elem_of_filter.
  - split; [done|]. intros Hall. exfalso. apply Hlen. rewrite list_filter_none; [done|].
    intros x Hx Hw. by rewrite (Hall x Hx) in Hw.
Qed.

(** The reported error does not depend on the order in which the passes (which
    range over maps) found the problems.  A compile fails exactly when an error diagnostic
    was collected; the error lists exactly the collected error diagnostics, none lost or
    added, sorted by path, line, code and message; and two compiles that collect the same
    diagnostics in any two orders report the same error text. *)
Theorem diagnostics_deterministic (ds1 ds2 : compileDiagnostics) :
  ds1 ≡ₚ ds2 →
  err ds1 = err ds2
  ∧ UnsupportedFeaturesErrorText (err ds1) = UnsupportedFeaturesErrorText (err ds2)
  ∧ (err ds1 = None ↔ ∀ x, x ∈ ds1 → Warning x = true)
  ∧ ∀ l, err ds1 = Some l →
      StronglySorted diagnosticLe l ∧ l ≡ₚ filter (λ x, Warning x = false) ds1 ∧ l ≠ [].
Proof.
  intros Hp. assert (err ds1 = err ds2) as Herr.
  { unfold err. assert (filter (λ x, Warning x = false) ds1 ≡ₚ filter (λ x, Warning x = false) ds2) as Hf
      by by rewrite Hp.
    rewrite (Permutation_length Hf). case_bool_decide; [done|]. f_equal.
    apply (StronglySorted_unique_strong diagnosticLe).
    - intros a b Ha Hb. rewrite merge_sort_Permutation in Ha. rewrite merge_sort_Permutation in Hb.
      apply list_elem_of_filter in Ha as [Ha _], Hb as [Hb _]. apply diagnosticLe_antisymm. congruence.
    - apply (StronglySorted_merge_sort _).
    - apply (StronglySorted_merge_sort _).
    - by rewrite !merge_sort_Permutation. }
  split_and!; [done|by rewrite Herr| |].
  - by rewrite err_None, list.Forall_forall.
  - intros l. unfold err. case_bool_decide as Hlen; [done|]. intros [= <-].
    split_and!; [apply (StronglySorted_merge_sort _)|apply merge_sort_Permutation|].
    intros Hnil. apply Hlen. by rewrite <- (merge_sort_Permutation diagnosticLe), Hnil.
Qed.

(** A collected error fails the compile. *)
Lemma err_app_error ds bad :
  Forall (λ d, Warning d = false) bad → bad ≠ [] → err (ds ++ bad) ≠ None.
Proof.
  intros Hb Hne. destruct bad as [|d bad]; [done|]. apply list.Forall_cons in Hb as [Hd _].
  rewrite err_None, Forall_app, list.Forall_cons. intros (_ & Hd' & _). congruence.
Qed.

(** ** Passes *)

(** A pass from [ds] to [ds'] that, if nothing failed the compile up to its end, has
    established [Q]. *)
Definition accepts (Q : Prop) (ds ds' : compileDiagnostics) : Prop :=
  err ds' = None → err ds = None ∧ Q.

Lemma accepts_refl ds : accepts True ds ds.
Proof. by intros ?. Qed.

Lemma accepts_trans (P Q : Prop) ds1 ds2 ds3 :
  accepts P ds1 ds2 → accepts Q ds2 ds3 → accepts (P ∧ Q) ds1 ds3.
Proof. unfold accepts. tauto. Qed.

Lemma accepts_weaken (P Q : Prop) ds ds' : (P → Q) → accepts P ds ds' → accepts Q ds ds'.
Proof. unfold accepts. tauto. Qed.

Lemma accepts_add ds x : accepts (Warning x = true) ds (add ds x).
Proof. unfold accepts, add. rewrite !err_None, Forall_app, list.Forall_singleton. done. Qed.

(** An error leaves nothing to establish. *)
Lemma accepts_error Q ds x : Warning x = false → accepts Q ds (add ds x).
Proof. intros Hx. eapply accepts_weaken; [|apply accepts_add]. congruence. Qed.

Lemma accepts_if (b : bool) ds x :
  Warning x = false → accepts (b = false) ds (if b then add ds x else ds).
Proof. intros Hx. destruct b; [by apply accepts_error|]. eapply accepts_weaken, accepts_refl. done. Qed.

(** A pass that is silent exactly if [Q] holds, and reports an error otherwise. *)
Lemma accepts_silent Q ds ds' : (ds' = ds ↔ Q) → (ds' ≠ ds → err ds' ≠ None) → accepts Q ds ds'.
Proof.
  intros Hiff Hbad Herr. destruct (decide (ds' = ds)) as [->|Hne]; [|by apply Hbad in Hne].
  split; [done|by apply Hiff].
Qed.

(** A loop of passes over a state that holds the diagnostics. *)
Lemma foldl_accepts {S A} (ds : S → compileDiagnostics) (f : S → A → S) (Q : A → Prop) l : ∀ s,
  (∀ s x, x ∈ l → accepts (Q x) (ds s) (ds (f s x))) →
  accepts (∀ x, x ∈ l → Q x) (ds s) (ds (foldl f s l)).
Proof.
  induction l as [|x l IH]; intros s Hf; cbn [foldl].
  - eapply accepts_weaken, accepts_refl. intros _ x Hx. by apply elem_of_nil in Hx.
  - eapply accepts_weaken.
    2:{ eapply accepts_trans; [apply (Hf s x); left|]. apply IH. intros s' y Hy. apply Hf. by right. }
    intros [Hx Hl] y [->|Hy]%elem_of_cons; auto.
Qed.

Lemma rfold_accepts {E S A} (ds : S → compileDiagnostics) (f : S → A → result E S) l : ∀ s s',
  (∀ s x s1, f s x = Ok s1 → accepts True (ds s) (ds s1)) → rfold f s l = Ok s' →
  accepts True (ds s) (ds s').
Proof.
  induction l as [|x l IH]; intros s s' Hf Hl; cbn [rfold] in Hl; [simplify_eq; apply accepts_refl|].
  apply rbind_Ok_inv in Hl as (s1 & H1 & Hl). eapply accepts_weaken; [|eapply accepts_trans; [by eapply Hf|]].
  - done.
  - by eapply IH.
Qed.

Lemma diagnostics_deterministic_witness :
  let a := diagnostic "unknown-link-endpoint" "topology.links[0]" "x" in
  let b := diagnostic "duplicate-alias" "topology.nodes.a" "y" in
  err [b; a] = Some [a; b] ∧ err [b; a] = err [a; b].
Proof.
  split; [vm_compute; reflexivity|].
  refine (proj1 (diagnostics_deterministic _ _ _)). apply Permutation_swap.
Defined.
