(* ===== verification/CompilerDefinition.v ===== *)
(** * Node definitions

    The data of containerlab's [clabtypes.NodeDefinition] the compiler carries, as
    [compiler/compilecontainerlab.go] fills and reads it: once as it is declared in the
    blocks of a topology file, once flattened per node; and the YAML nodes it looks at. *)

From S2P Require Import Prelude.
Local Open Scope Z_scope.

(** ** YAML *)

(** [yaml.Kind]; [NoKind] is the zero value. *)
Inductive yamlKind := NoKind | DocumentNode | SequenceNode | MappingNode | ScalarNode | AliasNode.
#[export] Instance yamlKind_eq_dec : EqDecision yamlKind.
Proof. solve_decision. Defined.

(** [yaml.Node], the fields the compiler reads. *)
Inductive yamlNode :=
| YamlNode (kind : yamlKind) (tag value : string) (line : Z) (content : list yamlNode).

Definition YamlKind (n : yamlNode) : yamlKind := let 'YamlNode kind _ _ _ _ := n in kind.
Definition YamlTag (n : yamlNode) : string := let 'YamlNode _ tag _ _ _ := n in tag.
Definition YamlValue (n : yamlNode) : string := let 'YamlNode _ _ value _ _ := n in value.
Definition YamlLine (n : yamlNode) : Z := let 'YamlNode _ _ _ line _ := n in line.
Definition YamlContent (n : yamlNode) : list yamlNode := let 'YamlNode _ _ _ _ content := n in content.

(** The loops [for index := 0; index+1 < len(content); index += 2]: the key and value nodes
    of a mapping, a last key without a value left out. *)
Fixpoint yamlPairs (content : list yamlNode) : list (yamlNode * yamlNode) :=
  match content with
  | key :: value :: content => (key, value) :: yamlPairs content
  | _ => []
  end.

(** ** Definitions *)

(** A value of a kind's own configuration, as either YAML unmarshaler delivers it: a mapping
    with string keys ([map[string]any]), a mapping with keys of any type ([map[any]any], its
    entries in some order, [None] a key that is not a string), or anything else. *)
Inductive configValue :=
| CVOther (text : string)
| CVStringMap (entries : gmap string configValue)
| CVAnyMap (entries : list (option string * configValue)).

Record CertificateConfig := MkCertificateConfig {
  CertIssue : option bool;
  CertKeySize : Z;
  CertSANs : list string;
  CertValidityDuration : Z
}.

(** The CPU share is a [float64] that is only copied: the [Z] are its bits.  The contents of
    [Config], [DNS] and [HealthCheck] are only copied too.  A nil map or slice is an empty
    one, a nil pointer is [None]. *)
Record NodeDefinition := MkNodeDefinition {
  DefKind : string;
  DefGroup : string;
  DefType : string;
  DefImage : string;
  DefLicense : string;
  DefStartupConfig : string;
  DefStartupDelay : Z;
  DefRestartPolicy : string;
  DefEntrypoint : string;
  DefCmd : string;
  DefExec : list string;
  DefUser : string;
  DefDevices : list string;
  DefCapAdd : list string;
  DefSecurityOpts : list string;
  DefTmpfs : gmap string string;
  DefShmSize : string;
  DefCPU : Z;
  DefMemory : string;
  DefLinkApplyMode : string;
  DefPorts : list string;
  DefNetworkMode : string;
  DefEnv : gmap string string;
  DefEnvFiles : list string;
  DefSysctls : gmap string string;
  DefLabels : gmap string string;
  DefImagePullPolicy : string;
  DefEnforceStartupConfig : option bool;
  DefSuppressStartupConfig : option bool;
  DefPrivileged : option bool;
  DefBinds : list string;
  DefMgmtIPv4 : string;
  DefMgmtIPv6 : string;
  DefAliases : list string;
  DefConfig : option configValue;
  DefDNS : option configValue;
  DefHealthCheck : option configValue;
  DefCertificate : option CertificateConfig;
  DefMgmtNet : string;
  DefKindSpecificConfig : gmap string configValue
}.
#[export] Instance NodeDefinition_updatable : Updatable NodeDefinition :=
  λ d, MkNodeDefinition (DefKind d) (DefGroup d) (DefType d) (DefImage d) (DefLicense d)
    (DefStartupConfig d) (DefStartupDelay d) (DefRestartPolicy d) (DefEntrypoint d) (DefCmd d)
    (DefExec d) (DefUser d) (DefDevices d) (DefCapAdd d) (DefSecurityOpts d) (DefTmpfs d)
    (DefShmSize d) (DefCPU d) (DefMemory d) (DefLinkApplyMode d) (DefPorts d) (DefNetworkMode d)
    (DefEnv d) (DefEnvFiles d) (DefSysctls d) (DefLabels d) (DefImagePullPolicy d)
    (DefEnforceStartupConfig d) (DefSuppressStartupConfig d) (DefPrivileged d) (DefBinds d)
    (DefMgmtIPv4 d) (DefMgmtIPv6 d) (DefAliases d) (DefConfig d) (DefDNS d) (DefHealthCheck d)
    (DefCertificate d) (DefMgmtNet d) (DefKindSpecificConfig d).

(** [&NodeDefinition{}]. *)
Definition emptyNodeDefinition : NodeDefinition :=
  MkNodeDefinition "" "" "" "" "" "" 0 "" "" "" [] "" [] [] [] ∅ "" 0 "" "" [] "" ∅ [] ∅ ∅ ""
    None None None [] "" "" [] None None None None "" ∅.

(** Two definitions that differ at most in their labels and network mode. *)
Definition samePayload (d d' : NodeDefinition) : Prop :=
  d' = d <| DefLabels := DefLabels d' |> <| DefNetworkMode := DefNetworkMode d' |>.

Lemma samePayload_trans d1 d2 d3 : samePayload d1 d2 → samePayload d2 d3 → samePayload d1 d3.
Proof. unfold samePayload. intros H12 H23. rewrite H23, H12. by destruct d1. Qed.
