(* ===== verification/CompilerPorts.v ===== *)
(** * Port definitions and the directive labels

    Models [compiler/ports.go] and the passes of [compiler/compilecontainerlab.go] that
    normalise a node's ports and consume the labels that declare exposed ports and
    application protocols. *)

From S2P Require Import Prelude Api GoStrings CompilerDiagnostics CompilerDefinition.
Local Open Scope Z_scope.

(** ** Port definitions *)

Definition maxPort : Z := 65535.
Definition tcpProtocol : string := "TCP".
Definition udpProtocol : string := "UDP".

Record typedPort := TypedPort {
  Protocol : string;
  ExposePort : Z;
  DestinationPort : Z
}.

Inductive portError :=
| errPortProtocol (definition protocol : string)
| errPortDockerStyle (definition : string)
| errPortInvalid (definition : string).

Definition colon : Ascii.ascii := char 58.
Definition comma : Ascii.ascii := char 44.
Definition equals : Ascii.ascii := char 61.

Definition normalizePortDefinition (portDefinition : string) : string := afterLast colon portDefinition.

(** The protocol the definition names, TCP without one. *)
Definition portProtocol (portDefinition : string) (cut : option (string * string)) :
    result portError string :=
  match cut with
  | None => Ok tcpProtocol
  | Some (_, protocolPart) =>
      if bool_decide (ToUpper protocolPart = tcpProtocol) then Ok tcpProtocol
      else if bool_decide (ToUpper protocolPart = udpProtocol) then Ok udpProtocol
      else Err (errPortProtocol portDefinition protocolPart)
  end.

Definition processPortDefinition (portDefinition : string) : result portError typedPort :=
  let portDefinition := TrimSpace portDefinition in
  let cut := Cut slash portDefinition in
  let destinationPort := match cut with Some (before, _) => before | None => portDefinition end in
  let? protocol := portProtocol portDefinition cut in
  if ContainsChar destinationPort colon then Err (errPortDockerStyle portDefinition)
  else
    match Atoi destinationPort with
    | None => Err (errPortInvalid portDefinition)
    | Some port =>
        if Z.ltb port 1 || Z.ltb maxPort port then Err (errPortInvalid portDefinition)
        else Ok (TypedPort protocol 0 port)
    end.

Definition canonicalPortDefinition (port : typedPort) : string :=
  Itoa (DestinationPort port) +:+ "/" +:+ ToLower (Protocol port).

(** A literal in double quotes. *)
Definition quoted (s : string) : string := String (char 34) (s +:+ String (char 34) "").

Section passes.
Context `{!FmtQuote}.

Definition portErrorText (e : portError) : string :=
  "parse error: port definition " +:+
  match e with
  | errPortProtocol d p =>
      fmt_q d +:+ " declares unsupported protocol " +:+ fmt_q p +:+ ", expected tcp or udp"
  | errPortDockerStyle d =>
      fmt_q d +:+ " looks like a docker style host:container binding -- declare only the destination"
      +:+ " port (the port the node listens on), clabernetes allocates the pod side port itself"
  | errPortInvalid d =>
      fmt_q d +:+ " is invalid, expected a destination port between 1 and " +:+ Itoa maxPort
      +:+ " with an optional protocol, i.e. " +:+ quoted "22" +:+ " or " +:+ quoted "5201/udp"
  end.

(** [topology.nodes.<name>.<field>[<idx>]]. *)
Definition nodePath (nodeName field : string) (idx : nat) : string :=
  "topology.nodes." +:+ nodeName +:+ "." +:+ field +:+ "[" +:+ Itoa (Z.of_nat idx) +:+ "]".

(** ** Normalising the ports *)

Definition normalizeStep (nodeName : string) (acc : compileDiagnostics * list string)
    (entry : nat * string) : compileDiagnostics * list string :=
  let '(diagnostics, ports) := acc in
  let '(idx, portDefinition) := entry in
  let normalized := normalizePortDefinition portDefinition in
  if bool_decide (normalized = portDefinition) then (diagnostics, ports ++ [portDefinition])
  else
    (add diagnostics
       (MkDiagnostic "host-port-pinning" (nodePath nodeName "ports" idx) 0
          ("node " +:+ fmt_q nodeName +:+ " port " +:+ fmt_q portDefinition
           +:+ " host pinning was dropped; the Pod-side port " +:+ fmt_q normalized +:+ " is kept")
          true),
     ports ++ [normalized]).

(** [range] over a slice: its elements with their indices. *)
Definition indexed {A} (l : list A) : list (nat * A) := zip (seq 0 (length l)) l.

Definition normalizeNodePorts (diagnostics : compileDiagnostics) (nodeName : string)
    (def : NodeDefinition) : compileDiagnostics * NodeDefinition :=
  let '(diagnostics, ports) :=
    foldl (normalizeStep nodeName) (diagnostics, []) (indexed (DefPorts def)) in
  (diagnostics, def <| DefPorts := ports |>).

(** ** The exposed ports label *)

Definition labelPrefix : string := "c9s.run".
Definition labelExposePorts : string := labelPrefix +:+ "/exposePorts".
Definition labelAppProtocols : string := labelPrefix +:+ "/appProtocols".

(** The destinations the ordinary ports already name. *)
Definition seenDestinations (ports : list string) : gset string :=
  foldl (λ seen p, match processPortDefinition p with
                   | Ok port => {[canonicalPortDefinition port]} ∪ seen
                   | Err _ => seen
                   end) ∅ ports.

Definition exposeStep (nodeName : string) (acc : compileDiagnostics * gset string * list string)
    (entry : nat * string) : compileDiagnostics * gset string * list string :=
  let '(diagnostics, seen, ports) := acc in
  let '(idx, portDefinition) := entry in
  let portDefinition := TrimSpace portDefinition in
  match processPortDefinition portDefinition with
  | Err e =>
      (add diagnostics
         (diagnostic "invalid-expose-ports-label"
            (nodePath nodeName ("labels." +:+ labelExposePorts) idx)
            ("node " +:+ fmt_q nodeName +:+ " expose ports label entry " +:+ fmt_q portDefinition
             +:+ " is invalid: " +:+ portErrorText e)),
       seen, ports)
  | Ok port =>
      let canonical := canonicalPortDefinition port in
      if bool_decide (canonical ∈ seen) then (diagnostics, seen, ports)
      else (diagnostics, {[canonical]} ∪ seen, ports ++ [canonical])
  end.

Definition consumeExposePortsLabel (diagnostics : compileDiagnostics) (nodeName : string)
    (def : NodeDefinition) : compileDiagnostics * NodeDefinition :=
  match DefLabels def !! labelExposePorts with
  | None => (diagnostics, def)
  | Some value =>
      let def := def <| DefLabels ::= delete labelExposePorts |> in
      let '(diagnostics, _, ports) :=
        foldl (exposeStep nodeName) (diagnostics, seenDestinations (DefPorts def), DefPorts def)
          (indexed (Split comma value)) in
      (diagnostics, def <| DefPorts := ports |>)
  end.

(** ** The application protocols label *)

Record AppProtocol := MkAppProtocol {
  AppPort : string;
  AppProtocolName : string
}.

Definition invalidAppProtocolsLabel (diagnostics : compileDiagnostics) (nodeName : string)
    (entryIndex : nat) (entry reason : string) : compileDiagnostics :=
  add diagnostics
    (diagnostic "invalid-app-protocols-label"
       (nodePath nodeName ("labels." +:+ labelAppProtocols) entryIndex)
       ("node " +:+ fmt_q nodeName +:+ " application protocols label entry " +:+ fmt_q entry
        +:+ " is invalid: " +:+ reason)).

(** [apimachinery]'s [IsQualifiedName] and [IsValidLabelValue] are not part of the
    sources: the problems they report. *)
Variables (IsQualifiedName IsValidLabelValue : string → list string).

Definition appProtocolStep (nodeName : string)
    (acc : compileDiagnostics * gset string * list AppProtocol) (item : nat * string) :
    compileDiagnostics * gset string * list AppProtocol :=
  let '(diagnostics, seenPorts, appProtocols) := acc in
  let '(idx, rawEntry) := item in
  let entry := TrimSpace rawEntry in
  match Cut equals entry with
  | None =>
      (invalidAppProtocolsLabel diagnostics nodeName idx entry
         "expected <port-definition>=<appProtocol>", seenPorts, appProtocols)
  | Some (portDefinition, appProtocol) =>
      let portDefinition := TrimSpace portDefinition in
      let appProtocol := TrimSpace appProtocol in
      match processPortDefinition portDefinition with
      | Err e => (invalidAppProtocolsLabel diagnostics nodeName idx entry (portErrorText e),
                  seenPorts, appProtocols)
      | Ok port =>
          let canonicalPort := canonicalPortDefinition port in
          if bool_decide (canonicalPort ∈ seenPorts) then
            (invalidAppProtocolsLabel diagnostics nodeName idx entry
               ("destination port " +:+ fmt_q canonicalPort +:+ " is duplicated after normalization"),
             seenPorts, appProtocols)
          else
            let seenPorts := {[canonicalPort]} ∪ seenPorts in
            let problems := IsQualifiedName appProtocol in
            if negb (bool_decide (appProtocol = "")) && negb (bool_decide (length problems = 0%nat)) then
              (invalidAppProtocolsLabel diagnostics nodeName idx entry (Join problems "; "),
               seenPorts, appProtocols)
            else (diagnostics, seenPorts, appProtocols ++ [MkAppProtocol canonicalPort appProtocol])
      end
  end.

Definition consumeAppProtocolsLabel (diagnostics : compileDiagnostics) (nodeName : string)
    (def : NodeDefinition) : compileDiagnostics * NodeDefinition * list AppProtocol :=
  match DefLabels def !! labelAppProtocols with
  | None => (diagnostics, def, [])
  | Some value =>
      let def := def <| DefLabels ::= delete labelAppProtocols |> in
      let '(diagnostics, _, appProtocols) :=
        foldl (appProtocolStep nodeName) (diagnostics, ∅, []) (indexed (Split comma value)) in
      (diagnostics, def, appProtocols)
  end.

(** ** Labels Kubernetes cannot carry *)

Definition dropStep (nodeName : string) (acc : compileDiagnostics * gmap string string)
    (entry : string * string) : compileDiagnostics * gmap string string :=
  let '(diagnostics, labels) := acc in
  let '(key, value) := entry in
  let problems := IsQualifiedName key ++ IsValidLabelValue value in
  if bool_decide (length problems = 0%nat) then acc
  else
    (add diagnostics
       (diagnostic "unusable-node-label" ("topology.nodes." +:+ nodeName +:+ ".labels." +:+ key)
          ("node " +:+ fmt_q nodeName +:+ " label " +:+ fmt_q key
           +:+ " cannot become a Kubernetes label: " +:+ Join problems "; ")),
     delete key labels).

Definition dropUnusableNodeLabels `{!RangeOrder string} (diagnostics : compileDiagnostics)
    (nodeName : string) (def : NodeDefinition) : compileDiagnostics * NodeDefinition :=
  let '(diagnostics, labels) :=
    foldl (dropStep nodeName) (diagnostics, DefLabels def) (range_list (DefLabels def)) in
  (diagnostics, def <| DefLabels := labels |>).
End passes.

(** ** Canonical ports *)

(** What [processPortDefinition] returns. *)
Definition validPort (p : typedPort) : Prop :=
  (Protocol p = tcpProtocol ∨ Protocol p = udpProtocol)
  ∧ ExposePort p = 0 ∧ 1 ≤ DestinationPort p ≤ maxPort.

Lemma process_valid s p : processPortDefinition s = Ok p → validPort p.
Proof.
  unfold processPortDefinition. intros (proto & Hproto & Hp)%rbind_Ok_inv.
  assert (proto = tcpProtocol ∨ proto = udpProtocol) as Hc.
  { unfold portProtocol in Hproto. destruct (Cut _ _) as [[b a]|]; [|simplify_eq; by left].
    repeat case_bool_decide; simplify_eq; auto. }
  destruct (ContainsChar _ _); [done|]. destruct (Atoi _) as [n|]; [|done].
  destruct (_ || _) eqn:E; [done|]. bool_to_prop. simplify_eq. by split_and!.
Qed.

Lemma digit_not a c : isDigit a = true → isDigit c = false → a ≠ c.
Proof. congruence. Qed.

Lemma digits_without c s : isDigit c = false → allChars isDigit s = true → ContainsChar s c = false.
Proof.
  intros Hc Hs. unfold ContainsChar. rewrite negb_false_iff. eapply allChars_impl; [|exact Hs].
  intros a Ha. rewrite bool_decide_eq_false_2; [done|]. by apply digit_not.
Qed.

(** The printed port is read back. *)
Lemma process_canonical p : validPort p → processPortDefinition (canonicalPortDefinition p) = Ok p.
Proof.
  intros (Hproto & He & Hport). destruct p as [proto e n]. cbn [Protocol ExposePort DestinationPort] in *.
  subst e. pose proof (Itoa_digits n ltac:(lia)) as Hd.
  assert (TrimSpace (canonicalPortDefinition (TypedPort proto 0 n)) = canonicalPortDefinition (TypedPort proto 0 n))
    as Htrim.
  { apply TrimSpace_id. unfold canonicalPortDefinition. cbn [Protocol DestinationPort].
    rewrite allChars_app. apply andb_true_iff. split.
    - eapply allChars_impl; [|exact Hd]. intros a Ha. unfold isDigit, isSpace in *. bool_to_prop.
      rewrite negb_true_iff, orb_false_iff, andb_false_iff, !Z.leb_gt, Z.eqb_neq. lia.
    - by destruct Hproto as [-> | ->]. }
  assert (Cut slash (canonicalPortDefinition (TypedPort proto 0 n)) = Some (Itoa n, ToLower proto)) as Hcut.
  { apply (Cut_app slash (Itoa n) (ToLower proto)). by apply digits_without. }
  unfold processPortDefinition. rewrite Htrim, Hcut.
  assert (portProtocol (canonicalPortDefinition (TypedPort proto 0 n)) (Some (Itoa n, ToLower proto)) = Ok proto)
    as -> by (by destruct Hproto as [-> | ->]).
  cbn [rbind]. rewrite (digits_without colon) by done.
  rewrite Atoi_Itoa by (unfold maxPort in Hport; lia).
  destruct (Z.ltb n 1 || Z.ltb maxPort n) eqn:E; [|done]. bool_to_prop. destruct E; bool_to_prop; lia.
Qed.

(** Port definitions are read and printed consistently.  What a port definition
    parses to is a TCP or UDP destination port between 1 and 65535 with no pod-side port;
    its canonical text parses back to it, so ports with different numbers or protocols
    have different canonical texts; and a docker-style binding of any host part to the
    canonical text is normalised to exactly that text. *)
Theorem port_definition_roundtrip s p q (host : string) :
  processPortDefinition s = Ok p → validPort q →
  validPort p
  ∧ processPortDefinition (canonicalPortDefinition p) = Ok p
  ∧ (canonicalPortDefinition q = canonicalPortDefinition p → q = p)
  ∧ normalizePortDefinition (host +:+ String colon (canonicalPortDefinition p)) = canonicalPortDefinition p.
Proof.
  intros Hp Hq. pose proof (process_valid _ _ Hp) as Hv. pose proof (process_canonical _ Hv) as Hc.
  split_and!; [done|done| |].
  - intros Heq. pose proof (process_canonical _ Hq) as Hc'. rewrite Heq, Hc in Hc'. by injection Hc'.
  - apply afterLast_app. destruct Hv as (Hproto & _ & Hn). unfold canonicalPortDefinition, ContainsChar.
    rewrite negb_false_iff, allChars_app. apply andb_true_iff. split.
    + rewrite <- negb_false_iff. apply digits_without; [done|]. apply Itoa_digits. lia.
    + by destruct Hproto as [-> | ->].
Qed.

Lemma port_definition_roundtrip_witness :
  processPortDefinition " 5201/UDP" = Ok (TypedPort udpProtocol 0 5201)
  ∧ normalizePortDefinition ("127.0.0.1:9000" +:+ String colon "5201/udp") = "5201/udp".
Proof.
  split; [vm_compute; reflexivity|].
  refine (proj2 (proj2 (proj2 (port_definition_roundtrip " 5201/UDP" (TypedPort udpProtocol 0 5201)
    (TypedPort tcpProtocol 0 22) "127.0.0.1:9000" eq_refl _)))).
  by split; [left|].
Defined.

(** ** What the exposed ports label does *)

(** The canonical destination an entry names, if it is valid. *)
Definition destinationOf (portDefinition : string) : option string :=
  match processPortDefinition portDefinition with
  | Ok port => Some (canonicalPortDefinition port)
  | Err _ => None
  end.

Lemma elem_of_seenDestinations ports c :
  c ∈ seenDestinations ports ↔ ∃ p, p ∈ ports ∧ destinationOf p = Some c.
Proof.
  unfold seenDestinations. induction ports as [|p ports IH] using rev_ind.
  { cbn. rewrite elem_of_empty. split; [done|]. intros (p & Hp & _). by apply elem_of_nil in Hp. }
  rewrite foldl_app. cbn [foldl]. unfold destinationOf in *.
  assert (∀ X : gset string, (match processPortDefinition p with
      | Ok port => {[canonicalPortDefinition port]} ∪ X | Err _ => X end) =
    match destinationOf p with Some d => {[d]} ∪ X | None => X end) as ->
    by (intros; unfold destinationOf; by destruct (processPortDefinition p)).
  unfold destinationOf. setoid_rewrite elem_of_app. setoid_rewrite list_elem_of_singleton.
  destruct (processPortDefinition p) as [port|] eqn:E.
  - rewrite elem_of_union, elem_of_singleton, IH. split.
    + intros [->|(x & Hx & Hd)]; [exists p; rewrite E; auto|exists x; auto].
    + intros (x & [Hx| ->] & Hd); [right; by exists x|left]. rewrite E in Hd. by injection Hd.
  - rewrite IH. split.
    + intros (x & Hx & Hd). exists x. auto.
    + intros (x & [Hx| ->] & Hd); [by exists x|]. by rewrite E in Hd.
Qed.

Section expose.
Context `{!FmtQuote}.

Lemma exposeStep_valid nodeName ds seen ports idx entry c :
  destinationOf (TrimSpace entry) = Some c →
  exposeStep nodeName (ds, seen, ports) (idx, entry) =
    if bool_decide (c ∈ seen) then (ds, seen, ports) else (ds, {[c]} ∪ seen, ports ++ [c]).
Proof.
  unfold destinationOf, exposeStep. destruct (processPortDefinition _); [|done]. by intros [= <-].
Qed.

Lemma exposeStep_invalid nodeName ds seen ports idx entry :
  destinationOf (TrimSpace entry) = None →
  ∃ x, Warning x = false ∧ exposeStep nodeName (ds, seen, ports) (idx, entry) = (ds ++ [x], seen, ports).
Proof.
  unfold destinationOf, exposeStep, add. destruct (processPortDefinition _); [done|].
  intros _. eexists. split; [|reflexivity]. done.
Qed.

(** The effect of the label's entries on the diagnostics and the ports. *)
Lemma exposeStep_fold nodeName items : ∀ ds seen ports,
  ∃ bad new seen', foldl (exposeStep nodeName) (ds, seen, ports) items = (ds ++ bad, seen', ports ++ new)
  ∧ NoDup new ∧ Forall (λ x, Warning x = false) bad
  ∧ length bad = length (filter (λ e : nat * string, destinationOf (TrimSpace e.2) = None) items)
  ∧ (∀ c, c ∈ new ↔ c ∉ seen ∧ ∃ e, e ∈ items ∧ destinationOf (TrimSpace e.2) = Some c).
Proof.
  induction items as [|[idx entry] items IH]; intros ds seen ports.
  { exists [], [], seen. rewrite !app_nil_r. split_and!; [done|constructor|constructor|done|].
    intros c. rewrite elem_of_nil. split; [done|]. intros (_ & e & He & _). by apply elem_of_nil in He. }
  cbn [foldl]. destruct (destinationOf (TrimSpace entry)) as [c|] eqn:E.
  - rewrite (exposeStep_valid nodeName ds seen ports idx entry c E).
    rewrite filter_cons_False by (cbn [snd]; by rewrite E). case_bool_decide as Hs.
    + destruct (IH ds seen ports) as (bad & new & seen' & -> & Hnd & Hw & Hlen & Hnew).
      exists bad, new, seen'. split_and!; [done..|]. intros c'. rewrite Hnew. setoid_rewrite elem_of_cons.
      split; intros (Hns & e & He & Hd); (split; [done|]).
      * exists e. auto.
      * destruct He as [->|He]; [|by exists e]. cbn [snd] in Hd. rewrite E in Hd. by simplify_eq.
    + destruct (IH ds ({[c]} ∪ seen) (ports ++ [c])) as (bad & new & seen' & -> & Hnd & Hw & Hlen & Hnew).
      exists bad, (c :: new), seen'. rewrite <- app_assoc. split_and!; [done| |done|done|].
      * apply NoDup_cons_2; [|done]. rewrite Hnew. intros [Hc _]. apply Hc. set_solver.
      * intros c'. rewrite elem_of_cons, Hnew, elem_of_union, elem_of_singleton. setoid_rewrite elem_of_cons.
        split.
        -- intros [->|(Hn & e & He & Hd)]; [split; [done|]; exists (idx, entry); auto|].
           split; [tauto|]. exists e. auto.
        -- intros (Hn & e & [->|He] & Hd); [left; cbn [snd] in Hd; congruence|].
           destruct (decide (c' = c)); [by left|right]. split; [tauto|]. by exists e.
  - destruct (exposeStep_invalid nodeName ds seen ports idx entry E) as (x & Hx & ->).
    destruct (IH (ds ++ [x]) seen ports) as (bad & new & seen' & -> & Hnd & Hw & Hlen & Hnew).
    exists (x :: bad), new, seen'. rewrite <- app_assoc. rewrite filter_cons_True by done.
    split_and!; [done|done|by constructor|cbn; by rewrite Hlen|].
    intros c'. rewrite Hnew. setoid_rewrite elem_of_cons. split; intros (Hns & e & He & Hd); (split; [done|]).
    + exists e. auto.
    + destruct He as [->|He]; [|by exists e]. cbn [snd] in Hd. congruence.
Qed.

Lemma elem_of_indexed {A} (l : list A) x : (∃ e, e ∈ indexed l ∧ e.2 = x) ↔ x ∈ l.
Proof.
  assert (x ∈ (indexed l).*2 ↔ x ∈ l) as <-.
  { unfold indexed. by rewrite snd_zip by (rewrite length_seq; lia). }
  rewrite list_elem_of_fmap. split; intros (e & ? & ?); exists e; split; auto.
Qed.

(** The exposed ports label is consumed completely and adds each destination once.
    When a node carries the label, the label is gone afterwards; the node's own ports are
    kept as they are and in front; behind them are, without duplicates and in canonical
    form, exactly the valid entries of the label whose destination no own port names; and
    every invalid entry, and nothing else, adds one error diagnostic. *)
Theorem expose_ports_label_consumed ds nodeName def value :
  DefLabels def !! labelExposePorts = Some value →
  let '(ds', def') := consumeExposePortsLabel ds nodeName def in
  ∃ bad new,
    ds' = ds ++ bad ∧ def' = def <| DefLabels := delete labelExposePorts (DefLabels def) |>
                                 <| DefPorts := DefPorts def ++ new |>
    ∧ Forall (λ x, Warning x = false) bad
    ∧ length bad = length (filter (λ e, destinationOf (TrimSpace e) = None) (Split comma value))
    ∧ NoDup new
    ∧ ∀ c, c ∈ new ↔ (∃ e, e ∈ Split comma value ∧ destinationOf (TrimSpace e) = Some c)
                      ∧ ¬ ∃ p, p ∈ DefPorts def ∧ destinationOf p = Some c.
Proof.
  intros Hl. unfold consumeExposePortsLabel. rewrite Hl. cbn [DefPorts].
  destruct (exposeStep_fold nodeName (indexed (Split comma value)) ds
    (seenDestinations (DefPorts def)) (DefPorts def)) as (bad & new & seen' & Hf & Hnd & Hw & Hlen & Hnew).
  change (DefPorts (def <| DefLabels ::= delete labelExposePorts |>)) with (DefPorts def).
  rewrite Hf. exists bad, new. split_and!; [done|done|done| |done|].
  - rewrite Hlen. unfold indexed. generalize 0%nat. clear.
    induction (Split comma value) as [|e l IH]; intros k; [done|]. cbn [length seq zip].
    change (zip_with pair (k :: seq (S k) (length l)) (e :: l))
      with ((k, e) :: zip (seq (S k) (length l)) l).
    rewrite !filter_cons. cbn [snd]. destruct (decide _); cbn [length]; by rewrite IH.
  - intros c. rewrite Hnew, elem_of_seenDestinations. split.
    + intros (Hn & e & He & Hd). split; [|done]. exists e.2. split; [|done]. apply elem_of_indexed. by exists e.
    + intros [(e & (e' & He' & <-)%elem_of_indexed & Hd) Hn]. split; [done|]. by exists e'.
Qed.
End expose.

#[local] Instance quoting : FmtQuote := quoted.

Lemma expose_ports_label_consumed_witness :
  let def := emptyNodeDefinition <| DefLabels := {[labelExposePorts := "22, 5201/udp,x,5201/UDP"]} |> <| DefPorts := ["22/tcp"] |> in
  let r := consumeExposePortsLabel [] "srl1" def in
  DefPorts r.2 = ["22/tcp"; "5201/udp"] ∧ length r.1 = 1%nat
  ∧ ∃ bad new, r.1 = [] ++ bad ∧ DefPorts r.2 = ["22/tcp"] ++ new ∧ NoDup new.
Proof.
  split; [vm_compute; reflexivity|]. split; [vm_compute; reflexivity|].
  pose proof (expose_ports_label_consumed [] "srl1"
    (emptyNodeDefinition <| DefLabels := {[labelExposePorts := "22, 5201/udp,x,5201/UDP"]} |> <| DefPorts := ["22/tcp"] |>)
    "22, 5201/udp,x,5201/UDP" eq_refl) as H.
  destruct (consumeExposePortsLabel _ _ _) as [ds' def'].
  destruct H as (bad & new & -> & -> & _ & _ & Hnd & _). by exists bad, new.
Defined.
