(* ===== verification/CompilerLinks.v ===== *)
(** * Compiling the links section

    Models [compiler/links.go]: reading link endpoints in their brief and structured
    forms, and turning the links of a containerlab topology into compiled wires. *)

From S2P Require Import Prelude Api GoStrings CompilerDiagnostics CompilerDefinition CompilerPorts.
Local Open Scope Z_scope.

(** ** Data *)

Record Endpoint := MkEndpoint {
  EndpointNode : string;
  EndpointInterface : string
}.

Record CompiledLink := MkCompiledLink {
  CompiledA : Endpoint;
  CompiledB : Endpoint;
  CompiledMTU : Z
}.

(** A parsed link; of [vars] only the number of entries is read. *)
Record linkDefinition := LinkDefinition {
  LinkType : string;
  LinkEndpoints_ : list string;
  LinkLabelCount : nat;
  LinkVarCount : nat;
  LinkDefMTU : Z
}.

Definition linkEndpointElementCount : nat := 2.

Inductive linkParseError :=
| errEndpointsNotSequence
| errEndpointSyntax (value : string)
| errEndpointEmpty (value : string)
| errEndpointDecode
| errEndpointField (key : string)
| errEndpointKind
| errEndpointCount (endpoints : list string)
| errEndpointParts (endpoints : list string).

(** ** Endpoints *)

Definition canonicalLinkEndpoint (value : string) : result linkParseError string :=
  match Split colon (TrimSpace value) with
  | [a; b] =>
      let nodeName := TrimSpace a in
      let interfaceName := TrimSpace b in
      if bool_decide (nodeName = "") || bool_decide (interfaceName = "")
      then Err (errEndpointEmpty value)
      else Ok (nodeName +:+ ":" +:+ interfaceName)
  | _ => Err (errEndpointSyntax value)
  end.

(** The loop over the key/value pairs of the mapping. *)
Fixpoint validateStructuredFields (fields : list (yamlNode * yamlNode)) : result linkParseError unit :=
  match fields with
  | [] => Ok tt
  | (key, field) :: fields =>
      if negb (bool_decide (YamlValue key = "node")) && negb (bool_decide (YamlValue key = "interface"))
      then validateStructuredFields fields
      else if negb (bool_decide (YamlKind field = ScalarNode)) || negb (bool_decide (YamlTag field = "!!str"))
      then Err (errEndpointField (YamlValue key))
      else validateStructuredFields fields
  end.

Definition validateStructuredLinkEndpoint (value : yamlNode) : result linkParseError unit :=
  validateStructuredFields (yamlPairs (YamlContent value)).

Section unmarshal.
(** [yaml.v3]'s [Decode] into the node/interface struct; [None] is an error. *)
Variable Decode : yamlNode → option (string * string).

Definition unmarshalEndpoint (endpoints : list string) (endpointNode : yamlNode) :
    result linkParseError (list string) :=
  match YamlKind endpointNode with
  | ScalarNode =>
      let? endpoint := canonicalLinkEndpoint (YamlValue endpointNode) in Ok (endpoints ++ [endpoint])
  | MappingNode =>
      match Decode endpointNode with
      | None => Err errEndpointDecode
      | Some (node, interface) =>
          let? _ := validateStructuredLinkEndpoint endpointNode in
          let? canonical := canonicalLinkEndpoint (node +:+ ":" +:+ interface) in
          Ok (endpoints ++ [canonical])
      end
  | DocumentNode | SequenceNode | AliasNode => Err errEndpointKind
  | NoKind => Ok endpoints
  end.

Definition UnmarshalYAML (value : yamlNode) : result linkParseError (list string) :=
  if negb (bool_decide (YamlKind value = SequenceNode)) then Err errEndpointsNotSequence
  else rfold unmarshalEndpoint [] (YamlContent value).
End unmarshal.

(** ** Links *)

Section links.
Context `{!FmtQuote}.

Definition unsupportedContainerlabLinkTypeDiagnostic (linkType linkPath : string) : Diagnostic :=
  diagnostic "unsupported-link-type" (linkPath +:+ ".type")
    (if bool_decide (linkType = "host") then
       "explicit native link type " +:+ fmt_q linkType +:+ " requires structured endpoints that the "
       +:+ "c9s topology compiler does not support; use brief endpoints"
     else "native link type " +:+ fmt_q linkType +:+ " has no c9s topology-link equivalent").

(** One endpoint of a link: the diagnostic it adds, if any; one makes the link invalid. *)
Definition endpointDiagnostic (nodes : gset string) (linkPath : string) (endpointIndex : nat)
    (nodeName : string) : option Diagnostic :=
  let path := linkPath +:+ ".endpoints[" +:+ Itoa (Z.of_nat endpointIndex) +:+ "]" in
  if bool_decide (nodeName = LinkHostNodeName) then None
  else if bool_decide (nodeName = "mgmt-net") || bool_decide (nodeName = "macvlan") then
    Some (diagnostic "unsupported-special-endpoint" path
      ("special endpoint " +:+ fmt_q nodeName +:+ " requires host networking that c9s does not provide"))
  else if negb (bool_decide (nodeName ∈ nodes)) then
    Some (diagnostic "unknown-link-endpoint" path
      ("link endpoint references nonexistent node " +:+ fmt_q nodeName))
  else None.

Definition addOption (ds : compileDiagnostics) (x : option Diagnostic) : compileDiagnostics :=
  match x with Some x => add ds x | None => ds end.

(** One iteration of the loop over the links. *)
Definition linkStep (nodes : gset string) (acc : compileDiagnostics * list CompiledLink)
    (entry : nat * linkDefinition) : result linkParseError (compileDiagnostics * list CompiledLink) :=
  let '(diagnostics, links) := acc in
  let '(linkIndex, link) := entry in
  let linkPath := "topology.links[" +:+ Itoa (Z.of_nat linkIndex) +:+ "]" in
  let diagnostics :=
    if negb (bool_decide (LinkLabelCount link = 0%nat)) then
      add diagnostics (diagnostic "unsupported-link-labels" (linkPath +:+ ".labels")
        "link labels are not preserved by the c9s Link API")
    else diagnostics in
  let diagnostics :=
    if negb (bool_decide (LinkVarCount link = 0%nat)) then
      add diagnostics (diagnostic "unsupported-link-vars" (linkPath +:+ ".vars")
        "link vars are not preserved by the c9s Link API")
    else diagnostics in
  if negb (bool_decide (LinkType link ∈ [""; "brief"; "veth"])) then
    Ok (add diagnostics (unsupportedContainerlabLinkTypeDiagnostic (LinkType link) linkPath), links)
  else
    match LinkEndpoints_ link with
    | [a; b] =>
        match Split colon a, Split colon b with
        | [nodeA; ifA], [nodeB; ifB] =>
            let dA := endpointDiagnostic nodes linkPath 0 nodeA in
            let dB := endpointDiagnostic nodes linkPath 1 nodeB in
            let diagnostics := addOption (addOption diagnostics dA) dB in
            let bothHost := bool_decide (nodeA = LinkHostNodeName) && bool_decide (nodeB = LinkHostNodeName) in
            let diagnostics :=
              if bothHost then
                add diagnostics (diagnostic "invalid-host-link" (linkPath +:+ ".endpoints")
                  "a c9s host link must have exactly one Node endpoint")
              else diagnostics in
            let invalidEndpoint := bool_decide (is_Some dA) || bool_decide (is_Some dB) || bothHost in
            if invalidEndpoint then Ok (diagnostics, links)
            else Ok (diagnostics, links ++ [MkCompiledLink (MkEndpoint nodeA ifA) (MkEndpoint nodeB ifB)
                                              (LinkDefMTU link)])
        | _, _ => Err (errEndpointParts (LinkEndpoints_ link))
        end
    | _ => Err (errEndpointCount (LinkEndpoints_ link))
    end.

Definition compileContainerlabLinks (nodes : gset string) (links : list linkDefinition)
    (diagnostics : compileDiagnostics) : result linkParseError (compileDiagnostics * list CompiledLink) :=
  rfold (linkStep nodes) (diagnostics, []) (indexed links).
End links.

(** ** Endpoints are read back *)

(** A name an endpoint can carry: no separator and no surrounding space. *)
Definition plainName (s : string) : Prop :=
  s ≠ "" ∧ ContainsChar s colon = false ∧ allChars (λ a, negb (isSpace a)) s = true.

Lemma canonicalLinkEndpoint_plain node interface :
  plainName node → plainName interface →
  canonicalLinkEndpoint (node +:+ ":" +:+ interface) = Ok (node +:+ ":" +:+ interface)
  ∧ Split colon (node +:+ ":" +:+ interface) = [node; interface].
Proof.
  intros (Hn & Hnc & Hns) (Hi & Hic & His).
  assert (Split colon (node +:+ ":" +:+ interface) = [node; interface]) as Hsplit.
  { change (":" +:+ interface) with (String colon interface).
    rewrite Split_cons by done. by rewrite Split_Join_single. }
  split; [|done]. unfold canonicalLinkEndpoint.
  rewrite (TrimSpace_id (node +:+ ":" +:+ interface)), Hsplit, !TrimSpace_id by
    (rewrite ?allChars_app; cbn [allChars]; rewrite ?Hns, ?His; done).
  by rewrite !bool_decide_eq_false_2.
Qed.

(** ** Every link is compiled or reported *)

(** The compiled wire carries exactly what the link says. *)
Definition wireOf (link : linkDefinition) (wire : CompiledLink) : Prop :=
  ∃ a b, LinkEndpoints_ link = [a; b]
  ∧ Split colon a = [EndpointNode (CompiledA wire); EndpointInterface (CompiledA wire)]
  ∧ Split colon b = [EndpointNode (CompiledB wire); EndpointInterface (CompiledB wire)]
  ∧ CompiledMTU wire = LinkDefMTU link.

(** Both ends of a wire exist: on a node of the topology or on the host, not both on the
    host and none on a special endpoint. *)
Definition endpointExists (nodes : gset string) (e : Endpoint) : Prop :=
  EndpointNode e = LinkHostNodeName
  ∨ (EndpointNode e ∈ nodes ∧ EndpointNode e ≠ "mgmt-net" ∧ EndpointNode e ≠ "macvlan").
Definition wireExists (nodes : gset string) (wire : CompiledLink) : Prop :=
  endpointExists nodes (CompiledA wire) ∧ endpointExists nodes (CompiledB wire)
  ∧ ¬ (EndpointNode (CompiledA wire) = LinkHostNodeName ∧ EndpointNode (CompiledB wire) = LinkHostNodeName).

Section compiled.
Context `{!FmtQuote}.

Lemma endpointDiagnostic_error nodes path idx node x :
  endpointDiagnostic nodes path idx node = Some x → Warning x = false.
Proof. unfold endpointDiagnostic. intros Hd. crush_cases; done. Qed.

Lemma endpointDiagnostic_None nodes path idx node interface :
  endpointDiagnostic nodes path idx node = None → endpointExists nodes (MkEndpoint node interface).
Proof.
  unfold endpointDiagnostic, endpointExists. cbn [EndpointNode]. case_bool_decide; [by left|].
  destruct (_ || _) eqn:E; [done|]. bool_to_prop. case_bool_decide; [|done]. intros _. by right.
Qed.

(** Diagnostics only grow, by errors; by at least one if [P]. *)
Definition grows (P : Prop) (ds ds' : compileDiagnostics) : Prop :=
  ∃ bad, ds' = ds ++ bad ∧ Forall (λ d, Warning d = false) bad ∧ (P → bad ≠ []).

Lemma grows_refl ds : grows False ds ds.
Proof. exists []. by rewrite app_nil_r. Qed.

Lemma grows_add ds x : Warning x = false → grows True ds (add ds x).
Proof. intros Hx. exists [x]. split_and!; [done|by repeat constructor|done]. Qed.

Lemma grows_trans (P Q : Prop) ds1 ds2 ds3 :
  grows P ds1 ds2 → grows Q ds2 ds3 → grows (P ∨ Q) ds1 ds3.
Proof.
  intros (b1 & -> & F1 & N1) (b2 & -> & F2 & N2). exists (b1 ++ b2). rewrite <- app_assoc.
  split_and!; [done|by apply Forall_app|]. intros [H1%N1|H2%N2] Hnil; apply app_nil in Hnil as [? ?]; done.
Qed.

Lemma grows_weaken (P Q : Prop) ds ds' : (Q → P) → grows P ds ds' → grows Q ds ds'.
Proof. intros HPQ (b & ? & ? & Hn). exists b. split_and!; auto. Qed.

Lemma grows_neq (P : Prop) ds ds' : P → grows P ds ds' → ds' ≠ ds.
Proof.
  intros HP (b & -> & _ & Hn) Heq. rewrite <- (app_nil_r ds) in Heq at 2. apply app_inv_head in Heq.
  by apply Hn in HP.
Qed.

Lemma grows_if (b : bool) ds x :
  Warning x = false → grows (b = true) ds (if b then add ds x else ds).
Proof.
  intros Hx. destruct b; [eapply grows_weaken, grows_add; [done|done]|].
  eapply grows_weaken, grows_refl. done.
Qed.

Lemma grows_addOption ds x :
  (∀ d, x = Some d → Warning d = false) → grows (is_Some x) ds (addOption ds x).
Proof.
  intros Hx. destruct x as [d|]; cbn [addOption].
  - eapply grows_weaken; [|apply grows_add; by apply Hx]. done.
  - eapply grows_weaken; [|apply grows_refl]. by intros [? ?].
Qed.

Lemma linkStep_spec nodes ds links i link ds' links' :
  linkStep nodes (ds, links) (i, link) = Ok (ds', links') →
  grows (links' = links) ds ds'
  ∧ (links' = links ∨ ∃ wire, links' = links ++ [wire] ∧ wireOf link wire ∧ wireExists nodes wire).
Proof.
  unfold linkStep. cbv zeta. set (path := "topology.links[" +:+ _).
  match goal with |- context [add ?d (unsupportedContainerlabLinkTypeDiagnostic _ _)] => set (ds2 := d) end.
  assert (grows False ds ds2) as H2.
  { eapply grows_weaken; [|eapply grows_trans; apply grows_if; done]. done. }
  destruct (negb (bool_decide (LinkType link ∈ _))).
  { intros [= <- <-]. split; [|by left]. eapply grows_weaken; [|eapply grows_trans; [exact H2|by apply grows_add]].
    by right. }
  destruct (LinkEndpoints_ link) as [|a [|b [|? ?]]] eqn:He; try done.
  destruct (Split colon a) as [|nodeA [|ifA [|? ?]]] eqn:Ha; try done.
  destruct (Split colon b) as [|nodeB [|ifB [|? ?]]] eqn:Hb; try done.
  set (dA := endpointDiagnostic nodes path 0 nodeA). set (dB := endpointDiagnostic nodes path 1 nodeB).
  match goal with |- context [if ?x || ?y || ?z then _ else _] => set (both := z) end.
  match goal with |- context [Ok (?d, links)] => set (ds3 := d) end.
  assert (grows (is_Some dA ∨ is_Some dB ∨ both = true) ds ds3) as H3.
  { eapply grows_weaken; [|eapply grows_trans; [exact H2|eapply grows_trans; [|by apply grows_if]]].
    2:{ eapply grows_trans; (apply grows_addOption; intros d; apply endpointDiagnostic_error). }
    tauto. }
  destruct (_ || both) eqn:Einv; intros [= <- <-].
  - split; [|by left]. eapply grows_weaken; [|exact H3]. intros _.
    apply orb_true_iff in Einv as [Einv|Einv]; [|auto]. bool_to_prop.
    destruct Einv as [Einv|Einv]; bool_to_prop; auto.
  - apply orb_false_iff in Einv as [[EdA EdB]%orb_false_iff Eboth].
    apply bool_decide_eq_false, eq_None_not_Some in EdA, EdB. split.
    { eapply grows_weaken; [|exact H3]. intros Hl. apply (f_equal length) in Hl.
      rewrite length_app in Hl. cbn in Hl. lia. }
    right. eexists. split; [done|]. split.
    { exists a, b. by rewrite Ha, Hb. }
    split_and!; [by eapply endpointDiagnostic_None|by eapply endpointDiagnostic_None|].
    intros [EA EB]. unfold both in Eboth. cbn in EA, EB.
    by rewrite EA, EB, !bool_decide_eq_true_2 in Eboth.
Qed.

Lemma linkFold_spec nodes items : ∀ ds links ds' links',
  rfold (linkStep nodes) (ds, links) items = Ok (ds', links') →
  ∃ bad wires, ds' = ds ++ bad ∧ links' = links ++ wires
  ∧ Forall (λ d, Warning d = false) bad ∧ Forall (wireExists nodes) wires
  ∧ (∀ wire, wire ∈ wires → ∃ e, e ∈ items ∧ wireOf e.2 wire)
  ∧ (bad = [] → Forall2 (λ e : nat * linkDefinition, wireOf e.2) items wires).
Proof.
  induction items as [|[i link] items IH]; intros ds links ds' links' Hf; cbn [rfold] in Hf.
  { simplify_eq. exists [], []. rewrite !app_nil_r. split_and!; try done. intros wire Hw.
    by apply elem_of_nil in Hw. }
  apply rbind_Ok_inv in Hf as ([ds1 links1] & Hstep & Hrest).
  destruct (IH _ _ _ _ Hrest) as (bad2 & wires2 & -> & -> & Hb2 & Hw2 & Hof & Hall).
  destruct (linkStep_spec _ _ _ _ _ _ _ Hstep) as [(bad1 & -> & Hb1 & Hne) [->|(wire & -> & Hw & Hex)]].
  - exists (bad1 ++ bad2), wires2. rewrite <- app_assoc. split_and!; [done|done|by apply Forall_app|done| |].
    + intros x (e & He & ?)%Hof. exists e. split; [by right|done].
    + intros [Hnil _]%app_nil. by apply Hne in Hnil.
  - exists (bad1 ++ bad2), (wire :: wires2). rewrite <- !app_assoc.
    split_and!; [done|done|by apply Forall_app|by constructor| |].
    + intros x [->|(e & He & ?)%Hof]%elem_of_cons; [exists (i, link); by split; [left|]|].
      exists e. split; [by right|done].
    + intros [_ Hnil]%app_nil. constructor; [done|by apply Hall].
Qed.

Lemma Forall2_indexed {A B} (R : A → B → Prop) (l : list A) (k : list B) : ∀ n,
  Forall2 (λ e : nat * A, R e.2) (zip (seq n (length l)) l) k → Forall2 R l k.
Proof.
  revert k. induction l as [|x l IH]; intros k n; cbn [length seq].
  - intros H0. cbn in H0. inversion H0. constructor.
  - change (zip (n :: seq (S n) (length l)) (x :: l)) with ((n, x) :: zip (seq (S n) (length l)) l).
    intros H0. inversion H0 as [|? y ? k' Hxy Hrest]; subst. constructor; [done|]. by eapply IH.
Qed.

(** The wires of the pass are the links, unless it reports an error. *)
Lemma links_spec nodes links ds ds' wires :
  compileContainerlabLinks nodes links ds = Ok (ds', wires) →
  ∃ bad, ds' = ds ++ bad ∧ Forall (λ d, Warning d = false) bad
  ∧ Forall (wireExists nodes) wires
  ∧ (∀ wire, wire ∈ wires → ∃ link, link ∈ links ∧ wireOf link wire)
  ∧ (bad = [] → Forall2 wireOf links wires)
  ∧ (length wires ≠ length links → err ds' ≠ None).
Proof.
  intros Hc. destruct (linkFold_spec _ _ _ _ _ _ Hc) as (bad & ws & -> & -> & Hb & Hw & Hof & Hall).
  cbn [app] in *. exists bad. split_and!; [done|done|done| | |].
  - intros wire (e & He & Hwe)%Hof. exists e.2. split; [|done]. apply elem_of_indexed. by exists e.
  - intros Hnil. by apply Hall, Forall2_indexed in Hnil.
  - intros Hlen. destruct bad as [|d bad].
    + exfalso. apply Hlen. symmetry. by eapply Forall2_length, Forall2_indexed, Hall.
    + by apply err_app_error.
Qed.

(** No link is lost or invented.  When the links section compiles, every compiled
    wire carries the endpoints and the MTU of one of the links, both of its ends exist (a
    node of the topology or the host, never both the host, never a special endpoint), and
    the pass adds only error diagnostics; if it adds none, the wires are the links, all of
    them and in order, so that a link without a wire always fails the compile. *)
Theorem links_compiled_exactly nodes links ds ds' wires :
  compileContainerlabLinks nodes links ds = Ok (ds', wires) →
  ∃ bad, ds' = ds ++ bad ∧ Forall (λ d, Warning d = false) bad
  ∧ Forall (wireExists nodes) wires
  ∧ (∀ wire, wire ∈ wires → ∃ link, link ∈ links ∧ wireOf link wire)
  ∧ (bad = [] → Forall2 wireOf links wires)
  ∧ (length wires ≠ length links → err ds' ≠ None).
Proof. apply links_spec. Qed.
End compiled.

#[local] Instance quoting_links : FmtQuote := quoted.

Lemma links_compiled_exactly_witness :
  let links := [LinkDefinition "" ["srl1:e1-1"; "host:veth0"] 0 0 1500;
                LinkDefinition "veth" ["srl1:e1-2"; "gone:eth1"] 0 0 0] in
  match compileContainerlabLinks {["srl1"]} links [] with
  | Ok (ds, wires) =>
      wires = [MkCompiledLink (MkEndpoint "srl1" "e1-1") (MkEndpoint "host" "veth0") 1500]
      ∧ (Code <$> ds) = ["unknown-link-endpoint"] ∧ err ds ≠ None
  | Err _ => False
  end.
Proof.
  pose proof (links_compiled_exactly {["srl1"]}
    [LinkDefinition "" ["srl1:e1-1"; "host:veth0"] 0 0 1500;
     LinkDefinition "veth" ["srl1:e1-2"; "gone:eth1"] 0 0 0] []) as H.
  cbv zeta.
  assert (∃ ds, compileContainerlabLinks {["srl1"]}
    [LinkDefinition "" ["srl1:e1-1"; "host:veth0"] 0 0 1500;
     LinkDefinition "veth" ["srl1:e1-2"; "gone:eth1"] 0 0 0] [] =
    Ok (ds, [MkCompiledLink (MkEndpoint "srl1" "e1-1") (MkEndpoint "host" "veth0") 1500])
    ∧ (Code <$> ds) = ["unknown-link-endpoint"]) as (ds & Heq & Hcode).
  { eexists. split; [vm_compute; reflexivity|vm_compute; reflexivity]. }
  rewrite Heq. destruct (H _ _ Heq) as (bad & _ & _ & _ & _ & _ & Herr).
  split; [reflexivity|]. split; [exact Hcode|]. by apply Herr.
Defined.
