(* ===== verification/CompilerNodes.v ===== *)
(** * Compiling the nodes section

    Models the per-topology node passes of [compiler/compilecontainerlab.go] (network
    modes, vocabulary policies, aliases) and the renaming of [compiler/names.go]. *)

From S2P Require Import Prelude Api Grouping GoStrings CompilerDiagnostics CompilerDefinition CompilerPorts CompilerLinks.
Local Open Scope Z_scope.

(** [sortedNodeNames]. *)
Definition sortedNodeNames (nodes : gmap string NodeDefinition) : list string := sorted_keys nodes.

(** [topology.nodes.<name>.<field>]. *)
Definition fieldPath (nodeName field : string) : string :=
  "topology.nodes." +:+ nodeName +:+ "." +:+ field.

(** ** Network modes *)

(** The walk along the references of one node; [None] means the fuel ran out. *)
Fixpoint cycleWalk (fuel : nat) (nodes : gmap string NodeDefinition) (seen : gset string)
    (current : string) : option bool :=
  match fuel with
  | O => None
  | S fuel =>
      if bool_decide (current = "") then Some false
      else if bool_decide (current ∈ seen) then Some true
      else
        match nodes !! current with
        | None => Some false
        | Some nextNode =>
            cycleWalk fuel nodes ({[current]} ∪ seen) (ParseNetworkModeContainer (DefNetworkMode nextNode))
        end
  end.

Section network.
Context `{!FmtQuote}.
(** containerlab's [names.SanitizeName]. *)
Variable SanitizeName : string → string.

(** The diagnostic one node's network mode adds.  Every step of the walk marks one more
    node as seen, so [size nodes + 2] steps are enough. *)
Definition networkModeDiagnostic (nodes : gmap string NodeDefinition) (nodeName networkMode : string) :
    option Diagnostic :=
  if bool_decide (networkMode = "") then None
  else
    let primary := ParseNetworkModeContainer networkMode in
    let path := fieldPath nodeName "network-mode" in
    if bool_decide (primary = "") || bool_decide (SanitizeName primary = "") then
      Some (diagnostic "unsupported-network-mode" path
        ("node " +:+ fmt_q nodeName +:+ " network-mode " +:+ fmt_q networkMode
         +:+ " is unsupported; c9s accepts only container:<primary node name>"))
    else if negb (bool_decide (is_Some (nodes !! primary))) then
      Some (diagnostic "unknown-network-mode-primary" path
        ("node " +:+ fmt_q nodeName +:+ " shares a pod with nonexistent primary node " +:+ fmt_q primary))
    else
      match cycleWalk (size nodes + 2) nodes {[nodeName]} primary with
      | Some true =>
          Some (diagnostic "network-mode-cycle" path
            ("node " +:+ fmt_q nodeName +:+ " network-mode participates in a pod-group cycle"))
      | _ => None
      end.

Definition validateNodeNetworkModes (nodes : gmap string NodeDefinition)
    (diagnostics : compileDiagnostics) : compileDiagnostics :=
  foldl (λ diagnostics nodeName,
           match nodes !! nodeName with
           | None => diagnostics
           | Some def => addOption diagnostics (networkModeDiagnostic nodes nodeName (DefNetworkMode def))
           end)
        diagnostics (sortedNodeNames nodes).
End network.

(** ** Vocabulary policies *)

Section policies.
Context `{!FmtQuote}.

Definition restartPolicies : list string := [""; "always"; "Always"; "unless-stopped"; "Unless-stopped"].
Definition pullPolicies : list string :=
  [""; "always"; "Always"; "never"; "Never"; "ifnotpresent"; "IfNotPresent"].
Definition linkApplyModes : list string := [""; "live"; "restart"; "recreate"].

Definition policyStep (diagnostics : compileDiagnostics) (nodeName : string) (node : NodeDefinition) :
    compileDiagnostics :=
  let diagnostics :=
    if negb (bool_decide (DefRestartPolicy node ∈ restartPolicies)) then
      add diagnostics (diagnostic "unsupported-restart-policy" (fieldPath nodeName "restart-policy")
        ("node " +:+ fmt_q nodeName +:+ " restart policy " +:+ fmt_q (DefRestartPolicy node)
         +:+ " has no shared-Pod mapping; direct device containers support always or unless-stopped"))
    else diagnostics in
  let diagnostics :=
    if negb (bool_decide (DefImagePullPolicy node ∈ pullPolicies)) then
      add diagnostics (diagnostic "unsupported-image-pull-policy" (fieldPath nodeName "image-pull-policy")
        ("node " +:+ fmt_q nodeName +:+ " image pull policy " +:+ fmt_q (DefImagePullPolicy node)
         +:+ " is not a containerlab pull policy (always, never, ifnotpresent)"))
    else diagnostics in
  if negb (bool_decide (DefLinkApplyMode node ∈ linkApplyModes)) then
    add diagnostics (diagnostic "unsupported-link-apply-mode" (fieldPath nodeName "link-apply-mode")
      ("node " +:+ fmt_q nodeName +:+ " link apply mode " +:+ fmt_q (DefLinkApplyMode node)
       +:+ " is not live, restart, or recreate"))
  else diagnostics.

Definition validateNodeVocabularyPolicies (nodes : gmap string NodeDefinition)
    (diagnostics : compileDiagnostics) : compileDiagnostics :=
  foldl (λ diagnostics nodeName,
           match nodes !! nodeName with
           | None => diagnostics
           | Some node => policyStep diagnostics nodeName node
           end)
        diagnostics (sortedNodeNames nodes).

(** ** Aliases *)

(** [apimachinery]'s [IsDNS1035Label]: the problems it reports. *)
Variable IsDNS1035Label : string → list string.

Definition aliasStep (nodeName : string) (acc : compileDiagnostics * gmap string string)
    (entry : nat * string) : compileDiagnostics * gmap string string :=
  let '(diagnostics, owners) := acc in
  let '(index, alias) := entry in
  let path := nodePath nodeName "aliases" index in
  let problems := IsDNS1035Label alias in
  if negb (bool_decide (length problems = 0%nat)) then
    (add diagnostics (diagnostic "invalid-alias" path
       ("node " +:+ fmt_q nodeName +:+ " alias " +:+ fmt_q alias
        +:+ " cannot become a Kubernetes Service name: " +:+ Join problems "; ")), owners)
  else
    match owners !! alias with
    | Some owner =>
        (add diagnostics (diagnostic "duplicate-alias" path
           ("node " +:+ fmt_q nodeName +:+ " alias " +:+ fmt_q alias +:+ " collides with " +:+ owner)),
         owners)
    | None =>
        (diagnostics, <[alias := "node " +:+ fmt_q nodeName +:+ " alias " +:+ fmt_q alias]> owners)
    end.

Definition validateNodeAliases (nodes : gmap string NodeDefinition) (diagnostics : compileDiagnostics) :
    compileDiagnostics :=
  let owners := map_imap (λ nodeName _, Some ("node " +:+ fmt_q nodeName)) nodes in
  (foldl (λ acc nodeName,
            match nodes !! nodeName with
            | None => acc
            | Some node => foldl (aliasStep nodeName) acc (indexed (DefAliases node))
            end)
         (diagnostics, owners) (sortedNodeNames nodes)).1.
End policies.

(** ** Renaming *)

Record CompiledDefinition := MkCompiledDefinition {
  CDKind : string;
  CDNodes : gmap string NodeDefinition;
  CDAppProtocols : gmap string (list AppProtocol);
  CDLinks : list CompiledLink;
  CDMgmt : option configValue;
  NodeNameSources : gmap string string
}.
#[export] Instance CompiledDefinition_updatable : Updatable CompiledDefinition :=
  λ c, MkCompiledDefinition (CDKind c) (CDNodes c) (CDAppProtocols c) (CDLinks c) (CDMgmt c)
         (NodeNameSources c).

Definition TopologyKindContainerlab : string := "containerlab".

Definition SourceNodeName (t : CompiledDefinition) (nodeName : string) : string :=
  match NodeNameSources t !! nodeName with Some sourceName => sourceName | None => nodeName end.

Definition labelOriginalNodeName : string := labelPrefix +:+ "/originalNodeName".

Definition renamed (renames : gmap string string) (name : string) : string :=
  match renames !! name with Some compiledName => compiledName | None => name end.

Definition RenameNetworkModePrimary (renames : gmap string string) (def : NodeDefinition) : NodeDefinition :=
  let primary := ParseNetworkModeContainer (DefNetworkMode def) in
  match renames !! primary with
  | None => def
  | Some compiledName => def <| DefNetworkMode := NetworkModeContainerPrefix +:+ compiledName |>
  end.

Definition renameLinkEndpointNode (renames : gmap string string) (endpoint : Endpoint) : Endpoint :=
  match renames !! EndpointNode endpoint with
  | None => endpoint
  | Some compiledName => MkEndpoint compiledName (EndpointInterface endpoint)
  end.

Definition renameLink (renames : gmap string string) (l : CompiledLink) : CompiledLink :=
  MkCompiledLink (renameLinkEndpointNode renames (CompiledA l)) (renameLinkEndpointNode renames (CompiledB l))
    (CompiledMTU l).

Section rename.
Context `{!FmtQuote, !RangeOrder string}.
(** containerlab's [names.SanitizeNodeNames], [None] its error with a text, and
    [apimachinery]'s [IsValidLabelValue]. *)
Variables (SanitizeNodeNames : list string → result string (gmap string string))
  (IsValidLabelValue : string → list string).

Definition recordOriginalName (nodeName : string) (def : NodeDefinition) : NodeDefinition :=
  match DefLabels def !! labelOriginalNodeName with
  | Some _ => def
  | None =>
      if negb (bool_decide (length (IsValidLabelValue nodeName) = 0%nat)) then def
      else def <| DefLabels ::= <[labelOriginalNodeName := nodeName]> |>
  end.

(** The loop that rebuilds the node map under the new names, and its sources. *)
Definition renameStep (renames : gmap string string)
    (acc : gmap string NodeDefinition * gmap string string) (entry : string * NodeDefinition) :
    gmap string NodeDefinition * gmap string string :=
  let '(nodes, sources) := acc in
  let '(nodeName, def) := entry in
  match renames !! nodeName with
  | Some compiledName => (<[compiledName := def]> nodes, <[compiledName := nodeName]> sources)
  | None => (<[nodeName := def]> nodes, sources)
  end.

Definition renameAppProtocols (renames : gmap string string) (protocols : gmap string (list AppProtocol)) :
    gmap string (list AppProtocol) :=
  foldl (λ acc entry, <[renamed renames entry.1 := entry.2]> acc) ∅ (range_list protocols).

Definition sanitizeCompiledNodeNames (compiled : CompiledDefinition) (diagnostics : compileDiagnostics) :
    compileDiagnostics * CompiledDefinition :=
  match SanitizeNodeNames (sortedNodeNames (CDNodes compiled)) with
  | Err e =>
      (add diagnostics (diagnostic "colliding-node-names" "topology.nodes" ("invalid data: " +:+ e)),
       compiled)
  | Ok renames =>
      let labelled := map_imap (λ name def, Some (recordOriginalName name def)) (CDNodes compiled) in
      if bool_decide (size renames = 0%nat) then
        (diagnostics, compiled <| CDNodes := labelled |>)
      else
        let '(nodes, sources) := foldl (renameStep renames) (∅, ∅) (range_list labelled) in
        let appProtocols :=
          if bool_decide (size (CDAppProtocols compiled) = 0%nat) then CDAppProtocols compiled
          else renameAppProtocols renames (CDAppProtocols compiled) in
        (diagnostics,
         compiled <| CDNodes := RenameNetworkModePrimary renames <$> nodes |>
           <| CDAppProtocols := appProtocols |>
           <| CDLinks := renameLink renames <$> CDLinks compiled |>
           <| NodeNameSources := sources |>)
  end.
End rename.

(** ** Accepted network modes *)

(** The compiled definitions as the nodes the Pod grouping reads. *)
Definition asNodes (nodes : gmap string NodeDefinition) : gmap string Node :=
  (λ def, MkNode "" "" (DefNetworkMode def)) <$> nodes.

Lemma asNodes_lookup nodes name def :
  nodes !! name = Some def → asNodes nodes !! name = Some (MkNode "" "" (DefNetworkMode def)).
Proof. intros Hn. unfold asNodes. by rewrite lookup_fmap, Hn. Qed.

Lemma dom_asNodes nodes : dom (asNodes nodes) = dom nodes.
Proof. apply dom_fmap_L. Qed.

(** What the walk has established: the seen nodes are known and lead to the current one,
    or it ended at a root. *)
Definition walking (nodes : gmap string NodeDefinition) (start : string) (seen : gset string)
    (current : string) : Prop :=
  if decide (current = "") then ∃ r, rtc (refers (asNodes nodes)) start r ∧ root (asNodes nodes) r
  else rtc (refers (asNodes nodes)) start current
       ∧ ∀ s, s ∈ seen → tc (refers (asNodes nodes)) s current.

Lemma walking_step nodes start seen current next :
  walking nodes start seen current → current ≠ "" → nodes !! current = Some next →
  walking nodes start ({[current]} ∪ seen) (ParseNetworkModeContainer (DefNetworkMode next)).
Proof.
  unfold walking. intros Hw Hne Hn. rewrite (decide_False (P := current = "")) in Hw by done.
  destruct Hw as [Hr Hs]. pose proof (asNodes_lookup _ _ _ Hn) as Ha. case_decide as He.
  - exists current. split; [done|]. intros b (n & Hn' & Hb & Hne'). by simplify_eq.
  - assert (refers (asNodes nodes) current (ParseNetworkModeContainer (DefNetworkMode next))) as Hstep
      by by exists (MkNode "" "" (DefNetworkMode next)).
    split; [by eapply rtc_r|]. intros s [->%elem_of_singleton|Hin]%elem_of_union; [by apply tc_once|].
    eapply tc_r; [by apply Hs|done].
Qed.

Lemma cycleWalk_spec fuel nodes start : ∀ seen current b,
  walking nodes start seen current → cycleWalk fuel nodes seen current = Some b →
  if b then ∃ c, tc (refers (asNodes nodes)) c c
  else ∃ r, rtc (refers (asNodes nodes)) start r ∧ root (asNodes nodes) r.
Proof.
  induction fuel as [|fuel IH]; intros seen current b Hw; [done|]. cbn [cycleWalk].
  case_bool_decide as He.
  { intros [= <-]. unfold walking in Hw. by rewrite decide_True in Hw. }
  case_bool_decide as Hs.
  { intros [= <-]. exists current. unfold walking in Hw. rewrite decide_False in Hw by done. by apply Hw. }
  destruct (nodes !! current) as [next|] eqn:Hn; [by eapply IH, walking_step|].
  intros [= <-]. exists current. unfold walking in Hw. rewrite decide_False in Hw by done.
  split; [apply Hw|]. intros c (n & Hn' & _). unfold asNodes in Hn'. by rewrite lookup_fmap, Hn in Hn'.
Qed.

(** The fuel is enough: every step marks one more known node. *)
Lemma cycleWalk_total fuel nodes : ∀ seen current,
  (size (dom nodes ∖ seen) + 1 < fuel)%nat → is_Some (cycleWalk fuel nodes seen current).
Proof.
  induction fuel as [|fuel IH]; intros seen current Hf; [lia|]. cbn [cycleWalk].
  case_bool_decide; [eauto|]. case_bool_decide as Hs; [eauto|].
  destruct (nodes !! current) as [next|] eqn:Hn; [|eauto]. apply IH.
  assert (size (dom nodes ∖ ({[current]} ∪ seen)) < size (dom nodes ∖ seen))%nat; [|lia].
  assert (current ∈ dom nodes) by (apply elem_of_dom; eauto).
  apply subset_size. split; [set_solver|]. intros Hsub. specialize (Hsub current). set_solver.
Qed.

(** A network mode c9s can realize: none, or that of a node of the topology. *)
Definition supportedMode (SanitizeName : string → string) (nodes : gmap string NodeDefinition)
    (mode : string) : Prop :=
  mode = "" ∨ ∃ primary, ParseNetworkModeContainer mode = primary ∧ primary ≠ ""
                         ∧ SanitizeName primary ≠ "" ∧ is_Some (nodes !! primary).

Section accepted.
Context `{!FmtQuote}.
Variable SanitizeName : string → string.

Lemma networkModeDiagnostic_error nodes name mode x :
  networkModeDiagnostic SanitizeName nodes name mode = Some x → Warning x = false.
Proof. unfold networkModeDiagnostic. intros Hd. crush_cases; done. Qed.

Lemma walking_start nodes name def :
  nodes !! name = Some def → ParseNetworkModeContainer (DefNetworkMode def) ≠ "" →
  walking nodes name {[name]} (ParseNetworkModeContainer (DefNetworkMode def)).
Proof.
  intros Hn Hp. unfold walking. rewrite decide_False by done.
  assert (refers (asNodes nodes) name (ParseNetworkModeContainer (DefNetworkMode def))) as Hstep.
  { exists (MkNode "" "" (DefNetworkMode def)). split_and!; [by apply asNodes_lookup|done|done]. }
  split; [by apply rtc_once|]. intros s ->%elem_of_singleton. by apply tc_once.
Qed.

(** One node adds no diagnostic exactly when its mode is supported and its references
    lead to a root. *)
Lemma networkModeDiagnostic_None nodes name def :
  nodes !! name = Some def →
  networkModeDiagnostic SanitizeName nodes name (DefNetworkMode def) = None →
  supportedMode SanitizeName nodes (DefNetworkMode def)
  ∧ ∃ r, rtc (refers (asNodes nodes)) name r ∧ root (asNodes nodes) r.
Proof.
  intros Hn. unfold networkModeDiagnostic. case_bool_decide as Hm.
  { intros _. split; [by left|]. exists name. split; [constructor|]. intros b (n & Hn' & Hb & Hne).
    rewrite (asNodes_lookup _ _ _ Hn) in Hn'. simplify_eq. cbn in Hne. by rewrite Hm in Hne. }
  destruct (_ || _) eqn:Ep; [done|]. bool_to_prop. case_bool_decide as He; cbn [negb]; [|done].
  destruct (cycleWalk _ _ _ _) as [[]|] eqn:Ew; [done| |].
  - intros _. split; [right; eexists; by split_and!|].
    by apply (cycleWalk_spec _ _ name) in Ew; [|apply walking_start].
  - exfalso. destruct (cycleWalk_total (size nodes + 2) nodes {[name]}
      (ParseNetworkModeContainer (DefNetworkMode def))) as [b Hb]; [|congruence].
    assert (size (dom nodes ∖ {[name]}) ≤ size (dom nodes))%nat by (apply subseteq_size; set_solver).
    rewrite size_dom in *. lia.
Qed.

Lemma networkModeDiagnostic_accepts nodes name def :
  nodes !! name = Some def → supportedMode SanitizeName nodes (DefNetworkMode def) →
  acyclic (asNodes nodes) → networkModeDiagnostic SanitizeName nodes name (DefNetworkMode def) = None.
Proof.
  intros Hn Hs Hac. unfold networkModeDiagnostic. case_bool_decide as Hm; [done|].
  destruct Hs as [?|(primary & Hp & Hne & Hsan & Hex)]; [done|]. subst primary.
  rewrite (bool_decide_eq_false_2 _ Hne), (bool_decide_eq_false_2 _ Hsan), (bool_decide_eq_true_2 _ Hex).
  cbn [orb negb]. destruct (cycleWalk _ _ _ _) as [[]|] eqn:Ew; [|done|done].
  apply (cycleWalk_spec _ _ name) in Ew; [|by apply walking_start]. destruct Ew as [c Hc]. by apply Hac in Hc.
Qed.

Lemma foldl_addOption (f : string → option Diagnostic) names : ∀ ds,
  (∀ n x, f n = Some x → Warning x = false) →
  let ds' := foldl (λ ds n, addOption ds (f n)) ds names in
  grows False ds ds' ∧ (ds' = ds ↔ ∀ n, n ∈ names → f n = None).
Proof.
  induction names as [|n names IH]; intros ds Hf.
  { split; [apply grows_refl|]. split; [|done]. intros _ n Hn. by apply elem_of_nil in Hn. }
  cbn [foldl]. destruct (IH (addOption ds (f n)) Hf) as [(bad2 & Hg & Fg & _) Hiff].
  destruct (grows_addOption ds (f n) (Hf n)) as (bad1 & Ha & Fa & Na). split.
  - exists (bad1 ++ bad2). rewrite Hg, Ha, <- app_assoc. split_and!; [done|by apply Forall_app|done].
  - split.
    + intros Heq. rewrite Hg, Ha, <- app_assoc in Heq.
      rewrite <- (app_nil_r ds) in Heq at 2. apply app_inv_head, app_nil in Heq as [-> ->].
      assert (f n = None) as Hn by (destruct (f n); [exfalso; by apply Na|done]).
      intros m [->|Hm]%elem_of_cons; [done|]. apply Hiff; [|done]. by rewrite Hg, app_nil_r.
    + intros Hall. assert (f n = None) as Hn by (apply Hall; left). rewrite Hn in *. cbn [addOption] in *.
      apply Hiff. intros m Hm. apply Hall. by right.
Qed.

Lemma validateNodeNetworkModes_fold nodes ds :
  validateNodeNetworkModes SanitizeName nodes ds =
  foldl (λ ds n, addOption ds (nodes !! n ≫= λ def, networkModeDiagnostic SanitizeName nodes n (DefNetworkMode def)))
    ds (sortedNodeNames nodes).
Proof.
  unfold validateNodeNetworkModes. revert ds. induction (sortedNodeNames nodes) as [|n l IH]; intros ds; [done|].
  cbn [foldl]. rewrite IH. by destruct (nodes !! n).
Qed.

(** The pass is silent exactly on supported, acyclic references. *)
Lemma network_modes_spec nodes ds :
  let ds' := validateNodeNetworkModes SanitizeName nodes ds in
  (ds' = ds ↔ (∀ name def, nodes !! name = Some def → supportedMode SanitizeName nodes (DefNetworkMode def))
              ∧ acyclic (asNodes nodes))
  ∧ (ds' ≠ ds → err ds' ≠ None).
Proof.
  cbv zeta. rewrite validateNodeNetworkModes_fold.
  destruct (foldl_addOption (λ n, nodes !! n ≫= λ def, networkModeDiagnostic SanitizeName nodes n (DefNetworkMode def))
    (sortedNodeNames nodes) ds) as [(bad & Hg & Fg & _) Hiff].
  { intros n x. destruct (nodes !! n); [cbn; apply networkModeDiagnostic_error|done]. }
  split.
  - rewrite Hiff. split.
    + intros Hall. assert (∀ name def, nodes !! name = Some def →
        networkModeDiagnostic SanitizeName nodes name (DefNetworkMode def) = None) as Hnone.
      { intros name def Hn. specialize (Hall name). rewrite Hn in Hall. apply Hall.
        apply elem_of_sorted_keys. eauto. }
      split; [intros name def Hn; by apply (networkModeDiagnostic_None nodes name def Hn), Hnone|].
      intros a Hcyc. assert (is_Some (nodes !! a)) as [def Hn].
      { assert (∃ b, refers (asNodes nodes) a b) as (b & n & Hn & _) by (inversion Hcyc; eauto).
        unfold asNodes in Hn. rewrite lookup_fmap in Hn. destruct (nodes !! a); [eauto|done]. }
      destruct (networkModeDiagnostic_None nodes a def Hn (Hnone a def Hn)) as [_ (r & Har & Hr)].
      by eapply root_reach_acyclic.
    + intros [Hsup Hac] n Hn. apply elem_of_sorted_keys in Hn as [def Hn]. rewrite Hn. cbn.
      apply networkModeDiagnostic_accepts; eauto.
  - intros Hne. rewrite Hg in Hne |- *. apply err_app_error; [done|]. intros ->. by rewrite app_nil_r in Hne.
Qed.

(** A topology passes the network mode check exactly when its Pod groups exist.
    The pass adds no diagnostic if and only if every node's network mode is empty or names
    a node of the topology (as [container:<name>]), and no node shares its own network
    namespace through any chain of references; otherwise it adds error diagnostics, which
    fail the compile.  So the groups of a compiled topology satisfy the acyclicity the
    grouping and the startup batches rely on. *)
Theorem network_modes_accepted nodes ds :
  let ds' := validateNodeNetworkModes SanitizeName nodes ds in
  (ds' = ds ↔ (∀ name def, nodes !! name = Some def → supportedMode SanitizeName nodes (DefNetworkMode def))
              ∧ acyclic (asNodes nodes))
  ∧ (ds' ≠ ds → err ds' ≠ None).
Proof. apply network_modes_spec. Qed.
End accepted.

(** ** Unique aliases *)

(** Every alias of the topology with its node, in the order the pass visits them. *)
Definition aliasEntries (nodes : gmap string NodeDefinition) : list (string * (nat * string)) :=
  sortedNodeNames nodes ≫= λ name,
    match nodes !! name with Some def => pair name <$> indexed (DefAliases def) | None => [] end.

Definition allAliases (nodes : gmap string NodeDefinition) : list string :=
  (λ e, e.2.2) <$> aliasEntries nodes.

Lemma aliasEntries_elem nodes name def i a :
  nodes !! name = Some def → DefAliases def !! i = Some a → (name, (i, a)) ∈ aliasEntries nodes.
Proof.
  intros Hn Ha. unfold aliasEntries. apply list_elem_of_bind. exists name. rewrite Hn. split.
  - apply (list_elem_of_fmap_2 (pair name)). unfold indexed. apply list_elem_of_lookup. exists i.
    apply lookup_zip_with_Some. exists i, a. split_and!; [done| |done].
    apply lookup_seq. split; [done|]. by eapply lookup_lt_Some.
  - apply elem_of_sorted_keys. eauto.
Qed.

(** Distinct aliases, by the place that declares them. *)
Lemma allAliases_unique nodes n1 d1 i n2 d2 j a :
  NoDup (allAliases nodes) →
  nodes !! n1 = Some d1 → DefAliases d1 !! i = Some a →
  nodes !! n2 = Some d2 → DefAliases d2 !! j = Some a → n1 = n2 ∧ i = j.
Proof.
  intros Hnd Hn1 Ha1 Hn2 Ha2.
  pose proof (NoDup_key_inj (λ e : string * (nat * string), e.2.2) _ _ _ Hnd
    (aliasEntries_elem _ _ _ _ _ Hn1 Ha1) (aliasEntries_elem _ _ _ _ _ Hn2 Ha2) eq_refl) as Heq.
  by injection Heq as -> ->.
Qed.

Section aliases.
Context `{!FmtQuote}.
Variable IsDNS1035Label : string → list string.

Lemma validateNodeAliases_flat nodes ds :
  validateNodeAliases IsDNS1035Label nodes ds =
  (foldl (λ acc e, aliasStep IsDNS1035Label e.1 acc e.2)
     (ds, map_imap (λ name _, Some ("node " +:+ fmt_q name)) nodes) (aliasEntries nodes)).1.
Proof.
  unfold validateNodeAliases, aliasEntries. f_equal.
  generalize (ds, map_imap (λ name (_ : NodeDefinition), Some ("node " +:+ fmt_q name)) nodes).
  induction (sortedNodeNames nodes) as [|n l IH]; intros acc; [done|].
  rewrite bind_cons, foldl_app. cbn [foldl]. rewrite IH. f_equal. destruct (nodes !! n) as [def|]; [|done].
  clear. revert acc. induction (indexed (DefAliases def)) as [|e es IH]; intros acc; [done|].
  rewrite fmap_cons. cbn [foldl]. by rewrite IH.
Qed.

(** One alias is accepted, or reported and not remembered. *)
Lemma aliasStep_cases n ds owners i a :
  (IsDNS1035Label a = [] ∧ owners !! a = None
   ∧ ∃ t, aliasStep IsDNS1035Label n (ds, owners) (i, a) = (ds, <[a := t]> owners))
  ∨ (¬ (IsDNS1035Label a = [] ∧ owners !! a = None)
     ∧ ∃ x, Warning x = false ∧ aliasStep IsDNS1035Label n (ds, owners) (i, a) = (add ds x, owners)).
Proof.
  unfold aliasStep. case_bool_decide as Hp; cbn [negb].
  - apply nil_length_inv in Hp. destruct (owners !! a) as [owner|] eqn:Ho.
    + right. split; [intros [_ ?]; congruence|]. eexists (diagnostic _ _ _). by split.
    + left. split_and!; [done|done|by eexists].
  - right. split; [intros [Hnil _]; by rewrite Hnil in Hp|]. eexists (diagnostic _ _ _). by split.
Qed.

(** The fold adds nothing exactly when the aliases are valid, new and distinct. *)
Lemma aliasFold_spec entries : ∀ ds owners,
  let '(ds', _) := foldl (λ acc e, aliasStep IsDNS1035Label e.1 acc e.2) (ds, owners) entries in
  grows False ds ds'
  ∧ (ds' = ds ↔ Forall (λ e : string * (nat * string), IsDNS1035Label e.2.2 = [] ∧ owners !! e.2.2 = None) entries
                ∧ NoDup ((λ e : string * (nat * string), e.2.2) <$> entries)).
Proof.
  induction entries as [|[n [i a]] entries IH]; intros ds owners.
  { cbn. split; [apply grows_refl|]. split; [|done]. intros _. split; constructor. }
  set (f := λ e : string * (nat * string), e.2.2).
  set (P := λ e : string * (nat * string), IsDNS1035Label e.2.2 = [] ∧ owners !! e.2.2 = None).
  assert ((Forall P ((n, (i, a)) :: entries) ∧ NoDup (f <$> (n, (i, a)) :: entries)) ↔
    ((IsDNS1035Label a = [] ∧ owners !! a = None) ∧ Forall P entries)
    ∧ a ∉ f <$> entries ∧ NoDup (f <$> entries)) as HF
    by by rewrite fmap_cons, list.Forall_cons, NoDup_cons.
  cbn [foldl fst snd].
  destruct (aliasStep_cases n ds owners i a) as [(Hv & Ho & t & ->)|(Hbad & x & Hx & ->)].
  - specialize (IH ds (<[a := t]> owners)). destruct (foldl _ _ entries) as [ds' owners'].
    destruct IH as [Hg Hiff]. split; [done|]. rewrite Hiff, HF. unfold P. rewrite !list.Forall_forall. split.
    + intros [Hall Hnd]. split_and!; [done|done| | |done].
      * intros e He. destruct (Hall e He) as [? Hl]. by apply lookup_insert_None in Hl as [? _].
      * intros (e & -> & He)%list_elem_of_fmap. destruct (Hall e He) as [_ Hl].
        by rewrite lookup_insert_eq in Hl.
    + intros [[_ Hall] [Hni Hnd]]. split; [|done]. intros e He. destruct (Hall e He) as [? Hl].
      split; [done|]. apply lookup_insert_None. split; [done|]. intros ->. apply Hni.
      by apply (list_elem_of_fmap_2 f).
  - pose proof (grows_add ds x Hx) as Hadd. specialize (IH (add ds x) owners).
    destruct (foldl _ _ entries) as [ds' owners']. destruct IH as [Hg _].
    pose proof (grows_trans _ _ _ _ _ Hadd Hg) as Hall.
    split; [by eapply grows_weaken; [|exact Hall]|]. rewrite HF. split; [|intros [[? _] _]; done].
    intros Heq. exfalso. eapply grows_neq; [|exact Hall|exact Heq]. by left.
Qed.

(** The pass is silent exactly on valid, unused and distinct aliases. *)
Lemma aliases_spec nodes ds :
  let ds' := validateNodeAliases IsDNS1035Label nodes ds in
  (ds' = ds ↔ Forall (λ a, IsDNS1035Label a = [] ∧ nodes !! a = None) (allAliases nodes)
              ∧ NoDup (allAliases nodes))
  ∧ (ds' ≠ ds → err ds' ≠ None).
Proof.
  cbv zeta. rewrite validateNodeAliases_flat.
  pose proof (aliasFold_spec (aliasEntries nodes) ds
    (map_imap (λ name _, Some ("node " +:+ fmt_q name)) nodes)) as Hspec.
  destruct (foldl _ _ (aliasEntries nodes)) as [ds' owners']. destruct Hspec as [(bad & -> & Fb & _) Hiff].
  cbn [fst]. split.
  - rewrite Hiff. unfold allAliases. rewrite list.Forall_fmap. apply and_iff_compat_r.
    apply list.Forall_iff. intros e. unfold compose. rewrite map_lookup_imap.
    destruct (nodes !! e.2.2); cbn; intuition congruence.
  - intros Hne. apply err_app_error; [done|]. intros ->. by rewrite app_nil_r in Hne.
Qed.

(** A topology passes the alias check exactly when its aliases can all become
    Services of their own.  The pass adds no diagnostic if and only if every alias of every
    node is a valid Service name, is no node's name, and is used once in the whole
    topology; otherwise it adds error diagnostics, which fail the compile. *)
Theorem aliases_unique nodes ds :
  let ds' := validateNodeAliases IsDNS1035Label nodes ds in
  (ds' = ds ↔ Forall (λ a, IsDNS1035Label a = [] ∧ nodes !! a = None) (allAliases nodes)
              ∧ NoDup (allAliases nodes))
  ∧ (ds' ≠ ds → err ds' ≠ None).
Proof. apply aliases_spec. Qed.
End aliases.

(** ** Renaming keeps the topology *)

(** What the compiler relies on of [SanitizeNodeNames]: only given names are renamed, and
    no two names collapse onto one (the documented collision is an error). *)
Definition injectiveRenames (nodes : gmap string NodeDefinition) (renames : gmap string string) : Prop :=
  (∀ n c, renames !! n = Some c → is_Some (nodes !! n))
  ∧ (∀ a b, is_Some (nodes !! a) → is_Some (nodes !! b) → renamed renames a = renamed renames b → a = b).

Lemma renameStep_fold renames (l : list (string * NodeDefinition)) :
  NoDup ((λ e, renamed renames e.1) <$> l) →
  let '(nodes, sources) := foldl (renameStep renames) (∅, ∅) l in
  (∀ c d, nodes !! c = Some d ↔ ∃ n, (n, d) ∈ l ∧ renamed renames n = c)
  ∧ (∀ c n, sources !! c = Some n ↔ ∃ d, (n, d) ∈ l ∧ renames !! n = Some c).
Proof.
  induction l as [|[m d0] l IH] using rev_ind; intros Hnd.
  { cbn. split.
    - intros c d. rewrite lookup_empty. split; [done|]. intros (n & Hn & _). by apply elem_of_nil in Hn.
    - intros c n. rewrite lookup_empty. split; [done|]. intros (d & Hd & _). by apply elem_of_nil in Hd. }
  rewrite fmap_app in Hnd. apply list.NoDup_app in Hnd as (Hnd & Hdis & _). specialize (IH Hnd).
  rewrite foldl_app. cbn [foldl]. destruct (foldl (renameStep renames) _ l) as [nodes sources].
  destruct IH as [IHn IHs].
  assert (∀ n d, (n, d) ∈ l → renamed renames n ≠ renamed renames m) as Hfresh.
  { intros n d Hin Heq. apply (Hdis (renamed renames n)); [|by rewrite Heq; left].
    by apply (list_elem_of_fmap_2 (λ e, renamed renames e.1) l (n, d)). }
  assert (∀ c d, <[renamed renames m := d0]> nodes !! c = Some d ↔
    ∃ n, (n, d) ∈ l ++ [(m, d0)] ∧ renamed renames n = c) as Hnodes.
  { intros c d. rewrite lookup_insert_Some, IHn. setoid_rewrite elem_of_app. setoid_rewrite list_elem_of_singleton.
    split.
    - intros [[<- <-]|[_ (n & Hn & <-)]]; [by exists m; split; [right|]|exists n; auto].
    - intros (n & [Hn|[= -> ->]] & <-); [right|by left]. split; [intros Heq; by eapply Hfresh|by exists n]. }
  unfold renameStep. destruct (renames !! m) as [c0|] eqn:Hm.
  - assert (renamed renames m = c0) as Hrm by (unfold renamed; by rewrite Hm). rewrite Hrm in Hnodes.
    split; [done|]. intros c n. rewrite lookup_insert_Some, IHs. setoid_rewrite elem_of_app.
    setoid_rewrite list_elem_of_singleton. split.
    + intros [[<- <-]|[_ (d & Hd & ?)]]; [by exists d0; split; [right|]|exists d; auto].
    + intros (d & [Hd|[= -> ->]] & Hc); [right|by left; split; [congruence|]]. split; [|by exists d].
      intros ->. eapply Hfresh; [exact Hd|]. unfold renamed. by rewrite Hc, Hm.
  - assert (renamed renames m = m) as Hrm by (unfold renamed; by rewrite Hm). rewrite Hrm in Hnodes.
    split; [done|]. intros c n. rewrite IHs. setoid_rewrite elem_of_app. setoid_rewrite list_elem_of_singleton.
    split; [intros (d & ? & ?); exists d; auto|]. intros (d & [Hd|[= -> ->]] & Hc); [by exists d|congruence].
Qed.

(** The primary a definition names after the renaming. *)
Lemma RenameNetworkModePrimary_primary renames def :
  ParseNetworkModeContainer (DefNetworkMode (RenameNetworkModePrimary renames def)) =
  renamed renames (ParseNetworkModeContainer (DefNetworkMode def)).
Proof.
  unfold RenameNetworkModePrimary, renamed.
  destruct (renames !! ParseNetworkModeContainer (DefNetworkMode def)); [|done].
  cbn [DefNetworkMode]. apply ParseNetworkModeContainer_prefix.
Qed.

(** A wire between nodes of a topology or the host, not both the host. *)
Definition connects (nodes : gmap string NodeDefinition) (wire : CompiledLink) : Prop :=
  (EndpointNode (CompiledA wire) = LinkHostNodeName ∨ is_Some (nodes !! EndpointNode (CompiledA wire)))
  ∧ (EndpointNode (CompiledB wire) = LinkHostNodeName ∨ is_Some (nodes !! EndpointNode (CompiledB wire)))
  ∧ ¬ (EndpointNode (CompiledA wire) = LinkHostNodeName ∧ EndpointNode (CompiledB wire) = LinkHostNodeName).

Lemma renameLinkEndpointNode_node renames e :
  EndpointNode (renameLinkEndpointNode renames e) = renamed renames (EndpointNode e)
  ∧ EndpointInterface (renameLinkEndpointNode renames e) = EndpointInterface e.
Proof. unfold renameLinkEndpointNode, renamed. by destruct (renames !! EndpointNode e). Qed.

(** A host end stays one, and no other end becomes one. *)
Lemma renamed_host (nodes : gmap string NodeDefinition) (renames : gmap string string) :
  (∀ n c, renames !! n = Some c → is_Some (nodes !! n)) →
  (∀ n c, renames !! n = Some c → c ≠ LinkHostNodeName) →
  nodes !! LinkHostNodeName = None →
  ∀ x, renamed renames x = LinkHostNodeName ↔ x = LinkHostNodeName.
Proof.
  intros Hkeys Hno Hhost x. unfold renamed. destruct (renames !! x) as [c|] eqn:Hx; [|done]. split.
  - intros ->. by apply Hno in Hx.
  - intros ->. apply Hkeys in Hx as [d Hd]. congruence.
Qed.

Section sanitized.
Context `{!FmtQuote, !RangeOrder string}.
Variables (SanitizeNodeNames : list string → result string (gmap string string))
  (IsValidLabelValue : string → list string).

Lemma recordOriginalName_payload name def :
  let d := recordOriginalName IsValidLabelValue name def in
  samePayload def d ∧ DefNetworkMode d = DefNetworkMode def.
Proof.
  unfold recordOriginalName, samePayload. destruct def. destruct (_ !! labelOriginalNodeName); [done|].
  by destruct (negb _).
Qed.

Lemma RenameNetworkModePrimary_payload renames def : samePayload def (RenameNetworkModePrimary renames def).
Proof. unfold RenameNetworkModePrimary, samePayload. destruct def. by destruct (renames !! _). Qed.

(** What the renaming produces. *)
Lemma sanitize_lookup compiled ds renames :
  SanitizeNodeNames (sortedNodeNames (CDNodes compiled)) = Ok renames →
  injectiveRenames (CDNodes compiled) renames → NodeNameSources compiled = ∅ →
  let '(ds', compiled') := sanitizeCompiledNodeNames SanitizeNodeNames IsValidLabelValue compiled ds in
  ds' = ds
  ∧ CDLinks compiled' = renameLink renames <$> CDLinks compiled
  ∧ (∀ c d, CDNodes compiled' !! c = Some d ↔
       ∃ n def, CDNodes compiled !! n = Some def ∧ renamed renames n = c
                ∧ d = RenameNetworkModePrimary renames (recordOriginalName IsValidLabelValue n def))
  ∧ (∀ c n, NodeNameSources compiled' !! c = Some n ↔
       is_Some (CDNodes compiled !! n) ∧ renames !! n = Some c).
Proof.
  intros Hs [Hkeys Hinj] Hsrc. unfold sanitizeCompiledNodeNames. rewrite Hs. cbv zeta.
  set (labelled := map_imap _ (CDNodes compiled)).
  assert (∀ n d, labelled !! n = Some d ↔ ∃ def, CDNodes compiled !! n = Some def
    ∧ d = recordOriginalName IsValidLabelValue n def) as Hlab.
  { intros n d. unfold labelled. rewrite map_lookup_imap. destruct (CDNodes compiled !! n) as [def|]; cbn.
    - split; [intros [= <-]; eauto|]. by intros (def' & [= <-] & ->).
    - split; [done|]. by intros (def & ? & _). }
  case_bool_decide as Hz.
  - apply map_size_empty_inv in Hz as ->.
    assert (∀ l, renameLink ∅ l = l) as Hid by by intros [[] [] ?].
    split_and!; [done| | |].
    + rewrite <- list_fmap_id at 1. apply list_fmap_ext. intros _ l _. by rewrite Hid.
    + cbn. intros c d. rewrite Hlab. split.
      * intros (def & Hd & ->). by exists c, def.
      * intros (n & def & Hd & <- & ->). by exists def.
    + cbn. intros c n. rewrite Hsrc. split; [by intros ?%lookup_empty_Some|].
      intros [_ ?%lookup_empty_Some]. done.
  - pose proof (renameStep_fold renames (range_list labelled)) as Hfold.
    destruct (foldl (renameStep renames) (∅, ∅) (range_list labelled)) as [nodes sources].
    destruct Hfold as [Hn Hsr].
    { change (λ e : string * NodeDefinition, renamed renames e.1)
        with (renamed renames ∘ (fst : string * NodeDefinition → string)).
      rewrite list_fmap_compose. apply NoDup_fmap_2_strong; [|apply NoDup_range_keys].
      intros a b Ha Hb. apply list_elem_of_fmap in Ha as ([a' da] & -> & Ha).
      apply list_elem_of_fmap in Hb as ([b' db] & -> & Hb). cbn [fst].
      apply elem_of_range_list, Hlab in Ha as (? & Ha & _). apply elem_of_range_list, Hlab in Hb as (? & Hb & _).
      apply Hinj; eauto. }
    split_and!; [done|done| |].
    + cbn. intros c d. rewrite lookup_fmap, fmap_Some. setoid_rewrite Hn. split.
      * intros (x & (n & (def & Hd & ->)%elem_of_range_list%Hlab & <-) & ->). by exists n, def.
      * intros (n & def & Hd & <- & ->). eexists. split; [|done]. exists n. split; [|done].
        apply elem_of_range_list, Hlab. eauto.
    + cbn. intros c n. rewrite Hsr. split.
      * intros (d & (def & Hd & _)%elem_of_range_list%Hlab & Hr). eauto.
      * intros [[def Hd] Hr]. eexists. split; [|done]. apply elem_of_range_list, Hlab. eauto.
Qed.

(** What the renaming keeps. *)
Lemma renaming_spec compiled ds renames :
  SanitizeNodeNames (sortedNodeNames (CDNodes compiled)) = Ok renames →
  injectiveRenames (CDNodes compiled) renames → NodeNameSources compiled = ∅ →
  (∀ n c, renames !! n = Some c → c ≠ LinkHostNodeName) →
  Forall (connects (CDNodes compiled)) (CDLinks compiled) → CDNodes compiled !! LinkHostNodeName = None →
  let '(ds', compiled') := sanitizeCompiledNodeNames SanitizeNodeNames IsValidLabelValue compiled ds in
  ds' = ds
  ∧ (∀ c, is_Some (CDNodes compiled' !! c) ↔ ∃ n, is_Some (CDNodes compiled !! n) ∧ renamed renames n = c)
  ∧ (∀ n def, CDNodes compiled !! n = Some def →
       SourceNodeName compiled' (renamed renames n) = n
       ∧ ∃ def', CDNodes compiled' !! renamed renames n = Some def' ∧ samePayload def def'
           ∧ ParseNetworkModeContainer (DefNetworkMode def') =
             renamed renames (ParseNetworkModeContainer (DefNetworkMode def)))
  ∧ Forall2 (λ l l', connects (CDNodes compiled') l' ∧ CompiledMTU l' = CompiledMTU l
       ∧ EndpointNode (CompiledA l') = renamed renames (EndpointNode (CompiledA l))
       ∧ EndpointNode (CompiledB l') = renamed renames (EndpointNode (CompiledB l))
       ∧ EndpointInterface (CompiledA l') = EndpointInterface (CompiledA l)
       ∧ EndpointInterface (CompiledB l') = EndpointInterface (CompiledB l)
       ∧ (EndpointNode (CompiledA l') = LinkHostNodeName ↔ EndpointNode (CompiledA l) = LinkHostNodeName)
       ∧ (EndpointNode (CompiledB l') = LinkHostNodeName ↔ EndpointNode (CompiledB l) = LinkHostNodeName))
      (CDLinks compiled) (CDLinks compiled').
Proof.
  intros Hs Hren Hsrc Hnohost Hconn Hhost.
  pose proof (sanitize_lookup compiled ds renames Hs Hren Hsrc) as Hlook.
  destruct (sanitizeCompiledNodeNames _ _ _ _) as [ds' compiled'].
  destruct Hlook as (-> & Hlinks & Hnodes & Hsources). destruct Hren as [Hkeys Hinj].
  assert (∀ c, is_Some (CDNodes compiled' !! c) ↔ ∃ n, is_Some (CDNodes compiled !! n) ∧ renamed renames n = c)
    as Hdom.
  { intros c. split.
    - intros [d (n & def & Hn & Hc & _)%Hnodes]. eauto.
    - intros (n & [def Hn] & Hc). eexists. apply Hnodes. by exists n, def. }
  split_and!; [done|done| |].
  - intros n def Hn. split.
    + unfold SourceNodeName. destruct (NodeNameSources compiled' !! renamed renames n) as [m|] eqn:Hm.
      * apply Hsources in Hm as [Hm Hr]. apply Hinj; [done|eauto|]. unfold renamed at 1. by rewrite Hr.
      * unfold renamed in *. destruct (renames !! n) as [c|] eqn:Hr; [|done]. exfalso.
        assert (NodeNameSources compiled' !! c = Some n) by (apply Hsources; eauto). congruence.
    + eexists. split; [apply Hnodes; by exists n, def|].
      destruct (recordOriginalName_payload n def) as [Hp Hm]. split.
      * pose proof (RenameNetworkModePrimary_payload renames (recordOriginalName IsValidLabelValue n def)) as Hp'.
        by eapply samePayload_trans.
      * by rewrite RenameNetworkModePrimary_primary, Hm.
  - rewrite Hlinks, Forall2_fmap_r. apply Forall_Forall2_diag. eapply list.Forall_impl; [exact Hconn|].
    intros l (HA & HB & Hboth). unfold compose, renameLink.
    destruct (renameLinkEndpointNode_node renames (CompiledA l)) as [EA IA].
    destruct (renameLinkEndpointNode_node renames (CompiledB l)) as [EB IB].
    pose proof (renamed_host (CDNodes compiled) renames Hkeys Hnohost Hhost) as Hrh.
    assert (∀ x, x = LinkHostNodeName ∨ is_Some (CDNodes compiled !! x) →
      renamed renames x = LinkHostNodeName ∨ is_Some (CDNodes compiled' !! renamed renames x)) as Hkeep.
    { intros x [Hx|Hx]; [left; by apply Hrh|right]. apply Hdom. eauto. }
    unfold connects. cbn [CompiledA CompiledB CompiledMTU]. rewrite EA, EB, IA, IB.
    split_and!; try done; [by apply Hkeep|by apply Hkeep|]. rewrite !Hrh. done.
Qed.

(** Renaming the nodes Kubernetes cannot carry keeps the topology.  When the name
    sanitizer succeeds (renaming only given names, injectively, and none to the reserved
    name of the host), the renamed topology has exactly the nodes it had, each with its
    payload and with its network-mode pointing at the renamed primary; every renamed name
    leads back to the name the definition uses, and every other name to itself; wires that
    connected nodes of the topology still do, with the same interfaces and MTU, a host end
    staying a host end; and no diagnostic is added. *)
Theorem renaming_keeps_topology compiled ds renames :
  SanitizeNodeNames (sortedNodeNames (CDNodes compiled)) = Ok renames →
  injectiveRenames (CDNodes compiled) renames → NodeNameSources compiled = ∅ →
  (∀ n c, renames !! n = Some c → c ≠ LinkHostNodeName) →
  Forall (connects (CDNodes compiled)) (CDLinks compiled) → CDNodes compiled !! LinkHostNodeName = None →
  let '(ds', compiled') := sanitizeCompiledNodeNames SanitizeNodeNames IsValidLabelValue compiled ds in
  ds' = ds
  ∧ (∀ c, is_Some (CDNodes compiled' !! c) ↔ ∃ n, is_Some (CDNodes compiled !! n) ∧ renamed renames n = c)
  ∧ (∀ n def, CDNodes compiled !! n = Some def →
       SourceNodeName compiled' (renamed renames n) = n
       ∧ ∃ def', CDNodes compiled' !! renamed renames n = Some def' ∧ samePayload def def'
           ∧ ParseNetworkModeContainer (DefNetworkMode def') =
             renamed renames (ParseNetworkModeContainer (DefNetworkMode def)))
  ∧ Forall2 (λ l l', connects (CDNodes compiled') l' ∧ CompiledMTU l' = CompiledMTU l
       ∧ EndpointNode (CompiledA l') = renamed renames (EndpointNode (CompiledA l))
       ∧ EndpointNode (CompiledB l') = renamed renames (EndpointNode (CompiledB l))
       ∧ EndpointInterface (CompiledA l') = EndpointInterface (CompiledA l)
       ∧ EndpointInterface (CompiledB l') = EndpointInterface (CompiledB l)
       ∧ (EndpointNode (CompiledA l') = LinkHostNodeName ↔ EndpointNode (CompiledA l) = LinkHostNodeName)
       ∧ (EndpointNode (CompiledB l') = LinkHostNodeName ↔ EndpointNode (CompiledB l) = LinkHostNodeName))
      (CDLinks compiled) (CDLinks compiled').
Proof. apply renaming_spec. Qed.
End sanitized.

(** ** A renamed node can become the host *)

#[local] Instance quoting_nodes : FmtQuote := quoted.
#[local] Instance nodes_range : RangeOrder string := canonical_range.

(** A sanitizer that lower-cases, as the names Kubernetes can carry require. *)
Definition lowercasing (names : list string) : result string (gmap string string) :=
  Ok (list_to_map ((λ n, (n, ToLower n)) <$> filter (λ n, ToLower n ≠ n) names)).

(** The reserved name is not excluded from the renaming: a node the author called [Host]
    is renamed to [host], and its wire, which connected two nodes, becomes a link to the
    worker host. *)
Theorem renamed_node_becomes_host :
  let compiled := MkCompiledDefinition TopologyKindContainerlab
    {["Host" := emptyNodeDefinition; "srl1" := emptyNodeDefinition]} ∅
    [MkCompiledLink (MkEndpoint "Host" "eth1") (MkEndpoint "srl1" "e1-1") 0] None ∅ in
  let '(ds, compiled') := sanitizeCompiledNodeNames lowercasing (λ _, []) compiled [] in
  ds = [] ∧ is_Some (CDNodes compiled' !! LinkHostNodeName)
  ∧ (EndpointNode ∘ CompiledA <$> CDLinks compiled') = [LinkHostNodeName].
Proof. vm_compute. split; [done|]. split; [by eexists|done]. Qed.

Lemma renaming_keeps_topology_witness :
  let nodes : gmap string NodeDefinition :=
    {["R1" := emptyNodeDefinition;
      "con" := emptyNodeDefinition <| DefNetworkMode := "container:R1" |>]} in
  let compiled := MkCompiledDefinition TopologyKindContainerlab nodes ∅
    [MkCompiledLink (MkEndpoint "R1" "eth1") (MkEndpoint "host" "veth1") 9000] None ∅ in
  let r := sanitizeCompiledNodeNames lowercasing (λ _, []) compiled [] in
  SourceNodeName r.2 "r1" = "R1"
  ∧ (DefNetworkMode <$> (CDNodes r.2 !! "con")) = Some "container:r1".
Proof.
  cbv zeta.
  pose proof (renaming_keeps_topology lowercasing (λ _, [])
    (MkCompiledDefinition TopologyKindContainerlab {["R1" := emptyNodeDefinition;
      "con" := emptyNodeDefinition <| DefNetworkMode := "container:R1" |>]} ∅
      [MkCompiledLink (MkEndpoint "R1" "eth1") (MkEndpoint "host" "veth1") 9000] None ∅) [] {["R1" := "r1"]}) as H.
  cbn [CDNodes CDLinks NodeNameSources] in H.
  destruct (sanitizeCompiledNodeNames _ _ _ _) as [ds' compiled'] eqn:E.
  destruct H as (_ & _ & Hn & _).
  - vm_compute. reflexivity.
  - split.
    + intros n c [<- <-]%lookup_singleton_Some. by eexists.
    + intros a b [da Ha] [db Hb]. rewrite lookup_insert_Some, lookup_singleton_Some in Ha, Hb.
      destruct Ha as [[<- _]|[_ [<- _]]], Hb as [[<- _]|[_ [<- _]]]; vm_compute; congruence.
  - done.
  - intros n c [<- <-]%lookup_singleton_Some. done.
  - apply list.Forall_cons. split; [|constructor].
    split_and!; [right; by eexists|by left|by intros [? _]].
  - done.
  - split; [exact (proj1 (Hn "R1" emptyNodeDefinition eq_refl))|].
    vm_compute in E. injection E as <- <-. vm_compute. reflexivity.
Defined.
