(* ===== verification/CompilerDocument.v ===== *)
(** * Reading the definition

    Models how [compiler/compilecontainerlab.go] reads a containerlab definition before
    the nodes are flattened: the strict parse and its unknown fields, the source lines of
    the declared fields, the fields the vocabulary rejects or ignores.  yaml.v3's decoder
    and parser are parameters. *)

From S2P Require Import Prelude Api GoStrings CompilerDiagnostics CompilerDefinition CompilerPorts CompilerLinks.
Local Open Scope Z_scope.

(** ** Data *)

(** A declared block can be null: its entry is [None]. *)
Record fileTopology := MkFileTopology {
  FileDefaults : option NodeDefinition;
  FileKinds : gmap string (option NodeDefinition);
  FileNodes : gmap string (option NodeDefinition);
  FileGroups : gmap string (option NodeDefinition);
  FileLinks : list linkDefinition
}.

(** Of the management networks only the number is read, the one network is copied. *)
Record definitionFile := MkDefinitionFile {
  FileMgmt : list configValue;
  FileTopology : option fileTopology
}.

Definition topologyPath : string := "topology".
Definition defaultsBlock : string := "defaults".
Definition unsupportedFieldCode : string := "unsupported-field".
Definition kindSpecificWrapperKey : string := "kind-specific-config".

(** The lines of the fields of each block, by the block's identity. *)
Notation blockLines := (gmap string (gmap string Z)).

(** [fieldLines[block][field]], zero where either is missing. *)
Definition fieldLine (fieldLines : blockLines) (block field : string) : Z :=
  default 0 (fieldLines !! block ≫= (.!! field)).

(** ** The strict parse *)

(** What [Decode] of yaml.v3 returns: no error, a [TypeError] with its entries, or another
    error. *)
Inductive decodeOutcome :=
| decodeOk
| decodeTypeError (entries : list string)
| decodeError (text : string).

Definition unknownFieldStep (unknownFields : list string) (entry : string) : result string (list string) :=
  if negb (Contains "not found in type" entry) then Err ("parse error: " +:+ entry)
  else Ok (unknownFields ++ [entry]).

Definition loadDefinitionFile (decoded : definitionFile * decodeOutcome) :
    result string (definitionFile * list string) :=
  let '(file, outcome) := decoded in
  match outcome with
  | decodeOk => Ok (file, [])
  | decodeError text => Err text
  | decodeTypeError entries =>
      let? unknownFields := rfold unknownFieldStep [] entries in Ok (file, unknownFields)
  end.

(** ** Rejected fields *)

(** [None] is [("", false)]. *)
Definition rejectedContainerlabFieldReason (field : string) : option string :=
  if bool_decide (field = "runtime") then
    Some "container runtime selection is Docker-only; direct device Pods always use the cluster's container runtime"
  else if bool_decide (field = "auto-remove") then
    Some "Docker auto-remove has no direct-Pod equivalent; Kubernetes owns container lifecycle"
  else if bool_decide (field = "pid-mode") then
    Some "Docker PID-namespace sharing has no direct-Pod mapping"
  else if bool_decide (field = "cgroupns-mode") then
    Some "Docker cgroup-namespace selection has no direct-Pod mapping"
  else if bool_decide (field = "cpu-set") then Some "CPU pinning has no portable Pod mapping"
  else if bool_decide (field = "stages") then
    Some "containerlab deployment stages coordinate multi-node boot ordering the direct runtime does not implement"
  else if bool_decide (field = "credentials") then
    Some "node credentials are not represented; imported kind default credentials still apply"
  else None.

(** The longest prefix of characters with a property, and what follows it. *)
Fixpoint span (p : Ascii.ascii → bool) (s : string) : string * string :=
  match s with
  | EmptyString => ("", "")
  | String a rest =>
      if p a then let '(taken, remaining) := span p rest in (String a taken, remaining) else ("", s)
  end.

(** The submatches of [^line (\d+): field ([^ ]+) not found in type (.+)$]: each group ends
    where the literal that follows it must begin. *)
Definition unknownFieldPattern (message : string) : option (string * string * string) :=
  match trim_prefix "line " message with
  | None => None
  | Some rest =>
      let '(line, rest) := span isDigit rest in
      match trim_prefix ": field " rest with
      | None => None
      | Some rest =>
          let '(field, rest) := span (λ a, negb (Z.eqb (code a) 32)) rest in
          match trim_prefix " not found in type " rest with
          | None => None
          | Some typeName =>
              if bool_decide (line = "") || bool_decide (field = "") || bool_decide (typeName = "")
                 || ContainsChar typeName (char 10)
              then None else Some (line, field, typeName)
          end
      end
  end.

Definition unknownFieldPath (typeName : string) : string :=
  if bool_decide (typeName = "compiler.definitionFile") then ""
  else if bool_decide (typeName = "compiler.fileTopology") then topologyPath
  else if bool_decide (typeName = "compiler.linkDefinition") || bool_decide (typeName = "compiler.linkConfig")
  then topologyPath +:+ ".links"
  else "".

(** The value [strconv.Atoi] returns for digits, with or without an error: out of range it
    is the largest [int]. *)
Definition AtoiValue (digits : string) : Z := default (2 ^ 63 - 1) (Atoi digits).

Section document.
Context `{!FmtQuote, !RangeOrder string}.

Definition rejectedFieldMessage (field reason : string) : string :=
  "field " +:+ fmt_q field +:+ " is rejected: " +:+ reason.

Definition diagnosticFromUnknownField (message : string) : Diagnostic :=
  match unknownFieldPattern message with
  | None => MkDiagnostic unsupportedFieldCode "" 0 message false
  | Some (line, field, typeName) =>
      MkDiagnostic unsupportedFieldCode (unknownFieldPath typeName) (AtoiValue line)
        match rejectedContainerlabFieldReason field with
        | Some reason => rejectedFieldMessage field reason
        | None => "field " +:+ fmt_q field +:+ " is not a known containerlab field"
        end false
  end.

Definition rejectedFieldStep (fields : gmap string Z) (diagnostics : compileDiagnostics) (key : string) :
    compileDiagnostics :=
  match rejectedContainerlabFieldReason key with
  | None => diagnostics
  | Some reason =>
      add diagnostics (MkDiagnostic unsupportedFieldCode key (default 0 (fields !! key))
        (rejectedFieldMessage key reason) false)
  end.

Definition sortedVocabularyBlocks (fieldLines : blockLines) : list string := sorted_keys fieldLines.

Definition validateRejectedNodeFields (fieldLines : blockLines) (diagnostics : compileDiagnostics) :
    compileDiagnostics :=
  foldl (λ diagnostics block,
           let fields := default ∅ (fieldLines !! block) in
           foldl (rejectedFieldStep fields) diagnostics (sorted_keys fields))
        diagnostics (sortedVocabularyBlocks fieldLines).

(** ** Generic fields inside a kind's configuration *)

(** [None] is nil: not a mapping with string keys. *)
Fixpoint anyMapEntries (entries : list (option string * configValue)) (acc : gmap string configValue) :
    option (gmap string configValue) :=
  match entries with
  | [] => Some acc
  | (None, _) :: _ => None
  | (Some key, value) :: entries => anyMapEntries entries (<[key := value]> acc)
  end.

Definition kindSpecificWrapperEntries (value : configValue) : option (gmap string configValue) :=
  match value with
  | CVStringMap wrapper => Some wrapper
  | CVAnyMap wrapper => anyMapEntries wrapper ∅
  | CVOther _ => None
  end.

Definition absorbedGenericFieldDiagnostic (key : string) (line : Z) : Diagnostic :=
  MkDiagnostic unsupportedFieldCode key line
    match rejectedContainerlabFieldReason key with
    | Some reason => rejectedFieldMessage key reason
    | None => "field " +:+ key +:+ " is not supported by clabernetes"
    end false.

(** The field names containerlab's node definition declares: [importedNodeVocabulary]
    collects them from the struct tags by reflection. *)
Variable vocabulary : gset string.

Definition absorbedKeyStep (fieldLines : blockLines) (from : string) (diagnostics : compileDiagnostics)
    (key : string) : compileDiagnostics :=
  if negb (bool_decide (key ∈ vocabulary)) then diagnostics
  else add diagnostics (absorbedGenericFieldDiagnostic key (fieldLine fieldLines from key)).

Definition validateAbsorbedVocabularyDefinition (fieldLines : blockLines) (from : string)
    (definition : NodeDefinition) (diagnostics : compileDiagnostics) : compileDiagnostics :=
  foldl (λ diagnostics key,
           if bool_decide (key = kindSpecificWrapperKey) then
             match (DefKindSpecificConfig definition !! key) ≫= kindSpecificWrapperEntries with
             | None => diagnostics
             | Some wrapper => foldl (absorbedKeyStep fieldLines from) diagnostics (range_list wrapper).*1
             end
           else absorbedKeyStep fieldLines from diagnostics key)
        diagnostics (sorted_keys (DefKindSpecificConfig definition)).

Definition singleDefinition (definition : option NodeDefinition) : list NodeDefinition :=
  match definition with None => [] | Some definition => [definition] end.

(** One section's blocks, in the order of their names. *)
Definition sectionBlocks (prefix : string) (blocks : gmap string (option NodeDefinition)) :
    list (string * list NodeDefinition) :=
  (λ name, (prefix +:+ name, singleDefinition (mjoin (blocks !! name)))) <$> sorted_keys blocks.

Definition absorbedVocabularyBlocks (topology : fileTopology) : list (string * list NodeDefinition) :=
  [(defaultsBlock, singleDefinition (FileDefaults topology))]
  ++ sectionBlocks "kinds." (FileKinds topology) ++ sectionBlocks "groups." (FileGroups topology)
  ++ sectionBlocks "nodes." (FileNodes topology).

Definition validateAbsorbedNodeVocabulary (topology : option fileTopology) (fieldLines : blockLines)
    (diagnostics : compileDiagnostics) : compileDiagnostics :=
  match topology with
  | None => diagnostics
  | Some topology =>
      foldl (λ diagnostics block,
               foldl (λ diagnostics definition,
                        validateAbsorbedVocabularyDefinition fieldLines block.1 definition diagnostics)
                     diagnostics block.2)
            diagnostics (absorbedVocabularyBlocks topology)
  end.
End document.

(** ** Field lines *)

Definition childFieldLines (mapping : yamlNode) : gmap string Z :=
  foldl (λ lines pair, <[YamlValue pair.1 := YamlLine pair.1]> lines) ∅ (yamlPairs (YamlContent mapping)).

(** The named blocks of one section. *)
Definition sectionFieldLines (prefix : string) (section : yamlNode) (lines : blockLines) : blockLines :=
  foldl (λ lines pair,
           if negb (bool_decide (YamlKind pair.2 = MappingNode)) then lines
           else <[prefix +:+ "." +:+ YamlValue pair.1 := childFieldLines pair.2]> lines)
        lines (yamlPairs (YamlContent section)).

Definition mappingFieldLines (topology : yamlNode) : blockLines :=
  foldl (λ lines pair,
           let '(key, value) := pair in
           if bool_decide (YamlValue key = defaultsBlock) then
             (if bool_decide (YamlKind value = MappingNode) then <["defaults" := childFieldLines value]> lines
              else lines)
           else if bool_decide (YamlValue key ∈ ["kinds"; "groups"; "nodes"]) then
             (if negb (bool_decide (YamlKind value = MappingNode)) then lines
              else sectionFieldLines (YamlValue key) value lines)
           else lines)
        ∅ (yamlPairs (YamlContent topology)).

(** The root mapping of a document, if it has one. *)
Definition rootMapping (document : yamlNode) : option yamlNode :=
  match YamlContent document with
  | root :: _ => if bool_decide (YamlKind root = MappingNode) then Some root else None
  | [] => None
  end.

(** The loop to the first [topology] key. *)
Fixpoint topologyFieldLines (pairs : list (yamlNode * yamlNode)) : blockLines :=
  match pairs with
  | [] => ∅
  | (key, topology) :: pairs =>
      if negb (bool_decide (YamlValue key = topologyPath)) then topologyFieldLines pairs
      else if negb (bool_decide (YamlKind topology = MappingNode)) then ∅
      else mappingFieldLines topology
  end.

(** [definitionFieldLines] after [Unmarshal]. *)
Definition definitionFieldLines (document : yamlNode) : blockLines :=
  match rootMapping document with
  | None => ∅
  | Some root => topologyFieldLines (yamlPairs (YamlContent root))
  end.

(** A sequence of one mapping stands for the mapping. *)
Definition unwrapSingle (value : yamlNode) : yamlNode :=
  match YamlContent value with
  | [element] =>
      if bool_decide (YamlKind value = SequenceNode) && bool_decide (YamlKind element = MappingNode)
      then element else value
  | _ => value
  end.

Fixpoint firstMappingFieldLines (fieldName : string) (pairs : list (yamlNode * yamlNode)) : gmap string Z :=
  match pairs with
  | [] => ∅
  | (key, value) :: pairs =>
      if negb (bool_decide (YamlValue key = fieldName)) then firstMappingFieldLines fieldName pairs
      else
        let value := unwrapSingle value in
        if negb (bool_decide (YamlKind value = MappingNode)) then firstMappingFieldLines fieldName pairs
        else childFieldLines value
  end.

(** [topLevelMappingFieldLines] after [Unmarshal]. *)
Definition topLevelMappingFieldLines (document : yamlNode) (fieldName : string) : gmap string Z :=
  match rootMapping document with
  | None => ∅
  | Some root => firstMappingFieldLines fieldName (yamlPairs (YamlContent root))
  end.

(** ** Ignored management fields *)

Definition managementFields : list (string * string * string) :=
  [("network", "mgmt.network", "container runtime management network names are accepted and ignored");
   ("bridge", "mgmt.bridge", "container runtime management bridges are accepted and ignored");
   ("mtu", "mgmt.mtu", "Docker management-network MTU is accepted and ignored");
   ("external-access", "mgmt.external-access",
    "Docker management-network external access is accepted and ignored; exposure is governed by Kubernetes Services");
   ("skip-when-unused", "mgmt.skip-when-unused",
    "conditional container runtime network creation is accepted and ignored");
   ("driver-opts", "mgmt.driver-opts", "container runtime network driver options are accepted and ignored");
   ("driver", "mgmt.driver",
    "management network drivers are a container runtime concept; the c9s management mesh has no driver");
   ("ipam", "mgmt.ipam",
    "container runtime IPAM providers are accepted and ignored; c9s allocates management addresses itself");
   ("macvlan-parent", "mgmt.macvlan-parent",
    "macvlan management networks are a container runtime concept and are accepted and ignored");
   ("macvlan-mode", "mgmt.macvlan-mode",
    "macvlan management networks are a container runtime concept and are accepted and ignored");
   ("macvlan-aux", "mgmt.macvlan-aux",
    "macvlan management networks are a container runtime concept and are accepted and ignored");
   ("tailscale", "mgmt.tailscale",
    "management network tailscale integration is a container runtime capability and is accepted and ignored")].

Definition validateManagementPolicy (fieldLines : gmap string Z) (diagnostics : compileDiagnostics) :
    compileDiagnostics :=
  foldl (λ diagnostics field,
           let '(name, path, message) := field in
           match fieldLines !! name with
           | None => diagnostics
           | Some line => add diagnostics (MkDiagnostic "ignored-management-field" path line message true)
           end)
        diagnostics managementFields.
