(* ===== verification/CompilerFlatten.v ===== *)
(** * Flattening a node

    Models how [compiler/compilecontainerlab.go] flattens the inheritance of a node into one
    self-contained definition ([flattenNodeDefinition] and what it calls).  The inheritance
    rules themselves are containerlab's: the getters of its [Topology] are a parameter, the
    class [ContainerlabTopology]. *)

From S2P Require Import Prelude Api GoStrings CompilerDiagnostics CompilerDefinition CompilerPorts CompilerLinks CompilerDocument.
Local Open Scope Z_scope.

(** ** The imported topology *)

(** [clabtypes.Topology], as [importedTopology] builds it. *)
Record clabTopology := MkClabTopology {
  ClabDefaults : NodeDefinition;
  ClabKinds : gmap string (option NodeDefinition);
  ClabNodes : gmap string (option NodeDefinition);
  ClabGroups : gmap string (option NodeDefinition)
}.

Definition importedTopology (topology : fileTopology) : clabTopology :=
  MkClabTopology (default emptyNodeDefinition (FileDefaults topology)) (FileKinds topology)
    (FileNodes topology) (FileGroups topology).

(** An entry of [GetNodeKindSpecificConfig]: a key of the kind's own configuration with the
    block that declared it. *)
Record kindConfigEntry := MkKindConfigEntry {
  EntryKey : string;
  EntryValue : configValue;
  EntryFrom : string
}.

(** containerlab's getters: the effective value of each field of a node. *)
Class ContainerlabTopology : Type := {
  GetNodeKind : clabTopology → string → string;
  GetNodeGroup : clabTopology → string → string;
  GetNodeType : clabTopology → string → string;
  GetNodeImage : clabTopology → string → string;
  GetNodeLicense : clabTopology → string → string;
  GetNodeStartupConfig : clabTopology → string → string;
  GetNodeStartupDelay : clabTopology → string → Z;
  GetRestartPolicy : clabTopology → string → string;
  GetNodeEntrypoint : clabTopology → string → string;
  GetNodeCmd : clabTopology → string → string;
  GetNodeExec : clabTopology → string → list string;
  GetNodeUser : clabTopology → string → string;
  GetNodeDevices : clabTopology → string → list string;
  GetNodeCapAdd : clabTopology → string → list string;
  GetNodeSecurityOpts : clabTopology → string → list string;
  GetNodeTmpfs : clabTopology → string → gmap string string;
  GetNodeShmSize : clabTopology → string → string;
  GetNodeCPU : clabTopology → string → Z;
  GetNodeMemory : clabTopology → string → string;
  GetNodeLinkApplyMode : clabTopology → string → string;
  GetNodeNetworkMode : clabTopology → string → string;
  GetNodeEnv : clabTopology → string → gmap string string;
  GetNodeEnvFiles : clabTopology → string → list string;
  GetSysCtl : clabTopology → string → gmap string string;
  GetNodeLabels : clabTopology → string → gmap string string;
  GetNodeBinds : clabTopology → string → result string (list string);
  GetNodeConfigDispatcher : clabTopology → string → option configValue;
  GetNodeDns : clabTopology → string → option configValue;
  GetHealthCheckConfig : clabTopology → string → option configValue;
  GetCertificateConfig : clabTopology → string → CertificateConfig;
  GetNodeMgmtNet : clabTopology → string → string;
  GetNodeKindSpecificConfig : clabTopology → string → list kindConfigEntry;
  GetGroup : clabTopology → string → option NodeDefinition;
  GetKind : clabTopology → string → option NodeDefinition;
  GetDefaults : clabTopology → NodeDefinition
}.

Inductive flattenError :=
| errBinds (text : string)
| errInvalidKindSpecificWrapper (nodeName : string).

Section flatten.
Context `{!FmtQuote, !RangeOrder string, !ContainerlabTopology}.

(** ** Layers *)

(** The blocks a node inherits from, most specific first. *)
Definition importedNodeLayers (topology : clabTopology) (nodeName : string) : list NodeDefinition :=
  let layers := singleDefinition (mjoin (ClabNodes topology !! nodeName)) in
  let layers := layers ++ singleDefinition (GetGroup topology (GetNodeGroup topology nodeName)) in
  let layers := layers ++ singleDefinition (GetKind topology (GetNodeKind topology nodeName)) in
  layers ++ [GetDefaults topology].

Fixpoint firstImportedPointer {T} (layers : list NodeDefinition) (get : NodeDefinition → option T) : option T :=
  match layers with
  | [] => None
  | layer :: layers =>
      match get layer with Some value => Some value | None => firstImportedPointer layers get end
  end.

Fixpoint firstImportedString (layers : list NodeDefinition) (get : NodeDefinition → string) : string :=
  match layers with
  | [] => ""
  | layer :: layers =>
      if negb (bool_decide (get layer = "")) then get layer else firstImportedString layers get
  end.

Fixpoint firstPorts (layers : list NodeDefinition) : list string :=
  match layers with
  | [] => []
  | layer :: layers =>
      if negb (bool_decide (length (DefPorts layer) = 0%nat)) then DefPorts layer else firstPorts layers
  end.

Definition importedNodePorts (topology : clabTopology) (nodeName : string) : list string :=
  firstPorts (importedNodeLayers topology nodeName).

(** ** Kind-specific configuration *)

Fixpoint firstSourceBlock (blocks : list (string * option NodeDefinition)) (mgmtNet : string) : option string :=
  match blocks with
  | [] => None
  | (from, def) :: blocks =>
      match def with
      | Some def => if bool_decide (DefMgmtNet def = mgmtNet) then Some from else firstSourceBlock blocks mgmtNet
      | None => firstSourceBlock blocks mgmtNet
      end
  end.

Definition mgmtNetSourceBlock (topology : clabTopology) (nodeName mgmtNet : string) : string :=
  let group := GetNodeGroup topology nodeName in
  let kind := GetNodeKind topology nodeName in
  default ("nodes." +:+ nodeName)
    (firstSourceBlock
       [("nodes." +:+ nodeName, mjoin (ClabNodes topology !! nodeName));
        ("groups." +:+ group, GetGroup topology group);
        ("kinds." +:+ kind, GetKind topology kind);
        (defaultsBlock, Some (GetDefaults topology))] mgmtNet).

(** The state of the carrying loop: the diagnostics and the configuration carried so far. *)
Notation carried := (compileDiagnostics * gmap string configValue)%type.

Definition duplicateKindConfig (nodeName key from : string) (line : Z) : Diagnostic :=
  MkDiagnostic "duplicate-kind-config" ("topology." +:+ from +:+ "." +:+ key) line
    ("node " +:+ fmt_q nodeName +:+ " declares kind config key " +:+ fmt_q key +:+ " more than once") false.

Definition carryKindSpecificValue (nodeName : string) (fieldLines : blockLines) (from : string)
    (acc : carried) (entry : string * configValue) : carried :=
  let '(diagnostics, config) := acc in
  let '(key, value) := entry in
  match config !! key with
  | Some _ => (add diagnostics (duplicateKindConfig nodeName key from (fieldLine fieldLines from key)), config)
  | None => (diagnostics, <[key := value]> config)
  end.

Definition carryEntry (nodeName : string) (fieldLines : blockLines) (acc : carried) (entry : kindConfigEntry) :
    result flattenError carried :=
  if bool_decide (EntryKey entry = kindSpecificWrapperKey) then
    match kindSpecificWrapperEntries (EntryValue entry) with
    | None => Err (errInvalidKindSpecificWrapper nodeName)
    | Some wrapper =>
        Ok (foldl (carryKindSpecificValue nodeName fieldLines (EntryFrom entry)) acc (range_list wrapper))
    end
  else Ok (carryKindSpecificValue nodeName fieldLines (EntryFrom entry) acc (EntryKey entry, EntryValue entry)).

Definition collectKindSpecificConfig (topology : clabTopology) (nodeName : string) (fieldLines : blockLines)
    (diagnostics : compileDiagnostics) (flattened : NodeDefinition) :
    result flattenError (compileDiagnostics * NodeDefinition) :=
  let mgmtNet := GetNodeMgmtNet topology nodeName in
  let '(diagnostics, flattened) :=
    if bool_decide (mgmtNet = "") then (diagnostics, flattened)
    else
      let from := mgmtNetSourceBlock topology nodeName mgmtNet in
      (add diagnostics (MkDiagnostic "ignored-node-field" ("topology." +:+ from +:+ ".mgmt-net")
         (fieldLine fieldLines from "mgmt-net")
         ("mgmt-net " +:+ fmt_q mgmtNet
          +:+ " is accepted and ignored; c9s realizes a single management network per namespace") true),
       flattened <| DefMgmtNet := mgmtNet |>) in
  let? carried :=
    rfold (carryEntry nodeName fieldLines) (diagnostics, DefKindSpecificConfig flattened)
      (GetNodeKindSpecificConfig topology nodeName) in
  Ok (carried.1, flattened <| DefKindSpecificConfig := carried.2 |>).

(** ** The flattened definition *)

Definition flattenNodeContracts (topology : clabTopology) (layers : list NodeDefinition) (nodeName : string)
    (flattened : NodeDefinition) : NodeDefinition :=
  let flattened :=
    match firstImportedPointer layers DefHealthCheck with
    | None => flattened
    | Some _ => flattened <| DefHealthCheck := GetHealthCheckConfig topology nodeName |>
    end in
  match firstImportedPointer layers DefCertificate with
  | None => flattened
  | Some _ =>
      let certificate := GetCertificateConfig topology nodeName in
      flattened <| DefCertificate :=
        Some (MkCertificateConfig (CertIssue certificate) (CertKeySize certificate) (CertSANs certificate)
                (if Z.ltb 0 (CertValidityDuration certificate) then CertValidityDuration certificate else 0)) |>
  end.

(** The values the getters give. *)
Definition effectiveValues (topology : clabTopology) (nodeName : string) : NodeDefinition :=
  emptyNodeDefinition
    <| DefKind := GetNodeKind topology nodeName |>
    <| DefGroup := GetNodeGroup topology nodeName |>
    <| DefType := GetNodeType topology nodeName |>
    <| DefImage := GetNodeImage topology nodeName |>
    <| DefLicense := GetNodeLicense topology nodeName |>
    <| DefStartupConfig := GetNodeStartupConfig topology nodeName |>
    <| DefStartupDelay := GetNodeStartupDelay topology nodeName |>
    <| DefRestartPolicy := GetRestartPolicy topology nodeName |>
    <| DefEntrypoint := GetNodeEntrypoint topology nodeName |>
    <| DefCmd := GetNodeCmd topology nodeName |>
    <| DefExec := GetNodeExec topology nodeName |>
    <| DefUser := GetNodeUser topology nodeName |>
    <| DefDevices := GetNodeDevices topology nodeName |>
    <| DefCapAdd := GetNodeCapAdd topology nodeName |>
    <| DefSecurityOpts := GetNodeSecurityOpts topology nodeName |>
    <| DefTmpfs := GetNodeTmpfs topology nodeName |>
    <| DefShmSize := GetNodeShmSize topology nodeName |>
    <| DefCPU := GetNodeCPU topology nodeName |>
    <| DefMemory := GetNodeMemory topology nodeName |>
    <| DefLinkApplyMode := GetNodeLinkApplyMode topology nodeName |>
    <| DefPorts := importedNodePorts topology nodeName |>
    <| DefNetworkMode := GetNodeNetworkMode topology nodeName |>
    <| DefEnv := GetNodeEnv topology nodeName |>
    <| DefEnvFiles := GetNodeEnvFiles topology nodeName |>
    <| DefSysctls := GetSysCtl topology nodeName |>
    <| DefLabels := GetNodeLabels topology nodeName |>.

Definition flattenNodeDefinition (topology : clabTopology) (nodeName : string) (fieldLines : blockLines)
    (diagnostics : compileDiagnostics) : result flattenError (compileDiagnostics * NodeDefinition) :=
  let layers := importedNodeLayers topology nodeName in
  let flattened :=
    effectiveValues topology nodeName
      <| DefImagePullPolicy := firstImportedString layers DefImagePullPolicy |>
      <| DefEnforceStartupConfig := firstImportedPointer layers DefEnforceStartupConfig |>
      <| DefSuppressStartupConfig := firstImportedPointer layers DefSuppressStartupConfig |>
      <| DefPrivileged := firstImportedPointer layers DefPrivileged |> in
  match GetNodeBinds topology nodeName with
  | Err text => Err (errBinds text)
  | Ok binds =>
      let flattened := flattened <| DefBinds := binds |> in
      let flattened :=
        match mjoin (ClabNodes topology !! nodeName) with
        | None => flattened
        | Some sourceNode =>
            flattened <| DefMgmtIPv4 := DefMgmtIPv4 sourceNode |> <| DefMgmtIPv6 := DefMgmtIPv6 sourceNode |>
              <| DefAliases := DefAliases sourceNode |>
        end in
      let flattened :=
        match firstImportedPointer layers DefConfig with
        | None => flattened
        | Some _ => flattened <| DefConfig := GetNodeConfigDispatcher topology nodeName |>
        end in
      let flattened :=
        match firstImportedPointer layers DefDNS with
        | None => flattened
        | Some _ => flattened <| DefDNS := GetNodeDns topology nodeName |>
        end in
      let flattened := flattenNodeContracts topology layers nodeName flattened in
      collectKindSpecificConfig topology nodeName fieldLines diagnostics flattened
  end.
End flatten.

(** ** Every kind configuration key is carried once *)

(** What one entry declares: itself, or the entries of the wrapper. *)
Definition declares `{!RangeOrder string} (entry : kindConfigEntry) : list (string * configValue) :=
  if bool_decide (EntryKey entry = kindSpecificWrapperKey) then
    default [] (range_list <$> kindSpecificWrapperEntries (EntryValue entry))
  else [(EntryKey entry, EntryValue entry)].

(** A wrapper that is no mapping of string keys. *)
Definition badWrapper (entry : kindConfigEntry) : Prop :=
  EntryKey entry = kindSpecificWrapperKey ∧ kindSpecificWrapperEntries (EntryValue entry) = None.

#[export] Instance badWrapper_dec entry : Decision (badWrapper entry).
Proof. unfold badWrapper. apply _. Defined.

Section carried.
Context `{!FmtQuote}.
Variables (nodeName : string) (fieldLines : blockLines).

(** The diagnostic of a key that is already carried. *)
Definition duplicateOf (from key : string) : Diagnostic :=
  duplicateKindConfig nodeName key from (fieldLine fieldLines from key).

Lemma duplicates_error from (l : list (string * configValue)) :
  Forall (λ d, Warning d = false) ((λ e, duplicateOf from e.1) <$> l).
Proof. apply list.Forall_fmap, list.Forall_true. done. Qed.

Lemma union_insert_known {V} (m1 m2 : gmap string V) k v : is_Some (m1 !! k) → m1 ∪ <[k := v]> m2 = m1 ∪ m2.
Proof.
  intros [old Ho]. apply map_eq. intros i. rewrite !lookup_union. destruct (decide (i = k)) as [->|Hne].
  - rewrite Ho. by destruct (<[k := v]> m2 !! k), (m2 !! k).
  - by rewrite lookup_insert_ne.
Qed.

(** Entries with distinct keys: those already carried are reported, the others added. *)
Lemma carry_distinct from (l : list (string * configValue)) : ∀ ds config,
  NoDup l.*1 →
  foldl (carryKindSpecificValue nodeName fieldLines from) (ds, config) l =
  (ds ++ ((λ e, duplicateOf from e.1) <$> filter (λ e, is_Some (config !! e.1)) l), config ∪ list_to_map l).
Proof.
  induction l as [|[k v] l IH]; intros ds config Hnd.
  { cbn. by rewrite app_nil_r, (right_id_L ∅ (∪) config). }
  cbn in Hnd. apply NoDup_cons in Hnd as [Hk Hnd]. cbn [foldl carryKindSpecificValue]. rewrite filter_cons.
  cbn [fst]. destruct (config !! k) as [old|] eqn:Hc.
  - rewrite decide_True by eauto. rewrite IH by done. unfold add. rewrite <- app_assoc.
    by rewrite list_to_map_cons, union_insert_known by eauto.
  - rewrite decide_False by (by intros [? ?]). rewrite IH by done. f_equal.
    + f_equal. f_equal. apply list_filter_ext_in. intros [k' v'] He. cbn [fst].
      rewrite lookup_insert_ne; [done|]. intros ->. apply Hk. by apply (list_elem_of_fmap_2 fst l (k', v')).
    + by rewrite list_to_map_cons, <- insert_union_l, insert_union_r.
Qed.

Section one_order.
Context `{!RangeOrder string}.

Lemma NoDup_declares entry : NoDup (declares entry).*1.
Proof.
  unfold declares. case_bool_decide; [|apply NoDup_singleton].
  destruct (kindSpecificWrapperEntries (EntryValue entry)); cbn; [apply NoDup_range_keys|constructor].
Qed.

(** The duplicates one entry reports. *)
Definition duplicates (config : gmap string configValue) (entry : kindConfigEntry) : list Diagnostic :=
  (λ e, duplicateOf (EntryFrom entry) e.1) <$> filter (λ e, is_Some (config !! e.1)) (declares entry).

Lemma carryEntry_bad acc entry :
  badWrapper entry → carryEntry nodeName fieldLines acc entry = Err (errInvalidKindSpecificWrapper nodeName).
Proof. intros [Hk Hw]. unfold carryEntry. by rewrite bool_decide_eq_true_2, Hw. Qed.

Lemma carryEntry_good ds config entry :
  ¬ badWrapper entry →
  carryEntry nodeName fieldLines (ds, config) entry =
  Ok (ds ++ duplicates config entry, config ∪ list_to_map (declares entry)).
Proof.
  intros Hg. pose proof (NoDup_declares entry) as Hnd. unfold carryEntry, duplicates, declares in *.
  case_bool_decide as Hk.
  - destruct (kindSpecificWrapperEntries (EntryValue entry)) as [wrapper|] eqn:Hw.
    + cbn [default fmap option_fmap option_map] in *. by rewrite carry_distinct.
    + exfalso. by apply Hg.
  - by rewrite <- (carry_distinct (EntryFrom entry) _ ds config Hnd).
Qed.

Lemma duplicates_nil config entry :
  duplicates config entry = [] ↔ ∀ k, k ∈ (declares entry).*1 → config !! k = None.
Proof.
  unfold duplicates. split.
  - intros Hnil%fmap_nil_inv k (e & -> & He)%list_elem_of_fmap. apply eq_None_not_Some. intros Hs.
    apply (elem_of_nil e). rewrite <- Hnil. by apply list_elem_of_filter.
  - intros Hall. rewrite list_filter_none; [done|]. intros e He Hs.
    rewrite (Hall e.1) in Hs; [by destruct Hs|]. by apply list_elem_of_fmap_2.
Qed.

(** All entries: a bad wrapper fails; otherwise the first declaration of each key is
    carried, and errors are added exactly if a key is declared twice. *)
Lemma carryEntries_spec entries : ∀ ds config,
  match rfold (carryEntry nodeName fieldLines) (ds, config) entries with
  | Err e => e = errInvalidKindSpecificWrapper nodeName ∧ Exists badWrapper entries
  | Ok (ds', config') =>
      Forall (λ e, ¬ badWrapper e) entries
      ∧ config' = config ∪ list_to_map (entries ≫= declares)
      ∧ ∃ errs, ds' = ds ++ errs ∧ Forall (λ d, Warning d = false) errs
          ∧ (errs = [] ↔ NoDup (entries ≫= declares).*1
                         ∧ ∀ k, k ∈ (entries ≫= declares).*1 → config !! k = None)
  end.
Proof.
  induction entries as [|entry entries IH]; intros ds config; cbn [rfold].
  { split; [constructor|]. split; [symmetry; apply (right_id_L ∅ (∪))|]. exists []. rewrite app_nil_r.
    split_and!; [done|constructor|]. cbn. split; [|done]. intros _. split; [constructor|].
    intros k Hk. by apply elem_of_nil in Hk. }
  destruct (decide (badWrapper entry)) as [Hb|Hb].
  { rewrite carryEntry_bad by done. cbn [rbind]. split; [done|by left]. }
  rewrite carryEntry_good by done. cbn [rbind].
  specialize (IH (ds ++ duplicates config entry) (config ∪ list_to_map (declares entry))).
  destruct (rfold _ _ entries) as [[ds' config']|e].
  2:{ destruct IH as [-> Hex]. split; [done|by right]. }
  destruct IH as (Hgood & -> & errs & -> & Herr & Hnil). rewrite bind_cons. split; [by constructor|].
  split; [by rewrite list_to_map_app, (assoc_L (∪))|].
  exists (duplicates config entry ++ errs). rewrite (assoc_L (++)).
  split_and!; [done|apply Forall_app; split; [apply duplicates_error|done]|].
  rewrite fmap_app, list.NoDup_app. setoid_rewrite elem_of_app. split.
  - intros [Hd [Hnd Hfresh]%Hnil]%app_nil. rewrite duplicates_nil in Hd.
    assert (∀ k, k ∈ (entries ≫= declares).*1 → config !! k = None ∧ k ∉ (declares entry).*1) as Hf.
    { intros k [Hc Hl]%Hfresh%lookup_union_None. split; [done|by apply not_elem_of_list_to_map]. }
    split_and!; [apply NoDup_declares| |done|intros k [Hk|Hk]; [by apply Hd|by apply Hf]].
    intros k Hk Hk'. by destruct (Hf k Hk').
  - intros [(_ & Hdis & Hnd) Hfresh].
    assert (duplicates config entry = []) as -> by (apply duplicates_nil; auto).
    apply Hnil. split; [done|]. intros k Hk. apply lookup_union_None. split; [auto|].
    apply not_elem_of_list_to_map. intros Hk'. by apply (Hdis k).
Qed.
End one_order.

(** Two runs that agree up to the order of the diagnostics. *)
Definition sameCarried {A} (r1 r2 : result flattenError (compileDiagnostics * A)) : Prop :=
  match r1, r2 with
  | Ok (ds1, x1), Ok (ds2, x2) => ds1 ≡ₚ ds2 ∧ x1 = x2
  | Err e1, Err e2 => e1 = e2
  | _, _ => False
  end.

Lemma declares_perm (R1 R2 : RangeOrder string) entry :
  declares (RangeOrder0 := R1) entry ≡ₚ declares (RangeOrder0 := R2) entry.
Proof.
  unfold declares. case_bool_decide; [|done]. destruct (kindSpecificWrapperEntries (EntryValue entry)); [|done].
  cbn. by rewrite !range_list_perm.
Qed.

Lemma carryEntries_order (R1 R2 : RangeOrder string) entries : ∀ ds1 ds2 config,
  ds1 ≡ₚ ds2 →
  sameCarried (rfold (carryEntry (RangeOrder0 := R1) nodeName fieldLines) (ds1, config) entries)
    (rfold (carryEntry (RangeOrder0 := R2) nodeName fieldLines) (ds2, config) entries).
Proof.
  induction entries as [|entry entries IH]; intros ds1 ds2 config Hp; cbn [rfold]; [done|].
  destruct (decide (badWrapper entry)) as [Hb|Hb].
  { by rewrite !carryEntry_bad by done. }
  rewrite !carryEntry_good by done. cbn [rbind].
  rewrite (list_to_map_proper _ _ (NoDup_declares (RangeOrder0 := R1) entry) (declares_perm R1 R2 entry)).
  apply IH. unfold duplicates. by rewrite Hp, (declares_perm R1 R2 entry).
Qed.
End carried.

Section kind_config.
Context `{!FmtQuote, !ContainerlabTopology}.

(** Kind-owned configuration reaches the kind complete and once.  Flattening fails only
    on a wrapper that is not a mapping of keys; otherwise the flattened node carries, for
    every key declared directly or inside the wrapper, the most specific declaration
    (containerlab lists them in that order), nothing else changes but the ignored
    [mgmt-net], and error diagnostics are added exactly if some key is declared twice.  The
    result does not depend on the order in which Go ranges over the wrapper's keys. *)
Theorem kind_config_carried (R1 R2 : RangeOrder string) topology nodeName fieldLines ds flattened :
  DefKindSpecificConfig flattened = ∅ →
  let entries := GetNodeKindSpecificConfig topology nodeName in
  let declared := entries ≫= declares (RangeOrder0 := R1) in
  let mgmtNet := GetNodeMgmtNet topology nodeName in
  match collectKindSpecificConfig (RangeOrder0 := R1) topology nodeName fieldLines ds flattened with
  | Err e => e = errInvalidKindSpecificWrapper nodeName ∧ Exists badWrapper entries
  | Ok (ds', flattened') =>
      Forall (λ e, ¬ badWrapper e) entries
      ∧ flattened' = flattened <| DefKindSpecificConfig := list_to_map declared |>
                       <| DefMgmtNet := if bool_decide (mgmtNet = "") then DefMgmtNet flattened else mgmtNet |>
      ∧ ∃ ignored errs, ds' = ds ++ ignored ++ errs
          ∧ Forall (λ d, Warning d = true) ignored ∧ (ignored = [] ↔ mgmtNet = "")
          ∧ Forall (λ d, Warning d = false) errs ∧ (errs = [] ↔ NoDup declared.*1)
  end
  ∧ sameCarried (collectKindSpecificConfig (RangeOrder0 := R1) topology nodeName fieldLines ds flattened)
      (collectKindSpecificConfig (RangeOrder0 := R2) topology nodeName fieldLines ds flattened).
Proof.
  intros He entries declared mgmtNet. unfold collectKindSpecificConfig. fold mgmtNet entries.
  set (from := mgmtNetSourceBlock topology nodeName mgmtNet).
  match goal with |- context [add ds ?w] => set (warning := w) end.
  set (start := if bool_decide (mgmtNet = "") then (ds, flattened)
                else (add ds warning, flattened <| DefMgmtNet := mgmtNet |>)).
  assert (∃ ignored, start.1 = ds ++ ignored ∧ Forall (λ d, Warning d = true) ignored
    ∧ (ignored = [] ↔ mgmtNet = "") ∧ DefKindSpecificConfig start.2 = ∅
    ∧ start.2 = flattened <| DefMgmtNet := if bool_decide (mgmtNet = "") then DefMgmtNet flattened else mgmtNet |>)
    as (ignored & Hs1 & Hw & Hig & Hcfg & Hs2).
  { unfold start. case_bool_decide as Hm; [exists []|exists [warning]]; cbn [fst snd].
    - rewrite app_nil_r. split_and!; try done. by destruct flattened.
    - split_and!; try done. by repeat constructor. }
  destruct start as [ds1 flattened1]. cbn [fst snd] in *. subst ds1. rewrite Hcfg. split.
  - pose proof (carryEntries_spec (RangeOrder0 := R1) nodeName fieldLines entries (ds ++ ignored) ∅) as Hspec.
    destruct (rfold _ _ entries) as [[ds' config']|e]; cbn [rbind]; [|done].
    destruct Hspec as (Hgood & -> & errs & -> & Herr & Hnil). split; [done|]. cbn [fst snd]. split.
    { rewrite Hs2, (left_id_L ∅ (∪)). by destruct flattened. }
    exists ignored, errs. rewrite <- app_assoc. split_and!; try done. rewrite Hnil. fold declared.
    split; [by intros [? _]|done].
  - pose proof (carryEntries_order nodeName fieldLines R1 R2 entries (ds ++ ignored) _ ∅ (reflexivity _)) as Hord.
    destruct (rfold _ _ entries) as [[ds1 c1]|e1], (rfold _ _ entries) as [[ds2 c2]|e2]; cbn in *; try done.
    by destruct Hord as [? ->].
Qed.
End kind_config.

(** ** A concrete containerlab *)

(** The block of a node, empty if it has none. *)
Definition ownBlock (topology : clabTopology) (nodeName : string) : NodeDefinition :=
  default emptyNodeDefinition (mjoin (ClabNodes topology !! nodeName)).

(** Getters without inheritance: every value is that of the node's own block. *)
Definition withoutInheritance : ContainerlabTopology := {|
  GetNodeKind t n := DefKind (ownBlock t n);
  GetNodeGroup t n := DefGroup (ownBlock t n);
  GetNodeType t n := DefType (ownBlock t n);
  GetNodeImage t n := DefImage (ownBlock t n);
  GetNodeLicense t n := DefLicense (ownBlock t n);
  GetNodeStartupConfig t n := DefStartupConfig (ownBlock t n);
  GetNodeStartupDelay t n := DefStartupDelay (ownBlock t n);
  GetRestartPolicy t n := DefRestartPolicy (ownBlock t n);
  GetNodeEntrypoint t n := DefEntrypoint (ownBlock t n);
  GetNodeCmd t n := DefCmd (ownBlock t n);
  GetNodeExec t n := DefExec (ownBlock t n);
  GetNodeUser t n := DefUser (ownBlock t n);
  GetNodeDevices t n := DefDevices (ownBlock t n);
  GetNodeCapAdd t n := DefCapAdd (ownBlock t n);
  GetNodeSecurityOpts t n := DefSecurityOpts (ownBlock t n);
  GetNodeTmpfs t n := DefTmpfs (ownBlock t n);
  GetNodeShmSize t n := DefShmSize (ownBlock t n);
  GetNodeCPU t n := DefCPU (ownBlock t n);
  GetNodeMemory t n := DefMemory (ownBlock t n);
  GetNodeLinkApplyMode t n := DefLinkApplyMode (ownBlock t n);
  GetNodeNetworkMode t n := DefNetworkMode (ownBlock t n);
  GetNodeEnv t n := DefEnv (ownBlock t n);
  GetNodeEnvFiles t n := DefEnvFiles (ownBlock t n);
  GetSysCtl t n := DefSysctls (ownBlock t n);
  GetNodeLabels t n := DefLabels (ownBlock t n);
  GetNodeBinds t n := Ok (DefBinds (ownBlock t n));
  GetNodeConfigDispatcher t n := DefConfig (ownBlock t n);
  GetNodeDns t n := DefDNS (ownBlock t n);
  GetHealthCheckConfig t n := DefHealthCheck (ownBlock t n);
  GetCertificateConfig t n := default (MkCertificateConfig None 0 [] 0) (DefCertificate (ownBlock t n));
  GetNodeMgmtNet t n := DefMgmtNet (ownBlock t n);
  GetNodeKindSpecificConfig t n :=
    (λ e, MkKindConfigEntry e.1 e.2 ("nodes." +:+ n)) <$> map_to_list (DefKindSpecificConfig (ownBlock t n));
  GetGroup t g := mjoin (ClabGroups t !! g);
  GetKind t k := mjoin (ClabKinds t !! k);
  GetDefaults t := ClabDefaults t
|}.

#[local] Instance quoting_flatten : FmtQuote := quoted.
#[local] Instance containerlab_flatten : ContainerlabTopology := withoutInheritance.

(** A key declared directly and again inside the wrapper is carried once and reported. *)
Lemma kind_config_carried_witness :
  let node := emptyNodeDefinition <| DefKindSpecificConfig :=
    {["mac" := CVOther "a"; kindSpecificWrapperKey := CVStringMap {["mac" := CVOther "b"; "slot" := CVOther "1"]}]} |> in
  let topology := MkClabTopology emptyNodeDefinition ∅ {["srl" := Some node]} ∅ in
  match collectKindSpecificConfig (RangeOrder0 := canonical_range) topology "srl" ∅ [] emptyNodeDefinition with
  | Ok (ds, flattened) =>
      (Code <$> ds) = ["duplicate-kind-config"] ∧ ds ≠ []
      ∧ ¬ NoDup (GetNodeKindSpecificConfig topology "srl" ≫= declares (RangeOrder0 := canonical_range)).*1
  | Err _ => False
  end.
Proof.
  cbv zeta. match goal with |- context [collectKindSpecificConfig ?t _ _ _ _] => set (topology := t) end.
  pose proof (proj1 (kind_config_carried canonical_range canonical_range topology "srl" ∅ [] emptyNodeDefinition
    eq_refl)) as H.
  assert (∃ ds f, collectKindSpecificConfig (RangeOrder0 := canonical_range) topology "srl" ∅ [] emptyNodeDefinition
    = Ok (ds, f) ∧ (Code <$> ds) = ["duplicate-kind-config"]) as (ds & f & Heq & Hcode).
  { eexists _, _. split; [vm_compute; reflexivity|vm_compute; reflexivity]. }
  rewrite Heq in H |- *. destruct H as (_ & _ & ignored & errs & Hds & _ & Hig & _ & Hnd).
  assert (ds ≠ []) as Hne by (intros ->; discriminate Hcode). split; [exact Hcode|]. split; [exact Hne|].
  intros Hn%Hnd. apply Hne. rewrite Hds, Hn, (proj2 Hig); reflexivity.
Defined.
