(* ===== verification/CompilerCompile.v ===== *)
(** * Compiling a definition

    Models the pass pipeline of [compiler/compilecontainerlab.go]
    ([compileContainerlabDefinition] and [compileNodes]), the bind check, and the reserved
    container paths of [compiler/ports.go]; and shows what a successful compile guarantees. *)

From S2P Require Import Prelude Api Grouping GoStrings CompilerDiagnostics CompilerDefinition CompilerPorts.
From S2P Require Import CompilerLinks CompilerNodes CompilerDocument CompilerFlatten.
Local Open Scope Z_scope.

(** ** Reserved container paths *)

Definition kubeletPaths : list string :=
  ["/etc/hosts"; "/etc/hostname"; "/etc/resolv.conf"; "/dev/termination-log"].

Definition runtimePrefixes : list string :=
  ["/var/lib/clabernetes"; "/var/run/clabernetes"; "/var/run/secrets/kubernetes.io/serviceaccount"].

(** [None] is [("", false)]. *)
Definition reservedContainerPathReason (value : string) : option string :=
  let cleaned := Clean value in
  if bool_decide (cleaned ∈ kubeletPaths) then
    Some "the kubelet manages this file in every container; it cannot be bind-mounted"
  else if contains_func (λ prefix, bool_decide (cleaned = prefix) || HasPrefix cleaned (prefix +:+ "/"))
            runtimePrefixes then
    Some "the direct runtime owns this path inside device containers"
  else None.

Inductive compileError :=
| errDocument (text : string)
| errNoTopology
| errMultipleManagementNetworks (count : nat)
| errFlatten (e : flattenError)
| errLinks (e : linkParseError)
| errUnsupportedFeatures (diagnostics : list Diagnostic).

Section compile.
Context `{!FmtQuote, !RangeOrder string}.

(** ** Binds *)

(** The first of the two halves that is reserved, with the reason. *)
Fixpoint firstReserved (halves : list string) : option (string * string) :=
  match halves with
  | [] => None
  | half :: halves =>
      match reservedContainerPathReason half with
      | Some reason => Some (half, reason)
      | None => firstReserved halves
      end
  end.

(** [SplitN] into at most three parts has the first two parts of the full split. *)
Definition bindDiagnostic (nodeName : string) (index : nat) (bind : string) : option Diagnostic :=
  let parts := Split colon bind in
  if Nat.ltb (length parts) 2 then None
  else
    match firstReserved (take 2 parts) with
    | None => None
    | Some (half, reason) =>
        Some (diagnostic "reserved-bind-path" (nodePath nodeName "binds" index)
          ("node " +:+ fmt_q nodeName +:+ " bind " +:+ fmt_q bind +:+ " uses reserved container path "
           +:+ fmt_q half +:+ ": " +:+ reason))
    end.

Definition validateNodeBinds (nodes : gmap string NodeDefinition) (diagnostics : compileDiagnostics) :
    compileDiagnostics :=
  foldl (λ diagnostics nodeName,
           match nodes !! nodeName with
           | None => diagnostics
           | Some node =>
               foldl (λ diagnostics entry, addOption diagnostics (bindDiagnostic nodeName entry.1 entry.2))
                 diagnostics (indexed (DefBinds node))
           end)
        diagnostics (sortedNodeNames nodes).

(** ** The pipeline *)

Context `{!ContainerlabTopology}.
Variables (vocabulary : gset string) (SanitizeName : string → string)
  (SanitizeNodeNames : list string → result string (gmap string string))
  (IsQualifiedName IsValidLabelValue IsDNS1035Label : string → list string).

(** The maps of the compiled definition the loop over the nodes fills, and the
    diagnostics. *)
Notation compiledNodes := (gmap string NodeDefinition * gmap string (list AppProtocol) * compileDiagnostics)%type.

(** One node: flattened, then the per-node passes in order. *)
Definition compileNode (topology : clabTopology) (fieldLines : blockLines) (acc : compiledNodes)
    (nodeName : string) : result compileError compiledNodes :=
  let '(nodes, protocols, diagnostics) := acc in
  match flattenNodeDefinition topology nodeName fieldLines diagnostics with
  | Err e => Err (errFlatten e)
  | Ok (diagnostics, flattened) =>
      let '(diagnostics, flattened) := normalizeNodePorts diagnostics nodeName flattened in
      let '(diagnostics, flattened) := consumeExposePortsLabel diagnostics nodeName flattened in
      let '(diagnostics, flattened, appProtocols) :=
        consumeAppProtocolsLabel IsQualifiedName diagnostics nodeName flattened in
      let protocols :=
        if negb (bool_decide (length appProtocols = 0%nat)) then <[nodeName := appProtocols]> protocols
        else protocols in
      let '(diagnostics, flattened) :=
        dropUnusableNodeLabels IsQualifiedName IsValidLabelValue diagnostics nodeName flattened in
      Ok (<[nodeName := flattened]> nodes, protocols, diagnostics)
  end.

Definition compileNodes (topology : clabTopology) (definition : fileTopology) (fieldLines : blockLines)
    (diagnostics : compileDiagnostics) : result compileError compiledNodes :=
  rfold (compileNode topology fieldLines) (∅, ∅, diagnostics) (sorted_keys (FileNodes definition)).

(** The checks of the flattened nodes, in the code's order. *)
Definition validateNodes (nodes : gmap string NodeDefinition) (diagnostics : compileDiagnostics) :
    compileDiagnostics :=
  let diagnostics := validateNodeNetworkModes SanitizeName nodes diagnostics in
  let diagnostics := validateNodeVocabularyPolicies nodes diagnostics in
  let diagnostics := validateNodeBinds nodes diagnostics in
  validateNodeAliases IsDNS1035Label nodes diagnostics.

(** The checks of the document, in the code's order. *)
Definition validateDocument (definition : definitionFile) (unknownFields : list string) (document : yamlNode)
    (diagnostics : compileDiagnostics) : compileDiagnostics :=
  let diagnostics := foldl (λ diagnostics field, add diagnostics (diagnosticFromUnknownField field))
                       diagnostics unknownFields in
  let nodeFieldLines := definitionFieldLines document in
  let diagnostics := validateRejectedNodeFields nodeFieldLines diagnostics in
  validateAbsorbedNodeVocabulary vocabulary (FileTopology definition) nodeFieldLines diagnostics.

(** [decoded] is what the strict decoder gives for the definition, [parsed] what yaml.v3's
    [Unmarshal] into a node does. *)
Definition compileContainerlabDefinition (decoded : definitionFile * decodeOutcome)
    (parsed : result string yamlNode) (diagnostics : compileDiagnostics) :
    result compileError CompiledDefinition :=
  match loadDefinitionFile decoded, parsed with
  | Err text, _ | Ok _, Err text => Err (errDocument text)
  | Ok (definition, unknownFields), Ok document =>
      let diagnostics := validateDocument definition unknownFields document diagnostics in
      match FileTopology definition with
      | None => Err errNoTopology
      | Some topology =>
          if Nat.ltb 1 (length (FileMgmt definition)) then
            Err (errMultipleManagementNetworks (length (FileMgmt definition)))
          else
            let diagnostics :=
              validateManagementPolicy (topLevelMappingFieldLines document "mgmt") diagnostics in
            let? compiled :=
              compileNodes (importedTopology topology) topology (definitionFieldLines document) diagnostics in
            let '(nodes, protocols, diagnostics) := compiled in
            let diagnostics := validateNodes nodes diagnostics in
            match compileContainerlabLinks (dom (FileNodes topology)) (FileLinks topology) diagnostics with
            | Err e => Err (errLinks e)
            | Ok (diagnostics, links) =>
                let '(diagnostics, compiled) :=
                  sanitizeCompiledNodeNames SanitizeNodeNames IsValidLabelValue
                    (MkCompiledDefinition TopologyKindContainerlab nodes protocols links
                       (head (FileMgmt definition)) ∅) diagnostics in
                match err diagnostics with
                | Some ds => Err (errUnsupportedFeatures ds)
                | None => Ok compiled
                end
            end
      end
  end.
End compile.

(** ** What each pass establishes *)

(** A block's kind configuration holds no generic field, directly or in the wrapper. *)
Definition absorbsNothing (vocabulary : gset string) (definition : NodeDefinition) : Prop :=
  (∀ key, is_Some (DefKindSpecificConfig definition !! key) → key ≠ kindSpecificWrapperKey → key ∉ vocabulary)
  ∧ ∀ wrapped wrapper, DefKindSpecificConfig definition !! kindSpecificWrapperKey = Some wrapped →
      kindSpecificWrapperEntries wrapped = Some wrapper → ∀ key, is_Some (wrapper !! key) → key ∉ vocabulary.

(** A definition some block of the topology declares. *)
Definition declaredBlock (topology : fileTopology) (def : NodeDefinition) : Prop :=
  FileDefaults topology = Some def
  ∨ ∃ name, FileKinds topology !! name = Some (Some def) ∨ FileGroups topology !! name = Some (Some def)
            ∨ FileNodes topology !! name = Some (Some def).

(** No declared field of the document is one the vocabulary rejects. *)
Definition rejectsNothing (fieldLines : blockLines) : Prop :=
  ∀ block fields key, fieldLines !! block = Some fields → is_Some (fields !! key) →
    rejectedContainerlabFieldReason key = None.

(** The policies of a node are ones Pods can realize. *)
Definition knownPolicies (def : NodeDefinition) : Prop :=
  DefRestartPolicy def ∈ restartPolicies ∧ DefImagePullPolicy def ∈ pullPolicies
  ∧ DefLinkApplyMode def ∈ linkApplyModes.

(** No bind of a node has a reserved path as its source or destination. *)
Definition freeBinds (def : NodeDefinition) : Prop :=
  ∀ bind source destination rest half, bind ∈ DefBinds def →
    Split colon bind = source :: destination :: rest → half = source ∨ half = destination →
    reservedContainerPathReason half = None.

(** The labels of a node: Kubernetes can carry them, and the directive labels are consumed. *)
Definition usableLabels (IsQualifiedName IsValidLabelValue : string → list string) (labels : gmap string string) :
    Prop :=
  labels !! labelExposePorts = None ∧ labels !! labelAppProtocols = None
  ∧ ∀ key value, labels !! key = Some value → IsQualifiedName key = [] ∧ IsValidLabelValue value = [].

Section passes.
Context `{!FmtQuote, !RangeOrder string}.
Variable vocabulary : gset string.

Lemma unknownFields_accepts unknownFields ds :
  accepts (unknownFields = []) ds
    (foldl (λ ds field, add ds (diagnosticFromUnknownField field)) ds unknownFields).
Proof.
  eapply accepts_weaken; [|apply (foldl_accepts id _ (λ _, False))].
  - destruct unknownFields as [|x l]; [done|]. intros Hall. destruct (Hall x). by left.
  - intros s x _. apply accepts_error. unfold diagnosticFromUnknownField.
    by destruct (unknownFieldPattern x) as [[[]]|].
Qed.

Lemma rejectedFields_accepts fieldLines ds :
  accepts (rejectsNothing fieldLines) ds (validateRejectedNodeFields fieldLines ds).
Proof.
  eapply accepts_weaken.
  2:{ apply (foldl_accepts id _ (λ block, ∀ key, key ∈ sorted_keys (default ∅ (fieldLines !! block)) →
        rejectedContainerlabFieldReason key = None)).
      intros s block _. apply (foldl_accepts id). intros s' key _. unfold rejectedFieldStep, id.
      destruct (rejectedContainerlabFieldReason key) eqn:E; [by apply accepts_error|].
      eapply accepts_weaken, accepts_refl. done. }
  intros Hall block fields key Hb Hk. apply (Hall block); [apply elem_of_sorted_keys; eauto|].
  rewrite Hb. by apply elem_of_sorted_keys.
Qed.

Lemma absorbedKeyStep_accepts fieldLines from ds key :
  accepts (key ∉ vocabulary) ds (absorbedKeyStep vocabulary fieldLines from ds key).
Proof.
  unfold absorbedKeyStep. case_bool_decide; cbn [negb]; [by apply accepts_error|].
  eapply accepts_weaken, accepts_refl. done.
Qed.

Lemma absorbedDefinition_accepts fieldLines from definition ds :
  accepts (absorbsNothing vocabulary definition) ds
    (validateAbsorbedVocabularyDefinition vocabulary fieldLines from definition ds).
Proof.
  eapply accepts_weaken.
  2:{ apply (foldl_accepts id _ (λ key, if bool_decide (key = kindSpecificWrapperKey) then
        ∀ wrapper, (DefKindSpecificConfig definition !! key) ≫= kindSpecificWrapperEntries = Some wrapper →
          ∀ k, k ∈ (range_list wrapper).*1 → k ∉ vocabulary else key ∉ vocabulary)).
      intros s key _. unfold id. case_bool_decide; [|apply absorbedKeyStep_accepts].
      destruct (_ ≫= kindSpecificWrapperEntries) as [wrapper|]; [|eapply accepts_weaken, accepts_refl; done].
      eapply accepts_weaken; [|apply (foldl_accepts id); intros s' k _; apply absorbedKeyStep_accepts].
      intros Hall w [= <-]. done. }
  intros Hall. split.
  - intros key Hk Hne. specialize (Hall key). rewrite bool_decide_eq_false_2 in Hall by done. apply Hall.
    by apply elem_of_sorted_keys.
  - intros wrapped wrapper Hw He key [value Hk]. specialize (Hall kindSpecificWrapperKey).
    rewrite bool_decide_eq_true_2 in Hall by done. eapply Hall.
    + apply elem_of_sorted_keys. eauto.
    + rewrite Hw. done.
    + apply (list_elem_of_fmap_2 fst _ (key, value)), elem_of_range_list. done.
Qed.

Lemma sectionBlocks_elem prefix blocks name def :
  blocks !! name = Some (Some def) → (prefix +:+ name, [def]) ∈ sectionBlocks prefix blocks.
Proof.
  intros Hn. unfold sectionBlocks. apply list_elem_of_fmap. exists name. rewrite Hn. split; [done|].
  apply elem_of_sorted_keys. eauto.
Qed.

Lemma absorbedVocabularyBlocks_elem topology def :
  declaredBlock topology def → ∃ from, (from, [def]) ∈ absorbedVocabularyBlocks topology.
Proof.
  unfold absorbedVocabularyBlocks. setoid_rewrite elem_of_app. intros [Hd|(name & [Hn|[Hn|Hn]])].
  - exists defaultsBlock. left. rewrite Hd. left.
  - eexists. right. apply elem_of_app. left. by apply sectionBlocks_elem.
  - eexists. right. rewrite !elem_of_app. right. left. by apply sectionBlocks_elem.
  - eexists. right. rewrite !elem_of_app. right. right. by apply sectionBlocks_elem.
Qed.

Lemma absorbed_accepts topology fieldLines ds :
  accepts (∀ def, declaredBlock topology def → absorbsNothing vocabulary def) ds
    (validateAbsorbedNodeVocabulary vocabulary (Some topology) fieldLines ds).
Proof.
  pose proof (absorbedVocabularyBlocks_elem topology) as Hblocks. unfold validateAbsorbedNodeVocabulary.
  revert Hblocks. generalize (absorbedVocabularyBlocks topology). intros blocks Hblocks. eapply accepts_weaken.
  2:{ apply (foldl_accepts id _ (λ block, ∀ def, def ∈ block.2 → absorbsNothing vocabulary def)).
      intros s block _. apply (foldl_accepts id). intros s' def _. apply absorbedDefinition_accepts. }
  intros Hall def (from & Hin)%Hblocks. apply (Hall _ Hin). left.
Qed.

Lemma management_accepts fieldLines ds : accepts True ds (validateManagementPolicy fieldLines ds).
Proof.
  unfold validateManagementPolicy. generalize managementFields. intros fields.
  eapply accepts_weaken; [|apply (foldl_accepts id _ (λ _, True))]; [done|].
  intros s [[name path] message] _. unfold id. destruct (fieldLines !! name).
  - eapply accepts_weaken, accepts_add. done.
  - apply accepts_refl.
Qed.

(** ** The checks of the flattened nodes *)

(** A loop over the nodes that checks each of them. *)
Lemma nodes_accepts (f : compileDiagnostics → string → NodeDefinition → compileDiagnostics)
    (Q : NodeDefinition → Prop) (nodes : gmap string NodeDefinition) ds :
  (∀ ds name def, accepts (Q def) ds (f ds name def)) →
  accepts (∀ name def, nodes !! name = Some def → Q def) ds
    (foldl (λ ds name, match nodes !! name with None => ds | Some def => f ds name def end) ds
       (sortedNodeNames nodes)).
Proof.
  intros Hf. eapply accepts_weaken.
  2:{ apply (foldl_accepts id _ (λ name, ∀ def, nodes !! name = Some def → Q def)). intros s name _. unfold id.
      destruct (nodes !! name) as [def|]; [|eapply accepts_weaken, accepts_refl; done].
      eapply accepts_weaken; [|apply Hf]. by intros ? ? [= <-]. }
  intros Hall name def Hn. eapply Hall; [|done]. apply elem_of_sorted_keys. eauto.
Qed.

Lemma policies_accept nodes ds :
  accepts (∀ name def, nodes !! name = Some def → knownPolicies def) ds (validateNodeVocabularyPolicies nodes ds).
Proof.
  apply nodes_accepts. intros ds' name def. unfold policyStep. cbv zeta. eapply accepts_weaken.
  2:{ eapply accepts_trans; [eapply accepts_trans|]; apply accepts_if; reflexivity. }
  unfold knownPolicies. rewrite !negb_false_iff, !bool_decide_eq_true. tauto.
Qed.

Lemma firstReserved_None halves :
  firstReserved halves = None → ∀ half, half ∈ halves → reservedContainerPathReason half = None.
Proof.
  induction halves as [|h halves IH]; cbn; [intros _ half Hh; by apply elem_of_nil in Hh|].
  destruct (reservedContainerPathReason h) eqn:Eh; [done|]. intros Hf half [->|Hh]%elem_of_cons; auto.
Qed.

Lemma binds_accept nodes ds :
  accepts (∀ name def, nodes !! name = Some def → freeBinds def) ds (validateNodeBinds nodes ds).
Proof.
  apply (nodes_accepts (λ ds name def, foldl (λ ds entry, addOption ds (bindDiagnostic name entry.1 entry.2)) ds
    (indexed (DefBinds def)))).
  intros ds' name def. eapply accepts_weaken.
  2:{ apply (foldl_accepts id _ (λ entry, bindDiagnostic name entry.1 entry.2 = None)). intros s entry _. unfold id.
      destruct (bindDiagnostic name entry.1 entry.2) as [x|] eqn:Ex; cbn [addOption].
      - apply accepts_error. unfold bindDiagnostic in Ex. by crush_cases.
      - eapply accepts_weaken, accepts_refl. done. }
  intros Hall bind source destination rest half Hb Hsplit Hhalf.
  apply elem_of_indexed in Hb as (entry & He & <-). specialize (Hall entry He). unfold bindDiagnostic in Hall.
  rewrite Hsplit in Hall. cbn [length Nat.ltb Nat.leb] in Hall.
  destruct (firstReserved _) as [[]|] eqn:Ef; [done|]. eapply firstReserved_None; [exact Ef|].
  cbn [take]. destruct Hhalf as [-> | ->]; [left|right; left].
Qed.
End passes.

(** Two definitions that differ at most in their labels and ports. *)
Definition onlyLabelsPorts (d d' : NodeDefinition) : Prop :=
  d' = d <| DefLabels := DefLabels d' |> <| DefPorts := DefPorts d' |>.

Lemma onlyLabelsPorts_trans d1 d2 d3 : onlyLabelsPorts d1 d2 → onlyLabelsPorts d2 d3 → onlyLabelsPorts d1 d3.
Proof. unfold onlyLabelsPorts. intros H12 H23. rewrite H23, H12. by destruct d1. Qed.

Section node_passes.
Context `{!FmtQuote, !RangeOrder string, !ContainerlabTopology}.
Variables (IsQualifiedName IsValidLabelValue : string → list string).

Lemma carryKindSpecificValue_accepts nodeName fieldLines from acc entry :
  accepts True acc.1 (carryKindSpecificValue nodeName fieldLines from acc entry).1.
Proof.
  destruct acc as [ds config], entry as [key value]. unfold carryKindSpecificValue.
  destruct (config !! key); [by apply accepts_error|apply accepts_refl].
Qed.

Lemma flatten_accepts topology nodeName fieldLines ds ds' flattened :
  flattenNodeDefinition topology nodeName fieldLines ds = Ok (ds', flattened) → accepts True ds ds'.
Proof.
  unfold flattenNodeDefinition. destruct (GetNodeBinds topology nodeName) as [binds|]; [|done].
  cbv zeta. generalize (flattenNodeContracts topology (importedNodeLayers topology nodeName) nodeName).
  intros contracts. match goal with |- context [contracts ?d] => generalize (contracts d) end.
  intros def. unfold collectKindSpecificConfig.
  set (start := if bool_decide (_ = "") then (ds, def) else _).
  assert (accepts True ds start.1) as Hs.
  { unfold start. case_bool_decide; [apply accepts_refl|]. eapply accepts_weaken; [|apply accepts_add]. done. }
  destruct start as [ds1 def1]. intros ([ds2 config] & Hr & [= <- <-])%rbind_Ok_inv.
  eapply accepts_weaken; [|eapply accepts_trans; [exact Hs|]]; [done|].
  apply (rfold_accepts fst) in Hr; [exact Hr|]. intros s entry s1. unfold carryEntry.
  case_bool_decide; [destruct (kindSpecificWrapperEntries _); [|done]|]; intros [= <-].
  - eapply accepts_weaken; [|apply foldl_accepts; intros; apply carryKindSpecificValue_accepts]. done.
  - apply carryKindSpecificValue_accepts.
Qed.

Lemma normalizeNodePorts_accepts ds nodeName def :
  let '(ds', def') := normalizeNodePorts ds nodeName def in
  accepts True ds ds' ∧ DefLabels def' = DefLabels def ∧ onlyLabelsPorts def def'.
Proof.
  unfold normalizeNodePorts.
  pose proof (foldl_accepts fst (normalizeStep nodeName) (λ _, True) (indexed (DefPorts def)) (ds, [])) as Hf.
  destruct (foldl _ _ _) as [ds' ports]. split; [|by destruct def]. eapply accepts_weaken; [|apply Hf]; [done|].
  intros [ds1 ports1] [idx port] _. unfold normalizeStep. case_bool_decide; [apply accepts_refl|].
  eapply accepts_weaken, accepts_add. done.
Qed.

Lemma consumeExposePortsLabel_accepts ds nodeName def :
  let '(ds', def') := consumeExposePortsLabel ds nodeName def in
  accepts True ds ds' ∧ DefLabels def' = delete labelExposePorts (DefLabels def) ∧ onlyLabelsPorts def def'.
Proof.
  unfold consumeExposePortsLabel. destruct (DefLabels def !! labelExposePorts) as [value|] eqn:Hl.
  2:{ split; [apply accepts_refl|]. rewrite delete_id by done. by destruct def. }
  set (def1 := def <| DefLabels ::= delete labelExposePorts |>).
  pose proof (foldl_accepts (λ s, s.1.1) (exposeStep nodeName) (λ _, True) (indexed (Split comma value))
    (ds, seenDestinations (DefPorts def1), DefPorts def1)) as Hf.
  destruct (foldl _ _ _) as [[ds' seen] ports]. split; [|by destruct def]. eapply accepts_weaken; [|apply Hf]; [done|].
  intros [[ds1 seen1] ports1] [idx entry] _. unfold exposeStep. cbv zeta.
  destruct (processPortDefinition _); [|by apply accepts_error]. case_bool_decide; apply accepts_refl.
Qed.

Lemma consumeAppProtocolsLabel_accepts ds nodeName def :
  let '(ds', def', _) := consumeAppProtocolsLabel IsQualifiedName ds nodeName def in
  accepts True ds ds' ∧ DefLabels def' = delete labelAppProtocols (DefLabels def) ∧ onlyLabelsPorts def def'.
Proof.
  unfold consumeAppProtocolsLabel. destruct (DefLabels def !! labelAppProtocols) as [value|] eqn:Hl.
  2:{ split; [apply accepts_refl|]. rewrite delete_id by done. by destruct def. }
  pose proof (foldl_accepts (λ s, s.1.1) (appProtocolStep IsQualifiedName nodeName) (λ _, True)
    (indexed (Split comma value)) (ds, ∅, [])) as Hf.
  destruct (foldl _ _ _) as [[ds' seen] protocols]. split; [|by destruct def]. eapply accepts_weaken; [|apply Hf]; [done|].
  intros [[ds1 seen1] protocols1] [idx entry] _. unfold appProtocolStep. cbv zeta.
  destruct (Cut equals _) as [[]|]; [|by apply accepts_error].
  destruct (processPortDefinition _); [|by apply accepts_error]. case_bool_decide; [by apply accepts_error|].
  destruct (_ && _); [by apply accepts_error|apply accepts_refl].
Qed.

Lemma dropUnusableNodeLabels_accepts ds nodeName def :
  let '(ds', def') := dropUnusableNodeLabels IsQualifiedName IsValidLabelValue ds nodeName def in
  accepts (DefLabels def' = DefLabels def
    ∧ ∀ key value, DefLabels def !! key = Some value → IsQualifiedName key = [] ∧ IsValidLabelValue value = []) ds ds'
  ∧ onlyLabelsPorts def def'.
Proof.
  unfold dropUnusableNodeLabels.
  pose proof (foldl_accepts fst (dropStep IsQualifiedName IsValidLabelValue nodeName)
    (λ e, length (IsQualifiedName e.1 ++ IsValidLabelValue e.2) = 0%nat) (range_list (DefLabels def))
    (ds, DefLabels def)) as Hf.
  assert (∀ l acc, (∀ e, e ∈ l → length (IsQualifiedName e.1 ++ IsValidLabelValue e.2) = 0%nat) →
    foldl (dropStep IsQualifiedName IsValidLabelValue nodeName) acc l = acc) as Hid.
  { intros l. induction l as [|[k v] l IH]; intros [ds1 labels] Hl; [done|]. cbn [foldl].
    unfold dropStep at 2. rewrite bool_decide_eq_true_2 by (apply (Hl (k, v)); left). apply IH.
    intros e He. apply Hl. by right. }
  destruct (foldl _ _ (range_list _)) as [ds' labels] eqn:El.
  split; [|by destruct def]. eapply accepts_weaken; [|apply Hf].
  - intros Hall. rewrite Hid in El by done. injection El as <- <-. split; [done|].
    intros key value Hk. apply elem_of_range_list, Hall in Hk. cbn in Hk.
    by apply nil_length_inv, app_nil in Hk.
  - intros [ds1 labels1] [k v] _. unfold dropStep. case_bool_decide; [|by apply accepts_error].
    eapply accepts_weaken, accepts_refl. done.
Qed.

(** One node is added, flattened but for its ports and labels, which are usable. *)
Lemma compileNode_accepts topology fieldLines nodes protocols ds nodeName acc :
  compileNode IsQualifiedName IsValidLabelValue topology fieldLines (nodes, protocols, ds) nodeName = Ok acc →
  ∃ def ds1 flattened, acc.1.1 = <[nodeName := def]> nodes
    ∧ flattenNodeDefinition topology nodeName fieldLines ds = Ok (ds1, flattened)
    ∧ onlyLabelsPorts flattened def
    ∧ accepts (usableLabels IsQualifiedName IsValidLabelValue (DefLabels def)) ds acc.2.
Proof.
  unfold compileNode. destruct (flattenNodeDefinition _ _ _ _) as [[ds1 flattened]|] eqn:Hf; [|done].
  pose proof (normalizeNodePorts_accepts ds1 nodeName flattened) as H1.
  destruct (normalizeNodePorts _ _ _) as [ds2 def1]. destruct H1 as (A1 & L1 & O1).
  pose proof (consumeExposePortsLabel_accepts ds2 nodeName def1) as H2.
  destruct (consumeExposePortsLabel _ _ _) as [ds3 def2]. destruct H2 as (A2 & L2 & O2).
  pose proof (consumeAppProtocolsLabel_accepts ds3 nodeName def2) as H3.
  destruct (consumeAppProtocolsLabel _ _ _ _) as [[ds4 def3] appProtocols]. destruct H3 as (A3 & L3 & O3).
  pose proof (dropUnusableNodeLabels_accepts ds4 nodeName def3) as H4.
  destruct (dropUnusableNodeLabels _ _ _ _ _) as [ds5 def4]. destruct H4 as [A4 O4].
  intros [= <-]. cbn [fst snd]. exists def4, ds1, flattened.
  split_and!; [done|done|by eauto using onlyLabelsPorts_trans|].
  eapply accepts_weaken; [|eapply accepts_trans; [by eapply flatten_accepts|eapply accepts_trans;
    [exact A1|eapply accepts_trans; [exact A2|eapply accepts_trans; [exact A3|exact A4]]]]].
  intros (_ & _ & _ & _ & HL & Hvalid). unfold usableLabels. rewrite HL. split_and!.
  - rewrite L3, L2. apply lookup_delete_None. right. apply lookup_delete_eq.
  - rewrite L3. apply lookup_delete_eq.
  - done.
Qed.

Lemma compileNodes_accepts topology definition fieldLines ds nodes protocols ds' :
  compileNodes IsQualifiedName IsValidLabelValue topology definition fieldLines ds = Ok (nodes, protocols, ds') →
  dom nodes = dom (FileNodes definition)
  ∧ (∀ name def, nodes !! name = Some def → ∃ ds0 ds1 flattened,
       flattenNodeDefinition topology name fieldLines ds0 = Ok (ds1, flattened) ∧ onlyLabelsPorts flattened def)
  ∧ accepts (∀ name def, nodes !! name = Some def →
       usableLabels IsQualifiedName IsValidLabelValue (DefLabels def)) ds ds'.
Proof.
  intros Hc.
  apply (rfold_invariant _ (λ acc l, dom acc.1.1 ∪ list_to_set l = dom (FileNodes definition)
    ∧ (∀ name def, acc.1.1 !! name = Some def → ∃ ds0 ds1 flattened,
       flattenNodeDefinition topology name fieldLines ds0 = Ok (ds1, flattened) ∧ onlyLabelsPorts flattened def)
    ∧ accepts (∀ name def, acc.1.1 !! name = Some def →
       usableLabels IsQualifiedName IsValidLabelValue (DefLabels def)) ds acc.2)) in Hc.
  - destruct Hc as (Hdom & Hc). split; [|done]. cbn in Hdom. set_solver.
  - intros [[nodes1 protocols1] ds1] name l acc (Hdom & Hflat & Hacc) Hn.
    apply compileNode_accepts in Hn as (def & ds2 & flattened & Hnodes & Hf & Ho & Ha). cbn [fst snd] in *.
    rewrite Hnodes. split_and!.
    + rewrite dom_insert_L, <- Hdom. cbn. set_solver.
    + intros n d [[<- <-]|[_ Hd]]%lookup_insert_Some; [eauto|by apply Hflat].
    + eapply accepts_weaken; [|eapply accepts_trans; [exact Hacc|exact Ha]].
      intros [Hall Hone] n d [[<- <-]|[_ Hd]]%lookup_insert_Some; eauto.
  - cbn [fst snd]. split_and!.
    + rewrite dom_empty_L. apply set_eq. intros n. rewrite elem_of_union, elem_of_list_to_set, elem_of_sorted_keys,
        elem_of_dom. set_solver.
    + intros n d Hd. by apply lookup_empty_Some in Hd.
    + eapply accepts_weaken, accepts_refl. intros _ n d Hd. by apply lookup_empty_Some in Hd.
Qed.
End node_passes.

(** ** A successful compile *)

(** A compiled definition and the flattened one it comes from. *)
Definition flattenedInto (flattened def : NodeDefinition) : Prop :=
  def = flattened <| DefLabels := DefLabels def |> <| DefPorts := DefPorts def |>
          <| DefNetworkMode := DefNetworkMode def |>.

Lemma flattenedInto_intro flattened d def :
  onlyLabelsPorts flattened d → samePayload d def → flattenedInto flattened def.
Proof.
  unfold onlyLabelsPorts, samePayload, flattenedInto. intros H1 H2. rewrite H2, H1. by destruct flattened.
Qed.

(** What the compiler relies on of containerlab's [SanitizeNodeNames]: it renames only given
    names, and fails rather than give two of them one name.  The reserved name of the host is
    not kept out. *)
Definition sanitizes (SanitizeNodeNames : list string → result string (gmap string string)) : Prop :=
  ∀ names renames, SanitizeNodeNames names = Ok renames →
    (∀ n c, renames !! n = Some c → n ∈ names)
    ∧ (∀ a b, a ∈ names → b ∈ names → renamed renames a = renamed renames b → a = b).

(** The compiled topology is the declared one, up to the renaming. *)
Record faithful `{!FmtQuote, !RangeOrder string, !ContainerlabTopology}
    (IsQualifiedName IsValidLabelValue IsDNS1035Label : string → list string)
    (topology : fileTopology) (fieldLines : blockLines) (renames : gmap string string)
    (compiled : CompiledDefinition) : Prop := {
  (** exactly the declared nodes, each leading back to its name *)
  faithful_nodes : ∀ c, is_Some (CDNodes compiled !! c) ↔
    ∃ n, is_Some (FileNodes topology !! n) ∧ renamed renames n = c;
  faithful_source : ∀ n, is_Some (FileNodes topology !! n) → SourceNodeName compiled (renamed renames n) = n;
  (** each with the values containerlab's inheritance gives it, policies Pods can realize,
      binds off the reserved paths and labels Kubernetes carries *)
  faithful_node : ∀ n def, is_Some (FileNodes topology !! n) →
    CDNodes compiled !! renamed renames n = Some def →
    (∃ ds0 ds1 flattened, flattenNodeDefinition (importedTopology topology) n fieldLines ds0 = Ok (ds1, flattened)
                          ∧ flattenedInto flattened def)
    ∧ knownPolicies def ∧ freeBinds def
    ∧ usableLabels IsQualifiedName IsValidLabelValue (delete labelOriginalNodeName (DefLabels def));
  (** shared Pods exist and are no cycle *)
  faithful_modes : ∀ c def, CDNodes compiled !! c = Some def →
    DefNetworkMode def = "" ∨ is_Some (CDNodes compiled !! ParseNetworkModeContainer (DefNetworkMode def));
  faithful_acyclic : acyclic (asNodes (CDNodes compiled));
  (** every link is a wire between compiled nodes or to the host *)
  faithful_links : Forall2 (λ link wire, ∃ w, wireOf link w ∧ wire = renameLink renames w)
    (FileLinks topology) (CDLinks compiled);
  faithful_connects : Forall (connects (CDNodes compiled)) (CDLinks compiled);
  (** aliases are Service names no two of which are equal *)
  faithful_aliases : ∀ c1 d1 i c2 d2 j a, CDNodes compiled !! c1 = Some d1 → DefAliases d1 !! i = Some a →
    IsDNS1035Label a = []
    ∧ (CDNodes compiled !! c2 = Some d2 → DefAliases d2 !! j = Some a → c1 = c2 ∧ i = j)
}.

(** The nodes and wires before the renaming, when no pass reported an error. *)
Record accepted `{!FmtQuote, !RangeOrder string, !ContainerlabTopology} (SanitizeName : string → string)
    (IsQualifiedName IsValidLabelValue IsDNS1035Label : string → list string)
    (topology : fileTopology) (fieldLines : blockLines) (nodes : gmap string NodeDefinition)
    (links : list CompiledLink) : Prop := {
  accepted_dom : dom nodes = dom (FileNodes topology);
  accepted_flat : ∀ name def, nodes !! name = Some def → ∃ ds0 ds1 flattened,
    flattenNodeDefinition (importedTopology topology) name fieldLines ds0 = Ok (ds1, flattened)
    ∧ onlyLabelsPorts flattened def;
  accepted_labels : ∀ name def, nodes !! name = Some def →
    usableLabels IsQualifiedName IsValidLabelValue (DefLabels def);
  accepted_modes : ∀ name def, nodes !! name = Some def → supportedMode SanitizeName nodes (DefNetworkMode def);
  accepted_acyclic : acyclic (asNodes nodes);
  accepted_policies : ∀ name def, nodes !! name = Some def → knownPolicies def;
  accepted_binds : ∀ name def, nodes !! name = Some def → freeBinds def;
  accepted_aliases : Forall (λ a, IsDNS1035Label a = [] ∧ nodes !! a = None) (allAliases nodes);
  accepted_distinct : NoDup (allAliases nodes);
  accepted_links : Forall2 wireOf (FileLinks topology) links;
  accepted_connects : Forall (connects nodes) links
}.

Arguments accepted_dom {_ _ _ _ _ _ _ _ _ _ _} _.
Arguments accepted_flat {_ _ _ _ _ _ _ _ _ _ _} _.
Arguments accepted_labels {_ _ _ _ _ _ _ _ _ _ _} _.
Arguments accepted_modes {_ _ _ _ _ _ _ _ _ _ _} _.
Arguments accepted_acyclic {_ _ _ _ _ _ _ _ _ _ _} _.
Arguments accepted_policies {_ _ _ _ _ _ _ _ _ _ _} _.
Arguments accepted_binds {_ _ _ _ _ _ _ _ _ _ _} _.
Arguments accepted_aliases {_ _ _ _ _ _ _ _ _ _ _} _.
Arguments accepted_distinct {_ _ _ _ _ _ _ _ _ _ _} _.
Arguments accepted_links {_ _ _ _ _ _ _ _ _ _ _} _.
Arguments accepted_connects {_ _ _ _ _ _ _ _ _ _ _} _.

Section compiled.
Context `{!FmtQuote, !RangeOrder string, !ContainerlabTopology}.
Variables (vocabulary : gset string) (SanitizeName : string → string)
  (SanitizeNodeNames : list string → result string (gmap string string))
  (IsQualifiedName IsValidLabelValue IsDNS1035Label : string → list string).

Lemma validateNodes_accepts nodes ds :
  accepts ((∀ name def, nodes !! name = Some def → supportedMode SanitizeName nodes (DefNetworkMode def))
    ∧ acyclic (asNodes nodes)
    ∧ (∀ name def, nodes !! name = Some def → knownPolicies def)
    ∧ (∀ name def, nodes !! name = Some def → freeBinds def)
    ∧ Forall (λ a, IsDNS1035Label a = [] ∧ nodes !! a = None) (allAliases nodes)
    ∧ NoDup (allAliases nodes)) ds
    (validateNodes SanitizeName IsDNS1035Label nodes ds).
Proof.
  unfold validateNodes. cbv zeta. eapply accepts_weaken.
  2:{ eapply accepts_trans; [|eapply accepts_trans; [apply policies_accept|eapply accepts_trans;
        [apply binds_accept|]]].
      - apply accepts_silent; apply network_modes_spec.
      - apply accepts_silent; apply aliases_spec. }
  tauto.
Qed.

Lemma validateDocument_accepts definition topology unknownFields document ds :
  FileTopology definition = Some topology →
  accepts (unknownFields = [] ∧ rejectsNothing (definitionFieldLines document)
    ∧ ∀ def, declaredBlock topology def → absorbsNothing vocabulary def) ds
    (validateDocument vocabulary definition unknownFields document ds).
Proof.
  intros Ht. unfold validateDocument. rewrite Ht. cbv zeta.
  eapply accepts_trans; [apply unknownFields_accepts|].
  eapply accepts_trans; [apply rejectedFields_accepts|apply absorbed_accepts].
Qed.

Lemma links_accept nodes links ds ds' wires :
  compileContainerlabLinks (dom nodes) links ds = Ok (ds', wires) →
  accepts (Forall2 wireOf links wires ∧ Forall (connects nodes) wires) ds ds'.
Proof.
  intros (bad & -> & Hbad & Hex & _ & Hall & _)%links_spec Herr.
  destruct (decide (bad = [])) as [->|Hne]; [|by eapply err_app_error in Hne].
  rewrite app_nil_r in Herr. split_and!; [done|by apply Hall|].
  eapply list.Forall_impl; [exact Hex|]. intros wire (HA & HB & Hboth). unfold endpointExists in *.
  rewrite !elem_of_dom in *. unfold connects. tauto.
Qed.

(** The steps of a successful compile. *)
Lemma compile_steps decoded parsed ds compiled :
  compileContainerlabDefinition vocabulary SanitizeName SanitizeNodeNames IsQualifiedName IsValidLabelValue
    IsDNS1035Label decoded parsed ds = Ok compiled →
  ∃ topology document, FileTopology decoded.1 = Some topology ∧ parsed = Ok document
    ∧ loadDefinitionFile decoded = Ok (decoded.1, [])
    ∧ rejectsNothing (definitionFieldLines document)
    ∧ (∀ def, declaredBlock topology def → absorbsNothing vocabulary def)
    ∧ ∃ nodes protocols links ds1 ds2 renames,
        accepted SanitizeName IsQualifiedName IsValidLabelValue IsDNS1035Label topology
          (definitionFieldLines document) nodes links
        ∧ SanitizeNodeNames (sortedNodeNames nodes) = Ok renames
        ∧ sanitizeCompiledNodeNames SanitizeNodeNames IsValidLabelValue
            (MkCompiledDefinition TopologyKindContainerlab nodes protocols links (head (FileMgmt decoded.1)) ∅) ds1
          = (ds2, compiled).
Proof.
  unfold compileContainerlabDefinition. destruct (loadDefinitionFile decoded) as [[definition unknown]|] eqn:Hl; [|done].
  assert (definition = decoded.1) as ->.
  { destruct decoded as [file [|entries|]]; cbn in Hl; [by simplify_eq| |done].
    apply rbind_Ok_inv in Hl as (? & _ & [= -> _]). done. }
  destruct parsed as [document|]; [|done]. destruct (FileTopology decoded.1) as [topology|] eqn:Ht; [|done].
  destruct (Nat.ltb _ _); [done|]. intros ([[nodes protocols] dsn] & Hn & Hc)%rbind_Ok_inv.
  apply compileNodes_accepts in Hn as (Hdom & Hflat & An). rewrite <- Hdom in Hc.
  destruct (compileContainerlabLinks _ _ _) as [[dsl links]|] eqn:Hk; [|done]. apply links_accept in Hk as Ak.
  destruct (sanitizeCompiledNodeNames _ _ _ _) as [ds2 compiled'] eqn:Hs.
  destruct (err ds2) eqn:Herr; [done|]. injection Hc as ->.
  destruct (SanitizeNodeNames (sortedNodeNames nodes)) as [renames|e] eqn:Hr.
  2:{ exfalso. unfold sanitizeCompiledNodeNames in Hs. cbn [CDNodes] in Hs. rewrite Hr in Hs.
      injection Hs as <- _. apply (accepts_error False) in Herr; [|done]. by destruct Herr as [_ []]. }
  assert (ds2 = dsl) as ->.
  { unfold sanitizeCompiledNodeNames in Hs. cbn [CDNodes] in Hs. rewrite Hr in Hs.
    case_bool_decide; [by injection Hs|]. destruct (foldl _ _ _). by injection Hs. }
  destruct (Ak Herr) as (Hv & Hlinks & Hconn).
  destruct (validateNodes_accepts _ _ Hv) as (Hn & Hmodes & Hac & Hpol & Hbinds & Hal & Hnd).
  destruct (An Hn) as [Hm Hlabels]. apply management_accepts in Hm as [Hd _].
  destruct (validateDocument_accepts _ topology _ _ _ Ht Hd) as (_ & -> & Hrej & Habs).
  exists topology, document. split_and!; [done|done|done|done|done|].
  exists nodes, protocols, links, dsl, dsl, renames. by split_and!.
Qed.
End compiled.


(** ** References keep their shape under the renaming *)

Section renamed_references.
Variables (nodes nodes' : gmap string NodeDefinition) (renames : gmap string string).
Hypothesis Hinj : ∀ a b, is_Some (nodes !! a) → is_Some (nodes !! b) →
  renamed renames a = renamed renames b → a = b.
Hypothesis Hempty : renames !! "" = None.
Hypothesis Hnodes : ∀ c d, nodes' !! c = Some d → ∃ n def, nodes !! n = Some def ∧ renamed renames n = c
  ∧ ParseNetworkModeContainer (DefNetworkMode d) = renamed renames (ParseNetworkModeContainer (DefNetworkMode def)).
Hypothesis Hmodes : ∀ n def, nodes !! n = Some def → ParseNetworkModeContainer (DefNetworkMode def) ≠ "" →
  is_Some (nodes !! ParseNetworkModeContainer (DefNetworkMode def)).

(** A reference of a renamed node is the renamed reference. *)
Lemma refers_renamed n c' :
  is_Some (nodes !! n) → refers (asNodes nodes') (renamed renames n) c' →
  ∃ n', refers (asNodes nodes) n n' ∧ is_Some (nodes !! n') ∧ renamed renames n' = c'.
Proof.
  intros Hn (node & Hc & Hp & Hne). unfold asNodes in Hc. rewrite lookup_fmap in Hc.
  apply fmap_Some in Hc as (d & Hd & ->). change (NetworkMode (MkNode "" "" (DefNetworkMode d))) with (DefNetworkMode d) in Hp.
  destruct (Hnodes _ _ Hd) as (m & def & Hm & Hmn & Hpar). apply Hinj in Hmn as ->; [|eauto|done].
  assert (ParseNetworkModeContainer (DefNetworkMode def) ≠ "") as Hne'.
  { intros He. rewrite He in Hpar. unfold renamed in Hpar. rewrite Hempty in Hpar. congruence. }
  exists (ParseNetworkModeContainer (DefNetworkMode def)). split_and!; [|by eapply Hmodes|congruence].
  eexists. split; [by apply asNodes_lookup|]. done.
Qed.

Lemma tc_refers_renamed c c' :
  tc (refers (asNodes nodes')) c c' → ∀ n, is_Some (nodes !! n) → renamed renames n = c →
  ∃ n', tc (refers (asNodes nodes)) n n' ∧ is_Some (nodes !! n') ∧ renamed renames n' = c'.
Proof.
  induction 1 as [c c' Hr|c d c' Hr _ IH]; intros n Hn <-;
    destruct (refers_renamed n _ Hn Hr) as (m & Hnm & Hm & Hmc).
  - exists m. split_and!; [by apply tc_once|done|done].
  - destruct (IH m Hm Hmc) as (n' & Hmn & Hn' & Hc'). exists n'. split_and!; [by eapply tc_l|done|done].
Qed.

Lemma acyclic_renamed : acyclic (asNodes nodes) → acyclic (asNodes nodes').
Proof.
  intros Hac c Hcyc.
  assert (∃ n, is_Some (nodes !! n) ∧ renamed renames n = c) as (n & Hn & Hnc).
  { assert (∃ b, refers (asNodes nodes') c b) as (b & node & Hc & _) by (inversion Hcyc; eauto).
    unfold asNodes in Hc. rewrite lookup_fmap in Hc. apply fmap_Some in Hc as (d & Hd & _).
    destruct (Hnodes _ _ Hd) as (n & def & Hn & Hnc & _). eauto. }
  destruct (tc_refers_renamed c c Hcyc n Hn Hnc) as (n' & Htc & Hn' & Hc'). subst c.
  apply Hinj in Hc' as ->; [|done|done]. by apply Hac in Htc.
Qed.
End renamed_references.

Section success.
Context `{!FmtQuote, !RangeOrder string, !ContainerlabTopology}.
Variables (vocabulary : gset string) (SanitizeName : string → string)
  (SanitizeNodeNames : list string → result string (gmap string string))
  (IsQualifiedName IsValidLabelValue IsDNS1035Label : string → list string).

Lemma sanitizes_injective nodes renames :
  sanitizes SanitizeNodeNames → SanitizeNodeNames (sortedNodeNames nodes) = Ok renames →
  injectiveRenames nodes renames.
Proof.
  intros Hlaw Hr. destruct (Hlaw _ _ Hr) as [Hkeys Hinj]. unfold sortedNodeNames in *. split.
  - intros n c Hn%Hkeys. by apply elem_of_sorted_keys.
  - intros a b Ha Hb. apply Hinj; by apply elem_of_sorted_keys.
Qed.

(** The definition a node is compiled to, from the one the passes accepted. *)
Definition renamedDefinition (renames : gmap string string) (n : string) (def : NodeDefinition) : NodeDefinition :=
  RenameNetworkModePrimary renames (recordOriginalName IsValidLabelValue n def).

Lemma renamedDefinition_payload renames n def : samePayload def (renamedDefinition renames n def).
Proof.
  eapply samePayload_trans; [apply recordOriginalName_payload|apply RenameNetworkModePrimary_payload].
Qed.

Lemma renamedDefinition_primary renames n def :
  ParseNetworkModeContainer (DefNetworkMode (renamedDefinition renames n def)) =
  renamed renames (ParseNetworkModeContainer (DefNetworkMode def)).
Proof.
  unfold renamedDefinition. rewrite RenameNetworkModePrimary_primary.
  by rewrite (proj2 (recordOriginalName_payload IsValidLabelValue n def)).
Qed.

(** Apart from the recorded original name the labels are the accepted ones. *)
Lemma renamedDefinition_labels renames n def :
  delete labelOriginalNodeName (DefLabels (renamedDefinition renames n def)) =
  delete labelOriginalNodeName (DefLabels def).
Proof.
  unfold renamedDefinition, RenameNetworkModePrimary, recordOriginalName.
  destruct (DefLabels def !! labelOriginalNodeName) eqn:El; [by destruct (renames !! _)|].
  destruct (negb _); destruct (renames !! _); cbn; rewrite ?delete_insert_eq; done.
Qed.

Lemma usableLabels_delete labels key :
  usableLabels IsQualifiedName IsValidLabelValue labels →
  usableLabels IsQualifiedName IsValidLabelValue (delete key labels).
Proof.
  intros (H1 & H2 & H3). split_and!; [by apply lookup_delete_None; right|by apply lookup_delete_None; right|].
  intros k v [_ Hk]%lookup_delete_Some. by apply H3.
Qed.

Lemma samePayload_aliases d d' : samePayload d d' → DefAliases d' = DefAliases d.
Proof. unfold samePayload. by intros ->. Qed.

Lemma samePayload_checks d d' : samePayload d d' → knownPolicies d → freeBinds d → knownPolicies d' ∧ freeBinds d'.
Proof. unfold samePayload, knownPolicies, freeBinds. by intros ->. Qed.

Section renaming_accepted.
Variables (topology : fileTopology) (fieldLines : blockLines) (nodes : gmap string NodeDefinition)
  (links : list CompiledLink) (renames : gmap string string) (compiled : CompiledDefinition).
Hypothesis Hacc : accepted SanitizeName IsQualifiedName IsValidLabelValue IsDNS1035Label topology fieldLines
  nodes links.
Hypothesis Hinj : injectiveRenames nodes renames.
Hypothesis Hempty : nodes !! "" = None.
Hypothesis Hnodes : ∀ c d, CDNodes compiled !! c = Some d ↔
  ∃ n def, nodes !! n = Some def ∧ renamed renames n = c ∧ d = renamedDefinition renames n def.

Lemma renames_empty : renames !! "" = None.
Proof. apply eq_None_not_Some. intros [c Hc]. apply (proj1 Hinj) in Hc. rewrite Hempty in Hc. by destruct Hc. Qed.

Lemma compiled_node n def :
  is_Some (nodes !! n) → CDNodes compiled !! renamed renames n = Some def →
  (∃ ds0 ds1 flattened, flattenNodeDefinition (importedTopology topology) n fieldLines ds0 = Ok (ds1, flattened)
                        ∧ flattenedInto flattened def)
  ∧ knownPolicies def ∧ freeBinds def
  ∧ usableLabels IsQualifiedName IsValidLabelValue (delete labelOriginalNodeName (DefLabels def)).
Proof.
  intros Hn Hc. apply Hnodes in Hc as (m & def0 & Hm & Hmn & ->).
  apply (proj2 Hinj) in Hmn as ->; [|eauto|done].
  pose proof (renamedDefinition_payload renames n def0) as Hpay.
  destruct (accepted_flat Hacc n def0 Hm) as (ds0 & ds1 & flattened & Hf & Ho).
  split; [exists ds0, ds1, flattened; split; [done|by eapply flattenedInto_intro]|].
  destruct (samePayload_checks _ _ Hpay (accepted_policies Hacc n def0 Hm) (accepted_binds Hacc n def0 Hm)).
  split_and!; [done|done|]. rewrite renamedDefinition_labels.
  apply usableLabels_delete, (accepted_labels Hacc n def0 Hm).
Qed.

Lemma compiled_modes c def :
  CDNodes compiled !! c = Some def →
  DefNetworkMode def = "" ∨ is_Some (CDNodes compiled !! ParseNetworkModeContainer (DefNetworkMode def)).
Proof.
  intros Hc. apply Hnodes in Hc as (n & def0 & Hn & <- & ->). rewrite renamedDefinition_primary.
  destruct (accepted_modes Hacc n def0 Hn) as [Hm|(primary & <- & _ & _ & [dp Hp])].
  - left. unfold renamedDefinition, RenameNetworkModePrimary.
    destruct (recordOriginalName_payload IsValidLabelValue n def0) as [_ Hmode]. rewrite Hmode, Hm.
    change (ParseNetworkModeContainer "") with "". by rewrite renames_empty, Hmode.
  - right. eexists. apply Hnodes. by exists (ParseNetworkModeContainer (DefNetworkMode def0)), dp.
Qed.

Lemma compiled_acyclic : acyclic (asNodes (CDNodes compiled)).
Proof.
  apply (acyclic_renamed nodes _ renames); [apply Hinj|apply renames_empty| | |apply (accepted_acyclic Hacc)].
  - intros c d Hc. apply Hnodes in Hc as (n & def0 & Hn & <- & ->). exists n, def0. split_and!; [done|done|].
    apply renamedDefinition_primary.
  - intros n def0 Hn Hne. destruct (accepted_modes Hacc n def0 Hn) as [Hm|(p & <- & _ & _ & ?)]; [|done].
    by rewrite Hm in Hne.
Qed.

Lemma compiled_aliases c1 d1 i c2 d2 j a :
  CDNodes compiled !! c1 = Some d1 → DefAliases d1 !! i = Some a →
  IsDNS1035Label a = []
  ∧ (CDNodes compiled !! c2 = Some d2 → DefAliases d2 !! j = Some a → c1 = c2 ∧ i = j).
Proof.
  intros Hc1 Ha1. apply Hnodes in Hc1 as (n1 & def1 & Hn1 & <- & ->).
  rewrite (samePayload_aliases _ _ (renamedDefinition_payload renames n1 def1)) in Ha1. split.
  - pose proof (accepted_aliases Hacc) as Hall. rewrite list.Forall_forall in Hall. apply (Hall a).
    apply (list_elem_of_fmap_2 (λ e : string * (nat * string), e.2.2) _ (n1, (i, a))). by eapply aliasEntries_elem.
  - intros Hc2 Ha2. apply Hnodes in Hc2 as (n2 & def2 & Hn2 & <- & ->).
    rewrite (samePayload_aliases _ _ (renamedDefinition_payload renames n2 def2)) in Ha2.
    by destruct (allAliases_unique _ _ _ _ _ _ _ _ (accepted_distinct Hacc) Hn1 Ha1 Hn2 Ha2) as [-> ->].
Qed.
End renaming_accepted.

(** Renaming an accepted topology gives a faithful one. *)
Lemma accepted_faithful topology fieldLines nodes protocols links mgmt ds ds' renames compiled :
  sanitizes SanitizeNodeNames →
  FileNodes topology !! LinkHostNodeName = None → FileNodes topology !! "" = None →
  accepted SanitizeName IsQualifiedName IsValidLabelValue IsDNS1035Label topology fieldLines nodes links →
  SanitizeNodeNames (sortedNodeNames nodes) = Ok renames →
  sanitizeCompiledNodeNames SanitizeNodeNames IsValidLabelValue
    (MkCompiledDefinition TopologyKindContainerlab nodes protocols links mgmt ∅) ds = (ds', compiled) →
  CDNodes compiled !! LinkHostNodeName = None →
  faithful IsQualifiedName IsValidLabelValue IsDNS1035Label topology fieldLines renames compiled.
Proof.
  intros Hlaw Hhost Hempty Hacc Hr Hs Hkept. set (before := MkCompiledDefinition _ nodes protocols links mgmt ∅) in Hs.
  pose proof (sanitizes_injective nodes renames Hlaw Hr) as Hinj.
  pose proof (sanitize_lookup SanitizeNodeNames IsValidLabelValue before ds renames Hr Hinj eq_refl) as Hlook.
  assert (∀ n c, renames !! n = Some c → c ≠ LinkHostNodeName) as Hnohost.
  { intros n c Hc ->. rewrite Hs in Hlook. destruct Hlook as (_ & _ & Hnodes & _). cbn [before CDNodes] in Hnodes.
    destruct Hinj as [Hkeys _]. destruct (Hkeys _ _ Hc) as [def Hn].
    assert (is_Some (CDNodes compiled !! LinkHostNodeName)) as [d Hd]; [|congruence].
    eexists. apply Hnodes. exists n, def. split; [done|]. split; [|reflexivity]. unfold renamed. by rewrite Hc. }
  assert (∀ n, is_Some (FileNodes topology !! n) ↔ is_Some (nodes !! n)) as Hdom.
  { intros n. by rewrite <- !elem_of_dom, (accepted_dom Hacc). }
  assert (nodes !! LinkHostNodeName = None ∧ nodes !! "" = None) as [Hh He].
  { rewrite !eq_None_not_Some, <- !Hdom, <- !eq_None_not_Some. done. }
  pose proof (renaming_spec SanitizeNodeNames IsValidLabelValue before ds renames Hr Hinj eq_refl Hnohost
    (accepted_connects Hacc) Hh) as Hren.
  rewrite Hs in Hlook, Hren. destruct Hlook as (_ & Hlinks & Hnodes & _), Hren as (_ & Hds & Hsrc & Hwires).
  cbn [before CDNodes CDLinks] in *. split.
  - intros c. rewrite Hds. by setoid_rewrite Hdom.
  - intros n [def Hn]%Hdom. by apply (Hsrc n def Hn).
  - intros n def Hn%Hdom. by eapply compiled_node.
  - by eapply compiled_modes.
  - by eapply compiled_acyclic.
  - rewrite Hlinks. apply Forall2_fmap_r. eapply Forall2_impl; [apply (accepted_links Hacc)|].
    intros link wire Hw. by exists wire.
  - clear -Hwires. induction Hwires as [|l l' ? ? (Hc & _)]; by constructor.
  - by eapply compiled_aliases.
Qed.

(** C16: A topology that compiles is compiled faithfully.  When the whole pipeline succeeds
    (for any sanitizer that keeps names apart, and unless the definition calls a node [host]
    or the empty string or one is renamed to [host], as [renamed_node_becomes_host] shows it
    may be), the definition parsed without an
    unknown field, declares no field the vocabulary rejects and hides no generic field in a
    kind's configuration; the compiled nodes are exactly the declared ones, each leading back
    to its name and carrying the values containerlab's inheritance gives it (but for the
    ports and labels the directives rewrite), with realizable policies, no bind on a reserved
    path and usable labels; every network mode names a compiled node and no Pod group is a
    cycle; every declared link is a wire, in order, between compiled nodes or to the host;
    and the aliases are distinct Service names. *)
Theorem compile_success decoded parsed ds compiled topology :
  sanitizes SanitizeNodeNames →
  FileTopology decoded.1 = Some topology →
  FileNodes topology !! LinkHostNodeName = None → FileNodes topology !! "" = None →
  compileContainerlabDefinition vocabulary SanitizeName SanitizeNodeNames IsQualifiedName IsValidLabelValue
    IsDNS1035Label decoded parsed ds = Ok compiled →
  CDNodes compiled !! LinkHostNodeName = None →
  ∃ document renames, parsed = Ok document
    ∧ loadDefinitionFile decoded = Ok (decoded.1, [])
    ∧ rejectsNothing (definitionFieldLines document)
    ∧ (∀ def, declaredBlock topology def → absorbsNothing vocabulary def)
    ∧ faithful IsQualifiedName IsValidLabelValue IsDNS1035Label topology (definitionFieldLines document)
        renames compiled.
Proof.
  intros Hlaw Ht Hhost Hempty Hc Hkept. apply compile_steps in Hc as (topology' & document & Ht' & Hp & Hl & Hrej & Habs & Hc).
  rewrite Ht in Ht'. injection Ht' as <-.
  destruct Hc as (nodes & protocols & links & ds1 & ds2 & renames & Hacc & Hr & Hs).
  exists document, renames. split_and!; [done|done|done|done|by eapply accepted_faithful].
Qed.
End success.

(** ** Concrete compiles *)

#[local] Instance quoting_compile : FmtQuote := quoted.
#[local] Instance compile_range : RangeOrder string := canonical_range.
#[local] Instance containerlab_compile : ContainerlabTopology := withoutInheritance.

(** A sanitizer that lower-cases, and fails when that makes names collide. *)
Definition lowercasingRenames (names : list string) : gmap string string :=
  list_to_map ((λ n, (n, ToLower n)) <$> filter (λ n, ToLower n ≠ n) names).

Definition checkedLowercasing (names : list string) : result string (gmap string string) :=
  if bool_decide (NoDup (renamed (lowercasingRenames names) <$> names))
  then Ok (lowercasingRenames names) else Err "node names collide".

Lemma checkedLowercasing_sanitizes : sanitizes checkedLowercasing.
Proof.
  intros names renames. unfold checkedLowercasing. case_bool_decide as Hnd; [|done]. intros [= <-]. split.
  - intros n c Hc. by apply elem_of_list_to_map_2, list_elem_of_fmap in Hc as (m & [= -> ->] & [_ Hm]%list_elem_of_filter).
  - intros a b Ha Hb Hab. by eapply NoDup_key_inj.
Qed.

(** A definition with the given nodes and links and nothing else. *)
Definition plainFile (nodes : gmap string (option NodeDefinition)) (links : list linkDefinition) : definitionFile :=
  MkDefinitionFile [] (Some (MkFileTopology None ∅ nodes ∅ links)).

(** The YAML of a topology with one node block that has one field. *)
Definition oneNodeDocument (name field : string) : yamlNode :=
  let scalar value line := YamlNode ScalarNode "!!str" value line [] in
  let mapping content := YamlNode MappingNode "!!map" "" 0 content in
  YamlNode DocumentNode "" "" 0
    [mapping [scalar "topology" 1; mapping [scalar "nodes" 2; mapping
       [scalar name 3; mapping [scalar field 4; scalar "x" 4]]]]].

Definition compileLab (nodes : gmap string (option NodeDefinition)) (links : list linkDefinition) (field : string) :
    result compileError CompiledDefinition :=
  compileContainerlabDefinition ∅ id checkedLowercasing (λ _, []) (λ _, []) (λ _, [])
    (plainFile nodes links, decodeOk) (Ok (oneNodeDocument "R1" field)) [].

(** Aliases are checked against the names the definition uses, but Services are named
    after the compiled nodes: a node called [R1], compiled to [r1], and an alias [r1] of
    another node pass the compile and claim the same Service name. *)
Theorem alias_collides_with_renamed_node :
  let nodes : gmap string (option NodeDefinition) :=
    {["R1" := Some emptyNodeDefinition; "sw" := Some (emptyNodeDefinition <| DefAliases := ["r1"] |>)]} in
  match compileLab nodes [] "kind" with
  | Ok compiled => is_Some (CDNodes compiled !! "r1")
                   ∧ (DefAliases <$> CDNodes compiled !! "sw") = Some ["r1"]
  | Err _ => False
  end.
Proof. vm_compute. split; [by eexists|done]. Qed.

(** A rejected field, declared anywhere, fails the compile. *)
Example rejected_field_fails :
  match compileLab {["R1" := Some emptyNodeDefinition]} [] "runtime" with
  | Err (errUnsupportedFeatures ds) => (Code <$> ds) = [unsupportedFieldCode]
  | _ => False
  end.
Proof. vm_compute. reflexivity. Qed.

Definition labNodes : gmap string (option NodeDefinition) :=
  {["R1" := Some emptyNodeDefinition;
    "con" := Some (emptyNodeDefinition <| DefNetworkMode := "container:R1" |>)]}.
Definition labLinks : list linkDefinition := [LinkDefinition "" ["R1:eth1"; "host:veth1"] 0 0 9000].

Lemma compile_success_witness :
  match compileLab labNodes labLinks "kind" with
  | Ok compiled => SourceNodeName compiled "r1" = "R1" ∧ acyclic (asNodes (CDNodes compiled))
                   ∧ (EndpointNode ∘ CompiledA <$> CDLinks compiled) = ["r1"]
  | Err _ => False
  end.
Proof.
  destruct (compileLab labNodes labLinks "kind") as [compiled|e] eqn:E; [|vm_compute in E; discriminate].
  split; [|split].
  - vm_compute in E. injection E as <-. vm_compute. reflexivity.
  - assert (CDNodes compiled !! LinkHostNodeName = None) as Hk.
    { vm_compute in E. injection E as <-. vm_compute. reflexivity. }
    destruct (compile_success ∅ id checkedLowercasing (λ _, []) (λ _, []) (λ _, [])
      (plainFile labNodes labLinks, decodeOk) (Ok (oneNodeDocument "R1" "kind")) [] compiled
      (MkFileTopology None ∅ labNodes ∅ labLinks) checkedLowercasing_sanitizes eq_refl eq_refl eq_refl E Hk)
      as (document & renames & _ & _ & _ & _ & Hf). exact (faithful_acyclic _ _ _ _ _ _ _ Hf).
  - vm_compute in E. injection E as <-. vm_compute. reflexivity.
Defined.
