(* ===== verification/GoNet.v ===== *)
(** * Go's [net] and [net/netip]

    The part of Go's [net/netip] (and [net.ParseMAC]) the controllers and the direct runtime
    use: addresses, their text, prefixes and the arithmetic on them.  An address holds its
    value as an integer, most significant bit first on the wire; the code that works on the
    bytes of an address goes through [As4], [As16] and their inverses. *)

From S2P Require Import Prelude WireCodec Api GoStrings.
Local Open Scope Z_scope.

(** ** Addresses *)

(** [netip.Addr]: the zero value, an IPv4 address, or an IPv6 address with its zone. *)
Inductive Addr :=
| AddrZero
| Addr4 (value : Z)
| Addr6 (value : Z) (zone : string).

#[export] Instance Addr_eq_dec : EqDecision Addr.
Proof. solve_decision. Defined.
#[export] Instance Addr_countable : Countable Addr.
Proof.
  refine (inj_countable'
    (λ a, match a with AddrZero => None | Addr4 v => Some (inl v) | Addr6 v z => Some (inr (v, z)) end)
    (λ e, match e with None => AddrZero | Some (inl v) => Addr4 v | Some (inr (v, z)) => Addr6 v z end)
    _).
  by intros [].
Defined.

Definition IsValid (a : Addr) : bool := negb (bool_decide (a = AddrZero)).
Definition Is4 (a : Addr) : bool := match a with Addr4 _ => true | _ => false end.
Definition Is6 (a : Addr) : bool := match a with Addr6 _ _ => true | _ => false end.
Definition BitLen (a : Addr) : Z :=
  match a with AddrZero => 0 | Addr4 _ => 32 | Addr6 _ _ => 128 end.
Definition addrValue (a : Addr) : Z :=
  match a with AddrZero => 0 | Addr4 v | Addr6 v _ => v end.
Definition hasZone (a : Addr) : bool :=
  match a with Addr6 _ z => negb (bool_decide (z = "")) | _ => false end.
Definition withoutZone (a : Addr) : Addr := match a with Addr6 v _ => Addr6 v "" | _ => a end.
Definition Is4In6 (a : Addr) : bool :=
  match a with Addr6 v _ => bool_decide (Z.shiftr v 32 = 65535) | _ => false end.
(** [Unmap]: the IPv4 address an IPv4-mapped IPv6 address carries. *)
Definition Unmap (a : Addr) : Addr :=
  match a with
  | Addr6 v _ => if Is4In6 a then Addr4 (v mod 2 ^ 32) else a
  | _ => a
  end.

Definition As4 (v : Z) : list byte := be_bytes 4 v.
Definition As16 (v : Z) : list byte := be_bytes 16 v.
Definition AddrFrom4 (bytes : list byte) : Addr := Addr4 (be_value bytes).
Definition AddrFrom16 (bytes : list byte) : Addr := Addr6 (be_value bytes) "".

(** [Addr.Next]: the zero value after the last address. *)
Definition Next (a : Addr) : Addr :=
  match a with
  | AddrZero => AddrZero
  | Addr4 v => let v := (v + 1) mod 2 ^ 32 in if v =? 0 then AddrZero else Addr4 v
  | Addr6 v z => let v := (v + 1) mod 2 ^ 128 in if v =? 0 then AddrZero else Addr6 v z
  end.

(** ** Reading an address *)

Definition dot : Ascii.ascii := char 46.
Definition netColon : Ascii.ascii := char 58.
Definition percent : Ascii.ascii := char 37.
Definition netSlash : Ascii.ascii := char 47.

(** One decimal field of a dotted address: digits without a superfluous leading zero. *)
Definition octet (part : string) : option Z :=
  match part with
  | EmptyString => None
  | String a rest =>
      if (code a =? 48) && negb (bool_decide (rest = "")) then None
      else match digitsValue 0 part with
           | Some v => if v <=? 255 then Some v else None
           | None => None
           end
  end.

(** [parseIPv4Fields]. *)
Definition parseIPv4Fields (s : string) : option (list Z) :=
  match Split dot s with
  | [a; b; c; d] =>
      match octet a, octet b, octet c, octet d with
      | Some a, Some b, Some c, Some d => Some [a; b; c; d]
      | _, _, _, _ => None
      end
  | _ => None
  end.

Definition parseIPv4 (s : string) : option Addr := AddrFrom4 <$> parseIPv4Fields s.

(** The value of a hexadecimal digit. *)
Definition hexValue (a : Ascii.ascii) : option Z :=
  let c := code a in
  if (48 <=? c) && (c <=? 57) then Some (c - 48)
  else if (97 <=? c) && (c <=? 102) then Some (c - 97 + 10)
  else if (65 <=? c) && (c <=? 70) then Some (c - 65 + 10)
  else None.

(** The hexadecimal digits a string starts with: their value, their number and what follows;
    [None] with more than four digits. *)
Fixpoint hexField (off : nat) (acc : Z) (s : string) : option (Z * nat * string) :=
  match s with
  | String a rest =>
      match hexValue a with
      | Some d => if Nat.ltb 3 off then None else hexField (S off) (acc * 16 + d) rest
      | None => Some (acc, off, s)
      end
  | EmptyString => Some (acc, off, s)
  end.

(** The loop of [parseIPv6]: the groups read so far and where the ellipsis stands. *)
Fixpoint ipv6Groups (fuel : nat) (groups : list Z) (ellipsis : option nat) (s : string) :
    option (list Z * option nat) :=
  match fuel with
  | O => if bool_decide (s = "") then Some (groups, ellipsis) else None
  | S fuel =>
      match hexField 0 0 s with
      | None | Some (_, O, _) => None
      | Some (acc, _, String a rest) =>
          if bool_decide (a = dot) then
            if bool_decide (ellipsis = None) && negb (Nat.eqb (length groups) 6) then None
            else if Nat.ltb 6 (length groups) then None
            else match parseIPv4Fields s with
                 | Some [a; b; c; d] => Some (groups ++ [a * 256 + b; c * 256 + d], ellipsis)
                 | _ => None
                 end
          else if bool_decide (a = netColon) then
            let groups := groups ++ [acc] in
            match rest with
            | EmptyString => None
            | String b rest' =>
                if bool_decide (b = netColon) then
                  if bool_decide (ellipsis = None) then
                    if bool_decide (rest' = "") then Some (groups, Some (length groups))
                    else ipv6Groups fuel groups (Some (length groups)) rest'
                  else None
                else ipv6Groups fuel groups ellipsis rest
            end
          else None
      | Some (acc, _, EmptyString) => Some (groups ++ [acc], ellipsis)
      end
  end.

(** Eight groups, the ellipsis expanded to the missing zeros (at least one). *)
Definition expandGroups (groups : list Z) (ellipsis : option nat) : option (list Z) :=
  let n := length groups in
  if Nat.ltb n 8 then
    match ellipsis with
    | None => None
    | Some e => Some (take e groups ++ replicate (8 - n) 0 ++ drop e groups)
    end
  else if bool_decide (ellipsis = None) then Some groups else None.

Definition groupsValue (groups : list Z) : Z := foldl (λ acc g, acc * 65536 + g) 0 groups.

(** [parseIPv6]. *)
Definition parseIPv6 (input : string) : option Addr :=
  let cut := Cut percent input in
  let s := match cut with Some (before, _) => before | None => input end in
  let zone := match cut with Some (_, after) => after | None => "" end in
  if bool_decide (is_Some cut) && bool_decide (zone = "") then None
  else
    let leading := HasPrefix s "::" in
    let rest := if leading then TrimPrefix s "::" else s in
    if leading && bool_decide (rest = "") then Some (Addr6 0 zone)
    else
      match ipv6Groups 8 [] (if leading then Some O else None) rest with
      | None => None
      | Some (groups, ellipsis) =>
          (λ groups, Addr6 (groupsValue groups) zone) <$> expandGroups groups ellipsis
      end.

(** [netip.ParseAddr]: the first of ['.'], [':'] and ['%'] decides the family. *)
Fixpoint addrFamily (s : string) : option Ascii.ascii :=
  match s with
  | EmptyString => None
  | String a s =>
      if bool_decide (a = dot) || bool_decide (a = netColon) || bool_decide (a = percent)
      then Some a else addrFamily s
  end.

Definition ParseAddr (s : string) : option Addr :=
  match addrFamily s with
  | Some a => if bool_decide (a = dot) then parseIPv4 s
              else if bool_decide (a = netColon) then parseIPv6 s else None
  | None => None
  end.

(** ** Prefixes *)

(** A valid [netip.Prefix]: an address without zone and a length within its width. *)
Record Prefix := MkPrefix { PrefixAddr : Addr; Bits : Z }.
#[export] Instance Prefix_eq_dec : EqDecision Prefix.
Proof. solve_decision. Defined.

(** [netip.PrefixFrom] with a valid address and length. *)
Definition PrefixFrom (a : Addr) (bits : Z) : Prefix := MkPrefix (withoutZone a) bits.

(** [s[:strings.LastIndexByte(s, sep)]] and what follows it. *)
Fixpoint CutLast (sep : Ascii.ascii) (s : string) : option (string * string) :=
  match s with
  | EmptyString => None
  | String a rest =>
      match CutLast sep rest with
      | Some (before, after) => Some (String a before, after)
      | None => if bool_decide (a = sep) then Some ("", rest) else None
      end
  end.

(** [netip.ParsePrefix]. *)
Definition ParsePrefix (s : string) : option Prefix :=
  match CutLast netSlash s with
  | None => None
  | Some (addr, bitsStr) =>
      match ParseAddr addr with
      | None => None
      | Some ip =>
          if Is6 ip && hasZone ip then None
          else
            let badHead := match bitsStr with
              | String a (String _ _) => (code a <? 49) || (57 <? code a)
              | _ => false
              end in
            if badHead then None
            else match Atoi bitsStr with
                 | None => None
                 | Some bits =>
                     if (bits <? 0) || ((if Is6 ip then 128 else 32) <? bits) then None
                     else Some (PrefixFrom ip bits)
                 end
      end
  end.

(** [Prefix.Masked]: the bits after the prefix are cleared. *)
Definition maskValue (width bits v : Z) : Z := Z.shiftl (Z.shiftr v (width - bits)) (width - bits).
Definition Masked (p : Prefix) : Prefix :=
  match PrefixAddr p with
  | AddrZero => p
  | Addr4 v => MkPrefix (Addr4 (maskValue 32 (Bits p) v)) (Bits p)
  | Addr6 v z => MkPrefix (Addr6 (maskValue 128 (Bits p) v) z) (Bits p)
  end.

(** [Prefix.Contains]. *)
Definition PrefixContains (p : Prefix) (a : Addr) : bool :=
  if hasZone a then false
  else if (BitLen (PrefixAddr p) =? 0) || negb (BitLen (PrefixAddr p) =? BitLen a) then false
  else Z.shiftr (Z.lxor (addrValue a) (addrValue (PrefixAddr p))) (BitLen a - Bits p) =? 0.

(** ** Printing *)

Definition hexDigit (d : Z) : Ascii.ascii := if d <? 10 then char (48 + d) else char (87 + d).

Fixpoint hexDigits (fuel : nat) (n : Z) (acc : string) : string :=
  match fuel with
  | O => acc
  | S fuel =>
      let acc' := String (hexDigit (n mod 16)) acc in
      if n <? 16 then acc' else hexDigits fuel (n / 16) acc'
  end.

(** [appendHex] of a 16-bit group. *)
Definition hex16 (g : Z) : string := hexDigits 4 g "".

Definition string4 (v : Z) : string :=
  Join (Itoa <$> be_bytes 4 v) ".".

(** The eight groups of an IPv6 address. *)
Definition groups6 (v : Z) : list Z :=
  (λ i, (Z.shiftr v (16 * (7 - Z.of_nat i))) mod 65536) <$> seq 0 8.

(** The run of zero groups that starts at [i]. *)
Fixpoint zeroRun (groups : list Z) : nat :=
  match groups with
  | g :: groups => if g =? 0 then S (zeroRun groups) else O
  | [] => O
  end.

(** The longest run of at least two zero groups, the first one of equal ones. *)
Definition longestRun (groups : list Z) : option (nat * nat) :=
  foldl (λ best i,
      let l := zeroRun (drop i groups) in
      let bestLen := match best with Some (_, n) => n | None => O end in
      if Nat.leb 2 l && Nat.ltb bestLen l then Some (i, l) else best)
    None (seq 0 8).

Definition string6 (v : Z) : string :=
  let groups := groups6 v in
  match longestRun groups with
  | Some (start, len) =>
      Join (hex16 <$> take start groups) ":" +:+ "::" +:+ Join (hex16 <$> drop (start + len) groups) ":"
  | None => Join (hex16 <$> groups) ":"
  end.

(** [Addr.String]. *)
Definition AddrString (a : Addr) : string :=
  match a with
  | AddrZero => "invalid IP"
  | Addr4 v => string4 v
  | Addr6 v z =>
      (if Is4In6 a then "::ffff:" +:+ string4 (v mod 2 ^ 32) else string6 v)
      +:+ (if bool_decide (z = "") then "" else "%" +:+ z)
  end.

(** [Prefix.String]. *)
Definition PrefixString (p : Prefix) : string :=
  AddrString (PrefixAddr p) +:+ "/" +:+ Itoa (Bits p).

(** ** Link-layer addresses *)

Definition hexByte (part : string) : option Z :=
  match part with
  | String a (String b EmptyString) =>
      match hexValue a, hexValue b with Some a, Some b => Some (a * 16 + b) | _, _ => None end
  | _ => None
  end.

Definition hexWord (part : string) : option (list Z) :=
  match part with
  | String a (String b (String c (String d EmptyString))) =>
      match hexByte (String a (String b "")), hexByte (String c (String d "")) with
      | Some x, Some y => Some [x; y]
      | _, _ => None
      end
  | _ => None
  end.

(** [net.ParseMAC]: six, eight or twenty bytes, in pairs of digits separated by [':'] or
    ['-'], or in groups of four digits separated by ['.']. *)
Definition ParseMAC (s : string) : option (list Z) :=
  match String.get 2 s, String.get 4 s with
  | Some sep, Some sep4 =>
      let bytes :=
        if bool_decide (sep = netColon) || bool_decide (sep = char 45)
        then mapM hexByte (Split sep s)
        else if bool_decide (sep4 = dot) then mjoin <$> mapM hexWord (Split dot s)
        else None in
      match bytes with
      | Some bytes =>
          if Nat.eqb (length bytes) 6 || Nat.eqb (length bytes) 8 || Nat.eqb (length bytes) 20
          then Some bytes else None
      | None => None
      end
  | _, _ => None
  end.

Example parse_addresses :
  ParseAddr "10.1.2.3" = Some (Addr4 167838211) ∧ ParseAddr "10.1.02.3" = None ∧
  ParseAddr "1.2.3" = None ∧ ParseAddr "::" = Some (Addr6 0 "") ∧
  ParseAddr "2001:db8::1" = Some (Addr6 42540766411282592856903984951653826561 "") ∧
  ParseAddr "1:2:3:4:5:6:7:8:9" = None ∧ ParseAddr "1::2::3" = None ∧
  ParseAddr "::ffff:1.2.3.4" = Some (Addr6 281470698652420 "") ∧
  ParseAddr "fe80::1%eth0" = Some (Addr6 338288524927261089654018896841347694593 "eth0") ∧
  ParsePrefix "172.20.20.0/24" = Some (MkPrefix (Addr4 2886996992) 24) ∧
  ParsePrefix "172.20.20.0/024" = None ∧ ParsePrefix "::/129" = None.
Proof. by vm_compute. Qed.

Example print_addresses :
  AddrString (Addr4 167838211) = "10.1.2.3" ∧
  AddrString (Addr6 42540766411282592856903984951653826561 "") = "2001:db8::1" ∧
  AddrString (Addr6 281470698652420 "") = "::ffff:1.2.3.4" ∧
  AddrString (Addr6 0 "") = "::" ∧
  PrefixString (MkPrefix (Addr4 2886996992) 24) = "172.20.20.0/24".
Proof. by vm_compute. Qed.

Example parse_macs :
  ParseMAC "02:c9:00:00:5e:01" = Some [2; 201; 0; 0; 94; 1] ∧
  ParseMAC "0200.5e00.5301" = Some [2; 0; 94; 0; 83; 1] ∧
  ParseMAC "02:c9:00:00:5e" = None ∧ ParseMAC "02-c9:00:00:5e:01" = None.
Proof. by vm_compute. Qed.

(** ** The bits of an address *)

(** Bit [j] of a byte string, the most significant bit of the first byte being bit 0. *)
Definition bitAt (l : list byte) (j : nat) : bool :=
  Z.testbit (nth (j / 8) l 0) (7 - Z.of_nat (j mod 8)).

Lemma is_byte_testbit b i : is_byte b → 8 ≤ i → Z.testbit b i = false.
Proof.
  intros [H1 H2] Hi. destruct (decide (b = 0)) as [->|]; [apply Z.bits_0|].
  apply Z.bits_above_log2; [done|]. assert (Z.log2 b < 8); [|lia]. apply Z.log2_lt_pow2; lia.
Qed.

Lemma be_value_testbit l j :
  Forall is_byte l → (j < 8 * length l)%nat →
  Z.testbit (be_value l) (8 * Z.of_nat (length l) - 1 - Z.of_nat j) = bitAt l j.
Proof.
  revert j. induction l as [|b l IH] using rev_ind; intros j; [simpl; lia|].
  intros [Hl [Hb _]%list.Forall_cons]%Forall_app Hj. rewrite be_value_app by done.
  rewrite length_app in *. cbn [length] in *. unfold bitAt.
  pose proof (Nat.div_mod_eq j 8) as Hdm. pose proof (Nat.mod_upper_bound j 8 ltac:(lia)) as Hm.
  replace (be_value l * 256 + b) with (Z.lor (Z.shiftl (be_value l) 8) b) by (by rewrite shiftl_lor_byte).
  rewrite Z.lor_spec, Z.shiftl_spec by lia.
  destruct (decide (j < 8 * length l)%nat) as [Hlt|Hge].
  - rewrite app_nth1 by (apply Nat.Div0.div_lt_upper_bound; lia).
    rewrite (is_byte_testbit b) by (done || lia). rewrite orb_false_r. etrans; [|exact (IH j Hl Hlt)]. f_equal. lia.
  - assert (j / 8 = length l)%nat as Hd by (apply Nat.le_antisymm; [apply Nat.lt_succ_r, Nat.Div0.div_lt_upper_bound; lia|apply Nat.div_le_lower_bound; lia]).
    rewrite Hd, app_nth2, Nat.sub_diag by lia. cbn [nth].
    rewrite Z.testbit_neg_r by lia. rewrite orb_false_l. f_equal. rewrite Hd in Hdm. lia.
Qed.

(** Two byte strings that agree on the first bits have the same prefix. *)
Lemma be_value_prefix l l' bits :
  Forall is_byte l → Forall is_byte l' → length l = length l' →
  0 ≤ bits ≤ 8 * Z.of_nat (length l) →
  (∀ j, Z.of_nat j < bits → bitAt l j = bitAt l' j) →
  Z.shiftr (be_value l) (8 * Z.of_nat (length l) - bits)
  = Z.shiftr (be_value l') (8 * Z.of_nat (length l) - bits).
Proof.
  intros Hl Hl' Hlen Hb Hbits. apply Z.bits_inj'. intros i Hi. rewrite !Z.shiftr_spec by done.
  set (w := 8 * Z.of_nat (length l)) in *. destruct (decide (i + (w - bits) < w)) as [Hlt|Hge].
  - set (j := Z.to_nat (w - 1 - (i + (w - bits)))).
    replace (i + (w - bits)) with (w - 1 - Z.of_nat j) by lia. unfold w at 1.
    rewrite be_value_testbit by (done || lia).
    unfold w. rewrite Hlen, be_value_testbit by (done || lia). apply Hbits. lia.
  - pose proof (be_value_bound l Hl). pose proof (be_value_bound l' Hl'). rewrite <- Hlen in H0.
    assert (∀ v, 0 ≤ v < 2 ^ w → Z.testbit v (i + (w - bits)) = false) as Hz; [|by rewrite !Hz].
    intros v Hv. destruct (decide (v = 0)) as [->|]; [apply Z.bits_0|].
    apply Z.bits_above_log2; [lia|]. assert (Z.log2 v < w); [|lia]. apply Z.log2_lt_pow2; lia.
Qed.

(** ** Well-formed addresses and prefixes *)

Definition wf_addr (a : Addr) : Prop :=
  match a with
  | AddrZero => False
  | Addr4 v => 0 ≤ v < 2 ^ 32
  | Addr6 v _ => 0 ≤ v < 2 ^ 128
  end.

Definition wf_prefix (p : Prefix) : Prop :=
  wf_addr (PrefixAddr p) ∧ hasZone (PrefixAddr p) = false ∧ 0 ≤ Bits p ≤ BitLen (PrefixAddr p).

Lemma octet_byte s v : octet s = Some v → is_byte v.
Proof.
  destruct s as [|a s]; [done|]. cbn [octet]. destruct (_ && _); [done|].
  destruct (digitsValue 0 (String a s)) as [w|] eqn:E; [|done]. destruct (w <=? 255) eqn:Hw; [|done].
  intros [= ->]. bool_to_prop. split; [|lia].
  assert (∀ s acc v, 0 ≤ acc → digitsValue acc s = Some v → 0 ≤ v) as Hpos; [|by apply (Hpos _ 0 v) in E].
  clear. intros s. induction s as [|a s IH]; intros acc v Hacc; cbn; [by intros [= <-]|].
  destruct (isDigit a) eqn:Hd; [|done]. apply IH. unfold isDigit in Hd. bool_to_prop. lia.
Qed.

Lemma parseIPv4Fields_bytes s l : parseIPv4Fields s = Some l → length l = 4%nat ∧ Forall is_byte l.
Proof.
  unfold parseIPv4Fields. destruct (Split dot s) as [|a [|b [|c [|d [|]]]]]; try done.
  destruct (octet a) eqn:Ea, (octet b) eqn:Eb, (octet c) eqn:Ec, (octet d) eqn:Ed; try done.
  intros [= <-]. split; [done|]. repeat constructor; by eapply octet_byte.
Qed.

Lemma hexValue_bound a d : hexValue a = Some d → 0 ≤ d < 16.
Proof. unfold hexValue. repeat case_match; intros; simplify_eq; bool_to_prop; lia. Qed.

Lemma hexField_bound s : ∀ off acc v n rest,
  0 ≤ acc < 16 ^ Z.of_nat off → (off ≤ 4)%nat → hexField off acc s = Some (v, n, rest) → 0 ≤ v < 65536.
Proof.
  assert (∀ off acc, 0 ≤ acc < 16 ^ Z.of_nat off → (off ≤ 4)%nat → 0 ≤ acc < 65536) as Hdone.
  { intros off acc Hacc Hoff. assert (16 ^ Z.of_nat off ≤ 16 ^ 4) by (apply Z.pow_le_mono_r; lia). lia. }
  induction s as [|a s IH]; intros off acc v n rest Hacc Hoff; cbn [hexField].
  - intros [= <- <- <-]. by eapply Hdone.
  - destruct (hexValue a) as [d|] eqn:Hd; [|intros [= <- <- <-]; by eapply Hdone].
    destruct (Nat.ltb 3 off) eqn:Hlt; [done|]. apply Nat.ltb_ge in Hlt. apply hexValue_bound in Hd.
    apply IH; [|lia]. rewrite Nat2Z.inj_succ, Z.pow_succ_r by lia. lia.
Qed.

Definition is_group (g : Z) : Prop := 0 ≤ g < 65536.

Lemma ipv6Groups_bound fuel : ∀ groups ellipsis s out e,
  Forall is_group groups → (length groups + fuel = 8)%nat →
  (∀ n, ellipsis = Some n → (n ≤ length groups)%nat) →
  ipv6Groups fuel groups ellipsis s = Some (out, e) →
  Forall is_group out ∧ (length out ≤ 8)%nat ∧ (∀ n, e = Some n → (n ≤ length out)%nat).
Proof.
  induction fuel as [|fuel IH]; intros groups ellipsis s out e Hg Hlen He; cbn [ipv6Groups].
  - destruct (bool_decide (s = "")); [|done]. intros [= <- <-]. split_and!; [done|lia|done].
  - destruct (hexField 0 0 s) as [[[acc n] rest]|] eqn:Hf; [|done].
    assert (is_group acc) as Hacc by (by eapply hexField_bound in Hf; [|lia|lia]).
    assert (Forall is_group (groups ++ [acc])) as Hg' by (apply Forall_app; auto).
    assert (length (groups ++ [acc]) + fuel = 8)%nat as Hlen' by (rewrite length_app; cbn [length]; lia).
    destruct n as [|n]; [done|]. destruct rest as [|a rest].
    { intros [= <- <-]. rewrite length_app in *. cbn [length] in *.
      split_and!; [done|lia|]. intros k Hk%He. lia. }
    destruct (bool_decide (a = dot)).
    { destruct (_ && _); [done|]. destruct (Nat.ltb 6 (length groups)) eqn:H6; [done|]. apply Nat.ltb_ge in H6.
      destruct (parseIPv4Fields s) as [[|x [|y [|z [|w [|]]]]]|] eqn:H4; try done. intros [= <- <-].
      apply parseIPv4Fields_bytes in H4 as [_ Hb]. rewrite length_app. cbn [length].
      split_and!; [|lia|intros k Hk%He; lia].
      apply Forall_app; split; [done|]. repeat (apply list.Forall_cons in Hb as [? Hb]).
      unfold is_group, is_byte in *. repeat constructor; lia. }
    destruct (bool_decide (a = netColon)); [|done]. destruct rest as [|b rest]; [done|].
    destruct (bool_decide (b = netColon)).
    + destruct (bool_decide (ellipsis = None)); [|done]. destruct (bool_decide (rest = "")).
      * intros [= <- <-]. split_and!; [done|lia|]. intros k [= <-]. lia.
      * intros H. eapply IH; [done|done| |done]. intros k [= <-]. lia.
    + intros H. eapply IH; [done|done| |done]. intros k Hk%He. rewrite length_app. lia.
Qed.

Lemma groupsValue_bound l : Forall is_group l → 0 ≤ groupsValue l < 2 ^ (16 * Z.of_nat (length l)).
Proof.
  unfold groupsValue. induction l as [|g l IH] using rev_ind; [done|].
  intros [Hl [Hg _]%list.Forall_cons]%Forall_app. rewrite foldl_app, length_app. cbn [foldl length].
  specialize (IH Hl). destruct Hg.
  replace (16 * Z.of_nat (length l + 1)) with (16 * Z.of_nat (length l) + 16) by lia.
  rewrite Z.pow_add_r by lia. lia.
Qed.

Lemma expandGroups_bound groups e out :
  Forall is_group groups → (length groups ≤ 8)%nat → (∀ n, e = Some n → (n ≤ length groups)%nat) →
  expandGroups groups e = Some out → Forall is_group out ∧ length out = 8%nat.
Proof.
  intros Hg Hlen He. unfold expandGroups. destruct (Nat.ltb (length groups) 8) eqn:Hlt; bool_to_prop.
  - destruct e as [n|]; [|done]. specialize (He n eq_refl). intros [= <-]. split.
    + rewrite <- (take_drop n groups) in Hg. apply Forall_app in Hg as [H1 H2].
      apply Forall_app; split; [done|]. apply Forall_app; split; [|done].
      apply Forall_replicate. unfold is_group. lia.
    + rewrite !length_app, length_replicate, length_take, length_drop. lia.
  - destruct (bool_decide (e = None)); [|done]. intros [= <-]. split; [done|lia].
Qed.

Lemma ParseAddr_wf s a : ParseAddr s = Some a → wf_addr a.
Proof.
  unfold ParseAddr. destruct (addrFamily s) as [c|]; [|done]. destruct (bool_decide (c = dot)).
  - unfold parseIPv4. intros (l & Hl & ->)%fmap_Some. apply parseIPv4Fields_bytes in Hl as [Hlen Hb].
    unfold wf_addr, AddrFrom4. pose proof (be_value_bound l Hb) as H. rewrite Hlen in H. exact H.
  - destruct (bool_decide (c = netColon)); [|done]. unfold parseIPv6. cbv zeta.
    destruct (_ && _); [done|]. destruct (_ && _); [by intros [= <-]|].
    destruct (ipv6Groups _ _ _ _) as [[groups e]|] eqn:Hg; [|done]. intros (l & Hl & ->)%fmap_Some.
    apply ipv6Groups_bound in Hg as (Hb & Hlen & He); [|constructor|done|].
    + destruct (expandGroups_bound _ _ _ Hb Hlen He Hl) as [Hb' Hlen'].
      pose proof (groupsValue_bound l Hb') as H. rewrite Hlen' in H. exact H.
    + intros n. destruct (HasPrefix _ "::"); [intros [= <-]; lia|done].
Qed.

Lemma ParsePrefix_wf s p : ParsePrefix s = Some p → wf_prefix p.
Proof.
  unfold ParsePrefix. destruct (CutLast netSlash s) as [[addr bits]|]; [|done].
  destruct (ParseAddr addr) as [ip|] eqn:Ha; [|done]. apply ParseAddr_wf in Ha.
  destruct (_ && _); [done|]. cbv zeta.
  match goal with |- (if ?b then None else _) = _ → _ => destruct b; [done|] end.
  destruct (Atoi bits) as [n|]; [|done]. destruct (_ || _) eqn:Hb; [done|]. intros [= <-]. bool_to_prop.
  unfold wf_prefix, PrefixFrom. cbn [PrefixAddr Bits]. destruct ip as [|v|v z]; [done| |]; split_and!;
    cbn in *; try done; by destruct (bool_decide _) || lia.
Qed.

Lemma maskValue_shiftr width bits v :
  0 ≤ bits ≤ width → Z.shiftr (maskValue width bits v) (width - bits) = Z.shiftr v (width - bits).
Proof.
  intros Hb. unfold maskValue. rewrite Z.shiftr_shiftl_l by lia. by rewrite Z.sub_diag, Z.shiftl_0_r.
Qed.

Lemma maskValue_bound width bits v :
  0 ≤ bits ≤ width → 0 ≤ v < 2 ^ width → 0 ≤ maskValue width bits v < 2 ^ width.
Proof.
  intros Hb Hv. unfold maskValue. rewrite Z.shiftl_mul_pow2, Z.shiftr_div_pow2 by lia.
  assert (0 < 2 ^ (width - bits)) by (apply Z.pow_pos_nonneg; lia).
  pose proof (Z.mul_div_le v (2 ^ (width - bits)) ltac:(done)).
  pose proof (Z.div_pos v (2 ^ (width - bits)) ltac:(lia) ltac:(done)). nia.
Qed.

Lemma Masked_wf p : wf_prefix p → wf_prefix (Masked p).
Proof.
  destruct p as [a bits]. unfold wf_prefix, Masked. cbn [PrefixAddr Bits].
  destruct a as [|v|v z]; cbn; [tauto| |]; intros (Hv & Hz & Hb); split_and!; try done; try lia;
    apply maskValue_bound; lia.
Qed.

(** A prefix contains an address when they have the same first bits. *)
Definition family (a : Addr) : option bool :=
  match a with AddrZero => None | Addr4 _ => Some true | Addr6 _ _ => Some false end.

Lemma PrefixContains_spec p a :
  wf_prefix p → PrefixContains p a = true ↔
    hasZone a = false ∧ family a = family (PrefixAddr p) ∧
    Z.shiftr (addrValue a) (BitLen a - Bits p) = Z.shiftr (addrValue (PrefixAddr p)) (BitLen a - Bits p).
Proof.
  intros (Hv & Hz & Hb). unfold PrefixContains. destruct (hasZone a); [naive_solver|].
  destruct (_ || _) eqn:Hf.
  - bool_to_prop. split; [done|]. intros (_ & Heq & _). exfalso.
    destruct (PrefixAddr p), a; cbn in *; naive_solver.
  - bool_to_prop. rewrite Z.eqb_eq, Z.shiftr_lxor, Z.lxor_eq_0_iff.
    assert (family a = family (PrefixAddr p)); [|naive_solver].
    destruct (PrefixAddr p), a; cbn in *; congruence || lia.
Qed.

Lemma Masked_contains p a : wf_prefix p → PrefixContains (Masked p) a = PrefixContains p a.
Proof.
  intros Hp. apply eq_bool_prop_intro. rewrite !Is_true_true, !PrefixContains_spec by auto using Masked_wf.
  destruct Hp as (Hv & Hz & Hb). destruct p as [q bits]. unfold Masked. cbn [PrefixAddr Bits] in *.
  destruct q as [|v|v z]; [done| |]; cbn [family PrefixAddr addrValue Bits BitLen] in *;
    (split; intros (H1 & H2 & H3); split_and!; try done;
     destruct a; cbn in H2 |- *; try done; cbn in H3; rewrite ?maskValue_shiftr in * by lia; done).
Qed.

(** ** The text of addresses *)

Definition notSlash (a : Ascii.ascii) : bool := negb (bool_decide (a = netSlash)).

Lemma allChars_Join p parts sep :
  Forall (λ s, allChars p s = true) parts → allChars p sep = true → allChars p (Join parts sep) = true.
Proof.
  intros Hp Hs. unfold Join. induction Hp as [|s parts Hpart Hparts IH]; [done|].
  destruct parts as [|t parts]; [done|]. change (String.concat sep (s :: t :: parts))
    with (s +:+ sep +:+ String.concat sep (t :: parts)).
  rewrite !allChars_app, Hpart, Hs. done.
Qed.

Lemma isDigit_notSlash a : isDigit a = true → notSlash a = true.
Proof.
  unfold isDigit, notSlash. intros H. bool_to_prop. apply negb_true_iff, bool_decide_eq_false. intros ->.
  by vm_compute in H.
Qed.

Lemma hexDigits_notSlash fuel : ∀ n acc,
  allChars notSlash acc = true → allChars notSlash (hexDigits fuel n acc) = true.
Proof.
  induction fuel as [|fuel IH]; intros n acc Hacc; [done|]. cbn [hexDigits].
  assert (allChars notSlash (String (hexDigit (n mod 16)) acc) = true) as Hd.
  { cbn. rewrite Hacc, andb_true_r. pose proof (Z.mod_pos_bound n 16 ltac:(lia)).
    assert (∀ i, (i < 16)%nat → notSlash (hexDigit (Z.of_nat i)) = true) as Hall.
    { intros i Hi. do 16 (destruct i as [|i]; [done|]). lia. }
    rewrite <- (Z2Nat.id (n mod 16)) by lia. apply Hall. lia. }
  destruct (n <? 16); auto.
Qed.

Lemma string4_notSlash v : allChars notSlash (string4 v) = true.
Proof.
  unfold string4. apply allChars_Join; [|done]. apply list.Forall_forall.
  intros s (b & -> & Hb)%list_elem_of_fmap. pose proof (be_bytes_is_byte 4 v) as Hbytes.
  rewrite list.Forall_forall in Hbytes. apply Hbytes in Hb as [Hb _].
  eapply allChars_impl; [apply isDigit_notSlash|]. by apply Itoa_digits.
Qed.

Lemma hex16_list_notSlash l : Forall (λ s, allChars notSlash s = true) (hex16 <$> l).
Proof.
  apply list.Forall_forall. intros s (g & -> & _)%list_elem_of_fmap. by apply hexDigits_notSlash.
Qed.

Lemma AddrString_notSlash a : hasZone a = false → allChars notSlash (AddrString a) = true.
Proof.
  destruct a as [|v|v z]; intros Hz; [done|apply string4_notSlash|]. cbn in Hz.
  apply negb_false_iff, bool_decide_eq_true in Hz. subst z. cbn [AddrString].
  rewrite bool_decide_eq_true_2 by done. rewrite allChars_app, andb_true_iff. split; [|done].
  destruct (Is4In6 _).
  - rewrite allChars_app, string4_notSlash. done.
  - unfold string6. cbv zeta. destruct (longestRun _) as [[start len]|].
    + rewrite !allChars_app, !allChars_Join by (done || apply hex16_list_notSlash). done.
    + by apply allChars_Join; [apply hex16_list_notSlash|].
Qed.

Lemma CutLast_app sep s t : ContainsChar t sep = false → CutLast sep (s +:+ String sep t) = Some (s, t).
Proof.
  intros Ht. assert (CutLast sep t = None) as Hnone.
  { revert Ht. unfold ContainsChar. rewrite negb_false_iff. induction t as [|a t IH]; [done|]. cbn.
    intros [Ha Ht]%andb_true_iff. rewrite IH by done. apply negb_true_iff in Ha. by rewrite Ha. }
  induction s as [|a s IH].
  - change ("" +:+ String sep t) with (String sep t). cbn [CutLast]. rewrite Hnone.
    by rewrite bool_decide_eq_true_2.
  - change (String a s +:+ String sep t) with (String a (s +:+ String sep t)). cbn [CutLast]. by rewrite IH.
Qed.

Lemma octet_Itoa b : is_byte b → octet (Itoa b) = Some b.
Proof.
  intros [H1 H2].
  assert (∀ i, i ∈ seq 0 256 → octet (Itoa (Z.of_nat i)) = Some (Z.of_nat i)) as Hall.
  { apply list.Forall_forall. apply (bool_decide_eq_true _). by vm_compute. }
  rewrite <- (Z2Nat.id b) by lia. apply Hall, elem_of_seq. lia.
Qed.

Lemma digits_no_dot s : allChars isDigit s = true → ContainsChar s dot = false.
Proof.
  intros H. unfold ContainsChar. apply negb_false_iff. eapply allChars_impl; [|done].
  intros a Ha. apply negb_true_iff, bool_decide_eq_false. intros ->. by vm_compute in Ha.
Qed.

Lemma addrFamily_digits s t : allChars isDigit s = true → addrFamily (s +:+ String dot t) = Some dot.
Proof.
  induction s as [|a s IH]; [done|]. cbn [allChars]. intros [Ha Hs]%andb_true_iff.
  change (String a s +:+ String dot t) with (String a (s +:+ String dot t)). cbn [addrFamily].
  rewrite IH by done.
  assert (∀ c, isDigit c = false → a ≠ c) as Hne by (intros c Hc ->; congruence).
  rewrite !bool_decide_eq_false_2 by (by apply Hne). done.
Qed.

(** Printing an IPv4 address and reading it back. *)
Lemma ParseAddr_string4 v : 0 ≤ v < 2 ^ 32 → ParseAddr (string4 v) = Some (Addr4 v).
Proof.
  intros Hv. unfold string4. pose proof (be_bytes_is_byte 4 v) as Hb.
  pose proof (length_be_bytes 4 v) as Hlen. pose proof (be_value_be_bytes 4 v) as Hval.
  rewrite Z.mod_small in Hval by done. destruct (be_bytes 4 v) as [|a [|b [|c [|d [|]]]]]; try done.
  repeat (apply list.Forall_cons in Hb as [? Hb]).
  assert (∀ x, is_byte x → ContainsChar (Itoa x) dot = false) as Hdot
    by (intros x [? ?]; by apply digits_no_dot, Itoa_digits).
  cbn [fmap list_fmap]. change (Join [Itoa a; Itoa b; Itoa c; Itoa d] ".")
    with (Itoa a +:+ String dot (Itoa b +:+ String dot (Itoa c +:+ String dot (Itoa d)))).
  unfold ParseAddr. rewrite addrFamily_digits by (apply Itoa_digits; unfold is_byte in *; lia).
  rewrite bool_decide_eq_true_2 by done. unfold parseIPv4, parseIPv4Fields.
  rewrite !Split_cons, Split_Join_single by auto. rewrite !octet_Itoa by done. cbn. by rewrite <- Hval.
Qed.

Lemma bits_text bits : 0 ≤ bits ≤ 128 →
  match Itoa bits with String a (String _ _) => (code a <? 49) || (57 <? code a) | _ => false end = false.
Proof.
  intros Hb.
  assert (∀ i, i ∈ seq 0 129 → match Itoa (Z.of_nat i) with
    String a (String _ _) => (code a <? 49) || (57 <? code a) | _ => false end = false) as Hall.
  { apply list.Forall_forall. apply (bool_decide_eq_true _). by vm_compute. }
  rewrite <- (Z2Nat.id bits) by lia. apply Hall, elem_of_seq. lia.
Qed.

Lemma digits_no_slash s : allChars isDigit s = true → ContainsChar s netSlash = false.
Proof.
  intros H. unfold ContainsChar. apply negb_false_iff. by eapply allChars_impl; [apply isDigit_notSlash|].
Qed.

(** Printing an IPv4 prefix and reading it back. *)
Lemma ParsePrefix_String p :
  wf_prefix p → Is4 (PrefixAddr p) = true → ParsePrefix (PrefixString p) = Some p.
Proof.
  destruct p as [a bits]. intros (Hv & _ & Hb) H4. destruct a as [|v|v z]; try done. cbn in Hv, Hb.
  unfold ParsePrefix, PrefixString. cbn [PrefixAddr Bits AddrString].
  change ("/" +:+ Itoa bits) with (String netSlash (Itoa bits)).
  rewrite CutLast_app by (apply digits_no_slash, Itoa_digits; lia).
  rewrite ParseAddr_string4 by done. cbn [Is6 andb]. rewrite bits_text, Atoi_Itoa by lia.
  destruct (_ || _) eqn:E; [apply orb_true_iff in E as [E|E]; bool_to_prop; lia|]. done.
Qed.

Lemma Cut_PrefixString p :
  hasZone (PrefixAddr p) = false →
  Cut netSlash (PrefixString p) = Some (AddrString (PrefixAddr p), Itoa (Bits p)).
Proof.
  intros Hz. unfold PrefixString. change ("/" +:+ Itoa (Bits p)) with (String netSlash (Itoa (Bits p))).
  apply Cut_app. unfold ContainsChar. apply negb_false_iff. by apply AddrString_notSlash.
Qed.

Lemma string_app_nonempty s t : s ≠ "" → s +:+ t ≠ "".
Proof. by destruct s. Qed.

Lemma Itoa_nonempty n : Itoa n ≠ "".
Proof.
  unfold Itoa. destruct (Z.ltb n 0); [done|].
  destruct (decimal_head 20 n "" ltac:(lia)) as (a & s & -> & _). done.
Qed.

Lemma string4_nonempty v : string4 v ≠ "".
Proof.
  unfold string4. pose proof (length_be_bytes 4 v) as Hlen.
  destruct (be_bytes 4 v) as [|a [|b [|c [|d [|]]]]]; try done.
  cbn [fmap list_fmap]. apply string_app_nonempty, Itoa_nonempty.
Qed.

Lemma AddrString_nonempty a : AddrString a ≠ "".
Proof.
  destruct a as [|v|v z]; [done|apply string4_nonempty|]. cbn [AddrString].
  apply string_app_nonempty. destruct (Is4In6 _); [done|].
  unfold string6. cbv zeta. destruct (longestRun _) as [[start len]|].
  - intros H. assert (String.length (Join (hex16 <$> take start (groups6 v)) ":" +:+ "::" +:+
      Join (hex16 <$> drop (start + len) (groups6 v)) ":") = 0%nat) as Hl by by rewrite H.
    rewrite !length_string_app in Hl. cbn in Hl. lia.
  - unfold groups6. cbn [seq fmap list_fmap]. apply string_app_nonempty. unfold hex16.
    cbn [hexDigits]. by repeat (destruct (_ <? 16); [done|]).
Qed.
