(* ===== verification/DevicePlanTypes.v ===== *)
(** * Device plans: the data

    The structures of [internal/deviceplan/types.go]: the planning input the controller hands
    to the planner, and the plan it gets back, field for field.  Integers of every width are
    [Z]; the named string types ([ActionPhase], [VolumeKind], ...) are strings, as in Go,
    since a decoded value can hold any text and is only then validated; a pointer is an
    [option].  A nil slice and an empty one are both the empty list: the code only takes
    lengths of slices and ranges over them, and they only differ in the JSON of fields
    without [omitempty], all of which are required to be non-empty before a plan or an input
    is serialized.

    [cloneJSON] is what a value becomes when it is written as JSON and read back: every
    string has its invalid UTF-8 replaced, everything else stays. *)

From S2P Require Import Prelude Api GoStrings.
Local Open Scope Z_scope.

(** ** The copy through JSON *)

Class CloneJSON (A : Type) : Type := cloneJSON : A → A.
#[export] Instance cloneJSON_string : CloneJSON string := toValidUTF8.
#[export] Instance cloneJSON_Z : CloneJSON Z := λ v, v.
#[export] Instance cloneJSON_bool : CloneJSON bool := λ v, v.
#[export] Instance cloneJSON_list {A} `{CloneJSON A} : CloneJSON (list A) := fmap cloneJSON.
#[export] Instance cloneJSON_option {A} `{CloneJSON A} : CloneJSON (option A) := fmap cloneJSON.

(** A second copy changes nothing. *)
Class CloneIdem (A : Type) `{CloneJSON A} : Prop :=
  clone_idem : ∀ v : A, cloneJSON (cloneJSON v) = cloneJSON v.
#[export] Instance clone_idem_string : CloneIdem string := toValidUTF8_idem.
#[export] Instance clone_idem_Z : CloneIdem Z := λ v, eq_refl.
#[export] Instance clone_idem_bool : CloneIdem bool := λ v, eq_refl.
#[export] Instance clone_idem_list {A} `{CloneIdem A} : CloneIdem (list A).
Proof.
  intros l. unfold cloneJSON, cloneJSON_list. rewrite <- list_fmap_compose.
  apply list_fmap_ext. intros i x _. apply clone_idem.
Qed.
#[export] Instance clone_idem_option {A} `{CloneIdem A} : CloneIdem (option A).
Proof. intros [x|]; [|done]. unfold cloneJSON, cloneJSON_option. cbn. by rewrite clone_idem. Qed.

(** ** Constants *)

Definition SchemaVersion : string := "v1alpha1".
Definition ErrorInvalidInput : string := "InvalidInput".
Definition ErrorMissingInput : string := "MissingInput".
Definition ErrorUnsupported : string := "Unsupported".
Definition ErrorInvariant : string := "Invariant".
Definition ErrorSideEffect : string := "SideEffect".
Definition ErrorSerialization : string := "Serialization".
Definition PayloadConfigMap : string := "ConfigMap".
Definition PayloadSecret : string := "Secret".
Definition PayloadURL : string := "URL".
Definition PayloadInline : string := "Inline".
Definition ConnectivityWire : string := "wire".
Definition ConnectivityHost : string := "host".
Definition ConnectivitySamePod : string := "same-pod".
Definition ConnectivityLoopback : string := "loopback".
Definition FileSourcePayload : string := "Payload".
Definition FileSourceGenerator : string := "Generator".
Definition FileSourceCertificate : string := "Certificate".
Definition FileSourceEmpty : string := "Empty".
Definition ArtifactRegular : string := "Regular".
Definition ArtifactSymlink : string := "Symlink".
Definition ArtifactDirectory : string := "Directory".
Definition VolumeArtifacts : string := "Artifacts".
Definition VolumeEmptyDir : string := "EmptyDir".
Definition VolumeConfigMap : string := "ConfigMap".
Definition VolumeSecret : string := "Secret".
Definition VolumePersistent : string := "Persistent".
Definition VolumeDevice : string := "Device".
Definition PhasePrepare : string := "Prepare".
Definition PhasePreStart : string := "PreStart".
Definition PhasePostStart : string := "PostStart".
Definition PhaseReadiness : string := "Readiness".
Definition PhaseInterfaceFixup : string := "InterfaceFixup".
Definition PhaseSave : string := "Save".
Definition PhasePostStop : string := "PostStop".
Definition ActionExec : string := "Exec".
Definition ActionFile : string := "File".
Definition ActionWriteStdin : string := "WriteStdin".
Definition ActionMount : string := "Mount".
Definition ActionSysctl : string := "Sysctl".
Definition ActionWaitInterface : string := "WaitInterface".
Definition ActionRenameInterface : string := "RenameInterface".
Definition ActionManagementForwarding : string := "ManagementForwarding".
Definition ActionImportedDeployEndpoints : string := "ImportedDeployEndpoints".
Definition ActionImportedPostDeploy : string := "ImportedPostDeploy".
Definition ActionImportedReadiness : string := "ImportedReadiness".
Definition ActionSave : string := "Save".
Definition SaveMethodImported : string := "ImportedPackage".
Definition FileWriteReplace : string := "Replace".
Definition FileWriteAppend : string := "Append".
Definition LinkApplyLive : string := "Live".
Definition LinkApplyRestart : string := "Restart".
Definition LinkApplyRecreate : string := "Recreate".
Definition ManagementInterfacePodTransport : string := "PodTransport".
Definition ManagementInterfaceInterposed : string := "Interposed".

(** ** Structures *)

Record Compatibility := MkCompatibility {
  Compatibility_ContainerlabModule : string;
  Compatibility_ContainerlabVersion : string;
  Compatibility_RegistryDigest : string;
  Compatibility_PlanSchemaVersion : string
}.
#[export] Instance Compatibility_eq_dec : EqDecision Compatibility.
Proof. solve_decision. Defined.
#[export] Instance Compatibility_updatable : Updatable Compatibility :=
  λ r, MkCompatibility (Compatibility_ContainerlabModule r) (Compatibility_ContainerlabVersion r)
         (Compatibility_RegistryDigest r) (Compatibility_PlanSchemaVersion r).
#[export] Instance Compatibility_clone : CloneJSON Compatibility :=
  λ r, MkCompatibility (cloneJSON (Compatibility_ContainerlabModule r))
         (cloneJSON (Compatibility_ContainerlabVersion r))
         (cloneJSON (Compatibility_RegistryDigest r))
         (cloneJSON (Compatibility_PlanSchemaVersion r)).
#[export] Instance Compatibility_clone_idem : CloneIdem Compatibility.
Proof.
  intros r. change (MkCompatibility (cloneJSON (cloneJSON (Compatibility_ContainerlabModule r)))
    (cloneJSON (cloneJSON (Compatibility_ContainerlabVersion r)))
    (cloneJSON (cloneJSON (Compatibility_RegistryDigest r)))
    (cloneJSON (cloneJSON (Compatibility_PlanSchemaVersion r)))
    = cloneJSON r).
  by rewrite !clone_idem.
Qed.

Record NodeInput := MkNodeInput {
  NodeInput_ID : string;
  NodeInput_Name : string;
  NodeInput_Kind : string;
  NodeInput_Type : string;
  NodeInput_GroupOwner : string;
  NodeInput_Definition : string
}.
#[export] Instance NodeInput_eq_dec : EqDecision NodeInput.
Proof. solve_decision. Defined.
#[export] Instance NodeInput_updatable : Updatable NodeInput :=
  λ r, MkNodeInput (NodeInput_ID r) (NodeInput_Name r) (NodeInput_Kind r) (NodeInput_Type r)
         (NodeInput_GroupOwner r) (NodeInput_Definition r).

Record Platform := MkPlatform {
  Platform_OS : string;
  Platform_Architecture : string;
  Platform_Variant : string;
  Platform_OSVersion : string;
  Platform_OSFeatures : list string
}.
#[export] Instance Platform_eq_dec : EqDecision Platform.
Proof. solve_decision. Defined.
#[export] Instance Platform_updatable : Updatable Platform :=
  λ r, MkPlatform (Platform_OS r) (Platform_Architecture r) (Platform_Variant r) (Platform_OSVersion r)
         (Platform_OSFeatures r).
#[export] Instance Platform_clone : CloneJSON Platform :=
  λ r, MkPlatform (cloneJSON (Platform_OS r)) (cloneJSON (Platform_Architecture r))
         (cloneJSON (Platform_Variant r)) (cloneJSON (Platform_OSVersion r))
         (cloneJSON (Platform_OSFeatures r)).
#[export] Instance Platform_clone_idem : CloneIdem Platform.
Proof.
  intros r. change (MkPlatform (cloneJSON (cloneJSON (Platform_OS r)))
    (cloneJSON (cloneJSON (Platform_Architecture r)))
    (cloneJSON (cloneJSON (Platform_Variant r)))
    (cloneJSON (cloneJSON (Platform_OSVersion r)))
    (cloneJSON (cloneJSON (Platform_OSFeatures r)))
    = cloneJSON r).
  by rewrite !clone_idem.
Qed.

Record KeyValue := MkKeyValue {
  KeyValue_Name : string;
  KeyValue_Value : string
}.
#[export] Instance KeyValue_eq_dec : EqDecision KeyValue.
Proof. solve_decision. Defined.
#[export] Instance KeyValue_updatable : Updatable KeyValue :=
  λ r, MkKeyValue (KeyValue_Name r) (KeyValue_Value r).
#[export] Instance KeyValue_clone : CloneJSON KeyValue :=
  λ r, MkKeyValue (cloneJSON (KeyValue_Name r)) (cloneJSON (KeyValue_Value r)).
#[export] Instance KeyValue_clone_idem : CloneIdem KeyValue.
Proof.
  intros r. change (MkKeyValue (cloneJSON (cloneJSON (KeyValue_Name r))) (cloneJSON (cloneJSON (KeyValue_Value r)))
    = cloneJSON r).
  by rewrite !clone_idem.
Qed.

Record Port := MkPort {
  Port_Number : Z;
  Port_Protocol : string
}.
#[export] Instance Port_eq_dec : EqDecision Port.
Proof. solve_decision. Defined.
#[export] Instance Port_updatable : Updatable Port :=
  λ r, MkPort (Port_Number r) (Port_Protocol r).
#[export] Instance Port_clone : CloneJSON Port :=
  λ r, MkPort (cloneJSON (Port_Number r)) (cloneJSON (Port_Protocol r)).
#[export] Instance Port_clone_idem : CloneIdem Port.
Proof.
  intros r. change (MkPort (cloneJSON (cloneJSON (Port_Number r))) (cloneJSON (cloneJSON (Port_Protocol r)))
    = cloneJSON r).
  by rewrite !clone_idem.
Qed.

Record Healthcheck := MkHealthcheck {
  Healthcheck_Test : list string;
  Healthcheck_Interval : Z;
  Healthcheck_Timeout : Z;
  Healthcheck_StartPeriod : Z;
  Healthcheck_Retries : Z
}.
#[export] Instance Healthcheck_eq_dec : EqDecision Healthcheck.
Proof. solve_decision. Defined.
#[export] Instance Healthcheck_updatable : Updatable Healthcheck :=
  λ r, MkHealthcheck (Healthcheck_Test r) (Healthcheck_Interval r) (Healthcheck_Timeout r)
         (Healthcheck_StartPeriod r) (Healthcheck_Retries r).
#[export] Instance Healthcheck_clone : CloneJSON Healthcheck :=
  λ r, MkHealthcheck (cloneJSON (Healthcheck_Test r)) (cloneJSON (Healthcheck_Interval r))
         (cloneJSON (Healthcheck_Timeout r)) (cloneJSON (Healthcheck_StartPeriod r))
         (cloneJSON (Healthcheck_Retries r)).
#[export] Instance Healthcheck_clone_idem : CloneIdem Healthcheck.
Proof.
  intros r. change (MkHealthcheck (cloneJSON (cloneJSON (Healthcheck_Test r)))
    (cloneJSON (cloneJSON (Healthcheck_Interval r)))
    (cloneJSON (cloneJSON (Healthcheck_Timeout r)))
    (cloneJSON (cloneJSON (Healthcheck_StartPeriod r)))
    (cloneJSON (cloneJSON (Healthcheck_Retries r)))
    = cloneJSON r).
  by rewrite !clone_idem.
Qed.

Record ImageConfig := MkImageConfig {
  ImageConfig_Entrypoint : list string;
  ImageConfig_Command : list string;
  ImageConfig_Environment : list KeyValue;
  ImageConfig_User : string;
  ImageConfig_WorkingDir : string;
  ImageConfig_Ports : list Port;
  ImageConfig_StopSignal : string;
  ImageConfig_Healthcheck : option Healthcheck;
  ImageConfig_Labels : list KeyValue;
  ImageConfig_DeclaredDirs : list string
}.
#[export] Instance ImageConfig_eq_dec : EqDecision ImageConfig.
Proof. solve_decision. Defined.
#[export] Instance ImageConfig_updatable : Updatable ImageConfig :=
  λ r, MkImageConfig (ImageConfig_Entrypoint r) (ImageConfig_Command r) (ImageConfig_Environment r)
         (ImageConfig_User r) (ImageConfig_WorkingDir r) (ImageConfig_Ports r)
         (ImageConfig_StopSignal r) (ImageConfig_Healthcheck r) (ImageConfig_Labels r)
         (ImageConfig_DeclaredDirs r).
#[export] Instance ImageConfig_clone : CloneJSON ImageConfig :=
  λ r, MkImageConfig (cloneJSON (ImageConfig_Entrypoint r)) (cloneJSON (ImageConfig_Command r))
         (cloneJSON (ImageConfig_Environment r)) (cloneJSON (ImageConfig_User r))
         (cloneJSON (ImageConfig_WorkingDir r)) (cloneJSON (ImageConfig_Ports r))
         (cloneJSON (ImageConfig_StopSignal r)) (cloneJSON (ImageConfig_Healthcheck r))
         (cloneJSON (ImageConfig_Labels r)) (cloneJSON (ImageConfig_DeclaredDirs r)).
#[export] Instance ImageConfig_clone_idem : CloneIdem ImageConfig.
Proof.
  intros r. change (MkImageConfig (cloneJSON (cloneJSON (ImageConfig_Entrypoint r)))
    (cloneJSON (cloneJSON (ImageConfig_Command r)))
    (cloneJSON (cloneJSON (ImageConfig_Environment r)))
    (cloneJSON (cloneJSON (ImageConfig_User r)))
    (cloneJSON (cloneJSON (ImageConfig_WorkingDir r)))
    (cloneJSON (cloneJSON (ImageConfig_Ports r)))
    (cloneJSON (cloneJSON (ImageConfig_StopSignal r)))
    (cloneJSON (cloneJSON (ImageConfig_Healthcheck r)))
    (cloneJSON (cloneJSON (ImageConfig_Labels r)))
    (cloneJSON (cloneJSON (ImageConfig_DeclaredDirs r)))
    = cloneJSON r).
  by rewrite !clone_idem.
Qed.

Record ImageInput := MkImageInput {
  ImageInput_NodeID : string;
  ImageInput_Role : string;
  ImageInput_ComponentID : string;
  ImageInput_SourceReference : string;
  ImageInput_DigestReference : string;
  ImageInput_Platform : Platform;
  ImageInput_Config : ImageConfig
}.
#[export] Instance ImageInput_eq_dec : EqDecision ImageInput.
Proof. solve_decision. Defined.
#[export] Instance ImageInput_updatable : Updatable ImageInput :=
  λ r, MkImageInput (ImageInput_NodeID r) (ImageInput_Role r) (ImageInput_ComponentID r)
         (ImageInput_SourceReference r) (ImageInput_DigestReference r) (ImageInput_Platform r)
         (ImageInput_Config r).
#[export] Instance ImageInput_clone : CloneJSON ImageInput :=
  λ r, MkImageInput (cloneJSON (ImageInput_NodeID r)) (cloneJSON (ImageInput_Role r))
         (cloneJSON (ImageInput_ComponentID r)) (cloneJSON (ImageInput_SourceReference r))
         (cloneJSON (ImageInput_DigestReference r)) (cloneJSON (ImageInput_Platform r))
         (cloneJSON (ImageInput_Config r)).
#[export] Instance ImageInput_clone_idem : CloneIdem ImageInput.
Proof.
  intros r. change (MkImageInput (cloneJSON (cloneJSON (ImageInput_NodeID r)))
    (cloneJSON (cloneJSON (ImageInput_Role r)))
    (cloneJSON (cloneJSON (ImageInput_ComponentID r)))
    (cloneJSON (cloneJSON (ImageInput_SourceReference r)))
    (cloneJSON (cloneJSON (ImageInput_DigestReference r)))
    (cloneJSON (cloneJSON (ImageInput_Platform r)))
    (cloneJSON (cloneJSON (ImageInput_Config r)))
    = cloneJSON r).
  by rewrite !clone_idem.
Qed.

Record PayloadInput := MkPayloadInput {
  PayloadInput_ID : string;
  PayloadInput_NodeID : string;
  PayloadInput_Kind : string;
  PayloadInput_Reference : string;
  PayloadInput_Digest : string;
  PayloadInput_Destination : string;
  PayloadInput_Mode : Z;
  PayloadInput_Sensitive : bool
}.
#[export] Instance PayloadInput_eq_dec : EqDecision PayloadInput.
Proof. solve_decision. Defined.
#[export] Instance PayloadInput_updatable : Updatable PayloadInput :=
  λ r, MkPayloadInput (PayloadInput_ID r) (PayloadInput_NodeID r) (PayloadInput_Kind r)
         (PayloadInput_Reference r) (PayloadInput_Digest r) (PayloadInput_Destination r)
         (PayloadInput_Mode r) (PayloadInput_Sensitive r).
#[export] Instance PayloadInput_clone : CloneJSON PayloadInput :=
  λ r, MkPayloadInput (cloneJSON (PayloadInput_ID r)) (cloneJSON (PayloadInput_NodeID r))
         (cloneJSON (PayloadInput_Kind r)) (cloneJSON (PayloadInput_Reference r))
         (cloneJSON (PayloadInput_Digest r)) (cloneJSON (PayloadInput_Destination r))
         (cloneJSON (PayloadInput_Mode r)) (cloneJSON (PayloadInput_Sensitive r)).
#[export] Instance PayloadInput_clone_idem : CloneIdem PayloadInput.
Proof.
  intros r. change (MkPayloadInput (cloneJSON (cloneJSON (PayloadInput_ID r)))
    (cloneJSON (cloneJSON (PayloadInput_NodeID r)))
    (cloneJSON (cloneJSON (PayloadInput_Kind r)))
    (cloneJSON (cloneJSON (PayloadInput_Reference r)))
    (cloneJSON (cloneJSON (PayloadInput_Digest r)))
    (cloneJSON (cloneJSON (PayloadInput_Destination r)))
    (cloneJSON (cloneJSON (PayloadInput_Mode r)))
    (cloneJSON (cloneJSON (PayloadInput_Sensitive r)))
    = cloneJSON r).
  by rewrite !clone_idem.
Qed.

Record CertificateInput := MkCertificateInput {
  CertificateInput_NodeID : string;
  CertificateInput_StorageName : string;
  CertificateInput_CertificateDigest : string;
  CertificateInput_PrivateKeyDigest : string;
  CertificateInput_CACertificateDigest : string;
  CertificateInput_CAPrivateKeyDigest : string
}.
#[export] Instance CertificateInput_eq_dec : EqDecision CertificateInput.
Proof. solve_decision. Defined.
#[export] Instance CertificateInput_updatable : Updatable CertificateInput :=
  λ r, MkCertificateInput (CertificateInput_NodeID r) (CertificateInput_StorageName r)
         (CertificateInput_CertificateDigest r) (CertificateInput_PrivateKeyDigest r)
         (CertificateInput_CACertificateDigest r) (CertificateInput_CAPrivateKeyDigest r).
#[export] Instance CertificateInput_clone : CloneJSON CertificateInput :=
  λ r, MkCertificateInput (cloneJSON (CertificateInput_NodeID r)) (cloneJSON (CertificateInput_StorageName r))
         (cloneJSON (CertificateInput_CertificateDigest r))
         (cloneJSON (CertificateInput_PrivateKeyDigest r))
         (cloneJSON (CertificateInput_CACertificateDigest r))
         (cloneJSON (CertificateInput_CAPrivateKeyDigest r)).
#[export] Instance CertificateInput_clone_idem : CloneIdem CertificateInput.
Proof.
  intros r. change (MkCertificateInput (cloneJSON (cloneJSON (CertificateInput_NodeID r)))
    (cloneJSON (cloneJSON (CertificateInput_StorageName r)))
    (cloneJSON (cloneJSON (CertificateInput_CertificateDigest r)))
    (cloneJSON (cloneJSON (CertificateInput_PrivateKeyDigest r)))
    (cloneJSON (cloneJSON (CertificateInput_CACertificateDigest r)))
    (cloneJSON (cloneJSON (CertificateInput_CAPrivateKeyDigest r)))
    = cloneJSON r).
  by rewrite !clone_idem.
Qed.

Record DNSConfig := MkDNSConfig {
  DNSConfig_Servers : list string;
  DNSConfig_Search : list string;
  DNSConfig_Options : list string
}.
#[export] Instance DNSConfig_eq_dec : EqDecision DNSConfig.
Proof. solve_decision. Defined.
#[export] Instance DNSConfig_updatable : Updatable DNSConfig :=
  λ r, MkDNSConfig (DNSConfig_Servers r) (DNSConfig_Search r) (DNSConfig_Options r).
#[export] Instance DNSConfig_clone : CloneJSON DNSConfig :=
  λ r, MkDNSConfig (cloneJSON (DNSConfig_Servers r)) (cloneJSON (DNSConfig_Search r))
         (cloneJSON (DNSConfig_Options r)).
#[export] Instance DNSConfig_clone_idem : CloneIdem DNSConfig.
Proof.
  intros r. change (MkDNSConfig (cloneJSON (cloneJSON (DNSConfig_Servers r)))
    (cloneJSON (cloneJSON (DNSConfig_Search r)))
    (cloneJSON (cloneJSON (DNSConfig_Options r)))
    = cloneJSON r).
  by rewrite !clone_idem.
Qed.

Record ManagementMesh := MkManagementMesh {
  ManagementMesh_TunnelID : Z;
  ManagementMesh_GatewayMAC : string
}.
#[export] Instance ManagementMesh_eq_dec : EqDecision ManagementMesh.
Proof. solve_decision. Defined.
#[export] Instance ManagementMesh_updatable : Updatable ManagementMesh :=
  λ r, MkManagementMesh (ManagementMesh_TunnelID r) (ManagementMesh_GatewayMAC r).
#[export] Instance ManagementMesh_clone : CloneJSON ManagementMesh :=
  λ r, MkManagementMesh (cloneJSON (ManagementMesh_TunnelID r)) (cloneJSON (ManagementMesh_GatewayMAC r)).
#[export] Instance ManagementMesh_clone_idem : CloneIdem ManagementMesh.
Proof.
  intros r. change (MkManagementMesh (cloneJSON (cloneJSON (ManagementMesh_TunnelID r)))
    (cloneJSON (cloneJSON (ManagementMesh_GatewayMAC r)))
    = cloneJSON r).
  by rewrite !clone_idem.
Qed.

Record ManagementInput := MkManagementInput {
  ManagementInput_NodeID : string;
  ManagementInput_InterfaceName : string;
  ManagementInput_IPv4 : string;
  ManagementInput_IPv4Gateway : string;
  ManagementInput_IPv6 : string;
  ManagementInput_IPv6Gateway : string;
  ManagementInput_DNS : DNSConfig;
  ManagementInput_InboundPorts : list Port;
  ManagementInput_Mesh : option ManagementMesh
}.
#[export] Instance ManagementInput_eq_dec : EqDecision ManagementInput.
Proof. solve_decision. Defined.
#[export] Instance ManagementInput_updatable : Updatable ManagementInput :=
  λ r, MkManagementInput (ManagementInput_NodeID r) (ManagementInput_InterfaceName r) (ManagementInput_IPv4 r)
         (ManagementInput_IPv4Gateway r) (ManagementInput_IPv6 r) (ManagementInput_IPv6Gateway r)
         (ManagementInput_DNS r) (ManagementInput_InboundPorts r) (ManagementInput_Mesh r).
#[export] Instance ManagementInput_clone : CloneJSON ManagementInput :=
  λ r, MkManagementInput (cloneJSON (ManagementInput_NodeID r)) (cloneJSON (ManagementInput_InterfaceName r))
         (cloneJSON (ManagementInput_IPv4 r)) (cloneJSON (ManagementInput_IPv4Gateway r))
         (cloneJSON (ManagementInput_IPv6 r)) (cloneJSON (ManagementInput_IPv6Gateway r))
         (cloneJSON (ManagementInput_DNS r)) (cloneJSON (ManagementInput_InboundPorts r))
         (cloneJSON (ManagementInput_Mesh r)).
#[export] Instance ManagementInput_clone_idem : CloneIdem ManagementInput.
Proof.
  intros r. change (MkManagementInput (cloneJSON (cloneJSON (ManagementInput_NodeID r)))
    (cloneJSON (cloneJSON (ManagementInput_InterfaceName r)))
    (cloneJSON (cloneJSON (ManagementInput_IPv4 r)))
    (cloneJSON (cloneJSON (ManagementInput_IPv4Gateway r)))
    (cloneJSON (cloneJSON (ManagementInput_IPv6 r)))
    (cloneJSON (cloneJSON (ManagementInput_IPv6Gateway r)))
    (cloneJSON (cloneJSON (ManagementInput_DNS r)))
    (cloneJSON (cloneJSON (ManagementInput_InboundPorts r)))
    (cloneJSON (cloneJSON (ManagementInput_Mesh r)))
    = cloneJSON r).
  by rewrite !clone_idem.
Qed.

Record InterfaceInput := MkInterfaceInput {
  InterfaceInput_ID : string;
  InterfaceInput_NodeID : string;
  InterfaceInput_Name : string;
  InterfaceInput_LinkID : string;
  InterfaceInput_LinkName : string;
  InterfaceInput_PeerNodeID : string;
  InterfaceInput_PeerInterface : string;
  InterfaceInput_PeerTransport : string;
  InterfaceInput_Connectivity : string;
  InterfaceInput_WireID : Z;
  InterfaceInput_MTU : Z
}.
#[export] Instance InterfaceInput_eq_dec : EqDecision InterfaceInput.
Proof. solve_decision. Defined.
#[export] Instance InterfaceInput_updatable : Updatable InterfaceInput :=
  λ r, MkInterfaceInput (InterfaceInput_ID r) (InterfaceInput_NodeID r) (InterfaceInput_Name r)
         (InterfaceInput_LinkID r) (InterfaceInput_LinkName r) (InterfaceInput_PeerNodeID r)
         (InterfaceInput_PeerInterface r) (InterfaceInput_PeerTransport r)
         (InterfaceInput_Connectivity r) (InterfaceInput_WireID r) (InterfaceInput_MTU r).
#[export] Instance InterfaceInput_clone : CloneJSON InterfaceInput :=
  λ r, MkInterfaceInput (cloneJSON (InterfaceInput_ID r)) (cloneJSON (InterfaceInput_NodeID r))
         (cloneJSON (InterfaceInput_Name r)) (cloneJSON (InterfaceInput_LinkID r))
         (cloneJSON (InterfaceInput_LinkName r)) (cloneJSON (InterfaceInput_PeerNodeID r))
         (cloneJSON (InterfaceInput_PeerInterface r))
         (cloneJSON (InterfaceInput_PeerTransport r)) (cloneJSON (InterfaceInput_Connectivity r))
         (cloneJSON (InterfaceInput_WireID r)) (cloneJSON (InterfaceInput_MTU r)).
#[export] Instance InterfaceInput_clone_idem : CloneIdem InterfaceInput.
Proof.
  intros r. change (MkInterfaceInput (cloneJSON (cloneJSON (InterfaceInput_ID r)))
    (cloneJSON (cloneJSON (InterfaceInput_NodeID r)))
    (cloneJSON (cloneJSON (InterfaceInput_Name r)))
    (cloneJSON (cloneJSON (InterfaceInput_LinkID r)))
    (cloneJSON (cloneJSON (InterfaceInput_LinkName r)))
    (cloneJSON (cloneJSON (InterfaceInput_PeerNodeID r)))
    (cloneJSON (cloneJSON (InterfaceInput_PeerInterface r)))
    (cloneJSON (cloneJSON (InterfaceInput_PeerTransport r)))
    (cloneJSON (cloneJSON (InterfaceInput_Connectivity r)))
    (cloneJSON (cloneJSON (InterfaceInput_WireID r)))
    (cloneJSON (cloneJSON (InterfaceInput_MTU r)))
    = cloneJSON r).
  by rewrite !clone_idem.
Qed.

Record Input := MkInput {
  Input_SchemaVersion : string;
  Input_TopologyName : string;
  Input_Compatibility : Compatibility;
  Input_EntropyDigest : string;
  Input_Nodes : list NodeInput;
  Input_Images : list ImageInput;
  Input_Payloads : list PayloadInput;
  Input_Certificates : list CertificateInput;
  Input_Management : list ManagementInput;
  Input_Interfaces : list InterfaceInput
}.
#[export] Instance Input_eq_dec : EqDecision Input.
Proof. solve_decision. Defined.
#[export] Instance Input_updatable : Updatable Input :=
  λ r, MkInput (Input_SchemaVersion r) (Input_TopologyName r) (Input_Compatibility r)
         (Input_EntropyDigest r) (Input_Nodes r) (Input_Images r) (Input_Payloads r)
         (Input_Certificates r) (Input_Management r) (Input_Interfaces r).

Record PlannerIdentity := MkPlannerIdentity {
  PlannerIdentity_Name : string;
  PlannerIdentity_Revision : string
}.
#[export] Instance PlannerIdentity_eq_dec : EqDecision PlannerIdentity.
Proof. solve_decision. Defined.
#[export] Instance PlannerIdentity_updatable : Updatable PlannerIdentity :=
  λ r, MkPlannerIdentity (PlannerIdentity_Name r) (PlannerIdentity_Revision r).
#[export] Instance PlannerIdentity_clone : CloneJSON PlannerIdentity :=
  λ r, MkPlannerIdentity (cloneJSON (PlannerIdentity_Name r)) (cloneJSON (PlannerIdentity_Revision r)).
#[export] Instance PlannerIdentity_clone_idem : CloneIdem PlannerIdentity.
Proof.
  intros r. change (MkPlannerIdentity (cloneJSON (cloneJSON (PlannerIdentity_Name r)))
    (cloneJSON (cloneJSON (PlannerIdentity_Revision r)))
    = cloneJSON r).
  by rewrite !clone_idem.
Qed.

Record NodePlan := MkNodePlan {
  NodePlan_ID : string;
  NodePlan_Name : string;
  NodePlan_Kind : string;
  NodePlan_Group : string;
  NodePlan_Position : string;
  NodePlan_Aliases : list string;
  NodePlan_ContainerIDs : list string;
  NodePlan_ReadinessContainerIDs : list string;
  NodePlan_PrimaryContainerID : string;
  NodePlan_EnforceStartupConfig : bool
}.
#[export] Instance NodePlan_eq_dec : EqDecision NodePlan.
Proof. solve_decision. Defined.
#[export] Instance NodePlan_updatable : Updatable NodePlan :=
  λ r, MkNodePlan (NodePlan_ID r) (NodePlan_Name r) (NodePlan_Kind r) (NodePlan_Group r)
         (NodePlan_Position r) (NodePlan_Aliases r) (NodePlan_ContainerIDs r)
         (NodePlan_ReadinessContainerIDs r) (NodePlan_PrimaryContainerID r)
         (NodePlan_EnforceStartupConfig r).
#[export] Instance NodePlan_clone : CloneJSON NodePlan :=
  λ r, MkNodePlan (cloneJSON (NodePlan_ID r)) (cloneJSON (NodePlan_Name r)) (cloneJSON (NodePlan_Kind r))
         (cloneJSON (NodePlan_Group r)) (cloneJSON (NodePlan_Position r))
         (cloneJSON (NodePlan_Aliases r)) (cloneJSON (NodePlan_ContainerIDs r))
         (cloneJSON (NodePlan_ReadinessContainerIDs r))
         (cloneJSON (NodePlan_PrimaryContainerID r))
         (cloneJSON (NodePlan_EnforceStartupConfig r)).
#[export] Instance NodePlan_clone_idem : CloneIdem NodePlan.
Proof.
  intros r. change (MkNodePlan (cloneJSON (cloneJSON (NodePlan_ID r))) (cloneJSON (cloneJSON (NodePlan_Name r)))
    (cloneJSON (cloneJSON (NodePlan_Kind r))) (cloneJSON (cloneJSON (NodePlan_Group r)))
    (cloneJSON (cloneJSON (NodePlan_Position r)))
    (cloneJSON (cloneJSON (NodePlan_Aliases r)))
    (cloneJSON (cloneJSON (NodePlan_ContainerIDs r)))
    (cloneJSON (cloneJSON (NodePlan_ReadinessContainerIDs r)))
    (cloneJSON (cloneJSON (NodePlan_PrimaryContainerID r)))
    (cloneJSON (cloneJSON (NodePlan_EnforceStartupConfig r)))
    = cloneJSON r).
  by rewrite !clone_idem.
Qed.

Record Device := MkDevice {
  Device_HostPath : string;
  Device_ContainerPath : string;
  Device_Permissions : string
}.
#[export] Instance Device_eq_dec : EqDecision Device.
Proof. solve_decision. Defined.
#[export] Instance Device_updatable : Updatable Device :=
  λ r, MkDevice (Device_HostPath r) (Device_ContainerPath r) (Device_Permissions r).
#[export] Instance Device_clone : CloneJSON Device :=
  λ r, MkDevice (cloneJSON (Device_HostPath r)) (cloneJSON (Device_ContainerPath r))
         (cloneJSON (Device_Permissions r)).
#[export] Instance Device_clone_idem : CloneIdem Device.
Proof.
  intros r. change (MkDevice (cloneJSON (cloneJSON (Device_HostPath r)))
    (cloneJSON (cloneJSON (Device_ContainerPath r)))
    (cloneJSON (cloneJSON (Device_Permissions r)))
    = cloneJSON r).
  by rewrite !clone_idem.
Qed.

Record SecurityPlan := MkSecurityPlan {
  SecurityPlan_Privileged : bool;
  SecurityPlan_CapabilitiesAdd : list string;
  SecurityPlan_CapabilitiesDrop : list string;
  SecurityPlan_Devices : list Device;
  SecurityPlan_Sysctls : list KeyValue;
  SecurityPlan_SeccompProfile : string;
  SecurityPlan_AppArmorProfile : string;
  SecurityPlan_ReadOnlyRootFS : bool
}.
#[export] Instance SecurityPlan_eq_dec : EqDecision SecurityPlan.
Proof. solve_decision. Defined.
#[export] Instance SecurityPlan_updatable : Updatable SecurityPlan :=
  λ r, MkSecurityPlan (SecurityPlan_Privileged r) (SecurityPlan_CapabilitiesAdd r)
         (SecurityPlan_CapabilitiesDrop r) (SecurityPlan_Devices r) (SecurityPlan_Sysctls r)
         (SecurityPlan_SeccompProfile r) (SecurityPlan_AppArmorProfile r)
         (SecurityPlan_ReadOnlyRootFS r).
#[export] Instance SecurityPlan_clone : CloneJSON SecurityPlan :=
  λ r, MkSecurityPlan (cloneJSON (SecurityPlan_Privileged r)) (cloneJSON (SecurityPlan_CapabilitiesAdd r))
         (cloneJSON (SecurityPlan_CapabilitiesDrop r)) (cloneJSON (SecurityPlan_Devices r))
         (cloneJSON (SecurityPlan_Sysctls r)) (cloneJSON (SecurityPlan_SeccompProfile r))
         (cloneJSON (SecurityPlan_AppArmorProfile r)) (cloneJSON (SecurityPlan_ReadOnlyRootFS r)).
#[export] Instance SecurityPlan_clone_idem : CloneIdem SecurityPlan.
Proof.
  intros r. change (MkSecurityPlan (cloneJSON (cloneJSON (SecurityPlan_Privileged r)))
    (cloneJSON (cloneJSON (SecurityPlan_CapabilitiesAdd r)))
    (cloneJSON (cloneJSON (SecurityPlan_CapabilitiesDrop r)))
    (cloneJSON (cloneJSON (SecurityPlan_Devices r)))
    (cloneJSON (cloneJSON (SecurityPlan_Sysctls r)))
    (cloneJSON (cloneJSON (SecurityPlan_SeccompProfile r)))
    (cloneJSON (cloneJSON (SecurityPlan_AppArmorProfile r)))
    (cloneJSON (cloneJSON (SecurityPlan_ReadOnlyRootFS r)))
    = cloneJSON r).
  by rewrite !clone_idem.
Qed.

Record ResourcePlan := MkResourcePlan {
  ResourcePlan_CPURequest : string;
  ResourcePlan_CPULimit : string;
  ResourcePlan_MemoryRequest : string;
  ResourcePlan_MemoryLimit : string;
  ResourcePlan_HugePages : string;
  ResourcePlan_CPUSet : string
}.
#[export] Instance ResourcePlan_eq_dec : EqDecision ResourcePlan.
Proof. solve_decision. Defined.
#[export] Instance ResourcePlan_updatable : Updatable ResourcePlan :=
  λ r, MkResourcePlan (ResourcePlan_CPURequest r) (ResourcePlan_CPULimit r) (ResourcePlan_MemoryRequest r)
         (ResourcePlan_MemoryLimit r) (ResourcePlan_HugePages r) (ResourcePlan_CPUSet r).
#[export] Instance ResourcePlan_clone : CloneJSON ResourcePlan :=
  λ r, MkResourcePlan (cloneJSON (ResourcePlan_CPURequest r)) (cloneJSON (ResourcePlan_CPULimit r))
         (cloneJSON (ResourcePlan_MemoryRequest r)) (cloneJSON (ResourcePlan_MemoryLimit r))
         (cloneJSON (ResourcePlan_HugePages r)) (cloneJSON (ResourcePlan_CPUSet r)).
#[export] Instance ResourcePlan_clone_idem : CloneIdem ResourcePlan.
Proof.
  intros r. change (MkResourcePlan (cloneJSON (cloneJSON (ResourcePlan_CPURequest r)))
    (cloneJSON (cloneJSON (ResourcePlan_CPULimit r)))
    (cloneJSON (cloneJSON (ResourcePlan_MemoryRequest r)))
    (cloneJSON (cloneJSON (ResourcePlan_MemoryLimit r)))
    (cloneJSON (cloneJSON (ResourcePlan_HugePages r)))
    (cloneJSON (cloneJSON (ResourcePlan_CPUSet r)))
    = cloneJSON r).
  by rewrite !clone_idem.
Qed.

Record ContainerPlan := MkContainerPlan {
  ContainerPlan_ID : string;
  ContainerPlan_NodeID : string;
  ContainerPlan_RuntimeID : string;
  ContainerPlan_ComponentID : string;
  ContainerPlan_NamespaceOwnerID : string;
  ContainerPlan_Image : string;
  ContainerPlan_ImageDigest : string;
  ContainerPlan_ImagePullPolicy : string;
  ContainerPlan_ImagePullPolicyExplicit : bool;
  ContainerPlan_ImageEntrypoint : list string;
  ContainerPlan_ImageCommand : list string;
  ContainerPlan_Entrypoint : list string;
  ContainerPlan_Command : list string;
  ContainerPlan_Environment : list KeyValue;
  ContainerPlan_Labels : list KeyValue;
  ContainerPlan_User : string;
  ContainerPlan_WorkingDir : string;
  ContainerPlan_Ports : list Port;
  ContainerPlan_StopSignal : string;
  ContainerPlan_RestartPolicy : string;
  ContainerPlan_StartupDelay : Z;
  ContainerPlan_TTY : bool;
  ContainerPlan_Stdin : bool;
  ContainerPlan_Security : SecurityPlan;
  ContainerPlan_Resources : ResourcePlan;
  ContainerPlan_DNS : DNSConfig;
  ContainerPlan_Healthcheck : option Healthcheck;
  ContainerPlan_Required : bool;
  ContainerPlan_MountIDs : list string
}.
#[export] Instance ContainerPlan_eq_dec : EqDecision ContainerPlan.
Proof. solve_decision. Defined.
#[export] Instance ContainerPlan_updatable : Updatable ContainerPlan :=
  λ r, MkContainerPlan (ContainerPlan_ID r) (ContainerPlan_NodeID r) (ContainerPlan_RuntimeID r)
         (ContainerPlan_ComponentID r) (ContainerPlan_NamespaceOwnerID r) (ContainerPlan_Image r)
         (ContainerPlan_ImageDigest r) (ContainerPlan_ImagePullPolicy r)
         (ContainerPlan_ImagePullPolicyExplicit r) (ContainerPlan_ImageEntrypoint r)
         (ContainerPlan_ImageCommand r) (ContainerPlan_Entrypoint r) (ContainerPlan_Command r)
         (ContainerPlan_Environment r) (ContainerPlan_Labels r) (ContainerPlan_User r)
         (ContainerPlan_WorkingDir r) (ContainerPlan_Ports r) (ContainerPlan_StopSignal r)
         (ContainerPlan_RestartPolicy r) (ContainerPlan_StartupDelay r) (ContainerPlan_TTY r)
         (ContainerPlan_Stdin r) (ContainerPlan_Security r) (ContainerPlan_Resources r)
         (ContainerPlan_DNS r) (ContainerPlan_Healthcheck r) (ContainerPlan_Required r)
         (ContainerPlan_MountIDs r).
#[export] Instance ContainerPlan_clone : CloneJSON ContainerPlan :=
  λ r, MkContainerPlan (cloneJSON (ContainerPlan_ID r)) (cloneJSON (ContainerPlan_NodeID r))
         (cloneJSON (ContainerPlan_RuntimeID r)) (cloneJSON (ContainerPlan_ComponentID r))
         (cloneJSON (ContainerPlan_NamespaceOwnerID r)) (cloneJSON (ContainerPlan_Image r))
         (cloneJSON (ContainerPlan_ImageDigest r)) (cloneJSON (ContainerPlan_ImagePullPolicy r))
         (cloneJSON (ContainerPlan_ImagePullPolicyExplicit r))
         (cloneJSON (ContainerPlan_ImageEntrypoint r)) (cloneJSON (ContainerPlan_ImageCommand r))
         (cloneJSON (ContainerPlan_Entrypoint r)) (cloneJSON (ContainerPlan_Command r))
         (cloneJSON (ContainerPlan_Environment r)) (cloneJSON (ContainerPlan_Labels r))
         (cloneJSON (ContainerPlan_User r)) (cloneJSON (ContainerPlan_WorkingDir r))
         (cloneJSON (ContainerPlan_Ports r)) (cloneJSON (ContainerPlan_StopSignal r))
         (cloneJSON (ContainerPlan_RestartPolicy r)) (cloneJSON (ContainerPlan_StartupDelay r))
         (cloneJSON (ContainerPlan_TTY r)) (cloneJSON (ContainerPlan_Stdin r))
         (cloneJSON (ContainerPlan_Security r)) (cloneJSON (ContainerPlan_Resources r))
         (cloneJSON (ContainerPlan_DNS r)) (cloneJSON (ContainerPlan_Healthcheck r))
         (cloneJSON (ContainerPlan_Required r)) (cloneJSON (ContainerPlan_MountIDs r)).
#[export] Instance ContainerPlan_clone_idem : CloneIdem ContainerPlan.
Proof.
  intros r. change (MkContainerPlan (cloneJSON (cloneJSON (ContainerPlan_ID r)))
    (cloneJSON (cloneJSON (ContainerPlan_NodeID r)))
    (cloneJSON (cloneJSON (ContainerPlan_RuntimeID r)))
    (cloneJSON (cloneJSON (ContainerPlan_ComponentID r)))
    (cloneJSON (cloneJSON (ContainerPlan_NamespaceOwnerID r)))
    (cloneJSON (cloneJSON (ContainerPlan_Image r)))
    (cloneJSON (cloneJSON (ContainerPlan_ImageDigest r)))
    (cloneJSON (cloneJSON (ContainerPlan_ImagePullPolicy r)))
    (cloneJSON (cloneJSON (ContainerPlan_ImagePullPolicyExplicit r)))
    (cloneJSON (cloneJSON (ContainerPlan_ImageEntrypoint r)))
    (cloneJSON (cloneJSON (ContainerPlan_ImageCommand r)))
    (cloneJSON (cloneJSON (ContainerPlan_Entrypoint r)))
    (cloneJSON (cloneJSON (ContainerPlan_Command r)))
    (cloneJSON (cloneJSON (ContainerPlan_Environment r)))
    (cloneJSON (cloneJSON (ContainerPlan_Labels r)))
    (cloneJSON (cloneJSON (ContainerPlan_User r)))
    (cloneJSON (cloneJSON (ContainerPlan_WorkingDir r)))
    (cloneJSON (cloneJSON (ContainerPlan_Ports r)))
    (cloneJSON (cloneJSON (ContainerPlan_StopSignal r)))
    (cloneJSON (cloneJSON (ContainerPlan_RestartPolicy r)))
    (cloneJSON (cloneJSON (ContainerPlan_StartupDelay r)))
    (cloneJSON (cloneJSON (ContainerPlan_TTY r)))
    (cloneJSON (cloneJSON (ContainerPlan_Stdin r)))
    (cloneJSON (cloneJSON (ContainerPlan_Security r)))
    (cloneJSON (cloneJSON (ContainerPlan_Resources r)))
    (cloneJSON (cloneJSON (ContainerPlan_DNS r)))
    (cloneJSON (cloneJSON (ContainerPlan_Healthcheck r)))
    (cloneJSON (cloneJSON (ContainerPlan_Required r)))
    (cloneJSON (cloneJSON (ContainerPlan_MountIDs r)))
    = cloneJSON r).
  by rewrite !clone_idem.
Qed.

Record ExtendedAttribute := MkExtendedAttribute {
  ExtendedAttribute_Name : string;
  ExtendedAttribute_Digest : string
}.
#[export] Instance ExtendedAttribute_eq_dec : EqDecision ExtendedAttribute.
Proof. solve_decision. Defined.
#[export] Instance ExtendedAttribute_updatable : Updatable ExtendedAttribute :=
  λ r, MkExtendedAttribute (ExtendedAttribute_Name r) (ExtendedAttribute_Digest r).
#[export] Instance ExtendedAttribute_clone : CloneJSON ExtendedAttribute :=
  λ r, MkExtendedAttribute (cloneJSON (ExtendedAttribute_Name r)) (cloneJSON (ExtendedAttribute_Digest r)).
#[export] Instance ExtendedAttribute_clone_idem : CloneIdem ExtendedAttribute.
Proof.
  intros r. change (MkExtendedAttribute (cloneJSON (cloneJSON (ExtendedAttribute_Name r)))
    (cloneJSON (cloneJSON (ExtendedAttribute_Digest r)))
    = cloneJSON r).
  by rewrite !clone_idem.
Qed.

Record FilePlan := MkFilePlan {
  FilePlan_ID : string;
  FilePlan_NodeID : string;
  FilePlan_SourceKind : string;
  FilePlan_ArtifactKind : string;
  FilePlan_SourceReference : string;
  FilePlan_Digest : string;
  FilePlan_ArtifactPath : string;
  FilePlan_LinkTarget : string;
  FilePlan_Destination : string;
  FilePlan_Mode : Z;
  FilePlan_UID : option Z;
  FilePlan_GID : option Z;
  FilePlan_ExtendedAttributes : list ExtendedAttribute;
  FilePlan_Sensitive : bool;
  FilePlan_PreserveExisting : bool;
  FilePlan_Variables : list KeyValue
}.
#[export] Instance FilePlan_eq_dec : EqDecision FilePlan.
Proof. solve_decision. Defined.
#[export] Instance FilePlan_updatable : Updatable FilePlan :=
  λ r, MkFilePlan (FilePlan_ID r) (FilePlan_NodeID r) (FilePlan_SourceKind r) (FilePlan_ArtifactKind r)
         (FilePlan_SourceReference r) (FilePlan_Digest r) (FilePlan_ArtifactPath r)
         (FilePlan_LinkTarget r) (FilePlan_Destination r) (FilePlan_Mode r) (FilePlan_UID r)
         (FilePlan_GID r) (FilePlan_ExtendedAttributes r) (FilePlan_Sensitive r)
         (FilePlan_PreserveExisting r) (FilePlan_Variables r).
#[export] Instance FilePlan_clone : CloneJSON FilePlan :=
  λ r, MkFilePlan (cloneJSON (FilePlan_ID r)) (cloneJSON (FilePlan_NodeID r))
         (cloneJSON (FilePlan_SourceKind r)) (cloneJSON (FilePlan_ArtifactKind r))
         (cloneJSON (FilePlan_SourceReference r)) (cloneJSON (FilePlan_Digest r))
         (cloneJSON (FilePlan_ArtifactPath r)) (cloneJSON (FilePlan_LinkTarget r))
         (cloneJSON (FilePlan_Destination r)) (cloneJSON (FilePlan_Mode r))
         (cloneJSON (FilePlan_UID r)) (cloneJSON (FilePlan_GID r))
         (cloneJSON (FilePlan_ExtendedAttributes r)) (cloneJSON (FilePlan_Sensitive r))
         (cloneJSON (FilePlan_PreserveExisting r)) (cloneJSON (FilePlan_Variables r)).
#[export] Instance FilePlan_clone_idem : CloneIdem FilePlan.
Proof.
  intros r. change (MkFilePlan (cloneJSON (cloneJSON (FilePlan_ID r))) (cloneJSON (cloneJSON (FilePlan_NodeID r)))
    (cloneJSON (cloneJSON (FilePlan_SourceKind r)))
    (cloneJSON (cloneJSON (FilePlan_ArtifactKind r)))
    (cloneJSON (cloneJSON (FilePlan_SourceReference r)))
    (cloneJSON (cloneJSON (FilePlan_Digest r)))
    (cloneJSON (cloneJSON (FilePlan_ArtifactPath r)))
    (cloneJSON (cloneJSON (FilePlan_LinkTarget r)))
    (cloneJSON (cloneJSON (FilePlan_Destination r)))
    (cloneJSON (cloneJSON (FilePlan_Mode r))) (cloneJSON (cloneJSON (FilePlan_UID r)))
    (cloneJSON (cloneJSON (FilePlan_GID r)))
    (cloneJSON (cloneJSON (FilePlan_ExtendedAttributes r)))
    (cloneJSON (cloneJSON (FilePlan_Sensitive r)))
    (cloneJSON (cloneJSON (FilePlan_PreserveExisting r)))
    (cloneJSON (cloneJSON (FilePlan_Variables r)))
    = cloneJSON r).
  by rewrite !clone_idem.
Qed.

Record VolumePlan := MkVolumePlan {
  VolumePlan_ID : string;
  VolumePlan_NodeID : string;
  VolumePlan_Kind : string;
  VolumePlan_Reference : string;
  VolumePlan_Size : string;
  VolumePlan_Medium : string
}.
#[export] Instance VolumePlan_eq_dec : EqDecision VolumePlan.
Proof. solve_decision. Defined.
#[export] Instance VolumePlan_updatable : Updatable VolumePlan :=
  λ r, MkVolumePlan (VolumePlan_ID r) (VolumePlan_NodeID r) (VolumePlan_Kind r) (VolumePlan_Reference r)
         (VolumePlan_Size r) (VolumePlan_Medium r).
#[export] Instance VolumePlan_clone : CloneJSON VolumePlan :=
  λ r, MkVolumePlan (cloneJSON (VolumePlan_ID r)) (cloneJSON (VolumePlan_NodeID r))
         (cloneJSON (VolumePlan_Kind r)) (cloneJSON (VolumePlan_Reference r))
         (cloneJSON (VolumePlan_Size r)) (cloneJSON (VolumePlan_Medium r)).
#[export] Instance VolumePlan_clone_idem : CloneIdem VolumePlan.
Proof.
  intros r. change (MkVolumePlan (cloneJSON (cloneJSON (VolumePlan_ID r))) (cloneJSON (cloneJSON (VolumePlan_NodeID r)))
    (cloneJSON (cloneJSON (VolumePlan_Kind r)))
    (cloneJSON (cloneJSON (VolumePlan_Reference r)))
    (cloneJSON (cloneJSON (VolumePlan_Size r)))
    (cloneJSON (cloneJSON (VolumePlan_Medium r)))
    = cloneJSON r).
  by rewrite !clone_idem.
Qed.

Record MountPlan := MkMountPlan {
  MountPlan_ID : string;
  MountPlan_ContainerID : string;
  MountPlan_VolumeID : string;
  MountPlan_SourcePath : string;
  MountPlan_Destination : string;
  MountPlan_ReadOnly : bool;
  MountPlan_Propagation : string
}.
#[export] Instance MountPlan_eq_dec : EqDecision MountPlan.
Proof. solve_decision. Defined.
#[export] Instance MountPlan_updatable : Updatable MountPlan :=
  λ r, MkMountPlan (MountPlan_ID r) (MountPlan_ContainerID r) (MountPlan_VolumeID r)
         (MountPlan_SourcePath r) (MountPlan_Destination r) (MountPlan_ReadOnly r)
         (MountPlan_Propagation r).
#[export] Instance MountPlan_clone : CloneJSON MountPlan :=
  λ r, MkMountPlan (cloneJSON (MountPlan_ID r)) (cloneJSON (MountPlan_ContainerID r))
         (cloneJSON (MountPlan_VolumeID r)) (cloneJSON (MountPlan_SourcePath r))
         (cloneJSON (MountPlan_Destination r)) (cloneJSON (MountPlan_ReadOnly r))
         (cloneJSON (MountPlan_Propagation r)).
#[export] Instance MountPlan_clone_idem : CloneIdem MountPlan.
Proof.
  intros r. change (MkMountPlan (cloneJSON (cloneJSON (MountPlan_ID r)))
    (cloneJSON (cloneJSON (MountPlan_ContainerID r)))
    (cloneJSON (cloneJSON (MountPlan_VolumeID r)))
    (cloneJSON (cloneJSON (MountPlan_SourcePath r)))
    (cloneJSON (cloneJSON (MountPlan_Destination r)))
    (cloneJSON (cloneJSON (MountPlan_ReadOnly r)))
    (cloneJSON (cloneJSON (MountPlan_Propagation r)))
    = cloneJSON r).
  by rewrite !clone_idem.
Qed.

Record ImportedDeployEndpointsAction := MkImportedDeployEndpointsAction { }.
#[export] Instance ImportedDeployEndpointsAction_eq_dec : EqDecision ImportedDeployEndpointsAction.
Proof. solve_decision. Defined.
#[export] Instance ImportedDeployEndpointsAction_clone : CloneJSON ImportedDeployEndpointsAction := λ r, r.
#[export] Instance ImportedDeployEndpointsAction_clone_idem : CloneIdem ImportedDeployEndpointsAction := λ r, eq_refl.

Record ImportedPostDeployAction := MkImportedPostDeployAction { }.
#[export] Instance ImportedPostDeployAction_eq_dec : EqDecision ImportedPostDeployAction.
Proof. solve_decision. Defined.
#[export] Instance ImportedPostDeployAction_clone : CloneJSON ImportedPostDeployAction := λ r, r.
#[export] Instance ImportedPostDeployAction_clone_idem : CloneIdem ImportedPostDeployAction := λ r, eq_refl.

Record ActionTarget := MkActionTarget {
  ActionTarget_NodeID : string;
  ActionTarget_ContainerID : string;
  ActionTarget_NamespaceOwnerID : string
}.
#[export] Instance ActionTarget_eq_dec : EqDecision ActionTarget.
Proof. solve_decision. Defined.
#[export] Instance ActionTarget_updatable : Updatable ActionTarget :=
  λ r, MkActionTarget (ActionTarget_NodeID r) (ActionTarget_ContainerID r) (ActionTarget_NamespaceOwnerID r).
#[export] Instance ActionTarget_clone : CloneJSON ActionTarget :=
  λ r, MkActionTarget (cloneJSON (ActionTarget_NodeID r)) (cloneJSON (ActionTarget_ContainerID r))
         (cloneJSON (ActionTarget_NamespaceOwnerID r)).
#[export] Instance ActionTarget_clone_idem : CloneIdem ActionTarget.
Proof.
  intros r. change (MkActionTarget (cloneJSON (cloneJSON (ActionTarget_NodeID r)))
    (cloneJSON (cloneJSON (ActionTarget_ContainerID r)))
    (cloneJSON (cloneJSON (ActionTarget_NamespaceOwnerID r)))
    = cloneJSON r).
  by rewrite !clone_idem.
Qed.

Record ExecAction := MkExecAction {
  ExecAction_Command : list string;
  ExecAction_Shell : bool;
  ExecAction_Wait : bool;
  ExecAction_ContinueOnError : bool;
  ExecAction_TimeoutSeconds : Z
}.
#[export] Instance ExecAction_eq_dec : EqDecision ExecAction.
Proof. solve_decision. Defined.
#[export] Instance ExecAction_updatable : Updatable ExecAction :=
  λ r, MkExecAction (ExecAction_Command r) (ExecAction_Shell r) (ExecAction_Wait r)
         (ExecAction_ContinueOnError r) (ExecAction_TimeoutSeconds r).
#[export] Instance ExecAction_clone : CloneJSON ExecAction :=
  λ r, MkExecAction (cloneJSON (ExecAction_Command r)) (cloneJSON (ExecAction_Shell r))
         (cloneJSON (ExecAction_Wait r)) (cloneJSON (ExecAction_ContinueOnError r))
         (cloneJSON (ExecAction_TimeoutSeconds r)).
#[export] Instance ExecAction_clone_idem : CloneIdem ExecAction.
Proof.
  intros r. change (MkExecAction (cloneJSON (cloneJSON (ExecAction_Command r)))
    (cloneJSON (cloneJSON (ExecAction_Shell r))) (cloneJSON (cloneJSON (ExecAction_Wait r)))
    (cloneJSON (cloneJSON (ExecAction_ContinueOnError r)))
    (cloneJSON (cloneJSON (ExecAction_TimeoutSeconds r)))
    = cloneJSON r).
  by rewrite !clone_idem.
Qed.

Record FileAction := MkFileAction {
  FileAction_FileID : string;
  FileAction_Destination : string;
  FileAction_WriteMode : string
}.
#[export] Instance FileAction_eq_dec : EqDecision FileAction.
Proof. solve_decision. Defined.
#[export] Instance FileAction_updatable : Updatable FileAction :=
  λ r, MkFileAction (FileAction_FileID r) (FileAction_Destination r) (FileAction_WriteMode r).
#[export] Instance FileAction_clone : CloneJSON FileAction :=
  λ r, MkFileAction (cloneJSON (FileAction_FileID r)) (cloneJSON (FileAction_Destination r))
         (cloneJSON (FileAction_WriteMode r)).
#[export] Instance FileAction_clone_idem : CloneIdem FileAction.
Proof.
  intros r. change (MkFileAction (cloneJSON (cloneJSON (FileAction_FileID r)))
    (cloneJSON (cloneJSON (FileAction_Destination r)))
    (cloneJSON (cloneJSON (FileAction_WriteMode r)))
    = cloneJSON r).
  by rewrite !clone_idem.
Qed.

Record WriteStdinAction := MkWriteStdinAction {
  WriteStdinAction_FileID : string
}.
#[export] Instance WriteStdinAction_eq_dec : EqDecision WriteStdinAction.
Proof. solve_decision. Defined.
#[export] Instance WriteStdinAction_updatable : Updatable WriteStdinAction :=
  λ r, MkWriteStdinAction (WriteStdinAction_FileID r).
#[export] Instance WriteStdinAction_clone : CloneJSON WriteStdinAction :=
  λ r, MkWriteStdinAction (cloneJSON (WriteStdinAction_FileID r)).
#[export] Instance WriteStdinAction_clone_idem : CloneIdem WriteStdinAction.
Proof.
  intros r. change (MkWriteStdinAction (cloneJSON (cloneJSON (WriteStdinAction_FileID r)))
    = cloneJSON r).
  by rewrite !clone_idem.
Qed.

Record MountAction := MkMountAction {
  MountAction_MountID : string;
  MountAction_Filesystem : string;
  MountAction_Source : string;
  MountAction_Options : list string
}.
#[export] Instance MountAction_eq_dec : EqDecision MountAction.
Proof. solve_decision. Defined.
#[export] Instance MountAction_updatable : Updatable MountAction :=
  λ r, MkMountAction (MountAction_MountID r) (MountAction_Filesystem r) (MountAction_Source r)
         (MountAction_Options r).
#[export] Instance MountAction_clone : CloneJSON MountAction :=
  λ r, MkMountAction (cloneJSON (MountAction_MountID r)) (cloneJSON (MountAction_Filesystem r))
         (cloneJSON (MountAction_Source r)) (cloneJSON (MountAction_Options r)).
#[export] Instance MountAction_clone_idem : CloneIdem MountAction.
Proof.
  intros r. change (MkMountAction (cloneJSON (cloneJSON (MountAction_MountID r)))
    (cloneJSON (cloneJSON (MountAction_Filesystem r)))
    (cloneJSON (cloneJSON (MountAction_Source r)))
    (cloneJSON (cloneJSON (MountAction_Options r)))
    = cloneJSON r).
  by rewrite !clone_idem.
Qed.

Record SysctlAction := MkSysctlAction {
  SysctlAction_Name : string;
  SysctlAction_Value : string
}.
#[export] Instance SysctlAction_eq_dec : EqDecision SysctlAction.
Proof. solve_decision. Defined.
#[export] Instance SysctlAction_updatable : Updatable SysctlAction :=
  λ r, MkSysctlAction (SysctlAction_Name r) (SysctlAction_Value r).
#[export] Instance SysctlAction_clone : CloneJSON SysctlAction :=
  λ r, MkSysctlAction (cloneJSON (SysctlAction_Name r)) (cloneJSON (SysctlAction_Value r)).
#[export] Instance SysctlAction_clone_idem : CloneIdem SysctlAction.
Proof.
  intros r. change (MkSysctlAction (cloneJSON (cloneJSON (SysctlAction_Name r)))
    (cloneJSON (cloneJSON (SysctlAction_Value r)))
    = cloneJSON r).
  by rewrite !clone_idem.
Qed.

Record WaitInterfaceAction := MkWaitInterfaceAction {
  WaitInterfaceAction_InterfaceID : string;
  WaitInterfaceAction_TimeoutSeconds : Z
}.
#[export] Instance WaitInterfaceAction_eq_dec : EqDecision WaitInterfaceAction.
Proof. solve_decision. Defined.
#[export] Instance WaitInterfaceAction_updatable : Updatable WaitInterfaceAction :=
  λ r, MkWaitInterfaceAction (WaitInterfaceAction_InterfaceID r) (WaitInterfaceAction_TimeoutSeconds r).
#[export] Instance WaitInterfaceAction_clone : CloneJSON WaitInterfaceAction :=
  λ r, MkWaitInterfaceAction (cloneJSON (WaitInterfaceAction_InterfaceID r))
         (cloneJSON (WaitInterfaceAction_TimeoutSeconds r)).
#[export] Instance WaitInterfaceAction_clone_idem : CloneIdem WaitInterfaceAction.
Proof.
  intros r. change (MkWaitInterfaceAction (cloneJSON (cloneJSON (WaitInterfaceAction_InterfaceID r)))
    (cloneJSON (cloneJSON (WaitInterfaceAction_TimeoutSeconds r)))
    = cloneJSON r).
  by rewrite !clone_idem.
Qed.

Record RenameInterfaceAction := MkRenameInterfaceAction {
  RenameInterfaceAction_InterfaceID : string;
  RenameInterfaceAction_From : string;
  RenameInterfaceAction_To : string
}.
#[export] Instance RenameInterfaceAction_eq_dec : EqDecision RenameInterfaceAction.
Proof. solve_decision. Defined.
#[export] Instance RenameInterfaceAction_updatable : Updatable RenameInterfaceAction :=
  λ r, MkRenameInterfaceAction (RenameInterfaceAction_InterfaceID r) (RenameInterfaceAction_From r)
         (RenameInterfaceAction_To r).
#[export] Instance RenameInterfaceAction_clone : CloneJSON RenameInterfaceAction :=
  λ r, MkRenameInterfaceAction (cloneJSON (RenameInterfaceAction_InterfaceID r))
         (cloneJSON (RenameInterfaceAction_From r)) (cloneJSON (RenameInterfaceAction_To r)).
#[export] Instance RenameInterfaceAction_clone_idem : CloneIdem RenameInterfaceAction.
Proof.
  intros r. change (MkRenameInterfaceAction (cloneJSON (cloneJSON (RenameInterfaceAction_InterfaceID r)))
    (cloneJSON (cloneJSON (RenameInterfaceAction_From r)))
    (cloneJSON (cloneJSON (RenameInterfaceAction_To r)))
    = cloneJSON r).
  by rewrite !clone_idem.
Qed.

Record ManagementForwardingAction := MkManagementForwardingAction {
  ManagementForwardingAction_ManagementID : string;
  ManagementForwardingAction_Namespace : string;
  ManagementForwardingAction_IPv4Forward : bool
}.
#[export] Instance ManagementForwardingAction_eq_dec : EqDecision ManagementForwardingAction.
Proof. solve_decision. Defined.
#[export] Instance ManagementForwardingAction_updatable : Updatable ManagementForwardingAction :=
  λ r, MkManagementForwardingAction (ManagementForwardingAction_ManagementID r) (ManagementForwardingAction_Namespace r)
         (ManagementForwardingAction_IPv4Forward r).
#[export] Instance ManagementForwardingAction_clone : CloneJSON ManagementForwardingAction :=
  λ r, MkManagementForwardingAction (cloneJSON (ManagementForwardingAction_ManagementID r))
         (cloneJSON (ManagementForwardingAction_Namespace r))
         (cloneJSON (ManagementForwardingAction_IPv4Forward r)).
#[export] Instance ManagementForwardingAction_clone_idem : CloneIdem ManagementForwardingAction.
Proof.
  intros r. change (MkManagementForwardingAction (cloneJSON (cloneJSON (ManagementForwardingAction_ManagementID r)))
    (cloneJSON (cloneJSON (ManagementForwardingAction_Namespace r)))
    (cloneJSON (cloneJSON (ManagementForwardingAction_IPv4Forward r)))
    = cloneJSON r).
  by rewrite !clone_idem.
Qed.

Record ImportedReadinessAction := MkImportedReadinessAction { }.
#[export] Instance ImportedReadinessAction_eq_dec : EqDecision ImportedReadinessAction.
Proof. solve_decision. Defined.
#[export] Instance ImportedReadinessAction_clone : CloneJSON ImportedReadinessAction := λ r, r.
#[export] Instance ImportedReadinessAction_clone_idem : CloneIdem ImportedReadinessAction := λ r, eq_refl.

Record SaveAction := MkSaveAction {
  SaveAction_Method : string;
  SaveAction_FileID : string
}.
#[export] Instance SaveAction_eq_dec : EqDecision SaveAction.
Proof. solve_decision. Defined.
#[export] Instance SaveAction_updatable : Updatable SaveAction :=
  λ r, MkSaveAction (SaveAction_Method r) (SaveAction_FileID r).
#[export] Instance SaveAction_clone : CloneJSON SaveAction :=
  λ r, MkSaveAction (cloneJSON (SaveAction_Method r)) (cloneJSON (SaveAction_FileID r)).
#[export] Instance SaveAction_clone_idem : CloneIdem SaveAction.
Proof.
  intros r. change (MkSaveAction (cloneJSON (cloneJSON (SaveAction_Method r)))
    (cloneJSON (cloneJSON (SaveAction_FileID r)))
    = cloneJSON r).
  by rewrite !clone_idem.
Qed.

Record Action := MkAction {
  Action_ID : string;
  Action_Phase : string;
  Action_Order : Z;
  Action_Target : ActionTarget;
  Action_Kind : string;
  Action_Exec : option ExecAction;
  Action_File : option FileAction;
  Action_WriteStdin : option WriteStdinAction;
  Action_Mount : option MountAction;
  Action_Sysctl : option SysctlAction;
  Action_WaitInterface : option WaitInterfaceAction;
  Action_RenameInterface : option RenameInterfaceAction;
  Action_ManagementForwarding : option ManagementForwardingAction;
  Action_ImportedDeployEndpoints : option ImportedDeployEndpointsAction;
  Action_ImportedPostDeploy : option ImportedPostDeployAction;
  Action_ImportedReadiness : option ImportedReadinessAction;
  Action_Save : option SaveAction
}.
#[export] Instance Action_eq_dec : EqDecision Action.
Proof. solve_decision. Defined.
#[export] Instance Action_updatable : Updatable Action :=
  λ r, MkAction (Action_ID r) (Action_Phase r) (Action_Order r) (Action_Target r) (Action_Kind r)
         (Action_Exec r) (Action_File r) (Action_WriteStdin r) (Action_Mount r) (Action_Sysctl r)
         (Action_WaitInterface r) (Action_RenameInterface r) (Action_ManagementForwarding r)
         (Action_ImportedDeployEndpoints r) (Action_ImportedPostDeploy r)
         (Action_ImportedReadiness r) (Action_Save r).
#[export] Instance Action_clone : CloneJSON Action :=
  λ r, MkAction (cloneJSON (Action_ID r)) (cloneJSON (Action_Phase r)) (cloneJSON (Action_Order r))
         (cloneJSON (Action_Target r)) (cloneJSON (Action_Kind r)) (cloneJSON (Action_Exec r))
         (cloneJSON (Action_File r)) (cloneJSON (Action_WriteStdin r))
         (cloneJSON (Action_Mount r)) (cloneJSON (Action_Sysctl r))
         (cloneJSON (Action_WaitInterface r)) (cloneJSON (Action_RenameInterface r))
         (cloneJSON (Action_ManagementForwarding r))
         (cloneJSON (Action_ImportedDeployEndpoints r)) (cloneJSON (Action_ImportedPostDeploy r))
         (cloneJSON (Action_ImportedReadiness r)) (cloneJSON (Action_Save r)).
#[export] Instance Action_clone_idem : CloneIdem Action.
Proof.
  intros r. change (MkAction (cloneJSON (cloneJSON (Action_ID r))) (cloneJSON (cloneJSON (Action_Phase r)))
    (cloneJSON (cloneJSON (Action_Order r))) (cloneJSON (cloneJSON (Action_Target r)))
    (cloneJSON (cloneJSON (Action_Kind r))) (cloneJSON (cloneJSON (Action_Exec r)))
    (cloneJSON (cloneJSON (Action_File r))) (cloneJSON (cloneJSON (Action_WriteStdin r)))
    (cloneJSON (cloneJSON (Action_Mount r))) (cloneJSON (cloneJSON (Action_Sysctl r)))
    (cloneJSON (cloneJSON (Action_WaitInterface r)))
    (cloneJSON (cloneJSON (Action_RenameInterface r)))
    (cloneJSON (cloneJSON (Action_ManagementForwarding r)))
    (cloneJSON (cloneJSON (Action_ImportedDeployEndpoints r)))
    (cloneJSON (cloneJSON (Action_ImportedPostDeploy r)))
    (cloneJSON (cloneJSON (Action_ImportedReadiness r)))
    (cloneJSON (cloneJSON (Action_Save r)))
    = cloneJSON r).
  by rewrite !clone_idem.
Qed.

Record ManagementPortMap := MkManagementPortMap {
  ManagementPortMap_Protocol : string;
  ManagementPortMap_PodPort : Z;
  ManagementPortMap_DevicePort : Z
}.
#[export] Instance ManagementPortMap_eq_dec : EqDecision ManagementPortMap.
Proof. solve_decision. Defined.
#[export] Instance ManagementPortMap_updatable : Updatable ManagementPortMap :=
  λ r, MkManagementPortMap (ManagementPortMap_Protocol r) (ManagementPortMap_PodPort r)
         (ManagementPortMap_DevicePort r).
#[export] Instance ManagementPortMap_clone : CloneJSON ManagementPortMap :=
  λ r, MkManagementPortMap (cloneJSON (ManagementPortMap_Protocol r)) (cloneJSON (ManagementPortMap_PodPort r))
         (cloneJSON (ManagementPortMap_DevicePort r)).
#[export] Instance ManagementPortMap_clone_idem : CloneIdem ManagementPortMap.
Proof.
  intros r. change (MkManagementPortMap (cloneJSON (cloneJSON (ManagementPortMap_Protocol r)))
    (cloneJSON (cloneJSON (ManagementPortMap_PodPort r)))
    (cloneJSON (cloneJSON (ManagementPortMap_DevicePort r)))
    = cloneJSON r).
  by rewrite !clone_idem.
Qed.

Record ManagementInterposition := MkManagementInterposition {
  ManagementInterposition_DeviceInterface : string;
  ManagementInterposition_DeviceMAC : string;
  ManagementInterposition_TransportCIDRs : list string;
  ManagementInterposition_InboundPorts : list ManagementPortMap;
  ManagementInterposition_Mesh : option ManagementMesh
}.
#[export] Instance ManagementInterposition_eq_dec : EqDecision ManagementInterposition.
Proof. solve_decision. Defined.
#[export] Instance ManagementInterposition_updatable : Updatable ManagementInterposition :=
  λ r, MkManagementInterposition (ManagementInterposition_DeviceInterface r) (ManagementInterposition_DeviceMAC r)
         (ManagementInterposition_TransportCIDRs r) (ManagementInterposition_InboundPorts r)
         (ManagementInterposition_Mesh r).
#[export] Instance ManagementInterposition_clone : CloneJSON ManagementInterposition :=
  λ r, MkManagementInterposition (cloneJSON (ManagementInterposition_DeviceInterface r))
         (cloneJSON (ManagementInterposition_DeviceMAC r))
         (cloneJSON (ManagementInterposition_TransportCIDRs r))
         (cloneJSON (ManagementInterposition_InboundPorts r))
         (cloneJSON (ManagementInterposition_Mesh r)).
#[export] Instance ManagementInterposition_clone_idem : CloneIdem ManagementInterposition.
Proof.
  intros r. change (MkManagementInterposition (cloneJSON (cloneJSON (ManagementInterposition_DeviceInterface r)))
    (cloneJSON (cloneJSON (ManagementInterposition_DeviceMAC r)))
    (cloneJSON (cloneJSON (ManagementInterposition_TransportCIDRs r)))
    (cloneJSON (cloneJSON (ManagementInterposition_InboundPorts r)))
    (cloneJSON (cloneJSON (ManagementInterposition_Mesh r)))
    = cloneJSON r).
  by rewrite !clone_idem.
Qed.

Record Route := MkRoute {
  Route_Destination : string;
  Route_Gateway : string;
  Route_Metric : Z
}.
#[export] Instance Route_eq_dec : EqDecision Route.
Proof. solve_decision. Defined.
#[export] Instance Route_updatable : Updatable Route :=
  λ r, MkRoute (Route_Destination r) (Route_Gateway r) (Route_Metric r).
#[export] Instance Route_clone : CloneJSON Route :=
  λ r, MkRoute (cloneJSON (Route_Destination r)) (cloneJSON (Route_Gateway r))
         (cloneJSON (Route_Metric r)).
#[export] Instance Route_clone_idem : CloneIdem Route.
Proof.
  intros r. change (MkRoute (cloneJSON (cloneJSON (Route_Destination r))) (cloneJSON (cloneJSON (Route_Gateway r)))
    (cloneJSON (cloneJSON (Route_Metric r)))
    = cloneJSON r).
  by rewrite !clone_idem.
Qed.

Record ManagementPlan := MkManagementPlan {
  ManagementPlan_ID : string;
  ManagementPlan_NodeID : string;
  ManagementPlan_InterfaceName : string;
  ManagementPlan_InterfaceSelector : string;
  ManagementPlan_IPv4 : string;
  ManagementPlan_IPv4Gateway : string;
  ManagementPlan_IPv6 : string;
  ManagementPlan_IPv6Gateway : string;
  ManagementPlan_Routes : list Route;
  ManagementPlan_DNS : DNSConfig;
  ManagementPlan_Interposition : option ManagementInterposition
}.
#[export] Instance ManagementPlan_eq_dec : EqDecision ManagementPlan.
Proof. solve_decision. Defined.
#[export] Instance ManagementPlan_updatable : Updatable ManagementPlan :=
  λ r, MkManagementPlan (ManagementPlan_ID r) (ManagementPlan_NodeID r) (ManagementPlan_InterfaceName r)
         (ManagementPlan_InterfaceSelector r) (ManagementPlan_IPv4 r)
         (ManagementPlan_IPv4Gateway r) (ManagementPlan_IPv6 r) (ManagementPlan_IPv6Gateway r)
         (ManagementPlan_Routes r) (ManagementPlan_DNS r) (ManagementPlan_Interposition r).
#[export] Instance ManagementPlan_clone : CloneJSON ManagementPlan :=
  λ r, MkManagementPlan (cloneJSON (ManagementPlan_ID r)) (cloneJSON (ManagementPlan_NodeID r))
         (cloneJSON (ManagementPlan_InterfaceName r))
         (cloneJSON (ManagementPlan_InterfaceSelector r)) (cloneJSON (ManagementPlan_IPv4 r))
         (cloneJSON (ManagementPlan_IPv4Gateway r)) (cloneJSON (ManagementPlan_IPv6 r))
         (cloneJSON (ManagementPlan_IPv6Gateway r)) (cloneJSON (ManagementPlan_Routes r))
         (cloneJSON (ManagementPlan_DNS r)) (cloneJSON (ManagementPlan_Interposition r)).
#[export] Instance ManagementPlan_clone_idem : CloneIdem ManagementPlan.
Proof.
  intros r. change (MkManagementPlan (cloneJSON (cloneJSON (ManagementPlan_ID r)))
    (cloneJSON (cloneJSON (ManagementPlan_NodeID r)))
    (cloneJSON (cloneJSON (ManagementPlan_InterfaceName r)))
    (cloneJSON (cloneJSON (ManagementPlan_InterfaceSelector r)))
    (cloneJSON (cloneJSON (ManagementPlan_IPv4 r)))
    (cloneJSON (cloneJSON (ManagementPlan_IPv4Gateway r)))
    (cloneJSON (cloneJSON (ManagementPlan_IPv6 r)))
    (cloneJSON (cloneJSON (ManagementPlan_IPv6Gateway r)))
    (cloneJSON (cloneJSON (ManagementPlan_Routes r)))
    (cloneJSON (cloneJSON (ManagementPlan_DNS r)))
    (cloneJSON (cloneJSON (ManagementPlan_Interposition r)))
    = cloneJSON r).
  by rewrite !clone_idem.
Qed.

Record InterfacePlan := MkInterfacePlan {
  InterfacePlan_ID : string;
  InterfacePlan_NodeID : string;
  InterfacePlan_NamespaceOwnerID : string;
  InterfacePlan_Name : string;
  InterfacePlan_Alias : string;
  InterfacePlan_LinkID : string;
  InterfacePlan_LinkName : string;
  InterfacePlan_PeerNodeID : string;
  InterfacePlan_PeerInterface : string;
  InterfacePlan_PeerTransport : string;
  InterfacePlan_Connectivity : string;
  InterfacePlan_WireID : Z;
  InterfacePlan_MTU : Z;
  InterfacePlan_LinkApplyMode : string;
  InterfacePlan_RequiredAtStart : bool
}.
#[export] Instance InterfacePlan_eq_dec : EqDecision InterfacePlan.
Proof. solve_decision. Defined.
#[export] Instance InterfacePlan_updatable : Updatable InterfacePlan :=
  λ r, MkInterfacePlan (InterfacePlan_ID r) (InterfacePlan_NodeID r) (InterfacePlan_NamespaceOwnerID r)
         (InterfacePlan_Name r) (InterfacePlan_Alias r) (InterfacePlan_LinkID r)
         (InterfacePlan_LinkName r) (InterfacePlan_PeerNodeID r) (InterfacePlan_PeerInterface r)
         (InterfacePlan_PeerTransport r) (InterfacePlan_Connectivity r) (InterfacePlan_WireID r)
         (InterfacePlan_MTU r) (InterfacePlan_LinkApplyMode r) (InterfacePlan_RequiredAtStart r).
#[export] Instance InterfacePlan_clone : CloneJSON InterfacePlan :=
  λ r, MkInterfacePlan (cloneJSON (InterfacePlan_ID r)) (cloneJSON (InterfacePlan_NodeID r))
         (cloneJSON (InterfacePlan_NamespaceOwnerID r)) (cloneJSON (InterfacePlan_Name r))
         (cloneJSON (InterfacePlan_Alias r)) (cloneJSON (InterfacePlan_LinkID r))
         (cloneJSON (InterfacePlan_LinkName r)) (cloneJSON (InterfacePlan_PeerNodeID r))
         (cloneJSON (InterfacePlan_PeerInterface r)) (cloneJSON (InterfacePlan_PeerTransport r))
         (cloneJSON (InterfacePlan_Connectivity r)) (cloneJSON (InterfacePlan_WireID r))
         (cloneJSON (InterfacePlan_MTU r)) (cloneJSON (InterfacePlan_LinkApplyMode r))
         (cloneJSON (InterfacePlan_RequiredAtStart r)).
#[export] Instance InterfacePlan_clone_idem : CloneIdem InterfacePlan.
Proof.
  intros r. change (MkInterfacePlan (cloneJSON (cloneJSON (InterfacePlan_ID r)))
    (cloneJSON (cloneJSON (InterfacePlan_NodeID r)))
    (cloneJSON (cloneJSON (InterfacePlan_NamespaceOwnerID r)))
    (cloneJSON (cloneJSON (InterfacePlan_Name r)))
    (cloneJSON (cloneJSON (InterfacePlan_Alias r)))
    (cloneJSON (cloneJSON (InterfacePlan_LinkID r)))
    (cloneJSON (cloneJSON (InterfacePlan_LinkName r)))
    (cloneJSON (cloneJSON (InterfacePlan_PeerNodeID r)))
    (cloneJSON (cloneJSON (InterfacePlan_PeerInterface r)))
    (cloneJSON (cloneJSON (InterfacePlan_PeerTransport r)))
    (cloneJSON (cloneJSON (InterfacePlan_Connectivity r)))
    (cloneJSON (cloneJSON (InterfacePlan_WireID r)))
    (cloneJSON (cloneJSON (InterfacePlan_MTU r)))
    (cloneJSON (cloneJSON (InterfacePlan_LinkApplyMode r)))
    (cloneJSON (cloneJSON (InterfacePlan_RequiredAtStart r)))
    = cloneJSON r).
  by rewrite !clone_idem.
Qed.

Record Plan := MkPlan {
  Plan_SchemaVersion : string;
  Plan_Compatibility : Compatibility;
  Plan_InputDigest : string;
  Plan_Planner : PlannerIdentity;
  Plan_Nodes : list NodePlan;
  Plan_Containers : list ContainerPlan;
  Plan_Files : list FilePlan;
  Plan_Volumes : list VolumePlan;
  Plan_Mounts : list MountPlan;
  Plan_Actions : list Action;
  Plan_Management : list ManagementPlan;
  Plan_Interfaces : list InterfacePlan
}.
#[export] Instance Plan_eq_dec : EqDecision Plan.
Proof. solve_decision. Defined.
#[export] Instance Plan_updatable : Updatable Plan :=
  λ r, MkPlan (Plan_SchemaVersion r) (Plan_Compatibility r) (Plan_InputDigest r) (Plan_Planner r)
         (Plan_Nodes r) (Plan_Containers r) (Plan_Files r) (Plan_Volumes r) (Plan_Mounts r)
         (Plan_Actions r) (Plan_Management r) (Plan_Interfaces r).
#[export] Instance Plan_clone : CloneJSON Plan :=
  λ r, MkPlan (cloneJSON (Plan_SchemaVersion r)) (cloneJSON (Plan_Compatibility r))
         (cloneJSON (Plan_InputDigest r)) (cloneJSON (Plan_Planner r)) (cloneJSON (Plan_Nodes r))
         (cloneJSON (Plan_Containers r)) (cloneJSON (Plan_Files r)) (cloneJSON (Plan_Volumes r))
         (cloneJSON (Plan_Mounts r)) (cloneJSON (Plan_Actions r)) (cloneJSON (Plan_Management r))
         (cloneJSON (Plan_Interfaces r)).
#[export] Instance Plan_clone_idem : CloneIdem Plan.
Proof.
  intros r. change (MkPlan (cloneJSON (cloneJSON (Plan_SchemaVersion r)))
    (cloneJSON (cloneJSON (Plan_Compatibility r)))
    (cloneJSON (cloneJSON (Plan_InputDigest r))) (cloneJSON (cloneJSON (Plan_Planner r)))
    (cloneJSON (cloneJSON (Plan_Nodes r))) (cloneJSON (cloneJSON (Plan_Containers r)))
    (cloneJSON (cloneJSON (Plan_Files r))) (cloneJSON (cloneJSON (Plan_Volumes r)))
    (cloneJSON (cloneJSON (Plan_Mounts r))) (cloneJSON (cloneJSON (Plan_Actions r)))
    (cloneJSON (cloneJSON (Plan_Management r))) (cloneJSON (cloneJSON (Plan_Interfaces r)))
    = cloneJSON r).
  by rewrite !clone_idem.
Qed.
