(* ===== verification/Management.v ===== *)
(** * Management addresses

    Models [controllers/node/directmanagement.go] and [compileDirectManagement] of
    [controllers/node/direct.go]: the management pools, the deterministic allocation of a
    management address to every Node of a namespace that declares none, the addresses a
    workload group realizes, and the directory of identities its peers resolve.

    SHA-256 is an argument; the theorems hold for every hash that has 32 bytes. *)

From S2P Require Import Prelude WireCodec Api GoStrings GoNet DevicePlanTypes.
Local Open Scope Z_scope.

(** [crypto/sha256.Sum256]: 32 bytes. *)
Class Sha256 : Type := {
  Sum256 : string → list byte;
  Sum256_length : ∀ s, length (Sum256 s) = 32%nat;
  Sum256_bytes : ∀ s, Forall is_byte (Sum256 s)
}.

(** The fields of a Node the management code reads. *)
Record mgmtNode := MkMgmtNode {
  MNName : string;
  MNNamespace : string;
  MNUID : string;
  MNNetworkMode : string;
  MNMgmtIPv4 : string;
  MNMgmtIPv6 : string;
  MNAliases : list string;
  MNComponentSlots : list string;
  MNDNS : option DNSConfig
}.

Record ManagementPolicy := MkManagementPolicy {
  MgmtDisabled : bool;
  IPv4Subnet : string;
  IPv4Gw : string;
  IPv4Range : string;
  IPv6Subnet : string;
  IPv6Gw : string;
  IPv6Range : string
}.
#[export] Instance ManagementPolicy_updatable : Updatable ManagementPolicy :=
  λ p, MkManagementPolicy (MgmtDisabled p) (IPv4Subnet p) (IPv4Gw p) (IPv4Range p) (IPv6Subnet p)
         (IPv6Gw p) (IPv6Range p).

Definition emptyPolicy : ManagementPolicy := MkManagementPolicy false "" "" "" "" "" "".

(** ** Pools *)

Record directManagementPool := MkPool {
  network : Prefix;
  allocation : Prefix;
  ipv4 : bool;
  enabled : bool
}.

(** The zero [netip.Prefix]. *)
Definition zeroPrefix : Prefix := MkPrefix AddrZero 0.
Definition disabledPool (ipv4 : bool) : directManagementPool := MkPool zeroPrefix zeroPrefix ipv4 false.

(** [value[bit/8] |= 1 << (7 - bit%8)] and [value[bit/8] &^= ...]. *)
Definition bitMask (bit : nat) : Z := Z.shiftl 1 (7 - Z.of_nat (bit mod 8)).
Definition setBit (bytes : list byte) (bit : nat) : list byte :=
  <[(bit / 8)%nat := Z.lor (nth (bit / 8) bytes 0) (bitMask bit)]> bytes.
Definition clearBit (bytes : list byte) (bit : nat) : list byte :=
  <[(bit / 8)%nat := Z.ldiff (nth (bit / 8) bytes 0) (bitMask bit)]> bytes.

Definition copyHashBit (destination digest : list byte) (destinationBit digestBit : nat) : list byte :=
  if negb (Z.land (nth (digestBit / 8) digest 0) (bitMask digestBit) =? 0)
  then setBit destination destinationBit
  else clearBit destination destinationBit.

(** The bits of an address that follow a prefix. *)
Definition hostBits (width : nat) (bits : Z) : list nat :=
  seq (Z.to_nat bits) (width - Z.to_nat bits).

Definition lastPrefixAddress (prefix : Prefix) : Addr :=
  let value := addrValue (PrefixAddr (Masked prefix)) in
  if Is4 (PrefixAddr prefix)
  then AddrFrom4 (foldl setBit (As4 value) (hostBits 32 (Bits prefix)))
  else AddrFrom16 (foldl setBit (As16 value) (hostBits 128 (Bits prefix))).

Definition newDirectManagementPool (subnet addressRange : string) (ipv4 : bool) :
    result string directManagementPool :=
  if bool_decide (subnet = "") then
    if negb (bool_decide (addressRange = "")) then Err "management range requires a subnet"
    else Ok (disabledPool ipv4)
  else
    match ParsePrefix subnet with
    | Some parsed =>
        if negb (eqb (Is4 (PrefixAddr parsed)) ipv4) then Err "management subnet is invalid"
        else
          let network := Masked parsed in
          if bool_decide (addressRange = "") then Ok (MkPool network network ipv4 true)
          else
            match ParsePrefix addressRange with
            | Some range =>
                if negb (eqb (Is4 (PrefixAddr range)) ipv4) then Err "management range is invalid"
                else
                  let allocation := Masked range in
                  if (Bits allocation <? Bits network)
                     || negb (PrefixContains network (PrefixAddr allocation))
                     || negb (PrefixContains network (lastPrefixAddress allocation))
                  then Err "management range is outside its subnet"
                  else Ok (MkPool network allocation ipv4 true)
            | None => Err "management range is invalid"
            end
    | None => Err "management subnet is invalid"
    end.

(** ** Reading declared addresses *)

Definition parseLooseManagementAddress (raw : string) (ipv4 : bool) : result string Addr :=
  match ParsePrefix raw with
  | Some prefix =>
      if negb (eqb (Is4 (PrefixAddr prefix)) ipv4) then Err "management address has the wrong family"
      else Ok (PrefixAddr prefix)
  | None =>
      match ParseAddr raw with
      | Some address => if negb (eqb (Is4 address) ipv4) then Err "management address is invalid"
                        else Ok address
      | None => Err "management address is invalid"
      end
  end.

Definition normalizeDirectManagementAddress (raw : string) (pool : directManagementPool) :
    result string string :=
  if bool_decide (raw = "") then Ok ""
  else
    match ParsePrefix raw with
    | Some prefix =>
        if negb (eqb (Is4 (PrefixAddr prefix)) (ipv4 pool)) then
          Err "management address has the wrong family"
        else if enabled pool && (negb (Bits prefix =? Bits (network pool))
                                 || negb (PrefixContains (network pool) (PrefixAddr prefix)))
        then Err "management address is outside its declared subnet"
        else Ok (PrefixString prefix)
    | None =>
        match ParseAddr raw with
        | Some address =>
            if negb (eqb (Is4 address) (ipv4 pool)) then Err "management address is invalid"
            else if negb (enabled pool) || negb (PrefixContains (network pool) address) then
              Err "management address without a prefix requires a matching subnet"
            else Ok (PrefixString (PrefixFrom address (Bits (network pool))))
        | None => Err "management address is invalid"
        end
    end.

Definition usableManagementAddress (pool : directManagementPool) (address gateway : Addr) : bool :=
  if negb (IsValid address) || bool_decide (address = PrefixAddr (Masked (allocation pool)))
     || bool_decide (address = gateway) then false
  else if ipv4 pool && bool_decide (address = lastPrefixAddress (allocation pool)) then false
  else true.

Definition validateDirectManagementGateway (raw source : string) (ipv4 : bool) : result string unit :=
  if bool_decide (raw = "") then Ok tt
  else
    match ParsePrefix source with
    | Some prefix =>
        if negb (eqb (Is4 (PrefixAddr prefix)) ipv4) then
          Err "management gateway requires a same-family source address"
        else
          match ParseAddr raw with
          | Some gateway =>
              if negb (eqb (Is4 gateway) ipv4) || negb (PrefixContains prefix gateway)
              then Err "management gateway is invalid or off-link" else Ok tt
          | None => Err "management gateway is invalid or off-link"
          end
    | None => Err "management gateway requires a same-family source address"
    end.

Definition validateDirectManagementHostAddress (raw : string) (pool : directManagementPool)
    (gateway : string) : result string unit :=
  if bool_decide (raw = "") || negb (enabled pool) then Ok tt
  else
    match ParsePrefix raw with
    | None => Err "management address is invalid"
    | Some prefix =>
        let gatewayAddress :=
          if negb (bool_decide (gateway = "")) then default AddrZero (ParseAddr gateway) else AddrZero in
        if negb (usableManagementAddress pool (PrefixAddr prefix) gatewayAddress)
        then Err "management address is a reserved subnet address" else Ok tt
    end.

Definition directManagementAddressIdentity (raw : string) : string :=
  match ParsePrefix raw with Some prefix => AddrString (PrefixAddr prefix) | None => "" end.

Definition bareDirectManagementAddress (cidr : string) : string :=
  if bool_decide (cidr = "") then ""
  else match Cut netSlash cidr with Some (address, _) => address | None => cidr end.

(** ** Default policy *)

Definition defaultManagementIPv4Subnet : string := "172.20.20.0/24".

Definition firstUsableManagementAddress (subnet : string) : result string string :=
  match ParsePrefix subnet with
  | Some prefix => Ok (AddrString (Next (PrefixAddr (Masked prefix))))
  | None => Err "management subnet is invalid"
  end.

(** [directManagementError]: the field of the profile and the message. *)
Inductive managementError :=
| profileError (field message : string)
| nodeError (node field message : string).

Definition onError {A} (field : string) (r : result string A) : result managementError A :=
  match r with Ok v => Ok v | Err message => Err (profileError field message) end.

Definition applyDefaultManagementPolicy (settings : ManagementPolicy) :
    result managementError ManagementPolicy :=
  let settings := if bool_decide (IPv4Subnet settings = "")
                  then settings <| IPv4Subnet := defaultManagementIPv4Subnet |> else settings in
  let? settings :=
    (if bool_decide (IPv4Gw settings = "") then
       let? gateway := onError "ipv4-subnet" (firstUsableManagementAddress (IPv4Subnet settings)) in
       Ok (settings <| IPv4Gw := gateway |>)
     else Ok settings) in
  if negb (bool_decide (IPv6Subnet settings = "")) && bool_decide (IPv6Gw settings = "") then
    let? gateway := onError "ipv6-subnet" (firstUsableManagementAddress (IPv6Subnet settings)) in
    Ok (settings <| IPv6Gw := gateway |>)
  else Ok settings.

Definition nul : string := String (char 0) "".

Section management.
Context {sha : Sha256} {quote : FmtQuote} {order : RangeOrder string}.

(** ** Allocation *)

Definition hashedPrefixAddress (prefix : Prefix) (seed : string) (attempt : Z) : Addr :=
  let digest := Sum256 (seed +:+ nul +:+ Itoa attempt) in
  let value := addrValue (PrefixAddr (Masked prefix)) in
  let copy := λ bytes bit, copyHashBit bytes digest bit (bit - Z.to_nat (Bits prefix)) in
  if Is4 (PrefixAddr prefix)
  then AddrFrom4 (foldl copy (As4 value) (hostBits 32 (Bits prefix)))
  else AddrFrom16 (foldl copy (As16 value) (hostBits 128 (Bits prefix))).

(** [reserved[address]], the empty string when there is no entry. *)
Definition reservedBy (reserved : gmap Addr string) (address : Addr) : string :=
  default "" (reserved !! address).

(** One Node of the loop that collects the declared addresses inside the range. *)
Definition reserveStep (pool : directManagementPool) (address : mgmtNode → string)
    (reserved : gmap Addr string) (entry : string * mgmtNode) : result string (gmap Addr string) :=
  let name := entry.1 in let node := entry.2 in
  if bool_decide (address node = "") then Ok reserved
  else
    match parseLooseManagementAddress (address node) (ipv4 pool) with
    | Err _ => Ok reserved
    | Ok candidate =>
        if negb (PrefixContains (allocation pool) candidate) then Ok reserved
        else
          let existing := reservedBy reserved candidate in
          if negb (bool_decide (existing = "")) && negb (bool_decide (existing = name)) then
            Err ("management address " +:+ fmt_q (AddrString candidate) +:+ " is declared by both "
                 +:+ fmt_q existing +:+ " and " +:+ fmt_q name)
          else Ok (<[candidate := name]> reserved)
    end.

(** The gateway is parsed, checked and reserved. *)
Definition reserveGateway (pool : directManagementPool) (gateway : string)
    (reserved : gmap Addr string) : result string (Addr * gmap Addr string) :=
  if bool_decide (gateway = "") then Ok (AddrZero, reserved)
  else
    match ParseAddr gateway with
    | Some gatewayAddress =>
        if negb (eqb (Is4 gatewayAddress) (ipv4 pool))
           || negb (PrefixContains (network pool) gatewayAddress) then
          Err "management gateway is invalid or outside its subnet"
        else if negb (bool_decide (reservedBy reserved gatewayAddress = "")) then
          Err ("management gateway address is already declared by Node "
               +:+ fmt_q (reservedBy reserved gatewayAddress))
        else Ok (gatewayAddress, <[gatewayAddress := "gateway"]> reserved)
    | None => Err "management gateway is invalid or outside its subnet"
    end.

(** The order Nodes are served in: by UID, then by name. *)
Definition allocationIdentity (nodesByName : gmap string mgmtNode) (name : string) : string :=
  match nodesByName !! name with Some node => MNUID node | None => "" end +:+ nul +:+ name.

Definition allocationNames (nodesByName : gmap string mgmtNode) (address : mgmtNode → string) :
    list string :=
  sort_by (allocationIdentity nodesByName)
    (omap (λ entry, if bool_decide (address entry.2 = "") then Some entry.1 else None)
       (range_list nodesByName)).

(** The first candidate that is usable and not reserved; the zero address when there is none
    within the attempts. *)
Fixpoint firstFree (attempts : nat) (attempt : Z) (pool : directManagementPool)
    (reserved : gmap Addr string) (gateway : Addr) (seed : string) : Addr :=
  match attempts with
  | O => AddrZero
  | S attempts =>
      let candidate := hashedPrefixAddress (allocation pool) seed attempt in
      if negb (usableManagementAddress pool candidate gateway)
         || negb (bool_decide (reservedBy reserved candidate = ""))
      then firstFree attempts (attempt + 1) pool reserved gateway seed
      else candidate
  end.

Definition maxAttempts (nodesByName : gmap string mgmtNode) : Z :=
  Z.max 4096 (Z.of_nat (size nodesByName) * 1024).

Definition allocateStep (nodesByName : gmap string mgmtNode) (pool : directManagementPool)
    (gateway : Addr) (state : gmap Addr string * gmap string string) (name : string) :
    result string (gmap Addr string * gmap string string) :=
  let uid := match nodesByName !! name with Some node => MNUID node | None => "" end in
  let seed := if bool_decide (uid = "") then name else uid in
  let allocated := firstFree (Z.to_nat (maxAttempts nodesByName)) 0 pool state.1 gateway seed in
  if negb (IsValid allocated) then Err "management address range has no free usable address"
  else Ok (<[allocated := name]> state.1,
           <[name := PrefixString (PrefixFrom allocated (Bits (network pool)))]> state.2).

Definition allocateDirectManagementAddresses (nodesByName : gmap string mgmtNode)
    (pool : directManagementPool) (address : mgmtNode → string) (gateway : string) :
    result string (gmap string string) :=
  if negb (enabled pool) then Ok ∅
  else
    let? reserved := rfold (reserveStep pool address) ∅ (range_list nodesByName) in
    let? gw := reserveGateway pool gateway reserved in
    let? state := rfold (allocateStep nodesByName pool gw.1) (gw.2, ∅)
                    (allocationNames nodesByName address) in
    Ok state.2.

(** ** Declared addresses are unique in the namespace *)

Definition uniqueStep (family : bool) (address : mgmtNode → string) (nodesByName : gmap string mgmtNode)
    (owners : gmap Addr string) (name : string) : result string (gmap Addr string) :=
  match nodesByName !! name with
  | None => Ok owners
  | Some node =>
      if bool_decide (address node = "") then Ok owners
      else
        match parseLooseManagementAddress (address node) family with
        | Err _ => Ok owners
        | Ok value =>
            if negb (bool_decide (reservedBy owners value = "")) then
              Err ("management address " +:+ fmt_q (AddrString value) +:+ " is declared by both "
                   +:+ fmt_q (reservedBy owners value) +:+ " and " +:+ fmt_q name)
            else Ok (<[value := name]> owners)
        end
  end.

Definition validateUniqueExplicitManagementAddresses (nodesByName : gmap string mgmtNode) :
    result string unit :=
  let names := sorted_keys nodesByName in
  let? _ := rfold (uniqueStep true MNMgmtIPv4 nodesByName) ∅ names in
  let? _ := rfold (uniqueStep false MNMgmtIPv6 nodesByName) ∅ names in
  Ok tt.

(** ** The identities of a workload group *)

Definition managementMeshTunnelSpan : Z := Z.shiftl 1 24 - 1.

(** [%02x]. *)
Definition hex02 (b : byte) : string := String (hexDigit (b / 16)) (String (hexDigit (b mod 16)) "").

Definition managementMeshIdentity (namespace : string) : Z * string :=
  let sum := Sum256 ("c9s-management-mesh/" +:+ namespace) in
  let tunnelID := 1 + be_value (take 4 sum) mod managementMeshTunnelSpan in
  let gatewayMAC := "02:c9:" +:+ Join (hex02 <$> take 4 (drop 4 sum)) ":" in
  (tunnelID, gatewayMAC).

(** The address of one family of a Node: declared and normalized, or allocated. *)
Definition nodeAddress (field name : string) (node : mgmtNode) (declared : string)
    (pool : directManagementPool) (allocations : gmap string string) (gateway : string) :
    result managementError string :=
  match normalizeDirectManagementAddress declared pool with
  | Err message => Err (nodeError (MNName node) field message)
  | Ok value =>
      let value := if bool_decide (value = "") then default "" (allocations !! name) else value in
      match validateDirectManagementHostAddress value pool gateway with
      | Err message => Err (nodeError (MNName node) field message)
      | Ok _ => Ok value
      end
  end.

(** One address of a Node is recorded, or found to be used already. *)
Definition claimAddress (name : string) (addresses : gmap string string) (address : string) :
    result managementError (gmap string string) :=
  if bool_decide (address = "") then Ok addresses
  else
    let key := directManagementAddressIdentity address in
    let existing := default "" (addresses !! key) in
    if negb (bool_decide (existing = "")) then
      Err (profileError "addresses" ("Nodes " +:+ fmt_q existing +:+ " and " +:+ fmt_q name
                                     +:+ " use the same management address"))
    else Ok (<[key := name]> addresses).

Definition emptyDNS : DNSConfig := MkDNSConfig [] [] [].

(** The management input of one Node. *)
Definition managementValue (node : mgmtNode) (settings : ManagementPolicy) (v4 v6 : string)
    (inboundPorts : list Port) : ManagementInput :=
  let mesh := managementMeshIdentity (MNNamespace node) in
  MkManagementInput (MNUID node) "" v4 (IPv4Gw settings) v6 (IPv6Gw settings)
    (default emptyDNS (MNDNS node)) inboundPorts (Some (MkManagementMesh mesh.1 mesh.2)).

Definition hasManagementIntent (value : ManagementInput) : bool :=
  negb (bool_decide (ManagementInput_IPv4 value = "")) ||
  negb (bool_decide (ManagementInput_IPv4Gateway value = "")) ||
  negb (bool_decide (ManagementInput_IPv6 value = "")) ||
  negb (bool_decide (ManagementInput_IPv6Gateway value = "")) ||
  negb (bool_decide (DNSConfig_Servers (ManagementInput_DNS value) = [])) ||
  negb (bool_decide (DNSConfig_Search (ManagementInput_DNS value) = [])) ||
  negb (bool_decide (DNSConfig_Options (ManagementInput_DNS value) = [])).

(** What the namespace's Nodes are given before any of them is compiled. *)
Record managementPlan := MkMgmtPlan {
  Settings : ManagementPolicy;
  Pool4 : directManagementPool;
  Pool6 : directManagementPool;
  Allocations4 : gmap string string;
  Allocations6 : gmap string string
}.

Definition memberStep (nodesByName : gmap string mgmtNode) (plan : managementPlan)
    (inboundPorts : list Port) (state : gmap string string * list ManagementInput) (name : string) :
    result managementError (gmap string string * list ManagementInput) :=
  match nodesByName !! name with
  | None => Ok state
  | Some node =>
      if HasPrefix (MNNetworkMode node) "container:" then Ok state
      else
        let? v4 := nodeAddress "mgmtIPv4" name node (MNMgmtIPv4 node) (Pool4 plan) (Allocations4 plan)
                     (IPv4Gw (Settings plan)) in
        let? v6 := nodeAddress "mgmtIPv6" name node (MNMgmtIPv6 node) (Pool6 plan) (Allocations6 plan)
                     (IPv6Gw (Settings plan)) in
        let? _ := onError "ipv4-gw" (validateDirectManagementGateway (IPv4Gw (Settings plan)) v4 true) in
        let? _ := onError "ipv6-gw" (validateDirectManagementGateway (IPv6Gw (Settings plan)) v6 false) in
        let? addresses := rfold (claimAddress name) state.1 [v4; v6] in
        let value := managementValue node (Settings plan) v4 v6 inboundPorts in
        Ok (addresses, if hasManagementIntent value then state.2 ++ [value] else state.2)
  end.

(** The pools and the allocations, as [compileDirectManagement] computes them. *)
Definition planManagement (nodesByName : gmap string mgmtNode) (settings : ManagementPolicy) :
    result managementError managementPlan :=
  let? settings := applyDefaultManagementPolicy settings in
  let? pool4 := onError "ipv4-subnet"
                  (newDirectManagementPool (IPv4Subnet settings) (IPv4Range settings) true) in
  let? pool6 := onError "ipv6-subnet"
                  (newDirectManagementPool (IPv6Subnet settings) (IPv6Range settings) false) in
  let? allocations4 := onError "ipv4-range"
                  (allocateDirectManagementAddresses nodesByName pool4 MNMgmtIPv4 (IPv4Gw settings)) in
  let? allocations6 := onError "ipv6-range"
                  (allocateDirectManagementAddresses nodesByName pool6 MNMgmtIPv6 (IPv6Gw settings)) in
  Ok (MkMgmtPlan settings pool4 pool6 allocations4 allocations6).

Definition disabledConflict (nodesByName : gmap string mgmtNode) (name : string) : option managementError :=
  match nodesByName !! name with
  | Some node =>
      if negb (bool_decide (MNMgmtIPv4 node = "")) || negb (bool_decide (MNMgmtIPv6 node = ""))
      then Some (nodeError (MNName node) "management"
                   "explicit management addresses conflict with disabled management")
      else None
  | None => None
  end.

Definition compileDirectManagement (groupMembers : list string) (nodesByName : gmap string mgmtNode)
    (mgmt : option ManagementPolicy) (inboundPorts : list Port) :
    result managementError (list ManagementInput) :=
  if default false (MgmtDisabled <$> mgmt) then
    match omap (disabledConflict nodesByName) groupMembers with
    | e :: _ => Err e
    | [] => Ok []
    end
  else
    let? _ := onError "addresses" (validateUniqueExplicitManagementAddresses nodesByName) in
    let? plan := planManagement nodesByName (default emptyPolicy mgmt) in
    let? state := rfold (memberStep nodesByName plan inboundPorts) (∅, []) groupMembers in
    Ok state.2.

(** ** The identities peers resolve *)

Record PeerIdentity := MkPeerIdentity {
  PeerName : string;
  PeerIPv4 : string;
  PeerIPv6 : string;
  PeerAliases : list string;
  PeerPod : string
}.

(** The bare address of one family: empty when the declaration cannot be normalized. *)
Definition identityAddress (name declared : string) (pool : directManagementPool)
    (allocations : gmap string string) : string :=
  match normalizeDirectManagementAddress declared pool with
  | Err _ => ""
  | Ok value =>
      bareDirectManagementAddress
        (if bool_decide (value = "") then default "" (allocations !! name) else value)
  end.

Definition componentAliases (name : string) (slots : list string) : list string :=
  omap (λ slot, if bool_decide (slot = "") then None else Some (name +:+ "-" +:+ ToLower slot)) slots.

Definition peerIdentity (pool4 pool6 : directManagementPool) (allocations4 allocations6 : gmap string string)
    (podAddressesByNodeUID : gmap string string) (entry : string * mgmtNode) : option PeerIdentity :=
  let name := entry.1 in let node := entry.2 in
  if HasPrefix (MNNetworkMode node) "container:" then None
  else
    let v4 := identityAddress name (MNMgmtIPv4 node) pool4 allocations4 in
    let v6 := identityAddress name (MNMgmtIPv6 node) pool6 allocations6 in
    if bool_decide (v4 = "") && bool_decide (v6 = "") then None
    else Some (MkPeerIdentity name v4 v6 (MNAliases node ++ componentAliases name (MNComponentSlots node))
                 (default "" (podAddressesByNodeUID !! MNUID node))).

Definition okOr {E A} (d : A) (r : result E A) : A := match r with Ok v => v | Err _ => d end.

Definition compileNamespaceManagementIdentities (nodesByName : gmap string mgmtNode)
    (mgmt : option ManagementPolicy) (podAddressesByNodeUID : gmap string string) : list PeerIdentity :=
  if default false (MgmtDisabled <$> mgmt) then []
  else
    match applyDefaultManagementPolicy (default emptyPolicy mgmt) with
    | Err _ => []
    | Ok settings =>
        match newDirectManagementPool (IPv4Subnet settings) (IPv4Range settings) true,
              newDirectManagementPool (IPv6Subnet settings) (IPv6Range settings) false with
        | Ok pool4, Ok pool6 =>
            let allocations4 := okOr ∅ (allocateDirectManagementAddresses nodesByName pool4
                                          MNMgmtIPv4 (IPv4Gw settings)) in
            let allocations6 := okOr ∅ (allocateDirectManagementAddresses nodesByName pool6
                                          MNMgmtIPv6 (IPv6Gw settings)) in
            sort_by PeerName
              (omap (peerIdentity pool4 pool6 allocations4 allocations6 podAddressesByNodeUID)
                 (range_list nodesByName))
        | _, _ => []
        end
    end.
End management.

(** ** Bits of addresses *)

Lemma bitMask_testbit j i : 0 ≤ i → Z.testbit (bitMask j) i = (7 - Z.of_nat (j mod 8) =? i).
Proof.
  intros Hi. unfold bitMask. pose proof (Nat.mod_upper_bound j 8 ltac:(lia)).
  rewrite Z.shiftl_1_l. by apply Z.pow2_bits_eqb; lia.
Qed.

Lemma bitMask_byte j : is_byte (bitMask j).
Proof.
  unfold bitMask, is_byte. pose proof (Nat.mod_upper_bound j 8 ltac:(lia)). rewrite Z.shiftl_1_l.
  assert (2 ^ (7 - Z.of_nat (j mod 8)) ≤ 2 ^ 7) by (apply Z.pow_le_mono_r; lia).
  pose proof (Z.pow_nonneg 2 (7 - Z.of_nat (j mod 8)) ltac:(lia)). lia.
Qed.

Lemma is_byte_of_testbit b : 0 ≤ b → (∀ i, 8 ≤ i → Z.testbit b i = false) → is_byte b.
Proof.
  intros Hb Hi. split; [done|]. destruct (decide (b < 256)) as [|Hge]; [done|]. exfalso.
  assert (8 ≤ Z.log2 b) by (apply Z.log2_le_pow2; lia).
  pose proof (Z.bit_log2 b ltac:(lia)) as H1. rewrite Hi in H1; [done|lia].
Qed.

Lemma lor_byte a b : is_byte a → is_byte b → is_byte (Z.lor a b).
Proof.
  intros Ha Hb. apply is_byte_of_testbit; [apply Z.lor_nonneg; destruct Ha, Hb; lia|].
  intros i Hi. by rewrite Z.lor_spec, !is_byte_testbit.
Qed.

Lemma ldiff_byte a b : is_byte a → is_byte (Z.ldiff a b).
Proof.
  intros Ha. apply is_byte_of_testbit; [apply Z.ldiff_nonneg; destruct Ha; lia|].
  intros i Hi. by rewrite Z.ldiff_spec, is_byte_testbit.
Qed.

Lemma nth_byte l i : Forall is_byte l → is_byte (nth i l 0).
Proof.
  intros Hl. destruct (decide (i < length l)%nat) as [Hi|Hi].
  - rewrite List.Forall_forall in Hl. by apply Hl, nth_In.
  - rewrite nth_overflow by lia. done.
Qed.

(** An update of one bit of a byte string. *)
Definition updates_bit (f : list byte → nat → list byte) (v : nat → bool) : Prop :=
  ∀ l j, Forall is_byte l → (j < 8 * length l)%nat →
    Forall is_byte (f l j) ∧ length (f l j) = length l ∧
    ∀ k, bitAt (f l j) k = if decide (k = j) then v j else bitAt l k.

Lemma updates_byte l j b v :
  Forall is_byte l → (j < 8 * length l)%nat → is_byte b →
  (∀ i, 0 ≤ i < 8 → Z.testbit b i =
     if decide (i = 7 - Z.of_nat (j mod 8)) then v else Z.testbit (nth (j / 8) l 0) i) →
  Forall is_byte (<[(j / 8)%nat := b]> l) ∧ length (<[(j / 8)%nat := b]> l) = length l ∧
  ∀ k, bitAt (<[(j / 8)%nat := b]> l) k = if decide (k = j) then v else bitAt l k.
Proof.
  intros Hl Hj Hb Hbits. split_and!; [by apply Forall_insert|by rewrite length_insert|].
  intros k. unfold bitAt. pose proof (Nat.mod_upper_bound k 8 ltac:(lia)).
  pose proof (Nat.div_mod_eq j 8). pose proof (Nat.div_mod_eq k 8).
  rewrite !nth_lookup. destruct (decide (k / 8 = j / 8)%nat) as [Heq|Hne].
  - rewrite Heq, list_lookup_insert_eq by (apply Nat.Div0.div_lt_upper_bound; lia).
    change (default 0 (Some b)) with b. rewrite Hbits, <- nth_lookup by lia. rewrite Heq in *.
    repeat case_decide; lia || done.
  - rewrite list_lookup_insert_ne by done. rewrite decide_False by congruence. done.
Qed.

Lemma setBit_updates : updates_bit setBit (λ _, true).
Proof.
  intros l j Hl Hj. pose proof (nth_byte l (j / 8) Hl). apply updates_byte; [done..|by apply lor_byte, bitMask_byte|].
  intros i Hi. rewrite Z.lor_spec, bitMask_testbit by lia. case_decide.
  - subst. by rewrite Z.eqb_refl, orb_true_r.
  - replace (_ =? i) with false by (symmetry; apply Z.eqb_neq; lia). by rewrite orb_false_r.
Qed.

Lemma clearBit_updates : updates_bit clearBit (λ _, false).
Proof.
  intros l j Hl Hj. pose proof (nth_byte l (j / 8) Hl). apply updates_byte; [done..|by apply ldiff_byte|].
  intros i Hi. rewrite Z.ldiff_spec, bitMask_testbit by lia. case_decide.
  - subst. by rewrite Z.eqb_refl, andb_false_r.
  - replace (_ =? i) with false by (symmetry; apply Z.eqb_neq; lia). by rewrite andb_true_r.
Qed.

Lemma copyHashBit_updates digest shift :
  updates_bit (λ l j, copyHashBit l digest j (shift j))
    (λ j, negb (Z.land (nth (shift j / 8) digest 0) (bitMask (shift j)) =? 0)).
Proof.
  intros l j Hl Hj. unfold copyHashBit. destruct (negb _); [by apply setBit_updates|by apply clearBit_updates].
Qed.

(** A run of updates keeps every bit it does not update and sets the others. *)
Lemma updates_fold f v js : updates_bit f v → ∀ l,
  Forall is_byte l → Forall (λ j, (j < 8 * length l)%nat) js →
  Forall is_byte (foldl f l js) ∧ length (foldl f l js) = length l ∧
  ∀ k, bitAt (foldl f l js) k = if decide (k ∈ js) then v k else bitAt l k.
Proof.
  intros Hf. induction js as [|j js IH]; intros l Hl Hjs; [by split_and!|].
  apply list.Forall_cons in Hjs as [Hj Hjs]. destruct (Hf l j Hl Hj) as (H1 & H2 & H3). cbn [foldl].
  destruct (IH (f l j)) as (H4 & H5 & H6); [done|by rewrite H2|].
  split_and!; [done|congruence|]. intros k. rewrite H6, H3.
  destruct (decide (k ∈ js)); [by rewrite decide_True by (by right)|].
  destruct (decide (k = j)) as [->|]; [by rewrite decide_True by left|].
  rewrite decide_False; [done|]. intros [?|?]%elem_of_cons; done.
Qed.

Lemma hostBits_elem width bits k :
  (Z.to_nat bits ≤ width)%nat → k ∈ hostBits width bits ↔ (Z.to_nat bits ≤ k < width)%nat.
Proof. intros Hb. unfold hostBits. rewrite elem_of_seq. lia. Qed.

(** Updating the host bits of an address leaves it inside its prefix. *)
Lemma host_update_contains f v (n : nat) bits value :
  updates_bit f v → 0 ≤ bits ≤ 8 * Z.of_nat n → 0 ≤ value < 2 ^ (8 * Z.of_nat n) →
  let out := foldl f (be_bytes n value) (hostBits (8 * n) bits) in
  0 ≤ be_value out < 2 ^ (8 * Z.of_nat n) ∧
  Z.shiftr (be_value out) (8 * Z.of_nat n - bits) = Z.shiftr value (8 * Z.of_nat n - bits).
Proof.
  intros Hf Hb Hv out. pose proof (be_bytes_is_byte n value) as Hbytes.
  pose proof (length_be_bytes n value) as Hlen.
  destruct (updates_fold f v (hostBits (8 * n) bits) Hf (be_bytes n value)) as (H1 & H2 & H3); [done| |].
  { rewrite list.Forall_forall. intros k Hk%hostBits_elem; lia. }
  rewrite Hlen in H2. split.
  - pose proof (be_value_bound _ H1) as H. rewrite H2 in H. done.
  - unfold out. pose proof (be_value_prefix _ _ bits H1 Hbytes) as Hp. rewrite H2, Hlen in Hp.
    rewrite Hp; [|done|lia|].
    + f_equal. rewrite be_value_be_bytes. apply Z.mod_small. lia.
    + intros j Hj. rewrite H3, decide_False; [done|]. intros Hk%hostBits_elem; lia.
Qed.

Section management_facts.
Context {sha : Sha256} {quote : FmtQuote}.

(** ** Pools *)

Lemma hashed_contains p seed attempt :
  wf_prefix p → PrefixContains p (hashedPrefixAddress p seed attempt) = true.
Proof.
  intros Hp. rewrite <- Masked_contains by done. apply PrefixContains_spec; [by apply Masked_wf|].
  pose proof (Masked_wf p Hp) as (Hv & Hz & Hb). unfold hashedPrefixAddress.
  set (digest := Sum256 _). destruct p as [a bits]. unfold Masked in *. cbn [PrefixAddr Bits] in *.
  destruct a as [|v|v z]; [done| |]; cbn [Is4 PrefixAddr addrValue Bits wf_addr BitLen] in *.
  - split_and!; [done..|]. unfold AddrFrom4. cbn [addrValue BitLen].
    pose proof (host_update_contains _ _ 4 bits (maskValue 32 bits v)
      (copyHashBit_updates digest (λ j, j - Z.to_nat bits)%nat) ltac:(lia) ltac:(lia)) as [_ Hsh]. exact Hsh.
  - split_and!; [done..|]. unfold AddrFrom16. cbn [addrValue BitLen].
    pose proof (host_update_contains _ _ 16 bits (maskValue 128 bits v)
      (copyHashBit_updates digest (λ j, j - Z.to_nat bits)%nat) ltac:(lia) ltac:(lia)) as [_ Hsh]. exact Hsh.
Qed.

Lemma hashed_wf p seed attempt : wf_prefix p → wf_addr (hashedPrefixAddress p seed attempt).
Proof.
  intros Hp. pose proof (Masked_wf p Hp) as (Hv & Hz & Hb). unfold hashedPrefixAddress.
  set (digest := Sum256 _). destruct p as [a bits]. unfold Masked in *. cbn [PrefixAddr Bits] in *.
  destruct a as [|v|v z]; [done| |]; cbn [Is4 PrefixAddr addrValue Bits wf_addr BitLen] in *.
  - pose proof (host_update_contains _ _ 4 bits (maskValue 32 bits v)
      (copyHashBit_updates digest (λ j, j - Z.to_nat bits)%nat) ltac:(lia) ltac:(lia)) as [Hb' _]. exact Hb'.
  - pose proof (host_update_contains _ _ 16 bits (maskValue 128 bits v)
      (copyHashBit_updates digest (λ j, j - Z.to_nat bits)%nat) ltac:(lia) ltac:(lia)) as [Hb' _]. exact Hb'.
Qed.

(** What the construction of a pool guarantees. *)
Record wf_pool (pool : directManagementPool) : Prop := {
  wf_network : wf_prefix (network pool);
  wf_allocation : wf_prefix (allocation pool);
  wf_masked : Masked (allocation pool) = allocation pool;
  wf_family : Is4 (PrefixAddr (network pool)) = ipv4 pool ∧ Is4 (PrefixAddr (allocation pool)) = ipv4 pool;
  wf_within : ∀ a, PrefixContains (allocation pool) a = true → PrefixContains (network pool) a = true
}.

Lemma Masked_idem p : wf_prefix p → Masked (Masked p) = Masked p.
Proof.
  destruct p as [a bits]. intros (Hv & Hz & Hb). unfold Masked. cbn [PrefixAddr Bits] in *.
  assert (∀ w v, 0 ≤ bits ≤ w → maskValue w bits (maskValue w bits v) = maskValue w bits v) as Hm.
  { intros w v Hw. unfold maskValue at 1. by rewrite maskValue_shiftr. }
  destruct a; cbn [PrefixAddr Bits BitLen] in *; [done| |]; by rewrite Hm.
Qed.

Lemma Masked_family p : Is4 (PrefixAddr (Masked p)) = Is4 (PrefixAddr p).
Proof. destruct p as [[] bits]; done. Qed.

Lemma subrange_contains p q a :
  wf_prefix p → wf_prefix q → Bits p ≤ Bits q → PrefixContains p (PrefixAddr q) = true →
  PrefixContains q a = true → PrefixContains p a = true.
Proof.
  intros Hp Hq Hle H1 H2. apply PrefixContains_spec in H1 as (_ & F1 & E1); [|done].
  apply PrefixContains_spec in H2 as (Z2 & F2 & E2); [|done].
  apply PrefixContains_spec; [done|]. split_and!; [done|congruence|].
  assert (BitLen a = BitLen (PrefixAddr q)) as Hlen.
  { destruct a, (PrefixAddr q); cbn in F2; congruence || done. }
  rewrite Hlen in *. destruct Hq as (_ & _ & Hbq), Hp as (_ & _ & Hbp).
  rewrite <- E1. replace (BitLen (PrefixAddr q) - Bits p)
    with ((BitLen (PrefixAddr q) - Bits q) + (Bits q - Bits p)) by lia.
  rewrite <- !Z.shiftr_shiftr by lia. by rewrite E2.
Qed.

Lemma newDirectManagementPool_spec subnet range fam pool :
  newDirectManagementPool subnet range fam = Ok pool →
  ipv4 pool = fam ∧ (enabled pool = true ↔ subnet ≠ "") ∧ (enabled pool = true → wf_pool pool).
Proof.
  unfold newDirectManagementPool. case_bool_decide as Hs.
  { destruct (negb _); [done|]. intros [= <-]. cbn. split_and!; [done|naive_solver|done]. }
  destruct (ParsePrefix subnet) as [parsed|] eqn:Hparse; [|done]. apply ParsePrefix_wf in Hparse.
  destruct (negb _) eqn:Hfam; [done|]. apply negb_false_iff, eqb_prop in Hfam.
  case_bool_decide.
  { intros [= <-]. cbn. split_and!; [done|done|]. intros _.
    split; cbn; auto using Masked_wf, Masked_idem. by rewrite Masked_family. }
  destruct (ParsePrefix range) as [r|] eqn:Hr; [|done]. apply ParsePrefix_wf in Hr.
  destruct (negb (eqb _ _)) eqn:Hfam'; [done|]. apply negb_false_iff, eqb_prop in Hfam'.
  destruct (_ || _) eqn:Hin; [done|]. bool_to_prop. intros [= <-]. cbn. split_and!; [done|done|]. intros _.
  split; cbn; auto using Masked_wf, Masked_idem.
  - by rewrite !Masked_family.
  - intros a Ha. eapply subrange_contains; [by apply Masked_wf|by apply Masked_wf|done|done|done].
Qed.

(** ** Candidates *)

Lemma firstFree_spec n k pool reserved gateway seed a :
  firstFree n k pool reserved gateway seed = a → IsValid a = true →
  ∃ attempt, a = hashedPrefixAddress (allocation pool) seed attempt ∧
    usableManagementAddress pool a gateway = true ∧ reservedBy reserved a = "".
Proof.
  revert k. induction n as [|n IH]; intros k; cbn [firstFree]; [by intros <-|].
  destruct (_ || _) eqn:E; [apply IH|]. intros <- _. bool_to_prop. exists k. split_and!; try done.
Qed.

Lemma firstFree_none n pool reserved gateway seed : ∀ k,
  wf_pool pool → firstFree n k pool reserved gateway seed = AddrZero →
  ∀ i, k ≤ i < k + Z.of_nat n →
    let candidate := hashedPrefixAddress (allocation pool) seed i in
    usableManagementAddress pool candidate gateway = false ∨ reservedBy reserved candidate ≠ "".
Proof.
  intros k Hpool. revert k. induction n as [|n IH]; intros k; cbn [firstFree]; [lia|].
  destruct (_ || _) eqn:E.
  - intros Hrest i Hi. destruct (decide (i = k)) as [->|]; [|apply (IH (k + 1)); [done|lia]].
    apply orb_true_iff in E as [E|E]; bool_to_prop; auto.
  - intros Hz. exfalso. pose proof (hashed_contains (allocation pool) seed k (wf_allocation _ Hpool)) as Hc.
    rewrite Hz in Hc. apply PrefixContains_spec in Hc as (_ & Hf & _); [|apply (wf_allocation _ Hpool)].
    destruct (wf_allocation _ Hpool) as [Hv _]. by destruct (PrefixAddr (allocation pool)).
Qed.

Lemma usable_spec pool a gateway :
  wf_pool pool → usableManagementAddress pool a gateway = true ↔
    IsValid a = true ∧ a ≠ PrefixAddr (allocation pool) ∧ a ≠ gateway ∧
    (ipv4 pool = true → a ≠ lastPrefixAddress (allocation pool)).
Proof.
  intros Hp. unfold usableManagementAddress. rewrite (wf_masked _ Hp).
  destruct (_ || _) eqn:E1.
  - split; [done|]. intros (H1 & H2 & H3 & _). rewrite H1 in E1. cbn in E1.
    apply orb_true_iff in E1 as [E1|E1]; by bool_to_prop.
  - bool_to_prop. destruct (_ && _) eqn:E2.
    + bool_to_prop. naive_solver.
    + split; [|done]. intros _. split_and!; try done. intros Hv4 ->. rewrite Hv4 in E2. cbn in E2.
      by bool_to_prop.
Qed.

(** ** Declared addresses *)

(** A Node declares an address inside the allocation range. *)
Definition declares (pool : directManagementPool) (address : mgmtNode → string) (node : mgmtNode)
    (c : Addr) : Prop :=
  parseLooseManagementAddress (address node) (ipv4 pool) = Ok c ∧ PrefixContains (allocation pool) c = true.

Definition declared_by pool address (l : list (string * mgmtNode)) (c : Addr) (name : string) : Prop :=
  ∃ node, (name, node) ∈ l ∧ declares pool address node c.

Lemma declared_by_snoc pool address l n node c name :
  declared_by pool address (l ++ [(n, node)]) c name ↔
  declared_by pool address l c name ∨ (name = n ∧ declares pool address node c).
Proof.
  unfold declared_by. split.
  - intros (node' & [Hin|Hin%list_elem_of_singleton]%elem_of_app & Hd); [by left; eauto|].
    simplify_eq. by right.
  - intros [(node' & Hin & Hd)|[-> Hd]]; eexists; (split; [apply elem_of_app|done]);
      [by left|right; by apply list_elem_of_singleton].
Qed.

Lemma reserveStep_cases pool address reserved n node :
  (∀ c, ¬ declares pool address node c) ∧ reserveStep pool address reserved (n, node) = Ok reserved ∨
  ∃ c, declares pool address node c ∧
    (reserveStep pool address reserved (n, node) = Ok (<[c := n]> reserved) ∧
       (reservedBy reserved c = "" ∨ reservedBy reserved c = n) ∨
     is_ok (reserveStep pool address reserved (n, node)) = false ∧
       reservedBy reserved c ≠ "" ∧ reservedBy reserved c ≠ n).
Proof.
  unfold reserveStep, declares. cbn. case_bool_decide as Ha.
  { left. split; [|done]. intros c [Hc _]. rewrite Ha in Hc. done. }
  destruct (parseLooseManagementAddress (address node) (ipv4 pool)) as [c|]; [|left; naive_solver].
  destruct (PrefixContains (allocation pool) c) eqn:Hin; cbn; [|left; split; [|done]; intros c' [[= <-] Hc']; congruence].
  right. exists c. split; [done|]. destruct (_ && _) eqn:E.
  - right. by bool_to_prop.
  - left. split; [done|]. apply andb_false_iff in E as [E|E]; bool_to_prop; auto.
Qed.

Lemma reserve_spec pool address l reserved :
  NoDup l.*1 → "" ∉ l.*1 → rfold (reserveStep pool address) ∅ l = Ok reserved →
  ∀ c name, reserved !! c = Some name ↔ declared_by pool address l c name.
Proof.
  revert reserved. induction l as [|[n node] l IH] using rev_ind; intros reserved Hnd Hne.
  { intros [= <-] c name. rewrite lookup_empty. split; [done|]. by intros (? & ?%elem_of_nil & _). }
  rewrite fmap_app in Hnd, Hne. apply list.NoDup_app in Hnd as (Hnd & Hdis & _).
  rewrite elem_of_app in Hne. rewrite rfold_app. intros (reserved' & Hl & Hs)%rbind_Ok_inv.
  specialize (IH reserved' Hnd ltac:(tauto) Hl). cbn in Hs.
  apply rbind_Ok_inv in Hs as (r' & Hs & [= ->]). intros c name. rewrite declared_by_snoc, <- IH.
  destruct (reserveStep_cases pool address reserved' n node) as [[Hno Heq]|(c0 & Hd & [[Heq He]|(Hf & _)])].
  - rewrite Heq in Hs. simplify_eq. naive_solver.
  - rewrite Heq in Hs. simplify_eq.
    assert (reserved' !! c0 = None) as Hnone.
    { destruct (reserved' !! c0) as [owner|] eqn:Ho; [|done]. exfalso.
      unfold reservedBy in He. rewrite Ho in He. cbn in He.
      apply IH in Ho as (node' & Hin & _). apply (list_elem_of_fmap_2 fst) in Hin. cbn in Hin.
      destruct He as [->| ->]; [tauto|]. apply (Hdis n Hin). by apply list_elem_of_singleton. }
    destruct (decide (c = c0)) as [->|Hc].
    + rewrite lookup_insert_eq, Hnone. naive_solver.
    + rewrite lookup_insert_ne by done. split; [by left|]. intros [?|[_ Hd']]; [done|].
      destruct Hd as [Hd _], Hd' as [Hd' _]. congruence.
  - rewrite Hs in Hf. done.
Qed.

Lemma reserve_ok pool address l :
  NoDup l.*1 → "" ∉ l.*1 →
  (∀ c n1 n2, declared_by pool address l c n1 → declared_by pool address l c n2 → n1 = n2) →
  ∃ reserved, rfold (reserveStep pool address) ∅ l = Ok reserved.
Proof.
  induction l as [|[n node] l IH] using rev_ind; intros Hnd Hne Hu; [by eexists|].
  pose proof Hnd as Hnd'. pose proof Hne as Hne'. rewrite fmap_app in Hnd', Hne'.
  apply list.NoDup_app in Hnd' as (Hnd' & Hdis & _). rewrite elem_of_app in Hne'.
  destruct IH as [reserved Hr]; [done|tauto| |].
  { intros c n1 n2 H1 H2. apply (Hu c); apply declared_by_snoc; by left. }
  rewrite rfold_app, Hr. cbn. pose proof (reserve_spec pool address l reserved Hnd' ltac:(tauto) Hr) as Hspec.
  destruct (reserveStep_cases pool address reserved n node) as [[_ Heq]|(c0 & Hd & [[Heq _]|(_ & H1 & H2)])].
  1-2: rewrite Heq; by eexists.
  exfalso. unfold reservedBy in H1, H2. destruct (reserved !! c0) as [owner|] eqn:Ho; [|done]. cbn in *.
  apply H2. apply Hspec in Ho. apply (Hu c0); apply declared_by_snoc; [by left|by right].
Qed.

(** ** The allocation loop *)

Definition allocated_fine (pool : directManagementPool) (gateway : Addr) (reserved : gmap Addr string)
    (a : Addr) : Prop :=
  wf_addr a ∧ PrefixContains (allocation pool) a = true ∧
  usableManagementAddress pool a gateway = true ∧ reserved !! a = None.

Definition printAllocation (pool : directManagementPool) (a : Addr) : string :=
  PrefixString (PrefixFrom a (Bits (network pool))).

(** What holds between two steps of the loop, the names of [served] having been served. *)
Definition loop_inv pool gateway (reserved0 : gmap Addr string) (served : list string)
    (state : gmap Addr string * gmap string string) : Prop :=
  (∀ a name, state.1 !! a = Some name → name ≠ "") ∧ reserved0 ⊆ state.1 ∧
  ∃ chosen : gmap string Addr,
    state.2 = printAllocation pool <$> chosen ∧
    (∀ name, is_Some (chosen !! name) ↔ name ∈ served) ∧
    ∀ name a, chosen !! name = Some a →
      allocated_fine pool gateway reserved0 a ∧ state.1 !! a = Some name.

Lemma allocateStep_inv nodesByName pool gateway reserved0 served state name state' :
  wf_pool pool → name ≠ "" → name ∉ served →
  loop_inv pool gateway reserved0 served state →
  allocateStep nodesByName pool gateway state name = Ok state' →
  loop_inv pool gateway reserved0 (served ++ [name]) state'.
Proof.
  intros Hpool Hname Hnew (Hvals & Hsub & chosen & Hres & Hdom & Hch). unfold allocateStep.
  set (seed := if bool_decide _ then name else _).
  destruct (negb _) eqn:Hvalid; [done|]. intros [= <-]. apply negb_false_iff in Hvalid.
  destruct (firstFree_spec _ _ _ _ _ _ _ eq_refl Hvalid) as (attempt & Ha & Huse & Hfree).
  set (a := firstFree _ _ _ _ _ _) in *.
  assert (state.1 !! a = None) as Hnone.
  { destruct (state.1 !! a) as [owner|] eqn:Ho; [|done]. exfalso. apply (Hvals _ _ Ho).
    unfold reservedBy in Hfree. by rewrite Ho in Hfree. }
  split_and!; cbn.
  - intros b owner [[_ <-]|[_ Hb]]%lookup_insert_Some; [done|by eapply Hvals].
  - etrans; [exact Hsub|]. by apply insert_subseteq.
  - exists (<[name := a]> chosen). split_and!.
    + by rewrite Hres, fmap_insert.
    + intros n. rewrite lookup_insert_is_Some', Hdom, elem_of_app, list_elem_of_singleton. naive_solver.
    + intros n b [[<- <-]|[Hn Hb]]%lookup_insert_Some.
      * split; [|by rewrite lookup_insert_eq]. split_and!; [| |done|].
        -- rewrite Ha. apply hashed_wf, wf_allocation, Hpool.
        -- rewrite Ha. apply hashed_contains, wf_allocation, Hpool.
        -- destruct (reserved0 !! a) as [owner|] eqn:Ho; [|done].
           by rewrite (lookup_weaken _ _ _ _ Ho Hsub) in Hnone.
      * destruct (Hch n b Hb) as [Hf Hs]. split; [done|]. rewrite lookup_insert_ne; [done|].
        intros <-. congruence.
Qed.

Lemma allocate_loop nodesByName pool gateway reserved0 names state :
  wf_pool pool → NoDup names → "" ∉ names → (∀ a name, reserved0 !! a = Some name → name ≠ "") →
  rfold (allocateStep nodesByName pool gateway) (reserved0, ∅) names = Ok state →
  loop_inv pool gateway reserved0 names state.
Proof.
  intros Hpool Hnd Hne Hvals. revert state. induction names as [|name names IH] using rev_ind; intros state.
  { intros [= <-]. split_and!; [done|done|]. exists ∅. split_and!; [by rewrite fmap_empty| |done].
    intros n. rewrite lookup_empty, elem_of_nil. split; [by intros []|done]. }
  apply list.NoDup_app in Hnd as (Hnd & Hdis & _). rewrite elem_of_app, list_elem_of_singleton in Hne.
  rewrite rfold_app. intros (state' & Hl & Hs)%rbind_Ok_inv. cbn in Hs.
  apply rbind_Ok_inv in Hs as (s' & Hs & [= ->]).
  eapply allocateStep_inv; [done|naive_solver| |apply IH; naive_solver|done].
  intros Hin. apply (Hdis name Hin). by apply list_elem_of_singleton.
Qed.
End management_facts.

Lemma omap_if_filter {A B} (P : A → Prop) `{∀ x, Decision (P x)} (f : A → B) (l : list A) :
  omap (λ x, if bool_decide (P x) then Some (f x) else None) l = f <$> filter P l.
Proof.
  induction l as [|x l IH]; [done|]. rewrite filter_cons. cbn [omap list_omap].
  destruct (decide (P x)) as [Hx|Hx]; rewrite ?fmap_cons.
  - rewrite bool_decide_eq_true_2 by done. by rewrite <- IH.
  - rewrite bool_decide_eq_false_2 by done. exact IH.
Qed.

Section allocation.
Context {sha : Sha256} {quote : FmtQuote} {order : RangeOrder string}.
Implicit Types (nodesByName : gmap string mgmtNode) (pool : directManagementPool) (address : mgmtNode → string).

Lemma allocationNames_spec nodesByName address :
  NoDup (allocationNames nodesByName address) ∧
  ∀ name, name ∈ allocationNames nodesByName address ↔
    ∃ node, nodesByName !! name = Some node ∧ address node = "".
Proof.
  unfold allocationNames. rewrite sort_by_perm.
  rewrite (omap_if_filter (λ entry : string * mgmtNode, address entry.2 = "") fst). split.
  - apply NoDup_fmap_filter, NoDup_range_keys.
  - intros name. rewrite sort_by_perm, list_elem_of_fmap. split.
    + intros ([n node] & -> & [Ha Hin%elem_of_range_list]%list_elem_of_filter). eauto.
    + intros (node & Hn & Ha). exists (name, node). split; [done|].
      apply list_elem_of_filter. split; [done|]. by apply elem_of_range_list.
Qed.

Lemma reserveGateway_spec pool gateway reserved gw reserved' :
  reserveGateway pool gateway reserved = Ok (gw, reserved') →
  (∀ a name, reserved !! a = Some name → name ≠ "") →
  (∀ a name, reserved' !! a = Some name → name ≠ "") ∧ reserved ⊆ reserved' ∧
  (gateway = "" ∨ ParseAddr gateway = Some gw ∧ PrefixContains (network pool) gw = true).
Proof.
  unfold reserveGateway. case_bool_decide; [intros [= <- <-]; auto|].
  destruct (ParseAddr gateway) as [g|]; [|done]. destruct (_ || _) eqn:E1; [done|].
  destruct (negb (bool_decide _)) eqn:E2; [done|]. intros Heq Hvals. injection Heq as <- <-. bool_to_prop. split_and!; [| |auto].
  - intros a name [[_ <-]|[_ Ha]]%lookup_insert_Some; [done|eauto].
  - apply insert_subseteq. destruct (reserved !! g) as [owner|] eqn:Ho; [|done].
    unfold reservedBy in E2. rewrite Ho in E2. cbn in E2. by apply Hvals in Ho.
Qed.

(** The addresses an allocation hands out. *)
Record allocation_ok nodesByName pool address (gateway : string) (chosen : gmap string Addr) : Prop := {
  alloc_served : ∀ name, is_Some (chosen !! name) ↔
    ∃ node, nodesByName !! name = Some node ∧ address node = "";
  alloc_unique : ∀ n1 n2 a, chosen !! n1 = Some a → chosen !! n2 = Some a → n1 = n2;
  alloc_range : ∀ name a, chosen !! name = Some a →
    wf_addr a ∧ PrefixContains (allocation pool) a = true ∧ PrefixContains (network pool) a = true ∧
    a ≠ PrefixAddr (allocation pool) ∧ (ipv4 pool = true → a ≠ lastPrefixAddress (allocation pool));
  alloc_gateway : ∀ name a, chosen !! name = Some a → ParseAddr gateway ≠ Some a;
  alloc_declared : ∀ name a other node, chosen !! name = Some a → nodesByName !! other = Some node →
    parseLooseManagementAddress (address node) (ipv4 pool) ≠ Ok a
}.

Lemma allocation_spec nodesByName pool address gateway allocations :
  wf_pool pool → enabled pool = true → nodesByName !! "" = None →
  allocateDirectManagementAddresses nodesByName pool address gateway = Ok allocations →
  ∃ chosen, allocations = printAllocation pool <$> chosen ∧
    allocation_ok nodesByName pool address gateway chosen.
Proof.
  intros Hpool Hen Hne. unfold allocateDirectManagementAddresses. rewrite Hen. cbn.
  intros (reserved & Hr & H)%rbind_Ok_inv. apply rbind_Ok_inv in H as ([gw reserved'] & Hg & H).
  apply rbind_Ok_inv in H as (state & Hs & [= <-]). cbn in Hs.
  assert ("" ∉ (range_list nodesByName).*1) as Hne'.
  { intros ([n node] & Heq & Hin%elem_of_range_list)%list_elem_of_fmap. cbn in Heq. subst. congruence. }
  pose proof (reserve_spec pool address _ _ (NoDup_range_keys _) Hne' Hr) as Hres.
  assert (∀ a name, reserved !! a = Some name → name ≠ "") as Hvals.
  { intros a name (node & Hin & _)%Hres ->. apply Hne'. apply (list_elem_of_fmap_2 fst) in Hin. done. }
  destruct (reserveGateway_spec _ _ _ _ _ Hg Hvals) as (Hvals' & Hsub & Hgw).
  destruct (allocationNames_spec nodesByName address) as [Hnd Hin].
  apply allocate_loop in Hs as (_ & _ & chosen & Hst & Hdom & Hch); [|done|done| |done].
  2: { intros (node & Hn & _)%Hin. congruence. }
  exists chosen. split; [done|].
  assert (∀ name a, chosen !! name = Some a → allocated_fine pool gw reserved' a) as Hfine.
  { intros name a Ha. by apply (Hch name a Ha). }
  split.
  - intros name. by rewrite Hdom, Hin.
  - intros n1 n2 a H1 H2. destruct (Hch n1 a H1) as [_ E1], (Hch n2 a H2) as [_ E2]. congruence.
  - intros name a (H0 & H1 & H2 & _)%Hfine. apply usable_spec in H2 as (_ & H3 & _ & H4); [|done].
    split_and!; [done|done| |done|done]. by apply wf_within.
  - intros name a (_ & _ & H2 & _)%Hfine Hp. apply usable_spec in H2 as (_ & _ & H3 & _); [|done].
    destruct Hgw as [->|[Hgw _]]; [done|congruence].
  - intros name a other node (_ & H1 & _ & H3)%Hfine Ho Hd.
    assert (reserved !! a = Some other) as Hr'; [|by rewrite (lookup_weaken _ _ _ _ Hr' Hsub) in H3].
    apply Hres. exists node. split; [by apply elem_of_range_list|]. done.
Qed.
End allocation.

(** ** The allocation does not depend on the order a map is walked in *)

Definition no_nul (nodesByName : gmap string mgmtNode) : Prop :=
  ∀ name, is_Some (nodesByName !! name) → name ≠ "" ∧ ContainsChar name (char 0) = false.

Section orders.
Context {sha : Sha256} {quote : FmtQuote} {o1 o2 : RangeOrder string}.

Lemma range_orders_elem {V} (m : gmap string V) entry :
  entry ∈ range_list (RangeOrder := o1) m ↔ entry ∈ range_list (RangeOrder := o2) m.
Proof. destruct entry as [k v]. by rewrite !elem_of_range_list. Qed.

Lemma allocationIdentity_inj nodesByName n1 n2 :
  ContainsChar n1 (char 0) = false → ContainsChar n2 (char 0) = false →
  allocationIdentity nodesByName n1 = allocationIdentity nodesByName n2 → n1 = n2.
Proof.
  assert (∀ n, ∃ uid, allocationIdentity nodesByName n = uid +:+ String (char 0) n) as Hid by (intros n; by eexists).
  destruct (Hid n1) as [u1 ->], (Hid n2) as [u2 ->]. intros H1 H2 Heq.
  rewrite <- (afterLast_app (char 0) u1 n1), <- (afterLast_app (char 0) u2 n2) by done. by rewrite Heq.
Qed.

Lemma allocationNames_orders nodesByName address :
  no_nul nodesByName →
  allocationNames (order := o1) nodesByName address = allocationNames (order := o2) nodesByName address.
Proof.
  intros Hnul. unfold allocationNames. apply sort_by_perm_eq.
  - rewrite (omap_if_filter (λ entry : string * mgmtNode, address entry.2 = "") fst).
    apply (NoDup_fmap_2_strong (allocationIdentity nodesByName)); [|apply NoDup_fmap_filter, NoDup_range_keys].
    assert (∀ n, n ∈ fst <$> filter (λ entry : string * mgmtNode, address entry.2 = "")
      (range_list (RangeOrder := o1) nodesByName) → is_Some (nodesByName !! n)) as Hin.
    { intros n ([k v] & -> & [_ H%elem_of_range_list]%list_elem_of_filter)%list_elem_of_fmap. by eexists. }
    intros n1 n2 H1%Hin%Hnul H2%Hin%Hnul. apply allocationIdentity_inj; tauto.
  - apply omap_Permutation. by rewrite !range_list_perm.
Qed.

Lemma reserve_orders nodesByName pool address reserved :
  no_nul nodesByName →
  rfold (reserveStep pool address) ∅ (range_list (RangeOrder := o1) nodesByName) = Ok reserved →
  rfold (reserveStep pool address) ∅ (range_list (RangeOrder := o2) nodesByName) = Ok reserved.
Proof.
  intros Hnul H1.
  assert (∀ o : RangeOrder string, "" ∉ (range_list (RangeOrder := o) nodesByName).*1) as Hne.
  { intros o ([n node] & Heq & Hin%elem_of_range_list)%list_elem_of_fmap. cbn in Heq. subst.
    destruct (Hnul "") as [? _]; [by eexists|done]. }
  pose proof (reserve_spec pool address _ _ (NoDup_range_keys _) (Hne o1) H1) as S1.
  assert (∀ c n, declared_by pool address (range_list (RangeOrder := o1) nodesByName) c n ↔
                 declared_by pool address (range_list (RangeOrder := o2) nodesByName) c n) as Hsame.
  { intros c n. unfold declared_by. by setoid_rewrite range_orders_elem. }
  destruct (reserve_ok pool address _ (NoDup_range_keys (H0 := o2) nodesByName) (Hne o2)) as [r2 H2].
  { intros c n1 n2 D1%Hsame%S1 D2%Hsame%S1. congruence. }
  pose proof (reserve_spec pool address _ _ (NoDup_range_keys _) (Hne o2) H2) as S2.
  rewrite H2. f_equal. apply map_eq. intros c. apply option_eq. intros n. by rewrite S2, S1, Hsame.
Qed.

Lemma allocation_orders nodesByName pool address gateway allocations :
  no_nul nodesByName →
  allocateDirectManagementAddresses (order := o1) nodesByName pool address gateway = Ok allocations →
  allocateDirectManagementAddresses (order := o2) nodesByName pool address gateway = Ok allocations.
Proof.
  intros Hnul. unfold allocateDirectManagementAddresses. destruct (negb (enabled pool)); [done|].
  intros (reserved & Hr & H)%rbind_Ok_inv. rewrite (reserve_orders _ _ _ _ Hnul Hr). cbn.
  by rewrite <- allocationNames_orders.
Qed.
End orders.

(** ** What a workload group realizes *)

Section groups.
Context {sha : Sha256} {quote : FmtQuote} {order : RangeOrder string}.
Implicit Types (nodesByName : gmap string mgmtNode) (plan : managementPlan).

(** The Node has a management identity of its own. *)
Definition hosts nodesByName (name : string) : Prop :=
  match nodesByName !! name with
  | Some node => HasPrefix (MNNetworkMode node) "container:" = false
  | None => False
  end.
#[export] Instance hosts_dec nodesByName name : Decision (hosts nodesByName name).
Proof. unfold hosts. destruct (nodesByName !! name); apply _. Defined.

(** The management input a member of the group is given. *)
Definition realized nodesByName plan (ports : list Port) (name : string) (value : ManagementInput) : Prop :=
  ∃ node v4 v6, nodesByName !! name = Some node ∧
    nodeAddress "mgmtIPv4" name node (MNMgmtIPv4 node) (Pool4 plan) (Allocations4 plan)
      (IPv4Gw (Settings plan)) = Ok v4 ∧
    nodeAddress "mgmtIPv6" name node (MNMgmtIPv6 node) (Pool6 plan) (Allocations6 plan)
      (IPv6Gw (Settings plan)) = Ok v6 ∧
    validateDirectManagementGateway (IPv4Gw (Settings plan)) v4 true = Ok tt ∧
    validateDirectManagementGateway (IPv6Gw (Settings plan)) v6 false = Ok tt ∧
    value = managementValue node (Settings plan) v4 v6 ports.

(** The addresses of an input, as [compileDirectManagement] compares them. *)
Definition addressKeys (value : ManagementInput) : list string :=
  directManagementAddressIdentity <$>
    filter (λ a, a ≠ "") [ManagementInput_IPv4 value; ManagementInput_IPv6 value].

(** The plan a successful compile uses. *)
Record wf_plan nodesByName plan : Prop := {
  plan_pool4 : wf_pool (Pool4 plan) ∧ enabled (Pool4 plan) = true ∧ ipv4 (Pool4 plan) = true;
  plan_alloc4 : ∃ chosen, Allocations4 plan = printAllocation (Pool4 plan) <$> chosen ∧
    allocation_ok nodesByName (Pool4 plan) MNMgmtIPv4 (IPv4Gw (Settings plan)) chosen
}.

Lemma onError_Ok {A} field (r : result string A) v : onError field r = Ok v ↔ r = Ok v.
Proof. destruct r; split; intros; simplify_eq/=; done. Qed.

Lemma default_policy_subnet settings settings' :
  applyDefaultManagementPolicy settings = Ok settings' → IPv4Subnet settings' ≠ "" ∧ IPv4Gw settings' ≠ "".
Proof.
  unfold applyDefaultManagementPolicy. cbv zeta.
  set (s0 := if bool_decide (IPv4Subnet settings = "") then _ else settings).
  assert (IPv4Subnet s0 ≠ "") as H0 by (subst s0; case_bool_decide; done).
  intros (s1 & H1 & H2)%rbind_Ok_inv.
  assert (IPv4Subnet s1 ≠ "" ∧ IPv4Gw s1 ≠ "") as [H3 H4].
  { clearbody s0. destruct (decide (IPv4Gw s0 = "")) as [Hg|Hg];
      [rewrite bool_decide_eq_true_2 in H1 by done|rewrite bool_decide_eq_false_2 in H1 by done; by simplify_eq].
    apply rbind_Ok_inv in H1 as (gw & Hgw & [= <-]). apply onError_Ok in Hgw.
    unfold firstUsableManagementAddress in Hgw. destruct (ParsePrefix _); simplify_eq.
    split; [done|]. apply AddrString_nonempty. }
  destruct (_ && _); [|by simplify_eq]. apply rbind_Ok_inv in H2 as (gw & _ & [= <-]). done.
Qed.

Lemma planManagement_wf nodesByName settings plan :
  nodesByName !! "" = None → planManagement nodesByName settings = Ok plan → wf_plan nodesByName plan.
Proof.
  intros Hne. unfold planManagement. intros (s & Hs & H)%rbind_Ok_inv.
  apply default_policy_subnet in Hs as [Hsub _].
  apply rbind_Ok_inv in H as (p4 & H4%onError_Ok & H). apply rbind_Ok_inv in H as (p6 & H6%onError_Ok & H).
  apply rbind_Ok_inv in H as (a4 & A4%onError_Ok & H). apply rbind_Ok_inv in H as (a6 & A6%onError_Ok & [= <-]).
  apply newDirectManagementPool_spec in H4 as (F4 & E4 & W4). cbn.
  assert (enabled p4 = true) as En by by apply E4.
  split; cbn; [by auto|]. by apply allocation_spec; auto.
Qed.

(** An IPv4 address a member is given: a prefix of the pool's length inside the subnet that is
    not reserved. *)
Definition realized_ipv4 (pool : directManagementPool) (gateway text : string) : Prop :=
  ∃ p, text = PrefixString p ∧ wf_prefix p ∧ Is4 (PrefixAddr p) = true ∧ Bits p = Bits (network pool) ∧
    PrefixContains (network pool) (PrefixAddr p) = true ∧
    PrefixAddr p ≠ PrefixAddr (allocation pool) ∧ PrefixAddr p ≠ lastPrefixAddress (allocation pool) ∧
    ParseAddr gateway ≠ Some (PrefixAddr p).

Lemma normalize_ipv4 raw pool value :
  wf_pool pool → enabled pool = true → ipv4 pool = true → value ≠ "" →
  normalizeDirectManagementAddress raw pool = Ok value →
  ∃ p, value = PrefixString p ∧ wf_prefix p ∧ Is4 (PrefixAddr p) = true ∧ Bits p = Bits (network pool) ∧
    PrefixContains (network pool) (PrefixAddr p) = true ∧
    parseLooseManagementAddress raw true = Ok (PrefixAddr p).
Proof.
  intros Hpool Hen H4 Hne. unfold normalizeDirectManagementAddress, parseLooseManagementAddress.
  case_bool_decide; [congruence|].
  rewrite Hen, H4. cbn. destruct (ParsePrefix raw) as [p|] eqn:Hp.
  - destruct (negb _) eqn:Hf; [done|]. destruct (_ || _) eqn:E; [done|]. intros [= <-]. bool_to_prop.
    apply ParsePrefix_wf in Hp. apply eqb_prop in Hf. eauto 10.
  - destruct (ParseAddr raw) as [a|] eqn:Ha; [|done]. apply ParseAddr_wf in Ha.
    destruct (negb (eqb _ _)) eqn:Hf; [done|]. destruct (negb (PrefixContains _ _)) eqn:E; [done|].
    intros [= <-]. bool_to_prop. apply eqb_prop in Hf. exists (PrefixFrom a (Bits (network pool))).
    destruct a as [|v|]; try done. split_and!; try done.
    pose proof (wf_network _ Hpool) as (_ & _ & Hb). pose proof (wf_family _ Hpool) as [Hfam _].
    unfold wf_prefix, PrefixFrom. cbn. split_and!; try done; destruct (PrefixAddr (network pool)); cbn in *;
      congruence || lia.
Qed.

Lemma allocated_prefix pool a :
  wf_pool pool → ipv4 pool = true → PrefixContains (network pool) a = true → wf_addr a →
  let p := PrefixFrom a (Bits (network pool)) in
  wf_prefix p ∧ Is4 (PrefixAddr p) = true ∧ PrefixAddr p = a.
Proof.
  intros Hpool H4 Hc Ha. pose proof (wf_network _ Hpool) as Hn. apply PrefixContains_spec in Hc as (Hz & Hf & _); [|done].
  destruct Hn as (_ & _ & Hb). destruct (wf_family _ Hpool) as [Hfam _].
  destruct (PrefixAddr (network pool)) as [|v|v z] eqn:E; cbn in *; try congruence.
  destruct a as [|w|w z]; cbn in *; try congruence. split_and!; try done; lia.
Qed.


Lemma normalize_empty raw pool : normalizeDirectManagementAddress raw pool = Ok "" → raw = "".
Proof.
  unfold normalizeDirectManagementAddress. case_bool_decide; [done|].
  assert (∀ p, PrefixString p ≠ "") as Hp
    by (intros p; unfold PrefixString; apply string_app_nonempty, AddrString_nonempty).
  destruct (ParsePrefix raw) as [p|].
  - destruct (negb _); [done|]. destruct (_ && _); [done|]. intros [= Heq]. by apply Hp in Heq.
  - destruct (ParseAddr raw) as [a|]; [|done]. destruct (negb _); [done|]. destruct (_ || _); [done|].
    intros [= Heq]. by apply Hp in Heq.
Qed.

Lemma nodeAddress_ipv4 nodesByName plan name node v4 :
  wf_plan nodesByName plan → nodesByName !! name = Some node →
  nodeAddress "mgmtIPv4" name node (MNMgmtIPv4 node) (Pool4 plan) (Allocations4 plan)
    (IPv4Gw (Settings plan)) = Ok v4 →
  realized_ipv4 (Pool4 plan) (IPv4Gw (Settings plan)) v4.
Proof.
  intros [(Hpool & Hen & H4) (chosen & Halloc & Hok)] Hnode. unfold nodeAddress.
  set (gw := IPv4Gw (Settings plan)) in *. set (pool := Pool4 plan) in *.
  destruct (normalizeDirectManagementAddress _ _) as [value|] eqn:Hn; [|done]. cbv zeta.
  set (text := if bool_decide (value = "") then _ else value).
  destruct (validateDirectManagementHostAddress text pool gw) as [[]|] eqn:Hhost; [|done]. intros [= <-].
  assert (∃ p, text = PrefixString p ∧ wf_prefix p ∧ Is4 (PrefixAddr p) = true ∧ Bits p = Bits (network pool) ∧
    PrefixContains (network pool) (PrefixAddr p) = true) as (p & Hp & Hwf & Hf & Hb & Hc).
  { subst text. case_bool_decide as Hv; [|eapply normalize_ipv4 in Hn; naive_solver].
    subst value. apply normalize_empty in Hn.
    destruct (proj2 (alloc_served _ _ _ _ _ Hok name)) as [a Ha]; [by eauto|].
    destruct (alloc_range _ _ _ _ _ Hok name a Ha) as (Hwa & _ & Hnet & _).
    destruct (allocated_prefix pool a Hpool H4 Hnet Hwa) as (W & F & E).
    exists (PrefixFrom a (Bits (network pool))). rewrite Halloc, lookup_fmap, Ha. cbn [fmap option_fmap option_map default].
    split_and!; try done. by rewrite E. }
  clearbody text. subst text. exists p. split_and!; try done.
  all: unfold validateDirectManagementHostAddress in Hhost; rewrite Hen, bool_decide_eq_false_2 in Hhost
    by (unfold PrefixString; apply string_app_nonempty, AddrString_nonempty);
    cbn [orb negb] in Hhost; rewrite ParsePrefix_String in Hhost by done;
    match type of Hhost with (if negb ?b then _ else _) = _ => destruct b eqn:Hu; [|done] end;
    apply usable_spec in Hu as (_ & U1 & U2 & U3); [|done].
  - done.
  - auto.
  - intros Hgw. apply U2. destruct (decide (gw = "")) as [->|Hne].
    + rewrite H4 in *. done.
    + rewrite bool_decide_eq_false_2 by done. cbn. by rewrite Hgw.
Qed.

(** ** The members of a group *)

Definition keys_of (values : list ManagementInput) : list string := values ≫= addressKeys.

Lemma keys_of_snoc values value : keys_of (values ++ [value]) = keys_of values ++ addressKeys value.
Proof. unfold keys_of. by rewrite bind_app, bind_singleton. Qed.

(** The addresses recorded so far are those of [keys], each by a Node. *)
Definition recorded (addresses : gmap string string) (keys : list string) : Prop :=
  NoDup keys ∧ ∀ key, key ∈ keys → ∃ owner, addresses !! key = Some owner ∧ owner ≠ "".

Lemma claimAddress_recorded name addresses address addresses' keys :
  name ≠ "" → recorded addresses keys → claimAddress name addresses address = Ok addresses' →
  recorded addresses'
    (keys ++ (directManagementAddressIdentity <$> filter (λ a, a ≠ "") [address])).
Proof.
  intros Hname [Hnd Hrec]. unfold claimAddress. rewrite filter_cons, filter_nil.
  destruct (decide (address = "")) as [->|Hne].
  - rewrite bool_decide_eq_true_2 by done. intros [= <-]. rewrite decide_False by naive_solver.
    cbn. by rewrite app_nil_r.
  - rewrite bool_decide_eq_false_2 by done. rewrite decide_True by done. cbn [fmap list_fmap].
    set (key := directManagementAddressIdentity address). destruct (negb _) eqn:E; [done|].
    intros [= <-]. bool_to_prop. split.
    + apply list.NoDup_app. split_and!; [done| |apply NoDup_singleton].
      intros k Hk ->%list_elem_of_singleton. destruct (Hrec key Hk) as (owner & Ho & Hn).
      rewrite Ho in E. done.
    + intros k [Hk|Hk%list_elem_of_singleton]%elem_of_app.
      * destruct (decide (k = key)) as [->|]; [exists name; by rewrite lookup_insert_eq|].
        rewrite lookup_insert_ne by done. by apply Hrec.
      * subst k. exists name. by rewrite lookup_insert_eq.
Qed.

Lemma realized_intent nodesByName plan ports name value :
  wf_plan nodesByName plan → realized nodesByName plan ports name value → hasManagementIntent value = true.
Proof.
  intros Hplan (node & v4 & v6 & Hn & H4 & _ & _ & _ & ->).
  eapply nodeAddress_ipv4 in H4 as (p & -> & _); [|done|done].
  unfold hasManagementIntent, managementValue. cbn [ManagementInput_IPv4].
  rewrite bool_decide_eq_false_2; [done|]. unfold PrefixString. apply string_app_nonempty, AddrString_nonempty.
Qed.

Lemma memberStep_spec nodesByName plan ports state name state' :
  wf_plan nodesByName plan → nodesByName !! "" = None → recorded state.1 (keys_of state.2) →
  memberStep nodesByName plan ports state name = Ok state' →
  recorded state'.1 (keys_of state'.2) ∧
  (¬ hosts nodesByName name ∧ state'.2 = state.2 ∨
   hosts nodesByName name ∧ ∃ value, realized nodesByName plan ports name value ∧ state'.2 = state.2 ++ [value]).
Proof.
  intros Hplan Hne Hrec. unfold memberStep, hosts. destruct (nodesByName !! name) as [node|] eqn:Hn.
  2: { intros [= <-]. by auto. }
  destruct (HasPrefix (MNNetworkMode node) "container:") eqn:Hmode; [intros [= <-]; by auto|].
  intros (v4 & H4 & H)%rbind_Ok_inv. apply rbind_Ok_inv in H as (v6 & H6 & H).
  apply rbind_Ok_inv in H as ([] & G4%onError_Ok & H). apply rbind_Ok_inv in H as ([] & G6%onError_Ok & H).
  apply rbind_Ok_inv in H as (addresses & Hclaim & [= <-]).
  set (value := managementValue node (Settings plan) v4 v6 ports).
  assert (realized nodesByName plan ports name value) as Hreal by (exists node, v4, v6; done).
  rewrite (realized_intent _ _ _ _ _ Hplan Hreal). cbn [fst snd]. split; [|right; eauto].
  assert (name ≠ "") as Hname by (intros ->; congruence).
  cbn in Hclaim. apply rbind_Ok_inv in Hclaim as (a1 & C1 & Hclaim).
  apply rbind_Ok_inv in Hclaim as (a2 & C2 & [= <-]).
  eapply claimAddress_recorded in C1; [|done|done]. eapply claimAddress_recorded in C2; [|done|done].
  rewrite keys_of_snoc. unfold addressKeys.
  change [ManagementInput_IPv4 value; ManagementInput_IPv6 value] with ([v4] ++ [v6]). by rewrite list.filter_app, fmap_app, app_assoc.
Qed.

Lemma members_spec nodesByName plan ports members : ∀ state,
  wf_plan nodesByName plan → nodesByName !! "" = None →
  rfold (memberStep nodesByName plan ports) (∅, []) members = Ok state →
  recorded state.1 (keys_of state.2) ∧
  Forall2 (realized nodesByName plan ports) (filter (hosts nodesByName) members) state.2.
Proof.
  induction members as [|name members IH] using rev_ind; intros state Hplan Hne.
  { intros [= <-]. split; [|constructor]. split; [constructor|]. intros key Hk. by apply elem_of_nil in Hk. }
  rewrite rfold_app. intros (state' & Hl & Hs)%rbind_Ok_inv. cbn in Hs.
  apply rbind_Ok_inv in Hs as (s' & Hs & [= ->]). destruct (IH state' Hplan Hne Hl) as [Hrec Hall].
  destruct (memberStep_spec _ _ _ _ _ _ Hplan Hne Hrec Hs) as [Hrec' Hcase]. split; [done|].
  rewrite list.filter_app, filter_cons, filter_nil. destruct Hcase as [[Hno ->]|(Hyes & value & Hreal & ->)].
  - rewrite decide_False by done. by rewrite app_nil_r.
  - rewrite decide_True by done. apply Forall2_app; [done|]. by constructor.
Qed.

(** ** Uniqueness in the namespace *)

Lemma unique_spec fam address nodesByName names owners :
  "" ∉ names → rfold (uniqueStep fam address nodesByName) ∅ names = Ok owners →
  (∀ a owner, owners !! a = Some owner → owner ≠ "") ∧
  ∀ name node a, name ∈ names → nodesByName !! name = Some node →
    parseLooseManagementAddress (address node) fam = Ok a → owners !! a = Some name.
Proof.
  revert owners. induction names as [|name names IH] using rev_ind; intros owners Hne.
  { intros [= <-]. split; [done|]. by intros ? ? ? ?%elem_of_nil. }
  rewrite elem_of_app, list_elem_of_singleton in Hne. rewrite rfold_app.
  intros (owners' & Hl & Hs)%rbind_Ok_inv. cbn in Hs. apply rbind_Ok_inv in Hs as (o' & Hs & [= ->]).
  destruct (IH owners' ltac:(naive_solver) Hl) as [Hvals Hown].
  assert (∀ n node a, n ∈ names ++ [name] → nodesByName !! n = Some node →
    parseLooseManagementAddress (address node) fam = Ok a →
    owners' !! a = Some n ∨ n = name) as Hcase.
  { intros n node a [Hn|Hn%list_elem_of_singleton]%elem_of_app Hnode Ha; [left; by eapply Hown|by right]. }
  unfold uniqueStep in Hs. destruct (nodesByName !! name) as [node|] eqn:Hnode.
  2: { simplify_eq. split; [done|]. intros n node a Hn Hd Ha. destruct (Hcase n node a Hn Hd Ha); congruence. }
  destruct (decide (address node = "")) as [He|He].
  { rewrite bool_decide_eq_true_2 in Hs by done. simplify_eq. split; [done|]. intros n node' a Hn Hd Ha.
    destruct (Hcase n node' a Hn Hd Ha) as [?| ->]; [done|]. simplify_eq. rewrite He in Ha. done. }
  rewrite bool_decide_eq_false_2 in Hs by done.
  destruct (parseLooseManagementAddress (address node) fam) as [c|] eqn:Hc.
  2: { simplify_eq. split; [done|]. intros n node' a Hn Hd Ha.
       destruct (Hcase n node' a Hn Hd Ha) as [?| ->]; [done|]. congruence. }
  destruct (negb _) eqn:E; [done|]. simplify_eq. bool_to_prop. split.
  - intros a owner [[_ <-]|[_ ?]]%lookup_insert_Some; [naive_solver|eauto].
  - intros n node' a Hn Hd Ha. destruct (Hcase n node' a Hn Hd Ha) as [Ho| ->].
    + rewrite lookup_insert_ne; [done|]. intros <-. unfold reservedBy in E. rewrite Ho in E. cbn in E.
      by apply Hvals in Ho.
    + rewrite Hnode in Hd. injection Hd as <-. rewrite Hc in Ha. injection Ha as <-.
      by rewrite lookup_insert_eq.
Qed.

Lemma declared_unique nodesByName n1 n2 node1 node2 a :
  nodesByName !! "" = None → validateUniqueExplicitManagementAddresses nodesByName = Ok tt →
  nodesByName !! n1 = Some node1 → nodesByName !! n2 = Some node2 →
  parseLooseManagementAddress (MNMgmtIPv4 node1) true = Ok a →
  parseLooseManagementAddress (MNMgmtIPv4 node2) true = Ok a → n1 = n2.
Proof.
  intros Hne Hu H1 H2 A1 A2. unfold validateUniqueExplicitManagementAddresses in Hu.
  apply rbind_Ok_inv in Hu as (owners & Hu & _).
  apply unique_spec in Hu as [_ Hown]; [|intros [? ?]%elem_of_sorted_keys; congruence].
  assert (∀ n node, nodesByName !! n = Some node → n ∈ sorted_keys nodesByName) as Hin
    by (intros n node Hn; apply elem_of_sorted_keys; by eexists).
  pose proof (Hown n1 node1 a (Hin _ _ H1) H1 A1). pose proof (Hown n2 node2 a (Hin _ _ H2) H2 A2). congruence.
Qed.

(** Where the IPv4 address of a member comes from. *)
Lemma nodeAddress_source nodesByName plan chosen name node v4 p :
  wf_pool (Pool4 plan) → enabled (Pool4 plan) = true → ipv4 (Pool4 plan) = true →
  Allocations4 plan = printAllocation (Pool4 plan) <$> chosen →
  allocation_ok nodesByName (Pool4 plan) MNMgmtIPv4 (IPv4Gw (Settings plan)) chosen →
  nodesByName !! name = Some node →
  nodeAddress "mgmtIPv4" name node (MNMgmtIPv4 node) (Pool4 plan) (Allocations4 plan)
    (IPv4Gw (Settings plan)) = Ok v4 →
  v4 = PrefixString p → wf_prefix p → Is4 (PrefixAddr p) = true →
  chosen !! name = Some (PrefixAddr p) ∨
  parseLooseManagementAddress (MNMgmtIPv4 node) true = Ok (PrefixAddr p).
Proof.
  intros Hpool Hen H4 Halloc Hok Hnode Ha Hp Hwf Hf. unfold nodeAddress in Ha.
  destruct (normalizeDirectManagementAddress _ _) as [value|] eqn:Hn; [|done]. cbv zeta in Ha.
  destruct (validateDirectManagementHostAddress _ _ _) as [[]|]; [|done]. injection Ha as Ha.
  assert (∀ q, wf_prefix q → Is4 (PrefixAddr q) = true → PrefixString q = PrefixString p → q = p) as Hinj.
  { intros q Hq Fq Heq. pose proof (ParsePrefix_String q Hq Fq) as E1.
    pose proof (ParsePrefix_String p Hwf Hf) as E2. congruence. }
  destruct (decide (value = "")) as [->|Hv].
  - rewrite bool_decide_eq_true_2 in Ha by done. apply normalize_empty in Hn. left.
    destruct (proj2 (alloc_served _ _ _ _ _ Hok name)) as [a Hca]; [by eauto|].
    destruct (alloc_range _ _ _ _ _ Hok name a Hca) as (Hwa & _ & Hnet & _).
    destruct (allocated_prefix _ a Hpool H4 Hnet Hwa) as (W & F & E).
    rewrite Halloc, lookup_fmap, Hca in Ha. cbn in Ha. rewrite Hp in Ha.
    rewrite Hca, <- (Hinj _ W F Ha), E. done.
  - rewrite bool_decide_eq_false_2 in Ha by done. right. subst value.
    eapply normalize_ipv4 in Hn as (q & Hq & W & F & _ & _ & Hl); [|done..].
    rewrite Hl. by rewrite (Hinj q W F); [|congruence].
Qed.

Lemma realized_unique nodesByName plan ports n1 n2 v1 v2 p :
  wf_plan nodesByName plan → nodesByName !! "" = None →
  validateUniqueExplicitManagementAddresses nodesByName = Ok tt →
  realized nodesByName plan ports n1 v1 → realized nodesByName plan ports n2 v2 →
  wf_prefix p → Is4 (PrefixAddr p) = true →
  ManagementInput_IPv4 v1 = PrefixString p → ManagementInput_IPv4 v2 = PrefixString p → n1 = n2.
Proof.
  intros [(Hpool & Hen & H4) (chosen & Halloc & Hok)] Hne Hu (node1 & a1 & b1 & N1 & R1 & _ & _ & _ & ->)
    (node2 & a2 & b2 & N2 & R2 & _ & _ & _ & ->) Hwf Hf E1 E2. cbn in E1, E2.
  destruct (nodeAddress_source _ _ _ _ _ _ p Hpool Hen H4 Halloc Hok N1 R1 E1 Hwf Hf) as [C1|D1],
    (nodeAddress_source _ _ _ _ _ _ p Hpool Hen H4 Halloc Hok N2 R2 E2 Hwf Hf) as [C2|D2].
  - by eapply alloc_unique.
  - exfalso. eapply alloc_declared; [done|exact C1|exact N2|]. by rewrite H4.
  - exfalso. eapply alloc_declared; [done|exact C2|exact N1|]. by rewrite H4.
  - by eapply declared_unique.
Qed.
End groups.
