(* ===== verification/ManagementTheorems.v ===== *)
(** * Management addresses: what is guaranteed

    The properties of [Management]: what an allocation hands out, that the management
    addresses of a namespace are unique whichever groups realize them, and that the directory
    its peers resolve says what the groups realize. *)

From S2P Require Import Prelude WireCodec Api GoStrings GoNet DevicePlanTypes Management.
Local Open Scope Z_scope.

Section theorems.
Context {sha : Sha256} {quote : FmtQuote}.

Lemma compile_inv {order : RangeOrder string} members nodesByName mgmt ports values :
  default false (MgmtDisabled <$> mgmt) = false → nodesByName !! "" = None →
  compileDirectManagement members nodesByName mgmt ports = Ok values →
  ∃ plan, planManagement nodesByName (default emptyPolicy mgmt) = Ok plan ∧ wf_plan nodesByName plan ∧
    validateUniqueExplicitManagementAddresses nodesByName = Ok tt ∧
    NoDup (keys_of values) ∧
    Forall2 (realized nodesByName plan ports) (filter (hosts nodesByName) members) values.
Proof.
  intros Hdis Hne. unfold compileDirectManagement. rewrite Hdis.
  intros ([] & Hu%onError_Ok & H)%rbind_Ok_inv. apply rbind_Ok_inv in H as (plan & Hplan & H).
  apply rbind_Ok_inv in H as (state & Hm & [= <-]). pose proof (planManagement_wf _ _ _ Hne Hplan) as Hwf.
  destruct (members_spec _ _ _ _ _ Hwf Hne Hm) as [[Hnd _] Hall]. eauto 10.
Qed.

Lemma realized_member {order : RangeOrder string} nodesByName plan ports members values name :
  Forall2 (realized nodesByName plan ports) (filter (hosts nodesByName) members) values →
  name ∈ members → hosts nodesByName name → ∃ value, value ∈ values ∧ realized nodesByName plan ports name value.
Proof.
  intros Hall Hin Hh. assert (name ∈ filter (hosts nodesByName) members) as Hin'
    by (by apply list_elem_of_filter).
  apply list_elem_of_lookup in Hin' as [i Hi]. destruct (Forall2_lookup_l _ _ _ _ _ Hall Hi) as (v & Hv & Hr).
  exists v. split; [by eapply list_elem_of_lookup_2|done].
Qed.

Lemma identityAddress_bare field name node declared pool allocations gateway text :
  nodeAddress field name node declared pool allocations gateway = Ok text →
  identityAddress name declared pool allocations = bareDirectManagementAddress text.
Proof.
  unfold nodeAddress, identityAddress. destruct (normalizeDirectManagementAddress declared pool); [|done].
  cbv zeta. destruct (validateDirectManagementHostAddress _ _ _); [|done]. by intros [= ->].
Qed.

Lemma bare_PrefixString p :
  hasZone (PrefixAddr p) = false → bareDirectManagementAddress (PrefixString p) = AddrString (PrefixAddr p).
Proof.
  intros Hz. unfold bareDirectManagementAddress. rewrite Cut_PrefixString by done.
  rewrite bool_decide_eq_false_2; [done|]. unfold PrefixString. apply string_app_nonempty, AddrString_nonempty.
Qed.

Lemma plan_inv {o1 o2 : RangeOrder string} nodesByName settings plan :
  no_nul nodesByName → planManagement (order := o1) nodesByName settings = Ok plan →
  applyDefaultManagementPolicy settings = Ok (Settings plan) ∧
  newDirectManagementPool (IPv4Subnet (Settings plan)) (IPv4Range (Settings plan)) true = Ok (Pool4 plan) ∧
  newDirectManagementPool (IPv6Subnet (Settings plan)) (IPv6Range (Settings plan)) false = Ok (Pool6 plan) ∧
  allocateDirectManagementAddresses (order := o2) nodesByName (Pool4 plan) MNMgmtIPv4
    (IPv4Gw (Settings plan)) = Ok (Allocations4 plan) ∧
  allocateDirectManagementAddresses (order := o2) nodesByName (Pool6 plan) MNMgmtIPv6
    (IPv6Gw (Settings plan)) = Ok (Allocations6 plan).
Proof.
  intros Hnul. unfold planManagement. intros (s & Hs & H)%rbind_Ok_inv.
  apply rbind_Ok_inv in H as (p4 & H4%onError_Ok & H). apply rbind_Ok_inv in H as (p6 & H6%onError_Ok & H).
  apply rbind_Ok_inv in H as (a4 & A4%onError_Ok & H). apply rbind_Ok_inv in H as (a6 & A6%onError_Ok & [= <-]).
  cbn. split_and!; [done..| |]; by eapply (allocation_orders (o1 := o1) (o2 := o2)).
Qed.

Lemma directory_entry {o1 o2 : RangeOrder string} nodesByName mgmt plan ports pods name value :
  no_nul nodesByName → default false (MgmtDisabled <$> mgmt) = false →
  planManagement (order := o1) nodesByName (default emptyPolicy mgmt) = Ok plan → wf_plan nodesByName plan →
  hosts nodesByName name → realized nodesByName plan ports name value →
  ∃ peer, peer ∈ compileNamespaceManagementIdentities (order := o2) nodesByName mgmt pods ∧
    PeerName peer = name ∧ PeerIPv4 peer ≠ "" ∧
    PeerIPv4 peer = bareDirectManagementAddress (ManagementInput_IPv4 value) ∧
    PeerIPv6 peer = bareDirectManagementAddress (ManagementInput_IPv6 value).
Proof.
  intros Hnul Hdis Hplan Hwf Hh (node & v4 & v6 & Hn & R4 & R6 & _ & _ & ->).
  destruct (plan_inv (o2 := o2) _ _ _ Hnul Hplan) as (Hs & P4 & P6 & A4 & A6).
  unfold compileNamespaceManagementIdentities. rewrite Hdis, Hs, P4, P6, A4, A6. cbn [okOr].
  cbn [ManagementInput_IPv4 ManagementInput_IPv6 managementValue].
  destruct (nodeAddress_ipv4 _ _ _ _ _ Hwf Hn R4) as (p & -> & Hp & _).
  pose proof (bare_PrefixString p) as Hbare. destruct Hp as (_ & Hz & _). specialize (Hbare Hz).
  exists (MkPeerIdentity name (bareDirectManagementAddress (PrefixString p)) (bareDirectManagementAddress v6)
    (MNAliases node ++ componentAliases name (MNComponentSlots node)) (default "" (pods !! MNUID node))).
  cbn. split_and!; [|done|rewrite Hbare; apply AddrString_nonempty|done|done].
  rewrite sort_by_perm, list_elem_of_omap. exists (name, node). split; [by apply elem_of_range_list|].
  unfold peerIdentity. cbn [fst snd]. unfold hosts in Hh. rewrite Hn in Hh. rewrite Hh.
  rewrite (identityAddress_bare _ _ _ _ _ _ _ _ R4), (identityAddress_bare _ _ _ _ _ _ _ _ R6).
  rewrite (bool_decide_eq_false_2 (bareDirectManagementAddress (PrefixString p) = "")); [done|].
  rewrite Hbare. apply AddrString_nonempty.
Qed.

(** ** Theorems *)

(** A successful allocation serves exactly the Nodes of the namespace that declare no
    address of the family, gives every one of them a different address, and every address it
    gives lies in the allocation range and in the subnet, is neither the range's first address
    nor (for IPv4) its last one, is not the gateway, and is declared by no Node of the
    namespace. *)
Theorem management_allocation {order : RangeOrder string} subnet range fam pool nodesByName address
    gateway allocations :
  newDirectManagementPool subnet range fam = Ok pool → subnet ≠ "" → nodesByName !! "" = None →
  allocateDirectManagementAddresses nodesByName pool address gateway = Ok allocations →
  ∃ chosen : gmap string Addr,
    allocations = (λ a, PrefixString (PrefixFrom a (Bits (network pool)))) <$> chosen ∧
    allocation_ok nodesByName pool address gateway chosen.
Proof.
  intros Hpool Hsub Hne. apply newDirectManagementPool_spec in Hpool as (_ & He & Hwf).
  apply allocation_spec; [apply Hwf; by apply He|by apply He|done].
Qed.

(** An allocation serves a gateway of the subnet. *)
Lemma allocation_gateway {order : RangeOrder string} nodesByName pool address gateway allocations :
  enabled pool = true → gateway ≠ "" → allocateDirectManagementAddresses nodesByName pool address gateway = Ok allocations →
  ∃ gw, ParseAddr gateway = Some gw ∧ PrefixContains (network pool) gw = true.
Proof.
  intros Hen Hgw. unfold allocateDirectManagementAddresses. rewrite Hen. cbn [negb].
  intros (reserved & _ & H)%rbind_Ok_inv. apply rbind_Ok_inv in H as (gw & Hr & _). revert Hr. unfold reserveGateway.
  rewrite bool_decide_eq_false_2 by done. destruct (ParseAddr gateway) as [a|]; [|done].
  destruct (negb (eqb _ _) || _) eqn:E; [done|]. intros _. apply orb_false_iff in E as [_ E%negb_false_iff]. eauto.
Qed.

(** An address a Node may have: with the length of the subnet and inside it, neither the first
    nor the last one of the allocation range, and not the gateway's.  The range is the subnet
    itself unless the policy sets another. *)
Definition hostAddress (pool : directManagementPool) (gateway : Addr) (p : Prefix) : Prop :=
  Is4 (PrefixAddr p) = true ∧ Bits p = Bits (network pool) ∧ PrefixContains (network pool) (PrefixAddr p) = true
  ∧ PrefixAddr p ≠ PrefixAddr (allocation pool) ∧ PrefixAddr p ≠ lastPrefixAddress (allocation pool)
  ∧ PrefixAddr p ≠ gateway.

(** C11: Two workload groups of one namespace compiled under one management policy, whatever
    the order maps are walked in.  With the defaults applied the policy has an IPv4 pool and a
    gateway in its subnet; every member with an identity of its own is given an address with
    the subnet's length that lies in the subnet, is neither end of the allocation range (the
    subnet itself unless a range is set) and is not the gateway; and two different members, of
    one group or of both, are never given the same address. *)
Theorem management_addresses_unique {o1 o2 : RangeOrder string} members1 members2 nodesByName mgmt ports
    values1 values2 name1 name2 :
  no_nul nodesByName → default false (MgmtDisabled <$> mgmt) = false →
  compileDirectManagement (order := o1) members1 nodesByName mgmt ports = Ok values1 →
  compileDirectManagement (order := o2) members2 nodesByName mgmt ports = Ok values2 →
  name1 ∈ members1 → hosts nodesByName name1 → name2 ∈ members2 → hosts nodesByName name2 →
  ∃ settings pool gateway value1 value2 p1 p2,
    applyDefaultManagementPolicy (default emptyPolicy mgmt) = Ok settings ∧
    newDirectManagementPool (IPv4Subnet settings) (IPv4Range settings) true = Ok pool ∧
    ParseAddr (IPv4Gw settings) = Some gateway ∧ PrefixContains (network pool) gateway = true ∧
    value1 ∈ values1 ∧ Some (ManagementInput_NodeID value1) = MNUID <$> nodesByName !! name1 ∧
    value2 ∈ values2 ∧ Some (ManagementInput_NodeID value2) = MNUID <$> nodesByName !! name2 ∧
    ManagementInput_IPv4 value1 = PrefixString p1 ∧ ManagementInput_IPv4 value2 = PrefixString p2 ∧
    ManagementInput_IPv4Gateway value1 = IPv4Gw settings ∧
    hostAddress pool gateway p1 ∧ hostAddress pool gateway p2 ∧
    (PrefixAddr p1 = PrefixAddr p2 → name1 = name2).
Proof.
  intros Hnul Hdis C1 C2 M1 H1 M2 H2.
  assert (nodesByName !! "" = None) as Hne.
  { destruct (nodesByName !! "") eqn:E; [|done]. by destruct (Hnul ""). }
  destruct (compile_inv (order := o1) _ _ _ _ _ Hdis Hne C1) as (plan1 & P1 & W1 & U & _ & F1).
  destruct (compile_inv (order := o2) _ _ _ _ _ Hdis Hne C2) as (plan2 & P2 & _ & _ & _ & F2).
  assert (plan2 = plan1) as ->.
  { destruct (plan_inv (o2 := o1) _ _ _ Hnul P1) as (S1 & A1 & B1 & D1 & E1).
    destruct (plan_inv (o2 := o1) _ _ _ Hnul P2) as (S2 & A2 & B2 & D2 & E2).
    destruct plan1 as [s p4 p6 a4 a6], plan2 as [s' p4' p6' a4' a6']; cbn in *.
    rewrite S1 in S2. injection S2 as <-. rewrite A1 in A2. injection A2 as <-. rewrite B1 in B2. injection B2 as <-.
    rewrite D1 in D2. injection D2 as <-. rewrite E1 in E2. injection E2 as <-. done. }
  destruct (realized_member _ _ _ _ _ _ F1 M1 H1) as (value1 & V1 & R1).
  destruct (realized_member _ _ _ _ _ _ F2 M2 H2) as (value2 & V2 & R2).
  pose proof R1 as (node1 & v4 & v6 & N1 & A1 & _ & _ & _ & E1).
  pose proof R2 as (node2 & w4 & w6 & N2 & A2 & _ & _ & _ & E2).
  pose proof (nodeAddress_ipv4 _ _ _ _ _ W1 N1 A1) as I1.
  pose proof (nodeAddress_ipv4 _ _ _ _ _ W1 N2 A2) as I2.
  pose proof I1 as (p1 & -> & Q1 & L1 & B1 & G1). pose proof I2 as (p2 & -> & Q2 & L2 & B2 & G2).
  destruct (plan_inv (o2 := o1) _ _ _ Hnul P1) as (S1 & K1 & _ & D1 & _).
  destruct (allocation_gateway (order := o1) _ _ _ _ _ ltac:(apply W1) (proj2 (default_policy_subnet _ _ S1)) D1) as (gw & Hgw & Hin).
  exists (Settings plan1), (Pool4 plan1), gw, value1, value2, p1, p2.
  rewrite N1, N2. unfold hostAddress. rewrite Hgw in G1, G2.
  split_and!; try done; try naive_solver congruence; [by rewrite E1|by rewrite E2|by rewrite E1|by rewrite E2|by rewrite E1|].
  intros Heq. assert (p1 = p2) as <- by (destruct p1, p2; cbn in *; congruence).
  eapply (realized_unique _ _ _ _ _ _ _ _ W1 Hne U R1 R2 Q1 L1); by rewrite ?E1, ?E2.
Qed.

(** The peer directory agrees with what the groups realize: for every member of a compiled
    group with an identity of its own, the directory computed from the same Nodes and policy,
    in any order, has an entry of that name whose addresses are those the group realizes, and
    its IPv4 address is not empty. *)
Theorem directory_agrees_with_groups {o1 o2 : RangeOrder string} members nodesByName mgmt ports pods values
    name node :
  no_nul nodesByName → default false (MgmtDisabled <$> mgmt) = false →
  compileDirectManagement (order := o1) members nodesByName mgmt ports = Ok values →
  name ∈ members → nodesByName !! name = Some node →
  HasPrefix (MNNetworkMode node) "container:" = false →
  ∃ value peer,
    value ∈ values ∧ ManagementInput_NodeID value = MNUID node ∧
    peer ∈ compileNamespaceManagementIdentities (order := o2) nodesByName mgmt pods ∧
    PeerName peer = name ∧ PeerIPv4 peer ≠ "" ∧
    PeerIPv4 peer = bareDirectManagementAddress (ManagementInput_IPv4 value) ∧
    PeerIPv6 peer = bareDirectManagementAddress (ManagementInput_IPv6 value).
Proof.
  intros Hnul Hdis Hc Hm Hn Hmode.
  assert (nodesByName !! "" = None) as Hne.
  { destruct (nodesByName !! "") eqn:E; [|done]. by destruct (Hnul ""). }
  assert (hosts nodesByName name) as Hh by (unfold hosts; by rewrite Hn).
  destruct (compile_inv (order := o1) _ _ _ _ _ Hdis Hne Hc) as (plan & P & W & _ & _ & F).
  destruct (realized_member _ _ _ _ _ _ F Hm Hh) as (value & V & R).
  destruct (directory_entry (o2 := o2) _ _ _ _ pods _ _ Hnul Hdis P W Hh R) as (peer & Hp).
  exists value, peer. split; [done|]. split; [|done].
  destruct R as (node' & v4 & v6 & N & _ & _ & _ & _ & ->). cbn. congruence.
Qed.
End theorems.

(** ** Concrete runs *)

(** A hash whose first byte is the sum of the bytes of its input. *)
Definition sumBytes (s : string) : Z := foldl (λ acc a, (acc + code a) mod 256) 0 (String.list_ascii_of_string s).
#[local] Program Instance example_sha : Sha256 := {| Sum256 s := sumBytes s :: replicate 31 0 |}.
Next Obligation. done. Qed.
Next Obligation.
  intros s. constructor; [|by repeat constructor].
  unfold sumBytes. induction (String.list_ascii_of_string s) as [|a l IH] using rev_ind; [by vm_compute|].
  rewrite foldl_app. cbn. apply Z.mod_pos_bound. lia.
Qed.
#[local] Instance example_quote : FmtQuote := λ s, s.
#[local] Instance example_order : RangeOrder string := canonical_range.
#[local] Program Instance reversed_order : RangeOrder string | 10 := {| range_list V m := reverse (map_to_list m) |}.
Next Obligation. intros V m. apply reverse_Permutation. Qed.

Definition exampleNode (name uid mode v4 : string) : mgmtNode := MkMgmtNode name "lab" uid mode v4 "" [] [] None.

(** Two self-hosting Nodes, one with a declared address, and one in the Pod of the first. *)
Definition exampleNodes : gmap string mgmtNode :=
  {[ "leaf" := exampleNode "leaf" "uid-1" "" "172.20.20.7"; "spine" := exampleNode "spine" "uid-2" "" "";
     "sidecar" := exampleNode "sidecar" "uid-3" "container:leaf" "" ]}.

Lemma exampleNodes_names : no_nul exampleNodes.
Proof.
  assert (map_Forall (λ name (_ : mgmtNode), name ≠ "" ∧ ContainsChar name (char 0) = false) exampleNodes) as H
    by (apply (bool_decide_unpack _); by vm_compute).
  intros name [node Hn]. by apply (H name node).
Qed.

Definition examplePool : directManagementPool :=
  okOr (disabledPool true) (newDirectManagementPool "172.20.20.0/24" "172.20.20.64/26" true).

Lemma management_allocation_witness :
  ∃ chosen : gmap string Addr,
    okOr ∅ (allocateDirectManagementAddresses exampleNodes examplePool MNMgmtIPv4 "172.20.20.1")
    = (λ a, PrefixString (PrefixFrom a (Bits (network examplePool)))) <$> chosen ∧
    allocation_ok exampleNodes examplePool MNMgmtIPv4 "172.20.20.1" chosen.
Proof.
  apply (management_allocation "172.20.20.0/24" "172.20.20.64/26" true); by vm_compute.
Defined.

Definition leafGroup : list ManagementInput :=
  okOr [] (compileDirectManagement (order := example_order) ["leaf"; "sidecar"] exampleNodes None []).
Definition spineGroup : list ManagementInput :=
  okOr [] (compileDirectManagement (order := reversed_order) ["spine"] exampleNodes None []).

Lemma management_addresses_unique_witness :
  ∃ settings pool gateway value1 value2 p1 p2,
    applyDefaultManagementPolicy (default emptyPolicy None) = Ok settings ∧
    newDirectManagementPool (IPv4Subnet settings) (IPv4Range settings) true = Ok pool ∧
    ParseAddr (IPv4Gw settings) = Some gateway ∧ PrefixContains (network pool) gateway = true ∧
    value1 ∈ leafGroup ∧ Some (ManagementInput_NodeID value1) = MNUID <$> exampleNodes !! "leaf" ∧
    value2 ∈ spineGroup ∧ Some (ManagementInput_NodeID value2) = MNUID <$> exampleNodes !! "spine" ∧
    ManagementInput_IPv4 value1 = PrefixString p1 ∧ ManagementInput_IPv4 value2 = PrefixString p2 ∧
    ManagementInput_IPv4Gateway value1 = IPv4Gw settings ∧
    hostAddress pool gateway p1 ∧ hostAddress pool gateway p2 ∧
    (PrefixAddr p1 = PrefixAddr p2 → "leaf" = "spine").
Proof.
  apply (management_addresses_unique (o1 := example_order) (o2 := reversed_order)
           ["leaf"; "sidecar"] ["spine"] exampleNodes None []).
  - exact exampleNodes_names.
  - reflexivity.
  - by vm_compute.
  - by vm_compute.
  - apply list_elem_of_here.
  - by vm_compute.
  - apply list_elem_of_here.
  - by vm_compute.
Defined.

Lemma directory_agrees_with_groups_witness :
  ∃ value peer,
    value ∈ leafGroup ∧ ManagementInput_NodeID value = "uid-1" ∧
    peer ∈ compileNamespaceManagementIdentities (order := reversed_order) exampleNodes None ∅ ∧
    PeerName peer = "leaf" ∧ PeerIPv4 peer ≠ "" ∧
    PeerIPv4 peer = bareDirectManagementAddress (ManagementInput_IPv4 value) ∧
    PeerIPv6 peer = bareDirectManagementAddress (ManagementInput_IPv6 value).
Proof.
  apply (directory_agrees_with_groups (o1 := example_order) (o2 := reversed_order)
           ["leaf"; "sidecar"] exampleNodes None [] ∅ leafGroup "leaf"
           (exampleNode "leaf" "uid-1" "" "172.20.20.7")).
  - exact exampleNodes_names.
  - reflexivity.
  - by vm_compute.
  - apply list_elem_of_here.
  - by vm_compute.
  - by vm_compute.
Defined.

(** With a range of its own, the ends of the range are refused and those of the subnet are not:
    a Node may declare the broadcast address of the subnet. *)
Definition rangePolicy : ManagementPolicy := emptyPolicy <| IPv4Subnet := "10.0.0.0/24" |> <| IPv4Range := "10.0.0.64/26" |>.
Definition broadcastNodes : gmap string mgmtNode := {[ "leaf" := exampleNode "leaf" "uid-1" "" "10.0.0.255" ]}.

Example subnet_broadcast_accepted :
  ManagementInput_IPv4 <$> okOr [] (compileDirectManagement (order := example_order) ["leaf"] broadcastNodes (Some rangePolicy) [])
  = ["10.0.0.255/24"].
Proof. vm_compute. reflexivity. Qed.
