(* ===== verification/PeerDirectory.v ===== *)
(** * The peer directory

    Models [internal/directruntime/peerdirectory.go] and the controller side of
    [controllers/node/directpeerdirectory.go]: the directory of management identities is
    split into eight shards by a hash of the name, every shard is a ConfigMap, and a device
    Pod merges the shards it has mounted.

    The JSON of a directory is an argument: the theorems use that reading back a written value
    gives its copy ([cloneJSON]), as [encoding/json] does. *)

From S2P Require Import Prelude WireCodec Api GoStrings GoNet DevicePlanTypes Management.
Local Open Scope Z_scope.

(** ** Identities and shards *)

#[export] Instance PeerIdentity_eq_dec : EqDecision PeerIdentity.
Proof. solve_decision. Defined.
#[export] Instance PeerIdentity_clone : CloneJSON PeerIdentity :=
  λ p, MkPeerIdentity (cloneJSON (PeerName p)) (cloneJSON (PeerIPv4 p)) (cloneJSON (PeerIPv6 p))
         (cloneJSON (PeerAliases p)) (cloneJSON (PeerPod p)).

Record PeerDirectory := MkPeerDirectory {
  DirectorySchemaVersion : Z;
  DirectoryPeers : list PeerIdentity
}.
#[export] Instance PeerDirectory_clone : CloneJSON PeerDirectory :=
  λ d, MkPeerDirectory (DirectorySchemaVersion d) (cloneJSON (DirectoryPeers d)).

(** [json.Marshal] and [json.Unmarshal] of a directory. *)
Class DirectoryJSON : Type := {
  marshalDirectory : PeerDirectory → string;
  unmarshalDirectory : string → option PeerDirectory;
  directory_json : ∀ d, unmarshalDirectory (marshalDirectory d) = Some (cloneJSON d);
  directory_json_nonempty : ∀ d, marshalDirectory d ≠ ""
}.

Definition PeerDirectoryConfigMapName : string := "c9s-peer-directory".
Definition PeerDirectoryConfigMapKey : string := "peers.json".
Definition PeerDirectoryShardCount : nat := 8.
Definition peerDirectorySchemaVersion : Z := 1.

Definition PeerDirectoryShardConfigMapName (shard : nat) : string :=
  PeerDirectoryConfigMapName +:+ "-" +:+ Itoa (Z.of_nat shard).
Definition PeerDirectoryShardFileName (shard : nat) : string :=
  "peers-" +:+ Itoa (Z.of_nat shard) +:+ ".json".

(** [hash/fnv]'s 32-bit FNV-1a. *)
Definition fnv32a (s : string) : Z :=
  foldl (λ hash a, (Z.lxor hash (code a) * 16777619) mod 2 ^ 32) 2166136261 (String.list_ascii_of_string s).

Definition PeerDirectoryShard (name : string) : nat :=
  Z.to_nat (fnv32a name mod Z.of_nat PeerDirectoryShardCount).

Lemma shard_bound name : (PeerDirectoryShard name < PeerDirectoryShardCount)%nat.
Proof.
  unfold PeerDirectoryShard. pose proof (Z.mod_pos_bound (fnv32a name) (Z.of_nat PeerDirectoryShardCount) ltac:(done)).
  lia.
Qed.

Section directory.
Context {json : DirectoryJSON}.

(** ** Writing *)

Definition RenderPeerDirectory (peers : list PeerIdentity) : string :=
  marshalDirectory (MkPeerDirectory peerDirectorySchemaVersion (sort_by PeerName peers)).

(** [byShard[shard]]: appending in order keeps the order of [peers]. *)
Definition byShard (peers : list PeerIdentity) (shard : nat) : list PeerIdentity :=
  filter (λ peer, PeerDirectoryShard (PeerName peer) = shard) peers.

Definition RenderPeerDirectoryShards (peers : list PeerIdentity) : list string :=
  (λ shard, RenderPeerDirectory (byShard peers shard)) <$> seq 0 PeerDirectoryShardCount.

(** ** Reading *)

Inductive peerDirectoryError :=
| errParse
| errUnsupportedPeerDirectory (schema : Z).

Definition ParsePeerDirectory (content : string) : result peerDirectoryError (list PeerIdentity) :=
  match unmarshalDirectory content with
  | None => Err errParse
  | Some directory =>
      if negb (DirectorySchemaVersion directory =? peerDirectorySchemaVersion)
      then Err (errUnsupportedPeerDirectory (DirectorySchemaVersion directory))
      else Ok (DirectoryPeers directory)
  end.

(** [filepath.Join(root, PeerDirectoryShardFileName(shard))], for a clean root. *)
Definition shardPath (root : string) (shard : nat) : string := root +:+ "/" +:+ PeerDirectoryShardFileName shard.

Definition peerDirectoryFiles (root : string) : list string :=
  (shardPath root <$> seq 0 PeerDirectoryShardCount)
  ++ [root +:+ "/" +:+ PeerDirectoryConfigMapKey].

(** What reading a file gives. *)
Inductive fileRead := notExist | readError | fileContent (content : string).

(** The peers of one file that are not known yet are added. *)
Definition mergeStep (state : list PeerIdentity * gset string) (peer : PeerIdentity) :
    list PeerIdentity * gset string :=
  if bool_decide (PeerName peer = "") || bool_decide (PeerName peer ∈ state.2) then state
  else (state.1 ++ [peer], {[PeerName peer]} ∪ state.2).

Definition readStep (readFile : string → fileRead)
    (state : list PeerIdentity * gset string * list string) (path : string) :
    list PeerIdentity * gset string * list string :=
  match readFile path with
  | notExist => state
  | readError => (state.1, state.2 ++ [path])
  | fileContent content =>
      if bool_decide (content = "") then state
      else match ParsePeerDirectory content with
           | Err _ => (state.1, state.2 ++ [path])
           | Ok parsed => (foldl mergeStep state.1 parsed, state.2)
           end
  end.

(** The merged peers and the paths of the files that could not be used, which stand for the
    joined errors. *)
Definition ReadPeerDirectory (root : string) (readFile : string → fileRead) :
    list PeerIdentity * list string :=
  let state := foldl (readStep readFile) ([], ∅, []) (peerDirectoryFiles root) in
  (sort_by PeerName state.1.1, state.2).

(** ** Mesh identities *)

(** [None] is the error: the address carries no mesh identity. *)
Definition ManagementMeshMAC (management : Addr) : option (list byte) :=
  match Unmap management with
  | Addr4 v => Some (6 :: 201 :: As4 v)
  | _ => None
  end.

(** ** Merging *)

Lemma mergeStep_spec peers : ∀ known seen,
  (∀ name, name ∈ seen ↔ name ∈ PeerName <$> known) →
  NoDup (PeerName <$> peers) → (∀ p, p ∈ peers → PeerName p ≠ "" ∧ PeerName p ∉ PeerName <$> known) →
  ∃ seen', foldl mergeStep (known, seen) peers = (known ++ peers, seen') ∧
    ∀ name, name ∈ seen' ↔ name ∈ PeerName <$> known ++ peers.
Proof.
  induction peers as [|p peers IH]; intros known seen Hseen Hnd Hp.
  { exists seen. by rewrite app_nil_r. }
  destruct (Hp p (list_elem_of_here _ _)) as [Hne Hnew]. cbn [foldl]. unfold mergeStep at 2. cbn [fst snd].
  rewrite bool_decide_eq_false_2, bool_decide_eq_false_2 by (by rewrite ?Hseen). cbn [orb].
  rewrite fmap_cons in Hnd. pose proof (NoDup_cons_1_1 _ _ Hnd) as Hpn. apply NoDup_cons_1_2 in Hnd.
  destruct (IH (known ++ [p]) ({[PeerName p]} ∪ seen)) as (seen' & Hf & Hs').
  - intros name. rewrite fmap_app, elem_of_app, elem_of_union, elem_of_singleton, Hseen.
    cbn. rewrite list_elem_of_singleton. tauto.
  - done.
  - intros q Hq. destruct (Hp q) as [Hq1 Hq2]; [by right|]. split; [done|].
    rewrite fmap_app, elem_of_app. intros [?|Hin%list_elem_of_singleton]; [done|].
    apply Hpn. rewrite <- Hin. by apply list_elem_of_fmap_2.
  - exists seen'. rewrite Hf, <- app_assoc. split; [done|]. intros name. rewrite Hs', <- app_assoc. done.
Qed.

(** What the Pod has mounted: the shards the controller rendered, some of which may be
    unreadable, and no legacy file. *)
Definition mounted (root : string) (peers : list PeerIdentity) (readable : nat → bool)
    (readFile : string → fileRead) : Prop :=
  (∀ shard, (shard < PeerDirectoryShardCount)%nat →
    readFile (shardPath root shard) =
      if readable shard
      then match RenderPeerDirectoryShards peers !! shard with Some c => fileContent c | None => notExist end
      else readError) ∧
  readFile (root +:+ "/" +:+ PeerDirectoryConfigMapKey) = notExist.

Lemma byShard_NoDup peers shard : NoDup (PeerName <$> peers) → NoDup (PeerName <$> byShard peers shard).
Proof. apply NoDup_fmap_filter. Qed.

Lemma filter_or_perm {A} (P Q : A → Prop) `{∀ x, Decision (P x)} `{∀ x, Decision (Q x)} (l : list A) :
  (∀ x, x ∈ l → P x → Q x → False) → filter (λ x, P x ∨ Q x) l ≡ₚ filter P l ++ filter Q l.
Proof.
  induction l as [|x l IH]; intros Hd; [done|]. rewrite !filter_cons.
  assert (∀ y, y ∈ l → P y → Q y → False) as Hd' by (intros y Hy; apply Hd; by right).
  specialize (IH Hd'). pose proof (Hd x (list_elem_of_here _ _)).
  destruct (decide (P x)), (decide (Q x)).
  - exfalso. tauto.
  - rewrite decide_True by tauto. cbn. by rewrite IH.
  - rewrite decide_True by tauto. rewrite IH. by rewrite <- Permutation_middle.
  - rewrite decide_False by tauto. done.
Qed.

(** The peers of the shards [shards] that can be read. *)
Definition readPeers (peers : list PeerIdentity) (readable : nat → bool) (shards : list nat) : list PeerIdentity :=
  shards ≫= λ shard, if readable shard then sort_by PeerName (byShard peers shard) else [].

Lemma readPeers_perm peers readable shards :
  NoDup shards →
  readPeers peers readable shards ≡ₚ
    filter (λ p, readable (PeerDirectoryShard (PeerName p)) = true ∧ PeerDirectoryShard (PeerName p) ∈ shards) peers.
Proof.
  induction shards as [|shard shards IH]; intros Hnd.
  { rewrite list_filter_none; [done|]. intros p _ [_ H]. by apply elem_of_nil in H. }
  apply NoDup_cons in Hnd as [Hnew Hnd]. unfold readPeers in *. cbn [mbind list_bind]. rewrite IH by done.
  rewrite (list_filter_ext_in (λ p, readable (PeerDirectoryShard (PeerName p)) = true ∧
      PeerDirectoryShard (PeerName p) ∈ shard :: shards) (λ p, (readable shard = true ∧ PeerDirectoryShard (PeerName p) = shard) ∨
    (readable (PeerDirectoryShard (PeerName p)) = true ∧ PeerDirectoryShard (PeerName p) ∈ shards))).
  2: { intros p _. rewrite elem_of_cons. naive_solver. }
  rewrite filter_or_perm by (intros p _ [_ <-] [_ ?]; done). f_equiv.
  destruct (readable shard).
  - rewrite sort_by_perm. apply reflexive_eq. apply list_filter_ext_in. naive_solver.
  - by rewrite list_filter_none by naive_solver.
Qed.

Lemma shard_parsed peers shard content :
  Forall (λ p, cloneJSON p = p) peers → RenderPeerDirectoryShards peers !! shard = Some content →
  content ≠ "" ∧ ParsePeerDirectory content = Ok (sort_by PeerName (byShard peers shard)).
Proof.
  intros Hclone. unfold RenderPeerDirectoryShards. rewrite list_lookup_fmap.
  destruct (seq 0 PeerDirectoryShardCount !! shard) as [i|] eqn:Hi; [|done].
  apply lookup_seq in Hi as [-> _]. cbn. intros [= <-]. split; [apply directory_json_nonempty|].
  unfold ParsePeerDirectory, RenderPeerDirectory. rewrite directory_json. cbn. f_equal.
  unfold cloneJSON, cloneJSON_list. apply list_fmap_fixed.
  intros p Hp. rewrite sort_by_perm in Hp. apply list_elem_of_filter in Hp as [_ Hp].
  rewrite list.Forall_forall in Hclone. by apply Hclone.
Qed.

Lemma read_loop root peers readable readFile shards :
  Forall (λ p, cloneJSON p = p) peers → NoDup (PeerName <$> peers) → Forall (λ p, PeerName p ≠ "") peers →
  mounted root peers readable readFile → NoDup shards → Forall (λ i, (i < PeerDirectoryShardCount)%nat) shards →
  ∃ seen, foldl (readStep readFile) ([], ∅, []) (shardPath root <$> shards) =
      (readPeers peers readable shards, seen,
       shardPath root <$> filter (λ i, readable i = false) shards) ∧
    ∀ name, name ∈ seen ↔ name ∈ PeerName <$> readPeers peers readable shards.
Proof.
  intros Hclone Hnd Hne Hm. induction shards as [|shard shards IH] using rev_ind; intros Hsn Hsb.
  { exists ∅. split; [done|]. intros name. cbn. by rewrite elem_of_empty, elem_of_nil. }
  apply list.NoDup_app in Hsn as (Hsn & Hdis & _). apply Forall_app in Hsb as [Hsb [Hb _]%list.Forall_cons].
  destruct IH as (seen & Hf & Hseen); [done..|]. rewrite fmap_app, foldl_app, Hf. cbn [fmap list_fmap foldl].
  unfold readStep. rewrite (proj1 Hm) by done. unfold readPeers. rewrite bind_app, bind_singleton.
  fold (readPeers peers readable shards). rewrite list.filter_app, filter_cons, filter_nil, fmap_app.
  destruct (readable shard) eqn:Hr.
  2: { exists seen. rewrite decide_True by done. by rewrite app_nil_r. }
  rewrite decide_False by done. cbn [fmap list_fmap]. rewrite app_nil_r.
  destruct (RenderPeerDirectoryShards peers !! shard) as [content|] eqn:Hc.
  2: { apply lookup_ge_None in Hc. unfold RenderPeerDirectoryShards in Hc.
       rewrite length_fmap, length_seq in Hc. lia. }
  destruct (shard_parsed _ _ _ Hclone Hc) as [Hnonempty Hparse].
  rewrite bool_decide_eq_false_2, Hparse by done.
  destruct (mergeStep_spec (sort_by PeerName (byShard peers shard)) (readPeers peers readable shards) seen)
    as (seen' & Hmerge & Hseen'); [done| | |].
  - rewrite sort_by_perm. by apply byShard_NoDup.
  - intros p Hp. rewrite sort_by_perm in Hp. apply list_elem_of_filter in Hp as [Hsh Hp].
    split; [rewrite list.Forall_forall in Hne; by apply Hne|].
    intros (q & Hq & Hin)%list_elem_of_fmap. rewrite readPeers_perm in Hin by done.
    apply list_elem_of_filter in Hin as [[_ Hin] Hq'].
    assert (p = q) as <- by (by eapply NoDup_key_inj). rewrite Hsh in Hin.
    apply (Hdis shard Hin). by apply list_elem_of_singleton.
  - exists seen'. cbn [fst snd]. rewrite Hmerge. done.
Qed.

Lemma read_spec root peers readable readFile :
  Forall (λ p, cloneJSON p = p) peers → NoDup (PeerName <$> peers) → Forall (λ p, PeerName p ≠ "") peers →
  mounted root peers readable readFile →
  ReadPeerDirectory root readFile =
    (sort_by PeerName (filter (λ p, readable (PeerDirectoryShard (PeerName p)) = true) peers),
     shardPath root <$> filter (λ i, readable i = false) (seq 0 PeerDirectoryShardCount)).
Proof.
  intros Hclone Hnd Hne Hm. unfold ReadPeerDirectory, peerDirectoryFiles.
  destruct (read_loop root peers readable readFile (seq 0 PeerDirectoryShardCount)) as (seen & Hf & _);
    [done..|apply NoDup_seq| |].
  { apply list.Forall_forall. intros i Hi%elem_of_seq. lia. }
  rewrite foldl_app, Hf. cbn [foldl]. unfold readStep. rewrite (proj2 Hm).
  cbn [fst snd]. f_equal. apply sort_by_perm_eq.
  - rewrite readPeers_perm by apply NoDup_seq. by apply NoDup_fmap_filter.
  - rewrite readPeers_perm by apply NoDup_seq. apply reflexive_eq, list_filter_ext_in. intros p _.
    rewrite elem_of_seq. pose proof (shard_bound (PeerName p)). split; [tauto|]. intros ?. split; [done|lia].
Qed.

(** The directory survives its way to the Pods.  Split into shards, written as JSON,
    mounted, read and merged, it comes out sorted by name, with every field intact, whatever
    order it was given in; and when some shards cannot be read, exactly the peers of those
    shards are missing and exactly those files are reported. *)
Theorem peer_directory_roundtrip root peers readable readFile :
  Forall (λ p, cloneJSON p = p) peers → NoDup (PeerName <$> peers) → Forall (λ p, PeerName p ≠ "") peers →
  mounted root peers readable readFile →
  ReadPeerDirectory root readFile =
    (sort_by PeerName (filter (λ p, readable (PeerDirectoryShard (PeerName p)) = true) peers),
     shardPath root <$> filter (λ i, readable i = false) (seq 0 PeerDirectoryShardCount)).
Proof. apply read_spec. Qed.
End directory.
