(* ===== verification/Hosts.v ===== *)
(** * The hosts file of a device Pod

    Models [internal/directruntime/nodeidentityhosts.go]: the lines c9s owns in
    [/etc/hosts] (the Pod's own node name and every peer of the namespace with its aliases),
    and the rewrite that puts them ahead of everything else.  [resolve] is how a resolver
    reads the file: the address of the first line that carries the name. *)

From S2P Require Import Prelude Api GoStrings GoNet DevicePlanTypes Management PeerDirectory.
Local Open Scope Z_scope.

Definition newline : Ascii.ascii := char 10.
Definition tab : Ascii.ascii := char 9.

Definition nodeIdentityHostsMarker : string := "# c9s-node-identity".
Definition peerHostsMarker : string := "# c9s-peer".

(** ** Rendering *)

(** [fmt.Fprintf("%s\t%s\t%s\n", address, name, marker)]. *)
Definition hostsLine (marker : string) (entry : string * string) : string :=
  entry.1 +:+ String tab (entry.2 +:+ String tab (marker +:+ String newline "")).

Fixpoint concatStrings (l : list string) : string :=
  match l with [] => "" | s :: l => s +:+ concatStrings l end.

Definition renderHosts (marker : string) (entries : list (string * string)) : string :=
  concatStrings (hostsLine marker <$> entries).

(** The addresses that are not empty, with the name they are written for. *)
Definition addressEntries (name : string) (addresses : list string) : list (string * string) :=
  (λ address, (address, name)) <$> filter (λ address, address ≠ "") addresses.

Definition bareManagementHostsAddress (cidr : string) : string :=
  if bool_decide (cidr = "") then ""
  else match Cut netSlash cidr with Some (address, _) => address | None => cidr end.

(** The node of the plan that carries the Pod's hostname. *)
Fixpoint nodeIDOf (nodes : list NodePlan) (hostname : string) : string :=
  match nodes with
  | [] => ""
  | node :: nodes =>
      if bool_decide (NodePlan_Name node = hostname) then NodePlan_ID node else nodeIDOf nodes hostname
  end.

(** The last management entry of the node that has an address of the family. *)
Definition identityStep (nodeID : string) (state : string * string) (management : ManagementPlan) :
    string * string :=
  if negb (bool_decide (ManagementPlan_NodeID management = nodeID)) then state
  else
    let v4 := bareManagementHostsAddress (ManagementPlan_IPv4 management) in
    let v6 := bareManagementHostsAddress (ManagementPlan_IPv6 management) in
    (if bool_decide (v4 = "") then state.1 else v4, if bool_decide (v6 = "") then state.2 else v6).

Definition identityEntries (plan : Plan) (hostname : string) : list (string * string) :=
  let nodeID := nodeIDOf (Plan_Nodes plan) hostname in
  if bool_decide (nodeID = "") then []
  else
    let addresses := foldl (identityStep nodeID) ("", "") (Plan_Management plan) in
    addressEntries hostname [addresses.1; addresses.2].

Definition renderNodeIdentityHostsLines (plan : Plan) (hostname : string) : string :=
  renderHosts nodeIdentityHostsMarker (identityEntries plan hostname).

(** One name of one peer. *)
Definition peerNameStep (peer : PeerIdentity) (state : list (string * string) * gset string) (name : string) :
    list (string * string) * gset string :=
  if bool_decide (name = "") || bool_decide (name ∈ state.2) then state
  else (state.1 ++ addressEntries name [PeerIPv4 peer; PeerIPv6 peer], {[name]} ∪ state.2).

Definition peerStep (state : list (string * string) * gset string) (peer : PeerIdentity) :
    list (string * string) * gset string :=
  foldl (peerNameStep peer) state (PeerName peer :: PeerAliases peer).

Definition peerEntries (peers : list PeerIdentity) (hostname : string) : list (string * string) :=
  (foldl peerStep ([], {[hostname]}) peers).1.

Definition renderPeerHostsLines (peers : list PeerIdentity) (hostname : string) : string :=
  renderHosts peerHostsMarker (peerEntries peers hostname).

(** ** Rewriting *)

(** [strings.Lines]: the lines of a text with their newlines. *)
Fixpoint Lines (s : string) : list string :=
  match s with
  | EmptyString => []
  | String a rest =>
      if bool_decide (a = newline) then String a "" :: Lines rest
      else match Lines rest with
           | line :: lines => String a line :: lines
           | [] => [String a ""]
           end
  end.

Definition isOwned (line : string) : bool :=
  Contains nodeIdentityHostsMarker line || Contains peerHostsMarker line.

Fixpoint endsWithNewline (s : string) : bool :=
  match s with
  | EmptyString => false
  | String a EmptyString => bool_decide (a = newline)
  | String _ rest => endsWithNewline rest
  end.

Definition prependOwnedHosts (current owned : string) : string :=
  let remainder := concatStrings (filter (λ line, isOwned line = false) (Lines current)) in
  owned +:+ (if negb (bool_decide (remainder = "")) && negb (endsWithNewline remainder)
             then remainder +:+ String newline "" else remainder).

(** [applyOwnedHostsBestEffort]: the content of the file afterwards, [None] when it is not
    written.  The hostname and the lock of the file may fail. *)
Definition applyOwnedHosts (plan : Plan) (peers : list PeerIdentity) (hostname : option string)
    (current : option string) : option string :=
  match hostname with
  | None => None
  | Some hostname =>
      let identity := renderNodeIdentityHostsLines plan hostname in
      let peerLines := renderPeerHostsLines peers hostname in
      if bool_decide (identity = "") && bool_decide (peerLines = "") then None
      else match current with
           | None => None
           | Some current =>
               let updated := prependOwnedHosts current (identity +:+ peerLines) in
               if bool_decide (current = updated) then None else Some updated
           end
  end.

(** ** Resolution *)

Fixpoint beforeHash (s : string) : string :=
  match s with
  | EmptyString => ""
  | String a s => if bool_decide (a = char 35) then "" else String a (beforeHash s)
  end.

(** The fields of a line: the maximal runs of characters that are not white space. *)
Fixpoint fieldsFrom (current : string) (s : string) : list string :=
  match s with
  | EmptyString => if bool_decide (current = "") then [] else [current]
  | String a s =>
      if isSpace a then (if bool_decide (current = "") then fieldsFrom "" s else current :: fieldsFrom "" s)
      else fieldsFrom (current +:+ String a "") s
  end.
Definition Fields (s : string) : list string := fieldsFrom "" s.

Definition lineResolves (name line : string) : option string :=
  match Fields (beforeHash line) with
  | address :: names => if bool_decide (name ∈ names) then Some address else None
  | [] => None
  end.

Fixpoint firstResolving (name : string) (lines : list string) : option string :=
  match lines with
  | [] => None
  | line :: lines =>
      match lineResolves name line with Some address => Some address | None => firstResolving name lines end
  end.

Definition resolve (name content : string) : option string := firstResolving name (Lines content).

Example lines_example : Lines ("a" +:+ String newline ("b" +:+ String newline "c")) =
  ["a" +:+ String newline ""; "b" +:+ String newline ""; "c"].
Proof. by vm_compute. Qed.

(** ** Lines *)

Definition noNewline (s : string) : bool := allChars (λ a, negb (bool_decide (a = newline))) s.

Lemma app_cons (a : Ascii.ascii) s t : String a s +:+ t = String a (s +:+ t).
Proof. done. Qed.
Lemma app_empty_r s : s +:+ "" = s.
Proof. induction s as [|a s IH]; [done|]. by rewrite app_cons, IH. Qed.
Lemma app_assoc_s s t u : (s +:+ t) +:+ u = s +:+ t +:+ u.
Proof. induction s as [|a s IH]; [done|]. by rewrite !app_cons, IH. Qed.

(** A text as [strings.Lines] splits it: every line but the last ends with a newline. *)
Inductive wf_lines : list string → Prop :=
| wf_none : wf_lines []
| wf_last s : s ≠ "" → noNewline s = true → wf_lines [s]
| wf_line s l : noNewline s = true → wf_lines l → wf_lines ((s +:+ String newline "") :: l).

Lemma Lines_wf s : wf_lines (Lines s).
Proof.
  induction s as [|a s IH]; [constructor|]. cbn [Lines]. case_bool_decide as Ha.
  - subst a. by apply (wf_line "").
  - assert (noNewline (String a "") = true) as Hn by (cbn; by rewrite bool_decide_eq_false_2).
    inversion IH as [|t Hne Ht Heq|t l Ht Hl Heq].
    + by apply wf_last.
    + apply wf_last; [done|]. cbn. by rewrite bool_decide_eq_false_2.
    + rewrite <- app_cons. apply wf_line; [|done]. cbn. by rewrite bool_decide_eq_false_2.
Qed.

Lemma Lines_line s rest :
  noNewline s = true → Lines (s +:+ String newline rest) = (s +:+ String newline "") :: Lines rest.
Proof.
  induction s as [|a s IH]; [done|]. cbn [noNewline allChars]. intros [Ha Hs]%andb_true_iff.
  rewrite !app_cons. cbn [Lines]. apply negb_true_iff in Ha. rewrite Ha, IH by done. done.
Qed.

Lemma Lines_last s : s ≠ "" → noNewline s = true → Lines s = [s].
Proof.
  induction s as [|a s IH]; [done|]. intros _. cbn [noNewline allChars]. intros [Ha Hs]%andb_true_iff.
  cbn [Lines]. apply negb_true_iff in Ha. rewrite Ha. destruct s as [|b s]; [done|]. by rewrite IH.
Qed.

Lemma Lines_concat l : wf_lines l → Lines (concatStrings l) = l.
Proof.
  induction 1 as [|s Hne Hs|s l Hs Hl IH]; [done| |]; cbn [concatStrings].
  - rewrite app_empty_r. by apply Lines_last.
  - rewrite app_assoc_s. change (String newline "" +:+ ?t) with (String newline t).
    rewrite Lines_line by done. by rewrite IH.
Qed.

Lemma wf_lines_filter (P : string → Prop) `{∀ x, Decision (P x)} l : wf_lines l → wf_lines (filter P l).
Proof.
  induction 1 as [|s Hne Hs|s l Hs Hl IH]; rewrite ?filter_cons, ?filter_nil; [constructor| |];
    case_decide; try done; by constructor.
Qed.

Lemma endsWithNewline_app s : endsWithNewline (s +:+ String newline "") = true.
Proof.
  induction s as [|a s IH]; [by vm_compute|]. rewrite app_cons. cbn [endsWithNewline].
  destruct (s +:+ String newline "") eqn:E; [by destruct s|]. done.
Qed.

Lemma endsWithNewline_app_r s t : t ≠ "" → endsWithNewline (s +:+ t) = endsWithNewline t.
Proof.
  intros Ht. induction s as [|a s IH]; [done|]. rewrite app_cons. cbn [endsWithNewline].
  destruct (s +:+ t) eqn:E; [|done]. by destruct s.
Qed.

Lemma noNewline_ends s : noNewline s = true → endsWithNewline s = false.
Proof.
  induction s as [|a s IH]; [done|]. cbn [noNewline allChars]. intros [Ha Hs]%andb_true_iff.
  cbn [endsWithNewline]. destruct s; [by apply negb_true_iff in Ha|]. by apply IH.
Qed.

(** The remainder of the file with its last line completed. *)
Definition finish (s : string) : string :=
  if negb (bool_decide (s = "")) && negb (endsWithNewline s) then s +:+ String newline "" else s.

Fixpoint finishLines (l : list string) : list string :=
  match l with
  | [] => []
  | [s] => [finish s]
  | s :: l => s :: finishLines l
  end.

Lemma finish_line s : noNewline s = true → finish (s +:+ String newline "") = s +:+ String newline "".
Proof.
  intros Hs. unfold finish. by rewrite endsWithNewline_app, andb_false_r.
Qed.

Lemma concat_nonempty l : wf_lines l → l ≠ [] → concatStrings l ≠ "".
Proof.
  destruct 1 as [|s Hne Hs|s l Hs Hl]; intros Hl'; [done| |]; cbn [concatStrings].
  - by destruct s.
  - rewrite app_assoc_s. destruct s; done.
Qed.

Lemma finish_concat l :
  wf_lines l → finish (concatStrings l) = concatStrings (finishLines l) ∧ wf_lines (finishLines l) ∧
    finish (concatStrings (finishLines l)) = concatStrings (finishLines l).
Proof.
  induction 1 as [|s Hne Hs|s l Hs Hl IH].
  - split_and!; [done|constructor|done].
  - assert (finish s = s +:+ String newline "") as Hf.
    { unfold finish. by rewrite bool_decide_eq_false_2, noNewline_ends by done. }
    cbn [finishLines concatStrings]. rewrite Hf, !app_empty_r, Hf.
    split_and!; [done| |by apply finish_line]. by repeat constructor.
  - destruct IH as (I1 & I2 & I3). set (x := s +:+ String newline "") in *.
    assert (∀ t, t ≠ "" → finish (x +:+ t) = x +:+ finish t) as Hf.
    { intros t Ht. unfold finish. rewrite endsWithNewline_app_r, (bool_decide_eq_false_2 (t = "")) by done.
      rewrite bool_decide_eq_false_2 by (unfold x; by destruct s). cbn.
      destruct (endsWithNewline t); cbn; [done|]. by rewrite app_assoc_s. }
    destruct l as [|y l].
    + cbn [finishLines concatStrings]. rewrite !app_empty_r. unfold x. rewrite !finish_line by done.
      split_and!; [done| |done]. apply wf_line; [done|constructor].
    + change (finishLines (x :: y :: l)) with (x :: finishLines (y :: l)).
      change (concatStrings (x :: ?l)) with (x +:+ concatStrings l).
      rewrite !Hf by (apply concat_nonempty; done || by destruct l). rewrite I1, I3.
      split_and!; [done|by apply wf_line|done].
Qed.

(** ** Owned lines *)

Lemma Contains_app sub a b : Contains sub (a +:+ sub +:+ b) = true.
Proof.
  assert (∀ s t, HasPrefix (s +:+ t) s = true) as Hp
    by (intros s t; unfold HasPrefix; by rewrite trim_prefix_app).
  induction a as [|c a IH].
  - change ("" +:+ sub +:+ b) with (sub +:+ b). destruct (sub +:+ b) eqn:E; cbn [Contains].
    + by destruct sub.
    + by rewrite <- E, Hp.
  - rewrite app_cons. cbn [Contains]. by rewrite IH, orb_true_r.
Qed.

Lemma HasPrefix_newline sub s :
  noNewline sub = true → HasPrefix (s +:+ String newline "") sub = HasPrefix s sub.
Proof.
  unfold HasPrefix. revert s. induction sub as [|a sub IH]; intros s; [done|]. cbn [noNewline allChars].
  intros [Ha Hs]%andb_true_iff. destruct s as [|b s].
  - change ("" +:+ String newline "") with (String newline ""). cbn [trim_prefix].
    apply negb_true_iff, bool_decide_eq_false in Ha. by rewrite decide_False.
  - rewrite app_cons. cbn [trim_prefix]. destruct (decide (a = b)); [by apply IH|done].
Qed.

Lemma Contains_newline sub s :
  noNewline sub = true → sub ≠ "" → Contains sub (s +:+ String newline "") = Contains sub s.
Proof.
  intros Hs Hne. induction s as [|a s IH].
  - change ("" +:+ String newline "") with (String newline ""). cbn [Contains].
    change (String newline "") with ("" +:+ String newline ""). rewrite HasPrefix_newline by done.
    by destruct (HasPrefix "" sub).
  - rewrite app_cons. cbn [Contains]. rewrite <- app_cons, HasPrefix_newline by done. by rewrite IH.
Qed.

Lemma isOwned_finish s : isOwned (finish s) = isOwned s.
Proof.
  unfold finish, isOwned. destruct (_ && _); [|done]. by rewrite !Contains_newline.
Qed.

Lemma finishLines_unowned l :
  (∀ s, s ∈ l → isOwned s = false) → ∀ s, s ∈ finishLines l → isOwned s = false.
Proof.
  induction l as [|x l IH]; intros Hl s Hs; [by apply elem_of_nil in Hs|].
  destruct l as [|y l].
  - apply list_elem_of_singleton in Hs as ->. rewrite isOwned_finish. apply Hl. left.
  - change (finishLines (x :: y :: l)) with (x :: finishLines (y :: l)) in Hs.
    apply elem_of_cons in Hs as [->|Hs]; [apply Hl; left|]. apply IH; [|done]. intros t Ht. apply Hl. by right.
Qed.

(** ** Words *)

(** A name or an address: not empty, no white space, no comment sign. *)
Definition wordChar (a : Ascii.ascii) : bool := negb (isSpace a) && negb (bool_decide (a = char 35)).
Definition word (s : string) : Prop := s ≠ "" ∧ allChars wordChar s = true.
Definition wordEntry (entry : string * string) : Prop := word entry.1 ∧ word entry.2.

Lemma wordChar_newline a : wordChar a = true → negb (bool_decide (a = newline)) = true.
Proof. intros H. apply negb_true_iff, bool_decide_eq_false. intros ->. by vm_compute in H. Qed.

Definition hostsBody (marker : string) (entry : string * string) : string :=
  entry.1 +:+ String tab (entry.2 +:+ String tab marker).

Lemma hostsLine_body marker entry : hostsLine marker entry = hostsBody marker entry +:+ String newline "".
Proof.
  unfold hostsLine, hostsBody. rewrite app_assoc_s. f_equal. rewrite app_cons. f_equal.
  by rewrite app_assoc_s.
Qed.

Lemma hostsBody_noNewline marker entry :
  noNewline marker = true → wordEntry entry → noNewline (hostsBody marker entry) = true.
Proof.
  intros Hm [[_ H1] [_ H2]]. unfold hostsBody, noNewline in *. rewrite allChars_app. cbn [allChars].
  rewrite allChars_app. cbn [allChars]. rewrite Hm.
  rewrite !(allChars_impl wordChar _ _ wordChar_newline) by done. done.
Qed.

Definition marker (m : string) : Prop := m = nodeIdentityHostsMarker ∨ m = peerHostsMarker.

Lemma marker_noNewline m : marker m → noNewline m = true.
Proof. by intros [->| ->]. Qed.

Lemma hostsLine_owned m entry : marker m → isOwned (hostsLine m entry) = true.
Proof.
  intros Hm. unfold isOwned, hostsLine.
  assert (entry.1 +:+ String tab (entry.2 +:+ String tab (m +:+ String newline "")) =
    (entry.1 +:+ String tab (entry.2 +:+ String tab "")) +:+ m +:+ String newline "") as ->.
  { rewrite app_assoc_s. f_equal. rewrite app_cons. f_equal. by rewrite app_assoc_s. }
  destruct Hm as [->| ->]; rewrite Contains_app; [done|]. by rewrite orb_true_r.
Qed.

(** The lines of a rendered block ahead of some text. *)
Lemma Lines_render m entries rest :
  marker m → Forall wordEntry entries →
  Lines (renderHosts m entries +:+ rest) = (hostsLine m <$> entries) ++ Lines rest.
Proof.
  intros Hm. unfold renderHosts. induction 1 as [|e entries He Hes IH]; [done|].
  cbn [fmap list_fmap concatStrings]. rewrite app_assoc_s, hostsLine_body, app_assoc_s.
  change (String newline "" +:+ ?t) with (String newline t).
  rewrite Lines_line by (apply hostsBody_noNewline; auto using marker_noNewline).
  rewrite IH, <- hostsLine_body. done.
Qed.

Lemma render_owned_filter m entries :
  marker m → filter (λ line, isOwned line = false) (hostsLine m <$> entries) = [].
Proof.
  intros Hm. apply list_filter_none. intros line (e & -> & _)%list_elem_of_fmap. by rewrite hostsLine_owned.
Qed.

(** ** The rewrite *)

Definition ownedBlock (plan : Plan) (peers : list PeerIdentity) (hostname : string) : string :=
  renderNodeIdentityHostsLines plan hostname +:+ renderPeerHostsLines peers hostname.

(** The lines of the file that are not owned, the last one completed. *)
Definition foreignLines (current : string) : list string :=
  finishLines (filter (λ line, isOwned line = false) (Lines current)).

Lemma foreignLines_wf current : wf_lines (foreignLines current).
Proof. apply finish_concat, wf_lines_filter, Lines_wf. Qed.

Lemma foreignLines_unowned current line : line ∈ foreignLines current → isOwned line = false.
Proof.
  apply finishLines_unowned. intros s Hs. by apply list_elem_of_filter in Hs as [? _].
Qed.

Lemma prepend_spec current owned :
  prependOwnedHosts current owned = owned +:+ concatStrings (foreignLines current).
Proof.
  unfold prependOwnedHosts. cbv zeta.
  change (if _ && _ then ?s +:+ String newline "" else ?s) with (finish s). f_equal.
  apply finish_concat, wf_lines_filter, Lines_wf.
Qed.

Definition wordEntries (plan : Plan) (peers : list PeerIdentity) (hostname : string) : Prop :=
  Forall wordEntry (identityEntries plan hostname) ∧ Forall wordEntry (peerEntries peers hostname).

Lemma Lines_prepend plan peers hostname current :
  wordEntries plan peers hostname →
  Lines (prependOwnedHosts current (ownedBlock plan peers hostname)) =
    (hostsLine nodeIdentityHostsMarker <$> identityEntries plan hostname) ++
    (hostsLine peerHostsMarker <$> peerEntries peers hostname) ++ foreignLines current.
Proof.
  intros [Hi Hp]. rewrite prepend_spec. unfold ownedBlock. rewrite app_assoc_s.
  unfold renderNodeIdentityHostsLines, renderPeerHostsLines.
  rewrite (Lines_render _ _ _ (or_introl eq_refl) Hi), (Lines_render _ _ _ (or_intror eq_refl) Hp).
  by rewrite Lines_concat by apply foreignLines_wf.
Qed.

Lemma foreign_prepend plan peers hostname current :
  wordEntries plan peers hostname →
  foreignLines (prependOwnedHosts current (ownedBlock plan peers hostname)) = foreignLines current.
Proof.
  intros Hw. unfold foreignLines at 1. rewrite Lines_prepend by done. rewrite !list.filter_app.
  rewrite (render_owned_filter _ _ (or_introl eq_refl)), (render_owned_filter _ _ (or_intror eq_refl)). cbn [app].
  rewrite list_filter_all by apply foreignLines_unowned.
  unfold foreignLines.
  pose proof (finish_concat _ (wf_lines_filter (λ line, isOwned line = false) _ (Lines_wf current))) as (_ & W & F).
  set (l := finishLines _) in *. pose proof (finish_concat l W) as (E & W' & _).
  rewrite F in E. rewrite <- (Lines_concat l W) at 2. rewrite E. by rewrite Lines_concat.
Qed.

(** ** What a resolver sees *)

Lemma beforeHash_app s t :
  allChars (λ a, negb (bool_decide (a = char 35))) s = true → beforeHash (s +:+ t) = s +:+ beforeHash t.
Proof.
  induction s as [|a s IH]; [done|]. cbn [allChars]. intros [Ha Hs]%andb_true_iff. rewrite !app_cons.
  cbn [beforeHash]. apply negb_true_iff in Ha. by rewrite Ha, IH.
Qed.

Lemma fieldsFrom_word cur w t :
  allChars (λ a, negb (isSpace a)) w = true → fieldsFrom cur (w +:+ t) = fieldsFrom (cur +:+ w) t.
Proof.
  revert cur. induction w as [|a w IH]; intros cur; [by rewrite app_empty_r|]. cbn [allChars].
  intros [Ha Hw]%andb_true_iff. rewrite app_cons. cbn [fieldsFrom]. apply negb_true_iff in Ha.
  rewrite Ha, IH by done. by rewrite app_assoc_s.
Qed.

Lemma wordChar_parts a :
  wordChar a = true → negb (bool_decide (a = char 35)) = true ∧ negb (isSpace a) = true.
Proof. unfold wordChar. intros [? ?]%andb_true_iff. done. Qed.

Lemma lineResolves_hosts m entry name :
  marker m → wordEntry entry →
  lineResolves name (hostsLine m entry) = if decide (name = entry.2) then Some entry.1 else None.
Proof.
  intros Hm [[Ha1 Ha] [Hn1 Hn]]. destruct entry as [a n]. cbn [fst snd] in *. unfold lineResolves, hostsLine.
  cbn [fst snd].
  assert (∀ s, allChars wordChar s = true → allChars (λ a, negb (bool_decide (a = char 35))) s = true) as Hh
    by (intros s; apply allChars_impl; intros c Hc; by apply wordChar_parts).
  assert (∀ s, allChars wordChar s = true → allChars (λ a, negb (isSpace a)) s = true) as Hs
    by (intros s; apply allChars_impl; intros c Hc; by apply wordChar_parts).
  rewrite beforeHash_app by auto. cbn [beforeHash].
  rewrite bool_decide_eq_false_2 by done. rewrite beforeHash_app by auto. cbn [beforeHash].
  rewrite bool_decide_eq_false_2 by done.
  assert (beforeHash (m +:+ String newline "") = "") as -> by (destruct Hm as [->| ->]; done).
  unfold Fields. rewrite fieldsFrom_word by auto. change ("" +:+ a) with a. cbn [fieldsFrom].
  change (isSpace tab) with true. cbv iota. rewrite bool_decide_eq_false_2 by done.
  rewrite fieldsFrom_word by auto. change ("" +:+ n) with n. cbn [fieldsFrom].
  change (isSpace tab) with true. cbv iota. rewrite (bool_decide_eq_false_2 (n = "")) by done.
  rewrite (bool_decide_eq_true_2 ("" = "")) by done.
  destruct (decide (name = n)) as [->|Hne].
  - rewrite bool_decide_eq_true_2; [done|]. left.
  - rewrite bool_decide_eq_false_2; [done|]. by intros ?%list_elem_of_singleton.
Qed.

(** The first entry of a name. *)
Fixpoint entryOf (name : string) (entries : list (string * string)) : option string :=
  match entries with
  | [] => None
  | (address, n) :: entries => if decide (name = n) then Some address else entryOf name entries
  end.

Lemma entryOf_app name l1 l2 :
  entryOf name (l1 ++ l2) = match entryOf name l1 with Some a => Some a | None => entryOf name l2 end.
Proof. induction l1 as [|[a n] l1 IH]; [done|]. cbn. by destruct (decide (name = n)). Qed.

Lemma firstResolving_app name l1 l2 :
  firstResolving name (l1 ++ l2) =
    match firstResolving name l1 with Some a => Some a | None => firstResolving name l2 end.
Proof. induction l1 as [|x l1 IH]; [done|]. cbn. by destruct (lineResolves name x). Qed.

Lemma firstResolving_entries m name entries :
  marker m → Forall wordEntry entries → firstResolving name (hostsLine m <$> entries) = entryOf name entries.
Proof.
  intros Hm. induction 1 as [|[a n] entries He Hes IH]; [done|]. cbn [fmap list_fmap firstResolving entryOf].
  rewrite lineResolves_hosts by done. cbn [fst snd]. by destruct (decide (name = n)).
Qed.

Lemma resolve_prepend plan peers hostname current name :
  wordEntries plan peers hostname →
  resolve name (prependOwnedHosts current (ownedBlock plan peers hostname)) =
    match entryOf name (identityEntries plan hostname ++ peerEntries peers hostname) with
    | Some address => Some address
    | None => firstResolving name (foreignLines current)
    end.
Proof.
  intros Hw. unfold resolve. rewrite Lines_prepend by done. destruct Hw as [Hi Hp].
  rewrite !firstResolving_app, (firstResolving_entries _ _ _ (or_introl eq_refl) Hi),
    (firstResolving_entries _ _ _ (or_intror eq_refl) Hp), entryOf_app.
  by destruct (entryOf name (identityEntries plan hostname)).
Qed.

(** ** Which peer a name belongs to *)

Lemma entryOf_addresses name n addresses :
  entryOf name (addressEntries n addresses) =
    if decide (name = n) then head (filter (λ a, a ≠ "") addresses) else None.
Proof.
  unfold addressEntries. induction (filter _ addresses) as [|a l IH]; cbn; [by case_decide|].
  rewrite IH. by case_decide.
Qed.

Definition claims (name : string) (peer : PeerIdentity) : Prop := name ∈ PeerName peer :: PeerAliases peer.
#[export] Instance claims_dec name peer : Decision (claims name peer).
Proof. unfold claims. apply _. Defined.

Definition peerAddress (peer : PeerIdentity) : option string :=
  head (filter (λ a, a ≠ "") [PeerIPv4 peer; PeerIPv6 peer]).

(** The state of the loop with respect to one name. *)
Definition name_state (name : string) (answer : option (option string))
    (state : list (string * string) * gset string) : Prop :=
  match answer with
  | Some address => name ∈ state.2 ∧ entryOf name state.1 = address
  | None => name ∉ state.2 ∧ entryOf name state.1 = None
  end.

Lemma peerNameStep_state name peer answer state n :
  name ≠ "" → name_state name answer state →
  name_state name (match answer with
                   | Some a => Some a
                   | None => if decide (name = n) then Some (peerAddress peer) else None
                   end) (peerNameStep peer state n).
Proof.
  intros Hname Hst. unfold peerNameStep. destruct (_ || _) eqn:E.
  - destruct answer as [a|]; [done|]. destruct (decide (name = n)) as [Hn|Hn]; [|done]. subst n. destruct Hst as [Hns _].
    apply orb_true_iff in E as [E|E]; by bool_to_prop.
  - bool_to_prop. destruct answer as [a|]; cbn [name_state fst snd] in *.
    + destruct Hst as [Hin He]. split; [set_solver|]. rewrite entryOf_app, He. destruct a; [done|].
      rewrite entryOf_addresses. rewrite decide_False; [done|]. by intros ->.
    + destruct Hst as [Hni He]. destruct (decide (name = n)) as [Hn|Hn]; cbn [name_state fst snd].
      * subst n. split; [set_solver|]. rewrite entryOf_app, He, entryOf_addresses. by rewrite decide_True.
      * split; [set_solver|]. rewrite entryOf_app, He, entryOf_addresses. by rewrite decide_False.
Qed.

Lemma peerStep_state name peer names : ∀ answer state,
  name ≠ "" → name_state name answer state →
  name_state name (match answer with
                   | Some a => Some a
                   | None => if decide (name ∈ names) then Some (peerAddress peer) else None
                   end) (foldl (peerNameStep peer) state names).
Proof.
  induction names as [|n names IH]; intros answer state Hname Hst.
  { cbn. destruct answer; [done|]. rewrite decide_False; [done|]. apply not_elem_of_nil. }
  cbn [foldl]. pose proof (peerNameStep_state name peer answer state n Hname Hst) as H1.
  pose proof (IH _ _ Hname H1) as H2. destruct answer as [a|]; [done|].
  destruct (decide (name = n)) as [->|Hn].
  - rewrite decide_True by left. done.
  - destruct (decide (name ∈ names)); [rewrite decide_True by (by right)|rewrite decide_False]; try done.
    intros [?|?]%elem_of_cons; done.
Qed.

(** The first peer of the list that claims the name. *)
Fixpoint owner (name : string) (peers : list PeerIdentity) : option PeerIdentity :=
  match peers with
  | [] => None
  | peer :: peers => if decide (claims name peer) then Some peer else owner name peers
  end.

Lemma peerEntries_owner name peers hostname :
  name ≠ "" → name ≠ hostname →
  entryOf name (peerEntries peers hostname) = owner name peers ≫= peerAddress.
Proof.
  intros Hname Hhost. unfold peerEntries.
  assert (∀ peers answer state, name_state name answer state →
    name_state name (match answer with Some a => Some a | None => peerAddress <$> owner name peers end)
      (foldl peerStep state peers)) as Hloop.
  { clear peers. intros peers. induction peers as [|p peers IH]; intros answer state Hst.
    - by destruct answer.
    - cbn [foldl]. pose proof (peerStep_state name p (PeerName p :: PeerAliases p) answer state Hname Hst) as H1.
      apply IH in H1. destruct answer as [a|]; [done|]. cbn [owner]. unfold claims.
      by destruct (decide (name ∈ PeerName p :: PeerAliases p)). }
  specialize (Hloop peers None ([], {[hostname]})). cbn [name_state fst snd] in Hloop.
  specialize (Hloop ltac:(split; [set_solver|done])).
  destruct (owner name peers) as [p|]; cbn in Hloop |- *; by destruct Hloop.
Qed.
