(* ===== verification/NameResolution.v ===== *)
(** * Name resolution inside a namespace

    What the hosts file of a device Pod resolves, and the composition of the controller and
    the runtime: the addresses the groups realize ([Management]), the directory they are
    published in ([PeerDirectory]) and the hosts files written from it ([Hosts]). *)

From S2P Require Import Prelude WireCodec Api GoStrings GoNet DevicePlanTypes Management ManagementTheorems.
From S2P Require Import PeerDirectory Hosts.
Local Open Scope Z_scope.

Lemma owner_unique name peers peer :
  peer ∈ peers → claims name peer → (∀ q, q ∈ peers → claims name q → q = peer) → owner name peers = Some peer.
Proof.
  induction peers as [|p peers IH]; intros Hin Hc Hu; [by apply elem_of_nil in Hin|]. cbn [owner].
  destruct (decide (claims name p)) as [Hp|Hp].
  - by rewrite (Hu p) by (left || done).
  - apply elem_of_cons in Hin as [->|Hin]; [done|]. apply IH; [done..|]. intros q Hq. apply Hu. by right.
Qed.

Lemma owner_none name peers : (∀ q, q ∈ peers → ¬ claims name q) → owner name peers = None.
Proof.
  induction peers as [|p peers IH]; intros Hq; [done|]. cbn [owner].
  rewrite decide_False by (apply Hq; left). apply IH. intros q Hin. apply Hq. by right.
Qed.

Lemma peerAddress_ipv4 peer : PeerIPv4 peer ≠ "" → peerAddress peer = Some (PeerIPv4 peer).
Proof. intros H. unfold peerAddress. rewrite filter_cons_True by done. done. Qed.

Lemma entryOf_other name n addresses : name ≠ n → entryOf name (addressEntries n addresses) = None.
Proof. intros H. rewrite entryOf_addresses. by rewrite decide_False. Qed.

Lemma identity_other plan hostname name : name ≠ hostname → entryOf name (identityEntries plan hostname) = None.
Proof.
  intros H. unfold identityEntries. cbv zeta. case_bool_decide; [done|]. by apply entryOf_other.
Qed.

Lemma identity_own plan hostname address name rest :
  identityEntries plan hostname = (address, name) :: rest →
  name = hostname ∧ entryOf hostname (identityEntries plan hostname) = Some address.
Proof.
  intros H. assert (name = hostname) as ->.
  { unfold identityEntries in H. cbv zeta in H. destruct (bool_decide _); [done|].
    assert ((address, name) ∈ addressEntries hostname
      [(foldl (identityStep (nodeIDOf (Plan_Nodes plan) hostname)) ("", "") (Plan_Management plan)).1;
       (foldl (identityStep (nodeIDOf (Plan_Nodes plan) hostname)) ("", "") (Plan_Management plan)).2]) as Hin
      by (rewrite H; left).
    apply list_elem_of_fmap in Hin as (a & Heq & _). by injection Heq. }
  rewrite H. cbn. by rewrite decide_True.
Qed.

(** The hosts file a Pod resolves names with.  After the rewrite the Pod's own name
    resolves to its management address when the plan has one; a name exactly one peer claims,
    as its name or as an alias, resolves to that peer's IPv4 address whatever the file said
    before; and a name no peer claims resolves as the lines c9s does not own say. *)
Theorem hosts_resolution plan peers hostname current :
  wordEntries plan peers hostname →
  let file := prependOwnedHosts current (ownedBlock plan peers hostname) in
  (∀ address name rest, identityEntries plan hostname = (address, name) :: rest →
    resolve hostname file = Some address) ∧
  (∀ name peer, name ≠ "" → name ≠ hostname → peer ∈ peers → claims name peer → PeerIPv4 peer ≠ "" →
    (∀ q, q ∈ peers → claims name q → q = peer) → resolve name file = Some (PeerIPv4 peer)) ∧
  (∀ name, name ≠ "" → name ≠ hostname → (∀ q, q ∈ peers → ¬ claims name q) →
    resolve name file = firstResolving name (foreignLines current)).
Proof.
  intros Hw file. unfold file. split_and!.
  - intros address name rest H. destruct (identity_own _ _ _ _ _ H) as [-> He].
    rewrite resolve_prepend by done. by rewrite entryOf_app, He.
  - intros name peer Hne Hh Hin Hc H4 Hu. rewrite resolve_prepend by done.
    rewrite entryOf_app, identity_other, peerEntries_owner by done.
    rewrite (owner_unique _ _ _ Hin Hc Hu). cbn. by rewrite peerAddress_ipv4.
  - intros name Hne Hh Hno. rewrite resolve_prepend by done.
    rewrite entryOf_app, identity_other, peerEntries_owner by done. by rewrite owner_none.
Qed.

(** Rewriting the hosts file replaces exactly the lines c9s owns: whatever peers an
    earlier rewrite was for, a rewrite gives what it would have given on the original file;
    in particular repeating one changes nothing (and [applyOwnedHosts] then writes nothing),
    and the lines c9s does not own stay as they were, in their order, after the owned ones. *)
Theorem hosts_rewrite_stable plan peers plan' peers' hostname current :
  wordEntries plan peers hostname → wordEntries plan' peers' hostname →
  let file := prependOwnedHosts current (ownedBlock plan peers hostname) in
  prependOwnedHosts file (ownedBlock plan' peers' hostname)
    = prependOwnedHosts current (ownedBlock plan' peers' hostname) ∧
  applyOwnedHosts plan peers (Some hostname) (Some file) = None ∧
  filter (λ line, isOwned line = false) (Lines file) = foreignLines current.
Proof.
  intros Hw Hw' file. unfold file. split_and!.
  - rewrite !(prepend_spec _ (ownedBlock plan' peers' hostname)). by rewrite foreign_prepend.
  - unfold applyOwnedHosts. cbv zeta. destruct (_ && _); [done|].
    change (renderNodeIdentityHostsLines plan hostname +:+ renderPeerHostsLines peers hostname)
      with (ownedBlock plan peers hostname).
    rewrite bool_decide_eq_true_2; [done|].
    rewrite (prepend_spec _ (ownedBlock plan peers hostname)) at 1.
    rewrite (prepend_spec (prependOwnedHosts _ _)). by rewrite foreign_prepend.
  - rewrite Lines_prepend by done. rewrite !list.filter_app.
    rewrite (render_owned_filter _ _ (or_introl eq_refl)), (render_owned_filter _ _ (or_intror eq_refl)).
    cbn [app]. apply list_filter_all, foreignLines_unowned.
Qed.

(** ** From the controller to the resolver *)

Section composition.
Context {sha : Sha256} {quote : FmtQuote} {json : DirectoryJSON}.

Lemma identities_names {order : RangeOrder string} nodesByName mgmt pods :
  let peers := compileNamespaceManagementIdentities nodesByName mgmt pods in
  NoDup (PeerName <$> peers) ∧ ∀ peer, peer ∈ peers → is_Some (nodesByName !! PeerName peer).
Proof.
  cbv zeta. unfold compileNamespaceManagementIdentities.
  assert (NoDup (PeerName <$> @nil PeerIdentity) ∧
    ∀ peer, peer ∈ @nil PeerIdentity → is_Some (nodesByName !! PeerName peer)) as Hnil.
  { split; [constructor|]. intros peer H. by apply elem_of_nil in H. }
  destruct (default false _); [done|]. destruct (applyDefaultManagementPolicy _) as [s|]; [|done].
  destruct (newDirectManagementPool _ _ true) as [p4|]; [|done].
  destruct (newDirectManagementPool _ _ false) as [p6|]; [|done].
  set (f := peerIdentity _ _ _ _ _). rewrite sort_by_perm.
  assert (∀ e p, f e = Some p → PeerName p = e.1) as Hname.
  { intros [n node] p. unfold f, peerIdentity. cbn. destruct (HasPrefix _ _); [done|].
    destruct (_ && _); [done|]. by intros [= <-]. }
  split.
  - pose proof (NoDup_range_keys nodesByName) as Hnd. induction (range_list nodesByName) as [|e l IH]; [constructor|].
    rewrite fmap_cons in Hnd. apply NoDup_cons in Hnd as [He Hnd]. cbn [omap list_omap].
    destruct (f e) as [p|] eqn:Hf; [|by apply IH]. rewrite fmap_cons. apply NoDup_cons. split; [|by apply IH].
    rewrite (Hname _ _ Hf). intros (q & Hq & (e' & Hin & Hf')%list_elem_of_omap)%list_elem_of_fmap.
    apply He. rewrite Hq, (Hname _ _ Hf'). by apply list_elem_of_fmap_2.
  - intros p Hp. rewrite sort_by_perm in Hp. apply list_elem_of_omap in Hp as ([n node] & Hin & Hf).
    rewrite (Hname _ _ Hf). apply elem_of_range_list in Hin. by eexists.
Qed.

(** C13: End to end.  A Node with a management identity of its own (management is enabled, and it
    does not share the network of another Node), whose group compiles, is reached by its name
    from another Pod, one whose hostname is not that name: once the directory is published and
    mounted completely, the Pod's hosts file resolves the name to the management address the
    Node's group realizes, provided no other Node of the namespace claims the name as an alias
    or a component.  Node names have no zero byte, the published entries are valid UTF-8, and
    the names in the hosts file are single words. *)
Theorem name_resolves_to_realized_address {o1 o2 : RangeOrder string} members nodesByName mgmt ports pods
    values name node root readFile plan hostname current :
  no_nul nodesByName → default false (MgmtDisabled <$> mgmt) = false →
  compileDirectManagement (order := o1) members nodesByName mgmt ports = Ok values →
  name ∈ members → nodesByName !! name = Some node → HasPrefix (MNNetworkMode node) "container:" = false →
  let published := compileNamespaceManagementIdentities (order := o2) nodesByName mgmt pods in
  Forall (λ p, cloneJSON p = p) published →
  mounted root published (λ _, true) readFile →
  let peers := (ReadPeerDirectory root readFile).1 in
  wordEntries plan peers hostname → name ≠ hostname →
  (∀ peer, peer ∈ published → claims name peer → PeerName peer = name) →
  ∃ value, value ∈ values ∧ ManagementInput_NodeID value = MNUID node ∧
    resolve name (prependOwnedHosts current (ownedBlock plan peers hostname)) =
      Some (bareDirectManagementAddress (ManagementInput_IPv4 value)).
Proof.
  intros Hnul Hdis Hc Hm Hn Hmode published Hclone Hmount peers Hw Hhost Halias.
  assert (nodesByName !! "" = None) as Hne.
  { destruct (nodesByName !! "") eqn:E; [|done]. by destruct (Hnul ""). }
  assert (hosts nodesByName name) as Hh by (unfold hosts; by rewrite Hn).
  destruct (compile_inv (order := o1) _ _ _ _ _ Hdis Hne Hc) as (mplan & P & W & _ & _ & F).
  destruct (realized_member _ _ _ _ _ _ F Hm Hh) as (value & V & R).
  destruct (directory_entry (o2 := o2) _ _ _ _ pods _ _ Hnul Hdis P W Hh R) as (peer & Hin & Hpn & H4 & E4 & _).
  fold published in Hin. exists value. split; [done|]. split.
  { destruct R as (node' & v4 & v6 & N & _ & _ & _ & _ & ->). cbn. congruence. }
  destruct (identities_names (order := o2) nodesByName mgmt pods) as [Hnd Hkeys]. fold published in Hnd, Hkeys.
  assert (name ≠ "") as Hname by (intros ->; congruence).
  assert (peers ≡ₚ published) as Hperm.
  { unfold peers. rewrite (read_spec root published (λ _, true) readFile Hclone Hnd); [|apply list.Forall_forall|done].
    - cbn [fst]. rewrite sort_by_perm. by rewrite list_filter_all.
    - intros p Hp He. apply Hkeys in Hp as [? Hp]. rewrite He in Hp. congruence. }
  rewrite resolve_prepend by done. rewrite entryOf_app, identity_other, peerEntries_owner by done.
  rewrite (owner_unique name peers peer); [cbn; rewrite peerAddress_ipv4 by done; by rewrite E4| | |].
  - by rewrite Hperm.
  - unfold claims. rewrite Hpn. left.
  - intros q Hq Hcl. rewrite Hperm in Hq. eapply NoDup_key_inj; [done|done|done|].
    rewrite Hpn. by apply Halias.
Qed.
End composition.

(** ** Concrete runs *)

(** A concrete serialization: the binary digits of the directory's code. *)
#[local] Instance PeerIdentity_countable : Countable PeerIdentity.
Proof.
  refine (inj_countable' (λ p, (PeerName p, PeerIPv4 p, PeerIPv6 p, PeerAliases p, PeerPod p))
    (λ '(n, v4, v6, a, p), MkPeerIdentity n v4 v6 a p) _). by intros [].
Defined.
#[local] Instance PeerDirectory_eq_dec : EqDecision PeerDirectory.
Proof. solve_decision. Defined.
#[local] Instance PeerDirectory_countable : Countable PeerDirectory.
Proof.
  refine (inj_countable' (λ d, (DirectorySchemaVersion d, DirectoryPeers d))
    (λ '(v, p), MkPeerDirectory v p) _). by intros [].
Defined.

Fixpoint digitsOf (p : positive) : string :=
  match p with xH => "1" | xO p => String (char 48) (digitsOf p) | xI p => String (char 49) (digitsOf p) end.
Fixpoint ofDigits (s : string) : option positive :=
  match s with
  | EmptyString => None
  | String a EmptyString => Some xH
  | String a s => (if bool_decide (a = char 48) then xO else xI) <$> ofDigits s
  end.

Lemma ofDigits_digitsOf p : ofDigits (digitsOf p) = Some p.
Proof.
  induction p as [p IH|p IH|]; [..|done]; cbn [digitsOf ofDigits]; rewrite IH;
    destruct (digitsOf p) eqn:E; try done; by destruct p.
Qed.

#[local] Program Instance example_json : DirectoryJSON := {|
  marshalDirectory d := digitsOf (encode d);
  unmarshalDirectory s := cloneJSON <$> (ofDigits s ≫= decode)
|}.
Next Obligation. intros d. cbn. rewrite ofDigits_digitsOf. cbn. by rewrite decode_encode. Qed.
Next Obligation. intros d. cbn. by destruct (encode d). Qed.

Definition twoPeers : list PeerIdentity :=
  [MkPeerIdentity "spine" "172.20.20.9" "" ["core"] "10.0.0.9"; MkPeerIdentity "leaf" "172.20.20.7" "" [] ""].

Definition mountOf (peers : list PeerIdentity) (path : string) : fileRead :=
  match list_find (λ shard, shardPath "/peers" shard = path) (seq 0 PeerDirectoryShardCount) with
  | Some (_, shard) =>
      match RenderPeerDirectoryShards peers !! shard with Some c => fileContent c | None => notExist end
  | None => notExist
  end.

Lemma mountOf_mounted peers : mounted "/peers" peers (λ _, true) (mountOf peers).
Proof.
  split; [|done]. intros shard Hs. unfold mountOf.
  replace (list_find (λ s, shardPath "/peers" s = shardPath "/peers" shard) (seq 0 PeerDirectoryShardCount))
    with (Some (shard, shard)); [done|].
  unfold PeerDirectoryShardCount in Hs. do 8 (destruct shard as [|shard]; [by vm_compute|]). lia.
Qed.

Lemma peer_directory_roundtrip_witness :
  ReadPeerDirectory "/peers" (mountOf twoPeers) =
    (sort_by PeerName (filter (λ p, true = true) twoPeers),
     shardPath "/peers" <$> filter (λ i, true = false) (seq 0 PeerDirectoryShardCount)).
Proof.
  apply (peer_directory_roundtrip "/peers" twoPeers (λ _, true) (mountOf twoPeers)).
  - by repeat constructor.
  - apply (bool_decide_unpack _). by vm_compute.
  - by repeat constructor.
  - apply mountOf_mounted.
Defined.

Definition emptyCompatibility : Compatibility := MkCompatibility "" "" "" "".
Definition hostsPlan : Plan :=
  MkPlan "v1alpha1" emptyCompatibility "" (MkPlannerIdentity "" "")
    [MkNodePlan "uid-9" "client" "linux" "" "" [] [] [] "" false] [] [] [] [] []
    [MkManagementPlan "m" "uid-9" "eth0" "" "172.20.20.5/24" "172.20.20.1" "" "" []
       (MkDNSConfig [] [] []) None] [].
Definition kubeletHosts : string := "10.0.0.1" +:+ String tab ("client" +:+ String newline "").

Lemma twoPeers_words : wordEntries hostsPlan twoPeers "client".
Proof.
  assert (∀ l : list (string * string), forallb (λ e : string * string,
    negb (bool_decide (e.1 = "")) && allChars wordChar e.1 && (negb (bool_decide (e.2 = "")) && allChars wordChar e.2)) l = true →
    Forall wordEntry l) as H.
  { intros l Hl. apply list.Forall_forall. intros e He%list_elem_of_In. rewrite forallb_forall in Hl.
    specialize (Hl e He). unfold wordEntry, word. bool_to_prop. done. }
  split; apply H; by vm_compute.
Qed.

Lemma hosts_resolution_witness :
  let file := prependOwnedHosts kubeletHosts (ownedBlock hostsPlan twoPeers "client") in
  resolve "client" file = Some "172.20.20.5" ∧ resolve "core" file = Some "172.20.20.9".
Proof.
  destruct (hosts_resolution hostsPlan twoPeers "client" kubeletHosts twoPeers_words) as (Hown & Hpeer & _).
  split.
  - by eapply Hown.
  - apply (Hpeer "core" (MkPeerIdentity "spine" "172.20.20.9" "" ["core"] "10.0.0.9")); try done.
    + left.
    + right. left.
    + intros q [->|Hq]%elem_of_cons Hc; [done|]. apply list_elem_of_singleton in Hq as ->.
      exfalso. unfold claims in Hc. cbn in Hc. by apply list_elem_of_singleton in Hc.
Defined.

Lemma hosts_rewrite_stable_witness :
  let file := prependOwnedHosts kubeletHosts (ownedBlock hostsPlan [] "client") in
  prependOwnedHosts file (ownedBlock hostsPlan twoPeers "client")
    = prependOwnedHosts kubeletHosts (ownedBlock hostsPlan twoPeers "client") ∧
  applyOwnedHosts hostsPlan [] (Some "client") (Some file) = None ∧
  filter (λ line, isOwned line = false) (Lines file) = foreignLines kubeletHosts.
Proof.
  apply (hosts_rewrite_stable hostsPlan [] hostsPlan twoPeers "client" kubeletHosts).
  - split; [apply twoPeers_words|constructor].
  - exact twoPeers_words.
Defined.

#[local] Existing Instance example_sha.
#[local] Existing Instance example_quote.

Definition publishedPeers (nodesByName : gmap string mgmtNode) : list PeerIdentity :=
  compileNamespaceManagementIdentities (order := reversed_order) nodesByName None ∅.

Lemma words_decided (l : list (string * string)) :
  forallb (λ e : string * string, negb (bool_decide (e.1 = "")) && allChars wordChar e.1
    && (negb (bool_decide (e.2 = "")) && allChars wordChar e.2)) l = true → Forall wordEntry l.
Proof.
  intros Hl. apply list.Forall_forall. intros e He%list_elem_of_In. rewrite forallb_forall in Hl.
  specialize (Hl e He). unfold wordEntry, word. bool_to_prop. done.
Qed.

Lemma name_resolves_to_realized_address_witness :
  ∃ value, value ∈ leafGroup ∧ ManagementInput_NodeID value = "uid-1" ∧
    resolve "leaf" (prependOwnedHosts kubeletHosts
      (ownedBlock hostsPlan (ReadPeerDirectory "/peers" (mountOf (publishedPeers exampleNodes))).1 "client"))
    = Some (bareDirectManagementAddress (ManagementInput_IPv4 value)).
Proof.
  apply (name_resolves_to_realized_address (o1 := example_order) (o2 := reversed_order) ["leaf"; "sidecar"]
    exampleNodes None [] ∅ leafGroup "leaf" (exampleNode "leaf" "uid-1" "" "172.20.20.7") "/peers"
    (mountOf (publishedPeers exampleNodes)) hostsPlan "client" kubeletHosts).
  - exact exampleNodes_names.
  - reflexivity.
  - by vm_compute.
  - apply list_elem_of_here.
  - by vm_compute.
  - by vm_compute.
  - apply (bool_decide_unpack _). by vm_compute.
  - apply mountOf_mounted.
  - split; apply words_decided; by vm_compute.
  - done.
  - assert (Forall (λ peer, claims "leaf" peer → PeerName peer = "leaf") (publishedPeers exampleNodes)) as H
      by (apply (bool_decide_unpack _); by vm_compute).
    rewrite list.Forall_forall in H. exact H.
Defined.

(** A chassis with a component in slot [A], and a Node that carries the name the component
    gets. *)
Definition chassisNodes : gmap string mgmtNode :=
  {[ "pe1" := MkMgmtNode "pe1" "lab" "uid-1" "" "172.20.20.11" "" [] ["A"] None;
     "pe1-a" := MkMgmtNode "pe1-a" "lab" "uid-2" "" "172.20.20.12" "" [] [] None ]}.

(** A component name can shadow a Node.  A chassis [pe1] with a component in slot [A]
    claims the name [pe1-a]; a Node of that name in the same namespace is compiled with its own
    management address, but every other Pod resolves its name to the chassis. *)
Theorem component_name_shadows_node :
  ManagementInput_IPv4 <$> okOr []
    (compileDirectManagement (order := example_order) ["pe1-a"] chassisNodes None []) = ["172.20.20.12/24"] ∧
  resolve "pe1-a" (prependOwnedHosts kubeletHosts
    (ownedBlock hostsPlan (ReadPeerDirectory "/peers" (mountOf (publishedPeers chassisNodes))).1 "client"))
  = Some "172.20.20.11".
Proof. by vm_compute. Qed.
