(* ===== verification/PeerDirectoryController.v ===== *)
(** * Publishing the peer directory

    Models [controllers/node/directpeerdirectory.go] and
    [controllers/node/peerdirectorycontroller.go]: which Pod realizes a Node, the compilation
    of a namespace whose Nodes follow different management policies, the writing of the shard
    ConfigMaps against a possibly stale cache, and the removal of the legacy ConfigMap; and
    the sidecar's memo of the mounted directory
    ([internal/directruntime/peerdirectoryreader.go]). *)

From S2P Require Import Prelude WireCodec Api GoStrings GoNet DevicePlanTypes Management ManagementTheorems.
From S2P Require Import PeerDirectory Hosts NameResolution.
Local Open Scope Z_scope.

(** ** Which Pod realizes a Node *)

(** The fields of a direct device Pod that are read. *)
Record dirPod := MkDirPod {
  DirPodNodeUID : string;
  DirPodDeleting : bool;
  DirPodIP : string;
  DirPodCreated : Z
}.

Definition newestStep (newest : gmap string dirPod) (pod : dirPod) : gmap string dirPod :=
  if bool_decide (DirPodNodeUID pod = "") || DirPodDeleting pod || bool_decide (DirPodIP pod = "") then newest
  else match newest !! DirPodNodeUID pod with
       | None => <[DirPodNodeUID pod := pod]> newest
       | Some current =>
           if DirPodCreated current <? DirPodCreated pod then <[DirPodNodeUID pod := pod]> newest else newest
       end.

Definition directPodAddressesByNodeUID (pods : list dirPod) : gmap string string :=
  DirPodIP <$> foldl newestStep ∅ pods.

(** ** ConfigMaps *)

Record ConfigMap := MkConfigMap {
  CMVersion : Z;
  CMLabels : gmap string string;
  CMAnnotations : gmap string string;
  CMData : gmap string string
}.
#[export] Instance ConfigMap_updatable : Updatable ConfigMap :=
  λ c, MkConfigMap (CMVersion c) (CMLabels c) (CMAnnotations c) (CMData c).

#[export] Instance ConfigMap_eq_dec : EqDecision ConfigMap.
Proof. solve_decision. Defined.

(** The errors of the API server the writer distinguishes. *)
Inductive writeError := AlreadyExists | Conflict | NotFound.

Definition shardConforms (existing rendered : ConfigMap) : bool :=
  bool_decide (default "" (CMData existing !! PeerDirectoryConfigMapKey)
               = default "" (CMData rendered !! PeerDirectoryConfigMapKey))
  && ExistingMapStringStringContainsAllExpectedKeyValues (CMLabels existing) (CMLabels rendered).

(** The API server: a create of an existing object and an update of an outdated version are
    refused; a write gives a new version. *)
Definition createConfigMap (store : gmap string ConfigMap) (name : string) (rendered : ConfigMap) :
    result writeError (gmap string ConfigMap) :=
  match store !! name with
  | Some _ => Err AlreadyExists
  | None => Ok (<[name := rendered <| CMVersion := 1 |>]> store)
  end.

Definition updateConfigMap (store : gmap string ConfigMap) (name : string) (updated : ConfigMap) :
    result writeError (gmap string ConfigMap) :=
  match store !! name with
  | None => Err NotFound
  | Some current =>
      if CMVersion current =? CMVersion updated
      then Ok (<[name := updated <| CMVersion := CMVersion updated + 1 |>]> store)
      else Err Conflict
  end.

(** One attempt, on what the reader returned. *)
Definition shardAttempt (store : gmap string ConfigMap) (name : string) (rendered : ConfigMap)
    (read : option ConfigMap) : result writeError (gmap string ConfigMap) :=
  match read with
  | None => createConfigMap store name rendered
  | Some existing =>
      if shardConforms existing rendered then Ok store
      else updateConfigMap store name
             (existing <| CMData := CMData rendered |> <| CMLabels := CMLabels rendered ∪ CMLabels existing |>)
  end.

Definition retriable (e : writeError) : bool :=
  match e with AlreadyExists | Conflict => true | NotFound => false end.

(** [clientretry.OnError] with [DefaultRetry]: at most five attempts; the first one reads the
    cache, the others the API server. *)
Fixpoint shardRetry (attempts : nat) (store : gmap string ConfigMap) (name : string) (rendered : ConfigMap)
    (read : option ConfigMap) : result writeError (gmap string ConfigMap) :=
  match attempts with
  | O => Err Conflict
  | S attempts =>
      match shardAttempt store name rendered read with
      | Ok store' => Ok store'
      | Err e =>
          if retriable e && negb (Nat.eqb attempts 0)
          then shardRetry attempts store name rendered (store !! name) else Err e
      end
  end.

Definition reconcileDirectPeerDirectoryShard (cache store : gmap string ConfigMap) (name : string)
    (rendered : ConfigMap) : result writeError (gmap string ConfigMap) :=
  shardRetry 5 store name rendered (cache !! name).

(** [None] is [nil]: the labels of a ConfigMap the controller may remove. *)
Definition removeLegacyDirectPeerDirectory (cache store : gmap string ConfigMap) : gmap string ConfigMap :=
  match cache !! PeerDirectoryConfigMapName with
  | None => store
  | Some legacy =>
      if bool_decide (CMLabels legacy !! LabelApp = Some Clabernetes)
      then delete PeerDirectoryConfigMapName store else store
  end.

Section publishing.
Context {json : DirectoryJSON}.

Definition renderedShard (labels annotations : gmap string string) (content : string) : ConfigMap :=
  MkConfigMap 0 labels annotations {[ PeerDirectoryConfigMapKey := content ]}.

Definition shardStep (cache : gmap string ConfigMap) (labels annotations : gmap string string)
    (store : gmap string ConfigMap) (shard : nat * string) : result writeError (gmap string ConfigMap) :=
  reconcileDirectPeerDirectoryShard cache store (PeerDirectoryShardConfigMapName shard.1)
    (renderedShard labels annotations shard.2).

Definition reconcileDirectPeerDirectory (cache store : gmap string ConfigMap)
    (globalLabels annotations : gmap string string) (peers : list PeerIdentity) :
    result writeError (gmap string ConfigMap) :=
  let labels := globalLabels ∪ {[ LabelApp := Clabernetes ]} in
  let shards := imap pair (RenderPeerDirectoryShards peers) in
  let? store := rfold (shardStep cache labels annotations) store shards in
  Ok (removeLegacyDirectPeerDirectory cache store).

(** The Nodes are gone: the existing shards are emptied, and none is created.  [listed] is what
    the list of labelled ConfigMaps returned. *)
Definition clearStep (cache : gmap string ConfigMap) (existing : string * ConfigMap)
    (store : gmap string ConfigMap) (shard : nat * string) : result writeError (gmap string ConfigMap) :=
  if negb (bool_decide (existing.1 = PeerDirectoryShardConfigMapName shard.1)) then Ok store
  else reconcileDirectPeerDirectoryShard cache store existing.1
         (existing.2 <| CMData := {[ PeerDirectoryConfigMapKey := shard.2 ]} |>).

Definition clearEmptyPeerDirectory (cache store : gmap string ConfigMap)
    (listed : list (string * ConfigMap)) : result writeError (gmap string ConfigMap) :=
  let shards := imap pair (RenderPeerDirectoryShards []) in
  rfold (λ store existing, rfold (clearStep cache existing) store shards) store
    (filter (λ existing, CMLabels existing.2 !! LabelApp = Some Clabernetes) listed).

(** ** Namespaces with several policies *)

Context {sha : Sha256} {quote : FmtQuote} {order : RangeOrder string}.

(** What is known about a Node's policy: its profile is not there yet, or the policy of its
    profile (of the defaults without one), with the JSON that identifies it. *)
Inductive nodePolicy := missingProfile | hasPolicy (key : string) (policy : option ManagementPolicy).

(** The loop over the Nodes: the distinct policies, and the policy of every Node. *)
Definition namespacePolicyStep (policyOf : string → nodePolicy)
    (state : gmap string (option ManagementPolicy) * gmap string string) (entry : string * mgmtNode) :
    gmap string (option ManagementPolicy) * gmap string string :=
  match policyOf entry.1 with
  | missingProfile => state
  | hasPolicy key policy => (<[key := policy]> state.1, <[entry.1 := key]> state.2)
  end.

Definition namespacePeers (nodesByName : gmap string mgmtNode) (policyOf : string → nodePolicy)
    (pods : gmap string string) : list PeerIdentity :=
  let state := foldl (namespacePolicyStep policyOf) (∅, ∅) (range_list nodesByName) in
  range_list state.1 ≫= λ entry,
    filter (λ peer, default "" (state.2 !! PeerName peer) = entry.1)
      (compileNamespaceManagementIdentities nodesByName entry.2 pods).

Definition reconcileNamespacePeerDirectory (cache store : gmap string ConfigMap)
    (globalLabels annotations : gmap string string) (nodesByName : gmap string mgmtNode)
    (policyOf : string → nodePolicy) (pods : list dirPod) : result writeError (gmap string ConfigMap) :=
  if bool_decide (nodesByName = ∅)
  then clearEmptyPeerDirectory cache store (range_list cache)
  else reconcileDirectPeerDirectory cache store globalLabels annotations
    (namespacePeers nodesByName policyOf (directPodAddressesByNodeUID pods)).
End publishing.

(** ** The sidecar's memo of the mounted directory *)

Record peerDirectoryReader := MkReader {
  fingerprint : string;
  readerPeers : list PeerIdentity;
  loaded : bool
}.

(** [load]: what is returned and the new state, given the current fingerprint of the files and
    what reading them gives. *)
Definition load (r : peerDirectoryReader) (current : string) (read : list PeerIdentity * list string) :
    list PeerIdentity * bool * peerDirectoryReader :=
  if loaded r && bool_decide (current = fingerprint r) then (readerPeers r, false, r)
  else if negb (bool_decide (read.2 = [])) && loaded r
  then (readerPeers r, false, MkReader current (readerPeers r) (loaded r))
  else (read.1, true, MkReader current read.1 true).

(** ** Newest Pods *)

Definition eligible (pod : dirPod) : Prop :=
  DirPodNodeUID pod ≠ "" ∧ DirPodDeleting pod = false ∧ DirPodIP pod ≠ "".

Lemma newestStep_cases newest pod :
  (¬ eligible pod ∧ newestStep newest pod = newest) ∨
  (eligible pod ∧
   ((newestStep newest pod = <[DirPodNodeUID pod := pod]> newest ∧
      ∀ q, newest !! DirPodNodeUID pod = Some q → DirPodCreated q < DirPodCreated pod) ∨
    (newestStep newest pod = newest ∧
      ∃ q, newest !! DirPodNodeUID pod = Some q ∧ DirPodCreated pod <= DirPodCreated q))).
Proof.
  unfold newestStep, eligible. destruct (decide (DirPodNodeUID pod = "")) as [?|Hu].
  { left. rewrite bool_decide_eq_true_2 by done. naive_solver. }
  rewrite (bool_decide_eq_false_2 (DirPodNodeUID pod = "")) by done. cbn [orb].
  destruct (DirPodDeleting pod); [left; naive_solver|]. cbn [orb].
  case_bool_decide as Hip; [left; naive_solver|]. right. split; [done|].
  destruct (newest !! DirPodNodeUID pod) as [q|] eqn:E; [|left; naive_solver].
  destruct (Z.ltb_spec (DirPodCreated q) (DirPodCreated pod)); [left|right]; naive_solver.
Qed.

(** The entry of a Node is an eligible Pod of it, and no eligible Pod of it is newer; a Node
    has no entry only without eligible Pods. *)
Definition newestOf (pods : list dirPod) (newest : gmap string dirPod) : Prop :=
  (∀ uid q, newest !! uid = Some q →
     q ∈ pods ∧ eligible q ∧ DirPodNodeUID q = uid ∧
     ∀ p, p ∈ pods → eligible p → DirPodNodeUID p = uid → DirPodCreated p <= DirPodCreated q) ∧
  (∀ p, p ∈ pods → eligible p → is_Some (newest !! DirPodNodeUID p)).

Lemma newestOf_step pods newest pod :
  newestOf pods newest → newestOf (pods ++ [pod]) (newestStep newest pod).
Proof.
  intros [Hin Hall].
  destruct (newestStep_cases newest pod) as [[Hne ->]|[He [[-> Hlt]|(-> & q & Hq & Hle)]]].
  - split.
    + intros uid q Hq. destruct (Hin uid q Hq) as (H1 & H2 & H3 & H4).
      split_and!; [set_solver|done|done|]. intros p [?|Hp%list_elem_of_singleton]%elem_of_app Hep; [by apply H4|].
      by subst.
    + intros p [?|Hp%list_elem_of_singleton]%elem_of_app Hep; [by apply Hall|by subst].
  - split.
    + intros uid q [[<- <-]|[Hne Hq]]%lookup_insert_Some.
      * split_and!; [set_solver|done|done|].
        intros p [Hp|Hp%list_elem_of_singleton]%elem_of_app Hep Hu; [|subst; lia].
        destruct (Hall p Hp Hep) as [q Hq]. rewrite Hu in Hq.
        destruct (Hin _ q Hq) as (_ & _ & _ & Hmax). specialize (Hmax p Hp Hep Hu).
        specialize (Hlt q Hq). lia.
      * destruct (Hin uid q Hq) as (H1 & H2 & H3 & H4). split_and!; [set_solver|done|done|].
        intros p [?|Hp%list_elem_of_singleton]%elem_of_app Hep Hu; [by apply H4|]. by subst.
    + intros p [Hp|Hp%list_elem_of_singleton]%elem_of_app Hep.
      * destruct (decide (DirPodNodeUID pod = DirPodNodeUID p)) as [->|].
        -- rewrite lookup_insert_eq. eauto.
        -- rewrite lookup_insert_ne by done. by apply Hall.
      * subst. rewrite lookup_insert_eq. eauto.
  - split.
    + intros uid q' Hq'. destruct (Hin uid q' Hq') as (H1 & H2 & H3 & H4).
      split_and!; [set_solver|done|done|].
      intros p [?|Hp%list_elem_of_singleton]%elem_of_app Hep Hu; [by apply H4|]. subst. congruence || (simplify_eq; lia).
    + intros p [?|Hp%list_elem_of_singleton]%elem_of_app Hep; [by apply Hall|]. subst. eauto.
Qed.

Lemma newestOf_foldl pods : newestOf pods (foldl newestStep ∅ pods).
Proof.
  induction pods as [|pod pods IH] using rev_ind.
  - cbn [foldl]. split; [intros uid q; by rewrite lookup_empty|]. intros p Hp. by apply elem_of_nil in Hp.
  - rewrite foldl_app. by apply newestOf_step.
Qed.

(** ** Converging shards *)

Definition published (store : gmap string ConfigMap) (name : string) (rendered : ConfigMap) : Prop :=
  ∃ c, store !! name = Some c ∧ shardConforms c rendered = true.

(** What the cache of an API server may say about an object: a version that exists or existed,
    where an entry that makes the writer believe the work is done is current. *)
Definition usableCache (cache store : gmap string ConfigMap) (name : string) (rendered : ConfigMap) : Prop :=
  ∀ cached, cache !! name = Some cached →
    ∃ current, store !! name = Some current ∧
      (CMVersion cached = CMVersion current → cached = current) ∧
      (shardConforms cached rendered = true → cached = current).

Lemma updated_conforms existing rendered version :
  shardConforms (existing <| CMData := CMData rendered |>
                   <| CMLabels := CMLabels rendered ∪ CMLabels existing |> <| CMVersion := version |>) rendered = true.
Proof.
  unfold shardConforms. cbn. rewrite bool_decide_eq_true_2 by done. cbn [andb].
  apply contains_all_spec. apply map_union_subseteq_l.
Qed.

Lemma rendered_conforms rendered version : shardConforms (rendered <| CMVersion := version |>) rendered = true.
Proof. unfold shardConforms. cbn. rewrite bool_decide_eq_true_2 by done. cbn [andb]. by apply contains_all_spec. Qed.

(** An attempt on the current object succeeds, publishes, and touches nothing else. *)
Definition attemptDone (store store' : gmap string ConfigMap) (name : string) (rendered : ConfigMap) : Prop :=
  published store' name rendered ∧ ∀ other, other ≠ name → store' !! other = store !! other.

Lemma shardAttempt_current store name rendered :
  ∃ store', shardAttempt store name rendered (store !! name) = Ok store' ∧ attemptDone store store' name rendered.
Proof.
  unfold shardAttempt, createConfigMap, updateConfigMap, attemptDone, published.
  destruct (store !! name) as [c|] eqn:E.
  - destruct (shardConforms c rendered) eqn:Hc; [by eauto 6|]. cbn. rewrite Z.eqb_refl. eexists. split; [done|]. split.
    + rewrite lookup_insert_eq. eexists. split; [done|]. apply updated_conforms.
    + intros other Ho. by rewrite lookup_insert_ne.
  - eexists. split; [done|]. split.
    + rewrite lookup_insert_eq. eexists. split; [done|]. apply rendered_conforms.
    + intros other Ho. by rewrite lookup_insert_ne.
Qed.

(** An attempt on a usable cache entry does the same or fails with a retriable error. *)
Lemma shardAttempt_cached cache store name rendered :
  usableCache cache store name rendered →
  (∃ store', shardAttempt store name rendered (cache !! name) = Ok store' ∧ attemptDone store store' name rendered) ∨
  (∃ e, shardAttempt store name rendered (cache !! name) = Err e ∧ retriable e = true).
Proof.
  intros Hu. destruct (cache !! name) as [cached|] eqn:E.
  - destruct (Hu _ E) as (current & Hc & Hv & Hok). destruct (decide (cached = current)) as [->|Hne].
    { left. rewrite <- Hc. apply shardAttempt_current. }
    right. unfold shardAttempt. destruct (shardConforms cached rendered) eqn:Hs; [by destruct Hne; auto|].
    unfold updateConfigMap. rewrite Hc. cbn. destruct (Z.eqb_spec (CMVersion current) (CMVersion cached)); [|by eauto].
    destruct Hne. auto.
  - destruct (store !! name) as [current|] eqn:Hc.
    + right. cbn. unfold createConfigMap. rewrite Hc. eauto.
    + left. rewrite <- Hc. apply shardAttempt_current.
Qed.

Lemma shard_converges cache store name rendered :
  usableCache cache store name rendered →
  ∃ store', reconcileDirectPeerDirectoryShard cache store name rendered = Ok store' ∧
    attemptDone store store' name rendered.
Proof.
  intros Hu. unfold reconcileDirectPeerDirectoryShard. cbn [shardRetry].
  destruct (shardAttempt_cached _ _ _ _ Hu) as [(store' & -> & Hd)|(e & -> & ->)]; [by eauto|]. cbn [andb negb Nat.eqb].
  destruct (shardAttempt_current store name rendered) as (store' & -> & Hd). eauto.
Qed.

Lemma shard_unchanged store name rendered :
  published store name rendered → reconcileDirectPeerDirectoryShard store store name rendered = Ok store.
Proof.
  intros (c & Hc & Hok). unfold reconcileDirectPeerDirectoryShard. cbn [shardRetry]. unfold shardAttempt.
  by rewrite Hc, Hok.
Qed.

Section passes.
Context {json : DirectoryJSON}.

Definition shardName (shard : nat * string) : string := PeerDirectoryShardConfigMapName shard.1.

Lemma shards_converge cache labels annotations shards : ∀ store,
  NoDup (shardName <$> shards) →
  (∀ shard, shard ∈ shards → usableCache cache store (shardName shard) (renderedShard labels annotations shard.2)) →
  ∃ store', rfold (shardStep cache labels annotations) store shards = Ok store' ∧
    (∀ shard, shard ∈ shards → published store' (shardName shard) (renderedShard labels annotations shard.2)) ∧
    ∀ other, other ∉ shardName <$> shards → store' !! other = store !! other.
Proof.
  induction shards as [|shard shards IH]; intros store Hnd Hu.
  { exists store. split_and!; [done| |done]. intros ? []%elem_of_nil. }
  rewrite fmap_cons in Hnd. apply NoDup_cons in Hnd as [Hnew Hnd].
  destruct (shard_converges cache store (shardName shard) (renderedShard labels annotations shard.2)) as (store1 & Hs & Hp & Ho).
  { apply Hu. by left. }
  destruct (IH store1 Hnd) as (store' & Hf & Hps & Hos).
  { intros s Hs' cached Hcached. rewrite Ho; [by apply (Hu s); [right|]|].
    intros Heq. apply Hnew. rewrite <- Heq. by apply list_elem_of_fmap_2. }
  exists store'. cbn [rfold]. unfold shardStep at 1. fold (shardName shard). rewrite Hs. split_and!; [done| |].
  - intros s [->|Hin]%elem_of_cons; [|by apply Hps].
    destruct Hp as (c & Hc & Hok). exists c. by rewrite Hos.
  - intros other Hn. rewrite fmap_cons, not_elem_of_cons in Hn. destruct Hn. by rewrite Hos, Ho.
Qed.

Lemma shards_unchanged labels annotations store shards :
  (∀ shard, shard ∈ shards → published store (shardName shard) (renderedShard labels annotations shard.2)) →
  rfold (shardStep store labels annotations) store shards = Ok store.
Proof.
  induction shards as [|shard shards IH]; intros Hp; [done|]. cbn [rfold]. unfold shardStep at 1. fold (shardName shard).
  rewrite (shard_unchanged store _ _ (Hp shard (list_elem_of_here _ _))). apply IH. intros s Hs. apply Hp. by right.
Qed.

Definition publishLabels (globalLabels : gmap string string) : gmap string string :=
  globalLabels ∪ {[ LabelApp := Clabernetes ]}.

(** The projected volume of the shard ConfigMaps. *)
Definition projects (root : string) (store : gmap string ConfigMap) (readFile : string → fileRead) : Prop :=
  (∀ shard, (shard < PeerDirectoryShardCount)%nat →
    readFile (shardPath root shard) =
      match store !! PeerDirectoryShardConfigMapName shard ≫= λ c, CMData c !! PeerDirectoryConfigMapKey with
      | Some content => fileContent content
      | None => notExist
      end) ∧
  readFile (root +:+ "/" +:+ PeerDirectoryConfigMapKey) = notExist.

Lemma elem_of_shards peers shard content :
  (shard, content) ∈ imap pair (RenderPeerDirectoryShards peers) ↔ RenderPeerDirectoryShards peers !! shard = Some content.
Proof.
  rewrite elem_of_lookup_imap. split.
  - intros (i & x & Heq & Hl). by simplify_eq.
  - intros Hl. eauto.
Qed.

Lemma shardNames_spec peers :
  shardName <$> imap pair (RenderPeerDirectoryShards peers) = PeerDirectoryShardConfigMapName <$> seq 0 PeerDirectoryShardCount.
Proof. reflexivity. Qed.

Lemma shardNames_NoDup : NoDup (PeerDirectoryShardConfigMapName <$> seq 0 PeerDirectoryShardCount).
Proof. apply (bool_decide_unpack _). by vm_compute. Qed.

Lemma legacy_no_shard : PeerDirectoryConfigMapName ∉ PeerDirectoryShardConfigMapName <$> seq 0 PeerDirectoryShardCount.
Proof. apply (bool_decide_unpack _). by vm_compute. Qed.

Lemma removeLegacy_cases cache store other :
  removeLegacyDirectPeerDirectory cache store !! other = store !! other ∨
  (other = PeerDirectoryConfigMapName ∧ removeLegacyDirectPeerDirectory cache store !! other = None ∧
   ∃ legacy, cache !! other = Some legacy ∧ CMLabels legacy !! LabelApp = Some Clabernetes).
Proof.
  unfold removeLegacyDirectPeerDirectory.
  destruct (cache !! PeerDirectoryConfigMapName) as [legacy|] eqn:E; [|by left].
  case_bool_decide; [|by left]. destruct (decide (other = PeerDirectoryConfigMapName)) as [->|].
  - right. rewrite lookup_delete_eq. eauto.
  - left. by rewrite lookup_delete_ne.
Qed.

Lemma removeLegacy_other cache store other :
  other ≠ PeerDirectoryConfigMapName → removeLegacyDirectPeerDirectory cache store !! other = store !! other.
Proof. intros. destruct (removeLegacy_cases cache store other); naive_solver. Qed.

Lemma published_content store name labels annotations content :
  content ≠ "" → published store name (renderedShard labels annotations content) →
  ∃ c, store !! name = Some c ∧ CMData c !! PeerDirectoryConfigMapKey = Some content ∧ labels ⊆ CMLabels c.
Proof.
  intros Hne (c & Hc & Hok). exists c. split; [done|]. unfold shardConforms in Hok. bool_to_prop.
  unfold renderedShard in *. cbn [CMData CMLabels] in *. rewrite lookup_singleton_eq in *.
  split; [|by apply contains_all_spec]. destruct (CMData c !! PeerDirectoryConfigMapKey); cbn in *; congruence.
Qed.

Lemma rendered_nonempty peers shard content :
  RenderPeerDirectoryShards peers !! shard = Some content → content ≠ "".
Proof.
  unfold RenderPeerDirectoryShards. intros (i & -> & _)%list_lookup_fmap_Some. apply directory_json_nonempty.
Qed.

(** Publishing converges.  Over a cache that may lag behind the API server, a pass ends
    without an error; then every shard ConfigMap holds the rendered shard and the labels, no
    ConfigMap other than the shards and the legacy directory was touched, the legacy directory
    is removed only when it carries the controller's label, a second pass writes no shard, and a Pod
    that has the shards mounted reads exactly the published peers, sorted by name. *)
Theorem peer_directory_published cache store globalLabels annotations peers :
  Forall (λ p, cloneJSON p = p) peers → NoDup (PeerName <$> peers) → Forall (λ p, PeerName p ≠ "") peers →
  (∀ shard content, RenderPeerDirectoryShards peers !! shard = Some content →
     usableCache cache store (PeerDirectoryShardConfigMapName shard)
       (renderedShard (publishLabels globalLabels) annotations content)) →
  ∃ store', reconcileDirectPeerDirectory cache store globalLabels annotations peers = Ok store' ∧
    (∀ shard content, RenderPeerDirectoryShards peers !! shard = Some content →
       ∃ c, store' !! PeerDirectoryShardConfigMapName shard = Some c ∧
         CMData c !! PeerDirectoryConfigMapKey = Some content ∧ publishLabels globalLabels ⊆ CMLabels c) ∧
    (∀ other, other ∉ PeerDirectoryShardConfigMapName <$> seq 0 PeerDirectoryShardCount →
       store' !! other = store !! other ∨
       (other = PeerDirectoryConfigMapName ∧ store' !! other = None ∧
        ∃ legacy, cache !! other = Some legacy ∧ CMLabels legacy !! LabelApp = Some Clabernetes)) ∧
    reconcileDirectPeerDirectory store' store' globalLabels annotations peers =
      Ok (removeLegacyDirectPeerDirectory store' store') ∧
    ∀ root readFile, projects root store' readFile →
      ReadPeerDirectory root readFile = (sort_by PeerName peers, []).
Proof.
  intros Hclone Hnd Hne Hu. unfold reconcileDirectPeerDirectory. fold (publishLabels globalLabels).
  destruct (shards_converge cache (publishLabels globalLabels) annotations (imap pair (RenderPeerDirectoryShards peers)) store)
    as (store1 & Hf & Hp & Ho).
  { rewrite shardNames_spec. apply shardNames_NoDup. }
  { intros [shard content] Hs%elem_of_shards. by apply Hu. }
  rewrite shardNames_spec in Ho. rewrite Hf. cbn [rbind]. eexists. split; [done|].
  set (store' := removeLegacyDirectPeerDirectory cache store1).
  assert (∀ other, other ≠ PeerDirectoryConfigMapName → store' !! other = store1 !! other) as Hrm.
  { intros other Hother. by apply removeLegacy_other. }
  assert (∀ shard, shard ∈ imap pair (RenderPeerDirectoryShards peers) →
    published store' (shardName shard) (renderedShard (publishLabels globalLabels) annotations shard.2)) as Hp'.
  { intros shard Hs. destruct (Hp shard Hs) as (c & Hc & Hok). exists c. split; [|done]. rewrite Hrm; [done|].
    intros Heq. apply legacy_no_shard. rewrite <- Heq, <- (shardNames_spec peers). by apply list_elem_of_fmap_2. }
  assert (∀ shard content, RenderPeerDirectoryShards peers !! shard = Some content →
    ∃ c, store' !! PeerDirectoryShardConfigMapName shard = Some c ∧
         CMData c !! PeerDirectoryConfigMapKey = Some content ∧ publishLabels globalLabels ⊆ CMLabels c) as Hcontent.
  { intros shard content Hs. eapply published_content; [by eapply rendered_nonempty|].
    apply (Hp' (shard, content)). by apply elem_of_shards. }
  split_and!.
  - done.
  - intros other Hother. rewrite <- (Ho other Hother). apply removeLegacy_cases.
  - rewrite shards_unchanged by done. done.
  - intros root readFile [Hfiles Hlegacy]. rewrite (read_spec root peers (λ _, true)); [|done..|].
    + by rewrite list_filter_all by done.
    + split; [|done]. intros shard Hs. rewrite Hfiles by done.
      destruct (RenderPeerDirectoryShards peers !! shard) as [content|] eqn:Hc.
      * destruct (Hcontent _ _ Hc) as (c & -> & Hd & _). cbn. by rewrite Hd.
      * apply lookup_ge_None in Hc. unfold RenderPeerDirectoryShards in Hc. rewrite length_fmap, length_seq in Hc. lia.
Qed.
End passes.

(** A namespace with an outdated first shard, which the cache shows in a still older version. *)
Definition oldShard (version : Z) : ConfigMap :=
  MkConfigMap version {[ LabelApp := Clabernetes ]} ∅ {[ PeerDirectoryConfigMapKey := "old" ]}.
Definition staleStore : gmap string ConfigMap :=
  {[ PeerDirectoryShardConfigMapName 0 := oldShard 4; PeerDirectoryConfigMapName := oldShard 2 ]}.
Definition staleCache : gmap string ConfigMap :=
  {[ PeerDirectoryShardConfigMapName 0 := oldShard 3; PeerDirectoryConfigMapName := oldShard 2 ]}.

Lemma peer_directory_published_witness :
  ∃ store', reconcileDirectPeerDirectory (json := example_json) staleCache staleStore ∅ ∅ twoPeers = Ok store' ∧
    store' !! PeerDirectoryConfigMapName = None ∧
    ∀ root readFile, projects root store' readFile →
      ReadPeerDirectory (json := example_json) root readFile = (sort_by PeerName twoPeers, []).
Proof.
  destruct (peer_directory_published (json := example_json) staleCache staleStore ∅ ∅ twoPeers) as (store' & Hr & _ & _ & _ & Hread).
  - by repeat constructor.
  - apply (bool_decide_unpack _). by vm_compute.
  - by repeat constructor.
  - intros shard content Hc cached Hcached.
    assert (shard = 0%nat) as ->.
    { apply lookup_lt_Some in Hc. do 8 (destruct shard as [|shard]; [done || by vm_compute in Hcached|]).
      exfalso. unfold RenderPeerDirectoryShards in Hc. rewrite length_fmap, length_seq in Hc.
      unfold PeerDirectoryShardCount in Hc. lia. }
    exists (oldShard 4). vm_compute in Hc. vm_compute in Hcached. injection Hcached as <-. injection Hc as <-.
    split; [by vm_compute|]. by split; vm_compute.
  - exists store'. split; [done|]. split; [|done].
    assert (match reconcileDirectPeerDirectory (json := example_json) staleCache staleStore ∅ ∅ twoPeers with
            | Ok store => store !! PeerDirectoryConfigMapName | Err _ => None end = None) as Hgone by (by vm_compute).
    by rewrite Hr in Hgone.
Defined.
