(* ===== verification/GoSort.v ===== *)
(** * Go's sorting

    [slices.SortFunc] as its documentation describes it: the result is a permutation of the
    elements, in the order of the comparison function; elements that compare equal may end up
    in any order.  Results that have no such elements do not depend on the implementation. *)

From S2P Require Import Prelude.
Local Open Scope Z_scope.

(** [strings.Compare]. *)
Definition Compare (a b : string) : Z :=
  match String.compare a b with Lt => -1 | Eq => 0 | Gt => 1 end.

(** The contract of comparison functions: a strict weak ordering. *)
Record weak_order {A} (cmp : A → A → Z) : Prop := {
  wo_flip : ∀ a b, cmp a b ≤ 0 ↔ 0 ≤ cmp b a;
  wo_trans : ∀ a b c, cmp a b ≤ 0 → cmp b c ≤ 0 → cmp a c ≤ 0
}.

Class GoSort : Type := {
  SortFunc : ∀ {A : Type}, (A → A → Z) → list A → list A;
  SortFunc_perm : ∀ {A} (cmp : A → A → Z) l, SortFunc cmp l ≡ₚ l;
  SortFunc_sorted : ∀ {A} (cmp : A → A → Z) l, weak_order cmp → StronglySorted (λ a b, cmp a b ≤ 0) (SortFunc cmp l)
}.

(** Only equal elements compare equal. *)
Definition no_ties {A} (cmp : A → A → Z) (l : list A) : Prop :=
  ∀ a b, a ∈ l → b ∈ l → cmp a b = 0 → a = b.

Lemma wo_tie {A} (cmp : A → A → Z) a b : weak_order cmp → cmp a b ≤ 0 → cmp b a ≤ 0 → cmp a b = 0.
Proof. intros H H1 H2. apply (wo_flip _ H) in H2. lia. Qed.

Lemma no_ties_perm {A} (cmp : A → A → Z) l l' : l ≡ₚ l' → no_ties cmp l → no_ties cmp l'.
Proof. intros Hp H a b Ha Hb. rewrite <- Hp in Ha, Hb. by apply H. Qed.

Section sorting.
Context {sort : GoSort}.

Lemma SortFunc_unique {A} (cmp : A → A → Z) (l l' : list A) :
  weak_order cmp → no_ties cmp l → StronglySorted (λ a b, cmp a b ≤ 0) l' → l ≡ₚ l' → SortFunc cmp l = l'.
Proof.
  intros Hw Ht Hs Hp. eapply (StronglySorted_unique_strong (λ a b, cmp a b ≤ 0)); [|by apply SortFunc_sorted|done|].
  - intros a b Ha Hb H1 H2. rewrite SortFunc_perm in Ha. rewrite <- Hp in Hb.
    apply Ht; [done..|]. by apply wo_tie.
  - by rewrite SortFunc_perm.
Qed.

Lemma SortFunc_perm_eq {A} (cmp : A → A → Z) (l l' : list A) :
  weak_order cmp → no_ties cmp l → l ≡ₚ l' → SortFunc cmp l = SortFunc cmp l'.
Proof.
  intros Hw Ht Hp. apply SortFunc_unique; [done..|by apply SortFunc_sorted|]. by rewrite SortFunc_perm.
Qed.

Lemma SortFunc_idem {A} (cmp : A → A → Z) (l : list A) :
  weak_order cmp → no_ties cmp l → SortFunc cmp (SortFunc cmp l) = SortFunc cmp l.
Proof.
  intros Hw Ht. apply SortFunc_unique; [done| |by apply SortFunc_sorted|done].
  eapply no_ties_perm; [|done]. by rewrite SortFunc_perm.
Qed.
End sorting.

(** ** Comparison functions *)

(** The second comparison decides where the first sees no difference. *)
Definition thenBy {A} (first second : A → A → Z) (a b : A) : Z :=
  if first a b =? 0 then second a b else first a b.
Definition onKey {A K} (key : A → K) (cmp : K → K → Z) (a b : A) : Z := cmp (key a) (key b).
(** [if left < right { return -1 }; if left > right { return 1 }]. *)
Definition compareInt (a b : Z) : Z := if a <? b then -1 else if b <? a then 1 else 0.

Lemma compareInt_le a b : compareInt a b ≤ 0 ↔ a ≤ b.
Proof. unfold compareInt. destruct (Z.ltb_spec a b), (Z.ltb_spec b a); lia. Qed.
Lemma compareInt_ge a b : 0 ≤ compareInt a b ↔ b ≤ a.
Proof. unfold compareInt. destruct (Z.ltb_spec a b), (Z.ltb_spec b a); lia. Qed.

Lemma compareInt_wo : weak_order compareInt.
Proof. constructor; intros *; rewrite ?compareInt_le, ?compareInt_ge; lia. Qed.

Lemma compareInt_zero a b : compareInt a b = 0 → a = b.
Proof. intros H. pose proof (compareInt_le a b). pose proof (compareInt_ge a b). lia. Qed.

Lemma sub_wo : weak_order Z.sub.
Proof. constructor; lia. Qed.

Lemma Compare_le a b : Compare a b ≤ 0 ↔ String.le a b.
Proof.
  unfold Compare, String.le, String.leb. destruct (String.compare a b) eqn:E; cbn; split; intros; try lia; done.
Qed.

Lemma Compare_zero a b : Compare a b = 0 ↔ a = b.
Proof.
  split.
  - unfold Compare. destruct (String.compare a b) eqn:E; [|lia..]. intros _. by apply String.compare_eq_iff.
  - intros ->. unfold Compare. by rewrite str_compare_refl.
Qed.

Lemma Compare_flip a b : Compare b a = - Compare a b.
Proof. unfold Compare. rewrite String.compare_antisym. by destruct (String.compare a b). Qed.

Lemma Compare_wo : weak_order Compare.
Proof.
  constructor.
  - intros a b. rewrite (Compare_flip a b). lia.
  - intros a b c. rewrite !Compare_le. apply (transitivity (R := String.le)).
Qed.

Lemma onKey_wo {A K} (key : A → K) (cmp : K → K → Z) : weak_order cmp → weak_order (onKey key cmp).
Proof. intros H. constructor; intros *; [apply H|apply H]. Qed.

Lemma thenBy_wo {A} (first second : A → A → Z) :
  weak_order first → weak_order second → weak_order (thenBy first second).
Proof.
  intros [F1 T1] [F2 T2]. unfold thenBy. constructor.
  - intros a b. pose proof (F1 a b). pose proof (F1 b a). pose proof (F2 a b).
    destruct (Z.eqb_spec (first a b) 0), (Z.eqb_spec (first b a) 0); lia.
  - intros a b c. pose proof (F1 a b). pose proof (F1 b a). pose proof (F1 b c). pose proof (F1 c b).
    pose proof (F1 a c). pose proof (F1 c a). pose proof (T1 a b c). pose proof (T1 b c a). pose proof (T1 c a b).
    pose proof (T2 a b c).
    destruct (Z.eqb_spec (first a b) 0), (Z.eqb_spec (first b c) 0), (Z.eqb_spec (first a c) 0); lia.
Qed.

Lemma thenBy_zero {A} (first second : A → A → Z) a b :
  thenBy first second a b = 0 → first a b = 0 ∧ second a b = 0.
Proof. unfold thenBy. destruct (Z.eqb_spec (first a b) 0); [done|]. lia. Qed.

Create HintDb weak_orders.
#[export] Hint Resolve compareInt_wo sub_wo Compare_wo onKey_wo thenBy_wo : weak_orders.

(** An instance: insertion sort, which is what Go uses for short slices. *)
Fixpoint insertSorted {A} (cmp : A → A → Z) (x : A) (l : list A) : list A :=
  match l with
  | [] => [x]
  | y :: l => if cmp x y <=? 0 then x :: y :: l else y :: insertSorted cmp x l
  end.
Definition insertionSort {A} (cmp : A → A → Z) (l : list A) : list A := foldr (insertSorted cmp) [] l.

Lemma insertSorted_perm {A} (cmp : A → A → Z) x l : insertSorted cmp x l ≡ₚ x :: l.
Proof.
  induction l as [|y l IH]; [done|]. cbn. destruct (_ <=? _); [done|]. rewrite IH. apply Permutation_swap.
Qed.

Lemma insertionSort_perm {A} (cmp : A → A → Z) l : insertionSort cmp l ≡ₚ l.
Proof. induction l as [|x l IH]; [done|]. cbn. by rewrite insertSorted_perm, IH. Qed.

Lemma insertSorted_sorted {A} (cmp : A → A → Z) x l :
  weak_order cmp → StronglySorted (λ a b, cmp a b ≤ 0) l → StronglySorted (λ a b, cmp a b ≤ 0) (insertSorted cmp x l).
Proof.
  intros Hw. induction l as [|y l IH]; intros Hs; [by repeat constructor|]. cbn.
  inversion Hs as [|? ? Hl Hy]; subst. destruct (Z.leb_spec (cmp x y) 0).
  - constructor; [done|]. constructor; [done|]. eapply Forall_impl; [done|]. cbn. intros z Hz. by eapply (wo_trans _ Hw).
  - constructor; [by apply IH|]. rewrite insertSorted_perm. constructor; [|done].
    apply (wo_flip _ Hw). lia.
Qed.

Program Definition insertion_sort : GoSort := {| SortFunc := @insertionSort |}.
Next Obligation. intros. apply insertionSort_perm. Qed.
Next Obligation.
  intros A cmp l Hw. cbn. induction l as [|x l IH]; [constructor|]. by apply insertSorted_sorted.
Qed.
