(* ===== verification/PlanValidation.v ===== *)
(** * Device plans: validation

    Models the checks of [internal/deviceplan/codec.go]: [validatePlan] with everything it
    calls, loop for loop, and the structured errors of [internal/deviceplan/error.go].  A loop
    over a slice is [rfold] over its indexed elements; the maps it fills are the state. *)

From S2P Require Import Prelude Api GoStrings GoNet GoSort DevicePlanTypes.
Local Open Scope Z_scope.

(** ** Errors *)

(** [Error]; the cause, which is only unwrapped, is left out. *)
Record PlanError := MkPlanError {
  Error_Code : string;
  Error_NodeID : string;
  Error_Field : string;
  Error_Behavior : string;
  Error_Message : string
}.
#[export] Instance PlanError_eq_dec : EqDecision PlanError.
Proof. solve_decision. Defined.

Definition ErrorText (e : PlanError) : string :=
  "device planning " +:+ Error_Code e
  +:+ (if bool_decide (Error_NodeID e = "") then "" else " for Node " +:+ Error_NodeID e)
  +:+ (if bool_decide (Error_Field e = "") then "" else " at " +:+ Error_Field e)
  +:+ (if bool_decide (Error_Behavior e = "") then "" else " (" +:+ Error_Behavior e +:+ ")")
  +:+ (if bool_decide (Error_Message e = "") then "" else ": " +:+ Error_Message e).

Definition planningError (code field message : string) : PlanError := MkPlanError code "" field "" message.

(** [if condition { return planningError(...) }]. *)
Definition refuse (condition : bool) (code field message : string) : result PlanError unit :=
  if condition then Err (planningError code field message) else Ok ().

Notation "m ;;? k" := (rbind m (λ _, k)) (at level 100, k at level 200, right associativity) : c9s_scope.

(** [fmt.Sprintf("%s[%d]", name, index)]. *)
Definition indexed (name : string) (index : nat) : string := name +:+ "[" +:+ Itoa (Z.of_nat index) +:+ "]".

Definition empty (s : string) : bool := bool_decide (s = "").
Definition emptyList {A} (l : list A) : bool := match l with [] => true | _ => false end.
Definition known {A} (m : gmap string A) (k : string) : bool :=
  match m !! k with Some _ => true | None => false end.

(** ** Values *)

Definition sha256DigestLength : nat := 71.
Definition maxGeneratedSymlinkTargetBytes : nat := 4096.
Definition maxVXLANIdentifier : Z := Z.shiftl 1 24 - 1.
Definition protocolTCP : string := "tcp".
Definition protocolUDP : string := "udp".
Definition filesystemTmpfs : string := "tmpfs".

Definition isHexDigit (a : Ascii.ascii) : bool :=
  isDigit a || (Z.leb 97 (code a) && Z.leb (code a) 102) || (Z.leb 65 (code a) && Z.leb (code a) 70).
(** [hex.DecodeString] succeeds. *)
Definition hexDecodes (s : string) : bool := allChars isHexDigit s && Nat.even (String.length s).

Definition validDigest (value : string) : bool :=
  if negb (Nat.eqb (String.length value) sha256DigestLength) || negb (HasPrefix value "sha256:") then false
  else hexDecodes (TrimPrefix value "sha256:").

Definition validPortableOwnership (value : option Z) : bool :=
  match value with None => true | Some v => Z.leb 0 v && Z.ltb v (Z.shiftl 1 31) end.

Definition validPayloadKind (kind : string) : bool :=
  bool_decide (kind ∈ [PayloadConfigMap; PayloadSecret; PayloadURL; PayloadInline]).
Definition validFileSourceKind (kind : string) : bool :=
  bool_decide (kind ∈ [FileSourcePayload; FileSourceGenerator; FileSourceCertificate; FileSourceEmpty]).
Definition validVolumeKind (kind : string) : bool :=
  bool_decide (kind ∈ [VolumeArtifacts; VolumeEmptyDir; VolumeConfigMap; VolumeSecret; VolumePersistent; VolumeDevice]).
Definition phases : list string :=
  [PhasePrepare; PhasePreStart; PhaseInterfaceFixup; PhasePostStart; PhaseReadiness; PhaseSave; PhasePostStop].
Definition validActionPhase (phase : string) : bool := bool_decide (phase ∈ phases).
Definition validLinkApplyMode (mode : string) : bool :=
  bool_decide (mode ∈ [LinkApplyLive; LinkApplyRestart; LinkApplyRecreate]).

(** [strings.EqualFold] with a text of letters that only fold among themselves. *)
Definition EqualFold (s t : string) : bool := bool_decide (ToLower s = ToLower t).
Definition nulChar : Ascii.ascii := char 0.
(** [strings.ContainsAny(option, "\x00\n\r")]. *)
Definition containsControl (s : string) : bool :=
  ContainsChar s nulChar || ContainsChar s (char 10) || ContainsChar s (char 13).

(** The header every document starts with. *)
Definition validateHeader (schema : string) (compatibility : Compatibility) : result PlanError unit :=
  refuse (negb (bool_decide (schema = SchemaVersion))) ErrorInvalidInput "schemaVersion" "unsupported schema version" ;;?
  refuse (empty (Compatibility_ContainerlabModule compatibility)
          || empty (Compatibility_ContainerlabVersion compatibility)
          || negb (validDigest (Compatibility_RegistryDigest compatibility))
          || negb (bool_decide (Compatibility_PlanSchemaVersion compatibility = SchemaVersion)))
    ErrorInvalidInput "compatibility" "compatibility identity is incomplete".

Definition uniqueKeyStep (field : string) (seen : gset string) (value : KeyValue) : result PlanError (gset string) :=
  refuse (empty (KeyValue_Name value) || bool_decide (KeyValue_Name value ∈ seen))
    ErrorInvalidInput field "key names must be non-empty and unique" ;;?
  Ok ({[KeyValue_Name value]} ∪ seen).
Definition validateUniqueKeyValues (values : list KeyValue) (field : string) : result PlanError unit :=
  let? _ := rfold (uniqueKeyStep field) ∅ values in Ok ().

Fixpoint duplicatesFrom (seen : gset string) (values : list string) : bool :=
  match values with
  | [] => false
  | value :: values =>
      if empty value || bool_decide (value ∈ seen) then true else duplicatesFrom ({[value]} ∪ seen) values
  end.
Definition hasDuplicates (values : list string) : bool := duplicatesFrom ∅ values.

(** ** The management contract *)

Definition validateManagementMesh (field : string) (mesh : ManagementMesh) : result PlanError unit :=
  refuse (Z.leb (ManagementMesh_TunnelID mesh) 0 || Z.ltb maxVXLANIdentifier (ManagementMesh_TunnelID mesh))
    ErrorInvalidInput (field +:+ ".tunnelID") "mesh tunnel ID is invalid" ;;?
  refuse (bool_decide (ParseMAC (ManagementMesh_GatewayMAC mesh) = None))
    ErrorInvalidInput (field +:+ ".gatewayMAC") "gateway MAC is invalid".

Definition validatePortMap (field : string) (port : ManagementPortMap) : result PlanError unit :=
  refuse ((negb (bool_decide (ManagementPortMap_Protocol port = protocolTCP))
           && negb (bool_decide (ManagementPortMap_Protocol port = protocolUDP)))
          || Z.eqb (ManagementPortMap_PodPort port) 0 || Z.eqb (ManagementPortMap_DevicePort port) 0)
    ErrorInvalidInput (field +:+ ".interposition.inboundPorts") "inbound port map is invalid".

(** A loop whose body only checks. *)
Definition checkEach {A} (check : A → result PlanError unit) (l : list A) : result PlanError unit :=
  rfold (λ _, check) () l.

Definition validateContract (field : string) (item : ManagementPlan) (contract : ManagementInterposition) :
    result PlanError unit :=
  refuse (empty (ManagementInterposition_DeviceInterface contract)
          || Nat.leb 16 (String.length (ManagementInterposition_DeviceInterface contract)))
    ErrorInvalidInput (field +:+ ".interposition") "interposed management requires a valid device interface" ;;?
  refuse (empty (ManagementPlan_IPv4 item) || empty (ManagementPlan_IPv4Gateway item))
    ErrorInvalidInput (field +:+ ".interposition")
    "interposed management requires an allocated IPv4 identity and gateway" ;;?
  refuse (negb (empty (ManagementInterposition_DeviceMAC contract))
          && bool_decide (ParseMAC (ManagementInterposition_DeviceMAC contract) = None))
    ErrorInvalidInput (field +:+ ".interposition.deviceMAC") "device MAC is invalid" ;;?
  checkEach (λ cidr, refuse (bool_decide (ParsePrefix cidr = None)) ErrorInvalidInput
    (field +:+ ".interposition.transportCIDRs") "transport CIDR is invalid")
    (ManagementInterposition_TransportCIDRs contract) ;;?
  checkEach (validatePortMap field) (ManagementInterposition_InboundPorts contract) ;;?
  match ManagementInterposition_Mesh contract with
  | None => Ok ()
  | Some mesh => validateManagementMesh (field +:+ ".interposition.mesh") mesh
  end.

Definition validateManagementInterposition (field : string) (item : ManagementPlan) : result PlanError unit :=
  if negb (bool_decide (ManagementPlan_InterfaceSelector item = ManagementInterfaceInterposed)) then
    refuse (bool_decide (is_Some (ManagementPlan_Interposition item))) ErrorInvalidInput
      (field +:+ ".interposition") "interposition contract requires the Interposed selector"
  else
    match ManagementPlan_Interposition item with
    | None => Err (planningError ErrorInvalidInput (field +:+ ".interposition")
                     "interposed management requires a valid device interface")
    | Some contract => validateContract field item contract
    end.

(** ** Actions *)

Definition present {A} (value : option A) : nat := match value with Some _ => 1 | None => 0 end.

Definition payloads (action : Action) : nat :=
  present (Action_Exec action) + present (Action_File action) + present (Action_WriteStdin action)
  + present (Action_Mount action) + present (Action_Sysctl action) + present (Action_WaitInterface action)
  + present (Action_RenameInterface action) + present (Action_ManagementForwarding action)
  + present (Action_ImportedDeployEndpoints action) + present (Action_ImportedPostDeploy action)
  + present (Action_ImportedReadiness action) + present (Action_Save action).

Definition valueOrEmpty {A} (value : option A) (get : A → string) : string :=
  match value with None => "" | Some value => get value end.

(** The maps of identified parts the actions refer to. *)
Record planIndex := MkPlanIndex {
  ixFiles : gmap string FilePlan;
  ixVolumes : gmap string VolumePlan;
  ixMounts : gmap string MountPlan;
  ixManagement : gmap string ManagementPlan;
  ixInterfaces : gmap string InterfacePlan
}.

Definition regular (file : FilePlan) : bool := bool_decide (FilePlan_ArtifactKind file = ArtifactRegular).

(** The cases of the switch.  No map has an entry for the empty id, so the payload of a
    successful lookup is there: Go does not dereference nil. *)
Definition validFile (ix : planIndex) (action : Action) : bool :=
  match ixFiles ix !! valueOrEmpty (Action_File action) FileAction_FileID, Action_File action with
  | Some file, Some payload =>
      (empty (FileAction_WriteMode payload) || bool_decide (FileAction_WriteMode payload = FileWriteReplace)
       || bool_decide (FileAction_WriteMode payload = FileWriteAppend))
      && (if bool_decide (Action_Phase action = PhasePostStart)
          then negb (empty (FileAction_Destination payload)) && regular file else true)
  | _, _ => false
  end.

Definition validMount (ix : planIndex) (action : Action) : bool :=
  match ixMounts ix !! valueOrEmpty (Action_Mount action) MountAction_MountID, Action_Mount action with
  | Some mount, Some payload =>
      match ixVolumes ix !! MountPlan_VolumeID mount with
      | None => false
      | Some volume =>
          bool_decide (VolumePlan_Kind volume = VolumeEmptyDir) && EqualFold (VolumePlan_Medium volume) "Memory"
          && bool_decide (MountAction_Filesystem payload = filesystemTmpfs)
          && bool_decide (MountAction_Source payload = filesystemTmpfs)
          && bool_decide (Action_Phase action = PhasePreStart)
          && bool_decide (ActionTarget_ContainerID (Action_Target action) = MountPlan_ContainerID mount)
          && forallb (λ option, negb (empty option) && negb (containsControl option)) (MountAction_Options payload)
      end
  | _, _ => false
  end.

Definition validSave (ix : planIndex) (action : Action) : bool :=
  match Action_Save action with
  | None => false
  | Some payload =>
      bool_decide (SaveAction_Method payload = SaveMethodImported)
      && bool_decide (Action_Phase action = PhaseSave)
      && negb (empty (ActionTarget_ContainerID (Action_Target action)))
      && (if empty (SaveAction_FileID payload) then true
          else match ixFiles ix !! SaveAction_FileID payload with Some file => regular file | None => false end)
  end.

(** [None] is the default case. *)
Definition validKind (ix : planIndex) (action : Action) : option bool :=
  let kind := Action_Kind action in
  let target := Action_Target action in
  let inContainer := negb (empty (ActionTarget_ContainerID target)) in
  if bool_decide (kind = ActionExec) then
    Some (match Action_Exec action with Some payload => negb (emptyList (ExecAction_Command payload)) | None => false end)
  else if bool_decide (kind = ActionFile) then Some (validFile ix action)
  else if bool_decide (kind = ActionWriteStdin) then
    Some (match ixFiles ix !! valueOrEmpty (Action_WriteStdin action) WriteStdinAction_FileID with
          | Some file => regular file | None => false end)
  else if bool_decide (kind = ActionMount) then Some (validMount ix action)
  else if bool_decide (kind = ActionSysctl) then
    Some (match Action_Sysctl action with Some payload => negb (empty (SysctlAction_Name payload)) | None => false end)
  else if bool_decide (kind = ActionWaitInterface) then
    Some (known (ixInterfaces ix) (valueOrEmpty (Action_WaitInterface action) WaitInterfaceAction_InterfaceID)
          && match Action_WaitInterface action with
             | Some payload => Z.ltb 0 (WaitInterfaceAction_TimeoutSeconds payload) | None => false end)
  else if bool_decide (kind = ActionRenameInterface) then
    Some (known (ixInterfaces ix) (valueOrEmpty (Action_RenameInterface action) RenameInterfaceAction_InterfaceID)
          && match Action_RenameInterface action with
             | Some payload => negb (empty (RenameInterfaceAction_From payload)) && negb (empty (RenameInterfaceAction_To payload))
             | None => false end)
  else if bool_decide (kind = ActionManagementForwarding) then
    Some (known (ixManagement ix) (valueOrEmpty (Action_ManagementForwarding action) ManagementForwardingAction_ManagementID))
  else if bool_decide (kind = ActionImportedDeployEndpoints) then
    Some (bool_decide (is_Some (Action_ImportedDeployEndpoints action))
          && bool_decide (Action_Phase action = PhaseInterfaceFixup) && inContainer
          && negb (empty (ActionTarget_NamespaceOwnerID target)))
  else if bool_decide (kind = ActionImportedPostDeploy) then
    Some (bool_decide (is_Some (Action_ImportedPostDeploy action))
          && bool_decide (Action_Phase action = PhasePostStart) && inContainer)
  else if bool_decide (kind = ActionImportedReadiness) then
    Some (bool_decide (is_Some (Action_ImportedReadiness action))
          && bool_decide (Action_Phase action = PhaseReadiness) && inContainer)
  else if bool_decide (kind = ActionSave) then Some (validSave ix action)
  else None.

Definition validateActionPayload (ix : planIndex) (action : Action) (field : string) : result PlanError unit :=
  refuse (negb (Nat.eqb (payloads action) 1)) ErrorInvariant field
    "action must contain exactly one typed payload" ;;?
  match validKind ix action with
  | None => Err (planningError ErrorUnsupported (field +:+ ".kind") "action kind is unsupported")
  | Some valid => refuse (negb valid) ErrorInvariant field "typed action payload is incomplete or mismatched"
  end.

(** ** The loops of [validatePlan] *)

Definition nodeStep (nodes : gmap string NodePlan) (entry : nat * NodePlan) : result PlanError (gmap string NodePlan) :=
  let node := entry.2 in
  let field := indexed "nodes" entry.1 in
  refuse (empty (NodePlan_ID node) || empty (NodePlan_Name node) || empty (NodePlan_Kind node)
          || emptyList (NodePlan_ContainerIDs node) || emptyList (NodePlan_ReadinessContainerIDs node))
    ErrorInvalidInput field "logical Node plan is incomplete" ;;?
  refuse (known nodes (NodePlan_ID node)) ErrorInvariant (field +:+ ".id") "Node ID is duplicated" ;;?
  refuse (hasDuplicates (NodePlan_ContainerIDs node) || hasDuplicates (NodePlan_ReadinessContainerIDs node))
    ErrorInvariant field "container references are duplicated" ;;?
  Ok (<[NodePlan_ID node := node]> nodes).

Definition portKey (port : Port) : string := Itoa (Port_Number port) +:+ "/" +:+ Port_Protocol port.

Definition portStep (field : string) (ports : gset string) (entry : nat * Port) : result PlanError (gset string) :=
  let port := entry.2 in
  let portField := indexed (field +:+ ".ports") entry.1 in
  refuse (Z.ltb (Port_Number port) 1 || Z.ltb 65535 (Port_Number port)
          || (negb (bool_decide (Port_Protocol port = "TCP")) && negb (bool_decide (Port_Protocol port = "UDP"))))
    ErrorInvalidInput portField "port number or protocol is invalid" ;;?
  refuse (bool_decide (portKey port ∈ ports)) ErrorInvariant portField "container port is duplicated" ;;?
  Ok ({[portKey port]} ∪ ports).

Definition containerStep (nodes : gmap string NodePlan) (state : gmap string ContainerPlan * gset string)
    (entry : nat * ContainerPlan) : result PlanError (gmap string ContainerPlan * gset string) :=
  let container := entry.2 in
  let field := indexed "containers" entry.1 in
  refuse (empty (ContainerPlan_ID container) || empty (ContainerPlan_RuntimeID container)
          || empty (ContainerPlan_Image container) || empty (ContainerPlan_NamespaceOwnerID container))
    ErrorInvalidInput field "container identity and image are required" ;;?
  refuse (negb (empty (ContainerPlan_ImageDigest container)) && negb (validDigest (ContainerPlan_ImageDigest container)))
    ErrorInvalidInput (field +:+ ".imageDigest") "image digest must be a sha256 digest" ;;?
  refuse (negb (known nodes (ContainerPlan_NodeID container))) ErrorInvariant (field +:+ ".nodeID")
    "references an unknown Node" ;;?
  refuse (known state.1 (ContainerPlan_ID container)) ErrorInvariant (field +:+ ".id") "container ID is duplicated" ;;?
  refuse (bool_decide (ContainerPlan_RuntimeID container ∈ state.2)) ErrorInvariant (field +:+ ".runtimeID")
    "runtime ID is duplicated" ;;?
  validateUniqueKeyValues (ContainerPlan_Environment container) (field +:+ ".environment") ;;?
  validateUniqueKeyValues (ContainerPlan_Labels container) (field +:+ ".labels") ;;?
  validateUniqueKeyValues (SecurityPlan_Sysctls (ContainerPlan_Security container)) (field +:+ ".security.sysctls") ;;?
  (let? _ := rfold (portStep field) ∅ (imap pair (ContainerPlan_Ports container)) in Ok ()) ;;?
  Ok (<[ContainerPlan_ID container := container]> state.1, {[ContainerPlan_RuntimeID container]} ∪ state.2).

Definition ownerStep (containers : gmap string ContainerPlan) (entry : nat * ContainerPlan) : result PlanError unit :=
  refuse (negb (known containers (ContainerPlan_NamespaceOwnerID entry.2))) ErrorInvariant
    (indexed "containers" entry.1 +:+ ".namespaceOwnerID") "references an unknown container".

(** A Node's references: the containers exist and are its own, and readiness is about
    containers of its inventory. *)
Definition referenceStep (containers : gmap string ContainerPlan) (entry : nat * NodePlan) : result PlanError unit :=
  let node := entry.2 in
  checkEach (λ containerID,
    refuse (match containers !! containerID with
            | Some container => negb (bool_decide (ContainerPlan_NodeID container = NodePlan_ID node))
            | None => true
            end)
      ErrorInvariant (indexed "nodes" entry.1 +:+ ".containerIDs") "references a missing or foreign container")
    (NodePlan_ContainerIDs node ++ NodePlan_ReadinessContainerIDs node) ;;?
  checkEach (λ containerID,
    refuse (negb (bool_decide (containerID ∈ (list_to_set (NodePlan_ContainerIDs node) : gset string))))
      ErrorInvariant (indexed "nodes" entry.1 +:+ ".readinessContainerIDs")
      "references a container outside the Node component inventory")
    (NodePlan_ReadinessContainerIDs node).

Definition attributeStep (field : string) (names : gset string) (entry : nat * ExtendedAttribute) :
    result PlanError (gset string) :=
  let attribute := entry.2 in
  refuse (empty (ExtendedAttribute_Name attribute) || Nat.ltb 255 (String.length (ExtendedAttribute_Name attribute))
          || ContainsChar (ExtendedAttribute_Name attribute) nulChar || negb (validDigest (ExtendedAttribute_Digest attribute))
          || bool_decide (ExtendedAttribute_Name attribute ∈ names))
    ErrorInvalidInput (indexed (field +:+ ".extendedAttributes") entry.1) "extended attribute metadata is invalid" ;;?
  Ok ({[ExtendedAttribute_Name attribute]} ∪ names).

(** The artifact was produced by c9s, so that its metadata is known. *)
Definition generated (file : FilePlan) : bool :=
  bool_decide (FilePlan_SourceKind file = FileSourceGenerator) || bool_decide (FilePlan_SourceKind file = FileSourceCertificate).

Definition artifactKindOf (file : FilePlan) : string :=
  if empty (FilePlan_ArtifactKind file) then ArtifactRegular else FilePlan_ArtifactKind file.

Definition incompleteFile (file : FilePlan) : bool :=
  let artifactKind := artifactKindOf file in
  let artifactPath := Clean (FilePlan_ArtifactPath file) in
  empty (FilePlan_ID file) || negb (validFileSourceKind (FilePlan_SourceKind file))
  || (negb (bool_decide (artifactKind = ArtifactRegular)) && negb (bool_decide (artifactKind = ArtifactSymlink))
      && negb (bool_decide (artifactKind = ArtifactDirectory)))
  || empty (FilePlan_ArtifactPath file) || IsAbs (FilePlan_ArtifactPath file)
  || (bool_decide (artifactPath = ".") && negb (bool_decide (artifactKind = ArtifactDirectory)))
  || HasPrefix (Clean (FilePlan_ArtifactPath file)) "../"
  || (negb (empty (FilePlan_Destination file)) && negb (IsAbs (FilePlan_Destination file)))
  || Z.ltb 511 (FilePlan_Mode file) || negb (validPortableOwnership (FilePlan_UID file))
  || negb (validPortableOwnership (FilePlan_GID file)).

Definition validateArtifactKind (field : string) (file : FilePlan) : result PlanError unit :=
  let artifactKind := artifactKindOf file in
  if bool_decide (artifactKind = ArtifactSymlink) then
    refuse (negb (generated file) || empty (FilePlan_LinkTarget file)
            || Nat.ltb maxGeneratedSymlinkTargetBytes (String.length (FilePlan_LinkTarget file))
            || ContainsChar (FilePlan_LinkTarget file) nulChar || negb (Z.eqb (FilePlan_Mode file) 0))
      ErrorInvalidInput field "symbolic-link plan is incomplete"
  else if bool_decide (artifactKind = ArtifactDirectory) then
    refuse (negb (generated file) || negb (empty (FilePlan_LinkTarget file)) || negb (empty (FilePlan_Digest file))
            || negb (empty (FilePlan_Destination file)))
      ErrorInvalidInput field "directory plan is incomplete"
  else refuse (negb (empty (FilePlan_LinkTarget file))) ErrorInvalidInput field "regular artifact has a link target".

Definition fileStep (nodes : gmap string NodePlan) (files : gmap string FilePlan) (entry : nat * FilePlan) :
    result PlanError (gmap string FilePlan) :=
  let file := entry.2 in
  let field := indexed "files" entry.1 in
  refuse (incompleteFile file) ErrorInvalidInput field "file plan is incomplete" ;;?
  validateArtifactKind field file ;;?
  refuse (Nat.ltb 128 (length (FilePlan_ExtendedAttributes file))
          || (negb (emptyList (FilePlan_ExtendedAttributes file)) && negb (generated file)))
    ErrorInvalidInput field "artifact metadata is invalid" ;;?
  (let? _ := rfold (attributeStep field) ∅ (imap pair (FilePlan_ExtendedAttributes file)) in Ok ()) ;;?
  refuse (bool_decide (FilePlan_SourceKind file = FileSourcePayload) && empty (FilePlan_Destination file))
    ErrorInvalidInput field "payload destination is required" ;;?
  refuse (negb (empty (FilePlan_Digest file)) && negb (validDigest (FilePlan_Digest file)))
    ErrorInvalidInput (field +:+ ".digest") "file digest is invalid" ;;?
  refuse (negb (Bool.eqb (bool_decide (FilePlan_SourceKind file = FileSourceEmpty)) (empty (FilePlan_SourceReference file))))
    ErrorInvalidInput field "file source identity is invalid" ;;?
  validateUniqueKeyValues (FilePlan_Variables file) (field +:+ ".variables") ;;?
  refuse (negb (known nodes (FilePlan_NodeID file))) ErrorInvariant (field +:+ ".nodeID") "references an unknown Node" ;;?
  refuse (known files (FilePlan_ID file)) ErrorInvariant (field +:+ ".id") "file ID is duplicated" ;;?
  Ok (<[FilePlan_ID file := file]> files).

Definition volumeStep (nodes : gmap string NodePlan) (volumes : gmap string VolumePlan) (entry : nat * VolumePlan) :
    result PlanError (gmap string VolumePlan) :=
  let volume := entry.2 in
  let field := indexed "volumes" entry.1 in
  refuse (empty (VolumePlan_ID volume) || negb (validVolumeKind (VolumePlan_Kind volume)))
    ErrorInvalidInput field "volume ID or kind is invalid" ;;?
  refuse (negb (known nodes (VolumePlan_NodeID volume))) ErrorInvariant (field +:+ ".nodeID") "references an unknown Node" ;;?
  refuse (known volumes (VolumePlan_ID volume)) ErrorInvariant (field +:+ ".id") "volume ID is duplicated" ;;?
  Ok (<[VolumePlan_ID volume := volume]> volumes).

Definition mountStep (containers : gmap string ContainerPlan) (volumes : gmap string VolumePlan)
    (mounts : gmap string MountPlan) (entry : nat * MountPlan) : result PlanError (gmap string MountPlan) :=
  let mount := entry.2 in
  let field := indexed "mounts" entry.1 in
  refuse (empty (MountPlan_ID mount) || empty (MountPlan_Destination mount) || negb (IsAbs (MountPlan_Destination mount))
          || negb (bool_decide (Clean (MountPlan_Destination mount) = MountPlan_Destination mount)))
    ErrorInvalidInput field "mount ID and destination are required" ;;?
  refuse (negb (known containers (MountPlan_ContainerID mount))) ErrorInvariant (field +:+ ".containerID")
    "references an unknown container" ;;?
  refuse (negb (known volumes (MountPlan_VolumeID mount))) ErrorInvariant (field +:+ ".volumeID")
    "references an unknown volume" ;;?
  refuse (known mounts (MountPlan_ID mount)) ErrorInvariant (field +:+ ".id") "mount ID is duplicated" ;;?
  Ok (<[MountPlan_ID mount := mount]> mounts).

Definition mountReferenceStep (mounts : gmap string MountPlan) (entry : nat * ContainerPlan) : result PlanError unit :=
  checkEach (λ mountID,
    refuse (match mounts !! mountID with
            | Some mount => negb (bool_decide (MountPlan_ContainerID mount = ContainerPlan_ID entry.2))
            | None => true
            end)
      ErrorInvariant (indexed "containers" entry.1 +:+ ".mountIDs") "references a missing or foreign mount")
    (ContainerPlan_MountIDs entry.2).

Definition incompleteManagement (item : ManagementPlan) : bool :=
  empty (ManagementPlan_ID item)
  || (empty (ManagementPlan_InterfaceName item) && empty (ManagementPlan_InterfaceSelector item))
  || (negb (empty (ManagementPlan_InterfaceName item)) && negb (empty (ManagementPlan_InterfaceSelector item)))
  || (negb (empty (ManagementPlan_InterfaceSelector item))
      && negb (bool_decide (ManagementPlan_InterfaceSelector item = ManagementInterfacePodTransport))
      && negb (bool_decide (ManagementPlan_InterfaceSelector item = ManagementInterfaceInterposed))).

Definition managementStep (nodes : gmap string NodePlan) (state : gmap string ManagementPlan * gset string)
    (entry : nat * ManagementPlan) : result PlanError (gmap string ManagementPlan * gset string) :=
  let item := entry.2 in
  let field := indexed "management" entry.1 in
  refuse (incompleteManagement item) ErrorInvalidInput field "management plan is incomplete" ;;?
  validateManagementInterposition field item ;;?
  refuse (negb (known nodes (ManagementPlan_NodeID item)) || bool_decide (ManagementPlan_NodeID item ∈ state.2))
    ErrorInvariant (field +:+ ".nodeID") "Node is unknown or duplicated" ;;?
  refuse (known state.1 (ManagementPlan_ID item)) ErrorInvariant (field +:+ ".id") "management ID is duplicated" ;;?
  Ok (<[ManagementPlan_ID item := item]> state.1, {[ManagementPlan_NodeID item]} ∪ state.2).

Definition interfaceStep (nodes : gmap string NodePlan) (containers : gmap string ContainerPlan)
    (interfaces : gmap string InterfacePlan) (entry : nat * InterfacePlan) : result PlanError (gmap string InterfacePlan) :=
  let intf := entry.2 in
  let field := indexed "interfaces" entry.1 in
  refuse (empty (InterfacePlan_ID intf) || empty (InterfacePlan_Name intf) || empty (InterfacePlan_NamespaceOwnerID intf)
          || empty (InterfacePlan_LinkID intf) || empty (InterfacePlan_Connectivity intf)
          || Z.ltb (InterfacePlan_WireID intf) 0 || Z.ltb (InterfacePlan_MTU intf) 0
          || negb (validLinkApplyMode (InterfacePlan_LinkApplyMode intf)))
    ErrorInvalidInput field "interface plan is incomplete" ;;?
  refuse (negb (known nodes (InterfacePlan_NodeID intf))) ErrorInvariant (field +:+ ".nodeID") "references an unknown Node" ;;?
  refuse (negb (known containers (InterfacePlan_NamespaceOwnerID intf))) ErrorInvariant (field +:+ ".namespaceOwnerID")
    "references an unknown container" ;;?
  refuse (known interfaces (InterfacePlan_ID intf)) ErrorInvariant (field +:+ ".id") "interface ID is duplicated" ;;?
  Ok (<[InterfacePlan_ID intf := intf]> interfaces).

Definition actionStep (nodes : gmap string NodePlan) (containers : gmap string ContainerPlan) (ix : planIndex)
    (actions : gset string) (entry : nat * Action) : result PlanError (gset string) :=
  let action := entry.2 in
  let target := Action_Target action in
  let field := indexed "actions" entry.1 in
  refuse (empty (Action_ID action) || negb (validActionPhase (Action_Phase action)))
    ErrorInvalidInput field "action ID or phase is invalid" ;;?
  refuse (bool_decide (Action_ID action ∈ actions)) ErrorInvariant (field +:+ ".id") "action ID is duplicated" ;;?
  refuse (negb (known nodes (ActionTarget_NodeID target))) ErrorInvariant (field +:+ ".target.nodeID")
    "references an unknown Node" ;;?
  refuse (negb (empty (ActionTarget_ContainerID target)) && negb (known containers (ActionTarget_ContainerID target)))
    ErrorInvariant (field +:+ ".target.containerID") "references an unknown container" ;;?
  refuse (negb (empty (ActionTarget_NamespaceOwnerID target))
          && negb (known containers (ActionTarget_NamespaceOwnerID target)))
    ErrorInvariant (field +:+ ".target.namespaceOwnerID") "references an unknown container" ;;?
  validateActionPayload ix action field ;;?
  Ok ({[Action_ID action]} ∪ actions).

Definition validatePlan (plan : Plan) : result PlanError unit :=
  validateHeader (Plan_SchemaVersion plan) (Plan_Compatibility plan) ;;?
  refuse (negb (validDigest (Plan_InputDigest plan))) ErrorInvalidInput "inputDigest" "must be a sha256 digest" ;;?
  refuse (empty (PlannerIdentity_Name (Plan_Planner plan)) || empty (PlannerIdentity_Revision (Plan_Planner plan)))
    ErrorMissingInput "planner" "name and revision are required" ;;?
  refuse (emptyList (Plan_Nodes plan) || emptyList (Plan_Containers plan))
    ErrorMissingInput "plan" "Nodes and containers are required" ;;?
  let? nodes := rfold nodeStep ∅ (imap pair (Plan_Nodes plan)) in
  let? state := rfold (containerStep nodes) (∅, ∅) (imap pair (Plan_Containers plan)) in
  let containers := state.1 in
  checkEach (ownerStep containers) (imap pair (Plan_Containers plan)) ;;?
  checkEach (referenceStep containers) (imap pair (Plan_Nodes plan)) ;;?
  let? files := rfold (fileStep nodes) ∅ (imap pair (Plan_Files plan)) in
  let? volumes := rfold (volumeStep nodes) ∅ (imap pair (Plan_Volumes plan)) in
  let? mounts := rfold (mountStep containers volumes) ∅ (imap pair (Plan_Mounts plan)) in
  checkEach (mountReferenceStep mounts) (imap pair (Plan_Containers plan)) ;;?
  let? managed := rfold (managementStep nodes) (∅, ∅) (imap pair (Plan_Management plan)) in
  let? interfaces := rfold (interfaceStep nodes containers) ∅ (imap pair (Plan_Interfaces plan)) in
  let? _ := rfold (actionStep nodes containers (MkPlanIndex files volumes mounts managed.1 interfaces)) ∅
              (imap pair (Plan_Actions plan)) in
  Ok ().
