(* ===== verification/PlanSpec.v ===== *)
(** * Device plans: what a valid plan is

    A declarative description of the plans [validatePlan] accepts: every part has what it
    needs, identities are unique, and every reference leads to a part of the plan, of the
    right owner and kind.  [validatePlan_spec] shows that the loops decide exactly this. *)

From S2P Require Import Prelude Api GoStrings GoNet GoSort DevicePlanTypes PlanValidation.
Local Open Scope Z_scope.

(** ** The specification *)

Definition KeyValuesOk (values : list KeyValue) : Prop :=
  Forall (λ value, KeyValue_Name value ≠ "") values ∧ NoDup (KeyValue_Name <$> values).

Definition HeaderOk (schema : string) (compatibility : Compatibility) : Prop :=
  schema = SchemaVersion ∧ Compatibility_ContainerlabModule compatibility ≠ "" ∧
  Compatibility_ContainerlabVersion compatibility ≠ "" ∧
  validDigest (Compatibility_RegistryDigest compatibility) = true ∧
  Compatibility_PlanSchemaVersion compatibility = SchemaVersion.

Record NodeOk (containers : list ContainerPlan) (node : NodePlan) : Prop := {
  node_identified : NodePlan_ID node ≠ "" ∧ NodePlan_Name node ≠ "" ∧ NodePlan_Kind node ≠ "";
  node_containers : NodePlan_ContainerIDs node ≠ [] ∧ NodePlan_ReadinessContainerIDs node ≠ [];
  node_unique : NoDup (NodePlan_ContainerIDs node) ∧ NoDup (NodePlan_ReadinessContainerIDs node);
  node_owns : ∀ id, id ∈ NodePlan_ContainerIDs node →
    ∃ container, container ∈ containers ∧ ContainerPlan_ID container = id ∧
      ContainerPlan_NodeID container = NodePlan_ID node;
  node_readiness : ∀ id, id ∈ NodePlan_ReadinessContainerIDs node → id ∈ NodePlan_ContainerIDs node
}.

Definition PortOk (port : Port) : Prop :=
  1 ≤ Port_Number port ≤ 65535 ∧ (Port_Protocol port = "TCP" ∨ Port_Protocol port = "UDP").

Record ContainerOk (plan : Plan) (container : ContainerPlan) : Prop := {
  container_identified : ContainerPlan_ID container ≠ "" ∧ ContainerPlan_RuntimeID container ≠ "" ∧
    ContainerPlan_Image container ≠ "" ∧ ContainerPlan_NamespaceOwnerID container ≠ "";
  container_digest : ContainerPlan_ImageDigest container = "" ∨ validDigest (ContainerPlan_ImageDigest container) = true;
  container_node : ContainerPlan_NodeID container ∈ NodePlan_ID <$> Plan_Nodes plan;
  container_owner : ContainerPlan_NamespaceOwnerID container ∈ ContainerPlan_ID <$> Plan_Containers plan;
  container_values : KeyValuesOk (ContainerPlan_Environment container) ∧ KeyValuesOk (ContainerPlan_Labels container) ∧
    KeyValuesOk (SecurityPlan_Sysctls (ContainerPlan_Security container));
  container_ports : Forall PortOk (ContainerPlan_Ports container) ∧ NoDup (ContainerPlan_Ports container);
  container_mounts : ∀ id, id ∈ ContainerPlan_MountIDs container →
    ∃ mount, mount ∈ Plan_Mounts plan ∧ MountPlan_ID mount = id ∧ MountPlan_ContainerID mount = ContainerPlan_ID container
}.

Definition AttributeOk (attribute : ExtendedAttribute) : Prop :=
  ExtendedAttribute_Name attribute ≠ "" ∧ (String.length (ExtendedAttribute_Name attribute) ≤ 255)%nat ∧
  ContainsChar (ExtendedAttribute_Name attribute) nulChar = false ∧ validDigest (ExtendedAttribute_Digest attribute) = true.

(** What each kind of artifact must and must not have. *)
Definition ArtifactOk (file : FilePlan) : Prop :=
  (artifactKindOf file = ArtifactRegular ∧ FilePlan_LinkTarget file = "" ∧ Clean (FilePlan_ArtifactPath file) ≠ ".") ∨
  (artifactKindOf file = ArtifactSymlink ∧ generated file = true ∧ FilePlan_LinkTarget file ≠ "" ∧
   (String.length (FilePlan_LinkTarget file) ≤ maxGeneratedSymlinkTargetBytes)%nat ∧
   ContainsChar (FilePlan_LinkTarget file) nulChar = false ∧ FilePlan_Mode file = 0 ∧
   Clean (FilePlan_ArtifactPath file) ≠ ".") ∨
  (artifactKindOf file = ArtifactDirectory ∧ generated file = true ∧ FilePlan_LinkTarget file = "" ∧
   FilePlan_Digest file = "" ∧ FilePlan_Destination file = "").

Record FileOk (nodes : list NodePlan) (file : FilePlan) : Prop := {
  file_identified : FilePlan_ID file ≠ "";
  file_source : FilePlan_SourceKind file ∈ [FileSourcePayload; FileSourceGenerator; FileSourceCertificate; FileSourceEmpty];
  file_artifact : ArtifactOk file;
  file_path : FilePlan_ArtifactPath file ≠ "" ∧ IsAbs (FilePlan_ArtifactPath file) = false ∧
    HasPrefix (Clean (FilePlan_ArtifactPath file)) "../" = false;
  file_destination : FilePlan_Destination file = "" ∨ IsAbs (FilePlan_Destination file) = true;
  file_mode : FilePlan_Mode file ≤ 511;
  file_ownership : validPortableOwnership (FilePlan_UID file) = true ∧ validPortableOwnership (FilePlan_GID file) = true;
  file_attributes : (length (FilePlan_ExtendedAttributes file) ≤ 128)%nat ∧
    (FilePlan_ExtendedAttributes file = [] ∨ generated file = true) ∧
    Forall AttributeOk (FilePlan_ExtendedAttributes file) ∧
    NoDup (ExtendedAttribute_Name <$> FilePlan_ExtendedAttributes file);
  file_payload : FilePlan_SourceKind file = FileSourcePayload → FilePlan_Destination file ≠ "";
  file_digest : FilePlan_Digest file = "" ∨ validDigest (FilePlan_Digest file) = true;
  file_reference : FilePlan_SourceKind file = FileSourceEmpty ↔ FilePlan_SourceReference file = "";
  file_variables : KeyValuesOk (FilePlan_Variables file);
  file_node : FilePlan_NodeID file ∈ NodePlan_ID <$> nodes
}.

Definition VolumeOk (nodes : list NodePlan) (volume : VolumePlan) : Prop :=
  VolumePlan_ID volume ≠ "" ∧
  VolumePlan_Kind volume ∈ [VolumeArtifacts; VolumeEmptyDir; VolumeConfigMap; VolumeSecret; VolumePersistent; VolumeDevice] ∧
  VolumePlan_NodeID volume ∈ NodePlan_ID <$> nodes.

Definition MountOk (containers : list ContainerPlan) (volumes : list VolumePlan) (mount : MountPlan) : Prop :=
  MountPlan_ID mount ≠ "" ∧ IsAbs (MountPlan_Destination mount) = true ∧
  Clean (MountPlan_Destination mount) = MountPlan_Destination mount ∧
  MountPlan_ContainerID mount ∈ ContainerPlan_ID <$> containers ∧
  MountPlan_VolumeID mount ∈ VolumePlan_ID <$> volumes.

Definition MeshOk (mesh : ManagementMesh) : Prop :=
  0 < ManagementMesh_TunnelID mesh ≤ maxVXLANIdentifier ∧ ParseMAC (ManagementMesh_GatewayMAC mesh) ≠ None.

Record ContractOk (item : ManagementPlan) (contract : ManagementInterposition) : Prop := {
  contract_device : ManagementInterposition_DeviceInterface contract ≠ "" ∧
    (String.length (ManagementInterposition_DeviceInterface contract) < 16)%nat;
  contract_identity : ManagementPlan_IPv4 item ≠ "" ∧ ManagementPlan_IPv4Gateway item ≠ "";
  contract_mac : ManagementInterposition_DeviceMAC contract = "" ∨
    ParseMAC (ManagementInterposition_DeviceMAC contract) ≠ None;
  contract_cidrs : Forall (λ cidr, ParsePrefix cidr ≠ None) (ManagementInterposition_TransportCIDRs contract);
  contract_ports : Forall (λ port,
    (ManagementPortMap_Protocol port = protocolTCP ∨ ManagementPortMap_Protocol port = protocolUDP) ∧
    ManagementPortMap_PodPort port ≠ 0 ∧ ManagementPortMap_DevicePort port ≠ 0)
    (ManagementInterposition_InboundPorts contract);
  contract_mesh : ∀ mesh, ManagementInterposition_Mesh contract = Some mesh → MeshOk mesh
}.

(** The interface is named or selected, and exactly the interposed entries have a contract. *)
Definition ManagementOk (nodes : list NodePlan) (item : ManagementPlan) : Prop :=
  ManagementPlan_ID item ≠ "" ∧
  ((ManagementPlan_InterfaceName item ≠ "" ∧ ManagementPlan_InterfaceSelector item = "" ∧
    ManagementPlan_Interposition item = None) ∨
   (ManagementPlan_InterfaceName item = "" ∧ ManagementPlan_InterfaceSelector item = ManagementInterfacePodTransport ∧
    ManagementPlan_Interposition item = None) ∨
   (ManagementPlan_InterfaceName item = "" ∧ ManagementPlan_InterfaceSelector item = ManagementInterfaceInterposed ∧
    ∃ contract, ManagementPlan_Interposition item = Some contract ∧ ContractOk item contract)) ∧
  ManagementPlan_NodeID item ∈ NodePlan_ID <$> nodes.

Definition InterfaceOk (nodes : list NodePlan) (containers : list ContainerPlan) (intf : InterfacePlan) : Prop :=
  InterfacePlan_ID intf ≠ "" ∧ InterfacePlan_Name intf ≠ "" ∧ InterfacePlan_LinkID intf ≠ "" ∧
  InterfacePlan_Connectivity intf ≠ "" ∧ 0 ≤ InterfacePlan_WireID intf ∧ 0 ≤ InterfacePlan_MTU intf ∧
  InterfacePlan_LinkApplyMode intf ∈ [LinkApplyLive; LinkApplyRestart; LinkApplyRecreate] ∧
  InterfacePlan_NamespaceOwnerID intf ≠ "" ∧
  InterfacePlan_NodeID intf ∈ NodePlan_ID <$> nodes ∧
  InterfacePlan_NamespaceOwnerID intf ∈ ContainerPlan_ID <$> containers.

(** A file of the plan with that id, which is a regular artifact. *)
Definition hasRegular (plan : Plan) (id : string) : Prop :=
  ∃ file, file ∈ Plan_Files plan ∧ FilePlan_ID file = id ∧ FilePlan_ArtifactKind file = ArtifactRegular.

(** What the payload of each kind of action refers to and needs. *)
Inductive PayloadOk (plan : Plan) (action : Action) : Prop :=
| exec_ok payload : Action_Kind action = ActionExec → Action_Exec action = Some payload →
    ExecAction_Command payload ≠ [] → PayloadOk plan action
| file_ok payload file : Action_Kind action = ActionFile → Action_File action = Some payload →
    file ∈ Plan_Files plan → FilePlan_ID file = FileAction_FileID payload →
    FileAction_WriteMode payload ∈ [""; FileWriteReplace; FileWriteAppend] →
    (Action_Phase action = PhasePostStart →
       FileAction_Destination payload ≠ "" ∧ FilePlan_ArtifactKind file = ArtifactRegular) →
    PayloadOk plan action
| stdin_ok payload : Action_Kind action = ActionWriteStdin → Action_WriteStdin action = Some payload →
    hasRegular plan (WriteStdinAction_FileID payload) → PayloadOk plan action
| mount_ok payload mount volume : Action_Kind action = ActionMount → Action_Mount action = Some payload →
    mount ∈ Plan_Mounts plan → MountPlan_ID mount = MountAction_MountID payload →
    volume ∈ Plan_Volumes plan → VolumePlan_ID volume = MountPlan_VolumeID mount →
    VolumePlan_Kind volume = VolumeEmptyDir → EqualFold (VolumePlan_Medium volume) "Memory" = true →
    MountAction_Filesystem payload = filesystemTmpfs → MountAction_Source payload = filesystemTmpfs →
    Action_Phase action = PhasePreStart →
    ActionTarget_ContainerID (Action_Target action) = MountPlan_ContainerID mount →
    Forall (λ option, option ≠ "" ∧ containsControl option = false) (MountAction_Options payload) →
    PayloadOk plan action
| sysctl_ok payload : Action_Kind action = ActionSysctl → Action_Sysctl action = Some payload →
    SysctlAction_Name payload ≠ "" → PayloadOk plan action
| wait_ok payload : Action_Kind action = ActionWaitInterface → Action_WaitInterface action = Some payload →
    WaitInterfaceAction_InterfaceID payload ∈ InterfacePlan_ID <$> Plan_Interfaces plan →
    0 < WaitInterfaceAction_TimeoutSeconds payload → PayloadOk plan action
| rename_ok payload : Action_Kind action = ActionRenameInterface → Action_RenameInterface action = Some payload →
    RenameInterfaceAction_InterfaceID payload ∈ InterfacePlan_ID <$> Plan_Interfaces plan →
    RenameInterfaceAction_From payload ≠ "" → RenameInterfaceAction_To payload ≠ "" → PayloadOk plan action
| forwarding_ok payload : Action_Kind action = ActionManagementForwarding →
    Action_ManagementForwarding action = Some payload →
    ManagementForwardingAction_ManagementID payload ∈ ManagementPlan_ID <$> Plan_Management plan → PayloadOk plan action
| endpoints_ok payload : Action_Kind action = ActionImportedDeployEndpoints →
    Action_ImportedDeployEndpoints action = Some payload → Action_Phase action = PhaseInterfaceFixup →
    ActionTarget_ContainerID (Action_Target action) ≠ "" → ActionTarget_NamespaceOwnerID (Action_Target action) ≠ "" →
    PayloadOk plan action
| postdeploy_ok payload : Action_Kind action = ActionImportedPostDeploy →
    Action_ImportedPostDeploy action = Some payload → Action_Phase action = PhasePostStart →
    ActionTarget_ContainerID (Action_Target action) ≠ "" → PayloadOk plan action
| readiness_ok payload : Action_Kind action = ActionImportedReadiness →
    Action_ImportedReadiness action = Some payload → Action_Phase action = PhaseReadiness →
    ActionTarget_ContainerID (Action_Target action) ≠ "" → PayloadOk plan action
| save_ok payload : Action_Kind action = ActionSave → Action_Save action = Some payload →
    SaveAction_Method payload = SaveMethodImported → Action_Phase action = PhaseSave →
    ActionTarget_ContainerID (Action_Target action) ≠ "" →
    (SaveAction_FileID payload ≠ "" → hasRegular plan (SaveAction_FileID payload)) → PayloadOk plan action.

Record ActionOk (plan : Plan) (action : Action) : Prop := {
  action_identified : Action_ID action ≠ "" ∧ Action_Phase action ∈ phases;
  action_node : ActionTarget_NodeID (Action_Target action) ∈ NodePlan_ID <$> Plan_Nodes plan;
  action_container : ActionTarget_ContainerID (Action_Target action) = "" ∨
    ActionTarget_ContainerID (Action_Target action) ∈ ContainerPlan_ID <$> Plan_Containers plan;
  action_owner : ActionTarget_NamespaceOwnerID (Action_Target action) = "" ∨
    ActionTarget_NamespaceOwnerID (Action_Target action) ∈ ContainerPlan_ID <$> Plan_Containers plan;
  action_single : payloads action = 1%nat;
  action_payload : PayloadOk plan action
}.

Record PlanOk (plan : Plan) : Prop := {
  plan_header : HeaderOk (Plan_SchemaVersion plan) (Plan_Compatibility plan);
  plan_digest : validDigest (Plan_InputDigest plan) = true;
  plan_planner : PlannerIdentity_Name (Plan_Planner plan) ≠ "" ∧ PlannerIdentity_Revision (Plan_Planner plan) ≠ "";
  plan_inhabited : Plan_Nodes plan ≠ [] ∧ Plan_Containers plan ≠ [];
  plan_nodes : Forall (NodeOk (Plan_Containers plan)) (Plan_Nodes plan) ∧ NoDup (NodePlan_ID <$> Plan_Nodes plan);
  plan_containers : Forall (ContainerOk plan) (Plan_Containers plan) ∧
    NoDup (ContainerPlan_ID <$> Plan_Containers plan) ∧ NoDup (ContainerPlan_RuntimeID <$> Plan_Containers plan);
  plan_files : Forall (FileOk (Plan_Nodes plan)) (Plan_Files plan) ∧ NoDup (FilePlan_ID <$> Plan_Files plan);
  plan_volumes : Forall (VolumeOk (Plan_Nodes plan)) (Plan_Volumes plan) ∧ NoDup (VolumePlan_ID <$> Plan_Volumes plan);
  plan_mounts : Forall (MountOk (Plan_Containers plan) (Plan_Volumes plan)) (Plan_Mounts plan) ∧
    NoDup (MountPlan_ID <$> Plan_Mounts plan);
  plan_management : Forall (ManagementOk (Plan_Nodes plan)) (Plan_Management plan) ∧
    NoDup (ManagementPlan_ID <$> Plan_Management plan) ∧ NoDup (ManagementPlan_NodeID <$> Plan_Management plan);
  plan_interfaces : Forall (InterfaceOk (Plan_Nodes plan) (Plan_Containers plan)) (Plan_Interfaces plan) ∧
    NoDup (InterfacePlan_ID <$> Plan_Interfaces plan);
  plan_actions : Forall (ActionOk plan) (Plan_Actions plan) ∧ NoDup (Action_ID <$> Plan_Actions plan)
}.

(** ** Loops *)

Lemma refuse_Ok b code field message u : refuse b code field message = Ok u ↔ b = false.
Proof. unfold refuse. destruct b, u; naive_solver. Qed.

Lemma seq_Ok {E A} (m : result E unit) (k : result E A) v :
  (m ;;? k) = Ok v ↔ m = Ok () ∧ k = Ok v.
Proof. destruct m as [[]|]; naive_solver. Qed.

Lemma let_Ok {E A B} (m : result E A) (k : A → result E B) v :
  (let? x := m in k x) = Ok v ↔ ∃ x, m = Ok x ∧ k x = Ok v.
Proof. destruct m; naive_solver. Qed.

Lemma Ok_inj_iff {E A} (x y : A) : Ok (E := E) x = Ok y ↔ y = x.
Proof. naive_solver. Qed.

Lemma forget_Ok {E A} (m : result E A) u : (let? _ := m in Ok ()) = Ok u ↔ ∃ x, m = Ok x.
Proof. rewrite let_Ok. destruct u. naive_solver. Qed.

Lemma checkEach_Ok {A} (check : A → result PlanError unit) l u :
  checkEach check l = Ok u ↔ Forall (λ x, check x = Ok ()) l.
Proof.
  destruct u. unfold checkEach. induction l as [|x l IH]; [done|]. cbn [rfold]. rewrite list.Forall_cons.
  destruct (check x) as [[]|]; cbn; [rewrite IH|]; naive_solver.
Qed.

Lemma rfold_snoc {E A S} (step : S → A → result E S) s l x :
  rfold step s (l ++ [x]) = let? s' := rfold step s l in step s' x.
Proof. rewrite rfold_app. destruct (rfold step s l); [cbn|done]. by destruct (step _ _). Qed.

(** A property of every element and what comes before it. *)
Definition eachPrefix {A} (P : list A → A → Prop) (l : list A) : Prop :=
  ∀ before x after, l = before ++ x :: after → P before x.

Lemma eachPrefix_snoc {A} (P : list A → A → Prop) l x : eachPrefix P (l ++ [x]) ↔ eachPrefix P l ∧ P l x.
Proof.
  split.
  - intros H. split; [|by apply (H l x [])]. intros before y after ->. apply (H before y (after ++ [x])).
    by rewrite <- app_assoc.
  - intros [H1 H2] before y after Heq. destruct after as [|z after _] using rev_ind.
    + apply app_inj_tail in Heq as [-> ->]. done.
    + rewrite app_comm_cons, app_assoc in Heq. apply app_inj_tail in Heq as [-> ->]. by eapply H1.
Qed.

Lemma eachPrefix_nil {A} (P : list A → A → Prop) : eachPrefix P [].
Proof. intros before x after H. by destruct before. Qed.

Lemma eachPrefix_forall {A} (P : A → Prop) l : eachPrefix (λ _, P) l ↔ Forall P l.
Proof.
  induction l as [|x l IH] using rev_ind; [split; intros _; [constructor|apply eachPrefix_nil]|].
  rewrite eachPrefix_snoc, IH, Forall_app, list.Forall_singleton. done.
Qed.

Lemma eachPrefix_fresh {A K} (key : A → K) l :
  eachPrefix (λ before x, key x ∉ key <$> before) l ↔ NoDup (key <$> l).
Proof.
  induction l as [|x l IH] using rev_ind; [split; intros _; [constructor|apply eachPrefix_nil]|].
  rewrite eachPrefix_snoc, IH, fmap_app, NoDup_app. cbn. split.
  - intros [H1 H2]. split_and!; [done| |apply NoDup_singleton]. intros k Hk ->%list_elem_of_singleton. done.
  - intros (H1 & H2 & _). split; [done|]. intros Hx. apply (H2 _ Hx). by left.
Qed.

Lemma eachPrefix_and {A} (P Q : list A → A → Prop) l :
  eachPrefix (λ before x, P before x ∧ Q before x) l ↔ eachPrefix P l ∧ eachPrefix Q l.
Proof. unfold eachPrefix. naive_solver. Qed.

(** A loop over an indexed slice whose state after the elements [before] is [st before]. *)
Lemma indexed_loop {E A S} (step : S → nat * A → result E S) (st : list A → S) (P : list A → A → Prop) l s :
  (∀ before i x s', step (st before) (i, x) = Ok s' ↔ P before x ∧ s' = st (before ++ [x])) →
  rfold step (st []) (imap pair l) = Ok s ↔ eachPrefix P l ∧ s = st l.
Proof.
  intros Hstep. revert s. induction l as [|x l IH] using rev_ind; intros s.
  { cbn. split; [intros [= <-]; split; [apply eachPrefix_nil|done]|by intros [_ ->]]. }
  rewrite imap_app. cbn [imap]. rewrite rfold_snoc, eachPrefix_snoc. rewrite Nat.add_0_r.
  destruct (rfold step (st []) (imap pair l)) as [s1|err] eqn:Hf; cbn [rbind].
  - destruct (proj1 (IH s1) eq_refl) as [H1 ->]. rewrite Hstep. naive_solver.
  - split; [done|]. intros [[H1 _] _]. assert (Err err = Ok (st l)) as [=] by (by apply IH).
Qed.

(** ** Maps of identified parts *)

Definition keyed {A} (key : A → string) (l : list A) : gmap string A := foldl (λ m x, <[key x := x]> m) ∅ l.
Definition keySet {A} (key : A → string) (l : list A) : gset string := foldl (λ s x, {[key x]} ∪ s) ∅ l.

Lemma keyed_snoc {A} (key : A → string) l x : keyed key (l ++ [x]) = <[key x := x]> (keyed key l).
Proof. unfold keyed. by rewrite foldl_app. Qed.

Lemma keySet_snoc {A} (key : A → string) l x : keySet key (l ++ [x]) = {[key x]} ∪ keySet key l.
Proof. unfold keySet. by rewrite foldl_app. Qed.

Lemma elem_of_keySet {A} (key : A → string) l k : k ∈ keySet key l ↔ k ∈ key <$> l.
Proof.
  induction l as [|x l IH] using rev_ind; [cbn; rewrite elem_of_nil; set_solver|].
  rewrite keySet_snoc, fmap_app, elem_of_union, elem_of_app, IH. cbn.
  rewrite elem_of_singleton, list_elem_of_singleton. tauto.
Qed.

Lemma keyed_dom {A} (key : A → string) l k : is_Some (keyed key l !! k) ↔ k ∈ key <$> l.
Proof.
  induction l as [|x l IH] using rev_ind.
  { cbn. rewrite lookup_empty, elem_of_nil. split; [by intros []|done]. }
  rewrite keyed_snoc, fmap_app, elem_of_app, <- IH. cbn. rewrite list_elem_of_singleton.
  destruct (decide (key x = k)) as [<-|Hne].
  - rewrite lookup_insert_eq. naive_solver.
  - rewrite lookup_insert_ne by done. naive_solver.
Qed.

Lemma known_spec {A} (m : gmap string A) k : known m k = true ↔ is_Some (m !! k).
Proof. unfold known. destruct (m !! k); naive_solver. Qed.

Lemma keyed_known {A} (key : A → string) l k : known (keyed key l) k = true ↔ k ∈ key <$> l.
Proof. by rewrite known_spec, keyed_dom. Qed.

Lemma keyed_unknown {A} (key : A → string) l k : known (keyed key l) k = false ↔ k ∉ key <$> l.
Proof. rewrite <- keyed_known. by destruct (known _ _). Qed.

Lemma keyed_lookup {A} (key : A → string) l k x :
  NoDup (key <$> l) → keyed key l !! k = Some x ↔ x ∈ l ∧ key x = k.
Proof.
  induction l as [|y l IH] using rev_ind; intros Hnd.
  { cbn. rewrite lookup_empty, elem_of_nil. naive_solver. }
  rewrite fmap_app in Hnd. apply NoDup_app in Hnd as (Hnd & Hd & _). specialize (IH Hnd).
  rewrite keyed_snoc, elem_of_app, list_elem_of_singleton, lookup_insert_Some, IH. split; [naive_solver|].
  intros [[Hx| ->] <-]; [|by left]. right. split; [|done]. intros Heq.
  apply (Hd (key x)); [by apply list_elem_of_fmap_2|]. rewrite <- Heq. cbn. by left.
Qed.

(** ** Small checks *)

Lemma empty_true s : empty s = true ↔ s = "".
Proof. apply bool_decide_eq_true. Qed.
Lemma empty_false s : empty s = false ↔ s ≠ "".
Proof. apply bool_decide_eq_false. Qed.
Lemma bool_decide_same P Q `{Decision P, Decision Q} : bool_decide P = bool_decide Q ↔ (P ↔ Q).
Proof. do 2 case_bool_decide; naive_solver. Qed.
Lemma emptyList_false {A} (l : list A) : emptyList l = false ↔ l ≠ [].
Proof. by destruct l. Qed.

Lemma true_false : true = false ↔ False.
Proof. done. Qed.
Lemma false_true : false = true ↔ False.
Proof. done. Qed.

(** Turns a boolean condition into the proposition it decides. *)
Create HintDb checks.
#[export] Hint Rewrite orb_false_iff andb_false_iff andb_true_iff orb_true_iff negb_true_iff negb_false_iff
  true_false false_true empty_true empty_false @emptyList_false Z.ltb_ge Z.leb_gt Z.ltb_lt Z.leb_le Z.eqb_eq Z.eqb_neq
  Nat.ltb_ge Nat.leb_gt Nat.ltb_lt Nat.leb_le Nat.eqb_eq Nat.eqb_neq
  @bool_decide_eq_true @bool_decide_eq_false : checks.
Ltac checks := autorewrite with checks.
Ltac checks_in H := autorewrite with checks in H.

Lemma unique_keys_Ok values field u : validateUniqueKeyValues values field = Ok u ↔ KeyValuesOk values.
Proof.
  unfold validateUniqueKeyValues, KeyValuesOk. rewrite forget_Ok.
  assert (∀ s, rfold (uniqueKeyStep field) (keySet KeyValue_Name []) values = Ok s ↔
    eachPrefix (λ before x, KeyValue_Name x ≠ "" ∧ KeyValue_Name x ∉ KeyValue_Name <$> before) values ∧
    s = keySet KeyValue_Name values) as H.
  { induction values as [|x l IH] using rev_ind; intros s.
    { cbn. split; [intros [= <-]; split; [apply eachPrefix_nil|done]|by intros [_ ->]]. }
    rewrite rfold_snoc, let_Ok, eachPrefix_snoc, keySet_snoc. setoid_rewrite IH. unfold uniqueKeyStep.
    setoid_rewrite seq_Ok. setoid_rewrite refuse_Ok. split.
    - intros (s1 & [H1 ->] & H2 & [= <-]). checks_in H2. rewrite elem_of_keySet in H2. done.
    - intros [[H1 [H2 H3]] ->]. eexists. split; [done|]. checks. by rewrite elem_of_keySet. }
  change (∅ : gset string) with (keySet KeyValue_Name []). setoid_rewrite H.
  rewrite <- eachPrefix_forall, <- eachPrefix_fresh. rewrite <- eachPrefix_and. naive_solver.
Qed.

Lemma duplicates_spec values : hasDuplicates values = false ↔ NoDup values ∧ "" ∉ values.
Proof.
  unfold hasDuplicates.
  assert (∀ seen, duplicatesFrom seen values = false ↔ NoDup values ∧ "" ∉ values ∧ (∀ v, v ∈ values → v ∉ seen)) as H.
  { induction values as [|x l IH]; intros seen; cbn.
    { split; [|done]. intros _. split_and!; [constructor|apply not_elem_of_nil|]. intros v []%elem_of_nil. }
    rewrite NoDup_cons, not_elem_of_cons. destruct (empty x || bool_decide (x ∈ seen)) eqn:E.
    - checks_in E. split; [done|]. intros (_ & [Hx _] & Hs). destruct E as [->|Hin]; [done|].
      exfalso. eapply Hs; [left|done].
    - checks_in E. destruct E as [Hx Hs]. rewrite IH. split.
      + intros (H1 & H2 & H3). split_and!; [|done|done|done|].
        * intros Hin. apply (H3 x Hin). set_solver.
        * intros v [->|Hv]%elem_of_cons; [done|]. specialize (H3 v Hv). set_solver.
      + intros ([H1 H2] & [_ H3] & H4). split_and!; [done..|]. intros v Hv [->%elem_of_singleton|Hin]%elem_of_union; [done|].
        eapply H4; [by right|done]. }
  rewrite H. split; [tauto|]. intros [H1 H2]. split_and!; [done..|]. intros v _. apply not_elem_of_empty.
Qed.

(** ** Ports *)

Lemma portKey_cut r : PortOk r → Cut slash (portKey r) = Some (Itoa (Port_Number r), Port_Protocol r).
Proof.
  intros [Hr _]. apply Cut_app. unfold ContainsChar. apply negb_false_iff.
  eapply allChars_impl; [|apply Itoa_digits; lia]. intros a Ha. apply negb_true_iff, bool_decide_eq_false. intros ->.
  by vm_compute in Ha.
Qed.

Lemma portKey_inj p q : PortOk p → PortOk q → portKey p = portKey q → p = q.
Proof.
  intros Hp Hq Heq. pose proof (portKey_cut p Hp) as H1. rewrite Heq, (portKey_cut q Hq) in H1.
  injection H1 as Hn Hproto. apply (f_equal Atoi) in Hn.
  destruct p as [pn pp], q as [qn qp], Hp as [Hp _], Hq as [Hq _]. cbn in *.
  rewrite !Atoi_Itoa in Hn by lia. congruence.
Qed.

Lemma NoDup_fmap_iff {A B} (f : A → B) (l : list A) :
  (∀ x y, x ∈ l → y ∈ l → f x = f y → x = y) → NoDup (f <$> l) ↔ NoDup l.
Proof.
  intros Hinj. split; [apply NoDup_fmap_1|]. intros Hnd. induction Hnd as [|x l Hx Hnd IH]; [constructor|].
  rewrite fmap_cons. constructor.
  - intros (y & Heq & Hy)%list_elem_of_fmap. apply Hx. rewrite (Hinj x y); [done|left|by right|done].
  - apply IH. intros y z Hy Hz. apply Hinj; by right.
Qed.

Lemma ports_Ok field ports u :
  (let? _ := rfold (portStep field) ∅ (imap pair ports) in Ok ()) = Ok u ↔ Forall PortOk ports ∧ NoDup ports.
Proof.
  rewrite forget_Ok.
  assert (∀ s, rfold (portStep field) ∅ (imap pair ports) = Ok s ↔
    (Forall PortOk ports ∧ NoDup (portKey <$> ports)) ∧ s = keySet portKey ports) as H.
  { intros s. rewrite <- eachPrefix_forall, <- eachPrefix_fresh, <- eachPrefix_and.
    apply (indexed_loop (portStep field) (keySet portKey)). intros before i x s'. unfold portStep, PortOk.
    cbn [fst snd]. rewrite !seq_Ok, !refuse_Ok, Ok_inj_iff, keySet_snoc. checks. rewrite elem_of_keySet. tauto. }
  setoid_rewrite H. assert (Forall PortOk ports → NoDup (portKey <$> ports) ↔ NoDup ports) as Hk.
  { intros Hall. rewrite list.Forall_forall in Hall. apply NoDup_fmap_iff. intros x y Hx Hy. apply portKey_inj; by apply Hall. }
  naive_solver.
Qed.

(** ** The loops *)

Definition NodeShapeOk (node : NodePlan) : Prop :=
  (NodePlan_ID node ≠ "" ∧ NodePlan_Name node ≠ "" ∧ NodePlan_Kind node ≠ "") ∧
  (NodePlan_ContainerIDs node ≠ [] ∧ NodePlan_ReadinessContainerIDs node ≠ []) ∧
  hasDuplicates (NodePlan_ContainerIDs node) = false ∧ hasDuplicates (NodePlan_ReadinessContainerIDs node) = false.

Lemma nodes_Ok nodes s :
  rfold nodeStep ∅ (imap pair nodes) = Ok s ↔
  (Forall NodeShapeOk nodes ∧ NoDup (NodePlan_ID <$> nodes)) ∧ s = keyed NodePlan_ID nodes.
Proof.
  rewrite <- eachPrefix_forall, <- eachPrefix_fresh, <- eachPrefix_and.
  apply (indexed_loop nodeStep (keyed NodePlan_ID)). intros before i x s'. unfold nodeStep, NodeShapeOk. cbn [fst snd].
  rewrite !seq_Ok, !refuse_Ok, Ok_inj_iff, keyed_snoc. checks. rewrite keyed_unknown. tauto.
Qed.

Definition ContainerShapeOk (nodes : list NodePlan) (container : ContainerPlan) : Prop :=
  (ContainerPlan_ID container ≠ "" ∧ ContainerPlan_RuntimeID container ≠ "" ∧
   ContainerPlan_Image container ≠ "" ∧ ContainerPlan_NamespaceOwnerID container ≠ "") ∧
  (ContainerPlan_ImageDigest container = "" ∨ validDigest (ContainerPlan_ImageDigest container) = true) ∧
  ContainerPlan_NodeID container ∈ NodePlan_ID <$> nodes ∧
  (KeyValuesOk (ContainerPlan_Environment container) ∧ KeyValuesOk (ContainerPlan_Labels container) ∧
   KeyValuesOk (SecurityPlan_Sysctls (ContainerPlan_Security container))) ∧
  (Forall PortOk (ContainerPlan_Ports container) ∧ NoDup (ContainerPlan_Ports container)).

Lemma containers_Ok nodes containers s :
  rfold (containerStep (keyed NodePlan_ID nodes)) (∅, ∅) (imap pair containers) = Ok s ↔
  (Forall (ContainerShapeOk nodes) containers ∧
   NoDup (ContainerPlan_ID <$> containers) ∧ NoDup (ContainerPlan_RuntimeID <$> containers)) ∧
  s = (keyed ContainerPlan_ID containers, keySet ContainerPlan_RuntimeID containers).
Proof.
  rewrite <- eachPrefix_forall, <- !eachPrefix_fresh, <- !eachPrefix_and.
  apply (indexed_loop (containerStep (keyed NodePlan_ID nodes))
    (λ l, (keyed ContainerPlan_ID l, keySet ContainerPlan_RuntimeID l))).
  intros before i x s'. unfold containerStep, ContainerShapeOk. cbn [fst snd].
  rewrite !seq_Ok, !refuse_Ok, Ok_inj_iff, !unique_keys_Ok, ports_Ok, keyed_snoc, keySet_snoc. checks.
  rewrite keyed_unknown, keyed_known, elem_of_keySet. tauto.
Qed.

(** A loop that only checks, over an indexed slice. *)
Lemma checkIndexed_Ok {A} (check : nat * A → result PlanError unit) (P : A → Prop) l u :
  (∀ i x, check (i, x) = Ok () ↔ P x) → checkEach check (imap pair l) = Ok u ↔ Forall P l.
Proof.
  intros H. rewrite checkEach_Ok, !list.Forall_forall. split.
  - intros Hall x Hx. apply list_elem_of_lookup in Hx as [i Hi]. apply (H i). apply Hall.
    apply elem_of_lookup_imap. eauto.
  - intros Hall [i x] (j & y & [= -> ->] & Hy)%elem_of_lookup_imap. apply H, Hall. by eapply list_elem_of_lookup_2.
Qed.

Lemma owners_Ok containers u :
  checkEach (ownerStep (keyed ContainerPlan_ID containers)) (imap pair containers) = Ok u ↔
  Forall (λ container, ContainerPlan_NamespaceOwnerID container ∈ ContainerPlan_ID <$> containers) containers.
Proof.
  apply checkIndexed_Ok. intros i x. unfold ownerStep. rewrite refuse_Ok. checks. apply keyed_known.
Qed.

(** A reference to a part that has to satisfy [Q]. *)
Lemma reference_Ok {A} (key : A → string) (Q : A → Prop) `{∀ x, Decision (Q x)} l id :
  NoDup (key <$> l) →
  (match keyed key l !! id with Some x => negb (bool_decide (Q x)) | None => true end) = false ↔
  ∃ x, x ∈ l ∧ key x = id ∧ Q x.
Proof.
  intros Hnd. destruct (keyed key l !! id) as [x|] eqn:E.
  - pose proof E as E'. apply keyed_lookup in E' as [Hx Hk]; [|done]. checks. split; [eauto|].
    intros (y & Hy & Hky & HQ). assert (keyed key l !! id = Some y) as Ey by (by apply keyed_lookup). congruence.
  - split; [done|]. intros (y & Hy & Hky & _).
    assert (keyed key l !! id = Some y) as Ey by (by apply keyed_lookup). congruence.
Qed.

Definition NodeRefsOk (containers : list ContainerPlan) (node : NodePlan) : Prop :=
  (∀ id, id ∈ NodePlan_ContainerIDs node → ∃ container, container ∈ containers ∧
     ContainerPlan_ID container = id ∧ ContainerPlan_NodeID container = NodePlan_ID node) ∧
  (∀ id, id ∈ NodePlan_ReadinessContainerIDs node → id ∈ NodePlan_ContainerIDs node).

Lemma references_Ok containers nodes u :
  NoDup (ContainerPlan_ID <$> containers) →
  checkEach (referenceStep (keyed ContainerPlan_ID containers)) (imap pair nodes) = Ok u ↔
  Forall (NodeRefsOk containers) nodes.
Proof.
  intros Hnd. apply checkIndexed_Ok. intros i node. unfold referenceStep, NodeRefsOk. cbn [fst snd].
  rewrite seq_Ok, !checkEach_Ok, !list.Forall_forall. setoid_rewrite refuse_Ok.
  setoid_rewrite (reference_Ok ContainerPlan_ID (λ c, ContainerPlan_NodeID c = NodePlan_ID node) containers); [|done].
  setoid_rewrite elem_of_app. setoid_rewrite negb_false_iff. setoid_rewrite bool_decide_eq_true.
  setoid_rewrite elem_of_list_to_set. naive_solver.
Qed.

Lemma attributes_Ok field attributes u :
  (let? _ := rfold (attributeStep field) ∅ (imap pair attributes) in Ok ()) = Ok u ↔
  Forall AttributeOk attributes ∧ NoDup (ExtendedAttribute_Name <$> attributes).
Proof.
  rewrite forget_Ok.
  assert (∀ s, rfold (attributeStep field) ∅ (imap pair attributes) = Ok s ↔
    (Forall AttributeOk attributes ∧ NoDup (ExtendedAttribute_Name <$> attributes)) ∧
    s = keySet ExtendedAttribute_Name attributes) as H.
  { intros s. rewrite <- eachPrefix_forall, <- eachPrefix_fresh, <- eachPrefix_and.
    apply (indexed_loop (attributeStep field) (keySet ExtendedAttribute_Name)). intros before i x s'.
    unfold attributeStep, AttributeOk. cbn [fst snd]. rewrite seq_Ok, refuse_Ok, Ok_inj_iff, keySet_snoc. checks.
    rewrite elem_of_keySet. tauto. }
  setoid_rewrite H. naive_solver.
Qed.

Lemma artifact_Ok field file :
  (incompleteFile file = false ∧ validateArtifactKind field file = Ok ()) ↔
  FilePlan_ID file ≠ "" ∧
  FilePlan_SourceKind file ∈ [FileSourcePayload; FileSourceGenerator; FileSourceCertificate; FileSourceEmpty] ∧
  ArtifactOk file ∧
  (FilePlan_ArtifactPath file ≠ "" ∧ IsAbs (FilePlan_ArtifactPath file) = false ∧
    HasPrefix (Clean (FilePlan_ArtifactPath file)) "../" = false) ∧
  (FilePlan_Destination file = "" ∨ IsAbs (FilePlan_Destination file) = true) ∧ FilePlan_Mode file ≤ 511 ∧
  (validPortableOwnership (FilePlan_UID file) = true ∧ validPortableOwnership (FilePlan_GID file) = true).
Proof.
  unfold incompleteFile, validateArtifactKind, ArtifactOk, validFileSourceKind. cbv zeta.
  assert (ArtifactSymlink ≠ ArtifactRegular ∧ ArtifactDirectory ≠ ArtifactRegular ∧ ArtifactDirectory ≠ ArtifactSymlink)
    as (D1 & D2 & D3) by done.
  assert (ArtifactRegular = ArtifactRegular ∧ ArtifactSymlink = ArtifactSymlink ∧ ArtifactDirectory = ArtifactDirectory)
    as (R1 & R2 & R3) by done.
  destruct (decide (artifactKindOf file = ArtifactSymlink)) as [->|K1].
  { rewrite (bool_decide_eq_true_2 (ArtifactSymlink = ArtifactSymlink)), refuse_Ok by done. checks.
    assert (ArtifactSymlink ≠ ArtifactDirectory) by done. tauto. }
  rewrite (bool_decide_eq_false_2 (artifactKindOf file = ArtifactSymlink)) by done.
  destruct (decide (artifactKindOf file = ArtifactDirectory)) as [->|K2].
  { rewrite (bool_decide_eq_true_2 (ArtifactDirectory = ArtifactDirectory)), refuse_Ok by done. checks. tauto. }
  rewrite (bool_decide_eq_false_2 (artifactKindOf file = ArtifactDirectory)) by done. rewrite refuse_Ok. checks. tauto.
Qed.

Lemma files_Ok nodes files s :
  rfold (fileStep (keyed NodePlan_ID nodes)) ∅ (imap pair files) = Ok s ↔
  (Forall (FileOk nodes) files ∧ NoDup (FilePlan_ID <$> files)) ∧ s = keyed FilePlan_ID files.
Proof.
  rewrite <- eachPrefix_forall, <- eachPrefix_fresh, <- eachPrefix_and.
  apply (indexed_loop (fileStep (keyed NodePlan_ID nodes)) (keyed FilePlan_ID)). intros before i x s'.
  unfold fileStep. cbn [fst snd].
  rewrite !seq_Ok, !refuse_Ok, Ok_inj_iff, unique_keys_Ok, attributes_Ok, keyed_snoc.
  pose proof (artifact_Ok (indexed "files" i) x) as Ha. checks. rewrite keyed_unknown, keyed_known.
  rewrite Bool.eqb_true_iff. unfold empty at 1. rewrite bool_decide_same.
  assert (emptyList (FilePlan_ExtendedAttributes x) = true ↔ FilePlan_ExtendedAttributes x = []) as Hn
    by (by destruct (FilePlan_ExtendedAttributes x)).
  assert (FilePlan_SourceKind x ≠ FileSourcePayload ∨ FilePlan_Destination x ≠ "" ↔
    (FilePlan_SourceKind x = FileSourcePayload → FilePlan_Destination x ≠ "")) as Hd
    by (destruct (decide (FilePlan_SourceKind x = FileSourcePayload)); tauto).
  rewrite Hn, Hd. split.
  - intros (H1 & H2 & H3 & H4 & H5 & H6 & H7 & H8 & H9 & H10 & H11).
    destruct (proj1 Ha (conj H1 H2)) as (A1 & A2 & A3 & A4 & A5 & A6 & A7).
    split; [|done]. split; [|done]. clear Ha Hn Hd.
    constructor; first [assumption | by destruct H3, H4; split_and!].
  - intros [[[F1 F2 F3 F4 F5 F6 F7 F8 F9 F10 F11 F12 F13] Hf] Hs].
    destruct (proj2 Ha) as [A1 A2]; [exact (conj F1 (conj F2 (conj F3 (conj F4 (conj F5 (conj F6 F7))))))|].
    destruct F8 as (B1 & B2 & B3). exact (conj A1 (conj A2 (conj (conj B1 B2) (conj B3 (conj F9 (conj F10
      (conj F11 (conj F12 (conj F13 (conj Hf Hs)))))))))).
Qed.

Lemma volumes_Ok nodes volumes s :
  rfold (volumeStep (keyed NodePlan_ID nodes)) ∅ (imap pair volumes) = Ok s ↔
  (Forall (VolumeOk nodes) volumes ∧ NoDup (VolumePlan_ID <$> volumes)) ∧ s = keyed VolumePlan_ID volumes.
Proof.
  rewrite <- eachPrefix_forall, <- eachPrefix_fresh, <- eachPrefix_and.
  apply (indexed_loop (volumeStep (keyed NodePlan_ID nodes)) (keyed VolumePlan_ID)). intros before i x s'.
  unfold volumeStep, VolumeOk, validVolumeKind. cbn [fst snd].
  rewrite !seq_Ok, !refuse_Ok, Ok_inj_iff, keyed_snoc. checks. rewrite keyed_unknown, keyed_known. tauto.
Qed.

Lemma mounts_Ok containers volumes mounts s :
  rfold (mountStep (keyed ContainerPlan_ID containers) (keyed VolumePlan_ID volumes)) ∅ (imap pair mounts) = Ok s ↔
  (Forall (MountOk containers volumes) mounts ∧ NoDup (MountPlan_ID <$> mounts)) ∧ s = keyed MountPlan_ID mounts.
Proof.
  rewrite <- eachPrefix_forall, <- eachPrefix_fresh, <- eachPrefix_and.
  apply (indexed_loop (mountStep (keyed ContainerPlan_ID containers) (keyed VolumePlan_ID volumes)) (keyed MountPlan_ID)).
  intros before i x s'. unfold mountStep, MountOk. cbn [fst snd].
  rewrite !seq_Ok, !refuse_Ok, Ok_inj_iff, keyed_snoc. checks. rewrite keyed_unknown, !keyed_known.
  assert (IsAbs (MountPlan_Destination x) = true → MountPlan_Destination x ≠ "") as Hne by (intros H E; by rewrite E in H).
  tauto.
Qed.

Lemma mountReferences_Ok mounts containers u :
  NoDup (MountPlan_ID <$> mounts) →
  checkEach (mountReferenceStep (keyed MountPlan_ID mounts)) (imap pair containers) = Ok u ↔
  Forall (λ container, ∀ id, id ∈ ContainerPlan_MountIDs container → ∃ mount, mount ∈ mounts ∧
    MountPlan_ID mount = id ∧ MountPlan_ContainerID mount = ContainerPlan_ID container) containers.
Proof.
  intros Hnd. apply checkIndexed_Ok. intros i container. unfold mountReferenceStep. cbn [fst snd].
  rewrite checkEach_Ok, list.Forall_forall. setoid_rewrite refuse_Ok.
  by setoid_rewrite (reference_Ok MountPlan_ID (λ m, MountPlan_ContainerID m = ContainerPlan_ID container) mounts); [|done].
Qed.

Lemma mesh_Ok field mesh : validateManagementMesh field mesh = Ok () ↔ MeshOk mesh.
Proof. unfold validateManagementMesh, MeshOk. rewrite seq_Ok, !refuse_Ok. checks. tauto. Qed.

Lemma contract_Ok field item contract : validateContract field item contract = Ok () ↔ ContractOk item contract.
Proof.
  unfold validateContract. rewrite !seq_Ok, !refuse_Ok, !checkEach_Ok. unfold validatePortMap.
  assert (match ManagementInterposition_Mesh contract with
          | None => Ok () | Some mesh => validateManagementMesh (field +:+ ".interposition.mesh") mesh end = Ok ()
          ↔ ∀ mesh, ManagementInterposition_Mesh contract = Some mesh → MeshOk mesh) as ->.
  { destruct (ManagementInterposition_Mesh contract) as [mesh|]; [rewrite mesh_Ok|]; naive_solver. }
  setoid_rewrite refuse_Ok. setoid_rewrite bool_decide_eq_false.
  assert (∀ port, (negb (bool_decide (ManagementPortMap_Protocol port = protocolTCP))
      && negb (bool_decide (ManagementPortMap_Protocol port = protocolUDP)) || Z.eqb (ManagementPortMap_PodPort port) 0
      || Z.eqb (ManagementPortMap_DevicePort port) 0) = false ↔
    (ManagementPortMap_Protocol port = protocolTCP ∨ ManagementPortMap_Protocol port = protocolUDP) ∧
    ManagementPortMap_PodPort port ≠ 0 ∧ ManagementPortMap_DevicePort port ≠ 0) as Hp by (intros port; checks; tauto).
  setoid_rewrite Hp. checks. split.
  - intros (H1 & H2 & H3 & H4 & H5 & H6). by constructor.
  - intros [H1 H2 H3 H4 H5 H6]. tauto.
Qed.

Lemma managementItem_Ok field item :
  (incompleteManagement item = false ∧ validateManagementInterposition field item = Ok ()) ↔
  ManagementPlan_ID item ≠ "" ∧
  ((ManagementPlan_InterfaceName item ≠ "" ∧ ManagementPlan_InterfaceSelector item = "" ∧
    ManagementPlan_Interposition item = None) ∨
   (ManagementPlan_InterfaceName item = "" ∧ ManagementPlan_InterfaceSelector item = ManagementInterfacePodTransport ∧
    ManagementPlan_Interposition item = None) ∨
   (ManagementPlan_InterfaceName item = "" ∧ ManagementPlan_InterfaceSelector item = ManagementInterfaceInterposed ∧
    ∃ contract, ManagementPlan_Interposition item = Some contract ∧ ContractOk item contract)).
Proof.
  unfold incompleteManagement, validateManagementInterposition.
  assert (ManagementInterfacePodTransport ≠ ManagementInterfaceInterposed ∧ ManagementInterfacePodTransport ≠ "" ∧
    ManagementInterfaceInterposed ≠ "") as (D1 & D2 & D3) by done.
  destruct (decide (ManagementPlan_InterfaceSelector item = ManagementInterfaceInterposed)) as [E|E].
  - rewrite E, (bool_decide_eq_true_2 (ManagementInterfaceInterposed = ManagementInterfaceInterposed)) by done. cbn [negb]. checks.
    destruct (ManagementPlan_Interposition item) as [contract|]; [rewrite contract_Ok|]; naive_solver.
  - rewrite (bool_decide_eq_false_2 (ManagementPlan_InterfaceSelector item = ManagementInterfaceInterposed)) by done.
    cbn [negb]. rewrite refuse_Ok. checks. rewrite <- eq_None_not_Some.
    assert (ManagementPlan_InterfaceSelector item = ManagementInterfacePodTransport →
      ManagementPlan_InterfaceSelector item ≠ "") by congruence.
    tauto.
Qed.

Lemma management_Ok nodes management s :
  rfold (managementStep (keyed NodePlan_ID nodes)) (∅, ∅) (imap pair management) = Ok s ↔
  (Forall (ManagementOk nodes) management ∧ NoDup (ManagementPlan_ID <$> management) ∧
   NoDup (ManagementPlan_NodeID <$> management)) ∧
  s = (keyed ManagementPlan_ID management, keySet ManagementPlan_NodeID management).
Proof.
  rewrite <- eachPrefix_forall, <- !eachPrefix_fresh, <- !eachPrefix_and.
  apply (indexed_loop (managementStep (keyed NodePlan_ID nodes))
    (λ l, (keyed ManagementPlan_ID l, keySet ManagementPlan_NodeID l))).
  intros before i x s'. unfold managementStep, ManagementOk. cbn [fst snd].
  rewrite !seq_Ok, !refuse_Ok, Ok_inj_iff, keyed_snoc, keySet_snoc.
  pose proof (managementItem_Ok (indexed "management" i) x) as Hi. checks.
  rewrite keyed_unknown, keyed_known, elem_of_keySet. tauto.
Qed.

Lemma interfaces_Ok nodes containers interfaces s :
  rfold (interfaceStep (keyed NodePlan_ID nodes) (keyed ContainerPlan_ID containers)) ∅ (imap pair interfaces) = Ok s ↔
  (Forall (InterfaceOk nodes containers) interfaces ∧ NoDup (InterfacePlan_ID <$> interfaces)) ∧
  s = keyed InterfacePlan_ID interfaces.
Proof.
  rewrite <- eachPrefix_forall, <- eachPrefix_fresh, <- eachPrefix_and.
  apply (indexed_loop (interfaceStep (keyed NodePlan_ID nodes) (keyed ContainerPlan_ID containers)) (keyed InterfacePlan_ID)).
  intros before i x s'. unfold interfaceStep, InterfaceOk, validLinkApplyMode. cbn [fst snd].
  rewrite !seq_Ok, !refuse_Ok, Ok_inj_iff, keyed_snoc. checks. rewrite keyed_unknown, !keyed_known. tauto.
Qed.
