(* ===== verification/PlanAcceptance.v ===== *)
(** * Device plans: the plans that are accepted

    The checks of actions against the maps of the plan, and [validatePlan] as a whole: it
    accepts exactly the plans of [PlanOk]. *)

From S2P Require Import Prelude Api GoStrings GoNet GoSort DevicePlanTypes PlanValidation PlanSpec.
Local Open Scope Z_scope.

Definition indexOf (plan : Plan) : planIndex :=
  MkPlanIndex (keyed FilePlan_ID (Plan_Files plan)) (keyed VolumePlan_ID (Plan_Volumes plan))
    (keyed MountPlan_ID (Plan_Mounts plan)) (keyed ManagementPlan_ID (Plan_Management plan))
    (keyed InterfacePlan_ID (Plan_Interfaces plan)).

(** What the checks of actions rely on: the ids of the parts they refer to. *)
Record identified (plan : Plan) : Prop := {
  id_files : NoDup (FilePlan_ID <$> Plan_Files plan) ∧ "" ∉ FilePlan_ID <$> Plan_Files plan;
  id_volumes : NoDup (VolumePlan_ID <$> Plan_Volumes plan);
  id_mounts : NoDup (MountPlan_ID <$> Plan_Mounts plan) ∧ "" ∉ MountPlan_ID <$> Plan_Mounts plan;
  id_management : "" ∉ ManagementPlan_ID <$> Plan_Management plan;
  id_interfaces : "" ∉ InterfacePlan_ID <$> Plan_Interfaces plan
}.

Section actions.
Context (plan : Plan) (Hid : identified plan).

Lemma file_lookup id file :
  keyed FilePlan_ID (Plan_Files plan) !! id = Some file ↔ file ∈ Plan_Files plan ∧ FilePlan_ID file = id.
Proof. apply keyed_lookup, Hid. Qed.

Lemma regular_Ok id :
  (match keyed FilePlan_ID (Plan_Files plan) !! id with Some file => regular file | None => false end) = true ↔
  hasRegular plan id.
Proof.
  unfold hasRegular. destruct (keyed FilePlan_ID (Plan_Files plan) !! id) as [file|] eqn:E.
  - unfold regular. rewrite bool_decide_eq_true. pose proof E as [Hf <-]%file_lookup. split; [eauto|].
    intros (file' & Hf' & Hid' & Hk). assert (Some file = Some file') as [= ->]; [|done].
    rewrite <- E. by apply file_lookup.
  - split; [done|]. intros (file & Hf & Hi & _).
    assert (keyed FilePlan_ID (Plan_Files plan) !! id = Some file) by (by apply file_lookup). congruence.
Qed.

Lemma no_regular_empty : ¬ hasRegular plan "".
Proof.
  intros (file & Hf & Hi & _). apply (proj2 (id_files _ Hid)). rewrite <- Hi. by apply list_elem_of_fmap_2.
Qed.

Lemma validFile_Ok action :
  validFile (indexOf plan) action = true ↔
  ∃ payload file, Action_File action = Some payload ∧ file ∈ Plan_Files plan ∧
    FilePlan_ID file = FileAction_FileID payload ∧
    FileAction_WriteMode payload ∈ [""; FileWriteReplace; FileWriteAppend] ∧
    (Action_Phase action = PhasePostStart →
       FileAction_Destination payload ≠ "" ∧ FilePlan_ArtifactKind file = ArtifactRegular).
Proof.
  unfold validFile. cbn [ixFiles indexOf]. destruct (Action_File action) as [payload|]; cbn [valueOrEmpty].
  2: { split; [by destruct (_ !! _)|naive_solver]. }
  destruct (keyed FilePlan_ID (Plan_Files plan) !! FileAction_FileID payload) as [file|] eqn:E.
  - pose proof E as [Hf Hi]%file_lookup. rewrite andb_true_iff.
    assert ((if bool_decide (Action_Phase action = PhasePostStart)
             then negb (empty (FileAction_Destination payload)) && regular file else true) = true ↔
      (Action_Phase action = PhasePostStart →
       FileAction_Destination payload ≠ "" ∧ FilePlan_ArtifactKind file = ArtifactRegular)) as ->.
    { unfold regular. case_bool_decide; checks; naive_solver. }
    assert (empty (FileAction_WriteMode payload) || bool_decide (FileAction_WriteMode payload = FileWriteReplace)
      || bool_decide (FileAction_WriteMode payload = FileWriteAppend) = true ↔
      FileAction_WriteMode payload ∈ [""; FileWriteReplace; FileWriteAppend]) as ->.
    { checks. rewrite !elem_of_cons, elem_of_nil. tauto. }
    split; [intros [H1 H2]; by exists payload, file|].
    intros (p & f & [= <-] & Hf' & Hi' & H1 & H2). assert (Some file = Some f) as [= ->]; [|done].
    rewrite <- E. by apply file_lookup.
  - split; [done|]. intros (p & f & [= <-] & Hf' & Hi' & _).
    assert (keyed FilePlan_ID (Plan_Files plan) !! FileAction_FileID payload = Some f) by (by apply file_lookup).
    congruence.
Qed.

Lemma options_Ok options :
  forallb (λ option, negb (empty option) && negb (containsControl option)) options = true ↔
  Forall (λ option, option ≠ "" ∧ containsControl option = false) options.
Proof.
  rewrite forallb_forall, list.Forall_forall. setoid_rewrite list_elem_of_In.
  apply forall_proper. intros option. checks. done.
Qed.

Lemma validMount_Ok action :
  validMount (indexOf plan) action = true ↔
  ∃ payload mount volume, Action_Mount action = Some payload ∧
    mount ∈ Plan_Mounts plan ∧ MountPlan_ID mount = MountAction_MountID payload ∧
    volume ∈ Plan_Volumes plan ∧ VolumePlan_ID volume = MountPlan_VolumeID mount ∧
    VolumePlan_Kind volume = VolumeEmptyDir ∧ EqualFold (VolumePlan_Medium volume) "Memory" = true ∧
    MountAction_Filesystem payload = filesystemTmpfs ∧ MountAction_Source payload = filesystemTmpfs ∧
    Action_Phase action = PhasePreStart ∧
    ActionTarget_ContainerID (Action_Target action) = MountPlan_ContainerID mount ∧
    Forall (λ option, option ≠ "" ∧ containsControl option = false) (MountAction_Options payload).
Proof.
  unfold validMount. cbn [ixMounts ixVolumes indexOf]. pose proof (proj1 (id_mounts _ Hid)) as Hm.
  pose proof (id_volumes _ Hid) as Hv.
  destruct (Action_Mount action) as [payload|]; cbn [valueOrEmpty].
  2: { split; [by destruct (_ !! _)|naive_solver]. }
  destruct (keyed MountPlan_ID (Plan_Mounts plan) !! MountAction_MountID payload) as [mount|] eqn:E.
  2: { split; [done|]. intros (p & m & v & [= <-] & H1 & H2 & _).
       assert (keyed MountPlan_ID (Plan_Mounts plan) !! MountAction_MountID payload = Some m) by (by apply keyed_lookup).
       congruence. }
  destruct (keyed VolumePlan_ID (Plan_Volumes plan) !! MountPlan_VolumeID mount) as [volume|] eqn:F.
  - pose proof E as [E1 E2]%keyed_lookup; [|done]. pose proof F as [F1 F2]%keyed_lookup; [|done].
    rewrite !andb_true_iff, !bool_decide_eq_true, options_Ok. split.
    + intros ((((((H1 & H2) & H3) & H4) & H5) & H6) & H7). exists payload, mount, volume. by split_and!.
    + intros (p & m & v & [= <-] & G1 & G2 & G3 & G4 & H1 & H2 & H3 & H4 & H5 & H6 & H7).
      assert (m = mount) as -> by (eapply NoDup_key_inj; [exact Hm|done..|congruence]).
      assert (v = volume) as -> by (eapply NoDup_key_inj; [exact Hv|done..|congruence]). by split_and!.
  - pose proof E as [E1 E2]%keyed_lookup; [|done]. split; [done|].
    intros (p & m & v & [= <-] & G1 & G2 & G3 & G4 & _).
    assert (m = mount) as -> by (eapply NoDup_key_inj; [exact Hm|done..|congruence]).
    assert (keyed VolumePlan_ID (Plan_Volumes plan) !! MountPlan_VolumeID mount = Some v) by (by apply keyed_lookup).
    congruence.
Qed.

Lemma validSave_Ok action :
  validSave (indexOf plan) action = true ↔
  ∃ payload, Action_Save action = Some payload ∧ SaveAction_Method payload = SaveMethodImported ∧
    Action_Phase action = PhaseSave ∧ ActionTarget_ContainerID (Action_Target action) ≠ "" ∧
    (SaveAction_FileID payload ≠ "" → hasRegular plan (SaveAction_FileID payload)).
Proof.
  unfold validSave. cbn [ixFiles indexOf]. destruct (Action_Save action) as [payload|]; [|naive_solver].
  rewrite !andb_true_iff, !bool_decide_eq_true, negb_true_iff, empty_false.
  assert ((if empty (SaveAction_FileID payload) then true
    else match keyed FilePlan_ID (Plan_Files plan) !! SaveAction_FileID payload with
         | Some file => regular file | None => false end) = true ↔
    (SaveAction_FileID payload ≠ "" → hasRegular plan (SaveAction_FileID payload))) as ->.
  { destruct (empty (SaveAction_FileID payload)) eqn:E; checks_in E; [naive_solver|]. rewrite regular_Ok. naive_solver. }
  naive_solver.
Qed.

(** A payload is identified by a part of the plan, whose id is not empty. *)
Lemma named_Ok {A B} (key : A → string) (parts : list A) (payload : option B) (get : B → string) (extra : B → bool) :
  "" ∉ key <$> parts →
  known (keyed key parts) (valueOrEmpty payload get) && (match payload with Some p => extra p | None => false end) = true ↔
  ∃ p, payload = Some p ∧ get p ∈ key <$> parts ∧ extra p = true.
Proof.
  intros Hne. rewrite andb_true_iff, keyed_known. destruct payload as [p|]; cbn [valueOrEmpty]; naive_solver.
Qed.

(** Evaluates the comparisons between constants. *)
Ltac eval_kinds := repeat match goal with
  | |- context [bool_decide (?a = ?b)] => change (bool_decide (a = b)) with true
  | |- context [bool_decide (?a = ?b)] => change (bool_decide (a = b)) with false
  end; cbv iota.

Lemma validKind_complete action : PayloadOk plan action → validKind (indexOf plan) action = Some true.
Proof.
  pose proof (id_management _ Hid) as Hm. pose proof (id_interfaces _ Hid) as Hi.
  intros H. unfold validKind. cbv zeta. cbn [ixFiles ixInterfaces ixManagement indexOf].
  destruct H as [p K ? ?|p f K ? ? ? ? ?|p K E ?|p m v K ? ? ? ? ? ? ? ? ? ? ? ?|p K E ?|p K E ? ?|p K E ? ? ?|p K E ?
    |p K E P C O|p K E P C|p K E P C|p K ? ? ? ? ?]; rewrite K; eval_kinds; f_equal.
  - rewrite H. checks. done.
  - apply validFile_Ok. by exists p, f.
  - rewrite E. cbn [valueOrEmpty]. by apply regular_Ok.
  - apply validMount_Ok. exists p, m, v. by split_and!.
  - rewrite E. checks. done.
  - apply (named_Ok InterfacePlan_ID _ _ _ (λ p, Z.ltb 0 (WaitInterfaceAction_TimeoutSeconds p)) Hi). exists p.
    split_and!; [done..|]. checks. done.
  - apply (named_Ok InterfacePlan_ID _ _ _ (λ p, negb (empty (RenameInterfaceAction_From p)) && negb (empty (RenameInterfaceAction_To p))) Hi).
    exists p. split_and!; [done..|]. checks. done.
  - rewrite E. cbn [valueOrEmpty]. by apply keyed_known.
  - rewrite E, P, (bool_decide_eq_true_2 (is_Some (Some p))) by done. checks. split_and!; done.
  - rewrite E, P, (bool_decide_eq_true_2 (is_Some (Some p))) by done. checks. split_and!; done.
  - rewrite E, P, (bool_decide_eq_true_2 (is_Some (Some p))) by done. checks. split_and!; done.
  - apply validSave_Ok. by exists p.
Qed.

Lemma validKind_sound action : validKind (indexOf plan) action = Some true → PayloadOk plan action.
Proof.
  pose proof (id_management _ Hid) as Hm. pose proof (id_interfaces _ Hid) as Hi.
  unfold validKind. cbv zeta. cbn [ixFiles ixInterfaces ixManagement indexOf].
  case_bool_decide as K; [|clear K; case_bool_decide as K; [|clear K; case_bool_decide as K; [|clear K; case_bool_decide as K;
    [|clear K; case_bool_decide as K; [|clear K; case_bool_decide as K; [|clear K; case_bool_decide as K; [|clear K; case_bool_decide as K;
    [|clear K; case_bool_decide as K; [|clear K; case_bool_decide as K; [|clear K; case_bool_decide as K; [|clear K; case_bool_decide as K;
    [|done]]]]]]]]]]]]; intros [= H].
  - destruct (Action_Exec action) as [p|] eqn:E; [|done]. checks_in H. by eapply exec_ok.
  - apply validFile_Ok in H as (p & f & ? & ? & ? & ? & ?). by eapply file_ok.
  - apply regular_Ok in H. destruct (Action_WriteStdin action) as [p|] eqn:E; [by eapply stdin_ok|].
    by destruct no_regular_empty.
  - apply validMount_Ok in H as (p & m & v & ? & ? & ? & ? & ? & ? & ? & ? & ? & ? & ? & ?). by eapply mount_ok.
  - destruct (Action_Sysctl action) as [p|] eqn:E; [|done]. checks_in H. by eapply sysctl_ok.
  - apply (named_Ok InterfacePlan_ID _ _ _ (λ p, Z.ltb 0 (WaitInterfaceAction_TimeoutSeconds p)) Hi) in H as (p & ? & ? & Ht).
    checks_in Ht. by eapply wait_ok.
  - apply (named_Ok InterfacePlan_ID _ _ _ (λ p, negb (empty (RenameInterfaceAction_From p)) && negb (empty (RenameInterfaceAction_To p))) Hi)
      in H as (p & ? & ? & Ht). checks_in Ht. destruct Ht. by eapply rename_ok.
  - apply keyed_known in H. destruct (Action_ManagementForwarding action) as [p|] eqn:E; [by eapply forwarding_ok|done].
  - checks_in H. destruct H as [[[[p E] P] C] O]. by eapply endpoints_ok.
  - checks_in H. destruct H as [[[p E] P] C]. by eapply postdeploy_ok.
  - checks_in H. destruct H as [[[p E] P] C]. by eapply readiness_ok.
  - apply validSave_Ok in H as (p & ? & ? & ? & ? & ?). by eapply save_ok.
Qed.

Lemma payload_Ok field action :
  validateActionPayload (indexOf plan) action field = Ok () ↔ payloads action = 1%nat ∧ PayloadOk plan action.
Proof.
  unfold validateActionPayload. rewrite seq_Ok, refuse_Ok, negb_false_iff, Nat.eqb_eq.
  assert (match validKind (indexOf plan) action with
    | None => Err (planningError ErrorUnsupported (field +:+ ".kind") "action kind is unsupported")
    | Some valid => refuse (negb valid) ErrorInvariant field "typed action payload is incomplete or mismatched" end = Ok ()
    ↔ validKind (indexOf plan) action = Some true) as ->.
  { destruct (validKind _ _) as [[]|]; cbn; naive_solver. }
  split; intros [H1 H2]; (split; [done|]); [by apply validKind_sound|by apply validKind_complete].
Qed.

Lemma actions_Ok actions s :
  rfold (actionStep (keyed NodePlan_ID (Plan_Nodes plan)) (keyed ContainerPlan_ID (Plan_Containers plan)) (indexOf plan)) ∅
    (imap pair actions) = Ok s ↔
  (Forall (ActionOk plan) actions ∧ NoDup (Action_ID <$> actions)) ∧ s = keySet Action_ID actions.
Proof.
  rewrite <- eachPrefix_forall, <- eachPrefix_fresh, <- eachPrefix_and.
  apply (indexed_loop (actionStep _ _ _) (keySet Action_ID)). intros before i x s'.
  unfold actionStep, validActionPhase. cbn [fst snd].
  rewrite !seq_Ok, !refuse_Ok, Ok_inj_iff, keySet_snoc, payload_Ok. checks. rewrite elem_of_keySet, !keyed_known. split.
  - intros (H1 & H2 & H3 & H4 & H5 & [H6 H7] & H8). split; [|done]. split; [by constructor|done].
  - intros [[[H1 H2 H3 H4 H5 H6] H7] H8]. tauto.
Qed.
End actions.

Lemma identified_parts plan :
  Forall (FileOk (Plan_Nodes plan)) (Plan_Files plan) ∧ NoDup (FilePlan_ID <$> Plan_Files plan) →
  NoDup (VolumePlan_ID <$> Plan_Volumes plan) →
  Forall (MountOk (Plan_Containers plan) (Plan_Volumes plan)) (Plan_Mounts plan) ∧ NoDup (MountPlan_ID <$> Plan_Mounts plan) →
  Forall (ManagementOk (Plan_Nodes plan)) (Plan_Management plan) →
  Forall (InterfaceOk (Plan_Nodes plan) (Plan_Containers plan)) (Plan_Interfaces plan) → identified plan.
Proof.
  intros [F1 F2] V [M1 M2] G I.
  assert (∀ {A} (key : A → string) (P : A → Prop) l, Forall P l → (∀ x, P x → key x ≠ "") → "" ∉ key <$> l) as Hne.
  { intros A key P l Hall Hk (x & Hx & Hin)%list_elem_of_fmap. rewrite list.Forall_forall in Hall. by eapply Hk; [apply Hall|]. }
  split; [split| |split| |]; try done.
  - eapply Hne; [exact F1|]. intros x Hx. apply Hx.
  - eapply Hne; [exact M1|]. intros x Hx. apply Hx.
  - eapply Hne; [exact G|]. intros x Hx. apply Hx.
  - eapply Hne; [exact I|]. intros x Hx. apply Hx.
Qed.

(** ** The whole plan *)

Lemma header_Ok schema compatibility u : validateHeader schema compatibility = Ok u ↔ HeaderOk schema compatibility.
Proof. destruct u. unfold validateHeader, HeaderOk. rewrite seq_Ok, !refuse_Ok. checks. tauto. Qed.

(** The checks of a Node, and of a container, are spread over several loops. *)
Lemma nodeOk_iff containers node :
  (∀ container, container ∈ containers → ContainerPlan_ID container ≠ "") →
  NodeOk containers node ↔ NodeShapeOk node ∧ NodeRefsOk containers node.
Proof.
  intros Hids. unfold NodeShapeOk, NodeRefsOk. rewrite !duplicates_spec. split.
  - intros [H1 H2 [H3 H3'] H4 H5]. assert ("" ∉ NodePlan_ContainerIDs node) as Hne.
    { intros Hin. destruct (H4 _ Hin) as (c & Hc & He & _). by apply (Hids c). }
    assert ("" ∉ NodePlan_ReadinessContainerIDs node) by (intros Hin; by apply Hne, H5). tauto.
  - intros [(H1 & H2 & [H3 _] & [H4 _]) [H5 H6]]. by constructor.
Qed.

Lemma containerOk_iff plan container :
  ContainerOk plan container ↔
  ContainerShapeOk (Plan_Nodes plan) container ∧
  ContainerPlan_NamespaceOwnerID container ∈ ContainerPlan_ID <$> Plan_Containers plan ∧
  (∀ id, id ∈ ContainerPlan_MountIDs container → ∃ mount, mount ∈ Plan_Mounts plan ∧
    MountPlan_ID mount = id ∧ MountPlan_ContainerID mount = ContainerPlan_ID container).
Proof.
  unfold ContainerShapeOk. split.
  - intros [H1 H2 H3 H4 H5 H6 H7]. exact (conj (conj H1 (conj H2 (conj H3 (conj H5 H6)))) (conj H4 H7)).
  - intros [(H1 & H2 & H3 & H5 & H6) [H4 H7]]. by constructor.
Qed.

Lemma validatePlan_spec plan : validatePlan plan = Ok () ↔ PlanOk plan.
Proof.
  unfold validatePlan. rewrite !seq_Ok, header_Ok, !refuse_Ok. split.
  - intros (Hh & Hd & Hp & Hi & H). checks_in Hd. checks_in Hp. checks_in Hi.
    apply let_Ok in H as (nodes & [[N1 N2] ->]%nodes_Ok & H).
    apply let_Ok in H as (st & [(C1 & C2 & C3) ->]%containers_Ok & H). cbn [fst] in H.
    apply seq_Ok in H as [O%owners_Ok H]. apply seq_Ok in H as [R H]. apply references_Ok in R; [|done].
    apply let_Ok in H as (files & [[F1 F2] ->]%files_Ok & H). apply let_Ok in H as (volumes & [[V1 V2] ->]%volumes_Ok & H).
    apply let_Ok in H as (mounts & [[M1 M2] ->]%mounts_Ok & H). apply seq_Ok in H as [MR H].
    apply mountReferences_Ok in MR; [|done]. apply let_Ok in H as (mg & [(G1 & G2 & G3) ->]%management_Ok & H).
    apply let_Ok in H as (ifs & [[I1 I2] ->]%interfaces_Ok & H). cbn [fst] in H.
    apply let_Ok in H as (acts & H & _). fold (indexOf plan) in H.
    assert (identified plan) as Hid by (by apply identified_parts). apply (actions_Ok plan Hid) in H as [A _].
    rewrite list.Forall_forall in N1. rewrite list.Forall_forall in R. rewrite list.Forall_forall in C1.
    rewrite list.Forall_forall in O. rewrite list.Forall_forall in MR.
    split; try done.
    + split; [|done]. apply list.Forall_forall. intros node Hn. apply nodeOk_iff; [|by split; [apply N1|apply R]].
      intros c Hc. by destruct (C1 c Hc) as [(? & _) _].
    + split; [|done]. apply list.Forall_forall. intros c Hc. apply containerOk_iff.
      by split_and!; [apply C1|apply O|apply MR].
  - intros [Hh Hd Hp Hi [N1 N2] (C1 & C2 & C3) HF HV HM HG HI HA].
    assert (identified plan) as Hid by (by apply identified_parts; [| apply HV| |apply HG|apply HI]).
    rewrite list.Forall_forall in N1. rewrite list.Forall_forall in C1. setoid_rewrite containerOk_iff in C1.
    assert (∀ c, c ∈ Plan_Containers plan → ContainerPlan_ID c ≠ "") as Hids by (intros c Hc; apply (C1 c Hc)).
    assert (∀ node, node ∈ Plan_Nodes plan → NodeShapeOk node ∧ NodeRefsOk (Plan_Containers plan) node) as N3.
    { intros node Hn. apply nodeOk_iff; [done|]. by apply N1. }
    split; [done|]. split; [by checks|]. split; [by checks|]. split; [by checks|].
    apply let_Ok. eexists. split; [apply nodes_Ok; split; [split; [|done]|done]|].
    { apply list.Forall_forall. intros node Hn. by apply N3. }
    apply let_Ok. eexists. split; [apply containers_Ok; split; [split; [|done]|done]|]. 
    { apply list.Forall_forall. intros c Hc. by apply C1. }
    cbn [fst]. apply seq_Ok. split; [apply owners_Ok, list.Forall_forall; intros c Hc; by apply C1|].
    apply seq_Ok. split; [apply references_Ok, list.Forall_forall; [done|]; intros node Hn; by apply N3|].
    apply let_Ok. eexists. split; [by apply files_Ok|]. apply let_Ok. eexists. split; [by apply volumes_Ok|].
    apply let_Ok. eexists. split; [by apply mounts_Ok|].
    apply seq_Ok. split; [apply mountReferences_Ok, list.Forall_forall; [apply HM|]; intros c Hc; by apply C1|].
    apply let_Ok. eexists. split; [by apply management_Ok|]. apply let_Ok. eexists. split; [by apply interfaces_Ok|].
    cbn [fst]. fold (indexOf plan). apply let_Ok. eexists. split; [by apply (actions_Ok plan Hid)|done].
Qed.
