(* ===== verification/PlanCodec.v ===== *)
(** * Device plans: normal form, digest and codec

    Models [NormalizePlan], [CanonicalJSON], [Digest] and [DecodePlan] of
    [internal/deviceplan/codec.go]: a plan is copied through JSON, defaults are filled in, it
    is validated, and every field whose order does not matter is sorted; the serialization of
    the result is what plans are identified by.

    The JSON text is an argument with the one law that is used: strictly decoding what was
    encoded gives the copy. *)

From S2P Require Import Prelude WireCodec Api GoStrings GoNet GoSort DevicePlanTypes Management.
From S2P Require Import PlanValidation.
Local Open Scope Z_scope.

(** ** Comparison functions *)

Definition compareKeyValue : KeyValue → KeyValue → Z := onKey KeyValue_Name Compare.
Definition comparePort : Port → Port → Z :=
  thenBy (onKey Port_Number compareInt) (onKey Port_Protocol Compare).
Definition compareDevice : Device → Device → Z :=
  thenBy (onKey Device_ContainerPath Compare) (onKey Device_HostPath Compare).
Definition compareRoute : Route → Route → Z :=
  thenBy (onKey Route_Destination Compare)
    (thenBy (onKey Route_Gateway Compare) (onKey Route_Metric compareInt)).
Definition comparePortMap : ManagementPortMap → ManagementPortMap → Z :=
  thenBy (onKey ManagementPortMap_Protocol Compare) (onKey ManagementPortMap_PodPort Z.sub).

Fixpoint rankFrom (index : Z) (candidates : list string) (phase : string) : Z :=
  match candidates with
  | [] => -1
  | candidate :: candidates =>
      if bool_decide (phase = candidate) then index else rankFrom (index + 1) candidates phase
  end.
Definition actionPhaseRank (phase : string) : Z := rankFrom 0 phases phase.
Definition compareAction : Action → Action → Z :=
  thenBy (onKey (λ action, actionPhaseRank (Action_Phase action)) compareInt)
    (thenBy (onKey Action_Order compareInt) (onKey Action_ID Compare)).

(** ** Defaults *)

Definition defaultRuntimeID (container : ContainerPlan) : ContainerPlan :=
  if empty (ContainerPlan_RuntimeID container)
  then container <| ContainerPlan_RuntimeID := ContainerPlan_ID container |> else container.
Definition defaultArtifactKind (file : FilePlan) : FilePlan :=
  if empty (FilePlan_ArtifactKind file) then file <| FilePlan_ArtifactKind := ArtifactRegular |> else file.
Definition withDefaults (plan : Plan) : Plan :=
  plan <| Plan_Containers := defaultRuntimeID <$> Plan_Containers plan |>
       <| Plan_Files := defaultArtifactKind <$> Plan_Files plan |>.

Section codec.
Context {sort : GoSort}.

(** ** Sorting *)

Definition normalizeNode (node : NodePlan) : NodePlan :=
  node <| NodePlan_ReadinessContainerIDs := sort_strings (NodePlan_ReadinessContainerIDs node) |>
       <| NodePlan_Aliases := sort_strings (NodePlan_Aliases node) |>.

Definition normalizeSecurity (security : SecurityPlan) : SecurityPlan :=
  security <| SecurityPlan_CapabilitiesAdd := sort_strings (SecurityPlan_CapabilitiesAdd security) |>
           <| SecurityPlan_CapabilitiesDrop := sort_strings (SecurityPlan_CapabilitiesDrop security) |>
           <| SecurityPlan_Devices := SortFunc compareDevice (SecurityPlan_Devices security) |>
           <| SecurityPlan_Sysctls := SortFunc compareKeyValue (SecurityPlan_Sysctls security) |>.

Definition normalizeContainer (container : ContainerPlan) : ContainerPlan :=
  container <| ContainerPlan_MountIDs := sort_strings (ContainerPlan_MountIDs container) |>
            <| ContainerPlan_Security := normalizeSecurity (ContainerPlan_Security container) |>
            <| ContainerPlan_Environment := SortFunc compareKeyValue (ContainerPlan_Environment container) |>
            <| ContainerPlan_Labels := SortFunc compareKeyValue (ContainerPlan_Labels container) |>
            <| ContainerPlan_Ports := SortFunc comparePort (ContainerPlan_Ports container) |>.

Definition normalizeFile (file : FilePlan) : FilePlan :=
  file <| FilePlan_Variables := SortFunc compareKeyValue (FilePlan_Variables file) |>
       <| FilePlan_ExtendedAttributes :=
            SortFunc (onKey ExtendedAttribute_Name Compare) (FilePlan_ExtendedAttributes file) |>.

Definition normalizeContract (contract : ManagementInterposition) : ManagementInterposition :=
  contract <| ManagementInterposition_TransportCIDRs := sort_strings (ManagementInterposition_TransportCIDRs contract) |>
           <| ManagementInterposition_InboundPorts :=
                SortFunc comparePortMap (ManagementInterposition_InboundPorts contract) |>.

Definition normalizeManagement (item : ManagementPlan) : ManagementPlan :=
  item <| ManagementPlan_Routes := SortFunc compareRoute (ManagementPlan_Routes item) |>
       <| ManagementPlan_Interposition := normalizeContract <$> ManagementPlan_Interposition item |>.

Definition sortPlan (plan : Plan) : Plan :=
  plan <| Plan_Nodes := normalizeNode <$> SortFunc (onKey NodePlan_ID Compare) (Plan_Nodes plan) |>
       <| Plan_Containers := normalizeContainer <$> SortFunc (onKey ContainerPlan_ID Compare) (Plan_Containers plan) |>
       <| Plan_Files := normalizeFile <$> SortFunc (onKey FilePlan_ID Compare) (Plan_Files plan) |>
       <| Plan_Volumes := SortFunc (onKey VolumePlan_ID Compare) (Plan_Volumes plan) |>
       <| Plan_Mounts := SortFunc (onKey MountPlan_ID Compare) (Plan_Mounts plan) |>
       <| Plan_Actions := SortFunc compareAction (Plan_Actions plan) |>
       <| Plan_Management := normalizeManagement <$> SortFunc (onKey ManagementPlan_ID Compare) (Plan_Management plan) |>
       <| Plan_Interfaces := SortFunc (onKey InterfacePlan_ID Compare) (Plan_Interfaces plan) |>.

Definition NormalizePlan (plan : Plan) : result PlanError Plan :=
  let normalized := withDefaults (cloneJSON plan) in
  validatePlan normalized ;;?
  Ok (sortPlan normalized).

(** ** Serialization *)

(** [json.Marshal] of a plan, and [decodeStrict[Plan]]. *)
Class PlanJSON : Type := {
  marshalPlan : Plan → string;
  decodeStrictPlan : string → option Plan;
  plan_json : ∀ plan, decodeStrictPlan (marshalPlan plan) = Some (cloneJSON plan)
}.
Context {json : PlanJSON} {sha : Sha256}.

Definition Digest (raw : string) : string := "sha256:" +:+ String.concat "" (hex02 <$> Sum256 raw).

Definition CanonicalJSON (plan : Plan) : result PlanError string :=
  let? normalized := NormalizePlan plan in Ok (marshalPlan normalized).

Definition PlanDigest (plan : Plan) : result PlanError string :=
  let? raw := CanonicalJSON plan in Ok (Digest raw).

Definition DecodePlan (raw : string) : result PlanError Plan :=
  match decodeStrictPlan raw with
  | None => Err (planningError ErrorSerialization "plan" "cannot decode JSON")
  | Some decoded => NormalizePlan decoded
  end.
End codec.
