(* ===== verification/PlanCanonical.v ===== *)
(** * Device plans: one normal form per plan

    Plans that differ only in the order of fields whose order has no meaning are related by
    [same_plan]; they are accepted together, have the same normal form, and therefore the
    same digest.  The exceptions are devices of one path with different permissions and port
    mappings of one port ([unambiguous] excludes them): the comparison functions do not tell
    them apart. *)

From S2P Require Import Prelude WireCodec Api GoStrings GoNet GoSort DevicePlanTypes Management.
From S2P Require Import PlanValidation PlanSpec PlanAcceptance PlanCodec.
Local Open Scope Z_scope.

(** ** Equal up to order *)

(** A permutation whose elements are related. *)
Definition perm_by {A} (R : A → A → Prop) (l1 l2 : list A) : Prop := ∃ l, l1 ≡ₚ l ∧ Forall2 R l l2.

Record same_node (a b : NodePlan) : Prop := {
  sn_rest : a <| NodePlan_ReadinessContainerIDs := [] |> <| NodePlan_Aliases := [] |>
            = b <| NodePlan_ReadinessContainerIDs := [] |> <| NodePlan_Aliases := [] |>;
  sn_readiness : NodePlan_ReadinessContainerIDs a ≡ₚ NodePlan_ReadinessContainerIDs b;
  sn_aliases : NodePlan_Aliases a ≡ₚ NodePlan_Aliases b
}.

Record same_security (a b : SecurityPlan) : Prop := {
  ss_rest : a <| SecurityPlan_CapabilitiesAdd := [] |> <| SecurityPlan_CapabilitiesDrop := [] |>
              <| SecurityPlan_Devices := [] |> <| SecurityPlan_Sysctls := [] |>
            = b <| SecurityPlan_CapabilitiesAdd := [] |> <| SecurityPlan_CapabilitiesDrop := [] |>
                <| SecurityPlan_Devices := [] |> <| SecurityPlan_Sysctls := [] |>;
  ss_add : SecurityPlan_CapabilitiesAdd a ≡ₚ SecurityPlan_CapabilitiesAdd b;
  ss_drop : SecurityPlan_CapabilitiesDrop a ≡ₚ SecurityPlan_CapabilitiesDrop b;
  ss_devices : SecurityPlan_Devices a ≡ₚ SecurityPlan_Devices b;
  ss_sysctls : SecurityPlan_Sysctls a ≡ₚ SecurityPlan_Sysctls b
}.

Definition noSecurity : SecurityPlan := MkSecurityPlan false [] [] [] [] "" "" false.

Record same_container (a b : ContainerPlan) : Prop := {
  sc_rest : a <| ContainerPlan_MountIDs := [] |> <| ContainerPlan_Security := noSecurity |>
              <| ContainerPlan_Environment := [] |> <| ContainerPlan_Labels := [] |> <| ContainerPlan_Ports := [] |>
            = b <| ContainerPlan_MountIDs := [] |> <| ContainerPlan_Security := noSecurity |>
                <| ContainerPlan_Environment := [] |> <| ContainerPlan_Labels := [] |> <| ContainerPlan_Ports := [] |>;
  sc_mounts : ContainerPlan_MountIDs a ≡ₚ ContainerPlan_MountIDs b;
  sc_security : same_security (ContainerPlan_Security a) (ContainerPlan_Security b);
  sc_environment : ContainerPlan_Environment a ≡ₚ ContainerPlan_Environment b;
  sc_labels : ContainerPlan_Labels a ≡ₚ ContainerPlan_Labels b;
  sc_ports : ContainerPlan_Ports a ≡ₚ ContainerPlan_Ports b
}.

Record same_file (a b : FilePlan) : Prop := {
  sf_rest : a <| FilePlan_Variables := [] |> <| FilePlan_ExtendedAttributes := [] |>
            = b <| FilePlan_Variables := [] |> <| FilePlan_ExtendedAttributes := [] |>;
  sf_variables : FilePlan_Variables a ≡ₚ FilePlan_Variables b;
  sf_attributes : FilePlan_ExtendedAttributes a ≡ₚ FilePlan_ExtendedAttributes b
}.

Record same_contract (a b : ManagementInterposition) : Prop := {
  st_rest : a <| ManagementInterposition_TransportCIDRs := [] |> <| ManagementInterposition_InboundPorts := [] |>
            = b <| ManagementInterposition_TransportCIDRs := [] |> <| ManagementInterposition_InboundPorts := [] |>;
  st_cidrs : ManagementInterposition_TransportCIDRs a ≡ₚ ManagementInterposition_TransportCIDRs b;
  st_ports : ManagementInterposition_InboundPorts a ≡ₚ ManagementInterposition_InboundPorts b
}.

Record same_management (a b : ManagementPlan) : Prop := {
  sm_rest : a <| ManagementPlan_Routes := [] |> <| ManagementPlan_Interposition := None |>
            = b <| ManagementPlan_Routes := [] |> <| ManagementPlan_Interposition := None |>;
  sm_routes : ManagementPlan_Routes a ≡ₚ ManagementPlan_Routes b;
  sm_contract : option_Forall2 same_contract (ManagementPlan_Interposition a) (ManagementPlan_Interposition b)
}.

Record same_plan (a b : Plan) : Prop := {
  sp_schema : Plan_SchemaVersion a = Plan_SchemaVersion b;
  sp_compatibility : Plan_Compatibility a = Plan_Compatibility b;
  sp_digest : Plan_InputDigest a = Plan_InputDigest b;
  sp_planner : Plan_Planner a = Plan_Planner b;
  sp_nodes : perm_by same_node (Plan_Nodes a) (Plan_Nodes b);
  sp_containers : perm_by same_container (Plan_Containers a) (Plan_Containers b);
  sp_files : perm_by same_file (Plan_Files a) (Plan_Files b);
  sp_volumes : Plan_Volumes a ≡ₚ Plan_Volumes b;
  sp_mounts : Plan_Mounts a ≡ₚ Plan_Mounts b;
  sp_actions : Plan_Actions a ≡ₚ Plan_Actions b;
  sp_management : perm_by same_management (Plan_Management a) (Plan_Management b);
  sp_interfaces : Plan_Interfaces a ≡ₚ Plan_Interfaces b
}.

(** No two devices of a container and no two mappings of a contract that only compare equal. *)
Definition unambiguous (plan : Plan) : Prop :=
  Forall (λ container, no_ties compareDevice (SecurityPlan_Devices (ContainerPlan_Security container)))
    (Plan_Containers plan) ∧
  Forall (λ item, ∀ contract, ManagementPlan_Interposition item = Some contract →
    no_ties comparePortMap (ManagementInterposition_InboundPorts contract)) (Plan_Management plan).

(** ** Permutations of related elements *)

Lemma perm_by_fmap {A B} (R : A → A → Prop) (f g : A → B) l1 l2 :
  perm_by R l1 l2 → (∀ x y, x ∈ l1 → R x y → f x = g y) → f <$> l1 ≡ₚ g <$> l2.
Proof.
  intros (l & Hp & H2) Hf. rewrite Hp. apply reflexive_eq.
  assert (∀ x y, x ∈ l → R x y → f x = g y) as Hf' by (intros x y Hx; apply Hf; by rewrite Hp).
  clear Hp Hf l1. induction H2 as [|x y l l2 Hxy H2 IH]; [done|]. rewrite !fmap_cons. f_equal.
  - apply Hf'; [left|done].
  - apply IH. intros a b Ha. apply Hf'. by right.
Qed.

Lemma perm_by_elem {A} (R : A → A → Prop) l1 l2 x : perm_by R l1 l2 → x ∈ l1 → ∃ y, y ∈ l2 ∧ R x y.
Proof.
  intros (l & Hp & H2) Hx. rewrite Hp in Hx. apply list_elem_of_lookup in Hx as [i Hi].
  destruct (Forall2_lookup_l _ _ _ _ _ H2 Hi) as (y & Hy & HR). exists y. split; [by eapply list_elem_of_lookup_2|done].
Qed.

Lemma perm_by_elem_r {A} (R : A → A → Prop) l1 l2 y : perm_by R l1 l2 → y ∈ l2 → ∃ x, x ∈ l1 ∧ R x y.
Proof.
  intros (l & Hp & H2) Hy. apply list_elem_of_lookup in Hy as [i Hi].
  destruct (Forall2_lookup_r _ _ _ _ _ H2 Hi) as (x & Hx & HR). exists x. split; [|done].
  rewrite Hp. by eapply list_elem_of_lookup_2.
Qed.

Lemma perm_by_Forall {A} (R : A → A → Prop) (P Q : A → Prop) l1 l2 :
  perm_by R l1 l2 → (∀ x y, R x y → P x → Q y) → Forall P l1 → Forall Q l2.
Proof.
  intros Hp HPQ Hall. rewrite list.Forall_forall in Hall. apply list.Forall_forall. intros y Hy.
  destruct (perm_by_elem_r _ _ _ _ Hp Hy) as (x & Hx & HR). by eapply HPQ, Hall.
Qed.

Lemma perm_by_map {A} (R S : A → A → Prop) (f : A → A) l1 l2 :
  perm_by R l1 l2 → (∀ x y, R x y → S (f x) (f y)) → perm_by S (f <$> l1) (f <$> l2).
Proof.
  intros (l & Hp & H2) Hf. exists (f <$> l). split; [by rewrite Hp|]. apply Forall2_fmap.
  eapply Forall2_impl; [exact H2|]. done.
Qed.

(** What a sort and a change of every element give. *)
Lemma perm_by_sorted {A} (R : A → A → Prop) (f : A → A) l l' :
  (∀ x, R x (f x)) → l' ≡ₚ l → perm_by R l (f <$> l').
Proof.
  intros Hf Hp. exists l'. split; [by symmetry|]. rewrite <- (list_fmap_id l') at 1.
  apply Forall2_fmap, Forall_Forall2_diag, list.Forall_true. apply Hf.
Qed.

Section canonical.
Context {sort : GoSort}.

(** Sorting and normalizing gives the same for related lists, when no elements tie. *)
Lemma sorted_same_by {A} (R : A → A → Prop) (cmp : A → A → Z) (f : A → A) l1 l2 :
  weak_order cmp → perm_by R l1 l2 → (∀ x y, cmp (f x) (f y) = cmp x y) →
  (∀ x y, x ∈ l1 → R x y → f x = f y) → no_ties cmp l1 →
  f <$> SortFunc cmp l1 = f <$> SortFunc cmp l2.
Proof.
  intros Hw Hp Hfk Hf Ht.
  assert (∀ l, StronglySorted (λ a b, cmp a b ≤ 0) (f <$> SortFunc cmp l)) as Hs.
  { intros l. pose proof (SortFunc_sorted cmp l Hw) as H. induction H as [|x l' H IH Hx]; [constructor|].
    rewrite fmap_cons. constructor; [done|]. apply Forall_fmap. eapply Forall_impl; [exact Hx|].
    unfold compose. intros y. by rewrite Hfk. }
  assert (f <$> SortFunc cmp l1 ≡ₚ f <$> SortFunc cmp l2) as Hperm.
  { rewrite !SortFunc_perm. by eapply perm_by_fmap. }
  eapply (StronglySorted_unique_strong (λ a b, cmp a b ≤ 0)); [|done..].
  intros a b Ha Hb H1 H2. pose proof (wo_tie _ _ _ Hw H1 H2) as Htie.
  rewrite <- Hperm in Hb. rewrite SortFunc_perm in Ha, Hb.
  apply list_elem_of_fmap in Ha as (a' & -> & Ha'). apply list_elem_of_fmap in Hb as (b' & -> & Hb').
  rewrite Hfk in Htie. f_equal. by apply Ht.
Qed.

Lemma no_ties_key {A} (key : A → string) (l : list A) : NoDup (key <$> l) → no_ties (onKey key Compare) l.
Proof. intros Hnd a b Ha Hb Heq. apply Compare_zero in Heq. by eapply NoDup_key_inj. Qed.

Lemma sorted_same {A} (R : A → A → Prop) (key : A → string) (f : A → A) l1 l2 :
  perm_by R l1 l2 → (∀ x, key (f x) = key x) →
  (∀ x y, x ∈ l1 → R x y → f x = f y) → NoDup (key <$> l1) →
  f <$> SortFunc (onKey key Compare) l1 = f <$> SortFunc (onKey key Compare) l2.
Proof.
  intros Hp Hfk Hf Hnd. eapply sorted_same_by; [auto with weak_orders|exact Hp| |done|by apply no_ties_key].
  intros x y. unfold onKey. by rewrite !Hfk.
Qed.

(** Parts with unique ids. *)
Lemma sorted_parts {A} (key : A → string) (l l' : list A) :
  NoDup (key <$> l) → l ≡ₚ l' → SortFunc (onKey key Compare) l = SortFunc (onKey key Compare) l'.
Proof. intros Hnd Hp. apply SortFunc_perm_eq; [auto with weak_orders|by apply no_ties_key|done]. Qed.

Lemma no_ties_port l : no_ties comparePort l.
Proof.
  intros [n p] [n' p'] _ _ Heq. apply thenBy_zero in Heq as [H1 H2]. apply compareInt_zero in H1.
  apply Compare_zero in H2. cbn in *. by subst.
Qed.

Lemma no_ties_route l : no_ties compareRoute l.
Proof.
  intros [d g m] [d' g' m'] _ _ Heq. apply thenBy_zero in Heq as [H1 [H2 H3]%thenBy_zero]. apply Compare_zero in H1, H2.
  apply compareInt_zero in H3. cbn in *. by subst.
Qed.

Lemma no_ties_action l : NoDup (Action_ID <$> l) → no_ties compareAction l.
Proof.
  intros Hnd a b Ha Hb Heq. apply thenBy_zero in Heq as [_ [_ H]%thenBy_zero]. apply Compare_zero in H.
  by eapply NoDup_key_inj.
Qed.

Lemma compare_orders :
  weak_order compareKeyValue ∧ weak_order comparePort ∧ weak_order compareDevice ∧ weak_order compareRoute ∧
  weak_order comparePortMap ∧ weak_order compareAction.
Proof.
  unfold compareKeyValue, comparePort, compareDevice, compareRoute, comparePortMap, compareAction.
  split_and!; auto 10 with weak_orders.
Qed.

(** ** Elements *)

Lemma normalizeNode_same a b : same_node a b → normalizeNode a = normalizeNode b.
Proof.
  intros [H1 H2 H3]. unfold normalizeNode. rewrite (sort_strings_perm_eq _ _ H2), (sort_strings_perm_eq _ _ H3).
  apply (f_equal (λ r : NodePlan, r <| NodePlan_ReadinessContainerIDs := sort_strings (NodePlan_ReadinessContainerIDs b) |>
    <| NodePlan_Aliases := sort_strings (NodePlan_Aliases b) |>)) in H1.
  exact H1.
Qed.

Lemma keyValues_sorted (l l' : list KeyValue) :
  KeyValuesOk l → l ≡ₚ l' → SortFunc compareKeyValue l = SortFunc compareKeyValue l'.
Proof. intros [_ Hnd] Hp. apply SortFunc_perm_eq; [apply compare_orders|by apply no_ties_key|done]. Qed.

Lemma normalizeSecurity_same a b :
  same_security a b → KeyValuesOk (SecurityPlan_Sysctls a) → no_ties compareDevice (SecurityPlan_Devices a) →
  normalizeSecurity a = normalizeSecurity b.
Proof.
  intros [H1 H2 H3 H4 H5] Hk Hd. unfold normalizeSecurity.
  rewrite (sort_strings_perm_eq _ _ H2), (sort_strings_perm_eq _ _ H3), (keyValues_sorted _ _ Hk H5).
  rewrite (SortFunc_perm_eq compareDevice _ _ (proj1 (proj2 (proj2 compare_orders))) Hd H4).
  apply (f_equal (λ r : SecurityPlan, r <| SecurityPlan_CapabilitiesAdd := sort_strings (SecurityPlan_CapabilitiesAdd b) |>
    <| SecurityPlan_CapabilitiesDrop := sort_strings (SecurityPlan_CapabilitiesDrop b) |>
    <| SecurityPlan_Devices := SortFunc compareDevice (SecurityPlan_Devices b) |>
    <| SecurityPlan_Sysctls := SortFunc compareKeyValue (SecurityPlan_Sysctls b) |>)) in H1.
  exact H1.
Qed.

Lemma normalizeContainer_same plan a b :
  same_container a b → ContainerOk plan a → no_ties compareDevice (SecurityPlan_Devices (ContainerPlan_Security a)) →
  normalizeContainer a = normalizeContainer b.
Proof.
  intros [H1 H2 H3 H4 H5 H6] [_ _ _ _ (K1 & K2 & K3) _ _] Hd. unfold normalizeContainer.
  rewrite (sort_strings_perm_eq _ _ H2), (normalizeSecurity_same _ _ H3 K3 Hd), (keyValues_sorted _ _ K1 H4).
  rewrite (keyValues_sorted _ _ K2 H5), (SortFunc_perm_eq comparePort _ _ (proj1 (proj2 compare_orders)) (no_ties_port _) H6).
  apply (f_equal (λ r : ContainerPlan, r <| ContainerPlan_MountIDs := sort_strings (ContainerPlan_MountIDs b) |>
    <| ContainerPlan_Security := normalizeSecurity (ContainerPlan_Security b) |>
    <| ContainerPlan_Environment := SortFunc compareKeyValue (ContainerPlan_Environment b) |>
    <| ContainerPlan_Labels := SortFunc compareKeyValue (ContainerPlan_Labels b) |>
    <| ContainerPlan_Ports := SortFunc comparePort (ContainerPlan_Ports b) |>)) in H1.
  exact H1.
Qed.

Lemma normalizeFile_same nodes a b : same_file a b → FileOk nodes a → normalizeFile a = normalizeFile b.
Proof.
  intros [H1 H2 H3] [_ _ _ _ _ _ _ (_ & _ & _ & A) _ _ _ V _]. unfold normalizeFile.
  rewrite (keyValues_sorted _ _ V H2).
  rewrite (SortFunc_perm_eq _ _ (FilePlan_ExtendedAttributes b) (onKey_wo _ _ Compare_wo) (no_ties_key _ _ A) H3).
  apply (f_equal (λ r : FilePlan, r <| FilePlan_Variables := SortFunc compareKeyValue (FilePlan_Variables b) |>
    <| FilePlan_ExtendedAttributes := SortFunc (onKey ExtendedAttribute_Name Compare) (FilePlan_ExtendedAttributes b) |>)) in H1.
  exact H1.
Qed.

Lemma normalizeContract_same a b :
  same_contract a b → no_ties comparePortMap (ManagementInterposition_InboundPorts a) → normalizeContract a = normalizeContract b.
Proof.
  intros [H1 H2 H3] Ht. unfold normalizeContract.
  rewrite (sort_strings_perm_eq _ _ H2), (SortFunc_perm_eq comparePortMap _ _ (proj1 (proj2 (proj2 (proj2 (proj2 compare_orders))))) Ht H3).
  apply (f_equal (λ r : ManagementInterposition, r
    <| ManagementInterposition_TransportCIDRs := sort_strings (ManagementInterposition_TransportCIDRs b) |>
    <| ManagementInterposition_InboundPorts := SortFunc comparePortMap (ManagementInterposition_InboundPorts b) |>)) in H1.
  exact H1.
Qed.

Lemma normalizeManagement_same a b :
  same_management a b →
  (∀ contract, ManagementPlan_Interposition a = Some contract → no_ties comparePortMap (ManagementInterposition_InboundPorts contract)) →
  normalizeManagement a = normalizeManagement b.
Proof.
  intros [H1 H2 H3] Ht. unfold normalizeManagement.
  rewrite (SortFunc_perm_eq compareRoute _ _ (proj1 (proj2 (proj2 (proj2 compare_orders)))) (no_ties_route _) H2).
  assert (normalizeContract <$> ManagementPlan_Interposition a = normalizeContract <$> ManagementPlan_Interposition b) as ->.
  { destruct H3 as [x y Hxy|]; [|done]. cbn. f_equal. apply normalizeContract_same; [done|]. by apply Ht. }
  apply (f_equal (λ r : ManagementPlan, r <| ManagementPlan_Routes := SortFunc compareRoute (ManagementPlan_Routes b) |>
    <| ManagementPlan_Interposition := normalizeContract <$> ManagementPlan_Interposition b |>)) in H1.
  exact H1.
Qed.

(** Every element is the same as its normal form. *)
Lemma same_node_normal a : same_node a (normalizeNode a).
Proof. destruct a. split; cbn; [done|symmetry; apply sort_strings_perm..]. Qed.

Lemma same_container_normal a : same_container a (normalizeContainer a).
Proof.
  destruct a as [? ? ? ? ? ? ? ? ? ? ? ? ? ? ? ? ? ? ? ? ? ? ? [] ? ? ? ? ?].
  split; cbn; [done|symmetry; apply sort_strings_perm| |symmetry; apply SortFunc_perm..].
  split; cbn; [done|symmetry; first [apply sort_strings_perm | apply SortFunc_perm]..].
Qed.

Lemma same_file_normal a : same_file a (normalizeFile a).
Proof. destruct a. split; cbn; [done|symmetry; apply SortFunc_perm..]. Qed.

Lemma same_management_normal a : same_management a (normalizeManagement a).
Proof.
  destruct a as [? ? ? ? ? ? ? ? ? ? [[]|]]; split; cbn; try done; try (symmetry; apply SortFunc_perm); constructor.
  split; cbn; [done|symmetry; first [apply sort_strings_perm | apply SortFunc_perm]..].
Qed.

Lemma same_plan_sorted plan : same_plan plan (sortPlan plan).
Proof.
  split; cbn; try done; try (symmetry; apply SortFunc_perm).
  - apply perm_by_sorted; [apply same_node_normal|apply SortFunc_perm].
  - apply perm_by_sorted; [apply same_container_normal|apply SortFunc_perm].
  - apply perm_by_sorted; [apply same_file_normal|apply SortFunc_perm].
  - apply perm_by_sorted; [apply same_management_normal|apply SortFunc_perm].
Qed.
End canonical.

(** ** Acceptance does not depend on the order *)

Lemma same_node_inv a b : same_node a b → ∃ rs als,
  b = a <| NodePlan_ReadinessContainerIDs := rs |> <| NodePlan_Aliases := als |> ∧
  NodePlan_ReadinessContainerIDs a ≡ₚ rs ∧ NodePlan_Aliases a ≡ₚ als.
Proof.
  intros [H1 H2 H3]. exists (NodePlan_ReadinessContainerIDs b), (NodePlan_Aliases b). split; [|done].
  apply (f_equal (λ r : NodePlan, r <| NodePlan_ReadinessContainerIDs := NodePlan_ReadinessContainerIDs b |>
    <| NodePlan_Aliases := NodePlan_Aliases b |>)) in H1.
  symmetry. etrans; [exact H1|]. by destruct b.
Qed.

Lemma same_file_inv a b : same_file a b → ∃ vs es,
  b = a <| FilePlan_Variables := vs |> <| FilePlan_ExtendedAttributes := es |> ∧
  FilePlan_Variables a ≡ₚ vs ∧ FilePlan_ExtendedAttributes a ≡ₚ es.
Proof.
  intros [H1 H2 H3]. exists (FilePlan_Variables b), (FilePlan_ExtendedAttributes b). split; [|done].
  apply (f_equal (λ r : FilePlan, r <| FilePlan_Variables := FilePlan_Variables b |>
    <| FilePlan_ExtendedAttributes := FilePlan_ExtendedAttributes b |>)) in H1.
  symmetry. etrans; [exact H1|]. by destruct b.
Qed.

Lemma same_container_inv a b : same_container a b → ∃ ms sec env labels ports,
  b = a <| ContainerPlan_MountIDs := ms |> <| ContainerPlan_Security := sec |> <| ContainerPlan_Environment := env |>
        <| ContainerPlan_Labels := labels |> <| ContainerPlan_Ports := ports |> ∧
  ContainerPlan_MountIDs a ≡ₚ ms ∧ same_security (ContainerPlan_Security a) sec ∧
  ContainerPlan_Environment a ≡ₚ env ∧ ContainerPlan_Labels a ≡ₚ labels ∧ ContainerPlan_Ports a ≡ₚ ports.
Proof.
  intros [H1 H2 H3 H4 H5 H6]. exists (ContainerPlan_MountIDs b), (ContainerPlan_Security b), (ContainerPlan_Environment b),
    (ContainerPlan_Labels b), (ContainerPlan_Ports b). split; [|done].
  apply (f_equal (λ r : ContainerPlan, r <| ContainerPlan_MountIDs := ContainerPlan_MountIDs b |>
    <| ContainerPlan_Security := ContainerPlan_Security b |> <| ContainerPlan_Environment := ContainerPlan_Environment b |>
    <| ContainerPlan_Labels := ContainerPlan_Labels b |> <| ContainerPlan_Ports := ContainerPlan_Ports b |>)) in H1.
  symmetry. etrans; [exact H1|]. by destruct b.
Qed.

Lemma same_contract_inv a b : same_contract a b → ∃ cidrs ports,
  b = a <| ManagementInterposition_TransportCIDRs := cidrs |> <| ManagementInterposition_InboundPorts := ports |> ∧
  ManagementInterposition_TransportCIDRs a ≡ₚ cidrs ∧ ManagementInterposition_InboundPorts a ≡ₚ ports.
Proof.
  intros [H1 H2 H3]. exists (ManagementInterposition_TransportCIDRs b), (ManagementInterposition_InboundPorts b). split; [|done].
  apply (f_equal (λ r : ManagementInterposition,
    r <| ManagementInterposition_TransportCIDRs := ManagementInterposition_TransportCIDRs b |>
      <| ManagementInterposition_InboundPorts := ManagementInterposition_InboundPorts b |>)) in H1.
  symmetry. etrans; [exact H1|]. by destruct b.
Qed.

Lemma same_management_inv a b : same_management a b → ∃ routes contract,
  b = a <| ManagementPlan_Routes := routes |> <| ManagementPlan_Interposition := contract |> ∧
  ManagementPlan_Routes a ≡ₚ routes ∧ option_Forall2 same_contract (ManagementPlan_Interposition a) contract.
Proof.
  intros [H1 H2 H3]. exists (ManagementPlan_Routes b), (ManagementPlan_Interposition b). split; [|done].
  apply (f_equal (λ r : ManagementPlan, r <| ManagementPlan_Routes := ManagementPlan_Routes b |>
    <| ManagementPlan_Interposition := ManagementPlan_Interposition b |>)) in H1.
  symmetry. etrans; [exact H1|]. by destruct b.
Qed.

Lemma KeyValuesOk_perm l l' : l ≡ₚ l' → KeyValuesOk l → KeyValuesOk l'.
Proof. intros Hp [H1 H2]. split; [by rewrite <- Hp|by rewrite <- Hp]. Qed.

Lemma nodeOk_same containers containers' a b :
  same_node a b → perm_by same_container containers containers' → NodeOk containers a → NodeOk containers' b.
Proof.
  intros (rs & als & -> & Hr & Ha)%same_node_inv Hp [H1 [H2 H2'] [H3 H3'] H4 H5]. constructor.
  - done.
  - split; [done|]. cbn. intros ->. apply H2'. by apply Permutation_nil.
  - split; [done|]. cbn. by rewrite <- Hr.
  - cbn. intros id Hid. destruct (H4 id Hid) as (c & Hc & Hci & Hcn).
    destruct (perm_by_elem _ _ _ _ Hp Hc) as (c' & Hc' & (? & ? & ? & ? & ? & -> & _)%same_container_inv).
    eexists. split; [exact Hc'|]. done.
  - cbn. intros id. rewrite <- Hr. apply H5.
Qed.

Lemma containerOk_same p1 p2 a b :
  same_container a b → NodePlan_ID <$> Plan_Nodes p1 ≡ₚ NodePlan_ID <$> Plan_Nodes p2 →
  ContainerPlan_ID <$> Plan_Containers p1 ≡ₚ ContainerPlan_ID <$> Plan_Containers p2 → Plan_Mounts p1 ≡ₚ Plan_Mounts p2 →
  ContainerOk p1 a → ContainerOk p2 b.
Proof.
  intros (ms & sec & env & labels & ports & -> & Hm & Hs & He & Hl & Hpo)%same_container_inv Hn Hc Hmo
    [H1 H2 H3 H4 (H5 & H6 & H7) [H8 H9] H10].
  constructor; try done.
  - cbn. by rewrite <- Hn.
  - cbn. by rewrite <- Hc.
  - cbn. split_and!; [by eapply KeyValuesOk_perm..|]. eapply KeyValuesOk_perm; [apply (ss_sysctls _ _ Hs)|done].
  - cbn. split; by rewrite <- Hpo.
  - cbn. intros id. rewrite <- Hm. intros Hid. destruct (H10 id Hid) as (mount & Hin & Hx). exists mount. by rewrite <- Hmo.
Qed.

Lemma fileOk_same nodes nodes' a b :
  same_file a b → NodePlan_ID <$> nodes ≡ₚ NodePlan_ID <$> nodes' → FileOk nodes a → FileOk nodes' b.
Proof.
  intros (vs & es & -> & Hv & He)%same_file_inv Hn [H1 H2 H3 H4 H5 H6 H7 (H8 & H9 & H10 & H11) H12 H13 H14 H15 H16].
  constructor; try done.
  - cbn [FilePlan_ExtendedAttributes]. split_and!.
    + cbn. by rewrite <- (Permutation_length He).
    + destruct H9 as [H9|H9]; [left|by right]. rewrite H9 in He. cbn. by apply Permutation_nil.
    + cbn. by rewrite <- He.
    + cbn. by rewrite <- He.
  - cbn. by eapply KeyValuesOk_perm.
  - cbn. by rewrite <- Hn.
Qed.

Lemma contractOk_same item item' a b :
  same_contract a b → ManagementPlan_IPv4 item' = ManagementPlan_IPv4 item →
  ManagementPlan_IPv4Gateway item' = ManagementPlan_IPv4Gateway item → ContractOk item a → ContractOk item' b.
Proof.
  intros (cidrs & ports & -> & Hc & Hp)%same_contract_inv E1 E2 [H1 H2 H3 H4 H5 H6]. constructor; try done.
  - by rewrite E1, E2.
  - cbn. by rewrite <- Hc.
  - cbn. by rewrite <- Hp.
Qed.

Lemma managementOk_same nodes nodes' a b :
  same_management a b → NodePlan_ID <$> nodes ≡ₚ NodePlan_ID <$> nodes' → ManagementOk nodes a → ManagementOk nodes' b.
Proof.
  intros (routes & contract & -> & Hr & Hc)%same_management_inv Hn (H1 & H2 & H3). split; [done|]. split; [|cbn; by rewrite <- Hn].
  cbn. destruct H2 as [(N & S & I)|[(N & S & I)|(N & S & c & I & Hok)]]; rewrite I in Hc; inversion Hc as [x y Hxy|]; subst.
  - left. done.
  - right; left. done.
  - right; right. split_and!; [done..|]. eexists. split; [done|].
    by apply (contractOk_same a _ c).
Qed.

Lemma actionOk_same p1 p2 action :
  NodePlan_ID <$> Plan_Nodes p1 ≡ₚ NodePlan_ID <$> Plan_Nodes p2 →
  ContainerPlan_ID <$> Plan_Containers p1 ≡ₚ ContainerPlan_ID <$> Plan_Containers p2 →
  perm_by same_file (Plan_Files p1) (Plan_Files p2) → Plan_Volumes p1 ≡ₚ Plan_Volumes p2 →
  Plan_Mounts p1 ≡ₚ Plan_Mounts p2 → ManagementPlan_ID <$> Plan_Management p1 ≡ₚ ManagementPlan_ID <$> Plan_Management p2 →
  Plan_Interfaces p1 ≡ₚ Plan_Interfaces p2 → ActionOk p1 action → ActionOk p2 action.
Proof.
  intros Hn Hc Hf Hv Hm Hg Hi [H1 H2 H3 H4 H5 H6]. constructor; rewrite <- ?Hn, <- ?Hc; try done.
  assert (∀ id, hasRegular p1 id → hasRegular p2 id) as Hreg.
  { intros id (file & Hin & Hid & Hk). destruct (perm_by_elem _ _ _ _ Hf Hin) as (file' & Hin' & (? & ? & -> & _)%same_file_inv).
    eexists. split; [exact Hin'|]. done. }
  destruct H6 as [p K E ?|p f K E Hin ? ? ?|p K E ?|p m v K E Hin ? Hin' ? ? ? ? ? ? ? ?|p K E ?|p K E Hin ?|p K E Hin ? ?
    |p K E Hin|p K E P C O|p K E P C|p K E P C|p K E ? ? ? ?].
  - by eapply exec_ok.
  - destruct (perm_by_elem _ _ _ _ Hf Hin) as (f' & Hin' & (? & ? & -> & _)%same_file_inv).
    eapply file_ok; [exact K|exact E|exact Hin'|done..].
  - eapply stdin_ok; [exact K|exact E|by apply Hreg].
  - eapply mount_ok; [exact K|exact E|by rewrite <- Hm|done|by rewrite <- Hv|done..].
  - by eapply sysctl_ok.
  - eapply wait_ok; [exact K|exact E|by rewrite <- Hi|done].
  - eapply rename_ok; [exact K|exact E|by rewrite <- Hi|done..].
  - eapply forwarding_ok; [exact K|exact E|by rewrite <- Hg].
  - by eapply endpoints_ok.
  - by eapply postdeploy_ok.
  - by eapply readiness_ok.
  - eapply save_ok; [exact K|exact E|done..|]. auto.
Qed.

Lemma same_plan_ok p1 p2 : same_plan p1 p2 → PlanOk p1 → PlanOk p2.
Proof.
  intros [S1 S2 S3 S4 SN SC SF SV SM SA SG SI]
    [H1 H2 H3 [H4 H4'] [N1 N2] (C1 & C2 & C3) [F1 F2] [V1 V2] [M1 M2] (G1 & G2 & G3) [I1 I2] [A1 A2]].
  assert (∀ x y, same_node x y → NodePlan_ID x = NodePlan_ID y) as KN by (by intros x y (? & ? & -> & _)%same_node_inv).
  assert (∀ x y, same_container x y → ContainerPlan_ID x = ContainerPlan_ID y ∧ ContainerPlan_RuntimeID x = ContainerPlan_RuntimeID y)
    as KC by (by intros x y (? & ? & ? & ? & ? & -> & _)%same_container_inv).
  assert (∀ x y, same_file x y → FilePlan_ID x = FilePlan_ID y) as KF by (by intros x y (? & ? & -> & _)%same_file_inv).
  assert (∀ x y, same_management x y → ManagementPlan_ID x = ManagementPlan_ID y ∧ ManagementPlan_NodeID x = ManagementPlan_NodeID y)
    as KG by (by intros x y (? & ? & -> & _)%same_management_inv).
  assert (NodePlan_ID <$> Plan_Nodes p1 ≡ₚ NodePlan_ID <$> Plan_Nodes p2) as PN
    by (eapply perm_by_fmap; [done|]; auto).
  assert (ContainerPlan_ID <$> Plan_Containers p1 ≡ₚ ContainerPlan_ID <$> Plan_Containers p2) as PC
    by (eapply perm_by_fmap; [done|]; intros x y _ Hxy; by apply KC).
  assert (ContainerPlan_RuntimeID <$> Plan_Containers p1 ≡ₚ ContainerPlan_RuntimeID <$> Plan_Containers p2) as PR
    by (eapply perm_by_fmap; [done|]; intros x y _ Hxy; by apply KC).
  assert (FilePlan_ID <$> Plan_Files p1 ≡ₚ FilePlan_ID <$> Plan_Files p2) as PF by (eapply perm_by_fmap; [done|]; auto).
  assert (ManagementPlan_ID <$> Plan_Management p1 ≡ₚ ManagementPlan_ID <$> Plan_Management p2) as PG
    by (eapply perm_by_fmap; [done|]; intros x y _ Hxy; by apply KG).
  assert (ManagementPlan_NodeID <$> Plan_Management p1 ≡ₚ ManagementPlan_NodeID <$> Plan_Management p2) as PGN
    by (eapply perm_by_fmap; [done|]; intros x y _ Hxy; by apply KG).
  constructor.
  - by rewrite <- S1, <- S2.
  - by rewrite <- S3.
  - by rewrite <- S4.
  - split; intros E.
    + rewrite E in PN. apply H4. by apply Permutation_nil_r, fmap_nil_inv in PN.
    + rewrite E in PC. apply H4'. by apply Permutation_nil_r, fmap_nil_inv in PC.
  - split; [|by rewrite <- PN]. eapply perm_by_Forall; [exact SN| |exact N1]. intros x y Hxy. by apply nodeOk_same.
  - split_and!; [|by rewrite <- PC|by rewrite <- PR]. eapply perm_by_Forall; [exact SC| |exact C1].
    intros x y Hxy. by apply containerOk_same.
  - split; [|by rewrite <- PF]. eapply perm_by_Forall; [exact SF| |exact F1]. intros x y Hxy. by apply fileOk_same.
  - rewrite <- SV. split; [|done]. eapply Forall_impl; [exact V1|]. intros x (X1 & X2 & X3). split_and!; [done..|]. by rewrite <- PN.
  - rewrite <- SM. split; [|done]. eapply Forall_impl; [exact M1|]. intros x (X1 & X2 & X3 & X4 & X5).
    split_and!; [done..| |]; [by rewrite <- PC|by rewrite <- SV].
  - split_and!; [|by rewrite <- PG|by rewrite <- PGN]. eapply perm_by_Forall; [exact SG| |exact G1].
    intros x y Hxy. by apply managementOk_same.
  - rewrite <- SI. split; [|done]. eapply Forall_impl; [exact I1|].
    intros x (X1 & X2 & X3 & X4 & X5 & X6 & X7 & X8 & X9 & X10). split_and!; [done..| |]; [by rewrite <- PN|by rewrite <- PC].
  - rewrite <- SA. split; [|done]. eapply Forall_impl; [exact A1|]. intros x. by apply actionOk_same.
Qed.

Section forms.
Context {sort : GoSort}.

Lemma sortPlan_same p1 p2 : same_plan p1 p2 → PlanOk p1 → unambiguous p1 → sortPlan p1 = sortPlan p2.
Proof.
  intros [S1 S2 S3 S4 SN SC SF SV SM SA SG SI] [_ _ _ _ [N1 N2] (C1 & C2 & _) [F1 F2] [V1 V2] [M1 M2] (G1 & G2 & _) [I1 I2] [A1 A2]]
    [U1 U2].
  rewrite list.Forall_forall in C1. rewrite list.Forall_forall in F1. rewrite list.Forall_forall in U1.
  rewrite list.Forall_forall in U2.
  assert (weak_order compareAction) as WA by apply compare_orders.
  pose proof (sorted_same same_node NodePlan_ID normalizeNode _ _ SN) as EN.
  pose proof (sorted_same same_container ContainerPlan_ID normalizeContainer _ _ SC) as EC.
  pose proof (sorted_same same_file FilePlan_ID normalizeFile _ _ SF) as EF.
  pose proof (sorted_same same_management ManagementPlan_ID normalizeManagement _ _ SG) as EG.
  unfold sortPlan. rewrite EN, EC, EF, EG; try done.
  - rewrite (sorted_parts VolumePlan_ID _ _ V2 SV), (sorted_parts MountPlan_ID _ _ M2 SM), (sorted_parts InterfacePlan_ID _ _ I2 SI).
    rewrite (SortFunc_perm_eq _ _ _ WA (no_ties_action _ A2) SA).
    destruct p1, p2. cbn in S1, S2, S3, S4. by subst.
  - intros x y Hx Hxy. apply normalizeManagement_same; [done|]. by apply U2.
  - intros x y Hx Hxy. eapply normalizeFile_same; [done|]. by apply F1.
  - intros x y Hx Hxy. eapply normalizeContainer_same; [done|by apply C1|by apply U1].
  - intros x y Hx Hxy. by apply normalizeNode_same.
Qed.
End forms.
