(* ===== verification/PlanTheorems.v ===== *)
(** * Device plans: the theorems

    Which plans are normalized and to what, that the normal form and with it the digest does
    not depend on the order of fields without order, that the codec is a round trip, and the
    two gaps: a comparison that ignores part of what it sorts, and an artifact path that
    leaves the artifact directory. *)

From S2P Require Import Prelude WireCodec Api GoStrings GoNet GoSort DevicePlanTypes Management.
From S2P Require Import PlanValidation PlanSpec PlanAcceptance PlanCodec PlanCanonical.
Local Open Scope Z_scope.

(** ** Copies and defaults keep plans equal up to order *)

Lemma clone_perm {A} `{CloneJSON A} (l l' : list A) : l ≡ₚ l' → cloneJSON l ≡ₚ cloneJSON l'.
Proof. apply fmap_Permutation. Qed.

Lemma same_node_clone a b : same_node a b → same_node (cloneJSON a) (cloneJSON b).
Proof. intros (rs & als & -> & Hr & Ha)%same_node_inv. split; [done|by apply clone_perm..]. Qed.

Lemma same_security_clone a b : same_security a b → same_security (cloneJSON a) (cloneJSON b).
Proof.
  intros [H1 H2 H3 H4 H5]. split; [|by apply clone_perm..].
  destruct a, b. cbn in H1. injection H1 as -> -> -> ->. done.
Qed.

Lemma same_container_clone a b : same_container a b → same_container (cloneJSON a) (cloneJSON b).
Proof.
  intros (ms & sec & env & labels & ports & -> & Hm & Hs & He & Hl & Hpo)%same_container_inv.
  split; [done|by apply clone_perm|by apply same_security_clone|by apply clone_perm..].
Qed.

Lemma same_file_clone a b : same_file a b → same_file (cloneJSON a) (cloneJSON b).
Proof. intros (vs & es & -> & Hv & He)%same_file_inv. split; [done|by apply clone_perm..]. Qed.

Lemma same_contract_clone a b : same_contract a b → same_contract (cloneJSON a) (cloneJSON b).
Proof. intros (cs & ps & -> & Hc & Hp)%same_contract_inv. split; [done|by apply clone_perm..]. Qed.

Lemma same_management_clone a b : same_management a b → same_management (cloneJSON a) (cloneJSON b).
Proof.
  intros (routes & contract & -> & Hr & Hc)%same_management_inv. split; [done|by apply clone_perm|].
  cbn. destruct Hc as [x y Hxy|]; constructor. by apply same_contract_clone.
Qed.

Lemma same_plan_clone a b : same_plan a b → same_plan (cloneJSON a) (cloneJSON b).
Proof.
  intros [S1 S2 S3 S4 SN SC SF SV SM SA SG SI]. split; try (by apply clone_perm).
  - cbn. by rewrite S1.
  - cbn. by rewrite S2.
  - cbn. by rewrite S3.
  - cbn. by rewrite S4.
  - eapply perm_by_map; [exact SN|]. apply same_node_clone.
  - eapply perm_by_map; [exact SC|]. apply same_container_clone.
  - eapply perm_by_map; [exact SF|]. apply same_file_clone.
  - eapply perm_by_map; [exact SG|]. apply same_management_clone.
Qed.

Lemma same_plan_defaults a b : same_plan a b → same_plan (withDefaults a) (withDefaults b).
Proof.
  intros [S1 S2 S3 S4 SN SC SF SV SM SA SG SI]. split; try done.
  - eapply perm_by_map; [exact SC|]. intros x y (ms & sec & env & labels & ports & -> & Hx)%same_container_inv.
    unfold defaultRuntimeID. cbn. destruct (empty (ContainerPlan_RuntimeID x)); split; naive_solver.
  - eapply perm_by_map; [exact SF|]. intros x y (vs & es & -> & Hx)%same_file_inv.
    unfold defaultArtifactKind. cbn. destruct (empty (FilePlan_ArtifactKind x)); split; naive_solver.
Qed.

(** ** What a copy leaves unchanged *)

Definition copied {A} `{CloneJSON A} (x : A) : Prop := cloneJSON x = x.

Lemma copied_list {A} `{CloneJSON A} (l : list A) : copied l ↔ Forall copied l.
Proof.
  unfold copied. induction l as [|x l IH]; [done|]. rewrite list.Forall_cons. unfold cloneJSON, cloneJSON_list in *.
  rewrite fmap_cons. split.
  - intros [= H1 H2]. tauto.
  - intros [H1 H2]. f_equal; tauto.
Qed.

Lemma copied_perm {A} `{CloneJSON A} (l l' : list A) : l' ≡ₚ l → copied l → copied l'.
Proof. intros Hp. rewrite !copied_list. by rewrite Hp. Qed.

Lemma copied_map {A} `{CloneJSON A} (f : A → A) (l l' : list A) :
  (∀ x, copied x → copied (f x)) → l' ≡ₚ l → copied l → copied (f <$> l').
Proof.
  intros Hf Hp Hl%(copied_perm _ _ Hp). apply copied_list. apply copied_list in Hl. apply Forall_fmap.
  eapply Forall_impl; [exact Hl|]. apply Hf.
Qed.

(** Every field is copied, and the sorted ones are permutations of copied ones. *)
Ltac copied_fields H :=
  injection H; clear H; intros; unfold copied;
  match goal with |- ?l = ?r => let l' := eval hnf in l in let r' := eval hnf in r in change (l' = r') end;
  f_equal;
  first [assumption | eapply copied_perm; [first [apply sort_strings_perm | apply SortFunc_perm]|assumption] | idtac].

Section copies.
Context {sort : GoSort}.

Lemma copied_node a : copied a → copied (normalizeNode a).
Proof. destruct a. intros H. copied_fields H. Qed.

Lemma copied_security a : copied a → copied (normalizeSecurity a).
Proof. destruct a. intros H. copied_fields H. Qed.

Lemma copied_container a : copied a → copied (normalizeContainer a).
Proof. destruct a. intros H. copied_fields H. by apply copied_security. Qed.

Lemma copied_file a : copied a → copied (normalizeFile a).
Proof. destruct a. intros H. copied_fields H. Qed.

Lemma copied_contract a : copied a → copied (normalizeContract a).
Proof. destruct a. intros H. copied_fields H. Qed.

Lemma copied_management a : copied a → copied (normalizeManagement a).
Proof.
  destruct a as [? ? ? ? ? ? ? ? ? ? contract]. intros H. copied_fields H.
  destruct contract as [contract|]; [|done]. cbn. f_equal. apply copied_contract.
  match goal with H : cloneJSON (Some contract) = _ |- _ => by injection H end.
Qed.

Lemma copied_sortPlan plan : copied plan → copied (sortPlan plan).
Proof.
  destruct plan. intros H. copied_fields H.
  - eapply copied_map; [apply copied_node|apply SortFunc_perm|done].
  - eapply copied_map; [apply copied_container|apply SortFunc_perm|done].
  - eapply copied_map; [apply copied_file|apply SortFunc_perm|done].
  - eapply copied_map; [apply copied_management|apply SortFunc_perm|done].
Qed.

Lemma copied_withDefaults plan : copied plan → copied (withDefaults plan).
Proof.
  destruct plan. intros H. copied_fields H.
  - eapply copied_map; [|done|done]. intros x Hx. unfold defaultRuntimeID. destruct (empty _); [|done].
    destruct x. copied_fields Hx.
  - eapply copied_map; [|done|done]. intros x Hx. unfold defaultArtifactKind. destruct (empty _); [|done].
    destruct x. copied_fields Hx.
Qed.

(** ** Normalizing *)

(** What is validated. *)
Definition copyOf (plan : Plan) : Plan := withDefaults (cloneJSON plan).

Lemma copied_copyOf plan : copied (copyOf plan).
Proof. apply copied_withDefaults. unfold copied. apply clone_idem. Qed.

Lemma NormalizePlan_Ok plan normal :
  NormalizePlan plan = Ok normal ↔ PlanOk (copyOf plan) ∧ normal = sortPlan (copyOf plan).
Proof. unfold NormalizePlan. fold (copyOf plan). rewrite seq_Ok, validatePlan_spec, Ok_inj_iff. done. Qed.

Lemma withDefaults_sorted plan :
  PlanOk (withDefaults plan) → withDefaults (sortPlan (withDefaults plan)) = sortPlan (withDefaults plan).
Proof.
  intros Hok. set (q := sortPlan (withDefaults plan)).
  assert (PlanOk q) as Hq by (eapply same_plan_ok; [apply same_plan_sorted|done]).
  assert (defaultRuntimeID <$> Plan_Containers q = Plan_Containers q) as H1.
  { apply list_fmap_fixed. intros x Hx. destruct (plan_containers _ Hq) as [Hall _].
    rewrite list.Forall_forall in Hall. destruct (container_identified _ _ (Hall x Hx)) as (_ & Hr & _).
    unfold defaultRuntimeID. by rewrite (proj2 (empty_false _) Hr). }
  assert (defaultArtifactKind <$> Plan_Files q = Plan_Files q) as H2.
  { apply list_fmap_fixed. intros x Hx. change (Plan_Files q) with (normalizeFile <$> SortFunc (onKey FilePlan_ID Compare)
      (defaultArtifactKind <$> Plan_Files plan)) in Hx.
    apply list_elem_of_fmap in Hx as (y & -> & Hy). rewrite SortFunc_perm in Hy.
    apply list_elem_of_fmap in Hy as (z & -> & _). unfold defaultArtifactKind at 1.
    assert (FilePlan_ArtifactKind (normalizeFile (defaultArtifactKind z)) ≠ "") as Hk.
    { unfold defaultArtifactKind. destruct (empty (FilePlan_ArtifactKind z)) eqn:E; [done|]. by apply empty_false in E. }
    by rewrite (proj2 (empty_false _) Hk). }
  unfold withDefaults at 1. rewrite H1, H2. by destruct q.
Qed.

Lemma copyOf_sorted plan : PlanOk (copyOf plan) → copyOf (sortPlan (copyOf plan)) = sortPlan (copyOf plan).
Proof.
  intros Hok. unfold copyOf at 1. rewrite (copied_sortPlan _ (copied_copyOf plan)). by apply withDefaults_sorted.
Qed.

Lemma unambiguous_same p1 p2 : same_plan p1 p2 → unambiguous p1 → unambiguous p2.
Proof.
  intros S [U1 U2]. split.
  - eapply perm_by_Forall; [apply (sp_containers _ _ S)| |exact U1]. cbn.
    intros x y Hxy. apply no_ties_perm, (ss_devices _ _ (sc_security _ _ Hxy)).
  - eapply perm_by_Forall; [apply (sp_management _ _ S)| |exact U2]. cbn. intros x y Hxy Hx contract Hc.
    pose proof (sm_contract _ _ Hxy) as Hco. rewrite Hc in Hco. inversion Hco as [c c' Hs E1 E2|]; subst.
    eapply no_ties_perm; [apply (st_ports _ _ Hs)|]. apply Hx. by symmetry.
Qed.

Lemma NormalizePlan_idem plan normal :
  NormalizePlan plan = Ok normal → unambiguous (copyOf plan) → NormalizePlan normal = Ok normal.
Proof.
  intros [Hok ->]%NormalizePlan_Ok Hu. apply NormalizePlan_Ok. rewrite (copyOf_sorted _ Hok). split.
  - eapply same_plan_ok; [apply same_plan_sorted|done].
  - apply sortPlan_same; [apply same_plan_sorted|done|done].
Qed.
End copies.

(** ** The theorems *)

(** The order of a normal form. *)
Definition ordered (plan : Plan) : Prop :=
  StronglySorted (key_le NodePlan_ID) (Plan_Nodes plan) ∧ StronglySorted (key_le ContainerPlan_ID) (Plan_Containers plan) ∧
  StronglySorted (key_le FilePlan_ID) (Plan_Files plan) ∧ StronglySorted (key_le ManagementPlan_ID) (Plan_Management plan) ∧
  StronglySorted (λ a b, actionPhaseRank (Action_Phase a) < actionPhaseRank (Action_Phase b) ∨
    (Action_Phase a = Action_Phase b ∧ Action_Order a ≤ Action_Order b)) (Plan_Actions plan).

Lemma phases_ranked a b : a ∈ phases → b ∈ phases → actionPhaseRank a = actionPhaseRank b → a = b.
Proof.
  assert (∀ x, x ∈ phases → ∃ i, phases !! i = Some x ∧ actionPhaseRank x = Z.of_nat i) as H.
  { intros x Hx. unfold phases in Hx. repeat (apply elem_of_cons in Hx as [->|Hx]); 
      [by exists 0%nat|by exists 1%nat|by exists 2%nat|by exists 3%nat|by exists 4%nat|by exists 5%nat|by exists 6%nat|].
    by apply elem_of_nil in Hx. }
  intros Ha Hb Heq. destruct (H a Ha) as (i & Hi & Ei), (H b Hb) as (j & Hj & Ej). rewrite Ei, Ej in Heq.
  apply Nat2Z.inj in Heq as ->. congruence.
Qed.

Section theorems.
Context {sort : GoSort}.

Lemma sorted_keys_map {A} (key : A → string) (f : A → A) l :
  (∀ x, key (f x) = key x) → StronglySorted (key_le key) (f <$> SortFunc (onKey key Compare) l).
Proof.
  intros Hf. pose proof (SortFunc_sorted (onKey key Compare) l (onKey_wo _ _ Compare_wo)) as H.
  induction H as [|x l' H IH Hx]; [constructor|]. rewrite fmap_cons. constructor; [done|]. apply Forall_fmap.
  eapply Forall_impl; [exact Hx|]. unfold key_le, compose, onKey. cbn. intros y Hy. rewrite !Hf. by apply Compare_le.
Qed.

Lemma compareAction_phase a b :
  Action_Phase a ∈ phases → Action_Phase b ∈ phases → compareAction a b ≤ 0 →
  actionPhaseRank (Action_Phase a) < actionPhaseRank (Action_Phase b) ∨
  (Action_Phase a = Action_Phase b ∧ Action_Order a ≤ Action_Order b).
Proof.
  intros Ha Hb. unfold compareAction, thenBy, onKey. intros H.
  destruct (Z.eqb_spec (compareInt (actionPhaseRank (Action_Phase a)) (actionPhaseRank (Action_Phase b))) 0) as [E|E].
  - right. apply compareInt_zero in E. split; [by apply phases_ranked|].
    destruct (Z.eqb_spec (compareInt (Action_Order a) (Action_Order b)) 0) as [E'|E'].
    + apply compareInt_zero in E'. lia.
    + by apply (proj1 (compareInt_le _ _)).
  - left. apply (proj1 (compareInt_le _ _)) in H. assert (actionPhaseRank (Action_Phase a) ≠ actionPhaseRank (Action_Phase b)); [|lia].
    intros Heq. apply E. unfold compareInt. rewrite Heq, !Z.ltb_irrefl. done.
Qed.

Lemma sortPlan_ordered plan : PlanOk plan → ordered (sortPlan plan).
Proof.
  intros Hok. unfold ordered. split_and!; [by apply sorted_keys_map..|].
  destruct (plan_actions _ Hok) as [Hall _]. rewrite list.Forall_forall in Hall. cbn.
  pose proof (SortFunc_sorted compareAction (Plan_Actions plan) ltac:(apply compare_orders)) as H.
  assert (∀ a, a ∈ SortFunc compareAction (Plan_Actions plan) → Action_Phase a ∈ phases) as Hp.
  { intros a Ha. rewrite SortFunc_perm in Ha. apply (action_identified _ _ (Hall a Ha)). }
  induction H as [|x l H IH Hx]; [constructor|]. constructor.
  - apply IH. intros a Ha. apply Hp. by right.
  - rewrite list.Forall_forall in *. intros y Hy. apply compareAction_phase; [apply Hp; by left|apply Hp; by right|]. by apply Hx.
Qed.

(** C14: Validation is exact.  A plan is normalized exactly when its copy, with the defaults
    filled in, is a valid plan: all parts identified and complete, identities unique, every
    reference leading to a part of the right owner and kind, every action with the one payload
    its kind needs.  The result is valid again, has the same content up to the order of
    fields without order, and is ordered by identity, actions by phase and order number. *)
Theorem plan_validation_exact plan :
  (PlanOk (copyOf plan) ↔ ∃ normal, NormalizePlan plan = Ok normal) ∧
  ∀ normal, NormalizePlan plan = Ok normal →
    PlanOk normal ∧ same_plan (copyOf plan) normal ∧ ordered normal.
Proof.
  split.
  - setoid_rewrite NormalizePlan_Ok. naive_solver.
  - intros normal [Hok ->]%NormalizePlan_Ok. pose proof (same_plan_sorted (copyOf plan)) as Hs.
    split_and!; [by eapply same_plan_ok|done|by apply sortPlan_ordered].
Qed.

Context {json : PlanJSON} {sha : Sha256}.

(** C15: One digest per plan.  Two plans that differ only in the order of fields without order
    are accepted together, whatever sorting algorithm is used.  If no two devices of a
    container have the same paths but different permissions and no two port mappings the same
    port but different targets, they have the same normal form, the same canonical
    serialization and the same digest; without that the normal form depends on the order
    ([device_order_in_digest]). *)
Theorem plan_canonical p1 p2 normal :
  same_plan p1 p2 → NormalizePlan p1 = Ok normal →
  ∃ normal2, NormalizePlan p2 = Ok normal2 ∧
    (unambiguous (copyOf p1) → normal2 = normal ∧ CanonicalJSON p2 = CanonicalJSON p1 ∧ PlanDigest p2 = PlanDigest p1).
Proof.
  intros Hs Hn. pose proof Hn as [Hok Heq]%NormalizePlan_Ok.
  assert (same_plan (copyOf p1) (copyOf p2)) as Hs' by (by apply same_plan_defaults, same_plan_clone).
  assert (NormalizePlan p2 = Ok (sortPlan (copyOf p2))) as Hn2 by (apply NormalizePlan_Ok; split; [by eapply same_plan_ok|done]).
  eexists. split; [exact Hn2|]. intros Hu. assert (sortPlan (copyOf p2) = normal) as E by (rewrite Heq; symmetry; by apply sortPlan_same).
  unfold PlanDigest, CanonicalJSON. by rewrite Hn, Hn2, E.
Qed.

(** C25: The codec is a round trip.  The canonical serialization of an accepted plan is decoded
    to a plan that is accepted and differs from the normal form at most in the order of fields
    without order.  If no two devices of a container have the same paths but different
    permissions and no two port mappings the same port but different targets, it is the normal
    form, whose canonical serialization is the same bytes: a plan that was stored and read back
    keeps its digest. *)
Theorem plan_codec_roundtrip plan raw :
  CanonicalJSON plan = Ok raw →
  ∃ normal decoded, NormalizePlan plan = Ok normal ∧ PlanDigest plan = Ok (Digest raw) ∧
    DecodePlan raw = Ok decoded ∧ PlanOk decoded ∧ same_plan normal decoded ∧
    (unambiguous (copyOf plan) → decoded = normal ∧ CanonicalJSON normal = Ok raw ∧ PlanDigest normal = Ok (Digest raw)).
Proof.
  unfold PlanDigest, CanonicalJSON. intros (normal & Hn & [= <-])%let_Ok. pose proof Hn as [Hok Heq]%NormalizePlan_Ok.
  assert (copied normal) as Hcopied by (rewrite Heq; apply copied_sortPlan, copied_copyOf).
  assert (copyOf normal = normal) as Hcopy by (rewrite Heq; by apply copyOf_sorted).
  assert (PlanOk normal) as Hnok by (rewrite Heq; eapply same_plan_ok; [apply same_plan_sorted|done]).
  exists normal, (sortPlan normal). unfold DecodePlan. rewrite plan_json, Hcopied, Hn.
  assert (NormalizePlan normal = Ok (sortPlan normal)) as Hi by (apply NormalizePlan_Ok; rewrite Hcopy; done).
  rewrite Hi. split_and!; [done..|eapply same_plan_ok; [apply same_plan_sorted|done]|apply same_plan_sorted|].
  intros Hu. pose proof (NormalizePlan_idem _ _ Hn Hu) as Hidem. rewrite Hi in Hidem. injection Hidem as ->. done.
Qed.
End theorems.
