(* ===== verification/PlanExamples.v ===== *)
(** * Device plans: concrete plans

    The theorems of [PlanTheorems] at a concrete plan, and the two plans that show where the
    normal form and the validation fall short. *)

From S2P Require Import Prelude WireCodec Api GoStrings GoNet GoSort DevicePlanTypes Management ManagementTheorems.
From S2P Require Import PeerDirectory Hosts NameResolution.
From S2P Require Import PlanValidation PlanSpec PlanAcceptance PlanCodec PlanCanonical PlanTheorems.
Local Open Scope Z_scope.

(** ** A concrete serialization: the binary digits of a plan's code *)

#[export] Instance Compatibility_countable : Countable Compatibility :=
  inj_countable'
    (λ r, (Compatibility_ContainerlabModule r, Compatibility_ContainerlabVersion r, Compatibility_RegistryDigest r,
     Compatibility_PlanSchemaVersion r))
    (λ '(x0, x1, x2, x3), MkCompatibility x0 x1 x2 x3)
    ltac:(by intros []).
#[export] Instance KeyValue_countable : Countable KeyValue :=
  inj_countable'
    (λ r, (KeyValue_Name r, KeyValue_Value r))
    (λ '(x0, x1), MkKeyValue x0 x1)
    ltac:(by intros []).
#[export] Instance Port_countable : Countable Port :=
  inj_countable'
    (λ r, (Port_Number r, Port_Protocol r))
    (λ '(x0, x1), MkPort x0 x1)
    ltac:(by intros []).
#[export] Instance Healthcheck_countable : Countable Healthcheck :=
  inj_countable'
    (λ r, (Healthcheck_Test r, Healthcheck_Interval r, Healthcheck_Timeout r, Healthcheck_StartPeriod r,
     Healthcheck_Retries r))
    (λ '(x0, x1, x2, x3, x4), MkHealthcheck x0 x1 x2 x3 x4)
    ltac:(by intros []).
#[export] Instance DNSConfig_countable : Countable DNSConfig :=
  inj_countable'
    (λ r, (DNSConfig_Servers r, DNSConfig_Search r, DNSConfig_Options r))
    (λ '(x0, x1, x2), MkDNSConfig x0 x1 x2)
    ltac:(by intros []).
#[export] Instance ManagementMesh_countable : Countable ManagementMesh :=
  inj_countable'
    (λ r, (ManagementMesh_TunnelID r, ManagementMesh_GatewayMAC r))
    (λ '(x0, x1), MkManagementMesh x0 x1)
    ltac:(by intros []).
#[export] Instance PlannerIdentity_countable : Countable PlannerIdentity :=
  inj_countable'
    (λ r, (PlannerIdentity_Name r, PlannerIdentity_Revision r))
    (λ '(x0, x1), MkPlannerIdentity x0 x1)
    ltac:(by intros []).
#[export] Instance NodePlan_countable : Countable NodePlan :=
  inj_countable'
    (λ r, (NodePlan_ID r, NodePlan_Name r, NodePlan_Kind r, NodePlan_Group r, NodePlan_Position r, NodePlan_Aliases r,
     NodePlan_ContainerIDs r, NodePlan_ReadinessContainerIDs r, NodePlan_PrimaryContainerID r,
     NodePlan_EnforceStartupConfig r))
    (λ '(x0, x1, x2, x3, x4, x5, x6, x7, x8, x9), MkNodePlan x0 x1 x2 x3 x4 x5 x6 x7 x8 x9)
    ltac:(by intros []).
#[export] Instance Device_countable : Countable Device :=
  inj_countable'
    (λ r, (Device_HostPath r, Device_ContainerPath r, Device_Permissions r))
    (λ '(x0, x1, x2), MkDevice x0 x1 x2)
    ltac:(by intros []).
#[export] Instance SecurityPlan_countable : Countable SecurityPlan :=
  inj_countable'
    (λ r, (SecurityPlan_Privileged r, SecurityPlan_CapabilitiesAdd r, SecurityPlan_CapabilitiesDrop r,
     SecurityPlan_Devices r, SecurityPlan_Sysctls r, SecurityPlan_SeccompProfile r,
     SecurityPlan_AppArmorProfile r, SecurityPlan_ReadOnlyRootFS r))
    (λ '(x0, x1, x2, x3, x4, x5, x6, x7), MkSecurityPlan x0 x1 x2 x3 x4 x5 x6 x7)
    ltac:(by intros []).
#[export] Instance ResourcePlan_countable : Countable ResourcePlan :=
  inj_countable'
    (λ r, (ResourcePlan_CPURequest r, ResourcePlan_CPULimit r, ResourcePlan_MemoryRequest r, ResourcePlan_MemoryLimit r,
     ResourcePlan_HugePages r, ResourcePlan_CPUSet r))
    (λ '(x0, x1, x2, x3, x4, x5), MkResourcePlan x0 x1 x2 x3 x4 x5)
    ltac:(by intros []).
#[export] Instance ContainerPlan_countable : Countable ContainerPlan :=
  inj_countable'
    (λ r, (ContainerPlan_ID r, ContainerPlan_NodeID r, ContainerPlan_RuntimeID r, ContainerPlan_ComponentID r,
     ContainerPlan_NamespaceOwnerID r, ContainerPlan_Image r, ContainerPlan_ImageDigest r,
     ContainerPlan_ImagePullPolicy r, ContainerPlan_ImagePullPolicyExplicit r,
     ContainerPlan_ImageEntrypoint r, ContainerPlan_ImageCommand r, ContainerPlan_Entrypoint r,
     ContainerPlan_Command r, ContainerPlan_Environment r, ContainerPlan_Labels r, ContainerPlan_User r,
     ContainerPlan_WorkingDir r, ContainerPlan_Ports r, ContainerPlan_StopSignal r,
     ContainerPlan_RestartPolicy r, ContainerPlan_StartupDelay r, ContainerPlan_TTY r, ContainerPlan_Stdin r,
     ContainerPlan_Security r, ContainerPlan_Resources r, ContainerPlan_DNS r, ContainerPlan_Healthcheck r,
     ContainerPlan_Required r, ContainerPlan_MountIDs r))
    (λ '(x0, x1, x2, x3, x4, x5, x6, x7, x8, x9, x10, x11, x12, x13, x14, x15, x16, x17, x18, x19, x20, x21, x22, x23,
     x24, x25, x26, x27, x28), MkContainerPlan x0 x1 x2 x3 x4 x5 x6 x7 x8 x9 x10 x11 x12 x13 x14 x15 x16 x17 x18 x19 x20 x21 x22 x23 x24 x25
     x26 x27 x28)
    ltac:(by intros []).
#[export] Instance ExtendedAttribute_countable : Countable ExtendedAttribute :=
  inj_countable'
    (λ r, (ExtendedAttribute_Name r, ExtendedAttribute_Digest r))
    (λ '(x0, x1), MkExtendedAttribute x0 x1)
    ltac:(by intros []).
#[export] Instance FilePlan_countable : Countable FilePlan :=
  inj_countable'
    (λ r, (FilePlan_ID r, FilePlan_NodeID r, FilePlan_SourceKind r, FilePlan_ArtifactKind r, FilePlan_SourceReference r,
     FilePlan_Digest r, FilePlan_ArtifactPath r, FilePlan_LinkTarget r, FilePlan_Destination r,
     FilePlan_Mode r, FilePlan_UID r, FilePlan_GID r, FilePlan_ExtendedAttributes r, FilePlan_Sensitive r,
     FilePlan_PreserveExisting r, FilePlan_Variables r))
    (λ '(x0, x1, x2, x3, x4, x5, x6, x7, x8, x9, x10, x11, x12, x13, x14, x15), MkFilePlan x0 x1 x2 x3 x4 x5 x6 x7 x8 x9 x10 x11 x12 x13 x14 x15)
    ltac:(by intros []).
#[export] Instance VolumePlan_countable : Countable VolumePlan :=
  inj_countable'
    (λ r, (VolumePlan_ID r, VolumePlan_NodeID r, VolumePlan_Kind r, VolumePlan_Reference r, VolumePlan_Size r,
     VolumePlan_Medium r))
    (λ '(x0, x1, x2, x3, x4, x5), MkVolumePlan x0 x1 x2 x3 x4 x5)
    ltac:(by intros []).
#[export] Instance MountPlan_countable : Countable MountPlan :=
  inj_countable'
    (λ r, (MountPlan_ID r, MountPlan_ContainerID r, MountPlan_VolumeID r, MountPlan_SourcePath r,
     MountPlan_Destination r, MountPlan_ReadOnly r, MountPlan_Propagation r))
    (λ '(x0, x1, x2, x3, x4, x5, x6), MkMountPlan x0 x1 x2 x3 x4 x5 x6)
    ltac:(by intros []).
#[export] Instance ImportedDeployEndpointsAction_countable : Countable ImportedDeployEndpointsAction := inj_countable' (λ _, ()) (λ _, MkImportedDeployEndpointsAction) ltac:(by intros []).
#[export] Instance ImportedPostDeployAction_countable : Countable ImportedPostDeployAction := inj_countable' (λ _, ()) (λ _, MkImportedPostDeployAction) ltac:(by intros []).
#[export] Instance ActionTarget_countable : Countable ActionTarget :=
  inj_countable'
    (λ r, (ActionTarget_NodeID r, ActionTarget_ContainerID r, ActionTarget_NamespaceOwnerID r))
    (λ '(x0, x1, x2), MkActionTarget x0 x1 x2)
    ltac:(by intros []).
#[export] Instance ExecAction_countable : Countable ExecAction :=
  inj_countable'
    (λ r, (ExecAction_Command r, ExecAction_Shell r, ExecAction_Wait r, ExecAction_ContinueOnError r,
     ExecAction_TimeoutSeconds r))
    (λ '(x0, x1, x2, x3, x4), MkExecAction x0 x1 x2 x3 x4)
    ltac:(by intros []).
#[export] Instance FileAction_countable : Countable FileAction :=
  inj_countable'
    (λ r, (FileAction_FileID r, FileAction_Destination r, FileAction_WriteMode r))
    (λ '(x0, x1, x2), MkFileAction x0 x1 x2)
    ltac:(by intros []).
#[export] Instance WriteStdinAction_countable : Countable WriteStdinAction :=
  inj_countable'
    (λ r, (WriteStdinAction_FileID r))
    (λ '(x0), MkWriteStdinAction x0)
    ltac:(by intros []).
#[export] Instance MountAction_countable : Countable MountAction :=
  inj_countable'
    (λ r, (MountAction_MountID r, MountAction_Filesystem r, MountAction_Source r, MountAction_Options r))
    (λ '(x0, x1, x2, x3), MkMountAction x0 x1 x2 x3)
    ltac:(by intros []).
#[export] Instance SysctlAction_countable : Countable SysctlAction :=
  inj_countable'
    (λ r, (SysctlAction_Name r, SysctlAction_Value r))
    (λ '(x0, x1), MkSysctlAction x0 x1)
    ltac:(by intros []).
#[export] Instance WaitInterfaceAction_countable : Countable WaitInterfaceAction :=
  inj_countable'
    (λ r, (WaitInterfaceAction_InterfaceID r, WaitInterfaceAction_TimeoutSeconds r))
    (λ '(x0, x1), MkWaitInterfaceAction x0 x1)
    ltac:(by intros []).
#[export] Instance RenameInterfaceAction_countable : Countable RenameInterfaceAction :=
  inj_countable'
    (λ r, (RenameInterfaceAction_InterfaceID r, RenameInterfaceAction_From r, RenameInterfaceAction_To r))
    (λ '(x0, x1, x2), MkRenameInterfaceAction x0 x1 x2)
    ltac:(by intros []).
#[export] Instance ManagementForwardingAction_countable : Countable ManagementForwardingAction :=
  inj_countable'
    (λ r, (ManagementForwardingAction_ManagementID r, ManagementForwardingAction_Namespace r,
     ManagementForwardingAction_IPv4Forward r))
    (λ '(x0, x1, x2), MkManagementForwardingAction x0 x1 x2)
    ltac:(by intros []).
#[export] Instance ImportedReadinessAction_countable : Countable ImportedReadinessAction := inj_countable' (λ _, ()) (λ _, MkImportedReadinessAction) ltac:(by intros []).
#[export] Instance SaveAction_countable : Countable SaveAction :=
  inj_countable'
    (λ r, (SaveAction_Method r, SaveAction_FileID r))
    (λ '(x0, x1), MkSaveAction x0 x1)
    ltac:(by intros []).
#[export] Instance Action_countable : Countable Action :=
  inj_countable'
    (λ r, (Action_ID r, Action_Phase r, Action_Order r, Action_Target r, Action_Kind r, Action_Exec r, Action_File r,
     Action_WriteStdin r, Action_Mount r, Action_Sysctl r, Action_WaitInterface r, Action_RenameInterface r,
     Action_ManagementForwarding r, Action_ImportedDeployEndpoints r, Action_ImportedPostDeploy r,
     Action_ImportedReadiness r, Action_Save r))
    (λ '(x0, x1, x2, x3, x4, x5, x6, x7, x8, x9, x10, x11, x12, x13, x14, x15, x16), MkAction x0 x1 x2 x3 x4 x5 x6 x7 x8 x9 x10 x11 x12 x13 x14 x15 x16)
    ltac:(by intros []).
#[export] Instance ManagementPortMap_countable : Countable ManagementPortMap :=
  inj_countable'
    (λ r, (ManagementPortMap_Protocol r, ManagementPortMap_PodPort r, ManagementPortMap_DevicePort r))
    (λ '(x0, x1, x2), MkManagementPortMap x0 x1 x2)
    ltac:(by intros []).
#[export] Instance ManagementInterposition_countable : Countable ManagementInterposition :=
  inj_countable'
    (λ r, (ManagementInterposition_DeviceInterface r, ManagementInterposition_DeviceMAC r,
     ManagementInterposition_TransportCIDRs r, ManagementInterposition_InboundPorts r,
     ManagementInterposition_Mesh r))
    (λ '(x0, x1, x2, x3, x4), MkManagementInterposition x0 x1 x2 x3 x4)
    ltac:(by intros []).
#[export] Instance Route_countable : Countable Route :=
  inj_countable'
    (λ r, (Route_Destination r, Route_Gateway r, Route_Metric r))
    (λ '(x0, x1, x2), MkRoute x0 x1 x2)
    ltac:(by intros []).
#[export] Instance ManagementPlan_countable : Countable ManagementPlan :=
  inj_countable'
    (λ r, (ManagementPlan_ID r, ManagementPlan_NodeID r, ManagementPlan_InterfaceName r,
     ManagementPlan_InterfaceSelector r, ManagementPlan_IPv4 r, ManagementPlan_IPv4Gateway r,
     ManagementPlan_IPv6 r, ManagementPlan_IPv6Gateway r, ManagementPlan_Routes r, ManagementPlan_DNS r,
     ManagementPlan_Interposition r))
    (λ '(x0, x1, x2, x3, x4, x5, x6, x7, x8, x9, x10), MkManagementPlan x0 x1 x2 x3 x4 x5 x6 x7 x8 x9 x10)
    ltac:(by intros []).
#[export] Instance InterfacePlan_countable : Countable InterfacePlan :=
  inj_countable'
    (λ r, (InterfacePlan_ID r, InterfacePlan_NodeID r, InterfacePlan_NamespaceOwnerID r, InterfacePlan_Name r,
     InterfacePlan_Alias r, InterfacePlan_LinkID r, InterfacePlan_LinkName r, InterfacePlan_PeerNodeID r,
     InterfacePlan_PeerInterface r, InterfacePlan_PeerTransport r, InterfacePlan_Connectivity r,
     InterfacePlan_WireID r, InterfacePlan_MTU r, InterfacePlan_LinkApplyMode r,
     InterfacePlan_RequiredAtStart r))
    (λ '(x0, x1, x2, x3, x4, x5, x6, x7, x8, x9, x10, x11, x12, x13, x14), MkInterfacePlan x0 x1 x2 x3 x4 x5 x6 x7 x8 x9 x10 x11 x12 x13 x14)
    ltac:(by intros []).
#[export] Instance Plan_countable : Countable Plan :=
  inj_countable'
    (λ r, (Plan_SchemaVersion r, Plan_Compatibility r, Plan_InputDigest r, Plan_Planner r, Plan_Nodes r,
     Plan_Containers r, Plan_Files r, Plan_Volumes r, Plan_Mounts r, Plan_Actions r, Plan_Management r,
     Plan_Interfaces r))
    (λ '(x0, x1, x2, x3, x4, x5, x6, x7, x8, x9, x10, x11), MkPlan x0 x1 x2 x3 x4 x5 x6 x7 x8 x9 x10 x11)
    ltac:(by intros []).

#[export] Program Instance digits_json : PlanJSON := {|
  marshalPlan plan := digitsOf (encode plan);
  decodeStrictPlan s := cloneJSON <$> (ofDigits s ≫= decode)
|}.
Next Obligation. intros plan. cbn. rewrite ofDigits_digitsOf. cbn. by rewrite decode_encode. Qed.

(** ** A plan of one Node *)

Definition zeroDigest : string := "sha256:" +:+ String.concat "" (replicate 64 "0").

Definition exampleContainer (devices : list Device) : ContainerPlan :=
  MkContainerPlan "c1" "uid-1" "" "" "c1" "linux:1" "" "" false [] [] [] ["sleep"]
    [MkKeyValue "B" "2"; MkKeyValue "A" "1"] [] "" "" [MkPort 830 "TCP"; MkPort 22 "TCP"] "" "" 0 false false
    (MkSecurityPlan false ["NET_RAW"; "NET_ADMIN"] [] devices [] "" "" false)
    (MkResourcePlan "" "" "" "" "" "") (MkDNSConfig [] [] []) None true ["m1"].

Definition exampleFile (path : string) : FilePlan :=
  MkFilePlan "f1" "uid-1" FileSourceGenerator "" "startup" "" path "" "/config/startup" 420 None None [] false false [].

Definition exampleAction (id phase : string) (order : Z) : Action :=
  MkAction id phase order (MkActionTarget "uid-1" "c1" "") ActionExec
    (Some (MkExecAction ["true"] false true false 0)) None None None None None None None None None None None.

Definition examplePlan (devices : list Device) (path : string) (actions : list Action) : Plan :=
  MkPlan SchemaVersion (MkCompatibility "containerlab" "v0.70" zeroDigest SchemaVersion) zeroDigest
    (MkPlannerIdentity "clabernetes" "1")
    [MkNodePlan "uid-1" "leaf" "linux" "" "" ["b"; "a"] ["c1"] ["c1"] "c1" false]
    [exampleContainer devices] [exampleFile path]
    [MkVolumePlan "v1" "uid-1" VolumeEmptyDir "" "" "Memory"]
    [MkMountPlan "m1" "c1" "v1" "" "/run/lab" false ""] actions
    [MkManagementPlan "g1" "uid-1" "" ManagementInterfacePodTransport "" "" "" "" [] (MkDNSConfig [] [] []) None]
    [MkInterfacePlan "i1" "uid-1" "c1" "eth1" "" "l1" "" "" "" "" ConnectivityWire 7 1500 LinkApplyLive true].

Definition deviceA : Device := MkDevice "/dev/net/tun" "/dev/net/tun" "rw".
Definition deviceB : Device := MkDevice "/dev/kvm" "/dev/kvm" "rw".
Definition deviceA' : Device := MkDevice "/dev/net/tun" "/dev/net/tun" "rwm".
Definition late : Action := exampleAction "late" PhasePostStart 1.
Definition early : Action := exampleAction "early" PhasePreStart 2.

Definition plan1 : Plan := examplePlan [deviceA; deviceB] "startup.cfg" [late; early].
Definition plan2 : Plan := examplePlan [deviceB; deviceA] "startup.cfg" [early; late].

(** The normal form, computed. *)
Definition normalOf (plan : Plan) : Plan := okOr plan (NormalizePlan (sort := insertion_sort) plan).

Lemma plan1_normal : NormalizePlan (sort := insertion_sort) plan1 = Ok (normalOf plan1).
Proof. vm_compute. reflexivity. Qed.

Lemma perm_by_one {A} (R : A → A → Prop) x y : R x y → perm_by R [x] [y].
Proof. intros H. exists [x]. split; [done|]. by repeat constructor. Qed.

Lemma swapped {A} (x y : A) : [x; y] ≡ₚ [y; x].
Proof. apply Permutation_swap. Qed.

Lemma swapped_devices x y path actions actions' :
  actions ≡ₚ actions' → same_plan (examplePlan [x; y] path actions) (examplePlan [y; x] path actions').
Proof.
  intros Ha. split; try done; apply perm_by_one; split; try done.
  - split; try done. apply swapped.
  - constructor.
Qed.

Lemma no_ties_two {A} (cmp : A → A → Z) x y : cmp x y ≠ 0 → cmp y x ≠ 0 → no_ties cmp [x; y].
Proof.
  intros H1 H2 a b Ha Hb Heq. rewrite !elem_of_cons, elem_of_nil in Ha, Hb.
  destruct Ha as [->|[->|[]]], Hb as [->|[->|[]]]; done.
Qed.

Lemma plan1_unambiguous : unambiguous (copyOf plan1).
Proof.
  split.
  - apply list.Forall_singleton. change (no_ties compareDevice [deviceA; deviceB]). by apply no_ties_two.
  - apply list.Forall_singleton. done.
Qed.

Lemma plan_validation_exact_witness :
  PlanOk (normalOf plan1) ∧ ordered (normalOf plan1) ∧
  Action_ID <$> Plan_Actions (normalOf plan1) = ["early"; "late"].
Proof.
  destruct (proj2 (plan_validation_exact (sort := insertion_sort) plan1) (normalOf plan1) plan1_normal) as (H1 & _ & H2).
  split; [exact H1|]. split; [exact H2|]. by vm_compute.
Defined.

Lemma plan_canonical_witness :
  NormalizePlan (sort := insertion_sort) plan2 = Ok (normalOf plan1) ∧
  PlanDigest (sort := insertion_sort) (sha := example_sha) plan2 = PlanDigest (sort := insertion_sort) (sha := example_sha) plan1.
Proof.
  destruct (plan_canonical (sort := insertion_sort) (sha := example_sha) plan1 plan2 (normalOf plan1)) as (normal2 & H1 & H).
  - apply swapped_devices, swapped.
  - apply plan1_normal.
  - destruct (H plan1_unambiguous) as (-> & _ & H2). split; [exact H1|exact H2].
Defined.

Lemma plan_codec_roundtrip_witness :
  ∃ normal, NormalizePlan (sort := insertion_sort) plan1 = Ok normal ∧
    DecodePlan (sort := insertion_sort) (marshalPlan (normalOf plan1)) = Ok normal.
Proof.
  destruct (plan_codec_roundtrip (sort := insertion_sort) (sha := example_sha) plan1 (marshalPlan (normalOf plan1)))
    as (normal & decoded & H1 & _ & H2 & _ & _ & H).
  - unfold CanonicalJSON. by rewrite plan1_normal.
  - destruct (H plan1_unambiguous) as (-> & _). exists normal. split; [exact H1|exact H2].
Defined.

(** The digest can depend on an order without meaning.  Two devices of a container with
    the same paths and different permissions compare equal, so the same two devices listed in
    the other order give another normal form, under the insertion sort used for short
    slices. *)
Theorem device_order_in_digest :
  let p1 := examplePlan [deviceA; deviceA'] "startup.cfg" [late] in
  let p2 := examplePlan [deviceA'; deviceA] "startup.cfg" [late] in
  same_plan p1 p2 ∧
  NormalizePlan (sort := insertion_sort) p1 = Ok (normalOf p1) ∧
  NormalizePlan (sort := insertion_sort) p2 = Ok (normalOf p2) ∧ normalOf p1 ≠ normalOf p2.
Proof.
  cbv zeta. split; [by apply swapped_devices|]. split; [by vm_compute|]. split; [by vm_compute|].
  intros H. apply (f_equal (λ p, ContainerPlan_Security <$> Plan_Containers p)) in H. by vm_compute in H.
Qed.

(** An artifact path can leave the artifact directory.  Paths that start with [../] are
    refused, but the path [..] itself, and every path that cleans to it, is accepted. *)
Theorem artifact_path_escapes :
  let plan := examplePlan [] "a/../.." [late] in
  Clean "a/../.." = ".." ∧ NormalizePlan (sort := insertion_sort) plan = Ok (normalOf plan) ∧
  FilePlan_ArtifactPath <$> Plan_Files (normalOf plan) = ["a/../.."] ∧
  is_ok (NormalizePlan (sort := insertion_sort) (examplePlan [] "../f" [late])) = false.
Proof. by vm_compute. Qed.
