(* ===== verification/InputCodec.v ===== *)
(** * Planning inputs: validation, normal form, digest and codec

    Models [validateInput], [NormalizeInput], the [CanonicalJSON] and [Digest] of inputs and
    [DecodeInput] of [internal/deviceplan/codec.go]: what the node controller hands to the
    planner, and what a plan names by its input digest.

    The definition of a Node is JSON text inside the input ([json.RawMessage]); the text is an
    argument with the laws of [json.Compact] that are used.  An input whose definitions are
    not JSON cannot be copied at all. *)

From S2P Require Import Prelude WireCodec Api GoStrings GoNet GoSort DevicePlanTypes Management.
From S2P Require Import PlanValidation PlanCodec.
Local Open Scope Z_scope.

(** ** JSON text *)

(** [json.Compact], which fails on text that is not JSON. *)
Class JSONText : Type := {
  CompactJSON : string → option string;
  CompactJSON_idem : ∀ text compact, CompactJSON text = Some compact → CompactJSON compact = Some compact;
  CompactJSON_nonempty : CompactJSON "" = None;
  CompactJSON_null : CompactJSON "null" = Some "null"
}.
Definition json_Valid `{JSONText} (text : string) : bool :=
  match CompactJSON text with Some _ => true | None => false end.

Section input.
Context {text : JSONText}.

(** A [RawMessage] written and read back: compacted, and [null] when there is none. *)
Definition cloneRaw (raw : string) : option string := if empty raw then Some "null" else CompactJSON raw.

Definition cloneNodeInput (node : NodeInput) : option NodeInput :=
  definition ← cloneRaw (NodeInput_Definition node);
  Some (MkNodeInput (cloneJSON (NodeInput_ID node)) (cloneJSON (NodeInput_Name node)) (cloneJSON (NodeInput_Kind node))
          (cloneJSON (NodeInput_Type node)) (cloneJSON (NodeInput_GroupOwner node)) definition).

Definition cloneInput (input : Input) : option Input :=
  nodes ← mapM cloneNodeInput (Input_Nodes input);
  Some (MkInput (cloneJSON (Input_SchemaVersion input)) (cloneJSON (Input_TopologyName input))
          (cloneJSON (Input_Compatibility input)) (cloneJSON (Input_EntropyDigest input)) nodes
          (cloneJSON (Input_Images input)) (cloneJSON (Input_Payloads input)) (cloneJSON (Input_Certificates input))
          (cloneJSON (Input_Management input)) (cloneJSON (Input_Interfaces input))).

(** ** The loops of [validateInput] *)

Definition nodeInputStep (state : gset string * gset string) (entry : nat * NodeInput) :
    result PlanError (gset string * gset string) :=
  let node := entry.2 in
  let field := indexed "nodes" entry.1 in
  refuse (empty (NodeInput_ID node) || empty (NodeInput_Name node) || empty (NodeInput_Kind node))
    ErrorInvalidInput field "id, name, and kind are required" ;;?
  refuse (bool_decide (NodeInput_ID node ∈ state.1) || bool_decide (NodeInput_Name node ∈ state.2))
    ErrorInvalidInput field "Node identity is duplicated" ;;?
  refuse (negb (json_Valid (NodeInput_Definition node))) ErrorInvalidInput (field +:+ ".definition") "must be valid JSON" ;;?
  Ok ({[NodeInput_ID node]} ∪ state.1, {[NodeInput_Name node]} ∪ state.2).

Definition groupOwnerStep (nodes : gset string) (entry : nat * NodeInput) : result PlanError unit :=
  refuse (negb (empty (NodeInput_GroupOwner entry.2)) && negb (bool_decide (NodeInput_GroupOwner entry.2 ∈ nodes)))
    ErrorMissingInput (indexed "nodes" entry.1 +:+ ".groupOwner") "references an unknown Node".

Definition nulSeparated (a b : string) : string := a +:+ String nulChar b.
Definition imageIdentity (image : ImageInput) : string :=
  if empty (ImageInput_Role image) then ImageInput_SourceReference image else ImageInput_Role image.
Definition imageKey (image : ImageInput) : string := nulSeparated (ImageInput_NodeID image) (imageIdentity image).

Definition imageStep (nodes : gset string) (images : gset string) (entry : nat * ImageInput) :
    result PlanError (gset string) :=
  let image := entry.2 in
  let field := indexed "images" entry.1 in
  refuse (negb (bool_decide (ImageInput_NodeID image ∈ nodes)))
    ErrorMissingInput (field +:+ ".nodeID") "references an unknown Node" ;;?
  refuse (bool_decide (imageKey image ∈ images)) ErrorInvalidInput field "image identity is duplicated" ;;?
  refuse (empty (ImageInput_SourceReference image) || empty (ImageInput_DigestReference image)
          || empty (Platform_OS (ImageInput_Platform image)) || empty (Platform_Architecture (ImageInput_Platform image)))
    ErrorMissingInput field "source, digest, operating system, and architecture are required" ;;?
  validateUniqueKeyValues (ImageConfig_Environment (ImageInput_Config image)) (field +:+ ".config.environment") ;;?
  validateUniqueKeyValues (ImageConfig_Labels (ImageInput_Config image)) (field +:+ ".config.labels") ;;?
  Ok ({[imageKey image]} ∪ images).

Definition payloadStep (nodes : gset string) (payloads : gset string) (entry : nat * PayloadInput) :
    result PlanError (gset string) :=
  let payload := entry.2 in
  let field := indexed "payloads" entry.1 in
  refuse (empty (PayloadInput_ID payload) || empty (PayloadInput_Destination payload)
          || negb (bool_decide (PayloadInput_NodeID payload ∈ nodes)))
    ErrorInvalidInput field "id, known Node, and destination are required" ;;?
  refuse (bool_decide (PayloadInput_ID payload ∈ payloads)) ErrorInvalidInput (field +:+ ".id") "payload ID is duplicated" ;;?
  refuse (negb (validPayloadKind (PayloadInput_Kind payload)))
    ErrorUnsupported (field +:+ ".kind") "payload kind is unsupported" ;;?
  refuse (empty (PayloadInput_Reference payload)
          || (bool_decide (PayloadInput_Kind payload = PayloadInline) && empty (PayloadInput_Digest payload)))
    ErrorMissingInput field "payload identity is incomplete" ;;?
  Ok ({[PayloadInput_ID payload]} ∪ payloads).

Definition certificateKey (certificate : CertificateInput) : string :=
  nulSeparated (CertificateInput_NodeID certificate) (CertificateInput_StorageName certificate).

Definition certificateStep (nodes : gset string) (certificates : gset string) (entry : nat * CertificateInput) :
    result PlanError (gset string) :=
  let certificate := entry.2 in
  let field := indexed "certificates" entry.1 in
  refuse (negb (bool_decide (CertificateInput_NodeID certificate ∈ nodes)))
    ErrorMissingInput (field +:+ ".nodeID") "references an unknown Node" ;;?
  refuse (empty (TrimSpace (CertificateInput_StorageName certificate))
          || negb (validDigest (CertificateInput_CertificateDigest certificate))
          || negb (validDigest (CertificateInput_PrivateKeyDigest certificate))
          || negb (validDigest (CertificateInput_CACertificateDigest certificate))
          || negb (validDigest (CertificateInput_CAPrivateKeyDigest certificate)))
    ErrorInvalidInput field "certificate storage identity and material digests are required" ;;?
  refuse (bool_decide (certificateKey certificate ∈ certificates))
    ErrorInvalidInput field "certificate storage identity is duplicated" ;;?
  Ok ({[certificateKey certificate]} ∪ certificates).

Definition emptyIntent (management : ManagementInput) : bool :=
  empty (ManagementInput_InterfaceName management) && empty (ManagementInput_IPv4 management)
  && empty (ManagementInput_IPv4Gateway management) && empty (ManagementInput_IPv6 management)
  && empty (ManagementInput_IPv6Gateway management)
  && emptyList (DNSConfig_Servers (ManagementInput_DNS management))
  && emptyList (DNSConfig_Search (ManagementInput_DNS management))
  && emptyList (DNSConfig_Options (ManagementInput_DNS management)).

Definition inboundPortStep (field : string) (entry : nat * Port) : result PlanError unit :=
  let portField := indexed (field +:+ ".inboundPorts") entry.1 in
  refuse (Z.leb (Port_Number entry.2) 0 || Z.ltb 65535 (Port_Number entry.2))
    ErrorInvalidInput portField "port number is invalid" ;;?
  refuse (negb (bool_decide (ToLower (Port_Protocol entry.2) ∈ [""; protocolTCP; protocolUDP])))
    ErrorInvalidInput portField "port protocol is invalid".

Definition managementInputStep (nodes : gset string) (managementNodes : gset string) (entry : nat * ManagementInput) :
    result PlanError (gset string) :=
  let management := entry.2 in
  let field := indexed "management" entry.1 in
  refuse (negb (bool_decide (ManagementInput_NodeID management ∈ nodes)))
    ErrorInvalidInput field "known Node is required" ;;?
  refuse (emptyIntent management) ErrorInvalidInput field "management intent is empty" ;;?
  refuse (bool_decide (ManagementInput_NodeID management ∈ managementNodes))
    ErrorInvalidInput field "Node management input is duplicated" ;;?
  checkEach (inboundPortStep field) (imap pair (ManagementInput_InboundPorts management)) ;;?
  (match ManagementInput_Mesh management with
   | Some mesh => validateManagementMesh (field +:+ ".mesh") mesh
   | None => Ok ()
   end) ;;?
  Ok ({[ManagementInput_NodeID management]} ∪ managementNodes).

Definition interfaceInputStep (nodes : gset string) (interfaces : gset string) (entry : nat * InterfaceInput) :
    result PlanError (gset string) :=
  let intf := entry.2 in
  let field := indexed "interfaces" entry.1 in
  refuse (empty (InterfaceInput_ID intf) || negb (bool_decide (InterfaceInput_NodeID intf ∈ nodes))
          || empty (InterfaceInput_Name intf) || empty (InterfaceInput_LinkID intf)
          || empty (InterfaceInput_Connectivity intf) || Z.ltb (InterfaceInput_WireID intf) 0
          || Z.ltb (InterfaceInput_MTU intf) 0)
    ErrorInvalidInput field "interface input is incomplete" ;;?
  refuse (bool_decide (InterfaceInput_ID intf ∈ interfaces)) ErrorInvalidInput (field +:+ ".id") "interface ID is duplicated" ;;?
  Ok ({[InterfaceInput_ID intf]} ∪ interfaces).

Definition validateInput (input : Input) : result PlanError unit :=
  validateHeader (Input_SchemaVersion input) (Input_Compatibility input) ;;?
  refuse (empty (TrimSpace (Input_TopologyName input))) ErrorMissingInput "topologyName" "topology name is required" ;;?
  refuse (negb (empty (Input_EntropyDigest input)) && negb (validDigest (Input_EntropyDigest input)))
    ErrorInvalidInput "entropyDigest" "must be a sha256 digest" ;;?
  refuse (emptyList (Input_Nodes input)) ErrorMissingInput "nodes" "at least one Node is required" ;;?
  let? state := rfold nodeInputStep (∅, ∅) (imap pair (Input_Nodes input)) in
  let nodes := state.1 in
  checkEach (groupOwnerStep nodes) (imap pair (Input_Nodes input)) ;;?
  let? _ := rfold (imageStep nodes) ∅ (imap pair (Input_Images input)) in
  let? _ := rfold (payloadStep nodes) ∅ (imap pair (Input_Payloads input)) in
  let? _ := rfold (certificateStep nodes) ∅ (imap pair (Input_Certificates input)) in
  let? _ := rfold (managementInputStep nodes) ∅ (imap pair (Input_Management input)) in
  let? _ := rfold (interfaceInputStep nodes) ∅ (imap pair (Input_Interfaces input)) in
  Ok ().

(** ** Normal form *)

Definition compareImageInput : ImageInput → ImageInput → Z :=
  thenBy (onKey ImageInput_NodeID Compare)
    (thenBy (onKey ImageInput_Role Compare)
      (thenBy (onKey ImageInput_SourceReference Compare) (onKey ImageInput_ComponentID Compare))).
Definition compareCertificate : CertificateInput → CertificateInput → Z :=
  thenBy (onKey CertificateInput_NodeID Compare) (onKey CertificateInput_StorageName Compare).
Definition compareInboundPort : Port → Port → Z :=
  thenBy (onKey Port_Protocol Compare) (onKey Port_Number Z.sub).

Context {sort : GoSort}.

Definition normalizeImageConfig (config : ImageConfig) : ImageConfig :=
  config <| ImageConfig_Environment := SortFunc compareKeyValue (ImageConfig_Environment config) |>
         <| ImageConfig_Labels := SortFunc compareKeyValue (ImageConfig_Labels config) |>
         <| ImageConfig_Ports := SortFunc comparePort (ImageConfig_Ports config) |>
         <| ImageConfig_DeclaredDirs := sort_strings (ImageConfig_DeclaredDirs config) |>.

Definition normalizePlatform (platform : Platform) : Platform :=
  platform <| Platform_OSFeatures := sort_strings (Platform_OSFeatures platform) |>.

Definition normalizeImage (image : ImageInput) : ImageInput :=
  image <| ImageInput_Config := normalizeImageConfig (ImageInput_Config image) |>
        <| ImageInput_Platform := normalizePlatform (ImageInput_Platform image) |>.

Definition normalizeManagementInput (management : ManagementInput) : ManagementInput :=
  management <| ManagementInput_InboundPorts := SortFunc compareInboundPort (ManagementInput_InboundPorts management) |>.

Definition sortInput (input : Input) : Input :=
  input <| Input_Nodes := SortFunc (onKey NodeInput_ID Compare) (Input_Nodes input) |>
        <| Input_Images := normalizeImage <$> SortFunc compareImageInput (Input_Images input) |>
        <| Input_Payloads := SortFunc (onKey PayloadInput_ID Compare) (Input_Payloads input) |>
        <| Input_Certificates := SortFunc compareCertificate (Input_Certificates input) |>
        <| Input_Management :=
             normalizeManagementInput <$> SortFunc (onKey ManagementInput_NodeID Compare) (Input_Management input) |>
        <| Input_Interfaces := SortFunc (onKey InterfaceInput_ID Compare) (Input_Interfaces input) |>.

Definition NormalizeInput (input : Input) : result PlanError Input :=
  match cloneInput input with
  | None => Err (planningError ErrorSerialization "input" "cannot clone input")
  | Some normalized => validateInput normalized ;;? Ok (sortInput normalized)
  end.

(** ** Serialization *)

(** [json.Marshal] of an input that can be copied, and [decodeStrict[Input]]. *)
Class InputJSON : Type := {
  marshalInput : Input → string;
  decodeStrictInput : string → option Input;
  input_json : ∀ input copy, cloneInput input = Some copy → decodeStrictInput (marshalInput input) = Some copy
}.
Context {json : InputJSON} {sha : Sha256}.

Definition InputCanonicalJSON (input : Input) : result PlanError string :=
  let? normalized := NormalizeInput input in Ok (marshalInput normalized).

Definition InputDigest (input : Input) : result PlanError string :=
  let? raw := InputCanonicalJSON input in Ok (Digest raw).

Definition DecodeInput (raw : string) : result PlanError Input :=
  match decodeStrictInput raw with
  | None => Err (planningError ErrorSerialization "input" "cannot decode JSON")
  | Some decoded => NormalizeInput decoded
  end.
End input.
