(* ===== verification/InputSpec.v ===== *)
(** * Planning inputs: what a valid input is

    A declarative description of the inputs [validateInput] accepts, and that the loops decide
    exactly this. *)

From S2P Require Import Prelude WireCodec Api GoStrings GoNet GoSort DevicePlanTypes Management.
From S2P Require Import PlanValidation PlanSpec PlanAcceptance PlanCodec InputCodec.
Local Open Scope Z_scope.

Section spec.
Context {text : JSONText}.

Record NodeInputOk (nodes : list NodeInput) (node : NodeInput) : Prop := {
  ni_identified : NodeInput_ID node ≠ "" ∧ NodeInput_Name node ≠ "" ∧ NodeInput_Kind node ≠ "";
  ni_definition : json_Valid (NodeInput_Definition node) = true;
  ni_owner : NodeInput_GroupOwner node = "" ∨ NodeInput_GroupOwner node ∈ NodeInput_ID <$> nodes
}.

Record ImageInputOk (nodes : list NodeInput) (image : ImageInput) : Prop := {
  ii_node : ImageInput_NodeID image ∈ NodeInput_ID <$> nodes;
  ii_references : ImageInput_SourceReference image ≠ "" ∧ ImageInput_DigestReference image ≠ "";
  ii_platform : Platform_OS (ImageInput_Platform image) ≠ "" ∧ Platform_Architecture (ImageInput_Platform image) ≠ "";
  ii_values : KeyValuesOk (ImageConfig_Environment (ImageInput_Config image)) ∧
    KeyValuesOk (ImageConfig_Labels (ImageInput_Config image))
}.

Record PayloadInputOk (nodes : list NodeInput) (payload : PayloadInput) : Prop := {
  pi_identified : PayloadInput_ID payload ≠ "" ∧ PayloadInput_Destination payload ≠ "" ∧ PayloadInput_Reference payload ≠ "";
  pi_node : PayloadInput_NodeID payload ∈ NodeInput_ID <$> nodes;
  pi_kind : PayloadInput_Kind payload ∈ [PayloadConfigMap; PayloadSecret; PayloadURL; PayloadInline];
  pi_inline : PayloadInput_Kind payload = PayloadInline → PayloadInput_Digest payload ≠ ""
}.

Record CertificateInputOk (nodes : list NodeInput) (certificate : CertificateInput) : Prop := {
  ci_node : CertificateInput_NodeID certificate ∈ NodeInput_ID <$> nodes;
  ci_storage : TrimSpace (CertificateInput_StorageName certificate) ≠ "";
  ci_digests : Forall (λ digest, validDigest digest = true)
    [CertificateInput_CertificateDigest certificate; CertificateInput_PrivateKeyDigest certificate;
     CertificateInput_CACertificateDigest certificate; CertificateInput_CAPrivateKeyDigest certificate]
}.

Definition InboundPortOk (port : Port) : Prop :=
  0 < Port_Number port ≤ 65535 ∧ ToLower (Port_Protocol port) ∈ [""; protocolTCP; protocolUDP].

Record ManagementInputOk (nodes : list NodeInput) (management : ManagementInput) : Prop := {
  mi_node : ManagementInput_NodeID management ∈ NodeInput_ID <$> nodes;
  mi_intent : ManagementInput_InterfaceName management ≠ "" ∨ ManagementInput_IPv4 management ≠ "" ∨
    ManagementInput_IPv4Gateway management ≠ "" ∨ ManagementInput_IPv6 management ≠ "" ∨
    ManagementInput_IPv6Gateway management ≠ "" ∨ ManagementInput_DNS management ≠ MkDNSConfig [] [] [];
  mi_ports : Forall InboundPortOk (ManagementInput_InboundPorts management);
  mi_mesh : ∀ mesh, ManagementInput_Mesh management = Some mesh → MeshOk mesh
}.

Record InterfaceInputOk (nodes : list NodeInput) (intf : InterfaceInput) : Prop := {
  fi_identified : InterfaceInput_ID intf ≠ "" ∧ InterfaceInput_Name intf ≠ "" ∧ InterfaceInput_LinkID intf ≠ "" ∧
    InterfaceInput_Connectivity intf ≠ "";
  fi_node : InterfaceInput_NodeID intf ∈ NodeInput_ID <$> nodes;
  fi_numbers : 0 ≤ InterfaceInput_WireID intf ∧ 0 ≤ InterfaceInput_MTU intf
}.

Record InputOk (input : Input) : Prop := {
  in_header : HeaderOk (Input_SchemaVersion input) (Input_Compatibility input);
  in_topology : TrimSpace (Input_TopologyName input) ≠ "";
  in_entropy : Input_EntropyDigest input = "" ∨ validDigest (Input_EntropyDigest input) = true;
  in_nodes : Input_Nodes input ≠ [] ∧ Forall (NodeInputOk (Input_Nodes input)) (Input_Nodes input) ∧
    NoDup (NodeInput_ID <$> Input_Nodes input) ∧ NoDup (NodeInput_Name <$> Input_Nodes input);
  in_images : Forall (ImageInputOk (Input_Nodes input)) (Input_Images input) ∧ NoDup (imageKey <$> Input_Images input);
  in_payloads : Forall (PayloadInputOk (Input_Nodes input)) (Input_Payloads input) ∧
    NoDup (PayloadInput_ID <$> Input_Payloads input);
  in_certificates : Forall (CertificateInputOk (Input_Nodes input)) (Input_Certificates input) ∧
    NoDup (certificateKey <$> Input_Certificates input);
  in_management : Forall (ManagementInputOk (Input_Nodes input)) (Input_Management input) ∧
    NoDup (ManagementInput_NodeID <$> Input_Management input);
  in_interfaces : Forall (InterfaceInputOk (Input_Nodes input)) (Input_Interfaces input) ∧
    NoDup (InterfaceInput_ID <$> Input_Interfaces input)
}.

(** ** The loops *)

(** A loop that collects the keys it has seen. *)
Lemma fresh_loop {A} (step : gset string → nat * A → result PlanError (gset string)) (key : A → string) (P : A → Prop) l :
  (∀ before i x s', step (keySet key before) (i, x) = Ok s' ↔
     (P x ∧ key x ∉ key <$> before) ∧ s' = {[key x]} ∪ keySet key before) →
  (∃ s, rfold step ∅ (imap pair l) = Ok s) ↔ Forall P l ∧ NoDup (key <$> l).
Proof.
  intros Hstep. rewrite <- eachPrefix_forall, <- eachPrefix_fresh, <- eachPrefix_and.
  change (∅ : gset string) with (keySet key []).
  setoid_rewrite (indexed_loop step (keySet key) (λ before x, P x ∧ key x ∉ key <$> before)); [naive_solver|].
  intros before i x s'. rewrite keySet_snoc. apply Hstep.
Qed.

Ltac loop_step :=
  intros before i x s'; cbn [fst snd]; rewrite !seq_Ok, !refuse_Ok, Ok_inj_iff; checks; rewrite ?elem_of_keySet.

Lemma nodeInputs_Ok nodes s :
  rfold nodeInputStep (∅, ∅) (imap pair nodes) = Ok s ↔
  (Forall (λ node, (NodeInput_ID node ≠ "" ∧ NodeInput_Name node ≠ "" ∧ NodeInput_Kind node ≠ "") ∧
     json_Valid (NodeInput_Definition node) = true) nodes ∧
   NoDup (NodeInput_ID <$> nodes) ∧ NoDup (NodeInput_Name <$> nodes)) ∧
  s = (keySet NodeInput_ID nodes, keySet NodeInput_Name nodes).
Proof.
  rewrite <- eachPrefix_forall, <- !eachPrefix_fresh, <- !eachPrefix_and.
  apply (indexed_loop nodeInputStep (λ l, (keySet NodeInput_ID l, keySet NodeInput_Name l))).
  unfold nodeInputStep. loop_step. rewrite !keySet_snoc. tauto.
Qed.

Lemma groupOwners_Ok nodes all u :
  checkEach (groupOwnerStep (keySet NodeInput_ID all)) (imap pair nodes) = Ok u ↔
  Forall (λ node, NodeInput_GroupOwner node = "" ∨ NodeInput_GroupOwner node ∈ NodeInput_ID <$> all) nodes.
Proof.
  apply checkIndexed_Ok. intros i x. unfold groupOwnerStep. cbn [snd]. rewrite refuse_Ok. checks.
  rewrite elem_of_keySet. destruct (decide (NodeInput_GroupOwner x ∈ NodeInput_ID <$> all)); tauto.
Qed.

Lemma images_Ok nodes images :
  (∃ s, rfold (imageStep (keySet NodeInput_ID nodes)) ∅ (imap pair images) = Ok s) ↔
  Forall (ImageInputOk nodes) images ∧ NoDup (imageKey <$> images).
Proof.
  apply fresh_loop. unfold imageStep. loop_step. rewrite !unique_keys_Ok.
  split; [intros; split; [split; [constructor|]|]; tauto|]. intros [[[] ?] ?]. tauto.
Qed.

Lemma payloads_Ok nodes payloads :
  (∃ s, rfold (payloadStep (keySet NodeInput_ID nodes)) ∅ (imap pair payloads) = Ok s) ↔
  Forall (PayloadInputOk nodes) payloads ∧ NoDup (PayloadInput_ID <$> payloads).
Proof.
  apply fresh_loop. unfold payloadStep, validPayloadKind. loop_step.
  split; [intros; split; [split; [constructor|]|]; tauto|]. intros [[[] ?] ?].
  destruct (decide (PayloadInput_Kind x = PayloadInline)); tauto.
Qed.

Lemma certificates_Ok nodes certificates :
  (∃ s, rfold (certificateStep (keySet NodeInput_ID nodes)) ∅ (imap pair certificates) = Ok s) ↔
  Forall (CertificateInputOk nodes) certificates ∧ NoDup (certificateKey <$> certificates).
Proof.
  apply fresh_loop. unfold certificateStep. loop_step. split.
  - intros (? & ((((? & ?) & ?) & ?) & ?) & ? & ?). split; [split; [constructor|]|]; try done. by repeat constructor.
  - intros [[[? ? Hd] ?] ?]. rewrite !Forall_cons in Hd. tauto.
Qed.

Lemma inboundPorts_Ok field ports :
  checkEach (inboundPortStep field) (imap pair ports) = Ok () ↔ Forall InboundPortOk ports.
Proof.
  apply checkIndexed_Ok. intros i x. unfold inboundPortStep, InboundPortOk. cbn [snd].
  rewrite seq_Ok, !refuse_Ok. checks. tauto.
Qed.

Lemma emptyIntent_false management :
  emptyIntent management = false ↔
  ManagementInput_InterfaceName management ≠ "" ∨ ManagementInput_IPv4 management ≠ "" ∨
  ManagementInput_IPv4Gateway management ≠ "" ∨ ManagementInput_IPv6 management ≠ "" ∨
  ManagementInput_IPv6Gateway management ≠ "" ∨ ManagementInput_DNS management ≠ MkDNSConfig [] [] [].
Proof.
  unfold emptyIntent. checks.
  assert (ManagementInput_DNS management ≠ MkDNSConfig [] [] [] ↔
    DNSConfig_Servers (ManagementInput_DNS management) ≠ [] ∨ DNSConfig_Search (ManagementInput_DNS management) ≠ [] ∨
    DNSConfig_Options (ManagementInput_DNS management) ≠ []) as ->; [|tauto].
  destruct (ManagementInput_DNS management) as [[|? ?] [|? ?] [|? ?]]; cbn; naive_solver.
Qed.

Lemma managementInputs_Ok nodes management :
  (∃ s, rfold (managementInputStep (keySet NodeInput_ID nodes)) ∅ (imap pair management) = Ok s) ↔
  Forall (ManagementInputOk nodes) management ∧ NoDup (ManagementInput_NodeID <$> management).
Proof.
  apply fresh_loop. unfold managementInputStep. loop_step. rewrite inboundPorts_Ok, emptyIntent_false.
  assert (match ManagementInput_Mesh x with
    | Some mesh => validateManagementMesh (indexed "management" i +:+ ".mesh") mesh | None => Ok () end = Ok () ↔
    ∀ mesh, ManagementInput_Mesh x = Some mesh → MeshOk mesh) as ->.
  { destruct (ManagementInput_Mesh x) as [mesh|]; [rewrite mesh_Ok|]; naive_solver. }
  split; [intros; split; [split; [constructor|]|]; tauto|]. intros [[[] ?] ?]. tauto.
Qed.

Lemma interfaceInputs_Ok nodes interfaces :
  (∃ s, rfold (interfaceInputStep (keySet NodeInput_ID nodes)) ∅ (imap pair interfaces) = Ok s) ↔
  Forall (InterfaceInputOk nodes) interfaces ∧ NoDup (InterfaceInput_ID <$> interfaces).
Proof.
  apply fresh_loop. unfold interfaceInputStep. loop_step.
  split; [intros; split; [split; [constructor|]|]; tauto|]. intros [[[] ?] ?]. tauto.
Qed.

Lemma nodeInputOk_iff nodes :
  Forall (NodeInputOk nodes) nodes ↔
  Forall (λ node, (NodeInput_ID node ≠ "" ∧ NodeInput_Name node ≠ "" ∧ NodeInput_Kind node ≠ "") ∧
     json_Valid (NodeInput_Definition node) = true) nodes ∧
  Forall (λ node, NodeInput_GroupOwner node = "" ∨ NodeInput_GroupOwner node ∈ NodeInput_ID <$> nodes) nodes.
Proof.
  rewrite <- Forall_and. apply list.Forall_iff. intros node.
  split; [intros []; tauto|]. intros [[] ?]. by constructor.
Qed.

Lemma validateInput_spec input : validateInput input = Ok () ↔ InputOk input.
Proof.
  unfold validateInput. rewrite !seq_Ok, !refuse_Ok, header_Ok, let_Ok. checks.
  setoid_rewrite nodeInputs_Ok.
  split.
  - intros (Hh & Ht & He & Hn & s & [Hns ->] & Hrest). cbn [fst] in Hrest. rewrite seq_Ok, groupOwners_Ok in Hrest.
    destruct Hrest as (Ho & (? & Hi & (? & Hp & (? & Hc & (? & Hm & Hf)%let_Ok)%let_Ok)%let_Ok)%let_Ok).
    apply forget_Ok in Hf.
    constructor; [done..| |by apply images_Ok; eauto|by apply payloads_Ok; eauto|by apply certificates_Ok; eauto
      |by apply managementInputs_Ok; eauto|by apply interfaceInputs_Ok].
    rewrite nodeInputOk_iff. tauto.
  - intros [Hh Ht He (Hn & Hok & Hnd) Hi Hp Hc Hm Hf]. rewrite nodeInputOk_iff in Hok.
    split_and!; [done..|]. eexists. split; [split; [tauto|done]|]. cbn [fst]. rewrite seq_Ok, groupOwners_Ok.
    split; [tauto|].
    apply images_Ok in Hi as [? ->]. apply payloads_Ok in Hp as [? ->]. apply certificates_Ok in Hc as [? ->].
    apply managementInputs_Ok in Hm as [? ->]. apply interfaceInputs_Ok in Hf as [? ->]. done.
Qed.
End spec.
