(* ===== verification/InputTheorems.v ===== *)
(** * Planning inputs: one digest per input

    Inputs that differ only in the order of unordered fields are related by [same_input]; they
    are accepted together and have the same normal form.  Unlike plans, inputs have no entries
    the comparison functions cannot tell apart, so this needs no further assumption. *)

From S2P Require Import Prelude WireCodec Api GoStrings GoNet DevicePlanTypes Management ManagementTheorems.
From S2P Require Import PeerDirectory Hosts NameResolution GoSort PlanValidation PlanSpec PlanAcceptance.
From S2P Require Import PlanCodec PlanCanonical PlanTheorems PlanExamples InputCodec InputSpec.
Local Open Scope Z_scope.

(** ** Equal up to order *)

Inductive same_config : ImageConfig → ImageConfig → Prop :=
| same_config_intro entrypoint command env env' user dir ports ports' signal health labels labels' dirs dirs' :
    env ≡ₚ env' → ports ≡ₚ ports' → labels ≡ₚ labels' → dirs ≡ₚ dirs' →
    same_config (MkImageConfig entrypoint command env user dir ports signal health labels dirs)
      (MkImageConfig entrypoint command env' user dir ports' signal health labels' dirs').

Inductive same_platform : Platform → Platform → Prop :=
| same_platform_intro os arch variant version features features' :
    features ≡ₚ features' →
    same_platform (MkPlatform os arch variant version features) (MkPlatform os arch variant version features').

Inductive same_image : ImageInput → ImageInput → Prop :=
| same_image_intro node role component source digest platform platform' config config' :
    same_platform platform platform' → same_config config config' →
    same_image (MkImageInput node role component source digest platform config)
      (MkImageInput node role component source digest platform' config').

Inductive same_management_input : ManagementInput → ManagementInput → Prop :=
| same_management_input_intro node name v4 gw4 v6 gw6 dns ports ports' mesh :
    ports ≡ₚ ports' →
    same_management_input (MkManagementInput node name v4 gw4 v6 gw6 dns ports mesh)
      (MkManagementInput node name v4 gw4 v6 gw6 dns ports' mesh).

Record same_input (a b : Input) : Prop := {
  si_schema : Input_SchemaVersion a = Input_SchemaVersion b;
  si_topology : Input_TopologyName a = Input_TopologyName b;
  si_compatibility : Input_Compatibility a = Input_Compatibility b;
  si_entropy : Input_EntropyDigest a = Input_EntropyDigest b;
  si_nodes : Input_Nodes a ≡ₚ Input_Nodes b;
  si_images : perm_by same_image (Input_Images a) (Input_Images b);
  si_payloads : Input_Payloads a ≡ₚ Input_Payloads b;
  si_certificates : Input_Certificates a ≡ₚ Input_Certificates b;
  si_management : perm_by same_management_input (Input_Management a) (Input_Management b);
  si_interfaces : Input_Interfaces a ≡ₚ Input_Interfaces b
}.

Section input.
Context {text : JSONText} {sort : GoSort}.

(** ** Comparison *)

Lemma input_orders :
  weak_order compareImageInput ∧ weak_order compareCertificate ∧ weak_order compareInboundPort.
Proof.
  unfold compareImageInput, compareCertificate, compareInboundPort. split_and!; auto 10 with weak_orders.
Qed.

Lemma no_ties_inbound l : no_ties compareInboundPort l.
Proof.
  intros [n p] [n' p'] _ _ [H1 H2]%thenBy_zero. apply Compare_zero in H1. unfold onKey in H2. cbn in *.
  subst. f_equal. lia.
Qed.

Lemma no_ties_images images : NoDup (imageKey <$> images) → no_ties compareImageInput images.
Proof.
  intros Hnd a b Ha Hb [H1 [H2 [H3 _]%thenBy_zero]%thenBy_zero]%thenBy_zero.
  apply Compare_zero in H1, H2, H3. eapply NoDup_key_inj; [exact Hnd|done..|].
  unfold imageKey, imageIdentity. by rewrite H1, H2, H3.
Qed.

Lemma no_ties_certificates certificates :
  NoDup (certificateKey <$> certificates) → no_ties compareCertificate certificates.
Proof.
  intros Hnd a b Ha Hb [H1 H2]%thenBy_zero. apply Compare_zero in H1, H2.
  eapply NoDup_key_inj; [exact Hnd|done..|]. unfold certificateKey. by rewrite H1, H2.
Qed.

(** ** Acceptance does not depend on the order *)

Lemma perm_keys {A} (key : A → string) l l' k : l ≡ₚ l' → k ∈ key <$> l → k ∈ key <$> l'.
Proof. by intros ->. Qed.
Hint Resolve perm_keys : core.

Lemma keyValues_perm l l' : l ≡ₚ l' → KeyValuesOk l → KeyValuesOk l'.
Proof. intros Hp [H1 H2]. split; by rewrite <- Hp. Qed.

Lemma same_image_ok nodes nodes' a b : nodes ≡ₚ nodes' → same_image a b → ImageInputOk nodes a → ImageInputOk nodes' b.
Proof.
  intros Hp [? ? ? ? ? ? ? ? ? [] []] [O1 O2 O3 [O4 O5]]. cbn in *.
  constructor; cbn; [by eauto|done..|]. split; by eapply keyValues_perm.
Qed.

Lemma same_management_input_ok nodes nodes' a b :
  nodes ≡ₚ nodes' → same_management_input a b → ManagementInputOk nodes a → ManagementInputOk nodes' b.
Proof.
  intros Hp [? ? ? ? ? ? ? ports ports' ? Hports] [H1 H2 H3 H4]. cbn in *.
  constructor; cbn; [by eauto|done| |done]. by rewrite <- Hports.
Qed.

Lemma same_input_ok a b : same_input a b → InputOk a → InputOk b.
Proof.
  intros [S1 S2 S3 S4 SN SI SP SC SM SF] [O1 O2 O3 (N1 & N2 & N3 & N4) [I1 I2] [P1 P2] [C1 C2] [M1 M2] [F1 F2]].
  assert (∀ {A} (P : list NodeInput → A → Prop) l l', (∀ x, P (Input_Nodes a) x → P (Input_Nodes b) x) → l ≡ₚ l' →
    Forall (P (Input_Nodes a)) l → Forall (P (Input_Nodes b)) l') as Hall.
  { intros A P l l' HP <- H. by eapply Forall_impl. }
  constructor; try congruence.
  - split_and!; [|eapply Hall; [|exact SN|exact N2]|by rewrite <- SN..].
    + intros Hn. rewrite Hn in SN. symmetry in SN. apply Permutation_nil in SN. done.
    + intros x [H1 H2 [H3|H3]]; constructor; eauto.
  - split; [eapply perm_by_Forall; [exact SI| |exact I1]; intros x y; by apply same_image_ok|].
    erewrite <- perm_by_fmap; [exact I2|exact SI|]. by intros x y _ [].
  - split; [eapply Hall; [|exact SP|exact P1]|by rewrite <- SP]. intros x []; constructor; eauto.
  - split; [eapply Hall; [|exact SC|exact C1]|by rewrite <- SC]. intros x []; constructor; eauto.
  - split; [eapply perm_by_Forall; [exact SM| |exact M1]; intros x y; by apply same_management_input_ok|].
    erewrite <- perm_by_fmap; [exact M2|exact SM|]. by intros x y _ [].
  - split; [eapply Hall; [|exact SF|exact F1]|by rewrite <- SF]. intros x []; constructor; eauto.
Qed.

(** ** Normal forms *)

Lemma normalizeImage_same nodes a b : same_image a b → ImageInputOk nodes a → normalizeImage a = normalizeImage b.
Proof.
  intros [? ? ? ? ? ? ? ? ? [? ? ? ? ? ? Hf] [? ? ? ? ? ? ? ? ? ? ? ? ? ? He Hp Hl Hd]] [_ _ _ [V1 V2]]. cbn in V1, V2.
  unfold normalizeImage, normalizeImageConfig, normalizePlatform. cbn -[sort_strings].
  rewrite (keyValues_sorted _ _ V1 He), (keyValues_sorted _ _ V2 Hl), (sort_strings_perm_eq _ _ Hf), (sort_strings_perm_eq _ _ Hd).
  rewrite (SortFunc_perm_eq comparePort _ _ (proj1 (proj2 compare_orders)) (no_ties_port _) Hp). done.
Qed.

Lemma normalizeManagementInput_same a b :
  same_management_input a b → normalizeManagementInput a = normalizeManagementInput b.
Proof.
  intros [? ? ? ? ? ? ? ? ? ? Hp]. unfold normalizeManagementInput. cbn.
  by rewrite (SortFunc_perm_eq compareInboundPort _ _ (proj2 (proj2 input_orders)) (no_ties_inbound _) Hp).
Qed.

Lemma sortInput_same a b : same_input a b → InputOk a → sortInput a = sortInput b.
Proof.
  intros [S1 S2 S3 S4 SN SI SP SC SM SF] [_ _ _ (_ & _ & N3 & _) [I1 I2] [_ P2] [_ C2] [_ M2] [_ F2]].
  rewrite list.Forall_forall in I1. destruct input_orders as (WI & WC & _).
  pose proof (sorted_same_by same_image compareImageInput normalizeImage _ _ WI SI) as EI.
  pose proof (sorted_same same_management_input ManagementInput_NodeID normalizeManagementInput _ _ SM) as EM.
  unfold sortInput. rewrite EI, EM; try done.
  - rewrite (sorted_parts NodeInput_ID _ _ N3 SN), (sorted_parts PayloadInput_ID _ _ P2 SP).
    rewrite (sorted_parts InterfaceInput_ID _ _ F2 SF), (SortFunc_perm_eq _ _ _ WC (no_ties_certificates _ C2) SC).
    destruct a, b. cbn in S1, S2, S3, S4. by subst.
  - intros x y _. apply normalizeManagementInput_same.
  - intros x y Hx Hxy. by eapply normalizeImage_same, I1.
  - by apply no_ties_images.
Qed.

Lemma same_image_normal a : same_image a (normalizeImage a).
Proof.
  destruct a as [? ? ? ? ? [] []]. do 2 constructor; symmetry; first [apply sort_strings_perm|apply SortFunc_perm].
Qed.

Lemma same_management_input_normal a : same_management_input a (normalizeManagementInput a).
Proof. destruct a. constructor. symmetry. apply SortFunc_perm. Qed.

Lemma same_input_sorted input : same_input input (sortInput input).
Proof.
  destruct input. constructor; try done; cbn; try (symmetry; apply SortFunc_perm).
  - apply perm_by_sorted; [apply same_image_normal|apply SortFunc_perm].
  - apply perm_by_sorted; [apply same_management_input_normal|apply SortFunc_perm].
Qed.

(** ** Copies *)

Lemma Forall2_diag {A} (R : A → A → Prop) l : Forall2 R l l → Forall (λ x, R x x) l.
Proof. induction l; inversion 1; constructor; auto. Qed.

Lemma cloneRaw_idem raw copy : cloneRaw raw = Some copy → cloneRaw copy = Some copy.
Proof.
  unfold cloneRaw. destruct (empty raw) eqn:E; [by intros [= <-]; rewrite <- CompactJSON_null|].
  intros H. destruct (empty copy) eqn:E2; [|by eapply CompactJSON_idem].
  apply empty_true in E2 as ->. apply CompactJSON_idem in H. by rewrite CompactJSON_nonempty in H.
Qed.

Lemma cloneRaw_None raw : cloneRaw raw = None ↔ raw ≠ "" ∧ json_Valid raw = false.
Proof.
  unfold cloneRaw, json_Valid. destruct (empty raw) eqn:E; [apply empty_true in E|apply empty_false in E];
    [naive_solver|]. destruct (CompactJSON raw); naive_solver.
Qed.

Lemma cloneRaw_valid raw copy : cloneRaw raw = Some copy → json_Valid copy = true.
Proof.
  intros H%cloneRaw_idem. unfold cloneRaw in H. unfold json_Valid. destruct (empty copy) eqn:E; [|by rewrite H].
  apply empty_true in E as ->. done.
Qed.

Lemma cloneNodeInput_idem a b : cloneNodeInput a = Some b → cloneNodeInput b = Some b.
Proof.
  unfold cloneNodeInput. intros (d & Hd & [= <-])%bind_Some. cbn [NodeInput_Definition].
  rewrite (cloneRaw_idem _ _ Hd). cbn -[cloneJSON].
  by rewrite !clone_idem.
Qed.

Lemma cloneNodes_idem l k : mapM cloneNodeInput l = Some k → mapM cloneNodeInput k = Some k.
Proof.
  rewrite !mapM_Some. intros H. apply Forall_Forall2_diag. induction H; constructor; [by eapply cloneNodeInput_idem|done].
Qed.

Lemma cloneInput_idem input copy : cloneInput input = Some copy → cloneInput copy = Some copy.
Proof.
  unfold cloneInput. intros (nodes & Hn & [= <-])%bind_Some. cbn -[cloneJSON]. rewrite (cloneNodes_idem _ _ Hn). cbn -[cloneJSON].
  by rewrite !clone_idem.
Qed.

Lemma cloneNodes_perm l l' k :
  l ≡ₚ l' → mapM cloneNodeInput l = Some k → ∃ k', mapM cloneNodeInput l' = Some k' ∧ k ≡ₚ k'.
Proof.
  intros Hp Hk%mapM_Some. destruct (Permutation_Forall2 Hp Hk) as (k' & Hkk & Hk'). exists k'. by rewrite mapM_Some.
Qed.

Lemma same_image_clone a b : same_image a b → same_image (cloneJSON a) (cloneJSON b).
Proof. intros [? ? ? ? ? ? ? ? ? [] []]. do 2 constructor; by apply clone_perm. Qed.

Lemma same_management_input_clone a b : same_management_input a b → same_management_input (cloneJSON a) (cloneJSON b).
Proof. intros []. constructor. by apply clone_perm. Qed.

Lemma same_input_clone a b copy :
  same_input a b → cloneInput a = Some copy → ∃ copy', cloneInput b = Some copy' ∧ same_input copy copy'.
Proof.
  unfold cloneInput. intros [S1 S2 S3 S4 SN SI SP SC SM SF] (nodes & Hn & [= <-])%bind_Some.
  destruct (cloneNodes_perm _ _ _ SN Hn) as (nodes' & -> & Hp). eexists. split; [reflexivity|].
  constructor; cbn -[cloneJSON]; [congruence..|done| | | | |]; try (by apply clone_perm).
  - eapply perm_by_map; [exact SI|apply same_image_clone].
  - eapply perm_by_map; [exact SM|apply same_management_input_clone].
Qed.

Lemma copied_config a : copied a → copied (normalizeImageConfig a).
Proof. destruct a. intros H. copied_fields H. Qed.

Lemma copied_platform a : copied a → copied (normalizePlatform a).
Proof. destruct a. intros H. copied_fields H. Qed.

Lemma copied_image a : copied a → copied (normalizeImage a).
Proof. destruct a. intros H. copied_fields H; [by apply copied_platform|by apply copied_config]. Qed.

Lemma copied_management_input a : copied a → copied (normalizeManagementInput a).
Proof. destruct a. intros H. copied_fields H. Qed.

Lemma cloneInput_fixed input :
  cloneInput input = Some input ↔
  mapM cloneNodeInput (Input_Nodes input) = Some (Input_Nodes input) ∧
  copied (Input_SchemaVersion input) ∧ copied (Input_TopologyName input) ∧ copied (Input_Compatibility input) ∧
  copied (Input_EntropyDigest input) ∧ copied (Input_Images input) ∧ copied (Input_Payloads input) ∧
  copied (Input_Certificates input) ∧ copied (Input_Management input) ∧ copied (Input_Interfaces input).
Proof.
  destruct input. unfold cloneInput, copied. cbn -[cloneJSON]. split.
  - intros (nodes & Hn & H)%bind_Some. injection H. intros. subst. by split_and!.
  - intros (-> & H). cbn -[cloneJSON]. destruct H as (-> & -> & -> & -> & -> & -> & -> & -> & ->). done.
Qed.

Lemma cloneInput_sorted copy : cloneInput copy = Some copy → cloneInput (sortInput copy) = Some (sortInput copy).
Proof.
  rewrite !cloneInput_fixed. destruct copy. cbn -[cloneJSON]. intros (Hn & ? & ? & ? & ? & HI & HP & HC & HM & HF).
  split_and!; try done; try (eapply copied_perm; [apply SortFunc_perm|done]).
  - apply mapM_Some. apply mapM_Some in Hn. apply Forall_Forall2_diag. rewrite SortFunc_perm.
    exact (Forall2_diag _ _ Hn).
  - eapply copied_map; [apply copied_image|apply SortFunc_perm|done].
  - eapply copied_map; [apply copied_management_input|apply SortFunc_perm|done].
Qed.

Lemma NormalizeInput_Ok input normal :
  NormalizeInput input = Ok normal ↔ ∃ copy, cloneInput input = Some copy ∧ InputOk copy ∧ normal = sortInput copy.
Proof.
  unfold NormalizeInput. destruct (cloneInput input) as [copy|]; [|naive_solver].
  rewrite seq_Ok, validateInput_spec, Ok_inj_iff. naive_solver.
Qed.

Lemma NormalizeInput_idem input normal : NormalizeInput input = Ok normal → NormalizeInput normal = Ok normal.
Proof.
  intros (copy & Hc & Hok & ->)%NormalizeInput_Ok. apply NormalizeInput_Ok. exists (sortInput copy).
  pose proof (same_input_sorted copy) as Hs. split_and!.
  - by eapply cloneInput_sorted, cloneInput_idem.
  - by eapply same_input_ok.
  - by apply sortInput_same.
Qed.

Lemma cloneInput_None input :
  cloneInput input = None ↔
  ∃ node, node ∈ Input_Nodes input ∧ NodeInput_Definition node ≠ "" ∧ json_Valid (NodeInput_Definition node) = false.
Proof.
  unfold cloneInput.
  assert (∀ node, cloneNodeInput node = None ↔ NodeInput_Definition node ≠ "" ∧ json_Valid (NodeInput_Definition node) = false)
    as Hn.
  { intros node. rewrite <- cloneRaw_None. unfold cloneNodeInput. destruct (cloneRaw _); naive_solver. }
  setoid_rewrite <- Hn. destruct (mapM cloneNodeInput (Input_Nodes input)) as [nodes|] eqn:E; cbn -[cloneJSON].
  - split; [done|]. intros (node & Hin & Hnone). apply mapM_Some in E. apply list_elem_of_lookup in Hin as [i Hi].
    destruct (Forall2_lookup_l _ _ _ _ _ E Hi) as (y & _ & Hy). congruence.
  - split; [intros _|done]. apply mapM_None in E. by apply Exists_exists in E.
Qed.

(** ** Errors of validation *)

(** Validation never reports a failed serialization. *)
Definition neverSerialization {A} (m : result PlanError A) : Prop := ∀ e, m = Err e → Error_Code e ≠ ErrorSerialization.

Lemma ns_ok {A} (x : A) : neverSerialization (Ok x).
Proof. by intros e. Qed.
Lemma ns_refuse b code field message : code ≠ ErrorSerialization → neverSerialization (refuse b code field message).
Proof. intros Hc e. unfold refuse. destruct b; [|done]. by intros [= <-]. Qed.
Lemma ns_bind {A B} (m : result PlanError A) (k : A → result PlanError B) :
  neverSerialization m → (∀ x, neverSerialization (k x)) → neverSerialization (rbind m k).
Proof. intros Hm Hk e. destruct m; [apply Hk|]. intros [= ->]. by apply Hm. Qed.
Lemma ns_fold {A S} (step : S → A → result PlanError S) l s :
  (∀ s x, neverSerialization (step s x)) → neverSerialization (rfold step s l).
Proof.
  intros Hs. revert s. induction l as [|x l IH]; intros s e; [done|]. cbn. destruct (step s x) eqn:E; [apply IH|].
  intros [= ->]. by eapply Hs.
Qed.

Lemma validateInput_codes input : neverSerialization (validateInput input).
Proof.
  unfold validateInput, validateHeader, nodeInputStep, groupOwnerStep, imageStep, payloadStep, certificateStep,
    managementInputStep, interfaceInputStep, inboundPortStep, checkEach, validateUniqueKeyValues, uniqueKeyStep,
    validateManagementMesh.
  repeat first [apply ns_ok | apply ns_refuse; done | apply ns_bind; [|intros ?] | apply ns_fold; intros ? ?
    | match goal with |- neverSerialization (match ?o with _ => _ end) => destruct o end].
Qed.

(** ** The theorems *)

(** The order of a normal form. *)
Definition orderedInput (input : Input) : Prop :=
  StronglySorted (key_le NodeInput_ID) (Input_Nodes input) ∧
  StronglySorted (λ a b, compareImageInput a b ≤ 0) (Input_Images input) ∧
  StronglySorted (key_le PayloadInput_ID) (Input_Payloads input) ∧
  StronglySorted (λ a b, compareCertificate a b ≤ 0) (Input_Certificates input) ∧
  StronglySorted (key_le ManagementInput_NodeID) (Input_Management input) ∧
  StronglySorted (key_le InterfaceInput_ID) (Input_Interfaces input).

Lemma sortInput_ordered input : orderedInput (sortInput input).
Proof.
  assert (∀ {A} (key : A → string) l, StronglySorted (key_le key) (SortFunc (onKey key Compare) l)) as Hk.
  { intros A key l. rewrite <- (list_fmap_id (SortFunc _ l)). by apply (sorted_keys_map key id). }
  destruct input_orders as (WI & WC & _). unfold orderedInput. cbn. split_and!; try apply Hk.
  - pose proof (SortFunc_sorted compareImageInput (Input_Images input) WI) as H.
    induction H as [|x l H IH Hx]; [constructor|]. rewrite fmap_cons. constructor; [done|]. by apply Forall_fmap.
  - by apply SortFunc_sorted.
  - by apply sorted_keys_map.
Qed.

(** Validation of planning inputs is exact.  An input is normalized exactly when it can be
    copied (every definition is JSON) and the copy is valid: all parts identified and complete,
    identities unique, every reference leading to a Node of the input.  The result is valid
    again, has the same content up to the order of fields without order, and is ordered.  An
    input with a definition that is not JSON is refused as a whole: the error names the input,
    not the Node. *)
Theorem input_validation_exact input :
  ((∃ normal, NormalizeInput input = Ok normal) ↔ ∃ copy, cloneInput input = Some copy ∧ InputOk copy) ∧
  (∀ copy normal, cloneInput input = Some copy → NormalizeInput input = Ok normal →
     InputOk normal ∧ same_input copy normal ∧ orderedInput normal) ∧
  (NormalizeInput input = Err (planningError ErrorSerialization "input" "cannot clone input") ↔
   ∃ node, node ∈ Input_Nodes input ∧ NodeInput_Definition node ≠ "" ∧ json_Valid (NodeInput_Definition node) = false).
Proof.
  split_and!.
  - setoid_rewrite NormalizeInput_Ok. naive_solver.
  - intros copy normal Hc (copy' & Hc' & Hok & ->)%NormalizeInput_Ok. assert (copy' = copy) as -> by congruence.
    pose proof (same_input_sorted copy) as Hs. split_and!; [by eapply same_input_ok|done|apply sortInput_ordered].
  - rewrite <- cloneInput_None. unfold NormalizeInput. destruct (cloneInput input) as [copy|]; [|done].
    split; [|done]. destruct (validateInput copy) as [[]|e] eqn:E; cbn; [done|]. intros [= ->]. exfalso.
    by apply (validateInput_codes copy _ E).
Qed.

Context {json : InputJSON} {sha : Sha256}.

(** One digest per input, which survives storage.  When an input has a canonical
    serialization, every input that differs from it only in the order of fields without order
    has the same one; decoding it gives the normal form, which serializes to the same bytes. *)
Theorem input_codec input raw :
  InputCanonicalJSON input = Ok raw →
  (∀ other, same_input input other → InputCanonicalJSON other = Ok raw ∧ InputDigest other = Ok (Digest raw)) ∧
  ∃ normal, NormalizeInput input = Ok normal ∧ DecodeInput raw = Ok normal ∧ InputCanonicalJSON normal = Ok raw.
Proof.
  intros Hraw. assert (∀ other, same_input input other → InputCanonicalJSON other = Ok raw) as Hsame.
  { intros other Hs. revert Hraw. unfold InputCanonicalJSON. rewrite !let_Ok.
    intros (normal & (copy & Hc & Hok & ->)%NormalizeInput_Ok & <-).
    destruct (same_input_clone _ _ _ Hs Hc) as (copy' & Hc' & Hs'). exists (sortInput copy). split; [|done].
    apply NormalizeInput_Ok. exists copy'. split_and!; [done|by eapply same_input_ok|by apply sortInput_same]. }
  split.
  - intros other Hs. unfold InputDigest. by rewrite (Hsame _ Hs).
  - unfold InputCanonicalJSON in Hraw. apply let_Ok in Hraw as (normal & Hn & [= <-]). exists normal.
    pose proof (NormalizeInput_idem _ _ Hn) as Hi. split; [done|]. unfold DecodeInput, InputCanonicalJSON.
    rewrite (input_json normal normal), Hi; [done|].
    apply NormalizeInput_Ok in Hn as (copy & Hc & _ & ->). by eapply cloneInput_sorted, cloneInput_idem.
Qed.
End input.

(** ** Planning inputs: concrete inputs

    The theorems above at concrete inputs. *)

(** A fragment of JSON: [null], the empty object and a number with spaces around them, and the
    names that documents are given here. *)
Definition sampleJSON (text : string) : bool :=
  bool_decide (text ∈ ["null"; "{}"; "1"])
  || (HasPrefix text "n" || HasPrefix text "d") && allChars (λ a, negb (isSpace a)) text.
#[local] Program Instance sample_text : JSONText := {|
  CompactJSON text := if sampleJSON (TrimSpace text) then Some (TrimSpace text) else None
|}.
Next Obligation.
  intros text compact. cbn. destruct (sampleJSON (TrimSpace text)) eqn:E; [|done]. intros [= <-].
  assert (TrimSpace (TrimSpace text) = TrimSpace text) as Ht; [|by rewrite !Ht, E].
  unfold sampleJSON in E. apply orb_true_iff in E as [E|[_ E]%andb_true_iff]; [|by apply TrimSpace_id].
  apply bool_decide_eq_true in E. rewrite !elem_of_cons, elem_of_nil in E. by destruct E as [->|[->|[->|[]]]].
Qed.
Next Obligation. done. Qed.
Next Obligation. done. Qed.

#[export] Instance NodeInput_countable : Countable NodeInput :=
  inj_countable'
    (λ r, (NodeInput_ID r, NodeInput_Name r, NodeInput_Kind r, NodeInput_Type r, NodeInput_GroupOwner r,
     NodeInput_Definition r))
    (λ '(x0, x1, x2, x3, x4, x5), MkNodeInput x0 x1 x2 x3 x4 x5)
    ltac:(by intros []).
#[export] Instance Platform_countable : Countable Platform :=
  inj_countable'
    (λ r, (Platform_OS r, Platform_Architecture r, Platform_Variant r, Platform_OSVersion r, Platform_OSFeatures r))
    (λ '(x0, x1, x2, x3, x4), MkPlatform x0 x1 x2 x3 x4)
    ltac:(by intros []).
#[export] Instance ImageConfig_countable : Countable ImageConfig :=
  inj_countable'
    (λ r, (ImageConfig_Entrypoint r, ImageConfig_Command r, ImageConfig_Environment r, ImageConfig_User r,
     ImageConfig_WorkingDir r, ImageConfig_Ports r, ImageConfig_StopSignal r, ImageConfig_Healthcheck r,
     ImageConfig_Labels r, ImageConfig_DeclaredDirs r))
    (λ '(x0, x1, x2, x3, x4, x5, x6, x7, x8, x9), MkImageConfig x0 x1 x2 x3 x4 x5 x6 x7 x8 x9)
    ltac:(by intros []).
#[export] Instance ImageInput_countable : Countable ImageInput :=
  inj_countable'
    (λ r, (ImageInput_NodeID r, ImageInput_Role r, ImageInput_ComponentID r, ImageInput_SourceReference r,
     ImageInput_DigestReference r, ImageInput_Platform r, ImageInput_Config r))
    (λ '(x0, x1, x2, x3, x4, x5, x6), MkImageInput x0 x1 x2 x3 x4 x5 x6)
    ltac:(by intros []).
#[export] Instance PayloadInput_countable : Countable PayloadInput :=
  inj_countable'
    (λ r, (PayloadInput_ID r, PayloadInput_NodeID r, PayloadInput_Kind r, PayloadInput_Reference r,
     PayloadInput_Digest r, PayloadInput_Destination r, PayloadInput_Mode r, PayloadInput_Sensitive r))
    (λ '(x0, x1, x2, x3, x4, x5, x6, x7), MkPayloadInput x0 x1 x2 x3 x4 x5 x6 x7)
    ltac:(by intros []).
#[export] Instance CertificateInput_countable : Countable CertificateInput :=
  inj_countable'
    (λ r, (CertificateInput_NodeID r, CertificateInput_StorageName r, CertificateInput_CertificateDigest r,
     CertificateInput_PrivateKeyDigest r, CertificateInput_CACertificateDigest r,
     CertificateInput_CAPrivateKeyDigest r))
    (λ '(x0, x1, x2, x3, x4, x5), MkCertificateInput x0 x1 x2 x3 x4 x5)
    ltac:(by intros []).
#[export] Instance ManagementInput_countable : Countable ManagementInput :=
  inj_countable'
    (λ r, (ManagementInput_NodeID r, ManagementInput_InterfaceName r, ManagementInput_IPv4 r,
     ManagementInput_IPv4Gateway r, ManagementInput_IPv6 r, ManagementInput_IPv6Gateway r,
     ManagementInput_DNS r, ManagementInput_InboundPorts r, ManagementInput_Mesh r))
    (λ '(x0, x1, x2, x3, x4, x5, x6, x7, x8), MkManagementInput x0 x1 x2 x3 x4 x5 x6 x7 x8)
    ltac:(by intros []).
#[export] Instance InterfaceInput_countable : Countable InterfaceInput :=
  inj_countable'
    (λ r, (InterfaceInput_ID r, InterfaceInput_NodeID r, InterfaceInput_Name r, InterfaceInput_LinkID r,
     InterfaceInput_LinkName r, InterfaceInput_PeerNodeID r, InterfaceInput_PeerInterface r,
     InterfaceInput_PeerTransport r, InterfaceInput_Connectivity r, InterfaceInput_WireID r,
     InterfaceInput_MTU r))
    (λ '(x0, x1, x2, x3, x4, x5, x6, x7, x8, x9, x10), MkInterfaceInput x0 x1 x2 x3 x4 x5 x6 x7 x8 x9 x10)
    ltac:(by intros []).
#[export] Instance Input_countable : Countable Input :=
  inj_countable'
    (λ r, (Input_SchemaVersion r, Input_TopologyName r, Input_Compatibility r, Input_EntropyDigest r, Input_Nodes r,
     Input_Images r, Input_Payloads r, Input_Certificates r, Input_Management r, Input_Interfaces r))
    (λ '(x0, x1, x2, x3, x4, x5, x6, x7, x8, x9), MkInput x0 x1 x2 x3 x4 x5 x6 x7 x8 x9)
    ltac:(by intros []).

#[local] Program Instance input_digits : InputJSON := {|
  marshalInput input := digitsOf (encode input);
  decodeStrictInput s := (ofDigits s ≫= decode) ≫= cloneInput
|}.
Next Obligation. intros input copy H. cbn. rewrite ofDigits_digitsOf. cbn. by rewrite decode_encode. Qed.

Definition sampleNode (id name owner definition : string) : NodeInput := MkNodeInput id name "linux" "" owner definition.
Definition sampleImage (env : list KeyValue) : ImageInput :=
  MkImageInput "uid-1" "" "" "linux:1" "linux@sha256:00" (MkPlatform "linux" "amd64" "" "" [])
    (MkImageConfig [] ["sleep"] env "" "" [] "" None [] []).
Definition sampleInput (nodes : list NodeInput) (env : list KeyValue) : Input :=
  MkInput SchemaVersion "lab" (MkCompatibility "containerlab" "v0.70" zeroDigest SchemaVersion) "" nodes
    [sampleImage env] [MkPayloadInput "p1" "uid-1" PayloadConfigMap "cm/key" "" "/config" 0 false] []
    [MkManagementInput "uid-1" "eth0" "" "" "" "" (MkDNSConfig [] [] []) [MkPort 22 "TCP"] None]
    [MkInterfaceInput "i1" "uid-1" "eth1" "l1" "" "" "" "" ConnectivityWire 7 1500].

Definition leaf : NodeInput := sampleNode "uid-1" "leaf" "" " {} ".
Definition spine : NodeInput := sampleNode "uid-0" "spine" "uid-1" "".
Definition variables : list KeyValue := [MkKeyValue "B" "2"; MkKeyValue "A" "1"].
Definition input1 : Input := sampleInput [leaf; spine] variables.
Definition input2 : Input := sampleInput [spine; leaf] (rev variables).
Definition normalInput (input : Input) : Input := okOr input (NormalizeInput (sort := insertion_sort) input).

Lemma input1_normal : NormalizeInput (sort := insertion_sort) input1 = Ok (normalInput input1).
Proof. vm_compute. reflexivity. Qed.

Lemma input_validation_exact_witness :
  InputOk (normalInput input1) ∧ NodeInput_Definition <$> Input_Nodes (normalInput input1) = ["null"; "{}"] ∧
  NormalizeInput (sort := insertion_sort) (sampleInput [sampleNode "uid-1" "leaf" "" "oops"] [])
    = Err (planningError ErrorSerialization "input" "cannot clone input").
Proof.
  destruct (input_validation_exact (sort := insertion_sort) input1) as (_ & H & _).
  destruct (H (okOr input1 (match cloneInput input1 with Some c => Ok (E := unit) c | None => Err () end)) (normalInput input1))
    as (H1 & _); [vm_compute; reflexivity|apply input1_normal|].
  split; [exact H1|]. split; [by vm_compute|].
  apply (input_validation_exact (sort := insertion_sort)). eexists. split; [left|]. by vm_compute.
Defined.

Lemma input_swapped : same_input input1 input2.
Proof.
  constructor; [reflexivity..|apply swapped| |reflexivity|reflexivity| |reflexivity].
  - apply perm_by_one. do 2 constructor; [reflexivity|apply Permutation_rev|reflexivity..].
  - apply perm_by_one. by constructor.
Qed.

Lemma input_codec_witness :
  InputCanonicalJSON (sort := insertion_sort) input2 = Ok (marshalInput (normalInput input1)) ∧
  DecodeInput (sort := insertion_sort) (marshalInput (normalInput input1)) = Ok (normalInput input1).
Proof.
  destruct (input_codec (sort := insertion_sort) (sha := example_sha) input1 (marshalInput (normalInput input1)))
    as (H1 & normal & H2 & H3 & _).
  { unfold InputCanonicalJSON. by rewrite input1_normal. }
  split; [exact (proj1 (H1 input2 input_swapped))|]. rewrite H3, <- H2. exact input1_normal.
Defined.
