(* ===== verification/CompilerNames.v ===== *)
(** * Names of rendered objects

    Models [SafeConcatNameKubernetes], [sanitizeLinkNamePart] and [LinkResourceName] of
    [compiler/render.go], and [SafeConcatNameMax] of [util/kubernetes/names.go]: names are
    joined from parts, and cut and given a digest when they are too long.  Interface names
    are ASCII here. *)

From S2P Require Import Prelude WireCodec Api GoStrings GoNet CompilerLinks Management.
Local Open Scope Z_scope.

Definition nameMaxLen : nat := 63.
Definition nameDigestLen : nat := 7.

(** [s[0:n]] for [n] at most the length. *)
Fixpoint prefixOf (n : nat) (s : string) : string :=
  match n, s with S n, String a s => String a (prefixOf n s) | _, _ => "" end.

Section names.
Context {sha : Sha256}.

(** [hex.EncodeToString]. *)
Definition hexString (bytes : list byte) : string := String.concat "" (hex02 <$> bytes).

Definition SafeConcatNameMax (name : list string) (maxLen : nat) : string :=
  let finalName := Join name "-" in
  if (String.length finalName <=? maxLen)%nat then finalName
  else prefixOf (maxLen - 8) finalName +:+ "-" +:+ prefixOf nameDigestLen (hexString (Sum256 finalName)).

Definition SafeConcatNameKubernetes (name : list string) : string := SafeConcatNameMax name nameMaxLen.

(** What [linkNameInvalidChars] does not match. *)
Definition nameChar (a : Ascii.ascii) : bool :=
  between 97 (code a) 122 || isDigit a || Z.eqb (code a) 45.
Definition dash : Ascii.ascii := char 45.
Definition replaceInvalid (a : Ascii.ascii) : Ascii.ascii := if nameChar a then a else dash.

(** [strings.Trim(s, "-")]. *)
Fixpoint trimDashesLeft (s : string) : string :=
  match s with
  | EmptyString => EmptyString
  | String a rest => if bool_decide (a = dash) then trimDashesLeft rest else s
  end.
Fixpoint trimDashesRight (s : string) : string :=
  match s with
  | EmptyString => EmptyString
  | String a rest =>
      let rest := trimDashesRight rest in
      if bool_decide (a = dash) && bool_decide (rest = "") then "" else String a rest
  end.

Definition sanitizeLinkNamePart (rawPart : string) : string :=
  let part := trimDashesRight (trimDashesLeft (mapString replaceInvalid (ToLower rawPart))) in
  let part := if bool_decide (part = "") then "x" else part in
  if bool_decide (part = rawPart) then part
  else part +:+ "-" +:+ hexString (take 4 (Sum256 rawPart)).

Definition LinkResourceName (endpointA endpointB : Endpoint) : string :=
  SafeConcatNameKubernetes
    [EndpointNode endpointA; sanitizeLinkNamePart (EndpointInterface endpointA);
     EndpointNode endpointB; sanitizeLinkNamePart (EndpointInterface endpointB)].
End names.

(** ** Names Kubernetes accepts *)

Definition isLower (a : Ascii.ascii) : bool := between 97 (code a) 122.

(** A DNS-1035 label: lower case letters, digits and dashes, first a letter, last no dash, and
    not more than 63 of them. *)
Definition dnsLabel (s : string) : bool :=
  allChars nameChar s
  && match s with String a _ => isLower a | EmptyString => false end
  && bool_decide (trimDashesRight s = s)
  && (String.length s <=? nameMaxLen)%nat.

(** Characters of a name, ending in one that is no dash. *)
Definition nameEnd (s : string) : Prop := allChars nameChar s = true ∧ trimDashesRight s = s ∧ s ≠ "".

Lemma trimDashesRight_app s t : trimDashesRight t = t → t ≠ "" → trimDashesRight (s +:+ t) = s +:+ t.
Proof.
  intros Ht Hne. induction s as [|a s IH]; [done|].
  change (String a s +:+ t) with (String a (s +:+ t)). cbn [trimDashesRight]. rewrite IH.
  rewrite (bool_decide_eq_false_2 (s +:+ t = "")), andb_false_r; [done|]. by destruct s, t.
Qed.

Lemma trimDashesRight_idem s : trimDashesRight (trimDashesRight s) = trimDashesRight s.
Proof.
  induction s as [|a s IH]; [done|]. cbn. destruct (bool_decide (a = dash) && bool_decide (trimDashesRight s = "")) eqn:E; [done|].
  cbn. by rewrite IH, E.
Qed.

Lemma trimDashes_chars p s :
  allChars p s = true → allChars p (trimDashesLeft s) = true ∧ allChars p (trimDashesRight s) = true.
Proof.
  intros H. induction s as [|a s IH]; [done|]. cbn in H. apply andb_true_iff in H as [Ha Hs].
  destruct (IH Hs) as [H1 H2]. split; cbn.
  - case_bool_decide; [done|]. cbn. by rewrite Ha, Hs.
  - destruct (_ && _); [done|]. cbn. by rewrite Ha, H2.
Qed.

Lemma nameEnd_app s t : allChars nameChar s = true → nameEnd t → nameEnd (s +:+ t).
Proof.
  intros Hs (H1 & H2 & H3). split_and!.
  - by rewrite allChars_app, Hs, H1.
  - by apply trimDashesRight_app.
  - by destruct s, t.
Qed.

Lemma noDashes_end s : allChars (λ a, nameChar a && negb (bool_decide (a = dash))) s = true → s ≠ "" → nameEnd s.
Proof.
  intros Hs Hne. split_and!; [|clear Hne|done].
  - eapply allChars_impl; [|exact Hs]. by intros a [? _]%andb_true_iff.
  - induction s as [|a s IH]; [done|]. cbn in *. apply andb_true_iff in Hs as [[_ Ha]%andb_true_iff Hs].
    rewrite IH by done. apply negb_true_iff in Ha. by rewrite Ha.
Qed.

(** ** Digests *)

Definition hexChar (a : Ascii.ascii) : bool := nameChar a && negb (bool_decide (a = dash)).

Lemma hexDigit_char n : 0 ≤ n < 16 → hexChar (hexDigit n) = true.
Proof.
  intros Hn. assert (n ∈ seqZ 0 16) as Hin by (by apply elem_of_seqZ).
  assert (Forall (λ m, hexChar (hexDigit m) = true) (seqZ 0 16)) as Hall by (apply (bool_decide_unpack _); by vm_compute).
  rewrite list.Forall_forall in Hall. by apply Hall.
Qed.

Lemma concat_cons x (l : list string) : String.concat "" (x :: l) = x +:+ String.concat "" l.
Proof.
  destruct l; [|done]. cbn. induction x as [|a x IH]; [done|].
  change (String a x +:+ "") with (String a (x +:+ "")). by rewrite <- IH.
Qed.

Lemma hexString_spec bytes :
  Forall is_byte bytes →
  allChars hexChar (hexString bytes) = true ∧ String.length (hexString bytes) = (2 * length bytes)%nat.
Proof.
  intros H. unfold hexString. induction H as [|b bytes Hb Hbytes [IH1 IH2]]; [done|]. unfold is_byte in Hb.
  rewrite fmap_cons, concat_cons, allChars_app, length_string_app, IH1, IH2. split; [|cbn; lia]. cbn.
  rewrite !hexDigit_char; [done|split; [apply Z.mod_pos_bound|apply Z.mod_pos_bound]; lia|].
  split; [apply Z.div_pos; lia|apply Z.div_lt_upper_bound; lia].
Qed.

Lemma prefixOf_chars p n s : allChars p s = true → allChars p (prefixOf n s) = true.
Proof.
  revert s. induction n as [|n IH]; intros [|a s]; [done..|]. cbn. rewrite !andb_true_iff. naive_solver.
Qed.

Lemma prefixOf_length n s : (n ≤ String.length s)%nat → String.length (prefixOf n s) = n.
Proof. revert s. induction n as [|n IH]; intros [|a s]; cbn; intros H; [done|done|lia|]. rewrite IH; lia. Qed.

Section valid.
Context {sha : Sha256}.

Lemma digest_end n s : (0 < n ≤ 64)%nat → nameEnd (prefixOf n (hexString (Sum256 s))).
Proof.
  intros Hn. destruct (hexString_spec (Sum256 s) (Sum256_bytes s)) as [Hc Hl]. rewrite Sum256_length in Hl.
  apply noDashes_end; [by apply prefixOf_chars|]. intros He. pose proof (prefixOf_length n (hexString (Sum256 s))) as H.
  rewrite He in H. cbn in H. lia.
Qed.

Lemma sanitizeLinkNamePart_end part : nameEnd (sanitizeLinkNamePart part).
Proof.
  unfold sanitizeLinkNamePart. set (t := trimDashesRight _).
  assert (nameEnd (if bool_decide (t = "") then "x" else t)) as Ht.
  { case_bool_decide as E; [by apply noDashes_end|]. split_and!; [|apply trimDashesRight_idem|done].
    apply trimDashes_chars, trimDashes_chars. generalize (ToLower part). intros s.
    induction s as [|a s IH]; [done|]. cbn. rewrite IH, andb_true_r. unfold replaceInvalid. by destruct (nameChar a) eqn:Ea. }
  revert Ht. generalize (if bool_decide (t = "") then "x" else t). intros u Hu.
  case_bool_decide; [done|]. apply nameEnd_app; [apply Hu|]. apply nameEnd_app; [done|].
  assert (Forall is_byte (take 4 (Sum256 part))) as Hb by apply Forall_take, Sum256_bytes.
  destruct (hexString_spec _ Hb) as [Hc Hl]. apply noDashes_end; [done|].
  intros He. rewrite He, length_take, Sum256_length in Hl. cbn in Hl. lia.
Qed.

(** The first letter, characters and end of a name carry over to its cut form. *)
Lemma SafeConcat_label name maxLen :
  (9 ≤ maxLen ≤ nameMaxLen)%nat → nameEnd (Join name "-") →
  match Join name "-" with String a _ => isLower a | EmptyString => false end = true →
  dnsLabel (SafeConcatNameMax name maxLen) = true.
Proof.
  intros Hmax Hend Hfirst. unfold SafeConcatNameMax, dnsLabel. set (s := Join name "-") in *.
  destruct (Nat.leb_spec (String.length s) maxLen) as [Hle|Hgt].
  - destruct Hend as (H1 & H2 & _). rewrite H1, Hfirst, H2, bool_decide_eq_true_2 by done. cbn. apply Nat.leb_le. lia.
  - pose proof (digest_end nameDigestLen s ltac:(unfold nameDigestLen; lia)) as Hd.
    assert (nameEnd (prefixOf (maxLen - 8) s +:+ "-" +:+ prefixOf nameDigestLen (hexString (Sum256 s)))) as (H1 & H2 & _).
    { apply nameEnd_app; [apply prefixOf_chars, Hend|]. by apply nameEnd_app. }
    rewrite H1, H2, bool_decide_eq_true_2 by done. cbn [andb].
    assert (match prefixOf (maxLen - 8) s +:+ "-" +:+ prefixOf nameDigestLen (hexString (Sum256 s)) with
      String a _ => isLower a | EmptyString => false end = true) as ->.
    { destruct s as [|a s]; [done|]. destruct (maxLen - 8)%nat eqn:E; [lia|]. done. }
    cbn [andb]. apply Nat.leb_le. rewrite !length_string_app, prefixOf_length by lia.
    destruct (hexString_spec (Sum256 s) (Sum256_bytes s)) as [_ Hl]. rewrite Sum256_length in Hl.
    rewrite prefixOf_length by (unfold nameDigestLen; lia). unfold nameDigestLen. cbn. lia.
Qed.

Lemma dnsLabel_inv s :
  dnsLabel s = true → nameEnd s ∧ match s with String a _ => isLower a | EmptyString => false end = true.
Proof.
  unfold dnsLabel. rewrite !andb_true_iff, bool_decide_eq_true. intros [[[H1 H2] H3] _].
  split; [split_and!; [done..|by destruct s]|done].
Qed.

Lemma profileName_label topology node :
  dnsLabel topology = true → dnsLabel node = true → dnsLabel (SafeConcatNameKubernetes [topology; node]) = true.
Proof.
  intros [(T1 & _) T2]%dnsLabel_inv [N1 _]%dnsLabel_inv. apply SafeConcat_label; [unfold nameMaxLen; lia| |]; cbn.
  - apply nameEnd_app; [done|]. by apply nameEnd_app.
  - by destruct topology.
Qed.

Lemma linkName_label a b :
  dnsLabel (EndpointNode a) = true → dnsLabel (EndpointNode b) = true → dnsLabel (LinkResourceName a b) = true.
Proof.
  intros [(A1 & _) A2]%dnsLabel_inv [(B1 & _) _]%dnsLabel_inv.
  pose proof (sanitizeLinkNamePart_end (EndpointInterface a)) as Ha.
  pose proof (sanitizeLinkNamePart_end (EndpointInterface b)) as Hb.
  apply SafeConcat_label; [unfold nameMaxLen; lia| |]; cbn -[sanitizeLinkNamePart].
  - do 2 (apply nameEnd_app; [done|]). apply nameEnd_app; [apply Ha|]. apply nameEnd_app; [done|].
    do 2 (apply nameEnd_app; [done|]). done.
  - by destruct (EndpointNode a).
Qed.
End valid.
