(* ===== verification/CompilerRender.v ===== *)
(** * Rendering of compiled topologies

    Models [compiler/render.go], [compiler/input.go] and the conversions of
    [compiler/compile.go]: how a compiled topology and the policy of its Topology resource
    become the manifests of NodeProfiles, Nodes and Links.

    The YAML vocabulary of containerlab's node definition, the Kubernetes types that are only
    copied, and the decoder of manifests into API objects are arguments.  Numbers in JSON are
    exact (below 2^53). *)

From S2P Require Import Prelude WireCodec Api GoStrings GoNet GoSort.
From S2P Require Import CompilerDiagnostics CompilerDefinition CompilerPorts CompilerLinks CompilerNodes CompilerDocument.
From S2P Require Import Management CompilerNames.
Local Open Scope Z_scope.

(** ** JSON values *)

Inductive json :=
| JNull
| JBool (b : bool)
| JNumber (n : Z)
| JString (s : string)
| JArray (elements : list json)
| JObject (fields : list (string * json)).

(** A struct: the fields that are present, in their order. *)
Definition struct (fields : list (string * option json)) : json :=
  JObject (omap (λ field, pair field.1 <$> field.2) fields).
(** Fields without and with [omitempty]. *)
Definition field (name : string) (value : json) : string * option json := (name, Some value).
Definition text_ (name value : string) : string * option json := field name (JString value).
Definition textOpt (name value : string) : string * option json :=
  (name, if bool_decide (value = "") then None else Some (JString value)).
Definition numberOpt (name : string) (value : Z) : string * option json :=
  (name, if value =? 0 then None else Some (JNumber value)).
Definition mapJSON (m : gmap string string) : json :=
  JObject ((λ key, (key, JString (default "" (m !! key)))) <$> sorted_keys m).

(** ** The policy of a Topology *)

Record FileFromConfigMap := MkFileFromConfigMap { FCFilePath : string; ConfigMapName : string; ConfigMapPath : string; FCMode : string }.
Record FileFromSecret := MkFileFromSecret { FSFilePath : string; SecretName : string; SecretPath : string; FSMode : string }.
Record FileFromURL := MkFileFromURL { FUFilePath : string; FileURL : string; FileDigest : string }.

Record SSHProbeConfiguration := MkSSHProbeConfiguration { SSHUsername : string; SSHPassword : string; SSHPort : Z }.
Record TCPProbeConfiguration := MkTCPProbeConfiguration { TCPPort : Z }.
Record ProbeConfiguration := MkProbeConfiguration {
  StartupSeconds : Z;
  SSHProbe : option SSHProbeConfiguration;
  TCPProbe : option TCPProbeConfiguration
}.
Record StatusProbes := MkStatusProbes {
  ProbesEnabled : bool;
  ExcludedNodes : list string;
  NodeProbeConfigurations : gmap string ProbeConfiguration;
  DefaultProbeConfiguration : ProbeConfiguration
}.
Record Expose := MkExpose {
  DisableAutoExpose : bool;
  ExposeType : string;
  UseNodeMgmtIpv4Address : bool;
  UseNodeMgmtIpv6Address : bool
}.
Record ImagePull := MkImagePull { PullPolicy : string; PullSecrets : list string }.
Record Persistence := MkPersistence {
  PersistenceEnabled : bool;
  ClaimSize : string;
  StorageClassName : string;
  Reclaim : string
}.

(** Kubernetes' types that are only compared or written as JSON: resource requirements with
    [apiequality.Semantic.DeepEqual], tolerations and affinity. *)
Class KubernetesTypes : Type := {
  ResourceRequirements : Type;
  Toleration : Type;
  Affinity : Type;
  resourcesJSON : ResourceRequirements → json;
  resourcesEqual : ResourceRequirements → ResourceRequirements → bool;
  tolerationJSON : Toleration → json;
  affinityJSON : Affinity → json
}.

Section policy.
Context {types : KubernetesTypes}.

(** [None] is a nil map, slice or pointer. *)
Record Scheduling := MkScheduling {
  NodeSelector : option (gmap string string);
  Tolerations : option (list Toleration);
  SchedulingAffinity : option Affinity
}.
Record Deployment := MkDeployment {
  NetworkIsolation : option bool;
  FilesFromConfigMap : gmap string (list FileFromConfigMap);
  FilesFromSecret : gmap string (list FileFromSecret);
  FilesFromURL : gmap string (list FileFromURL);
  DeploymentResources : gmap string ResourceRequirements;
  DeploymentScheduling : option Scheduling;
  DeploymentPersistence : option Persistence
}.
Record RenderInput := MkRenderInput {
  InputName : string;
  InputNamespace : string;
  InputDefinition : string;
  InputAnnotations : gmap string string;
  InputLabels : gmap string string;
  InputDeployment : Deployment;
  DisableManagement : bool;
  InputExpose : Expose;
  InputImagePull : ImagePull;
  InputStatusProbes : StatusProbes
}.
#[export] Instance RenderInput_updatable : Updatable RenderInput :=
  λ i, MkRenderInput (InputName i) (InputNamespace i) (InputDefinition i) (InputAnnotations i) (InputLabels i)
         (InputDeployment i) (DisableManagement i) (InputExpose i) (InputImagePull i) (InputStatusProbes i).

(** A Topology: its name and the spec fields the compiler consumes.  Its resources are values,
    its scheduling and persistence are always there. *)
Record TopologyResource := MkTopologyResource {
  TopologyResourceName : string;
  TopologyResourceNamespace : string;
  SpecDefinition : string;
  SpecNetworkIsolation : option bool;
  SpecFilesFromConfigMap : gmap string (list FileFromConfigMap);
  SpecFilesFromSecret : gmap string (list FileFromSecret);
  SpecFilesFromURL : gmap string (list FileFromURL);
  SpecResources : gmap string ResourceRequirements;
  SpecScheduling : Scheduling;
  SpecPersistence : Persistence;
  SpecDisableManagement : bool;
  SpecExpose : Expose;
  SpecImagePull : ImagePull;
  SpecStatusProbes : StatusProbes
}.

(** ** Conversion of a Topology *)

Definition compileScheduling (scheduling : Scheduling) : option Scheduling :=
  Some (MkScheduling (NodeSelector scheduling) (Tolerations scheduling) (SchedulingAffinity scheduling)).
Definition compilePersistence (persistence : Persistence) : option Persistence :=
  Some (MkPersistence (PersistenceEnabled persistence) (ClaimSize persistence) (StorageClassName persistence)
          (Reclaim persistence)).
Definition perNodeResources (resources : gmap string ResourceRequirements) : gmap string ResourceRequirements := resources.

Definition compileDeploymentPolicy (topology : TopologyResource) : Deployment :=
  MkDeployment (SpecNetworkIsolation topology)
    ((λ files : list FileFromConfigMap, (λ file, MkFileFromConfigMap (FCFilePath file) (ConfigMapName file) (ConfigMapPath file) (FCMode file)) <$> files)
       <$> SpecFilesFromConfigMap topology)
    ((λ files : list FileFromSecret, (λ file, MkFileFromSecret (FSFilePath file) (SecretName file) (SecretPath file) (FSMode file)) <$> files)
       <$> SpecFilesFromSecret topology)
    ((λ files : list FileFromURL, (λ file, MkFileFromURL (FUFilePath file) (FileURL file) (FileDigest file)) <$> files)
       <$> SpecFilesFromURL topology)
    (perNodeResources (SpecResources topology)) (compileScheduling (SpecScheduling topology))
    (compilePersistence (SpecPersistence topology)).

Definition compileProbeConfiguration (probe : ProbeConfiguration) : ProbeConfiguration :=
  MkProbeConfiguration (StartupSeconds probe)
    ((λ ssh, MkSSHProbeConfiguration (SSHUsername ssh) (SSHPassword ssh) (SSHPort ssh)) <$> SSHProbe probe)
    ((λ tcp, MkTCPProbeConfiguration (TCPPort tcp)) <$> TCPProbe probe).

Definition compileStatusProbes (probes : StatusProbes) : StatusProbes :=
  MkStatusProbes (ProbesEnabled probes) (ExcludedNodes probes)
    (compileProbeConfiguration <$> NodeProbeConfigurations probes)
    (compileProbeConfiguration (DefaultProbeConfiguration probes)).

Definition compileEngineInput (topology : TopologyResource) : RenderInput :=
  MkRenderInput (TopologyResourceName topology) (TopologyResourceNamespace topology) (SpecDefinition topology) ∅ ∅
    (compileDeploymentPolicy topology) (SpecDisableManagement topology)
    (MkExpose (DisableAutoExpose (SpecExpose topology)) (ExposeType (SpecExpose topology))
       (UseNodeMgmtIpv4Address (SpecExpose topology)) (UseNodeMgmtIpv6Address (SpecExpose topology)))
    (MkImagePull (PullPolicy (SpecImagePull topology)) (PullSecrets (SpecImagePull topology)))
    (compileStatusProbes (SpecStatusProbes topology)).
End policy.

(** ** The JSON of the policy *)

Definition configMapFileJSON (file : FileFromConfigMap) : json :=
  struct [text_ "filePath" (FCFilePath file); text_ "configMapName" (ConfigMapName file);
          textOpt "configMapPath" (ConfigMapPath file); textOpt "mode" (FCMode file)].
Definition secretFileJSON (file : FileFromSecret) : json :=
  struct [text_ "filePath" (FSFilePath file); text_ "secretName" (SecretName file);
          textOpt "secretPath" (SecretPath file); textOpt "mode" (FSMode file)].
Definition urlFileJSON (file : FileFromURL) : json :=
  struct [text_ "filePath" (FUFilePath file); text_ "url" (FileURL file); textOpt "digest" (FileDigest file)].
Definition probeJSON (probe : ProbeConfiguration) : json :=
  struct [numberOpt "startupSeconds" (StartupSeconds probe);
          ("sshProbeConfiguration", (λ ssh, struct [text_ "username" (SSHUsername ssh); text_ "password" (SSHPassword ssh);
             numberOpt "port" (SSHPort ssh)]) <$> SSHProbe probe);
          ("tcpProbeConfiguration", (λ tcp, struct [numberOpt "port" (TCPPort tcp)]) <$> TCPProbe probe)].
Definition persistenceJSON (persistence : Persistence) : json :=
  struct [field "enabled" (JBool (PersistenceEnabled persistence)); textOpt "claimSize" (ClaimSize persistence);
          textOpt "storageClassName" (StorageClassName persistence); textOpt "reclaim" (Reclaim persistence)].
Definition schedulingJSON `{KubernetesTypes} (scheduling : Scheduling) : json :=
  struct [("nodeSelector", m ← NodeSelector scheduling; if bool_decide (m = ∅) then None else Some (mapJSON m));
          ("tolerations", l ← Tolerations scheduling;
             match l with [] => None | _ => Some (JArray (tolerationJSON <$> l)) end);
          ("affinity", affinityJSON <$> SchedulingAffinity scheduling)].

(** ** Manifests *)

(** An object as it is rendered: metadata and spec; its kind is the list it is in. *)
Record Manifest := MkManifest {
  ManifestName : string;
  ManifestNamespace : string;
  ManifestLabels : gmap string string;
  ManifestAnnotations : gmap string string;
  ManifestSpec : gmap string json
}.
#[export] Instance Manifest_updatable : Updatable Manifest :=
  λ m, MkManifest (ManifestName m) (ManifestNamespace m) (ManifestLabels m) (ManifestAnnotations m) (ManifestSpec m).

Definition labelApp : string := "c9s.run/app".
Definition labelName : string := "c9s.run/name".
Definition labelOwner : string := "c9s.run/topologyOwner".
Definition labelKind : string := "c9s.run/topologyKind".
Definition labelNode : string := "c9s.run/topologyNode".
Definition labelGroup : string := "c9s.run/topologyGroup".
Definition labelAppValue : string := "clabernetes".
Definition DefaultResourceName : string := "default".

Definition compilerOwnedLabel (key : string) (hasGroup : bool) : bool :=
  if bool_decide (key ∈ [labelApp; labelName; labelOwner; labelKind; labelNode]) then true
  else if bool_decide (key = labelGroup) then hasGroup
  else false.

(** What a loop that copies labels and skips the owned ones leaves: distinct keys, so the
    order does not matter. *)
Definition copyLabels (hasGroup : bool) (from to : gmap string string) : gmap string string :=
  filter (λ entry, compilerOwnedLabel entry.1 hasGroup = false) from ∪ to.

Section render.
Context {types : KubernetesTypes} {sha : Sha256} {quote : FmtQuote} {order : RangeOrder string} {sort : GoSort}.

Definition ownedObjectMetadata (input : RenderInput) (name : string) : Manifest :=
  MkManifest name (InputNamespace input)
    (copyLabels false (InputLabels input)
       (<[labelApp := labelAppValue]> (<[labelName := name]> (<[labelOwner := InputName input]>
          {[labelKind := TopologyKindContainerlab]}))))
    (InputAnnotations input) ∅.

Definition nodeMetadata (input : RenderInput) (nodeName : string) (nodeDefinition : NodeDefinition) : Manifest :=
  let metadata := ownedObjectMetadata input nodeName in
  let hasGroup := negb (bool_decide (DefGroup nodeDefinition = "")) in
  let labels := copyLabels hasGroup (DefLabels nodeDefinition) (ManifestLabels metadata) in
  let labels := <[labelNode := nodeName]> labels in
  let labels := if hasGroup then <[labelGroup := DefGroup nodeDefinition]> labels else labels in
  metadata <| ManifestLabels := labels |>.

(** ** Definitions as payload *)

(** [time.Duration.String] of a positive duration: the digits after the point of [v / 10^prec],
    without trailing zeros. *)
Fixpoint fracDigits (prec : nat) (v : Z) (acc : string) : string :=
  match prec with
  | O => acc
  | S prec =>
      let digit := v mod 10 in
      fracDigits prec (v / 10)
        (if (digit =? 0) && bool_decide (acc = "") then "" else String (char (48 + digit)) acc)
  end.
Definition fracText (prec : nat) (v : Z) : string :=
  let digits := fracDigits prec v "" in
  if bool_decide (digits = "") then "" else "." +:+ digits.
Definition microsign : string := String (char 194) (String (char 181) "").
Definition durationString (d : Z) : string :=
  if d =? 0 then "0s"
  else if d <? 1000 then Itoa d +:+ "ns"
  else if d <? 1000000 then Itoa (d / 1000) +:+ fracText 3 d +:+ microsign +:+ "s"
  else if d <? 1000000000 then Itoa (d / 1000000) +:+ fracText 6 d +:+ "ms"
  else
    let seconds := d / 1000000000 in
    let minutes := seconds / 60 in
    let hours := minutes / 60 in
    (if 0 <? hours then Itoa hours +:+ "h" else "")
    +:+ (if 0 <? minutes then Itoa (minutes mod 60) +:+ "m" else "")
    +:+ Itoa (seconds mod 60) +:+ fracText 9 d +:+ "s".

(** A definition written by yaml.v2 and read by yaml.v3: its top-level fields, [None] for a
    value JSON cannot carry; and the conversions between the two node vocabularies. *)
Class NodeVocabulary : Type := {
  yamlPayload : NodeDefinition → result string (gmap string (option json));
  VocabularyDefinition : Type;
  readVocabulary : gmap string json → result string VocabularyDefinition;
  writeVocabulary : VocabularyDefinition → result string NodeDefinition;
  hasComponents : VocabularyDefinition → bool
}.
Context {vocabulary : NodeVocabulary}.

Definition kindSpecificComponentsKey : string := "components".
Definition certificateKey_ : string := "certificate".
Definition validityKey : string := "validity-duration".

(** [m[key] = value] on the fields of an object. *)
Fixpoint setField (key : string) (value : json) (fields : list (string * json)) : list (string * json) :=
  match fields with
  | [] => [(key, value)]
  | (k, v) :: fields => if bool_decide (k = key) then (k, value) :: fields else (k, v) :: setField key value fields
  end.

(** Some value JSON cannot carry fails the conversion. *)
Definition carried {A} (values : gmap string (option A)) : result string (gmap string A) :=
  if decide (map_Forall (λ _ (v : option A), is_Some v) values) then Ok (omap id values)
  else Err "json: unsupported value".

Definition definitionPayload (flattened : NodeDefinition) : result string (gmap string json) :=
  let? payload := yamlPayload flattened in
  let keys := filter (λ key, key ≠ kindSpecificComponentsKey) (sorted_keys (DefKindSpecificConfig flattened)) in
  let kindConfig := list_to_map ((λ key, (key, default (Some JNull) (payload !! key))) <$> keys) : gmap string (option json) in
  let payload := foldl (λ m key, delete key m) payload keys in
  let? payload :=
    if bool_decide (kindConfig = ∅) then Ok payload
    else let? entries := carried kindConfig in
         Ok (<[kindSpecificWrapperKey := Some (JObject ((λ key, (key, default JNull (entries !! key))) <$> sorted_keys entries))]>
               payload) in
  let payload :=
    match DefCertificate flattened, payload !! certificateKey_ with
    | Some certificate, Some (Some (JObject fields)) =>
        if 0 <? CertValidityDuration certificate
        then <[certificateKey_ := Some (JObject (setField validityKey
                 (JString (durationString (CertValidityDuration certificate))) fields))]> payload
        else payload
    | _, _ => payload
    end in
  carried payload.

(** ** Nodes *)

Definition hasDistinctProfilePolicy (input : RenderInput) (nodeName : string) : bool :=
  match DeploymentResources (InputDeployment input) !! nodeName with
  | None => false
  | Some nodeResources =>
      match DeploymentResources (InputDeployment input) !! DefaultResourceName with
      | None => true
      | Some defaultResources => negb (resourcesEqual nodeResources defaultResources)
      end
  end.

Definition nodeProfileNameForNode (input : RenderInput) (compiled : CompiledDefinition) (nodeName : string) : string :=
  if hasDistinctProfilePolicy input (SourceNodeName compiled nodeName)
  then SafeConcatNameKubernetes [InputName input; nodeName]
  else InputName input.

(** [if files := ...; len(files) != 0 { spec[key] = files }]. *)
Definition project {A} (key : string) (toJSON : A → json) (files : option (list A)) (spec : gmap string json) : gmap string json :=
  match files with
  | None | Some [] => spec
  | Some files => <[key := JArray (toJSON <$> files)]> spec
  end.

Definition applyNodePayloadProjections (input : RenderInput) (sourceName : string) (spec : gmap string json) :
    gmap string json :=
  let deployment := InputDeployment input in
  let spec := project "filesFromConfigMap" configMapFileJSON (FilesFromConfigMap deployment !! sourceName) spec in
  let spec := project "filesFromSecret" secretFileJSON (FilesFromSecret deployment !! sourceName) spec in
  project "filesFromURL" urlFileJSON (FilesFromURL deployment !! sourceName) spec.

Definition appProtocolJSON (protocol : AppProtocol) : json :=
  JObject [("port", JString (AppPort protocol)); ("appProtocol", JString (AppProtocolName protocol))].

Definition renderNode (input : RenderInput) (compiled : CompiledDefinition) (nodeName : string)
    (nodeDefinition : NodeDefinition) : result string Manifest :=
  let sourceName := SourceNodeName compiled nodeName in
  let profileName := nodeProfileNameForNode input compiled nodeName in
  let? spec := match definitionPayload nodeDefinition with
               | Err e => Err ("node " +:+ fmt_q nodeName +:+ ": " +:+ e)
               | Ok definition => Ok definition
               end in
  let spec := if bool_decide (profileName = "") then spec
              else <["profileRef" := JObject [("name", JString profileName)]]> spec in
  let spec := applyNodePayloadProjections input sourceName spec in
  let spec := project "appProtocols" appProtocolJSON (CDAppProtocols compiled !! nodeName) spec in
  Ok (nodeMetadata input nodeName nodeDefinition <| ManifestSpec := spec |>).

(** The loop over the sorted names. *)
Definition renderNodes (input : RenderInput) (compiled : CompiledDefinition) : result string (list Manifest) :=
  rfold (λ nodes nodeName,
    match CDNodes compiled !! nodeName with
    | None => Ok nodes
    | Some nodeDefinition => let? node := renderNode input compiled nodeName nodeDefinition in Ok (nodes ++ [node])
    end) [] (sorted_keys (CDNodes compiled)).

(** ** Links *)

Definition endpointJSON (endpoint : Endpoint) : json :=
  JObject [("nodeName", JString (EndpointNode endpoint)); ("interfaceName", JString (EndpointInterface endpoint))].
Definition linkName (link : CompiledLink) : string := LinkResourceName (CompiledA link) (CompiledB link).

Definition renderLink (input : RenderInput) (link : CompiledLink) : Manifest :=
  ownedObjectMetadata input (linkName link)
    <| ManifestSpec := <["endpointA" := endpointJSON (CompiledA link)]>
         (<["endpointB" := endpointJSON (CompiledB link)]> {["mtu" := JNumber (CompiledMTU link)]}) |>.

(** [sort.Slice] gives an ordered permutation, as [slices.SortFunc] does. *)
Definition renderLinks (input : RenderInput) (compiled : CompiledDefinition) : list Manifest :=
  renderLink input <$> SortFunc (onKey linkName Compare) (CDLinks compiled).

(** ** Profiles *)

Definition exposeSpec (expose : Expose) : json :=
  struct [field "disableAutoExpose" (JBool (DisableAutoExpose expose));
          field "useNodeMgmtIpv4Address" (JBool (UseNodeMgmtIpv4Address expose));
          field "useNodeMgmtIpv6Address" (JBool (UseNodeMgmtIpv6Address expose));
          textOpt "exposeType" (ExposeType expose)].

Definition imagePullSpec (imagePull : ImagePull) : json :=
  struct [textOpt "policy" (PullPolicy imagePull);
          ("pullSecrets", match PullSecrets imagePull with [] => None | secrets => Some (JArray (JString <$> secrets)) end)].

(** [profileDeploymentSpec(spec)[key] = value]. *)
Definition setDeployment (key : string) (value : json) (spec : gmap string json) : gmap string json :=
  let deployment := match spec !! "deployment" with Some (JObject fields) => fields | _ => [] end in
  <["deployment" := JObject (setField key value deployment)]> spec.

Definition applyProfileDeploymentSpec (input : RenderInput) (spec : gmap string json) : gmap string json :=
  let deployment := InputDeployment input in
  let spec := match DeploymentResources deployment !! DefaultResourceName with
              | Some defaultResources => <["resources" := resourcesJSON defaultResources]> spec
              | None => spec
              end in
  let spec := match DeploymentScheduling deployment with
              | Some (MkScheduling None None None) | None => spec
              | Some scheduling => <["scheduling" := schedulingJSON scheduling]> spec
              end in
  let spec := match NetworkIsolation deployment with
              | Some isolation => setDeployment "networkIsolation" (JBool isolation) spec
              | None => spec
              end in
  match DeploymentPersistence deployment with
  | Some persistence => if PersistenceEnabled persistence
                        then setDeployment "persistence" (persistenceJSON persistence) spec else spec
  | None => spec
  end.

(** The loop that looks a source name up among the renamed nodes: the first one in the order
    of the map. *)
Definition renameSourceToCompiled (compiled : CompiledDefinition) (sourceName : string) : string * bool :=
  match list_find (λ entry, entry.2 = sourceName) (range_list (NodeNameSources compiled)) with
  | Some (_, (compiledName, _)) => (compiledName, true)
  | None => (sourceName, false)
  end.
Definition compiledNodeName (compiled : CompiledDefinition) (nodeName : string) : string :=
  let '(compiledName, isRenamed) := renameSourceToCompiled compiled nodeName in
  if isRenamed then compiledName else nodeName.

Definition zeroProbe (probe : ProbeConfiguration) : bool :=
  match probe with MkProbeConfiguration 0 None None => true | _ => false end.

Definition nodeProbes (compiled : CompiledDefinition) (configurations : gmap string ProbeConfiguration) : gmap string json :=
  foldl (λ (m : gmap string json) entry, <[compiledNodeName compiled entry.1 := probeJSON entry.2]> m) ∅
    (range_list configurations).

Definition compiledStatusProbes (input : RenderInput) (compiled : CompiledDefinition) : json :=
  let probes := InputStatusProbes input in
  struct [field "enabled" (JBool (ProbesEnabled probes));
          ("probeConfiguration", if zeroProbe (DefaultProbeConfiguration probes) then None
                                 else Some (probeJSON (DefaultProbeConfiguration probes)));
          ("nodeProbeConfigurations",
             if bool_decide (NodeProbeConfigurations probes = ∅) then None
             else let configurations := nodeProbes compiled (NodeProbeConfigurations probes) in
                  Some (JObject ((λ key, (key, default JNull (configurations !! key))) <$> sorted_keys configurations)));
          ("excludedNodes", match ExcludedNodes probes with
                            | [] => None
                            | excluded => Some (JArray ((λ nodeName, JString (compiledNodeName compiled nodeName)) <$> excluded))
                            end)].

(** The accessors of [clabtypes.MgmtNet]. *)
Class MgmtNet : Type := {
  IPv4Subnet : configValue → string;
  IPv4Gw : configValue → string;
  IPv4Range : configValue → string;
  IPv6Subnet : configValue → string;
  IPv6Gw : configValue → string;
  IPv6Range : configValue → string
}.
Context {mgmt : MgmtNet}.

Definition applyProfileManagementSpec (input : RenderInput) (compiled : CompiledDefinition) (spec : gmap string json) :
    gmap string json :=
  if DisableManagement input then <["mgmt" := JObject [("disabled", JBool true)]]> spec
  else match CDMgmt compiled with
       | None => spec
       | Some net =>
           <["mgmt" := JObject [("ipv4-subnet", JString (IPv4Subnet net)); ("ipv4-gw", JString (IPv4Gw net));
                                ("ipv4-range", JString (IPv4Range net)); ("ipv6-subnet", JString (IPv6Subnet net));
                                ("ipv6-gw", JString (IPv6Gw net)); ("ipv6-range", JString (IPv6Range net))]]> spec
       end.

Definition renderTopologyNodeProfile (input : RenderInput) (compiled : CompiledDefinition) (profileName : string) : Manifest :=
  let spec := {["expose" := exposeSpec (InputExpose input)]} : gmap string json in
  let spec := if bool_decide (PullPolicy (InputImagePull input) = "") && bool_decide (PullSecrets (InputImagePull input) = [])
              then spec else <["imagePull" := imagePullSpec (InputImagePull input)]> spec in
  let spec := applyProfileDeploymentSpec input spec in
  let spec := <["statusProbes" := compiledStatusProbes input compiled]> spec in
  let spec := applyProfileManagementSpec input compiled spec in
  ownedObjectMetadata input profileName <| ManifestSpec := spec |>.

(** The profile of a node with a policy of its own. *)
Definition renderDedicatedProfile (input : RenderInput) (compiled : CompiledDefinition) (nodeName : string) : Manifest :=
  let profile := renderTopologyNodeProfile input compiled (SafeConcatNameKubernetes [InputName input; nodeName]) in
  match DeploymentResources (InputDeployment input) !! SourceNodeName compiled nodeName with
  | Some nodeResources => profile <| ManifestSpec ::= <["resources" := resourcesJSON nodeResources]> |>
  | None => profile
  end.

Definition distinct (input : RenderInput) (compiled : CompiledDefinition) (nodeName : string) : bool :=
  hasDistinctProfilePolicy input (SourceNodeName compiled nodeName).

Definition renderNodeProfiles (input : RenderInput) (compiled : CompiledDefinition) : list Manifest :=
  let names := sorted_keys (CDNodes compiled) in
  let perNodeNames := filter (λ nodeName, distinct input compiled nodeName = true) names in
  let sharedProfileNeeded := existsb (λ nodeName, negb (distinct input compiled nodeName)) names in
  (if sharedProfileNeeded then [renderTopologyNodeProfile input compiled (InputName input)] else [])
  ++ (renderDedicatedProfile input compiled <$> perNodeNames).

Record Manifests := MkManifests {
  NodeManifests : list Manifest;
  LinkManifests : list Manifest;
  ProfileManifests : list Manifest
}.

Definition RenderTopology (input : RenderInput) (compiled : CompiledDefinition) : result string Manifests :=
  let nodeProfiles := renderNodeProfiles input compiled in
  let? nodes := renderNodes input compiled in
  Ok (MkManifests nodes (renderLinks input compiled) nodeProfiles).

(** ** From the compiled topology and back to typed objects *)

(** [CompiledTopology]: the compiled definition in the vocabulary of c9s. *)
Record CompiledTopology := MkCompiledTopology {
  CTKind : string;
  CTNodes : gmap string VocabularyDefinition;
  CTAppProtocols : gmap string (list AppProtocol);
  CTLinks : list CompiledLink;
  CTMgmt : option configValue;
  CTNodeNameSources : gmap string string
}.

Definition importNodeDefinition (flattened : NodeDefinition) : result string VocabularyDefinition :=
  let? payload := definitionPayload flattened in readVocabulary payload.

Definition exportNodeDefinition (nodeDefinition : VocabularyDefinition) : result string NodeDefinition :=
  let? exported := writeVocabulary nodeDefinition in
  let config := DefKindSpecificConfig exported in
  let config :=
    match config !! kindSpecificWrapperKey with
    | None => config
    | Some wrapper =>
        match kindSpecificWrapperEntries wrapper with
        | Some entries => entries ∪ delete kindSpecificWrapperKey config
        | None => config
        end
    end in
  let config :=
    if hasComponents nodeDefinition
    then match config !! kindSpecificComponentsKey with
         | Some _ => config
         | None => <[kindSpecificComponentsKey := CVOther "[]"]> config
         end
    else config in
  Ok (exported <| DefKindSpecificConfig := config |>).

(** The loops over the nodes: the first failure, in the order of the map, is returned. *)
Definition convertNodes {A B} (convert : A → result string B) (nodes : gmap string A) : result string (gmap string B) :=
  rfold (λ (out : gmap string B) entry,
    match convert entry.2 with
    | Ok converted => Ok (<[entry.1 := converted]> out)
    | Err e => Err ("node " +:+ fmt_q entry.1 +:+ ": " +:+ e)
    end) ∅ (range_list nodes).

Definition hydrateCompiledTopology (compiled : CompiledDefinition) : result string CompiledTopology :=
  let? nodes := convertNodes importNodeDefinition (CDNodes compiled) in
  Ok (MkCompiledTopology (CDKind compiled) nodes (CDAppProtocols compiled) (CDLinks compiled) (CDMgmt compiled)
        (NodeNameSources compiled)).

Definition engineCompiledTopology (compiled : CompiledTopology) : result string CompiledDefinition :=
  let? nodes := convertNodes exportNodeDefinition (CTNodes compiled) in
  Ok (MkCompiledDefinition (CTKind compiled) nodes (CTAppProtocols compiled) (CTLinks compiled) (CTMgmt compiled)
        (CTNodeNameSources compiled)).

(** [metadata] is what the manager's configuration puts on every object. *)
Definition renderAll (topology : TopologyResource) (compiled : CompiledTopology)
    (metadata : option (gmap string string * gmap string string)) : result string Manifests :=
  let input := compileEngineInput topology in
  let input := match metadata with
               | None => input
               | Some (annotations, globalLabels) =>
                   input <| InputAnnotations := annotations |> <| InputLabels := globalLabels |>
               end in
  let? engineCompiled := engineCompiledTopology compiled in
  RenderTopology input engineCompiled.

(** The decoder of manifests into API objects: the network mode, the run state and the rest of
    a Node's spec, and the spec of a NodeProfile. *)
Class ManifestDecoder : Type := {
  decodeNodeSpec : gmap string json → result string (string * string * string);
  decodeProfileSpec : gmap string json → result string string
}.
Context {decoder : ManifestDecoder}.

Definition decodeEndpoint (value : option json) : option LinkEndpointSpec :=
  match value with
  | Some (JObject [(_, JString nodeName); (_, JString interfaceName)]) => Some (MkLinkEndpointSpec nodeName interfaceName)
  | _ => None
  end.
Definition noStatus : LinkStatus := MkLinkStatus 0 None [].

Definition decodeError_ (e : string) : string := "decoding compiled manifest: " +:+ e.

Definition decodeNode (manifest : Manifest) : result string Node :=
  match decodeNodeSpec (ManifestSpec manifest) with
  | Err e => Err (decodeError_ e)
  | Ok (mode, state, rest) =>
      Ok (BuildNode (ManifestName manifest) "" "" (ManifestLabels manifest) (ManifestAnnotations manifest) [] mode state rest "")
  end.
Definition decodeLink (manifest : Manifest) : result string Link :=
  match decodeEndpoint (ManifestSpec manifest !! "endpointA"), decodeEndpoint (ManifestSpec manifest !! "endpointB"),
        ManifestSpec manifest !! "mtu" with
  | Some endpointA, Some endpointB, Some (JNumber mtu) =>
      Ok (MkLink (ManifestNamespace manifest) (ManifestName manifest) "" 0 "" false (ManifestLabels manifest)
            (ManifestAnnotations manifest) [] endpointA endpointB mtu noStatus)
  | _, _, _ => Err (decodeError_ "unexpected value")
  end.
Definition decodeProfile (manifest : Manifest) : result string NodeProfile :=
  match decodeProfileSpec (ManifestSpec manifest) with
  | Err e => Err (decodeError_ e)
  | Ok spec =>
      Ok (MkNodeProfile (ManifestName manifest) "" (ManifestLabels manifest) (ManifestAnnotations manifest) [] spec)
  end.

Definition decodeEach {T} (decode : Manifest → result string T) (manifests : list Manifest) : result string (list T) :=
  rfold (λ decoded manifest, let? object := decode manifest in Ok (decoded ++ [object])) [] manifests.

Definition manifestContractError (e : string) : string := "clabernetes compiler: " +:+ e.

Definition RenderAll (topology : TopologyResource) (compiled : CompiledTopology)
    (metadata : option (gmap string string * gmap string string)) :
    result string (list Node * list Link * list NodeProfile) :=
  match
    let? manifests := renderAll topology compiled metadata in
    let? nodes := decodeEach decodeNode (NodeManifests manifests) in
    let? links := decodeEach decodeLink (LinkManifests manifests) in
    let? profiles := decodeEach decodeProfile (ProfileManifests manifests) in
    Ok (nodes, links, profiles)
  with
  | Ok objects => Ok objects
  | Err e => Err (manifestContractError e)
  end.
End render.
