(* ===== verification/CompilerRenderTheorems.v ===== *)
(** * What rendering promises

    One Node per compiled node and one Link per compiled link, labels the compiler sets itself
    are not shadowed, every Node refers to a rendered NodeProfile that carries its resources,
    all names are valid, and enforcing the rendered Links leaves each wire on the server; with
    the case in which two wires get one name. *)

From S2P Require Import Prelude WireCodec Api TopologyRollout TopologyEmitted GoStrings CompilerDiagnostics.
From S2P Require Import CompilerDefinition CompilerPorts CompilerLinks CompilerNodes CompilerDocument GoNet.
From S2P Require Import Management ManagementTheorems GoSort CompilerNames CompilerRender.
Local Open Scope Z_scope.

(** The profile a rendered Node refers to. *)
Definition profileRefOf (node : Manifest) : option string :=
  match ManifestSpec node !! "profileRef" with Some (JObject [(_, JString name)]) => Some name | _ => None end.

Section theorems.
Context {types : KubernetesTypes} {sha : Sha256} {quote : FmtQuote} {order : RangeOrder string} {sort : GoSort}
  {vocabulary : NodeVocabulary} {mgmt : MgmtNet} {decoder : ManifestDecoder}.

(** ** Labels *)

Lemma copyLabels_owned hasGroup from to key :
  compilerOwnedLabel key hasGroup = true → copyLabels hasGroup from to !! key = to !! key.
Proof.
  intros Ho. unfold copyLabels. rewrite lookup_union_r; [done|]. apply map_lookup_filter_None. right. cbn.
  intros x _. by rewrite Ho.
Qed.

Lemma copyLabels_free hasGroup from to key :
  compilerOwnedLabel key hasGroup = false →
  copyLabels hasGroup from to !! key = match from !! key with Some v => Some v | None => to !! key end.
Proof.
  intros Ho. unfold copyLabels. rewrite lookup_union, map_lookup_filter.
  destruct (from !! key) as [v|]; cbn; [|by destruct (to !! key)].
  rewrite option_guard_True by done. cbn. by destruct (to !! key).
Qed.

(** The labels of a rendered Node. *)
Definition nodeLabel (input : RenderInput) (nodeName : string) (definition : NodeDefinition) (key : string) : option string :=
  if bool_decide (key = labelNode) || bool_decide (key = labelName) then Some nodeName
  else if bool_decide (key = labelApp) then Some labelAppValue
  else if bool_decide (key = labelOwner) then Some (InputName input)
  else if bool_decide (key = labelKind) then Some TopologyKindContainerlab
  else if bool_decide (key = labelGroup) && negb (bool_decide (DefGroup definition = "")) then Some (DefGroup definition)
  else match DefLabels definition !! key with Some v => Some v | None => InputLabels input !! key end.

Lemma metadataLabels_free input name key :
  compilerOwnedLabel key false = false → ManifestLabels (ownedObjectMetadata input name) !! key = InputLabels input !! key.
Proof.
  intros Ho. cbn -[copyLabels]. rewrite copyLabels_free by done. destruct (InputLabels input !! key); [done|].
  unfold compilerOwnedLabel in Ho. case_bool_decide as Hin; [done|].
  rewrite !elem_of_cons, elem_of_nil in Hin. rewrite !lookup_insert_ne by (intros <-; tauto).
  apply lookup_empty.
Qed.

Lemma nodeMetadata_labels input nodeName definition key :
  ManifestLabels (nodeMetadata input nodeName definition) !! key = nodeLabel input nodeName definition key.
Proof.
  unfold nodeMetadata, nodeLabel. set (hasGroup := negb (bool_decide (DefGroup definition = ""))).
  set (base := ManifestLabels (ownedObjectMetadata input nodeName)).
  change (ManifestLabels _) with (let labels := <[labelNode := nodeName]> (copyLabels hasGroup (DefLabels definition) base) in
    if hasGroup then <[labelGroup := DefGroup definition]> labels else labels).
  cbv zeta.
  assert (∀ k v, k ∈ [labelApp; labelName; labelOwner; labelKind] → base !! k = Some v →
    (if hasGroup then <[labelGroup := DefGroup definition]> (<[labelNode := nodeName]> (copyLabels hasGroup (DefLabels definition) base))
     else <[labelNode := nodeName]> (copyLabels hasGroup (DefLabels definition) base)) !! k = Some v) as Hfixed.
  { intros k v Hk Hb. rewrite !elem_of_cons, elem_of_nil in Hk.
    assert (k ≠ labelGroup ∧ k ≠ labelNode ∧ compilerOwnedLabel k hasGroup = true) as (H1 & H2 & H3)
      by (by destruct Hk as [->|[->|[->|[->|[]]]]]).
    destruct hasGroup; rewrite !lookup_insert_ne by done; by rewrite copyLabels_owned. }
  assert (∀ k v, k ∈ [labelApp; labelName; labelOwner; labelKind] →
    (<[labelApp := labelAppValue]> (<[labelName := nodeName]> (<[labelOwner := InputName input]>
          {[labelKind := TopologyKindContainerlab]})) : gmap string string) !! k = Some v → base !! k = Some v) as Hbase.
  { intros k v Hk Hv. unfold base, ownedObjectMetadata. cbn -[copyLabels]. rewrite copyLabels_owned; [done|].
    rewrite !elem_of_cons, elem_of_nil in Hk. by destruct Hk as [->|[->|[->|[->|[]]]]]. }
  assert (∀ k, compilerOwnedLabel k false = false → base !! k = InputLabels input !! k) as Hfree by apply metadataLabels_free.
  clearbody base hasGroup. destruct (decide (key = labelNode)) as [->|H1].
  { cbn. destruct hasGroup; [rewrite lookup_insert_ne by done|]; apply lookup_insert_eq. }
  rewrite (bool_decide_eq_false_2 (key = labelNode)) by done. cbn [orb].
  destruct (decide (key = labelName)) as [->|H2]; [by apply Hfixed, Hbase; [set_solver..|]|].
  destruct (decide (key = labelApp)) as [->|H3]; [by apply Hfixed, Hbase; [set_solver..|]|].
  destruct (decide (key = labelOwner)) as [->|H4]; [by apply Hfixed, Hbase; [set_solver..|]|].
  destruct (decide (key = labelKind)) as [->|H5]; [by apply Hfixed, Hbase; [set_solver..|]|].
  rewrite !bool_decide_eq_false_2 by done.
  assert (∀ g, compilerOwnedLabel key g = bool_decide (key = labelGroup) && g) as Ho.
  { intros g. unfold compilerOwnedLabel. rewrite (bool_decide_eq_false_2 (key ∈ _)) by set_solver. by case_bool_decide. }
  destruct (decide (key = labelGroup)) as [->|H6].
  - destruct hasGroup; cbn; [apply lookup_insert_eq|]. rewrite lookup_insert_ne, copyLabels_free by done.
    by rewrite Hfree.
  - rewrite (bool_decide_eq_false_2 (key = labelGroup)) in * by done. cbn [andb].
    destruct hasGroup; rewrite !lookup_insert_ne by done; rewrite copyLabels_free by apply Ho;
      rewrite Hfree by apply Ho; done.
Qed.

(** ** Nodes *)

Lemma renderNodes_Forall2 input compiled nodes :
  renderNodes input compiled = Ok nodes →
  Forall2 (λ name node, ∃ definition, CDNodes compiled !! name = Some definition ∧
    renderNode input compiled name definition = Ok node) (sorted_keys (CDNodes compiled)) nodes.
Proof.
  unfold renderNodes.
  assert (∀ names, (∀ n, n ∈ names → is_Some (CDNodes compiled !! n)) → ∀ acc nodes,
    rfold (λ nodes nodeName, match CDNodes compiled !! nodeName with
      | None => Ok nodes
      | Some d => let? node := renderNode input compiled nodeName d in Ok (nodes ++ [node]) end) acc names = Ok nodes →
    ∃ new, nodes = acc ++ new ∧ Forall2 (λ name node, ∃ d, CDNodes compiled !! name = Some d ∧
      renderNode input compiled name d = Ok node) names new) as H.
  { induction names as [|n names IH]; intros Hn acc ns; cbn [rfold].
    { intros [= <-]. exists []. by rewrite app_nil_r. }
    destruct (Hn n) as [d Hd]; [by left|]. rewrite Hd. destruct (renderNode input compiled n d) as [node|e] eqn:E; cbn; [|done].
    intros H. destruct (IH (λ m Hm, Hn m (list_elem_of_further _ _ _ Hm)) _ _ H) as (new & -> & Hf). exists (node :: new).
    rewrite <- app_assoc. split; [done|]. constructor; [by exists d|done]. }
  intros Hr. destruct (H _ (λ n, proj1 (elem_of_sorted_keys _ n)) _ _ Hr) as (new & -> & Hf). done.
Qed.

Lemma project_other {A} key key' (toJSON : A → json) files spec :
  key ≠ key' → project key toJSON files spec !! key' = spec !! key'.
Proof. intros H. destruct files as [[|]|]; [done| |done]. by apply lookup_insert_ne. Qed.

Lemma renderNode_facts input compiled name definition node :
  renderNode input compiled name definition = Ok node →
  ManifestName node = name ∧ ManifestNamespace node = InputNamespace input ∧
  ManifestLabels node = ManifestLabels (nodeMetadata input name definition) ∧
  (nodeProfileNameForNode input compiled name ≠ "" → profileRefOf node = Some (nodeProfileNameForNode input compiled name)).
Proof.
  unfold renderNode. destruct (definitionPayload definition) as [spec|e]; cbn -[project nodeMetadata]; [|done].
  intros [= <-]. split_and!; [done..|]. intros Hp. unfold profileRefOf, applyNodePayloadProjections. cbn -[project].
  rewrite !project_other by done. rewrite (bool_decide_eq_false_2 (_ = "")) by done. by rewrite lookup_insert_eq.
Qed.

(** ** Profiles *)

(** The profile a compiled node is meant to use. *)
Definition profileOf (input : RenderInput) (compiled : CompiledDefinition) (nodeName : string) : Manifest :=
  if distinct input compiled nodeName then renderDedicatedProfile input compiled nodeName
  else renderTopologyNodeProfile input compiled (InputName input).

Lemma profileOf_name input compiled nodeName :
  ManifestName (profileOf input compiled nodeName) = nodeProfileNameForNode input compiled nodeName.
Proof.
  unfold profileOf, nodeProfileNameForNode, distinct. destruct (hasDistinctProfilePolicy _ _); [|done].
  unfold renderDedicatedProfile. by destruct (_ !! SourceNodeName _ _).
Qed.

Lemma profileName_nonempty input compiled nodeName :
  dnsLabel (InputName input) = true → nodeProfileNameForNode input compiled nodeName ≠ "".
Proof.
  intros Hname He. unfold nodeProfileNameForNode in He.
  destruct (hasDistinctProfilePolicy _ _); [|by rewrite He in Hname].
  unfold SafeConcatNameKubernetes, SafeConcatNameMax in He. cbn in He. destruct (InputName input); [done|].
  destruct (Nat.leb _ _); done.
Qed.

Lemma elem_of_profiles input compiled profile :
  profile ∈ renderNodeProfiles input compiled ↔
  ∃ name, is_Some (CDNodes compiled !! name) ∧ profile = profileOf input compiled name.
Proof.
  unfold renderNodeProfiles, profileOf. rewrite elem_of_app. split.
  - intros [H|H].
    + destruct (existsb _ _) eqn:E; [|by apply elem_of_nil in H]. apply list_elem_of_singleton in H as ->.
      apply existsb_exists in E as (n & Hn & Hd). apply list_elem_of_In, elem_of_sorted_keys in Hn. exists n.
      split; [done|]. apply negb_true_iff in Hd. by rewrite Hd.
    + apply list_elem_of_fmap in H as (n & -> & Hn). apply list_elem_of_filter in Hn as [Hd Hn]. exists n.
      split; [by apply elem_of_sorted_keys|]. by rewrite Hd.
  - intros (n & Hn & ->). apply elem_of_sorted_keys in Hn. destruct (distinct input compiled n) eqn:Hd.
    + right. apply list_elem_of_fmap_2, list_elem_of_filter. done.
    + left. assert (existsb (λ m, negb (distinct input compiled m)) (sorted_keys (CDNodes compiled)) = true) as ->.
      { apply existsb_exists. exists n. split; [by apply list_elem_of_In|]. by rewrite Hd. }
      by apply list_elem_of_singleton.
Qed.

(** C17: Rendering produces exactly the objects of the compiled topology.  The Nodes are named
    after the compiled nodes, in order; each carries the labels the compiler sets (application,
    name, owner, kind, node and, where there is one, group) with the compiler's values, and
    otherwise its own labels over the global ones; each refers to a rendered NodeProfile, and
    every rendered NodeProfile is referred to.  The Links are the compiled links with their
    endpoints, ordered by name. *)
Theorem rendered_objects input compiled manifests :
  dnsLabel (InputName input) = true → RenderTopology input compiled = Ok manifests →
  ManifestName <$> NodeManifests manifests = sorted_keys (CDNodes compiled) ∧
  (∀ node, node ∈ NodeManifests manifests → ∃ definition, CDNodes compiled !! ManifestName node = Some definition ∧
     ManifestNamespace node = InputNamespace input ∧
     ∀ key, ManifestLabels node !! key = nodeLabel input (ManifestName node) definition key) ∧
  (∀ node, node ∈ NodeManifests manifests →
     ∃ profile, profile ∈ ProfileManifests manifests ∧ profileRefOf node = Some (ManifestName profile)) ∧
  (∀ profile, profile ∈ ProfileManifests manifests →
     ∃ node, node ∈ NodeManifests manifests ∧ profileRefOf node = Some (ManifestName profile)) ∧
  LinkManifests manifests ≡ₚ renderLink input <$> CDLinks compiled ∧
  StronglySorted (λ a b, String.le (ManifestName a) (ManifestName b)) (LinkManifests manifests).
Proof.
  intros Hname. unfold RenderTopology. destruct (renderNodes input compiled) as [nodes|e] eqn:Hn; cbn; [|done].
  intros [= <-]. cbn. pose proof (renderNodes_Forall2 _ _ _ Hn) as Hf.
  pose proof (profileName_nonempty input compiled) as Hp.
  assert (∀ node, node ∈ nodes → ∃ n definition, n = ManifestName node ∧ CDNodes compiled !! n = Some definition ∧
    renderNode input compiled n definition = Ok node) as Hnode.
  { intros node [i Hi]%list_elem_of_lookup. destruct (Forall2_lookup_r _ _ _ _ _ Hf Hi) as (n & _ & d & Hd & Hr).
    exists n, d. split_and!; [|done..]. symmetry. apply (renderNode_facts _ _ _ _ _ Hr). }
  split_and!.
  - clear -Hf. induction Hf as [|n node ns nodes (d & _ & Hr) Hf IH]; [done|]. rewrite fmap_cons. f_equal; [|done].
    apply (renderNode_facts _ _ _ _ _ Hr).
  - intros node (n & d & -> & Hd & Hr)%Hnode. exists d. pose proof (renderNode_facts _ _ _ _ _ Hr) as (H1 & H2 & H3 & _).
    split_and!; [done..|]. intros key. rewrite H3. apply nodeMetadata_labels.
  - intros node (n & d & -> & Hd & Hr)%Hnode. exists (profileOf input compiled (ManifestName node)).
    split; [apply elem_of_profiles; eauto|]. rewrite profileOf_name.
    by apply (renderNode_facts _ _ _ _ _ Hr), Hp.
  - intros profile (n & Hin & ->)%elem_of_profiles. apply elem_of_sorted_keys, list_elem_of_lookup in Hin as [i Hi].
    destruct (Forall2_lookup_l _ _ _ _ _ Hf Hi) as (node & Hnth & d & Hd & Hr). exists node.
    split; [by eapply list_elem_of_lookup_2|]. rewrite profileOf_name. by apply (renderNode_facts _ _ _ _ _ Hr), Hp.
  - unfold renderLinks. by rewrite SortFunc_perm.
  - unfold renderLinks. pose proof (SortFunc_sorted (onKey linkName Compare) (CDLinks compiled) (onKey_wo _ _ Compare_wo)) as H.
    induction H as [|x l H IH Hx]; [constructor|]. rewrite fmap_cons. constructor; [done|]. apply Forall_fmap.
    eapply Forall_impl; [exact Hx|]. intros y Hy. cbn -[LinkResourceName]. by apply Compare_le.
Qed.

(** ** Resources *)

Lemma setDeployment_other key value spec key' :
  key' ≠ "deployment" → setDeployment key value spec !! key' = spec !! key'.
Proof. intros H. apply lookup_insert_ne. done. Qed.

Lemma deployment_resources input spec :
  spec !! "resources" = None →
  applyProfileDeploymentSpec input spec !! "resources" =
  resourcesJSON <$> DeploymentResources (InputDeployment input) !! DefaultResourceName.
Proof.
  intros Hs. unfold applyProfileDeploymentSpec.
  set (s1 := match DeploymentResources _ !! _ with Some _ => _ | None => _ end).
  assert (s1 !! "resources" = resourcesJSON <$> DeploymentResources (InputDeployment input) !! DefaultResourceName) as <-.
  { unfold s1. destruct (_ !! DefaultResourceName); [by rewrite lookup_insert_eq|done]. }
  clearbody s1. set (s2 := match DeploymentScheduling _ with Some _ => _ | None => _ end).
  assert (s2 !! "resources" = s1 !! "resources") as <-.
  { unfold s2. destruct (DeploymentScheduling _) as [[[] [] []]|]; by rewrite ?lookup_insert_ne by done. }
  clearbody s2. set (s3 := match NetworkIsolation _ with Some _ => _ | None => _ end).
  assert (s3 !! "resources" = s2 !! "resources") as <-.
  { unfold s3. destruct (NetworkIsolation _); [by apply setDeployment_other|done]. }
  destruct (DeploymentPersistence _) as [persistence|]; [|done].
  destruct (PersistenceEnabled persistence); [by apply setDeployment_other|done].
Qed.

Lemma management_resources input compiled spec :
  applyProfileManagementSpec input compiled spec !! "resources" = spec !! "resources".
Proof.
  unfold applyProfileManagementSpec. destruct (DisableManagement input); [by rewrite lookup_insert_ne|].
  destruct (CDMgmt compiled); [by rewrite lookup_insert_ne|done].
Qed.

Lemma profile_resources input compiled name :
  ManifestSpec (renderTopologyNodeProfile input compiled name) !! "resources" =
  resourcesJSON <$> DeploymentResources (InputDeployment input) !! DefaultResourceName.
Proof.
  unfold renderTopologyNodeProfile.
  match goal with |- ManifestSpec (?m <| ManifestSpec := ?s |>) !! _ = _ => change (s !! "resources" =
    resourcesJSON <$> DeploymentResources (InputDeployment input) !! DefaultResourceName) end.
  rewrite management_resources, lookup_insert_ne by done. apply deployment_resources.
  destruct (_ && _); [done|]. by rewrite lookup_insert_ne.
Qed.

Lemma profileOf_resources input compiled nodeName :
  ManifestSpec (profileOf input compiled nodeName) !! "resources" =
  resourcesJSON <$> (if distinct input compiled nodeName
                     then DeploymentResources (InputDeployment input) !! SourceNodeName compiled nodeName
                     else DeploymentResources (InputDeployment input) !! DefaultResourceName).
Proof.
  unfold profileOf. destruct (distinct input compiled nodeName) eqn:Hd; [|apply profile_resources].
  unfold renderDedicatedProfile, distinct, hasDistinctProfilePolicy in *.
  destruct (DeploymentResources (InputDeployment input) !! SourceNodeName compiled nodeName) as [r|]; [|done].
  cbn -[renderTopologyNodeProfile]. by rewrite lookup_insert_eq.
Qed.

(** Names short enough not to be cut: a profile is named after one node only. *)
Lemma short_profiles_unique input compiled a b :
  (String.length (InputName input) + 1 + String.length a ≤ nameMaxLen)%nat →
  (String.length (InputName input) + 1 + String.length b ≤ nameMaxLen)%nat →
  ManifestName (profileOf input compiled a) = ManifestName (profileOf input compiled b) →
  (distinct input compiled a = true ∨ distinct input compiled b = true) → a = b.
Proof.
  intros Ha Hb. rewrite !profileOf_name. unfold nodeProfileNameForNode. fold (distinct input compiled a).
  fold (distinct input compiled b).
  assert (∀ n, (String.length (InputName input) + 1 + String.length n ≤ nameMaxLen)%nat →
    SafeConcatNameKubernetes [InputName input; n] = InputName input +:+ "-" +:+ n) as Hs.
  { intros n Hn. unfold SafeConcatNameKubernetes, SafeConcatNameMax. cbn -[nameMaxLen].
    rewrite (proj2 (Nat.leb_le _ _)); [done|]. rewrite !length_string_app. cbn. lia. }
  assert (∀ n, InputName input +:+ "-" +:+ n ≠ InputName input) as Hne.
  { intros n He%(f_equal String.length). rewrite !length_string_app in He. cbn in He. lia. }
  destruct (distinct input compiled a), (distinct input compiled b); rewrite ?Hs by done; intros He; [intros _|..].
  - apply (inj (String.app (InputName input))) in He. by injection He.
  - by apply Hne in He.
  - symmetry in He. by apply Hne in He.
  - by intros [|].
Qed.

(** Every Node gets the resources its Topology asks for.  When names are not so long that
    they are cut, the one rendered NodeProfile a Node refers to carries the resources declared
    for the Node under the name the definition uses, or an equal default; for a Node without
    resources of its own it carries the default ones, if any. *)
Theorem rendered_resources input compiled manifests node profile :
  dnsLabel (InputName input) = true → RenderTopology input compiled = Ok manifests →
  (∀ name, is_Some (CDNodes compiled !! name) → (String.length (InputName input) + 1 + String.length name ≤ nameMaxLen)%nat) →
  node ∈ NodeManifests manifests → profile ∈ ProfileManifests manifests →
  profileRefOf node = Some (ManifestName profile) →
  match DeploymentResources (InputDeployment input) !! SourceNodeName compiled (ManifestName node) with
  | Some own => ∃ r, ManifestSpec profile !! "resources" = Some (resourcesJSON r) ∧ (r = own ∨ resourcesEqual own r = true)
  | None => ManifestSpec profile !! "resources" =
      resourcesJSON <$> DeploymentResources (InputDeployment input) !! DefaultResourceName
  end.
Proof.
  intros Hname. unfold RenderTopology. destruct (renderNodes input compiled) as [nodes|e] eqn:Hn; cbn; [|done].
  intros [= <-] Hshort. cbn. intros [i Hi]%list_elem_of_lookup (m & Hm & ->)%elem_of_profiles Href.
  destruct (Forall2_lookup_r _ _ _ _ _ (renderNodes_Forall2 _ _ _ Hn) Hi) as (n & _ & d & Hd & Hr).
  pose proof (renderNode_facts _ _ _ _ _ Hr) as (Hnn & _ & _ & Hp). rewrite Hnn.
  assert (profileOf input compiled m = profileOf input compiled n) as ->.
  { rewrite Hp in Href by (by apply profileName_nonempty).
    injection Href as Href. rewrite <- profileOf_name in Href.
    destruct (distinct input compiled m) eqn:Em, (distinct input compiled n) eqn:En.
    4: { unfold profileOf. by rewrite Em, En. }
    all: f_equal; eapply short_profiles_unique; [by apply Hshort|apply Hshort; eauto|by symmetry|tauto]. }
  rewrite profileOf_resources. unfold distinct, hasDistinctProfilePolicy.
  destruct (DeploymentResources (InputDeployment input) !! SourceNodeName compiled n) as [own|]; [|done].
  destruct (DeploymentResources (InputDeployment input) !! DefaultResourceName) as [r|] eqn:Er; [|eauto].
  destruct (resourcesEqual own r) eqn:Eq; cbn; eauto.
Qed.

(** ** Names *)

(** Kubernetes accepts the names of all rendered objects.  When the topology and all
    compiled nodes, also those at the ends of links, are named by DNS labels, the names of the
    rendered Nodes, Links and NodeProfiles are DNS labels too: lower case letters, digits and
    dashes, first a letter, last no dash, at most 63 characters. *)
Theorem rendered_names_valid input compiled manifests :
  dnsLabel (InputName input) = true →
  (∀ name, is_Some (CDNodes compiled !! name) → dnsLabel name = true) →
  Forall (λ link, dnsLabel (EndpointNode (CompiledA link)) = true ∧ dnsLabel (EndpointNode (CompiledB link)) = true)
    (CDLinks compiled) →
  RenderTopology input compiled = Ok manifests →
  Forall (λ manifest, dnsLabel (ManifestName manifest) = true)
    (NodeManifests manifests ++ LinkManifests manifests ++ ProfileManifests manifests).
Proof.
  intros Hname Hnodes Hlinks. unfold RenderTopology. destruct (renderNodes input compiled) as [nodes|e] eqn:Hn; cbn; [|done].
  intros [= <-]. cbn. rewrite !Forall_app. split_and!; apply list.Forall_forall.
  - intros node [i Hi]%list_elem_of_lookup.
    destruct (Forall2_lookup_r _ _ _ _ _ (renderNodes_Forall2 _ _ _ Hn) Hi) as (n & _ & d & Hd & Hr).
    destruct (renderNode_facts _ _ _ _ _ Hr) as (-> & _). eauto.
  - intros manifest (link & -> & Hl)%list_elem_of_fmap. rewrite SortFunc_perm in Hl.
    rewrite list.Forall_forall in Hlinks. destruct (Hlinks link Hl). cbn -[LinkResourceName]. by apply linkName_label.
  - intros profile (n & Hin & ->)%elem_of_profiles. rewrite profileOf_name. unfold nodeProfileNameForNode.
    destruct (hasDistinctProfilePolicy _ _); [apply profileName_label; eauto|done].
Qed.

(** ** Typed objects *)

Lemma decodeEach_Forall2 {T} (decode : Manifest → result string T) manifests objects :
  decodeEach decode manifests = Ok objects → Forall2 (λ m o, decode m = Ok o) manifests objects.
Proof.
  unfold decodeEach.
  assert (∀ ms acc os, rfold (λ decoded m, let? object := decode m in Ok (decoded ++ [object])) acc ms = Ok os →
    ∃ new, os = acc ++ new ∧ Forall2 (λ m o, decode m = Ok o) ms new) as H.
  { induction ms as [|m ms IH]; intros acc os; cbn [rfold].
    { intros [= <-]. exists []. by rewrite app_nil_r. }
    destruct (decode m) as [o|e] eqn:E; cbn; [|done]. intros (new & -> & Hf)%IH. exists (o :: new).
    rewrite <- app_assoc. split; [done|]. by constructor. }
  intros (new & -> & Hf)%H. done.
Qed.

(** The Link of a compiled wire. *)
Definition linkOf (input : RenderInput) (wire : CompiledLink) : Link :=
  MkLink (InputNamespace input) (linkName wire) "" 0 "" false
    (ManifestLabels (ownedObjectMetadata input (linkName wire))) (InputAnnotations input) []
    (MkLinkEndpointSpec (EndpointNode (CompiledA wire)) (EndpointInterface (CompiledA wire)))
    (MkLinkEndpointSpec (EndpointNode (CompiledB wire)) (EndpointInterface (CompiledB wire)))
    (CompiledMTU wire) noStatus.

Lemma decodeLink_render input wire : decodeLink (renderLink input wire) = Ok (linkOf input wire).
Proof. done. Qed.

Lemma RenderAll_links topology compiled metadata nodes links profiles :
  RenderAll topology compiled metadata = Ok (nodes, links, profiles) →
  ∃ input, links ≡ₚ linkOf input <$> CTLinks compiled.
Proof.
  unfold RenderAll, renderAll. set (input := match metadata with Some _ => _ | None => _ end).
  unfold engineCompiledTopology, RenderTopology.
  destruct (convertNodes exportNodeDefinition _) as [defs|]; cbn [rbind]; [|done].
  destruct (renderNodes _ _) as [ns|]; cbn [rbind NodeManifests LinkManifests ProfileManifests]; [|done].
  destruct (decodeEach decodeNode ns) as [ns'|]; cbn [rbind]; [|done].
  destruct (decodeEach decodeLink _) as [ls|] eqn:El; cbn [rbind]; [|done].
  destruct (decodeEach decodeProfile _) as [ps|]; cbn [rbind]; [|done]. intros [= _ -> _]. exists input.
  apply decodeEach_Forall2 in El. unfold renderLinks in El. cbn [CDLinks] in El.
  rewrite <- (SortFunc_perm (onKey linkName Compare) (CTLinks compiled)). apply reflexive_eq.
  revert El. generalize (SortFunc (onKey linkName Compare) (CTLinks compiled)). intros wires El.
  apply Forall2_fmap_l in El. induction El as [|w l ws ls Hw Hf IH]; [done|]. rewrite fmap_cons, <- IH. f_equal.
  cbn in Hw. rewrite decodeLink_render in Hw. by injection Hw.
Qed.

(** Enforcing the rendered Links puts every wire of the topology on the server.  When the
    wires have distinct names, the controller reference can be set and the API server accepts
    the writes, a pass over the rendered Links leaves one Link per wire, with its endpoints
    and MTU, and no other. *)
Theorem compiled_wires_enforced topology compiled metadata nodes links profiles
    (setController : Link → option Link) (answer : string → writeAnswer) (existing : gmap string Link) :
  RenderAll topology compiled metadata = Ok (nodes, links, profiles) →
  NoDup (linkName <$> CTLinks compiled) →
  (∀ link, ∃ owners, setController link = Some (link <| LinkOwners := owners |>)) →
  (∀ name, answer name = WriteOk) → (∀ name link, existing !! name = Some link → LinkName link = name) →
  let pass := reconcileEmitted setController answer links existing in
  let store := foldl applyWrite existing (emittedWrites pass) in
  emittedError pass = None ∧
  (∀ name, is_Some (store !! name) ↔ name ∈ linkName <$> CTLinks compiled) ∧
  (∀ wire, wire ∈ CTLinks compiled → ∃ link, store !! linkName wire = Some link ∧
     EndpointA link = MkLinkEndpointSpec (EndpointNode (CompiledA wire)) (EndpointInterface (CompiledA wire)) ∧
     EndpointB link = MkLinkEndpointSpec (EndpointNode (CompiledB wire)) (EndpointInterface (CompiledB wire)) ∧
     LinkMTU link = CompiledMTU wire).
Proof.
  intros [input Hlinks]%RenderAll_links Hnd Hset Hok Hkey.
  assert (objName <$> links ≡ₚ linkName <$> CTLinks compiled) as Hnames.
  { rewrite Hlinks, <- list_fmap_compose. done. }
  assert (NoDup (objName <$> links)) as Hnd' by (by rewrite Hnames).
  assert (∀ o, controllable (compiled := λ _ : Link, True) setController o) as Hc.
  { intros o. destruct (Hset o) as [owners Ho]. exists (o <| LinkOwners := owners |>). done. }
  assert (∀ n e, existing !! n = Some e → objName e = n) as Hkey' by exact Hkey.
  destruct (reconcileEmitted_result (compiled := λ _ : Link, True) setController answer existing links Hkey' Hnd'
    ltac:(by apply list.Forall_forall; intros o _; apply Hc) Hok) as [He Hs].
  cbv zeta. rewrite Hs. split_and!; [exact He| |].
  - intros name. rewrite <- Hnames. symmetry. apply elem_of_enforcedMap. exact answer.
  - intros wire Hw. assert (linkOf input wire ∈ links) as Hin by (rewrite Hlinks; by apply list_elem_of_fmap_2).
    destruct (Hset (linkOf input wire)) as [owners Ho].
    assert (controlled setController (linkOf input wire) = linkOf input wire <| LinkOwners := owners |>) as Hco
      by (unfold controlled; by rewrite Ho).
    exists (enforced existing (controlled setController (linkOf input wire))). split.
    { apply elem_of_list_to_map_1.
      - rewrite <- list_fmap_compose. exact Hnd'.
      - apply list_elem_of_fmap. exists (linkOf input wire). split; [|exact Hin]. done. }
    rewrite Hco. unfold enforced. destruct (existing !! _) as [current|]; [|done].
    destruct (conforms current _) eqn:E; [|done]. cbn in E. unfold emittedLinkConforms in E.
    rewrite !andb_true_iff, !bool_decide_eq_true in E. destruct E as [[[E1 E2] E3] _]. by rewrite E1, E2, E3.
Qed.
End theorems.

(** ** Rendering: concrete topologies

    The theorems above at a concrete topology, and two wires that are
    given one name. *)

#[local] Existing Instance example_sha.
#[local] Existing Instance insertion_sort.
#[local] Instance sample_order : RangeOrder string := canonical_range.
#[local] Instance sample_quote : FmtQuote := λ s, s.

(** Resources that are a number of CPUs; definitions of which the image is written. *)
#[local] Instance sample_types : KubernetesTypes := {|
  ResourceRequirements := Z;
  Toleration := string;
  Affinity := string;
  resourcesJSON := JNumber;
  resourcesEqual := Z.eqb;
  tolerationJSON := JString;
  affinityJSON := JString
|}.
#[local] Instance sample_vocabulary : NodeVocabulary := {|
  yamlPayload := λ d, Ok (<["image" := Some (JString (DefImage d))]>
    ((λ _, Some (JString "value")) <$> DefKindSpecificConfig d));
  VocabularyDefinition := NodeDefinition;
  readVocabulary := λ _, Ok emptyNodeDefinition;
  writeVocabulary := Ok;
  hasComponents := λ _, false
|}.
#[local] Instance sample_mgmt : MgmtNet := Build_MgmtNet (λ _, "") (λ _, "") (λ _, "") (λ _, "") (λ _, "") (λ _, "").
#[local] Instance sample_decoder : ManifestDecoder := {|
  decodeNodeSpec := λ _, Ok ("", "", "");
  decodeProfileSpec := λ _, Ok ""
|}.

Definition sampleTopology : TopologyResource :=
  MkTopologyResource "lab" "c9s" "" None ∅ ∅ ∅ ({[DefaultResourceName := 1; "R1" := 4]} : gmap string Z)
    (MkScheduling None None None) (MkPersistence true "1Gi" "" "") false (MkExpose false "" false false) (MkImagePull "" [])
    (MkStatusProbes true ["R1"] ∅ (MkProbeConfiguration 0 None None)).
Definition sampleRenderInput : RenderInput := compileEngineInput sampleTopology.

Definition wireAB : CompiledLink := MkCompiledLink (MkEndpoint "r1" "eth1") (MkEndpoint "leaf" "Ethernet1/1") 1500.
Definition sampleDefinition : NodeDefinition :=
  emptyNodeDefinition <| DefImage := "srl" |> <| DefLabels := {[labelApp := "spoofed"; "rack" := "a"]} |>
    <| DefKindSpecificConfig := {["fabric" := CVOther "x"]} |>.
Definition sampleCompiled : CompiledDefinition :=
  MkCompiledDefinition "containerlab" {["r1" := sampleDefinition; "leaf" := sampleDefinition]} ∅ [wireAB] None {["r1" := "R1"]}.
Definition renderedSample : Manifests :=
  okOr (MkManifests [] [] []) (RenderTopology sampleRenderInput sampleCompiled).

Lemma sample_rendered_ok : RenderTopology sampleRenderInput sampleCompiled = Ok renderedSample.
Proof. vm_compute. reflexivity. Qed.

Lemma rendered_objects_witness :
  ManifestName <$> NodeManifests renderedSample = ["leaf"; "r1"] ∧
  ManifestName <$> ProfileManifests renderedSample = ["lab"; "lab-r1"] ∧
  (∀ node, node ∈ NodeManifests renderedSample →
     ∃ profile, profile ∈ ProfileManifests renderedSample ∧ profileRefOf node = Some (ManifestName profile)).
Proof.
  destruct (rendered_objects sampleRenderInput sampleCompiled renderedSample) as (H1 & _ & H3 & _);
    [by vm_compute|exact sample_rendered_ok|].
  split; [rewrite H1; by vm_compute|]. split; [by vm_compute|]. exact H3.
Defined.

Definition nth (manifests : list Manifest) (i : nat) : Manifest := default (MkManifest "" "" ∅ ∅ ∅) (manifests !! i).

Lemma nth_elem manifests i : (i < length manifests)%nat → nth manifests i ∈ manifests.
Proof.
  intros [m Hm]%lookup_lt_is_Some. unfold nth. rewrite Hm. by eapply list_elem_of_lookup_2.
Qed.

Lemma rendered_resources_witness :
  profileRefOf (nth (NodeManifests renderedSample) 1) = Some (ManifestName (nth (ProfileManifests renderedSample) 1)) ∧
  ManifestSpec (nth (ProfileManifests renderedSample) 1) !! "resources" = Some (JNumber 4).
Proof.
  assert (profileRefOf (nth (NodeManifests renderedSample) 1) = Some (ManifestName (nth (ProfileManifests renderedSample) 1)))
    as Href by (vm_compute; reflexivity).
  split; [exact Href|].
  assert (ManifestName (nth (NodeManifests renderedSample) 1) = "r1") as Hname by (vm_compute; reflexivity).
  pose proof (rendered_resources sampleRenderInput sampleCompiled renderedSample (nth (NodeManifests renderedSample) 1)
    (nth (ProfileManifests renderedSample) 1) eq_refl sample_rendered_ok) as H.
  rewrite Hname in H. destruct H as (r & Hr & Heq); [|apply nth_elem; vm_compute; lia..|exact Href|].
  - intros name [d Hd]. revert Hd. cbn -[nameMaxLen]. rewrite lookup_insert_Some, lookup_singleton_Some.
    unfold nameMaxLen. intros [[<- _]|[_ [<- _]]]; cbn; lia.
  - rewrite Hr. destruct Heq as [->|Heq]; [reflexivity|]. apply Z.eqb_eq in Heq as <-. reflexivity.
Defined.

Lemma rendered_names_valid_witness :
  Forall (λ manifest, dnsLabel (ManifestName manifest) = true) (LinkManifests renderedSample) ∧
  ManifestName <$> LinkManifests renderedSample = ["r1-eth1-leaf-ethernet1-1-d0000000"].
Proof.
  assert (Forall (λ manifest, dnsLabel (ManifestName manifest) = true)
    (NodeManifests renderedSample ++ LinkManifests renderedSample ++ ProfileManifests renderedSample)) as H.
  { apply (rendered_names_valid sampleRenderInput sampleCompiled).
    - by vm_compute.
    - intros name [d Hd]. revert Hd. cbn. rewrite lookup_insert_Some, lookup_singleton_Some.
      by intros [[<- _]|[_ [<- _]]].
    - apply list.Forall_singleton. by vm_compute.
    - exact sample_rendered_ok. }
  rewrite !Forall_app in H. split; [apply H|]. by vm_compute.
Defined.

Definition vocabularyTopology (links : list CompiledLink) : CompiledTopology :=
  MkCompiledTopology "containerlab" ({["r1" := sampleDefinition; "leaf" := sampleDefinition]} : gmap string NodeDefinition) ∅
    links None {["r1" := "R1"]}.
Definition withOwner (link : Link) : option Link :=
  Some (link <| LinkOwners := [MkOwnerReference "Topology" "lab" "uid" true] |>).
Definition renderedLinksOf (links : list CompiledLink) : list Link :=
  match RenderAll sampleTopology (vocabularyTopology links) None with Ok (_, links, _) => links | Err _ => [] end.

Lemma compiled_wires_enforced_witness :
  let pass := reconcileEmitted withOwner (λ _, WriteOk) (renderedLinksOf [wireAB]) ∅ in
  emittedError pass = None ∧
  ∃ link, foldl applyWrite ∅ (emittedWrites pass) !! linkName wireAB = Some link ∧ LinkMTU link = 1500.
Proof.
  destruct (RenderAll sampleTopology (vocabularyTopology [wireAB]) None) as [[[nodes links] profiles]|] eqn:E;
    [|by vm_compute in E].
  assert (renderedLinksOf [wireAB] = links) as -> by (unfold renderedLinksOf; by rewrite E).
  destruct (compiled_wires_enforced _ _ _ _ _ _ withOwner (λ _, WriteOk) ∅ E) as (H1 & _ & H3).
  - apply NoDup_singleton.
  - intros link. by eexists.
  - done.
  - intros name link. by rewrite lookup_empty.
  - split; [exact H1|]. destruct (H3 wireAB) as (link & Hl & _ & _ & Hm); [left|]. exists link. exact (conj Hl Hm).
Defined.

(** *** Two wires with one name *)

(** The parts of a link name are joined by dashes that node and interface names may contain
    as well: the wires [a:x -- b-y:z] and [a:x-b -- y:z], which share no endpoint and which the
    compiler accepts together, are rendered as two Links of one name. *)
Definition firstWire : linkDefinition := LinkDefinition "" ["a:x"; "b-y:z"] 0 0 0.
Definition secondWire : linkDefinition := LinkDefinition "" ["a:x-b"; "y:z"] 0 0 0.
Definition threeNodes : gset string := {["a"; "b-y"; "y"]}.
Definition noDiagnostics : compileDiagnostics := [].

(** Two wires can be given one name.  A topology with the nodes [a], [b-y] and [y] and the
    links [a:x -- b-y:z] and [a:x-b -- y:z] compiles without a diagnostic; its two wires share
    no endpoint, and both are rendered as the Link [a-x-b-y-z], so the second cannot be
    created. *)
Theorem link_names_collide :
  ∃ wire1 wire2,
    compileContainerlabLinks threeNodes [firstWire; secondWire] noDiagnostics = Ok (noDiagnostics, [wire1; wire2]) ∧
    [CompiledA wire1; CompiledB wire1] ## [CompiledA wire2; CompiledB wire2] ∧
    linkName wire1 = "a-x-b-y-z" ∧ linkName wire2 = "a-x-b-y-z".
Proof.
  eexists _, _. split; [vm_compute; reflexivity|]. split; [|by vm_compute].
  intros x. rewrite !elem_of_cons, elem_of_nil. by intros [->|[->|[]]] [?|[?|[]]].
Qed.
