(* ===== verification/ConnectivityRevision.v ===== *)
(** * Connectivity revisions

    Models the revisions of [internal/directruntime/connectivity.go]: when the links of a
    running Pod change, the controller projects the desired interfaces over the plan the Pod
    was started with, decides how disruptive the change is, and hands the Pod a revision; the
    Pod merges it into its plan and accepts it only if it reproduces the announced plan. *)

From S2P Require Import Prelude WireCodec Api GoStrings GoNet GoSort DevicePlanTypes Management.
From S2P Require Import PlanValidation PlanCodec InputCodec.
Local Open Scope Z_scope.

Definition ConnectivityRevisionSchemaVersion : string := "c9s.direct-connectivity/v1alpha1".
Definition MaximumConnectivityRevisionJSONSize : nat := Z.to_nat (Z.shiftl 768 10).

Record ConnectivityRevision := MkConnectivityRevision {
  Revision_SchemaVersion : string;
  BasePlanDigest : string;
  DesiredPlanDigest : string;
  MaximumMode : string;
  Revision_InputInterfaces : list InterfaceInput;
  Revision_Interfaces : list InterfacePlan;
  Revision_Actions : list Action
}.
#[export] Instance ConnectivityRevision_eq_dec : EqDecision ConnectivityRevision.
Proof. solve_decision. Defined.
#[export] Instance ConnectivityRevision_updatable : Updatable ConnectivityRevision :=
  λ r, MkConnectivityRevision (Revision_SchemaVersion r) (BasePlanDigest r) (DesiredPlanDigest r) (MaximumMode r)
         (Revision_InputInterfaces r) (Revision_Interfaces r) (Revision_Actions r).
#[export] Instance ConnectivityRevision_clone : CloneJSON ConnectivityRevision :=
  λ r, MkConnectivityRevision (cloneJSON (Revision_SchemaVersion r)) (cloneJSON (BasePlanDigest r))
         (cloneJSON (DesiredPlanDigest r)) (cloneJSON (MaximumMode r)) (cloneJSON (Revision_InputInterfaces r))
         (cloneJSON (Revision_Interfaces r)) (cloneJSON (Revision_Actions r)).

Record ConnectivityTransition := MkConnectivityTransition {
  Changed : bool;
  RequiredMode : string;
  AffectedNodeIDs : list string
}.

Inductive connectivityError :=
| planningFailed (e : PlanError)
| revisionInvalid (message : string)
| identityDiffers (message : string).

(** An error of planning that is passed on. *)
Definition planned {A} (r : result PlanError A) : result connectivityError A :=
  match r with Ok x => Ok x | Err e => Err (planningFailed e) end.
Definition refuseRevision (condition : bool) (message : string) : result connectivityError unit :=
  if condition then Err (revisionInvalid message) else Ok ().
Definition refuseIdentity (condition : bool) (message : string) : result connectivityError unit :=
  if condition then Err (identityDiffers message) else Ok ().

(** ** Interfaces and their waits *)

Definition isConnectivityWaitAction (action : Action) : bool :=
  bool_decide (Action_Phase action = PhasePreStart) && bool_decide (Action_Kind action = ActionWaitInterface)
  && match Action_WaitInterface action with Some _ => true | None => false end.
Definition waitedInterface (action : Action) : string :=
  match Action_WaitInterface action with Some wait => WaitInterfaceAction_InterfaceID wait | None => "" end.

Definition connectivityWaitActions (actions : list Action) : list Action :=
  filter (λ action, isConnectivityWaitAction action = true) actions.

Definition interfaceInputsByID (interfaces : list InterfaceInput) : gmap string InterfaceInput :=
  foldl (λ m intf, <[InterfaceInput_ID intf := intf]> m) ∅ interfaces.
Definition interfacePlansByID (interfaces : list InterfacePlan) : gmap string InterfacePlan :=
  foldl (λ m intf, <[InterfacePlan_ID intf := intf]> m) ∅ interfaces.
Definition interfaceWaitActionsByID (actions : list Action) : gmap string Action :=
  foldl (λ m action, if isConnectivityWaitAction action then <[waitedInterface action := action]> m else m) ∅ actions.

(** A missing entry is the zero value, which no entry of a normalized document equals. *)
Definition changedConnectivityInterfaces (baseInput : Input) (basePlan : Plan) (desiredInput : Input) (desiredPlan : Plan) :
    gset string :=
  let baseInputs := interfaceInputsByID (Input_Interfaces baseInput) in
  let desiredInputs := interfaceInputsByID (Input_Interfaces desiredInput) in
  let baseInterfaces := interfacePlansByID (Plan_Interfaces basePlan) in
  let desiredInterfaces := interfacePlansByID (Plan_Interfaces desiredPlan) in
  let baseWaits := interfaceWaitActionsByID (Plan_Actions basePlan) in
  let desiredWaits := interfaceWaitActionsByID (Plan_Actions desiredPlan) in
  filter (λ id, baseInputs !! id ≠ desiredInputs !! id ∨ baseInterfaces !! id ≠ desiredInterfaces !! id
                ∨ baseWaits !! id ≠ desiredWaits !! id)
    (dom baseInputs ∪ dom desiredInputs).

(** ** How disruptive a change is *)

Definition linkApplyModeRank (mode : string) : Z :=
  if bool_decide (mode = LinkApplyLive) then 0
  else if bool_decide (mode = LinkApplyRestart) then 1
  else if bool_decide (mode = LinkApplyRecreate) then 2
  else 3.

(** The links of the changed interfaces of a list. *)
Definition collectLinks {A} (id link : A → string) (changed : gset string) (links : gset string) (interfaces : list A) :
    gset string :=
  foldl (λ links intf, if bool_decide (id intf ∈ changed) then {[link intf]} ∪ links else links) links interfaces.

Definition requireStep (links : gset string) (state : string * gset string) (intf : InterfacePlan) : string * gset string :=
  if bool_decide (InterfacePlan_LinkID intf ∈ links) then
    (if linkApplyModeRank state.1 <? linkApplyModeRank (InterfacePlan_LinkApplyMode intf)
     then InterfacePlan_LinkApplyMode intf else state.1,
     {[InterfacePlan_NodeID intf]} ∪ state.2)
  else state.

Definition evaluateNormalizedConnectivityTransition (baseInput : Input) (basePlan : Plan) (desiredInput : Input)
    (desiredPlan : Plan) : ConnectivityTransition :=
  let changed := changedConnectivityInterfaces baseInput basePlan desiredInput desiredPlan in
  let links := collectLinks InterfacePlan_ID InterfacePlan_LinkID changed ∅ (Plan_Interfaces basePlan) in
  let links := collectLinks InterfacePlan_ID InterfacePlan_LinkID changed links (Plan_Interfaces desiredPlan) in
  let links := collectLinks InterfaceInput_ID InterfaceInput_LinkID changed links (Input_Interfaces baseInput) in
  let links := collectLinks InterfaceInput_ID InterfaceInput_LinkID changed links (Input_Interfaces desiredInput) in
  if bool_decide (links = ∅) then MkConnectivityTransition false LinkApplyLive []
  else
    let state := foldl (requireStep links) (LinkApplyLive, ∅) (Plan_Interfaces basePlan) in
    let state := foldl (requireStep links) state (Plan_Interfaces desiredPlan) in
    MkConnectivityTransition true state.1 (sort_strings (elements state.2)).

Section revisions.
Context {text : JSONText} {sort : GoSort} {planJSON : PlanJSON} {inputJSON : InputJSON} {sha : Sha256} {quote : FmtQuote}.

(** ** The plan belongs to the input *)

Definition interfaceAgrees (supplied : InterfaceInput) (intf : InterfacePlan) : bool :=
  bool_decide (InterfaceInput_NodeID supplied = InterfacePlan_NodeID intf)
  && bool_decide (InterfaceInput_LinkID supplied = InterfacePlan_LinkID intf)
  && bool_decide (InterfaceInput_LinkName supplied = InterfacePlan_LinkName intf)
  && bool_decide (InterfaceInput_PeerNodeID supplied = InterfacePlan_PeerNodeID intf)
  && bool_decide (InterfaceInput_PeerInterface supplied = InterfacePlan_PeerInterface intf)
  && bool_decide (InterfaceInput_PeerTransport supplied = InterfacePlan_PeerTransport intf)
  && bool_decide (InterfaceInput_Connectivity supplied = InterfacePlan_Connectivity intf)
  && bool_decide (InterfaceInput_WireID supplied = InterfacePlan_WireID intf)
  && bool_decide (InterfaceInput_MTU supplied = InterfacePlan_MTU intf).

Definition identityInterfaceStep (inputs : gmap string InterfaceInput) (intf : InterfacePlan) :
    result connectivityError (gmap string InterfaceInput) :=
  refuseIdentity (match inputs !! InterfacePlan_ID intf with
                  | Some supplied => negb (interfaceAgrees supplied intf)
                  | None => true
                  end)
    ("connectivity plan interface " +:+ fmt_q (InterfacePlan_ID intf) +:+ " differs from accepted input") ;;?
  Ok (delete (InterfacePlan_ID intf) inputs).

Definition noDNS : DNSConfig := MkDNSConfig [] [] [].
Definition identityManagementStep (inputs : gmap string ManagementInput) (item : ManagementPlan) :
    result connectivityError (gmap string ManagementInput) :=
  let message := "connectivity management plan " +:+ fmt_q (ManagementPlan_ID item) +:+ " differs from accepted input" in
  match inputs !! ManagementPlan_NodeID item with
  | None =>
      refuseIdentity (negb (empty (ManagementPlan_IPv4 item)) || negb (empty (ManagementPlan_IPv4Gateway item))
                      || negb (empty (ManagementPlan_IPv6 item)) || negb (empty (ManagementPlan_IPv6Gateway item))
                      || negb (emptyList (ManagementPlan_Routes item)) || negb (bool_decide (ManagementPlan_DNS item = noDNS)))
        message ;;?
      Ok inputs
  | Some supplied =>
      refuseIdentity (negb (bool_decide (ManagementInput_IPv4 supplied = ManagementPlan_IPv4 item))
                      || negb (bool_decide (ManagementInput_IPv4Gateway supplied = ManagementPlan_IPv4Gateway item))
                      || negb (bool_decide (ManagementInput_IPv6 supplied = ManagementPlan_IPv6 item))
                      || negb (bool_decide (ManagementInput_IPv6Gateway supplied = ManagementPlan_IPv6Gateway item))
                      || negb (bool_decide (ManagementInput_DNS supplied = ManagementPlan_DNS item))
                      || (negb (empty (ManagementInput_InterfaceName supplied))
                          && negb (bool_decide (ManagementInput_InterfaceName supplied = ManagementPlan_InterfaceName item))))
        message ;;?
      Ok (delete (ManagementPlan_NodeID item) inputs)
  end.

Definition validateIdentity (input : Input) (plan : Plan) : result connectivityError unit :=
  let? normalizedInput := planned (NormalizeInput input) in
  let? normalizedPlan := planned (NormalizePlan plan) in
  let? digest := planned (InputDigest normalizedInput) in
  refuseIdentity (negb (bool_decide (Plan_InputDigest normalizedPlan = digest))
                  || negb (bool_decide (Plan_Compatibility normalizedPlan = Input_Compatibility normalizedInput)))
    "connectivity plan and input identities differ" ;;?
  let? rest := rfold identityInterfaceStep (interfaceInputsByID (Input_Interfaces normalizedInput))
                 (Plan_Interfaces normalizedPlan) in
  refuseIdentity (negb (bool_decide (rest = ∅))) "connectivity plan omits accepted interfaces" ;;?
  let? rest := rfold identityManagementStep
                 (foldl (λ m item, <[ManagementInput_NodeID item := item]> m) ∅ (Input_Management normalizedInput))
                 (Plan_Management normalizedPlan) in
  refuseIdentity (negb (bool_decide (rest = ∅))) "connectivity plan omits accepted management intent".

(** ** Projection *)

Definition sameNonConnectivityInput (left right : Input) : bool :=
  bool_decide (left <| Input_Interfaces := [] |> = right <| Input_Interfaces := [] |>).

Definition projectLiveConnectivity (baseInput : Input) (basePlan : Plan) (inputInterfaces : list InterfaceInput)
    (interfaces : list InterfacePlan) (waitActions : list Action) : result connectivityError (Input * Plan) :=
  let? normalizedInput := planned (NormalizeInput (baseInput <| Input_Interfaces := inputInterfaces |>)) in
  let? desiredInputDigest := planned (InputDigest normalizedInput) in
  let actions := filter (λ action, isConnectivityWaitAction action = false) (Plan_Actions basePlan) in
  let? normalizedPlan := planned (NormalizePlan (basePlan <| Plan_InputDigest := desiredInputDigest |>
                                                         <| Plan_Interfaces := interfaces |>
                                                         <| Plan_Actions := actions ++ waitActions |>)) in
  Ok (normalizedInput, normalizedPlan).

(** Both sides normalized, each plan belonging to its input, and the differences confined to
    connectivity. *)
Definition normalizedTransition (baseInput : Input) (basePlan : Plan) (desiredInput : Input) (desiredPlan : Plan) :
    result connectivityError (Input * Plan * Input * Plan) :=
  let? normalizedBaseInput := planned (NormalizeInput baseInput) in
  let? normalizedBasePlan := planned (NormalizePlan basePlan) in
  validateIdentity normalizedBaseInput normalizedBasePlan ;;?
  let? normalizedDesiredInput := planned (NormalizeInput desiredInput) in
  let? normalizedDesiredPlan := planned (NormalizePlan desiredPlan) in
  validateIdentity normalizedDesiredInput normalizedDesiredPlan ;;?
  refuseRevision (negb (sameNonConnectivityInput normalizedBaseInput normalizedDesiredInput))
    "desired input differs outside connectivity" ;;?
  refuseRevision (negb (bool_decide (Plan_SchemaVersion normalizedBasePlan = Plan_SchemaVersion normalizedDesiredPlan))
                  || negb (bool_decide (Plan_Compatibility normalizedBasePlan = Plan_Compatibility normalizedDesiredPlan))
                  || negb (bool_decide (Plan_Planner normalizedBasePlan = Plan_Planner normalizedDesiredPlan)))
    "planner identity differs outside connectivity" ;;?
  Ok (normalizedBaseInput, normalizedBasePlan, normalizedDesiredInput, normalizedDesiredPlan).

Definition EvaluateConnectivityTransition (baseInput : Input) (basePlan : Plan) (desiredInput : Input) (desiredPlan : Plan) :
    result connectivityError ConnectivityTransition :=
  let? sides := normalizedTransition baseInput basePlan desiredInput desiredPlan in
  let '(bi, bp, di, dp) := sides in
  let? effective :=
    projectLiveConnectivity bi bp (Input_Interfaces di) (Plan_Interfaces dp) (connectivityWaitActions (Plan_Actions dp)) in
  Ok (evaluateNormalizedConnectivityTransition bi bp effective.1 effective.2).

(** ** Revisions *)

Definition validRevisionDigest (value : string) : bool :=
  let encoded := TrimPrefix value "sha256:" in
  if negb (Nat.eqb (String.length encoded) 64) || bool_decide (encoded = value) then false
  else hexDecodes encoded.

Definition inputIDStep (ids : gset string) (intf : InterfaceInput) : result connectivityError (gset string) :=
  refuseRevision (empty (InterfaceInput_ID intf) || bool_decide (InterfaceInput_ID intf ∈ ids))
    "input interface identity is invalid" ;;?
  Ok ({[InterfaceInput_ID intf]} ∪ ids).
Definition interfaceIDStep (inputIDs : gset string) (ids : gset string) (intf : InterfacePlan) :
    result connectivityError (gset string) :=
  refuseRevision (empty (InterfacePlan_ID intf) || bool_decide (InterfacePlan_ID intf ∈ ids)
                  || negb (bool_decide (InterfacePlan_ID intf ∈ inputIDs)))
    "planned interface identity is invalid" ;;?
  Ok ({[InterfacePlan_ID intf]} ∪ ids).
Definition waitedStep (interfaceIDs : gset string) (waited : gset string) (action : Action) :
    result connectivityError (gset string) :=
  refuseRevision (negb (isConnectivityWaitAction action) || bool_decide (waitedInterface action ∈ waited)
                  || negb (bool_decide (waitedInterface action ∈ interfaceIDs)))
    "interface wait action is invalid" ;;?
  Ok ({[waitedInterface action]} ∪ waited).

Definition sortRevision (revision : ConnectivityRevision) : ConnectivityRevision :=
  revision <| Revision_InputInterfaces := SortFunc (onKey InterfaceInput_ID Compare) (Revision_InputInterfaces revision) |>
           <| Revision_Interfaces := SortFunc (onKey InterfacePlan_ID Compare) (Revision_Interfaces revision) |>
           <| Revision_Actions := SortFunc (onKey Action_ID Compare) (Revision_Actions revision) |>.

Definition defaultMode (revision : ConnectivityRevision) : ConnectivityRevision :=
  if empty (MaximumMode revision) then revision <| MaximumMode := LinkApplyLive |> else revision.

Definition normalizeConnectivityRevision (revision : ConnectivityRevision) : result connectivityError ConnectivityRevision :=
  let normalized := cloneJSON revision in
  refuseRevision (negb (bool_decide (Revision_SchemaVersion normalized = ConnectivityRevisionSchemaVersion))
                  || negb (validRevisionDigest (BasePlanDigest normalized))
                  || negb (validRevisionDigest (DesiredPlanDigest normalized)))
    "schema or digest identity is invalid" ;;?
  let normalized := defaultMode normalized in
  refuseRevision (negb (bool_decide (MaximumMode normalized = LinkApplyLive))
                  && negb (bool_decide (MaximumMode normalized = LinkApplyRestart)))
    "cumulative lifecycle mode is invalid" ;;?
  let normalized := sortRevision normalized in
  let? inputIDs := rfold inputIDStep ∅ (Revision_InputInterfaces normalized) in
  let? interfaceIDs := rfold (interfaceIDStep inputIDs) ∅ (Revision_Interfaces normalized) in
  refuseRevision (negb (bool_decide (size inputIDs = size interfaceIDs))) "input and planned interface sets differ" ;;?
  let? waited := rfold (waitedStep interfaceIDs) ∅ (Revision_Actions normalized) in
  refuseRevision (negb (bool_decide (size waited = size interfaceIDs))) "interface wait coverage is incomplete" ;;?
  Ok normalized.

(** The merge of a normalized revision into the normalized plan of the Pod. *)
Definition mergeRevision (bi : Input) (bp : Plan) (revision : ConnectivityRevision) : result connectivityError (Input * Plan) :=
  validateIdentity bi bp ;;?
  let? baseDigest := planned (PlanDigest bp) in
  refuseRevision (negb (bool_decide (baseDigest = BasePlanDigest revision)))
    "base plan digest differs from the running Pod" ;;?
  let? merged := projectLiveConnectivity bi bp (Revision_InputInterfaces revision) (Revision_Interfaces revision)
                   (Revision_Actions revision) in
  let? desiredPlanDigest := planned (PlanDigest merged.2) in
  refuseRevision (negb (bool_decide (desiredPlanDigest = DesiredPlanDigest revision)))
    "merged connectivity does not reproduce the desired plan digest" ;;?
  validateIdentity merged.1 merged.2 ;;?
  let transition := evaluateNormalizedConnectivityTransition bi bp merged.1 merged.2 in
  refuseRevision (negb (bool_decide (RequiredMode transition = MaximumMode revision)))
    ("merged connectivity requires " +:+ RequiredMode transition +:+ " rather than declared cumulative mode "
     +:+ MaximumMode revision) ;;?
  Ok merged.

Definition ApplyConnectivityRevision (baseInput : Input) (basePlan : Plan) (revision : ConnectivityRevision) :
    result connectivityError (Input * Plan) :=
  let? normalizedRevision := normalizeConnectivityRevision revision in
  let? bi := planned (NormalizeInput baseInput) in
  let? bp := planned (NormalizePlan basePlan) in
  mergeRevision bi bp normalizedRevision.

Definition NewConnectivityRevisionForMode (baseInput : Input) (basePlan : Plan) (desiredInput : Input) (desiredPlan : Plan)
    (maximumMode : string) : result connectivityError ConnectivityRevision :=
  refuseRevision (negb (bool_decide (maximumMode = LinkApplyLive)) && negb (bool_decide (maximumMode = LinkApplyRestart)))
    ("projected connectivity mode " +:+ fmt_q maximumMode +:+ " is invalid") ;;?
  let? sides := normalizedTransition baseInput basePlan desiredInput desiredPlan in
  let '(bi, bp, di, dp) := sides in
  let? baseDigest := planned (PlanDigest bp) in
  let? effective :=
    projectLiveConnectivity bi bp (Input_Interfaces di) (Plan_Interfaces dp) (connectivityWaitActions (Plan_Actions dp)) in
  let transition := evaluateNormalizedConnectivityTransition bi bp effective.1 effective.2 in
  refuseRevision (linkApplyModeRank maximumMode <? linkApplyModeRank (RequiredMode transition))
    ("affected connectivity requires " +:+ RequiredMode transition +:+ " rather than at most " +:+ maximumMode) ;;?
  let? desiredDigest := planned (PlanDigest effective.2) in
  let revision := MkConnectivityRevision ConnectivityRevisionSchemaVersion baseDigest desiredDigest (RequiredMode transition)
                    (Input_Interfaces di) (Plan_Interfaces dp) (connectivityWaitActions (Plan_Actions dp)) in
  let? _ := ApplyConnectivityRevision bi bp revision in
  Ok revision.

Definition NewConnectivityRevision (baseInput : Input) (basePlan : Plan) (desiredInput : Input) (desiredPlan : Plan) :
    result connectivityError ConnectivityRevision :=
  NewConnectivityRevisionForMode baseInput basePlan desiredInput desiredPlan LinkApplyLive.

(** ** Serialization *)

Class RevisionJSON : Type := {
  marshalRevision : ConnectivityRevision → string;
  decodeStrictRevision : string → option ConnectivityRevision;
  revision_json : ∀ revision, decodeStrictRevision (marshalRevision revision) = Some (cloneJSON revision);
  marshal_nonempty : ∀ revision, marshalRevision revision ≠ ""
}.
Context {revisionJSON : RevisionJSON}.

Definition RevisionCanonicalJSON (revision : ConnectivityRevision) : result connectivityError string :=
  let? normalized := normalizeConnectivityRevision revision in
  let raw := marshalRevision normalized in
  refuseRevision (MaximumConnectivityRevisionJSONSize <? String.length raw)%nat "revision exceeds the size ceiling" ;;?
  Ok raw.

Definition DecodeConnectivityRevision (raw : string) : result connectivityError ConnectivityRevision :=
  refuseRevision (empty raw || (MaximumConnectivityRevisionJSONSize <? String.length raw)%nat)
    "encoded revision size is invalid" ;;?
  match decodeStrictRevision raw with
  | None => Err (revisionInvalid "decoding revision")
  | Some decoded => normalizeConnectivityRevision decoded
  end.
End revisions.
