(* ===== verification/ConnectivityTheorems.v ===== *)
(** * What connectivity revisions promise

    How disruptive a transition is, what a revision can change in a running Pod, and that a
    revision the controller builds reaches the Pod: stored, read back and merged, it gives
    exactly the desired interfaces. *)

From S2P Require Import Prelude WireCodec Api GoStrings GoNet DevicePlanTypes Management ManagementTheorems.
From S2P Require Import PeerDirectory Hosts NameResolution GoSort PlanValidation PlanSpec PlanAcceptance.
From S2P Require Import PlanCodec PlanCanonical PlanTheorems PlanExamples InputCodec InputSpec InputTheorems.
From S2P Require Import ConnectivityRevision.
Local Open Scope Z_scope.

(** ** Transitions *)

Lemma elem_of_collectLinks {A} (id link : A → string) changed links interfaces l :
  l ∈ collectLinks id link changed links interfaces ↔
  l ∈ links ∨ ∃ intf, intf ∈ interfaces ∧ id intf ∈ changed ∧ link intf = l.
Proof.
  unfold collectLinks. revert links. induction interfaces as [|x xs IH]; intros links; cbn.
  { split; [by left|]. intros [?|(? & []%elem_of_nil & _)]. done. }
  rewrite IH. setoid_rewrite elem_of_cons. case_bool_decide; [rewrite elem_of_union, elem_of_singleton|]; naive_solver.
Qed.

(** A link one of whose interfaces changed. *)
Definition affectedLink (baseInput : Input) (basePlan : Plan) (desiredInput : Input) (desiredPlan : Plan) (link : string) : Prop :=
  let changed := changedConnectivityInterfaces baseInput basePlan desiredInput desiredPlan in
  (∃ intf, intf ∈ Plan_Interfaces basePlan ++ Plan_Interfaces desiredPlan ∧
     InterfacePlan_ID intf ∈ changed ∧ InterfacePlan_LinkID intf = link) ∨
  (∃ intf, intf ∈ Input_Interfaces baseInput ++ Input_Interfaces desiredInput ∧
     InterfaceInput_ID intf ∈ changed ∧ InterfaceInput_LinkID intf = link).

Lemma requireFold_spec links interfaces mode nodes :
  let state := foldl (requireStep links) (mode, nodes) interfaces in
  linkApplyModeRank mode ≤ linkApplyModeRank state.1 ∧
  (∀ intf, intf ∈ interfaces → InterfacePlan_LinkID intf ∈ links →
     linkApplyModeRank (InterfacePlan_LinkApplyMode intf) ≤ linkApplyModeRank state.1) ∧
  (state.1 = mode ∨ ∃ intf, intf ∈ interfaces ∧ InterfacePlan_LinkID intf ∈ links ∧
     InterfacePlan_LinkApplyMode intf = state.1) ∧
  (∀ n, n ∈ state.2 ↔ n ∈ nodes ∨ ∃ intf, intf ∈ interfaces ∧ InterfacePlan_LinkID intf ∈ links ∧ InterfacePlan_NodeID intf = n).
Proof.
  revert mode nodes. induction interfaces as [|x xs IH]; intros mode nodes.
  { cbn. split_and!; [lia|by intros ? []%elem_of_nil|by left|]. intros n. split; [by left|].
    intros [?|(? & []%elem_of_nil & _)]. done. }
  cbn [foldl]. destruct (decide (InterfacePlan_LinkID x ∈ links)) as [Hin|Hin].
  - set (mode' := if linkApplyModeRank mode <? linkApplyModeRank (InterfacePlan_LinkApplyMode x)
                  then InterfacePlan_LinkApplyMode x else mode).
    assert (requireStep links (mode, nodes) x = (mode', {[InterfacePlan_NodeID x]} ∪ nodes)) as ->
      by (unfold requireStep; by rewrite bool_decide_eq_true_2).
    destruct (IH mode' ({[InterfacePlan_NodeID x]} ∪ nodes)) as (H1 & H2 & H3 & H4).
    assert (linkApplyModeRank mode ≤ linkApplyModeRank mode' ∧
      linkApplyModeRank (InterfacePlan_LinkApplyMode x) ≤ linkApplyModeRank mode') as [Ha Hb]
      by (unfold mode'; destruct (Z.ltb_spec (linkApplyModeRank mode) (linkApplyModeRank (InterfacePlan_LinkApplyMode x))); lia).
    split_and!.
    + lia.
    + intros intf [->|Hi]%elem_of_cons Hl; [lia|by apply H2].
    + destruct H3 as [->|(intf & ? & ?)]; [|right; exists intf; split; [by right|done]].
      unfold mode'. destruct (_ <? _); [right; exists x; split; [by left|done]|by left].
    + intros n. rewrite H4, elem_of_union, elem_of_singleton. setoid_rewrite elem_of_cons. naive_solver.
  - assert (requireStep links (mode, nodes) x = (mode, nodes)) as ->
      by (unfold requireStep; by rewrite bool_decide_eq_false_2).
    destruct (IH mode nodes) as (H1 & H2 & H3 & H4). split_and!; [done| | |].
    + intros intf [->|Hi]%elem_of_cons Hl; [done|by apply H2].
    + destruct H3 as [?|(intf & ? & ?)]; [by left|right; exists intf; split; [by right|done]].
    + intros n. rewrite H4. setoid_rewrite elem_of_cons. naive_solver.
Qed.

Lemma transition_spec baseInput basePlan desiredInput desiredPlan :
  let t := evaluateNormalizedConnectivityTransition baseInput basePlan desiredInput desiredPlan in
  let affected := affectedLink baseInput basePlan desiredInput desiredPlan in
  let interfaces := Plan_Interfaces basePlan ++ Plan_Interfaces desiredPlan in
  (Changed t = true ↔ ∃ link, affected link) ∧
  (∀ intf, intf ∈ interfaces → affected (InterfacePlan_LinkID intf) →
     linkApplyModeRank (InterfacePlan_LinkApplyMode intf) ≤ linkApplyModeRank (RequiredMode t)) ∧
  (RequiredMode t = LinkApplyLive ∨
   ∃ intf, intf ∈ interfaces ∧ affected (InterfacePlan_LinkID intf) ∧ InterfacePlan_LinkApplyMode intf = RequiredMode t) ∧
  (∀ n, n ∈ AffectedNodeIDs t ↔
     ∃ intf, intf ∈ interfaces ∧ affected (InterfacePlan_LinkID intf) ∧ InterfacePlan_NodeID intf = n) ∧
  StronglySorted String.le (AffectedNodeIDs t).
Proof.
  cbv zeta. unfold evaluateNormalizedConnectivityTransition.
  set (changed := changedConnectivityInterfaces baseInput basePlan desiredInput desiredPlan).
  set (links := collectLinks InterfaceInput_ID InterfaceInput_LinkID changed _ (Input_Interfaces desiredInput)).
  assert (∀ l, l ∈ links ↔ affectedLink baseInput basePlan desiredInput desiredPlan l) as Hl.
  { intros l. unfold links, affectedLink. cbv zeta. fold changed. rewrite !elem_of_collectLinks.
    setoid_rewrite elem_of_app. set_solver. }
  clearbody links. case_bool_decide as E.
  - assert (∀ l, ¬ affectedLink baseInput basePlan desiredInput desiredPlan l) as Hno by (intros l Ha; apply Hl in Ha; set_solver).
    cbn. split_and!; [naive_solver|naive_solver|by left| |constructor].
    intros n. rewrite elem_of_nil. naive_solver.
  - cbn [Changed RequiredMode AffectedNodeIDs].
    destruct (requireFold_spec links (Plan_Interfaces basePlan) LinkApplyLive ∅) as (A1 & A2 & A3 & A4).
    destruct (foldl (requireStep links) (LinkApplyLive, ∅) (Plan_Interfaces basePlan)) as [m ns]. cbn [fst snd] in *.
    destruct (requireFold_spec links (Plan_Interfaces desiredPlan) m ns) as (B1 & B2 & B3 & B4).
    destruct (foldl (requireStep links) (m, ns) (Plan_Interfaces desiredPlan)) as [m' ns']. cbn [fst snd] in *.
    split_and!.
    + split; [intros _|done]. apply set_choose_L in E as [l Hin]. exists l. by apply Hl.
    + intros intf [Hi|Hi]%elem_of_app Ha%Hl; [specialize (A2 _ Hi Ha); lia|by apply B2].
    + destruct B3 as [->|(intf & Hi & Ha & Hm)].
      * destruct A3 as [->|(intf & Hi & Ha & Hm)]; [by left|]. right. exists intf. rewrite elem_of_app, <- Hl. tauto.
      * right. exists intf. rewrite elem_of_app, <- Hl. tauto.
    + intros n. rewrite sort_strings_perm, elem_of_elements, B4, A4. setoid_rewrite elem_of_app. setoid_rewrite <- Hl. set_solver.
    + apply sort_strings_sorted.
Qed.

(** How disruptive a transition is.  It is a change exactly when some link is affected: one
    of its interfaces was added, removed, or differs in the input, the plan or the action
    waiting for it.  The mode it requires is the most disruptive one that an interface of an
    affected link declares, in the running or the desired plan; the affected Nodes are those
    of such interfaces, in order. *)
Theorem connectivity_transition baseInput basePlan desiredInput desiredPlan :
  let t := evaluateNormalizedConnectivityTransition baseInput basePlan desiredInput desiredPlan in
  let affected := affectedLink baseInput basePlan desiredInput desiredPlan in
  let interfaces := Plan_Interfaces basePlan ++ Plan_Interfaces desiredPlan in
  (Changed t = true ↔ ∃ link, affected link) ∧
  (∀ intf, intf ∈ interfaces → affected (InterfacePlan_LinkID intf) →
     linkApplyModeRank (InterfacePlan_LinkApplyMode intf) ≤ linkApplyModeRank (RequiredMode t)) ∧
  (RequiredMode t = LinkApplyLive ∨
   ∃ intf, intf ∈ interfaces ∧ affected (InterfacePlan_LinkID intf) ∧ InterfacePlan_LinkApplyMode intf = RequiredMode t) ∧
  (∀ n, n ∈ AffectedNodeIDs t ↔
     ∃ intf, intf ∈ interfaces ∧ affected (InterfacePlan_LinkID intf) ∧ InterfacePlan_NodeID intf = n) ∧
  StronglySorted String.le (AffectedNodeIDs t).
Proof. exact (transition_spec baseInput basePlan desiredInput desiredPlan). Qed.


(** ** Revisions *)

Section revisions.
Context {text : JSONText} {sort : GoSort} {planJSON : PlanJSON} {inputJSON : InputJSON} {sha : Sha256} {quote : FmtQuote}.

Lemma planned_Ok {A} (r : result PlanError A) x : planned r = Ok x ↔ r = Ok x.
Proof. destruct r; naive_solver. Qed.
Lemma refuseRevision_Ok b message u : refuseRevision b message = Ok u ↔ b = false.
Proof. unfold refuseRevision. destruct b, u; naive_solver. Qed.
Lemma refuseIdentity_Ok b message u : refuseIdentity b message = Ok u ↔ b = false.
Proof. unfold refuseIdentity. destruct b, u; naive_solver. Qed.

Lemma Apply_Ok baseInput basePlan revision out :
  ApplyConnectivityRevision baseInput basePlan revision = Ok out ↔
  ∃ normal bi bp, normalizeConnectivityRevision revision = Ok normal ∧ NormalizeInput baseInput = Ok bi ∧
    NormalizePlan basePlan = Ok bp ∧ mergeRevision bi bp normal = Ok out.
Proof.
  unfold ApplyConnectivityRevision. split.
  - intros H. apply let_Ok in H as (normal & H1 & H). apply let_Ok in H as (bi & H2%planned_Ok & H).
    apply let_Ok in H as (bp & H3%planned_Ok & H). by exists normal, bi, bp.
  - intros (normal & bi & bp & -> & -> & -> & H). exact H.
Qed.

(** The digest of an input that belongs to a plan. *)
Lemma validateIdentity_digest input plan :
  validateIdentity input plan = Ok () →
  ∃ ni np digest, NormalizeInput input = Ok ni ∧ NormalizePlan plan = Ok np ∧ InputDigest ni = Ok digest ∧
    Plan_InputDigest np = digest.
Proof.
  unfold validateIdentity. intros H. apply let_Ok in H as (ni & Hi%planned_Ok & H). apply let_Ok in H as (np & Hp%planned_Ok & H).
  apply let_Ok in H as (digest & Hd%planned_Ok & H). apply seq_Ok in H as [Hc _]. apply refuseIdentity_Ok in Hc. checks_in Hc.
  exists ni, np, digest. naive_solver.
Qed.

(** What a projection gives: the base with other interfaces and waits. *)
Lemma projection_Ok bi bp inputs interfaces waits out :
  projectLiveConnectivity bi bp inputs interfaces waits = Ok out →
  ∃ digest, NormalizeInput (bi <| Input_Interfaces := inputs |>) = Ok out.1 ∧ InputDigest out.1 = Ok digest ∧
    NormalizePlan (bp <| Plan_InputDigest := digest |> <| Plan_Interfaces := interfaces |>
      <| Plan_Actions := filter (λ action, isConnectivityWaitAction action = false) (Plan_Actions bp) ++ waits |>) = Ok out.2.
Proof.
  unfold projectLiveConnectivity. intros H. apply let_Ok in H as (ni & Hi%planned_Ok & H).
  apply let_Ok in H as (digest & Hd%planned_Ok & H). apply let_Ok in H as (np & Hp%planned_Ok & [= <-]). by exists digest.
Qed.

Lemma merge_Ok bi bp revision out :
  mergeRevision bi bp revision = Ok out →
  validateIdentity bi bp = Ok () ∧ PlanDigest bp = Ok (BasePlanDigest revision) ∧
  projectLiveConnectivity bi bp (Revision_InputInterfaces revision) (Revision_Interfaces revision)
    (Revision_Actions revision) = Ok out ∧
  PlanDigest out.2 = Ok (DesiredPlanDigest revision) ∧ validateIdentity out.1 out.2 = Ok () ∧
  RequiredMode (evaluateNormalizedConnectivityTransition bi bp out.1 out.2) = MaximumMode revision.
Proof.
  unfold mergeRevision. intros H. apply seq_Ok in H as [H1 H]. apply let_Ok in H as (base & H2%planned_Ok & H).
  apply seq_Ok in H as [H3%refuseRevision_Ok H]. apply let_Ok in H as (merged & H4 & H).
  apply let_Ok in H as (desired & H5%planned_Ok & H). apply seq_Ok in H as [H6%refuseRevision_Ok H].
  apply seq_Ok in H as [H7 H]. apply seq_Ok in H as [H8%refuseRevision_Ok [= <-]]. checks_in H3. checks_in H6. checks_in H8.
  subst. by rewrite H8.
Qed.

(** The normal form of a plan whose connectivity was replaced. *)
Lemma replaced_connectivity bp digest interfaces actions plan :
  NormalizePlan bp = Ok bp →
  NormalizePlan (bp <| Plan_InputDigest := digest |> <| Plan_Interfaces := interfaces |> <| Plan_Actions := actions |>) = Ok plan →
  plan = bp <| Plan_InputDigest := cloneJSON digest |>
            <| Plan_Interfaces := SortFunc (onKey InterfacePlan_ID Compare) (cloneJSON interfaces) |>
            <| Plan_Actions := SortFunc compareAction (cloneJSON actions) |>.
Proof.
  intros [_ Hbp]%NormalizePlan_Ok [_ ->]%NormalizePlan_Ok.
  apply (f_equal (λ p : Plan, p <| Plan_InputDigest := cloneJSON digest |>
    <| Plan_Interfaces := SortFunc (onKey InterfacePlan_ID Compare) (cloneJSON interfaces) |>
    <| Plan_Actions := SortFunc compareAction (cloneJSON actions) |>)) in Hbp.
  rewrite Hbp. destruct bp. reflexivity.
Qed.

Lemma replaced_interfaces bi interfaces input :
  NormalizeInput bi = Ok bi → NormalizeInput (bi <| Input_Interfaces := interfaces |>) = Ok input →
  input = bi <| Input_Interfaces := SortFunc (onKey InterfaceInput_ID Compare) (cloneJSON interfaces) |>.
Proof.
  intros (c & Hc & _ & Hbi)%NormalizeInput_Ok (c' & Hc' & _ & ->)%NormalizeInput_Ok.
  assert (c' = c <| Input_Interfaces := cloneJSON interfaces |>) as ->.
  { destruct bi. unfold cloneInput in *. cbn -[cloneJSON] in *. destruct (mapM cloneNodeInput _) as [nodes|]; [|done].
    cbn -[cloneJSON] in *. injection Hc as <-. injection Hc' as <-. reflexivity. }
  rewrite Hbi. destruct c. reflexivity.
Qed.

Lemma normal_plan_facts plan normal :
  NormalizePlan plan = Ok normal →
  PlanOk normal ∧ copied normal ∧
  SortFunc (onKey InterfacePlan_ID Compare) (Plan_Interfaces normal) = Plan_Interfaces normal.
Proof.
  intros [Hok ->]%NormalizePlan_Ok.
  assert (PlanOk (sortPlan (copyOf plan))) as Hok' by (eapply same_plan_ok; [apply same_plan_sorted|done]).
  split_and!; [done|apply copied_sortPlan, copied_copyOf|]. cbn.
  apply SortFunc_idem; [auto with weak_orders|]. apply no_ties_key, (plan_interfaces _ Hok).
Qed.

Lemma normal_input_facts input normal :
  NormalizeInput input = Ok normal →
  InputOk normal ∧ cloneInput normal = Some normal ∧
  SortFunc (onKey InterfaceInput_ID Compare) (Input_Interfaces normal) = Input_Interfaces normal.
Proof.
  intros Hn. pose proof (NormalizeInput_idem _ _ Hn) as (c & Hc & _ & Heq)%NormalizeInput_Ok.
  apply NormalizeInput_Ok in Hn as (copy & Hcopy & Hok & ->). split_and!.
  - eapply same_input_ok; [apply same_input_sorted|done].
  - by eapply cloneInput_sorted, cloneInput_idem.
  - cbn. apply SortFunc_idem; [auto with weak_orders|]. apply no_ties_key, (in_interfaces _ Hok).
Qed.

Lemma copied_plan_fields plan : copied plan → copied (Plan_Interfaces plan) ∧ copied (Plan_Actions plan).
Proof.
  intros H. split; [exact (f_equal Plan_Interfaces H)|exact (f_equal Plan_Actions H)].
Qed.

Lemma copied_filter {A} `{CloneJSON A} (P : A → Prop) `{∀ x, Decision (P x)} (l : list A) : copied l → copied (filter P l).
Proof.
  rewrite !copied_list, !list.Forall_forall. intros Hl x [_ Hx]%list_elem_of_filter. by apply Hl.
Qed.

Lemma copied_app {A} `{CloneJSON A} (l k : list A) : copied l → copied k → copied (l ++ k).
Proof. rewrite !copied_list. intros. by apply Forall_app. Qed.

Lemma filter_twice {A} (P : A → Prop) `{∀ x, Decision (P x)} (l : list A) : filter P (filter P l) = filter P l.
Proof. rewrite list_filter_filter. apply list_filter_iff. tauto. Qed.

(** ** Normalized revisions *)

Definition shape (revision : ConnectivityRevision) : ConnectivityRevision := sortRevision (defaultMode (cloneJSON revision)).

(** What is checked of a revision in its final shape. *)
Definition RevisionOk (n : ConnectivityRevision) : Prop :=
  Revision_SchemaVersion n = ConnectivityRevisionSchemaVersion ∧
  validRevisionDigest (BasePlanDigest n) = true ∧ validRevisionDigest (DesiredPlanDigest n) = true ∧
  (MaximumMode n = LinkApplyLive ∨ MaximumMode n = LinkApplyRestart) ∧
  ∃ ids iids waited, rfold inputIDStep ∅ (Revision_InputInterfaces n) = Ok ids ∧
    rfold (interfaceIDStep ids) ∅ (Revision_Interfaces n) = Ok iids ∧ size ids = size iids ∧
    rfold (waitedStep iids) ∅ (Revision_Actions n) = Ok waited ∧ size waited = size iids.

Lemma defaultMode_other revision :
  Revision_SchemaVersion (defaultMode revision) = Revision_SchemaVersion revision ∧
  BasePlanDigest (defaultMode revision) = BasePlanDigest revision ∧
  DesiredPlanDigest (defaultMode revision) = DesiredPlanDigest revision.
Proof. unfold defaultMode. by destruct (empty _). Qed.

Lemma normalizeRevision_Ok revision n :
  normalizeConnectivityRevision revision = Ok n ↔ n = shape revision ∧ RevisionOk n.
Proof.
  unfold normalizeConnectivityRevision, RevisionOk. fold (shape revision).
  destruct (defaultMode_other (cloneJSON revision)) as (D1 & D2 & D3).
  change (Revision_SchemaVersion (defaultMode (cloneJSON revision))) with (Revision_SchemaVersion (shape revision)) in D1.
  change (BasePlanDigest (defaultMode (cloneJSON revision))) with (BasePlanDigest (shape revision)) in D2.
  change (DesiredPlanDigest (defaultMode (cloneJSON revision))) with (DesiredPlanDigest (shape revision)) in D3.
  change (MaximumMode (defaultMode (cloneJSON revision))) with (MaximumMode (shape revision)).
  rewrite <- D1, <- D2, <- D3. split.
  - intros H. apply seq_Ok in H as [H1%refuseRevision_Ok H]. apply seq_Ok in H as [H2%refuseRevision_Ok H].
    apply let_Ok in H as (ids & H3 & H). apply let_Ok in H as (iids & H4 & H). apply seq_Ok in H as [H5%refuseRevision_Ok H].
    apply let_Ok in H as (waited & H6 & H). apply seq_Ok in H as [H7%refuseRevision_Ok [= <-]].
    checks_in H1. checks_in H2. checks_in H5. checks_in H7. split; [done|]. split_and!; try tauto. by exists ids, iids, waited.
  - intros (-> & R1 & R2 & R3 & R4 & ids & iids & waited & R5 & R6 & R7 & R8 & R9).
    rewrite R1, R2, R3, R5. rewrite (bool_decide_eq_true_2 (ConnectivityRevisionSchemaVersion = _)) by done. cbn [negb orb].
    assert (negb (bool_decide (MaximumMode (shape revision) = LinkApplyLive))
      && negb (bool_decide (MaximumMode (shape revision) = LinkApplyRestart)) = false) as -> by (checks; tauto).
    cbn -[shape]. rewrite R6. cbn -[shape]. rewrite R7, bool_decide_eq_true_2 by done. cbn -[shape]. rewrite R8.
    cbn -[shape]. by rewrite R9, bool_decide_eq_true_2.
Qed.

Lemma waited_actions iids actions s s' :
  rfold (waitedStep iids) s actions = Ok s' → Forall (λ action, isConnectivityWaitAction action = true) actions.
Proof.
  revert s. induction actions as [|x xs IH]; intros s; cbn [rfold]; [constructor|].
  destruct (waitedStep iids s x) as [s1|] eqn:E; cbn; [|done]. intros H. constructor; [|by eapply IH].
  unfold waitedStep in E. apply seq_Ok in E as [E%refuseRevision_Ok _]. checks_in E. tauto.
Qed.

Lemma copied_shape revision : copied (shape revision).
Proof.
  unfold shape. assert (copied (defaultMode (cloneJSON revision))) as Hd.
  { unfold copied, defaultMode. destruct revision. cbn -[cloneJSON]. destruct (empty _);
      unfold cloneJSON, ConnectivityRevision_clone; cbn -[cloneJSON]; by rewrite !clone_idem. }
  revert Hd. generalize (defaultMode (cloneJSON revision)). intros [] H. copied_fields H.
Qed.

Lemma normalized_revision revision n :
  normalizeConnectivityRevision revision = Ok n →
  copied n ∧ Forall (λ action, isConnectivityWaitAction action = true) (Revision_Actions n) ∧ RevisionOk n ∧ n = shape revision.
Proof.
  intros [-> Hok]%normalizeRevision_Ok. split_and!; [apply copied_shape| |done..].
  destruct Hok as (_ & _ & _ & _ & ids & iids & waited & _ & _ & _ & Hw & _). by eapply waited_actions.
Qed.

(** A revision only changes connectivity, and never more disruptively than it declares.
    When a Pod accepts a revision of its plan, the resulting input and plan are those it was
    started with except for the interfaces, the waits for them and the input digest, which is
    that of the new input; every other action is kept.  Each interface of a link that the
    revision touches, before or after, declares a mode no more disruptive than the one of the
    revision, which is Live or Restart: nothing that must be recreated is touched. *)
Theorem revision_confined baseInput basePlan revision input plan :
  ApplyConnectivityRevision baseInput basePlan revision = Ok (input, plan) → unambiguous (copyOf basePlan) →
  ∃ normal bi bp, normalizeConnectivityRevision revision = Ok normal ∧ NormalizeInput baseInput = Ok bi ∧
    NormalizePlan basePlan = Ok bp ∧
    input = bi <| Input_Interfaces := Input_Interfaces input |> ∧
    plan = bp <| Plan_InputDigest := Plan_InputDigest plan |> <| Plan_Interfaces := Plan_Interfaces plan |>
              <| Plan_Actions := Plan_Actions plan |> ∧
    InputDigest input = Ok (Plan_InputDigest plan) ∧
    filter (λ action, isConnectivityWaitAction action = false) (Plan_Actions plan)
      ≡ₚ filter (λ action, isConnectivityWaitAction action = false) (Plan_Actions bp) ∧
    (∀ intf, intf ∈ Plan_Interfaces bp ++ Plan_Interfaces plan → affectedLink bi bp input plan (InterfacePlan_LinkID intf) →
       linkApplyModeRank (InterfacePlan_LinkApplyMode intf) ≤ linkApplyModeRank (MaximumMode normal)).
Proof.
  intros (normal & bi & bp & Hr & Hi & Hp & Hm)%Apply_Ok Hu. exists normal, bi, bp. split_and!; [done..| | | | |].
  all: destruct (merge_Ok _ _ _ _ Hm) as (_ & _ & Hproj & _ & Hid & Hmode); cbn [fst snd] in *;
    destruct (projection_Ok _ _ _ _ _ _ Hproj) as (digest & Hni & Hd & Hnp); cbn [fst snd] in *;
    pose proof (NormalizePlan_idem _ _ Hp Hu) as Hpi; pose proof (NormalizeInput_idem _ _ Hi) as Hii;
    pose proof (replaced_connectivity _ _ _ _ _ Hpi Hnp) as Hplan;
    pose proof (replaced_interfaces _ _ _ Hii Hni) as Hinput.
  - rewrite Hinput. by destruct bi.
  - rewrite Hplan. by destruct bp.
  - apply validateIdentity_digest in Hid as (ni & np & digest' & Hi' & Hp' & Hd' & Heq).
    rewrite (NormalizeInput_idem _ _ Hni) in Hi'. injection Hi' as <-. rewrite Hd in Hd'. injection Hd' as <-.
    apply NormalizePlan_Ok in Hp' as [_ ->]. rewrite Hd. f_equal. rewrite <- Heq at 1.
    destruct (normal_plan_facts _ _ Hnp) as (_ & Hc & _). exact (f_equal Plan_InputDigest Hc).
  - pose proof (normal_plan_facts _ _ Hp) as (_ & [_ Ha]%copied_plan_fields & _).
    destruct (normalized_revision _ _ Hr) as (Hcr & Hw & _). rewrite Hplan. cbn -[cloneJSON]. rewrite SortFunc_perm.
    assert (copied (filter (λ action, isConnectivityWaitAction action = false) (Plan_Actions bp) ++ Revision_Actions normal)) as ->
      by (apply copied_app; [by apply copied_filter|exact (f_equal Revision_Actions Hcr)]).
    rewrite filter_app, filter_twice, (list_filter_none _ (Revision_Actions normal)), app_nil_r; [done|].
    intros x Hx. rewrite list.Forall_forall in Hw. by rewrite (Hw _ Hx).
  - intros intf Hin Ha. rewrite <- Hmode. by apply (transition_spec bi bp input plan).
Qed.

(** ** From the controller to the Pod *)

(** The identities in a revision are those of its entries. *)
Definition distinctEntries (revision : ConnectivityRevision) : Prop :=
  NoDup (InterfaceInput_ID <$> Revision_InputInterfaces revision) ∧
  NoDup (InterfacePlan_ID <$> Revision_Interfaces revision) ∧
  NoDup (Action_ID <$> Revision_Actions revision).

Lemma clone_entries revision :
  Revision_InputInterfaces (cloneJSON revision) = cloneJSON (Revision_InputInterfaces revision) ∧
  Revision_Interfaces (cloneJSON revision) = cloneJSON (Revision_Interfaces revision) ∧
  Revision_Actions (cloneJSON revision) = cloneJSON (Revision_Actions revision).
Proof. by destruct revision. Qed.

Lemma shape_entries revision :
  Revision_InputInterfaces (shape revision) = SortFunc (onKey InterfaceInput_ID Compare) (cloneJSON (Revision_InputInterfaces revision)) ∧
  Revision_Interfaces (shape revision) = SortFunc (onKey InterfacePlan_ID Compare) (cloneJSON (Revision_Interfaces revision)) ∧
  Revision_Actions (shape revision) = SortFunc (onKey Action_ID Compare) (cloneJSON (Revision_Actions revision)).
Proof. unfold shape, defaultMode. by destruct (empty _), revision. Qed.

Lemma rank_nonneg mode : 0 ≤ linkApplyModeRank mode.
Proof. unfold linkApplyModeRank. repeat case_bool_decide; lia. Qed.

(** Normalization does not make a mode more disruptive. *)
Lemma normalized_rank revision n :
  RevisionOk n → n = shape revision → linkApplyModeRank (MaximumMode n) ≤ linkApplyModeRank (MaximumMode revision).
Proof.
  intros (_ & _ & _ & Hm & _) ->. destruct Hm as [Hm|Hm]; rewrite Hm; [apply rank_nonneg|].
  assert (MaximumMode revision ≠ LinkApplyLive) as Hlive.
  { intros E. revert Hm. unfold shape, defaultMode. destruct revision. cbn in *. by subst. }
  unfold linkApplyModeRank. rewrite (bool_decide_eq_false_2 (MaximumMode revision = _)) by done. repeat case_bool_decide; done.
Qed.

Lemma shape_idem revision :
  RevisionOk (shape revision) → distinctEntries (cloneJSON revision) → shape (shape revision) = shape revision.
Proof.
  intros (_ & _ & _ & Hm & _) (H1 & H2 & H3). unfold shape at 1. rewrite (copied_shape revision : cloneJSON _ = _).
  assert (defaultMode (shape revision) = shape revision) as ->.
  { unfold defaultMode. destruct (empty (MaximumMode (shape revision))) eqn:E; [|done].
    apply empty_true in E. rewrite E in Hm. by destruct Hm. }
  unfold shape. set (d := defaultMode (cloneJSON revision)).
  assert (Revision_InputInterfaces d = Revision_InputInterfaces (cloneJSON revision) ∧
    Revision_Interfaces d = Revision_Interfaces (cloneJSON revision) ∧
    Revision_Actions d = Revision_Actions (cloneJSON revision)) as (D1 & D2 & D3)
    by (unfold d, defaultMode; by destruct (empty _)).
  rewrite <- D1 in H1. rewrite <- D2 in H2. rewrite <- D3 in H3. clearbody d. clear - H1 H2 H3. destruct d.
  unfold sortRevision. cbn in *. rewrite !SortFunc_idem by (auto with weak_orders; by apply no_ties_key). reflexivity.
Qed.

Lemma normalizeRevision_idem revision n :
  normalizeConnectivityRevision revision = Ok n → distinctEntries (cloneJSON revision) → normalizeConnectivityRevision n = Ok n.
Proof.
  intros [-> Hok]%normalizeRevision_Ok Hd. apply normalizeRevision_Ok. split; [|done]. symmetry. by apply shape_idem.
Qed.

(** A stored revision is read back in normal form. *)
Lemma revision_stored {revisionJSON : RevisionJSON} revision raw :
  RevisionCanonicalJSON revision = Ok raw → distinctEntries (cloneJSON revision) →
  ∃ n, normalizeConnectivityRevision revision = Ok n ∧ DecodeConnectivityRevision raw = Ok n.
Proof.
  unfold RevisionCanonicalJSON, DecodeConnectivityRevision. intros H Hd. apply let_Ok in H as (n & Hn & H).
  apply seq_Ok in H as [Hs%refuseRevision_Ok [= <-]]. exists n. split; [done|].
  assert (empty (marshalRevision n) = false) as ->
    by (destruct (empty _) eqn:E; [by apply empty_true, marshal_nonempty in E|done]).
  rewrite Hs, revision_json. cbn [orb refuseRevision rbind].
  destruct (normalized_revision _ _ Hn) as (Hc & _). rewrite (Hc : cloneJSON n = n). by eapply normalizeRevision_idem.
Qed.

Lemma transition_sides bi0 bp0 di0 dp0 bi bp di dp :
  normalizedTransition bi0 bp0 di0 dp0 = Ok (bi, bp, di, dp) →
  NormalizeInput bi0 = Ok bi ∧ NormalizePlan bp0 = Ok bp ∧ NormalizeInput di0 = Ok di ∧ NormalizePlan dp0 = Ok dp ∧
  bi <| Input_Interfaces := [] |> = di <| Input_Interfaces := [] |>.
Proof.
  unfold normalizedTransition. intros H. apply let_Ok in H as (bi' & H1%planned_Ok & H).
  apply let_Ok in H as (bp' & H2%planned_Ok & H). apply seq_Ok in H as [_ H]. apply let_Ok in H as (di' & H3%planned_Ok & H).
  apply let_Ok in H as (dp' & H4%planned_Ok & H). apply seq_Ok in H as [_ H]. apply seq_Ok in H as [H5%refuseRevision_Ok H].
  apply seq_Ok in H as [_ [= -> -> -> ->]]. unfold sameNonConnectivityInput in H5. checks_in H5. done.
Qed.

(** What the controller computes for a revision. *)
Lemma New_Ok bi0 bp0 di0 dp0 mode revision :
  NewConnectivityRevisionForMode bi0 bp0 di0 dp0 mode = Ok revision →
  ∃ bi bp di dp out, normalizedTransition bi0 bp0 di0 dp0 = Ok (bi, bp, di, dp) ∧
    Revision_InputInterfaces revision = Input_Interfaces di ∧ Revision_Interfaces revision = Plan_Interfaces dp ∧
    Revision_Actions revision = connectivityWaitActions (Plan_Actions dp) ∧
    linkApplyModeRank (MaximumMode revision) ≤ linkApplyModeRank mode ∧
    PlanDigest bp = Ok (BasePlanDigest revision) ∧ ApplyConnectivityRevision bi bp revision = Ok out.
Proof.
  unfold NewConnectivityRevisionForMode. intros H. apply seq_Ok in H as [_ H]. apply let_Ok in H as ([[[bi bp] di] dp] & H1 & H).
  apply let_Ok in H as (base & H0%planned_Ok & H). apply let_Ok in H as (effective & _ & H).
  apply seq_Ok in H as [H2%refuseRevision_Ok H]. apply let_Ok in H as (desired & _ & H).
  apply let_Ok in H as (out & H3 & [= <-]). exists bi, bp, di, dp, out. cbn in *. split_and!; try done. lia.
Qed.

Lemma distinct_desired di0 di dp0 dp revision :
  NormalizeInput di0 = Ok di → NormalizePlan dp0 = Ok dp →
  Revision_InputInterfaces revision = Input_Interfaces di → Revision_Interfaces revision = Plan_Interfaces dp →
  Revision_Actions revision = connectivityWaitActions (Plan_Actions dp) →
  copied (Input_Interfaces di) ∧ copied (Plan_Interfaces dp) ∧ copied (connectivityWaitActions (Plan_Actions dp)) ∧
  distinctEntries (cloneJSON revision).
Proof.
  intros Hi%normal_input_facts Hp%normal_plan_facts E1 E2 E3. destruct Hi as (Hiok & Hic & _), Hp as (Hpok & Hpc & _).
  destruct (copied_plan_fields _ Hpc) as [Hc2 Hc3].
  assert (copied (Input_Interfaces di)) as Hc1.
  { clear - Hic. destruct di. unfold cloneInput in Hic. cbn -[cloneJSON] in *. destruct (mapM cloneNodeInput _); [|done].
    cbn -[cloneJSON] in Hic. unfold copied. congruence. }
  assert (copied (connectivityWaitActions (Plan_Actions dp))) as Hc4 by by apply copied_filter.
  split_and!; [done..|]. unfold distinctEntries.
  destruct (clone_entries revision) as (-> & -> & ->). rewrite E1, E2, E3.
  rewrite (Hc1 : cloneJSON _ = _), (Hc2 : cloneJSON _ = _), (Hc4 : cloneJSON _ = _). split_and!.
  - apply (in_interfaces _ Hiok).
  - apply (plan_interfaces _ Hpok).
  - apply (NoDup_fmap_filter Action_ID), (plan_actions _ Hpok).
Qed.

Lemma sorted_again {A} (key : A → string) (l : list A) :
  NoDup (key <$> l) → SortFunc (onKey key Compare) (SortFunc (onKey key Compare) l) = SortFunc (onKey key Compare) l.
Proof. intros. apply SortFunc_idem; [auto with weak_orders|by apply no_ties_key]. Qed.

(** The merge of what the controller computed has the desired input and interfaces. *)
Lemma merged_desired bi bp di0 di dp0 dp revision n out :
  NormalizeInput bi = Ok bi → NormalizePlan bp = Ok bp → NormalizeInput di0 = Ok di → NormalizePlan dp0 = Ok dp →
  bi <| Input_Interfaces := [] |> = di <| Input_Interfaces := [] |> →
  Revision_InputInterfaces revision = Input_Interfaces di → Revision_Interfaces revision = Plan_Interfaces dp →
  Revision_Actions revision = connectivityWaitActions (Plan_Actions dp) →
  normalizeConnectivityRevision revision = Ok n → mergeRevision bi bp n = Ok out →
  out.1 = di ∧ Plan_Interfaces out.2 = Plan_Interfaces dp ∧
  connectivityWaitActions (Plan_Actions out.2) ≡ₚ connectivityWaitActions (Plan_Actions dp).
Proof.
  intros Hbi Hbp Hdi Hdp Hsame E1 E2 E3 Hn (_ & _ & Hproj & _)%merge_Ok.
  destruct (distinct_desired _ _ _ _ _ Hdi Hdp E1 E2 E3) as (C1 & C2 & C3 & _).
  pose proof (normal_input_facts _ _ Hdi) as (_ & _ & S1). pose proof (normal_plan_facts _ _ Hdp) as (_ & _ & S2).
  destruct (projection_Ok _ _ _ _ _ _ Hproj) as (digest & Hni & _ & Hnp).
  pose proof (replaced_interfaces _ _ _ Hbi Hni) as ->. pose proof (replaced_connectivity _ _ _ _ _ Hbp Hnp) as ->. clear Hni Hnp Hproj.
  destruct (normalized_revision _ _ Hn) as (Hcn & Hw & _ & ->).
  destruct (shape_entries revision) as (F1 & F2 & F3). rewrite E1, (C1 : cloneJSON _ = _), S1 in F1.
  rewrite E2, (C2 : cloneJSON _ = _), S2 in F2. rewrite E3, (C3 : cloneJSON _ = _) in F3. cbn [fst snd].
  rewrite F1, F2, (C1 : cloneJSON _ = _), S1. split_and!.
  - apply (f_equal (λ i : Input, i <| Input_Interfaces := Input_Interfaces di |>)) in Hsame. destruct bi, di. exact Hsame.
  - destruct bp. cbn -[cloneJSON]. by rewrite (C2 : cloneJSON _ = _).
  - pose proof (normal_plan_facts _ _ Hbp) as (_ & [_ Ha]%copied_plan_fields & _). unfold connectivityWaitActions.
    destruct bp. cbn -[cloneJSON shape] in *. rewrite SortFunc_perm.
    rewrite (copied_app _ _ (copied_filter _ _ Ha) (f_equal Revision_Actions Hcn) : cloneJSON _ = _).
    rewrite filter_app, F3, SortFunc_perm. unfold connectivityWaitActions. rewrite filter_twice, list_filter_none; [done|].
    intros x [Hx _]%list_elem_of_filter. by rewrite Hx.
Qed.

Context {revisionJSON : RevisionJSON}.

(** What becomes of a revision the controller builds. *)
Lemma built_revision bi0 bp0 di0 dp0 mode revision raw :
  NewConnectivityRevisionForMode bi0 bp0 di0 dp0 mode = Ok revision → RevisionCanonicalJSON revision = Ok raw →
  unambiguous (copyOf bp0) →
  ∃ received bi bp di dp plan, DecodeConnectivityRevision raw = Ok received ∧
    normalizeConnectivityRevision received = Ok received ∧
    NormalizeInput bi0 = Ok bi ∧ NormalizePlan bp0 = Ok bp ∧ NormalizeInput di0 = Ok di ∧ NormalizePlan dp0 = Ok dp ∧
    PlanDigest bp = Ok (BasePlanDigest revision) ∧
    mergeRevision bi bp received = Ok (di, plan) ∧ Plan_Interfaces plan = Plan_Interfaces dp ∧
    connectivityWaitActions (Plan_Actions plan) ≡ₚ connectivityWaitActions (Plan_Actions dp) ∧
    linkApplyModeRank (MaximumMode received) ≤ linkApplyModeRank mode.
Proof.
  intros (bi & bp & di & dp & [input plan] & Hs & E1 & E2 & E3 & Hmode & Hbase & Ha)%New_Ok Hraw Hu.
  apply transition_sides in Hs as (Hbi & Hbp & Hdi & Hdp & Hsame).
  destruct (distinct_desired _ _ _ _ _ Hdi Hdp E1 E2 E3) as (_ & _ & _ & Hdist).
  destruct (revision_stored _ _ Hraw Hdist) as (n & Hn & Hdec).
  pose proof (normalizeRevision_idem _ _ Hn Hdist) as Hnn.
  pose proof (NormalizeInput_idem _ _ Hbi) as Hbi'. pose proof (NormalizePlan_idem _ _ Hbp Hu) as Hbp'.
  apply Apply_Ok in Ha as (n' & bi' & bp' & Hn' & Hi' & Hp' & Hm).
  rewrite Hn in Hn'. rewrite Hbi' in Hi'. rewrite Hbp' in Hp'. injection Hn' as <-. injection Hi' as <-. injection Hp' as <-.
  destruct (merged_desired _ _ _ _ _ _ _ _ _ Hbi' Hbp' Hdi Hdp Hsame E1 E2 E3 Hn Hm) as (M1 & M2 & M3). cbn [fst snd] in *. subst input.
  exists n, bi, bp, di, dp, plan. split_and!; try done.
  destruct (normalized_revision _ _ Hn) as (_ & _ & Hok & Heq). etransitivity; [|exact Hmode]. by apply normalized_rank.
Qed.

(** C23: A revision the controller builds reaches the Pod.  Stored as JSON, it is read back and
    the Pod, merging it into the plan it runs, accepts it: the Pod ends up with exactly the
    desired input, the desired interfaces and the desired waits, the plan has the digest the
    controller announced, and the mode it declares is within the mode the controller allowed.
    The plan the Pod runs is [unambiguous]: no two devices of a container have the same paths
    but different permissions, and no two port mappings the same port but different targets. *)
Theorem revision_delivered bi0 bp0 di0 dp0 mode revision raw :
  NewConnectivityRevisionForMode bi0 bp0 di0 dp0 mode = Ok revision → RevisionCanonicalJSON revision = Ok raw →
  unambiguous (copyOf bp0) →
  ∃ received di dp plan, DecodeConnectivityRevision raw = Ok received ∧ NormalizeInput di0 = Ok di ∧ NormalizePlan dp0 = Ok dp ∧
    ApplyConnectivityRevision bi0 bp0 received = Ok (di, plan) ∧
    PlanDigest plan = Ok (DesiredPlanDigest received) ∧ Plan_Interfaces plan = Plan_Interfaces dp ∧
    connectivityWaitActions (Plan_Actions plan) ≡ₚ connectivityWaitActions (Plan_Actions dp) ∧
    linkApplyModeRank (MaximumMode received) ≤ linkApplyModeRank mode.
Proof.
  intros Hnew Hraw Hu.
  destruct (built_revision _ _ _ _ _ _ _ Hnew Hraw Hu) as (n & bi & bp & di & dp & plan & Hdec & Hnn & Hbi & Hbp & Hdi & Hdp & _ & Hm & H).
  exists n, di, dp, plan. split_and!; [done|done|done| |by destruct (merge_Ok _ _ _ _ Hm) as (_ & _ & _ & ? & _)|apply H..].
  apply Apply_Ok. by exists n, bi, bp.
Qed.
End revisions.

(** ** Connectivity revisions: a concrete Pod

    The theorems above for a Pod of one Node whose wire gets another
    identifier while a second interface is added. *)

#[local] Existing Instance example_sha.
#[local] Existing Instance insertion_sort.
#[local] Existing Instance sample_text.
#[local] Instance podQuote : FmtQuote := λ s, s.

(** *** A serialization that gives the documents of the example short names *)

Section named.
Context {A : Type} `{Countable A} (names : list A).

Definition writeNamed (x : A) : string :=
  match list_find (x =.) names with
  | Some (i, _) => String (char 110) (digitsOf (Pos.of_succ_nat i))
  | None => String (char 100) (digitsOf (encode x))
  end.
Definition readNamed (s : string) : option A :=
  match s with
  | String c rest =>
      number ← ofDigits rest;
      if bool_decide (c = char 110) then names !! pred (Pos.to_nat number) else decode number
  | "" => None
  end.

Lemma readNamed_writeNamed x : readNamed (writeNamed x) = Some x.
Proof.
  unfold writeNamed, readNamed. destruct (list_find (x =.) names) as [[i y]|] eqn:E.
  all: pose proof ofDigits_digitsOf as Hd.
  - cbn -[ofDigits digitsOf Pos.of_succ_nat]. rewrite Hd. cbn -[Pos.to_nat]. apply list_find_Some in E as (Hi & -> & _). by rewrite SuccNat2Pos.id_succ.
  - cbn -[ofDigits digitsOf]. rewrite Hd. apply decode_encode.
Qed.
End named.

(** *** The Pod and its interfaces *)

Definition podInput (interfaces : list InterfaceInput) : Input :=
  MkInput SchemaVersion "lab" (MkCompatibility "containerlab" "v0.70" zeroDigest SchemaVersion) "" [leaf]
    [sampleImage []] [] [] [] interfaces.
Definition podInterface (id name link : string) (wire : Z) : InterfaceInput :=
  MkInterfaceInput id "uid-1" name link "" "" "" "" ConnectivityWire wire 1500.
Definition plannedInterface (supplied : InterfaceInput) (mode : string) : InterfacePlan :=
  MkInterfacePlan (InterfaceInput_ID supplied) "uid-1" "c1" (InterfaceInput_Name supplied) "" (InterfaceInput_LinkID supplied)
    "" "" "" "" ConnectivityWire (InterfaceInput_WireID supplied) 1500 mode true.
Definition waitFor (supplied : InterfaceInput) : Action :=
  MkAction ("wait-" +:+ InterfaceInput_ID supplied) PhasePreStart 0 (MkActionTarget "uid-1" "c1" "") ActionWaitInterface
    None None None None None (Some (MkWaitInterfaceAction (InterfaceInput_ID supplied) 30)) None None None None None None.

Definition runningInput : Input := podInput [podInterface "i1" "eth1" "l1" 7].
Definition wantedInput : Input := podInput [podInterface "i2" "eth2" "l2" 9; podInterface "i1" "eth1" "l1" 8].
#[local] Program Instance inputNames : InputJSON := {|
  marshalInput := writeNamed (normalInput <$> [runningInput; wantedInput]);
  decodeStrictInput s := readNamed (normalInput <$> [runningInput; wantedInput]) s ≫= cloneInput
|}.
Next Obligation. intros input copy H. cbn -[readNamed writeNamed]. by rewrite readNamed_writeNamed. Qed.

(** The plan for an input: it carries the digest of the input. *)
Definition podPlan (input : Input) (mode : string) : Plan :=
  MkPlan SchemaVersion (MkCompatibility "containerlab" "v0.70" zeroDigest SchemaVersion) (okOr "" (InputDigest input))
    (MkPlannerIdentity "clabernetes" "1")
    [MkNodePlan "uid-1" "leaf" "linux" "" "" [] ["c1"] ["c1"] "c1" false] [exampleContainer []] []
    [MkVolumePlan "v1" "uid-1" VolumeEmptyDir "" "" "Memory"] [MkMountPlan "m1" "c1" "v1" "" "/run/lab" false ""]
    (late :: (waitFor <$> Input_Interfaces input))
    [MkManagementPlan "g1" "uid-1" "" ManagementInterfacePodTransport "" "" "" "" [] noDNS None]
    ((λ supplied, plannedInterface supplied mode) <$> Input_Interfaces input).

Definition runningPlan : Plan := podPlan runningInput LinkApplyRestart.
Definition wantedPlan : Plan := podPlan wantedInput LinkApplyRestart.
#[local] Program Instance planNames : PlanJSON := {|
  marshalPlan := writeNamed (normalOf <$> [runningPlan; wantedPlan]);
  decodeStrictPlan s := cloneJSON <$> readNamed (normalOf <$> [runningPlan; wantedPlan]) s
|}.
Next Obligation. intros plan. cbn -[readNamed writeNamed]. by rewrite readNamed_writeNamed. Qed.

Definition podRevision : result connectivityError ConnectivityRevision :=
  NewConnectivityRevisionForMode runningInput runningPlan wantedInput wantedPlan LinkApplyRestart.
Definition noRevision : ConnectivityRevision := MkConnectivityRevision "" "" "" "" [] [] [].
Definition theRevision : ConnectivityRevision := okOr noRevision podRevision.

#[local] Instance ConnectivityRevision_countable : Countable ConnectivityRevision :=
  inj_countable'
    (λ r, (Revision_SchemaVersion r, BasePlanDigest r, DesiredPlanDigest r, MaximumMode r, Revision_InputInterfaces r,
     Revision_Interfaces r, Revision_Actions r))
    (λ '(x0, x1, x2, x3, x4, x5, x6), MkConnectivityRevision x0 x1 x2 x3 x4 x5 x6)
    ltac:(by intros []).
#[local] Program Instance revisionNames : RevisionJSON := {|
  marshalRevision := writeNamed [theRevision];
  decodeStrictRevision s := cloneJSON <$> readNamed [theRevision] s
|}.
Next Obligation. intros revision. cbn -[readNamed writeNamed]. by rewrite readNamed_writeNamed. Qed.
Next Obligation. intros revision. unfold writeNamed. by destruct (list_find _ _) as [[]|]. Qed.

Lemma known {A E} (r : result E A) x y : r = Ok x → r = Ok y → x = y.
Proof. congruence. Qed.

Lemma running_unambiguous : unambiguous (copyOf runningPlan).
Proof. split; apply list.Forall_singleton; [by intros ? ? ?%elem_of_nil|done]. Qed.

Lemma revision_delivered_witness :
  ∃ plan, ApplyConnectivityRevision runningInput runningPlan theRevision = Ok (normalInput wantedInput, plan) ∧
    InterfacePlan_WireID <$> Plan_Interfaces plan = [8; 9].
Proof.
  destruct (revision_delivered runningInput runningPlan wantedInput wantedPlan LinkApplyRestart theRevision
    (marshalRevision theRevision)) as (received & di & dp & plan & H1 & H2 & H3 & H4 & _ & H5 & _).
  - vm_compute. reflexivity.
  - vm_compute. reflexivity.
  - apply running_unambiguous.
  - exists plan. rewrite H5. replace received with theRevision in H4 by (eapply known; [|exact H1]; vm_compute; reflexivity).
    replace di with (normalInput wantedInput) in H4 by (eapply known; [|exact H2]; vm_compute; reflexivity).
    split; [exact H4|]. replace dp with (normalOf wantedPlan) by (eapply known; [|exact H3]; vm_compute; reflexivity).
    vm_compute. reflexivity.
Defined.

Lemma revision_confined_witness :
  ∃ plan, ApplyConnectivityRevision runningInput runningPlan theRevision = Ok (normalInput wantedInput, plan) ∧
    filter (λ action, isConnectivityWaitAction action = false) (Plan_Actions plan) ≡ₚ [late].
Proof.
  set (plan := (okOr (runningInput, runningPlan) (ApplyConnectivityRevision runningInput runningPlan theRevision)).2).
  assert (ApplyConnectivityRevision runningInput runningPlan theRevision = Ok (normalInput wantedInput, plan)) as Ha
    by (vm_compute; reflexivity).
  destruct (revision_confined _ _ _ _ _ Ha running_unambiguous) as (normal & bi & bp & _ & _ & Hp & _ & _ & _ & Hf & _).
  exists plan. split; [exact Ha|]. rewrite Hf.
  replace bp with (normalOf runningPlan) by (eapply known; [|exact Hp]; vm_compute; reflexivity).
  vm_compute. reflexivity.
Defined.
