(* ===== verification/PlanInput.v ===== *)
(** * The planning input of a Pod

    Models [controllers/node/planinput.go]: from the Nodes of a Pod group and the Links that
    the Link controller accepted, the input a plan is made for, and that the two ends of a
    wire, planned in different Pods, fit together. *)

From S2P Require Import Prelude WireCodec Api GoStrings GoNet GoSort DevicePlanTypes Management ManagementTheorems.
From S2P Require Import PeerDirectory Hosts NameResolution.
From S2P Require Import PlanValidation PlanSpec PlanAcceptance PlanCodec PlanCanonical PlanTheorems.
From S2P Require Import PlanExamples InputCodec InputSpec InputTheorems.
Local Open Scope Z_scope.

Definition connectivitySamePod : string := "same-pod".
Definition connectivityLoopback : string := "loopback".
Definition connectivityHost : string := "host".
Definition connectivityWire : string := "wire".
Definition controllerInputBehavior : string := "controller-input".
Definition fabricServiceSuffix : string := "-wire".
Definition FabricServiceName (nodeName : string) : string := nodeName +:+ fabricServiceSuffix.

(** What planning reads of a Node; its definition as [json.Marshal] writes it, if it can. *)
Record PlanNode := MkPlanNode {
  PlanNode_Name : string;
  PlanNode_Namespace : string;
  PlanNode_UID : string;
  PlanNode_Labels : gmap string string;
  PlanNode_Kind : string;
  PlanNode_Type : string;
  PlanNode_Definition : option string
}.

Record PlanInputCompileRequest := MkPlanInputCompileRequest {
  Request_Primary : option PlanNode;
  Request_GroupMembers : list string;
  Request_NodesByName : gmap string PlanNode;
  Request_Links : list Link;
  Request_Compatibility : Compatibility;
  Request_EntropyDigest : string;
  Request_Images : list ImageInput;
  Request_Payloads : list PayloadInput;
  Request_Certificates : list CertificateInput;
  Request_Management : list ManagementInput
}.

Definition planInputError (code field message : string) : PlanError :=
  MkPlanError code "" field controllerInputBehavior message.
Definition refuseInput (condition : bool) (code field message : string) : result PlanError unit :=
  if condition then Err (planInputError code field message) else Ok ().

(** [slices.Compact]: one of each run of equal elements. *)
Fixpoint Compact (l : list string) : list string :=
  match l with
  | [] => []
  | x :: l =>
      match Compact l with
      | y :: k => if bool_decide (x = y) then y :: k else x :: y :: k
      | [] => [x]
      end
  end.

(** [meta.IsStatusConditionTrue] of [apimachinery]. *)
Class ConditionReader : Type := IsStatusConditionTrue : list Condition → string → bool.

(** ** Endpoints *)

Definition validateResolvedEndpoint (link : Link) (endpoint : LinkEndpointSpec) (resolved : LinkResolvedEndpointStatus)
    (nodesByName : gmap string PlanNode) : result PlanError unit :=
  let field := "links." +:+ LinkName link +:+ ".status.resolvedEndpoints" in
  refuseInput (negb (bool_decide (ResolvedNodeName resolved = NodeName endpoint))) ErrorInvariant field
    "Link status names a stale endpoint" ;;?
  if bool_decide (NodeName endpoint = LinkHostNodeName) then
    refuseInput (negb (empty (ResolvedUID resolved))) ErrorInvariant field "host endpoint unexpectedly has a Node UID"
  else
    refuseInput (empty (ResolvedUID resolved)) ErrorMissingInput field "Link endpoint UID is unresolved" ;;?
    refuseInput (match nodesByName !! NodeName endpoint with
                 | Some current => negb (bool_decide (PlanNode_UID current = ResolvedUID resolved))
                 | None => false
                 end) ErrorInvariant field "Link endpoint UID is stale".

Definition interfaceConnectivity (endpoint peer : LinkEndpointSpec) (members : gmap string PlanNode) : string :=
  if bool_decide (NodeName peer = LinkHostNodeName) then connectivityHost
  else if bool_decide (NodeName endpoint = NodeName peer) then connectivityLoopback
  else if known members (NodeName peer) then connectivitySamePod
  else connectivityWire.

(** One side of a link: its endpoint with what the status resolved, and the letter of its id. *)
Definition side : Type := LinkEndpointSpec * LinkResolvedEndpointStatus * string.
Definition sideInput (members : gmap string PlanNode) (memberIDs : gmap string string) (link : Link) (this peer : side) :
    option InterfaceInput :=
  let '(endpoint, _, letter) := this in
  let '(peerEndpoint, peerResolved, _) := peer in
  member ← members !! NodeName endpoint;
  let connectivity := interfaceConnectivity endpoint peerEndpoint members in
  Some (MkInterfaceInput (LinkUID link +:+ "/" +:+ letter) (default "" (memberIDs !! PlanNode_Name member))
          (InterfaceName endpoint) (LinkUID link) (LinkName link)
          (if bool_decide (NodeName peerEndpoint = LinkHostNodeName) then "" else ResolvedUID peerResolved)
          (InterfaceName peerEndpoint)
          (if bool_decide (connectivity = connectivityWire) then FabricServiceName (NodeName peerEndpoint) else "")
          connectivity (WireID (Status link)) (LinkMTU link)).

Section compile.
Context {conditions : ConditionReader} {sort : GoSort} {text : JSONText}.

Definition sideStep (nodesByName members : gmap string PlanNode) (memberIDs : gmap string string) (link : Link)
    (interfaces : list InterfaceInput) (sides : side * side) : result PlanError (list InterfaceInput) :=
  let '(endpoint, resolved, _) := sides.1 in
  validateResolvedEndpoint link endpoint resolved nodesByName ;;?
  match sideInput members memberIDs link sides.1 sides.2 with
  | None => Ok interfaces
  | Some intf =>
      refuseInput (bool_decide (InterfaceInput_Connectivity intf = connectivityWire)
                   && bool_decide (WireID (Status link) = 0))
        ErrorMissingInput ("links." +:+ LinkName link +:+ ".status.wireID") "cross-Pod Link allocation is not ready" ;;?
      Ok (interfaces ++ [intf])
  end.

Definition sidesOf (link : Link) (resolved : LinkResolvedEndpointsStatus) : list (side * side) :=
  let a := (EndpointA link, ResolvedA resolved, "a") in
  let b := (EndpointB link, ResolvedB resolved, "b") in
  [(a, b); (b, a)].

Definition terminates (members : gmap string PlanNode) (link : Link) : bool :=
  known members (NodeName (EndpointA link)) || known members (NodeName (EndpointB link)).

Definition acceptedLinkStep (nodesByName members : gmap string PlanNode) (memberIDs : gmap string string)
    (interfaces : list InterfaceInput) (link : Link) : result PlanError (list InterfaceInput) :=
  if negb (terminates members link) then Ok interfaces
  else
    match ResolvedEndpoints (Status link) with
    | Some resolved =>
        refuseInput (empty (LinkUID link) || negb (IsStatusConditionTrue (Conditions (Status link)) LinkConditionAccepted))
          ErrorMissingInput ("links." +:+ LinkName link) "terminating Link has no accepted UID-bound endpoint inventory" ;;?
        rfold (sideStep nodesByName members memberIDs link) interfaces (sidesOf link resolved)
    | None =>
        Err (planInputError ErrorMissingInput ("links." +:+ LinkName link)
               "terminating Link has no accepted UID-bound endpoint inventory")
    end.

Definition compileAcceptedInterfaces (links : list Link) (nodesByName members : gmap string PlanNode)
    (memberIDs : gmap string string) : result PlanError (list InterfaceInput) :=
  let? interfaces := rfold (acceptedLinkStep nodesByName members memberIDs) [] links in
  Ok (SortFunc (onKey InterfaceInput_ID Compare) interfaces).

(** ** The input *)

Definition planningTopologyName (primary : PlanNode) : string :=
  let name := default "" (PlanNode_Labels primary !! LabelTopologyOwner) in
  if empty name then PlanNode_Namespace primary else name.

Record memberState := MkMemberState {
  MS_Nodes : list NodeInput;
  MS_Members : gmap string PlanNode;
  MS_IDs : gmap string string
}.

Definition groupMemberStep (primary : PlanNode) (nodesByName : gmap string PlanNode) (state : memberState) (name : string) :
    result PlanError memberState :=
  let unresolved := planInputError ErrorMissingInput ("nodes." +:+ name) "group member identity is unresolved" in
  match (if bool_decide (name = PlanNode_Name primary) then Some primary else nodesByName !! name) with
  | None => Err unresolved
  | Some member =>
      (if negb (bool_decide (PlanNode_Namespace member = PlanNode_Namespace primary)) || empty (PlanNode_UID member)
       then Err unresolved else Ok ()) ;;?
      match PlanNode_Definition member with
      | None => Err (planInputError ErrorSerialization ("nodes." +:+ name +:+ ".definition") "cannot serialize Node definition")
      | Some definition =>
          let groupOwner := if bool_decide (name = PlanNode_Name primary) then "" else PlanNode_UID primary in
          Ok (MkMemberState
                (MS_Nodes state ++ [MkNodeInput (PlanNode_UID member) name (PlanNode_Kind member) (PlanNode_Type member)
                                      groupOwner definition])
                (<[name := member]> (MS_Members state))
                (<[name := PlanNode_UID member]> (MS_IDs state)))
      end
  end.

Definition CompilePlanInput (request : PlanInputCompileRequest) : result PlanError Input :=
  let incomplete := planInputError ErrorInvalidInput "nodes" "primary Node identity is incomplete" in
  match Request_Primary request with
  | None => Err incomplete
  | Some primary =>
      (if empty (PlanNode_Name primary) || empty (PlanNode_Namespace primary) || empty (PlanNode_UID primary)
       then Err incomplete else Ok ()) ;;?
      let memberNames := Compact (sort_strings (Request_GroupMembers request)) in
      refuseInput (emptyList memberNames || negb (bool_decide (PlanNode_Name primary ∈ memberNames)))
        ErrorInvalidInput "nodes" "workload group does not contain its primary Node" ;;?
      let? state := rfold (groupMemberStep primary (Request_NodesByName request)) (MkMemberState [] ∅ ∅) memberNames in
      let? interfaces := compileAcceptedInterfaces (Request_Links request) (Request_NodesByName request)
                           (MS_Members state) (MS_IDs state) in
      NormalizeInput (MkInput SchemaVersion (planningTopologyName primary) (Request_Compatibility request)
        (Request_EntropyDigest request) (MS_Nodes state) (Request_Images request) (Request_Payloads request)
        (Request_Certificates request) (Request_Management request) interfaces)
  end.

(** ** What is compiled *)

Lemma refuseInput_Ok b code field message u : refuseInput b code field message = Ok u ↔ b = false.
Proof. unfold refuseInput. destruct b, u; naive_solver. Qed.

Lemma Compact_cons x l : ∃ k, Compact (x :: l) = x :: k.
Proof.
  revert x. induction l as [|y l IH]; intros x; [by eexists|]. destruct (IH y) as [k Hk].
  change (Compact (x :: y :: l)) with (match Compact (y :: l) with
    | y :: k => if bool_decide (x = y) then y :: k else x :: y :: k | [] => [x] end).
  rewrite Hk. case_bool_decide; subst; by eexists.
Qed.

Lemma elem_of_Compact x l : x ∈ Compact l ↔ x ∈ l.
Proof.
  induction l as [|y l IH]; [done|]. rewrite elem_of_cons, <- IH. cbn [Compact].
  destruct (Compact l) as [|z k]; [set_solver|]. case_bool_decide; set_solver.
Qed.

(** The status of an endpoint is the Node the endpoint names, as it is now. *)
Definition resolvedOk (nodesByName : gmap string PlanNode) (endpoint : LinkEndpointSpec) (resolved : LinkResolvedEndpointStatus) :
    Prop :=
  ResolvedNodeName resolved = NodeName endpoint ∧
  (NodeName endpoint = LinkHostNodeName → ResolvedUID resolved = "") ∧
  (NodeName endpoint ≠ LinkHostNodeName → ResolvedUID resolved ≠ "" ∧
     ∀ current, nodesByName !! NodeName endpoint = Some current → PlanNode_UID current = ResolvedUID resolved).

Lemma validateResolvedEndpoint_Ok link endpoint resolved nodesByName u :
  validateResolvedEndpoint link endpoint resolved nodesByName = Ok u ↔ resolvedOk nodesByName endpoint resolved.
Proof.
  unfold validateResolvedEndpoint, resolvedOk. rewrite seq_Ok, refuseInput_Ok.
  destruct (bool_decide_reflect (NodeName endpoint = LinkHostNodeName)).
  - rewrite refuseInput_Ok. checks. tauto.
  - rewrite seq_Ok, !refuseInput_Ok. destruct (nodesByName !! NodeName endpoint); checks; naive_solver.
Qed.

(** A terminating link that can be planned. *)
Definition linkOk (nodesByName members : gmap string PlanNode) (link : Link) : Prop :=
  terminates members link = true → LinkUID link ≠ "" ∧
    IsStatusConditionTrue (Conditions (Status link)) LinkConditionAccepted = true ∧
    ∃ resolved, ResolvedEndpoints (Status link) = Some resolved ∧
      resolvedOk nodesByName (EndpointA link) (ResolvedA resolved) ∧
      resolvedOk nodesByName (EndpointB link) (ResolvedB resolved) ∧
      (WireID (Status link) = 0 →
       (known members (NodeName (EndpointA link)) = true →
          interfaceConnectivity (EndpointA link) (EndpointB link) members ≠ connectivityWire) ∧
       (known members (NodeName (EndpointB link)) = true →
          interfaceConnectivity (EndpointB link) (EndpointA link) members ≠ connectivityWire)).

(** The interfaces of a link: one for each end at a member. *)
Definition linkInputs (members : gmap string PlanNode) (memberIDs : gmap string string) (link : Link) : list InterfaceInput :=
  match ResolvedEndpoints (Status link) with
  | Some resolved => omap (λ sides, sideInput members memberIDs link sides.1 sides.2) (sidesOf link resolved)
  | None => []
  end.

Lemma sideStep_Ok nodesByName members memberIDs link interfaces endpoint resolved letter peer out :
  sideStep nodesByName members memberIDs link interfaces ((endpoint, resolved, letter), peer) = Ok out ↔
  resolvedOk nodesByName endpoint resolved ∧
  (WireID (Status link) = 0 → known members (NodeName endpoint) = true →
     interfaceConnectivity endpoint peer.1.1 members ≠ connectivityWire) ∧
  out = interfaces ++ option_list (sideInput members memberIDs link (endpoint, resolved, letter) peer).
Proof.
  destruct peer as [[peerEndpoint peerResolved] peerLetter].
  unfold sideStep, sideInput, known. cbn [fst snd]. rewrite seq_Ok, validateResolvedEndpoint_Ok.
  destruct (members !! NodeName endpoint) as [member|]; cbn [mbind option_bind option_list InterfaceInput_Connectivity].
  - rewrite seq_Ok, refuseInput_Ok, Ok_inj_iff. checks.
    destruct (decide (WireID (Status link) = 0)); split; intros H; destruct_and! H; split_and!; try done; tauto.
  - rewrite Ok_inj_iff, app_nil_r. split; intros H; destruct_and! H; split_and!; done.
Qed.

Lemma sideInput_none members memberIDs link endpoint resolved letter peer :
  known members (NodeName endpoint) = false → sideInput members memberIDs link (endpoint, resolved, letter) peer = None.
Proof. unfold known, sideInput. destruct peer as [[]]. by destruct (members !! NodeName endpoint). Qed.

Lemma rfold_two {A B E} (f : A → B → result E A) i x y out :
  rfold f i [x; y] = Ok out ↔ ∃ m, f i x = Ok m ∧ f m y = Ok out.
Proof.
  cbn [rfold]. rewrite let_Ok. split; intros (m & Hm & H); exists m; (split; [done|]).
  - apply let_Ok in H as (? & H & [= <-]). done.
  - rewrite H. done.
Qed.
Lemma omap_two {A B} (f : A → option B) x y : omap f [x; y] = option_list (f x) ++ option_list (f y).
Proof. cbn. by destruct (f x), (f y). Qed.

Lemma acceptedLinkStep_Ok nodesByName members memberIDs interfaces link out :
  acceptedLinkStep nodesByName members memberIDs interfaces link = Ok out ↔
  linkOk nodesByName members link ∧ out = interfaces ++ linkInputs members memberIDs link.
Proof.
  unfold acceptedLinkStep, linkOk, linkInputs. destruct (terminates members link) eqn:Ht; cbn [negb].
  - destruct (ResolvedEndpoints (Status link)) as [resolved|]; [|naive_solver].
    rewrite seq_Ok, refuseInput_Ok. unfold sidesOf. rewrite rfold_two. setoid_rewrite sideStep_Ok. cbn [fst snd].
    rewrite omap_two. checks. split.
    + intros [[Hu Hc] (m & (Ra & Wa & ->) & Rb & Wb & ->)]. split; [|by rewrite <- app_assoc].
      intros _. split_and!; [done|done|]. exists resolved. split_and!; try done; tauto.
    + intros [H ->]. destruct (H eq_refl) as (Hu & Hc & ? & [= <-] & Ra & Rb & W). split; [done|].
      eexists. split; [split_and!; [done|tauto|reflexivity]|]. split_and!; [done|tauto|by rewrite <- app_assoc].
  - unfold terminates in Ht. apply orb_false_iff in Ht as [Ha Hb]. rewrite Ok_inj_iff.
    assert (match ResolvedEndpoints (Status link) with
      | Some resolved => omap (λ sides, sideInput members memberIDs link sides.1 sides.2) (sidesOf link resolved)
      | None => [] end = []) as ->.
    { destruct (ResolvedEndpoints (Status link)); [|done]. unfold sidesOf. cbn [omap list_omap fst snd].
      by rewrite !sideInput_none. }
    rewrite app_nil_r. naive_solver.
Qed.

Lemma acceptedLinks_Ok nodesByName members memberIDs links interfaces out :
  rfold (acceptedLinkStep nodesByName members memberIDs) interfaces links = Ok out ↔
  Forall (linkOk nodesByName members) links ∧ out = interfaces ++ mjoin (linkInputs members memberIDs <$> links).
Proof.
  revert interfaces. induction links as [|link links IH]; intros interfaces; cbn [rfold].
  { rewrite Ok_inj_iff, app_nil_r. naive_solver. }
  rewrite let_Ok. setoid_rewrite acceptedLinkStep_Ok. setoid_rewrite IH. rewrite Forall_cons. cbn. split.
  - intros (m & [Hl ->] & Hls & ->). by rewrite <- app_assoc.
  - intros [[Hl Hls] ->]. eexists. split; [done|]. by rewrite <- app_assoc.
Qed.

(** The Node a member name stands for. *)
Definition memberNode (primary : PlanNode) (nodesByName : gmap string PlanNode) (name : string) : option PlanNode :=
  if bool_decide (name = PlanNode_Name primary) then Some primary else nodesByName !! name.

Lemma groupMemberStep_Ok primary nodesByName state name state' :
  groupMemberStep primary nodesByName state name = Ok state' →
  ∃ member, memberNode primary nodesByName name = Some member ∧ PlanNode_UID member ≠ "" ∧
    MS_Members state' = <[name := member]> (MS_Members state) ∧ MS_IDs state' = <[name := PlanNode_UID member]> (MS_IDs state).
Proof.
  unfold groupMemberStep. fold (memberNode primary nodesByName name).
  destruct (memberNode primary nodesByName name) as [member|]; [|done]. intros H. apply seq_Ok in H as [Hc H].
  destruct (PlanNode_Definition member); [|done]. injection H as <-. exists member. split_and!; try done.
  intros Hu. unfold empty in Hc. rewrite (bool_decide_eq_true_2 (PlanNode_UID member = "")), orb_true_r in Hc by done. done.
Qed.

Lemma memberFold_Ok primary nodesByName names state state' :
  rfold (groupMemberStep primary nodesByName) state names = Ok state' →
  ∀ n, (n ∈ names → ∃ member, memberNode primary nodesByName n = Some member ∧ MS_Members state' !! n = Some member ∧
          MS_IDs state' !! n = Some (PlanNode_UID member)) ∧
       (n ∉ names → MS_Members state' !! n = MS_Members state !! n ∧ MS_IDs state' !! n = MS_IDs state !! n).
Proof.
  revert state. induction names as [|name names IH]; intros state; cbn [rfold].
  { intros [= ->] n. split; [by intros ?%elem_of_nil|done]. }
  intros H n. apply let_Ok in H as (m & Hm%groupMemberStep_Ok & Hrest). destruct Hm as (member & Hpick & Hu & E1 & E2).
  destruct (IH _ Hrest n) as [H1 H2]. destruct (decide (n ∈ names)) as [Hin|Hin].
  { split; [by intros _; apply H1|]. rewrite not_elem_of_cons. tauto. }
  destruct (H2 Hin) as [F1 F2]. rewrite F1, F2, E1, E2. rewrite elem_of_cons. split.
  - intros [->|]; [|done]. exists member. by rewrite !lookup_insert_eq.
  - intros Hn. rewrite !lookup_insert_ne by (intros ->; tauto). done.
Qed.

(** The interfaces of a normalized input. *)
Lemma normal_interfaces input normal :
  NormalizeInput input = Ok normal → Input_Interfaces normal ≡ₚ cloneJSON (Input_Interfaces input) ∧ InputOk normal.
Proof.
  intros (copy & Hc & Hok & ->)%NormalizeInput_Ok. split; [|by eapply same_input_ok; [apply same_input_sorted|]].
  cbn. rewrite SortFunc_perm. unfold cloneInput in Hc. by apply bind_Some in Hc as (nodes & _ & [= <-]).
Qed.

(** What a compiled input is made of. *)
Record compiled (request : PlanInputCompileRequest) (primary : PlanNode) (members : gmap string PlanNode)
    (memberIDs : gmap string string) (input : Input) : Prop := {
  co_primary : Request_Primary request = Some primary ∧ PlanNode_Name primary ∈ Request_GroupMembers request;
  co_members : ∀ n, n ∈ Request_GroupMembers request → ∃ member,
    memberNode primary (Request_NodesByName request) n = Some member ∧ members !! n = Some member ∧
    memberIDs !! n = Some (PlanNode_UID member);
  co_others : ∀ n, n ∉ Request_GroupMembers request → members !! n = None;
  co_links : Forall (linkOk (Request_NodesByName request) members) (Request_Links request);
  co_interfaces : Input_Interfaces input ≡ₚ cloneJSON (mjoin (linkInputs members memberIDs <$> Request_Links request));
  co_ok : InputOk input
}.

Lemma CompilePlanInput_Ok request input :
  CompilePlanInput request = Ok input → ∃ primary members memberIDs, compiled request primary members memberIDs input.
Proof.
  unfold CompilePlanInput. destruct (Request_Primary request) as [primary|] eqn:Hp; [|done]. intros H.
  apply seq_Ok in H as [_ H]. apply seq_Ok in H as [Hc%refuseInput_Ok H]. apply let_Ok in H as (state & Hs & H).
  apply let_Ok in H as (interfaces & Hi & H). unfold compileAcceptedInterfaces in Hi.
  apply let_Ok in Hi as (found & [Hl ->]%acceptedLinks_Ok & [= <-]). cbn [app] in H.
  pose proof (memberFold_Ok _ _ _ _ _ Hs) as Hm. setoid_rewrite elem_of_Compact in Hm. setoid_rewrite sort_strings_perm in Hm.
  exists primary, (MS_Members state), (MS_IDs state).
  destruct (normal_interfaces _ _ H) as [Hn Hok].
  constructor; [|by intros n; apply Hm| |done| |done].
  - split; [done|]. checks_in Hc. destruct Hc as [_ Hc]. by rewrite elem_of_Compact, sort_strings_perm in Hc.
  - intros n Hout. by destruct (proj2 (Hm n) Hout) as [-> _].
  - rewrite Hn. cbn [Input_Interfaces]. unfold cloneJSON, cloneJSON_list. by rewrite SortFunc_perm.
Qed.

(** ** The two ends of a link *)

(** The Nodes of a request as they are listed: under their names, the primary among them. *)
Definition observed (request : PlanInputCompileRequest) : Prop :=
  (∀ n node, Request_NodesByName request !! n = Some node → PlanNode_Name node = n) ∧
  ∀ primary, Request_Primary request = Some primary → Request_NodesByName request !! PlanNode_Name primary = Some primary.

Lemma member_observed request primary n member :
  observed request → Request_Primary request = Some primary →
  memberNode primary (Request_NodesByName request) n = Some member →
  Request_NodesByName request !! n = Some member ∧ PlanNode_Name member = n.
Proof.
  intros [Hwf Hp] Hprim. unfold memberNode. case_bool_decide as Hn; [|eauto].
  intros [= <-]. subst. eauto.
Qed.

Definition near (link : Link) (first : bool) : LinkEndpointSpec := if first then EndpointA link else EndpointB link.
Definition endLetter (first : bool) : string := if first then "a" else "b".

(** The interface planned for one end of a link, given the identities of the two Nodes. *)
Definition plannedEnd (members : gmap string PlanNode) (link : Link) (first : bool) (nodeID peerID : string) : InterfaceInput :=
  let this := near link first in
  let peer := near link (negb first) in
  let connectivity := interfaceConnectivity this peer members in
  MkInterfaceInput (LinkUID link +:+ "/" +:+ endLetter first) nodeID (InterfaceName this) (LinkUID link) (LinkName link) peerID
    (InterfaceName peer)
    (if bool_decide (connectivity = connectivityWire) then FabricServiceName (NodeName peer) else "")
    connectivity (WireID (Status link)) (LinkMTU link).

Lemma planned_end request primary members memberIDs input link first :
  compiled request primary members memberIDs input → observed request → link ∈ Request_Links request →
  NodeName (near link first) ∈ Request_GroupMembers request → NodeName (near link (negb first)) ≠ LinkHostNodeName →
  ∃ node peerID, Request_NodesByName request !! NodeName (near link first) = Some node ∧
    cloneJSON (plannedEnd members link first (PlanNode_UID node) peerID) ∈ Input_Interfaces input ∧
    (∀ peer, Request_NodesByName request !! NodeName (near link (negb first)) = Some peer → PlanNode_UID peer = peerID) ∧
    (interfaceConnectivity (near link first) (near link (negb first)) members = connectivityWire → WireID (Status link) ≠ 0).
Proof.
  intros Hco Hobs Hl Hm Hh. destruct (co_members _ _ _ _ _ Hco _ Hm) as (node & Hn & E1 & E2).
  destruct (member_observed _ _ _ _ Hobs (proj1 (co_primary _ _ _ _ _ Hco)) Hn) as [Hnode Hname].
  pose proof (co_links _ _ _ _ _ Hco) as Hok. rewrite list.Forall_forall in Hok. specialize (Hok _ Hl).
  assert (terminates members link = true) as Ht
    by (unfold terminates, known; destruct first; cbn in E1; rewrite E1; [done|apply orb_true_r]).
  destruct (Hok Ht) as (_ & _ & resolved & Hr & Ra & Rb & Hw).
  exists node, (ResolvedUID (if first then ResolvedB resolved else ResolvedA resolved)). split_and!; [done| | |].
  - rewrite (co_interfaces _ _ _ _ _ Hco). apply list_elem_of_fmap_2, list_elem_of_join.
    exists (linkInputs members memberIDs link). split; [|by apply list_elem_of_fmap_2].
    unfold linkInputs. rewrite Hr. apply list_elem_of_omap. unfold sidesOf, sideInput, plannedEnd.
    destruct first; cbn [near negb] in *; eexists; [split; [left|]|split; [right; left|]]; cbn [fst snd endLetter];
      rewrite E1; cbn [mbind option_bind]; by rewrite Hname, E2, bool_decide_eq_false_2.
  - intros peer Hpeer. destruct first; [apply Rb|apply Ra]; done.
  - intros Hc Hz. destruct (Hw Hz) as [Wa Wb]. unfold known in *.
    destruct first; cbn [near negb] in *; [apply Wa|apply Wb]; try done; by rewrite E1.
Qed.

(** Two interfaces that are the ends of one link. *)
Definition mirrored (a b : InterfaceInput) : Prop :=
  InterfaceInput_LinkID a = InterfaceInput_LinkID b ∧ InterfaceInput_LinkName a = InterfaceInput_LinkName b ∧
  InterfaceInput_WireID a = InterfaceInput_WireID b ∧ InterfaceInput_MTU a = InterfaceInput_MTU b ∧
  InterfaceInput_PeerNodeID a = InterfaceInput_NodeID b ∧ InterfaceInput_NodeID a = InterfaceInput_PeerNodeID b ∧
  InterfaceInput_PeerInterface a = InterfaceInput_Name b ∧ InterfaceInput_Name a = InterfaceInput_PeerInterface b.

Lemma other_group request primary members memberIDs input n m :
  compiled request primary members memberIDs input → n ∈ Request_GroupMembers request → m ∉ Request_GroupMembers request →
  known members m = false ∧ n ≠ m.
Proof.
  intros Hco Hn Hm. unfold known. rewrite (co_others _ _ _ _ _ Hco _ Hm). split; [done|]. by intros ->.
Qed.

Lemma wire_between a b members :
  NodeName b ≠ LinkHostNodeName → NodeName a ≠ NodeName b → known members (NodeName b) = false →
  interfaceConnectivity a b members = connectivityWire.
Proof. intros. unfold interfaceConnectivity. rewrite !bool_decide_eq_false_2 by done. by rewrite H1. Qed.

(** C9: The two ends of a wire fit together.  When the inputs of two Pods compile from the same
    Nodes and Links, and a link connects a Node of the one with a Node of the other, each input
    has an interface for its end: they agree on the link, its wire id and MTU, and each names
    the other's Node and interface as its peer.  Both are wires, over a wire id that was
    allocated, and each leads to the Service of the other's Node. *)
Theorem wire_ends_agree r1 r2 in1 in2 link :
  CompilePlanInput r1 = Ok in1 → CompilePlanInput r2 = Ok in2 → observed r1 → observed r2 →
  Request_NodesByName r1 = Request_NodesByName r2 → link ∈ Request_Links r1 → link ∈ Request_Links r2 →
  NodeName (EndpointA link) ≠ LinkHostNodeName → NodeName (EndpointB link) ≠ LinkHostNodeName →
  NodeName (EndpointA link) ∈ Request_GroupMembers r1 → NodeName (EndpointB link) ∈ Request_GroupMembers r2 →
  NodeName (EndpointB link) ∉ Request_GroupMembers r1 → NodeName (EndpointA link) ∉ Request_GroupMembers r2 →
  ∃ a b, a ∈ Input_Interfaces in1 ∧ b ∈ Input_Interfaces in2 ∧ mirrored a b ∧
    InterfaceInput_LinkID a = cloneJSON (LinkUID link) ∧ InterfaceInput_WireID a ≠ 0 ∧
    InterfaceInput_Connectivity a = connectivityWire ∧ InterfaceInput_Connectivity b = connectivityWire ∧
    InterfaceInput_PeerTransport a = cloneJSON (FabricServiceName (NodeName (EndpointB link))) ∧
    InterfaceInput_PeerTransport b = cloneJSON (FabricServiceName (NodeName (EndpointA link))).
Proof.
  intros (p1 & m1 & i1 & C1)%CompilePlanInput_Ok (p2 & m2 & i2 & C2)%CompilePlanInput_Ok O1 O2 Hnodes L1 L2 Ha Hb A1 B2 B1 A2.
  destruct (planned_end _ _ _ _ _ link true C1 O1 L1) as (na & pa & Na & Ia & Pa & Wa); [done..|].
  destruct (planned_end _ _ _ _ _ link false C2 O2 L2) as (nb & pb & Nb & Ib & Pb & Wb); [done..|].
  cbn [near negb] in *. destruct (other_group _ _ _ _ _ _ _ C1 A1 B1) as [K1 Hab].
  destruct (other_group _ _ _ _ _ _ _ C2 B2 A2) as [K2 Hba].
  pose proof (wire_between (EndpointA link) (EndpointB link) m1 Hb Hab K1) as Ca.
  pose proof (wire_between (EndpointB link) (EndpointA link) m2 Ha Hba K2) as Cb.
  rewrite <- Hnodes in Nb, Pb. specialize (Pa _ Nb). specialize (Pb _ Na). specialize (Wa Ca). subst pa pb.
  eexists _, _. split; [exact Ia|]. split; [exact Ib|]. unfold plannedEnd. cbn [near negb]. rewrite Ca, Cb.
  rewrite !bool_decide_eq_true_2 by done. split; [by repeat split|]. by repeat split.
Qed.
End compile.

(** ** Two Pods and a wire *)

#[local] Existing Instance insertion_sort.
#[local] Existing Instance sample_text.
#[local] Instance firstCondition : ConditionReader :=
  λ conditions conditionType, existsb (λ c, bool_decide (ConditionType c = conditionType ∧ CStatus c = ConditionTrue)) conditions.

Definition wiredNode (name uid : string) : PlanNode := MkPlanNode name "lab" uid ∅ "linux" "" (Some "{}").
Definition wiredNodes : gmap string PlanNode := {[ "r1" := wiredNode "r1" "u1"; "r2" := wiredNode "r2" "u2" ]}.
Definition wiredLink : Link :=
  MkLink "lab" "r1-r2" "link-1" 1 "" false ∅ ∅ [] (MkLinkEndpointSpec "r1" "eth1") (MkLinkEndpointSpec "r2" "eth9") 1500
    (MkLinkStatus 7
       (Some (MkLinkResolvedEndpointsStatus (MkLinkResolvedEndpointStatus "r1" "u1") (MkLinkResolvedEndpointStatus "r2" "u2")))
       [MkCondition LinkConditionAccepted ConditionTrue 1 0 "Accepted" ""]).
Definition wiredRequest (name uid : string) : PlanInputCompileRequest :=
  MkPlanInputCompileRequest (Some (wiredNode name uid)) [name] wiredNodes [wiredLink]
    (MkCompatibility "containerlab" "v0.70" zeroDigest SchemaVersion) "" [] [] [] [].
Definition wiredInput (name uid : string) : Input := okOr (sampleInput [] []) (CompilePlanInput (wiredRequest name uid)).

Lemma wired_observed name uid : wiredNodes !! name = Some (wiredNode name uid) → observed (wiredRequest name uid).
Proof.
  intros Hn. split; [|by intros primary [= <-]]. intros n node Hl. cbn in Hl. unfold wiredNodes in Hl.
  apply lookup_insert_Some in Hl as [[<- <-]|[_ [<- <-]%lookup_singleton_Some]]; done.
Qed.

Lemma wire_ends_agree_witness :
  ∃ a b, a ∈ Input_Interfaces (wiredInput "r1" "u1") ∧ b ∈ Input_Interfaces (wiredInput "r2" "u2") ∧
    mirrored a b ∧ InterfaceInput_WireID a ≠ 0.
Proof.
  destruct (wire_ends_agree (wiredRequest "r1" "u1") (wiredRequest "r2" "u2") (wiredInput "r1" "u1") (wiredInput "r2" "u2")
    wiredLink) as (a & b & Ha & Hb & Hm & _ & Hw & _);
    [vm_compute; reflexivity|vm_compute; reflexivity|by apply wired_observed|by apply wired_observed|reflexivity
    |left|left|done|done|left|left|by apply not_elem_of_cons; split; [|apply not_elem_of_nil]
    |by apply not_elem_of_cons; split; [|apply not_elem_of_nil]|].
  exists a, b. split; [exact Ha|]. split; [exact Hb|]. split; [exact Hm|exact Hw].
Defined.
