(* ===== verification/NodeArtifacts.v ===== *)
(** * The artifacts of a Node

    Models the ConfigMaps in which the Node controller keeps what a device Pod was started
    with ([controllers/node/planconfigmap.go], [plannerinputconfigmap.go] and
    [connectivityrevisionconfigmap.go]): the immutable plan and input, named by their content,
    and the mutable connectivity revision, named by the plan it is a revision of. *)

From S2P Require Import Prelude WireCodec Api GoStrings GoNet GoSort DevicePlanTypes Management CompilerNames.
From S2P Require Import PlanValidation PlanCodec InputCodec ConnectivityRevision PlanInput.
Local Open Scope Z_scope.

Definition DefaultMaxPlanBytes : Z := Z.shiftl 768 10.
Definition DefaultMaxInputBytes : Z := Z.shiftl 4 20.
Definition kubernetesNameLimit : nat := 63.
Definition LabelName : string := "c9s.run/name".
Definition LabelComponent : string := "c9s.run/component".
Definition planDataKey : string := "plan.json".
Definition planComponentLabelValue : string := "node-plan".
Definition planOwnerUIDLabel : string := "c9s.run/planOwnerUID".
Definition planDigestAnnotation : string := "c9s.run/planDigest".
Definition planInputDigestAnnotation : string := "c9s.run/planInputDigest".
Definition plannerInputKey : string := "input.json".
Definition plannerInputComponentLabelValue : string := "node-plan-input".
Definition connectivityRevisionDataKey : string := "revision.json".
Definition connectivityRevisionComponentLabelValue : string := "clabwire-revision".
Definition connectivityRevisionBaseAnnotation : string := "c9s.run/connectivityBasePlanDigest".
Definition connectivityRevisionDesiredAnnotation : string := "c9s.run/connectivityDesiredPlanDigest".
Definition connectivityRevisionActionModeAnnotation : string := "c9s.run/connectivityLifecycleMode".
Definition connectivityRevisionActionDigestAnnotation : string := "c9s.run/connectivityLifecyclePlanDigest".
Definition connectivityRevisionActionNodesAnnotation : string := "c9s.run/connectivityLifecycleNodeIDs".
Definition nodeCRKind : string := "Node".
Definition SchemeGroupVersion : string := "c9s.run/v1alpha1".

(** ** Objects *)

(** A reference to an owner, with the fields that are compared. *)
Record OwnerRef := MkOwnerRef {
  Ref_APIVersion : string;
  Ref_Kind : string;
  Ref_Name : string;
  Ref_UID : string;
  Ref_Controller : option bool;
  Ref_BlockOwnerDeletion : option bool
}.
#[export] Instance OwnerRef_eq_dec : EqDecision OwnerRef.
Proof. solve_decision. Defined.

Record ArtifactMap := MkArtifactMap {
  AM_Name : string;
  AM_Namespace : string;
  AM_Labels : gmap string string;
  AM_Annotations : gmap string string;
  AM_Owners : list OwnerRef;
  AM_Immutable : option bool;
  AM_Data : gmap string string;
  AM_BinaryData : gmap string string
}.
#[export] Instance ArtifactMap_eq_dec : EqDecision ArtifactMap.
Proof. solve_decision. Defined.
#[export] Instance ArtifactMap_updatable : Updatable ArtifactMap :=
  λ m, MkArtifactMap (AM_Name m) (AM_Namespace m) (AM_Labels m) (AM_Annotations m) (AM_Owners m) (AM_Immutable m)
         (AM_Data m) (AM_BinaryData m).

(** The Node whose artifacts they are. *)
Record ArtifactNode := MkArtifactNode {
  AN_Name : string;
  AN_Namespace : string;
  AN_UID : string
}.

Definition valueOf (m : gmap string string) (k : string) : string := default "" (m !! k).
Definition isTrue (b : option bool) : bool := default false b.

Definition containsExpectedMetadata (existing expected : gmap string string) : bool :=
  forallb (λ kv, bool_decide (valueOf existing kv.1 = kv.2)) (map_to_list expected).

Definition controlledByNodeUID (object : ArtifactMap) (uid : string) : bool :=
  existsb (λ owner, isTrue (Ref_Controller owner) && bool_decide (Ref_UID owner = uid)
                    && bool_decide (Ref_APIVersion owner = SchemeGroupVersion) && bool_decide (Ref_Kind owner = nodeCRKind))
    (AM_Owners object).

Definition nodeOwner (node : ArtifactNode) : OwnerRef :=
  MkOwnerRef SchemeGroupVersion nodeCRKind (AN_Name node) (AN_UID node) (Some true) (Some true).
Definition artifactLabels (node : ArtifactNode) (component : string) : gmap string string :=
  {[ LabelApp := Clabernetes; LabelComponent := component; LabelName := AN_Name node; planOwnerUIDLabel := AN_UID node ]}.
Definition identityIncomplete (node : ArtifactNode) : bool :=
  empty (AN_Name node) || empty (AN_Namespace node) || empty (AN_UID node).

(** ** The API server *)

Definition mapKey : Type := string * string.
Definition mapStore : Type := gmap mapKey ArtifactMap.

Inductive apiCall := GetMap (k : mapKey) | CreateMap (k : mapKey) | UpdateMap (k : mapKey) | DeleteMap (k : mapKey)
| ListMaps (ns : string) | ListPods (ns : string).

Inductive artifactError :=
| invalidArtifact (message : string)
| invalidRevisionArtifact (e : connectivityError)
| artifactConflict (namespace name : string)
| callFailed (call : apiCall).

Section artifacts.
(** The calls that fail for another reason than an object that does not exist. *)
Context (faults : apiCall → bool).

Definition createMap (store : mapStore) (rendered : ArtifactMap) : mapStore * result artifactError ArtifactMap :=
  let k := (AM_Namespace rendered, AM_Name rendered) in
  if faults (CreateMap k) then (store, Err (callFailed (CreateMap k))) else (<[k := rendered]> store, Ok rendered).
Definition updateMap (store : mapStore) (updated : ArtifactMap) : mapStore * result artifactError ArtifactMap :=
  let k := (AM_Namespace updated, AM_Name updated) in
  if faults (UpdateMap k) then (store, Err (callFailed (UpdateMap k))) else (<[k := updated]> store, Ok updated).

(** The objects of a namespace with the given labels. *)
Definition listMaps (store : mapStore) (namespace : string) (labels : gmap string string) : list ArtifactMap :=
  (filter (λ kv, kv.1.1 = namespace ∧ labels ⊆ AM_Labels kv.2) (map_to_list store)).*2.

(** Deleting the given objects, up to the first call that fails. *)
Fixpoint deleteMaps (store : mapStore) (objects : list ArtifactMap) : mapStore * result artifactError unit :=
  match objects with
  | [] => (store, Ok ())
  | object :: objects =>
      let k := (AM_Namespace object, AM_Name object) in
      if faults (DeleteMap k) then (store, Err (callFailed (DeleteMap k))) else deleteMaps (delete k store) objects
  end.

Context {sha : Sha256} {sort : GoSort} {text : JSONText} {inputJSON : InputJSON} {revisionJSON : RevisionJSON}.

(** ** Names *)

(** A name with a suffix, the name cut so that both fit. *)
Definition suffixedName (nodeName suffix : string) : string :=
  let maxNodeLength := (kubernetesNameLimit - String.length suffix)%nat in
  (if (maxNodeLength <? String.length nodeName)%nat then trimDashesRight (prefixOf maxNodeLength nodeName) else nodeName)
  +:+ suffix.
Definition digestSuffix (digest : string) : string := prefixOf 12 (TrimPrefix digest "sha256:").

Definition planConfigMapName (nodeName digest : string) : string := suffixedName nodeName ("-plan-" +:+ digestSuffix digest).
Definition plannerInputConfigMapName (nodeName digest : string) : string :=
  suffixedName nodeName ("-plan-input-" +:+ digestSuffix digest).
Definition connectivityRevisionConfigMapName (nodeName basePlanDigest : string) : string :=
  suffixedName nodeName ("-connectivity-" +:+ digestSuffix basePlanDigest).

Definition digestArtifact (value : string) : string := "sha256:" +:+ hexString (Sum256 value).

(** ** The plan *)

Record PlanArtifact := MkPlanArtifact {
  Artifact_Plan : string;
  Artifact_NormalizedInputs : string;
  Artifact_SensitiveValues : list string
}.
Record PlanArtifactIdentity := MkPlanArtifactIdentity {
  Identity_Name : string;
  Identity_PlanDigest : string;
  Identity_InputDigest : string
}.

Definition refuseArtifact (condition : bool) (message : string) : result artifactError unit :=
  if condition then Err (invalidArtifact message) else Ok ().
Definition lengthZ (s : string) : Z := Z.of_nat (String.length s).
Definition outside (s : string) (max : Z) : bool := Z.eqb (lengthZ s) 0 || (max <? lengthZ s).
Definition containsSensitive (values : list string) (s : string) : bool :=
  existsb (λ sensitive, negb (empty sensitive) && Contains sensitive s) values.

Definition validateAndIdentify (maxPlan maxInput : Z) (node : ArtifactNode) (artifact : PlanArtifact) :
    result artifactError PlanArtifactIdentity :=
  refuseArtifact (identityIncomplete node) "Node identity is incomplete" ;;?
  let maxPlanBytes := if Z.eqb maxPlan 0 then DefaultMaxPlanBytes else maxPlan in
  let maxInputBytes := if Z.eqb maxInput 0 then DefaultMaxInputBytes else maxInput in
  refuseArtifact ((maxPlanBytes <? 0) || (maxInputBytes <? 0)) "size ceilings must not be negative" ;;?
  refuseArtifact (outside (Artifact_Plan artifact) maxPlanBytes) "plan size is outside its bounds" ;;?
  refuseArtifact (outside (Artifact_NormalizedInputs artifact) maxInputBytes) "normalized input size is outside its bounds" ;;?
  refuseArtifact (negb (json_Valid (Artifact_Plan artifact)) || negb (json_Valid (Artifact_NormalizedInputs artifact)))
    "plan and normalized inputs must be valid JSON" ;;?
  refuseArtifact (existsb (λ sensitive, negb (empty sensitive)
                             && (Contains sensitive (Artifact_Plan artifact)
                                 || Contains sensitive (Artifact_NormalizedInputs artifact)))
                    (Artifact_SensitiveValues artifact)) "plan input contains a sensitive value" ;;?
  let planDigest := digestArtifact (Artifact_Plan artifact) in
  Ok (MkPlanArtifactIdentity (planConfigMapName (AN_Name node) planDigest) planDigest
        (digestArtifact (Artifact_NormalizedInputs artifact))).

Definition renderPlanMap (maxPlan maxInput : Z) (node : ArtifactNode) (artifact : PlanArtifact) :
    result artifactError ArtifactMap :=
  let? identity := validateAndIdentify maxPlan maxInput node artifact in
  Ok (MkArtifactMap (Identity_Name identity) (AN_Namespace node) (artifactLabels node planComponentLabelValue)
        {[ planDigestAnnotation := Identity_PlanDigest identity; planInputDigestAnnotation := Identity_InputDigest identity ]}
        [nodeOwner node] (Some true) {[ planDataKey := Artifact_Plan artifact ]} ∅).

(** Also the test of the planner input for an object that is already there. *)
Definition planConfigMapConforms (existing rendered : ArtifactMap) : bool :=
  isTrue (AM_Immutable existing) && bool_decide (AM_Data existing = AM_Data rendered)
  && containsExpectedMetadata (AM_Labels existing) (AM_Labels rendered)
  && containsExpectedMetadata (AM_Annotations existing) (AM_Annotations rendered)
  && bool_decide (AM_Owners existing = AM_Owners rendered).

(** Creating an immutable object, or finding it as it should be. *)
Definition ensureImmutable (store : mapStore) (rendered : ArtifactMap) : mapStore * result artifactError ArtifactMap :=
  let k := (AM_Namespace rendered, AM_Name rendered) in
  if faults (GetMap k) then (store, Err (callFailed (GetMap k)))
  else
    match store !! k with
    | None => createMap store rendered
    | Some existing =>
        if negb (planConfigMapConforms existing rendered)
        then (store, Err (artifactConflict (AM_Namespace existing) (AM_Name existing)))
        else (store, Ok existing)
    end.

Definition EnsurePlan (maxPlan maxInput : Z) (store : mapStore) (node : ArtifactNode) (artifact : PlanArtifact) :
    mapStore * result artifactError ArtifactMap :=
  match renderPlanMap maxPlan maxInput node artifact with
  | Err e => (store, Err e)
  | Ok rendered => ensureImmutable store rendered
  end.

Definition GarbageCollectPlans (store : mapStore) (node : ArtifactNode) (keepNames : list string) :
    mapStore * result artifactError unit :=
  if faults (ListMaps (AN_Namespace node)) then (store, Err (callFailed (ListMaps (AN_Namespace node))))
  else
    let listed := listMaps store (AN_Namespace node)
                    {[ LabelComponent := planComponentLabelValue; planOwnerUIDLabel := AN_UID node ]} in
    deleteMaps store (filter (λ plan, AM_Name plan ∉ keepNames ∧ controlledByNodeUID plan (AN_UID node) = true) listed).

(** ** The input *)

Definition renderInputMap (maxInput : Z) (node : ArtifactNode) (canonicalInput : string) (sensitiveValues : list string) :
    result artifactError ArtifactMap :=
  refuseArtifact (identityIncomplete node) "Node identity is incomplete" ;;?
  let maxInputBytes := if Z.eqb maxInput 0 then DefaultMaxInputBytes else maxInput in
  refuseArtifact ((maxInputBytes <? 0) || outside canonicalInput maxInputBytes) "input size is outside its bounds" ;;?
  refuseArtifact (negb (json_Valid canonicalInput)) "input must be valid JSON" ;;?
  refuseArtifact (containsSensitive sensitiveValues canonicalInput) "input contains a sensitive value" ;;?
  match DecodeInput canonicalInput with
  | Err _ => Err (invalidArtifact "input does not satisfy the planner schema")
  | Ok decoded =>
      refuseArtifact (negb (bool_decide (InputCanonicalJSON decoded = Ok canonicalInput))) "input is not canonical" ;;?
      let digest := digestArtifact canonicalInput in
      Ok (MkArtifactMap (plannerInputConfigMapName (AN_Name node) digest) (AN_Namespace node)
            (artifactLabels node plannerInputComponentLabelValue) {[ planInputDigestAnnotation := digest ]} [nodeOwner node]
            (Some true) {[ plannerInputKey := canonicalInput ]} ∅)
  end.

Definition EnsureInput (maxInput : Z) (store : mapStore) (node : ArtifactNode) (canonicalInput : string)
    (sensitiveValues : list string) : mapStore * result artifactError ArtifactMap :=
  match renderInputMap maxInput node canonicalInput sensitiveValues with
  | Err e => (store, Err e)
  | Ok rendered => ensureImmutable store rendered
  end.

(** ** The connectivity revision *)

Definition renderRevisionMap (node : ArtifactNode) (revision : ConnectivityRevision) : result artifactError ArtifactMap :=
  refuseArtifact (identityIncomplete node) "Node identity is incomplete" ;;?
  match RevisionCanonicalJSON revision with
  | Err e => Err (invalidRevisionArtifact e)
  | Ok raw =>
      Ok (MkArtifactMap (connectivityRevisionConfigMapName (AN_Name node) (BasePlanDigest revision)) (AN_Namespace node)
            (artifactLabels node connectivityRevisionComponentLabelValue)
            {[ connectivityRevisionBaseAnnotation := BasePlanDigest revision;
               connectivityRevisionDesiredAnnotation := DesiredPlanDigest revision ]}
            [nodeOwner node] None {[ connectivityRevisionDataKey := raw ]} ∅)
  end.

Definition connectivityRevisionConfigMapIsOwned (existing rendered : ArtifactMap) : bool :=
  negb (isTrue (AM_Immutable existing)) && bool_decide (AM_Owners existing = AM_Owners rendered)
  && bool_decide (valueOf (AM_Labels existing) planOwnerUIDLabel = valueOf (AM_Labels rendered) planOwnerUIDLabel).

Definition connectivityRevisionConfigMapConforms (existing rendered : ArtifactMap) : bool :=
  connectivityRevisionConfigMapIsOwned existing rendered && bool_decide (AM_Data existing = AM_Data rendered)
  && bool_decide (AM_BinaryData existing = ∅)
  && containsExpectedMetadata (AM_Labels existing) (AM_Labels rendered)
  && containsExpectedMetadata (AM_Annotations existing) (AM_Annotations rendered).

(** The existing object with the rendered content; other metadata is kept. *)
Definition updatedRevision (existing rendered : ArtifactMap) : ArtifactMap :=
  existing <| AM_Immutable := None |> <| AM_Data := AM_Data rendered |> <| AM_BinaryData := ∅ |>
           <| AM_Owners := AM_Owners rendered |>
           <| AM_Labels := AM_Labels rendered ∪ AM_Labels existing |>
           <| AM_Annotations := AM_Annotations rendered ∪ AM_Annotations existing |>.

Definition EnsureRevision (store : mapStore) (node : ArtifactNode) (revision : ConnectivityRevision) :
    mapStore * result artifactError ArtifactMap :=
  match renderRevisionMap node revision with
  | Err e => (store, Err e)
  | Ok rendered =>
      let k := (AM_Namespace rendered, AM_Name rendered) in
      if faults (GetMap k) then (store, Err (callFailed (GetMap k)))
      else
        match store !! k with
        | None => createMap store rendered
        | Some existing =>
            if negb (connectivityRevisionConfigMapIsOwned existing rendered)
            then (store, Err (artifactConflict (AM_Namespace existing) (AM_Name existing)))
            else if connectivityRevisionConfigMapConforms existing rendered then (store, Ok existing)
            else updateMap store (updatedRevision existing rendered)
        end
  end.

(** A Pod: the Node it belongs to, and the ConfigMaps its volumes mount. *)
Record VolumePod := MkVolumePod {
  VP_Annotations : gmap string string;
  VP_ConfigMaps : list string
}.

Definition referencedMaps (pods : list VolumePod) (uid : string) : gset string :=
  foldl (λ referenced pod,
           if bool_decide (valueOf (VP_Annotations pod) NodeUIDAnnotation = uid)
           then list_to_set (VP_ConfigMaps pod) ∪ referenced else referenced) ∅ pods.

(** The Pods are listed only when there is something to collect. *)
Definition GarbageCollectRevisions (store : mapStore) (pods : list VolumePod) (node : ArtifactNode) (keepName : string) :
    mapStore * result artifactError unit :=
  let namespace := AN_Namespace node in
  if faults (ListMaps namespace) then (store, Err (callFailed (ListMaps namespace)))
  else
    let listed := listMaps store namespace
                    {[ LabelComponent := connectivityRevisionComponentLabelValue; planOwnerUIDLabel := AN_UID node ]} in
    let candidates := filter (λ revision, AM_Name revision ≠ keepName ∧ controlledByNodeUID revision (AN_UID node) = true) listed in
    match candidates with
    | [] => (store, Ok ())
    | _ =>
        if faults (ListPods namespace) then (store, Err (callFailed (ListPods namespace)))
        else
          let referenced := referencedMaps pods (AN_UID node) in
          deleteMaps store (filter (λ revision, AM_Name revision ∉ referenced) candidates)
    end.

(** ** The action taken on a link change *)

Class StringsJSON : Type := {
  marshalStrings : list string → string;
  unmarshalStrings : string → option (list string);
  strings_json : ∀ l, unmarshalStrings (marshalStrings l) = Some (cloneJSON l)
}.
Context {stringsJSON : StringsJSON}.

Record directConnectivityLifecycleAction := MkLifecycleAction {
  LA_Mode : string;
  LA_PlanDigest : string;
  LA_AffectedNodeIDs : list string
}.
Definition noLifecycleAction : directConnectivityLifecycleAction := MkLifecycleAction "" "" [].

Definition retainsPod (mode : string) : bool := bool_decide (mode = LinkApplyLive) || bool_decide (mode = LinkApplyRestart).

Definition RecordLifecycleAction (store : mapStore) (node : ArtifactNode) (configMap : option ArtifactMap)
    (action : directConnectivityLifecycleAction) : mapStore * result artifactError ArtifactMap :=
  let differs := (store, Err (invalidArtifact "lifecycle artifact identity differs")) in
  if negb (retainsPod (LA_Mode action)) then (store, Err (invalidArtifact "lifecycle action is not Pod-retaining"))
  else match configMap with None => differs | Some configMap =>
  if negb (controlledByNodeUID configMap (AN_UID node))
     || negb (bool_decide (valueOf (AM_Annotations configMap) connectivityRevisionDesiredAnnotation = LA_PlanDigest action))
  then differs
  else
    match Compact (sort_strings (LA_AffectedNodeIDs action)) with
    | [] | "" :: _ => (store, Err (invalidArtifact "lifecycle action has no affected Node identity"))
    | nodeIDs =>
        let rawNodeIDs := marshalStrings nodeIDs in
        let annotations := AM_Annotations configMap in
        if bool_decide (valueOf annotations connectivityRevisionActionModeAnnotation = LA_Mode action)
           && bool_decide (valueOf annotations connectivityRevisionActionDigestAnnotation = LA_PlanDigest action)
           && bool_decide (valueOf annotations connectivityRevisionActionNodesAnnotation = rawNodeIDs)
        then (store, Ok configMap)
        else
          updateMap store
            (configMap <| AM_Annotations :=
               <[connectivityRevisionActionNodesAnnotation := rawNodeIDs]>
                 (<[connectivityRevisionActionDigestAnnotation := LA_PlanDigest action]>
                    (<[connectivityRevisionActionModeAnnotation := LA_Mode action]> annotations)) |>)
    end
  end.

Definition directConnectivityLifecycleActionFrom (configMap : option ArtifactMap) (planDigest : string) :
    directConnectivityLifecycleAction :=
  match configMap with None => noLifecycleAction | Some configMap =>
  let annotations := AM_Annotations configMap in
  if negb (bool_decide (valueOf annotations connectivityRevisionActionDigestAnnotation = planDigest)) then noLifecycleAction
  else
    let mode := valueOf annotations connectivityRevisionActionModeAnnotation in
    if negb (retainsPod mode) then noLifecycleAction
    else
      match unmarshalStrings (valueOf annotations connectivityRevisionActionNodesAnnotation) with
      | None => noLifecycleAction
      | Some nodeIDs =>
          match Compact (sort_strings nodeIDs) with
          | [] | "" :: _ => noLifecycleAction
          | nodeIDs => MkLifecycleAction mode planDigest nodeIDs
          end
      end
  end.
End artifacts.
