(* ===== verification/NodeConnectivity.v ===== *)
(** * Changing the links of a running Pod

    Models [controllers/node/directconnectivity.go]: what the Node controller knows of the
    plan a Pod was started with and of the revision it runs, and whether a new plan can be
    handed to the running Pod or needs another one. *)

From S2P Require Import Prelude WireCodec Api GoStrings GoNet GoSort DevicePlanTypes Management CompilerNames.
From S2P Require Import PlanValidation PlanCodec InputCodec ConnectivityRevision PlanInput NodeArtifacts.
Local Open Scope Z_scope.

Definition planVolumeName : string := "node-plan".
Definition inputVolumeName : string := "node-plan-input".
Definition connectivityRevisionVolumeName : string := "clabwire-revision".
Definition templatePlanDigestAnnotation : string := "c9s.run/node-plan-digest".

(** What is read of a Deployment: its owners, the annotations of its template, and for each
    volume the ConfigMap it mounts, if it is one. *)
Record DeviceDeployment := MkDeviceDeployment {
  DD_OwnerUIDs : list string;
  DD_Annotations : gmap string string;
  DD_Volumes : list (string * option string)
}.

Record PlanReferences := MkPlanReferences {
  References_PlanDigest : string;
  References_PlanConfigMapName : string;
  References_InputConfigMapName : string;
  References_ConnectivityRevisionConfigMapName : string
}.
#[export] Instance PlanReferences_updatable : Updatable PlanReferences :=
  λ r, MkPlanReferences (References_PlanDigest r) (References_PlanConfigMapName r) (References_InputConfigMapName r)
         (References_ConnectivityRevisionConfigMapName r).

Definition mountedReference (references : PlanReferences) (volume : string * option string) : PlanReferences :=
  match volume.2 with
  | None => references
  | Some name =>
      if bool_decide (volume.1 = planVolumeName) then references <| References_PlanConfigMapName := name |>
      else if bool_decide (volume.1 = inputVolumeName) then references <| References_InputConfigMapName := name |>
      else if bool_decide (volume.1 = connectivityRevisionVolumeName)
      then references <| References_ConnectivityRevisionConfigMapName := name |>
      else references
  end.

(** [None]: the references are incomplete. *)
Definition DeploymentPlanReferences (deployment : DeviceDeployment) : option PlanReferences :=
  let references := foldl mountedReference
                      (MkPlanReferences (valueOf (DD_Annotations deployment) templatePlanDigestAnnotation) "" "" "")
                      (DD_Volumes deployment) in
  if empty (References_PlanConfigMapName references) || empty (References_InputConfigMapName references)
     || empty (References_ConnectivityRevisionConfigMapName references) || empty (References_PlanDigest references)
  then None else Some references.

Inductive coldPlanError :=
| errDirectColdPlanUnavailable
| coldPlanFailed (e : artifactError)
| coldPlanInvalid (e : PlanError)
| deploymentNotOwned
| applyFailed (e : connectivityError).

Record directColdPlan := MkDirectColdPlan {
  Cold_Input : Input;
  Cold_Plan : Plan;
  Cold_EffectiveInput : Input;
  Cold_EffectivePlan : Plan;
  Cold_References : PlanReferences
}.

Record directConnectivityDecision := MkDecision {
  Decision_Revision : option ConnectivityRevision;
  Decision_ColdReferences : option PlanReferences;
  Decision_AppliedPlan : option Plan;
  RetainPod : bool;
  Decision_LifecycleMode : string;
  Decision_AffectedNodeIDs : list string
}.
(** The Pod is replaced by one with the desired plan. *)
Definition recreate : directConnectivityDecision := MkDecision None None None false "" [].

Section connectivity.
Context (faults : apiCall → bool).
Context {text : JSONText} {sort : GoSort} {planJSON : PlanJSON} {inputJSON : InputJSON} {revisionJSON : RevisionJSON}
        {sha : Sha256} {quote : FmtQuote}.

Definition currentOwnedDirectDeployment (getFails : bool) (existing : option DeviceDeployment) (uid : string) :
    result coldPlanError (option DeviceDeployment) :=
  if getFails then Err (coldPlanFailed (invalidArtifact "reading direct device Deployment"))
  else
    match existing with
    | None => Ok None
    | Some deployment =>
        if bool_decide (uid ∈ DD_OwnerUIDs deployment) then Ok (Some deployment) else Err deploymentNotOwned
    end.

(** An artifact that has to be there. *)
Definition coldMap (store : mapStore) (namespace name : string) : result coldPlanError ArtifactMap :=
  if faults (GetMap (namespace, name)) then Err (coldPlanFailed (callFailed (GetMap (namespace, name))))
  else match store !! (namespace, name) with None => Err errDirectColdPlanUnavailable | Some m => Ok m end.

Definition unavailable (condition : bool) : result coldPlanError unit :=
  if condition then Err errDirectColdPlanUnavailable else Ok ().
Definition orUnavailable {E A} (r : result E A) : result coldPlanError A :=
  match r with Ok x => Ok x | Err _ => Err errDirectColdPlanUnavailable end.
Definition orInvalid {A} (r : result PlanError A) : result coldPlanError A :=
  match r with Ok x => Ok x | Err e => Err (coldPlanInvalid e) end.

(** The ownership of an immutable artifact. *)
Definition foreignArtifact (m : ArtifactMap) (uid component : string) : bool :=
  negb (controlledByNodeUID m uid) || negb (bool_decide (valueOf (AM_Labels m) planOwnerUIDLabel = uid))
  || negb (isTrue (AM_Immutable m)) || negb (bool_decide (valueOf (AM_Labels m) LabelComponent = component))
  || negb (bool_decide (size (AM_Data m) = 1%nat)) || negb (bool_decide (AM_BinaryData m = ∅)).
Definition foreignRevision (m : ArtifactMap) (uid : string) : bool :=
  negb (controlledByNodeUID m uid) || negb (bool_decide (valueOf (AM_Labels m) planOwnerUIDLabel = uid))
  || negb (bool_decide (valueOf (AM_Labels m) LabelComponent = connectivityRevisionComponentLabelValue))
  || isTrue (AM_Immutable m) || negb (bool_decide (size (AM_Data m) = 1%nat)) || negb (bool_decide (AM_BinaryData m = ∅)).

Definition loadDirectColdPlan (store : mapStore) (node : ArtifactNode) (deployment : DeviceDeployment) :
    result coldPlanError directColdPlan :=
  match DeploymentPlanReferences deployment with
  | None => Err errDirectColdPlanUnavailable
  | Some references =>
      let? planMap := coldMap store (AN_Namespace node) (References_PlanConfigMapName references) in
      let? inputMap := coldMap store (AN_Namespace node) (References_InputConfigMapName references) in
      let? revisionMap := coldMap store (AN_Namespace node) (References_ConnectivityRevisionConfigMapName references) in
      unavailable (foreignArtifact planMap (AN_UID node) planComponentLabelValue
                   || foreignArtifact inputMap (AN_UID node) plannerInputComponentLabelValue) ;;?
      unavailable (foreignRevision revisionMap (AN_UID node)) ;;?
      let? plan := orUnavailable (DecodePlan (valueOf (AM_Data planMap) planDataKey)) in
      let? input := orUnavailable (DecodeInput (valueOf (AM_Data inputMap) plannerInputKey)) in
      let? planDigest := orInvalid (PlanDigest plan) in
      let? inputDigest := orInvalid (InputDigest input) in
      unavailable (negb (bool_decide (planDigest = References_PlanDigest references))
                   || negb (bool_decide (planDigest = valueOf (AM_Annotations planMap) planDigestAnnotation))
                   || negb (bool_decide (inputDigest = Plan_InputDigest plan))
                   || negb (bool_decide (inputDigest = valueOf (AM_Annotations planMap) planInputDigestAnnotation))
                   || negb (bool_decide (inputDigest = valueOf (AM_Annotations inputMap) planInputDigestAnnotation))) ;;?
      let? revision := orUnavailable (DecodeConnectivityRevision (valueOf (AM_Data revisionMap) connectivityRevisionDataKey)) in
      unavailable (negb (bool_decide (BasePlanDigest revision = planDigest))
                   || negb (bool_decide (References_ConnectivityRevisionConfigMapName references
                                         = connectivityRevisionConfigMapName (AN_Name node) planDigest))) ;;?
      let? effective := orUnavailable (ApplyConnectivityRevision input plan revision) in
      Ok (MkDirectColdPlan input plan effective.1 effective.2 references)
  end.

(** Whether the Deployment is the one rendered for a plan under given references. *)
Context (conforms : DeviceDeployment → Plan → PlanReferences → bool).

Definition needsRecreation (transition : ConnectivityTransition) : bool :=
  Changed transition && negb (bool_decide (RequiredMode transition = LinkApplyLive)).
Definition recreateFor (transition : ConnectivityTransition) : directConnectivityDecision :=
  MkDecision None None None false LinkApplyRecreate (AffectedNodeIDs transition).

Definition directConnectivityRevision (store : mapStore) (node : ArtifactNode) (existing : option DeviceDeployment)
    (desiredInput : Input) (desiredPlan : Plan) (stopped : bool) : result coldPlanError directConnectivityDecision :=
  match existing with
  | None => Ok recreate
  | Some deployment =>
      if stopped then Ok recreate
      else
        match loadDirectColdPlan store node deployment with
        | Err errDirectColdPlanUnavailable => Ok recreate
        | Err e => Err e
        | Ok cold =>
            match EvaluateConnectivityTransition (Cold_EffectiveInput cold) (Cold_EffectivePlan cold) desiredInput desiredPlan with
            | Err _ => Ok recreate
            | Ok transition =>
                if needsRecreation transition then Ok (recreateFor transition)
                else
                  match EvaluateConnectivityTransition (Cold_Input cold) (Cold_Plan cold) desiredInput desiredPlan with
                  | Err _ => Ok recreate
                  | Ok cumulativeTransition =>
                      if needsRecreation cumulativeTransition then Ok (recreateFor cumulativeTransition)
                      else
                        match NewConnectivityRevisionForMode (Cold_Input cold) (Cold_Plan cold) desiredInput desiredPlan
                                (RequiredMode cumulativeTransition) with
                        | Err _ => Ok recreate
                        | Ok revision =>
                            if negb (conforms deployment (Cold_Plan cold) (Cold_References cold)) then Ok recreate
                            else
                              match ApplyConnectivityRevision (Cold_Input cold) (Cold_Plan cold) revision with
                              | Err e => Err (applyFailed e)
                              | Ok applied =>
                                  Ok (MkDecision (Some revision) (Some (Cold_References cold)) (Some applied.2) true
                                        (if Changed transition then RequiredMode transition else "")
                                        (AffectedNodeIDs transition))
                              end
                        end
                  end
            end
        end
  end.
End connectivity.
