(* ===== verification/NodeConnectivityTheorems.v ===== *)
(** * What the artifacts of a Node promise

    What the controller stored for a Pod it finds again, and a Pod is kept only for changes
    that it can take while it runs. *)

From S2P Require Import Prelude WireCodec Api GoStrings GoNet DevicePlanTypes Management ManagementTheorems.
From S2P Require Import PeerDirectory Hosts NameResolution GoSort PlanValidation PlanSpec PlanAcceptance.
From S2P Require Import PlanCodec PlanCanonical PlanTheorems PlanExamples InputCodec InputSpec InputTheorems.
From S2P Require Import CompilerNames ConnectivityRevision ConnectivityTheorems PlanInput NodeArtifacts.
From S2P Require Import NodeConnectivity.
Local Open Scope Z_scope.

Lemma containsExpectedMetadata_spec existing expected :
  containsExpectedMetadata existing expected = true ↔ ∀ k v, expected !! k = Some v → valueOf existing k = v.
Proof.
  unfold containsExpectedMetadata. rewrite forallb_forall. split.
  - intros H k v Hk. apply (bool_decide_eq_true_1 _ (H (k, v) (proj1 (list_elem_of_In _ _) (proj2 (elem_of_map_to_list _ _ _) Hk)))).
  - intros H [k v] Hin%list_elem_of_In%elem_of_map_to_list. apply bool_decide_eq_true_2. by apply H.
Qed.

(** Objects are stored under their names. *)
Definition wf_store (store : mapStore) : Prop :=
  ∀ k m, store !! k = Some m → (AM_Namespace m, AM_Name m) = k.

(** An object carries what was rendered for it. *)
Record carries (m rendered : ArtifactMap) : Prop := {
  ca_labels : ∀ k v, AM_Labels rendered !! k = Some v → valueOf (AM_Labels m) k = v;
  ca_annotations : ∀ k v, AM_Annotations rendered !! k = Some v → valueOf (AM_Annotations m) k = v;
  ca_owners : AM_Owners m = AM_Owners rendered;
  ca_data : AM_Data m = AM_Data rendered;
  ca_immutable : isTrue (AM_Immutable m) = isTrue (AM_Immutable rendered)
}.

Lemma carries_refl m : carries m m.
Proof. split; unfold valueOf; try done; by intros k v ->. Qed.

Definition keyOf (m : ArtifactMap) : mapKey := (AM_Namespace m, AM_Name m).

Section theorems.
Context (faults : apiCall → bool).
Context {text : JSONText} {sort : GoSort} {planJSON : PlanJSON} {inputJSON : InputJSON} {revisionJSON : RevisionJSON}
        {sha : Sha256} {quote : FmtQuote}.

(** What an ensured object leaves in the store. *)
Definition stored (store store' : mapStore) (rendered m : ArtifactMap) : Prop :=
  store' !! keyOf rendered = Some m ∧ carries m rendered ∧ wf_store store' ∧
  ∀ k, k ≠ keyOf rendered → store' !! k = store !! k.

Lemma insert_stored store rendered m :
  wf_store store → keyOf m = keyOf rendered → carries m rendered → stored store (<[keyOf m := m]> store) rendered m.
Proof.
  intros Hwf Hk Hc. rewrite Hk. split_and!; [apply lookup_insert_eq|done| |intros k Hne; by apply lookup_insert_ne].
  intros k m' [[<- <-]|[_ H]]%lookup_insert_Some; [exact Hk|by apply Hwf].
Qed.

Lemma conforms_carries existing rendered :
  AM_Immutable rendered = Some true → planConfigMapConforms existing rendered = true → carries existing rendered.
Proof.
  unfold planConfigMapConforms. intros Hi. rewrite !andb_true_iff, !bool_decide_eq_true, !containsExpectedMetadata_spec.
  intros [[[[H1 H2] H3] H4] H5]. split; try done. by rewrite H1, Hi.
Qed.

Lemma ensureImmutable_stored store rendered store' m :
  wf_store store → AM_Immutable rendered = Some true → ensureImmutable faults store rendered = (store', Ok m) →
  stored store store' rendered m.
Proof.
  intros Hwf Hi. unfold ensureImmutable, createMap. destruct (faults (GetMap _)); [done|].
  destruct (store !! (AM_Namespace rendered, AM_Name rendered)) as [existing|] eqn:E.
  - destruct (planConfigMapConforms existing rendered) eqn:Hc; [|done]. cbn. intros [= <- <-].
    split_and!; [done|by apply conforms_carries|done..].
  - destruct (faults (CreateMap _)); [done|]. intros [= <- <-].
    apply (insert_stored _ rendered rendered); [done..|apply carries_refl].
Qed.

Lemma union_value (a b : gmap string string) k v : a !! k = Some v → valueOf (a ∪ b) k = v.
Proof. intros H. unfold valueOf. by rewrite (lookup_union_Some_l _ _ _ _ H). Qed.

Lemma EnsureRevision_stored store node revision store' m :
  wf_store store → EnsureRevision faults store node revision = (store', Ok m) →
  ∃ rendered, renderRevisionMap node revision = Ok rendered ∧ AM_BinaryData m = ∅ ∧ stored store store' rendered m.
Proof.
  intros Hwf. unfold EnsureRevision. destruct (renderRevisionMap node revision) as [rendered|] eqn:Hr; [|done].
  assert (AM_Immutable rendered = None ∧ AM_BinaryData rendered = ∅) as [Him Hbin].
  { unfold renderRevisionMap in Hr. apply seq_Ok in Hr as [_ Hr]. destruct (RevisionCanonicalJSON revision); [|done].
    by injection Hr as <-. }
  destruct (faults (GetMap _)); [done|]. destruct (store !! (AM_Namespace rendered, AM_Name rendered)) as [existing|] eqn:E.
  - destruct (connectivityRevisionConfigMapIsOwned existing rendered) eqn:Ho; [|done]. cbn [negb].
    pose proof (Hwf _ _ E) as Hkey. fold (keyOf existing) in Hkey.
    destruct (connectivityRevisionConfigMapConforms existing rendered) eqn:Hc.
    + intros [= <- <-]. exists rendered. split; [done|]. revert Hc. unfold connectivityRevisionConfigMapConforms.
      unfold connectivityRevisionConfigMapIsOwned in Ho.
      rewrite !andb_true_iff, !negb_true_iff, !bool_decide_eq_true, !containsExpectedMetadata_spec in *.
      intros [[[[_ H2] H3] H4] H5]. split; [done|]. split_and!; try done. split; try done; [apply Ho|]. rewrite Him. apply Ho.
    + unfold updateMap. destruct (faults (UpdateMap _)); [done|]. intros [= <- <-]. exists rendered. split; [done|]. split; [done|].
      apply (insert_stored _ rendered (updatedRevision existing rendered)); [done|exact Hkey|]. split; try done.
      * intros k v Hk. by apply union_value.
      * intros k v Hk. by apply union_value.
      * by rewrite Him.
  - unfold createMap. destruct (faults (CreateMap _)); [done|]. intros [= <- <-]. exists rendered. split_and!; [done..|].
    apply (insert_stored _ rendered rendered); [done..|apply carries_refl].
Qed.

(** ** Names *)

Lemma append_suffix (a b t u : string) : String.length t = String.length u → a +:+ t = b +:+ u → t = u.
Proof.
  intros Hl. revert b. induction a as [|x a IH]; intros [|y b] H; [done|..].
  - change (t = String y b +:+ u) in H. apply (f_equal String.length) in H. rewrite length_string_app in H. cbn in H. lia.
  - change (String x a +:+ t = u) in H. apply (f_equal String.length) in H. rewrite length_string_app in H. cbn in H. lia.
  - injection H as _ H. by apply (IH b).
Qed.

Lemma length_digestSuffix raw : String.length (digestSuffix (Digest raw)) = 12%nat.
Proof.
  unfold digestSuffix, Digest, TrimPrefix. rewrite trim_prefix_app. fold (hexString (Sum256 raw)).
  apply prefixOf_length. change (12 ≤ String.length (hexString (Sum256 raw)))%nat. destruct (hexString_spec (Sum256 raw) (Sum256_bytes raw)) as [_ ->]. rewrite Sum256_length. lia.
Qed.

Lemma append_assoc' (a b c : string) : (a +:+ b) +:+ c = a +:+ (b +:+ c).
Proof. induction a as [|x a IH]; [done|]. change (String x ((a +:+ b) +:+ c) = String x (a +:+ (b +:+ c))). by rewrite IH. Qed.

Lemma suffixed_tail nodeName early tail suffix :
  ∃ head, suffixedName nodeName ((early +:+ tail) +:+ suffix) = head +:+ (tail +:+ suffix).
Proof. unfold suffixedName. eexists. by rewrite append_assoc', <- append_assoc'. Qed.

(** The three artifacts of a Node have different names. *)
Lemma artifact_names_differ nodeName p i c :
  let plan := planConfigMapName nodeName (Digest p) in
  let input := plannerInputConfigMapName nodeName (Digest i) in
  let revision := connectivityRevisionConfigMapName nodeName (Digest c) in
  plan ≠ input ∧ plan ≠ revision ∧ input ≠ revision.
Proof.
  cbv zeta. unfold planConfigMapName, plannerInputConfigMapName, connectivityRevisionConfigMapName.
  destruct (suffixed_tail nodeName "" "-plan-" (digestSuffix (Digest p))) as [h1 E1].
  destruct (suffixed_tail nodeName "-plan-" "input-" (digestSuffix (Digest i))) as [h2 E2].
  destruct (suffixed_tail nodeName "-connect" "ivity-" (digestSuffix (Digest c))) as [h3 E3].
  change (("" +:+ "-plan-") +:+ digestSuffix (Digest p)) with ("-plan-" +:+ digestSuffix (Digest p)) in E1.
  change ("-plan-" +:+ "input-") with "-plan-input-" in E2. change ("-connect" +:+ "ivity-") with "-connectivity-" in E3.
  rewrite E1, E2, E3. split_and!; intros H; apply append_suffix in H;
    try (rewrite !length_string_app, !length_digestSuffix; reflexivity); discriminate H.
Qed.

(** ** Loading what was stored *)

Definition renderedPlan (node : ArtifactNode) (rawPlan rawInput : string) : ArtifactMap :=
  MkArtifactMap (planConfigMapName (AN_Name node) (Digest rawPlan)) (AN_Namespace node)
    (artifactLabels node planComponentLabelValue)
    {[ planDigestAnnotation := Digest rawPlan; planInputDigestAnnotation := Digest rawInput ]}
    [nodeOwner node] (Some true) {[ planDataKey := rawPlan ]} ∅.
Definition renderedInput (node : ArtifactNode) (rawInput : string) : ArtifactMap :=
  MkArtifactMap (plannerInputConfigMapName (AN_Name node) (Digest rawInput)) (AN_Namespace node)
    (artifactLabels node plannerInputComponentLabelValue) {[ planInputDigestAnnotation := Digest rawInput ]}
    [nodeOwner node] (Some true) {[ plannerInputKey := rawInput ]} ∅.
Definition renderedRevision (node : ArtifactNode) (revision : ConnectivityRevision) (raw : string) : ArtifactMap :=
  MkArtifactMap (connectivityRevisionConfigMapName (AN_Name node) (BasePlanDigest revision)) (AN_Namespace node)
    (artifactLabels node connectivityRevisionComponentLabelValue)
    {[ connectivityRevisionBaseAnnotation := BasePlanDigest revision;
       connectivityRevisionDesiredAnnotation := DesiredPlanDigest revision ]}
    [nodeOwner node] None {[ connectivityRevisionDataKey := raw ]} ∅.

Lemma refuseArtifact_Ok b message u : refuseArtifact b message = Ok u ↔ b = false.
Proof. unfold refuseArtifact. destruct b, u; naive_solver. Qed.

Lemma renderPlanMap_Ok maxPlan maxInput node artifact rendered :
  renderPlanMap maxPlan maxInput node artifact = Ok rendered →
  rendered = renderedPlan node (Artifact_Plan artifact) (Artifact_NormalizedInputs artifact).
Proof.
  unfold renderPlanMap, validateAndIdentify. intros (identity & H & [= <-])%let_Ok.
  do 6 apply seq_Ok in H as [_ H]. by injection H as <-.
Qed.

Lemma renderInputMap_Ok maxInput node raw sensitive rendered :
  renderInputMap maxInput node raw sensitive = Ok rendered → rendered = renderedInput node raw.
Proof.
  unfold renderInputMap. intros H. do 4 apply seq_Ok in H as [_ H]. destruct (DecodeInput raw); [|done].
  apply seq_Ok in H as [_ H]. by injection H as <-.
Qed.

Lemma renderRevisionMap_Ok node revision rendered :
  renderRevisionMap node revision = Ok rendered →
  ∃ raw, RevisionCanonicalJSON revision = Ok raw ∧ rendered = renderedRevision node revision raw.
Proof.
  unfold renderRevisionMap. intros H. apply seq_Ok in H as [_ H]. destruct (RevisionCanonicalJSON revision) as [raw|]; [|done].
  injection H as <-. by exists raw.
Qed.

(** The store has what was rendered. *)
Definition holds (store : mapStore) (rendered : ArtifactMap) : Prop :=
  ∃ m, store !! keyOf rendered = Some m ∧ carries m rendered ∧ AM_BinaryData m = ∅.

Lemma controlled_owner node m : AM_Owners m = [nodeOwner node] → controlledByNodeUID m (AN_UID node) = true.
Proof. intros H. unfold controlledByNodeUID. rewrite H. cbn. by rewrite bool_decide_eq_true_2. Qed.

Lemma labels_owner node component m :
  (∀ k v, artifactLabels node component !! k = Some v → valueOf (AM_Labels m) k = v) →
  valueOf (AM_Labels m) planOwnerUIDLabel = AN_UID node ∧ valueOf (AM_Labels m) LabelComponent = component.
Proof. intros H. split; apply H; reflexivity. Qed.

Lemma own_artifact node m component rendered k v :
  carries m rendered → AM_BinaryData m = ∅ → AM_Owners rendered = [nodeOwner node] →
  AM_Labels rendered = artifactLabels node component → AM_Data rendered = {[k := v]} → AM_Immutable rendered = Some true →
  foreignArtifact m (AN_UID node) component = false.
Proof.
  intros [Hl _ Ho Hd Hi] Hb Eo El Ed Ei. rewrite Eo in Ho. rewrite El in Hl. rewrite Ed in Hd. rewrite Ei in Hi.
  destruct (labels_owner _ _ _ Hl) as [H1 H2]. unfold foreignArtifact.
  rewrite (controlled_owner _ _ Ho), Hi, H1, H2, Hd, Hb, map_size_singleton, !bool_decide_eq_true_2 by done. done.
Qed.

Lemma own_revision node m rendered k v :
  carries m rendered → AM_BinaryData m = ∅ → AM_Owners rendered = [nodeOwner node] →
  AM_Labels rendered = artifactLabels node connectivityRevisionComponentLabelValue → AM_Data rendered = {[k := v]} →
  AM_Immutable rendered = None → foreignRevision m (AN_UID node) = false.
Proof.
  intros [Hl _ Ho Hd Hi] Hb Eo El Ed Ei. rewrite Eo in Ho. rewrite El in Hl. rewrite Ed in Hd. rewrite Ei in Hi.
  destruct (labels_owner _ _ _ Hl) as [H1 H2]. unfold foreignRevision.
  rewrite (controlled_owner _ _ Ho), Hi, H1, H2, Hd, Hb, map_size_singleton, !bool_decide_eq_true_2 by done. done.
Qed.

Lemma coldMap_Ok store rendered m namespace :
  (∀ k, faults (GetMap k) = false) → store !! keyOf rendered = Some m → AM_Namespace rendered = namespace →
  coldMap faults store namespace (AM_Name rendered) = Ok m.
Proof. intros Hf Hm <-. unfold coldMap. rewrite Hf. unfold keyOf, mapKey, mapStore in *. by rewrite Hm. Qed.

Lemma decoded_plan plan raw :
  CanonicalJSON plan = Ok raw → unambiguous (copyOf plan) →
  ∃ normal, NormalizePlan plan = Ok normal ∧ DecodePlan raw = Ok normal ∧ PlanDigest normal = Ok (Digest raw).
Proof.
  unfold CanonicalJSON. intros (normal & Hn & [= <-])%let_Ok Hu. exists normal.
  pose proof (NormalizePlan_idem _ _ Hn Hu) as Hi. unfold DecodePlan, PlanDigest, CanonicalJSON. rewrite plan_json, Hi.
  split_and!; try done. assert (copied normal) as Hc.
  { apply NormalizePlan_Ok in Hn as [_ ->]. apply copied_sortPlan, copied_copyOf. }
  by rewrite (Hc : cloneJSON normal = normal).
Qed.

Lemma decoded_input input raw :
  InputCanonicalJSON input = Ok raw →
  ∃ normal, NormalizeInput input = Ok normal ∧ DecodeInput raw = Ok normal ∧ InputDigest normal = Ok (Digest raw).
Proof.
  unfold InputCanonicalJSON. intros (normal & Hn & [= <-])%let_Ok. exists normal.
  pose proof (NormalizeInput_idem _ _ Hn) as Hi. unfold DecodeInput, InputDigest, InputCanonicalJSON.
  destruct (normal_input_facts _ _ Hn) as (_ & Hc & _). rewrite (input_json _ _ Hc), Hi. done.
Qed.

(** What the Deployment of a started Pod refers to. *)
Definition startedReferences (node : ArtifactNode) (rawPlan rawInput : string) : PlanReferences :=
  MkPlanReferences (Digest rawPlan) (planConfigMapName (AN_Name node) (Digest rawPlan))
    (plannerInputConfigMapName (AN_Name node) (Digest rawInput))
    (connectivityRevisionConfigMapName (AN_Name node) (Digest rawPlan)).

Lemma load_held store node rawPlan rawInput revision raw bi0 bp0 di0 dp0 mode deployment :
  (∀ k, faults (GetMap k) = false) → unambiguous (copyOf bp0) →
  CanonicalJSON bp0 = Ok rawPlan → InputCanonicalJSON bi0 = Ok rawInput →
  NewConnectivityRevisionForMode bi0 bp0 di0 dp0 mode = Ok revision → RevisionCanonicalJSON revision = Ok raw →
  holds store (renderedPlan node rawPlan rawInput) → holds store (renderedInput node rawInput) →
  holds store (renderedRevision node revision raw) →
  DeploymentPlanReferences deployment = Some (startedReferences node rawPlan rawInput) →
  ∃ bi bp di dp plan, NormalizeInput bi0 = Ok bi ∧ NormalizePlan bp0 = Ok bp ∧ NormalizeInput di0 = Ok di ∧
    NormalizePlan dp0 = Ok dp ∧
    loadDirectColdPlan faults store node deployment = Ok (MkDirectColdPlan bi bp di plan (startedReferences node rawPlan rawInput)) ∧
    Plan_Interfaces plan = Plan_Interfaces dp ∧
    connectivityWaitActions (Plan_Actions plan) ≡ₚ connectivityWaitActions (Plan_Actions dp).
Proof.
  intros Hf Hu Hp Hi Hnew Hraw (pm & Gp & Cp & Bp) (im & Gi & Ci & Bi) (rm & Gr & Cr & Br) Hrefs.
  destruct (built_revision _ _ _ _ _ _ _ Hnew Hraw Hu)
    as (n & bi & bp & di & dp & plan & Hdec & Hnn & Hbi & Hbp & Hdi & Hdp & Hbase & Hm & Hif & Hw & _).
  destruct (decoded_plan _ _ Hp Hu) as (bp' & Hbp' & Hdp' & Hpd). rewrite Hbp in Hbp'. injection Hbp' as <-.
  destruct (decoded_input _ _ Hi) as (bi' & Hbi' & Hdi' & Hid). rewrite Hbi in Hbi'. injection Hbi' as <-.
  rewrite Hpd in Hbase. injection Hbase as Hbase.
  destruct (merge_Ok _ _ _ _ Hm) as (Hident & Hbd & _). rewrite Hpd in Hbd. injection Hbd as Hbd.
  destruct (validateIdentity_digest _ _ Hident) as (ni & np & digest & Hni & Hnp & Hnd & Heq).
  rewrite (NormalizeInput_idem _ _ Hbi) in Hni. injection Hni as <-. rewrite (NormalizePlan_idem _ _ Hbp Hu) in Hnp. injection Hnp as <-.
  rewrite Hid in Hnd. injection Hnd as <-.
  exists bi, bp, di, dp, plan. split_and!; [done|done|done|done| |done|done].
  unfold loadDirectColdPlan. rewrite Hrefs.
  cbn [startedReferences References_PlanConfigMapName References_InputConfigMapName References_ConnectivityRevisionConfigMapName References_PlanDigest].
  rewrite (coldMap_Ok store (renderedPlan node rawPlan rawInput) pm) by done. cbn [rbind].
  rewrite (coldMap_Ok store (renderedInput node rawInput) im) by done. cbn [rbind].
  rewrite Hbase, (coldMap_Ok store (renderedRevision node revision raw) rm) by done. cbn [rbind].
  rewrite (own_artifact node pm _ _ _ _ Cp Bp), (own_artifact node im _ _ _ _ Ci Bi), (own_revision node rm _ _ _ Cr Br) by reflexivity.
  rewrite (ca_data _ _ Cp), (ca_data _ _ Ci), (ca_data _ _ Cr). cbn [renderedPlan renderedInput renderedRevision AM_Data].
  unfold valueOf at 1 2. rewrite !lookup_singleton_eq. cbn [default orb unavailable rbind from_option id].
  rewrite Hdp', Hdi'. cbn [orUnavailable rbind]. rewrite Hpd, Hid. cbn [orInvalid rbind].
  rewrite (ca_annotations _ _ Cp planDigestAnnotation (Digest rawPlan)), (ca_annotations _ _ Cp planInputDigestAnnotation (Digest rawInput)),
    (ca_annotations _ _ Ci planInputDigestAnnotation (Digest rawInput)) by reflexivity.
  rewrite (bool_decide_eq_true_2 (Digest rawInput = Plan_InputDigest bp)), !bool_decide_eq_true_2 by done. cbn [negb orb unavailable rbind].
  unfold valueOf. rewrite lookup_singleton_eq. cbn [default from_option id]. rewrite Hdec. cbn [orUnavailable rbind].
  rewrite <- Hbase, <- Hbd, !bool_decide_eq_true_2 by done. cbn [negb orb unavailable rbind].
  assert (ApplyConnectivityRevision bi bp n = Ok (di, plan)) as ->.
  { apply Apply_Ok. exists n, bi, bp. split_and!; [done| |by eapply NormalizePlan_idem|done]. by eapply NormalizeInput_idem. }
  done.
Qed.

Lemma base_digest bi0 bp0 di0 dp0 mode revision rawPlan :
  NewConnectivityRevisionForMode bi0 bp0 di0 dp0 mode = Ok revision → CanonicalJSON bp0 = Ok rawPlan →
  unambiguous (copyOf bp0) → BasePlanDigest revision = Digest rawPlan.
Proof.
  intros (bi & bp & di & dp & out & (_ & Hbp & _)%transition_sides & _ & _ & _ & _ & Hb & _)%New_Ok Hp Hu.
  destruct (decoded_plan _ _ Hp Hu) as (bp' & Hbp' & _ & Hpd). rewrite Hbp in Hbp'. injection Hbp' as <-.
  rewrite Hpd in Hb. by injection Hb.
Qed.

Lemma stored_holds store store' rendered m :
  stored store store' rendered m → AM_BinaryData m = ∅ → holds store' rendered ∧ wf_store store' ∧ AM_Name m = AM_Name rendered.
Proof.
  intros (H1 & H2 & H3 & _) Hb. split_and!; [by exists m|done|]. apply H3 in H1. unfold keyOf in H1. by injection H1.
Qed.

Lemma stored_keeps store store' rendered m other :
  stored store store' rendered m → holds store other → AM_Name other ≠ AM_Name rendered → holds store' other.
Proof.
  intros (_ & _ & _ & H) (x & Hx & Hc) Hne. exists x. split; [|done]. rewrite H; [done|]. unfold keyOf. congruence.
Qed.

(** C22: What a Pod runs is found again.  When a Node's input, the revision of nothing and its
    plan were stored for a new Pod, loading through the Deployment gives back the input and
    plan, and the plan in effect has their interfaces.  When later a revision to another input
    and plan was stored as well, loading gives the same input and plan, and those in effect are
    the new input and a plan with the new interfaces and waits: the next decision is made
    against what the Pod runs.  Reading is not refused; the base plan is [unambiguous] (no two
    devices of a container with the same paths but different permissions, no two port mappings
    of the same port but different targets); and the input and plan maps that are stored,
    which may have been there before, carry no binary data, which storing accepts and loading
    refuses ([binary_data_accepted_then_refused]). *)
Theorem cold_plan_recovered node artifact maxPlan maxInput bi0 bp0 started di0 dp0 mode revision s0 s1 s2 s3 s4 im pm rm0 rm deployment :
  wf_store s0 → (∀ k, faults (GetMap k) = false) → unambiguous (copyOf bp0) →
  CanonicalJSON bp0 = Ok (Artifact_Plan artifact) → InputCanonicalJSON bi0 = Ok (Artifact_NormalizedInputs artifact) →
  EnsureInput faults maxInput s0 node (Artifact_NormalizedInputs artifact) (Artifact_SensitiveValues artifact) = (s1, Ok im) →
  NewConnectivityRevision bi0 bp0 bi0 bp0 = Ok started → EnsureRevision faults s1 node started = (s2, Ok rm0) →
  EnsurePlan faults maxPlan maxInput s2 node artifact = (s3, Ok pm) → AM_BinaryData im = ∅ → AM_BinaryData pm = ∅ →
  DeploymentPlanReferences deployment =
    Some (MkPlanReferences (Digest (Artifact_Plan artifact)) (AM_Name pm) (AM_Name im) (AM_Name rm0)) →
  NewConnectivityRevisionForMode bi0 bp0 di0 dp0 mode = Ok revision → EnsureRevision faults s3 node revision = (s4, Ok rm) →
  ∃ bi bp di dp cold revised, NormalizeInput bi0 = Ok bi ∧ NormalizePlan bp0 = Ok bp ∧
    NormalizeInput di0 = Ok di ∧ NormalizePlan dp0 = Ok dp ∧
    loadDirectColdPlan faults s3 node deployment = Ok cold ∧ Cold_Input cold = bi ∧ Cold_Plan cold = bp ∧
    Cold_EffectiveInput cold = bi ∧ Plan_Interfaces (Cold_EffectivePlan cold) = Plan_Interfaces bp ∧
    loadDirectColdPlan faults s4 node deployment = Ok revised ∧ Cold_Input revised = bi ∧ Cold_Plan revised = bp ∧
    Cold_EffectiveInput revised = di ∧ Plan_Interfaces (Cold_EffectivePlan revised) = Plan_Interfaces dp ∧
    connectivityWaitActions (Plan_Actions (Cold_EffectivePlan revised)) ≡ₚ connectivityWaitActions (Plan_Actions dp).
Proof.
  intros Hwf Hf Hu Hp Hi E1 Hstart E2 E3 Bi Bp Hrefs Hnew E4.
  unfold EnsureInput in E1. destruct (renderInputMap _ _ _ _) as [ri|] eqn:Ri; [|done]. apply renderInputMap_Ok in Ri as ->.
  apply ensureImmutable_stored in E1; [|done|done]. destruct (stored_holds _ _ _ _ E1 Bi) as (H1 & W1 & Ni).
  destruct (EnsureRevision_stored _ _ _ _ _ W1 E2) as (r0 & (raw0 & J0 & ->)%renderRevisionMap_Ok & B0 & S2).
  destruct (stored_holds _ _ _ _ S2 B0) as (H2 & W2 & N0).
  unfold EnsurePlan in E3. destruct (renderPlanMap _ _ _ _) as [rp|] eqn:Rp; [|done]. apply renderPlanMap_Ok in Rp as ->.
  apply ensureImmutable_stored in E3; [|done|done]. destruct (stored_holds _ _ _ _ E3 Bp) as (H3 & W3 & Np).
  destruct (EnsureRevision_stored _ _ _ _ _ W3 E4) as (r1 & (raw1 & J1 & ->)%renderRevisionMap_Ok & B1 & S4).
  destruct (stored_holds _ _ _ _ S4 B1) as (H4 & W4 & N1). rewrite Np, Ni, N0 in Hrefs.
  pose proof (base_digest _ _ _ _ _ _ _ Hstart Hp Hu) as D0. pose proof (base_digest _ _ _ _ _ _ _ Hnew Hp Hu) as D1.
  cbn [renderedPlan renderedInput renderedRevision AM_Name] in Hrefs. rewrite D0 in Hrefs.
  destruct (artifact_names_differ (AN_Name node) (Artifact_Plan artifact) (Artifact_NormalizedInputs artifact) (Artifact_Plan artifact))
    as (Hpi & Hpr & Hir).
  assert (holds s3 (renderedInput node (Artifact_NormalizedInputs artifact))) as I3.
  { eapply stored_keeps; [exact E3| |by apply not_eq_sym]. eapply stored_keeps; [exact S2|done|]. cbn. by rewrite D0. }
  assert (holds s3 (renderedRevision node started raw0)) as R3.
  { eapply stored_keeps; [exact E3|done|]. cbn. rewrite D0. by apply not_eq_sym. }
  assert (holds s4 (renderedInput node (Artifact_NormalizedInputs artifact))) as I4
    by (eapply stored_keeps; [exact S4|done|cbn; by rewrite D1]).
  assert (holds s4 (renderedPlan node (Artifact_Plan artifact) (Artifact_NormalizedInputs artifact))) as P4
    by (eapply stored_keeps; [exact S4|done|cbn; by rewrite D1]).
  destruct (load_held _ _ _ _ _ _ _ _ _ _ _ _ Hf Hu Hp Hi Hstart J0 H3 I3 R3 Hrefs) as (bi & bp & ? & ? & plan & Hbi & Hbp & X & Y & L3 & F3 & _).
  rewrite Hbi in X. injection X as <-. rewrite Hbp in Y. injection Y as <-.
  destruct (load_held _ _ _ _ _ _ _ _ _ _ _ _ Hf Hu Hp Hi Hnew J1 P4 I4 H4 Hrefs) as (bi' & bp' & di & dp & plan' & X & Y & Hdi & Hdp & L4 & F4 & G4).
  rewrite Hbi in X. injection X as <-. rewrite Hbp in Y. injection Y as <-.
  eexists bi, bp, di, dp, _, _. repeat (split; [first [exact L3|exact L4|done]|]). exact G4.
Qed.

(** ** Keeping a Pod *)

Lemma rank_live mode : linkApplyModeRank mode ≤ 0 → mode = LinkApplyLive.
Proof. unfold linkApplyModeRank. repeat case_bool_decide; by try lia. Qed.

Lemma required_live transition bi bp di dp :
  transition = evaluateNormalizedConnectivityTransition bi bp di dp → needsRecreation transition = false →
  RequiredMode transition = LinkApplyLive.
Proof.
  intros ->. destruct (transition_spec bi bp di dp) as (Hc & _ & Hm & _). unfold needsRecreation.
  destruct (Changed _) eqn:E; cbn [andb].
  - rewrite negb_false_iff, bool_decide_eq_true. done.
  - intros _. destruct Hm as [|(intf & _ & Ha & _)]; [done|]. assert (false = true) by (apply Hc; by eexists). done.
Qed.

Lemma Evaluate_Ok bi0 bp0 di0 dp0 transition :
  EvaluateConnectivityTransition bi0 bp0 di0 dp0 = Ok transition →
  ∃ bi bp di dp, transition = evaluateNormalizedConnectivityTransition bi bp di dp.
Proof.
  unfold EvaluateConnectivityTransition. intros H. apply let_Ok in H as ([[[bi bp] di] dp] & _ & H).
  apply let_Ok in H as (effective & _ & [= <-]). by do 4 eexists.
Qed.

Context (conforms : DeviceDeployment → Plan → PlanReferences → bool).

(** The only way to keep a Pod. *)
Lemma retained_Ok store node existing di0 dp0 stopped decision :
  directConnectivityRevision faults conforms store node existing di0 dp0 stopped = Ok decision → RetainPod decision = true →
  ∃ deployment cold revision applied mode, existing = Some deployment ∧ stopped = false ∧
    loadDirectColdPlan faults store node deployment = Ok cold ∧
    conforms deployment (Cold_Plan cold) (Cold_References cold) = true ∧ mode = LinkApplyLive ∧
    NewConnectivityRevisionForMode (Cold_Input cold) (Cold_Plan cold) di0 dp0 mode = Ok revision ∧
    ApplyConnectivityRevision (Cold_Input cold) (Cold_Plan cold) revision = Ok applied ∧
    Decision_Revision decision = Some revision ∧ Decision_AppliedPlan decision = Some applied.2.
Proof.
  unfold directConnectivityRevision. destruct existing as [deployment|]; [|by intros [= <-]].
  destruct stopped; [by intros [= <-]|]. destruct (loadDirectColdPlan _ _ _ _) as [cold|[]] eqn:Hload; try done; [|by intros [= <-]].
  destruct (EvaluateConnectivityTransition (Cold_EffectiveInput cold) _ _ _) as [transition|] eqn:Ht; [|by intros [= <-]].
  destruct (needsRecreation transition); [by intros [= <-]|].
  destruct (EvaluateConnectivityTransition (Cold_Input cold) _ _ _) as [cumulative|] eqn:Hc; [|by intros [= <-]].
  destruct (needsRecreation cumulative) eqn:Hn; [by intros [= <-]|].
  destruct (Evaluate_Ok _ _ _ _ _ Hc) as (b1 & b2 & b3 & b4 & E). pose proof (required_live _ _ _ _ _ E Hn) as Hlive.
  destruct (NewConnectivityRevisionForMode _ _ _ _ _) as [revision|] eqn:Hr; [|by intros [= <-]].
  destruct (conforms deployment _ _) eqn:Hcf; [|by intros [= <-]]. cbn [negb].
  destruct (ApplyConnectivityRevision _ _ _) as [applied|] eqn:Ha; [|done]. intros [= <-] _.
  exists deployment, cold, revision, applied, (RequiredMode cumulative). by split_and!.
Qed.

(** A Pod is kept only for changes it can take while it runs.  When the controller decides
    to keep a Pod, the Pod is not stopped, its Deployment is the one rendered for the plan the
    Pod was started with, and the revision, applied to that plan, gives exactly the desired
    input and interfaces.  Every interface of a link the revision touches, in the plan the Pod
    was started with or in the new one, is declared to take changes live. *)
Theorem retained_pod_safe store node existing di0 dp0 stopped decision :
  directConnectivityRevision faults conforms store node existing di0 dp0 stopped = Ok decision → RetainPod decision = true →
  (∀ deployment cold, existing = Some deployment → loadDirectColdPlan faults store node deployment = Ok cold →
     unambiguous (copyOf (Cold_Plan cold))) →
  ∃ deployment cold revision bi bp di dp plan, existing = Some deployment ∧ stopped = false ∧
    loadDirectColdPlan faults store node deployment = Ok cold ∧
    conforms deployment (Cold_Plan cold) (Cold_References cold) = true ∧
    Decision_Revision decision = Some revision ∧ Decision_AppliedPlan decision = Some plan ∧
    NormalizeInput (Cold_Input cold) = Ok bi ∧ NormalizePlan (Cold_Plan cold) = Ok bp ∧
    NormalizeInput di0 = Ok di ∧ NormalizePlan dp0 = Ok dp ∧
    ApplyConnectivityRevision (Cold_Input cold) (Cold_Plan cold) revision = Ok (di, plan) ∧
    Plan_Interfaces plan = Plan_Interfaces dp ∧
    (∀ intf, intf ∈ Plan_Interfaces bp ++ Plan_Interfaces plan → affectedLink bi bp di plan (InterfacePlan_LinkID intf) →
       InterfacePlan_LinkApplyMode intf = LinkApplyLive).
Proof.
  intros H Hret Hu. destruct (retained_Ok _ _ _ _ _ _ _ H Hret)
    as (deployment & cold & revision & [input plan] & mode & He & Hs & Hl & Hcf & -> & Hnew & Ha & Hdr & Hda).
  specialize (Hu _ _ He Hl).
  pose proof Hnew as (bi & bp & di & dp & out & Hsides & E1 & E2 & E3 & Hmode & _ & _)%New_Ok.
  apply transition_sides in Hsides as (Hbi & Hbp & Hdi & Hdp & Hsame).
  pose proof Ha as (n & bi' & bp' & Hn & Hbi' & Hbp' & Hm)%Apply_Ok.
  rewrite Hbi in Hbi'. injection Hbi' as <-. rewrite Hbp in Hbp'. injection Hbp' as <-.
  pose proof (NormalizeInput_idem _ _ Hbi) as Ibi. pose proof (NormalizePlan_idem _ _ Hbp Hu) as Ibp.
  destruct (merged_desired _ _ _ _ _ _ _ _ _ Ibi Ibp Hdi Hdp Hsame E1 E2 E3 Hn Hm) as (M1 & M2 & _). cbn [fst snd] in *. subst input.
  exists deployment, cold, revision, bi, bp, di, dp, plan. split_and!; try done.
  intros intf Hin Haff. apply rank_live. destruct (merge_Ok _ _ _ _ Hm) as (_ & _ & _ & _ & _ & Hreq). cbn [fst snd] in Hreq.
  destruct (transition_spec bi bp di plan) as (_ & Hrank & _). specialize (Hrank _ Hin Haff). rewrite Hreq in Hrank.
  destruct (normalized_revision _ _ Hn) as (_ & _ & Hok & Heq). pose proof (normalized_rank _ _ Hok Heq) as Hnr.
  change (linkApplyModeRank LinkApplyLive) with 0 in Hmode. lia.
Qed.

(** ** Collecting artifacts *)

Lemma deleteMaps_subset objects store store' r :
  deleteMaps faults store objects = (store', r) →
  (∀ k, store' !! k = store !! k ∨ (store' !! k = None ∧ k ∈ keyOf <$> objects)) ∧
  (r = Ok () → ∀ k, k ∈ keyOf <$> objects → store' !! k = None).
Proof.
  revert store. induction objects as [|object objects IH]; intros store; cbn [deleteMaps].
  { intros [= <- <-]. split; [by left|]. by intros _ k ?%elem_of_nil. }
  fold (keyOf object). destruct (faults (DeleteMap (keyOf object))).
  { intros [= <- <-]. split; [by left|done]. }
  intros H. destruct (IH _ H) as [H1 H2]. rewrite fmap_cons. setoid_rewrite elem_of_cons. split.
  - intros k. destruct (H1 k) as [Hk|[Hk Hin]]; [|right; tauto]. rewrite Hk.
    destruct (decide (k = keyOf object)) as [->|Hne]; [right; split; [apply lookup_delete_eq|by left]|left; by apply lookup_delete_ne].
  - intros Hr k [->|Hin]; [|by apply H2]. destruct (H1 (keyOf object)) as [Hk|[Hk _]]; [|done]. rewrite Hk. apply lookup_delete_eq.
Qed.

Lemma elem_of_listMaps store namespace labels m :
  wf_store store →
  m ∈ listMaps store namespace labels ↔ store !! keyOf m = Some m ∧ AM_Namespace m = namespace ∧ labels ⊆ AM_Labels m.
Proof.
  intros Hwf. unfold listMaps. rewrite list_elem_of_fmap. split.
  - intros ([k m'] & -> & [[Hn Hl] Hin%elem_of_map_to_list]%list_elem_of_filter). cbn in *. pose proof (Hwf _ _ Hin) as Hk.
    fold (keyOf m') in Hk. subst k. done.
  - intros (Hm & Hn & Hl). exists (keyOf m, m). split; [done|]. apply list_elem_of_filter. split; [done|].
    by apply elem_of_map_to_list.
Qed.

Lemma elem_of_referencedMaps pods uid name :
  name ∈ referencedMaps pods uid ↔ ∃ pod, pod ∈ pods ∧ valueOf (VP_Annotations pod) NodeUIDAnnotation = uid ∧ name ∈ VP_ConfigMaps pod.
Proof.
  unfold referencedMaps. assert (∀ s : gset string, name ∈ foldl (λ referenced pod,
    if bool_decide (valueOf (VP_Annotations pod) NodeUIDAnnotation = uid)
    then list_to_set (VP_ConfigMaps pod) ∪ referenced else referenced) s pods ↔
    name ∈ s ∨ ∃ pod, pod ∈ pods ∧ valueOf (VP_Annotations pod) NodeUIDAnnotation = uid ∧ name ∈ VP_ConfigMaps pod) as H.
  { induction pods as [|pod pods IH]; intros s; cbn [foldl].
    - split; [by left|]. intros [|(? & []%elem_of_nil & _)]. done.
    - rewrite IH. setoid_rewrite elem_of_cons. case_bool_decide; [rewrite elem_of_union, elem_of_list_to_set|]; naive_solver. }
  rewrite H. set_solver.
Qed.

(** An object of a Node that is no longer needed. *)
Definition superseded (node : ArtifactNode) (component : string) (keep : list string) (m : ArtifactMap) : Prop :=
  AM_Namespace m = AN_Namespace node ∧
  ({[ LabelComponent := component; planOwnerUIDLabel := AN_UID node ]} : gmap string string) ⊆ AM_Labels m ∧
  controlledByNodeUID m (AN_UID node) = true ∧ AM_Name m ∉ keep.
(** A Pod of the Node mounts the object. *)
Definition mounted (pods : list VolumePod) (node : ArtifactNode) (m : ArtifactMap) : Prop :=
  ∃ pod, pod ∈ pods ∧ valueOf (VP_Annotations pod) NodeUIDAnnotation = AN_UID node ∧ AM_Name m ∈ VP_ConfigMaps pod.

(** Collecting removes only what nothing needs.  Whether or not every call succeeds, a plan
    or revision is removed only if the Node controls it, it is marked as the Node's and it is
    not to be kept; a revision, only if no Pod of the Node mounts it any more.  When collecting
    succeeds, everything of that kind is gone, and nothing else. *)
Theorem collected_artifacts store pods node keepNames keepName :
  wf_store store →
  (∀ store' r, GarbageCollectPlans faults store node keepNames = (store', r) →
     (∀ k, store' !! k = store !! k ∨ (store' !! k = None ∧
        ∃ m, store !! k = Some m ∧ superseded node planComponentLabelValue keepNames m)) ∧
     (r = Ok () → ∀ k m, store !! k = Some m → superseded node planComponentLabelValue keepNames m → store' !! k = None)) ∧
  (∀ store' r, GarbageCollectRevisions faults store pods node keepName = (store', r) →
     (∀ k, store' !! k = store !! k ∨ (store' !! k = None ∧
        ∃ m, store !! k = Some m ∧ superseded node connectivityRevisionComponentLabelValue [keepName] m ∧ ¬ mounted pods node m)) ∧
     (r = Ok () → ∀ k m, store !! k = Some m → superseded node connectivityRevisionComponentLabelValue [keepName] m →
        ¬ mounted pods node m → store' !! k = None)).
Proof.
  intros Hwf. split.
  - intros store' r. unfold GarbageCollectPlans. destruct (faults (ListMaps _)); [intros [= <- <-]; split; [by left|done]|].
    intros [H1 H2]%deleteMaps_subset. split.
    + intros k. destruct (H1 k) as [|[Hk (m & -> & Hm)%list_elem_of_fmap]]; [by left|]. right. split; [done|]. exists m.
      apply list_elem_of_filter in Hm as [[Hkeep Hc] Hm]. apply elem_of_listMaps in Hm; [|done]. unfold superseded. tauto.
    + intros Hr k m Hm (Hn & Hl & Hc & Hkeep). pose proof (Hwf _ _ Hm) as <-. apply H2; [done|]. apply (list_elem_of_fmap_2 keyOf).
      apply list_elem_of_filter. rewrite elem_of_listMaps by done. done.
  - intros store' r. unfold GarbageCollectRevisions. destruct (faults (ListMaps _)); [intros [= <- <-]; split; [by left|done]|].
    set (candidates := filter _ (listMaps _ _ _)).
    assert (∀ m, m ∈ candidates ↔ store !! keyOf m = Some m ∧ superseded node connectivityRevisionComponentLabelValue [keepName] m) as Hcand.
    { intros m. unfold candidates, superseded. rewrite list_elem_of_filter, elem_of_listMaps, elem_of_cons, elem_of_nil by done. tauto. }
    destruct candidates as [|c cs] eqn:Ec.
    { intros [= <- <-]. split; [by left|]. intros _ k m Hm Hs. pose proof (Hwf _ _ Hm) as <-.
      exfalso. apply (elem_of_nil m), Hcand. done. }
    rewrite <- Ec in *. destruct (faults (ListPods _)); [intros [= <- <-]; split; [by left|done]|].
    intros [H1 H2]%deleteMaps_subset. split.
    + intros k. destruct (H1 k) as [|[Hk (m & -> & Hm)%list_elem_of_fmap]]; [by left|]. right. split; [done|]. exists m.
      apply list_elem_of_filter in Hm as [Href Hm]. rewrite elem_of_referencedMaps in Href. apply Hcand in Hm. unfold mounted. tauto.
    + intros Hr k m Hm Hs Hno. pose proof (Hwf _ _ Hm) as <-. apply H2; [done|]. apply (list_elem_of_fmap_2 keyOf).
      apply list_elem_of_filter. rewrite elem_of_referencedMaps, Hcand. done.
Qed.
End theorems.

(** ** The artifacts of a Node: a concrete Pod

    The theorems above for the Pod of [ConnectivityTheorems], whose
    interfaces now take changes live. *)

#[local] Existing Instance example_sha.
#[local] Existing Instance insertion_sort.
#[local] Existing Instance sample_text.
#[local] Existing Instance inputNames.
#[local] Existing Instance podQuote.
#[local] Existing Instance ConnectivityRevision_countable.

Definition livePlan (input : Input) : Plan := podPlan input LinkApplyLive.
#[local] Program Instance livePlanNames : PlanJSON := {|
  marshalPlan := writeNamed (normalOf <$> [livePlan runningInput; livePlan wantedInput]);
  decodeStrictPlan s := cloneJSON <$> readNamed (normalOf <$> [livePlan runningInput; livePlan wantedInput]) s
|}.
Next Obligation. intros plan. cbn -[readNamed writeNamed]. by rewrite readNamed_writeNamed. Qed.

Definition startedRevision : ConnectivityRevision :=
  okOr noRevision (NewConnectivityRevision runningInput (livePlan runningInput) runningInput (livePlan runningInput)).
Definition liveRevision : ConnectivityRevision :=
  okOr noRevision (NewConnectivityRevisionForMode runningInput (livePlan runningInput) wantedInput (livePlan wantedInput) LinkApplyLive).
#[local] Program Instance liveRevisionNames : RevisionJSON := {|
  marshalRevision := writeNamed [startedRevision; liveRevision];
  decodeStrictRevision s := cloneJSON <$> readNamed [startedRevision; liveRevision] s
|}.
Next Obligation. intros revision. cbn -[readNamed writeNamed]. by rewrite readNamed_writeNamed. Qed.
Next Obligation. intros revision. unfold writeNamed. by destruct (list_find _ _) as [[]|]. Qed.

(** *** Storing *)

Definition podNode : ArtifactNode := MkArtifactNode "leaf" "lab" "uid-1".
Definition noFaults (call : apiCall) : bool := false.
Definition podArtifact : PlanArtifact :=
  MkPlanArtifact (okOr "" (CanonicalJSON (livePlan runningInput))) (okOr "" (InputCanonicalJSON runningInput)) ["secret"].
Definition noMap : ArtifactMap := MkArtifactMap "" "" ∅ ∅ [] None ∅ ∅.

Definition inputStored : mapStore * result artifactError ArtifactMap :=
  EnsureInput noFaults 0 ∅ podNode (Artifact_NormalizedInputs podArtifact) (Artifact_SensitiveValues podArtifact).
Definition startStored : mapStore * result artifactError ArtifactMap := EnsureRevision noFaults inputStored.1 podNode startedRevision.
Definition planStored : mapStore * result artifactError ArtifactMap := EnsurePlan noFaults 0 0 startStored.1 podNode podArtifact.
Definition revisionStored : mapStore * result artifactError ArtifactMap := EnsureRevision noFaults planStored.1 podNode liveRevision.

#[local] Strategy expand [inputStored startStored planStored revisionStored].

Definition nameOf (answer : mapStore * result artifactError ArtifactMap) : string := AM_Name (okOr noMap answer.2).
Definition podDeployment : DeviceDeployment :=
  MkDeviceDeployment ["uid-1"] {[ templatePlanDigestAnnotation := Digest (Artifact_Plan podArtifact) ]}
    [("run", None); (planVolumeName, Some (nameOf planStored)); (inputVolumeName, Some (nameOf inputStored));
     (connectivityRevisionVolumeName, Some (nameOf startStored))].

Ltac by_computing := vm_compute; reflexivity.

Lemma answered {A E} (d : A) (answer : mapStore * result E A) :
  match answer.2 with Ok _ => true | Err _ => false end = true → answer = (answer.1, Ok (okOr d answer.2)).
Proof. by destruct answer as [store []]. Qed.

Definition plain (plan : Plan) : bool :=
  forallb (λ container, emptyList (SecurityPlan_Devices (ContainerPlan_Security container))) (Plan_Containers plan)
  && forallb (λ item, match ManagementPlan_Interposition item with None => true | Some _ => false end) (Plan_Management plan).
Lemma plain_unambiguous plan : plain plan = true → unambiguous plan.
Proof.
  unfold plain. rewrite andb_true_iff, !forallb_forall. intros [H1 H2]. split; apply list.Forall_forall.
  - intros c Hc%list_elem_of_In%H1. destruct (SecurityPlan_Devices _); [|done]. by intros ? ? ?%elem_of_nil.
  - intros m Hm%list_elem_of_In%H2. by destruct (ManagementPlan_Interposition m).
Qed.
Lemma live_unambiguous : unambiguous (copyOf (livePlan runningInput)).
Proof. apply plain_unambiguous. by_computing. Qed.

Lemma artifacts_stored :
  EnsureInput noFaults 0 ∅ podNode (Artifact_NormalizedInputs podArtifact) (Artifact_SensitiveValues podArtifact)
    = (inputStored.1, Ok (okOr noMap inputStored.2)) ∧
  EnsureRevision noFaults inputStored.1 podNode startedRevision = (startStored.1, Ok (okOr noMap startStored.2)) ∧
  EnsurePlan noFaults 0 0 startStored.1 podNode podArtifact = (planStored.1, Ok (okOr noMap planStored.2)) ∧
  EnsureRevision noFaults planStored.1 podNode liveRevision = (revisionStored.1, Ok (okOr noMap revisionStored.2)).
Proof.
  split_and!; [apply (answered noMap inputStored)|apply (answered noMap startStored)|apply (answered noMap planStored)
    |apply (answered noMap revisionStored)]; by_computing.
Qed.

Lemma revisions_built :
  NewConnectivityRevision runningInput (livePlan runningInput) runningInput (livePlan runningInput) = Ok startedRevision ∧
  NewConnectivityRevisionForMode runningInput (livePlan runningInput) wantedInput (livePlan wantedInput) LinkApplyLive = Ok liveRevision.
Proof. split; by_computing. Qed.

Lemma nothing_stored : wf_store ∅.
Proof. by intros k m ?%lookup_empty_Some. Qed.

Lemma cold_plan_recovered_witness :
  ∃ cold revised, loadDirectColdPlan noFaults planStored.1 podNode podDeployment = Ok cold ∧
    loadDirectColdPlan noFaults revisionStored.1 podNode podDeployment = Ok revised ∧
    Cold_EffectiveInput cold = normalInput runningInput ∧ Cold_EffectiveInput revised = normalInput wantedInput.
Proof.
  destruct artifacts_stored as (S1 & S2 & S3 & S4), revisions_built as (R0 & R1).
  assert (CanonicalJSON (livePlan runningInput) = Ok (Artifact_Plan podArtifact)) as Cp by by_computing.
  assert (InputCanonicalJSON runningInput = Ok (Artifact_NormalizedInputs podArtifact)) as Ci by by_computing.
  assert (AM_BinaryData (okOr noMap inputStored.2) = ∅) as Bi by by_computing.
  assert (AM_BinaryData (okOr noMap planStored.2) = ∅) as Bp by by_computing.
  assert (DeploymentPlanReferences podDeployment = Some (MkPlanReferences (Digest (Artifact_Plan podArtifact))
    (AM_Name (okOr noMap planStored.2)) (AM_Name (okOr noMap inputStored.2)) (AM_Name (okOr noMap startStored.2)))) as Hd by by_computing.
  destruct (cold_plan_recovered noFaults podNode podArtifact 0 0 runningInput (livePlan runningInput) startedRevision
    wantedInput (livePlan wantedInput) LinkApplyLive liveRevision ∅ inputStored.1 startStored.1 planStored.1 revisionStored.1
    (okOr noMap inputStored.2) (okOr noMap planStored.2) (okOr noMap startStored.2) (okOr noMap revisionStored.2) podDeployment nothing_stored (λ _, eq_refl) live_unambiguous
    Cp Ci S1 R0 S2 S3 Bi Bp Hd R1 S4) as (bi & bp & di & dp & cold & revised & Hbi & _ & Hdi & _ & Hc & _ & _ & Ec & _ & Hr & _ & _ & Er & _).
  exists cold, revised. rewrite Ec, Er. split; [exact Hc|]. split; [exact Hr|].
  split; [eapply known; [exact Hbi|]|eapply known; [exact Hdi|]]; by_computing.
Defined.

(** Somebody added binary data to the map of the plan: storing the plan again finds it in
    order, and loading does not. *)
Definition binaryStore : mapStore :=
  alter (λ m, m <| AM_BinaryData := {["extra" := "blob"]} |>) (AN_Namespace podNode, nameOf planStored) planStored.1.
Example binary_data_accepted_then_refused :
  (EnsurePlan noFaults 0 0 binaryStore podNode podArtifact).1 = binaryStore
  ∧ is_ok (EnsurePlan noFaults 0 0 binaryStore podNode podArtifact).2 = true
  ∧ loadDirectColdPlan noFaults binaryStore podNode podDeployment = Err errDirectColdPlanUnavailable.
Proof. split_and!; vm_compute; reflexivity. Qed.

Definition rendersSame (deployment : DeviceDeployment) (plan : Plan) (references : PlanReferences) : bool :=
  bool_decide (valueOf (DD_Annotations deployment) templatePlanDigestAnnotation = References_PlanDigest references).
Definition podDecision : directConnectivityDecision :=
  okOr recreate (directConnectivityRevision noFaults rendersSame planStored.1 podNode (Some podDeployment) wantedInput
    (livePlan wantedInput) false).

Lemma retained_pod_safe_witness :
  ∃ plan, Decision_AppliedPlan podDecision = Some plan ∧ InterfacePlan_WireID <$> Plan_Interfaces plan = [8; 9].
Proof.
  destruct (retained_pod_safe noFaults rendersSame planStored.1 podNode (Some podDeployment) wantedInput (livePlan wantedInput) false
    podDecision) as (deployment & cold & revision & bi & bp & di & dp & plan & _ & _ & _ & _ & _ & Hp & _ & _ & _ & Hdp & _ & Hi & _).
  - vm_compute. reflexivity.
  - vm_compute. reflexivity.
  - intros deployment cold [= <-] Hl.
    assert (Cold_Plan cold = normalOf (livePlan runningInput)) as ->.
    { assert (Cold_Plan <$> (match loadDirectColdPlan noFaults planStored.1 podNode podDeployment with Ok c => Some c | Err _ => None end)
        = Some (normalOf (livePlan runningInput))) as H by (vm_compute; reflexivity).
      rewrite Hl in H. exact (Some_inj _ _ H). }
    apply plain_unambiguous. by_computing.
  - exists plan. split; [exact Hp|]. rewrite Hi.
    replace dp with (normalOf (livePlan wantedInput)) by (eapply known; [|exact Hdp]; vm_compute; reflexivity).
    vm_compute. reflexivity.
Defined.

(** A revision of an earlier plan is collected once no Pod mounts it. *)
Definition oldRevision : ArtifactMap :=
  MkArtifactMap "leaf-connectivity-old" "lab" (artifactLabels podNode connectivityRevisionComponentLabelValue) ∅
    [nodeOwner podNode] None ∅ ∅.
Definition crowded : mapStore := <[keyOf oldRevision := oldRevision]> revisionStored.1.

Lemma collected_artifacts_witness :
  wf_store crowded ∧
  (GarbageCollectRevisions noFaults crowded [] podNode (nameOf startStored)).1 !! keyOf oldRevision = None.
Proof.
  assert (wf_store crowded) as Hwf.
  { intros k m H. apply elem_of_map_to_list in H. revert k m H.
    assert (Forall (λ km, keyOf km.2 = km.1) (map_to_list crowded)) as H by (vm_compute; repeat constructor).
    intros k m Hin. rewrite list.Forall_forall in H. exact (H _ Hin). }
  split; [exact Hwf|].
  destruct (collected_artifacts noFaults crowded [] podNode [] (nameOf startStored) Hwf) as [_ H].
  destruct (GarbageCollectRevisions noFaults crowded [] podNode (nameOf startStored)) as [store' r] eqn:E.
  destruct (H _ _ eq_refl) as [_ Hgone]. cbn [fst]. eapply Hgone.
  - apply (f_equal snd) in E. cbn [snd] in E. rewrite <- E. vm_compute. reflexivity.
  - apply lookup_insert_eq.
  - split; [reflexivity|]. split; [|split; [reflexivity|]].
    + apply map_subseteq_spec. intros k v Hk. apply lookup_insert_Some in Hk as [[<- <-]|[_ [<- <-]%lookup_singleton_Some]]; reflexivity.
    + rewrite elem_of_cons, elem_of_nil. intros [Hn|[]]. vm_compute in Hn. discriminate Hn.
  - intros (pod & []%elem_of_nil & _).
Defined.
