(* ===== verification/PodNames.v ===== *)
(** * Names of a device Pod's containers

    Models [dnsName] and [ApplicationContainerName] of [internal/directpod/renderer.go], by
    which the renderer names containers and the status reconciler finds them again.
    Identities are ASCII. *)

From S2P Require Import Prelude WireCodec Api GoStrings GoNet GoSort DevicePlanTypes Management CompilerNames.
From S2P Require Import PlanValidation PlanCodec.
Local Open Scope Z_scope.

Section names.
Context {sha : Sha256}.

(** [unicode.IsLetter] or [unicode.IsDigit]. *)
Definition isAlphanumeric (a : Ascii.ascii) : bool :=
  isDigit a || isLower a || between 65 (code a) 90.

(** The last character written is a dash: [strings.HasSuffix]. *)
Fixpoint endsInDash (s : string) : bool :=
  match s with
  | EmptyString => false
  | String a EmptyString => bool_decide (a = dash)
  | String _ s => endsInDash s
  end.

(** The characters still to be written, after [builder] has been. *)
Fixpoint dnsWrite (builder s : string) : string :=
  match s with
  | EmptyString => builder
  | String a s =>
      if isAlphanumeric a then dnsWrite (builder +:+ String a "") s
      else if negb (bool_decide (builder = "")) && negb (endsInDash builder) then dnsWrite (builder +:+ "-") s
      else dnsWrite builder s
  end.

Definition dnsBase (prefix identity : string) : string :=
  let base := trimDashesRight (trimDashesLeft (dnsWrite "" (ToLower identity))) in
  if bool_decide (base = "") then prefix else base.

Definition dnsName (prefix identity : string) : string :=
  let base := dnsBase prefix identity in
  let suffix := prefixOf 10 (TrimPrefix (Digest identity) "sha256:") in
  let maxBase := (63 - String.length prefix - String.length suffix - 2)%nat in
  let base := if (maxBase <? String.length base)%nat then trimDashesRight (prefixOf maxBase base) else base in
  prefix +:+ "-" +:+ base +:+ "-" +:+ suffix.

Definition ApplicationContainerName (identity : string) : string := dnsName "node" identity.

(** ** The names are valid *)

Lemma lower_name a : isAlphanumeric (lowerChar a) = true → nameChar (lowerChar a) = true.
Proof. destruct a as [[] [] [] [] [] [] [] []]; vm_compute; done. Qed.

Lemma dnsWrite_chars s : ∀ builder,
  allChars nameChar builder = true → allChars nameChar (dnsWrite builder (ToLower s)) = true.
Proof.
  induction s as [|a s IH]; intros builder Hb; [done|]. cbn.
  destruct (isAlphanumeric _) eqn:Ha.
  - apply IH. rewrite allChars_app, Hb. cbn. by rewrite lower_name.
  - destruct (_ && _); apply IH; [|done]. by rewrite allChars_app, Hb.
Qed.

Lemma dnsBase_chars prefix identity :
  allChars nameChar prefix = true → allChars nameChar (dnsBase prefix identity) = true.
Proof.
  intros Hp. unfold dnsBase. case_bool_decide; [done|].
  apply trimDashes_chars, trimDashes_chars. by apply dnsWrite_chars.
Qed.

Lemma TrimPrefix_Digest identity : TrimPrefix (Digest identity) "sha256:" = hexString (Sum256 identity).
Proof. unfold TrimPrefix, Digest. by rewrite trim_prefix_app. Qed.

Lemma trimDashesRight_length s : (String.length (trimDashesRight s) ≤ String.length s)%nat.
Proof. induction s as [|a s IH]; [done|]. cbn. destruct (_ && _); cbn; lia. Qed.

(** A name begins with its prefix, is a DNS label, and ends in ten digits of the identity's
    digest. *)
Lemma dnsName_valid prefix identity :
  dnsLabel prefix = true → (String.length prefix ≤ 50)%nat →
  dnsLabel (dnsName prefix identity) = true
  ∧ ∃ base, dnsName prefix identity = prefix +:+ "-" +:+ base +:+ "-" +:+ prefixOf 10 (hexString (Sum256 identity)).
Proof.
  intros Hp Hlen. unfold dnsName. rewrite TrimPrefix_Digest.
  set (suffix := prefixOf 10 (hexString (Sum256 identity))).
  assert (nameEnd suffix) as Hs by (apply digest_end; lia).
  assert (String.length suffix = 10%nat) as Hsl.
  { apply prefixOf_length. rewrite (proj2 (hexString_spec _ (Sum256_bytes identity))), Sum256_length. lia. }
  rewrite Hsl. set (m := (63 - String.length prefix - 10 - 2)%nat).
  set (base := if (m <? _)%nat then _ else _).
  unfold dnsLabel in Hp. apply andb_true_iff in Hp as [[[Hpc Hpf]%andb_true_iff _]%andb_true_iff _].
  assert (allChars nameChar base = true ∧ String.length base ≤ m)%nat as [Hbc Hbl].
  { unfold base. pose proof (dnsBase_chars prefix identity Hpc) as Hb. destruct (Nat.ltb_spec m (String.length (dnsBase prefix identity))).
    - split; [by apply trimDashes_chars, prefixOf_chars|].
      etrans; [apply trimDashesRight_length|]. rewrite prefixOf_length; lia.
    - split; [done|lia]. }
  split; [|by exists base].
  assert (nameEnd (prefix +:+ "-" +:+ base +:+ "-" +:+ suffix)) as (H1 & H2 & _).
  { apply nameEnd_app; [done|]. apply (nameEnd_app "-"); [done|]. apply nameEnd_app; [done|]. by apply (nameEnd_app "-"). }
  unfold dnsLabel. rewrite H1, (bool_decide_eq_true_2 _ H2).
  rewrite !length_string_app, Hsl. cbn [String.length].
  assert ((String.length prefix + (1 + (String.length base + (1 + 10))) <=? nameMaxLen)%nat = true) as ->.
  { apply Nat.leb_le. unfold nameMaxLen, m in *. lia. }
  destruct prefix as [|a prefix]; [done|].
  change (true && isLower a && true && true = true). by rewrite Hpf.
Qed.

Lemma container_name_valid identity : dnsLabel (ApplicationContainerName identity) = true.
Proof. apply dnsName_valid; vm_compute; [done|lia]. Qed.
End names.
