(* ===== verification/NodeStatus.v ===== *)
(** * The status of a Node

    Models [controllers/node/directstatus.go] and the write path it shares
    ([updateNodeStatus] and its helpers of [controllers/node/reconcile.go]): how the
    observed Pod of a group becomes the readiness and the conditions of its Nodes, and how a
    status that no longer describes the desired state is withdrawn.

    The Pods a list returns and the API server's answers are arguments.  The conditions'
    operations of [apimachinery] are the class [StatusConditions]; the JSON of a map of tokens
    is [TokensJSON].  A slice that can be both empty and nil is an [option]. *)

From S2P Require Import Prelude WireCodec Api GoStrings GoNet GoSort DevicePlanTypes Management CompilerNames Grouping.
From S2P Require Import PlanValidation PlanCodec PlanInput NodeArtifacts NodeConnectivity PodNames.
Local Open Scope Z_scope.

(** ** Data *)

Definition NodeReady : string := "ready".
Definition NodeNotReady : string := "notready".
Definition NodeUnknown : string := "unknown".

Definition NodeConditionProfileResolved : string := "NodeProfileResolved".
Definition NodeConditionPlanApplied : string := "PlanApplied".
Definition NodeConditionPrepared : string := "Prepared".
Definition NodeConditionConnectivityReady : string := "ConnectivityReady".
Definition NodeConditionContainersReady : string := "ContainersReady".
Definition NodeConditionLinkLifecycleAction : string := "LinkLifecycleAction".
Definition NodeConditionDeviceStateReset : string := "DeviceStateReset".
Definition NodeConditionStopped : string := "Stopped".

Definition LinkLifecycleModeAnnotation : string := "c9s.run/link-lifecycle-mode".
Definition LinkLifecyclePlanDigestAnnotation : string := "c9s.run/link-lifecycle-plan-digest".
Definition DeviceStateResetsAnnotation : string := "c9s.run/device-state-resets".
Definition RestartTokensAnnotation : string := "c9s.run/restart-tokens".
Definition PreparationContainerName : string := "planner".
Definition ConnectivityContainerName : string := "clabwire".

Definition directStoppedReason : string := "Stopped".
Definition directStoppingReason : string := "Stopping".
Definition directRunningReason : string := "Running".
Definition directStoppedMessage : string := "the Node is stopped; its workload is scaled to zero".
Definition directPodPendingReason : string := "DirectPodPending".
Definition directPlanPendingReason : string := "PlanPending".
Definition directPlanPendingMessage : string :=
  "direct device plan is being reconciled for the current desired state".

Record NodeExposedPort := MkNodeExposedPort {
  ExposePort : Z;
  DestinationPort : Z;
  ExposedProtocol : string
}.
#[export] Instance NodeExposedPort_eq_dec : EqDecision NodeExposedPort.
Proof. solve_decision. Defined.

Record NodeExposedPorts := MkNodeExposedPorts {
  LoadBalancerAddress : string;
  ExposedPortList : option (list NodeExposedPort)
}.
#[export] Instance NodeExposedPorts_eq_dec : EqDecision NodeExposedPorts.
Proof. solve_decision. Defined.

Record AppliedProfileStatus := MkAppliedProfileStatus {
  AppliedProfile_Name : string;
  AppliedProfile_UID : string;
  AppliedProfile_Generation : Z
}.
#[export] Instance AppliedProfileStatus_eq_dec : EqDecision AppliedProfileStatus.
Proof. solve_decision. Defined.

Record NodeDirectContainerStatus := MkNodeDirectContainerStatus {
  DC_ID : string;
  DC_Name : string;
  DC_ComponentID : string;
  DC_State : string;
  DC_Ready : bool;
  DC_RestartCount : Z;
  DC_ImageID : string
}.
#[export] Instance NodeDirectContainerStatus_eq_dec : EqDecision NodeDirectContainerStatus.
Proof. solve_decision. Defined.

Record NodeDirectManagementStatus := MkNodeDirectManagementStatus {
  DM_InterfaceName : string;
  DM_IPv4 : string;
  DM_IPv4Gateway : string;
  DM_IPv6 : string;
  DM_IPv6Gateway : string
}.
#[export] Instance NodeDirectManagementStatus_eq_dec : EqDecision NodeDirectManagementStatus.
Proof. solve_decision. Defined.

Record NodeStatus := MkNodeStatus {
  NS_Readiness : string;
  NS_ExposedPorts : option NodeExposedPorts;
  NS_Conditions : list Condition;
  NS_AppliedProfile : option AppliedProfileStatus;
  NS_PlanDigest : string;
  NS_DirectContainers : option (list NodeDirectContainerStatus);
  NS_DirectManagement : option NodeDirectManagementStatus;
  NS_ObservedRestartToken : string
}.
#[export] Instance NodeStatus_eq_dec : EqDecision NodeStatus.
Proof. solve_decision. Defined.
#[export] Instance NodeStatus_updatable : Updatable NodeStatus :=
  λ s, MkNodeStatus (NS_Readiness s) (NS_ExposedPorts s) (NS_Conditions s) (NS_AppliedProfile s) (NS_PlanDigest s)
         (NS_DirectContainers s) (NS_DirectManagement s) (NS_ObservedRestartToken s).

(** A Node, as far as its status is concerned. *)
Record StatusNode := MkStatusNode {
  SN_Name : string;
  SN_Namespace : string;
  SN_UID : string;
  SN_Generation : Z;
  SN_ResourceVersion : string;
  SN_NetworkMode : string;
  SN_RunState : string;
  SN_Status : NodeStatus
}.
#[export] Instance StatusNode_eq_dec : EqDecision StatusNode.
Proof. solve_decision. Defined.
#[export] Instance StatusNode_updatable : Updatable StatusNode :=
  λ n, MkStatusNode (SN_Name n) (SN_Namespace n) (SN_UID n) (SN_Generation n) (SN_ResourceVersion n) (SN_NetworkMode n)
         (SN_RunState n) (SN_Status n).

(** [NodeSpec.IsStopped]. *)
Definition isStopped (node : StatusNode) : bool := bool_decide (SN_RunState node = NodeRunStateStopped).

(** At most one member of the Kubernetes structure is set. *)
Inductive ContainerState :=
| StateRunning
| StateWaiting
| StateTerminated (exitCode : Z)
| StateUnset.
#[export] Instance ContainerState_eq_dec : EqDecision ContainerState.
Proof. solve_decision. Defined.

Record ContainerStatus := MkContainerStatus {
  CS_Name : string;
  CS_State : ContainerState;
  CS_Ready : bool;
  CS_RestartCount : Z;
  CS_ImageID : string
}.
#[export] Instance ContainerStatus_eq_dec : EqDecision ContainerStatus.
Proof. solve_decision. Defined.

Record DirectPod := MkDirectPod {
  Pod_Namespace : string;
  Pod_Labels : gmap string string;
  Pod_Annotations : gmap string string;
  Pod_Deleting : bool;
  Pod_Created : Z;
  Pod_InitStatuses : list ContainerStatus;
  Pod_Statuses : list ContainerStatus;
  Pod_Containers : list (string * string)
}.
#[export] Instance DirectPod_eq_dec : EqDecision DirectPod.
Proof. solve_decision. Defined.

Record StatusDeployment := MkStatusDeployment {
  Deployment_MatchLabels : gmap string string;
  Deployment_Annotations : gmap string string;
  Deployment_Replicas : option Z
}.

(** ** Conditions *)

(** [meta.FindStatusCondition] and [meta.RemoveStatusCondition]. *)
Class StatusConditions : Type := {
  FindStatusCondition : list Condition → string → option Condition;
  RemoveStatusCondition : list Condition → string → list Condition
}.

(** What [apimachinery] documents of them: a condition that was set is found, with the time of
    its last transition kept or renewed; others are not changed; one that was removed is not
    there. *)
Class LawfulConditions `{ConditionSetter, StatusConditions} : Prop := {
  find_set : ∀ conditions condition, ∃ found,
    FindStatusCondition (SetStatusCondition conditions condition) (ConditionType condition) = Some found
    ∧ ConditionType found = ConditionType condition ∧ CStatus found = CStatus condition
    ∧ ObservedGeneration found = ObservedGeneration condition
    ∧ Reason found = Reason condition ∧ Message found = Message condition;
  find_set_other : ∀ conditions condition t, t ≠ ConditionType condition →
    FindStatusCondition (SetStatusCondition conditions condition) t = FindStatusCondition conditions t;
  find_remove : ∀ conditions t, FindStatusCondition (RemoveStatusCondition conditions t) t = None;
  find_remove_other : ∀ conditions t t', t' ≠ t →
    FindStatusCondition (RemoveStatusCondition conditions t) t' = FindStatusCondition conditions t'
}.

(** [json.Unmarshal] into a map of strings: [None] is an error, [Some None] the nil map. *)
Class TokensJSON : Type := unmarshalTokens : string → option (option (gmap string string)).

(** ** Errors *)

(** The errors that are told apart; the flags are what [apimachinery] says of the cause. *)
Inductive errorKind :=
| deviceplanError (code : string)
| ocimetadataError (code : string)
| imagePullSecretError (notFound : bool)
| errInvalidPlanArtifact
| errInvalidPlannerInput
| errPlanArtifactConflict
| errPlannerInputConflict
| errWorkerOutputConflict
| deploymentApplyError (invalid badRequest : bool)
| otherError.

(** An error, its text, and the errors it wraps. *)
Inductive goError := GoError (kind : errorKind) (text : string) (causes : list goError).

Definition errorText (e : goError) : string := match e with GoError _ text _ => text end.

(** [errors.AsType]: the first error of the tree, in depth-first order, that [pick] selects,
    and its text. *)
Fixpoint errorAs {A} (pick : errorKind → option A) (e : goError) : option (A * string) :=
  match e with
  | GoError kind text causes =>
      match pick kind with
      | Some a => Some (a, text)
      | None =>
          (fix search (l : list goError) : option (A * string) :=
             match l with
             | [] => None
             | e :: l => match errorAs pick e with Some found => Some found | None => search l end
             end) causes
      end
  end.
(** [errors.Is]. *)
Definition errorIs (pick : errorKind → bool) (e : goError) : bool :=
  match errorAs (λ kind, if pick kind then Some () else None) e with Some _ => true | None => false end.

(** The reason and the message a failure is reported with, if it is. *)
Definition directPreflightDiagnostic (err : goError) : option (string * string) :=
  match errorAs (λ kind, match kind with deviceplanError code => Some code | _ => None end) err with
  | Some (code, text) => Some ("Plan" +:+ code, text)
  | None =>
  match errorAs (λ kind, match kind with ocimetadataError code => Some code | _ => None end) err with
  | Some (code, text) => Some ("OCIMetadata" +:+ code, text)
  | None =>
  match errorAs (λ kind, match kind with imagePullSecretError notFound => Some notFound | _ => None end) err with
  | Some (true, text) => Some ("ImagePullSecretMissing", text)
  | Some (false, text) => Some ("ImagePullSecretUnreadable", text)
  | None =>
  if errorIs (λ kind, match kind with errInvalidPlanArtifact | errInvalidPlannerInput => true | _ => false end) err
  then Some ("PlanRejected", errorText err)
  else if errorIs (λ kind, match kind with errPlanArtifactConflict | errPlannerInputConflict | errWorkerOutputConflict => true
                           | _ => false end) err
  then Some ("PlanArtifactConflict", errorText err)
  else
  match errorAs (λ kind, match kind with deploymentApplyError invalid badRequest => Some (invalid || badRequest)
                         | _ => None end) err with
  | Some (true, text) => Some ("DeploymentInvalid", text)
  | Some (false, text) => Some ("DeploymentApplyFailed", text)
  | None => None
  end end end end.

(** ** Writing a status *)

Inductive statusError :=
| nodeReadFailed
| nodeConflict
| nodeUpdateFailed
| podListFailed
| nodeListFailed
| statusInvalid (e : PlanError).

(** One attempt of [updateNodeStatus]: the answers to its read and to its update, which returns
    what was stored of the status that was sent. *)
Inductive updateAnswer := Updated (stored : NodeStatus → StatusNode) | UpdateConflicted | UpdateRejected.
Inductive attempt :=
| ReadRejected (conflict : bool)
| Read (current : StatusNode) (answer : updateAnswer).

Record nodeEvent := MkNodeEvent {
  Event_NodeName : string;
  Event_Warning : bool;
  Event_Reason : string;
  Event_Note : string
}.

(** The attempts made so far, the objects whose status was written, and the events. *)
Record statusIO := MkStatusIO {
  IO_Attempts : nat;
  IO_Writes : list StatusNode;
  IO_Events : list nodeEvent
}.
#[export] Instance statusIO_updatable : Updatable statusIO :=
  λ s, MkStatusIO (IO_Attempts s) (IO_Writes s) (IO_Events s).

Section status.
(** The API server's answers, in the order of the attempts. *)
Context (server : nat → attempt).
(** Whether the reconciler has an event recorder. *)
Context (recorder : bool).
Context {setter : ConditionSetter} {conditions : StatusConditions} {tokensJSON : TokensJSON} {order : RangeOrder string}.
Context {sort : GoSort} {planJSON : PlanJSON} {sha : Sha256} {quote : FmtQuote}.

(** [clientretry.RetryOnConflict]: no steps are left after a conflict. *)
Fixpoint retryUpdate (steps : nat) (node : StatusNode) (desired : NodeStatus) (io : statusIO) :
    statusIO * result statusError StatusNode :=
  match steps with
  | O => (io, Err nodeConflict)
  | S steps =>
      let io' := io <| IO_Attempts := S (IO_Attempts io) |> in
      match server (IO_Attempts io) with
      | ReadRejected true => retryUpdate steps node desired io'
      | ReadRejected false => (io', Err nodeReadFailed)
      | Read current answer =>
          if negb (bool_decide (SN_UID current = SN_UID node))
             || negb (bool_decide (SN_Generation current = SN_Generation node))
          then (io', Ok current)
          else if bool_decide (SN_Status current = desired) then (io', Ok current)
          else
            match answer with
            | UpdateConflicted => retryUpdate steps node desired io'
            | UpdateRejected => (io', Err nodeUpdateFailed)
            | Updated stored =>
                (io' <| IO_Writes := IO_Writes io' ++ [current <| SN_Status := desired |>] |>, Ok (stored desired))
            end
      end
  end.

Definition retrySteps : nat := 5.

(** The Node is updated in place when no error is returned. *)
Definition updateNodeStatus (node : StatusNode) (desired : NodeStatus) (io : statusIO) :
    statusIO * result statusError StatusNode :=
  if bool_decide (SN_Status node = desired) then (io, Ok node)
  else
    let '(io, updated) := retryUpdate retrySteps node desired io in
    (io, let? updated := updated in
         Ok (node <| SN_Status := SN_Status updated |> <| SN_ResourceVersion := SN_ResourceVersion updated |>)).

(** ** Conditions of a Node *)

Definition setDirectStatusCondition (node : StatusNode) (conditionType : string) (status : ConditionStatus)
    (reason message : string) (desired : NodeStatus) : NodeStatus :=
  desired <| NS_Conditions := SetStatusCondition (NS_Conditions desired)
               (MkCondition conditionType status (SN_Generation node) 0 reason message) |>.
Definition removeDirectStatusCondition (conditionType : string) (desired : NodeStatus) : NodeStatus :=
  desired <| NS_Conditions := RemoveStatusCondition (NS_Conditions desired) conditionType |>.

Definition directStatusNeedsReconciliation (node : StatusNode) : bool :=
  match FindStatusCondition (NS_Conditions (SN_Status node)) NodeConditionPlanApplied with
  | None => true
  | Some planApplied =>
      negb (bool_decide (CStatus planApplied = ConditionTrue))
      || negb (bool_decide (ObservedGeneration planApplied = SN_Generation node))
  end.

Definition setDirectStatusPending (node : StatusNode) (reason message : string) (desired : NodeStatus) : NodeStatus :=
  let desired := desired <| NS_Readiness := NodeNotReady |> in
  let desired := setDirectStatusCondition node NodeConditionPlanApplied ConditionFalse reason message desired in
  let desired := foldl (λ desired conditionType,
                   setDirectStatusCondition node conditionType ConditionUnknown reason message desired) desired
                   [NodeConditionPrepared; NodeConditionConnectivityReady; NodeConditionContainersReady] in
  removeDirectStatusCondition NodeConditionLinkLifecycleAction desired.

(** ** Events *)

Definition isDirectStatusCondition (conditionType : string) : bool :=
  bool_decide (conditionType ∈ [NodeConditionProfileResolved; NodeConditionPlanApplied; NodeConditionPrepared;
    NodeConditionConnectivityReady; NodeConditionContainersReady; NodeConditionLinkLifecycleAction;
    NodeConditionDeviceStateReset; NodeConditionStopped]).

Definition reportDirectConditionEvent (condition : Condition) (prior : option Condition) : bool :=
  let reason := Reason condition in
  if bool_decide (reason ∈ ["NodeProfileResolved"; "PlanApplied"; "PreparationCompleted"; "ConnectivityReady"]) then false
  else if bool_decide (reason ∈ [directPodPendingReason; "HelperPending"; "PlanPending"]) then
    match prior with Some prior => bool_decide (CStatus prior = ConditionTrue) | None => false end
  else if bool_decide (reason = directStoppedReason) then bool_decide (ConditionType condition = NodeConditionStopped)
  else if bool_decide (reason = directRunningReason) then bool_decide (is_Some prior)
  else true.

Definition conditionStatusText (status : ConditionStatus) : string :=
  match status with ConditionTrue => "True" | ConditionFalse => "False" | ConditionUnknown => "Unknown" end.

Definition conditionEvent (nodeName planDigest : string) (condition : Condition) : nodeEvent :=
  MkNodeEvent nodeName
    (bool_decide (CStatus condition = ConditionFalse) && negb (bool_decide (ConditionType condition = NodeConditionStopped)))
    (Reason condition)
    ("Node " +:+ fmt_q nodeName +:+ " condition " +:+ ConditionType condition +:+ " is "
     +:+ conditionStatusText (CStatus condition) +:+ " for direct plan " +:+ planDigest +:+ ": " +:+ Message condition).

Definition unchangedSince (condition : Condition) (prior : option Condition) : bool :=
  match prior with
  | None => false
  | Some prior => bool_decide (CStatus prior = CStatus condition) && bool_decide (Reason prior = Reason condition)
                  && bool_decide (Message prior = Message condition)
  end.

Definition recordDirectConditionTransitions (nodeName : string) (previous current : list Condition) (planDigest : string)
    (io : statusIO) : statusIO :=
  if negb recorder then io
  else
    foldl (λ io condition,
      if negb (isDirectStatusCondition (ConditionType condition)) then io
      else
        let prior := FindStatusCondition previous (ConditionType condition) in
        if unchangedSince condition prior then io
        else if negb (reportDirectConditionEvent condition prior) then io
        else io <| IO_Events := IO_Events io ++ [conditionEvent nodeName planDigest condition] |>)
      io current.

(** [updateNodeStatus] followed by the events of what changed. *)
Definition publishStatus (node : StatusNode) (desired : NodeStatus) (planDigest : string) (io : statusIO) :
    statusIO * result statusError StatusNode :=
  let '(io, updated) := updateNodeStatus node desired io in
  match updated with
  | Err e => (io, Err e)
  | Ok node' =>
      (recordDirectConditionTransitions (SN_Name node) (NS_Conditions (SN_Status node)) (NS_Conditions desired) planDigest io,
       Ok node')
  end.

(** ** Withdrawing a status *)

Definition markDirectStatusPending (node : StatusNode) (io : statusIO) : statusIO * result statusError StatusNode :=
  let desired := setDirectStatusPending node directPlanPendingReason directPlanPendingMessage (SN_Status node) in
  publishStatus node desired (NS_PlanDigest desired) io.

Definition isReady (node : StatusNode) : bool := bool_decide (NS_Readiness (SN_Status node) = NodeReady).

Definition invalidateStaleDirectStatus (node : StatusNode) (io : statusIO) : statusIO * result statusError StatusNode :=
  if negb (isReady node) || negb (directStatusNeedsReconciliation node) then (io, Ok node)
  else markDirectStatusPending node io.

(** The members' objects are shared: a member that is updated is updated in the map. *)
Fixpoint markDirectGroupStatusesPending (groupMembers : list string) (nodesByName : gmap string StatusNode) (io : statusIO) :
    statusIO * gmap string StatusNode * option statusError :=
  match groupMembers with
  | [] => (io, nodesByName, None)
  | memberName :: groupMembers =>
      match nodesByName !! memberName with
      | None => markDirectGroupStatusesPending groupMembers nodesByName io
      | Some member =>
          if negb (isReady member) then markDirectGroupStatusesPending groupMembers nodesByName io
          else
            let '(io, updated) := markDirectStatusPending member io in
            match updated with
            | Err e => (io, nodesByName, Some e)
            | Ok member => markDirectGroupStatusesPending groupMembers (<[memberName := member]> nodesByName) io
            end
      end
  end.

Definition invalidateStaleDirectStatuses (groupMembers : list string) (nodesByName : gmap string StatusNode) (io : statusIO) :
    statusIO * gmap string StatusNode * option statusError :=
  let stale := existsb (λ memberName,
                 match nodesByName !! memberName with
                 | None => false
                 | Some member => directStatusNeedsReconciliation member
                 end) groupMembers in
  if negb stale then (io, nodesByName, None) else markDirectGroupStatusesPending groupMembers nodesByName io.

(** What grouping looks at. *)
Definition groupingNode (node : StatusNode) : Node := MkNode (SN_Name node) (SN_UID node) (SN_NetworkMode node).

Fixpoint markGroups (primaryNames : list string) (nodesByName : gmap string StatusNode) (io : statusIO) :
    statusIO * gmap string StatusNode * option statusError :=
  match primaryNames with
  | [] => (io, nodesByName, None)
  | primaryName :: primaryNames =>
      let groupMembers := ResolveGroupMembers (groupingNode <$> nodesByName) primaryName in
      match markDirectGroupStatusesPending groupMembers nodesByName io with
      | (io, nodesByName, None) => markGroups primaryNames nodesByName io
      | stopped => stopped
      end
  end.

(** [nodes] are the Nodes listed; the groups are visited in the order of a map. *)
Definition markDirectStatusesPendingForNodes (nodes : option (list StatusNode)) (nodeNames : list string) (io : statusIO) :
    statusIO * gmap string StatusNode * option statusError :=
  if bool_decide (nodeNames = []) then (io, ∅, None)
  else
    match nodes with
    | None => (io, ∅, Some nodeListFailed)
    | Some nodes =>
        let nodesByName := foldl (λ m node, <[SN_Name node := node]> m) ∅ nodes in
        let primaryNames : gmap string unit :=
          foldl (λ m nodeName, <[ResolvePrimaryNode (groupingNode <$> nodesByName) nodeName := ()]> m) ∅ nodeNames in
        markGroups (range_list primaryNames).*1 nodesByName io
    end.

Definition reportDirectPreflightFailure (node : StatusNode) (err : goError) (io : statusIO) :
    statusIO * result statusError StatusNode :=
  match directPreflightDiagnostic err with
  | None => (io, Ok node)
  | Some (reason, message) =>
      let desired := SN_Status node <| NS_Readiness := NodeNotReady |> in
      let desired := setDirectStatusCondition node NodeConditionPlanApplied ConditionFalse reason
                       (message +:+ "; the last successfully applied device workload was left unchanged") desired in
      publishStatus node desired (NS_PlanDigest desired) io
  end.

(** ** Observing the Pod *)

(** The Pods of a list, in the namespace and with the labels asked for. *)
Definition matchingPods (namespace : string) (labels : gmap string string) (pods : list DirectPod) : list DirectPod :=
  filter (λ pod, Pod_Namespace pod = namespace ∧ labels ⊆ Pod_Labels pod) pods.

Definition currentPodCandidate (uid coldPlanDigest : string) (pod : DirectPod) : bool :=
  negb (Pod_Deleting pod)
  && bool_decide (valueOf (Pod_Annotations pod) templatePlanDigestAnnotation = coldPlanDigest)
  && bool_decide (valueOf (Pod_Annotations pod) NodeUIDAnnotation = uid).

(** The newest first. *)
Definition newestFirst (left right : DirectPod) : Z := compareInt (Pod_Created right) (Pod_Created left).

(** [pods]: what listing the Pods returns. *)
Definition currentDirectPod (pods : option (list DirectPod)) (node : StatusNode) (deployment : option StatusDeployment) :
    result statusError (option DirectPod) :=
  match deployment with
  | None => Ok None
  | Some deployment =>
      match pods with
      | None => Err podListFailed
      | Some pods =>
          let pods := matchingPods (SN_Namespace node) (Deployment_MatchLabels deployment) pods in
          let coldPlanDigest := valueOf (Deployment_Annotations deployment) templatePlanDigestAnnotation in
          if empty coldPlanDigest then Ok None
          else
            match filter (λ pod, currentPodCandidate (SN_UID node) coldPlanDigest pod = true) pods with
            | [] => Ok None
            | candidates => Ok (head (SortFunc newestFirst candidates))
            end
      end
  end.

(** Status, reason and message of a condition. *)
Record conditionValue := MkConditionValue {
  Value_Status : ConditionStatus;
  Value_Reason : string;
  Value_Message : string
}.

Definition podPendingMessage : string := "direct device Pod has not been created for the current plan".

Definition directHelperCondition (pod : option DirectPod) (name : string) (oneShot : bool) : conditionValue :=
  match pod with
  | None => MkConditionValue ConditionUnknown directPodPendingReason podPendingMessage
  | Some pod =>
      match list_find (λ status, CS_Name status = name) (Pod_InitStatuses pod) with
      | None => MkConditionValue ConditionUnknown "HelperPending" "required direct helper has no container status"
      | Some (_, status) =>
          if oneShot && bool_decide (CS_State status = StateTerminated 0) then
            MkConditionValue ConditionTrue "PreparationCompleted" "direct preparation completed"
          else if negb oneShot && bool_decide (CS_State status = StateRunning) && CS_Ready status then
            MkConditionValue ConditionTrue "ConnectivityReady" "direct connectivity is ready"
          else MkConditionValue ConditionFalse "HelperNotReady" "required direct helper is not ready"
      end
  end.

Definition directContainerState (state : ContainerState) : string :=
  match state with
  | StateRunning => "running"
  | StateWaiting => "waiting"
  | StateTerminated _ => "terminated"
  | StateUnset => "unknown"
  end.

(** The rest of the string from the last occurrence of [sub] on: [strings.LastIndex]. *)
Fixpoint fromLast (sub s : string) : option string :=
  match s with
  | EmptyString => if bool_decide (sub = "") then Some "" else None
  | String _ rest =>
      match fromLast sub rest with
      | Some found => Some found
      | None => if HasPrefix s sub then Some s else None
      end
  end.

Definition directSHA256Digest (value : string) : option string :=
  match fromLast "sha256:" value with
  | None => None
  | Some digest =>
      if negb (String.length digest =? String.length "sha256:" + 64)%nat then None
      else if negb (hexDecodes (TrimPrefix digest "sha256:")) then None
      else Some (ToLower digest)
  end.

(** Whether both digests are known, and whether they are the same. *)
Definition directImageDigestMatches (expected imageID : string) : bool * bool :=
  match directSHA256Digest expected, directSHA256Digest imageID with
  | Some expectedDigest, Some observedDigest => (true, bool_decide (observedDigest = expectedDigest))
  | _, _ => (false, false)
  end.

Definition directContainerFailureMessage (planned : ContainerPlan) (name detail : string) : string :=
  if negb (empty (ContainerPlan_ComponentID planned)) then
    "direct component " +:+ fmt_q (ContainerPlan_ComponentID planned) +:+ " (container " +:+ fmt_q name +:+ ") " +:+ detail
  else "direct application container " +:+ fmt_q name +:+ " " +:+ detail.

Definition noContainerStatus : ContainerStatus := MkContainerStatus "" StateUnset false 0 "".

(** The observations, whether the applications are ready, and the message. *)
Definition observeStep (node : NodePlan) (containerPlans : gmap string ContainerPlan) (statuses : gmap string ContainerStatus)
    (specImages : gmap string string) (acc : list NodeDirectContainerStatus * bool * string) (id : string) :
    result PlanError (list NodeDirectContainerStatus * bool * string) :=
  let '(observations, ready, message) := acc in
  match containerPlans !! id with
  | None => Err (planInputError ErrorInvariant "nodePlan.containers" "logical Node references an unknown application container")
  | Some planned =>
      if negb (bool_decide (ContainerPlan_NodeID planned = NodePlan_ID node)) then
        Err (planInputError ErrorInvariant "nodePlan.containers" "logical Node references an unknown application container")
      else
        let name := ApplicationContainerName id in
        let observed := statuses !! name in
        let status := default noContainerStatus observed in
        let observation :=
          match observed with
          | None => MkNodeDirectContainerStatus id name (ContainerPlan_ComponentID planned) "unknown" false 0 ""
          | Some status =>
              MkNodeDirectContainerStatus id name (ContainerPlan_ComponentID planned) (directContainerState (CS_State status))
                (CS_Ready status) (CS_RestartCount status) (CS_ImageID status)
          end in
        let '(ready, message) :=
          if bool_decide (id ∈ NodePlan_ReadinessContainerIDs node) then
            let '(ready, message) :=
              if bool_decide (observed = None) || negb (bool_decide (CS_State status = StateRunning)) || negb (CS_Ready status)
              then (false, directContainerFailureMessage planned name "is not ready")
              else (ready, message) in
            let specPinned := negb (empty (ContainerPlan_ImageDigest planned))
                              && Contains (ContainerPlan_ImageDigest planned) (valueOf specImages name) in
            let '(known, matches) := directImageDigestMatches (ContainerPlan_ImageDigest planned) (CS_ImageID status) in
            if negb specPinned && known && negb matches
            then (false, directContainerFailureMessage planned name
                           "kubelet image identity differs from the accepted device plan")
            else (ready, message)
          else (ready, message) in
        Ok (observations ++ [observation], ready, message)
  end.

Definition observeDirectContainers (node : NodePlan) (containerPlans : gmap string ContainerPlan)
    (statuses : gmap string ContainerStatus) (specImages : gmap string string) (podExists : bool) :
    result PlanError (list NodeDirectContainerStatus * bool * string) :=
  let? observed := rfold (observeStep node containerPlans statuses specImages) ([], podExists, podPendingMessage)
                     (NodePlan_ContainerIDs node) in
  let '(observations, ready, message) := observed in
  Ok (SortFunc (onKey DC_ID Compare) observations, ready, message).

(** ** Stopped workloads and tokens *)

Record directRunState := MkDirectRunState {
  RS_Stopped : bool;
  RS_WorkloadStopped : bool;
  RS_Parked : bool;
  RS_PodRestartTokens : option (gmap string string)
}.

(** [None]: the nil map. *)
Definition DecodeNodeTokens (raw : string) : option (gmap string string) :=
  if empty raw then Some ∅
  else match unmarshalTokens raw with None => Some ∅ | Some tokens => tokens end.

Definition directWorkloadStopped (pods : option (list DirectPod)) (primary : StatusNode) (deployment : option StatusDeployment) :
    result statusError bool :=
  match deployment with
  | None => Ok true
  | Some deployment =>
      if negb (bool_decide (Deployment_Replicas deployment = Some 0)) then Ok false
      else
        match pods with
        | None => Err podListFailed
        | Some pods => Ok (bool_decide (matchingPods (SN_Namespace primary) (Deployment_MatchLabels deployment) pods = []))
        end
  end.

(** [pods]: what listing the Pods returns this time. *)
Definition observeDirectRunState (pods : option (list DirectPod)) (primary : StatusNode)
    (deployment : option StatusDeployment) (pod : option DirectPod) : result statusError directRunState :=
  let tokens := match pod with
                | None => None
                | Some pod => DecodeNodeTokens (valueOf (Pod_Annotations pod) RestartTokensAnnotation)
                end in
  if isStopped primary then
    let? workloadStopped := directWorkloadStopped pods primary deployment in
    Ok (MkDirectRunState true workloadStopped (bool_decide (pod = None)) tokens)
  else Ok (MkDirectRunState false false false tokens).

Definition setDirectStoppedCondition (node primary : StatusNode) (stopped workloadStopped : bool) (desired : NodeStatus) :
    NodeStatus :=
  let '(status, reason, message) :=
    if stopped && workloadStopped then (ConditionTrue, directStoppedReason, directStoppedMessage)
    else if stopped then
      (ConditionFalse, directStoppingReason, "runState is Stopped; waiting for the workload Pod to terminate")
    else (ConditionFalse, directRunningReason, "runState is Running") in
  let message :=
    if stopped && negb (bool_decide (SN_Name node = SN_Name primary)) then
      message +:+ " (the shared workload follows primary Node " +:+ fmt_q (SN_Name primary) +:+ ")"
    else message in
  setDirectStatusCondition node NodeConditionStopped status reason message desired.

(** [directRunState.apply]. *)
Definition applyRunState (s : directRunState) (member primary : StatusNode) (desired : NodeStatus) : NodeStatus :=
  let desired := if RS_Stopped s then desired <| NS_Readiness := NodeNotReady |> else desired in
  let desired :=
    match RS_PodRestartTokens s with
    | None => desired
    | Some tokens => desired <| NS_ObservedRestartToken := valueOf tokens (SN_UID member) |>
    end in
  setDirectStoppedCondition member primary (RS_Stopped s) (RS_WorkloadStopped s) desired.

(** The token of the Node in the workload's template; [""] when there is none. *)
Definition projectedResetToken (deployment : option StatusDeployment) (uid : string) : string :=
  match deployment with
  | None => ""
  | Some deployment =>
      let raw := valueOf (Deployment_Annotations deployment) DeviceStateResetsAnnotation in
      if empty raw then ""
      else match unmarshalTokens raw with Some (Some tokens) => valueOf tokens uid | _ => "" end
  end.

Definition setDirectDeviceStateResetCondition (node : StatusNode) (deployment : option StatusDeployment)
    (preparedStatus : ConditionStatus) (desired : NodeStatus) : NodeStatus :=
  let token := projectedResetToken deployment (SN_UID node) in
  if empty token then removeDirectStatusCondition NodeConditionDeviceStateReset desired
  else if bool_decide (preparedStatus = ConditionTrue) then
    setDirectStatusCondition node NodeConditionDeviceStateReset ConditionTrue "DeviceStateResetAcknowledged"
      ("device-state reset " +:+ fmt_q token +:+ " re-seeded plan-owned artifacts") desired
  else
    setDirectStatusCondition node NodeConditionDeviceStateReset ConditionFalse "DeviceStateResetPending"
      ("device-state reset " +:+ fmt_q token +:+ " awaits Pod preparation") desired.

(** ** The action on links *)

Definition directDeploymentLinkLifecycleMode (deployment : option StatusDeployment) (planDigest : string) : string :=
  match deployment with
  | None => ""
  | Some deployment =>
      if negb (bool_decide (valueOf (Deployment_Annotations deployment) LinkLifecyclePlanDigestAnnotation = planDigest)) then ""
      else
        let mode := valueOf (Deployment_Annotations deployment) LinkLifecycleModeAnnotation in
        if negb (bool_decide (mode = LinkApplyRestart)) && negb (bool_decide (mode = LinkApplyRecreate)) then "" else mode
  end.

Definition setDirectLinkLifecycleActionCondition (node : StatusNode) (mode planDigest : string) (desired : NodeStatus) :
    NodeStatus :=
  if negb (bool_decide (mode = LinkApplyLive)) && negb (bool_decide (mode = LinkApplyRestart))
     && negb (bool_decide (mode = LinkApplyRecreate))
  then removeDirectStatusCondition NodeConditionLinkLifecycleAction desired
  else
    setDirectStatusCondition node NodeConditionLinkLifecycleAction ConditionTrue ("Link" +:+ mode)
      (mode +:+ " Link lifecycle action selected for direct plan " +:+ planDigest
       +:+ "; ConnectivityReady and ContainersReady report convergence") desired.

(** ** The status of every member *)

Definition directManagementPlansByNodeID (plan : Plan) : gmap string ManagementPlan :=
  foldl (λ m management, <[ManagementPlan_NodeID management := management]> m) ∅ (Plan_Management plan).

(** A Node without management has the zero plan, whose ID is empty. *)
Definition directManagementStatus (management : option ManagementPlan) : option NodeDirectManagementStatus :=
  match management with
  | None => None
  | Some management =>
      if empty (ManagementPlan_ID management) then None
      else Some (MkNodeDirectManagementStatus (ManagementPlan_InterfaceName management) (ManagementPlan_IPv4 management)
                   (ManagementPlan_IPv4Gateway management) (ManagementPlan_IPv6 management)
                   (ManagementPlan_IPv6Gateway management))
  end.

Definition nodeProfileResolutionMessage (applied : option AppliedProfileStatus) : string :=
  match applied with
  | None => "using built-in and global Config defaults without an explicit NodeProfile"
  | Some applied => "applied NodeProfile " +:+ fmt_q (AppliedProfile_Name applied) +:+ " at generation "
                    +:+ Itoa (AppliedProfile_Generation applied)
  end.

(** What the pass over the members has in common. *)
Record groupObservation := MkGroupObservation {
  GO_Primary : StatusNode;
  GO_Plan : Plan;
  GO_PlanDigest : string;
  GO_Deployment : option StatusDeployment;
  GO_Pod : option DirectPod;
  GO_RunState : directRunState;
  GO_ExposedPorts : gmap string NodeExposedPorts;
  GO_AppliedProfile : option AppliedProfileStatus;
  GO_LinkLifecycleMode : string
}.

(** A helper's condition, unless the workload is stopped and has no Pod. *)
Definition helperCondition (g : groupObservation) (name : string) (oneShot : bool) : conditionValue :=
  if RS_Parked (GO_RunState g) then MkConditionValue ConditionUnknown directStoppedReason directStoppedMessage
  else directHelperCondition (GO_Pod g) name oneShot.

Definition containersCondition (g : groupObservation) (applicationsReady : bool) (readinessMessage : string) : conditionValue :=
  let '(reason, message) :=
    if RS_Parked (GO_RunState g) then (directStoppedReason, directStoppedMessage)
    else (directPodPendingReason, readinessMessage) in
  match GO_Pod g with
  | None => MkConditionValue ConditionUnknown reason message
  | Some _ =>
      if applicationsReady then
        MkConditionValue ConditionTrue "ContainersReady" "all required direct application containers are ready"
      else MkConditionValue ConditionFalse "DirectContainersNotReady" message
  end.

Definition aggregateReadiness (prepared connectivity containers : ConditionStatus) : string :=
  if bool_decide (prepared = ConditionTrue) && bool_decide (connectivity = ConditionTrue)
     && bool_decide (containers = ConditionTrue) then NodeReady
  else if bool_decide (prepared = ConditionFalse) || bool_decide (connectivity = ConditionFalse)
          || bool_decide (containers = ConditionFalse) then NodeNotReady
  else NodeUnknown.

Definition setConditionValue (node : StatusNode) (conditionType : string) (value : conditionValue) : NodeStatus → NodeStatus :=
  setDirectStatusCondition node conditionType (Value_Status value) (Value_Reason value) (Value_Message value).

Definition plansByNodeID (plan : Plan) : gmap string NodePlan :=
  foldl (λ m node, <[NodePlan_ID node := node]> m) ∅ (Plan_Nodes plan).
Definition containerPlansOf (plan : Plan) : gmap string ContainerPlan :=
  foldl (λ m container, <[ContainerPlan_ID container := container]> m) ∅ (Plan_Containers plan).
Definition containerStatusesOf (pod : option DirectPod) : gmap string ContainerStatus :=
  foldl (λ m status, <[CS_Name status := status]> m) ∅ (match pod with None => [] | Some pod => Pod_Statuses pod end).
Definition containerSpecImagesOf (pod : option DirectPod) : gmap string string :=
  foldl (λ m container, <[container.1 := container.2]> m) ∅ (match pod with None => [] | Some pod => Pod_Containers pod end).

(** The body of the loop up to the write: the status of one member. *)
Definition desiredMemberStatus (g : groupObservation) (memberName : string) (member : StatusNode) :
    result PlanError NodeStatus :=
  let plan := GO_Plan g in
  match plansByNodeID plan !! SN_UID member with
  | None => Err (planInputError ErrorInvariant "nodePlan.nodes"
                   "applied plan does not identify every workload Node by UID and name")
  | Some logicalNode =>
      if negb (bool_decide (NodePlan_Name logicalNode = SN_Name member)) then
        Err (planInputError ErrorInvariant "nodePlan.nodes"
               "applied plan does not identify every workload Node by UID and name")
      else
        let? observed := observeDirectContainers logicalNode (containerPlansOf plan) (containerStatusesOf (GO_Pod g))
                           (containerSpecImagesOf (GO_Pod g)) (bool_decide (is_Some (GO_Pod g))) in
        let '(observations, applicationsReady, readinessMessage) := observed in
        let prepared := helperCondition g PreparationContainerName true in
        let connectivity := helperCondition g ConnectivityContainerName false in
        let containers := containersCondition g applicationsReady readinessMessage in
        let desired := SN_Status member in
        let desired := desired <| NS_Readiness := aggregateReadiness (Value_Status prepared) (Value_Status connectivity)
                                                    (Value_Status containers) |> in
        let desired := desired <| NS_ExposedPorts := GO_ExposedPorts g !! memberName |> in
        let desired := desired <| NS_AppliedProfile := GO_AppliedProfile g |> in
        let desired := desired <| NS_PlanDigest := GO_PlanDigest g |> in
        let desired := desired <| NS_DirectContainers := Some observations |> in
        let desired := desired <| NS_DirectManagement :=
                         directManagementStatus (directManagementPlansByNodeID plan !! SN_UID member) |> in
        let desired := setDirectStatusCondition member NodeConditionPlanApplied ConditionTrue "PlanApplied"
                         "status is bound to the current planner-verified direct device plan" desired in
        let mode := if empty (GO_LinkLifecycleMode g)
                    then directDeploymentLinkLifecycleMode (GO_Deployment g) (GO_PlanDigest g)
                    else GO_LinkLifecycleMode g in
        let desired := setDirectLinkLifecycleActionCondition member mode (GO_PlanDigest g) desired in
        let desired := setConditionValue member NodeConditionPrepared prepared desired in
        let desired := setConditionValue member NodeConditionConnectivityReady connectivity desired in
        let desired := setConditionValue member NodeConditionContainersReady containers desired in
        let desired := setDirectStatusCondition member NodeConditionProfileResolved ConditionTrue "NodeProfileResolved"
                         (nodeProfileResolutionMessage (NS_AppliedProfile desired)) desired in
        let desired := setDirectDeviceStateResetCondition member (GO_Deployment g) (Value_Status prepared) desired in
        Ok (applyRunState (GO_RunState g) member (GO_Primary g) desired)
  end.

Fixpoint updateMembers (g : groupObservation) (groupMembers : list string) (nodesByName : gmap string StatusNode)
    (io : statusIO) : statusIO * gmap string StatusNode * option statusError :=
  match groupMembers with
  | [] => (io, nodesByName, None)
  | memberName :: groupMembers =>
      match nodesByName !! memberName with
      | None => updateMembers g groupMembers nodesByName io
      | Some member =>
          match desiredMemberStatus g memberName member with
          | Err e => (io, nodesByName, Some (statusInvalid e))
          | Ok desired =>
              let '(io, updated) := publishStatus member desired (GO_PlanDigest g) io in
              match updated with
              | Err e => (io, nodesByName, Some e)
              | Ok member => updateMembers g groupMembers (<[memberName := member]> nodesByName) io
              end
          end
      end
  end.

(** [podLists]: what the two lists of Pods return. *)
Definition observeGroup (podLists : option (list DirectPod) * option (list DirectPod)) (primary : StatusNode) (plan : Plan)
    (deployment : option StatusDeployment) (exposedPorts : gmap string NodeExposedPorts)
    (applied : option AppliedProfileStatus) (linkLifecycleMode : string) : result statusError groupObservation :=
  let? planDigest := match PlanDigest plan with Ok digest => Ok digest | Err e => Err (statusInvalid e) end in
  let? pod := currentDirectPod podLists.1 primary deployment in
  let? runState := observeDirectRunState podLists.2 primary deployment pod in
  Ok (MkGroupObservation primary plan planDigest deployment pod runState exposedPorts applied linkLifecycleMode).

Definition updateDirectStatuses (podLists : option (list DirectPod) * option (list DirectPod)) (primary : StatusNode)
    (plan : Plan) (deployment : option StatusDeployment) (groupMembers : list string) (nodesByName : gmap string StatusNode)
    (exposedPorts : gmap string NodeExposedPorts) (applied : option AppliedProfileStatus) (linkLifecycleMode : string)
    (io : statusIO) : statusIO * gmap string StatusNode * option statusError :=
  match observeGroup podLists primary plan deployment exposedPorts applied linkLifecycleMode with
  | Err e => (io, nodesByName, Some e)
  | Ok g => updateMembers g groupMembers nodesByName io
  end.
End status.
