(* ===== verification/NodeStatusTheorems.v ===== *)
(** * The status of a Node: what a ready Node means

    A Node is reported ready exactly when its device runs: the newest Pod of the plan its
    Deployment was rendered from has been prepared, its links are connected, and its
    applications are ready and run the planned images.  A group whose status is stale is not
    left ready. *)

From S2P Require Import Prelude WireCodec Api Grouping GoStrings GoNet DevicePlanTypes Management.
From S2P Require Import ManagementTheorems PeerDirectory Hosts NameResolution GoSort PlanValidation PlanSpec.
From S2P Require Import PlanAcceptance PlanCodec PlanCanonical PlanTheorems PlanExamples InputCodec InputSpec.
From S2P Require Import InputTheorems CompilerNames ConnectivityRevision ConnectivityTheorems PlanInput.
From S2P Require Import NodeArtifacts NodeConnectivity PodNames NodeStatus.
Local Open Scope Z_scope.

Section theorems.
Context (server : nat → attempt) (recorder : bool).
Context {setter : ConditionSetter} {conditions : StatusConditions} {tokensJSON : TokensJSON} {order : RangeOrder string}.
Context {sort : GoSort} {planJSON : PlanJSON} {sha : Sha256} {quote : FmtQuote}.

(** ** Writes *)

(** Every object written from [io] to [io'] satisfies [P]. *)
Definition wrote (P : StatusNode → Prop) (io io' : statusIO) : Prop :=
  ∃ new, IO_Writes io' = IO_Writes io ++ new ∧ Forall P new.

Lemma wrote_none P io io' : IO_Writes io' = IO_Writes io → wrote P io io'.
Proof. intros H. exists []. by rewrite app_nil_r. Qed.
Lemma wrote_trans P io io' io'' : wrote P io io' → wrote P io' io'' → wrote P io io''.
Proof.
  intros (new & H & HP) (new' & H' & HP'). exists (new ++ new').
  by rewrite H', H, app_assoc, Forall_app.
Qed.
Lemma wrote_impl (P Q : StatusNode → Prop) io io' : (∀ o, P o → Q o) → wrote P io io' → wrote Q io io'.
Proof. intros HPQ (new & H & HP). exists new. split; [done|]. eapply Forall_impl; [exact HP|auto]. Qed.

Lemma wrote_one {B} P io io' (f : StatusNode → B) x :
  wrote P io io' → IO_Writes io = [] → f <$> IO_Writes io' = [x] → ∃ object, P object ∧ f object = x.
Proof.
  intros (new & Hw & HP) Hio Hf. rewrite Hw, Hio in Hf. destruct new as [|o new]; [done|].
  injection Hf as Hf _. apply Forall_inv in HP. eauto.
Qed.

(** The object is the Node, at its generation, with the status. *)
Definition carries (node : StatusNode) (desired : NodeStatus) (object : StatusNode) : Prop :=
  SN_UID object = SN_UID node ∧ SN_Generation object = SN_Generation node ∧ SN_Status object = desired.

Lemma retryUpdate_wrote steps node desired io :
  wrote (carries node desired) io (retryUpdate server steps node desired io).1.
Proof.
  revert io. induction steps as [|steps IH]; intros io; cbn; [by apply wrote_none|].
  assert (∀ io', IO_Writes io' = IO_Writes io → wrote (carries node desired) io (retryUpdate server steps node desired io').1) as Hretry.
  { intros io' H. eapply wrote_trans; [by apply wrote_none|]. apply IH. }
  destruct (server _) as [[]|current answer]; cbn; [by apply Hretry|by apply wrote_none|].
  destruct (bool_decide_reflect (SN_UID current = SN_UID node)) as [Hu|]; [|by apply wrote_none].
  destruct (bool_decide_reflect (SN_Generation current = SN_Generation node)) as [Hg|]; [|by apply wrote_none]. cbn.
  case_bool_decide; [by apply wrote_none|]. destruct answer; cbn; [|by apply Hretry|by apply wrote_none].
  eexists; split; [done|]. by repeat constructor.
Qed.

Lemma events_writes nodeName previous current planDigest io :
  IO_Writes (recordDirectConditionTransitions recorder nodeName previous current planDigest io) = IO_Writes io.
Proof.
  unfold recordDirectConditionTransitions. destruct recorder; [|done]. cbn.
  revert io. induction current as [|c current IH]; intros io; [done|]. cbn. rewrite IH.
  destruct (isDirectStatusCondition _); [|done]. cbn. destruct (unchangedSince _ _); [done|].
  by destruct (reportDirectConditionEvent _ _).
Qed.

(** A Node that is updated stays the same Node. *)
Definition sameNode (a b : StatusNode) : Prop :=
  SN_Name a = SN_Name b ∧ SN_UID a = SN_UID b ∧ SN_Generation a = SN_Generation b.

Lemma publishStatus_spec node desired planDigest io io' r :
  publishStatus server recorder node desired planDigest io = (io', r) →
  wrote (carries node desired) io io' ∧ ∀ node', r = Ok node' → sameNode node' node.
Proof.
  unfold publishStatus, updateNodeStatus. case_bool_decide as Heq.
  - intros [= <- <-]. split; [apply wrote_none, events_writes|]. by intros ? [= <-].
  - pose proof (retryUpdate_wrote retrySteps node desired io) as Hw.
    destruct (retryUpdate _ _ _ _ _) as [io1 [updated|e]]; cbn in *; intros [= <- <-]; split; try done.
    + eapply wrote_trans; [exact Hw|]. apply wrote_none, events_writes.
    + by intros ? [= <-].
Qed.

(** ** The Pod that is observed *)

Lemma newestFirst_wo : weak_order newestFirst.
Proof. unfold newestFirst. constructor; intros *; rewrite ?compareInt_le, ?compareInt_ge; lia. Qed.

(** The Pod is of the plan the Deployment was rendered from, and no such Pod is newer. *)
Record currentPod (pods : list DirectPod) (node : StatusNode) (deployment : StatusDeployment) (pod : DirectPod) : Prop := {
  cp_listed : pod ∈ pods;
  cp_namespace : Pod_Namespace pod = SN_Namespace node;
  cp_labels : Deployment_MatchLabels deployment ⊆ Pod_Labels pod;
  cp_alive : Pod_Deleting pod = false;
  cp_digest : valueOf (Pod_Annotations pod) templatePlanDigestAnnotation
              = valueOf (Deployment_Annotations deployment) templatePlanDigestAnnotation;
  cp_known : valueOf (Deployment_Annotations deployment) templatePlanDigestAnnotation ≠ "";
  cp_uid : valueOf (Pod_Annotations pod) NodeUIDAnnotation = SN_UID node;
  cp_newest : ∀ other, other ∈ matchingPods (SN_Namespace node) (Deployment_MatchLabels deployment) pods →
    currentPodCandidate (SN_UID node) (valueOf (Deployment_Annotations deployment) templatePlanDigestAnnotation) other = true →
    Pod_Created other ≤ Pod_Created pod
}.

Lemma head_newest l pod : head (SortFunc newestFirst l) = Some pod → pod ∈ l ∧ ∀ other, other ∈ l → Pod_Created other ≤ Pod_Created pod.
Proof.
  intros Hh. pose proof (SortFunc_sorted newestFirst l newestFirst_wo) as Hs. pose proof (SortFunc_perm newestFirst l) as Hp.
  destruct (SortFunc newestFirst l) as [|x rest]; [done|]. cbn in Hh. simplify_eq. split.
  - rewrite <- Hp. by left.
  - intros other Ho. rewrite <- Hp in Ho. apply elem_of_cons in Ho as [->|Ho]; [lia|].
    apply StronglySorted_inv in Hs as [_ Hs]. rewrite list.Forall_forall in Hs. specialize (Hs _ Ho).
    unfold newestFirst in Hs. by rewrite compareInt_le in Hs.
Qed.

Lemma currentDirectPod_Some pods node deployment pod :
  currentDirectPod pods node deployment = Ok (Some pod) →
  ∃ deployment' pods', deployment = Some deployment' ∧ pods = Some pods' ∧ currentPod pods' node deployment' pod.
Proof.
  destruct deployment as [deployment|]; [|done]. destruct pods as [pods|]; [|done]. cbn -[SortFunc].
  destruct (empty _) eqn:Hd; [done|]. set (digest := valueOf (Deployment_Annotations deployment) _) in *.
  set (candidates := filter _ (matchingPods _ _ _)).
  intros H. assert (head (SortFunc newestFirst candidates) = Some pod) as Hh.
  { destruct candidates; [done|]. by injection H. }
  apply head_newest in Hh as [Hin Hnew]. exists deployment, pods. split_and!; [done..|].
  unfold candidates in Hin. apply list_elem_of_filter in Hin as [Hc Hin]. pose proof Hin as Hm.
  unfold matchingPods in Hin. apply list_elem_of_filter in Hin as [[Hns Hl] Hin].
  unfold currentPodCandidate in Hc. apply andb_true_iff in Hc as [[Ha Hdg]%andb_true_iff Hu].
  apply bool_decide_eq_true in Hdg, Hu. apply negb_true_iff in Ha. constructor; try done.
  - intros H0. unfold digest in Hd. by rewrite H0 in Hd.
  - intros other Ho Hco. apply Hnew. unfold candidates. by apply list_elem_of_filter.
Qed.

(** ** Readiness *)

(** The helper's status, the first of its name, satisfies [P]. *)
Definition helperIs (pod : DirectPod) (name : string) (P : ContainerStatus → Prop) : Prop :=
  ∃ i status, list_find (λ status, CS_Name status = name) (Pod_InitStatuses pod) = Some (i, status) ∧ P status.

Lemma prepared_True pod :
  Value_Status (directHelperCondition pod PreparationContainerName true) = ConditionTrue
  ↔ ∃ p, pod = Some p ∧ helperIs p PreparationContainerName (λ status, CS_State status = StateTerminated 0).
Proof.
  unfold directHelperCondition, helperIs. destruct pod as [pod|]; [|split; [done|by intros (?&?&?)]].
  destruct (list_find _ _) as [[i status]|] eqn:E.
  - cbn. case_bool_decide as Hb; cbn; split; try done; [eauto 10|]. intros (? & [= <-] & ? & ? & ? & ?). by simplify_eq.
  - split; [done|]. intros (? & [= <-] & ? & ? & ? & ?). by simplify_eq.
Qed.

Lemma connectivity_True pod :
  Value_Status (directHelperCondition pod ConnectivityContainerName false) = ConditionTrue
  ↔ ∃ p, pod = Some p ∧ helperIs p ConnectivityContainerName (λ status, CS_State status = StateRunning ∧ CS_Ready status = true).
Proof.
  unfold directHelperCondition, helperIs. destruct pod as [pod|]; [|split; [done|by intros (?&?&?)]].
  destruct (list_find _ _) as [[i status]|] eqn:E.
  - cbn. case_bool_decide as Hb; destruct (CS_Ready status) eqn:Hr; cbn; split; try done; try (by eauto 10);
      intros (? & [= <-] & ? & ? & ? & ? & ?); simplify_eq; congruence.
  - split; [done|]. intros (? & [= <-] & ? & ? & ? & ?). by simplify_eq.
Qed.

(** The image that runs is the planned one as far as can be told: the Pod asks for it by its
    digest, or the digests are not both known, or they are equal. *)
Definition imageAccepted (planned : ContainerPlan) (specImage imageID : string) : Prop :=
  (ContainerPlan_ImageDigest planned ≠ "" ∧ Contains (ContainerPlan_ImageDigest planned) specImage = true)
  ∨ ∀ expected observed, directSHA256Digest (ContainerPlan_ImageDigest planned) = Some expected →
      directSHA256Digest imageID = Some observed → observed = expected.

Definition containerReady (node : NodePlan) (containerPlans : gmap string ContainerPlan)
    (statuses : gmap string ContainerStatus) (specImages : gmap string string) (id : string) : Prop :=
  ∃ planned status,
    containerPlans !! id = Some planned ∧ statuses !! ApplicationContainerName id = Some status
    ∧ CS_State status = StateRunning ∧ CS_Ready status = true
    ∧ imageAccepted planned (valueOf specImages (ApplicationContainerName id)) (CS_ImageID status).

(** Whether the observed identity speaks against the image. *)
Lemma imageAccepted_spec planned specImage imageID :
  (let specPinned := negb (empty (ContainerPlan_ImageDigest planned)) && Contains (ContainerPlan_ImageDigest planned) specImage in
   let '(known, matches) := directImageDigestMatches (ContainerPlan_ImageDigest planned) imageID in
   negb specPinned && known && negb matches) = false
  ↔ imageAccepted planned specImage imageID.
Proof.
  unfold imageAccepted, directImageDigestMatches, empty.
  destruct (bool_decide_reflect (ContainerPlan_ImageDigest planned = "")) as [E|E];
    destruct (Contains _ specImage) eqn:Hc; cbn;
    destruct (directSHA256Digest (ContainerPlan_ImageDigest planned)) eqn:H1; destruct (directSHA256Digest imageID) eqn:H2; cbn;
    try (case_bool_decide as Hb); cbn; split; try done; try (by (intros; right; intros; simplify_eq)); try (by left);
    try (intros [[? ?]|Hx]; [congruence|]; exfalso; apply Hb; by apply Hx).
Qed.

Lemma running_spec (observed : option ContainerStatus) :
  (bool_decide (observed = None) || negb (bool_decide (CS_State (default noContainerStatus observed) = StateRunning))
   || negb (CS_Ready (default noContainerStatus observed))) = false
  ↔ ∃ status, observed = Some status ∧ CS_State status = StateRunning ∧ CS_Ready status = true.
Proof.
  rewrite !orb_false_iff, bool_decide_eq_false, !negb_false_iff, bool_decide_eq_true.
  destruct observed as [status|]; cbn; split; try tauto.
  - intros [[_ ?] ?]. eauto.
  - by intros (? & [= <-] & -> & ->).
  - by intros (? & ? & _).
Qed.

Lemma observeStep_spec node containerPlans statuses specImages observations ready message id acc :
  observeStep node containerPlans statuses specImages (observations, ready, message) id = Ok acc →
  (acc.1.2 = true ↔ ready = true ∧
      (id ∈ NodePlan_ReadinessContainerIDs node → containerReady node containerPlans statuses specImages id)).
Proof.
  unfold observeStep. destruct (containerPlans !! id) as [planned|] eqn:Hp; [|done].
  case_bool_decide as Hn; [|done]. cbn -[directImageDigestMatches].
  case_bool_decide as Hin; [|intros [= <-]; cbn; tauto].
  set (observed := statuses !! ApplicationContainerName id). set (status := default noContainerStatus observed).
  pose proof (running_spec observed) as Hrun. fold status in Hrun.
  pose proof (imageAccepted_spec planned (valueOf specImages (ApplicationContainerName id)) (CS_ImageID status)) as Himg.
  cbn zeta in Himg. destruct (directImageDigestMatches _ _) as [known matches].
  assert (containerReady node containerPlans statuses specImages id ↔
    (∃ s, observed = Some s ∧ CS_State s = StateRunning ∧ CS_Ready s = true)
    ∧ imageAccepted planned (valueOf specImages (ApplicationContainerName id)) (CS_ImageID status)) as Hready.
  { unfold containerReady. rewrite Hp. unfold status. split.
    - intros (p & s & [= <-] & Ho & Hr & Hd & Hi). fold observed in Ho. rewrite Ho. eauto 10.
    - intros [(s & Ho & Hr & Hd) Hi]. exists planned, s. rewrite Ho in Hi. eauto 10. }
  destruct (bool_decide (observed = None) || _ || _); destruct (negb _ && known && negb matches); intros [= <-]; cbn;
    rewrite Hready, <- Hrun, <- Himg; split; intros; naive_solver.
Qed.

Lemma observeDirectContainers_spec node containerPlans statuses specImages podExists observations ready message :
  observeDirectContainers node containerPlans statuses specImages podExists = Ok (observations, ready, message) →
  ready = true ↔ podExists = true ∧ ∀ id, id ∈ NodePlan_ContainerIDs node → id ∈ NodePlan_ReadinessContainerIDs node →
                   containerReady node containerPlans statuses specImages id.
Proof.
  unfold observeDirectContainers. intros H. apply rbind_Ok_inv in H as ([[obs r] m] & Hf & [= _ <- _]).
  revert Hf. generalize (@nil NodeDirectContainerStatus) as acc0. generalize podPendingMessage as m0. revert podExists.
  induction (NodePlan_ContainerIDs node) as [|id ids IH]; intros podExists m0 acc0 Hf; cbn [rfold] in Hf.
  - simplify_eq. set_solver.
  - apply rbind_Ok_inv in Hf as ([[o1 r1] m1] & Hs & Hf). apply observeStep_spec in Hs. cbn in Hs.
    apply IH in Hf. rewrite Hf, Hs. split; [intros [[? ?] ?]; split; [done|]; set_solver|].
    intros [? Hall]. split; [split; [done|]|]; set_solver.
Qed.

(** ** The status of a member *)

(** The device of the Node runs: the Pod is prepared and connected, and the applications that
    stand for the Node are ready. *)
Record deviceReady (g : groupObservation) (member : StatusNode) (pod : DirectPod) (node : NodePlan) : Prop := {
  dr_pod : GO_Pod g = Some pod;
  dr_wanted : RS_Stopped (GO_RunState g) = false;
  dr_prepared : helperIs pod PreparationContainerName (λ status, CS_State status = StateTerminated 0);
  dr_connected : helperIs pod ConnectivityContainerName (λ status, CS_State status = StateRunning ∧ CS_Ready status = true);
  dr_node : plansByNodeID (GO_Plan g) !! SN_UID member = Some node;
  dr_name : NodePlan_Name node = SN_Name member;
  dr_containers : ∀ id, id ∈ NodePlan_ContainerIDs node → id ∈ NodePlan_ReadinessContainerIDs node →
    containerReady node (containerPlansOf (GO_Plan g)) (containerStatusesOf (Some pod)) (containerSpecImagesOf (Some pod)) id
}.

Lemma set_readiness node t status reason message s :
  NS_Readiness (setDirectStatusCondition node t status reason message s) = NS_Readiness s.
Proof. done. Qed.
Lemma reset_readiness node deployment prepared s :
  NS_Readiness (setDirectDeviceStateResetCondition node deployment prepared s) = NS_Readiness s.
Proof. unfold setDirectDeviceStateResetCondition. destruct (empty _); [done|]. by case_bool_decide. Qed.
Lemma action_readiness node mode planDigest s :
  NS_Readiness (setDirectLinkLifecycleActionCondition node mode planDigest s) = NS_Readiness s.
Proof. unfold setDirectLinkLifecycleActionCondition. by destruct (_ && _ && _). Qed.
Lemma stopped_readiness node primary stopped workloadStopped s :
  NS_Readiness (setDirectStoppedCondition node primary stopped workloadStopped s) = NS_Readiness s.
Proof. unfold setDirectStoppedCondition. by destruct stopped, workloadStopped. Qed.
Lemma run_readiness s member primary d :
  NS_Readiness (applyRunState s member primary d) = if RS_Stopped s then NodeNotReady else NS_Readiness d.
Proof. unfold applyRunState. rewrite stopped_readiness. by destruct (RS_Stopped s), (RS_PodRestartTokens s). Qed.

Lemma reset_digest node deployment prepared s :
  NS_PlanDigest (setDirectDeviceStateResetCondition node deployment prepared s) = NS_PlanDigest s.
Proof. unfold setDirectDeviceStateResetCondition. destruct (empty _); [done|]. by case_bool_decide. Qed.
Lemma action_digest node mode planDigest s :
  NS_PlanDigest (setDirectLinkLifecycleActionCondition node mode planDigest s) = NS_PlanDigest s.
Proof. unfold setDirectLinkLifecycleActionCondition. by destruct (_ && _ && _). Qed.
Lemma run_digest s member primary d : NS_PlanDigest (applyRunState s member primary d) = NS_PlanDigest d.
Proof.
  unfold applyRunState, setDirectStoppedCondition.
  by destruct (RS_Stopped s), (RS_WorkloadStopped s), (RS_PodRestartTokens s).
Qed.

Lemma aggregate_ready prepared connectivity containers :
  aggregateReadiness prepared connectivity containers = NodeReady
  ↔ prepared = ConditionTrue ∧ connectivity = ConditionTrue ∧ containers = ConditionTrue.
Proof. destruct prepared, connectivity, containers; vm_compute; split; intros H; try done; naive_solver. Qed.

Lemma containers_True g ready message :
  Value_Status (containersCondition g ready message) = ConditionTrue ↔ is_Some (GO_Pod g) ∧ ready = true.
Proof.
  unfold containersCondition. destruct (RS_Parked _), (GO_Pod g) as [pod|], ready; cbn;
    split; intros H; try done; destruct H as [[? ?] ?]; done.
Qed.

(** Whether the workload is parked agrees with whether there is a Pod. *)
Definition observedRun (g : groupObservation) : Prop :=
  RS_Parked (GO_RunState g) = RS_Stopped (GO_RunState g) && bool_decide (GO_Pod g = None).

Lemma desired_ready g memberName member desired :
  observedRun g → desiredMemberStatus g memberName member = Ok desired →
  NS_Readiness desired = NodeReady ↔ ∃ pod node, deviceReady g member pod node.
Proof.
  intros Hrun. unfold desiredMemberStatus. destruct (plansByNodeID _ !! _) as [node|] eqn:Hn; [|done].
  case_bool_decide as Hname; [|done]. cbn [negb]. intros H. apply rbind_Ok_inv in H as ([[obs ready] msg] & Hobs & [= <-]).
  apply observeDirectContainers_spec in Hobs. rewrite run_readiness, reset_readiness. cbn zeta. unfold setConditionValue.
  rewrite !set_readiness, action_readiness, set_readiness. cbn [NS_Readiness].
  destruct (RS_Stopped (GO_RunState g)) eqn:Hs; [split; [done|]; intros (? & ? & []); congruence|].
  unfold observedRun in Hrun. rewrite Hs in Hrun. cbn in Hrun. unfold helperCondition. rewrite Hrun. cbn.
  rewrite aggregate_ready, containers_True, prepared_True, connectivity_True, Hobs, bool_decide_eq_true. split.
  - intros ((pod & Hpod & Hprep) & (pod' & Hpod' & Hconn) & _ & _ & Hc). rewrite Hpod in Hpod'. simplify_eq.
    exists pod', node. rewrite Hpod in Hc. constructor; try done.
  - intros (pod & node' & []). rewrite dr_node0 in Hn. simplify_eq. rewrite dr_pod0. eauto 20.
Qed.

(** ** Conditions of a member *)

Context {lawful : LawfulConditions}.

(** The condition is there, with the status and at the generation. *)
Definition holds (conditionType : string) (status : ConditionStatus) (generation : Z) (s : NodeStatus) : Prop :=
  ∃ found, FindStatusCondition (NS_Conditions s) conditionType = Some found
           ∧ CStatus found = status ∧ ObservedGeneration found = generation.

Lemma holds_set node t status reason message s : holds t status (SN_Generation node) (setDirectStatusCondition node t status reason message s).
Proof.
  destruct (find_set (NS_Conditions s) (MkCondition t status (SN_Generation node) 0 reason message)) as (found & H & _ & H1 & H2 & _).
  by exists found.
Qed.
Lemma holds_set_other t status generation node t' status' reason message s :
  t ≠ t' → holds t status generation (setDirectStatusCondition node t' status' reason message s) ↔ holds t status generation s.
Proof. intros Hne. unfold holds, setDirectStatusCondition. cbn. by rewrite find_set_other. Qed.
Lemma holds_remove_other t status generation t' s :
  t ≠ t' → holds t status generation (removeDirectStatusCondition t' s) ↔ holds t status generation s.
Proof. intros Hne. unfold holds, removeDirectStatusCondition. cbn. by rewrite find_remove_other. Qed.

Lemma holds_reset t status generation node deployment prepared s :
  t ≠ NodeConditionDeviceStateReset →
  holds t status generation (setDirectDeviceStateResetCondition node deployment prepared s) ↔ holds t status generation s.
Proof.
  intros Hne. unfold setDirectDeviceStateResetCondition.
  destruct (empty _); [by apply holds_remove_other|]. case_bool_decide; by apply holds_set_other.
Qed.
Lemma holds_action t status generation node mode planDigest s :
  t ≠ NodeConditionLinkLifecycleAction →
  holds t status generation (setDirectLinkLifecycleActionCondition node mode planDigest s) ↔ holds t status generation s.
Proof.
  intros Hne. unfold setDirectLinkLifecycleActionCondition.
  destruct (_ && _ && _); [by apply holds_remove_other|by apply holds_set_other].
Qed.
Lemma holds_run t status generation run member primary s :
  t ≠ NodeConditionStopped → holds t status generation (applyRunState run member primary s) ↔ holds t status generation s.
Proof.
  intros Hne. unfold applyRunState, setDirectStoppedCondition.
  destruct (RS_Stopped run), (RS_WorkloadStopped run), (RS_PodRestartTokens run); cbn; by rewrite holds_set_other.
Qed.

Lemma desired_conditions g memberName member desired :
  desiredMemberStatus g memberName member = Ok desired →
  holds NodeConditionPlanApplied ConditionTrue (SN_Generation member) desired
  ∧ NS_PlanDigest desired = GO_PlanDigest g
  ∧ holds NodeConditionStopped (if RS_Stopped (GO_RunState g) && RS_WorkloadStopped (GO_RunState g) then ConditionTrue else ConditionFalse)
      (SN_Generation member) desired.
Proof.
  unfold desiredMemberStatus. destruct (plansByNodeID _ !! _) as [node|]; [|done]. case_bool_decide; [|done]. cbn [negb].
  intros H1. apply rbind_Ok_inv in H1 as ([[obs ready] msg] & _ & [= <-]). split_and!.
  - apply holds_run; [done|]. apply holds_reset; [done|]. unfold setConditionValue.
    do 4 (apply holds_set_other; [done|]). apply holds_action; [done|]. apply holds_set.
  - rewrite run_digest, reset_digest. unfold setConditionValue. cbn. by rewrite action_digest.
  - unfold applyRunState, setDirectStoppedCondition.
    destruct (RS_Stopped _), (RS_WorkloadStopped _), (RS_PodRestartTokens _); apply holds_set.
Qed.

Lemma applied_current node desired :
  holds NodeConditionPlanApplied ConditionTrue (SN_Generation node) desired →
  directStatusNeedsReconciliation (node <| SN_Status := desired |>) = false.
Proof.
  intros (found & Hf & Hs & Hg). unfold directStatusNeedsReconciliation. cbn. rewrite Hf.
  by rewrite !bool_decide_eq_true_2.
Qed.

(** ** The pass over the members *)

Lemma updateMembers_wrote g groupMembers nodesByName io io' nodes' e :
  updateMembers server recorder g groupMembers nodesByName io = (io', nodes', e) →
  wrote (λ object, ∃ memberName member member0,
           memberName ∈ groupMembers ∧ nodesByName !! memberName = Some member0 ∧ sameNode member member0
           ∧ ∃ desired, desiredMemberStatus g memberName member = Ok desired ∧ carries member desired object) io io'.
Proof.
  revert nodesByName io. induction groupMembers as [|name groupMembers IH]; intros nodesByName io; cbn.
  { intros [= <- <- <-]. by apply wrote_none. }
  assert (∀ nodes1 io1, (∀ n m, nodes1 !! n = Some m → ∃ m0, nodesByName !! n = Some m0 ∧ sameNode m m0) →
    updateMembers server recorder g groupMembers nodes1 io1 = (io', nodes', e) →
    wrote (λ object, ∃ memberName member member0,
      memberName ∈ name :: groupMembers ∧ nodesByName !! memberName = Some member0 ∧ sameNode member member0
      ∧ ∃ desired, desiredMemberStatus g memberName member = Ok desired ∧ carries member desired object) io1 io') as Hrest.
  { intros nodes1 io1 Hsame H1. apply IH in H1. eapply wrote_impl; [|exact H1].
    intros o (n & m & m0 & Hn & Hm & Hs & Hd). destruct (Hsame _ _ Hm) as (m1 & Hm1 & Hs1).
    exists n, m, m1. split_and!; [by right|done| |done]. unfold sameNode in *. intuition congruence. }
  assert (∀ n m, nodesByName !! n = Some m → ∃ m0, nodesByName !! n = Some m0 ∧ sameNode m m0) as Hrefl by (intros; by eexists).
  destruct (nodesByName !! name) as [member|] eqn:Hm; [|by apply Hrest].
  destruct (desiredMemberStatus g name member) as [desired|err] eqn:Hd; [|intros [= <- <- <-]; by apply wrote_none].
  destruct (publishStatus _ _ _ _ _ _) as [io1 [member'|err]] eqn:Hp; apply publishStatus_spec in Hp as [Hw Hsame];
    [intros H1|intros [= <- <- <-]];
    assert (wrote (λ object, ∃ memberName member member0,
      memberName ∈ name :: groupMembers ∧ nodesByName !! memberName = Some member0 ∧ sameNode member member0
      ∧ ∃ desired, desiredMemberStatus g memberName member = Ok desired ∧ carries member desired object) io io1) as Hw1
      by (eapply wrote_impl; [|exact Hw]; intros o Ho; exists name, member, member; split_and!; [by left|done|done|by exists desired]);
    [|exact Hw1].
  eapply wrote_trans; [exact Hw1|]. eapply Hrest; [|exact H1].
  intros n m. destruct (decide (n = name)) as [->|Hne].
  - rewrite lookup_insert_eq. intros [= <-]. exists member. split; [done|]. by apply Hsame.
  - rewrite lookup_insert_ne by done. intros ?. by eexists.
Qed.

(** The device of a Node runs, in terms of what the pass is given: the workload is not stopped,
    and the current Pod is prepared and connected, with the applications of the Node ready. *)
Record deviceRuns (pods : option (list DirectPod)) (primary : StatusNode) (plan : Plan)
    (deployment : option StatusDeployment) (member : StatusNode) (pod : DirectPod) (node : NodePlan) : Prop := {
  runs_wanted : isStopped primary = false;
  runs_pod : currentDirectPod pods primary deployment = Ok (Some pod);
  runs_prepared : helperIs pod PreparationContainerName (λ status, CS_State status = StateTerminated 0);
  runs_connected : helperIs pod ConnectivityContainerName (λ status, CS_State status = StateRunning ∧ CS_Ready status = true);
  runs_node : plansByNodeID plan !! SN_UID member = Some node;
  runs_name : NodePlan_Name node = SN_Name member;
  runs_containers : ∀ id, id ∈ NodePlan_ContainerIDs node → id ∈ NodePlan_ReadinessContainerIDs node →
    containerReady node (containerPlansOf plan) (containerStatusesOf (Some pod)) (containerSpecImagesOf (Some pod)) id
}.

Lemma observeGroup_spec podLists primary plan deployment ports applied mode g :
  observeGroup podLists primary plan deployment ports applied mode = Ok g →
  observedRun g ∧ PlanDigest plan = Ok (GO_PlanDigest g)
  ∧ ∀ member pod node, deviceReady g member pod node ↔ deviceRuns podLists.1 primary plan deployment member pod node.
Proof.
  unfold observeGroup. intros H. apply rbind_Ok_inv in H as (digest & Hd & H). destruct (PlanDigest plan) eqn:Hp; [|done].
  simplify_eq. apply rbind_Ok_inv in H as (pod & Hpod & H). apply rbind_Ok_inv in H as (run & Hrun & [= <-]).
  unfold observeDirectRunState in Hrun.
  assert (RS_Stopped run = isStopped primary ∧ observedRun (MkGroupObservation primary plan digest deployment pod run ports applied mode))
    as [Hs Ho].
  { unfold observedRun. cbn. destruct (isStopped primary); [apply rbind_Ok_inv in Hrun as (? & _ & [= <-])|injection Hrun as <-]; done. }
  split_and!; [done..|]. intros member pod' node. split.
  - intros []. cbn in *. subst pod. constructor; try done. congruence.
  - intros [Hw Hcp]. rewrite Hpod in Hcp. constructor; try done; cbn; congruence.
Qed.

Lemma deviceRuns_same pods primary plan deployment a b pod node :
  sameNode a b → deviceRuns pods primary plan deployment a pod node ↔ deviceRuns pods primary plan deployment b pod node.
Proof. intros (Hn & Hu & _). split; intros []; constructor; solve [done | congruence]. Qed.

(** C5: a Node is reported ready exactly when its device runs.  Whatever the API server
    answers, each status that is written belongs to a member of the group at the generation
    that was read, is bound to the digest of the plan, and says ready if and only if the
    workload is not stopped and there is a current Pod (the newest one of the plan the
    Deployment was rendered from) whose preparation has exited with 0, whose connectivity
    helper runs and is ready, and in which every application that stands for the Node runs,
    is ready and has an acceptable image: the Pod asks for it by the planned digest, or the
    planned and the observed digest are equal or not both known ([imageAccepted]). *)
Theorem ready_means_running podLists primary plan deployment groupMembers nodesByName ports applied mode io io' nodes' e :
  updateDirectStatuses server recorder podLists primary plan deployment groupMembers nodesByName ports applied mode io
  = (io', nodes', e) →
  wrote (λ object,
    ∃ memberName member, memberName ∈ groupMembers ∧ nodesByName !! memberName = Some member
    ∧ SN_UID object = SN_UID member ∧ SN_Generation object = SN_Generation member
    ∧ PlanDigest plan = Ok (NS_PlanDigest (SN_Status object))
    ∧ directStatusNeedsReconciliation object = false
    ∧ (NS_Readiness (SN_Status object) = NodeReady
       ↔ ∃ pod node, deviceRuns podLists.1 primary plan deployment member pod node)) io io'
  ∧ ∀ pod, currentDirectPod podLists.1 primary deployment = Ok (Some pod) →
      ∃ deployment' pods, deployment = Some deployment' ∧ podLists.1 = Some pods ∧ currentPod pods primary deployment' pod.
Proof.
  intros H. split; [|intros pod; apply currentDirectPod_Some].
  unfold updateDirectStatuses in H. destruct (observeGroup _ _ _ _ _ _ _) as [g|err] eqn:Hg; [|injection H as <- <- <-; by apply wrote_none].
  apply observeGroup_spec in Hg as (Hrun & Hd & Hready). apply updateMembers_wrote in H. eapply wrote_impl; [|exact H].
  intros object (name & member & member0 & Hin & Hl & Hsame & desired & Hdes & Hu & Hgen & Hst).
  pose proof Hsame as (Hsn & Hsu & Hsg). pose proof (desired_conditions _ _ _ _ Hdes) as (Happ & Hdig & _).
  exists name, member0. rewrite Hst. split_and!; [done|done|congruence|congruence|by rewrite Hdig| |].
  - replace object with (object <| SN_Status := desired |>) by (destruct object; cbn in *; by subst).
    apply applied_current. by rewrite Hgen.
  - rewrite (desired_ready g name member desired Hrun Hdes). setoid_rewrite Hready.
    by setoid_rewrite (deviceRuns_same _ _ _ _ member member0 _ _ Hsame).
Qed.

(** ** Withdrawing a stale status *)

(** The API server stores the readiness it is sent. *)
Definition storesReadiness : Prop :=
  ∀ k current stored, server k = Read current (Updated stored) →
    ∀ s, NS_Readiness (SN_Status (stored s)) = NS_Readiness s.

(** The status is that of an object the API server returned in place of the Node: one of
    another UID or generation. *)
Definition superseded (node : StatusNode) (status : NodeStatus) : Prop :=
  ∃ k current answer, server k = Read current answer
    ∧ (SN_UID current ≠ SN_UID node ∨ SN_Generation current ≠ SN_Generation node) ∧ status = SN_Status current.

Lemma retryUpdate_result steps node desired io io' updated :
  storesReadiness → retryUpdate server steps node desired io = (io', Ok updated) →
  NS_Readiness (SN_Status updated) = NS_Readiness desired ∨ superseded node (SN_Status updated).
Proof.
  intros Hstores. revert io. induction steps as [|steps IH]; intros io; cbn; [done|].
  destruct (server (IO_Attempts io)) as [[]|current answer] eqn:Hk; [by apply IH|done|].
  destruct (bool_decide_reflect (SN_UID current = SN_UID node)); destruct (bool_decide_reflect (SN_Generation current = SN_Generation node));
    cbn; try (intros [= _ <-]; right; exists (IO_Attempts io), current, answer; split_and!; [done| |done]; solve [by left | by right]).
  case_bool_decide as Hd; [intros [= _ <-]; left; by rewrite Hd|].
  destruct answer as [stored| |]; [|by apply IH|done]. intros [= _ <-]. left. by eapply Hstores.
Qed.

Lemma pending_readiness node reason message s :
  NS_Readiness (setDirectStatusPending node reason message s) = NodeNotReady.
Proof. reflexivity. Qed.

(** What withdrawing the status of a member leaves of it. *)
Definition withdrawn (before after : StatusNode) : Prop :=
  sameNode after before ∧ (isReady after = false ∨ superseded before (SN_Status after)).

Lemma markDirectStatusPending_spec node io io' node' :
  storesReadiness → markDirectStatusPending server recorder node io = (io', Ok node') → isReady node = true → withdrawn node node'.
Proof.
  intros Hstores H Hready. unfold markDirectStatusPending in H. pose proof (publishStatus_spec _ _ _ _ _ _ H) as [_ Hsame].
  split; [by apply Hsame|]. unfold publishStatus, updateNodeStatus in H.
  rewrite bool_decide_eq_false_2 in H.
  2:{ intros Heq. unfold isReady in Hready. apply bool_decide_eq_true in Hready. rewrite Heq, pending_readiness in Hready. done. }
  destruct (retryUpdate _ _ _ _ _) as [io1 [updated|]] eqn:Hr; cbn in H; [|done]. injection H as _ <-.
  apply retryUpdate_result in Hr as [Hr|Hr]; [|by right|done]. left. unfold isReady. cbn. by rewrite Hr.
Qed.

Lemma sameNode_trans a b c : sameNode a b → sameNode b c → sameNode a c.
Proof. unfold sameNode. intuition congruence. Qed.

(** Every name is mapped to what is left of the Node it was mapped to. *)
Lemma markGroup_spec groupMembers nodes io io' nodes' :
  storesReadiness → markDirectGroupStatusesPending server recorder groupMembers nodes io = (io', nodes', None) →
  ∀ name node', nodes' !! name = Some node' →
    ∃ node, nodes !! name = Some node ∧ (node' = node ∧ (name ∈ groupMembers → isReady node = false) ∨ withdrawn node node').
Proof.
  intros Hstores. revert nodes io. induction groupMembers as [|m groupMembers IH]; intros nodes io; cbn [markDirectGroupStatusesPending].
  { intros [= _ <-] name node' H. exists node'. split; [done|]. left. set_solver. }
  assert (∀ io, markDirectGroupStatusesPending server recorder groupMembers nodes io = (io', nodes', None) →
    (∀ member, nodes !! m = Some member → isReady member = false) →
    ∀ name node', nodes' !! name = Some node' → ∃ node, nodes !! name = Some node
      ∧ (node' = node ∧ (name ∈ m :: groupMembers → isReady node = false) ∨ withdrawn node node')) as Hskip.
  { intros io0 H Hm name node' Hn. destruct (IH _ _ H _ _ Hn) as (node & Hl & [[-> Hr]|Hw]); exists node; (split; [done|]); [|by right].
    left. split; [done|]. intros [->|Hin]%elem_of_cons; auto. }
  destruct (nodes !! m) as [member|] eqn:Hm; [|intros H; by apply (Hskip _ H)].
  destruct (isReady member) eqn:Hready; cbn [negb]; [|intros H; apply (Hskip _ H); by intros ? [= <-]].
  destruct (markDirectStatusPending _ _ _ _) as [io1 [member'|]] eqn:Hp; [|done].
  pose proof (markDirectStatusPending_spec _ _ _ _ Hstores Hp Hready) as Hw.
  intros H name node' Hn. destruct (IH _ _ H _ _ Hn) as (node & Hl & Hc).
  destruct (decide (name = m)) as [->|Hne].
  - rewrite lookup_insert_eq in Hl. injection Hl as <-. exists member. split; [done|]. right.
    destruct Hc as [[-> _]|[Hs Hr]]; [done|]. destruct Hw as [Hs1 _]. split; [by eapply sameNode_trans|].
    destruct Hr as [Hr|(k & current & answer & Hk & Hd & Hst)]; [by left|]. right. exists k, current, answer.
    destruct Hs1 as (_ & Hu & Hg). by rewrite <- Hu, <- Hg.
  - rewrite lookup_insert_ne in Hl by done. exists node. split; [done|]. destruct Hc as [[-> Hr]|Hc]; [|by right].
    left. split; [done|]. intros [?|Hin]%elem_of_cons; [done|auto].
Qed.

(** a group whose status is stale is not left ready.  When one member's status is not of
    its current generation's plan, then after the pass, if it returns no error, no member is
    ready, except one whose object the API server already holds in another generation or
    under another UID, which that generation's own pass judges.  When no member is stale,
    nothing is read or written. *)
Theorem stale_group_withdrawn groupMembers nodesByName io io' nodes' :
  storesReadiness →
  invalidateStaleDirectStatuses server recorder groupMembers nodesByName io = (io', nodes', None) →
  ((∃ name member, name ∈ groupMembers ∧ nodesByName !! name = Some member ∧ directStatusNeedsReconciliation member = true) →
   ∀ name node', name ∈ groupMembers → nodes' !! name = Some node' →
     isReady node' = false ∨ ∃ node, nodesByName !! name = Some node ∧ superseded node (SN_Status node'))
  ∧ ((∀ name member, name ∈ groupMembers → nodesByName !! name = Some member → directStatusNeedsReconciliation member = false) →
     io' = io ∧ nodes' = nodesByName).
Proof.
  intros Hstores. unfold invalidateStaleDirectStatuses. destruct (existsb _ groupMembers) eqn:Hstale; cbn [negb]; intros H; split.
  - intros _ name node' Hin Hn. destruct (markGroup_spec _ _ _ _ _ Hstores H _ _ Hn) as (node & Hl & [[-> Hr]|[_ [Hr|Hs]]]); eauto.
  - intros Hnone. exfalso. apply existsb_exists in Hstale as (name & Hin & Hs). destruct (nodesByName !! name) as [member|] eqn:Hm; [|done].
    rewrite (Hnone name member) in Hs; [done| |done]. by apply list_elem_of_In.
  - intros (name & member & Hin & Hm & Hs). exfalso. assert (existsb (λ n, match nodesByName !! n with None => false
      | Some member => directStatusNeedsReconciliation member end) groupMembers = true) as Ht; [|congruence].
    apply existsb_exists. exists name. rewrite Hm. split; [by apply list_elem_of_In|done].
  - intros _. by injection H as <- <-.
Qed.
End theorems.

(** ** The status of a Node: a concrete group

    The theorems above for the Pod of [ConnectivityTheorems], once booted. *)

#[local] Existing Instance example_sha.
#[local] Existing Instance insertion_sort.
#[local] Existing Instance planNames.
#[local] Existing Instance podQuote.

(** *** Conditions *)

Definition ofType (t : string) (c : Condition) : bool := bool_decide (ConditionType c = t).
#[local] Instance firstOfType : ConditionSetter := λ cs c, c :: filter (λ x, ConditionType x ≠ ConditionType c) cs.
#[local] Instance listConditions : StatusConditions := {|
  FindStatusCondition cs t := List.find (ofType t) cs;
  RemoveStatusCondition cs t := filter (λ x, ConditionType x ≠ t) cs
|}.

Lemma find_filter_other cs t t' : t' ≠ t → List.find (ofType t') (filter (λ x, ConditionType x ≠ t) cs) = List.find (ofType t') cs.
Proof.
  intros Hne. unfold ofType. induction cs as [|c cs IH]; [done|]. destruct (decide (ConditionType c ≠ t)) as [H|H].
  - rewrite filter_cons_True by done. cbn. by rewrite IH.
  - rewrite filter_cons_False by done. cbn. apply dec_stable in H. rewrite IH, H. by rewrite bool_decide_eq_false_2.
Qed.
Lemma find_filter_same cs t : List.find (ofType t) (filter (λ x, ConditionType x ≠ t) cs) = None.
Proof.
  unfold ofType. induction cs as [|c cs IH]; [done|]. destruct (decide (ConditionType c ≠ t)) as [H|H].
  - rewrite filter_cons_True by done. cbn. by rewrite bool_decide_eq_false_2.
  - by rewrite filter_cons_False.
Qed.

Lemma listConditions_lawful : LawfulConditions.
Proof.
  constructor; cbn; unfold SetStatusCondition, firstOfType.
  - intros cs c. cbn. unfold ofType at 1. rewrite bool_decide_eq_true_2 by done. by exists c.
  - intros cs c t Ht. cbn. unfold ofType at 1. rewrite bool_decide_eq_false_2 by done. by apply find_filter_other.
  - apply find_filter_same.
  - intros cs t t'. apply find_filter_other.
Qed.

(** *** A booted Pod *)

#[local] Instance noTokens : TokensJSON := λ _, None.
#[local] Instance nameOrder : RangeOrder string := canonical_range.

Definition fresh : NodeStatus := MkNodeStatus "" None [] None "" None None "".
Definition bootingNode : StatusNode := MkStatusNode "leaf" "lab" "uid-1" 3 "17" "" "" fresh.
Definition workload : StatusDeployment :=
  MkStatusDeployment {[ "app" := "leaf" ]} {[ templatePlanDigestAnnotation := "sha256:cold" ]} (Some 1).
Definition bootedPod (created : Z) : DirectPod :=
  MkDirectPod "lab" {[ "app" := "leaf" ]} {[ templatePlanDigestAnnotation := "sha256:cold"; NodeUIDAnnotation := "uid-1" ]} false created
    [MkContainerStatus PreparationContainerName (StateTerminated 0) false 0 "";
     MkContainerStatus ConnectivityContainerName StateRunning true 0 ""]
    [MkContainerStatus (ApplicationContainerName "c1") StateRunning true 0 "docker.io/linux:1"] [].
Definition bootedPods : list DirectPod := [bootedPod 5; bootedPod 9].

(** The server answers the first attempt with a conflict. *)
Definition contended (k : nat) : attempt :=
  match k with
  | O => Read bootingNode UpdateConflicted
  | S _ => Read bootingNode (Updated (λ s, bootingNode <| SN_Status := s |>))
  end.

Definition noIO : statusIO := MkStatusIO 0 [] [].
Definition statusRun : statusIO * gmap string StatusNode * option statusError :=
  updateDirectStatuses contended true (Some bootedPods, Some []) bootingNode runningPlan (Some workload) ["leaf"]
    {[ "leaf" := bootingNode ]} ∅ None "" noIO.

Lemma ready_means_running_witness :
  IO_Attempts statusRun.1.1 = 2%nat ∧ (λ o, NS_Readiness (SN_Status o)) <$> IO_Writes statusRun.1.1 = [NodeReady]
  ∧ ∃ pod node, deviceRuns (Some bootedPods) bootingNode runningPlan (Some workload) bootingNode pod node.
Proof.
  split; [vm_compute; reflexivity|].
  assert ((λ o, NS_Readiness (SN_Status o)) <$> IO_Writes statusRun.1.1 = [NodeReady]) as Hr by (vm_compute; reflexivity).
  split; [exact Hr|].
  destruct (ready_means_running contended true (lawful := listConditions_lawful) (Some bootedPods, Some []) bootingNode runningPlan (Some workload) ["leaf"]
    {[ "leaf" := bootingNode ]} ∅ None "" noIO statusRun.1.1 statusRun.1.2 statusRun.2) as [Hw _].
  { unfold statusRun. rewrite <- !surjective_pairing. exact eq_refl. }
  destruct (wrote_one _ _ _ _ _ Hw eq_refl Hr) as (o & (name & member & Hin & Hl & _ & _ & _ & _ & Hiff) & Ho).
  apply list_elem_of_singleton in Hin. subst name. rewrite lookup_singleton_eq in Hl.
  destruct (proj1 Hiff Ho) as (pod & node & Hruns). exists pod, node.
  destruct (Some_inj _ _ Hl). exact Hruns.
Defined.

(** *** A new generation *)

(** The status still describes the generation before. *)
Definition staleStatus : NodeStatus :=
  fresh <| NS_Readiness := NodeReady |>
        <| NS_Conditions := [MkCondition NodeConditionPlanApplied ConditionTrue 2 0 "PlanApplied" ""] |>.
Definition staleNode : StatusNode := bootingNode <| SN_Status := staleStatus |>.
Definition storing (k : nat) : attempt := Read staleNode (Updated (λ s, staleNode <| SN_Status := s |>)).
Definition staleRun : statusIO * gmap string StatusNode * option statusError :=
  invalidateStaleDirectStatuses storing true ["leaf"] {[ "leaf" := staleNode ]} noIO.

Lemma stale_group_withdrawn_witness :
  isReady staleNode = true ∧ staleRun.2 = None ∧ (∀ node, staleRun.1.2 !! "leaf" = Some node → isReady node = false).
Proof.
  assert (staleRun.2 = None) as Hnone by (vm_compute; reflexivity).
  split; [vm_compute; reflexivity|]. split; [exact Hnone|]. intros node Hl.
  destruct (stale_group_withdrawn storing true (lawful := listConditions_lawful) ["leaf"] {[ "leaf" := staleNode ]} noIO
    staleRun.1.1 staleRun.1.2) as [Hstale _].
  - intros k current stored [= <- <-] s. reflexivity.
  - rewrite <- Hnone. unfold staleRun. by rewrite <- !surjective_pairing.
  - destruct (Hstale) with (name := "leaf") (node' := node) as [H|(n & Hn & k & current & answer & Hk & Hd & _)].
    + exists "leaf", staleNode. split_and!; [by left|by rewrite lookup_singleton_eq|vm_compute; reflexivity].
    + by left.
    + exact Hl.
    + exact H.
    + rewrite lookup_singleton_eq in Hn. injection Hn as <-. injection Hk as <- <-. by destruct Hd as [Hd|Hd].
Defined.
