(* ===== verification/NodeProfiles.v ===== *)
(** * Realization policy of a Node

    Models [controllers/node/profile.go] and the choice of a group's profile in
    [controllers/node/reconcile.go]: Config values form the base, and one NodeProfile, named by
    the primary Node, overrides them.

    Resource requirements, tolerations and affinities are handed on unread and are the JSON of
    their values; a slice that can be both empty and nil is an [option], as is a pointer. *)

From S2P Require Import Prelude Api GoStrings GoNet DevicePlanTypes Management NodeStatus.
Local Open Scope Z_scope.

Record Persistence := MkPersistence {
  Persistence_Enabled : bool;
  Persistence_ClaimSize : string;
  Persistence_StorageClassName : string;
  Persistence_Reclaim : string
}.
Definition PersistenceReclaimRetain : string := "Retain".

Record SSHProbeConfiguration := MkSSHProbeConfiguration {
  SSH_Username : string;
  SSH_Password : string;
  SSH_Port : Z
}.
Record ProbeConfiguration := MkProbeConfiguration {
  Probe_StartupSeconds : Z;
  Probe_SSH : option SSHProbeConfiguration;
  Probe_TCPPort : option Z
}.
Record StatusProbes := MkStatusProbes {
  Probes_Enabled : bool;
  Probes_ExcludedNodes : list string;
  Probes_NodeProbeConfigurations : gmap string ProbeConfiguration;
  Probes_ProbeConfiguration : ProbeConfiguration
}.
Definition noPersistence : Persistence := MkPersistence false "" "" "".
Definition noProbes : StatusProbes := MkStatusProbes false [] ∅ (MkProbeConfiguration 0 None None).

(** ** The profile object *)

Record NodeProfileExpose := MkNodeProfileExpose {
  Expose_DisableAutoExpose : option bool;
  Expose_ExposeType : string;
  Expose_UseNodeMgmtIpv4Address : option bool;
  Expose_UseNodeMgmtIpv6Address : option bool
}.
Record NodeProfileImagePull := MkNodeProfileImagePull {
  Pull_Policy : string;
  Pull_PullSecrets : option (list string)
}.
Record Scheduling := MkScheduling {
  Scheduling_NodeSelector : option (gmap string string);
  Scheduling_Tolerations : option (list string);
  Scheduling_Affinity : option string
}.
Record NodeProfileDeployment := MkNodeProfileDeployment {
  Deploy_NetworkIsolation : option bool;
  Deploy_Persistence : option Persistence
}.
Record ProfileObject := MkProfileObject {
  PO_Name : string;
  PO_UID : string;
  PO_Generation : Z;
  PO_Expose : option NodeProfileExpose;
  PO_ImagePull : option NodeProfileImagePull;
  PO_Resources : option string;
  PO_Scheduling : option Scheduling;
  PO_Deployment : option NodeProfileDeployment;
  PO_StatusProbes : option StatusProbes;
  PO_Mgmt : option ManagementPolicy
}.

Record ResolvedProfile := MkResolvedProfile {
  RP_AppliedProfile : option AppliedProfileStatus;
  RP_DisableAutoExpose : bool;
  RP_ExposeType : string;
  RP_UseNodeMgmtIpv4Address : bool;
  RP_UseNodeMgmtIpv6Address : bool;
  RP_ImagePullPolicy : string;
  RP_PullSecrets : list string;
  RP_Resources : option string;
  RP_NodeSelector : gmap string string;
  RP_Tolerations : list string;
  RP_Affinity : option string;
  RP_Persistence : Persistence;
  RP_NetworkIsolation : bool;
  RP_StatusProbes : StatusProbes;
  RP_Mgmt : option ManagementPolicy
}.
#[export] Instance ResolvedProfile_updatable : Updatable ResolvedProfile :=
  λ r, MkResolvedProfile (RP_AppliedProfile r) (RP_DisableAutoExpose r) (RP_ExposeType r) (RP_UseNodeMgmtIpv4Address r)
         (RP_UseNodeMgmtIpv6Address r) (RP_ImagePullPolicy r) (RP_PullSecrets r) (RP_Resources r) (RP_NodeSelector r)
         (RP_Tolerations r) (RP_Affinity r) (RP_Persistence r) (RP_NetworkIsolation r) (RP_StatusProbes r) (RP_Mgmt r).

(** ** Layering *)

Definition ixiaFamily (kind : string) : bool :=
  bool_decide (kind = "keysight_ixia-c") || bool_decide (kind = "keysight_ixia-c-one").

Definition applyProfileExpose (resolved : ResolvedProfile) (expose : option NodeProfileExpose) : ResolvedProfile :=
  match expose with
  | None => resolved
  | Some expose =>
      let resolved := resolved <| RP_DisableAutoExpose := default (RP_DisableAutoExpose resolved) (Expose_DisableAutoExpose expose) |> in
      let resolved := if negb (bool_decide (Expose_ExposeType expose = ""))
                      then resolved <| RP_ExposeType := Expose_ExposeType expose |> else resolved in
      let resolved := resolved <| RP_UseNodeMgmtIpv4Address :=
                        default (RP_UseNodeMgmtIpv4Address resolved) (Expose_UseNodeMgmtIpv4Address expose) |> in
      resolved <| RP_UseNodeMgmtIpv6Address := default (RP_UseNodeMgmtIpv6Address resolved) (Expose_UseNodeMgmtIpv6Address expose) |>
  end.

Definition applyProfileImagePull (resolved : ResolvedProfile) (imagePull : option NodeProfileImagePull) : ResolvedProfile :=
  match imagePull with
  | None => resolved
  | Some imagePull =>
      let resolved := if negb (bool_decide (Pull_Policy imagePull = ""))
                      then resolved <| RP_ImagePullPolicy := Pull_Policy imagePull |> else resolved in
      resolved <| RP_PullSecrets := default (RP_PullSecrets resolved) (Pull_PullSecrets imagePull) |>
  end.

Definition applyProfileDeployment (resolved : ResolvedProfile) (deployment : option NodeProfileDeployment) : ResolvedProfile :=
  match deployment with
  | None => resolved
  | Some deployment =>
      let resolved := resolved <| RP_NetworkIsolation := default (RP_NetworkIsolation resolved) (Deploy_NetworkIsolation deployment) |> in
      resolved <| RP_Persistence := default (RP_Persistence resolved) (Deploy_Persistence deployment) |>
  end.

(** A non-nil empty map or slice clears what came before. *)
Definition applyScheduling (resolved : ResolvedProfile) (scheduling : option Scheduling) : ResolvedProfile :=
  match scheduling with
  | None => resolved
  | Some scheduling =>
      let resolved := resolved <| RP_NodeSelector := default (RP_NodeSelector resolved) (Scheduling_NodeSelector scheduling) |> in
      let resolved := resolved <| RP_Tolerations := default (RP_Tolerations resolved) (Scheduling_Tolerations scheduling) |> in
      match Scheduling_Affinity scheduling with None => resolved | Some a => resolved <| RP_Affinity := Some a |> end
  end.

Definition applyProfile (resolved : ResolvedProfile) (profile : ProfileObject) : ResolvedProfile :=
  let resolved := applyProfileExpose resolved (PO_Expose profile) in
  let resolved := applyProfileImagePull resolved (PO_ImagePull profile) in
  let resolved := applyProfileDeployment resolved (PO_Deployment profile) in
  let resolved := match PO_Resources profile with None => resolved | Some r => resolved <| RP_Resources := Some r |> end in
  let resolved := applyScheduling resolved (PO_Scheduling profile) in
  let resolved := match PO_StatusProbes profile with None => resolved | Some p => resolved <| RP_StatusProbes := p |> end in
  match PO_Mgmt profile with None => resolved | Some m => resolved <| RP_Mgmt := Some m |> end.

(** What the Config says of images. *)
Record ConfigDefaults := MkConfigDefaults {
  Config_ImagePullPolicy : string;
  Config_ImagePullSecrets : list string
}.

(** [kind]: the kind of the Node, when there is one. *)
Definition ResolveProfile (kind : option string) (profile : option ProfileObject) (config : ConfigDefaults) : ResolvedProfile :=
  let resolved := MkResolvedProfile None false "LoadBalancer" false false (Config_ImagePullPolicy config)
                    (Config_ImagePullSecrets config) None ∅ [] None noPersistence
                    (match kind with None => false | Some kind => ixiaFamily kind end) noProbes None in
  match profile with
  | None => resolved
  | Some profile =>
      applyProfile resolved profile
        <| RP_AppliedProfile := Some (MkAppliedProfileStatus (PO_Name profile) (PO_UID profile) (PO_Generation profile)) |>
  end.

(** ** The profile of a group *)

Inductive profileError :=
| primaryMissing (name : string)
| emptyPrimaryReference (name : string)
| emptyReference (name : string)
| otherProfile (member profile primary primaryProfile : string).

(** [references]: the name of the profile each Node refers to, if it does. *)
Definition memberReference (primaryNodeName profileName : string) (references : gmap string (option string)) (_ : unit)
    (memberName : string) : result profileError unit :=
  if bool_decide (memberName = primaryNodeName) then Ok ()
  else
    match references !! memberName with
    | None | Some None => Ok ()
    | Some (Some memberProfileName) =>
        if bool_decide (memberProfileName = "") then Err (emptyReference memberName)
        else if bool_decide (profileName = "") || negb (bool_decide (memberProfileName = profileName))
        then Err (otherProfile memberName memberProfileName primaryNodeName profileName)
        else Ok ()
    end.

Definition resolveGroupProfileReference (primaryNodeName : string) (groupMembers : list string)
    (references : gmap string (option string)) : result profileError string :=
  match references !! primaryNodeName with
  | None => Err (primaryMissing primaryNodeName)
  | Some reference =>
      if bool_decide (reference = Some "") then Err (emptyPrimaryReference primaryNodeName)
      else
        let profileName := default "" reference in
        let? _ := rfold (memberReference primaryNodeName profileName references) () groupMembers in
        Ok profileName
  end.

(** A group has a profile exactly when its primary names it, and every other member that names
    one names the same. *)
Lemma group_profile_spec primary members references name :
  resolveGroupProfileReference primary members references = Ok name ↔
  ∃ reference, references !! primary = Some reference ∧ reference ≠ Some "" ∧ name = default "" reference
  ∧ ∀ member other, member ∈ members → member ≠ primary → references !! member = Some (Some other) →
      other = name ∧ name ≠ "".
Proof.
  unfold resolveGroupProfileReference. destruct (references !! primary) as [reference|] eqn:Hp;
    [|split; [done|]; by intros (? & ? & _)].
  case_bool_decide as He; [split; [done|]; by intros (? & [= <-] & ? & _)|].
  set (profileName := default "" reference).
  assert (rfold (memberReference primary profileName references) () members = Ok () ↔
    ∀ member other, member ∈ members → member ≠ primary → references !! member = Some (Some other) →
      other = profileName ∧ profileName ≠ "") as Hall.
  { induction members as [|m members IH]; cbn [rfold]; [split; [set_solver|done]|].
    unfold memberReference at 1. case_bool_decide as Hm; cbn [rbind].
    { subst m. rewrite IH. set_solver. }
    destruct (references !! m) as [[other|]|] eqn:Hr; cbn [rbind]; [|rewrite IH; set_solver..].
    case_bool_decide as Ho; cbn [rbind].
    { split; [done|]. intros H. destruct (H m other); [by left|done..|]. congruence. }
    case_bool_decide as Hn; cbn [rbind orb].
    { split; [done|]. intros H. by destruct (H m other); [left|..]. }
    case_bool_decide as Hs; cbn [rbind negb].
    - rewrite IH. split; [|set_solver]. intros H member o [->|Hin]%elem_of_cons Hne Hl; [|by eapply H].
      rewrite Hr in Hl. by injection Hl as <-.
    - split; [done|]. intros H. destruct (H m other); [by left|done..]. }
  destruct (rfold _ _ _) as [[]|e]; cbn [rbind]; split.
  - intros [= <-]. exists reference. split_and!; [done..|]. by apply Hall.
  - intros (? & [= <-] & _ & -> & _). done.
  - done.
  - intros (? & [= <-] & _ & -> & H). by pose proof (proj2 Hall H).
Qed.
