(* ===== verification/NodeExposure.v ===== *)
(** * Ports a group of Nodes exposes

    Models [controllers/node/expose.go] and [compileDirectExposedPorts] of
    [controllers/node/direct.go]: the Nodes of a group share one Pod, so each of its ports
    belongs to one of them. *)

From S2P Require Import Prelude Api GoStrings GoNet GoSort CompilerDiagnostics CompilerDefinition CompilerPorts.
From S2P Require Import DevicePlanTypes Management PlanValidation PlanInput NodeStatus NodeProfiles.
Local Open Scope Z_scope.

Definition exposeTypeNone : string := "None".

(** The fields of a Node exposure looks at. *)
Record ExposeNode := MkExposeNode {
  EN_UID : string;
  EN_Ports : list string;
  EN_AppProtocols : list AppProtocol
}.

(** ** Default ports *)

Record managementPortDefinition := MkManagementPortDefinition {
  Definition_DestinationPort : Z;
  Definition_Protocol : string;
  Definition_AppProtocol : string
}.

Definition gnmiAppProtocol : string := "c9s.run/gnmi".
Definition defaultManagementPorts : list managementPortDefinition :=
  [MkManagementPortDefinition 21 tcpProtocol "ftp";
   MkManagementPortDefinition 22 tcpProtocol "ssh";
   MkManagementPortDefinition 23 tcpProtocol "telnet";
   MkManagementPortDefinition 80 tcpProtocol "http";
   MkManagementPortDefinition 443 tcpProtocol "https";
   MkManagementPortDefinition 830 tcpProtocol "netconf-ssh";
   MkManagementPortDefinition 5000 tcpProtocol "telnet";
   MkManagementPortDefinition 5900 tcpProtocol "rfb";
   MkManagementPortDefinition 6030 tcpProtocol gnmiAppProtocol;
   MkManagementPortDefinition 9339 tcpProtocol gnmiAppProtocol;
   MkManagementPortDefinition 9340 tcpProtocol "c9s.run/gribi";
   MkManagementPortDefinition 9559 tcpProtocol "c9s.run/p4runtime";
   MkManagementPortDefinition 57400 tcpProtocol gnmiAppProtocol;
   MkManagementPortDefinition 161 udpProtocol "snmp"].

Definition defaultExposePorts : list NodeExposedPort :=
  (λ d, MkNodeExposedPort 0 (Definition_DestinationPort d) (Definition_Protocol d)) <$> defaultManagementPorts.

(** [strings.EqualFold] on ASCII. *)
Definition EqualFold (a b : string) : bool := bool_decide (ToLower a = ToLower b).

Fixpoint appProtocolOf (definitions : list managementPortDefinition) (destinationPort : Z) (protocol : string) : string :=
  match definitions with
  | [] => ""
  | d :: definitions =>
      if Z.eqb (Definition_DestinationPort d) destinationPort && EqualFold (Definition_Protocol d) protocol
      then Definition_AppProtocol d
      else appProtocolOf definitions destinationPort protocol
  end.
Definition defaultAppProtocol (destinationPort : Z) (protocol : string) : string :=
  appProtocolOf defaultManagementPorts destinationPort protocol.

(** The first override of the port replaces the default; an empty one suppresses it. *)
Definition resolvedAppProtocol (node : ExposeNode) (port : NodeExposedPort) : option string :=
  let portKey := Itoa (DestinationPort port) +:+ "/" +:+ ToLower (ExposedProtocol port) in
  let appProtocol :=
    match List.find (λ override, bool_decide (AppPort override = portKey)) (EN_AppProtocols node) with
    | Some override => AppProtocolName override
    | None => defaultAppProtocol (DestinationPort port) (ExposedProtocol port)
    end in
  if empty appProtocol then None else Some appProtocol.

(** ** The ports of every member *)

(** [util/containerlab]'s parser is the compiler's. *)
Definition ProcessPortDefinition : string → result portError typedPort := processPortDefinition.

(** A port of the Pod: [fmt.Sprintf("%d/%s", ...)]. *)
Definition podPortKey (number : Z) (protocol : string) : string := Itoa number +:+ "/" +:+ protocol.

Notation portTable := (gmap string (gmap string NodeExposedPort)).
Definition portsOf (table : portTable) (nodeID : string) : gmap string NodeExposedPort := default ∅ (table !! nodeID).

Definition explicitOf (explicit : gmap string (gset string)) (nodeID key : string) : bool :=
  match explicit !! nodeID with None => false | Some keys => bool_decide (key ∈ keys) end.

(** The ports the Nodes declare, by UID. *)
Definition declaredStep (name : string) (keys : gset string) (raw : string) : result PlanError (gset string) :=
  match ProcessPortDefinition raw with
  | Err _ => Err (planInputError ErrorInvalidInput ("nodes." +:+ name +:+ ".ports") "destination port is invalid")
  | Ok port => Ok ({[podPortKey (CompilerPorts.DestinationPort port) (ToUpper (Protocol port))]} ∪ keys)
  end.
Definition explicitStep (nodesByName : gmap string ExposeNode) (explicit : gmap string (gset string)) (name : string) :
    result PlanError (gmap string (gset string)) :=
  match nodesByName !! name with
  | None => Ok explicit
  | Some node =>
      let? keys := rfold (declaredStep name) ∅ (EN_Ports node) in
      Ok (<[EN_UID node := keys]> explicit)
  end.

(** Who holds each port, and the ports of each Node. *)
Record portState := MkPortState {
  PS_Owners : gmap string string;
  PS_Ports : portTable
}.

Definition sharedPortError : PlanError :=
  planInputError ErrorUnsupported "services.ports" "grouped direct Nodes expose the same Pod destination port".

Definition claimPort (state : portState) (nodeID key : string) (port : NodeExposedPort) : portState :=
  MkPortState (<[key := nodeID]> (PS_Owners state)) (<[nodeID := <[key := port]> (portsOf (PS_Ports state) nodeID)]> (PS_Ports state)).

Definition plannedPortStep (disableAutoExpose : bool) (explicit : gmap string (gset string)) (nodeID : string)
    (state : portState) (planned : Port) : result PlanError portState :=
  let protocol := ToUpper (Port_Protocol planned) in
  let key := podPortKey (Port_Number planned) protocol in
  let port := MkNodeExposedPort (Port_Number planned) (Port_Number planned) protocol in
  if disableAutoExpose && negb (explicitOf explicit nodeID key) then Ok state
  else
    match PS_Owners state !! key with
    | Some owner =>
        if bool_decide (owner = nodeID) then Ok (claimPort state nodeID key port)
        else if explicitOf explicit nodeID key && explicitOf explicit owner key then Err sharedPortError
        else if negb (explicitOf explicit nodeID key) then Ok state
        else
          let state := MkPortState (PS_Owners state)
                         (<[owner := delete key (portsOf (PS_Ports state) owner)]> (PS_Ports state)) in
          Ok (claimPort state nodeID key port)
    | None => Ok (claimPort state nodeID key port)
    end.

Definition containerPortsStep (disableAutoExpose : bool) (explicit : gmap string (gset string)) (state : portState)
    (container : ContainerPlan) : result PlanError portState :=
  match explicit !! ContainerPlan_NodeID container with
  | None => Err (planInputError ErrorInvariant "nodePlan.containers" "planned container belongs to an unknown workload Node")
  | Some _ => rfold (plannedPortStep disableAutoExpose explicit (ContainerPlan_NodeID container)) state (ContainerPlan_Ports container)
  end.

(** A default port goes to the first member when nobody has it. *)
Definition defaultPortStep (nodeID : string) (acc : gset string * portTable) (port : NodeExposedPort) : gset string * portTable :=
  let '(claimed, table) := acc in
  let protocol := ToUpper (ExposedProtocol port) in
  let key := podPortKey (DestinationPort port) protocol in
  if bool_decide (key ∈ claimed) then (claimed, table)
  else ({[key]} ∪ claimed,
        <[nodeID := <[key := MkNodeExposedPort (DestinationPort port) (DestinationPort port) protocol]> (portsOf table nodeID)]> table).
Definition defaultMemberStep (nodesByName : gmap string ExposeNode) (acc : gset string * portTable) (name : string) :
    gset string * portTable :=
  match nodesByName !! name with
  | None => acc
  | Some node => foldl (defaultPortStep (EN_UID node)) acc defaultExposePorts
  end.
Definition claimedPorts (table : portTable) : gset string := map_fold (λ _ ports claimed, dom ports ∪ claimed) ∅ table.
Definition addDefaultPorts (groupMembers : list string) (nodesByName : gmap string ExposeNode) (table : portTable) : portTable :=
  (foldl (defaultMemberStep nodesByName) (claimedPorts table, table) (sort_strings groupMembers)).2.

Definition byProtocolAndPort : NodeExposedPort → NodeExposedPort → Z :=
  thenBy (onKey ExposedProtocol Compare) (λ left right, DestinationPort left - DestinationPort right).

Section exposure.
Context {order : RangeOrder string} {sort : GoSort}.

Definition foreignPort (owners : gmap string string) (name key : string) : bool :=
  match owners !! key with None => false | Some owner => negb (empty owner) && negb (bool_decide (owner = name)) end.

(** The keys are visited in the order of a map; the answer does not depend on it. *)
Definition resultStep (nodesByName : gmap string ExposeNode) (table : portTable)
    (acc : gmap string string * gmap string NodeExposedPorts) (name : string) :
    result PlanError (gmap string string * gmap string NodeExposedPorts) :=
  let '(owners, result) := acc in
  match nodesByName !! name with
  | None => Ok acc
  | Some node =>
      let entries := range_list (portsOf table (EN_UID node)) in
      if existsb (foreignPort owners name) entries.*1 then Err sharedPortError
      else
        let ports := SortFunc byProtocolAndPort entries.*2 in
        Ok (foldl (λ owners key, <[key := name]> owners) owners entries.*1,
            if bool_decide (ports = []) then result else <[name := MkNodeExposedPorts "" (Some ports)]> result)
  end.

Definition compileDirectExposedPorts (plan : Plan) (profile : option ResolvedProfile) (groupMembers : list string)
    (nodesByName : gmap string ExposeNode) : result PlanError (gmap string NodeExposedPorts) :=
  match profile with
  | None => Err (planInputError ErrorInvalidInput "nodeProfile" "resolved profile is nil")
  | Some profile =>
      if bool_decide (RP_ExposeType profile = exposeTypeNone) then Ok ∅
      else
        let? explicit := rfold (explicitStep nodesByName) ∅ groupMembers in
        let? state := rfold (containerPortsStep (RP_DisableAutoExpose profile) explicit) (MkPortState ∅ ∅) (Plan_Containers plan) in
        let table := if RP_DisableAutoExpose profile then PS_Ports state
                     else addDefaultPorts groupMembers nodesByName (PS_Ports state) in
        let? final := rfold (resultStep nodesByName table) (∅, ∅) groupMembers in
        Ok final.2
  end.
End exposure.
