(* ===== verification/NodeExposureTheorems.v ===== *)
(** * Ports a group of Nodes exposes: one owner for every port

    The ports of a Pod are divided among the Nodes that share it: declared ports go to the
    Node that declares them, the others to the first that has them. *)

From S2P Require Import Prelude Api GoStrings CompilerDiagnostics CompilerDefinition CompilerPorts GoNet.
From S2P Require Import DevicePlanTypes Management ManagementTheorems GoSort PlanValidation PlanCodec.
From S2P Require Import PlanCanonical PlanExamples PlanInput NodeStatus NodeProfiles NodeExposure.
Local Open Scope Z_scope.

(** The key of a planned port. *)
Definition plannedKey (planned : Port) : string := podPortKey (Port_Number planned) (ToUpper (Port_Protocol planned)).
Definition exposedKey (port : NodeExposedPort) : string := podPortKey (DestinationPort port) (ExposedProtocol port).

(** A port is reached under its own number, and its protocol is in upper case. *)
Definition properPort (port : NodeExposedPort) : Prop :=
  ExposePort port = DestinationPort port ∧ ToUpper (ExposedProtocol port) = ExposedProtocol port.

Lemma ToUpper_idem s : ToUpper (ToUpper s) = ToUpper s.
Proof.
  unfold ToUpper. induction s as [|a s IH]; [done|]. cbn. rewrite IH. f_equal.
  by destruct a as [[] [] [] [] [] [] [] []].
Qed.
Lemma proper_upper number protocol : properPort (MkNodeExposedPort number number (ToUpper protocol)).
Proof. split; [done|]. apply ToUpper_idem. Qed.
#[local] Hint Resolve proper_upper : core.

Lemma portsOf_insert_eq table n ports : portsOf (<[n := ports]> table) n = ports.
Proof. unfold portsOf. by rewrite lookup_insert_eq. Qed.
Lemma portsOf_insert_ne table n n' ports : n ≠ n' → portsOf (<[n := ports]> table) n' = portsOf table n'.
Proof. intros H. unfold portsOf. by rewrite lookup_insert_ne. Qed.

(** ** Planned ports *)

(** The ports of the containers, with their Nodes, in order. *)
Definition plannedPorts (containers : list ContainerPlan) : list (string * Port) :=
  containers ≫= λ c, pair (ContainerPlan_NodeID c) <$> ContainerPlan_Ports c.

Section planned.
Context (disableAutoExpose : bool) (explicit : gmap string (gset string)).

(** A port of the plan that two Nodes declare. *)
Definition contestedKey (done : list (string * Port)) : Prop :=
  ∃ n n' q q', (n, q) ∈ done ∧ (n', q') ∈ done ∧ n ≠ n' ∧ plannedKey q = plannedKey q'
    ∧ explicitOf explicit n (plannedKey q) = true ∧ explicitOf explicit n' (plannedKey q') = true.

(** Who owns a port has it, and every port is a planned one. *)
Record tidy (done : list (string * Port)) (state : portState) : Prop := {
  tidy_owner : ∀ key n, PS_Owners state !! key = Some n ↔ is_Some (portsOf (PS_Ports state) n !! key);
  tidy_keyed : ∀ n key p, portsOf (PS_Ports state) n !! key = Some p →
    key = exposedKey p ∧ properPort p ∧ ∃ q, (n, q) ∈ done ∧ plannedKey q = key
}.

(** Declared ports are owned by who declares them, others by somebody. *)
Record covered (done : list (string * Port)) (owners : gmap string string) : Prop := {
  cov_explicit : ∀ n q, (n, q) ∈ done → explicitOf explicit n (plannedKey q) = true → owners !! plannedKey q = Some n;
  cov_auto : disableAutoExpose = false → ∀ n q, (n, q) ∈ done → is_Some (owners !! plannedKey q);
  cov_off : disableAutoExpose = true → ∀ key n, owners !! key = Some n → explicitOf explicit n key = true
}.

Lemma tidy_nil : tidy [] (MkPortState ∅ ∅).
Proof.
  constructor; cbn; [|set_solver]. intros key n. unfold portsOf. rewrite !lookup_empty. cbn. by rewrite lookup_empty, is_Some_alt.
Qed.
Lemma covered_nil : covered [] ∅.
Proof. constructor; set_solver. Qed.

Lemma tidy_more done state x : tidy done state → tidy (done ++ [x]) state.
Proof.
  intros [Ho Hk]. constructor; [done|]. intros n key p H. apply Hk in H as (? & ? & q & ? & ?).
  split_and!; [done..|]. exists q. set_solver.
Qed.

(** A Node takes a port that is free, or its own. *)
Lemma tidy_claim done state n q :
  tidy done state → (∀ n', PS_Owners state !! plannedKey q = Some n' → n' = n) →
  tidy (done ++ [(n, q)]) (claimPort state n (plannedKey q)
    (MkNodeExposedPort (Port_Number q) (Port_Number q) (ToUpper (Port_Protocol q)))).
Proof.
  intros [Ho Hk] Hfree.
  assert (∀ n', is_Some (portsOf (PS_Ports state) n' !! plannedKey q) → n' = n) as Hsole.
  { intros n' H. apply Ho in H. auto. }
  constructor; cbn.
  - intros key n'. destruct (decide (n' = n)) as [->|Hn]; [rewrite portsOf_insert_eq|rewrite portsOf_insert_ne by done];
      (destruct (decide (key = plannedKey q)) as [->|Hkey]; [rewrite lookup_insert_eq|rewrite lookup_insert_ne by done]).
    + rewrite lookup_insert_eq. by split; eauto.
    + rewrite lookup_insert_ne by done. apply Ho.
    + split; [congruence|]. intros H. by apply Hsole in H.
    + apply Ho.
  - intros n' key p H.
    assert ((n' = n ∧ key = plannedKey q ∧ p = MkNodeExposedPort (Port_Number q) (Port_Number q) (ToUpper (Port_Protocol q)))
      ∨ portsOf (PS_Ports state) n' !! key = Some p) as [(-> & -> & ->)|Hold].
    { destruct (decide (n' = n)) as [->|Hn]; [rewrite portsOf_insert_eq in H|rewrite portsOf_insert_ne in H by done; by right].
      apply lookup_insert_Some in H as [[-> <-]|[_ H]]; auto. }
    + split_and!; [done..|]. exists q. set_solver.
    + apply Hk in Hold as (? & ? & q' & ? & ?). split_and!; [done..|]. exists q'. set_solver.
Qed.

(** A Node gives a port up. *)
Lemma tidy_release done state key owner :
  tidy done state → PS_Owners state !! key = Some owner →
  tidy done (MkPortState (delete key (PS_Owners state))
               (<[owner := delete key (portsOf (PS_Ports state) owner)]> (PS_Ports state))).
Proof.
  intros [Ho Hk] Howner.
  assert (∀ n', is_Some (portsOf (PS_Ports state) n' !! key) → n' = owner) as Hsole by (intros n' H; apply Ho in H; congruence).
  constructor; cbn.
  - intros key' n. destruct (decide (n = owner)) as [->|Hn]; [rewrite portsOf_insert_eq|rewrite portsOf_insert_ne by done];
      (destruct (decide (key' = key)) as [->|Hkey]; [rewrite lookup_delete_eq|rewrite lookup_delete_ne by done]).
    + rewrite lookup_delete_eq. by split; [|intros []].
    + rewrite lookup_delete_ne by done. apply Ho.
    + split; [done|]. intros H. by apply Hsole in H.
    + apply Ho.
  - intros n key' p. destruct (decide (n = owner)) as [->|Hn]; [rewrite portsOf_insert_eq|rewrite portsOf_insert_ne by done].
    + intros [? H]%lookup_delete_Some. by apply Hk.
    + apply Hk.
Qed.

Lemma covered_claim done owners n q :
  covered done owners →
  (∀ n' q', (n', q') ∈ done → plannedKey q' = plannedKey q → explicitOf explicit n' (plannedKey q') = true → n' = n) →
  (disableAutoExpose = true → explicitOf explicit n (plannedKey q) = true) →
  covered (done ++ [(n, q)]) (<[plannedKey q := n]> owners).
Proof.
  intros [He Ha Hoff] Hsole Hallowed. constructor.
  - intros n' q' Hin Hex. destruct (decide (plannedKey q' = plannedKey q)) as [Hkey|Hkey].
    + rewrite Hkey, lookup_insert_eq. f_equal.
      apply elem_of_app in Hin as [Hin|Heq%list_elem_of_singleton]; [symmetry; by eapply Hsole|]. by simplify_eq.
    + rewrite lookup_insert_ne by done. apply elem_of_app in Hin as [Hin|Heq%list_elem_of_singleton]; [auto|]. by simplify_eq.
  - intros H n' q' Hin. destruct (decide (plannedKey q' = plannedKey q)) as [Hkey|Hkey].
    + rewrite Hkey, lookup_insert_eq. eauto.
    + rewrite lookup_insert_ne by done. apply elem_of_app in Hin as [Hin|Heq%list_elem_of_singleton]; [by eapply Ha|]. by simplify_eq.
  - intros H key n'. rewrite lookup_insert_Some. intros [[<- <-]|[_ Hl]]; auto.
Qed.

Lemma covered_skip done owners n q :
  covered done owners → explicitOf explicit n (plannedKey q) = false →
  (disableAutoExpose = false → is_Some (owners !! plannedKey q)) → covered (done ++ [(n, q)]) owners.
Proof.
  intros [He Ha Hoff] Hex Hsome. constructor; [| |done].
  - intros n' q' [Hin|Heq%list_elem_of_singleton]%elem_of_app H; [auto|]. simplify_eq. congruence.
  - intros H n' q' [Hin|Heq%list_elem_of_singleton]%elem_of_app; [by eapply Ha|]. simplify_eq. auto.
Qed.

Definition divided (done : list (string * Port)) (state : portState) : Prop := tidy done state ∧ covered done (PS_Owners state).

(** One planned port: the division goes on, or two Nodes declare the port. *)
Lemma plannedPortStep_spec done state n q :
  divided done state →
  match plannedPortStep disableAutoExpose explicit n state q with
  | Ok state' => divided (done ++ [(n, q)]) state'
  | Err e => e = sharedPortError ∧ contestedKey (done ++ [(n, q)])
  end.
Proof.
  intros [Ht Hc]. unfold plannedPortStep. fold (plannedKey q).
  destruct (disableAutoExpose && negb _) eqn:Hoff.
  { apply andb_true_iff in Hoff as [Hoff Hex%negb_true_iff]. split; [by apply tidy_more|].
    apply covered_skip; [done..|]. congruence. }
  assert (disableAutoExpose = true → explicitOf explicit n (plannedKey q) = true) as Hallowed.
  { intros H. rewrite H in Hoff. cbn in Hoff. by apply negb_false_iff. }
  destruct (PS_Owners state !! plannedKey q) as [owner|] eqn:Howner.
  - case_bool_decide as Hown.
    { subst owner. split; [apply tidy_claim; [done|]; congruence|]. apply covered_claim; [done| |done].
      intros n' q' Hin Hkey Hex. pose proof (cov_explicit _ _ Hc _ _ Hin Hex) as H. rewrite Hkey, Howner in H. congruence. }
    destruct (explicitOf explicit n (plannedKey q)) eqn:Hex; cbn.
    + destruct (explicitOf explicit owner (plannedKey q)) eqn:Hexo.
      * split; [done|]. destruct (proj1 (tidy_owner _ _ Ht _ _) Howner) as [p Hp].
        apply (tidy_keyed _ _ Ht) in Hp as (_ & _ & q' & Hin & Hkey).
        exists owner, n, q', q. rewrite Hkey. split_and!; [set_solver|set_solver|done..].
      * split.
        -- pose proof (tidy_claim done _ n q (tidy_release _ _ _ _ Ht Howner)) as H. cbn in H.
           unfold claimPort in H |- *. cbn in H |- *. rewrite insert_delete_eq in H. apply H.
           intros n'. by rewrite lookup_delete_eq.
        -- apply covered_claim; [done| |done]. intros n' q' Hin Hkey Hex'.
           pose proof (cov_explicit _ _ Hc _ _ Hin Hex') as H. rewrite Hkey, Howner in H. injection H as <-. congruence.
    + split; [by apply tidy_more|]. apply covered_skip; [done..|]. intros _. rewrite Howner. eauto.
  - split; [apply tidy_claim; [done|]; congruence|]. apply covered_claim; [done| |done].
    intros n' q' Hin Hkey Hex. pose proof (cov_explicit _ _ Hc _ _ Hin Hex) as H. rewrite Hkey in H. congruence.
Qed.

Lemma contested_more done more : contestedKey done → contestedKey (done ++ more).
Proof. intros (n & n' & q & q' & H1 & H2 & H). exists n, n', q, q'. split_and!; [set_solver|set_solver|apply H..]. Qed.

Lemma divided_sound done state : divided done state → ¬ contestedKey done.
Proof.
  intros [_ Hc] (n & n' & q & q' & H1 & H2 & Hne & Hkey & He & He'). apply Hne.
  pose proof (cov_explicit _ _ Hc _ _ H1 He) as Ho. pose proof (cov_explicit _ _ Hc _ _ H2 He') as Ho'.
  rewrite Hkey in Ho. congruence.
Qed.

Lemma ports_fold n qs : ∀ done state, divided done state →
  match rfold (plannedPortStep disableAutoExpose explicit n) state qs with
  | Ok state' => divided (done ++ (pair n <$> qs)) state'
  | Err e => contestedKey (done ++ (pair n <$> qs))
  end.
Proof.
  induction qs as [|q qs IH]; intros done state Hd; cbn [rfold fmap list_fmap]; [by rewrite app_nil_r|].
  pose proof (plannedPortStep_spec done state n q Hd) as Hs. rewrite cons_middle, app_assoc.
  destruct (plannedPortStep _ _ _ _ _) as [state'|e]; cbn [rbind]; [by apply IH|]. apply contested_more, Hs.
Qed.

Definition knownContainers (containers : list ContainerPlan) : Prop :=
  ∀ c, c ∈ containers → is_Some (explicit !! ContainerPlan_NodeID c).

Lemma containers_fold containers : ∀ done state, divided done state →
  match rfold (containerPortsStep disableAutoExpose explicit) state containers with
  | Ok state' => divided (done ++ plannedPorts containers) state' ∧ knownContainers containers
  | Err e => contestedKey (done ++ plannedPorts containers) ∨ ¬ knownContainers containers
  end.
Proof.
  induction containers as [|c containers IH]; intros done state Hd; cbn [rfold].
  { cbn. rewrite app_nil_r. split; [done|]. intros c Hin. by apply elem_of_nil in Hin. }
  unfold containerPortsStep at 1. cbn [plannedPorts mbind list_bind]. fold (plannedPorts containers).
  destruct (explicit !! ContainerPlan_NodeID c) as [keys|] eqn:Hk; cbn [rbind].
  2:{ right. intros H. destruct (H c) as [? ?]; [by left|congruence]. }
  pose proof (ports_fold (ContainerPlan_NodeID c) (ContainerPlan_Ports c) done state Hd) as Hp. rewrite app_assoc.
  destruct (rfold _ state _) as [state'|e]; cbn [rbind]; [|left; by apply contested_more].
  specialize (IH _ _ Hp). destruct (rfold _ state' containers) as [state''|e].
  - destruct IH as [IH Hknown]. split; [done|]. intros c' [->|Hin]%elem_of_cons; [by eexists|auto].
  - destruct IH as [IH|IH]; [by left|]. right. intros H. apply IH. intros c' Hin. apply H. by right.
Qed.
End planned.

(** ** Declared ports *)

(** The Node declares the port. *)
Definition declares (node : ExposeNode) (key : string) : Prop :=
  ∃ raw port, raw ∈ EN_Ports node ∧ ProcessPortDefinition raw = Ok port
    ∧ key = podPortKey (CompilerPorts.DestinationPort port) (ToUpper (Protocol port)).
Definition wellDeclared (node : ExposeNode) : Prop := ∀ raw, raw ∈ EN_Ports node → is_ok (ProcessPortDefinition raw) = true.

Lemma declared_fold name raws : ∀ keys,
  match rfold (declaredStep name) keys raws with
  | Ok keys' => (∀ raw, raw ∈ raws → is_ok (ProcessPortDefinition raw) = true)
      ∧ ∀ key, key ∈ keys' ↔ key ∈ keys ∨ ∃ raw port, raw ∈ raws ∧ ProcessPortDefinition raw = Ok port
                 ∧ key = podPortKey (CompilerPorts.DestinationPort port) (ToUpper (Protocol port))
  | Err _ => ∃ raw, raw ∈ raws ∧ is_ok (ProcessPortDefinition raw) = false
  end.
Proof.
  induction raws as [|raw raws IH]; intros keys; cbn [rfold]; [set_solver|].
  unfold declaredStep at 1. destruct (ProcessPortDefinition raw) as [port|e] eqn:Hp; cbn [rbind].
  - specialize (IH ({[podPortKey (CompilerPorts.DestinationPort port) (ToUpper (Protocol port))]} ∪ keys)).
    destruct (rfold _ _ _) as [keys'|e].
    + destruct IH as [Hok IH]. split; [intros raw' [->|?]%elem_of_cons; [by rewrite Hp|auto]|].
      intros key. rewrite IH. split.
      * intros [[->%elem_of_singleton|?]%elem_of_union|(raw' & port' & ? & ? & ?)]; [right; exists raw, port; set_solver|by left|].
        right. exists raw', port'. set_solver.
      * intros [?|(raw' & port' & [->|?]%elem_of_cons & Hp' & ->)]; [set_solver| |right; by exists raw', port'].
        rewrite Hp in Hp'. simplify_eq. left. set_solver.
    + destruct IH as (raw' & ? & ?). exists raw'. set_solver.
  - exists raw. rewrite Hp. set_solver.
Qed.

(** Members of a group have UIDs of their own. *)
Definition identified (groupMembers : list string) (nodesByName : gmap string ExposeNode) : Prop :=
  ∀ n n' node node', n ∈ groupMembers → n' ∈ groupMembers → nodesByName !! n = Some node → nodesByName !! n' = Some node' →
    EN_UID node = EN_UID node' → n = n'.

(** The member a UID belongs to. *)
Definition memberOf (groupMembers : list string) (nodesByName : gmap string ExposeNode) (uid : string) (node : ExposeNode) : Prop :=
  ∃ name, name ∈ groupMembers ∧ nodesByName !! name = Some node ∧ EN_UID node = uid.

Lemma explicit_fold nodes : ∀ members,
  identified members nodes →
  match rfold (explicitStep nodes) ∅ members with
  | Ok explicit => (∀ uid node, memberOf members nodes uid node → wellDeclared node)
      ∧ (∀ uid, is_Some (explicit !! uid) ↔ ∃ node, memberOf members nodes uid node)
      ∧ ∀ uid key, explicitOf explicit uid key = true ↔ ∃ node, memberOf members nodes uid node ∧ declares node key
  | Err _ => ∃ uid node, memberOf members nodes uid node ∧ ¬ wellDeclared node
  end.
Proof.
  intros members. induction members as [|name members IH] using rev_ind; intros Hid.
  { cbn. split_and!.
    - intros uid node (name & ? & _). by apply elem_of_nil in H.
    - intros uid. rewrite lookup_empty. split; [by intros []|]. intros (node & name & H & _). by apply elem_of_nil in H.
    - intros uid key. unfold explicitOf. rewrite lookup_empty. split; [done|]. intros (node & (name & H & _) & _). by apply elem_of_nil in H. }
  assert (identified members nodes) as Hid' by (intros n n' node node' H1 H2; apply Hid; set_solver).
  specialize (IH Hid'). rewrite rfold_app. destruct (rfold _ ∅ members) as [explicit|e]; cbn [rbind].
  2:{ destruct IH as (uid & node & (n & ? & ? & ?) & ?). exists uid, node. split; [exists n; set_solver|done]. }
  destruct IH as (Hwell & Hdom & Hexp). cbn [rfold]. unfold explicitStep at 1.
  destruct (nodes !! name) as [node|] eqn:Hn; cbn [rbind].
  2:{ assert (∀ uid n, memberOf (members ++ [name]) nodes uid n ↔ memberOf members nodes uid n) as Hm.
      { intros uid n. split; intros (m & Hin & Hl & Hu); exists m; split_and!; try done; [|set_solver].
        apply elem_of_app in Hin as [? | ->%list_elem_of_singleton]; congruence. }
      split_and!; [intros uid n H; eapply Hwell; by apply Hm| |].
      - intros uid. rewrite Hdom. by setoid_rewrite Hm.
      - intros uid key. rewrite Hexp. by setoid_rewrite Hm. }
  pose proof (declared_fold name (EN_Ports node) ∅) as Hf. destruct (rfold (declaredStep name) ∅ _) as [keys|e]; cbn [rbind].
  2:{ destruct Hf as (raw & Hraw & Hbad). exists (EN_UID node), node. split; [exists name; set_solver|].
      intros H. by rewrite (H _ Hraw) in Hbad. }
  destruct Hf as [Hok Hkeys].
  assert (∀ uid n, memberOf (members ++ [name]) nodes uid n ↔ (uid = EN_UID node ∧ n = node) ∨ (uid ≠ EN_UID node ∧ memberOf members nodes uid n)) as Hm.
  { intros uid n. split.
    - intros (m & Hin & Hl & Hu). destruct (decide (uid = EN_UID node)) as [Heq|Hne].
      + left. split; [done|]. assert (m = name) as ->; [|congruence]. eapply (Hid m name n node); [done|set_solver|done|done|congruence].
      + right. split; [done|]. exists m. split_and!; [|done..]. apply elem_of_app in Hin as [? | ->%list_elem_of_singleton]; [done|congruence].
    - intros [[-> ->]|[_ (m & ? & ? & ?)]]; [exists name; set_solver|exists m; set_solver]. }
  split_and!.
  - intros uid n [[-> ->]|[_ H]]%Hm; [done|by eapply Hwell].
  - intros uid. destruct (decide (uid = EN_UID node)) as [->|Hne].
    + rewrite lookup_insert_eq. split; [|by eauto]. intros _. exists node. apply Hm. by left.
    + rewrite lookup_insert_ne by done. rewrite Hdom. split; intros (n & H); exists n; apply Hm in H || apply Hm; [by right|].
      destruct H as [[? ?]|[_ H]]; done.
  - intros uid key. unfold explicitOf. destruct (decide (uid = EN_UID node)) as [->|Hne].
    + rewrite lookup_insert_eq, bool_decide_eq_true, Hkeys. split.
      * intros [?%elem_of_empty|H]; [done|]. exists node. split; [apply Hm; by left|done].
      * intros (n & [[_ ->]|[Hx _]]%Hm & Hd); [by right|done].
    + rewrite lookup_insert_ne by done. fold (explicitOf explicit uid key). rewrite Hexp.
      split; intros (n & H & Hd); exists n; (split; [|done]); apply Hm in H || apply Hm; [by right|].
      destruct H as [[? ?]|[_ H]]; done.
Qed.

(** ** Tables of ports *)

Definition has (table : portTable) (n key : string) : Prop := is_Some (portsOf table n !! key).

(** No port is in two places, and every entry is under its own key. *)
Record sound (table : portTable) : Prop := {
  sound_sole : ∀ n n' key, has table n key → has table n' key → n = n';
  sound_keyed : ∀ n key p, portsOf table n !! key = Some p → key = exposedKey p ∧ properPort p
}.

Lemma divided_table off explicit done state : divided off explicit done state → sound (PS_Ports state).
Proof.
  intros [[Ho Hk] _]. constructor.
  - intros n n' key H H'. apply Ho in H, H'. congruence.
  - intros n key p H. by destruct (Hk _ _ _ H) as (? & ? & _).
Qed.

Lemma claimedPorts_spec table key : key ∈ claimedPorts table ↔ ∃ n, has table n key.
Proof.
  unfold claimedPorts, has, portsOf. revert table.
  apply (map_fold_weak_ind (λ claimed table, key ∈ claimed ↔ ∃ n, is_Some (default ∅ (table !! n) !! key))).
  - rewrite elem_of_empty. split; [done|]. intros (n & H). rewrite lookup_empty in H. cbn in H. by rewrite lookup_empty in H; destruct H.
  - intros n ports m claimed Hm IH. rewrite elem_of_union, IH, elem_of_dom. split.
    + intros [H|(n' & H)]; [exists n; by rewrite lookup_insert_eq|]. exists n'. rewrite lookup_insert_ne; [done|].
      intros ->. rewrite Hm in H. cbn in H. by rewrite lookup_empty in H; destruct H.
    + intros (n' & H). destruct (decide (n' = n)) as [->|Hne]; [rewrite lookup_insert_eq in H; by left|].
      rewrite lookup_insert_ne in H by done. right. by exists n'.
Qed.

(** ** Default ports *)

(** A default port, as it is exposed. *)
Definition defaultPort (port : NodeExposedPort) : NodeExposedPort :=
  MkNodeExposedPort (DestinationPort port) (DestinationPort port) (ToUpper (ExposedProtocol port)).

(** Some members were given some default ports: nothing else changed, and nothing twice. *)
Record extended (uids : gset string) (table : portTable) (acc : gset string * portTable) : Prop := {
  ext_sound : sound acc.2;
  ext_claimed : ∀ key, key ∈ acc.1 ↔ ∃ n, has acc.2 n key;
  ext_keeps : ∀ n key p, portsOf table n !! key = Some p → portsOf acc.2 n !! key = Some p;
  ext_adds : ∀ n key p, portsOf acc.2 n !! key = Some p →
    portsOf table n !! key = Some p ∨ (n ∈ uids ∧ ∃ port, port ∈ defaultExposePorts ∧ p = defaultPort port)
}.

Lemma defaultPortStep_spec uids table acc n port :
  extended uids table acc → n ∈ uids → port ∈ defaultExposePorts →
  extended uids table (defaultPortStep n acc port) ∧ exposedKey (defaultPort port) ∈ (defaultPortStep n acc port).1
  ∧ acc.1 ⊆ (defaultPortStep n acc port).1.
Proof.
  intros [[Hsole Hkeyed] Hcl Hkeep Hadd] Hn Hport. destruct acc as [claimed t]. unfold defaultPortStep. cbn in *.
  fold (defaultPort port). change (podPortKey (DestinationPort port) (ToUpper (ExposedProtocol port))) with (exposedKey (defaultPort port)).
  set (p0 := defaultPort port). case_bool_decide as Hin; [by split; [constructor|]|].
  assert (∀ n', portsOf t n' !! exposedKey p0 = None) as Hfree.
  { intros n'. apply eq_None_not_Some. intros H. apply Hin, Hcl. by exists n'. }
  assert (∀ n' key p, portsOf (<[n := <[exposedKey p0 := p0]> (portsOf t n)]> t) n' !! key = Some p ↔
    (n' = n ∧ key = exposedKey p0 ∧ p = p0) ∨ portsOf t n' !! key = Some p) as Hl.
  { intros n' key p. destruct (decide (n' = n)) as [->|Hne]; [rewrite portsOf_insert_eq|rewrite portsOf_insert_ne by done; naive_solver].
    rewrite lookup_insert_Some. split; [naive_solver|]. intros [(_ & -> & ->)|H]; [by left|].
    right. split; [|done]. intros <-. by rewrite Hfree in H. }
  split_and!; [|set_solver..]. constructor; cbn.
  - constructor.
    + intros n1 n2 key [p1 H1] [p2 H2]. apply Hl in H1 as [(-> & -> & ->)|H1], H2 as [(-> & Hk & ->)|H2]; [done| | |].
      * by rewrite Hfree in H2.
      * subst key. by rewrite Hfree in H1.
      * apply (Hsole n1 n2 key); by eexists.
    + intros n' key p [(-> & -> & ->)|H]%Hl; [split; [done|apply proper_upper]|by eapply Hkeyed].
  - intros key. rewrite elem_of_union, elem_of_singleton, Hcl. unfold has. split.
    + intros [->|(n' & p & H)]; [exists n, p0; apply Hl; by left|]. exists n', p. apply Hl. by right.
    + intros (n' & p & [(-> & -> & ->)|H]%Hl); [by left|]. right. exists n'. by eexists.
  - intros n' key p H. apply Hl. right. by apply Hkeep.
  - intros n' key p [(-> & -> & ->)|H]%Hl; [|by apply Hadd]. right. split; [done|]. by exists port.
Qed.

Lemma defaultPorts_fold uids table n ports : ∀ acc,
  extended uids table acc → n ∈ uids → (∀ port, port ∈ ports → port ∈ defaultExposePorts) →
  extended uids table (foldl (defaultPortStep n) acc ports)
  ∧ (∀ port, port ∈ ports → exposedKey (defaultPort port) ∈ (foldl (defaultPortStep n) acc ports).1)
  ∧ acc.1 ⊆ (foldl (defaultPortStep n) acc ports).1.
Proof.
  induction ports as [|port ports IH]; intros acc Hacc Hn Hall; cbn [foldl].
  { split_and!; [done| |done]. intros port H. by apply elem_of_nil in H. }
  destruct (defaultPortStep_spec uids table acc n port Hacc Hn) as (H1 & H2 & H3); [apply Hall; by left|].
  destruct (IH _ H1 Hn) as (H4 & H5 & H6); [intros; apply Hall; by right|].
  split_and!; [done| |by etrans]. intros port' [->|Hin]%elem_of_cons; [by apply H6|auto].
Qed.

Lemma defaultMembers_fold uids table nodes members : ∀ acc,
  extended uids table acc → (∀ uid node, memberOf members nodes uid node → uid ∈ uids) →
  extended uids table (foldl (defaultMemberStep nodes) acc members)
  ∧ ((∃ uid node, memberOf members nodes uid node) →
     ∀ port, port ∈ defaultExposePorts → exposedKey (defaultPort port) ∈ (foldl (defaultMemberStep nodes) acc members).1)
  ∧ acc.1 ⊆ (foldl (defaultMemberStep nodes) acc members).1.
Proof.
  induction members as [|name members IH]; intros acc Hacc Hu; cbn [foldl].
  { split_and!; [done| |done]. intros (uid & node & n & H & _). by apply elem_of_nil in H. }
  assert (∀ uid node, memberOf members nodes uid node → uid ∈ uids) as Hu'.
  { intros uid node (n & ? & ? & ?). apply (Hu uid node). exists n. set_solver. }
  unfold defaultMemberStep at 2 4 6. destruct (nodes !! name) as [node|] eqn:Hn.
  - destruct (defaultPorts_fold uids table (EN_UID node) defaultExposePorts acc Hacc) as (H1 & H2 & H3);
      [apply (Hu _ node); exists name; set_solver|done|].
    destruct (IH _ H1 Hu') as (H4 & _ & H6). split_and!; [done| |by etrans]. intros _ port Hp. by apply H6, H2.
  - destruct (IH _ Hacc Hu') as (H4 & H5 & H6). split_and!; [done| |done]. intros (uid & n & m & [->|Hin]%elem_of_cons & Hl & Hm); [congruence|].
    apply H5. exists uid, n, m. done.
Qed.

(** ** What is published *)

Section exposure.
Context {order : RangeOrder string} {sort : GoSort}.

(** The ports of a Node, as they are published. *)
Definition published (table : portTable) (node : ExposeNode) : list NodeExposedPort :=
  SortFunc byProtocolAndPort (range_list (portsOf table (EN_UID node))).*2.

Lemma elem_of_published table node p : p ∈ published table node ↔ ∃ key, portsOf table (EN_UID node) !! key = Some p.
Proof.
  unfold published. rewrite SortFunc_perm, list_elem_of_fmap. split.
  - intros ([key p'] & -> & H). apply elem_of_range_list in H. by exists key.
  - intros (key & H). exists (key, p). by rewrite elem_of_range_list.
Qed.

(** The ports of a Node are proper, and different. *)
Lemma published_proper table node :
  sound table → NoDup (exposedKey <$> published table node) ∧ Forall properPort (published table node).
Proof.
  intros Hs. split.
  - unfold published. rewrite SortFunc_perm.
    assert (exposedKey <$> (range_list (portsOf table (EN_UID node))).*2 = (range_list (portsOf table (EN_UID node))).*1) as ->.
    { rewrite <- list_fmap_compose. apply list_fmap_ext. intros i [key p] H%list_elem_of_lookup_2. cbn.
      apply elem_of_range_list in H. symmetry. by apply (sound_keyed _ Hs _ _ _ H). }
    apply NoDup_range_keys.
  - apply list.Forall_forall. intros p (key & H)%elem_of_published. by apply (sound_keyed _ Hs _ _ _ H).
Qed.

(** The result so far, and who was found to own what. *)
Record publishedUpTo (nodes : gmap string ExposeNode) (table : portTable) (done : list string)
    (acc : gmap string string * gmap string NodeExposedPorts) : Prop := {
  pub_owner : ∀ key name, acc.1 !! key = Some name → ∃ node, name ∈ done ∧ nodes !! name = Some node ∧ has table (EN_UID node) key;
  pub_result : ∀ name ports, acc.2 !! name = Some ports ↔
    ∃ node, name ∈ done ∧ nodes !! name = Some node ∧ published table node ≠ []
      ∧ ports = MkNodeExposedPorts "" (Some (published table node))
}.

Lemma owners_fold (name : string) (keys : list string) : ∀ (owners : gmap string string) key owner,
  foldl (λ owners key, <[key := name]> owners) owners keys !! key = Some owner → (owner = name ∧ key ∈ keys) ∨ owners !! key = Some owner.
Proof.
  induction keys as [|k keys IH]; intros owners key owner; cbn [foldl]; [by right|].
  intros [[-> H]|H]%IH; [left; split; [done|by right]|]. apply lookup_insert_Some in H as [[-> ->]|[_ H]]; [left; split; [done|by left]|by right].
Qed.

(** Publishing never finds a port in two places. *)
Lemma resultStep_spec nodes table members done acc name :
  sound table → identified members nodes → name ∈ members → (∀ n, n ∈ done → n ∈ members) →
  publishedUpTo nodes table done acc →
  ∃ acc', resultStep nodes table acc name = Ok acc' ∧ publishedUpTo nodes table (done ++ [name]) acc'.
Proof.
  intros Hsound Hid Hname Hdone [Ho Hr]. destruct acc as [owners result]. unfold resultStep. cbn in *.
  destruct (nodes !! name) as [node|] eqn:Hn.
  2:{ eexists; split; [done|]. constructor; cbn.
      - intros key n (node & ? & ? & ?)%Ho. exists node. set_solver.
      - intros n ports. rewrite Hr. split; intros (node & Hin & Hl & ?); exists node; (split_and!; [|done|naive_solver..]); [set_solver|].
        apply elem_of_app in Hin as [? | ->%list_elem_of_singleton]; [done|congruence]. }
  destruct (existsb _ _) eqn:Hf.
  { exfalso. apply existsb_exists in Hf as (key & Hin & Hforeign). apply list_elem_of_In in Hin.
    unfold foreignPort in Hforeign. destruct (owners !! key) as [owner|] eqn:Howner; [|done].
    apply andb_true_iff in Hforeign as [_ Hne%negb_true_iff%bool_decide_eq_false].
    apply Ho in Howner as (node' & Hin' & Hl' & Hhas). apply Hne.
    apply (Hid owner name node' node); [by apply Hdone|done|done|done|].
    apply (sound_sole _ Hsound _ _ key); [done|]. apply list_elem_of_fmap in Hin as ([k p] & -> & H).
    apply elem_of_range_list in H. by eexists. }
  eexists; split; [done|]. fold (published table node). constructor; cbn.
  - intros key n [[-> Hin]|H]%owners_fold.
    + exists node. split_and!; [set_solver|done|]. apply list_elem_of_fmap in Hin as ([k p] & -> & H).
      apply elem_of_range_list in H. by eexists.
    + apply Ho in H as (node' & ? & ? & ?). exists node'. set_solver.
  - intros n ports. case_bool_decide as Hempty.
    + rewrite Hr. split; intros (node' & Hin & Hl & Hne & ->); exists node'; (split_and!; [|done..]); [set_solver|].
      apply elem_of_app in Hin as [? | ->%list_elem_of_singleton]; [done|]. rewrite Hn in Hl. by simplify_eq.
    + rewrite lookup_insert_Some, Hr. split.
      * intros [[<- <-]|[Hne (node' & ? & ? & ? & ?)]]; [exists node; set_solver|]. exists node'. set_solver.
      * intros (node' & Hin & Hl & Hne & ->). destruct (decide (name = n)) as [<-|Hnn].
        -- left. rewrite Hn in Hl. by simplify_eq.
        -- right. split; [done|]. exists node'. split_and!; [|done..].
           apply elem_of_app in Hin as [? | ->%list_elem_of_singleton]; done.
Qed.

Lemma result_fold nodes table members :
  sound table → identified members nodes →
  ∃ acc, rfold (resultStep nodes table) (∅, ∅) members = Ok acc ∧ publishedUpTo nodes table members acc.
Proof.
  intros Hsound Hid.
  assert (∀ done rest acc, members = done ++ rest → publishedUpTo nodes table done acc →
    ∃ acc', rfold (resultStep nodes table) acc rest = Ok acc' ∧ publishedUpTo nodes table members acc') as Hgo.
  { intros done rest. revert done. induction rest as [|name rest IH]; intros done acc Hm Hacc; cbn [rfold].
    - exists acc. by rewrite Hm, app_nil_r.
    - destruct (resultStep_spec nodes table members done acc name) as (acc' & -> & Hacc'); [done|done|subst; set_solver|subst; set_solver|done|].
      cbn [rbind]. apply (IH (done ++ [name])); [by rewrite <- app_assoc|done]. }
  apply (Hgo []); [done|]. constructor; cbn; intros.
  - by rewrite lookup_empty in H.
  - rewrite lookup_empty. split; [done|]. intros (? & ?%elem_of_nil & _). done.
Qed.

(** ** The whole compilation *)

(** The plan gives the port to a container of the Node. *)
Definition plannedFor (plan : Plan) (uid key : string) : Prop :=
  ∃ container planned, container ∈ Plan_Containers plan ∧ ContainerPlan_NodeID container = uid
    ∧ planned ∈ ContainerPlan_Ports container ∧ plannedKey planned = key.

Lemma elem_of_plannedPorts containers n q :
  (n, q) ∈ plannedPorts containers ↔ ∃ c, c ∈ containers ∧ ContainerPlan_NodeID c = n ∧ q ∈ ContainerPlan_Ports c.
Proof.
  unfold plannedPorts. rewrite list_elem_of_bind. split.
  - intros (c & (q' & [= -> ->] & Hq)%list_elem_of_fmap & Hc). eauto.
  - intros (c & Hc & <- & Hq). exists c. split; [|done]. apply list_elem_of_fmap. eauto.
Qed.

(** Two members declare the same port of the plan. *)
Definition sharedPort (plan : Plan) (members : list string) (nodes : gmap string ExposeNode) : Prop :=
  ∃ n n' node node' key, n ∈ members ∧ n' ∈ members ∧ n ≠ n' ∧ nodes !! n = Some node ∧ nodes !! n' = Some node'
    ∧ declares node key ∧ declares node' key ∧ plannedFor plan (EN_UID node) key ∧ plannedFor plan (EN_UID node') key.

(** The plan is for this group. *)
Definition planOfGroup (plan : Plan) (members : list string) (nodes : gmap string ExposeNode) : Prop :=
  ∀ container, container ∈ Plan_Containers plan → ∃ node, memberOf members nodes (ContainerPlan_NodeID container) node.

Definition wellDeclaredGroup (members : list string) (nodes : gmap string ExposeNode) : Prop :=
  ∀ name node, name ∈ members → nodes !! name = Some node → wellDeclared node.

(** The port is published for the Node. *)
Definition exposes (result : gmap string NodeExposedPorts) (name key : string) : Prop :=
  ∃ entry ports port, result !! name = Some entry ∧ ExposedPortList entry = Some ports ∧ port ∈ ports ∧ exposedKey port = key.

Lemma exposes_iff members nodes table acc name key :
  sound table → publishedUpTo nodes table members acc →
  exposes acc.2 name key ↔ ∃ node, name ∈ members ∧ nodes !! name = Some node ∧ has table (EN_UID node) key.
Proof.
  intros Hs Hp. split.
  - intros (entry & ports & port & Hr & He & Hin & <-). apply (pub_result _ _ _ _ Hp) in Hr as (node & Hm & Hn & _ & ->).
    cbn in He. injection He as <-. apply elem_of_published in Hin as (key & Hk). exists node. split_and!; [done..|].
    pose proof (sound_keyed _ Hs _ _ _ Hk) as [<- _]. by eexists.
  - intros (node & Hm & Hn & p & Hk). exists (MkNodeExposedPorts "" (Some (published table node))), (published table node), p.
    assert (p ∈ published table node) as Hin by (apply elem_of_published; eauto).
    split_and!; [|done|done|symmetry; by apply (sound_keyed _ Hs _ _ _ Hk)].
    apply (pub_result _ _ _ _ Hp). exists node. split_and!; try done. intros H. rewrite H in Hin. by apply elem_of_nil in Hin.
Qed.

(** What is exposed, by which member. *)
Record division (plan : Plan) (off : bool) (members : list string) (nodes : gmap string ExposeNode)
    (result : gmap string NodeExposedPorts) : Prop := {
  ports_listed : ∀ name entry, result !! name = Some entry → ∃ ports,
    ExposedPortList entry = Some ports ∧ NoDup (exposedKey <$> ports) ∧ Forall properPort ports;
  one_owner : ∀ n n' key, exposes result n key → exposes result n' key → n = n';
  declared_kept : ∀ name node key, name ∈ members → nodes !! name = Some node → declares node key →
    plannedFor plan (EN_UID node) key → exposes result name key;
  only_declared : off = true → ∀ name key, exposes result name key →
    ∃ node, name ∈ members ∧ nodes !! name = Some node ∧ declares node key ∧ plannedFor plan (EN_UID node) key;
  all_planned : off = false → ∀ uid key, plannedFor plan uid key → ∃ name, exposes result name key;
  all_defaults : off = false → (∃ name node, name ∈ members ∧ nodes !! name = Some node) →
    ∀ port, port ∈ defaultExposePorts → ∃ name, exposes result name (exposedKey (defaultPort port));
  nothing_else : off = false → ∀ name key, exposes result name key →
    ∃ node, name ∈ members ∧ nodes !! name = Some node
      ∧ (plannedFor plan (EN_UID node) key ∨ ∃ port, port ∈ defaultExposePorts ∧ key = exposedKey (defaultPort port))
}.

Definition memberUIDs (members : list string) (nodes : gmap string ExposeNode) : gset string :=
  list_to_set (omap (λ name, EN_UID <$> nodes !! name) members).
Lemma elem_of_memberUIDs members nodes uid : uid ∈ memberUIDs members nodes ↔ ∃ node, memberOf members nodes uid node.
Proof.
  unfold memberUIDs, memberOf. rewrite elem_of_list_to_set, list_elem_of_omap. split.
  - intros (name & Hin & H). destruct (nodes !! name) as [node|] eqn:Hn; [|done]. injection H as <-. eauto 10.
  - intros (node & name & Hin & Hn & <-). exists name. by rewrite Hn.
Qed.
Lemma memberOf_sorted members nodes uid node : memberOf (sort_strings members) nodes uid node ↔ memberOf members nodes uid node.
Proof. unfold memberOf. by setoid_rewrite sort_strings_perm. Qed.

(** The table after the default ports were given out. *)
Lemma table_spec (off : bool) explicit done state members nodes :
  divided off explicit done state →
  let table := if off then PS_Ports state else addDefaultPorts members nodes (PS_Ports state) in
  sound table
  ∧ (∀ n key, has (PS_Ports state) n key → has table n key)
  ∧ (∀ n key, has table n key → has (PS_Ports state) n key
       ∨ off = false ∧ n ∈ memberUIDs members nodes ∧ ∃ port, port ∈ defaultExposePorts ∧ key = exposedKey (defaultPort port))
  ∧ (off = false → (∃ uid node, memberOf members nodes uid node) → ∀ port, port ∈ defaultExposePorts →
       ∃ uid, has table uid (exposedKey (defaultPort port))).
Proof.
  intros Hd. pose proof (divided_table _ _ _ _ Hd) as Hs. destruct off; cbn; [split_and!; [done|done|by left|done]|].
  destruct (defaultMembers_fold (memberUIDs members nodes) (PS_Ports state) nodes (sort_strings members)
    (claimedPorts (PS_Ports state), PS_Ports state)) as ([Hs' Hcl Hkeep Hadd] & Hall & _).
  { constructor; cbn; [done|apply claimedPorts_spec|done|by left]. }
  { intros uid node Hm. apply elem_of_memberUIDs. exists node. by apply memberOf_sorted. }
  unfold addDefaultPorts. split_and!.
  - done.
  - intros n key [p H]. apply Hkeep in H. by eexists.
  - intros n key [p H]. pose proof (sound_keyed _ Hs' _ _ _ H) as [-> _]. apply Hadd in H as [H|[Hu (port & Hp & ->)]]; [left; by eexists|].
    right. split_and!; [done..|]. by exists port.
  - intros _ (uid & node & Hm) port Hp. apply Hcl, Hall; [|done]. exists uid, node. by apply memberOf_sorted.
Qed.

(** The division that the compilation makes. *)
Lemma compiled_division plan (off : bool) members nodes explicit state acc :
  let table := if off then PS_Ports state else addDefaultPorts members nodes (PS_Ports state) in
  (∀ uid key, explicitOf explicit uid key = true ↔ ∃ node, memberOf members nodes uid node ∧ declares node key) →
  identified members nodes → planOfGroup plan members nodes →
  divided off explicit (plannedPorts (Plan_Containers plan)) state →
  publishedUpTo nodes table members acc → division plan off members nodes acc.2.
Proof.
  intros table Hexp Hid Hplan Hd Hp. destruct (table_spec off explicit _ state members nodes Hd) as (Hs & Hkeep & Hadd & Hdef).
  fold table in Hs, Hkeep, Hadd, Hdef. pose proof Hd as [Ht Hc].
  assert (∀ uid key, has (PS_Ports state) uid key → plannedFor plan uid key) as Hplanned.
  { intros uid key [p H]. apply (tidy_keyed _ _ Ht) in H as (_ & _ & q & Hin & Hk).
    apply elem_of_plannedPorts in Hin as (c & ? & ? & ?). by exists c, q. }
  assert (∀ uid key, has table uid key → ∃ name, exposes acc.2 name key) as Hpub.
  { intros uid key H. assert (∃ node, memberOf members nodes uid node) as (node & name & Hin & Hn & <-).
    { apply Hadd in H as [H|(_ & H & _)]; [|by apply elem_of_memberUIDs].
      apply Hplanned in H as (c & q & Hc' & <- & _). by apply Hplan. }
    exists name. apply (exposes_iff members nodes table); [done..|]. by exists node. }
  assert (∀ uid key, plannedFor plan uid key → ∃ q, (uid, q) ∈ plannedPorts (Plan_Containers plan) ∧ plannedKey q = key) as Hdone.
  { intros uid key (c & q & ? & ? & ? & ?). exists q. split; [|done]. apply elem_of_plannedPorts. eauto. }
  constructor.
  - intros name entry (node & _ & _ & _ & ->)%(pub_result _ _ _ _ Hp). exists (published table node).
    split; [done|]. by apply published_proper.
  - intros n n' key H H'. apply (exposes_iff members nodes table) in H as (node & Hm & Hn & H), H' as (node' & Hm' & Hn' & H'); [|done..].
    eapply Hid; [done..|]. by apply (sound_sole _ Hs _ _ key).
  - intros name node key Hm Hn Hdec (q & Hin & <-)%Hdone. apply (exposes_iff members nodes table); [done..|]. exists node.
    split_and!; [done..|]. apply Hkeep, (tidy_owner _ _ Ht), (cov_explicit _ _ _ _ Hc); [done|]. apply Hexp. exists node.
    split; [by exists name|done].
  - intros Hoff name key H. apply (exposes_iff members nodes table) in H as (node & Hm & Hn & H); [|done..].
    apply Hadd in H as [H|[? _]]; [|congruence]. exists node. split_and!; [done..| |by apply Hplanned].
    apply (tidy_owner _ _ Ht), (cov_off _ _ _ _ Hc Hoff), Hexp in H as (node' & (name' & Hm' & Hn' & Hu) & Hdec).
    assert (name' = name) as -> by (by eapply Hid). rewrite Hn in Hn'. by simplify_eq.
  - intros Hoff uid key (q & Hin & <-)%Hdone. destruct (cov_auto _ _ _ _ Hc Hoff _ _ Hin) as [n Ho].
    apply (Hpub n), Hkeep. by apply (tidy_owner _ _ Ht).
  - intros Hoff (name & node & Hm & Hn) port Hport. destruct (Hdef Hoff) with (port := port) as [uid H]; [|done|by apply (Hpub uid)].
    exists (EN_UID node), node, name. done.
  - intros Hoff name key H. apply (exposes_iff members nodes table) in H as (node & Hm & Hn & H); [|done..].
    exists node. split_and!; [done..|]. apply Hadd in H as [H|(_ & _ & H)]; [left; by apply Hplanned|by right].
Qed.

Lemma shared_contested plan members nodes explicit :
  (∀ uid key, explicitOf explicit uid key = true ↔ ∃ node, memberOf members nodes uid node ∧ declares node key) →
  identified members nodes →
  contestedKey explicit (plannedPorts (Plan_Containers plan)) ↔ sharedPort plan members nodes.
Proof.
  intros Hexp Hid. split.
  - intros (n & n' & q & q' & Hin & Hin' & Hne & Hk & He & He').
    apply Hexp in He as (node & (name & Hm & Hn & <-) & Hd), He' as (node' & (name' & Hm' & Hn' & <-) & Hd').
    apply elem_of_plannedPorts in Hin as (c & ? & ? & ?), Hin' as (c' & ? & ? & ?).
    exists name, name', node, node', (plannedKey q). split_and!; try done; [congruence|by rewrite Hk|by exists c, q|by exists c', q'].
  - intros (n & n' & node & node' & key & Hm & Hm' & Hne & Hn & Hn' & Hd & Hd' & (c & q & ? & ? & ? & Hq) & (c' & q' & ? & ? & ? & Hq')).
    exists (EN_UID node), (EN_UID node'), q, q'. rewrite Hq, Hq'. split_and!; try done.
    + apply elem_of_plannedPorts. eauto.
    + apply elem_of_plannedPorts. eauto.
    + intros Hu. apply Hne. by eapply Hid.
    + apply Hexp. exists node. split; [by exists n|done].
    + apply Hexp. exists node'. split; [by exists n'|done].
Qed.

(** Either outcome of the compilation. *)
Lemma compile_outcome plan profile members nodes :
  identified members nodes → RP_ExposeType profile ≠ exposeTypeNone →
  match compileDirectExposedPorts plan (Some profile) members nodes with
  | Ok result => wellDeclaredGroup members nodes ∧ planOfGroup plan members nodes ∧ ¬ sharedPort plan members nodes
                 ∧ division plan (RP_DisableAutoExpose profile) members nodes result
  | Err _ => ¬ wellDeclaredGroup members nodes ∨ ¬ planOfGroup plan members nodes ∨ sharedPort plan members nodes
  end.
Proof.
  intros Hid Htype. unfold compileDirectExposedPorts. rewrite bool_decide_eq_false_2 by done.
  pose proof (explicit_fold nodes members Hid) as He. destruct (rfold (explicitStep nodes) ∅ members) as [explicit|e]; cbn [rbind].
  2:{ left. destruct He as (uid & node & (name & ? & ? & ?) & Hw). intros Hgroup. by eapply Hw, Hgroup. }
  destruct He as (Hwell & Hdom & Hexp).
  pose proof (containers_fold (RP_DisableAutoExpose profile) explicit (Plan_Containers plan) [] (MkPortState ∅ ∅)) as Hc.
  rewrite app_nil_l in Hc. specialize (Hc (conj tidy_nil (covered_nil _ _))).
  assert (knownContainers explicit (Plan_Containers plan) ↔ planOfGroup plan members nodes) as Hknown.
  { unfold knownContainers, planOfGroup. by setoid_rewrite Hdom. }
  destruct (rfold (containerPortsStep _ _) _ _) as [state|e]; cbn [rbind].
  2:{ right. rewrite <- (shared_contested plan members nodes explicit), <- Hknown by done. tauto. }
  destruct Hc as [Hd Hk%Hknown].
  destruct (table_spec _ _ _ _ members nodes Hd) as (Hs & _). destruct (result_fold nodes _ members Hs Hid) as (acc & -> & Hp). cbn [rbind].
  split_and!; [|done| |].
  - intros name node Hm Hn. apply (Hwell (EN_UID node)). by exists name.
  - rewrite <- (shared_contested plan members nodes explicit) by done. by eapply divided_sound.
  - by eapply compiled_division.
Qed.

(** C32: every port of a Pod belongs to one of the Nodes that share it.  When the ports of a
    group are compiled, the ports of each member are different and reached under their own
    numbers; no port is exposed for two members; a port a member declares and the
    plan gives it is exposed for that member; with automatic exposure every planned port and
    every default port is exposed for some member, and nothing else is; without it, exactly
    the declared ports of the plan are. *)
Theorem exposed_ports_divided plan profile members nodes result :
  identified members nodes → RP_ExposeType profile ≠ exposeTypeNone →
  compileDirectExposedPorts plan (Some profile) members nodes = Ok result →
  division plan (RP_DisableAutoExpose profile) members nodes result.
Proof. intros Hid Ht H. pose proof (compile_outcome plan profile members nodes Hid Ht) as Ho. rewrite H in Ho. by apply Ho. Qed.

(** C40: exposing ports is refused exactly for the reasons the code names: a declared port that
    is no port, a container of the plan that belongs to no member, or a planned port that two
    members declare.  The second check for a shared port, over the finished table, never
    fires. *)
Theorem exposure_refused plan profile members nodes :
  identified members nodes → RP_ExposeType profile ≠ exposeTypeNone →
  is_ok (compileDirectExposedPorts plan (Some profile) members nodes) = true
  ↔ wellDeclaredGroup members nodes ∧ planOfGroup plan members nodes ∧ ¬ sharedPort plan members nodes.
Proof.
  intros Hid Ht. pose proof (compile_outcome plan profile members nodes Hid Ht) as Ho.
  destruct (compileDirectExposedPorts _ _ _ _); cbn; split; try done; tauto.
Qed.
End exposure.

(** ** Ports a group of Nodes exposes: a concrete group

    Two Nodes in one Pod: the second declares a port that the plan gives to both. *)

#[local] Existing Instance insertion_sort.
#[local] Instance portOrder : RangeOrder string := canonical_range.

Definition sharingNodes : gmap string ExposeNode :=
  {[ "r1" := MkExposeNode "uid-1" [] []; "r2" := MkExposeNode "uid-2" ["830"; "5201/udp"] [] ]}.
Definition sharingPlan : Plan :=
  examplePlan [] "" [] <| Plan_Containers := [exampleContainer []; exampleContainer [] <| ContainerPlan_NodeID := "uid-2" |>] |>.
Definition sharingProfile : ResolvedProfile := ResolveProfile None None (MkConfigDefaults "" []).
Definition sharingResult : gmap string NodeExposedPorts :=
  match compileDirectExposedPorts sharingPlan (Some sharingProfile) ["r1"; "r2"] sharingNodes with Ok r => r | Err _ => ∅ end.

Lemma sharing_identified : identified ["r1"; "r2"] sharingNodes.
Proof.
  assert (∀ n node, sharingNodes !! n = Some node → n = "r1" ∧ EN_UID node = "uid-1" ∨ n = "r2" ∧ EN_UID node = "uid-2") as Hn.
  { intros n node. unfold sharingNodes. intros [[<- <-]|[_ [<- <-]%lookup_singleton_Some]]%lookup_insert_Some; [by left|by right]. }
  intros n n' node node' _ _ [[-> ->]|[-> ->]]%Hn [[-> ->]|[-> ->]]%Hn; done.
Qed.

Lemma exposed_ports_divided_witness :
  exposes sharingResult "r2" "830/TCP" ∧ ¬ exposes sharingResult "r1" "830/TCP" ∧ ∃ name, exposes sharingResult name "22/TCP".
Proof.
  destruct (exposed_ports_divided sharingPlan sharingProfile ["r1"; "r2"] sharingNodes sharingResult sharing_identified)
    as [_ Hone Hkept _ Hall _ _]; [vm_compute; done|vm_compute; reflexivity|].
  assert (exposes sharingResult "r2" "830/TCP") as H2.
  { apply (Hkept "r2" (MkExposeNode "uid-2" ["830"; "5201/udp"] [])); [by right; left|vm_compute; reflexivity| |].
    - exists "830", (TypedPort tcpProtocol 0 830). split_and!; [by left|vm_compute; reflexivity..].
    - exists (exampleContainer [] <| ContainerPlan_NodeID := "uid-2" |>), (MkPort 830 "TCP").
      split_and!; [by right; left|vm_compute; reflexivity|by left|vm_compute; reflexivity]. }
  split_and!; [exact H2|intros H1; by pose proof (Hone "r1" "r2" _ H1 H2)|].
  apply (Hall eq_refl "uid-1"). exists (exampleContainer []), (MkPort 22 "TCP").
  split_and!; [by left|vm_compute; reflexivity|by right; left|vm_compute; reflexivity].
Defined.

(** Both declare the port. *)
Definition contestedNodes : gmap string ExposeNode :=
  {[ "r1" := MkExposeNode "uid-1" ["830/tcp"] []; "r2" := MkExposeNode "uid-2" ["830"] [] ]}.

Lemma exposure_refused_witness :
  is_ok (compileDirectExposedPorts sharingPlan (Some sharingProfile) ["r1"; "r2"] sharingNodes) = true
  ∧ wellDeclaredGroup ["r1"; "r2"] sharingNodes ∧ ¬ sharedPort sharingPlan ["r1"; "r2"] sharingNodes
  ∧ is_ok (compileDirectExposedPorts sharingPlan (Some sharingProfile) ["r1"; "r2"] contestedNodes) = false.
Proof.
  assert (is_ok (compileDirectExposedPorts sharingPlan (Some sharingProfile) ["r1"; "r2"] sharingNodes) = true) as Hok
    by (vm_compute; reflexivity).
  destruct (proj1 (exposure_refused sharingPlan sharingProfile ["r1"; "r2"] sharingNodes sharing_identified ltac:(vm_compute; done)) Hok)
    as (H1 & _ & H3).
  split_and!; [exact Hok|exact H1|exact H3|vm_compute; reflexivity].
Defined.
