(* ===== verification/NodeServices.v ===== *)
(** * Services of a Node

    Models [controllers/node/service.go] and the reconciliation of Services in
    [controllers/node/reconcile.go]: the headless Service by which wire peers find a Node's
    Pod, the Services of its aliases, and the Service that exposes its ports.

    The Services of the cluster are a map; [faults] says which requests the API server
    refuses, [storedAs] what it stores of an object it is sent (allocated addresses and ports),
    and [setOwnerReference] is [controllerutil.SetOwnerReference]. *)

From S2P Require Import Prelude Api GoStrings GoNet GoSort CompilerDiagnostics CompilerDefinition CompilerPorts.
From S2P Require Import DevicePlanTypes Management PlanValidation PlanInput NodeArtifacts NodeStatus NodeProfiles NodeExposure.
Local Open Scope Z_scope.

(** ** Data *)

Definition exposeTypeHeadless : string := "Headless".
Definition ServiceTypeClusterIP : string := "ClusterIP".
Definition ServiceTypeNodePort : string := "NodePort".
Definition ServiceTypeLoadBalancer : string := "LoadBalancer".
Definition ClusterIPNone : string := "None".
Definition FabricWireServicePort : Z := 14790.
Definition LabelTopologyNode : string := "c9s.run/topologyNode".
Definition LabelTopologyServiceType : string := "c9s.run/topologyServiceType".
Definition TopologyServiceTypeFabric : string := "fabric".
Definition TopologyServiceTypeExpose : string := "expose".
Definition TopologyServiceTypeAlias : string := "alias".

Record ServicePort := MkServicePort {
  SP_Name : string;
  SP_Protocol : string;
  SP_AppProtocol : option string;
  SP_Port : Z;
  SP_TargetPort : Z;
  SP_NodePort : Z
}.
#[export] Instance ServicePort_eq_dec : EqDecision ServicePort.
Proof. solve_decision. Defined.
#[export] Instance ServicePort_updatable : Updatable ServicePort :=
  λ p, MkServicePort (SP_Name p) (SP_Protocol p) (SP_AppProtocol p) (SP_Port p) (SP_TargetPort p) (SP_NodePort p).

Record Service := MkService {
  S_Namespace : string;
  S_Name : string;
  S_ResourceVersion : string;
  S_Annotations : gmap string string;
  S_Labels : gmap string string;
  S_OwnerUIDs : list string;
  S_Finalizers : list string;
  S_Deleting : bool;
  S_Selector : gmap string string;
  S_Type : string;
  S_ClusterIP : string;
  S_ClusterIPs : list string;
  S_IPFamilies : list string;
  S_IPFamilyPolicy : option string;
  S_PublishNotReadyAddresses : bool;
  S_LoadBalancerIP : string;
  S_Ports : list ServicePort;
  S_HealthCheckNodePort : Z;
  S_AllocateLoadBalancerNodePorts : option bool;
  S_LoadBalancerClass : option string;
  S_Ingress : list string
}.
#[export] Instance Service_eq_dec : EqDecision Service.
Proof. solve_decision. Defined.
#[export] Instance Service_updatable : Updatable Service :=
  λ s, MkService (S_Namespace s) (S_Name s) (S_ResourceVersion s) (S_Annotations s) (S_Labels s) (S_OwnerUIDs s)
         (S_Finalizers s) (S_Deleting s) (S_Selector s) (S_Type s) (S_ClusterIP s) (S_ClusterIPs s) (S_IPFamilies s)
         (S_IPFamilyPolicy s) (S_PublishNotReadyAddresses s) (S_LoadBalancerIP s) (S_Ports s) (S_HealthCheckNodePort s)
         (S_AllocateLoadBalancerNodePorts s) (S_LoadBalancerClass s) (S_Ingress s).

(** The fields of a Node its Services are rendered from. *)
Record ServiceNode := MkServiceNode {
  VN_Name : string;
  VN_Namespace : string;
  VN_UID : string;
  VN_Labels : gmap string string;
  VN_Aliases : list string;
  VN_Expose : ExposeNode
}.

(** ** Rendering *)

(** [config]: the annotations and labels every object gets. *)
Section rendering.
Context (config : gmap string string * gmap string string).

Definition exposeTypeToServiceType (exposeType : string) : string :=
  if bool_decide (exposeType = ServiceTypeClusterIP) || bool_decide (exposeType = exposeTypeHeadless)
  then ServiceTypeClusterIP else ServiceTypeLoadBalancer.

Definition podSelectorLabels (primaryNode : string) : gmap string string :=
  {[ LabelApp := Clabernetes; LabelName := primaryNode; LabelTopologyNode := primaryNode ]}.

Definition renderServiceBase (node : ServiceNode) (name primaryNode serviceType : string) : Service :=
  let labels : gmap string string :=
    {[ LabelApp := Clabernetes; LabelName := name; LabelTopologyNode := VN_Name node; LabelTopologyServiceType := serviceType ]} in
  let labels := config.2 ∪ labels in
  let labels := match VN_Labels node !! LabelTopologyOwner with
                | None => labels
                | Some owner => <[LabelTopologyOwner := owner]> labels
                end in
  MkService (VN_Namespace node) name "" config.1 labels [] [] false (podSelectorLabels primaryNode) "" "" [] [] None false "" []
    0 None None [].

Definition RenderFabricService (node : ServiceNode) (primaryNode : string) : Service :=
  renderServiceBase node (FabricServiceName (VN_Name node)) primaryNode TopologyServiceTypeFabric
    <| S_Type := ServiceTypeClusterIP |>
    <| S_Ports := [MkServicePort "wire" udpProtocol None FabricWireServicePort FabricWireServicePort 0] |>.

Definition RenderDirectFabricService (node : ServiceNode) (primaryNode : string) : Service :=
  RenderFabricService node primaryNode <| S_ClusterIP := ClusterIPNone |> <| S_PublishNotReadyAddresses := true |>.

Definition RenderDirectAliasService (node : ServiceNode) (primaryNode alias : string) : Service :=
  renderServiceBase node alias primaryNode TopologyServiceTypeAlias
    <| S_Type := ServiceTypeClusterIP |> <| S_ClusterIP := ClusterIPNone |> <| S_PublishNotReadyAddresses := true |>.

(** [net.ParseIP] and [IP.String]: an IPv4 address embedded in IPv6 is printed as IPv4. *)
Definition ParseIPString (s : string) : option string :=
  match ParseAddr s with
  | None => None
  | Some a => if hasZone a then None else Some (AddrString (Unmap a))
  end.

Definition renderExposeServiceLoadBalancerIP (service : Service) (profile : ResolvedProfile)
    (management : option NodeDirectManagementStatus) : Service :=
  match management with
  | None => service
  | Some management =>
      if negb (bool_decide (S_Type service = ServiceTypeLoadBalancer)) then service
      else
        let raw := if RP_UseNodeMgmtIpv4Address profile then DM_IPv4 management
                   else if RP_UseNodeMgmtIpv6Address profile then DM_IPv6 management
                   else "" in
        if empty raw then service
        else
          match ParseIPString (bareDirectManagementAddress raw) with
          | None => service
          | Some ip => service <| S_LoadBalancerIP := ip |>
          end
  end.

(** The conversion to [int32]. *)
Definition int32 (z : Z) : Z := (z + 2 ^ 31) mod 2 ^ 32 - 2 ^ 31.

Definition exposeServicePort (node : ServiceNode) (port : NodeExposedPort) : ServicePort :=
  MkServicePort ("port-" +:+ Itoa (DestinationPort port) +:+ "-" +:+ ToLower (ExposedProtocol port)) (ExposedProtocol port)
    (resolvedAppProtocol (VN_Expose node) port) (int32 (DestinationPort port)) (int32 (ExposePort port)) 0.

Definition RenderExposeService (node : ServiceNode) (primaryNode : string) (profile : ResolvedProfile)
    (exposedPorts : option NodeExposedPorts) (management : option NodeDirectManagementStatus) : option Service :=
  match exposedPorts with
  | None => None
  | Some exposedPorts =>
      let ports := default [] (ExposedPortList exposedPorts) in
      if bool_decide (ports = []) || bool_decide (RP_ExposeType profile = exposeTypeNone) then None
      else
        let service := renderServiceBase node (VN_Name node) primaryNode TopologyServiceTypeExpose in
        let service := service <| S_Type := exposeTypeToServiceType (RP_ExposeType profile) |> in
        let service := if bool_decide (RP_ExposeType profile = exposeTypeHeadless)
                       then service <| S_ClusterIP := ClusterIPNone |> else service in
        let service := renderExposeServiceLoadBalancerIP service profile management in
        Some (service <| S_Ports := exposeServicePort node <$> ports |>)
  end.

Definition RenderDirectExposeService (node : ServiceNode) (primaryNode : string) (profile : ResolvedProfile)
    (exposedPorts : option NodeExposedPorts) (management : option NodeDirectManagementStatus) : option Service :=
  match RenderExposeService node primaryNode profile exposedPorts management with
  | None => None
  | Some service => Some (service <| S_Ports := (λ port, port <| SP_TargetPort := SP_Port port |>) <$> S_Ports service |>)
  end.
End rendering.

(** ** Comparing and preparing *)

Definition serviceIsHeadless (service : Service) : bool := bool_decide (S_ClusterIP service = ClusterIPNone).
Definition serviceNeedsRecreate (existing rendered : Service) : bool :=
  negb (eqb (serviceIsHeadless existing) (serviceIsHeadless rendered)).

(** The inner loop over the ports that are there: a port of the name that differs ends it. *)
Fixpoint portExists (expected : ServicePort) (actual : list ServicePort) (exists_ : bool) : bool :=
  match actual with
  | [] => exists_
  | port :: actual =>
      if negb (bool_decide (SP_Name expected = SP_Name port)) then portExists expected actual exists_
      else if negb (Z.eqb (SP_Port expected) (SP_Port port)) then exists_
      else if negb (bool_decide (SP_Protocol expected = SP_Protocol port)) then exists_
      else if negb (Z.eqb (SP_TargetPort expected) (SP_TargetPort port)) then exists_
      else if negb (bool_decide (SP_AppProtocol expected = SP_AppProtocol port)) then exists_
      else portExists expected actual true
  end.

Definition serviceConforms (existing rendered : Service) (expectedOwnerUID : string) : bool :=
  bool_decide (S_Selector existing = S_Selector rendered)
  && bool_decide (S_Type existing = S_Type rendered)
  && eqb (serviceIsHeadless existing) (serviceIsHeadless rendered)
  && eqb (S_PublishNotReadyAddresses existing) (S_PublishNotReadyAddresses rendered)
  && bool_decide (S_LoadBalancerIP existing = S_LoadBalancerIP rendered)
  && (length (S_Ports rendered) =? length (S_Ports existing))%nat
  && forallb (λ expected, portExists expected (S_Ports existing) false) (S_Ports rendered)
  && ExistingMapStringStringContainsAllExpectedKeyValues (S_Annotations existing) (S_Annotations rendered)
  && ExistingMapStringStringContainsAllExpectedKeyValues (S_Labels existing) (S_Labels rendered)
  && match S_OwnerUIDs existing with [uid] => bool_decide (uid = expectedOwnerUID) | _ => false end.

(** A port keeps the node port of the first one of its name and protocol. *)
Definition keepNodePort (preserve : bool) (existing : list ServicePort) (rendered : ServicePort) : ServicePort :=
  match List.find (λ port, bool_decide (SP_Name rendered = SP_Name port) && bool_decide (SP_Protocol rendered = SP_Protocol port)) existing with
  | None => rendered
  | Some port => if preserve && Z.eqb (SP_NodePort rendered) 0 then rendered <| SP_NodePort := SP_NodePort port |> else rendered
  end.

Definition allocatesNodePorts (service : Service) : bool :=
  bool_decide (S_Type service = ServiceTypeLoadBalancer) || bool_decide (S_Type service = ServiceTypeNodePort).

Definition prepareServiceForUpdate (existing rendered : Service) : Service :=
  let rendered := rendered <| S_ResourceVersion := S_ResourceVersion existing |> <| S_ClusterIP := S_ClusterIP existing |>
                           <| S_ClusterIPs := S_ClusterIPs existing |> <| S_IPFamilies := S_IPFamilies existing |> in
  let rendered := match S_IPFamilyPolicy existing with None => rendered | Some p => rendered <| S_IPFamilyPolicy := Some p |> end in
  let preserve := allocatesNodePorts rendered && allocatesNodePorts existing in
  let rendered := rendered <| S_Ports := keepNodePort preserve (S_Ports existing) <$> S_Ports rendered |> in
  if negb (bool_decide (S_Type rendered = ServiceTypeLoadBalancer)) || negb (bool_decide (S_Type existing = ServiceTypeLoadBalancer))
  then rendered
  else
    let rendered := rendered <| S_HealthCheckNodePort := S_HealthCheckNodePort existing |> in
    let rendered := match S_AllocateLoadBalancerNodePorts existing with
                    | None => rendered | Some b => rendered <| S_AllocateLoadBalancerNodePorts := Some b |> end in
    match S_LoadBalancerClass existing with None => rendered | Some c => rendered <| S_LoadBalancerClass := Some c |> end.

(** ** Reconciling *)

Notation serviceKey := (string * string)%type.
Notation serviceStore := (gmap (string * string) Service).
Definition keyOfService (service : Service) : serviceKey := (S_Namespace service, S_Name service).

Inductive serviceCall :=
| GetService (k : serviceKey)
| CreateService (k : serviceKey)
| UpdateService (k : serviceKey)
| DeleteService (k : serviceKey)
| ListServices (namespace : string).

Inductive serviceError :=
| ownerReferenceFailed
| serviceCallFailed (call : serviceCall)
| aliasCollides (alias : string)
| refusedRecreate (k : serviceKey).

Section reconciling.
Context (faults : serviceCall → bool) (storedAs : Service → Service) (setOwnerReference : string → Service → option Service).
Context (config : gmap string string * gmap string string).

Definition ownedByUID (service : Service) (uid : string) : bool := existsb (λ o, bool_decide (o = uid)) (S_OwnerUIDs service).

Definition getService (store : serviceStore) (k : serviceKey) : result serviceError (option Service) :=
  if faults (GetService k) then Err (serviceCallFailed (GetService k)) else Ok (store !! k).
Definition createService (store : serviceStore) (rendered : Service) : serviceStore * option serviceError :=
  let k := keyOfService rendered in
  if faults (CreateService k) then (store, Some (serviceCallFailed (CreateService k))) else (<[k := storedAs rendered]> store, None).
(** The status is kept by an update. *)
Definition putService (store : serviceStore) (existing updated : Service) : serviceStore * option serviceError :=
  let k := keyOfService updated in
  if faults (UpdateService k) then (store, Some (serviceCallFailed (UpdateService k)))
  else (<[k := storedAs updated <| S_Ingress := S_Ingress existing |> <| S_Finalizers := S_Finalizers existing |>
                             <| S_Deleting := S_Deleting existing |>]> store, None).
(** An object with finalizers stays until they are gone. *)
Definition deleteService (store : serviceStore) (existing : Service) : serviceStore * option serviceError :=
  let k := keyOfService existing in
  if faults (DeleteService k) then (store, Some (serviceCallFailed (DeleteService k)))
  else (if bool_decide (S_Finalizers existing = []) then delete k store else <[k := existing <| S_Deleting := true |>]> store, None).

Definition updateService (store : serviceStore) (existing rendered : Service) (uid : string) : serviceStore * option serviceError :=
  if serviceNeedsRecreate existing rendered then
    if negb (ownedByUID existing uid) then (store, Some (refusedRecreate (keyOfService existing)))
    else deleteService store existing
  else putService store existing (prepareServiceForUpdate existing rendered).

Definition reconcileRenderedFabricService (store : serviceStore) (node : ServiceNode) (rendered : Service) :
    serviceStore * option serviceError :=
  match setOwnerReference (VN_UID node) rendered with
  | None => (store, Some ownerReferenceFailed)
  | Some rendered =>
      match getService store (keyOfService rendered) with
      | Err e => (store, Some e)
      | Ok None => createService store rendered
      | Ok (Some existing) =>
          if serviceConforms existing rendered (VN_UID node) then (store, None)
          else updateService store existing rendered (VN_UID node)
      end
  end.

Definition reconcileDirectFabricService (store : serviceStore) (node : ServiceNode) (primaryNode : string) :
    serviceStore * option serviceError :=
  reconcileRenderedFabricService store node (RenderDirectFabricService config node primaryNode).

Definition aliasServiceStep (node : ServiceNode) (primaryNode : string) (store : serviceStore) (alias : string) :
    serviceStore * option serviceError :=
  match setOwnerReference (VN_UID node) (RenderDirectAliasService config node primaryNode alias) with
  | None => (store, Some ownerReferenceFailed)
  | Some rendered =>
      match getService store (keyOfService rendered) with
      | Err e => (store, Some e)
      | Ok None => createService store rendered
      | Ok (Some existing) =>
          if negb (ownedByUID existing (VN_UID node)) then (store, Some (aliasCollides alias))
          else if serviceConforms existing rendered (VN_UID node) then (store, None)
          else updateService store existing rendered (VN_UID node)
      end
  end.

Fixpoint aliasLoop (node : ServiceNode) (primaryNode : string) (store : serviceStore) (aliases : list string) :
    serviceStore * option serviceError :=
  match aliases with
  | [] => (store, None)
  | alias :: aliases =>
      match aliasServiceStep node primaryNode store alias with
      | (store, None) => aliasLoop node primaryNode store aliases
      | failed => failed
      end
  end.

Definition listServices (store : serviceStore) (namespace : string) (labels : gmap string string) : list Service :=
  (filter (λ kv, kv.1.1 = namespace ∧ labels ⊆ S_Labels kv.2) (map_to_list store)).*2.

(** A Service that is gone by now is no error. *)
Fixpoint servicePruneLoop (node : ServiceNode) (desired : list string) (store : serviceStore) (services : list Service) :
    serviceStore * option serviceError :=
  match services with
  | [] => (store, None)
  | service :: services =>
      if bool_decide (S_Name service ∈ desired) || negb (ownedByUID service (VN_UID node)) || S_Deleting service
      then servicePruneLoop node desired store services
      else
        match deleteService store service with
        | (store, None) => servicePruneLoop node desired store services
        | failed => failed
        end
  end.

Definition pruneDirectAliasServices (store : serviceStore) (node : ServiceNode) (desired : list string) :
    serviceStore * option serviceError :=
  if faults (ListServices (VN_Namespace node)) then (store, Some (serviceCallFailed (ListServices (VN_Namespace node))))
  else
    servicePruneLoop node desired store
      (listServices store (VN_Namespace node)
         {[ LabelTopologyNode := VN_Name node; LabelTopologyServiceType := TopologyServiceTypeAlias ]}).

Definition reconcileDirectAliasServices (store : serviceStore) (node : ServiceNode) (primaryNode : string) :
    serviceStore * option serviceError :=
  match aliasLoop node primaryNode store (VN_Aliases node) with
  | (store, None) => pruneDirectAliasServices store node (VN_Aliases node)
  | failed => failed
  end.

(** [deleteIfOwned] for a Service. *)
Definition deleteIfOwned (store : serviceStore) (node : ServiceNode) (name : string) : serviceStore * option serviceError :=
  match getService store (VN_Namespace node, name) with
  | Err e => (store, Some e)
  | Ok None => (store, None)
  | Ok (Some existing) =>
      if S_Deleting existing then (store, None)
      else if ownedByUID existing (VN_UID node) then deleteService store existing
      else (store, None)
  end.

(** The address of the load balancer, when there is one. *)
Definition reconcileRenderedExposeService (store : serviceStore) (node : ServiceNode) (rendered : option Service) :
    serviceStore * string * option serviceError :=
  match rendered with
  | None => let '(store, e) := deleteIfOwned store node (VN_Name node) in (store, "", e)
  | Some rendered =>
      match setOwnerReference (VN_UID node) rendered with
      | None => (store, "", Some ownerReferenceFailed)
      | Some rendered =>
          match getService store (keyOfService rendered) with
          | Err e => (store, "", Some e)
          | Ok None => let '(store, e) := createService store rendered in (store, "", e)
          | Ok (Some existing) =>
              let loadBalancerAddress := default "" (head (S_Ingress existing)) in
              if serviceConforms existing rendered (VN_UID node) then (store, loadBalancerAddress, None)
              else let '(store, e) := updateService store existing rendered (VN_UID node) in (store, loadBalancerAddress, e)
          end
      end
  end.
End reconciling.
