(* ===== verification/NodeServicesTheorems.v ===== *)
(** * Services of a Node: what is enforced and what is left alone

    The Service of a Node converges to what is rendered for it; the alias pass never touches a
    Service of somebody else. *)

From S2P Require Import Prelude Api GoStrings CompilerDiagnostics CompilerDefinition CompilerPorts GoNet.
From S2P Require Import DevicePlanTypes Management GoSort PlanValidation PlanExamples CompilerNames PlanInput.
From S2P Require Import NodeArtifacts NodeStatus NodeProfiles NodeExposure NodeExposureTheorems NodeServices.
Local Open Scope Z_scope.

Notation serviceStore := (gmap (string * string) Service).
Notation serviceKey := (string * string)%type.

(** Objects are stored under their own names. *)
Definition wfServices (store : serviceStore) : Prop := ∀ k s, store !! k = Some s → keyOfService s = k.

(** ** What is relied on *)

(** A port without its node port, which the API server allocates. *)
Definition declaredPort (port : ServicePort) : ServicePort := port <| SP_NodePort := 0 |>.

(** The API server stores what it is sent, and allocates addresses and node ports. *)
Record lawfulAdmit (storedAs : Service → Service) : Prop := {
  admit_key : ∀ s, keyOfService (storedAs s) = keyOfService s;
  admit_annotations : ∀ s, S_Annotations (storedAs s) = S_Annotations s;
  admit_labels : ∀ s, S_Labels (storedAs s) = S_Labels s;
  admit_owners : ∀ s, S_OwnerUIDs (storedAs s) = S_OwnerUIDs s;
  admit_finalizers : ∀ s, S_Finalizers (storedAs s) = S_Finalizers s;
  admit_selector : ∀ s, S_Selector (storedAs s) = S_Selector s;
  admit_type : ∀ s, S_Type (storedAs s) = S_Type s;
  admit_headless : ∀ s, serviceIsHeadless (storedAs s) = serviceIsHeadless s;
  admit_publish : ∀ s, S_PublishNotReadyAddresses (storedAs s) = S_PublishNotReadyAddresses s;
  admit_ip : ∀ s, S_LoadBalancerIP (storedAs s) = S_LoadBalancerIP s;
  admit_ports : ∀ s, declaredPort <$> S_Ports (storedAs s) = declaredPort <$> S_Ports s
}.

(** [controllerutil.SetOwnerReference] adds the owner to an object that has none. *)
Definition lawfulOwner (setOwnerReference : string → Service → option Service) : Prop :=
  ∀ uid s s', setOwnerReference uid s = Some s' → S_OwnerUIDs s = [] → s' = s <| S_OwnerUIDs := [uid] |>.

(** ** Conforming *)

Lemma declared_fields p q : declaredPort p = declaredPort q →
  SP_Name p = SP_Name q ∧ SP_Protocol p = SP_Protocol q ∧ SP_AppProtocol p = SP_AppProtocol q ∧ SP_Port p = SP_Port q
  ∧ SP_TargetPort p = SP_TargetPort q.
Proof. destruct p, q. unfold declaredPort. cbn. by intros [= -> -> -> -> ->]. Qed.

Lemma portExists_same expected actual : ∀ b,
  (∃ p, p ∈ actual ∧ declaredPort p = declaredPort expected) ∨ b = true →
  (∀ p, p ∈ actual → SP_Name p = SP_Name expected → declaredPort p = declaredPort expected) →
  portExists expected actual b = true.
Proof.
  induction actual as [|p actual IH]; intros b Hsome Hall; cbn.
  { destruct Hsome as [(p & H & _)|H]; [by apply elem_of_nil in H|done]. }
  case_bool_decide as Hn; cbn.
  - destruct (declared_fields p expected) as (_ & H2 & H3 & H4 & H5); [by apply Hall; [left|]|].
    rewrite H2, H3, H4, H5, !Z.eqb_refl, !bool_decide_eq_true_2 by done. cbn. apply IH; [by right|]. intros; apply Hall; [by right|done].
  - apply IH; [|intros; apply Hall; [by right|done]]. destruct Hsome as [(q & [->|Hq]%elem_of_cons & Hd)|H]; [|left; by exists q|by right].
    exfalso. apply Hn. symmetry. by apply declared_fields in Hd as [-> _].
Qed.

(** Ports that differ in node ports only are found, if their names differ. *)
Lemma ports_found (expected actual : list ServicePort) :
  declaredPort <$> actual = declaredPort <$> expected → NoDup (SP_Name <$> expected) →
  forallb (λ e, portExists e actual false) expected = true.
Proof.
  intros Heq Hnd. apply forallb_forall. intros e He%list_elem_of_In.
  assert (∀ p, p ∈ actual → ∃ q, q ∈ expected ∧ declaredPort p = declaredPort q) as Hfrom.
  { intros p Hp. assert (declaredPort p ∈ declaredPort <$> expected) as H by (rewrite <- Heq; by apply list_elem_of_fmap_2).
    apply list_elem_of_fmap in H as (q & ? & ?). eauto. }
  apply portExists_same.
  - left. assert (declaredPort e ∈ declaredPort <$> actual) as H by (rewrite Heq; by apply list_elem_of_fmap_2).
    apply list_elem_of_fmap in H as (p & ? & ?). eauto.
  - intros p Hp Hname. destruct (Hfrom p Hp) as (q & Hq & Hd). rewrite Hd. f_equal.
    pose proof (declared_fields _ _ Hd) as [Hpq _]. rewrite Hpq in Hname. clear -Hnd He Hq Hname.
    induction expected as [|x expected IH]; [by apply elem_of_nil in He|]. cbn in Hnd. apply NoDup_cons in Hnd as [Hx Hnd].
    apply elem_of_cons in He as [->|He], Hq as [->|Hq]; [done| | |by apply IH].
    + exfalso. apply Hx. rewrite <- Hname. by apply list_elem_of_fmap_2.
    + exfalso. apply Hx. rewrite Hname. by apply list_elem_of_fmap_2.
Qed.

(** What an update or a creation stores conforms. *)
Lemma conforms_fields existing rendered uid :
  S_Selector existing = S_Selector rendered → S_Type existing = S_Type rendered →
  serviceIsHeadless existing = serviceIsHeadless rendered →
  S_PublishNotReadyAddresses existing = S_PublishNotReadyAddresses rendered →
  S_LoadBalancerIP existing = S_LoadBalancerIP rendered →
  declaredPort <$> S_Ports existing = declaredPort <$> S_Ports rendered → NoDup (SP_Name <$> S_Ports rendered) →
  S_Annotations existing = S_Annotations rendered → S_Labels existing = S_Labels rendered → S_OwnerUIDs existing = [uid] →
  serviceConforms existing rendered uid = true.
Proof.
  intros H1 H2 H3 H4 H5 H6 H7 H8 H9 H10. unfold serviceConforms.
  rewrite H1, H2, H3, H4, H5, H8, H9, H10, !bool_decide_eq_true_2, !Bool.eqb_reflx by done.
  rewrite (ports_found (S_Ports rendered) (S_Ports existing)) by done.
  assert (length (S_Ports rendered) = length (S_Ports existing)) as -> by (by rewrite <- (length_fmap declaredPort), <- H6, length_fmap).
  rewrite Nat.eqb_refl. cbn. rewrite !(proj2 (contains_all_spec _ _)); done.
Qed.

Lemma keepNodePort_declared preserve existing p : declaredPort (keepNodePort preserve existing p) = declaredPort p.
Proof. unfold keepNodePort. destruct (List.find _ _); [|done]. by destruct (_ && _). Qed.

Lemma prepared_fields existing rendered :
  let s := prepareServiceForUpdate existing rendered in
  keyOfService s = keyOfService rendered ∧ S_Annotations s = S_Annotations rendered ∧ S_Labels s = S_Labels rendered
  ∧ S_OwnerUIDs s = S_OwnerUIDs rendered ∧ S_Selector s = S_Selector rendered ∧ S_Type s = S_Type rendered
  ∧ S_ClusterIP s = S_ClusterIP existing ∧ S_PublishNotReadyAddresses s = S_PublishNotReadyAddresses rendered
  ∧ S_LoadBalancerIP s = S_LoadBalancerIP rendered ∧ declaredPort <$> S_Ports s = declaredPort <$> S_Ports rendered.
Proof.
  cbn zeta. assert (∀ (l : list ServicePort) b, declaredPort <$> (keepNodePort b (S_Ports existing) <$> l) = declaredPort <$> l) as Hports.
  { intros l b. rewrite <- list_fmap_compose. apply list_fmap_ext. intros i p _. apply keepNodePort_declared. }
  unfold prepareServiceForUpdate.
  destruct (S_IPFamilyPolicy existing), (S_AllocateLoadBalancerNodePorts existing), (S_LoadBalancerClass existing); cbn;
    destruct (_ || _); cbn; split_and!; try done; apply Hports.
Qed.

(** ** Convergence *)

Section converging.
Context (storedAs : Service → Service) (setOwnerReference : string → Service → option Service).
Context (Hadmit : lawfulAdmit storedAs) (Howner : lawfulOwner setOwnerReference).
Context (node : ServiceNode) (rendered owned : Service).
Context (Hset : setOwnerReference (VN_UID node) rendered = Some owned).
Context (Hfresh : S_OwnerUIDs rendered = []) (Hnames : NoDup (SP_Name <$> S_Ports rendered)).

(** No request is refused. *)
Definition noServiceFaults (call : serviceCall) : bool := false.
Notation pass store := (reconcileRenderedFabricService noServiceFaults storedAs setOwnerReference store node rendered).

Lemma owned_fields : owned = rendered <| S_OwnerUIDs := [VN_UID node] |>.
Proof. by eapply Howner. Qed.

(** The rendered Service is in place. *)
Definition inPlace (store : serviceStore) : Prop :=
  ∃ s, store !! keyOfService rendered = Some s ∧ serviceConforms s owned (VN_UID node) = true.

Lemma created_conforms : serviceConforms (storedAs owned) owned (VN_UID node) = true.
Proof.
  destruct Hadmit. rewrite owned_fields. apply conforms_fields; rewrite ?admit_owners0, ?admit_ports0; eauto.
Qed.

Lemma updated_service_conforms existing f c d :
  serviceNeedsRecreate existing owned = false →
  serviceConforms (storedAs (prepareServiceForUpdate existing owned) <| S_Ingress := f |> <| S_Finalizers := c |> <| S_Deleting := d |>)
    owned (VN_UID node) = true.
Proof.
  intros Hmode. destruct (prepared_fields existing owned) as (H1 & H2 & H3 & H4 & H5 & H6 & H7 & H8 & H9 & H10). destruct Hadmit.
  assert (serviceIsHeadless existing = serviceIsHeadless owned) as Hh.
  { unfold serviceNeedsRecreate in Hmode. apply negb_false_iff in Hmode. by apply eqb_prop. }
  apply conforms_fields; cbn.
  - by rewrite admit_selector0.
  - by rewrite admit_type0.
  - unfold serviceIsHeadless. cbn. fold (serviceIsHeadless (storedAs (prepareServiceForUpdate existing owned))).
    rewrite admit_headless0. unfold serviceIsHeadless at 1. rewrite H7. exact Hh.
  - by rewrite admit_publish0.
  - by rewrite admit_ip0.
  - by rewrite admit_ports0.
  - by rewrite owned_fields.
  - by rewrite admit_annotations0.
  - by rewrite admit_labels0.
  - rewrite admit_owners0, H4, owned_fields. done.
Qed.

Lemma owned_key : keyOfService owned = keyOfService rendered.
Proof. by rewrite owned_fields. Qed.

(** One pass puts the Service in place, or removes one of the other kind that the Node owns. *)
Lemma service_pass_spec store :
  wfServices store →
  (∀ s, store !! keyOfService rendered = Some s → serviceNeedsRecreate s owned = true →
     ownedByUID s (VN_UID node) = true ∧ S_Finalizers s = []) →
  (pass store).2 = None ∧ wfServices (pass store).1
  ∧ (∀ k, k ≠ keyOfService rendered → (pass store).1 !! k = store !! k)
  ∧ (inPlace (pass store).1 ∨ (pass store).1 !! keyOfService rendered = None ∧ store !! keyOfService rendered ≠ None)
  ∧ (inPlace store → (pass store).1 = store).
Proof.
  intros Hwf Hforeign. unfold reconcileRenderedFabricService. rewrite Hset. unfold getService. cbn [noServiceFaults]. rewrite owned_key.
  assert (∀ s, keyOfService s = keyOfService rendered → wfServices (<[keyOfService rendered := s]> store)) as Hins.
  { intros s Hs k s'. rewrite lookup_insert_Some. intros [[<- <-]|[_ H]]; [done|auto]. }
  destruct (store !! keyOfService rendered) as [existing|] eqn:He.
  - destruct (serviceConforms existing owned (VN_UID node)) eqn:Hc.
    { cbn. split_and!; [done..|left; by exists existing|done]. }
    assert (inPlace store → False) as Hnot by (intros (s & Hs & Hs'); congruence).
    unfold updateService. destruct (serviceNeedsRecreate existing owned) eqn:Hr.
    + destruct (Hforeign existing eq_refl Hr) as [Hown Hfin]. rewrite Hown. cbn [negb]. unfold deleteService. cbn [noServiceFaults].
      rewrite (Hwf _ _ He), bool_decide_eq_true_2 by done. cbn. split_and!; [done| | | |tauto].
      * intros k s [_ H]%lookup_delete_Some. auto.
      * intros k Hk. by rewrite lookup_delete_ne.
      * right. by rewrite lookup_delete_eq.
    + unfold putService. cbn [noServiceFaults]. destruct (prepared_fields existing owned) as (-> & _). rewrite owned_key. cbn.
      split_and!; [done| | | |tauto].
      * apply Hins. pose proof (admit_key _ Hadmit (prepareServiceForUpdate existing owned)) as Hk. unfold keyOfService in *. cbn.
        rewrite Hk. destruct (prepared_fields existing owned) as (Hp & _). unfold keyOfService in Hp. rewrite Hp. apply owned_key.
      * intros k Hk. by rewrite lookup_insert_ne.
      * left. eexists. rewrite lookup_insert_eq. split; [done|]. by apply updated_service_conforms.
  - unfold createService. cbn [noServiceFaults]. rewrite owned_key. cbn. split_and!; [done| | | |].
    + apply Hins. rewrite (admit_key _ Hadmit). apply owned_key.
    + intros k Hk. by rewrite lookup_insert_ne.
    + left. eexists. rewrite lookup_insert_eq. split; [done|]. apply created_conforms.
    + intros (s & Hs & _). congruence.
Qed.

(** A Service of the other kind is not replaced while it belongs to somebody else or a
    finalizer holds it. *)
Lemma service_pass_blocked store s :
  wfServices store → store !! keyOfService rendered = Some s → serviceNeedsRecreate s owned = true →
  (ownedByUID s (VN_UID node) = false → pass store = (store, Some (refusedRecreate (keyOfService rendered))))
  ∧ (ownedByUID s (VN_UID node) = true → S_Finalizers s ≠ [] →
     pass store = (<[keyOfService rendered := s <| S_Deleting := true |>]> store, None)).
Proof.
  intros Hwf Hs Hr. unfold reconcileRenderedFabricService. rewrite Hset. unfold getService. cbn [noServiceFaults]. rewrite owned_key, Hs.
  assert (serviceConforms s owned (VN_UID node) = false) as ->.
  { unfold serviceNeedsRecreate in Hr. apply negb_true_iff in Hr. unfold serviceConforms. rewrite Hr. by rewrite !andb_false_r. }
  unfold updateService, deleteService. cbn [noServiceFaults]. rewrite Hr, (Hwf _ _ Hs).
  split; [by intros ->|]. intros -> Hf. cbn [negb]. by rewrite bool_decide_eq_false_2.
Qed.

(** Two passes put the Service in place, and a third does nothing. *)
Lemma pass_converges store :
  wfServices store →
  (∀ s, store !! keyOfService rendered = Some s → serviceNeedsRecreate s owned = true →
     ownedByUID s (VN_UID node) = true ∧ S_Finalizers s = []) →
  let store2 := (pass (pass store).1).1 in
  inPlace store2 ∧ (pass store2).1 = store2 ∧ (∀ k, k ≠ keyOfService rendered → store2 !! k = store !! k).
Proof.
  intros Hwf Hforeign. destruct (service_pass_spec store Hwf Hforeign) as (_ & Hwf1 & Hk1 & H1 & Hid1). cbn zeta.
  assert (∀ s, inPlace s → (∀ x, s !! keyOfService rendered = Some x → serviceNeedsRecreate x owned = false)) as Hmode.
  { intros s (x & Hx & Hc) y Hy. assert (x = y) as -> by congruence. unfold serviceNeedsRecreate.
    unfold serviceConforms in Hc. rewrite !andb_true_iff in Hc. destruct Hc as [[[[[[[[[_ _] Hh] _] _] _] _] _] _] _].
    by rewrite Hh. }
  assert (∀ s, (pass store).1 !! keyOfService rendered = Some s → serviceNeedsRecreate s owned = true →
    ownedByUID s (VN_UID node) = true ∧ S_Finalizers s = []) as Hforeign1.
  { intros s Hs Hr. destruct H1 as [H1|[H1 _]]; [|congruence]. by rewrite (Hmode _ H1 _ Hs) in Hr. }
  destruct (service_pass_spec _ Hwf1 Hforeign1) as (_ & Hwf2 & Hk2 & H2 & Hid2).
  assert (inPlace (pass (pass store).1).1) as Hin.
  { destruct H1 as [H1|[H1 _]]; [by rewrite Hid2|]. destruct H2 as [H2|[_ H2]]; done. }
  split_and!; [done| |].
  - apply service_pass_spec; [done| |done]. intros s Hs Hr. by rewrite (Hmode _ Hin _ Hs) in Hr.
  - intros k Hk. by rewrite Hk2, Hk1.
Qed.
End converging.

(** ** Names of exposed ports *)

Lemma Itoa_text n : Itoa n ≠ "".
Proof.
  unfold Itoa. destruct (Z.ltb n 0); [done|]. by destruct (decimal_head 20 n "" ltac:(lia)) as (a & s & -> & _).
Qed.

Lemma Itoa_dash n s : 0 ≤ n → Cut dash (Itoa n +:+ String dash s) = Some (Itoa n, s).
Proof. intros Hn. apply Cut_app. apply digits_without; [done|]. by apply Itoa_digits. Qed.

(** A number is read off up to the dash that ends it. *)
Lemma number_dash n m a b : Itoa n +:+ String dash a = Itoa m +:+ String dash b → Itoa n = Itoa m ∧ a = b.
Proof.
  assert (∀ k s, k < 0 → Itoa k +:+ String dash s = String dash (Itoa (- k) +:+ String dash s)) as Hneg.
  { intros k s Hk. unfold Itoa. rewrite (proj2 (Z.ltb_lt k 0)), (proj2 (Z.ltb_ge (- k) 0)) by lia. done. }
  assert (∀ s, Cut dash (String dash s) = Some ("", s)) as Hcut by done.
  assert (∀ k, k < 0 → Itoa k = String dash (Itoa (- k))) as Hsign.
  { intros k Hk. unfold Itoa. rewrite (proj2 (Z.ltb_lt k 0)), (proj2 (Z.ltb_ge (- k) 0)) by lia. done. }
  intros H. destruct (Z_lt_ge_dec n 0) as [Hn|Hn], (Z_lt_ge_dec m 0) as [Hm|Hm].
  - rewrite (Hneg n), (Hneg m) in H by done. injection H as H. apply (f_equal (Cut dash)) in H.
    rewrite !Itoa_dash in H by lia. injection H as H ->. rewrite (Hsign n), (Hsign m), H by done. done.
  - rewrite (Hneg n) in H by done. apply (f_equal (Cut dash)) in H. rewrite Itoa_dash in H by lia. rewrite Hcut in H.
    injection H as H _. symmetry in H. by apply Itoa_text in H.
  - rewrite (Hneg m) in H by done. apply (f_equal (Cut dash)) in H. rewrite Itoa_dash in H by lia. rewrite Hcut in H.
    injection H as H _. by apply Itoa_text in H.
  - apply (f_equal (Cut dash)) in H. rewrite !Itoa_dash in H by lia. injection H as H ->. done.
Qed.

Lemma lower_upper s : ToUpper (ToLower s) = ToUpper s.
Proof.
  unfold ToUpper, ToLower. induction s as [|a s IH]; [done|]. cbn. rewrite IH. f_equal.
  by destruct a as [[] [] [] [] [] [] [] []].
Qed.

(** Different ports have different names. *)
Lemma exposed_names node ports :
  NoDup (exposedKey <$> ports) → Forall properPort ports → NoDup (SP_Name <$> (exposeServicePort node <$> ports)).
Proof.
  intros Hnd Hp. rewrite <- list_fmap_compose. induction ports as [|p ports IH]; [constructor|].
  cbn in Hnd |- *. apply NoDup_cons in Hnd as [Hx Hnd]. apply Forall_cons in Hp as [Hpp Hp].
  apply NoDup_cons. split; [|by apply IH]. intros (q & Hq & Hin)%list_elem_of_fmap. apply Hx. apply list_elem_of_fmap. exists q. split; [|done].
  cbn in Hq. rewrite list.Forall_forall in Hp. destruct (Hp _ Hin) as [_ Hqu], Hpp as [_ Hpu].
  apply append_inj_l in Hq. apply number_dash in Hq as [Hn Hl]. unfold exposedKey, podPortKey. rewrite Hn.
  assert (ExposedProtocol p = ExposedProtocol q) as ->; [|done]. rewrite <- Hpu, <- Hqu, <- (lower_upper (ExposedProtocol p)), <- (lower_upper (ExposedProtocol q)).
  by rewrite Hl.
Qed.

(** ** The Services of a Node *)

(** Exposing works on the Services like the fabric pass. *)
Lemma expose_pass faults storedAs setOwnerReference store node rendered :
  let '(store', _, e) := reconcileRenderedExposeService faults storedAs setOwnerReference store node (Some rendered) in
  (store', e) = reconcileRenderedFabricService faults storedAs setOwnerReference store node rendered.
Proof.
  unfold reconcileRenderedExposeService, reconcileRenderedFabricService. destruct (setOwnerReference _ _) as [s|]; [|done].
  destruct (getService _ _ _) as [[existing|]|]; [|by destruct (createService _ _ _ _)|done].
  destruct (serviceConforms _ _ _); [done|]. by destruct (updateService _ _ _ _ _ _).
Qed.

Section services.
Context {order : RangeOrder string} {sort : GoSort}.

(** The Service that publishes a Node: for its wires, or for its ports. *)
Inductive nodeService (config : gmap string string * gmap string string) (plan : Plan) (profile : ResolvedProfile) (members : list string)
    (exposeNodes : gmap string ExposeNode) (node : ServiceNode) (primaryNode : string) : Service → Prop :=
| fabricService : nodeService config plan profile members exposeNodes node primaryNode (RenderDirectFabricService config node primaryNode)
| exposedService ports management service :
    compileDirectExposedPorts plan (Some profile) members exposeNodes = Ok ports →
    RenderDirectExposeService config node primaryNode profile (ports !! VN_Name node) management = Some service →
    nodeService config plan profile members exposeNodes node primaryNode service.

Lemma nodeService_fresh config plan profile members exposeNodes node primaryNode service :
  identified members exposeNodes → nodeService config plan profile members exposeNodes node primaryNode service →
  S_OwnerUIDs service = [] ∧ NoDup (SP_Name <$> S_Ports service).
Proof.
  intros Hid [|ports management s Hc Hr]; [split; [done|]; by apply NoDup_singleton|].
  unfold RenderDirectExposeService, RenderExposeService in Hr. destruct (ports !! VN_Name node) as [entry|] eqn:He; [|done].
  destruct (_ || _) eqn:Hnone; [done|]. injection Hr as <-. apply orb_false_iff in Hnone as [_ Ht%bool_decide_eq_false].
  pose proof (compile_outcome plan profile members exposeNodes Hid Ht) as Ho. rewrite Hc in Ho. destruct Ho as (_ & _ & _ & Hd).
  destruct (ports_listed _ _ _ _ _ Hd _ _ He) as (list & -> & Hnd & Hp). split.
  - cbn. unfold renderExposeServiceLoadBalancerIP. destruct management as [m|]; [|by case_bool_decide].
    case_bool_decide; cbn; repeat case_match; done.
  - cbn. rewrite <- list_fmap_compose. exact (exposed_names node list Hnd Hp).
Qed.

(** C33: the Services of a Node converge, or the pass says why not.  For the Service of a Node's
    wires as well as for the Service of the ports compiled for it, with an API server that
    refuses nothing.  If what is stored under its name is nothing, a Service with the same kind
    of cluster address, or a Service of the other kind that the Node owns and no finalizer
    holds, then after two passes the Service is stored as it was rendered, a third pass changes
    nothing, and no other Service is touched.  A Service of the other kind that the Node does
    not own is left as it is, and the pass ends with an error; one that a finalizer holds is
    marked for deletion, and nothing else changes. *)
Theorem node_services_converge storedAs setOwnerReference config plan profile members exposeNodes node primaryNode rendered owned store :
  lawfulAdmit storedAs → lawfulOwner setOwnerReference → identified members exposeNodes → wfServices store →
  nodeService config plan profile members exposeNodes node primaryNode rendered →
  setOwnerReference (VN_UID node) rendered = Some owned →
  let run store := reconcileRenderedFabricService noServiceFaults storedAs setOwnerReference store node rendered in
  let pass store := (run store).1 in
  let otherKind s := store !! keyOfService rendered = Some s ∧ serviceNeedsRecreate s owned = true in
  ((∀ s, otherKind s → ownedByUID s (VN_UID node) = true ∧ S_Finalizers s = []) →
     (∃ s, pass (pass store) !! keyOfService rendered = Some s ∧ serviceConforms s owned (VN_UID node) = true)
     ∧ pass (pass (pass store)) = pass (pass store)
     ∧ (∀ k, k ≠ keyOfService rendered → pass (pass store) !! k = store !! k))
  ∧ (∀ s, otherKind s → ownedByUID s (VN_UID node) = false → run store = (store, Some (refusedRecreate (keyOfService rendered))))
  ∧ (∀ s, otherKind s → ownedByUID s (VN_UID node) = true → S_Finalizers s ≠ [] →
       run store = (<[keyOfService rendered := s <| S_Deleting := true |>]> store, None))
  ∧ ∀ store', let '(store'', _, e) := reconcileRenderedExposeService noServiceFaults storedAs setOwnerReference store' node (Some rendered) in
      (store'', e) = run store'.
Proof.
  intros Ha Ho Hid Hwf Hs Hset run pass otherKind. destruct (nodeService_fresh _ _ _ _ _ _ _ _ Hid Hs) as [Hfresh Hnames].
  split_and!.
  - intros Hforeign. apply (pass_converges storedAs setOwnerReference Ha Ho node rendered owned Hset Hfresh Hnames store Hwf).
    intros s H1 H2. by apply Hforeign.
  - intros s [H1 H2]. eapply service_pass_blocked; done.
  - intros s [H1 H2]. eapply service_pass_blocked; done.
  - intros store'. apply (expose_pass noServiceFaults).
Qed.
End services.

(** ** Aliases *)

Section aliases.
Context (faults : serviceCall → bool) (storedAs : Service → Service) (setOwnerReference : string → Service → option Service).
Context (Hadmit : lawfulAdmit storedAs) (Howner : lawfulOwner setOwnerReference).
Context (config : gmap string string * gmap string string) (node : ServiceNode) (primaryNode : string).

(** Services of others are as they were. *)
Definition respects (store store' : serviceStore) : Prop :=
  wfServices store → wfServices store' ∧ ∀ k s, store !! k = Some s → ownedByUID s (VN_UID node) = false → store' !! k = Some s.

Lemma respects_refl store : respects store store.
Proof. by split. Qed.
Lemma respects_trans a b c : respects a b → respects b c → respects a c.
Proof. intros H1 H2 Hwf. destruct (H1 Hwf) as [Hb H1']. destruct (H2 Hb) as [Hc H2']. split; [done|]. eauto. Qed.

(** Writing where there is nothing, or something of the Node. *)
Lemma respects_insert (store : serviceStore) k s :
  keyOfService s = k → (∀ s', store !! k = Some s' → ownedByUID s' (VN_UID node) = true) → respects store (<[k := s]> store).
Proof.
  intros Hk Hold Hwf. split.
  - intros k' s'. rewrite lookup_insert_Some. intros [[<- <-]|[_ H]]; [done|auto].
  - intros k' s' Hl Ho. rewrite lookup_insert_ne; [done|]. intros <-. apply Hold in Hl. congruence.
Qed.
Lemma respects_delete (store : serviceStore) k :
  (∀ s', store !! k = Some s' → ownedByUID s' (VN_UID node) = true) → respects store (delete k store).
Proof.
  intros Hold Hwf. split.
  - intros k' s' [_ H]%lookup_delete_Some. auto.
  - intros k' s' Hl Ho. rewrite lookup_delete_ne; [done|]. intros <-. apply Hold in Hl. congruence.
Qed.

Lemma deleteService_respects store s :
  (∀ s', store !! keyOfService s = Some s' → ownedByUID s' (VN_UID node) = true) → respects store (deleteService faults store s).1.
Proof.
  intros H. unfold deleteService. destruct (faults _); [apply respects_refl|]. case_bool_decide; cbn.
  - by apply respects_delete.
  - by apply respects_insert.
Qed.

Lemma aliasServiceStep_respects store alias : wfServices store → respects store (aliasServiceStep faults storedAs setOwnerReference config node primaryNode store alias).1.
Proof.
  intros Hwf. unfold aliasServiceStep. destruct (setOwnerReference _ _) as [rendered|] eqn:Hset; [|apply respects_refl].
  unfold getService. destruct (faults _); [apply respects_refl|].
  destruct (store !! keyOfService rendered) as [existing|] eqn:He.
  2:{ unfold createService. destruct (faults _); [apply respects_refl|]. cbn. apply respects_insert; [apply (admit_key _ Hadmit)|congruence]. }
  destruct (ownedByUID existing (VN_UID node)) eqn:Ho; cbn [negb]; [|apply respects_refl].
  destruct (serviceConforms _ _ _); [apply respects_refl|]. unfold updateService. rewrite Ho. cbn [negb].
  pose proof (Hwf _ _ He) as Hke. destruct (serviceNeedsRecreate _ _).
  - apply deleteService_respects. intros s'. rewrite Hke, He. by intros [= <-].
  - unfold putService. destruct (faults _); [apply respects_refl|]. cbn. destruct (prepared_fields existing rendered) as (Hp & _).
    apply respects_insert.
    + pose proof (admit_key _ Hadmit (prepareServiceForUpdate existing rendered)) as Hk. unfold keyOfService in *. cbn. by rewrite Hk.
    + rewrite Hp, He. by intros s' [= <-].
Qed.

Lemma aliasLoop_respects aliases : ∀ store, wfServices store →
  respects store (aliasLoop faults storedAs setOwnerReference config node primaryNode store aliases).1.
Proof.
  induction aliases as [|alias aliases IH]; intros store Hwf; cbn; [apply respects_refl|].
  pose proof (aliasServiceStep_respects store alias Hwf) as Hs.
  destruct (aliasServiceStep _ _ _ _ _ _ _ _) as [store1 [e|]]; cbn in *; [done|].
  eapply respects_trans; [exact Hs|]. apply IH. by apply Hs.
Qed.

(** Pruning removes what the Node owns, and marks or removes all of it. *)
Lemma servicePruneLoop_spec desired services : ∀ store,
  wfServices store → (∀ s, s ∈ services → ∀ s', store !! keyOfService s = Some s' → s' = s ∨ S_Deleting s' = true ∧ ownedByUID s' (VN_UID node) = true) →
  respects store (servicePruneLoop faults node desired store services).1
  ∧ ((servicePruneLoop faults node desired store services).2 = None →
     ∀ k s, (servicePruneLoop faults node desired store services).1 !! k = Some s →
       S_Deleting s = true ∨ store !! k = Some s ∧ (s ∈ services → S_Name s ∈ desired ∨ ownedByUID s (VN_UID node) = false)).
Proof.
  induction services as [|service services IH]; intros store Hwf Hsame; cbn [servicePruneLoop].
  { split; [apply respects_refl|]. intros _ k s H. right. split; [done|]. intros Hin. by apply elem_of_nil in Hin. }
  destruct (_ || _) eqn:Hskip.
  - destruct (IH store Hwf) as [H1 H2]; [intros s Hs; apply Hsame; by right|]. split; [done|]. intros He k s Hs.
    destruct (H2 He k s Hs) as [H|[Hl H]]; [by left|]. destruct (S_Deleting s) eqn:Hd; [by left|]. right. split; [done|].
    intros [->|Hin]%elem_of_cons; [|auto]. rewrite Hd, orb_false_r in Hskip. apply orb_true_iff in Hskip as [Hx|Hx].
    + left. by apply bool_decide_eq_true in Hx.
    + right. by apply negb_true_iff.
  - apply orb_false_iff in Hskip as [[Hn Ho%negb_false_iff]%orb_false_iff Hdel].
    assert (∀ s', store !! keyOfService service = Some s' → ownedByUID s' (VN_UID node) = true) as Hown.
    { intros s' Hs'. destruct (Hsame service ltac:(by left) s' Hs') as [->|[_ ?]]; done. }
    pose proof (deleteService_respects store service Hown) as Hresp.
    assert (∀ k, k ≠ keyOfService service → (deleteService faults store service).1 !! k = store !! k) as Hother.
    { intros k Hk. unfold deleteService. destruct (faults _); [done|].
      destruct (bool_decide (S_Finalizers service = [])); cbn; [by rewrite lookup_delete_ne|by rewrite lookup_insert_ne]. }
    assert ((deleteService faults store service).2 = None → ∀ s, (deleteService faults store service).1 !! keyOfService service = Some s →
      S_Deleting s = true ∧ ownedByUID s (VN_UID node) = true) as Hgone.
    { unfold deleteService. destruct (faults _); [done|]. intros _ s.
      destruct (bool_decide (S_Finalizers service = [])); cbn; [by rewrite lookup_delete_eq|].
      rewrite lookup_insert_eq. by intros [= <-]. }
    destruct (deleteService faults store service) as [store1 [e|]]; cbn in *; [by split|]. specialize (Hgone eq_refl).
    destruct (IH store1) as [H1 H2]; [by apply Hresp| |].
    { intros s Hs s' Hs'. destruct (decide (keyOfService s = keyOfService service)) as [Hk|Hk].
      - right. apply Hgone. by rewrite <- Hk.
      - rewrite Hother in Hs' by done. apply (Hsame s ltac:(by right) s' Hs'). }
    split; [by eapply respects_trans|]. intros He k s Hs. destruct (H2 He k s Hs) as [H|[Hl H]]; [by left|].
    destruct (decide (k = keyOfService service)) as [->|Hk]; [left; by apply Hgone|]. rewrite Hother in Hl by done. right. split; [done|].
    intros [->|Hin]%elem_of_cons; [|auto]. exfalso. apply Hk. symmetry. by apply Hwf.
Qed.

(** the alias pass keeps to its own Services.  Whatever requests the API server refuses, a
    Service that the Node does not own is exactly as it was, even one under the name of an
    alias; and when the pass succeeds, every alias Service of the Node under a name it does
    not declare is gone or being deleted. *)
Theorem alias_services_confined store store' e :
  wfServices store →
  reconcileDirectAliasServices faults storedAs setOwnerReference config store node primaryNode = (store', e) →
  (∀ k s, store !! k = Some s → ownedByUID s (VN_UID node) = false → store' !! k = Some s)
  ∧ (e = None → ∀ name s, store' !! (VN_Namespace node, name) = Some s → ownedByUID s (VN_UID node) = true →
       S_Labels s !! LabelTopologyNode = Some (VN_Name node) → S_Labels s !! LabelTopologyServiceType = Some TopologyServiceTypeAlias →
       name ∉ VN_Aliases node → S_Deleting s = true).
Proof.
  intros Hwf. unfold reconcileDirectAliasServices. pose proof (aliasLoop_respects (VN_Aliases node) store Hwf) as Hloop.
  destruct (aliasLoop _ _ _ _ _ _ _ _) as [store1 [e1|]]; cbn in *.
  { intros [= <- <-]. split; [|done]. by apply Hloop. }
  destruct (Hloop Hwf) as [Hwf1 Hkeep]. unfold pruneDirectAliasServices. destruct (faults _).
  { intros [= <- <-]. by split. }
  set (services := listServices _ _ _). intros Hp.
  assert (∀ s, s ∈ services ↔ ∃ k, store1 !! k = Some s ∧ k.1 = VN_Namespace node
    ∧ {[LabelTopologyNode := VN_Name node; LabelTopologyServiceType := TopologyServiceTypeAlias]} ⊆ S_Labels s) as Hin.
  { intros s. unfold services, listServices. rewrite list_elem_of_fmap. split.
    - intros ([k s'] & -> & [[Hn Hl] H%elem_of_map_to_list]%list_elem_of_filter). by exists k.
    - intros (k & H & Hn & Hl). exists (k, s). split; [done|]. apply list_elem_of_filter. split; [done|]. by apply elem_of_map_to_list. }
  destruct (servicePruneLoop_spec (VN_Aliases node) services store1 Hwf1) as [H1 H2].
  { intros s (k & Hk & _)%Hin s' Hs'. left. rewrite (Hwf1 _ _ Hk) in Hs'. congruence. }
  rewrite Hp in H1, H2. cbn in H1, H2. destruct (H1 Hwf1) as [_ H1']. split; [eauto|].
  intros -> name s Hs Ho Hl1 Hl2 Hn. destruct (H2 eq_refl _ _ Hs) as [H|[Hs1 H]]; [done|].
  destruct H as [H|H].
  - apply Hin. exists (VN_Namespace node, name). split_and!; [done..|].
    apply map_subseteq_spec. intros k v. rewrite lookup_insert_Some, lookup_singleton_Some. intros [[<- <-]|[_ [<- <-]]]; done.
  - pose proof (Hwf1 _ _ Hs1) as [= _ Hname]. rewrite Hname in H. done.
  - congruence.
Qed.
End aliases.

(** ** Services of a Node: concrete Nodes

    The theorems above for concrete Nodes, and what the fabric pass does to
    a Service of another Node that has the name it needs. *)

#[local] Existing Instance insertion_sort.
#[local] Existing Instance portOrder.

Definition noMetadata : gmap string string * gmap string string := (∅, ∅).
Definition allocating (s : Service) : Service := s <| S_ClusterIPs := ["10.0.0.1"] |>.
Definition addingOwner (uid : string) (s : Service) : option Service := Some (s <| S_OwnerUIDs := S_OwnerUIDs s ++ [uid] |>).

Lemma allocating_lawful : lawfulAdmit allocating.
Proof. by constructor. Qed.
Lemma addingOwner_lawful : lawfulOwner addingOwner.
Proof. intros uid s s' [= <-] ->. done. Qed.

Definition plainNode (name uid : string) (aliases : list string) : ServiceNode :=
  MkServiceNode name "lab" uid ∅ aliases (MkExposeNode uid [] []).

(** The Service was not headless before. *)
Definition wireRendered : Service := RenderDirectFabricService noMetadata (plainNode "r2" "uid-2" []) "r1".
Definition oldService : Service :=
  wireRendered <| S_ClusterIP := "10.0.0.7" |> <| S_OwnerUIDs := ["uid-2"] |>.
Definition oldStore : gmap (string * string) Service := {[ ("lab", "r2-wire") := oldService ]}.
Definition fabricPass (store : gmap (string * string) Service) : gmap (string * string) Service :=
  (reconcileRenderedFabricService noServiceFaults allocating addingOwner store (plainNode "r2" "uid-2" []) wireRendered).1.

Lemma node_services_converge_witness :
  fabricPass oldStore !! ("lab", "r2-wire") = None
  ∧ ∃ s, fabricPass (fabricPass oldStore) !! ("lab", "r2-wire") = Some s ∧ serviceIsHeadless s = true.
Proof.
  split; [vm_compute; reflexivity|].
  destruct (node_services_converge allocating addingOwner noMetadata sharingPlan sharingProfile ["r1"; "r2"] sharingNodes
    (plainNode "r2" "uid-2" []) "r1" wireRendered (wireRendered <| S_OwnerUIDs := ["uid-2"] |>) oldStore) as [Hconverge _].
  - exact allocating_lawful.
  - exact addingOwner_lawful.
  - exact sharing_identified.
  - unfold oldStore. intros k s [<- <-]%lookup_singleton_Some. vm_compute. reflexivity.
  - constructor.
  - vm_compute. reflexivity.
  - destruct Hconverge as [(s & Hs & Hc) _]; [unfold oldStore; intros s [[_ <-]%lookup_singleton_Some _]; split; vm_compute; reflexivity|].
    exists s. split; [exact Hs|]. unfold serviceConforms in Hc. rewrite !andb_true_iff in Hc.
    destruct Hc as [[[[[[[[[_ _] Hh] _] _] _] _] _] _] _]. apply eqb_prop in Hh. rewrite Hh. vm_compute. reflexivity.
Defined.

(** The Node declares an alias under which somebody else has a Service, and gave up another. *)
Definition renamedNode : ServiceNode := plainNode "r3" "uid-3" ["taken"].
Definition foreignService : Service := RenderDirectAliasService noMetadata (plainNode "r9" "uid-9" []) "r9" "taken" <| S_OwnerUIDs := ["uid-9"] |>.
Definition formerAlias : Service := RenderDirectAliasService noMetadata renamedNode "r3" "gone" <| S_OwnerUIDs := ["uid-3"] |>.
Definition aliasStore : gmap (string * string) Service := {[ ("lab", "taken") := foreignService; ("lab", "gone") := formerAlias ]}.

Lemma alias_services_confined_witness :
  (reconcileDirectAliasServices noServiceFaults allocating addingOwner noMetadata aliasStore renamedNode "r3").2 = Some (aliasCollides "taken")
  ∧ (reconcileDirectAliasServices noServiceFaults allocating addingOwner noMetadata aliasStore renamedNode "r3").1 !! ("lab", "taken")
    = Some foreignService.
Proof.
  split; [vm_compute; reflexivity|].
  eapply (alias_services_confined noServiceFaults allocating addingOwner allocating_lawful noMetadata renamedNode "r3" aliasStore).
  - unfold aliasStore. intros k s [[<- <-]|[_ [<- <-]%lookup_singleton_Some]]%lookup_insert_Some; vm_compute; reflexivity.
  - apply surjective_pairing.
  - vm_compute. reflexivity.
  - vm_compute. reflexivity.
Defined.

(** *** A Service of another Node *)

(** A Node called r1-wire with a headless Service for its ports. *)
Definition headlessProfile : ResolvedProfile := sharingProfile <| RP_ExposeType := exposeTypeHeadless |>.
Definition wireNamedService : option Service :=
  RenderDirectExposeService noMetadata (plainNode "r1-wire" "uid-2" []) "r1-wire" headlessProfile
    (Some (MkNodeExposedPorts "" (Some [MkNodeExposedPort 22 22 "TCP"]))) None.

(** the fabric and the expose pass do not ask who owns a Service before they update it.
    The Service that exposes a Node called r1-wire has the name of the Service of the wires of
    Node r1: the pass of r1 takes it over without an error and points it at its own Pod. *)
Theorem foreign_service_overwritten :
  ∃ exposed store' s,
    wireNamedService = Some exposed
    ∧ reconcileDirectFabricService noServiceFaults allocating addingOwner noMetadata
        {[ ("lab", "r1-wire") := exposed <| S_OwnerUIDs := ["uid-2"] |> ]} (plainNode "r1" "uid-1" []) "r1" = (store', None)
    ∧ store' !! ("lab", "r1-wire") = Some s ∧ ownedByUID s "uid-2" = false ∧ ownedByUID s "uid-1" = true
    ∧ S_Selector s = podSelectorLabels "r1".
Proof. do 3 eexists. split_and!; [vm_compute; reflexivity..]. Qed.
