(* ===== verification/NodeVolumes.v ===== *)
(** * Persistent volumes of Nodes

    Models [controllers/node/persistentvolumeclaim.go], [reconcilePersistentVolumeClaim] of
    [controllers/node/reconcile.go] and the claims of a group of [controllers/node/direct.go].

    The claims of the cluster are a map.  [faults] says which requests the API server refuses
    whatever they say; [storedAs] is what it stores of a new claim, and [updatedAs] what it
    stores of an update, when it accepts it.  [ParseQuantity] is
    [resource.ParseQuantity], with the value of the quantity, and [setOwnerReference] is
    [controllerutil.SetOwnerReference]. *)

From S2P Require Import Prelude Api GoStrings GoNet DevicePlanTypes Management PlanValidation PlanInput NodeArtifacts.
From S2P Require Import NodeStatus NodeProfiles NodeExposure NodeServices.
Local Open Scope Z_scope.

Record Claim := MkClaim {
  Claim_Namespace : string;
  Claim_Name : string;
  Claim_ResourceVersion : string;
  Claim_Annotations : gmap string string;
  Claim_Labels : gmap string string;
  Claim_OwnerUIDs : list string;
  Claim_Finalizers : list string;
  Claim_Deleting : bool;
  Claim_AccessModes : list string;
  Claim_Storage : Z;
  Claim_StorageClassName : option string;
  Claim_VolumeMode : option string;
  Claim_VolumeName : string;
  Claim_Status : string
}.
#[export] Instance Claim_eq_dec : EqDecision Claim.
Proof. solve_decision. Defined.
#[export] Instance Claim_updatable : Updatable Claim :=
  λ c, MkClaim (Claim_Namespace c) (Claim_Name c) (Claim_ResourceVersion c) (Claim_Annotations c) (Claim_Labels c)
         (Claim_OwnerUIDs c) (Claim_Finalizers c) (Claim_Deleting c) (Claim_AccessModes c) (Claim_Storage c)
         (Claim_StorageClassName c) (Claim_VolumeMode c) (Claim_VolumeName c) (Claim_Status c).

Notation claimKey := (string * string)%type.
Notation claimStore := (gmap (string * string) Claim).
Definition keyOfClaim (claim : Claim) : claimKey := (Claim_Namespace claim, Claim_Name claim).
Definition claimKeyOf (node : ServiceNode) : claimKey := (VN_Namespace node, VN_Name node).

(** ** Rendering and comparing *)

(** 512Mi. *)
Definition defaultClaimSize : Z := 512 * 1024 * 1024.

Section claims.
Context (config : gmap string string * gmap string string) (ParseQuantity : string → option Z).

Definition claimSize (persistence : Persistence) : Z :=
  if empty (Persistence_ClaimSize persistence) then defaultClaimSize
  else default defaultClaimSize (ParseQuantity (Persistence_ClaimSize persistence)).

Definition claimClass (persistence : Persistence) : option string :=
  if empty (Persistence_StorageClassName persistence) then None else Some (Persistence_StorageClassName persistence).

(** [PersistentVolumeClaimReconciler.Render] *)
Definition renderClaim (node : ServiceNode) (profile : ResolvedProfile) (existing : option Claim) : Claim :=
  let name := match existing with None => VN_Name node | Some existing => Claim_Name existing end in
  let labels : gmap string string :=
    {[ LabelApp := Clabernetes; LabelName := VN_Name node; LabelTopologyNode := VN_Name node ]} in
  let labels := config.2 ∪ labels in
  let labels := match VN_Labels node !! LabelTopologyOwner with
                | None => labels
                | Some owner => <[LabelTopologyOwner := owner]> labels
                end in
  MkClaim (VN_Namespace node) name "" config.1 labels [] [] false ["ReadWriteOnce"] (claimSize (RP_Persistence profile))
    (claimClass (RP_Persistence profile)) (Some "Filesystem")
    (match existing with None => "" | Some existing => Claim_VolumeName existing end) "".

(** [PersistentVolumeClaimReconciler.Conforms] *)
Definition claimConforms (existing rendered : Claim) (expectedOwnerUID : string) (retain : bool) : bool :=
  negb (Claim_Storage existing <? Claim_Storage rendered)
  && ExistingMapStringStringContainsAllExpectedKeyValues (Claim_Annotations existing) (Claim_Annotations rendered)
  && ExistingMapStringStringContainsAllExpectedKeyValues (Claim_Labels existing) (Claim_Labels rendered)
  && if retain then bool_decide (Claim_OwnerUIDs existing = [])
     else match Claim_OwnerUIDs existing with [uid] => bool_decide (uid = expectedOwnerUID) | _ => false end.

Definition AdoptionCompatible (existing rendered : Claim) : bool :=
  let renderedStorageClass := default "" (Claim_StorageClassName rendered) in
  let existingStorageClass := default "" (Claim_StorageClassName existing) in
  negb (negb (empty renderedStorageClass) && negb (bool_decide (existingStorageClass = renderedStorageClass))).

(** ** Reconciling *)

Inductive claimCall :=
| GetClaim (k : claimKey)
| CreateClaim (k : claimKey)
| UpdateClaim (k : claimKey)
| DeleteClaim (k : claimKey).

Inductive claimError :=
| claimOwnerReferenceFailed
| claimCallFailed (call : claimCall)
| retainedClaimIncompatible (k : claimKey)
| memberUnresolved (e : PlanError)
| memberClaimFailed (member : claimKey) (e : claimError).

Context (faults : claimCall → bool) (storedAs : Claim → Claim) (updatedAs : Claim → Claim → option Claim).
Context (setOwnerReference : string → Claim → option Claim).

Definition claimOwnedByUID (claim : Claim) (uid : string) : bool := existsb (λ o, bool_decide (o = uid)) (Claim_OwnerUIDs claim).

Definition getExistingPersistentVolumeClaim (store : claimStore) (node : ServiceNode) : result claimError (option Claim) :=
  let k := claimKeyOf node in
  if faults (GetClaim k) then Err (claimCallFailed (GetClaim k)) else Ok (store !! k).
Definition createClaim (store : claimStore) (rendered : Claim) : claimStore * result claimError string :=
  let k := keyOfClaim rendered in
  if faults (CreateClaim k) then (store, Err (claimCallFailed (CreateClaim k)))
  else (<[k := storedAs rendered]> store, Ok (Claim_Name rendered)).
Definition putClaim (store : claimStore) (existing updated : Claim) : claimStore * result claimError string :=
  let k := keyOfClaim updated in
  let refused := (store, Err (claimCallFailed (UpdateClaim k))) in
  if faults (UpdateClaim k) then refused
  else match updatedAs existing updated with
       | None => refused
       | Some stored => (<[k := stored]> store, Ok (Claim_Name updated))
       end.
(** A claim with finalizers stays until they are gone. *)
Definition deleteClaim (store : claimStore) (existing : Claim) : claimStore * result claimError string :=
  let k := keyOfClaim existing in
  if faults (DeleteClaim k) then (store, Err (claimCallFailed (DeleteClaim k)))
  else (if bool_decide (Claim_Finalizers existing = []) then delete k store
        else <[k := existing <| Claim_Deleting := true |>]> store, Ok "").

(** [deleteIfOwned] for a claim. *)
Definition deleteClaimIfOwned (store : claimStore) (node : ServiceNode) : claimStore * result claimError string :=
  match getExistingPersistentVolumeClaim store node with
  | Err e => (store, Err e)
  | Ok None => (store, Ok "")
  | Ok (Some existing) =>
      if Claim_Deleting existing then (store, Ok "")
      else if claimOwnedByUID existing (VN_UID node) then deleteClaim store existing
      else (store, Ok "")
  end.

Definition retains (profile : ResolvedProfile) : bool :=
  bool_decide (Persistence_Reclaim (RP_Persistence profile) = PersistenceReclaimRetain).

(** A retained claim has no owner. *)
Definition ownClaim (profile : ResolvedProfile) (node : ServiceNode) (rendered : Claim) : option Claim :=
  if retains profile then Some rendered else setOwnerReference (VN_UID node) rendered.

Definition reconcilePersistentVolumeClaim (store : claimStore) (node : ServiceNode) (profile : ResolvedProfile) :
    claimStore * result claimError string :=
  if negb (Persistence_Enabled (RP_Persistence profile)) then deleteClaimIfOwned store node
  else
    match getExistingPersistentVolumeClaim store node with
    | Err e => (store, Err e)
    | Ok None =>
        match ownClaim profile node (renderClaim node profile None) with
        | None => (store, Err claimOwnerReferenceFailed)
        | Some rendered => createClaim store rendered
        end
    | Ok (Some existing) =>
        match ownClaim profile node (renderClaim node profile (Some existing)) with
        | None => (store, Err claimOwnerReferenceFailed)
        | Some rendered =>
            if negb (claimOwnedByUID existing (VN_UID node)) && negb (AdoptionCompatible existing rendered)
            then (store, Err (retainedClaimIncompatible (keyOfClaim existing)))
            else if claimConforms existing rendered (VN_UID node) (retains profile) then (store, Ok (Claim_Name existing))
            else putClaim store existing (rendered <| Claim_ResourceVersion := Claim_ResourceVersion existing |>
                                                   <| Claim_Status := Claim_Status existing |>)
        end
    end.

(** The claims of a group, by the UIDs of its members. *)
Fixpoint reconcileDirectPersistentVolumeClaims (store : claimStore) (groupMembers : list string)
    (nodesByName : gmap string ServiceNode) (profile : ResolvedProfile) (result : gmap string string) :
    claimStore * Prelude.result claimError (gmap string string) :=
  match groupMembers with
  | [] => (store, Ok result)
  | memberName :: groupMembers =>
      let unresolved := (store, Err (memberUnresolved (planInputError ErrorMissingInput ("nodes." +:+ memberName)
                           "persistent direct workload member identity is unresolved"))) in
      match nodesByName !! memberName with
      | None => unresolved
      | Some member =>
          if empty (VN_UID member) then unresolved
          else
            match reconcilePersistentVolumeClaim store member profile with
            | (store, Err e) => (store, Err (memberClaimFailed (claimKeyOf member) e))
            | (store, Ok claimName) =>
                reconcileDirectPersistentVolumeClaims store groupMembers nodesByName profile
                  (if empty claimName then result else <[VN_UID member := claimName]> result)
            end
      end
  end.
End claims.
