(* ===== verification/NodeVolumesTheorems.v ===== *)
(** * Persistent volumes of Nodes: what becomes of the data

    A claim with the Retain policy outlives passes over its Node, the deletion of the Node and
    its return under another identity; a pass that succeeds leaves a claim that conforms; and
    an update that would change what the API server does not let change is refused for ever. *)

From S2P Require Import Prelude Api GoStrings CompilerDiagnostics CompilerDefinition CompilerPorts GoNet.
From S2P Require Import DevicePlanTypes Management GoSort PlanValidation PlanInput NodeArtifacts NodeStatus.
From S2P Require Import NodeProfiles NodeExposure NodeExposureTheorems NodeServices NodeServicesTheorems.
From S2P Require Import NodeVolumes.
Local Open Scope Z_scope.

Definition wfClaims (store : claimStore) : Prop := ∀ k c, store !! k = Some c → keyOfClaim c = k.

(** What is relied on of the API server: it stores the metadata and the size it is sent, fills
    in the rest of a new claim, and accepts no update that shrinks a claim or changes its class
    or volume. *)
Record lawfulClaims (storedAs : Claim → Claim) (updatedAs : Claim → Claim → option Claim) : Prop := {
  stored_claim : ∀ c, keyOfClaim (storedAs c) = keyOfClaim c ∧ Claim_Annotations (storedAs c) = Claim_Annotations c
    ∧ Claim_Labels (storedAs c) = Claim_Labels c ∧ Claim_OwnerUIDs (storedAs c) = Claim_OwnerUIDs c
    ∧ Claim_Storage (storedAs c) = Claim_Storage c;
  stored_class : ∀ c class, Claim_StorageClassName c = Some class → Claim_StorageClassName (storedAs c) = Some class;
  updated_claim : ∀ e u c, updatedAs e u = Some c →
    keyOfClaim c = keyOfClaim u ∧ Claim_Annotations c = Claim_Annotations u ∧ Claim_Labels c = Claim_Labels u
    ∧ Claim_OwnerUIDs c = Claim_OwnerUIDs u ∧ Claim_Storage c = Claim_Storage u ∧ Claim_Deleting c = Claim_Deleting e
    ∧ Claim_VolumeName c = Claim_VolumeName e ∧ Claim_StorageClassName c = Claim_StorageClassName e;
  updated_immutable : ∀ e u c, updatedAs e u = Some c →
    Claim_Storage e ≤ Claim_Storage u ∧ Claim_StorageClassName u = Claim_StorageClassName e
}.
Definition lawfulClaimOwner (setOwnerReference : string → Claim → option Claim) : Prop :=
  ∀ uid c c', setOwnerReference uid c = Some c' → Claim_OwnerUIDs c = [] → c' = c <| Claim_OwnerUIDs := [uid] |>.

Section volumes.
Context (config : gmap string string * gmap string string) (ParseQuantity : string → option Z).
Context (storedAs : Claim → Claim) (updatedAs : Claim → Claim → option Claim) (setOwnerReference : string → Claim → option Claim).
Context (Hserver : lawfulClaims storedAs updatedAs) (Howner : lawfulClaimOwner setOwnerReference).

Notation pass faults := (reconcilePersistentVolumeClaim config ParseQuantity faults storedAs updatedAs setOwnerReference).
Notation render := (renderClaim config ParseQuantity).
Definition noClaimFaults : claimCall → bool := λ _, false.

(** ** What a pass does *)

(** The claim as it is sent: who owns it is the only thing that is added. *)
Definition ownedClaim (node : ServiceNode) (profile : ResolvedProfile) (existing : option Claim) : Claim :=
  render node profile existing <| Claim_OwnerUIDs := if retains profile then [] else [VN_UID node] |>.

Lemma ownClaim_Some profile node existing rendered :
  ownClaim setOwnerReference profile node (render node profile existing) = Some rendered →
  rendered = ownedClaim node profile existing.
Proof.
  unfold ownClaim, ownedClaim. destruct (retains profile); [by intros [= <-]|].
  intros H. by apply (Howner _ _ _ H).
Qed.

Lemma rendered_key node profile existing :
  (∀ c, existing = Some c → keyOfClaim c = claimKeyOf node) → keyOfClaim (ownedClaim node profile existing) = claimKeyOf node.
Proof.
  unfold ownedClaim, renderClaim, keyOfClaim, claimKeyOf. cbn. destruct existing as [c|]; [|done].
  intros H. specialize (H c eq_refl). unfold keyOfClaim in H. congruence.
Qed.

Lemma conforms_iff existing rendered uid retain :
  claimConforms existing rendered uid retain = true ↔
  Claim_Storage rendered ≤ Claim_Storage existing ∧ Claim_Annotations rendered ⊆ Claim_Annotations existing
  ∧ Claim_Labels rendered ⊆ Claim_Labels existing ∧ Claim_OwnerUIDs existing = (if retain then [] else [uid]).
Proof.
  unfold claimConforms. rewrite !andb_true_iff, !contains_all_spec, negb_true_iff, Z.ltb_ge.
  destruct retain; [rewrite bool_decide_eq_true; tauto|].
  assert (match Claim_OwnerUIDs existing with [o] => bool_decide (o = uid) | _ => false end = true
          ↔ Claim_OwnerUIDs existing = [uid]) as ->; [|tauto].
  destruct (Claim_OwnerUIDs existing) as [|o [|]]; [done| |done]. rewrite bool_decide_eq_true. naive_solver.
Qed.

(** Every outcome of a pass that finds persistence enabled. *)
Inductive claimOutcome (store : claimStore) (node : ServiceNode) (profile : ResolvedProfile) :
    claimStore * result claimError string → Prop :=
| claim_failed e : claimOutcome store node profile (store, Err e)
| claim_created :
    store !! claimKeyOf node = None →
    claimOutcome store node profile
      (<[claimKeyOf node := storedAs (ownedClaim node profile None)]> store, Ok (VN_Name node))
| claim_kept existing :
    store !! claimKeyOf node = Some existing →
    claimConforms existing (ownedClaim node profile (Some existing)) (VN_UID node) (retains profile) = true →
    claimOwnedByUID existing (VN_UID node) = true ∨ AdoptionCompatible existing (ownedClaim node profile None) = true →
    claimOutcome store node profile (store, Ok (VN_Name node))
| claim_updated existing updated :
    store !! claimKeyOf node = Some existing →
    updatedAs existing (ownedClaim node profile (Some existing) <| Claim_ResourceVersion := Claim_ResourceVersion existing |>
      <| Claim_Status := Claim_Status existing |>) = Some updated →
    claimOutcome store node profile (<[claimKeyOf node := updated]> store, Ok (VN_Name node)).

Lemma enabled_outcome faults store node profile :
  wfClaims store → Persistence_Enabled (RP_Persistence profile) = true →
  claimOutcome store node profile (pass faults store node profile).
Proof.
  intros Hwf He. unfold reconcilePersistentVolumeClaim, getExistingPersistentVolumeClaim. rewrite He. cbn [negb].
  destruct (faults (GetClaim _)); [constructor|].
  destruct (store !! claimKeyOf node) as [existing|] eqn:Hs; destruct (ownClaim _ _ _ _) as [rendered|] eqn:Ho;
    [|constructor| |constructor]; apply ownClaim_Some in Ho as ->.
  - pose proof (Hwf _ _ Hs) as Hk.
    assert (Claim_Name existing = VN_Name node) as Hname by (unfold keyOfClaim, claimKeyOf in Hk; congruence).
    destruct (_ && _) eqn:Ha; [constructor|]. destruct (claimConforms _ _ _ _) eqn:Hc.
    { rewrite Hname. econstructor; [done..|]. change (AdoptionCompatible existing (ownedClaim node profile (Some existing)))
        with (AdoptionCompatible existing (ownedClaim node profile None)) in Ha.
      destruct (claimOwnedByUID existing _); [by left|]. destruct (AdoptionCompatible _ _); [by right|done]. }
    unfold putClaim. destruct (faults _); [constructor|]. destruct (updatedAs _ _) as [updated|] eqn:Hu; [|constructor].
    replace (keyOfClaim _) with (claimKeyOf node) by (unfold keyOfClaim, claimKeyOf; cbn; congruence).
    replace (Claim_Name _) with (VN_Name node) by done. by econstructor.
  - unfold createClaim. destruct (faults _); [constructor|]. rewrite rendered_key by done. by constructor.
Qed.

Lemma disabled_outcome faults store node profile :
  wfClaims store → Persistence_Enabled (RP_Persistence profile) = false →
  ∀ k c, store !! k = Some c → k ≠ claimKeyOf node ∨ claimOwnedByUID c (VN_UID node) = false →
  (pass faults store node profile).1 !! k = Some c.
Proof.
  intros Hwf He k c Hc Hk. unfold reconcilePersistentVolumeClaim, deleteClaimIfOwned, getExistingPersistentVolumeClaim.
  rewrite He. cbn [negb]. destruct (faults _); [done|]. destruct (store !! claimKeyOf node) as [existing|] eqn:Hs; [|done].
  destruct (Claim_Deleting existing); [done|]. destruct (claimOwnedByUID existing _) eqn:Ho; [|done].
  assert (k ≠ claimKeyOf node) as Hne by (destruct Hk as [?|Hk]; [done|]; intros ->; congruence).
  unfold deleteClaim. rewrite (Hwf _ _ Hs). destruct (faults _); [done|].
  case_bool_decide; cbn; [by rewrite lookup_delete_ne|by rewrite lookup_insert_ne].
Qed.

(** ** Retained claims *)

(** What can happen to the claims while every pass over the Node of [k] keeps its data: passes
    over any Node with any faults, a volume that is bound, the garbage collector that removes
    what only dead objects own, and a finalizer that lets go of a deleted claim. *)
Inductive claimStep (k : claimKey) : claimStore → claimStore → Prop :=
| pass_step faults node profile store :
    (claimKeyOf node = k → Persistence_Enabled (RP_Persistence profile) = false ∨ retains profile = true) →
    claimStep k store (pass faults store node profile).1
| bind_step other c volume store :
    store !! other = Some c → Claim_VolumeName c = "" →
    claimStep k store (<[other := c <| Claim_VolumeName := volume |>]> store)
| collect_step (live : gset string) store :
    claimStep k store (filter (λ kv, Claim_OwnerUIDs kv.2 = [] ∨ Exists (.∈ live) (Claim_OwnerUIDs kv.2)) store)
| finalized_step other c store :
    store !! other = Some c → Claim_Deleting c = true → claimStep k store (delete other store).

(** The claim [c] is still what it was. *)
Definition survives (k : claimKey) (c : Claim) (store : claimStore) : Prop :=
  wfClaims store ∧ ∃ c', store !! k = Some c' ∧ Claim_OwnerUIDs c' = [] ∧ Claim_Deleting c' = false
  ∧ (Claim_VolumeName c ≠ "" → Claim_VolumeName c' = Claim_VolumeName c) ∧ Claim_Storage c ≤ Claim_Storage c'
  ∧ Claim_StorageClassName c' = Claim_StorageClassName c.

Lemma wf_insert store k c : wfClaims store → keyOfClaim c = k → wfClaims (<[k := c]> store).
Proof. intros Hwf Hk k' c' [[<- <-]|[_ ?]]%lookup_insert_Some; eauto. Qed.
Lemma wf_delete store k : wfClaims store → wfClaims (delete k store).
Proof. intros Hwf k' c' [_ ?]%lookup_delete_Some. eauto. Qed.

Lemma pass_wf faults store node profile : wfClaims store → wfClaims (pass faults store node profile).1.
Proof.
  intros Hwf. destruct (Persistence_Enabled (RP_Persistence profile)) eqn:He.
  - destruct (enabled_outcome faults store node profile Hwf He) as [e|Hn|existing Hs Hc Ha|existing updated Hs Hu]; cbn; [done| |done|].
    + apply wf_insert; [done|]. rewrite (proj1 (stored_claim _ _ Hserver _)). by apply rendered_key.
    + apply wf_insert; [done|]. destruct (updated_claim _ _ Hserver _ _ _ Hu) as [-> _].
      apply (rendered_key node profile (Some existing)). intros ? [= <-]. eauto.
  - unfold reconcilePersistentVolumeClaim, deleteClaimIfOwned, getExistingPersistentVolumeClaim, deleteClaim. rewrite He. cbn [negb].
    destruct (faults _); [done|]. destruct (store !! claimKeyOf node) as [existing|] eqn:Hs; [|done].
    destruct (Claim_Deleting existing); [done|]. destruct (claimOwnedByUID existing _); [|done].
    destruct (faults _); [done|]. case_bool_decide; cbn; [by apply wf_delete|by apply wf_insert].
Qed.

Lemma pass_survives k c faults store node profile :
  (claimKeyOf node = k → Persistence_Enabled (RP_Persistence profile) = false ∨ retains profile = true) →
  survives k c store → survives k c (pass faults store node profile).1.
Proof.
  intros Hallowed [Hwf (c' & Hc' & Ho & Hd & Hv & Hst & Hcl)]. split; [by apply pass_wf|].
  destruct (Persistence_Enabled (RP_Persistence profile)) eqn:He.
  - destruct (decide (claimKeyOf node = k)) as [Hk|Hk].
    + destruct (Hallowed Hk) as [|Hr]; [congruence|].
      destruct (enabled_outcome faults store node profile Hwf He) as [e|Hn|existing Hs Hc Ha|existing updated Hs Hu]; cbn;
        [by eauto 10|congruence|by eauto 10|].
      rewrite Hk in *. assert (existing = c') as -> by congruence.
      pose proof (updated_claim _ _ Hserver _ _ _ Hu) as (_ & _ & _ & Ho' & Hst' & Hd' & Hv' & Hcl').
      pose proof (updated_immutable _ _ Hserver _ _ _ Hu) as [Hle _]. cbn in *.
      exists updated. rewrite lookup_insert_eq. split_and!; [done| | | | |congruence].
      * rewrite Ho'. cbn. by rewrite Hr.
      * congruence.
      * intros Hne. rewrite Hv'. auto.
      * rewrite Hst'. lia.
    + exists c'. split_and!; [|done..].
      destruct (enabled_outcome faults store node profile Hwf He); cbn; try rewrite lookup_insert_ne by done; done.
  - exists c'. split_and!; [|done..]. apply disabled_outcome; [done..|]. right. unfold claimOwnedByUID. by rewrite Ho.
Qed.

Lemma step_survives k c store store' : claimStep k store store' → survives k c store → survives k c store'.
Proof.
  intros [faults node profile st Hp|other c0 volume st Hc0 Hv0|live st|other c0 st Hc0 Hd0] Hs; [by apply pass_survives|..];
    destruct Hs as [Hwf (c' & Hc' & Ho & Hd & Hv & Hst & Hcl)].
  - split; [apply wf_insert; [done|]; exact (Hwf _ _ Hc0)|]. destruct (decide (other = k)) as [->|Hne].
    + rewrite lookup_insert_eq. assert (c0 = c') as -> by congruence. eexists. split_and!; [done..| |done|done].
      intros Hn. specialize (Hv Hn). congruence.
    + rewrite lookup_insert_ne by done. eauto 10.
  - split; [intros k' c0 [? _]%map_lookup_filter_Some; eauto|].
    exists c'. split_and!; [|done..]. apply map_lookup_filter_Some. split; [done|]. by left.
  - split; [by apply wf_delete|]. assert (other ≠ k) by (intros ->; congruence). rewrite lookup_delete_ne by done. eauto 10.
Qed.

(** C36: a retained volume is not lost.  A claim nobody owns stays as long as the profiles of its
    Node have persistence off or the Retain policy, through any passes over any Nodes, whatever
    requests fail, the deletion of the Node and its garbage collection, and the passes of a new
    Node of the name: it keeps its volume, its storage class and its size or more. *)
Theorem retained_volume_survives k c store store' :
  wfClaims store → store !! k = Some c → Claim_OwnerUIDs c = [] → Claim_Deleting c = false →
  rtc (claimStep k) store store' →
  ∃ c', store' !! k = Some c' ∧ (Claim_VolumeName c ≠ "" → Claim_VolumeName c' = Claim_VolumeName c)
  ∧ Claim_Storage c ≤ Claim_Storage c' ∧ Claim_StorageClassName c' = Claim_StorageClassName c
  ∧ Claim_OwnerUIDs c' = [] ∧ Claim_Deleting c' = false.
Proof.
  intros Hwf Hc Ho Hd Hsteps. assert (survives k c store) as Hs by (split; [done|]; exists c; split_and!; [done..|lia|done]).
  assert (survives k c store') as [_ (c' & H & H1 & H2 & H3 & H4 & H5)]; [|by eauto 10].
  clear Hwf Hc. induction Hsteps as [|s1 s2 s3 H12 H23 IH]; [done|]. apply IH. by eapply step_survives.
Qed.

(** ** A pass that succeeds *)

Lemma same_class_compatible c rendered :
  (∀ class, Claim_StorageClassName rendered = Some class → Claim_StorageClassName c = Some class) → AdoptionCompatible c rendered = true.
Proof.
  unfold AdoptionCompatible. destruct (Claim_StorageClassName rendered) as [class|]; [|done].
  intros H. rewrite (H class) by done. cbn. rewrite bool_decide_eq_true_2 by done. by rewrite andb_false_r.
Qed.
Lemma created_compatible node profile :
  AdoptionCompatible (storedAs (ownedClaim node profile None)) (ownedClaim node profile None) = true.
Proof. apply same_class_compatible. intros class. apply (stored_class _ _ Hserver). Qed.
Lemma updated_compatible node profile existing version updated :
  updatedAs existing (ownedClaim node profile (Some existing) <| Claim_ResourceVersion := version |>
    <| Claim_Status := Claim_Status existing |>) = Some updated →
  AdoptionCompatible updated (ownedClaim node profile None) = true.
Proof.
  intros Hu. apply same_class_compatible. destruct (updated_claim _ _ Hserver _ _ _ Hu) as (_ & _ & _ & _ & _ & _ & _ & ->).
  destruct (updated_immutable _ _ Hserver _ _ _ Hu) as [_ <-]. done.
Qed.

(** a pass that succeeds leaves the claim the profile asks for.  Persistence is on: whatever
    requests could have failed, when the pass returns, it returns the name of a claim that is
    stored, is at least as large as asked for, has the labels and annotations of the Node, and
    is owned by the Node alone, or by nobody under the Retain policy; every other claim is as
    it was, and a further pass returns the same and changes nothing. *)
Theorem claim_settled faults store store' node profile name :
  wfClaims store → Persistence_Enabled (RP_Persistence profile) = true →
  pass faults store node profile = (store', Ok name) →
  ∃ c, store' !! (VN_Namespace node, name) = Some c ∧ claimSize ParseQuantity (RP_Persistence profile) ≤ Claim_Storage c
  ∧ config.1 ⊆ Claim_Annotations c ∧ Claim_Labels (render node profile None) ⊆ Claim_Labels c
  ∧ Claim_OwnerUIDs c = (if retains profile then [] else [VN_UID node])
  ∧ (∀ k, k ≠ claimKeyOf node → store' !! k = store !! k)
  ∧ ((∀ uid c, is_Some (setOwnerReference uid c)) → pass noClaimFaults store' node profile = (store', Ok name)).
Proof.
  intros Hwf He Hp. pose proof (pass_wf faults store node profile Hwf) as Hwf'. rewrite Hp in Hwf'. cbn in Hwf'.
  pose proof (enabled_outcome faults store node profile Hwf He) as Hout. rewrite Hp in Hout.
  assert (name = VN_Name node ∧ (∀ k, k ≠ claimKeyOf node → store' !! k = store !! k) ∧ ∃ c, store' !! claimKeyOf node = Some c
    ∧ claimConforms c (ownedClaim node profile (Some c)) (VN_UID node) (retains profile) = true
    ∧ (retains profile = true → AdoptionCompatible c (ownedClaim node profile None) = true)) as (-> & Hother & c & Hc & Hconf & Hadopt).
  { inversion Hout as [|Hn|existing Hs Hc Ha|existing updated Hs Hu]; subst; (split; [done|]).
    - split; [intros k Hk; by rewrite lookup_insert_ne|]. rewrite lookup_insert_eq. eexists. split; [done|]. split; [|intros _; by apply created_compatible]. apply conforms_iff.
      destruct (stored_claim _ _ Hserver (ownedClaim node profile None)) as (_ & -> & -> & -> & ->). cbn. split_and!; done.
    - split; [done|]. exists existing. split_and!; [done..|]. intros Hr. rewrite Hr in Hc. apply conforms_iff in Hc as (_ & _ & _ & Ho).
      destruct Ha as [Ha|Ha]; [|done]. unfold claimOwnedByUID in Ha. by rewrite Ho in Ha.
    - split; [intros k Hk; by rewrite lookup_insert_ne|]. rewrite lookup_insert_eq. eexists. split; [done|].
      split; [|intros _; apply (updated_compatible _ _ _ _ _ Hu)]. apply conforms_iff.
      destruct (updated_claim _ _ Hserver _ _ _ Hu) as (_ & -> & -> & -> & -> & _). cbn. split_and!; done. }
  pose proof Hconf as (H1 & H2 & H3 & H4)%conforms_iff. exists c. split_and!; [done..|].
  intros Hset. unfold reconcilePersistentVolumeClaim, getExistingPersistentVolumeClaim. rewrite He, Hc. cbn [negb noClaimFaults].
  assert (ownClaim setOwnerReference profile node (render node profile (Some c)) = Some (ownedClaim node profile (Some c))) as Ho.
  { destruct (ownClaim setOwnerReference _ _ _) eqn:Ho; [by rewrite (ownClaim_Some _ _ _ _ Ho)|].
    unfold ownClaim in Ho. destruct (retains profile); [done|]. destruct (Hset (VN_UID node) (render node profile (Some c))). congruence. }
  rewrite Ho, Hconf. replace (Claim_Name c) with (VN_Name node) by (pose proof (Hwf' _ _ Hc); unfold keyOfClaim, claimKeyOf in *; congruence).
  destruct (retains profile) eqn:Hr.
  - change (AdoptionCompatible c _) with (AdoptionCompatible c (ownedClaim node profile None)). rewrite Hadopt by done. by rewrite andb_false_r.
  - unfold claimOwnedByUID. rewrite H4. cbn. by rewrite bool_decide_eq_true_2.
Qed.

(** ** Updates that cannot succeed *)

(** a claim cannot be changed in two cases in which the code tries to.  When the profile
    names no storage class, the update that enlarges a claim or changes its metadata names none
    either, so a claim that was given the cluster's default class can never be updated; and
    when the metadata changes of a claim that is larger than asked for, the update asks to
    shrink it.  Every pass fails and leaves the claim as it is. *)
Theorem claim_update_refused faults store node profile existing :
  wfClaims store → Persistence_Enabled (RP_Persistence profile) = true → store !! claimKeyOf node = Some existing →
  claimConforms existing (ownedClaim node profile (Some existing)) (VN_UID node) (retains profile) = false →
  (Persistence_StorageClassName (RP_Persistence profile) = "" ∧ is_Some (Claim_StorageClassName existing))
  ∨ claimSize ParseQuantity (RP_Persistence profile) < Claim_Storage existing →
  ∃ e, pass faults store node profile = (store, Err e).
Proof.
  intros Hwf He Hs Hc Hwhy. pose proof (enabled_outcome faults store node profile Hwf He) as Hout.
  destruct Hout as [e|Hn|existing' Hs' Hc' Ha'|existing' updated Hs' Hu]; [by exists e|congruence..|].
  exfalso. assert (existing' = existing) as -> by congruence.
  destruct (updated_immutable _ _ Hserver _ _ _ Hu) as [Hle Hcl]. cbn in Hle, Hcl.
  destruct Hwhy as [[Hempty [class Hclass]]|Hlt]; [|lia].
  unfold claimClass in Hcl. rewrite Hempty, Hclass in Hcl. done.
Qed.
End volumes.

(** ** Persistent volumes of Nodes: concrete claims

    The theorems above for concrete claims. *)

(** A server that gives claims without a class the default one, and refuses to shrink a claim
    or to change its class. *)
Definition classing (c : Claim) : Claim :=
  c <| Claim_StorageClassName := Some (default "standard" (Claim_StorageClassName c)) |>.
Definition immutableSpec (e u : Claim) : option Claim :=
  if bool_decide (Claim_Storage e ≤ Claim_Storage u) && bool_decide (Claim_StorageClassName u = Claim_StorageClassName e)
  then Some (u <| Claim_Deleting := Claim_Deleting e |> <| Claim_VolumeName := Claim_VolumeName e |>) else None.
Definition addingClaimOwner (uid : string) (c : Claim) : option Claim := Some (c <| Claim_OwnerUIDs := Claim_OwnerUIDs c ++ [uid] |>).
Definition gigabytes (text : string) : option Z := if bool_decide (text = "2Gi") then Some (2 * 2 ^ 30) else None.

Lemma classing_lawful : lawfulClaims classing immutableSpec.
Proof.
  constructor; [by intros []|by intros [] class; cbn; intros ->|..]; intros e u c; unfold immutableSpec;
    case_bool_decide; [|done|..]; cbn; try done; case_bool_decide as Hc; cbn; try done; intros [= <-]; split_and!; cbn; congruence || done.
Qed.
Lemma addingClaimOwner_lawful : lawfulClaimOwner addingClaimOwner.
Proof. intros uid c c' [= <-] ->. done. Qed.

Definition persistent (claimSize class reclaim : string) : ResolvedProfile :=
  sharingProfile <| RP_Persistence := MkPersistence true claimSize class reclaim |>.
Definition retaining : ResolvedProfile := persistent "" "fast" PersistenceReclaimRetain.
Definition noPersistenceProfile : ResolvedProfile := sharingProfile <| RP_Persistence := noPersistence |>.
Definition volumePass (store : gmap (string * string) Claim) (node : ServiceNode) (profile : ResolvedProfile) :=
  reconcilePersistentVolumeClaim noMetadata gigabytes noClaimFaults classing immutableSpec addingClaimOwner store node profile.

(** The claim of r1 is made and bound; r1 is deleted and made anew, without persistence at
    first. *)
Definition firstNode : ServiceNode := plainNode "r1" "uid-1" [].
Definition secondNode : ServiceNode := plainNode "r1" "uid-2" [].
Definition boundStore : gmap (string * string) Claim :=
  match (volumePass ∅ firstNode retaining).1 !! ("lab", "r1") with
  | None => ∅
  | Some c => {[ ("lab", "r1") := c <| Claim_VolumeName := "pv-7" |> ]}
  end.
Definition collected (store : gmap (string * string) Claim) : gmap (string * string) Claim :=
  filter (λ kv, Claim_OwnerUIDs kv.2 = [] ∨ Exists (.∈ ({["uid-9"]} : gset string)) (Claim_OwnerUIDs kv.2)) store.
Definition returnedStore : gmap (string * string) Claim :=
  (volumePass (volumePass (collected boundStore) secondNode noPersistenceProfile).1 secondNode retaining).1.

Lemma retained_volume_survives_witness :
  ∃ c, returnedStore !! ("lab", "r1") = Some c ∧ Claim_VolumeName c = "pv-7".
Proof.
  destruct (boundStore !! ("lab", "r1")) as [c|] eqn:Hc; [|vm_compute in Hc; discriminate].
  destruct (retained_volume_survives noMetadata gigabytes classing immutableSpec addingClaimOwner classing_lawful addingClaimOwner_lawful
    ("lab", "r1") c boundStore returnedStore) as (c' & Hc' & Hv & _).
  - intros k s. unfold boundStore. vm_compute (volumePass ∅ firstNode retaining). cbn. intros [<- <-]%lookup_singleton_Some. done.
  - done.
  - vm_compute in Hc. injection Hc as <-. done.
  - vm_compute in Hc. injection Hc as <-. done.
  - eapply rtc_l; [apply (collect_step _ _ _ _ _ _ {["uid-9"]})|]. eapply rtc_l; [apply (pass_step _ _ _ _ _ _ noClaimFaults secondNode noPersistenceProfile); intros _; left; reflexivity|].
    eapply rtc_l; [apply (pass_step _ _ _ _ _ _ noClaimFaults secondNode retaining); intros _; right; reflexivity|]. reflexivity.
  - exists c'. split; [done|]. rewrite Hv; vm_compute in Hc; injection Hc as <-; done.
Defined.

Lemma claim_settled_witness :
  ∃ c, (volumePass ∅ firstNode (persistent "2Gi" "" "")).1 !! ("lab", "r1") = Some c ∧ 2 * 2 ^ 30 ≤ Claim_Storage c ∧ Claim_OwnerUIDs c = ["uid-1"].
Proof.
  destruct (claim_settled noMetadata gigabytes classing immutableSpec addingClaimOwner classing_lawful addingClaimOwner_lawful
    noClaimFaults ∅ (volumePass ∅ firstNode (persistent "2Gi" "" "")).1 firstNode (persistent "2Gi" "" "") "r1") as (c & Hc & Hs & _ & _ & Ho & _).
  - done.
  - reflexivity.
  - vm_compute. reflexivity.
  - exists c. split_and!; [exact Hc| |exact Ho]. exact Hs.
Defined.

(** The claim was made without naming a class, and is to be larger now. *)
Definition smallStore : gmap (string * string) Claim := (volumePass ∅ firstNode (persistent "" "" "")).1.

Lemma claim_update_refused_witness :
  ∃ e, volumePass smallStore firstNode (persistent "2Gi" "" "") = (smallStore, Err e).
Proof.
  destruct (smallStore !! ("lab", "r1")) as [existing|] eqn:He; [|vm_compute in He; discriminate].
  apply (claim_update_refused noMetadata gigabytes classing immutableSpec addingClaimOwner classing_lawful addingClaimOwner_lawful
    noClaimFaults smallStore firstNode (persistent "2Gi" "" "") existing).
  - apply pass_wf; [exact classing_lawful|exact addingClaimOwner_lawful|done].
  - reflexivity.
  - exact He.
  - vm_compute in He. injection He as <-. vm_compute. reflexivity.
  - left. split; [reflexivity|]. vm_compute in He. injection He as <-. eexists. reflexivity.
Defined.
