(* ===== verification/PlanCapabilities.v ===== *)
(** * What the helpers of a device Pod can do

    Models [ValidatePlanCapabilities] and [validateIsolatedPlan] of
    [internal/directruntime/connectivity.go]: before it touches the network of a Pod, the
    connectivity helper refuses a plan that asks for anything it does not implement.

    [validPeerTransport] stands for apimachinery's check of a DNS subdomain; the links and the
    files of a plan are visited in the order of a map, so which of several errors is reported
    depends on it. *)

From S2P Require Import Prelude WireCodec Api GoStrings GoNet GoSort LinkAllocation DevicePlanTypes Management.
From S2P Require Import PlanValidation PlanCodec.
Local Open Scope Z_scope.

Inductive capabilityError :=
| planRefused (e : PlanError)
| managementNameInvalid (id : string)
| selectorUnsupported
| interpositionIncomplete
| managementAddressInvalid (ipv4 : bool) (id : string)
| managementAddressShared (existing id : string)
| managementGatewayOffLink (ipv4 : bool) (id : string)
| managementRouteInvalid (index : nat) (id : string)
| managementRouteWithoutSource (index : nat) (id : string)
| managementRouteOffLink (index : nat) (id : string)
| imageDigestMissing (id : string)
| sysctlNameInvalid
| sysctlConflicts (name : string)
| connectivityUnimplemented (connectivity : string)
| interfaceNameInvalid (id : string)
| interfaceNameShared (existing id : string)
| localLinkShape (linkID : string)
| localLinkInconsistent (linkID : string)
| wireLinkIncomplete (linkID : string)
| hostLinkIncomplete (linkID : string)
| fileSourceUnimplemented (sourceKind : string)
| fileUnavailable (actionID : string)
| interfaceUnavailable (actionID : string)
| mountUnsupported (actionID : string)
| stdinUnavailable (actionID : string)
| actionUnimplemented (actionID phase kind : string)
| fileNotPrepared (fileID : string)
| interfaceNotAwaited (interfaceID : string).

Definition refuseCapability (condition : bool) (e : capabilityError) : result capabilityError unit :=
  if condition then Err e else Ok ().

(** ** Names *)

(** The slash, the zero byte and white space. *)
Definition forbiddenInName (c : Ascii.ascii) : bool :=
  existsb (λ n, bool_decide (c = char n)) [47; 0; 10; 13; 9; 32].
Definition validLinuxInterfaceName (name : string) : bool :=
  negb (empty name) && negb (bool_decide (name = ".")) && negb (bool_decide (name = ".."))
  && (String.length name <=? 15)%nat && negb (existsb forbiddenInName (String.list_ascii_of_string name)).

Definition validSysctlPart (part : string) : bool :=
  negb (empty part) && negb (bool_decide (part = ".")) && negb (bool_decide (part = ".."))
  && negb (ContainsChar part (char 47)) && negb (ContainsChar part (char 0)).
Definition validLinuxSysctlName (name : string) : bool :=
  negb (empty name) && bool_decide (name = TrimSpace name) && (2 <=? length (Split dot name))%nat
  && forallb validSysctlPart (Split dot name).

(** ** Management *)

(** The prefixes of one management plan, IPv4 and IPv6. *)
Notation familyPrefixes := (option Prefix * option Prefix)%type.
Definition familyPrefix (prefixes : familyPrefixes) (ipv4 : bool) : option Prefix := if ipv4 then prefixes.1 else prefixes.2.

(** The addresses that are taken, with the management plan that has them. *)
Notation takenAddresses := (gmap Addr string).

Definition addressOf (id : string) (taken : takenAddresses) (raw : string) (ipv4 : bool) :
    result capabilityError (takenAddresses * option Prefix) :=
  if empty raw then Ok (taken, None)
  else
    match ParsePrefix raw with
    | None => Err (managementAddressInvalid ipv4 id)
    | Some prefix =>
        if negb (eqb (Is4 (PrefixAddr prefix)) ipv4) then Err (managementAddressInvalid ipv4 id)
        else
          let address := Unmap (PrefixAddr prefix) in
          let existing := default "" (taken !! address) in
          if negb (empty existing) then Err (managementAddressShared existing id)
          else Ok (<[address := id]> taken, Some prefix)
    end.

(** An address that is in the prefix of its family. *)
Definition gatewayOnLink (prefix : option Prefix) (raw : string) (ipv4 : bool) : bool :=
  match ParseAddr raw, prefix with
  | Some gateway, Some prefix => eqb (Is4 gateway) ipv4 && PrefixContains prefix gateway
  | _, _ => false
  end.

Definition checkGateway (id : string) (prefixes : familyPrefixes) (raw : string) (ipv4 : bool) : result capabilityError unit :=
  refuseCapability (negb (empty raw) && negb (gatewayOnLink (familyPrefix prefixes ipv4) raw ipv4)) (managementGatewayOffLink ipv4 id).

Definition checkRoute (id : string) (prefixes : familyPrefixes) (index : nat) (route : Route) : result capabilityError nat :=
  match ParsePrefix (Route_Destination route) with
  | None => Err (managementRouteInvalid index id)
  | Some destination =>
      refuseCapability (Route_Metric route <? 0) (managementRouteInvalid index id) ;;?
      let ipv4 := Is4 (PrefixAddr destination) in
      let source := familyPrefix prefixes ipv4 in
      refuseCapability (negb (bool_decide (is_Some source))) (managementRouteWithoutSource index id) ;;?
      refuseCapability (negb (empty (Route_Gateway route)) && negb (gatewayOnLink source (Route_Gateway route) ipv4))
        (managementRouteOffLink index id) ;;?
      Ok (S index)
  end.

Definition checkManagement (taken : takenAddresses) (management : ManagementPlan) : result capabilityError takenAddresses :=
  let id := ManagementPlan_ID management in
  refuseCapability (negb (empty (ManagementPlan_InterfaceName management))
    && negb (validLinuxInterfaceName (ManagementPlan_InterfaceName management))) (managementNameInvalid id) ;;?
  refuseCapability (empty (ManagementPlan_InterfaceName management)
    && negb (bool_decide (ManagementPlan_InterfaceSelector management = ManagementInterfacePodTransport))
    && negb (bool_decide (ManagementPlan_InterfaceSelector management = ManagementInterfaceInterposed))) selectorUnsupported ;;?
  refuseCapability (bool_decide (ManagementPlan_InterfaceSelector management = ManagementInterfaceInterposed)
    && match ManagementPlan_Interposition management with
       | None => true
       | Some interposition => negb (validLinuxInterfaceName (ManagementInterposition_DeviceInterface interposition))
       end) interpositionIncomplete ;;?
  let? state4 := addressOf id taken (ManagementPlan_IPv4 management) true in
  let? state6 := addressOf id state4.1 (ManagementPlan_IPv6 management) false in
  let prefixes := (state4.2, state6.2) in
  checkGateway id prefixes (ManagementPlan_IPv4Gateway management) true ;;?
  checkGateway id prefixes (ManagementPlan_IPv6Gateway management) false ;;?
  let? _ := rfold (checkRoute id prefixes) 0%nat (ManagementPlan_Routes management) in
  Ok state6.1.

(** ** Containers *)

Definition checkSysctl (sysctls : gmap string string) (sysctl : KeyValue) : result capabilityError (gmap string string) :=
  refuseCapability (negb (validLinuxSysctlName (KeyValue_Name sysctl))) sysctlNameInvalid ;;?
  refuseCapability (match sysctls !! KeyValue_Name sysctl with
                    | None => false
                    | Some existing => negb (bool_decide (existing = KeyValue_Value sysctl))
                    end) (sysctlConflicts (KeyValue_Name sysctl)) ;;?
  Ok (<[KeyValue_Name sysctl := KeyValue_Value sysctl]> sysctls).
Definition checkContainer (sysctls : gmap string string) (container : ContainerPlan) : result capabilityError (gmap string string) :=
  refuseCapability (empty (ContainerPlan_ImageDigest container)) (imageDigestMissing (ContainerPlan_ID container)) ;;?
  rfold checkSysctl sysctls (SecurityPlan_Sysctls (ContainerPlan_Security container)).

(** ** Interfaces and links *)

(** [m[key] = append(m[key], x)] *)
Definition appendTo {A} (key : A → string) (m : gmap string (list A)) (x : A) : gmap string (list A) :=
  <[key x := default [] (m !! key x) ++ [x]]> m.

Record interfaceIndex := MkInterfaceIndex {
  IX_Interfaces : gmap string InterfacePlan;
  IX_Names : gmap string string;
  IX_Links : gmap string (list InterfacePlan)
}.

Definition localConnectivity (intf : InterfacePlan) : bool :=
  bool_decide (InterfacePlan_Connectivity intf = ConnectivitySamePod) || bool_decide (InterfacePlan_Connectivity intf = ConnectivityLoopback).

Definition checkInterface (index : interfaceIndex) (intf : InterfacePlan) : result capabilityError interfaceIndex :=
  refuseCapability (negb (localConnectivity intf) && negb (bool_decide (InterfacePlan_Connectivity intf = ConnectivityWire))
    && negb (bool_decide (InterfacePlan_Connectivity intf = ConnectivityHost)))
    (connectivityUnimplemented (InterfacePlan_Connectivity intf)) ;;?
  refuseCapability (negb (validLinuxInterfaceName (InterfacePlan_Name intf))) (interfaceNameInvalid (InterfacePlan_ID intf)) ;;?
  let existing := default "" (IX_Names index !! InterfacePlan_Name intf) in
  refuseCapability (negb (empty existing)) (interfaceNameShared existing (InterfacePlan_ID intf)) ;;?
  Ok (MkInterfaceIndex (<[InterfacePlan_ID intf := intf]> (IX_Interfaces index))
        (<[InterfacePlan_Name intf := InterfacePlan_ID intf]> (IX_Names index))
        (appendTo InterfacePlan_LinkID (IX_Links index) intf)).

Section capabilities.
Context {order : RangeOrder string} {sort : GoSort} (validPeerTransport : string → bool).

Definition checkLocalLink (linkID : string) (endpoints : list InterfacePlan) : result capabilityError unit :=
  match endpoints with
  | [a; b] =>
      refuseCapability (bool_decide (InterfacePlan_Name a = InterfacePlan_Name b)
        || (negb (InterfacePlan_MTU a =? 0) && negb (InterfacePlan_MTU b =? 0) && negb (InterfacePlan_MTU a =? InterfacePlan_MTU b)))
        (localLinkShape linkID) ;;?
      refuseCapability (negb (bool_decide (InterfacePlan_Connectivity a = InterfacePlan_Connectivity b))
        || negb (bool_decide (InterfacePlan_PeerNodeID a = InterfacePlan_NodeID b))
        || negb (bool_decide (InterfacePlan_PeerNodeID b = InterfacePlan_NodeID a))
        || negb (empty (InterfacePlan_PeerTransport a)) || negb (empty (InterfacePlan_PeerTransport b))
        || (bool_decide (InterfacePlan_Connectivity a = ConnectivityLoopback)
            && negb (bool_decide (InterfacePlan_NodeID a = InterfacePlan_NodeID b)))
        || (bool_decide (InterfacePlan_Connectivity a = ConnectivitySamePod)
            && bool_decide (InterfacePlan_NodeID a = InterfacePlan_NodeID b)))
        (localLinkInconsistent linkID)
  | _ => Err (localLinkShape linkID)
  end.
Definition checkWireLink (linkID : string) (endpoints : list InterfacePlan) : result capabilityError unit :=
  match endpoints with
  | [endpoint] =>
      refuseCapability (empty (InterfacePlan_PeerNodeID endpoint) || empty (InterfacePlan_PeerInterface endpoint)
        || negb (validPeerTransport (InterfacePlan_PeerTransport endpoint))
        || (InterfacePlan_WireID endpoint <? 1) || (maxWireID <? InterfacePlan_WireID endpoint)) (wireLinkIncomplete linkID)
  | _ => Err (wireLinkIncomplete linkID)
  end.
Definition checkHostLink (linkID : string) (endpoints : list InterfacePlan) : result capabilityError unit :=
  match endpoints with
  | [endpoint] =>
      refuseCapability (empty (InterfacePlan_LinkName endpoint) || negb (validLinuxInterfaceName (InterfacePlan_PeerInterface endpoint))
        || negb (empty (InterfacePlan_PeerNodeID endpoint)) || negb (empty (InterfacePlan_PeerTransport endpoint))
        || negb (InterfacePlan_WireID endpoint =? 0)) (hostLinkIncomplete linkID)
  | _ => Err (hostLinkIncomplete linkID)
  end.

(** Every entry has an endpoint, so the first one is there. *)
Definition checkLink (_ : unit) (link : string * list InterfacePlan) : result capabilityError unit :=
  match head link.2 with
  | None => Ok ()
  | Some first =>
      if localConnectivity first then checkLocalLink link.1 link.2
      else if bool_decide (InterfacePlan_Connectivity first = ConnectivityWire) then checkWireLink link.1 link.2
      else if bool_decide (InterfacePlan_Connectivity first = ConnectivityHost) then checkHostLink link.1 link.2
      else Ok ()
  end.

(** ** Files and actions *)

Definition checkFile (files : gmap string FilePlan) (file : FilePlan) : result capabilityError (gmap string FilePlan) :=
  refuseCapability (negb (bool_decide (FilePlan_SourceKind file = FileSourceGenerator))
    && negb (bool_decide (FilePlan_SourceKind file = FileSourceCertificate))
    && negb (bool_decide (FilePlan_SourceKind file = FileSourcePayload))) (fileSourceUnimplemented (FilePlan_SourceKind file)) ;;?
  Ok (<[FilePlan_ID file := file]> files).

(** The cases of the switch over an action. *)
Inductive actionCase :=
| prepareFile (fileID : string)
| waitInterface (interfaceID : string)
| mountFilesystem (mount : MountAction)
| postStartFile (fileID : string)
| writeStdin (fileID : string)
| importedAction
| noCase.
Definition caseOf (action : Action) : actionCase :=
  let at_ phase kind := bool_decide (Action_Phase action = phase) && bool_decide (Action_Kind action = kind) in
  match (if at_ PhasePrepare ActionFile then Action_File action else None) with
  | Some file => prepareFile (FileAction_FileID file)
  | None =>
  match (if at_ PhasePreStart ActionWaitInterface then Action_WaitInterface action else None) with
  | Some wait => waitInterface (WaitInterfaceAction_InterfaceID wait)
  | None =>
  match (if at_ PhasePreStart ActionMount then Action_Mount action else None) with
  | Some mount => mountFilesystem mount
  | None =>
  if at_ PhasePostStart ActionImportedPostDeploy && bool_decide (is_Some (Action_ImportedPostDeploy action)) then importedAction
  else if at_ PhaseInterfaceFixup ActionImportedDeployEndpoints && bool_decide (is_Some (Action_ImportedDeployEndpoints action)) then importedAction
  else if at_ PhasePostStart ActionExec && bool_decide (is_Some (Action_Exec action)) then importedAction
  else
  match (if at_ PhasePostStart ActionFile then Action_File action else None) with
  | Some file => postStartFile (FileAction_FileID file)
  | None =>
  match (if at_ PhasePostStart ActionWriteStdin then Action_WriteStdin action else None) with
  | Some stdin => writeStdin (WriteStdinAction_FileID stdin)
  | None =>
  if at_ PhaseReadiness ActionImportedReadiness && bool_decide (is_Some (Action_ImportedReadiness action)) then importedAction
  else if at_ PhaseSave ActionSave && match Action_Save action with
                                     | None => false
                                     | Some save => bool_decide (SaveAction_Method save = SaveMethodImported)
                                     end then importedAction
  else noCase
  end end end end end.

Definition checkAction (files : gmap string FilePlan) (interfaces : gmap string InterfacePlan)
    (state : gset string * gset string) (action : Action) : result capabilityError (gset string * gset string) :=
  let '(prepared, waited) := state in
  match caseOf action with
  | prepareFile id =>
      refuseCapability (bool_decide (files !! id = None)) (fileUnavailable (Action_ID action)) ;;? Ok ({[id]} ∪ prepared, waited)
  | waitInterface id =>
      refuseCapability (bool_decide (interfaces !! id = None)) (interfaceUnavailable (Action_ID action)) ;;? Ok (prepared, {[id]} ∪ waited)
  | mountFilesystem mount =>
      refuseCapability (negb (bool_decide (MountAction_Filesystem mount = filesystemTmpfs))
        || negb (bool_decide (MountAction_Source mount = filesystemTmpfs))) (mountUnsupported (Action_ID action)) ;;? Ok state
  | postStartFile id =>
      refuseCapability (bool_decide (files !! id = None)) (fileUnavailable (Action_ID action)) ;;? Ok state
  | writeStdin id =>
      refuseCapability (bool_decide (files !! id = None)) (stdinUnavailable (Action_ID action)) ;;? Ok state
  | importedAction => Ok state
  | noCase => Err (actionUnimplemented (Action_ID action) (Action_Phase action) (Action_Kind action))
  end.

Definition checkCovered {V} (covered : gset string) (e : string → capabilityError) (_ : unit) (entry : string * V) :
    result capabilityError unit :=
  refuseCapability (negb (bool_decide (entry.1 ∈ covered))) (e entry.1).

(** What is checked of a plan in normal form. *)
Definition checkCapabilities (normalized : Plan) : result capabilityError unit :=
  let? _ := rfold checkManagement ∅ (Plan_Management normalized) in
  let? _ := rfold checkContainer ∅ (Plan_Containers normalized) in
  let? index := rfold checkInterface (MkInterfaceIndex ∅ ∅ ∅) (Plan_Interfaces normalized) in
  let? _ := rfold checkLink () (range_list (IX_Links index)) in
  let? files := rfold checkFile ∅ (Plan_Files normalized) in
  let? state := rfold (checkAction files (IX_Interfaces index)) (∅, ∅) (Plan_Actions normalized) in
  let? _ := rfold (checkCovered state.1 fileNotPrepared) () (range_list files) in
  rfold (checkCovered state.2 interfaceNotAwaited) () (range_list (IX_Interfaces index)).

Definition ValidatePlanCapabilities (plan : Plan) : result capabilityError unit :=
  match NormalizePlan plan with
  | Err e => Err (planRefused e)
  | Ok normalized => checkCapabilities normalized
  end.
End capabilities.

(** A private device namespace holds no local links. *)
Definition validateIsolatedPlan (plan : Plan) : option InterfacePlan := List.find localConnectivity (Plan_Interfaces plan).
