(* ===== verification/PlanCapabilitiesTheorems.v ===== *)
(** * What the helpers of a device Pod can do: which plans are accepted

    The checks of [PlanCapabilities] run through the plan and keep maps; what they establish is
    stated here of the whole plan, and they establish exactly that. *)

From S2P Require Import Prelude WireCodec Api GoStrings GoNet GoSort LinkAllocation DevicePlanTypes Management.
From S2P Require Import PlanValidation PlanSpec PlanAcceptance PlanCodec PlanCanonical PlanTheorems PlanCapabilities.
Local Open Scope Z_scope.

(** The elements with a key, in their order. *)
Lemma appendTo_lookup {A} (key : A → string) (l : list A) k :
  foldl (appendTo key) ∅ l !! k = if decide (filter (λ x, key x = k) l = []) then None else Some (filter (λ x, key x = k) l).
Proof.
  induction l as [|x l IH] using rev_ind; [done|]. rewrite foldl_app. cbn [foldl]. unfold appendTo at 1. rewrite filter_app.
  destruct (decide (key x = k)) as [<-|Hne].
  - rewrite lookup_insert_eq, filter_cons_True by done. rewrite IH.
    destruct (decide (filter _ l = [])) as [-> |Hl]; cbn; [done|]. rewrite decide_False; [done|]. by destruct (filter _ l).
  - rewrite lookup_insert_ne, filter_cons_False by done. rewrite IH. by rewrite app_nil_r.
Qed.

(** ** Which plans can be carried out *)

(** The addresses of one management plan, unmapped. *)
Definition parsedAddress (raw : string) : option Addr :=
  if empty raw then None else (λ p, Unmap (PrefixAddr p)) <$> ParsePrefix raw.
Definition addressesOf (m : ManagementPlan) : list Addr :=
  omap parsedAddress [ManagementPlan_IPv4 m; ManagementPlan_IPv6 m].

Definition declaredPrefix (raw : string) : option Prefix := if empty raw then None else ParsePrefix raw.
Definition prefixesOf (m : ManagementPlan) : familyPrefixes :=
  (declaredPrefix (ManagementPlan_IPv4 m), declaredPrefix (ManagementPlan_IPv6 m)).
Definition ofFamily (raw : string) (ipv4 : bool) : Prop :=
  raw = "" ∨ ∃ p, ParsePrefix raw = Some p ∧ Is4 (PrefixAddr p) = ipv4.

Record managementSupported (m : ManagementPlan) : Prop := {
  ms_name : ManagementPlan_InterfaceName m = "" ∨ validLinuxInterfaceName (ManagementPlan_InterfaceName m) = true;
  ms_selector : ManagementPlan_InterfaceName m = "" →
    ManagementPlan_InterfaceSelector m = ManagementInterfacePodTransport ∨ ManagementPlan_InterfaceSelector m = ManagementInterfaceInterposed;
  ms_interposed : ManagementPlan_InterfaceSelector m = ManagementInterfaceInterposed →
    ∃ contract, ManagementPlan_Interposition m = Some contract
    ∧ validLinuxInterfaceName (ManagementInterposition_DeviceInterface contract) = true;
  ms_ipv4 : ofFamily (ManagementPlan_IPv4 m) true;
  ms_ipv6 : ofFamily (ManagementPlan_IPv6 m) false;
  ms_gateway4 : ManagementPlan_IPv4Gateway m = "" ∨ gatewayOnLink (prefixesOf m).1 (ManagementPlan_IPv4Gateway m) true = true;
  ms_gateway6 : ManagementPlan_IPv6Gateway m = "" ∨ gatewayOnLink (prefixesOf m).2 (ManagementPlan_IPv6Gateway m) false = true;
  ms_routes : Forall (λ route, ∃ destination, ParsePrefix (Route_Destination route) = Some destination ∧ 0 ≤ Route_Metric route
    ∧ is_Some (familyPrefix (prefixesOf m) (Is4 (PrefixAddr destination)))
    ∧ (Route_Gateway route = ""
       ∨ gatewayOnLink (familyPrefix (prefixesOf m) (Is4 (PrefixAddr destination))) (Route_Gateway route) (Is4 (PrefixAddr destination)) = true))
    (ManagementPlan_Routes m)
}.

Definition sysctlsOf (c : ContainerPlan) : list KeyValue := SecurityPlan_Sysctls (ContainerPlan_Security c).

Definition interfaceSupported (intf : InterfacePlan) : Prop :=
  InterfacePlan_Connectivity intf ∈ [ConnectivitySamePod; ConnectivityLoopback; ConnectivityWire; ConnectivityHost]
  ∧ validLinuxInterfaceName (InterfacePlan_Name intf) = true.

(** The interfaces of a link. *)
Definition endpointsOf (interfaces : list InterfacePlan) (linkID : string) : list InterfacePlan :=
  filter (λ intf, InterfacePlan_LinkID intf = linkID) interfaces.

(** Two ends in the Pod that agree about each other, of two Nodes or of one. *)
Record localPair (a b : InterfacePlan) : Prop := {
  lp_names : InterfacePlan_Name a ≠ InterfacePlan_Name b;
  lp_mtu : InterfacePlan_MTU a = 0 ∨ InterfacePlan_MTU b = 0 ∨ InterfacePlan_MTU a = InterfacePlan_MTU b;
  lp_connectivity : InterfacePlan_Connectivity a = InterfacePlan_Connectivity b;
  lp_peers : InterfacePlan_PeerNodeID a = InterfacePlan_NodeID b ∧ InterfacePlan_PeerNodeID b = InterfacePlan_NodeID a;
  lp_transport : InterfacePlan_PeerTransport a = "" ∧ InterfacePlan_PeerTransport b = "";
  lp_nodes : InterfacePlan_Connectivity a = ConnectivityLoopback ↔ InterfacePlan_NodeID a = InterfacePlan_NodeID b
}.

Section exact.
Context {order : RangeOrder string} {sort : GoSort} (validPeerTransport : string → bool).

Record wireEnd (e : InterfacePlan) : Prop := {
  we_peer : InterfacePlan_PeerNodeID e ≠ "" ∧ InterfacePlan_PeerInterface e ≠ "";
  we_transport : validPeerTransport (InterfacePlan_PeerTransport e) = true;
  we_id : 1 ≤ InterfacePlan_WireID e ≤ maxWireID
}.
Record hostEnd (e : InterfacePlan) : Prop := {
  he_name : InterfacePlan_LinkName e ≠ "" ∧ validLinuxInterfaceName (InterfacePlan_PeerInterface e) = true;
  he_local : InterfacePlan_PeerNodeID e = "" ∧ InterfacePlan_PeerTransport e = "" ∧ InterfacePlan_WireID e = 0
}.

(** The ends of a link, by the connectivity of the first. *)
Definition linkSupported (endpoints : list InterfacePlan) : Prop :=
  match endpoints with
  | [] => True
  | first :: _ =>
      if localConnectivity first then ∃ a b, endpoints = [a; b] ∧ localPair a b
      else if bool_decide (InterfacePlan_Connectivity first = ConnectivityWire) then ∃ e, endpoints = [e] ∧ wireEnd e
      else if bool_decide (InterfacePlan_Connectivity first = ConnectivityHost) then ∃ e, endpoints = [e] ∧ hostEnd e
      else True
  end.

Definition fileKnown (p : Plan) (id : string) : Prop := id ∈ FilePlan_ID <$> Plan_Files p.
Definition actionSupported (p : Plan) (action : Action) : Prop :=
  match caseOf action with
  | prepareFile id | postStartFile id | writeStdin id => fileKnown p id
  | waitInterface id => id ∈ InterfacePlan_ID <$> Plan_Interfaces p
  | mountFilesystem mount => MountAction_Filesystem mount = filesystemTmpfs ∧ MountAction_Source mount = filesystemTmpfs
  | importedAction => True
  | noCase => False
  end.

(** A plan the helpers can carry out. *)
Record capable (p : Plan) : Prop := {
  cap_management : Forall managementSupported (Plan_Management p);
  cap_addresses : NoDup (Plan_Management p ≫= addressesOf);
  cap_containers : Forall (λ c, ContainerPlan_ImageDigest c ≠ ""
    ∧ Forall (λ s, validLinuxSysctlName (KeyValue_Name s) = true) (sysctlsOf c)) (Plan_Containers p);
  cap_sysctls : ∀ s s', s ∈ Plan_Containers p ≫= sysctlsOf → s' ∈ Plan_Containers p ≫= sysctlsOf →
    KeyValue_Name s = KeyValue_Name s' → KeyValue_Value s = KeyValue_Value s';
  cap_interfaces : Forall interfaceSupported (Plan_Interfaces p);
  cap_names : NoDup (InterfacePlan_Name <$> Plan_Interfaces p);
  cap_links : ∀ linkID, linkSupported (endpointsOf (Plan_Interfaces p) linkID);
  cap_files : Forall (λ f, FilePlan_SourceKind f ∈ [FileSourceGenerator; FileSourceCertificate; FileSourcePayload]) (Plan_Files p);
  cap_actions : Forall (actionSupported p) (Plan_Actions p);
  cap_prepared : ∀ f, f ∈ Plan_Files p → ∃ action, action ∈ Plan_Actions p ∧ caseOf action = prepareFile (FilePlan_ID f);
  cap_awaited : ∀ intf, intf ∈ Plan_Interfaces p →
    ∃ action, action ∈ Plan_Actions p ∧ caseOf action = waitInterface (InterfacePlan_ID intf)
}.

(** ** Loops *)

Lemma refuseCapability_Ok b e u : refuseCapability b e = Ok u ↔ b = false.
Proof. unfold refuseCapability. destruct b, u; naive_solver. Qed.

(** A loop whose state after the elements [before] is [st before], over elements with [Q]. *)
Lemma stated_loop {E A S} (Q : A → Prop) (step : S → A → result E S) (st : list A → S) (P : list A → A → Prop) l s :
  (∀ before x s', Forall Q before → Q x → eachPrefix P before → step (st before) x = Ok s' ↔ P before x ∧ s' = st (before ++ [x])) →
  Forall Q l → rfold step (st []) l = Ok s ↔ eachPrefix P l ∧ s = st l.
Proof.
  intros Hstep. revert s. induction l as [|x l IH] using rev_ind; intros s HQ.
  { cbn. split; [intros [= <-]; split; [apply eachPrefix_nil|done]|by intros [_ ->]]. }
  apply Forall_app in HQ as [HQ [Hx _]%list.Forall_cons]. rewrite rfold_snoc, eachPrefix_snoc.
  destruct (rfold step (st []) l) as [s1|err] eqn:Hf; cbn [rbind].
  - destruct (proj1 (IH s1 HQ) eq_refl) as [H1 ->]. rewrite Hstep by done. naive_solver.
  - split; [done|]. intros [[H1 _] _]. assert (Err err = Ok (st l)) as [=] by (by apply IH).
Qed.

(** A loop that only checks. *)
Lemma unit_loop {E A} (check : unit → A → result E unit) l u :
  rfold check () l = Ok u ↔ Forall (λ x, check () x = Ok ()) l.
Proof.
  destruct u. induction l as [|x l IH]; [done|]. cbn [rfold]. rewrite list.Forall_cons.
  destruct (check () x) as [[]|]; cbn; [rewrite IH|]; naive_solver.
Qed.

Lemma refused_then {A} b e (k : result capabilityError A) v : (refuseCapability b e ;;? k) = Ok v ↔ b = false ∧ k = Ok v.
Proof. by rewrite seq_Ok, refuseCapability_Ok. Qed.

(** ** Management *)

Lemma addressOf_Ok id taken raw ipv4 out :
  addressOf id taken raw ipv4 = Ok out ↔
  ofFamily raw ipv4 ∧ (∀ a, parsedAddress raw = Some a → default "" (taken !! a) = "")
  ∧ out = (match parsedAddress raw with None => taken | Some a => <[a := id]> taken end, declaredPrefix raw).
Proof.
  unfold addressOf, ofFamily, parsedAddress, declaredPrefix. destruct (empty raw) eqn:He.
  { apply empty_true in He. naive_solver. }
  apply empty_false in He. destruct (ParsePrefix raw) as [p|]; cbn; [|naive_solver].
  destruct (eqb _ _) eqn:Hf; cbn.
  - apply eqb_prop in Hf. destruct (empty (default "" _)) eqn:Ht; cbn.
    + apply empty_true in Ht. split.
      * intros [= <-]. split_and!; [eauto| |done]. by intros a [= <-].
      * intros (_ & _ & ->). done.
    + apply empty_false in Ht. split; [done|]. intros (_ & H & _). by destruct Ht; apply H.
  - apply eqb_false_iff in Hf. split; [done|]. intros ([?|(? & [= <-] & ?)] & _); done.
Qed.

Lemma checkGateway_Ok id prefixes raw ipv4 u :
  checkGateway id prefixes raw ipv4 = Ok u ↔ raw = "" ∨ gatewayOnLink (familyPrefix prefixes ipv4) raw ipv4 = true.
Proof. unfold checkGateway. rewrite refuseCapability_Ok. checks. tauto. Qed.

Lemma checkRoute_Ok id prefixes index route n :
  checkRoute id prefixes index route = Ok n ↔
  (∃ destination, ParsePrefix (Route_Destination route) = Some destination ∧ 0 ≤ Route_Metric route
    ∧ is_Some (familyPrefix prefixes (Is4 (PrefixAddr destination)))
    ∧ (Route_Gateway route = "" ∨ gatewayOnLink (familyPrefix prefixes (Is4 (PrefixAddr destination))) (Route_Gateway route)
         (Is4 (PrefixAddr destination)) = true)) ∧ n = S index.
Proof.
  unfold checkRoute. destruct (ParsePrefix _) as [d|]; [|naive_solver].
  rewrite !refused_then. checks. rewrite Ok_inj_iff. naive_solver.
Qed.

Lemma routes_Ok id prefixes routes index n :
  rfold (checkRoute id prefixes) index routes = Ok n ↔
  Forall (λ route, ∃ destination, ParsePrefix (Route_Destination route) = Some destination ∧ 0 ≤ Route_Metric route
    ∧ is_Some (familyPrefix prefixes (Is4 (PrefixAddr destination)))
    ∧ (Route_Gateway route = "" ∨ gatewayOnLink (familyPrefix prefixes (Is4 (PrefixAddr destination))) (Route_Gateway route)
         (Is4 (PrefixAddr destination)) = true)) routes ∧ n = (index + length routes)%nat.
Proof.
  revert index. induction routes as [|r routes IH]; intros index; cbn [rfold length].
  { rewrite Nat.add_0_r, Ok_inj_iff. split; [intros ->; split; [constructor|done]|by intros [_ ->]]. }
  rewrite list.Forall_cons, let_Ok. setoid_rewrite checkRoute_Ok. split.
  - intros (x & [H1 ->] & [H2 ->]%IH). split; [done|lia].
  - intros [[H1 H2] ->]. eexists. split; [done|]. apply IH. split; [done|lia].
Qed.

(** The addresses taken by the management plans [before]. *)
Definition takeAddresses (taken : gmap Addr string) (m : ManagementPlan) : gmap Addr string :=
  foldl (λ taken a, <[a := ManagementPlan_ID m]> taken) taken (addressesOf m).
Definition takenBy (before : list ManagementPlan) : gmap Addr string := foldl takeAddresses ∅ before.

Lemma insertions_dom (id : string) (l : list Addr) (taken : gmap Addr string) a :
  id ≠ "" → default "" (foldl (λ taken a, <[a := id]> taken) taken l !! a) = "" ↔ a ∉ l ∧ default "" (taken !! a) = "".
Proof.
  intros Hid. revert taken. induction l as [|x l IH]; intros taken; cbn [foldl]; [rewrite elem_of_nil; tauto|].
  rewrite IH, elem_of_cons. destruct (decide (x = a)) as [->|Hne].
  - rewrite lookup_insert_eq. cbn. naive_solver.
  - rewrite lookup_insert_ne by done. naive_solver.
Qed.

Lemma takenBy_free before a :
  Forall (λ m, ManagementPlan_ID m ≠ "") before → default "" (takenBy before !! a) = "" ↔ a ∉ before ≫= addressesOf.
Proof.
  induction before as [|m before IH] using rev_ind; intros Hid; [by split; [intros _ []%elem_of_nil|]|].
  apply Forall_app in Hid as [Hid [Hm _]%list.Forall_cons]. unfold takenBy. rewrite foldl_app. cbn [foldl].
  unfold takeAddresses at 1. rewrite insertions_dom by done. change (foldl takeAddresses ∅ before) with (takenBy before).
  rewrite (IH Hid), bind_app, elem_of_app. cbn. rewrite app_nil_r. tauto.
Qed.

Lemma checkManagement_Ok before m out :
  Forall (λ m, ManagementPlan_ID m ≠ "") before → ManagementPlan_ID m ≠ "" →
  checkManagement (takenBy before) m = Ok out ↔
  (managementSupported m ∧ NoDup (addressesOf m) ∧ ∀ a, a ∈ addressesOf m → a ∉ before ≫= addressesOf) ∧ out = takenBy (before ++ [m]).
Proof.
  intros Hids Hid. unfold checkManagement. rewrite !refused_then, let_Ok. setoid_rewrite let_Ok. setoid_rewrite addressOf_Ok.
  setoid_rewrite seq_Ok. setoid_rewrite seq_Ok. setoid_rewrite checkGateway_Ok. setoid_rewrite let_Ok. setoid_rewrite routes_Ok.
  setoid_rewrite Ok_inj_iff.
  assert ((∀ a, parsedAddress (ManagementPlan_IPv4 m) = Some a → default "" (takenBy before !! a) = "") ∧
    (∀ a, parsedAddress (ManagementPlan_IPv6 m) = Some a →
       default "" (match parsedAddress (ManagementPlan_IPv4 m) with None => takenBy before
                   | Some a => <[a := ManagementPlan_ID m]> (takenBy before) end !! a) = "") ↔
    NoDup (addressesOf m) ∧ ∀ a, a ∈ addressesOf m → a ∉ before ≫= addressesOf) as Hfree.
  { unfold addressesOf. cbn. destruct (parsedAddress (ManagementPlan_IPv4 m)) as [a|], (parsedAddress (ManagementPlan_IPv6 m)) as [b|];
      cbn; rewrite ?NoDup_cons, ?list_elem_of_singleton; setoid_rewrite <- takenBy_free; try done.
    - destruct (decide (a = b)) as [->|Hne].
      + split; [|naive_solver]. intros [_ H]. specialize (H b eq_refl). rewrite lookup_insert_eq in H. done.
      + split.
        * intros [H1 H2]. specialize (H1 a eq_refl). specialize (H2 b eq_refl). rewrite lookup_insert_ne in H2 by done.
          split_and!; [done|apply not_elem_of_nil|constructor|]. set_solver.
        * intros [_ H]. split; intros ? [= <-]; [|rewrite lookup_insert_ne by done]; apply H; set_solver.
    - split; [intros [H _]; split_and!; [apply not_elem_of_nil|constructor|set_solver]|]. intros [_ H]. split; [|done]. intros ? [= <-]. set_solver.
    - split; [intros [_ H]; split_and!; [apply not_elem_of_nil|constructor|set_solver]|]. intros [_ H]. split; [done|]. intros ? [= <-]. set_solver.
    - split; [|done]. intros _. split; [constructor|]. set_solver. }
  assert (takenBy (before ++ [m]) = match parsedAddress (ManagementPlan_IPv6 m) with
    | None => match parsedAddress (ManagementPlan_IPv4 m) with None => takenBy before | Some a => <[a := ManagementPlan_ID m]> (takenBy before) end
    | Some b => <[b := ManagementPlan_ID m]> match parsedAddress (ManagementPlan_IPv4 m) with
                | None => takenBy before | Some a => <[a := ManagementPlan_ID m]> (takenBy before) end end) as Htaken.
  { unfold takenBy. rewrite foldl_app. cbn [foldl]. unfold takeAddresses at 1, addressesOf. cbn.
    by destruct (parsedAddress (ManagementPlan_IPv4 m)), (parsedAddress (ManagementPlan_IPv6 m)). }
  rewrite Htaken. checks. split.
  - intros (H1 & H2 & H3 & ? & (H4 & H5 & ->) & ? & (H6 & H7 & ->) & H8 & H9 & ? & [H10 _] & ->). cbn in H7.
    split; [|reflexivity]. split; [|apply Hfree; split; [exact H5|exact H7]]. clear Hfree Htaken. constructor;
      [|intros Hn|intros Hsel|exact H4|exact H6|exact H8|exact H9|exact H10].
    + destruct H1 as [H1|H1]; [by left|by right].
    + destruct H2 as [[H2|H2]|H2]; [done|by left|by right].
    + destruct H3 as [?|H3]; [done|]. destruct (ManagementPlan_Interposition m) as [contract|]; [|done]. exists contract.
      split; [done|]. by apply negb_false_iff.
  - intros [[[S1 S2 S3 S4 S5 S6 S7 S8] Hf] ->]. apply Hfree in Hf as [F1 F2]. split_and!; [tauto| | |].
    + destruct (decide (ManagementPlan_InterfaceName m = "")); naive_solver.
    + destruct (decide (ManagementPlan_InterfaceSelector m = ManagementInterfaceInterposed)) as [He|]; [|by left].
      right. destruct (S3 He) as (contract & -> & ->). done.
    + eexists. split; [split_and!; [done..|reflexivity]|]. eexists. split; [split_and!; [done..|reflexivity]|]. cbn. eauto 10.
Qed.

Lemma managementChecks_Ok l out :
  Forall (λ m, ManagementPlan_ID m ≠ "") l →
  rfold checkManagement ∅ l = Ok out ↔ (Forall managementSupported l ∧ NoDup (l ≫= addressesOf)) ∧ out = takenBy l.
Proof.
  intros Hids. change (∅ : gmap Addr string) with (takenBy []).
  rewrite (stated_loop (λ m, ManagementPlan_ID m ≠ "") checkManagement takenBy
    (λ before m, managementSupported m ∧ NoDup (addressesOf m) ∧ ∀ a, a ∈ addressesOf m → a ∉ before ≫= addressesOf));
    [|intros; by apply checkManagement_Ok|done].
  rewrite eachPrefix_and, eachPrefix_forall.
  assert (eachPrefix (λ before m, NoDup (addressesOf m) ∧ ∀ a, a ∈ addressesOf m → a ∉ before ≫= addressesOf) l
    ↔ NoDup (l ≫= addressesOf)) as ->; [|done].
  clear. induction l as [|m l IH] using rev_ind; [split; intros _; [constructor|apply eachPrefix_nil]|].
  rewrite eachPrefix_snoc, IH, bind_app, NoDup_app. cbn. rewrite app_nil_r. naive_solver.
Qed.

(** ** Containers *)

Definition sysctlMap (l : list KeyValue) : gmap string string := foldl (λ m s, <[KeyValue_Name s := KeyValue_Value s]> m) ∅ l.
Definition consistent (l : list KeyValue) : Prop :=
  ∀ s s', s ∈ l → s' ∈ l → KeyValue_Name s = KeyValue_Name s' → KeyValue_Value s = KeyValue_Value s'.

Lemma sysctlMap_snoc l x : sysctlMap (l ++ [x]) = <[KeyValue_Name x := KeyValue_Value x]> (sysctlMap l).
Proof. unfold sysctlMap. by rewrite foldl_app. Qed.

Lemma sysctlMap_lookup l name :
  sysctlMap l !! name = None ∧ name ∉ KeyValue_Name <$> l
  ∨ ∃ s, s ∈ l ∧ KeyValue_Name s = name ∧ sysctlMap l !! name = Some (KeyValue_Value s).
Proof.
  induction l as [|x l IH] using rev_ind; [left; split; [done|apply not_elem_of_nil]|].
  rewrite sysctlMap_snoc, fmap_app. setoid_rewrite elem_of_app. cbn. setoid_rewrite list_elem_of_singleton.
  destruct (decide (KeyValue_Name x = name)) as [<-|Hne].
  - right. exists x. rewrite lookup_insert_eq. eauto.
  - rewrite lookup_insert_ne by done. naive_solver.
Qed.

Lemma consistent_snoc l x :
  consistent (l ++ [x]) ↔ consistent l ∧ ∀ s, s ∈ l → KeyValue_Name s = KeyValue_Name x → KeyValue_Value s = KeyValue_Value x.
Proof.
  unfold consistent. setoid_rewrite elem_of_app. setoid_rewrite list_elem_of_singleton. split.
  - intros H. split; [naive_solver|]. intros s Hs Hn. apply H; auto.
  - intros [H1 H2] s s' [Hs| ->] [Hs'| ->] Hn; [by apply H1|by apply H2|symmetry; by apply H2|done].
Qed.

Lemma checkSysctl_Ok l x out :
  consistent l →
  checkSysctl (sysctlMap l) x = Ok out ↔
  (validLinuxSysctlName (KeyValue_Name x) = true ∧ consistent (l ++ [x])) ∧ out = sysctlMap (l ++ [x]).
Proof.
  intros Hc. unfold checkSysctl. rewrite !refused_then, Ok_inj_iff, <- sysctlMap_snoc, negb_false_iff, consistent_snoc.
  assert (match sysctlMap l !! KeyValue_Name x with
          | Some existing => negb (bool_decide (existing = KeyValue_Value x)) | None => false end = false
    ↔ ∀ s, s ∈ l → KeyValue_Name s = KeyValue_Name x → KeyValue_Value s = KeyValue_Value x) as ->; [|tauto].
  destruct (sysctlMap_lookup l (KeyValue_Name x)) as [[-> Hn]|(s & Hs & Hname & ->)].
  - split; [|done]. intros _ s Hs Heq. destruct Hn. rewrite <- Heq. by apply list_elem_of_fmap_2.
  - rewrite negb_false_iff, bool_decide_eq_true. split; [|by intros H; apply H].
    intros <- s' Hs' Heq. apply Hc; [done..|congruence].
Qed.

Lemma sysctls_Ok l l0 out :
  consistent l0 →
  rfold checkSysctl (sysctlMap l0) l = Ok out ↔
  (Forall (λ s, validLinuxSysctlName (KeyValue_Name s) = true) l ∧ consistent (l0 ++ l)) ∧ out = sysctlMap (l0 ++ l).
Proof.
  revert l0. induction l as [|x l IH]; intros l0 Hc; cbn [rfold].
  { rewrite app_nil_r, Ok_inj_iff. split; [intros ->; by split|by intros [_ ->]]. }
  rewrite let_Ok, list.Forall_cons, (cons_middle x l0 l), app_assoc. setoid_rewrite checkSysctl_Ok; [|done]. split.
  - intros (? & [[H1 H2] ->] & [[H3 H4] ->]%IH); [by repeat split|done].
  - intros [[[H1 H2] H3] ->]. assert (consistent (l0 ++ [x])) as Hx.
    { intros s s' Hs Hs'. apply H3; apply elem_of_app; by left. }
    eexists. split; [by repeat split|]. by apply IH.
Qed.

Lemma containerChecks_Ok l before out :
  consistent (before ≫= sysctlsOf) →
  rfold checkContainer (sysctlMap (before ≫= sysctlsOf)) l = Ok out ↔
  (Forall (λ c, ContainerPlan_ImageDigest c ≠ "" ∧ Forall (λ s, validLinuxSysctlName (KeyValue_Name s) = true) (sysctlsOf c)) l
   ∧ consistent ((before ++ l) ≫= sysctlsOf)) ∧ out = sysctlMap ((before ++ l) ≫= sysctlsOf).
Proof.
  revert before. induction l as [|c l IH]; intros before Hc; cbn [rfold].
  { rewrite app_nil_r, Ok_inj_iff. split; [intros ->; by split|by intros [_ ->]]. }
  rewrite let_Ok, list.Forall_cons, (cons_middle c before l), app_assoc. unfold checkContainer at 1. setoid_rewrite refused_then.
  setoid_rewrite empty_false. change (SecurityPlan_Sysctls (ContainerPlan_Security c)) with (sysctlsOf c).
  assert ((before ++ [c]) ≫= sysctlsOf = (before ≫= sysctlsOf) ++ sysctlsOf c) as Hsnoc.
  { rewrite bind_app. cbn. by rewrite app_nil_r. }
  setoid_rewrite sysctls_Ok; [|done]. split.
  - intros (? & [H1 [[H2 H3] ->]] & Hrest). rewrite <- Hsnoc in Hrest. apply IH in Hrest as [[H4 H5] ->]; [|by rewrite Hsnoc].
    by repeat split.
  - intros [[[[H1 H2] H3] H4] ->]. assert (consistent ((before ++ [c]) ≫= sysctlsOf)) as Hx.
    { intros s s' Hs Hs'. apply H4; rewrite bind_app; apply elem_of_app; by left. }
    rewrite <- Hsnoc. eexists. split; [by repeat split|]. by apply IH.
Qed.

Lemma all_containers_Ok l out :
  rfold checkContainer ∅ l = Ok out ↔
  (Forall (λ c, ContainerPlan_ImageDigest c ≠ "" ∧ Forall (λ s, validLinuxSysctlName (KeyValue_Name s) = true) (sysctlsOf c)) l
   ∧ consistent (l ≫= sysctlsOf)) ∧ out = sysctlMap (l ≫= sysctlsOf).
Proof. apply (containerChecks_Ok l [] out). by intros ? ? ?%elem_of_nil. Qed.

(** ** Interfaces and links *)

Definition nameMap (l : list InterfacePlan) : gmap string string :=
  foldl (λ m i, <[InterfacePlan_Name i := InterfacePlan_ID i]> m) ∅ l.
Definition linkMap (l : list InterfacePlan) : gmap string (list InterfacePlan) :=
  foldl (appendTo InterfacePlan_LinkID) ∅ l.
Definition indexOf (l : list InterfacePlan) : interfaceIndex := MkInterfaceIndex (keyed InterfacePlan_ID l) (nameMap l) (linkMap l).

Lemma nameMap_free l name :
  Forall (λ i, InterfacePlan_ID i ≠ "") l → default "" (nameMap l !! name) = "" ↔ name ∉ InterfacePlan_Name <$> l.
Proof.
  induction l as [|x l IH] using rev_ind; intros Hid; [by split; [intros _ []%elem_of_nil|]|].
  apply Forall_app in Hid as [Hid [Hx _]%list.Forall_cons]. unfold nameMap. rewrite foldl_app, fmap_app, elem_of_app. cbn.
  change (foldl _ ∅ l) with (nameMap l). rewrite list_elem_of_singleton. destruct (decide (InterfacePlan_Name x = name)) as [<-|Hne].
  - rewrite lookup_insert_eq. cbn. naive_solver.
  - rewrite lookup_insert_ne, IH by done. naive_solver.
Qed.

Lemma linkMap_lookup l linkID :
  linkMap l !! linkID = if decide (endpointsOf l linkID = []) then None else Some (endpointsOf l linkID).
Proof. apply appendTo_lookup. Qed.

Lemma checkInterface_Ok before x out :
  Forall (λ i, InterfacePlan_ID i ≠ "") before → InterfacePlan_ID x ≠ "" →
  checkInterface (indexOf before) x = Ok out ↔
  (interfaceSupported x ∧ InterfacePlan_Name x ∉ InterfacePlan_Name <$> before) ∧ out = indexOf (before ++ [x]).
Proof.
  intros Hids Hid. unfold checkInterface. rewrite !refused_then, Ok_inj_iff, !negb_false_iff. cbn [IX_Names IX_Interfaces IX_Links indexOf].
  rewrite empty_true, nameMap_free by done.
  assert (indexOf (before ++ [x]) = MkInterfaceIndex (<[InterfacePlan_ID x := x]> (keyed InterfacePlan_ID before))
    (<[InterfacePlan_Name x := InterfacePlan_ID x]> (nameMap before))
    (appendTo InterfacePlan_LinkID (linkMap before) x)) as ->.
  { unfold indexOf. rewrite keyed_snoc. unfold nameMap, linkMap. by rewrite !foldl_app. }
  unfold interfaceSupported, localConnectivity. checks. rewrite !elem_of_cons, elem_of_nil. tauto.
Qed.

Lemma interfaceChecks_Ok l out :
  Forall (λ i, InterfacePlan_ID i ≠ "") l →
  rfold checkInterface (MkInterfaceIndex ∅ ∅ ∅) l = Ok out ↔
  (Forall interfaceSupported l ∧ NoDup (InterfacePlan_Name <$> l)) ∧ out = indexOf l.
Proof.
  intros Hids. change (MkInterfaceIndex ∅ ∅ ∅) with (indexOf []).
  rewrite (stated_loop (λ i, InterfacePlan_ID i ≠ "") checkInterface indexOf
    (λ before x, interfaceSupported x ∧ InterfacePlan_Name x ∉ InterfacePlan_Name <$> before)); [|intros; by apply checkInterface_Ok|done].
  by rewrite eachPrefix_and, eachPrefix_forall, eachPrefix_fresh.
Qed.

Lemma checkLocalLink_Ok linkID endpoints u :
  (∀ e, e ∈ endpoints → InterfacePlan_Connectivity e ∈ [ConnectivitySamePod; ConnectivityLoopback; ConnectivityWire; ConnectivityHost]) →
  (∀ e, head endpoints = Some e → localConnectivity e = true) →
  checkLocalLink linkID endpoints = Ok u ↔ ∃ a b, endpoints = [a; b] ∧ localPair a b.
Proof.
  intros Hc Hl. unfold checkLocalLink. destruct endpoints as [|a [|b [|]]]; [naive_solver..| |naive_solver].
  specialize (Hl a eq_refl). unfold localConnectivity in Hl. checks_in Hl.
  rewrite refused_then, refuseCapability_Ok. checks. split.
  - intros [[H1 H2] ((((((H3 & H4) & H5) & H6) & H7) & H8) & H9)]. exists a, b. split; [done|]. constructor; [done|tauto|done|done|done|].
    split; [tauto|]. intros Hn. destruct H9 as [H9|H9]; [|done]. tauto.
  - intros (? & ? & [= <- <-] & [L1 L2 L3 [L4 L5] [L6 L7] L8]). split_and!; [done|tauto|done..| |].
    + destruct (decide (InterfacePlan_Connectivity a = ConnectivityLoopback)) as [He|]; [|by left]. right. by apply L8.
    + destruct (decide (InterfacePlan_NodeID a = InterfacePlan_NodeID b)) as [He|]; [|by right]. left.
      apply L8 in He. rewrite He. done.
Qed.

Lemma checkWireLink_Ok linkID endpoints u :
  checkWireLink validPeerTransport linkID endpoints = Ok u ↔ ∃ e, endpoints = [e] ∧ wireEnd e.
Proof.
  unfold checkWireLink. destruct endpoints as [|e [|]]; [naive_solver| |naive_solver]. rewrite refuseCapability_Ok. checks. split.
  - intros ((((H1 & H2) & H3) & H4) & H5). exists e. split; [done|]. by constructor.
  - intros (? & [= <-] & [[] ? []]). done.
Qed.
Lemma checkHostLink_Ok linkID endpoints u : checkHostLink linkID endpoints = Ok u ↔ ∃ e, endpoints = [e] ∧ hostEnd e.
Proof.
  unfold checkHostLink. destruct endpoints as [|e [|]]; [naive_solver| |naive_solver]. rewrite refuseCapability_Ok. checks. split.
  - intros ((((H1 & H2) & H3) & H4) & H5). exists e. split; [done|]. by constructor.
  - intros (? & [= <-] & [[] (? & ? & ?)]). done.
Qed.

Lemma checkLink_Ok linkID endpoints u :
  (∀ e, e ∈ endpoints → InterfacePlan_Connectivity e ∈ [ConnectivitySamePod; ConnectivityLoopback; ConnectivityWire; ConnectivityHost]) →
  checkLink validPeerTransport () (linkID, endpoints) = Ok u ↔ linkSupported endpoints.
Proof.
  intros Hc. unfold checkLink, linkSupported. destruct u. destruct endpoints as [|first rest]; cbn [head fst snd]; [done|].
  destruct (localConnectivity first) eqn:Hl; [apply checkLocalLink_Ok; [done|by intros ? [= <-]]|].
  case_bool_decide; [apply checkWireLink_Ok|]. case_bool_decide; [apply checkHostLink_Ok|done].
Qed.

Lemma links_Ok interfaces u :
  Forall interfaceSupported interfaces →
  rfold (checkLink validPeerTransport) () (range_list (linkMap interfaces)) = Ok u ↔ ∀ linkID, linkSupported (endpointsOf interfaces linkID).
Proof.
  intros Hsup. rewrite unit_loop, Forall_forall.
  assert (∀ linkID e, e ∈ endpointsOf interfaces linkID →
    InterfacePlan_Connectivity e ∈ [ConnectivitySamePod; ConnectivityLoopback; ConnectivityWire; ConnectivityHost]) as Hc.
  { intros linkID e [_ He]%list_elem_of_filter. rewrite Forall_forall in Hsup. by apply Hsup. }
  split.
  - intros H linkID. destruct (decide (endpointsOf interfaces linkID = [])) as [->|Hne]; [done|].
    apply (checkLink_Ok linkID _ ()); [apply Hc|]. apply H, elem_of_range_list. by rewrite linkMap_lookup, decide_False.
  - intros H [linkID endpoints] Hin%elem_of_range_list. rewrite linkMap_lookup in Hin. destruct (decide _); [done|].
    injection Hin as <-. apply checkLink_Ok; [apply Hc|done].
Qed.

(** ** Files and actions *)

Lemma fileChecks_Ok l out :
  rfold checkFile ∅ l = Ok out ↔
  Forall (λ f, FilePlan_SourceKind f ∈ [FileSourceGenerator; FileSourceCertificate; FileSourcePayload]) l ∧ out = keyed FilePlan_ID l.
Proof.
  change (∅ : gmap string FilePlan) with (keyed FilePlan_ID []).
  rewrite (stated_loop (λ _, True) checkFile (keyed FilePlan_ID)
    (λ _ f, FilePlan_SourceKind f ∈ [FileSourceGenerator; FileSourceCertificate; FileSourcePayload])); [by rewrite eachPrefix_forall| |by apply Forall_true].
  intros before f out' _ _ _. unfold checkFile. rewrite refused_then, Ok_inj_iff, <- keyed_snoc, !elem_of_cons, elem_of_nil. checks. tauto.
Qed.

(** The identities some action names. *)
Definition namedBy (name : Action → option string) (l : list Action) : gset string :=
  foldl (λ s a, match name a with Some id => {[id]} ∪ s | None => s end) ∅ l.
Definition preparedFile (a : Action) : option string := match caseOf a with prepareFile id => Some id | _ => None end.
Definition awaitedInterface (a : Action) : option string := match caseOf a with waitInterface id => Some id | _ => None end.

Lemma namedBy_snoc name l x :
  namedBy name (l ++ [x]) = match name x with Some id => {[id]} ∪ namedBy name l | None => namedBy name l end.
Proof. unfold namedBy. by rewrite foldl_app. Qed.
Lemma elem_of_namedBy name l id : id ∈ namedBy name l ↔ ∃ a, a ∈ l ∧ name a = Some id.
Proof.
  induction l as [|x l IH] using rev_ind; [cbn; setoid_rewrite elem_of_nil; set_solver|].
  rewrite namedBy_snoc. setoid_rewrite elem_of_app. setoid_rewrite list_elem_of_singleton. destruct (name x) as [i|] eqn:Hx.
  - rewrite elem_of_union, elem_of_singleton, IH. split.
    + intros [->|(a & Ha & Hn)]; eauto.
    + intros (a & [Ha| ->] & Hn); [eauto|left; congruence].
  - rewrite IH. split; [intros (a & Ha & Hn); eauto|]. intros (a & [Ha| ->] & Hn); [eauto|congruence].
Qed.
Lemma preparedFile_Some a id : preparedFile a = Some id ↔ caseOf a = prepareFile id.
Proof. unfold preparedFile. by destruct (caseOf a); split; intros [=]; subst. Qed.
Lemma awaitedInterface_Some a id : awaitedInterface a = Some id ↔ caseOf a = waitInterface id.
Proof. unfold awaitedInterface. by destruct (caseOf a); split; intros [=]; subst. Qed.

Lemma keyed_absent {A} (key : A → string) l k : bool_decide (keyed key l !! k = None) = false ↔ k ∈ key <$> l.
Proof. rewrite bool_decide_eq_false, <- keyed_dom. by rewrite not_eq_None_Some. Qed.

Lemma actionChecks_Ok p l out :
  rfold (checkAction (keyed FilePlan_ID (Plan_Files p)) (keyed InterfacePlan_ID (Plan_Interfaces p))) (∅, ∅) l = Ok out ↔
  Forall (actionSupported p) l ∧ out = (namedBy preparedFile l, namedBy awaitedInterface l).
Proof.
  pose (st := λ l, (namedBy preparedFile l, namedBy awaitedInterface l)). change (∅, ∅) with (st []).
  rewrite (stated_loop (λ _, True) _ st (λ _, actionSupported p)); [by rewrite eachPrefix_forall| |by apply Forall_true].
  intros before a out' _ _ _. unfold st, checkAction, actionSupported, fileKnown. rewrite !namedBy_snoc.
  generalize (namedBy preparedFile before) (namedBy awaitedInterface before). intros prepared awaited.
  unfold preparedFile, awaitedInterface.
  destruct (caseOf a); rewrite ?refused_then, ?Ok_inj_iff, ?keyed_absent; checks; try tauto. split; [done|tauto].
Qed.

Lemma covered_Ok {A} (key : A → string) l covered e u :
  NoDup (key <$> l) →
  rfold (checkCovered covered e) () (range_list (keyed key l)) = Ok u ↔ ∀ x, x ∈ l → key x ∈ covered.
Proof.
  intros Hnd. rewrite unit_loop, Forall_forall. unfold checkCovered. setoid_rewrite refuseCapability_Ok. setoid_rewrite negb_false_iff.
  setoid_rewrite bool_decide_eq_true. split.
  - intros H x Hx. apply (H (key x, x)), elem_of_range_list. by apply keyed_lookup.
  - intros H [k x] [Hx <-]%elem_of_range_list%keyed_lookup; [|done]. by apply H.
Qed.

(** ** Which plans are accepted *)

Lemma checkCapabilities_Ok p : PlanOk p → checkCapabilities validPeerTransport p = Ok () ↔ capable p.
Proof.
  intros Hok. pose proof (plan_management p Hok) as [Hm _]. pose proof (plan_interfaces p Hok) as [Hi Hind].
  pose proof (plan_files p Hok) as [_ Hfnd].
  assert (Forall (λ m, ManagementPlan_ID m ≠ "") (Plan_Management p)) as Hm' by (eapply Forall_impl; [exact Hm|]; by intros m []).
  assert (Forall (λ i, InterfacePlan_ID i ≠ "") (Plan_Interfaces p)) as Hi' by (eapply Forall_impl; [exact Hi|]; by intros i []).
  unfold checkCapabilities. rewrite let_Ok. setoid_rewrite managementChecks_Ok; [|done]. setoid_rewrite let_Ok.
  setoid_rewrite all_containers_Ok.
  setoid_rewrite let_Ok. setoid_rewrite interfaceChecks_Ok; [|done]. split.
  - intros (? & [[H1 H2] _] & ? & [[H3 H4] _] & ? & [[H5 H6] ->] & H). cbn [IX_Links IX_Interfaces indexOf] in H.
    apply let_Ok in H as (? & H7 & H). pose proof (proj1 (links_Ok _ _ H5) H7) as H7'. apply let_Ok in H as (? & [H8 ->]%fileChecks_Ok & H).
    apply let_Ok in H as (? & [H9 ->]%actionChecks_Ok & H). apply let_Ok in H as (? & H10 & H11).
    pose proof (proj1 (covered_Ok _ _ _ _ _ Hfnd) H10) as H10'. pose proof (proj1 (covered_Ok _ _ _ _ _ Hind) H11) as H11'.
    setoid_rewrite elem_of_namedBy in H10'. setoid_rewrite preparedFile_Some in H10'.
    setoid_rewrite elem_of_namedBy in H11'. setoid_rewrite awaitedInterface_Some in H11'. by constructor.
  - intros [C1 C2 C3 C4 C5 C6 C7 C8 C9 C10 C11]. setoid_rewrite <- preparedFile_Some in C10. setoid_rewrite <- elem_of_namedBy in C10.
    setoid_rewrite <- awaitedInterface_Some in C11. setoid_rewrite <- elem_of_namedBy in C11.
    do 3 (eexists; split; [by repeat split|]). cbn [IX_Links IX_Interfaces indexOf].
    apply let_Ok. exists (). split; [by apply links_Ok|]. apply let_Ok. eexists. split; [by apply fileChecks_Ok|].
    apply let_Ok. eexists. split; [by apply actionChecks_Ok|]. apply let_Ok. exists (). by split; apply covered_Ok.
Qed.

Lemma normalized_ok plan normal : NormalizePlan plan = Ok normal → PlanOk normal.
Proof. intros [Hok ->]%NormalizePlan_Ok. eapply same_plan_ok; [apply same_plan_sorted|done]. Qed.

(** C27: a plan is accepted by the helpers exactly when it is a valid plan whose every part they
    implement: management addresses that are well formed, on their links and given once, sysctls
    without conflict, interfaces with different portable names, local links of exactly two ends
    that agree about each other, wires and host links of one complete end, files that some action
    prepares, interfaces that some action waits for, and no other kind of action. *)
Theorem capabilities_exact plan :
  ValidatePlanCapabilities validPeerTransport plan = Ok () ↔ ∃ normal, NormalizePlan plan = Ok normal ∧ capable normal.
Proof.
  unfold ValidatePlanCapabilities. destruct (NormalizePlan plan) as [normal|] eqn:Hn; [|naive_solver].
  rewrite checkCapabilities_Ok by (by eapply normalized_ok). naive_solver.
Qed.
End exact.
