(* ===== verification/LocalLinks.v ===== *)
(** * Local links of a Pod

    Models [reconcileLocalInterfaces] of [internal/directruntime/connectivity.go] and the
    operations on veth pairs of [internal/directruntime/links_linux.go]: links between Nodes
    that share a Pod are pairs of virtual interfaces in the namespace of the Pod, marked with
    an alias that says which Pod and link they belong to.

    The netlink package is the class [Netlink]: requests to the kernel, whose state is of any
    type [K].  A function of the model is a computation over that state that ends with a value
    or an error; [nilDereference] and [indexOutOfRange] stand for panics. *)

From S2P Require Import Prelude WireCodec Api GoStrings GoNet GoSort LinkAllocation DevicePlanTypes Management.
From S2P Require Import PlanValidation PlanCodec PlanCapabilities.
Local Open Scope Z_scope.

(** ** The netlink package *)

(** The attributes of an interface. *)
Record Iface := MkIface {
  If_Index : Z;
  If_Name : string;
  If_Type : string;
  If_Alias : string;
  If_MTU : Z;
  If_Up : bool
}.
#[export] Instance Iface_eq_dec : EqDecision Iface.
Proof. solve_decision. Defined.
#[export] Instance Iface_updatable : Updatable Iface :=
  λ i, MkIface (If_Index i) (If_Name i) (If_Type i) (If_Alias i) (If_MTU i) (If_Up i).

(** The veth pair that is asked for; an MTU of 0 is left to the kernel. *)
Record vethRequest := MkVethRequest {
  VR_Name : string;
  VR_Alias : string;
  VR_MTU : Z;
  VR_PeerName : string;
  VR_PeerMTU : Z
}.

Inductive dumpError := ErrDumpInterrupted | dumpFailed.

(** Requests fail or not; an interface that is not there is no failure of [LinkByName]. *)
Class Netlink (K : Type) : Type := {
  netLinkList : K → K * result dumpError (list Iface);
  netLinkByName : string → K → K * option (option Iface);
  netLinkByIndex : Z → K → K * option Iface;
  netVethPeerIndex : Iface → K → K * option Z;
  netLinkAdd : vethRequest → K → K * bool;
  netLinkSetAlias : Iface → string → K → K * bool;
  netLinkSetMTU : Iface → Z → K → K * bool;
  netLinkSetUp : Iface → K → K * bool;
  netLinkDel : Iface → K → K * bool
}.

(** ** Computations *)

Inductive vethError :=
| nilDereference
| indexOutOfRange
| ownerPrefixEmpty
| listingFailed
| ownedNotVeth (name : string)
| peerUnreadable (name : string)
| peerUnavailable (name : string)
| mtuOutOfRange
| lookupFailed (name : string)
| onlyOneEndpoint
| creatingFailed
| readingCreatedFailed
| markingFailed
| readingMarkedFailed
| foreignState
| notPeers
| settingMTUFailed
| bringingUpFailed
| deletionIdentityIncomplete
| notOwnedVeth (name : string)
| peerOfAnotherOwner (name : string)
| deletingFailed (name : string)
| podIdentityInvalid
| inventorying (e : vethError)
| stateOutsideOwner
| notOnePair
| removingStale (e : vethError)
| realizing (linkUID : string) (e : vethError).

Section computations.
Context {K : Type}.

Definition net (A : Type) : Type := K → K * result vethError A.
Definition nret {A} (a : A) : net A := λ k, (k, Ok a).
Definition nfail {A} (e : vethError) : net A := λ k, (k, Err e).
Definition nbind {A B} (m : net A) (f : A → net B) : net B :=
  λ k, match m k with (k', Ok a) => f a k' | (k', Err e) => (k', Err e) end.
(** The outcome of [m] as a value. *)
Definition ntry {A} (m : net A) : net (result vethError A) := λ k, let '(k', r) := m k in (k', Ok r).
(** [fmt.Errorf("...: %w", err)] *)
Definition nwrap {A} (wrap : vethError → vethError) (m : net A) : net A :=
  λ k, match m k with (k', Ok a) => (k', Ok a) | (k', Err e) => (k', Err (wrap e)) end.
(** A request whose failure is an error. *)
Definition request (op : K → K * bool) (e : vethError) : net unit :=
  λ k, let '(k', ok) := op k in (k', if ok then Ok () else Err e).
Definition ask {A} (op : K → K * option A) (e : vethError) : net A :=
  λ k, match op k with (k', Some a) => (k', Ok a) | (k', None) => (k', Err e) end.
(** A request whose outcome is not looked at. *)
Definition ignored (op : K → K * bool) : net unit := λ k, ((op k).1, Ok ()).

Fixpoint nfold {A S} (step : S → A → net S) (s : S) (l : list A) : net S :=
  match l with
  | [] => nret s
  | x :: l => nbind (step s x) (λ s, nfold step s l)
  end.

End computations.
Arguments net : clear implicits.

Notation "'let!' x ':=' m 'in' k" := (nbind m (λ x, k)) (at level 200, x name, m at level 100, k at level 200, right associativity) : c9s_scope.
Notation "m ;;! k" := (nbind m (λ _, k)) (at level 100, k at level 200, right associativity) : c9s_scope.

(** ** Veth pairs *)

Definition vethLinkType : string := "veth".

Record VethInterface := MkVethInterface {
  Veth_Name : string;
  Veth_PeerName : string;
  Veth_Owner : string
}.

Definition netlinkDumpAttempts : nat := 5.

Section links.
Context {K : Type} {netlink : Netlink K} {sort : GoSort} {sha : Sha256} (DefaultLinkMTU : Z).
#[local] Notation net := (net K).

(** An interrupted dump is tried again. *)
Fixpoint retryLinkDump (attempts : nat) : net (list Iface) :=
  match attempts with
  | O => nfail listingFailed
  | S attempts => λ k,
      match netLinkList k with
      | (k', Ok links) => (k', Ok links)
      | (k', Err dumpFailed) => (k', Err listingFailed)
      | (k', Err ErrDumpInterrupted) => retryLinkDump attempts k'
      end
  end.
Definition listPodLinks : net (list Iface) := retryLinkDump netlinkDumpAttempts.

Definition lookupLink (name : string) : net (option Iface) := ask (netLinkByName name) (lookupFailed name).

Definition listStep (linksByIndex : gmap Z Iface) (ownerPrefix : string) (found : list VethInterface) (link : Iface) :
    net (list VethInterface) :=
  if negb (HasPrefix (If_Alias link) ownerPrefix) then nret found
  else if negb (bool_decide (If_Type link = vethLinkType)) then nfail (ownedNotVeth (If_Name link))
  else
    let! peerIndex := ask (netVethPeerIndex link) (peerUnreadable (If_Name link)) in
    match linksByIndex !! peerIndex with
    | None => nfail (peerUnavailable (If_Name link))
    | Some peer => nret (found ++ [MkVethInterface (If_Name link) (If_Name peer) (If_Alias link)])
    end.

Definition ListVethInterfaces (ownerPrefix : string) : net (list VethInterface) :=
  if empty ownerPrefix then nfail ownerPrefixEmpty
  else
    let! links := listPodLinks in
    let linksByIndex : gmap Z Iface := foldl (λ m link, <[If_Index link := link]> m) ∅ links in
    let! found := nfold (listStep linksByIndex ownerPrefix) [] links in
    nret (SortFunc (onKey Veth_Name Compare) found).

Definition maxUint32 : Z := 2 ^ 32 - 1.

(** Both interfaces, or the error after the left one is taken down again. *)
Definition readPair (leftName rightName : string) (e : vethError) : net (option Iface * option Iface) :=
  let! leftLink := ntry (lookupLink leftName) in
  match leftLink with
  | Err _ => nfail e
  | Ok leftLink =>
      let! rightLink := ntry (lookupLink rightName) in
      match rightLink with
      | Err _ => match leftLink with Some leftLink => ignored (netLinkDel leftLink) | None => nret () end ;;! nfail e
      | Ok rightLink => nret (leftLink, rightLink)
      end
  end.

Definition setAlias (link : option Iface) (owner : string) : net unit :=
  match link with None => nfail nilDereference | Some link => request (netLinkSetAlias link owner) markingFailed end.

Definition createPair (leftName rightName : string) (mtu : Z) (owner : string) : net (option Iface * option Iface) :=
  request (netLinkAdd (MkVethRequest leftName owner mtu rightName mtu)) creatingFailed ;;!
  let! pair := readPair leftName rightName readingCreatedFailed in
  let! marked := ntry (setAlias pair.1 owner ;;! setAlias pair.2 owner) in
  match marked, pair.1 with
  | Err markingFailed, Some leftLink => ignored (netLinkDel leftLink) ;;! nfail markingFailed
  | Err e, _ => nfail e
  | Ok _, _ => readPair leftName rightName readingMarkedFailed
  end.

Definition configureStep (mtu : Z) (_ : unit) (link : Iface) : net unit :=
  (if negb (mtu =? 0) && negb (If_MTU link =? mtu) then request (netLinkSetMTU link mtu) settingMTUFailed else nret ()) ;;!
  if negb (If_Up link) then request (netLinkSetUp link) bringingUpFailed else nret ().

(** A pair that was just made is taken down before the error. *)
Definition failPair {A} (created : bool) (leftLink : Iface) (e : vethError) : net A :=
  (if created then ignored (netLinkDel leftLink) else nret ()) ;;! nfail e.

(** The pair has to be ours before anything of it is changed. *)
Definition finishPair (created : bool) (leftLink rightLink : Iface) (mtu : Z) (owner : string) : net unit :=
  if negb (bool_decide (If_Type leftLink = vethLinkType)) || negb (bool_decide (If_Type rightLink = vethLinkType))
     || negb (bool_decide (If_Alias leftLink = owner)) || negb (bool_decide (If_Alias rightLink = owner))
  then failPair created leftLink foreignState
  else
    let! peerIndex := ntry (ask (netVethPeerIndex leftLink) notPeers) in
    match peerIndex with
    | Err _ => failPair created leftLink notPeers
    | Ok peerIndex =>
        if negb (peerIndex =? If_Index rightLink) then failPair created leftLink notPeers
        else nfold (configureStep mtu) () [leftLink; rightLink]
    end.

Definition EnsureVethPair (leftName rightName : string) (mtu : Z) (owner : string) : net unit :=
  if (mtu <? 0) || (maxUint32 <? mtu) then nfail mtuOutOfRange
  else
    let! leftLink := lookupLink leftName in
    let! rightLink := lookupLink rightName in
    if negb (eqb (bool_decide (is_Some leftLink)) (bool_decide (is_Some rightLink))) then nfail onlyOneEndpoint
    else
      let created := negb (bool_decide (is_Some leftLink)) in
      let! pair := (if created then createPair leftName rightName mtu owner else nret (leftLink, rightLink)) in
      match pair with
      | (Some leftLink, Some rightLink) => finishPair created leftLink rightLink mtu owner
      | _ => nfail nilDereference
      end.

Definition DeleteVethPair (name owner : string) : net unit :=
  if empty name || empty owner then nfail deletionIdentityIncomplete
  else
    let! link := lookupLink name in
    match link with
    | None => nret ()
    | Some link =>
        if negb (bool_decide (If_Type link = vethLinkType)) || negb (bool_decide (If_Alias link = owner)) then nfail (notOwnedVeth name)
        else
          let! peerIndex := ask (netVethPeerIndex link) (peerUnreadable name) in
          let! peer := ask (netLinkByIndex peerIndex) (peerUnreadable name) in
          if negb (bool_decide (If_Type peer = vethLinkType)) || negb (bool_decide (If_Alias peer = owner))
          then nfail (peerOfAnotherOwner name)
          else request (netLinkDel link) (deletingFailed name)
    end.

(** ** Owners *)

Definition directLinkOwnerPrefix : string := "c9s:direct:v1:".
Definition directVethOwnerType : string := "veth".

Definition identityDigest (identity : string) : string := TrimPrefix (Digest identity) "sha256:".
Definition directLinkPodOwnerPrefix (podUID ownerType : string) : string :=
  directLinkOwnerPrefix +:+ identityDigest podUID +:+ ":" +:+ ownerType +:+ ":".
Definition localLinkPodOwnerPrefix (podUID : string) : string := directLinkPodOwnerPrefix podUID directVethOwnerType.
Definition directLinkOwner (podUID ownerType linkUID leftNodeUID rightNodeUID : string) : string :=
  directLinkPodOwnerPrefix podUID ownerType +:+ identityDigest linkUID +:+ ":" +:+
    identityDigest (Join (sort_strings [leftNodeUID; rightNodeUID]) (String (char 0) "")).

(** ** The local links of a plan *)

Record desiredVethPair := MkDesiredVethPair {
  Pair_linkUID : string;
  Pair_left : string;
  Pair_right : string;
  Pair_mtu : Z;
  Pair_owner : string
}.

Definition desiredPair (podUID linkID : string) (endpoints : list InterfacePlan) : option desiredVethPair :=
  match SortFunc (onKey InterfacePlan_ID Compare) endpoints with
  | a :: b :: _ =>
      let mtu := InterfacePlan_MTU a in
      let mtu := if mtu =? 0 then InterfacePlan_MTU b else mtu in
      let mtu := if mtu =? 0 then DefaultLinkMTU else mtu in
      Some (MkDesiredVethPair linkID (InterfacePlan_Name a) (InterfacePlan_Name b) mtu
              (directLinkOwner podUID directVethOwnerType linkID (InterfacePlan_NodeID a) (InterfacePlan_NodeID b)))
  | _ => None
  end.

(** [None]: an endpoint of a link is missing, and the access to it panics. *)
Definition desiredLocalVethPairs (plan : Plan) (podUID : string) : option (list desiredVethPair) :=
  let links := foldl (appendTo InterfacePlan_LinkID) ∅ (List.filter localConnectivity (Plan_Interfaces plan)) in
  mapM (λ linkID, desiredPair podUID linkID (default [] (links !! linkID))) (sorted_keys links).

Definition staleStep (existingByOwner : gmap string (list VethInterface)) (desiredByOwner : gmap string desiredVethPair)
    (stale : list VethInterface) (owner : string) : result vethError (list VethInterface) :=
  match SortFunc (onKey Veth_Name Compare) (default [] (existingByOwner !! owner)) with
  | [a; b] =>
      if negb (bool_decide (Veth_PeerName a = Veth_Name b)) || negb (bool_decide (Veth_PeerName b = Veth_Name a)) then Err notOnePair
      else
        match desiredByOwner !! owner with
        | Some desired =>
            if (bool_decide (Veth_Name a = Pair_left desired) && bool_decide (Veth_Name b = Pair_right desired))
               || (bool_decide (Veth_Name a = Pair_right desired) && bool_decide (Veth_Name b = Pair_left desired))
            then Ok stale else Ok (stale ++ [a])
        | None => Ok (stale ++ [a])
        end
  | _ => Err notOnePair
  end.

Definition staleLocalVethPairs (existing : list VethInterface) (ownerPrefix : string)
    (desiredByOwner : gmap string desiredVethPair) : result vethError (list VethInterface) :=
  if negb (forallb (λ intf, HasPrefix (Veth_Owner intf) ownerPrefix) existing) then Err stateOutsideOwner
  else
    let existingByOwner := foldl (appendTo Veth_Owner) ∅ existing in
    rfold (staleStep existingByOwner desiredByOwner) [] (sorted_keys existingByOwner).

Definition removeLocalVethPairs (stale : list VethInterface) : net unit :=
  nfold (λ _ intf, nwrap removingStale (DeleteVethPair (Veth_Name intf) (Veth_Owner intf))) () stale.

Definition removeStaleLocalVethPairs (existing : list VethInterface) (ownerPrefix : string)
    (desiredByOwner : gmap string desiredVethPair) : net unit :=
  match staleLocalVethPairs existing ownerPrefix desiredByOwner with
  | Err e => nfail e
  | Ok stale => removeLocalVethPairs stale
  end.

Definition ensurePairs (desired : list desiredVethPair) : net unit :=
  nfold (λ _ pair, nwrap (realizing (Pair_linkUID pair))
           (EnsureVethPair (Pair_left pair) (Pair_right pair) (Pair_mtu pair) (Pair_owner pair))) () desired.

Definition reconcileLocalInterfaces (plan : Plan) (podUID : string) : net unit :=
  if empty podUID then (if bool_decide (Plan_Interfaces plan = []) then nret () else nfail podIdentityInvalid)
  else
    let ownerPrefix := localLinkPodOwnerPrefix podUID in
    match desiredLocalVethPairs plan podUID with
    | None => nfail indexOutOfRange
    | Some desired =>
        let desiredByOwner : gmap string desiredVethPair := foldl (λ m pair, <[Pair_owner pair := pair]> m) ∅ desired in
        let! existing := nwrap inventorying (ListVethInterfaces ownerPrefix) in
        removeStaleLocalVethPairs existing ownerPrefix desiredByOwner ;;!
        ensurePairs desired
    end.
End links.
