(* ===== verification/LocalLinksTheorems.v ===== *)
(** * Local links of a Pod: what is realized and what is left alone

    The operations of [LocalLinks] are specified by triples over what the kernel holds, and
    composed to the theorems of a pass: no interface of somebody else is touched, and a pass
    that succeeds leaves exactly the local links of the plan. *)

From S2P Require Import Prelude WireCodec Api GoStrings GoNet GoSort LinkAllocation DevicePlanTypes Management.
From S2P Require Import PlanValidation PlanSpec PlanAcceptance PlanCodec PlanCanonical PlanTheorems PlanCapabilities PlanCapabilitiesTheorems LocalLinks.
Local Open Scope Z_scope.

(** ** What is relied on of the kernel *)

(** An interface, with the name of its peer if it is one end of a pair in this namespace. *)
Record Observed := MkObserved {
  O_Iface : Iface;
  O_Peer : option string
}.
#[export] Instance Observed_updatable : Updatable Observed := λ o, MkObserved (O_Iface o) (O_Peer o).
Notation kernelLinks := (gmap string Observed).
Definition aliasOf (o : Observed) : string := If_Alias (O_Iface o).
Definition typeOf (o : Observed) : string := If_Type (O_Iface o).

Record wfLinks (σ : kernelLinks) : Prop := {
  wf_name : ∀ n o, σ !! n = Some o → If_Name (O_Iface o) = n;
  wf_index : ∀ n m o o', σ !! n = Some o → σ !! m = Some o' → If_Index (O_Iface o) = If_Index (O_Iface o') → n = m;
  wf_peer : ∀ n m o, σ !! n = Some o → O_Peer o = Some m →
    m ≠ n ∧ typeOf o = vethLinkType ∧ ∃ o', σ !! m = Some o' ∧ O_Peer o' = Some n ∧ typeOf o' = vethLinkType
}.

(** Requests answer from the interfaces there are, and change what they say, or fail and change
    nothing; the two ends of a new pair are each other's peers, and go together. *)
Record lawfulNetlink {K} {netlink : Netlink K} (view : K → kernelLinks) : Prop := {
  view_wf : ∀ k, wfLinks (view k);
  list_law : ∀ k, view (netLinkList k).1 = view k
    ∧ ∀ l, (netLinkList k).2 = Ok l → l ≡ₚ O_Iface <$> (map_to_list (view k)).*2;
  name_law : ∀ n k, view (netLinkByName n k).1 = view k
    ∧ ∀ x, (netLinkByName n k).2 = Some x → x = O_Iface <$> view k !! n;
  index_law : ∀ j k, view (netLinkByIndex j k).1 = view k
    ∧ ∀ i, (netLinkByIndex j k).2 = Some i → ∃ o, view k !! If_Name i = Some o ∧ O_Iface o = i ∧ If_Index i = j;
  peer_law : ∀ i k, view (netVethPeerIndex i k).1 = view k
    ∧ ∀ j o m, (netVethPeerIndex i k).2 = Some j → view k !! If_Name i = Some o → O_Peer o = Some m →
        ∃ o', view k !! m = Some o' ∧ If_Index (O_Iface o') = j;
  add_law : ∀ q k, if (netLinkAdd q k).2
    then view k !! VR_Name q = None ∧ view k !! VR_PeerName q = None ∧ VR_Name q ≠ VR_PeerName q
      ∧ ∃ a b, view (netLinkAdd q k).1 = <[VR_Name q := a]> (<[VR_PeerName q := b]> (view k))
        ∧ O_Peer a = Some (VR_PeerName q) ∧ O_Peer b = Some (VR_Name q) ∧ typeOf a = vethLinkType ∧ typeOf b = vethLinkType
    else view (netLinkAdd q k).1 = view k;
  alias_law : ∀ i a k, if (netLinkSetAlias i a k).2
    then ∃ o, view k !! If_Name i = Some o
      ∧ view (netLinkSetAlias i a k).1 = <[If_Name i := o <| O_Iface := O_Iface o <| If_Alias := a |> |>]> (view k)
    else view (netLinkSetAlias i a k).1 = view k;
  mtu_law : ∀ i mtu k, if (netLinkSetMTU i mtu k).2
    then ∃ o, view k !! If_Name i = Some o
      ∧ view (netLinkSetMTU i mtu k).1 = <[If_Name i := o <| O_Iface := O_Iface o <| If_MTU := mtu |> |>]> (view k)
    else view (netLinkSetMTU i mtu k).1 = view k;
  up_law : ∀ i k, if (netLinkSetUp i k).2
    then ∃ o, view k !! If_Name i = Some o
      ∧ view (netLinkSetUp i k).1 = <[If_Name i := o <| O_Iface := O_Iface o <| If_Up := true |> |>]> (view k)
    else view (netLinkSetUp i k).1 = view k;
  del_law : ∀ i k, if (netLinkDel i k).2
    then ∃ o, view k !! If_Name i = Some o
      ∧ view (netLinkDel i k).1 = delete (If_Name i) (match O_Peer o with Some m => delete m (view k) | None => view k end)
    else view (netLinkDel i k).1 = view k
}.

Section links.
Context {K : Type} {netlink : Netlink K} {sort : GoSort} {sha : Sha256} (DefaultLinkMTU : Z).
Context (view : K → kernelLinks) (Hlaw : lawfulNetlink view).
#[local] Notation net := (net K).

(** A Go panic. *)
Fixpoint panicked (e : vethError) : bool :=
  match e with
  | nilDereference | indexOutOfRange => true
  | inventorying e | removingStale e | realizing _ e => panicked e
  | _ => false
  end.

(** ** Triples *)

Definition triple {A} (P : kernelLinks → Prop) (m : net A) (Q : result vethError A → kernelLinks → Prop) : Prop :=
  ∀ k, P (view k) → Q (m k).2 (view (m k).1).

Lemma triple_ret {A} (P : kernelLinks → Prop) (a : A) Q : (∀ σ, P σ → Q (Ok a) σ) → triple P (nret a) Q.
Proof. intros H k Hk. by apply H. Qed.
Lemma triple_fail {A} (P : kernelLinks → Prop) e (Q : result vethError A → kernelLinks → Prop) :
  (∀ σ, P σ → Q (Err e) σ) → triple P (nfail e) Q.
Proof. intros H k Hk. by apply H. Qed.
Lemma triple_bind {A B} P (m : net A) R (f : A → net B) Q :
  triple P m R → (∀ a, triple (R (Ok a)) (f a) Q) → (∀ e σ, R (Err e) σ → Q (Err e) σ) → triple P (nbind m f) Q.
Proof.
  intros Hm Hf He k Hk. specialize (Hm k Hk). unfold nbind. destruct (m k) as [k' [a|e]]; cbn in *; [by apply Hf|by apply He].
Qed.
Lemma triple_try {A B} P (m : net A) R (f : result vethError A → net B) Q :
  triple P m R → (∀ r, triple (R r) (f r) Q) → triple P (nbind (ntry m) f) Q.
Proof. intros Hm Hf k Hk. specialize (Hm k Hk). unfold nbind, ntry. destruct (m k) as [k' r]; cbn in *. by apply Hf. Qed.
Lemma triple_wrap {A} P wrap (m : net A) (R Q : result vethError A → kernelLinks → Prop) :
  triple P m R → (∀ a σ, R (Ok a) σ → Q (Ok a) σ) → (∀ e σ, R (Err e) σ → Q (Err (wrap e)) σ) → triple P (nwrap wrap m) Q.
Proof. intros Hm Ha He k Hk. specialize (Hm k Hk). unfold nwrap. destruct (m k) as [k' [a|e]]; cbn in *; auto. Qed.
Lemma triple_pre {A} P (m : net A) Q : (∀ σ, wfLinks σ → P σ → triple (σ =.) m Q) → triple P m Q.
Proof. intros H k Hk. apply (H (view k)); [apply (view_wf _ Hlaw)|done..]. Qed.
Lemma triple_post {A} P (m : net A) (Q Q' : result vethError A → kernelLinks → Prop) :
  triple P m Q → (∀ r σ, Q r σ → Q' r σ) → triple P m Q'.
Proof. intros Hm H k Hk. apply H. by apply Hm. Qed.
Lemma triple_fold {A S} (I : S → list A → kernelLinks → Prop) (E : vethError → kernelLinks → Prop) (step : S → A → net S) l s :
  (∀ s x l, triple (I s (x :: l)) (step s x) (λ r σ, match r with Ok s' => I s' l σ | Err e => E e σ end)) →
  triple (I s l) (nfold step s l) (λ r σ, match r with Ok s' => I s' [] σ | Err e => E e σ end).
Proof.
  intros Hstep. revert s. induction l as [|x l IH]; intros s; cbn [nfold]; [by apply triple_ret|].
  eapply triple_bind; [apply Hstep|intros a; apply IH|done].
Qed.

(** Reading requests leave the kernel as it is. *)
Lemma triple_ask {A} (op : K → K * option A) e σ (R : A → Prop) :
  (∀ k, view k = σ → view (op k).1 = σ ∧ ∀ a, (op k).2 = Some a → R a) →
  triple (σ =.) (ask op e) (λ r σ', σ' = σ ∧ match r with Ok a => R a | Err e' => e' = e end).
Proof.
  intros H k ->. destruct (H k eq_refl) as [Hv Ha]. unfold ask. destruct (op k) as [k' [a|]]; cbn in *; [|done]. split; [done|]. by apply Ha.
Qed.
Lemma triple_request (op : K → K * bool) e σ (R : kernelLinks → Prop) :
  (∀ k, view k = σ → if (op k).2 then R (view (op k).1) else view (op k).1 = σ) →
  triple (σ =.) (request op e) (λ r σ', match r with Ok _ => R σ' | Err e' => e' = e ∧ σ' = σ end).
Proof. intros H k ->. specialize (H k eq_refl). unfold request. destruct (op k) as [k' []]; cbn in *; done. Qed.
Lemma triple_ignored (op : K → K * bool) σ (R : kernelLinks → Prop) :
  (∀ k, view k = σ → if (op k).2 then R (view (op k).1) else view (op k).1 = σ) →
  triple (σ =.) (ignored op) (λ r σ', r = Ok () ∧ (R σ' ∨ σ' = σ)).
Proof. intros H k ->. specialize (H k eq_refl). unfold ignored. destruct (op k) as [k' []]; cbn in *; auto. Qed.

Lemma lookup_spec n σ :
  triple (σ =.) (lookupLink n) (λ r σ', σ' = σ ∧ match r with Ok x => x = O_Iface <$> σ !! n | Err e => e = lookupFailed n end).
Proof. apply triple_ask. intros k <-. apply (name_law _ Hlaw). Qed.

(** ** Making a pair *)

(** The pair [l], [r] is new. *)
Definition newPair (l r : string) (σ σ' : kernelLinks) (a b : Observed) : Prop :=
  σ !! l = None ∧ σ !! r = None ∧ l ≠ r ∧ σ' = <[l := a]> (<[r := b]> σ)
  ∧ O_Peer a = Some r ∧ O_Peer b = Some l ∧ typeOf a = vethLinkType ∧ typeOf b = vethLinkType.

Lemma newPair_lookup l r σ σ' a b : newPair l r σ σ' a b → σ' !! l = Some a ∧ σ' !! r = Some b.
Proof. intros (? & ? & ? & -> & _). rewrite lookup_insert_eq, lookup_insert_ne, lookup_insert_eq by done. done. Qed.
Lemma newPair_delete l r σ σ' a b : newPair l r σ σ' a b → delete l (delete r σ') = σ.
Proof.
  intros (Hl & Hr & Hne & -> & _). apply map_eq. intros n. destruct (decide (n = l)) as [->|Hl']; [by rewrite lookup_delete_eq|].
  rewrite lookup_delete_ne by done. destruct (decide (n = r)) as [->|Hr']; [by rewrite lookup_delete_eq|].
  by rewrite lookup_delete_ne, !lookup_insert_ne by done.
Qed.

(** Taking the new pair down restores what was there. *)
Lemma undo_spec {A} l r σ σ' a b i e :
  newPair l r σ σ' a b → If_Name i = l →
  triple (σ' =.) (ignored (netLinkDel i) ;;! nfail (A := A) e) (λ res σ'', res = Err e ∧ (σ'' = σ ∨ σ'' = σ')).
Proof.
  intros Hn Hname. eapply triple_bind with (R := λ res σ'', res = Ok () ∧ (σ'' = σ ∨ σ'' = σ'));
    [|intros []; apply triple_fail; by intros ? []|by intros ? ? []].
  apply triple_ignored. intros k <-. pose proof (del_law _ Hlaw i k) as H.
  destruct (netLinkDel i k) as [k' []]; cbn in *; [|done]. destruct H as (o & Ho & ->). rewrite Hname in *.
  destruct (newPair_lookup _ _ _ _ _ _ Hn) as [Hl _]. rewrite Hl in Ho. injection Ho as <-.
  rewrite (proj1 (proj2 (proj2 (proj2 (proj2 Hn))))). by apply newPair_delete in Hn.
Qed.

Lemma readPair_spec l r σ σ' a b e :
  newPair l r σ σ' a b →
  triple (σ' =.) (readPair l r e)
    (λ res σ'', match res with Ok read => read = (Some (O_Iface a), Some (O_Iface b)) ∧ σ'' = σ'
                          | Err e' => e' = e ∧ (σ'' = σ ∨ σ'' = σ') end).
Proof.
  intros Hn. destruct (newPair_lookup _ _ _ _ _ _ Hn) as [Hl Hr]. unfold readPair.
  eapply triple_try; [apply lookup_spec|]. intros [x|e1]; [|apply triple_fail; naive_solver].
  apply triple_pre. intros ? Hwf [-> ->]. rewrite Hl. cbn [fmap option_fmap option_map].
  eapply triple_try; [apply lookup_spec|]. intros [y|e2].
  - apply triple_ret. rewrite Hr. by intros ? [-> ->].
  - apply triple_pre. intros ? _ [-> _]. eapply triple_post; [apply (undo_spec l r σ σ' a b); [done|by apply (wf_name _ Hwf)]|].
    by intros ? ? [-> ?].
Qed.

Lemma setAlias_spec l r σ σ' a b owner :
  newPair l r σ σ' a b → If_Name (O_Iface a) = l → If_Name (O_Iface b) = r →
  triple (σ' =.) (setAlias (Some (O_Iface a)) owner ;;! setAlias (Some (O_Iface b)) owner)
    (λ res σ'', match res with
       | Ok _ => newPair l r σ σ'' (a <| O_Iface := O_Iface a <| If_Alias := owner |> |>) (b <| O_Iface := O_Iface b <| If_Alias := owner |> |>)
       | Err e => e = markingFailed ∧ (σ'' = σ' ∨ ∃ a', newPair l r σ σ'' a' b ∧ If_Name (O_Iface a') = l) end).
Proof.
  intros Hn Hla Hrb. destruct (newPair_lookup _ _ _ _ _ _ Hn) as [Hl Hr].
  assert (Hn' := Hn). destruct Hn' as (Fl & Fr & Hne & Hσ & Pa & Pb & Ta & Tb).
  eapply triple_bind with (R := λ res σ'', match res with
    | Ok _ => newPair l r σ σ'' (a <| O_Iface := O_Iface a <| If_Alias := owner |> |>) b
    | Err e => e = markingFailed ∧ σ'' = σ' end).
  - apply triple_request. intros k <-. pose proof (alias_law _ Hlaw (O_Iface a) owner k) as H.
    destruct (netLinkSetAlias _ _ k) as [k' []]; cbn in *; [|done]. destruct H as (o & Ho & ->). rewrite Hla, Hl in Ho.
    injection Ho as <-. rewrite Hla, Hσ, insert_insert_eq. by repeat split.
  - intros []. apply triple_pre. intros σ1 _ Hn1. eapply triple_post; [apply (triple_request _ _ _ (λ σ2,
      newPair l r σ σ2 (a <| O_Iface := O_Iface a <| If_Alias := owner |> |>) (b <| O_Iface := O_Iface b <| If_Alias := owner |> |>)))|].
    + intros k <-. pose proof (alias_law _ Hlaw (O_Iface b) owner k) as H.
      destruct (netLinkSetAlias _ _ k) as [k' []]; cbn in *; [|done]. destruct H as (o & Ho & ->).
      destruct (newPair_lookup _ _ _ _ _ _ Hn1) as [_ Hr1]. rewrite Hrb, Hr1 in Ho. injection Ho as <-.
      destruct Hn1 as (_ & _ & _ & -> & _). rewrite Hrb, insert_insert_ne by done. rewrite insert_insert_eq. by repeat split.
    + intros [[]|e] σ2 H; [done|]. destruct H as [-> ->]. split; [done|]. right. eexists. split; [exact Hn1|done].
  - intros e σ1 [-> ->]. auto.
Qed.

Lemma createPair_spec l r mtu owner σ :
  triple (σ =.) (createPair l r mtu owner)
    (λ res σ', match res with
       | Ok made => ∃ a b, newPair l r σ σ' a b ∧ made = (Some (O_Iface a), Some (O_Iface b)) ∧ aliasOf a = owner ∧ aliasOf b = owner
       | Err e => panicked e = false ∧ (σ' = σ ∨ ∃ a b, newPair l r σ σ' a b) end).
Proof.
  unfold createPair. eapply triple_bind with (R := λ res σ', match res with Ok _ => ∃ a b, newPair l r σ σ' a b | Err e => e = creatingFailed ∧ σ' = σ end).
  { apply (triple_request _ _ _ (λ σ', ∃ a b, newPair l r σ σ' a b)).
    intros k <-. pose proof (add_law _ Hlaw (MkVethRequest l owner mtu r mtu) k) as H.
    destruct (netLinkAdd _ k) as [k' []]; cbn in *; [|done]. destruct H as (? & ? & ? & a & b & ? & ? & ? & ? & ?). by exists a, b. }
  2: { intros e σ' [-> ->]. auto. }
  intros []. apply triple_pre. intros σ1 Hwf1 (a & b & Hn). destruct (newPair_lookup _ _ _ _ _ _ Hn) as [Hl Hr].
  pose proof (wf_name _ Hwf1 _ _ Hl) as Hla. pose proof (wf_name _ Hwf1 _ _ Hr) as Hrb.
  eapply triple_bind; [apply (readPair_spec _ _ _ _ _ _ _ Hn)| |].
  2: { intros e σ2 [-> [-> | ->]]; (split; [done|]); [by left|]. right. by exists a, b. }
  intros pair. apply triple_pre. intros σ2 _ [-> ->]. cbn [fst snd].
  eapply triple_try; [apply (setAlias_spec l r σ σ1 a b owner Hn Hla Hrb)|].
  intros [[]|e].
  - apply triple_pre. intros σ2 Hwf2 Hn2. eapply triple_post; [apply (readPair_spec _ _ _ _ _ _ _ Hn2)|].
    intros [pair|e] σ3.
    + intros [-> ->]. do 2 eexists. by split.
    + intros [-> [-> | ->]]; (split; [done|]); [by left|]. right. by do 2 eexists.
  - apply triple_pre. intros σ2 Hwf2 [-> H]. assert (∃ a', newPair l r σ σ2 a' b ∧ If_Name (O_Iface a') = l) as (a' & Hn2 & Hla').
    { destruct H as [->|H]; [by exists a|done]. }
    eapply triple_post; [apply (undo_spec l r σ σ2 a' b); done|]. intros ? σ3 [-> [-> | ->]]; (split; [done|]); [by left|].
    right. by exists a', b.
Qed.

(** ** What an operation may change *)

(** Nothing outside of the names [N], nothing that is marked otherwise, and no new loose ends. *)
Record steps (prefix : string) (N : gset string) (σ σ' : kernelLinks) : Prop := {
  st_other : ∀ n, n ∉ N → σ' !! n = σ !! n;
  st_foreign : ∀ n o, σ !! n = Some o → HasPrefix (aliasOf o) prefix = false → σ' !! n = Some o;
  st_peer : ∀ n o', σ' !! n = Some o' → O_Peer o' = None →
    ∃ o, σ !! n = Some o ∧ O_Peer o = None ∧ aliasOf o = aliasOf o' ∧ typeOf o = typeOf o'
}.

Lemma steps_refl prefix N σ : steps prefix N σ σ.
Proof. constructor; [done..|eauto]. Qed.
Lemma steps_trans prefix N M σ1 σ2 σ3 : steps prefix N σ1 σ2 → steps prefix M σ2 σ3 → steps prefix (N ∪ M) σ1 σ3.
Proof.
  intros [A1 A2 A3] [B1 B2 B3]. constructor.
  - intros n Hn. rewrite B1, A1 by set_solver. done.
  - eauto.
  - intros n o3 H3 Hp3. destruct (B3 n o3 H3 Hp3) as (o2 & H2 & Hp2 & Ha2 & Ht2). destruct (A3 n o2 H2 Hp2) as (o1 & ? & ? & ? & ?).
    exists o1. split_and!; [done..|congruence|congruence].
Qed.

Lemma steps_new prefix l r σ σ' a b : newPair l r σ σ' a b → steps prefix {[l; r]} σ σ'.
Proof.
  intros Hn. assert (Hn' := Hn). destruct Hn' as (Fl & Fr & Hne & Hσ & Pa & Pb & _ & _). constructor.
  - intros n Hn'. rewrite Hσ, !lookup_insert_ne by set_solver. done.
  - intros n o Ho _. rewrite Hσ, !lookup_insert_ne; [done|congruence..].
  - intros n o' Ho' Hp. rewrite Hσ in Ho'. apply lookup_insert_Some in Ho' as [[<- <-]|[_ [[<- <-]|[_ Ho']]%lookup_insert_Some]]; [congruence..|].
    eauto.
Qed.

(** Only the MTU and the state of an interface are different. *)
Definition tuned (o o' : Observed) : Prop :=
  O_Peer o' = O_Peer o ∧ If_Index (O_Iface o') = If_Index (O_Iface o) ∧ If_Name (O_Iface o') = If_Name (O_Iface o)
  ∧ typeOf o' = typeOf o ∧ aliasOf o' = aliasOf o.

Lemma steps_tuned prefix n σ o o' :
  σ !! n = Some o → HasPrefix (aliasOf o) prefix = true → tuned o o' → steps prefix {[n]} σ (<[n := o']> σ).
Proof.
  intros Ho Hm (Hp & _ & _ & Ht & Ha). constructor.
  - intros m Hm'. rewrite lookup_insert_ne by set_solver. done.
  - intros m o1 H1 Hf. destruct (decide (n = m)) as [->|]; [|by rewrite lookup_insert_ne]. congruence.
  - intros m o1 [[<- <-]|[_ H1]]%lookup_insert_Some Hp1; [|eauto]. exists o. split_and!; congruence || done.
Qed.

Lemma configure_spec n o mtu σ :
  σ !! n = Some o → If_Name (O_Iface o) = n →
  triple (σ =.) (configureStep mtu () (O_Iface o))
    (λ res σ', ∃ o', σ' = <[n := o']> σ ∧ tuned o o'
       ∧ match res with Ok _ => If_Up (O_Iface o') = true ∧ (mtu ≠ 0 → If_MTU (O_Iface o') = mtu) | Err e => panicked e = false end).
Proof.
  intros Ho Hname. unfold configureStep.
  eapply triple_bind with (R := λ res σ', ∃ o1, σ' = <[n := o1]> σ ∧ tuned o o1 ∧ If_Up (O_Iface o1) = If_Up (O_Iface o)
    ∧ match res with Ok _ => mtu ≠ 0 → If_MTU (O_Iface o1) = mtu | Err e => panicked e = false end).
  - destruct (_ && _) eqn:Hc.
    + eapply triple_post; [apply (triple_request _ _ _ (λ σ', σ' = <[n := o <| O_Iface := O_Iface o <| If_MTU := mtu |> |>]> σ))|].
      * intros k <-. pose proof (mtu_law _ Hlaw (O_Iface o) mtu k) as H. destruct (netLinkSetMTU _ _ k) as [k' []]; cbn in *; [|done].
        destruct H as (o1 & Ho1 & ->). rewrite Hname, Ho in Ho1. injection Ho1 as <-. by rewrite Hname.
      * intros [[]|e] σ'; [intros ->; by eexists|]. intros [-> ->]. exists o. by rewrite insert_id.
    + apply triple_ret. intros ? <-. exists o. rewrite insert_id by done. split_and!; [done..|]. intros Hm.
      apply andb_false_iff in Hc as [Hc|Hc]; apply negb_false_iff, Z.eqb_eq in Hc; done.
  - intros []. apply triple_pre. intros σ1 _ (o1 & -> & Ht & Hu & Hm). destruct (If_Up (O_Iface o)) eqn:Hup; cbn [negb].
    + apply triple_ret. intros ? <-. exists o1. by rewrite Hu.
    + eapply triple_post; [apply (triple_request _ _ _ (λ σ', σ' = <[n := o1 <| O_Iface := O_Iface o1 <| If_Up := true |> |>]> σ))|].
      * intros k Hk. pose proof (up_law _ Hlaw (O_Iface o) k) as H. rewrite Hk in H. destruct (netLinkSetUp _ k) as [k' []]; cbn in *; [|done].
        destruct H as (o2 & Ho2 & ->). rewrite Hname, lookup_insert_eq in Ho2. injection Ho2 as <-. by rewrite Hname, insert_insert_eq.
      * intros [[]|e] σ'; [intros ->; by eexists|]. intros [-> ->]. by exists o1.
  - intros e σ' (o1 & -> & Ht & _ & He). by exists o1.
Qed.

(** ** Making sure of a pair *)

Definition paired (σ : kernelLinks) (l r : string) (mtu : Z) (owner : string) : Prop :=
  ∃ a b, σ !! l = Some a ∧ σ !! r = Some b ∧ O_Peer a = Some r ∧ O_Peer b = Some l
  ∧ (typeOf a = vethLinkType ∧ typeOf b = vethLinkType) ∧ (aliasOf a = owner ∧ aliasOf b = owner)
  ∧ (If_Up (O_Iface a) = true ∧ If_Up (O_Iface b) = true)
  ∧ (mtu ≠ 0 → If_MTU (O_Iface a) = mtu ∧ If_MTU (O_Iface b) = mtu).

(** The ends of the Pod's own pairs are in its namespace. *)
Definition ownedPeers (prefix : string) (σ : kernelLinks) : Prop :=
  ∀ n o, σ !! n = Some o → HasPrefix (aliasOf o) prefix = true → typeOf o = vethLinkType → is_Some (O_Peer o).

Lemma ownedPeers_steps prefix N σ σ' : steps prefix N σ σ' → ownedPeers prefix σ → ownedPeers prefix σ'.
Proof.
  intros Hs Ho n o' Hn Ha Ht. destruct (O_Peer o') as [m|] eqn:Hp; [by eexists|].
  destruct (st_peer _ _ _ _ Hs _ _ Hn Hp) as (o & H1 & H2 & H3 & H4). destruct (Ho n o H1) as [? ?]; congruence.
Qed.

(** Both ends are there, marked and each other's peers. *)
Definition ends (σ : kernelLinks) (l r owner : string) (a b : Observed) : Prop :=
  σ !! l = Some a ∧ σ !! r = Some b ∧ O_Peer a = Some r ∧ O_Peer b = Some l ∧ typeOf a = vethLinkType ∧ typeOf b = vethLinkType
  ∧ aliasOf a = owner ∧ aliasOf b = owner.

Lemma configured_spec prefix l r owner mtu σ a b :
  HasPrefix owner prefix = true → ends σ l r owner a b → wfLinks σ → l ≠ r →
  triple (σ =.) (nfold (configureStep mtu) () [O_Iface a; O_Iface b])
    (λ res σ', steps prefix {[l; r]} σ σ' ∧ (res = Ok () → paired σ' l r mtu owner) ∧ (∀ e, res = Err e → panicked e = false)).
Proof.
  intros Hp (Ha & Hb & Pa & Pb & Ta & Tb & Oa & Ob) Hwf Hne. cbn [nfold].
  eapply triple_bind; [apply (configure_spec l a mtu σ Ha), (wf_name _ Hwf _ _ Ha)| |].
  2: { intros e σ1 (a1 & -> & Ht & He). split_and!; [|done|by intros ? [= <-]].
       eapply steps_trans with (N := {[l]}) (M := {[r]}); [by eapply steps_tuned; [|rewrite Oa|]|apply steps_refl]. }
  intros []. apply triple_pre. intros σ1 Hwf1 (a1 & -> & Hta & Hua & Hma).
  assert (<[l := a1]> σ !! r = Some b) as Hb1 by (by rewrite lookup_insert_ne).
  assert (steps prefix {[l]} σ (<[l := a1]> σ)) as S1 by (by eapply steps_tuned; [|rewrite Oa|]).
  eapply triple_bind; [apply (configure_spec r b mtu _ Hb1), (wf_name _ Hwf _ _ Hb)| |].
  2: { intros e σ2 (b1 & -> & Ht & He). split_and!; [|done|by intros ? [= <-]].
       eapply steps_trans; [exact S1|by eapply steps_tuned; [|rewrite Ob|]]. }
  intros []. apply triple_ret. intros σ2 (b1 & -> & Htb & Hub & Hmb). split_and!; [|intros _|done].
  - eapply steps_trans; [exact S1|by eapply steps_tuned; [|rewrite Ob|]].
  - destruct Hta as (A1 & A2 & A3 & A4 & A5), Htb as (B1 & B2 & B3 & B4 & B5). exists a1, b1.
    rewrite lookup_insert_ne, !lookup_insert_eq by done. split_and!; [done..|congruence|congruence|congruence|congruence|congruence|congruence|done|done|tauto].
Qed.

(** What is established of a pair, or left as it was. *)
Definition ensured (prefix l r : string) (mtu : Z) (owner : string) (σ : kernelLinks) (res : result vethError unit) (σ' : kernelLinks) : Prop :=
  steps prefix {[l; r]} σ σ' ∧ (res = Ok () → paired σ' l r mtu owner) ∧ (∀ e, res = Err e → panicked e = false).

Lemma ensured_err prefix l r mtu owner σ e : panicked e = false → ensured prefix l r mtu owner σ (Err e) σ.
Proof. intros He. split_and!; [apply steps_refl|done|by intros ? [= <-]]. Qed.

Lemma finish_existing prefix l r mtu owner σ a b :
  HasPrefix owner prefix = true → ownedPeers prefix σ → wfLinks σ → σ !! l = Some a → σ !! r = Some b →
  triple (σ =.) (finishPair false (O_Iface a) (O_Iface b) mtu owner) (ensured prefix l r mtu owner σ).
Proof.
  intros Hp Hown Hwf Ha Hb. unfold finishPair.
  assert (∀ e, panicked e = false → triple (σ =.) (failPair false (O_Iface a) e) (ensured prefix l r mtu owner σ)) as Hfail.
  { intros e He. unfold failPair. eapply triple_bind with (R := λ res σ', σ' = σ ∧ res = Ok ());
      [by apply triple_ret|intros []; apply triple_fail; intros ? [-> _]; by apply ensured_err|by intros ? ? []]. }
  destruct (_ || _) eqn:Hc; [by apply Hfail|]. rewrite !orb_false_iff, !negb_false_iff, !bool_decide_eq_true in Hc.
  destruct Hc as [[[Ta Tb] Oa] Ob].
  destruct (Hown l a Ha) as [m Hm]; [unfold aliasOf; by rewrite Oa|done|]. destruct (wf_peer _ Hwf _ _ _ Ha Hm) as (Hne & _ & o' & Ho' & Pm & _).
  eapply triple_try; [apply (triple_ask _ _ _ (λ j, j = If_Index (O_Iface o')))|].
  { intros k <-. destruct (peer_law _ Hlaw (O_Iface a) k) as [Hv Hj]. split; [done|]. intros j Hr.
    destruct (Hj j a m Hr) as (o2 & Ho2 & <-); [by rewrite (wf_name _ Hwf _ _ Ha)|done|]. congruence. }
  intros [j|e]; apply triple_pre; intros ? _ [-> Hj]; [|by apply Hfail].
  destruct (negb _) eqn:Hi; [by apply Hfail|]. apply negb_false_iff, Z.eqb_eq in Hi.
  assert (m = r) as ->. { apply (wf_index _ Hwf _ _ _ _ Ho' Hb). congruence. }
  assert (o' = b) as -> by congruence. apply configured_spec; [done|by repeat split|done|done].
Qed.

Lemma finish_created prefix l r mtu owner σ σ1 a b :
  HasPrefix owner prefix = true → wfLinks σ1 → newPair l r σ σ1 a b → aliasOf a = owner → aliasOf b = owner →
  triple (σ1 =.) (finishPair true (O_Iface a) (O_Iface b) mtu owner) (ensured prefix l r mtu owner σ).
Proof.
  intros Hp Hwf Hn Oa Ob. unfold finishPair. destruct (newPair_lookup _ _ _ _ _ _ Hn) as [Ha Hb].
  assert (Hn' := Hn). destruct Hn' as (_ & _ & Hne & _ & Pa & Pb & Ta & Tb). pose proof (steps_new prefix _ _ _ _ _ _ Hn) as Hs.
  assert (∀ e, panicked e = false → triple (σ1 =.) (failPair true (O_Iface a) e) (ensured prefix l r mtu owner σ)) as Hfail.
  { intros e He. eapply triple_post; [apply (undo_spec l r σ σ1 a b); [done|by apply (wf_name _ Hwf)]|].
    intros res σ2 [-> [-> | ->]]; [by apply ensured_err|]. split_and!; [done|done|by intros ? [= <-]]. }
  unfold typeOf, aliasOf in Ta, Tb, Oa, Ob. rewrite Ta, Tb, Oa, Ob. rewrite !bool_decide_eq_true_2 by done. cbn [negb orb].
  eapply triple_try; [apply (triple_ask _ _ _ (λ j, j = If_Index (O_Iface b)))|].
  { intros k <-. destruct (peer_law _ Hlaw (O_Iface a) k) as [Hv Hj]. split; [done|]. intros j Hr.
    destruct (Hj j a r Hr) as (o2 & Ho2 & <-); [by rewrite (wf_name _ Hwf _ _ Ha)|done|]. congruence. }
  intros [j|e]; apply triple_pre; intros ? _ [-> Hj]; [|by apply Hfail]. rewrite Hj, Z.eqb_refl. cbn [negb].
  eapply triple_post; [by apply (configured_spec prefix l r owner mtu σ1 a b)|]. intros res σ2 (H1 & H2 & H3). split_and!; [|done..].
  replace ({[l; r]} : gset string) with ({[l; r]} ∪ {[l; r]} : gset string) by set_solver. by eapply steps_trans.
Qed.

Lemma ensure_spec prefix l r mtu owner σ :
  HasPrefix owner prefix = true → ownedPeers prefix σ →
  triple (σ =.) (EnsureVethPair l r mtu owner) (ensured prefix l r mtu owner σ).
Proof.
  intros Hp Hown. unfold EnsureVethPair. destruct (_ || _); [apply triple_fail; intros ? <-; by apply ensured_err|].
  eapply triple_bind; [apply lookup_spec| |intros e ? [-> ->]; by apply ensured_err].
  intros x. apply triple_pre. intros ? Hwf [-> ->].
  eapply triple_bind; [apply lookup_spec| |intros e ? [-> ->]; by apply ensured_err].
  intros y. apply triple_pre. intros ? _ [-> ->].
  destruct (eqb _ _) eqn:Heq; cbn [negb]; [|apply triple_fail; intros ? <-; by apply ensured_err].
  apply eqb_prop in Heq. destruct (σ !! l) as [a|] eqn:Ha, (σ !! r) as [b|] eqn:Hb; cbn in Heq; try done; cbn.
  - eapply triple_bind with (R := λ res σ', σ' = σ ∧ res = Ok (Some (O_Iface a), Some (O_Iface b))); [by apply triple_ret| |by intros ? ? []].
    intros pair. apply triple_pre. intros ? _ [-> [= ->]]. by apply finish_existing.
  - eapply triple_bind; [apply createPair_spec| |].
    + intros pair. apply triple_pre. intros σ1 Hwf1 (a & b & Hn & -> & Oa & Ob). by apply finish_created.
    + intros e σ1 [He H]. split_and!; [|done|by intros ? [= <-]]. destruct H as [->|(a & b & Hn)]; [apply steps_refl|by eapply steps_new].
Qed.
End links.
