(* ===== verification/LocalLinksPass.v ===== *)
(** * Local links of a Pod: a whole pass

    Deleting, listing and sorting out stale pairs, and what a pass over the local links of a
    plan leaves behind. *)

From S2P Require Import Prelude WireCodec Api GoStrings GoNet GoSort LinkAllocation DevicePlanTypes Management.
From S2P Require Import PlanValidation PlanSpec PlanAcceptance PlanCodec PlanCanonical PlanTheorems PlanCapabilities PlanCapabilitiesTheorems.
From S2P Require Import LocalLinks LocalLinksTheorems.
Local Open Scope Z_scope.

Lemma HasPrefix_app pre s : HasPrefix (pre +:+ s) pre = true.
Proof. unfold HasPrefix. by rewrite trim_prefix_app. Qed.

(** ** Stale pairs *)

Section stale.
Context {sort : GoSort}.

Lemma staleStep_Ok existing byOwner stale owner stale' :
  staleStep (foldl (appendTo Veth_Owner) ∅ existing) byOwner stale owner = Ok stale' →
  ∃ a b, filter (λ v, Veth_Owner v = owner) existing ≡ₚ [a; b] ∧ Veth_PeerName a = Veth_Name b
  ∧ (stale' = stale ++ [a]
     ∨ stale' = stale ∧ ∃ d, byOwner !! owner = Some d ∧ ∀ v, v ∈ [a; b] → Veth_Name v = Pair_left d ∨ Veth_Name v = Pair_right d).
Proof.
  unfold staleStep. rewrite appendTo_lookup. set (group := filter _ existing).
  assert (default [] (if decide (group = []) then None else Some group) = group) as -> by (destruct (decide (group = [])) as [->|]; done).
  pose proof (SortFunc_perm (onKey Veth_Name Compare) group) as Hp.
  destruct (SortFunc _ group) as [|a [|b [|]]]; [done..| |done]. intros H. exists a, b. split; [by symmetry|].
  destruct (_ || _) eqn:Hc in H; [done|]. rewrite orb_false_iff, !negb_false_iff, !bool_decide_eq_true in Hc. destruct Hc as [Hab _].
  split; [done|]. destruct (byOwner !! owner) as [d|]; [|left; by injection H as <-].
  destruct (_ || _) eqn:Hd in H; injection H as <-; [|by left]. right. split; [done|]. exists d. split; [done|].
  rewrite orb_true_iff, !andb_true_iff, !bool_decide_eq_true in Hd. intros v. rewrite !elem_of_cons, elem_of_nil. naive_solver.
Qed.

Lemma stale_fold existing byOwner owners stale stale' :
  rfold (staleStep (foldl (appendTo Veth_Owner) ∅ existing) byOwner) stale owners = Ok stale' →
  (∀ s, s ∈ stale → s ∈ stale') ∧ (∀ s, s ∈ stale' → s ∈ stale ∨ s ∈ existing)
  ∧ ∀ v, v ∈ existing → Veth_Owner v ∈ owners →
    (∃ d, byOwner !! Veth_Owner v = Some d ∧ (Veth_Name v = Pair_left d ∨ Veth_Name v = Pair_right d))
    ∨ ∃ s, s ∈ stale' ∧ (Veth_Name v = Veth_Name s ∨ Veth_Name v = Veth_PeerName s).
Proof.
  revert stale. induction owners as [|owner owners IH]; intros stale; cbn [rfold].
  { intros [= <-]. split_and!; [done|by left|]. by intros v _ []%elem_of_nil. }
  intros (stale1 & H1 & H)%let_Ok. apply IH in H as (M1 & M2 & M3). apply staleStep_Ok in H1 as (a & b & Hp & Hab & Hcase).
  assert (∀ v, v ∈ existing → Veth_Owner v = owner → v = a ∨ v = b) as Hgroup.
  { intros v Hv Ho. assert (v ∈ [a; b]) as Hin by (rewrite <- Hp; by apply list_elem_of_filter). set_solver. }
  assert (a ∈ existing) as Ha. { assert (a ∈ filter (λ v, Veth_Owner v = owner) existing) as [_ ?]%list_elem_of_filter; [|done]. rewrite Hp. set_solver. }
  destruct Hcase as [->|[-> (d & Hd & Hnames)]]; split_and!.
  - intros s Hs. apply M1. set_solver.
  - intros s [[Hs | ->%list_elem_of_singleton]%elem_of_app|Hs]%M2; auto.
  - intros v Hv [Ho|Ho]%elem_of_cons; [|by apply M3]. right. exists a. split; [apply M1; set_solver|].
    destruct (Hgroup v Hv Ho) as [->| ->]; auto.
  - done.
  - done.
  - intros v Hv [Ho|Ho]%elem_of_cons; [|by apply M3]. left. exists d. rewrite Ho. split; [done|]. apply Hnames.
    destruct (Hgroup v Hv Ho) as [->| ->]; set_solver.
Qed.

Lemma stale_spec existing prefix byOwner stale :
  staleLocalVethPairs existing prefix byOwner = Ok stale →
  (∀ s, s ∈ stale → s ∈ existing)
  ∧ ∀ v, v ∈ existing →
    (∃ d, byOwner !! Veth_Owner v = Some d ∧ (Veth_Name v = Pair_left d ∨ Veth_Name v = Pair_right d))
    ∨ ∃ s, s ∈ stale ∧ (Veth_Name v = Veth_Name s ∨ Veth_Name v = Veth_PeerName s).
Proof.
  unfold staleLocalVethPairs. destruct (negb _); [done|]. intros (_ & H2 & H3)%stale_fold. split.
  - intros s [[]%elem_of_nil|?]%H2. done.
  - intros v Hv. apply H3; [done|]. apply elem_of_sorted_keys. rewrite appendTo_lookup.
    destruct (decide _) as [He|]; [|by eexists]. exfalso. assert (v ∈ filter (λ x, Veth_Owner x = Veth_Owner v) existing) as Hin
      by (by apply list_elem_of_filter). rewrite He in Hin. by apply elem_of_nil in Hin.
Qed.

Lemma stale_error existing prefix byOwner e : staleLocalVethPairs existing prefix byOwner = Err e → panicked e = false.
Proof.
  unfold staleLocalVethPairs. destruct (negb _); [by intros [= <-]|]. generalize (foldl (appendTo Veth_Owner) ∅ existing). intros m.
  generalize (sorted_keys m) ([] : list VethInterface). intros owners. induction owners as [|owner owners IH]; intros stale; [done|]. cbn [rfold].
  destruct (staleStep m byOwner stale owner) as [stale1|e'] eqn:Hs; cbn [rbind]; [apply IH|]. intros [= <-]. unfold staleStep in Hs.
  destruct (SortFunc _ _) as [|? [|? [|]]]; try by injection Hs as <-. destruct (_ || _) in Hs; [by injection Hs as <-|].
  destruct (byOwner !! owner); [|done]. by destruct (_ || _) in Hs.
Qed.
End stale.

(** ** The interfaces there are *)

(** What is listed of an interface. *)
Definition vethOf (σ : kernelLinks) (prefix : string) (link : Iface) : option VethInterface :=
  if HasPrefix (If_Alias link) prefix
  then (λ m, MkVethInterface (If_Name link) m (If_Alias link)) <$> (σ !! If_Name link ≫= O_Peer) else None.

Lemma byIndex_lookup (links : list Iface) i :
  (∀ i i', i ∈ links → i' ∈ links → If_Index i = If_Index i' → i = i') → i ∈ links →
  foldl (λ m link, <[If_Index link := link]> m) (∅ : gmap Z Iface) links !! If_Index i = Some i.
Proof.
  induction links as [|x links IH] using rev_ind; intros Hu Hi; [by apply elem_of_nil in Hi|]. rewrite foldl_app. cbn.
  destruct (decide (If_Index x = If_Index i)) as [He|Hne].
  - rewrite He, lookup_insert_eq. f_equal. apply Hu; [set_solver|done|done].
  - rewrite lookup_insert_ne by done. apply IH; [set_solver|]. apply elem_of_app in Hi as [|Hi]; [done|]. set_solver.
Qed.

Lemma elem_of_links σ i : wfLinks σ → i ∈ O_Iface <$> (map_to_list σ).*2 ↔ ∃ o, σ !! If_Name i = Some o ∧ O_Iface o = i.
Proof.
  intros Hwf. rewrite list_elem_of_fmap. split.
  - intros (o & -> & ([n o'] & -> & Hin)%list_elem_of_fmap). apply elem_of_map_to_list in Hin. exists o'.
    cbn. by rewrite (wf_name _ Hwf _ _ Hin).
  - intros (o & Ho & <-). exists o. split; [done|]. apply list_elem_of_fmap. exists (If_Name (O_Iface o), o). split; [done|].
    by apply elem_of_map_to_list.
Qed.

Lemma links_names σ : wfLinks σ → NoDup (If_Name <$> (O_Iface <$> (map_to_list σ).*2)).
Proof.
  intros Hwf. assert (If_Name <$> (O_Iface <$> (map_to_list σ).*2) = (map_to_list σ).*1) as ->; [|apply NoDup_fst_map_to_list].
  rewrite <- !list_fmap_compose. apply list_fmap_ext. intros i [n o] Hin%list_elem_of_lookup_2%elem_of_map_to_list. cbn. by apply (wf_name _ Hwf).
Qed.

Lemma veth_names σ prefix links : NoDup (If_Name <$> links) → NoDup (Veth_Name <$> omap (vethOf σ prefix) links).
Proof.
  assert (∀ x v, vethOf σ prefix x = Some v → Veth_Name v = If_Name x) as Hname.
  { intros x v. unfold vethOf. destruct (HasPrefix _ _); [|done]. destruct (_ ≫= _); [|done]. by intros [= <-]. }
  induction links as [|x links IH]; cbn; [constructor|]. intros [Hx Hnd]%NoDup_cons. destruct (vethOf σ prefix x) as [v|] eqn:Hv; [|by apply IH].
  cbn. apply NoDup_cons. split; [|by apply IH]. rewrite (Hname _ _ Hv). intros (w & Hw & Hin)%list_elem_of_fmap. apply Hx.
  apply list_elem_of_omap in Hin as (y & Hy & Hyw). rewrite Hw, (Hname _ _ Hyw). by apply list_elem_of_fmap_2.
Qed.

Section pass.
Context {K : Type} {netlink : Netlink K} {sort : GoSort} {sha : Sha256} (DefaultLinkMTU : Z).
Context (view : K → kernelLinks) (Hlaw : lawfulNetlink view).
#[local] Notation net := (net K).
#[local] Notation triple := (triple view).

(** ** Deleting *)

(** Some of what is marked is gone. *)
Definition shrinks (prefix : string) (σ σ' : kernelLinks) : Prop :=
  σ' ⊆ σ ∧ ∀ n o, σ !! n = Some o → HasPrefix (aliasOf o) prefix = false → σ' !! n = Some o.

Lemma shrinks_refl prefix σ : shrinks prefix σ σ.
Proof. by split. Qed.
Lemma shrinks_trans prefix σ1 σ2 σ3 : shrinks prefix σ1 σ2 → shrinks prefix σ2 σ3 → shrinks prefix σ1 σ3.
Proof. intros [A1 A2] [B1 B2]. split; [by etrans|eauto]. Qed.
Lemma shrinks_peers prefix σ σ' : σ' ⊆ σ → ownedPeers prefix σ → ownedPeers prefix σ'.
Proof. intros Hs Ho n o Hn. by eapply Ho, lookup_weaken. Qed.

(** The pair of [name] is gone if the operation succeeds. *)
Definition gone (σ : kernelLinks) (name : string) (σ' : kernelLinks) : Prop :=
  σ' !! name = None ∧ ∀ o m, σ !! name = Some o → O_Peer o = Some m → σ' !! m = None.

Lemma delete_spec prefix name owner σ :
  HasPrefix owner prefix = true → ownedPeers prefix σ →
  triple (σ =.) (DeleteVethPair name owner)
    (λ res σ', shrinks prefix σ σ' ∧ match res with Ok _ => gone σ name σ' | Err e => panicked e = false end).
Proof.
  intros Hp Hown. unfold DeleteVethPair.
  assert (∀ e, panicked e = false → triple (σ =.) (nfail e : net unit)
    (λ res σ', shrinks prefix σ σ' ∧ match res with Ok _ => gone σ name σ' | Err e => panicked e = false end)) as Hfail.
  { intros e He. apply triple_fail. intros ? <-. split; [apply shrinks_refl|done]. }
  destruct (_ || _); [by apply Hfail|].
  eapply (triple_bind view); [apply (lookup_spec view Hlaw)| |intros e ? [-> ->]; split; [apply shrinks_refl|done]].
  intros x. apply (triple_pre view Hlaw). intros ? Hwf [-> ->]. destruct (σ !! name) as [o|] eqn:Ho; cbn [fmap option_fmap option_map].
  2: { apply triple_ret. intros ? <-. split; [apply shrinks_refl|]. split; [done|]. congruence. }
  destruct (_ || _) eqn:Hc; [by apply Hfail|]. rewrite orb_false_iff, !negb_false_iff, !bool_decide_eq_true in Hc. destruct Hc as [Ht Ha].
  destruct (Hown name o Ho) as [m Hm]; [unfold aliasOf; by rewrite Ha|done|]. destruct (wf_peer _ Hwf _ _ _ Ho Hm) as (Hne & _ & o' & Ho' & Pm & _).
  eapply (triple_bind view); [apply (triple_ask view _ _ _ (λ j, j = If_Index (O_Iface o')))| |].
  { intros k <-. destruct (peer_law _ Hlaw (O_Iface o) k) as [Hv Hj]. split; [done|]. intros j Hr.
    destruct (Hj j o m Hr) as (o2 & Ho2 & <-); [by rewrite (wf_name _ Hwf _ _ Ho)|done|]. congruence. }
  2: { intros e ? [-> ->]. split; [apply shrinks_refl|done]. }
  intros j. apply (triple_pre view Hlaw). intros ? _ [-> ->].
  eapply (triple_bind view); [apply (triple_ask view _ _ _ (λ i, i = O_Iface o'))| |].
  { intros k <-. destruct (index_law _ Hlaw (If_Index (O_Iface o')) k) as [Hv Hi]. split; [done|]. intros i Hr.
    destruct (Hi i Hr) as (o2 & Ho2 & <- & Hj). assert (If_Name (O_Iface o2) = m) as Hn by (by apply (wf_index _ Hwf _ _ _ _ Ho2 Ho')).
    rewrite Hn in Ho2. congruence. }
  2: { intros e ? [-> ->]. split; [apply shrinks_refl|done]. }
  intros i. apply (triple_pre view Hlaw). intros ? _ [-> ->].
  destruct (_ || _) eqn:Hc; [by apply Hfail|]. rewrite orb_false_iff, !negb_false_iff, !bool_decide_eq_true in Hc. destruct Hc as [Ht' Ha'].
  eapply (triple_post view); [apply (triple_request view _ _ _ (λ σ', σ' = delete name (delete m σ)))|].
  { intros k <-. pose proof (del_law _ Hlaw (O_Iface o) k) as H. destruct (netLinkDel _ k) as [k' []]; cbn in *; [|done].
    destruct H as (o2 & Ho2 & ->). rewrite (wf_name _ Hwf _ _ Ho) in *. rewrite Ho in Ho2. injection Ho2 as <-. by rewrite Hm. }
  intros [[]|e] σ' H; [subst σ'|destruct H as [-> ->]; split; [apply shrinks_refl|done]]. split.
  - split; [etrans; [apply delete_subseteq|apply delete_subseteq]|]. intros n o2 Ho2 Hf.
    rewrite !lookup_delete_ne; [done|intros ->; unfold aliasOf in Hf; congruence..].
  - split; [by rewrite lookup_delete_eq|]. intros o2 m2 Ho2 Hm2. assert (m2 = m) as -> by congruence.
    rewrite lookup_delete_ne by done. by rewrite lookup_delete_eq.
Qed.

(** ** Listing *)

Definition listed (σ : kernelLinks) (prefix : string) (existing : list VethInterface) : Prop :=
  (∀ n o, σ !! n = Some o → HasPrefix (aliasOf o) prefix = true → ∃ v, v ∈ existing ∧ Veth_Name v = n)
  ∧ (∀ v, v ∈ existing → ∃ o, σ !! Veth_Name v = Some o ∧ aliasOf o = Veth_Owner v ∧ HasPrefix (aliasOf o) prefix = true
      ∧ O_Peer o = Some (Veth_PeerName v))
  ∧ NoDup (Veth_Name <$> existing).

Lemma dump_spec attempts σ :
  triple (σ =.) (retryLinkDump attempts)
    (λ res σ', σ' = σ ∧ match res with Ok l => l ≡ₚ O_Iface <$> (map_to_list σ).*2 | Err e => e = listingFailed end).
Proof.
  induction attempts as [|attempts IH]; [apply triple_fail; by intros ? <-|]. intros k Hk. cbn [retryLinkDump].
  destruct (list_law _ Hlaw k) as [Hv Hl]. destruct (netLinkList k) as [k' [l|[]]]; cbn in *.
  - rewrite Hv, <- Hk. split; [done|]. rewrite Hk. by apply Hl.
  - apply IH. congruence.
  - by rewrite Hv, <- Hk.
Qed.

Lemma listStep_spec σ prefix links before x rest :
  wfLinks σ → ownedPeers prefix σ → links ≡ₚ O_Iface <$> (map_to_list σ).*2 → links = before ++ x :: rest →
  triple (σ =.) (listStep (foldl (λ m link, <[If_Index link := link]> m) ∅ links) prefix (omap (vethOf σ prefix) before) x)
    (λ res σ', σ' = σ ∧ match res with Ok found => found = omap (vethOf σ prefix) (before ++ [x])
       ∧ (HasPrefix (If_Alias x) prefix = true → is_Some (vethOf σ prefix x)) | Err e => panicked e = false end).
Proof.
  intros Hwf Hown Hperm Hlinks. unfold listStep. rewrite omap_app. cbn [omap list_omap].
  destruct (HasPrefix (If_Alias x) prefix) eqn:Hp; cbn [negb].
  2: { apply triple_ret. intros ? <-. unfold vethOf. rewrite Hp, app_nil_r. done. }
  destruct (bool_decide (If_Type x = vethLinkType)) eqn:Ht; cbn [negb]; [|apply triple_fail; by intros ? <-].
  apply bool_decide_eq_true in Ht. assert (x ∈ links) as Hx by (rewrite Hlinks; set_solver).
  assert (∃ o, σ !! If_Name x = Some o ∧ O_Iface o = x) as (o & Ho & <-) by (apply elem_of_links; [done|]; by rewrite <- Hperm).
  destruct (Hown _ o Ho Hp Ht) as [m Hm]. destruct (wf_peer _ Hwf _ _ _ Ho Hm) as (_ & _ & o' & Ho' & _).
  eapply (triple_bind view); [apply (triple_ask view _ _ _ (λ j, j = If_Index (O_Iface o')))| |].
  { intros k <-. destruct (peer_law _ Hlaw (O_Iface o) k) as [Hv Hj]. split; [done|]. intros j Hr.
    destruct (Hj j o m Hr) as (o2 & Ho2 & <-); [done..|]. congruence. }
  2: { by intros e ? [-> ->]. }
  intros j. apply (triple_pre view Hlaw). intros ? _ [-> ->]. rewrite byIndex_lookup.
  - apply triple_ret. intros ? <-. unfold vethOf. rewrite Hp, Ho. cbn [mbind option_bind]. rewrite Hm. cbn.
    by rewrite (wf_name _ Hwf _ _ Ho').
  - intros i i' Hi Hi' Heq. rewrite Hperm in Hi, Hi'. apply elem_of_links in Hi as (a & Ha & <-), Hi' as (b & Hb & <-); [|done..].
    pose proof (wf_index _ Hwf _ _ _ _ Ha Hb Heq) as Hn. rewrite Hn in Ha. congruence.
  - rewrite Hperm. apply elem_of_links; [done|]. exists o'. by rewrite (wf_name _ Hwf _ _ Ho').
Qed.

Lemma list_spec prefix σ :
  ownedPeers prefix σ →
  triple (σ =.) (ListVethInterfaces prefix)
    (λ res σ', σ' = σ ∧ match res with Ok existing => listed σ prefix existing | Err e => panicked e = false end).
Proof.
  intros Hown. unfold ListVethInterfaces. destruct (empty prefix); [apply triple_fail; by intros ? <-|].
  eapply (triple_bind view); [apply dump_spec| |by intros e ? [-> ->]].
  intros links. apply (triple_pre view Hlaw). intros ? Hwf [-> Hperm].
  pose (I := λ (found : list VethInterface) (rest : list Iface) (σ' : kernelLinks), σ' = σ ∧ ∃ before, links = before ++ rest
    ∧ found = omap (vethOf σ prefix) before ∧ ∀ x, x ∈ before → HasPrefix (If_Alias x) prefix = true → is_Some (vethOf σ prefix x)).
  eapply (triple_bind view) with (R := λ r σ', match r with Ok found => I found [] σ' | Err e => σ' = σ ∧ panicked e = false end).
  - intros k Hk. apply (triple_fold view I (λ e σ', σ' = σ ∧ panicked e = false)); [|split; [done|]; exists []; split_and!; [done..|set_solver]].
    clear k Hk. intros found x rest. apply (triple_pre view Hlaw). intros ? _ [-> (before & Hl & -> & Hb)].
    eapply (triple_post view); [by apply (listStep_spec σ prefix links before x rest)|]. intros [found|e] σ'; [|done].
    intros [-> [-> Hx]]. split; [done|]. exists (before ++ [x]). split_and!; [by rewrite <- app_assoc|done|].
    intros y [Hy | ->%list_elem_of_singleton]%elem_of_app; auto.
  - intros found. apply triple_ret. intros ? [-> (before & Hl & -> & Hb)]. rewrite app_nil_r in Hl. subst before. split; [done|].
    assert (∀ v, v ∈ SortFunc (onKey Veth_Name Compare) (omap (vethOf σ prefix) links) ↔ ∃ x, x ∈ links ∧ vethOf σ prefix x = Some v) as Hin.
    { intros v. rewrite SortFunc_perm, list_elem_of_omap. naive_solver. }
    split_and!; [| |rewrite SortFunc_perm; apply veth_names; rewrite Hperm; by apply links_names].
    + intros n o Ho Hp. pose proof (wf_name _ Hwf _ _ Ho) as Hn. assert (O_Iface o ∈ links) as Hx.
      { rewrite Hperm. apply elem_of_links; [done|]. exists o. by rewrite Hn. }
      destruct (Hb _ Hx Hp) as [v Hv]. exists v. split; [apply Hin; by exists (O_Iface o)|]. unfold vethOf in Hv.
      unfold aliasOf in Hp. rewrite Hp in Hv. destruct (_ ≫= _); [|done]. by injection Hv as <-.
    + intros v (x & Hx & Hv)%Hin. rewrite Hperm in Hx. apply elem_of_links in Hx as (o & Ho & <-); [|done]. unfold vethOf in Hv.
      destruct (HasPrefix _ _) eqn:Hp; [|done]. rewrite Ho in Hv. cbn in Hv. destruct (O_Peer o) as [m|] eqn:Hm; [|done].
      injection Hv as <-. exists o. done.
  - by intros e σ' [-> ?].
Qed.

(** ** The loops *)

Lemma remove_spec prefix σ existing stale :
  listed σ prefix existing → (∀ s, s ∈ stale → s ∈ existing) → ownedPeers prefix σ →
  triple (σ =.) (removeLocalVethPairs stale)
    (λ res σ', shrinks prefix σ σ' ∧ match res with
       | Ok _ => ∀ s, s ∈ stale → σ' !! Veth_Name s = None ∧ σ' !! Veth_PeerName s = None | Err e => panicked e = false end).
Proof.
  intros Hlisted Hin Hown. unfold removeLocalVethPairs.
  pose (I := λ (_ : unit) (rest : list VethInterface) (σ' : kernelLinks), shrinks prefix σ σ' ∧ ∃ before, stale = before ++ rest
    ∧ ∀ s, s ∈ before → σ' !! Veth_Name s = None ∧ σ' !! Veth_PeerName s = None).
  apply (triple_pre view Hlaw). intros ? Hwf <-.
  eapply (triple_post view) with (Q := λ r σ', match r with Ok u => I u [] σ' | Err e => shrinks prefix σ σ' ∧ panicked e = false end).
  2: { intros [[]|e] σ'; [|done]. intros [H1 (before & H2 & H3)]. rewrite app_nil_r in H2. by subst before. }
  intros k Hk. apply (triple_fold view I (λ e σ', shrinks prefix σ σ' ∧ panicked e = false)).
  2: { rewrite <- Hk. split; [apply shrinks_refl|]. exists []. split; [done|set_solver]. }
  clear k Hk. intros [] s rest. apply (triple_pre view Hlaw). intros σ1 Hwf1 [Hs (before & Hst & Hb)].
  assert (s ∈ existing) as Hex by (apply Hin; rewrite Hst; set_solver). destruct (proj1 (proj2 Hlisted) s Hex) as (o & Ho & Ha & Hp & Hm).
  eapply (triple_wrap view); [apply (delete_spec prefix (Veth_Name s) (Veth_Owner s) σ1)| |].
  - by rewrite <- Ha.
  - by eapply shrinks_peers; [apply Hs|].
  - intros [] σ2 [Hs2 [Hg1 Hg2]]. split; [by eapply shrinks_trans|]. exists (before ++ [s]). split; [by rewrite <- app_assoc|].
    intros s' [Hs' | ->%list_elem_of_singleton]%elem_of_app.
    + destruct (Hb s' Hs') as [N1 N2]. split; eapply lookup_weaken_None; [exact N1|apply Hs2|exact N2|apply Hs2].
    + split; [done|]. destruct (σ1 !! Veth_Name s) as [o1|] eqn:Ho1.
      { apply (Hg2 o1); [done|]. assert (σ !! Veth_Name s = Some o1) by (by eapply lookup_weaken; [|apply Hs]). congruence. }
      eapply lookup_weaken_None; [|apply Hs2]. destruct (σ1 !! Veth_PeerName s) as [o2|] eqn:Ho2; [|done]. exfalso.
      assert (σ !! Veth_PeerName s = Some o2) as Ho2' by (by eapply lookup_weaken; [|apply Hs]).
      destruct (wf_peer _ Hwf _ _ _ Ho Hm) as (_ & _ & o3 & Ho3 & P3 & _). assert (o3 = o2) as -> by congruence.
      destruct (wf_peer _ Hwf1 _ _ _ Ho2 P3) as (_ & _ & o4 & Ho4 & _). congruence.
  - intros e σ2 [Hs2 He]. split; [by eapply shrinks_trans|done].
Qed.

Definition pairNames (d : desiredVethPair) : list string := [Pair_left d; Pair_right d].

Lemma paired_steps prefix N σ σ' l r mtu owner :
  steps prefix N σ σ' → l ∉ N → r ∉ N → paired σ l r mtu owner → paired σ' l r mtu owner.
Proof. intros Hs Hl Hr (a & b & Ha & Hb & H). exists a, b. rewrite !(st_other _ _ _ _ Hs) by done. done. Qed.

Lemma ensurePairs_spec prefix σ desired :
  (∀ d, d ∈ desired → HasPrefix (Pair_owner d) prefix = true) → NoDup (desired ≫= pairNames) → ownedPeers prefix σ →
  triple (σ =.) (ensurePairs desired)
    (λ res σ', steps prefix (list_to_set (desired ≫= pairNames)) σ σ' ∧ match res with
       | Ok _ => ∀ d, d ∈ desired → paired σ' (Pair_left d) (Pair_right d) (Pair_mtu d) (Pair_owner d) | Err e => panicked e = false end).
Proof.
  unfold ensurePairs. revert σ. induction desired as [|d desired IH]; intros σ Hp Hnd Hown; cbn [nfold].
  { apply triple_ret. intros ? <-. split; [apply steps_refl|]. by intros d []%elem_of_nil. }
  cbn [mbind list_bind] in Hnd. apply NoDup_app in Hnd as (_ & Hd & Hnd).
  assert (∀ σ', steps prefix {[Pair_left d; Pair_right d]} σ σ' → steps prefix (list_to_set ((d :: desired) ≫= pairNames)) σ σ') as Hmore.
  { intros σ' [S1 S2 S3]. constructor; [|done..]. intros n Hn. apply S1. cbn in Hn. set_solver. }
  eapply (triple_bind view) with (R := λ res σ', steps prefix {[Pair_left d; Pair_right d]} σ σ'
    ∧ match res with Ok _ => paired σ' (Pair_left d) (Pair_right d) (Pair_mtu d) (Pair_owner d) | Err e => panicked e = false end).
  - eapply (triple_wrap view); [apply (ensure_spec view Hlaw prefix); [apply Hp; set_solver|done]| |].
    + intros [] σ1 (H1 & H2 & _). auto.
    + intros e σ1 (H1 & _ & H2). split; [done|]. cbn. by apply H2.
  - intros []. apply (triple_pre view Hlaw). intros σ1 _ [Hs1 Hpair]. eapply (triple_post view).
    + apply IH; [set_solver|done|by eapply ownedPeers_steps].
    + intros res σ2 [Hs2 Hres]. split.
      * assert (steps prefix ({[Pair_left d; Pair_right d]} ∪ list_to_set (desired ≫= pairNames)) σ σ2) as [S1 S2 S3]
          by (by eapply steps_trans). constructor; [|done..]. intros n Hn. apply S1. cbn in Hn. set_solver.
      * destruct res as [[]|e]; [|done]. intros d' [->|Hd']%elem_of_cons; [|by apply Hres].
        eapply paired_steps; [exact Hs2|..|done]; rewrite elem_of_list_to_set; intros Hin; (eapply Hd; [|exact Hin]); cbn; set_solver.
  - intros e σ1 [Hs He]. split; [by apply Hmore|done].
Qed.
End pass.
