(* ===== verification/LocalLinksRealized.v ===== *)
(** * Local links of a Pod: from the plan to the kernel

    The pairs of a plan the helpers accept are well formed, and a pass realizes exactly them. *)

From S2P Require Import Prelude WireCodec Api GoStrings GoNet GoSort LinkAllocation DevicePlanTypes Management.
From S2P Require Import PlanValidation PlanSpec PlanAcceptance PlanCodec PlanCanonical PlanTheorems PlanCapabilities PlanCapabilitiesTheorems.
From S2P Require Import LocalLinks LocalLinksTheorems LocalLinksPass.
Local Open Scope Z_scope.

(** The MTU of a link: what one of its ends declares. *)
Definition linkMTU (defaultMTU : Z) (a b : InterfacePlan) : Z :=
  if InterfacePlan_MTU a =? 0 then (if InterfacePlan_MTU b =? 0 then defaultMTU else InterfacePlan_MTU b) else InterfacePlan_MTU a.

Lemma linkMTU_comm defaultMTU a b : localPair a b → linkMTU defaultMTU a b = linkMTU defaultMTU b a.
Proof.
  intros [_ Hm _ _ _ _]. unfold linkMTU. destruct (Z.eqb_spec (InterfacePlan_MTU a) 0), (Z.eqb_spec (InterfacePlan_MTU b) 0); lia.
Qed.

Lemma filter_swap {A} (f : A → bool) (P : A → Prop) `{!∀ x, Decision (P x)} (l : list A) :
  filter P (List.filter f l) = List.filter f (filter P l).
Proof.
  induction l as [|x l IH]; [done|]. cbn [List.filter]. rewrite (filter_cons _ x l).
  destruct (f x) eqn:Hf, (decide (P x)) as [HP|HP]; cbn [List.filter]; rewrite ?Hf, ?filter_cons, ?IH.
  - by rewrite decide_True.
  - by rewrite decide_False.
  - done.
  - done.
Qed.

Lemma fmap_NoDup_inj {A B} (f : A → B) (l : list A) x y : NoDup (f <$> l) → x ∈ l → y ∈ l → f x = f y → x = y.
Proof.
  induction l as [|z l IH]; [by intros _ ?%elem_of_nil|]. cbn. intros [Hz Hnd]%NoDup_cons Hx Hy Heq.
  apply elem_of_cons in Hx as [->|Hx], Hy as [->|Hy]; [done| | |by apply IH]; exfalso; apply Hz;
    [rewrite Heq|rewrite <- Heq]; by apply list_elem_of_fmap_2.
Qed.

Section planned.
Context {order : RangeOrder string} {sort : GoSort} {sha : Sha256} (DefaultLinkMTU : Z) (validPeerTransport : string → bool).

(** ** The pairs of a plan *)

(** The pair stands for the two ends of its link. *)
Definition pairOf (plan : Plan) (podUID : string) (d : desiredVethPair) : Prop :=
  ∃ a b, endpointsOf (Plan_Interfaces plan) (Pair_linkUID d) ≡ₚ [a; b] ∧ localPair a b ∧ localConnectivity a = true ∧ localConnectivity b = true
  ∧ Pair_left d = InterfacePlan_Name a ∧ Pair_right d = InterfacePlan_Name b ∧ Pair_mtu d = linkMTU DefaultLinkMTU a b
  ∧ HasPrefix (Pair_owner d) (localLinkPodOwnerPrefix podUID) = true.

Lemma localPair_sym a b : localPair a b → localPair b a.
Proof.
  intros [L1 L2 L3 [L4 L5] [L6 L7] L8]. constructor; [done|naive_solver|done|done|done|]. rewrite <- L3, L8. done.
Qed.

Lemma local_endpoints plan linkID x :
  capable validPeerTransport plan → x ∈ endpointsOf (Plan_Interfaces plan) linkID → localConnectivity x = true →
  ∃ a b, endpointsOf (Plan_Interfaces plan) linkID = [a; b] ∧ localPair a b ∧ localConnectivity a = true ∧ localConnectivity b = true.
Proof.
  intros Hcap Hx Hl. pose proof (cap_links _ _ Hcap linkID) as Hs.
  assert (InterfacePlan_Connectivity x ≠ ConnectivityWire ∧ InterfacePlan_Connectivity x ≠ ConnectivityHost) as [Hw Hh].
  { unfold localConnectivity in Hl. rewrite orb_true_iff, !bool_decide_eq_true in Hl. destruct Hl as [-> | ->]; done. }
  assert (∀ e, e ∈ endpointsOf (Plan_Interfaces plan) linkID → interfaceSupported e) as Hsup.
  { intros e [_ He]%list_elem_of_filter. pose proof (cap_interfaces _ _ Hcap) as HF. rewrite Forall_forall in HF. by apply HF. }
  destruct (endpointsOf (Plan_Interfaces plan) linkID) as [|first rest] eqn:He; [by apply elem_of_nil in Hx|].
  unfold linkSupported in Hs. destruct (localConnectivity first) eqn:Hf.
  - destruct Hs as (a & b & [= -> ->] & Hp). exists a, b. split_and!; [done..|]. unfold localConnectivity in *. by rewrite <- (lp_connectivity _ _ Hp).
  - exfalso. case_bool_decide as H1.
    { destruct Hs as (e & [= -> ->] & _). apply list_elem_of_singleton in Hx as ->. done. }
    case_bool_decide as H2; [destruct Hs as (e & [= -> ->] & _); apply list_elem_of_singleton in Hx as ->; done|].
    destruct (Hsup first) as [Hc _]; [by left|]. rewrite !elem_of_cons, elem_of_nil in Hc. unfold localConnectivity in Hf.
    rewrite orb_false_iff, !bool_decide_eq_false in Hf. naive_solver.
Qed.

Lemma local_group plan linkID :
  capable validPeerTransport plan →
  let group := filter (λ x, InterfacePlan_LinkID x = linkID) (List.filter localConnectivity (Plan_Interfaces plan)) in
  group = [] ∨ (group = endpointsOf (Plan_Interfaces plan) linkID
    ∧ ∃ a b, group = [a; b] ∧ localPair a b ∧ localConnectivity a = true ∧ localConnectivity b = true).
Proof.
  intros Hcap group. unfold group. rewrite filter_swap. fold (endpointsOf (Plan_Interfaces plan) linkID).
  destruct (List.filter localConnectivity (endpointsOf (Plan_Interfaces plan) linkID)) as [|x l] eqn:Hf; [by left|]. right.
  assert (x ∈ endpointsOf (Plan_Interfaces plan) linkID ∧ localConnectivity x = true) as [Hx Hl].
  { rewrite list_elem_of_In, <- filter_In, Hf. by left. }
  destruct (local_endpoints plan linkID x Hcap Hx Hl) as (a & b & He & Hp & Ha & Hb). rewrite He in *. cbn in Hf. rewrite Ha, Hb in Hf.
  rewrite <- Hf. split; [done|]. by exists a, b.
Qed.

Lemma desiredPair_spec plan podUID linkID a b :
  localPair a b → localConnectivity a = true → localConnectivity b = true → endpointsOf (Plan_Interfaces plan) linkID = [a; b] →
  ∃ d, desiredPair DefaultLinkMTU podUID linkID [a; b] = Some d ∧ Pair_linkUID d = linkID ∧ pairOf plan podUID d.
Proof.
  intros Hp Ha Hb He. unfold desiredPair. pose proof (SortFunc_perm (onKey InterfacePlan_ID Compare) [a; b]) as Hperm.
  destruct (SortFunc _ _) as [|x [|y [|]]] eqn:Hs; try (apply Permutation_length in Hperm; cbn in Hperm; lia).
  eexists. split; [done|]. split; [done|]. exists x, y. cbn. split; [by rewrite He, <- Hperm|].
  assert ((x = a ∧ y = b) ∨ (x = b ∧ y = a)) as Hxy.
  { apply Permutation_length_2_inv in Hperm as [[= -> ->]|[= -> ->]]; auto. }
  unfold linkMTU. split_and!.
  - destruct Hxy as [[-> ->]|[-> ->]]; [done|by apply localPair_sym].
  - destruct Hxy as [[-> ->]|[-> ->]]; done.
  - destruct Hxy as [[-> ->]|[-> ->]]; done.
  - done.
  - done.
  - destruct (InterfacePlan_MTU x =? 0) eqn:H1; [done|]. by rewrite H1.
  - unfold directLinkOwner. apply HasPrefix_app.
Qed.

Lemma pairOf_source plan podUID d n :
  pairOf plan podUID d → n ∈ pairNames d →
  ∃ x, x ∈ Plan_Interfaces plan ∧ InterfacePlan_LinkID x = Pair_linkUID d ∧ InterfacePlan_Name x = n.
Proof.
  intros (a & b & He & _ & _ & _ & Hl & Hr & _) Hn.
  assert (∀ x, x ∈ [a; b] → x ∈ Plan_Interfaces plan ∧ InterfacePlan_LinkID x = Pair_linkUID d) as Hx.
  { intros x. rewrite <- He. intros [? ?]%list_elem_of_filter. done. }
  unfold pairNames in Hn. rewrite !elem_of_cons, elem_of_nil in Hn. destruct Hn as [->|[->|[]]].
  - exists a. destruct (Hx a) as [? ?]; [set_solver|done].
  - exists b. destruct (Hx b) as [? ?]; [set_solver|done].
Qed.

Lemma desiredPairs_spec plan podUID :
  capable validPeerTransport plan →
  ∃ desired, desiredLocalVethPairs DefaultLinkMTU plan podUID = Some desired ∧ NoDup (desired ≫= pairNames)
  ∧ (∀ d, d ∈ desired → pairOf plan podUID d)
  ∧ ∀ x, x ∈ Plan_Interfaces plan → localConnectivity x = true → ∃ d, d ∈ desired ∧ Pair_linkUID d = InterfacePlan_LinkID x.
Proof.
  intros Hcap. unfold desiredLocalVethPairs. set (links := foldl _ ∅ _). set (f := λ linkID, desiredPair DefaultLinkMTU podUID linkID (default [] (links !! linkID))).
  assert (∀ linkID, linkID ∈ sorted_keys links → ∃ d, f linkID = Some d ∧ Pair_linkUID d = linkID ∧ pairOf plan podUID d) as Hf.
  { intros linkID [group Hg]%elem_of_sorted_keys. unfold f. rewrite Hg. unfold links in Hg. rewrite appendTo_lookup in Hg.
    destruct (decide _) as [|Hne]; [done|]. injection Hg as <-. destruct (local_group plan linkID Hcap) as [|(He & a & b & Hab & Hp & Ha & Hb)]; [done|].
    cbn [default]. rewrite Hab in *. by apply desiredPair_spec. }
  assert (∃ desired, mapM f (sorted_keys links) = Some desired) as [desired Hd].
  { apply mapM_is_Some_2. apply Forall_forall. intros linkID (d & Hfd & _)%Hf. cbn. rewrite Hfd. by eexists. }
  exists desired. split; [done|]. pose proof (proj1 (mapM_Some _ _ _) Hd) as H2.
  assert (∀ d, d ∈ desired → pairOf plan podUID d) as Hpairs.
  { intros d (i & Hi)%list_elem_of_lookup. destruct (Forall2_lookup_r _ _ _ _ _ H2 Hi) as (linkID & Hk & Hfd).
    destruct (Hf linkID) as (d' & Hd' & _ & H); [by eapply list_elem_of_lookup_2|]. congruence. }
  assert (Pair_linkUID <$> desired = sorted_keys links) as Huids.
  { assert (∀ keys, Forall2 (λ x y, f x = Some y) keys desired → (∀ k, k ∈ keys → k ∈ sorted_keys links) → Pair_linkUID <$> desired = keys) as Hgen; [|by apply Hgen].
    clear - Hf. induction desired as [|d desired IH]; intros keys HF Hin; inversion HF as [|k ? keys' ? Hk HF']; subst; [done|]. cbn. f_equal.
    - destruct (Hf k) as (d' & Hd' & <- & _); [apply Hin; by left|]. congruence.
    - apply IH; [done|]. set_solver. }
  split_and!; [|done|].
  - apply NoDup_bind.
    + intros d1 d2 n H1 Hin2 Hn1 Hn2. apply (fmap_NoDup_inj Pair_linkUID desired); [rewrite Huids; apply NoDup_sorted_keys|done|done|].
      destruct (pairOf_source _ _ _ n (Hpairs d1 H1) Hn1) as (x & Hx & <- & Hnx), (pairOf_source _ _ _ n (Hpairs d2 Hin2) Hn2) as (y & Hy & <- & Hny).
      f_equal. apply (fmap_NoDup_inj InterfacePlan_Name (Plan_Interfaces plan)); [apply (cap_names _ _ Hcap)|done|done|congruence].
    + intros d Hdd. destruct (Hpairs d Hdd) as (a & b & _ & Hp & _ & _ & Hl & Hr & _). unfold pairNames. rewrite Hl, Hr.
      apply NoDup_cons. split; [|apply NoDup_singleton]. intros Heq%list_elem_of_singleton. by apply (lp_names _ _ Hp).
    + apply (NoDup_fmap_1 Pair_linkUID). rewrite Huids. apply NoDup_sorted_keys.
  - intros x Hx Hl. assert (InterfacePlan_LinkID x ∈ Pair_linkUID <$> desired) as (d & -> & Hdd)%list_elem_of_fmap; [|by exists d].
    rewrite Huids. apply elem_of_sorted_keys. unfold links. rewrite appendTo_lookup. destruct (decide _) as [He|]; [|by eexists].
    exfalso. assert (x ∈ filter (λ y, InterfacePlan_LinkID y = InterfacePlan_LinkID x) (List.filter localConnectivity (Plan_Interfaces plan))) as Hin.
    { apply list_elem_of_filter. split; [done|]. rewrite list_elem_of_In, filter_In, <- list_elem_of_In. done. }
    rewrite He in Hin. by apply elem_of_nil in Hin.
Qed.

(** ** The pass *)

Lemma byOwner_lookup desired owner d :
  foldl (λ m pair, <[Pair_owner pair := pair]> m) (∅ : gmap string desiredVethPair) desired !! owner = Some d → d ∈ desired.
Proof.
  induction desired as [|x desired IH] using rev_ind; [done|]. rewrite foldl_app. cbn. rewrite lookup_insert_Some, elem_of_app. set_solver.
Qed.

End planned.

Section realized.
Context {K : Type} {netlink : Netlink K} {order : RangeOrder string} {sort : GoSort} {sha : Sha256} (DefaultLinkMTU : Z).
Context (view : K → kernelLinks) (Hlaw : lawfulNetlink view) (validPeerTransport : string → bool).

Lemma reconcile_spec plan podUID desired σ :
  let prefix := localLinkPodOwnerPrefix podUID in
  podUID ≠ "" → desiredLocalVethPairs DefaultLinkMTU plan podUID = Some desired → NoDup (desired ≫= pairNames) →
  (∀ d, d ∈ desired → HasPrefix (Pair_owner d) prefix = true) → ownedPeers prefix σ →
  triple view (σ =.) (reconcileLocalInterfaces DefaultLinkMTU plan podUID)
    (λ res σ', (∀ n o, σ !! n = Some o → HasPrefix (aliasOf o) prefix = false → σ' !! n = Some o) ∧ match res with
       | Ok _ => (∀ d, d ∈ desired → paired σ' (Pair_left d) (Pair_right d) (Pair_mtu d) (Pair_owner d))
                 ∧ ∀ n o, σ' !! n = Some o → HasPrefix (aliasOf o) prefix = true → ∃ d, d ∈ desired ∧ n ∈ pairNames d
       | Err e => panicked e = false end).
Proof.
  intros prefix Hpod Hdes Hnd Hpre Hown. unfold reconcileLocalInterfaces. apply empty_false in Hpod. rewrite Hpod, Hdes. fold prefix.
  set (byOwner := foldl _ ∅ desired).
  eapply (triple_bind view) with (R := λ res σ', σ' = σ ∧ match res with Ok existing => listed σ prefix existing | Err e => panicked e = false end).
  { eapply (triple_wrap view); [by apply (list_spec view Hlaw)|done|]. intros e σ' [-> He]. done. }
  2: { intros e σ' [-> He]. done. }
  intros existing. apply (triple_pre view Hlaw). intros ? Hwf [-> Hlisted]. unfold removeStaleLocalVethPairs.
  destruct (staleLocalVethPairs existing prefix byOwner) as [stale|e] eqn:Hst.
  2: { apply stale_error in Hst. intros k ->. done. }
  apply stale_spec in Hst as [Hin Hcover].
  eapply (triple_bind view); [by apply (remove_spec view Hlaw prefix σ existing stale)| |].
  2: { intros e σ' [[_ Hf] He]. done. }
  intros []. apply (triple_pre view Hlaw). intros σ1 Hwf1 [[Hsub Hf] Hgone].
  eapply (triple_post view); [apply (ensurePairs_spec view Hlaw prefix σ1 desired); [done..|by eapply shrinks_peers]|].
  intros res σ2 [Hs Hres]. split; [intros n o Ho Hfor; apply (st_foreign _ _ _ _ Hs); [by apply Hf|done]|].
  destruct res as [[]|e]; [|done]. split; [done|]. intros n o Ho Hp.
  destruct (decide (n ∈ desired ≫= pairNames)) as [(d & Hn & Hd)%list_elem_of_bind|Hn]; [by exists d|].
  rewrite (st_other _ _ _ _ Hs) in Ho by (by rewrite elem_of_list_to_set).
  destruct (proj1 Hlisted n o) as (v & Hv & <-); [by eapply lookup_weaken|done|].
  destruct (Hcover v Hv) as [(d & Hd & Hname)|(s & Hs' & Hname)].
  - exists d. split; [by eapply byOwner_lookup|]. unfold pairNames. set_solver.
  - exfalso. destruct (Hgone s Hs') as [N1 N2]. destruct Hname as [Hn'|Hn']; rewrite Hn' in Ho; congruence.
Qed.

Lemma paired_sym σ l r mtu owner : paired σ l r mtu owner → paired σ r l mtu owner.
Proof. intros (a & b & Ha & Hb & Pa & Pb & [Ta Tb] & [Oa Ob] & [Ua Ub] & Hm). exists b, a. split_and!; [done..|]. intros H. destruct (Hm H). done. Qed.

Lemma capable_normal plan normal :
  ValidatePlanCapabilities validPeerTransport plan = Ok () → NormalizePlan plan = Ok normal → capable validPeerTransport normal.
Proof.
  unfold ValidatePlanCapabilities. intros H Hn. rewrite Hn in H. apply checkCapabilities_Ok; [by eapply normalized_ok|done].
Qed.

(** C12: the local links of a Pod are realized exactly.  The plan is one the helper accepts, and
    the pairs the Pod already has have both ends in its namespace; whatever requests the kernel
    refuses, the pass does not panic, and when it succeeds, the two ends of every link between
    Nodes of the Pod are the two ends of one veth pair that is up, has the MTU of the link and
    is marked as the Pod's; and no other interface is marked so. *)
Theorem local_links_realized plan normal podUID k :
  ValidatePlanCapabilities validPeerTransport plan = Ok () → NormalizePlan plan = Ok normal → podUID ≠ "" →
  ownedPeers (localLinkPodOwnerPrefix podUID) (view k) →
  let '(k', res) := reconcileLocalInterfaces DefaultLinkMTU normal podUID k in
  match res with
  | Err e => panicked e = false
  | Ok _ =>
      (∀ a b, a ∈ Plan_Interfaces normal → b ∈ Plan_Interfaces normal → a ≠ b → localConnectivity a = true →
         InterfacePlan_LinkID a = InterfacePlan_LinkID b →
         ∃ owner, HasPrefix owner (localLinkPodOwnerPrefix podUID) = true
         ∧ paired (view k') (InterfacePlan_Name a) (InterfacePlan_Name b) (linkMTU DefaultLinkMTU a b) owner)
      ∧ ∀ n o, view k' !! n = Some o → HasPrefix (aliasOf o) (localLinkPodOwnerPrefix podUID) = true →
         ∃ a, a ∈ Plan_Interfaces normal ∧ localConnectivity a = true ∧ InterfacePlan_Name a = n
  end.
Proof.
  intros Hval Hn Hpod Hown. pose proof (capable_normal _ _ Hval Hn) as Hcap.
  destruct (desiredPairs_spec DefaultLinkMTU _ normal podUID Hcap) as (desired & Hdes & Hnd & Hpairs & Hall).
  pose proof (reconcile_spec normal podUID desired (view k) Hpod Hdes Hnd) as Hpass.
  specialize (Hpass ltac:(intros d Hd; by destruct (Hpairs d Hd) as (? & ? & _ & _ & _ & _ & _ & _ & _ & ?)) Hown k eq_refl).
  destruct (reconcileLocalInterfaces _ _ _ k) as [k' [[]|e]]; cbn [fst snd] in Hpass; destruct Hpass as [_ Hres]; [|done].
  destruct Hres as [Hreal Hmarked]. split.
  - intros a b Ha Hb Hne Hl Heq. destruct (Hall a Ha Hl) as (d & Hd & Hid). destruct (Hpairs d Hd) as (x & y & He & Hp & _ & _ & Hle & Hri & Hm & Ho).
    exists (Pair_owner d). split; [done|]. specialize (Hreal d Hd). rewrite Hle, Hri, Hm in Hreal. rewrite Hid in He.
    assert (∀ z, z ∈ endpointsOf (Plan_Interfaces normal) (InterfacePlan_LinkID a) → z = x ∨ z = y) as Hxy.
    { intros z. rewrite He. set_solver. }
    destruct (Hxy a) as [->| ->]; [by apply list_elem_of_filter|..]; (destruct (Hxy b) as [->| ->]; [apply list_elem_of_filter; by rewrite <- Heq|..]); try done.
    rewrite linkMTU_comm by (by apply localPair_sym). by apply paired_sym.
  - intros n o Ho Hpre. destruct (Hmarked n o Ho Hpre) as (d & Hd & Hnames). destruct (Hpairs d Hd) as (x & y & He & _ & Hx & Hy & Hle & Hri & _).
    assert (∀ z, z ∈ [x; y] → z ∈ Plan_Interfaces normal) as Hin. { intros z. rewrite <- He. by intros [_ ?]%list_elem_of_filter. }
    unfold pairNames in Hnames. rewrite Hle, Hri, !elem_of_cons, elem_of_nil in Hnames. destruct Hnames as [->|[->|[]]]; [exists x|exists y];
      (split_and!; [apply Hin; set_solver|done|done]).
Qed.

(** C20: a pass over the local links touches nothing that is not the Pod's.  An interface that
    does not carry the mark of the Pod's local links, the transport of the Pod, a device of the
    CNI or the links of another Pod, is exactly as it was, whether the pass succeeds or fails
    half way, even if it has a name the plan asks for. *)
Theorem local_links_confined plan normal podUID k n o :
  ValidatePlanCapabilities validPeerTransport plan = Ok () → NormalizePlan plan = Ok normal → podUID ≠ "" →
  ownedPeers (localLinkPodOwnerPrefix podUID) (view k) →
  view k !! n = Some o → HasPrefix (aliasOf o) (localLinkPodOwnerPrefix podUID) = false →
  view (reconcileLocalInterfaces DefaultLinkMTU normal podUID k).1 !! n = Some o.
Proof.
  intros Hval Hn Hpod Hown Ho Hf. pose proof (capable_normal _ _ Hval Hn) as Hcap.
  destruct (desiredPairs_spec DefaultLinkMTU _ normal podUID Hcap) as (desired & Hdes & Hnd & Hpairs & _).
  refine (proj1 (reconcile_spec normal podUID desired (view k) Hpod Hdes Hnd _ Hown k eq_refl) n o Ho Hf).
  intros d Hd. by destruct (Hpairs d Hd) as (? & ? & _ & _ & _ & _ & _ & _ & _ & ?).
Qed.
End realized.
