(* ===== verification/LocalLinksSettle.v ===== *)
(** * Local links of a Pod: a pass succeeds

    The kernel refuses what it documents: names that cannot be those of an interface, MTUs a
    veth device cannot have, aliases that are too long.  If it refuses nothing else, the plan
    asks for nothing of the kind, and the interfaces the Pod has marked are complete pairs, a
    pass over the local links of an accepted plan succeeds, whatever pairs were there before.

    The marks are never too long; the names and the MTUs are a condition, because an accepted
    plan can have ones the kernel refuses. *)

From S2P Require Import Prelude WireCodec Api GoStrings GoNet GoSort LinkAllocation DevicePlanTypes Management.
From S2P Require Import PlanValidation PlanSpec PlanAcceptance PlanCodec PlanCanonical PlanTheorems PlanCapabilities PlanCapabilitiesTheorems.
From S2P Require Import LocalLinks LocalLinksTheorems LocalLinksPass LocalLinksRealized.
Local Open Scope Z_scope.

(** ** The limits of the kernel *)

(** [dev_valid_name] of the kernel; a name with a percent sign is a pattern, not a name. *)
Definition refusedInName (c : Ascii.ascii) : bool :=
  existsb (λ n, bool_decide (c = char n)) [0; 9; 10; 11; 12; 13; 32; 37; 47; 58; 160].
Definition takesName (name : string) : bool :=
  negb (empty name) && negb (bool_decide (name = ".")) && negb (bool_decide (name = ".."))
  && (String.length name <=? 15)%nat && negb (existsb refusedInName (String.list_ascii_of_string name)).
(** The MTUs of a veth device, from [ETH_MIN_MTU] to [ETH_MAX_MTU]. *)
Definition vethMTU (mtu : Z) : Prop := 68 ≤ mtu ≤ 65535.
(** With 0 the kernel chooses. *)
Definition takesMTU (mtu : Z) : Prop := mtu = 0 ∨ vethMTU mtu.
(** An alias and its zero byte take at most 256 bytes. *)
Definition takesAlias (alias : string) : Prop := (String.length alias ≤ 255)%nat.

#[export] Instance vethMTU_dec mtu : Decision (vethMTU mtu) := _.
#[export] Instance takesMTU_dec mtu : Decision (takesMTU mtu) := _.
#[export] Instance takesAlias_dec alias : Decision (takesAlias alias) := _.

(** Requests within the limits are met. *)
Record reliableNetlink {K} {netlink : Netlink K} (view : K → kernelLinks) : Prop := {
  list_answers : ∀ k, is_ok (netLinkList k).2 = true;
  name_answers : ∀ n k, is_Some (netLinkByName n k).2;
  index_answers : ∀ n o k, view k !! n = Some o → is_Some (netLinkByIndex (If_Index (O_Iface o)) k).2;
  peer_answers : ∀ i o k, view k !! If_Name i = Some o → is_Some (O_Peer o) → is_Some (netVethPeerIndex i k).2;
  add_answers : ∀ q k, view k !! VR_Name q = None → view k !! VR_PeerName q = None → VR_Name q ≠ VR_PeerName q →
    takesName (VR_Name q) = true → takesName (VR_PeerName q) = true → takesMTU (VR_MTU q) → takesMTU (VR_PeerMTU q) → takesAlias (VR_Alias q) →
    (netLinkAdd q k).2 = true;
  alias_answers : ∀ i a k, is_Some (view k !! If_Name i) → takesAlias a → (netLinkSetAlias i a k).2 = true;
  mtu_answers : ∀ i o mtu k, view k !! If_Name i = Some o → typeOf o = vethLinkType → vethMTU mtu → (netLinkSetMTU i mtu k).2 = true;
  up_answers : ∀ i o k, view k !! If_Name i = Some o → typeOf o = vethLinkType → (netLinkSetUp i k).2 = true;
  del_answers : ∀ i o k, view k !! If_Name i = Some o → typeOf o = vethLinkType → (netLinkDel i k).2 = true
}.

Section settle.
Context {K : Type} {netlink : Netlink K} {order : RangeOrder string} {sort : GoSort} {sha : Sha256} (DefaultLinkMTU : Z).
Context (view : K → kernelLinks) (Hlaw : lawfulNetlink view) (Hrel : reliableNetlink view) (validPeerTransport : string → bool).
#[local] Notation net := (net K).

(** [m] succeeds from the states with [P], with a value and a state with [Q]. *)
Definition succeeds {A} (P : kernelLinks → Prop) (m : net A) (Q : A → kernelLinks → Prop) : Prop :=
  ∀ k, P (view k) → ∃ k' a, m k = (k', Ok a) ∧ Q a (view k').

Lemma succeeds_ret {A} (P : kernelLinks → Prop) (a : A) (Q : A → kernelLinks → Prop) : (∀ σ, P σ → Q a σ) → succeeds P (nret a) Q.
Proof. intros H k Hk. exists k, a. auto. Qed.
Lemma succeeds_bind {A B} P (m : net A) R (f : A → net B) Q :
  succeeds P m R → (∀ a, succeeds (R a) (f a) Q) → succeeds P (nbind m f) Q.
Proof. intros Hm Hf k Hk. destruct (Hm k Hk) as (k' & a & Hr & Ha). unfold nbind. rewrite Hr. by apply Hf. Qed.
Lemma succeeds_try {A B} P (m : net A) R (f : result vethError A → net B) Q :
  succeeds P m R → (∀ a, succeeds (R a) (f (Ok a)) Q) → succeeds P (nbind (ntry m) f) Q.
Proof. intros Hm Hf k Hk. destruct (Hm k Hk) as (k' & a & Hr & Ha). unfold nbind, ntry. rewrite Hr. by apply Hf. Qed.
Lemma succeeds_wrap {A} P wrap (m : net A) Q : succeeds P m Q → succeeds P (nwrap wrap m) Q.
Proof. intros Hm k Hk. destruct (Hm k Hk) as (k' & a & Hr & Ha). unfold nwrap. rewrite Hr. eauto. Qed.
Lemma succeeds_pre {A} P (m : net A) Q : (∀ σ, wfLinks σ → P σ → succeeds (σ =.) m Q) → succeeds P m Q.
Proof. intros H k Hk. apply (H (view k)); [apply (view_wf _ Hlaw)|done..]. Qed.

(** What is known of every outcome holds of the success. *)
Lemma succeeds_triple {A} P (m : net A) Q R :
  triple view P m R → succeeds P m Q → succeeds P m (λ a σ, Q a σ ∧ R (Ok a) σ).
Proof. intros Ht Hm k Hk. specialize (Ht k Hk). destruct (Hm k Hk) as (k' & a & Hr & Ha). rewrite Hr in Ht. eauto. Qed.
Lemma succeeds_request (op : K → K * bool) e (P R : kernelLinks → Prop) :
  (∀ k, P (view k) → (op k).2 = true) → (∀ k, P (view k) → (op k).2 = true → R (view (op k).1)) →
  succeeds P (request op e) (λ _, R).
Proof. intros H1 H2 k Hk. specialize (H1 k Hk). specialize (H2 k Hk H1). unfold request. destruct (op k) as [k' b]. cbn in *. subst b. eauto. Qed.

Lemma succeeds_lookup n σ : succeeds (σ =.) (lookupLink n) (λ x σ', σ' = σ ∧ x = O_Iface <$> σ !! n).
Proof.
  intros k ->. destruct (name_answers _ Hrel n k) as [x Hx]. destruct (name_law _ Hlaw n k) as [Hv Ha]. specialize (Ha x Hx).
  unfold lookupLink, ask. destruct (netLinkByName n k) as [k' r]. cbn in *. subst r. eauto.
Qed.

Lemma succeeds_peer σ n o m o' e :
  wfLinks σ → σ !! n = Some o → O_Peer o = Some m → σ !! m = Some o' →
  succeeds (σ =.) (ask (netVethPeerIndex (O_Iface o)) e) (λ j σ', σ' = σ ∧ j = If_Index (O_Iface o')).
Proof.
  intros Hwf Ho Hm Ho' k ->. pose proof (wf_name _ Hwf _ _ Ho) as Hn.
  destruct (peer_answers _ Hrel (O_Iface o) o k) as [j Hj]; [by rewrite Hn|by eexists|]. destruct (peer_law _ Hlaw (O_Iface o) k) as [Hv Ha].
  destruct (Ha j o m Hj) as (o2 & Ho2 & <-); [by rewrite Hn|done|]. unfold ask. destruct (netVethPeerIndex (O_Iface o) k) as [k' r]. cbn in *.
  subst r. do 2 eexists. split; [done|]. split; [done|]. congruence.
Qed.

(** ** Making sure of a pair *)

Lemma succeeds_configure n o mtu σ :
  takesMTU mtu → typeOf o = vethLinkType → σ !! n = Some o → If_Name (O_Iface o) = n →
  succeeds (σ =.) (configureStep mtu () (O_Iface o)) (λ _ σ', ∃ o', σ' = <[n := o']> σ ∧ tuned o o').
Proof.
  intros Hmtu Ht Ho Hn.
  assert (succeeds (σ =.) (configureStep mtu () (O_Iface o)) (λ _ _, True)) as H.
  { unfold configureStep. apply succeeds_bind with (R := λ _ σ', ∃ o', σ' !! n = Some o' ∧ typeOf o' = vethLinkType).
    - destruct (negb (mtu =? 0)) eqn:Hz; cbn [andb]; [|apply succeeds_ret; intros ? <-; by exists o].
      apply negb_true_iff, Z.eqb_neq in Hz. destruct Hmtu as [|Hmtu]; [done|].
      destruct (negb _); [|apply succeeds_ret; intros ? <-; by exists o]. apply succeeds_request.
      + intros k Hk. apply (mtu_answers _ Hrel _ o); [by rewrite <- Hk, Hn|done..].
      + intros k Hk Hok. pose proof (mtu_law _ Hlaw (O_Iface o) mtu k) as H. rewrite Hok, <- Hk, Hn in H. destruct H as (o1 & Ho1 & ->).
        assert (o1 = o) as -> by congruence. rewrite lookup_insert_eq. by eexists.
    - intros []. destruct (negb _); [|by apply succeeds_ret]. apply succeeds_request; [|done].
      intros k (o' & Hk & Ht'). apply (up_answers _ Hrel _ o'); [by rewrite Hn|done]. }
  pose proof (succeeds_triple _ _ _ _ (configure_spec view Hlaw n o mtu σ Ho Hn) H) as Hs.
  intros k Hk. destruct (Hs k Hk) as (k' & a & Hr & _ & o' & ? & ? & _). eauto 10.
Qed.

Lemma succeeds_configured l r mtu σ a b :
  takesMTU mtu → typeOf a = vethLinkType → typeOf b = vethLinkType → wfLinks σ → σ !! l = Some a → σ !! r = Some b → l ≠ r →
  succeeds (σ =.) (nfold (configureStep mtu) () [O_Iface a; O_Iface b]) (λ _ _, True).
Proof.
  intros Hmtu Ta Tb Hwf Ha Hb Hne. cbn [nfold]. apply succeeds_bind with (R := λ _ σ', ∃ a', σ' = <[l := a']> σ ∧ tuned a a').
  - apply succeeds_configure; [done..|by apply (wf_name _ Hwf)].
  - intros []. apply succeeds_pre. intros σ1 _ (a' & -> & _).
    apply succeeds_bind with (R := λ _ σ', ∃ b', σ' = <[r := b']> (<[l := a']> σ) ∧ tuned b b'); [|intros []; by apply succeeds_ret].
    apply succeeds_configure; [done|done|by rewrite lookup_insert_ne|by apply (wf_name _ Hwf)].
Qed.

Lemma succeeds_finish created l r mtu owner σ a b :
  takesMTU mtu → wfLinks σ → ends σ l r owner a b → succeeds (σ =.) (finishPair created (O_Iface a) (O_Iface b) mtu owner) (λ _ _, True).
Proof.
  intros Hmtu Hwf (Ha & Hb & Pa & Pb & Ta & Tb & Oa & Ob). unfold finishPair. unfold typeOf, aliasOf in *. rewrite Ta, Tb, Oa, Ob.
  rewrite !bool_decide_eq_true_2 by done. cbn [negb orb]. destruct (wf_peer _ Hwf _ _ _ Ha Pa) as (Hne & _).
  eapply succeeds_try; [by apply (succeeds_peer σ l a r b)|]. intros j. apply succeeds_pre. intros ? _ [-> ->]. rewrite Z.eqb_refl. cbn [negb].
  by apply (succeeds_configured l r).
Qed.

Lemma succeeds_readPair l r σ σ' a b e :
  newPair l r σ σ' a b → succeeds (σ' =.) (readPair l r e) (λ res σ'', σ'' = σ' ∧ res = (Some (O_Iface a), Some (O_Iface b))).
Proof.
  intros Hn. destruct (newPair_lookup _ _ _ _ _ _ Hn) as [Hl Hr]. unfold readPair.
  eapply succeeds_try; [apply succeeds_lookup|]. intros x. apply succeeds_pre. intros ? _ [-> ->].
  eapply succeeds_try; [apply succeeds_lookup|]. intros y. apply succeeds_ret. intros ? [-> ->]. by rewrite Hl, Hr.
Qed.

Lemma succeeds_create l r mtu owner σ :
  takesName l = true → takesName r = true → takesMTU mtu → takesAlias owner →
  σ !! l = None → σ !! r = None → l ≠ r → succeeds (σ =.) (createPair l r mtu owner) (λ _ _, True).
Proof.
  intros Nl Nr Hmtu Hal Hl Hr Hne. unfold createPair. apply succeeds_bind with (R := λ _ σ', ∃ a b, newPair l r σ σ' a b).
  { apply succeeds_request.
    - intros k ->. by apply (add_answers _ Hrel).
    - intros k Hk Hok. pose proof (add_law _ Hlaw (MkVethRequest l owner mtu r mtu) k) as H. rewrite Hok, <- Hk in H. cbn in H.
      destruct H as (? & ? & ? & a & b & ? & ? & ? & ? & ?). by exists a, b. }
  intros []. apply succeeds_pre. intros σ1 Hwf1 (a & b & Hn). destruct (newPair_lookup _ _ _ _ _ _ Hn) as [Hl1 Hr1].
  pose proof (wf_name _ Hwf1 _ _ Hl1) as Hla. pose proof (wf_name _ Hwf1 _ _ Hr1) as Hrb.
  eapply succeeds_bind; [by apply (succeeds_readPair l r σ)|]. intros pair. apply succeeds_pre. intros ? _ [-> ->]. cbn [fst snd].
  assert (succeeds (σ1 =.) (setAlias (Some (O_Iface a)) owner ;;! setAlias (Some (O_Iface b)) owner) (λ _ _, True)) as Hset.
  { apply succeeds_bind with (R := λ _ σ', is_Some (σ' !! r)).
    - apply succeeds_request.
      + intros k Hk. apply (alias_answers _ Hrel); [|done]. rewrite Hla, <- Hk. by eexists.
      + intros k Hk Hok. pose proof (alias_law _ Hlaw (O_Iface a) owner k) as H. rewrite Hok, <- Hk in H. destruct H as (o & _ & ->).
        rewrite Hla, lookup_insert_ne by done. by eexists.
    - intros []. apply succeeds_request; [|done]. intros k Hk. apply (alias_answers _ Hrel); [by rewrite Hrb|done]. }
  eapply succeeds_try; [apply (succeeds_triple _ _ _ _ (setAlias_spec view Hlaw l r σ σ1 a b owner Hn Hla Hrb) Hset)|].
  intros []. apply succeeds_pre. intros σ2 _ [_ Hn2]. intros k Hk. destruct (succeeds_readPair l r σ σ2 _ _ readingMarkedFailed Hn2 k Hk) as (k' & p & Hp & _).
  eauto.
Qed.

(** Both names are free, or the pair is there. *)
Definition ready (σ : kernelLinks) (l r owner : string) : Prop :=
  (σ !! l = None ∧ σ !! r = None) ∨ ∃ a b, ends σ l r owner a b.

Lemma takesMTU_width mtu : takesMTU mtu → 0 ≤ mtu ≤ maxUint32.
Proof. unfold takesMTU, vethMTU, maxUint32. lia. Qed.

(** What the kernel is asked for is within its limits. *)
Definition fitting (d : desiredVethPair) : Prop :=
  takesName (Pair_left d) = true ∧ takesName (Pair_right d) = true ∧ takesMTU (Pair_mtu d) ∧ takesAlias (Pair_owner d).

Lemma succeeds_ensure l r mtu owner σ :
  takesName l = true → takesName r = true → takesMTU mtu → takesAlias owner → l ≠ r → ready σ l r owner → succeeds (σ =.) (EnsureVethPair l r mtu owner) (λ _ _, True).
Proof.
  intros Nl Nr Hmtu Hal Hne Hready. pose proof (takesMTU_width _ Hmtu). unfold EnsureVethPair. rewrite (proj2 (Z.ltb_ge _ _)), (proj2 (Z.ltb_ge _ _)) by lia. cbn [orb].
  eapply succeeds_bind; [apply succeeds_lookup|]. intros x. apply succeeds_pre. intros ? Hwf [-> ->].
  eapply succeeds_bind; [apply succeeds_lookup|]. intros y. apply succeeds_pre. intros ? _ [-> ->].
  destruct Hready as [[Hl Hr]|(a & b & He)].
  - rewrite Hl, Hr. cbn. eapply succeeds_bind; [exact (succeeds_triple _ _ _ _ (createPair_spec view Hlaw l r mtu owner σ) (succeeds_create l r mtu owner σ Nl Nr Hmtu Hal Hl Hr Hne))|].
    intros pair. apply succeeds_pre. intros σ1 Hwf1 [_ (a & b & Hn & -> & Oa & Ob)]. destruct (newPair_lookup _ _ _ _ _ _ Hn) as [Hl1 Hr1].
    destruct Hn as (_ & _ & _ & _ & Pa & Pb & Ta & Tb). by apply (succeeds_finish true l r).
  - assert (He' := He). destruct He' as (Ha & Hb & _). rewrite Ha, Hb. cbn.
    apply succeeds_bind with (R := λ p σ', σ' = σ ∧ p = (Some (O_Iface a), Some (O_Iface b))); [by apply succeeds_ret|].
    intros pair. apply succeeds_pre. intros ? _ [-> ->]. by apply (succeeds_finish false l r).
Qed.

Lemma ready_steps prefix N σ σ' l r owner : steps prefix N σ σ' → l ∉ N → r ∉ N → ready σ l r owner → ready σ' l r owner.
Proof. intros Hs Hl Hr. unfold ready, ends. by rewrite !(st_other _ _ _ _ Hs) by done. Qed.

Lemma succeeds_ensurePairs prefix desired σ :
  (∀ d, d ∈ desired → HasPrefix (Pair_owner d) prefix = true ∧ fitting d ∧ ready σ (Pair_left d) (Pair_right d) (Pair_owner d)) →
  NoDup (desired ≫= pairNames) → ownedPeers prefix σ → succeeds (σ =.) (ensurePairs desired) (λ _ _, True).
Proof.
  unfold ensurePairs. revert σ. induction desired as [|d desired IH]; intros σ Hd Hnd Hown; cbn [nfold]; [by apply succeeds_ret|].
  cbn [mbind list_bind] in Hnd. apply NoDup_app in Hnd as (Hself & Hdis & Hnd). destruct (Hd d) as (Hp & (F1 & F2 & F3 & F4) & Hr); [by left|].
  assert (Pair_left d ≠ Pair_right d) as Hne by (intros He; unfold pairNames in Hself; apply NoDup_cons in Hself as [Hs _]; set_solver).
  eapply succeeds_bind; [apply succeeds_wrap;
    exact (succeeds_triple _ _ _ _ (ensure_spec view Hlaw prefix _ _ (Pair_mtu d) (Pair_owner d) σ Hp Hown) (succeeds_ensure _ _ _ _ σ F1 F2 F3 F4 Hne Hr))|].
  intros []. apply succeeds_pre. intros σ1 _ [_ [Hs _]]. apply IH; [|done|by eapply ownedPeers_steps].
  intros d' Hd'. destruct (Hd d') as (Hp' & Hm' & Hr'); [by right|]. split; [done|]. split; [done|].
  assert (∀ n, n ∈ pairNames d' → n ∉ ({[Pair_left d; Pair_right d]} : gset string)) as Hout.
  { intros n Hn Hin. apply (Hdis n); [unfold pairNames; set_solver|]. apply list_elem_of_bind. by exists d'. }
  eapply ready_steps; [exact Hs|apply Hout; unfold pairNames; set_solver|apply Hout; unfold pairNames; set_solver|done].
Qed.

(** ** Listing and deleting *)

(** The marked interfaces are complete pairs, each with a mark of its own. *)
Definition completePairs (prefix : string) (σ : kernelLinks) : Prop :=
  ∀ n o, σ !! n = Some o → HasPrefix (aliasOf o) prefix = true →
    n ≠ "" ∧ typeOf o = vethLinkType ∧ ∃ m o', O_Peer o = Some m ∧ σ !! m = Some o' ∧ aliasOf o' = aliasOf o
    ∧ ∀ n' o'', σ !! n' = Some o'' → aliasOf o'' = aliasOf o → n' = n ∨ n' = m.

Lemma complete_peers prefix σ : completePairs prefix σ → ownedPeers prefix σ.
Proof. intros Hc n o Hn Hp _. destruct (Hc n o Hn Hp) as (_ & _ & m & _ & Hm & _). by exists m. Qed.

Lemma succeeds_listStep σ prefix links x found :
  wfLinks σ → completePairs prefix σ → links ≡ₚ O_Iface <$> (map_to_list σ).*2 → x ∈ links →
  succeeds (σ =.) (listStep (foldl (λ m link, <[If_Index link := link]> m) ∅ links) prefix found x) (λ _ σ', σ' = σ).
Proof.
  intros Hwf Hc Hperm Hx. unfold listStep. destruct (HasPrefix (If_Alias x) prefix) eqn:Hp; cbn [negb]; [|by apply succeeds_ret].
  rewrite Hperm in Hx. apply elem_of_links in Hx as (o & Ho & <-); [|done].
  destruct (Hc _ o Ho Hp) as (_ & Ht & m & o' & Hm & Ho' & _). unfold typeOf in Ht. rewrite bool_decide_eq_true_2 by done. cbn [negb].
  eapply succeeds_bind; [by apply (succeeds_peer σ (If_Name (O_Iface o)) o m o')|]. intros j. apply succeeds_pre. intros ? _ [-> ->].
  rewrite byIndex_lookup; [by apply succeeds_ret|..].
  - intros i i' Hi Hi' Heq. rewrite Hperm in Hi, Hi'. apply elem_of_links in Hi as (a & Ha & <-), Hi' as (b & Hb & <-); [|done..].
    pose proof (wf_index _ Hwf _ _ _ _ Ha Hb Heq) as Hn. rewrite Hn in Ha. congruence.
  - rewrite Hperm. apply elem_of_links; [done|]. exists o'. by rewrite (wf_name _ Hwf _ _ Ho').
Qed.

Lemma succeeds_list prefix σ :
  prefix ≠ "" → completePairs prefix σ → succeeds (σ =.) (ListVethInterfaces prefix) (λ existing σ', σ' = σ ∧ listed σ prefix existing).
Proof.
  intros Hne Hc. assert (succeeds (σ =.) (ListVethInterfaces prefix) (λ _ _, True)) as H.
  { unfold ListVethInterfaces. apply empty_false in Hne. rewrite Hne.
    apply succeeds_bind with (R := λ links σ', σ' = σ ∧ links ≡ₚ O_Iface <$> (map_to_list σ).*2).
    - intros k ->. pose proof (list_answers _ Hrel k) as Hok. destruct (list_law _ Hlaw k) as [Hv Hl]. unfold listPodLinks.
      cbn [netlinkDumpAttempts retryLinkDump]. destruct (netLinkList k) as [k' [l|]]; cbn in *; [|done]. exists k', l. auto.
    - intros links. apply succeeds_pre. intros ? Hwf [-> Hperm]. apply succeeds_bind with (R := λ _ _, True); [|intros ?; by apply succeeds_ret].
      assert (∀ l found, (∀ x, x ∈ l → x ∈ links) → succeeds (σ =.)
        (nfold (listStep (foldl (λ m link, <[If_Index link := link]> m) ∅ links) prefix) found l) (λ _ _, True)) as Hloop; [|by apply Hloop].
      induction l as [|x l IH]; intros found Hin; cbn [nfold]; [by apply succeeds_ret|].
      eapply succeeds_bind; [apply succeeds_listStep; [done..|apply Hin; by left]|]. intros found'. apply succeeds_pre. intros ? _ ->.
      apply IH. intros y Hy. apply Hin. by right. }
  pose proof (succeeds_triple _ _ _ _ (list_spec view Hlaw prefix σ (complete_peers _ _ Hc)) H) as Hs. intros k Hk.
  destruct (Hs k Hk) as (k' & existing & Hr & _ & HH). eauto.
Qed.

Lemma succeeds_delete prefix σ σ' v :
  completePairs prefix σ → wfLinks σ' → σ' ⊆ σ → prefix ≠ "" →
  (∃ o, σ !! Veth_Name v = Some o ∧ aliasOf o = Veth_Owner v ∧ HasPrefix (aliasOf o) prefix = true) →
  succeeds (σ' =.) (DeleteVethPair (Veth_Name v) (Veth_Owner v)) (λ _ _, True).
Proof.
  intros Hc Hwf' Hsub Hne (o & Ho & Ha & Hp). destruct (Hc _ o Ho Hp) as (Hname & Ht & m & o' & Hm & Ho' & Ha' & _).
  assert (Veth_Owner v ≠ "") as Howner by (intros He; rewrite Ha, He in Hp; unfold HasPrefix in Hp; destruct prefix; done).
  unfold DeleteVethPair. rewrite (proj2 (empty_false _) Hname), (proj2 (empty_false _) Howner). cbn [orb].
  eapply succeeds_bind; [apply succeeds_lookup|]. intros x. apply succeeds_pre. intros ? _ [-> ->].
  destruct (σ' !! Veth_Name v) as [o1|] eqn:Ho1; cbn; [|by apply succeeds_ret].
  assert (o1 = o) as -> by (pose proof (lookup_weaken _ _ _ _ Ho1 Hsub); congruence).
  destruct (wf_peer _ Hwf' _ _ _ Ho1 Hm) as (_ & _ & o2 & Ho2 & _). assert (o2 = o') as -> by (pose proof (lookup_weaken _ _ _ _ Ho2 Hsub); congruence).
  destruct (Hc m o' Ho') as (_ & Ht' & _); [by rewrite Ha'|]. unfold typeOf, aliasOf in *. rewrite Ht, Ha. rewrite !bool_decide_eq_true_2 by done. cbn [negb orb].
  eapply succeeds_bind; [by apply (succeeds_peer σ' (Veth_Name v) o m o')|]. intros j. apply succeeds_pre. intros ? _ [-> ->].
  apply succeeds_bind with (R := λ i σ'', σ'' = σ' ∧ i = O_Iface o').
  - intros k Hk. subst σ'. destruct (index_answers _ Hrel m o' k Ho2) as [i Hi]. destruct (index_law _ Hlaw (If_Index (O_Iface o')) k) as [Hv Hl].
    destruct (Hl i Hi) as (o3 & Ho3 & <- & Hj). unfold ask. destruct (netLinkByIndex _ k) as [k' r]. cbn in *. subst r. do 2 eexists. split; [done|].
    split; [done|]. pose proof (wf_index _ Hwf' _ _ _ _ Ho3 Ho2 Hj) as Hn. rewrite Hn in Ho3. congruence.
  - intros i. apply succeeds_pre. intros ? _ [-> ->]. rewrite Ht', Ha', Ha. rewrite !bool_decide_eq_true_2 by done. cbn [negb orb].
    apply succeeds_request; [|done]. intros k ->. apply (del_answers _ Hrel _ o); [|done]. by rewrite (wf_name _ Hwf' _ _ Ho1).
Qed.

Lemma succeeds_remove prefix σ existing stale :
  prefix ≠ "" → completePairs prefix σ → listed σ prefix existing → (∀ s, s ∈ stale → s ∈ existing) →
  succeeds (σ =.) (removeLocalVethPairs stale) (λ _ _, True).
Proof.
  intros Hne Hc Hl. assert (∀ σ', σ' ⊆ σ → (∀ s, s ∈ stale → s ∈ existing) → succeeds (σ' =.) (removeLocalVethPairs stale) (λ _ _, True)) as H; [|by apply H].
  unfold removeLocalVethPairs. induction stale as [|s stale IH]; intros σ' Hsub Hin; cbn [nfold]; [by apply succeeds_ret|].
  destruct (proj1 (proj2 Hl) s) as (o & Ho & Ha & Hp & Hm); [apply Hin; by left|]. apply succeeds_pre. intros ? Hwf' <-.
  assert (ownedPeers prefix σ') as Hown by (eapply shrinks_peers; [done|by apply complete_peers]).
  eapply succeeds_bind.
  - apply succeeds_wrap. refine (succeeds_triple _ _ _ _ (delete_spec view Hlaw prefix (Veth_Name s) (Veth_Owner s) σ' _ Hown) _); [by rewrite <- Ha|].
    eapply succeeds_delete; [done..|]. by exists o.
  - intros []. apply succeeds_pre. intros σ2 _ [_ [[Hsub2 _] _]]. apply IH; [by etrans|]. intros s' Hs'. apply Hin. by right.
Qed.

(** ** Stale pairs *)

Lemma group_pair prefix σ existing v :
  wfLinks σ → completePairs prefix σ → listed σ prefix existing → v ∈ existing →
  ∃ w, filter (λ x, Veth_Owner x = Veth_Owner v) existing ≡ₚ [v; w] ∧ Veth_PeerName v = Veth_Name w ∧ Veth_PeerName w = Veth_Name v.
Proof.
  intros Hwf Hc (L1 & L2 & L3) Hv. destruct (L2 v Hv) as (o & Ho & Ha & Hp & Hm). destruct (Hc _ _ Ho Hp) as (_ & _ & m & o' & Hm' & Ho' & Ha' & Huniq).
  assert (m = Veth_PeerName v) as -> by congruence. destruct (L1 (Veth_PeerName v) o' Ho') as (w & Hw & Hwn); [by rewrite Ha'|].
  destruct (L2 w Hw) as (o2 & Ho2 & Ha2 & Hp2 & Hm2). rewrite Hwn in Ho2. assert (o2 = o') as -> by congruence.
  destruct (wf_peer _ Hwf _ _ _ Ho Hm) as (Hne & _ & o3 & Ho3 & P3 & _). assert (o3 = o') as -> by congruence.
  exists w. split_and!; [|congruence|congruence]. apply NoDup_Permutation.
  - apply NoDup_filter. by apply (NoDup_fmap_1 Veth_Name).
  - apply NoDup_cons. split; [|apply NoDup_singleton]. intros ->%list_elem_of_singleton. congruence.
  - intros x. rewrite list_elem_of_filter, !elem_of_cons, elem_of_nil. split.
    + intros [Hown Hx]. destruct (L2 x Hx) as (ox & Hox & Hax & _). destruct (Huniq _ ox Hox) as [Hn|Hn]; [congruence|left|right; left];
        apply (fmap_NoDup_inj Veth_Name existing); [done..|congruence].
    + intros [->|[->|[]]]; [done|]. split; [congruence|done].
Qed.

Lemma stale_succeeds prefix σ existing byOwner :
  wfLinks σ → completePairs prefix σ → listed σ prefix existing → ∃ stale, staleLocalVethPairs existing prefix byOwner = Ok stale.
Proof.
  intros Hwf Hc Hl. unfold staleLocalVethPairs. assert (forallb (λ intf, HasPrefix (Veth_Owner intf) prefix) existing = true) as ->.
  { apply forallb_forall. intros v Hv%list_elem_of_In. destruct (proj1 (proj2 Hl) v Hv) as (o & _ & <- & Hp & _). done. }
  cbn [negb]. set (m := foldl _ ∅ existing).
  assert (∀ owners stale, (∀ owner, owner ∈ owners → owner ∈ sorted_keys m) → ∃ stale', rfold (staleStep m byOwner) stale owners = Ok stale') as H; [|by apply H].
  induction owners as [|owner owners IH]; intros stale Hin; cbn [rfold]; [by eexists|].
  assert (∃ stale1, staleStep m byOwner stale owner = Ok stale1) as [stale1 Hs].
  { assert (owner ∈ sorted_keys m) as [group Hg]%elem_of_sorted_keys by (apply Hin; by left). unfold staleStep. rewrite Hg. cbn [default].
    unfold m in Hg. rewrite appendTo_lookup in Hg. destruct (decide _) as [|Hne]; [done|]. injection Hg as <-.
    destruct (filter (λ x, Veth_Owner x = owner) existing) as [|v rest] eqn:Hf; [done|].
    assert (v ∈ filter (λ x, Veth_Owner x = owner) existing) as [Howner Hv]%list_elem_of_filter by (rewrite Hf; by left).
    destruct (group_pair prefix σ existing v Hwf Hc Hl Hv) as (w & Hp & Hvw & Hwv). rewrite Howner, Hf in Hp.
    pose proof (Permutation_trans (SortFunc_perm (onKey Veth_Name Compare) (v :: rest)) Hp) as Hsort. symmetry in Hsort.
    unfold id. apply Permutation_length_2_inv in Hsort as [-> | ->]; (rewrite !bool_decide_eq_true_2 by done); cbn [negb orb];
      destruct (byOwner !! owner); try destruct (_ || _); by eexists. }
  rewrite Hs. cbn [rbind]. apply IH. intros o Ho. apply Hin. by right.
Qed.

(** ** The pass *)

Lemma byOwner_owner desired owner d :
  foldl (λ m pair, <[Pair_owner pair := pair]> m) (∅ : gmap string desiredVethPair) desired !! owner = Some d → Pair_owner d = owner.
Proof. induction desired as [|x desired IH] using rev_ind; [done|]. rewrite foldl_app. cbn. rewrite lookup_insert_Some. naive_solver. Qed.

Lemma pair_unique desired d d' n : NoDup (desired ≫= pairNames) → d ∈ desired → d' ∈ desired → n ∈ pairNames d → n ∈ pairNames d' → d = d'.
Proof.
  induction desired as [|x desired IH]; [by intros _ ?%elem_of_nil|]. cbn [mbind list_bind]. intros (_ & Hdis & Hnd)%NoDup_app Hd Hd' Hn Hn'.
  apply elem_of_cons in Hd as [->|Hd], Hd' as [->|Hd']; [done| | |by apply IH]; exfalso; (eapply Hdis; [done|]); apply list_elem_of_bind; eauto.
Qed.

(** The marked interfaces are ends of wanted pairs. *)
Definition onlyWanted (prefix : string) (byOwner : gmap string desiredVethPair) (σ : kernelLinks) : Prop :=
  ∀ n o, σ !! n = Some o → HasPrefix (aliasOf o) prefix = true → ∃ d, byOwner !! aliasOf o = Some d ∧ n ∈ pairNames d.

Lemma wanted_ready prefix desired σ d :
  let byOwner := foldl (λ m pair, <[Pair_owner pair := pair]> m) (∅ : gmap string desiredVethPair) desired in
  wfLinks σ → completePairs prefix σ → onlyWanted prefix byOwner σ → NoDup (desired ≫= pairNames) → d ∈ desired →
  (∀ n o, n ∈ pairNames d → σ !! n = Some o → HasPrefix (aliasOf o) prefix = true) →
  ready σ (Pair_left d) (Pair_right d) (Pair_owner d).
Proof.
  intros byOwner Hwf Hc Hw Hnd Hd Hmark.
  assert (∀ n o, n ∈ pairNames d → σ !! n = Some o → ∃ m o', m ∈ pairNames d ∧ m ≠ n ∧ ends σ n m (Pair_owner d) o o') as Hend.
  { intros n o Hn Ho. pose proof (Hmark n o Hn Ho) as Hp. destruct (Hw n o Ho Hp) as (d1 & Hd1 & Hn1).
    assert (d1 = d) as -> by (apply (pair_unique desired d1 d n); [done|by eapply byOwner_lookup|done..]). pose proof (byOwner_owner _ _ _ Hd1) as Hown.
    destruct (Hc n o Ho Hp) as (_ & _ & m & o' & Hm & Ho' & Ha & _).
    destruct (wf_peer _ Hwf _ _ _ Ho Hm) as (Hne & Ht & o2 & Ho2 & P2 & T2). assert (o2 = o') as -> by congruence.
    destruct (Hw m o' Ho') as (d2 & Hd2 & Hn2); [by rewrite Ha|]. assert (d2 = d) as -> by congruence.
    exists m, o'. unfold ends. by rewrite Ha. }
  destruct (σ !! Pair_left d) as [a|] eqn:Hl; [right|destruct (σ !! Pair_right d) as [b|] eqn:Hr; [|by left]].
  - destruct (Hend (Pair_left d) a ltac:(unfold pairNames; set_solver) Hl) as (m & b & Hm & Hne & He). exists a, b.
    unfold pairNames in Hm. rewrite !elem_of_cons, elem_of_nil in Hm. by destruct Hm as [->|[->|[]]].
  - destruct (Hend (Pair_right d) b ltac:(unfold pairNames; set_solver) Hr) as (m & a & Hm & Hne & He & Ha & _).
    unfold pairNames in Hm. rewrite !elem_of_cons, elem_of_nil in Hm. destruct Hm as [->|[->|[]]]; congruence.
Qed.

Lemma complete_subseteq prefix σ σ' : wfLinks σ' → σ' ⊆ σ → completePairs prefix σ → completePairs prefix σ'.
Proof.
  intros Hwf Hsub Hc n o Ho Hp. destruct (Hc n o (lookup_weaken _ _ _ _ Ho Hsub) Hp) as (Hn & Ht & m & o' & Hm & Ho' & Ha & Hu).
  destruct (wf_peer _ Hwf _ _ _ Ho Hm) as (_ & _ & o2 & Ho2 & _). pose proof (lookup_weaken _ _ _ _ Ho2 Hsub). split_and!; [done..|].
  exists m, o'. split_and!; [done|congruence|done|]. intros n' o'' Hn'. apply Hu. by eapply lookup_weaken.
Qed.

Lemma reconcile_succeeds plan podUID desired σ :
  let prefix := localLinkPodOwnerPrefix podUID in
  podUID ≠ "" → desiredLocalVethPairs DefaultLinkMTU plan podUID = Some desired → NoDup (desired ≫= pairNames) →
  (∀ d, d ∈ desired → HasPrefix (Pair_owner d) prefix = true ∧ fitting d) → completePairs prefix σ →
  (∀ d n o, d ∈ desired → n ∈ pairNames d → σ !! n = Some o → HasPrefix (aliasOf o) prefix = true) →
  succeeds (σ =.) (reconcileLocalInterfaces DefaultLinkMTU plan podUID) (λ _ _, True).
Proof.
  intros prefix Hpod Hdes Hnd Hpre Hc Hfree. unfold reconcileLocalInterfaces. apply empty_false in Hpod. rewrite Hpod, Hdes. fold prefix.
  set (byOwner := foldl _ ∅ desired). assert (prefix ≠ "") as Hne by done.
  eapply succeeds_bind; [apply succeeds_wrap; by apply succeeds_list|]. intros existing. apply succeeds_pre. intros ? Hwf [-> Hlisted].
  unfold removeStaleLocalVethPairs. destruct (stale_succeeds prefix σ existing byOwner Hwf Hc Hlisted) as [stale Hst]. rewrite Hst.
  apply stale_spec in Hst as [Hin Hcover].
  eapply succeeds_bind; [refine (succeeds_triple _ _ _ _ (remove_spec view Hlaw prefix σ existing stale Hlisted Hin (complete_peers _ _ Hc)) _);
    by eapply succeeds_remove|].
  intros []. apply succeeds_pre. intros σ1 Hwf1 [_ [[Hsub _] Hgone]]. pose proof (complete_subseteq _ _ _ Hwf1 Hsub Hc) as Hc1.
  apply (succeeds_ensurePairs prefix); [|done|by apply complete_peers]. intros d Hd. destruct (Hpre d Hd) as [Hp Hm]. split; [done|]. split; [done|].
  apply (wanted_ready prefix desired); [done..| |done|done|].
  - intros n o Ho Hmark. destruct (proj1 Hlisted n o) as (v & Hv & <-); [by eapply lookup_weaken|done|].
    destruct (proj1 (proj2 Hlisted) v Hv) as (o2 & Ho2 & Ha & _). assert (o2 = o) as -> by (pose proof (lookup_weaken _ _ _ _ Ho Hsub); congruence).
    destruct (Hcover v Hv) as [(d' & Hd' & Hname)|(s & Hs & Hname)].
    + exists d'. rewrite Ha. split; [done|]. unfold pairNames. set_solver.
    + exfalso. destruct (Hgone s Hs) as [N1 N2]. destruct Hname as [Hn'|Hn']; rewrite Hn' in Ho; congruence.
  - intros n o Hn Ho. eapply (Hfree d); [done..|]. by eapply lookup_weaken.
Qed.

(** *** The marks *)

Lemma identityDigest_length identity : String.length (identityDigest identity) = 64%nat.
Proof.
  assert (∀ bytes, String.length (String.concat "" (hex02 <$> bytes)) = (2 * length bytes)%nat) as Hlen.
  2: { unfold identityDigest, Digest, TrimPrefix. rewrite trim_prefix_app. etrans; [apply Hlen|]. by rewrite Sum256_length. }
  induction bytes as [|b [|c bytes] IH]; [done..|]. cbn [fmap list_fmap String.concat] in *. rewrite !length_string_app, IH. cbn. lia.
Qed.
Lemma directLinkOwner_short pod link left right : takesAlias (directLinkOwner pod directVethOwnerType link left right).
Proof.
  unfold takesAlias, directLinkOwner, directLinkPodOwnerPrefix. rewrite !length_string_app, !identityDigest_length. cbn. lia.
Qed.

Lemma desired_short plan podUID desired d :
  desiredLocalVethPairs DefaultLinkMTU plan podUID = Some desired → d ∈ desired → takesAlias (Pair_owner d).
Proof.
  intros Hdes (i & Hi)%list_elem_of_lookup. apply mapM_Some in Hdes. destruct (Forall2_lookup_r _ _ _ _ _ Hdes Hi) as (linkID & _ & Hd).
  unfold desiredPair in Hd. destruct (SortFunc _ _) as [|a [|b l]]; [done..|]. injection Hd as <-. apply directLinkOwner_short.
Qed.

Lemma desired_fitting plan podUID desired :
  capable validPeerTransport plan → desiredLocalVethPairs DefaultLinkMTU plan podUID = Some desired → takesMTU DefaultLinkMTU →
  (∀ a, a ∈ Plan_Interfaces plan → localConnectivity a = true → takesName (InterfacePlan_Name a) = true ∧ takesMTU (InterfacePlan_MTU a)) →
  ∀ d, d ∈ desired → fitting d.
Proof.
  intros Hcap Hdes Hdef Hlim d Hd. destruct (desiredPairs_spec DefaultLinkMTU validPeerTransport plan podUID Hcap) as (desired' & Hdes' & _ & Hpairs & _).
  assert (desired' = desired) as -> by congruence. destruct (Hpairs d Hd) as (a & b & He & _ & La & Lb & Hl & Hr & Hm & _).
  assert (∀ x, x ∈ [a; b] → x ∈ Plan_Interfaces plan) as Hx. { intros x. rewrite <- He. by intros [_ ?]%list_elem_of_filter. }
  destruct (Hlim a (Hx a ltac:(set_solver)) La) as [Na Ma], (Hlim b (Hx b ltac:(set_solver)) Lb) as [Nb Mb].
  unfold fitting. rewrite Hl, Hr, Hm. split_and!; [done..|unfold linkMTU; by repeat destruct (_ =? _)|by eapply desired_short].
Qed.

(** C30: a pass over the local links of an accepted plan succeeds.  The kernel meets the requests
    within its limits; the local links of the plan are within them, that is, their interfaces
    have names the kernel takes and MTUs of 0 or from 68 to 65535; the interfaces that carry the
    mark of the Pod's local links are complete pairs, and nobody else has an interface with a
    name of the plan.  Then the pass ends without an error, whichever pairs of an older plan it
    has to take down and whichever are already there. *)
Theorem local_links_settle plan normal podUID k :
  ValidatePlanCapabilities validPeerTransport plan = Ok () → NormalizePlan plan = Ok normal → podUID ≠ "" →
  completePairs (localLinkPodOwnerPrefix podUID) (view k) →
  (∀ a o, a ∈ Plan_Interfaces normal → view k !! InterfacePlan_Name a = Some o → HasPrefix (aliasOf o) (localLinkPodOwnerPrefix podUID) = true) →
  takesMTU DefaultLinkMTU →
  (∀ a, a ∈ Plan_Interfaces normal → localConnectivity a = true → takesName (InterfacePlan_Name a) = true ∧ takesMTU (InterfacePlan_MTU a)) →
  (reconcileLocalInterfaces DefaultLinkMTU normal podUID k).2 = Ok ().
Proof.
  intros Hval Hn Hpod Hc Hfree Hdef Hlim. pose proof (capable_normal _ _ _ Hval Hn) as Hcap.
  destruct (desiredPairs_spec DefaultLinkMTU validPeerTransport normal podUID Hcap) as (desired & Hdes & Hnd & Hpairs & _).
  pose proof (desired_fitting normal podUID desired Hcap Hdes Hdef Hlim) as Hfit.
  destruct (reconcile_succeeds normal podUID desired (view k) Hpod Hdes Hnd) with (k := k) as (k' & [] & -> & _); [..|done|done].
  - intros d Hin. destruct (Hpairs d Hin) as (? & ? & _ & _ & _ & _ & _ & _ & _ & ?). split; [done|by apply Hfit].
  - done.
  - intros d n o Hin Hnm. destruct (pairOf_source DefaultLinkMTU validPeerTransport normal podUID d n (Hpairs d Hin) Hnm) as (a & Ha & _ & <-). by apply Hfree.
Qed.
End settle.
