(* ===== verification/LocalLinksExamples.v ===== *)
(** * Local links of a Pod: a concrete kernel

    A kernel that keeps a map of interfaces obeys the laws and is reliable; the theorems of
    [LocalLinksRealized] and [LocalLinksSettle] at a Pod with two Nodes, whose namespace holds
    the transport of the Pod and a pair of an older plan. *)

From S2P Require Import Prelude WireCodec Api GoStrings GoNet GoSort LinkAllocation DevicePlanTypes Management ManagementTheorems.
From S2P Require Import PeerDirectory Hosts NameResolution PlanValidation PlanSpec PlanAcceptance PlanCodec PlanCanonical PlanTheorems PlanExamples.
From S2P Require Import PlanCapabilities PlanCapabilitiesTheorems LocalLinks LocalLinksTheorems LocalLinksPass LocalLinksRealized LocalLinksSettle.
Local Open Scope Z_scope.

#[local] Existing Instance insertion_sort.
#[local] Existing Instance example_sha.
#[local] Instance keyOrder : RangeOrder string := canonical_range.

(** ** The kernel *)

Definition kernel : Type := { σ : kernelLinks | wfLinks σ }.
Definition linksOf (k : kernel) : kernelLinks := proj1_sig k.

(** *** Changing an interface *)

Definition change (f : Iface → Iface) (n : string) (σ : kernelLinks) : kernelLinks :=
  match σ !! n with Some o => <[n := o <| O_Iface := f (O_Iface o) |>]> σ | None => σ end.
Definition identified (f : Iface → Iface) : Prop :=
  ∀ i, If_Name (f i) = If_Name i ∧ If_Index (f i) = If_Index i ∧ If_Type (f i) = If_Type i.

(** Interfaces keep their identity, and the peers stay. *)
Lemma wf_same σ σ' :
  wfLinks σ →
  (∀ n o', σ' !! n = Some o' → ∃ o, σ !! n = Some o ∧ If_Name (O_Iface o') = If_Name (O_Iface o) ∧ If_Index (O_Iface o') = If_Index (O_Iface o)
     ∧ typeOf o' = typeOf o ∧ O_Peer o' = O_Peer o) →
  (∀ n o' m, σ' !! n = Some o' → O_Peer o' = Some m → is_Some (σ' !! m)) → wfLinks σ'.
Proof.
  intros Hwf Hsame Hpeer. split.
  - intros n o' Ho'. destruct (Hsame _ _ Ho') as (o & Ho & -> & _). by apply (wf_name _ Hwf).
  - intros n m a' b' Ha' Hb' Hi. destruct (Hsame _ _ Ha') as (a & Ha & _ & Ia & _), (Hsame _ _ Hb') as (b & Hb & _ & Ib & _).
    apply (wf_index _ Hwf _ _ _ _ Ha Hb). congruence.
  - intros n m a' Ha' Hm. destruct (Hsame _ _ Ha') as (a & Ha & _ & _ & Ta & Pa). rewrite Pa in Hm.
    destruct (wf_peer _ Hwf _ _ _ Ha Hm) as (Hne & Ht & b & Hb & Pb & Tb). split; [done|]. split; [congruence|].
    destruct (Hpeer n a' m Ha') as [b' Hb']; [congruence|]. destruct (Hsame _ _ Hb') as (b2 & Hb2 & _ & _ & Tb2 & Pb2).
    exists b'. split; [done|]. split; congruence.
Qed.

Lemma change_wf f n σ : identified f → wfLinks σ → wfLinks (change f n σ).
Proof.
  intros Hf Hwf. unfold change. destruct (σ !! n) as [o|] eqn:Ho; [|done]. destruct (Hf (O_Iface o)) as (H1 & H2 & H3).
  apply (wf_same σ); [done|..].
  - intros m o'. destruct (decide (m = n)) as [->|Hne]; [rewrite lookup_insert_eq|rewrite lookup_insert_ne by done; naive_solver].
    intros [= <-]. exists o. done.
  - intros m o' p Hm Hp. destruct (decide (p = n)) as [->|Hp']; [rewrite lookup_insert_eq; by eexists|]. rewrite lookup_insert_ne by done.
    destruct (decide (m = n)) as [->|Hne].
    + rewrite lookup_insert_eq in Hm. injection Hm as <-. destruct (wf_peer _ Hwf _ _ _ Ho Hp) as (_ & _ & o2 & Ho2 & _). by eexists.
    + rewrite lookup_insert_ne in Hm by done. destruct (wf_peer _ Hwf _ _ _ Hm Hp) as (_ & _ & o2 & Ho2 & _). by eexists.
Qed.

(** *** Removing an interface and its peer *)

Definition removal (n : string) (σ : kernelLinks) : kernelLinks :=
  match σ !! n with Some o => delete n (match O_Peer o with Some m => delete m σ | None => σ end) | None => σ end.

Lemma removal_wf n σ : wfLinks σ → wfLinks (removal n σ).
Proof.
  intros Hwf. unfold removal. destruct (σ !! n) as [o|] eqn:Ho; [|done]. apply (wf_same σ); [done|..].
  - intros m o'. destruct (O_Peer o); rewrite ?lookup_delete_Some; naive_solver.
  - intros m o' p Hm Hp. assert (σ !! m = Some o' ∧ m ≠ n ∧ O_Peer o ≠ Some m) as (Hm' & Hmn & Hmo).
    { destruct (O_Peer o); rewrite ?lookup_delete_Some in Hm; naive_solver. }
    destruct (wf_peer _ Hwf _ _ _ Hm' Hp) as (_ & _ & o2 & Ho2 & P2 & _). exists o2. assert (p ≠ n) as Hpn by congruence.
    rewrite lookup_delete_ne by done. destruct (O_Peer o) as [q|] eqn:Hq; [|done]. rewrite lookup_delete_ne; [done|]. intros ->.
    destruct (wf_peer _ Hwf _ _ _ Ho Hq) as (_ & _ & o3 & Ho3 & P3 & _). congruence.
Qed.

(** *** A new pair *)

Definition top (σ : kernelLinks) : Z := foldr Z.max 0 ((λ o, If_Index (O_Iface o)) <$> (map_to_list σ).*2).
Definition newEnd (index : Z) (name alias peer : string) (mtu : Z) : Observed := MkObserved (MkIface index name vethLinkType alias mtu false) (Some peer).
Definition creatable (q : vethRequest) (σ : kernelLinks) : bool :=
  bool_decide (σ !! VR_Name q = None) && bool_decide (σ !! VR_PeerName q = None) && negb (bool_decide (VR_Name q = VR_PeerName q))
  && takesName (VR_Name q) && takesName (VR_PeerName q) && bool_decide (takesMTU (VR_MTU q)) && bool_decide (takesMTU (VR_PeerMTU q))
  && bool_decide (takesAlias (VR_Alias q)).
Definition addition (q : vethRequest) (σ : kernelLinks) : kernelLinks :=
  if creatable q σ
  then <[VR_Name q := newEnd (top σ + 2) (VR_Name q) (VR_Alias q) (VR_PeerName q) (VR_MTU q)]>
         (<[VR_PeerName q := newEnd (top σ + 1) (VR_PeerName q) "" (VR_Name q) (VR_PeerMTU q)]> σ)
  else σ.

Lemma top_ge σ n o : σ !! n = Some o → If_Index (O_Iface o) ≤ top σ.
Proof.
  intros Ho. assert (If_Index (O_Iface o) ∈ (λ o, If_Index (O_Iface o)) <$> (map_to_list σ).*2) as Hin.
  { apply list_elem_of_fmap. exists o. split; [done|]. apply list_elem_of_fmap. exists (n, o). split; [done|]. by apply elem_of_map_to_list. }
  unfold top. induction (_ <$> _) as [|x l IH]; [by apply elem_of_nil in Hin|]. cbn. apply elem_of_cons in Hin as [->|Hin]; [lia|].
  specialize (IH Hin). lia.
Qed.

Lemma creatable_spec q σ : creatable q σ = true ↔ σ !! VR_Name q = None ∧ σ !! VR_PeerName q = None ∧ VR_Name q ≠ VR_PeerName q
  ∧ takesName (VR_Name q) = true ∧ takesName (VR_PeerName q) = true ∧ takesMTU (VR_MTU q) ∧ takesMTU (VR_PeerMTU q) ∧ takesAlias (VR_Alias q).
Proof. unfold creatable. rewrite !andb_true_iff, negb_true_iff, !bool_decide_eq_true, bool_decide_eq_false. tauto. Qed.

Lemma addition_wf q σ : wfLinks σ → wfLinks (addition q σ).
Proof.
  intros Hwf. unfold addition. destruct (creatable q σ) eqn:Hc; [|done]. apply creatable_spec in Hc as (Hl & Hr & Hne & _).
  set (a := newEnd _ _ _ _ _). set (b := newEnd _ _ _ _ _).
  assert (∀ n o, <[VR_Name q := a]> (<[VR_PeerName q := b]> σ) !! n = Some o →
    (n = VR_Name q ∧ o = a) ∨ (n = VR_PeerName q ∧ o = b) ∨ (n ≠ VR_Name q ∧ n ≠ VR_PeerName q ∧ σ !! n = Some o)) as Hcase.
  { intros n o. rewrite !lookup_insert_Some. naive_solver. }
  split.
  - intros n o [[-> ->]|[[-> ->]|(_ & _ & Ho)]]%Hcase; [done..|]. by apply (wf_name _ Hwf).
  - intros n m o o' Hn Hm Hi. apply Hcase in Hn as [[-> ->]|[[-> ->]|(_ & _ & Ho)]], Hm as [[-> ->]|[[-> ->]|(_ & _ & Ho')]];
      cbn in Hi; try done; try (pose proof (top_ge _ _ _ Ho)); try (pose proof (top_ge _ _ _ Ho')); try lia. by apply (wf_index _ Hwf _ _ _ _ Ho Ho').
  - intros n m o [[-> ->]|[[-> ->]|(N1 & N2 & Ho)]]%Hcase Hm.
    + injection Hm as <-. split; [done|]. split; [done|]. exists b. by rewrite lookup_insert_ne, lookup_insert_eq by done.
    + injection Hm as <-. split; [done|]. split; [done|]. exists a. by rewrite lookup_insert_eq.
    + destruct (wf_peer _ Hwf _ _ _ Ho Hm) as (H1 & H2 & o' & Ho' & H3). split; [done|]. split; [done|]. exists o'.
      rewrite !lookup_insert_ne by congruence. done.
Qed.

(** *** The requests *)

Lemma alias_identified alias : identified (λ i, i <| If_Alias := alias |>).
Proof. done. Qed.
Lemma mtu_identified mtu : identified (λ i, i <| If_MTU := mtu |>).
Proof. done. Qed.
Lemma up_identified : identified (λ i, i <| If_Up := true |>).
Proof. done. Qed.

(** A change the kernel refuses leaves everything as it is. *)
Definition changed (f : Iface → Iface) (Hf : identified f) (allowed : bool) (i : Iface) (k : kernel) : kernel * bool :=
  if allowed
  then (exist _ (change f (If_Name i) (linksOf k)) (change_wf f (If_Name i) _ Hf (proj2_sig k)), bool_decide (is_Some (linksOf k !! If_Name i)))
  else (k, false).

Definition interfaces (k : kernel) : list Iface := O_Iface <$> (map_to_list (linksOf k)).*2.
Definition peerIndex (i : Iface) (k : kernel) : option Z :=
  (linksOf k !! If_Name i ≫= O_Peer) ≫= λ m, (λ o, If_Index (O_Iface o)) <$> linksOf k !! m.

#[local] Instance kernelNetlink : Netlink kernel := {|
  netLinkList := λ k, (k, Ok (interfaces k));
  netLinkByName := λ n k, (k, Some (O_Iface <$> linksOf k !! n));
  netLinkByIndex := λ j k, (k, head (filter (λ i, If_Index i = j) (interfaces k)));
  netVethPeerIndex := λ i k, (k, peerIndex i k);
  netLinkAdd := λ q k, (exist _ (addition q (linksOf k)) (addition_wf q _ (proj2_sig k)), creatable q (linksOf k));
  netLinkSetAlias := λ i alias, changed _ (alias_identified alias) (bool_decide (takesAlias alias)) i;
  netLinkSetMTU := λ i mtu, changed _ (mtu_identified mtu) (bool_decide (vethMTU mtu)) i;
  netLinkSetUp := λ i, changed _ up_identified true i;
  netLinkDel := λ i k, (exist _ (removal (If_Name i) (linksOf k)) (removal_wf _ _ (proj2_sig k)), bool_decide (is_Some (linksOf k !! If_Name i)))
|}.

Lemma changed_law f Hf allowed i k :
  if (changed f Hf allowed i k).2
  then ∃ o, linksOf k !! If_Name i = Some o ∧ linksOf (changed f Hf allowed i k).1 = <[If_Name i := o <| O_Iface := f (O_Iface o) |>]> (linksOf k)
  else linksOf (changed f Hf allowed i k).1 = linksOf k.
Proof.
  unfold changed, change. destruct allowed; [|done]. cbn. destruct (linksOf k !! If_Name i) as [o|] eqn:Ho; cbn; [|done]. exists o. done.
Qed.

Lemma kernel_lawful : lawfulNetlink linksOf.
Proof.
  split.
  - intros k. apply (proj2_sig k).
  - intros k. split; [done|]. by intros l [= <-].
  - intros n k. split; [done|]. by intros x [= <-].
  - intros j k. split; [done|]. intros i Hi. cbn in Hi. apply head_Some_elem_of in Hi. apply list_elem_of_filter in Hi as [<- Hi].
    apply elem_of_links in Hi as (o & Ho & <-); [|apply (proj2_sig k)]. by exists o.
  - intros i k. split; [done|]. intros j o m Hj Ho Hm. cbn in Hj. unfold peerIndex in Hj. rewrite Ho in Hj. cbn in Hj. rewrite Hm in Hj. cbn in Hj.
    destruct (linksOf k !! m) as [o'|]; [|done]. exists o'. by injection Hj.
  - intros q k. cbn. unfold addition. destruct (creatable q (linksOf k)) eqn:Hc; [|done]. apply creatable_spec in Hc as (H1 & H2 & H3 & _).
    split_and!; [done..|]. by do 2 eexists.
  - intros i a k. apply (changed_law _ (alias_identified a)).
  - intros i mtu k. apply (changed_law _ (mtu_identified mtu)).
  - intros i k. apply (changed_law _ up_identified).
  - intros i k. cbn. unfold removal. destruct (linksOf k !! If_Name i) as [o|] eqn:Ho; cbn; [|done]. exists o. done.
Qed.

Lemma kernel_reliable : reliableNetlink linksOf.
Proof.
  split.
  - done.
  - intros n k. by eexists.
  - intros n o k Ho. cbn. assert (O_Iface o ∈ O_Iface <$> (map_to_list (linksOf k)).*2) as Hin.
    { apply elem_of_links; [apply (proj2_sig k)|]. exists o. by rewrite (wf_name _ (proj2_sig k) _ _ Ho). }
    destruct (filter _ _) as [|i l] eqn:Hf; [|by eexists]. exfalso.
    assert (O_Iface o ∈ ([] : list Iface)) as []%elem_of_nil. rewrite <- Hf. by apply list_elem_of_filter.
  - intros i o k Ho [m Hm]. cbn. unfold peerIndex. rewrite Ho. cbn. rewrite Hm. cbn. destruct (wf_peer _ (proj2_sig k) _ _ _ Ho Hm) as (_ & _ & o' & Ho' & _).
    unfold linksOf. rewrite Ho'. by eexists.
  - intros q k H1 H2 H3 H4 H5 H6 H7 H8. by apply creatable_spec.
  - intros i a k H Ha. cbn. unfold changed. rewrite (bool_decide_eq_true_2 (takesAlias a)) by done. by apply bool_decide_eq_true.
  - intros i o mtu k H _ Hm. cbn. unfold changed. rewrite (bool_decide_eq_true_2 (vethMTU mtu)) by done. apply bool_decide_eq_true. by rewrite H.
  - intros i o k H _. apply bool_decide_eq_true. by rewrite H.
  - intros i o k H _. apply bool_decide_eq_true. by rewrite H.
Qed.

(** ** A Pod with two Nodes *)

Definition podContainer (id node : string) : ContainerPlan :=
  MkContainerPlan id node "" "" id "linux:1" zeroDigest "" false [] [] [] ["sleep"] [] [] "" "" [] "" "" 0 false false
    (MkSecurityPlan false [] [] [] [] "" "" false) (MkResourcePlan "" "" "" "" "" "") (MkDNSConfig [] [] []) None true [].
Definition waitAction (id node container interface : string) : Action :=
  MkAction id PhasePreStart 1 (MkActionTarget node container "") ActionWaitInterface None None None None None
    (Some (MkWaitInterfaceAction interface 60)) None None None None None None.
Definition localEnd (id node container name peerNode peerName : string) (mtu : Z) : InterfacePlan :=
  MkInterfacePlan id node container name "" "l1" "" peerNode peerName "" ConnectivitySamePod 0 mtu LinkApplyLive true.
Definition podPlan : Plan :=
  MkPlan SchemaVersion (MkCompatibility "containerlab" "v0.70" zeroDigest SchemaVersion) zeroDigest
    (MkPlannerIdentity "clabernetes" "1")
    [MkNodePlan "uid-1" "leaf" "linux" "" "" [] ["c1"] ["c1"] "c1" false; MkNodePlan "uid-2" "spine" "linux" "" "" [] ["c2"] ["c2"] "c2" false]
    [podContainer "c1" "uid-1"; podContainer "c2" "uid-2"] [] [] []
    [waitAction "w1" "uid-1" "c1" "i1"; waitAction "w2" "uid-2" "c2" "i2"]
    [MkManagementPlan "g1" "uid-1" "" ManagementInterfacePodTransport "" "" "" "" [] (MkDNSConfig [] [] []) None]
    [localEnd "i1" "uid-1" "c1" "leaf1" "uid-2" "spine1" 0; localEnd "i2" "uid-2" "c2" "spine1" "uid-1" "leaf1" 9000].

Definition podPeers (peer : string) : bool := negb (empty peer).

Lemma podPlan_valid : ValidatePlanCapabilities podPeers podPlan = Ok ().
Proof. vm_compute. reflexivity. Qed.

(** What [completePairs] asks for, computed. *)
Definition completeb (prefix : string) (σ : kernelLinks) : bool :=
  forallb (λ '(n, o), negb (HasPrefix (aliasOf o) prefix) ||
    negb (empty n) && bool_decide (typeOf o = vethLinkType) &&
    match O_Peer o with
    | None => false
    | Some m =>
        bool_decide (aliasOf <$> σ !! m = Some (aliasOf o))
        && forallb (λ '(n', o'), negb (bool_decide (aliasOf o' = aliasOf o)) || bool_decide (n' = n) || bool_decide (n' = m)) (map_to_list σ)
    end) (map_to_list σ).

Lemma completeb_spec prefix σ : completeb prefix σ = true → completePairs prefix σ.
Proof.
  unfold completeb. rewrite forallb_forall. intros H n o Ho Hp. specialize (H (n, o)). rewrite <- list_elem_of_In, elem_of_map_to_list in H.
  specialize (H Ho). rewrite Hp in H. cbn [negb orb] in H. rewrite !andb_true_iff, negb_true_iff, empty_false, bool_decide_eq_true in H. destruct H as [[H1 H2] H3].
  split; [done|]. split; [done|]. destruct (O_Peer o) as [m|]; [|done]. rewrite andb_true_iff, bool_decide_eq_true, forallb_forall in H3. destruct H3 as [H3 H4].
  destruct (σ !! m) as [o'|] eqn:Ho'; [|done]. exists m, o'. split_and!; [done..|by injection H3|]. intros n' o'' Hn' Ha.
  specialize (H4 (n', o'')). rewrite <- list_elem_of_In, elem_of_map_to_list in H4. specialize (H4 Hn'). rewrite bool_decide_eq_true_2 in H4 by done.
  cbn [negb orb] in H4. by rewrite orb_true_iff, !bool_decide_eq_true in H4.
Qed.

(** The namespace holds the transport of the Pod and a pair of an older plan. *)
Definition podUID : string := "pod-1".
Definition oldMark : string := localLinkPodOwnerPrefix podUID +:+ "old".
Definition transport : Observed := MkObserved (MkIface 2 "eth0" vethLinkType "" 1500 true) None.
Definition podLinks : kernelLinks :=
  change (λ i, i <| If_Alias := oldMark |>) "old2"
    (addition (MkVethRequest "old1" oldMark 1500 "old2" 1500) {["eth0" := transport]}).

Lemma podLinks_wf : wfLinks podLinks.
Proof.
  apply change_wf; [apply alias_identified|]. apply addition_wf. split.
  - by intros n o [<- <-]%lookup_singleton_Some.
  - by intros n m o o' [<- <-]%lookup_singleton_Some [<- <-]%lookup_singleton_Some.
  - by intros n m o [<- <-]%lookup_singleton_Some.
Qed.
Definition podNamespace : kernel := exist _ podLinks podLinks_wf.
Definition podPass : kernel * result vethError unit := reconcileLocalInterfaces 1500 (normalOf podPlan) podUID podNamespace.

Lemma podPlan_normal : NormalizePlan podPlan = Ok (normalOf podPlan).
Proof. vm_compute. reflexivity. Qed.
Lemma podLinks_complete : completePairs (localLinkPodOwnerPrefix podUID) podLinks.
Proof. apply completeb_spec. vm_compute. reflexivity. Qed.
Lemma podPass_ok : podPass.2 = Ok ().
Proof. vm_compute. reflexivity. Qed.

Lemma local_links_confined_witness : linksOf podPass.1 !! "eth0" = Some transport.
Proof.
  apply (local_links_confined (netlink := kernelNetlink) 1500 linksOf kernel_lawful podPeers podPlan (normalOf podPlan) podUID podNamespace).
  - exact podPlan_valid.
  - exact podPlan_normal.
  - done.
  - apply complete_peers, podLinks_complete.
  - vm_compute. reflexivity.
  - vm_compute. reflexivity.
Defined.

(** The wanted pair is there with the MTU one of its ends declares, and the old one is gone. *)
Lemma local_links_realized_witness :
  (∃ owner, paired (linksOf podPass.1) "leaf1" "spine1" 9000 owner) ∧ ∀ o, linksOf podPass.1 !! "old1" = Some o →
    HasPrefix (aliasOf o) (localLinkPodOwnerPrefix podUID) = true → False.
Proof.
  pose proof (local_links_realized (netlink := kernelNetlink) 1500 linksOf kernel_lawful podPeers podPlan (normalOf podPlan) podUID podNamespace
    podPlan_valid podPlan_normal ltac:(done) (complete_peers _ _ podLinks_complete)) as H.
  change (reconcileLocalInterfaces 1500 (normalOf podPlan) podUID podNamespace) with podPass in H.
  pose proof podPass_ok as Hok. destruct podPass as [k' res]. cbn [fst snd] in *. subst res. destruct H as [H1 H2]. split.
  - destruct (H1 (localEnd "i1" "uid-1" "c1" "leaf1" "uid-2" "spine1" 0) (localEnd "i2" "uid-2" "c2" "spine1" "uid-1" "leaf1" 9000)) as (owner & _ & H).
    + apply (bool_decide_unpack _). vm_compute. exact I.
    + apply (bool_decide_unpack _). vm_compute. exact I.
    + done.
    + done.
    + done.
    + exists owner. exact H.
  - intros o Ho Hp. destruct (H2 "old1" o Ho Hp) as (a & Ha & _ & Hn). revert a Ha Hn.
    apply (Forall_forall (λ a, InterfacePlan_Name a = "old1" → False)). repeat constructor; done.
Defined.

Lemma local_links_settle_witness : podPass.2 = Ok ().
Proof.
  apply (local_links_settle (netlink := kernelNetlink) 1500 linksOf kernel_lawful kernel_reliable podPeers podPlan (normalOf podPlan) podUID podNamespace).
  - exact podPlan_valid.
  - exact podPlan_normal.
  - done.
  - exact podLinks_complete.
  - intros a o Ha. revert a Ha. apply (Forall_forall (λ a, linksOf podNamespace !! InterfacePlan_Name a = Some o → _)). repeat constructor; by vm_compute.
  - by apply (bool_decide_unpack _).
  - apply (Forall_forall (λ a, localConnectivity a = true → takesName (InterfacePlan_Name a) = true ∧ takesMTU (InterfacePlan_MTU a))).
    apply (bool_decide_unpack _). vm_compute. exact I.
Defined.

(** ** Accepted plans the kernel refuses *)

(** With an MTU no veth device can have, or with a name the kernel does not take, the plan is
    accepted, and the pass fails every time. *)
Definition endsOfPlan (name : string) (mtu : Z) : Plan :=
  podPlan <| Plan_Interfaces :=
    [localEnd "i1" "uid-1" "c1" name "uid-2" "spine1" 0; localEnd "i2" "uid-2" "c2" "spine1" "uid-1" name mtu] |>.
Definition passOver (plan : Plan) : result vethError unit := (reconcileLocalInterfaces 1500 (normalOf plan) podUID podNamespace).2.

Example mtu_never_realized :
  ValidatePlanCapabilities podPeers (endsOfPlan "leaf1" 100000) = Ok () ∧ passOver (endsOfPlan "leaf1" 100000) = Err (realizing "l1" creatingFailed).
Proof. split; vm_compute; reflexivity. Qed.
Example name_never_realized :
  ValidatePlanCapabilities podPeers (endsOfPlan "leaf:1" 9000) = Ok () ∧ passOver (endsOfPlan "leaf:1" 9000) = Err (realizing "l1" creatingFailed).
Proof. split; vm_compute; reflexivity. Qed.
