(* ===== verification/OciAccess.v ===== *)
(** * Reading image metadata: who is asked, and with what

    Models [auth.go], [mirror.go] and the request guards and error redaction of [resolver.go] of
    [internal/ocimetadata]: which credentials of the pull Secrets are used, to which host they
    and the trust exceptions are scoped, how a mirror redirects the requests to a registry,
    and which parts of an error are withheld.

    The reference parser of go-containerregistry is the class [Containerregistry], [net/url]'s
    parser and query codec are [UrlCodec], the JSON of Docker configurations is [DockerJSON], and
    [AppendCertsFromPEM] is [ValidPEM]. *)

From S2P Require Import Prelude WireCodec Api GoStrings GoNet GoSort LinkAllocation Management PlanValidation.
Local Open Scope Z_scope.

(** ** Requests *)

Record OciPlatform := MkOciPlatform {
  PF_OS : string;
  PF_Architecture : string;
  PF_Variant : string;
  PF_OSVersion : string;
  PF_OSFeatures : list string
}.
#[export] Instance OciPlatform_eq_dec : EqDecision OciPlatform.
Proof. solve_decision. Defined.

Record AuthConfig := MkAuthConfig {
  AC_Username : string;
  AC_Password : string;
  AC_Auth : string;
  AC_IdentityToken : string;
  AC_RegistryToken : string
}.
#[export] Instance AuthConfig_eq_dec : EqDecision AuthConfig.
Proof. solve_decision. Defined.

Record SecretSource := MkSecretSource {
  SS_Namespace : string;
  SS_Name : string
}.
Record Authentication := MkAuthentication {
  AU_registry : string;
  AU_source : SecretSource;
  AU_config : AuthConfig
}.
Record RegistryTrust := MkRegistryTrust {
  RT_Registry : string;
  RT_CABundle : string;
  RT_PlainHTTP : bool
}.
Record RegistryMirror := MkRegistryMirror {
  RM_Registry : string;
  RM_Endpoint : string;
  RM_OverridePath : bool
}.
Record OciRequest := MkOciRequest {
  RQ_Reference : string;
  RQ_Platform : OciPlatform;
  RQ_Authentication : option Authentication;
  RQ_Trust : option RegistryTrust;
  RQ_Mirror : option RegistryMirror
}.
#[export] Instance OciRequest_updatable : Updatable OciRequest :=
  λ r, MkOciRequest (RQ_Reference r) (RQ_Platform r) (RQ_Authentication r) (RQ_Trust r) (RQ_Mirror r).

(** ** Platforms *)

Definition platformString (p : OciPlatform) : string :=
  let parts := [PF_OS p; PF_Architecture p] ++ (if empty (PF_Variant p) then [] else [PF_Variant p]) in
  let result := Join parts "/" in
  if empty (PF_OSVersion p) then result else result +:+ ":" +:+ PF_OSVersion p.

Definition sortedUniqueStep (state : list string * gset string) (value : string) : list string * gset string :=
  let value := TrimSpace value in
  if empty value || bool_decide (value ∈ state.2) then state else (state.1 ++ [value], {[value]} ∪ state.2).
Definition sortedUnique (values : list string) : list string := sort_strings (foldl sortedUniqueStep ([], ∅) values).1.

Definition normalizeOciPlatform (p : OciPlatform) : OciPlatform :=
  MkOciPlatform (ToLower (TrimSpace (PF_OS p))) (ToLower (TrimSpace (PF_Architecture p))) (ToLower (TrimSpace (PF_Variant p)))
    (TrimSpace (PF_OSVersion p)) (sortedUnique (PF_OSFeatures p)).

(** ** Errors *)

Inductive OciErrorCode :=
| OciInvalidRequest
| OciInvalidAuthentication
| OciInvalidTrust
| OciInvalidMirror
| OciResolveManifest
| OciUnsupportedMedia
| OciSelectPlatform
| OciInspectManifest
| OciConfigTooLarge
| OciFetchConfig
| OciInvalidConfig
| OciPlatformMismatch
| OciCanonicalMetadata.

Record OciError := MkOciError {
  OE_Code : OciErrorCode;
  OE_Reference : string;
  OE_Platform : OciPlatform;
  OE_Err : option string
}.

(** [strings.ReplaceAll] for an [old] that is not empty: the leftmost occurrences. *)
Fixpoint replaceFrom (old new : string) (skip : nat) (s : string) : string :=
  match s with
  | EmptyString => ""
  | String a rest =>
      match skip with
      | S skip => replaceFrom old new skip rest
      | O => if HasPrefix s old then new +:+ replaceFrom old new (String.length old - 1) rest
             else String a (replaceFrom old new 0 rest)
      end
  end.
Definition ReplaceAll (s old new : string) : string := replaceFrom old new 0 s.

Definition redacted : string := "<redacted>".

Definition sensitiveValues (authentication : option Authentication) : list string :=
  match authentication with
  | None => []
  | Some a =>
      List.filter (λ value, negb (empty value))
        [AC_Username (AU_config a); AC_Password (AU_config a); AC_Auth (AU_config a); AC_IdentityToken (AU_config a);
         AC_RegistryToken (AU_config a)]
  end.

Definition redact (request : OciRequest) (message : string) : string :=
  foldl (λ message sensitive, ReplaceAll message sensitive redacted) message (sensitiveValues (RQ_Authentication request)).
Definition resolverError (code : OciErrorCode) (request : OciRequest) (err : option string) : OciError :=
  MkOciError code (RQ_Reference request) (RQ_Platform request) (redact request <$> err).

(** ** Registries *)

Definition defaultPlatform : OciPlatform := MkOciPlatform "" "" "" "" [].

(** [Context().RegistryStr()], [Context().RepositoryStr()], [Context().Name()] and [Name()] of a reference. *)
Record Reference := MkReference {
  Ref_Registry : string;
  Ref_Repository : string;
  Ref_Context : string;
  Ref_Name : string
}.
Class Containerregistry : Type := {
  DefaultRegistry : string;
  ParseReference : string → option Reference;
  (** [NewRegistry(..., StrictValidation)], with its [RegistryStr]. *)
  NewRegistry : string → option string;
  (** [NewDigest(..., StrictValidation)], with its [DigestStr] and [Context().Name()]. *)
  NewDigest : string → result string (string * string);
  (** [NewHash], with the algorithm. *)
  NewHash : string → result string string;
  (** [Context().Digest(digest).Name()] *)
  DigestName : Reference → string → string;
  (** [Platform.Satisfies] *)
  Satisfies : OciPlatform → OciPlatform → bool
}.

Record URL := MkURL {
  URL_Scheme : string;
  URL_Opaque : string;
  URL_User : bool;
  URL_Host : string;
  URL_Path : string;
  URL_RawQuery : string;
  URL_Fragment : string
}.
Class UrlCodec : Type := {
  ParseURL : string → option URL;
  ParseQuery : string → gmap string (list string);
  EncodeQuery : gmap string (list string) → string
}.

(** [strings.TrimSuffix] *)
Fixpoint TrimSuffix (s suffix : string) : string :=
  if bool_decide (s = suffix) then ""
  else match s with EmptyString => "" | String a s => String a (TrimSuffix s suffix) end.
(** [strings.Trim(s, "/")] *)
Fixpoint trimSlashesLeft (s : string) : string :=
  match s with
  | String a rest => if bool_decide (a = slash) then trimSlashesLeft rest else s
  | EmptyString => ""
  end.
Fixpoint trimSlashesRight (s : string) : string :=
  match s with
  | EmptyString => ""
  | String a rest => let rest := trimSlashesRight rest in if empty rest && bool_decide (a = slash) then "" else String a rest
  end.
Definition trimSlashes (s : string) : string := trimSlashesRight (trimSlashesLeft s).

Section access.
Context {registry : Containerregistry} {url : UrlCodec} {quote : FmtQuote} {order : RangeOrder string} {sort : GoSort}.
Context (ValidPEM : string → bool).

Definition normalizeRegistryAddress (value : string) : string :=
  let value := TrimSpace value in
  let first := default "" (head (Split slash value)) in
  let value := match ParseURL value with
               | None => first
               | Some parsed => if empty (URL_Host parsed) then first else URL_Host parsed
               end in
  ToLower (TrimSuffix value "/").
Definition normalizeRegistry (value : string) : string :=
  let host := normalizeRegistryAddress value in
  if bool_decide (host = "docker.io") || bool_decide (host = "registry-1.docker.io") then DefaultRegistry else host.

(** ** Trust *)

Inductive policyError :=
| authorityInvalid (index : nat)
| duplicateRegistry (index : nat) (registryName : string)
| combinesHTTPAndCA (index : nat)
| noTrustException (index : nat)
| noCertificate (index : nat)
| mirrorInvalid (index : nat) (message : string).

Notation trustPolicy := (gmap string RegistryTrust).
Definition trustStep (state : nat * trustPolicy) (entry : RegistryTrust) : result policyError (nat * trustPolicy) :=
  let '(index, byRegistry) := state in
  match NewRegistry (TrimSpace (RT_Registry entry)) with
  | None => Err (authorityInvalid index)
  | Some authority =>
      let registryName := normalizeRegistry authority in
      if bool_decide (is_Some (byRegistry !! registryName)) then Err (duplicateRegistry index registryName)
      else if RT_PlainHTTP entry && negb (empty (RT_CABundle entry)) then Err (combinesHTTPAndCA index)
      else if negb (RT_PlainHTTP entry) && empty (RT_CABundle entry) then Err (noTrustException index)
      else if negb (empty (RT_CABundle entry)) && negb (ValidPEM (RT_CABundle entry)) then Err (noCertificate index)
      else Ok (S index, <[registryName := MkRegistryTrust registryName (RT_CABundle entry) (RT_PlainHTTP entry)]> byRegistry)
  end.
Definition NewRegistryTrustPolicy (entries : list RegistryTrust) : result policyError trustPolicy :=
  let? state := rfold trustStep (0%nat, ∅) entries in Ok state.2.

(** A policy that is [nil] selects nothing. *)
Definition TrustForReference (policy : option trustPolicy) (reference : string) : option RegistryTrust :=
  policy ≫= λ byRegistry, ParseReference (TrimSpace reference) ≫= λ parsed, byRegistry !! normalizeRegistry (Ref_Registry parsed).
Definition TrustForRegistry (policy : option trustPolicy) (authority : string) : option RegistryTrust :=
  policy ≫= λ byRegistry, byRegistry !! normalizeRegistry authority.

(** ** Mirrors *)

Record registryMirrorTarget := MkMirrorTarget {
  MT_registry : string;
  MT_scheme : string;
  MT_host : string;
  MT_pathPrefix : string;
  MT_apiRoot : string;
  MT_repoPrefix : string;
  MT_overridePath : bool
}.

Definition standardAPIRoot : string := "/v2/".

Definition EndpointHost (mirror : option RegistryMirror) : string :=
  match mirror with
  | None => ""
  | Some mirror => match ParseURL (TrimSpace (RM_Endpoint mirror)) with None => "" | Some parsed => ToLower (URL_Host parsed) end
  end.

Definition mirrorPathChar (c : Ascii.ascii) : bool :=
  between 97 (code c) 122 || between 48 (code c) 57 || bool_decide (c = char 46) || bool_decide (c = char 95) || bool_decide (c = char 45).
Definition segmentStep (_ : unit) (segment : string) : result string unit :=
  if empty segment || bool_decide (segment = ".") || bool_decide (segment = "..") then Err "has an empty or relative path segment"
  else if negb (allChars mirrorPathChar segment) then Err "has an unsupported character in its path"
  else Ok ().
Definition normalizeMirrorPath (path : string) : result string string :=
  let trimmed := trimSlashes path in
  if empty trimmed then Ok "" else let? _ := rfold segmentStep () (Split slash trimmed) in Ok ("/" +:+ trimmed).

(** Up to the first segment [v2]. *)
Fixpoint upToVersion (segments : list string) : option (list string) :=
  match segments with
  | [] => None
  | segment :: segments => if bool_decide (segment = "v2") then Some [segment] else cons segment <$> upToVersion segments
  end.
Definition mirrorAPIRoot (pathPrefix : string) : string :=
  match upToVersion (Split slash (trimSlashes pathPrefix)) with
  | Some segments => "/" +:+ Join segments "/" +:+ "/"
  | None => standardAPIRoot
  end.

Definition compileMirror (mirror : RegistryMirror) : result string registryMirrorTarget :=
  let endpointIs message := Err ("mirror endpoint " +:+ fmt_q (RM_Endpoint mirror) +:+ " " +:+ message) in
  match NewRegistry (TrimSpace (RM_Registry mirror)) with
  | None => Err ("mirror for " +:+ fmt_q (RM_Registry mirror) +:+ " has an invalid source registry authority")
  | Some authority =>
      match ParseURL (TrimSpace (RM_Endpoint mirror)) with
      | None => endpointIs "is not an absolute URL"
      | Some endpoint =>
          if empty (URL_Host endpoint) || negb (empty (URL_Opaque endpoint)) then endpointIs "is not an absolute URL"
          else if negb (bool_decide (URL_Scheme endpoint = "https")) && negb (bool_decide (URL_Scheme endpoint = "http"))
          then endpointIs "must use the https or http scheme"
          else if URL_User endpoint || negb (empty (URL_RawQuery endpoint)) || negb (empty (URL_Fragment endpoint))
          then endpointIs "must not carry credentials, a query, or a fragment"
          else
            match normalizeMirrorPath (URL_Path endpoint) with
            | Err message => endpointIs message
            | Ok pathPrefix =>
                if negb (empty pathPrefix) && negb (RM_OverridePath mirror)
                then endpointIs "has a path; set overridePath to rewrite the registry API root"
                else if empty pathPrefix && RM_OverridePath mirror then endpointIs "sets overridePath without an endpoint path"
                else
                  let apiRoot := mirrorAPIRoot pathPrefix in
                  let repoPrefix := TrimPrefix pathPrefix (TrimSuffix apiRoot "/") in
                  Ok (MkMirrorTarget (normalizeRegistry authority) (URL_Scheme endpoint) (ToLower (URL_Host endpoint)) pathPrefix apiRoot
                        (trimSlashes repoPrefix) (RM_OverridePath mirror))
            end
      end
  end.

Notation mirrorPolicy := (gmap string RegistryMirror).
Definition mirrorStep (state : nat * mirrorPolicy) (entry : RegistryMirror) : result policyError (nat * mirrorPolicy) :=
  let '(index, byRegistry) := state in
  match compileMirror entry with
  | Err message => Err (mirrorInvalid index message)
  | Ok target =>
      if bool_decide (is_Some (byRegistry !! MT_registry target)) then Err (duplicateRegistry index (MT_registry target))
      else Ok (S index, <[MT_registry target := MkRegistryMirror (MT_registry target) (RM_Endpoint entry) (RM_OverridePath entry)]> byRegistry)
  end.
Definition NewRegistryMirrorPolicy (entries : list RegistryMirror) : result policyError mirrorPolicy :=
  let? state := rfold mirrorStep (0%nat, ∅) entries in Ok state.2.
Definition MirrorForReference (policy : option mirrorPolicy) (reference : string) : option RegistryMirror :=
  policy ≫= λ byRegistry, ParseReference (TrimSpace reference) ≫= λ parsed, byRegistry !! normalizeRegistry (Ref_Registry parsed).

(** The part of an HTTP request that a mirror rewrites. *)
Record HttpRequest := MkHttpRequest {
  HR_Scheme : string;
  HR_URLHost : string;
  HR_Path : string;
  HR_RawPath : string;
  HR_RawQuery : string;
  HR_Host : string
}.
#[export] Instance HttpRequest_updatable : Updatable HttpRequest :=
  λ r, MkHttpRequest (HR_Scheme r) (HR_URLHost r) (HR_Path r) (HR_RawPath r) (HR_RawQuery r) (HR_Host r).

Definition rewriteValue (origin mirrored value : string) : string :=
  match trim_prefix origin value with Some rest => mirrored +:+ rest | None => value end.
Definition space : Ascii.ascii := char 32.
Definition rewriteScope (origin mirrored scope : string) : string := Join (rewriteValue origin mirrored <$> Split space scope) " ".
Definition scopeNames (origin scope : string) : bool := existsb (λ value, HasPrefix value origin) (Split space scope).

Definition rewriteTokenScope (target : registryMirrorTarget) (repository : string) (request : HttpRequest) : HttpRequest :=
  if negb (MT_overridePath target) || empty (MT_repoPrefix target) || empty repository || empty (HR_RawQuery request) then request
  else
    let query := ParseQuery (HR_RawQuery request) in
    match query !! "scope" with
    | None => request
    | Some scopes =>
        let origin := "repository:" +:+ repository +:+ ":" in
        let mirrored := "repository:" +:+ MT_repoPrefix target +:+ "/" +:+ repository +:+ ":" in
        if negb (existsb (scopeNames origin) scopes) then request
        else request <| HR_RawQuery := EncodeQuery (<["scope" := rewriteScope origin mirrored <$> scopes]> query) |>
    end.

(** The request that reaches the inner transport. *)
Definition RoundTrip (target : registryMirrorTarget) (repository : string) (request : HttpRequest) : HttpRequest :=
  if negb (bool_decide (normalizeRegistry (HR_URLHost request) = MT_registry target)) then rewriteTokenScope target repository request
  else
    let path := HR_Path request in
    MkHttpRequest (MT_scheme target) (MT_host target)
      (if MT_overridePath target
       then if bool_decide (path = standardAPIRoot) || bool_decide (path = "/v2") then MT_apiRoot target
            else if HasPrefix path standardAPIRoot then MT_pathPrefix target +:+ TrimPrefix path "/v2" else path
       else path) "" (HR_RawQuery request) "".
End access.
