(* ===== verification/OciResolve.v ===== *)
(** * Reading image metadata: resolving

    Models the credentials of [auth.go] and [Resolve] of [resolver.go] of
    [internal/ocimetadata]: from pull Secrets to credentials, what is checked before a registry
    is asked, and what is checked of its answers.

    [Registry] is go-containerregistry's client: what a registry answers. *)

From S2P Require Import Prelude WireCodec Api GoStrings GoNet GoSort LinkAllocation Management PlanValidation CompilerNames OciAccess.
Local Open Scope Z_scope.

(** ** Credentials *)

Record PullSecret := MkPullSecret {
  PS_Namespace : string;
  PS_Name : string;
  PS_Type : string;
  PS_Data : gmap string string
}.
Definition SecretTypeDockerConfigJson : string := "kubernetes.io/dockerconfigjson".
Definition SecretTypeDockercfg : string := "kubernetes.io/dockercfg".
Definition DockerConfigJsonKey : string := ".dockerconfigjson".
Definition DockerConfigKey : string := ".dockercfg".

(** Entries of [auths] are raw JSON.  [decodeDockerConfig] says whether there is trailing data
    and, if [auths] is not [null], its entries. *)
Class DockerJSON : Type := {
  decodeDockerConfig : string → option (bool * option (gmap string string));
  unmarshalLegacyConfig : string → option (gmap string string);
  unmarshalAuthConfig : string → option AuthConfig
}.

Definition secretIdentity (secret : PullSecret) : string :=
  if empty (PS_Namespace secret) then PS_Name secret else PS_Namespace secret +:+ "/" +:+ PS_Name secret.

Section credentials.
Context {registry : Containerregistry} {url : UrlCodec} {quote : FmtQuote} {order : RangeOrder string} {sort : GoSort} {docker : DockerJSON}.

Definition secretAuths (secret : PullSecret) : result string (gmap string string) :=
  if bool_decide (PS_Type secret = SecretTypeDockerConfigJson) then
    let raw := default "" (PS_Data secret !! DockerConfigJsonKey) in
    if empty raw then Err ("missing " +:+ DockerConfigJsonKey)
    else
      match decodeDockerConfig raw with
      | None => Err "malformed Docker config JSON"
      | Some (true, _) => Err "Docker config JSON has trailing data"
      | Some (false, None) => Err "Docker config JSON has no auths object"
      | Some (false, Some auths) => Ok auths
      end
  else if bool_decide (PS_Type secret = SecretTypeDockercfg) then
    let raw := default "" (PS_Data secret !! DockerConfigKey) in
    if empty raw then Err ("missing " +:+ DockerConfigKey)
    else match unmarshalLegacyConfig raw with
         | None => Err "malformed legacy Docker config JSON"
         | Some auths => Ok auths
         end
  else Err ("unsupported Secret type " +:+ fmt_q (PS_Type secret)).

(** Keys that name the registry exactly come first. *)
Definition compareKeys (targetRegistry left right : string) : Z :=
  let leftExact := bool_decide (normalizeRegistryAddress left = targetRegistry) in
  let rightExact := bool_decide (normalizeRegistryAddress right = targetRegistry) in
  if negb (eqb leftExact rightExact) then (if leftExact then -1 else 1) else Compare left right.
Definition matchingKeys (targetRegistry : string) (auths : gmap string string) : list string :=
  SortFunc (compareKeys targetRegistry)
    (List.filter (λ key, bool_decide (normalizeRegistry key = targetRegistry)) (range_list auths).*1).

Definition anonymousConfig : AuthConfig := MkAuthConfig "" "" "" "" "".

Fixpoint authenticationFrom (parsed : Reference) (targetRegistry : string) (secrets : list PullSecret) :
    result OciError (option Authentication) :=
  let invalid message := Err (MkOciError OciInvalidAuthentication (Ref_Name parsed) defaultPlatform (Some message)) in
  match secrets with
  | [] => Ok None
  | secret :: secrets =>
      match secretAuths secret with
      | Err parseErr => invalid ("pull Secret " +:+ secretIdentity secret +:+ " is invalid: " +:+ parseErr)
      | Ok auths =>
          match matchingKeys targetRegistry auths with
          | [] => authenticationFrom parsed targetRegistry secrets
          | key :: _ =>
              match unmarshalAuthConfig (default "" (auths !! key)) with
              | None => invalid ("pull Secret " +:+ secretIdentity secret +:+ " has invalid credentials for " +:+ targetRegistry)
              | Some config =>
                  if bool_decide (config = anonymousConfig)
                  then invalid ("pull Secret " +:+ secretIdentity secret +:+ " has empty credentials for " +:+ targetRegistry)
                  else Ok (Some (MkAuthentication targetRegistry (MkSecretSource (PS_Namespace secret) (PS_Name secret)) config))
              end
          end
      end
  end.
Definition AuthenticationFromPullSecrets (reference : string) (secrets : list PullSecret) : result OciError (option Authentication) :=
  match ParseReference (TrimSpace reference) with
  | None => Err (MkOciError OciInvalidRequest (TrimSpace reference) defaultPlatform (Some "image reference is invalid"))
  | Some parsed => authenticationFrom parsed (normalizeRegistry (Ref_Registry parsed)) secrets
  end.
End credentials.

(** ** The transport *)

(** [RootCAs] is [None] for the roots of the system. *)
Record tlsConfig := MkTlsConfig {
  TLS_RootCAs : option (list string);
  TLS_MinVersion12 : bool
}.
Record Transport := MkTransport {
  TR_IsHTTP : bool;
  TR_TLSClientConfig : option tlsConfig
}.
Record Resolver := MkResolver {
  RS_Transport : option Transport;
  RS_MaxConfigBytes : Z;
  RS_UserAgent : string
}.

(** ** Images *)

Record ImageHealthConfig := MkImageHealthConfig {
  IH_Test : list string;
  IH_Interval : Z;
  IH_Timeout : Z;
  IH_StartPeriod : Z;
  IH_Retries : Z
}.
#[export] Instance ImageHealthConfig_eq_dec : EqDecision ImageHealthConfig.
Proof. solve_decision. Defined.

(** The configuration of an image, with its maps. *)
Record OciImageConfig := MkOciImageConfig {
  IC_AttachStderr : bool;
  IC_AttachStdin : bool;
  IC_AttachStdout : bool;
  IC_ArgsEscaped : bool;
  IC_Cmd : list string;
  IC_Domainname : string;
  IC_Entrypoint : list string;
  IC_Env : list string;
  IC_ExposedPorts : gmap string unit;
  IC_Healthcheck : option ImageHealthConfig;
  IC_Hostname : string;
  IC_Labels : gmap string string;
  IC_MacAddress : string;
  IC_NetworkDisabled : bool;
  IC_OnBuild : list string;
  IC_OpenStdin : bool;
  IC_Shell : list string;
  IC_StdinOnce : bool;
  IC_StopSignal : string;
  IC_Tty : bool;
  IC_User : string;
  IC_Volumes : gmap string unit;
  IC_WorkingDir : string
}.
Record OciConfigFile := MkOciConfigFile {
  CF_Platform : OciPlatform;
  CF_Config : OciImageConfig
}.

(** The normalized configuration: the maps are sorted lists. *)
Record RuntimeConfig := MkRuntimeConfig {
  RC_AttachStderr : bool;
  RC_AttachStdin : bool;
  RC_AttachStdout : bool;
  RC_ArgsEscaped : bool;
  RC_Cmd : list string;
  RC_Domainname : string;
  RC_Entrypoint : list string;
  RC_Env : list string;
  RC_ExposedPorts : list string;
  RC_Healthcheck : option ImageHealthConfig;
  RC_Hostname : string;
  RC_Labels : list (string * string);
  RC_MacAddress : string;
  RC_NetworkDisabled : bool;
  RC_OnBuild : list string;
  RC_OpenStdin : bool;
  RC_Shell : list string;
  RC_StdinOnce : bool;
  RC_StopSignal : string;
  RC_TTY : bool;
  RC_User : string;
  RC_Volumes : list string;
  RC_WorkingDir : string
}.
#[export] Instance RuntimeConfig_eq_dec : EqDecision RuntimeConfig.
Proof. solve_decision. Defined.

Definition sortedKeys {V} (values : gmap string V) : list string := sorted_keys values.
Definition sortedLabels (values : gmap string string) : list (string * string) :=
  (λ key, (key, default "" (values !! key))) <$> sorted_keys values.

Definition normalizeConfig (config : OciImageConfig) : RuntimeConfig :=
  MkRuntimeConfig (IC_AttachStderr config) (IC_AttachStdin config) (IC_AttachStdout config) (IC_ArgsEscaped config) (IC_Cmd config)
    (IC_Domainname config) (IC_Entrypoint config) (IC_Env config) (sortedKeys (IC_ExposedPorts config)) (IC_Healthcheck config)
    (IC_Hostname config) (sortedLabels (IC_Labels config)) (IC_MacAddress config) (IC_NetworkDisabled config) (IC_OnBuild config)
    (IC_OpenStdin config) (IC_Shell config) (IC_StdinOnce config) (IC_StopSignal config) (IC_Tty config) (IC_User config)
    (sortedKeys (IC_Volumes config)) (IC_WorkingDir config).

Record Metadata := MkMetadata {
  MD_SchemaVersion : string;
  MD_SourceReference : string;
  MD_DigestReference : string;
  MD_RootDigest : string;
  MD_RootMediaType : string;
  MD_ManifestDigest : string;
  MD_ManifestMediaType : string;
  MD_ConfigDigest : string;
  MD_ConfigMediaType : string;
  MD_Platform : OciPlatform;
  MD_Config : RuntimeConfig
}.
#[export] Instance Metadata_eq_dec : EqDecision Metadata.
Proof. solve_decision. Defined.

(** Errors of the client are messages. *)
Record Manifest := MkManifest {
  MF_ConfigSize : Z;
  MF_ConfigDigest : string;
  MF_ConfigMediaType : string
}.
Record RemoteImage := MkRemoteImage {
  IM_Digest : result string string;
  IM_MediaType : result string string;
  IM_RawManifest : result string string;
  IM_RawConfigFile : result string string
}.
Record RemoteDescriptor := MkRemoteDescriptor {
  DS_MediaType : string;
  DS_Digest : string;
  DS_Image : result string RemoteImage
}.

(** The transport that is used: trust, a mirror and the repository it serves. *)
Record requestTransport := MkRequestTransport {
  QT_Base : Transport;
  QT_Mirror : option (registryMirrorTarget * string);
  QT_Insecure : bool
}.

(** [remote.Get]: the reference, the credentials, the platform, the user agent and the transport. *)
Class Registry : Type := {
  remoteGet : Reference → option AuthConfig → OciPlatform → string → requestTransport → result string RemoteDescriptor;
  ParseManifest : string → result string Manifest;
  decodeConfigFile : string → result string (OciConfigFile * result string bool)
}.

Definition OciSchemaVersion : string := "v1alpha1".
Definition defaultMaxConfigBytes : Z := Z.shiftl 4 20.
Definition defaultUserAgent : string := "clabernetes-oci-metadata".
Definition defaultIfEmpty (value fallback : string) : string := if empty value then fallback else value.

Definition OCIManifestSchema1 : string := "application/vnd.oci.image.manifest.v1+json".
Definition DockerManifestSchema2 : string := "application/vnd.docker.distribution.manifest.v2+json".
Definition OCIImageIndex : string := "application/vnd.oci.image.index.v1+json".
Definition DockerManifestList : string := "application/vnd.docker.distribution.manifest.list.v2+json".
Definition supportedRootMediaType (mediaType : string) : bool :=
  bool_decide (mediaType ∈ [OCIManifestSchema1; DockerManifestSchema2; OCIImageIndex; DockerManifestList]).

Section resolve.
Context {registry : Containerregistry} {url : UrlCodec} {quote : FmtQuote} {sha : Sha256} {remote : Registry}.
Context (ValidPEM : string → bool) (systemRoots : result string (list string)) (defaultResolverTransport : Transport).

(** [v1.SHA256] *)
Definition hashOf (raw : string) : string := "sha256:" +:+ hexString (Sum256 raw).

(** A bundle extends the roots of the transport. *)
Definition transportForTrust (resolver : Resolver) (trust : option RegistryTrust) : result string Transport :=
  let transport := default defaultResolverTransport (RS_Transport resolver) in
  match trust with
  | None => Ok transport
  | Some trust =>
      if empty (RT_CABundle trust) then Ok transport
      else if negb (TR_IsHTTP transport) then Err "custom CA requires an HTTP transport that can be cloned"
      else
        let config := default (MkTlsConfig None true) (TR_TLSClientConfig transport) in
        let? roots := match TLS_RootCAs config with
                      | Some roots => Ok roots
                      | None => match systemRoots with
                                | Err e => Err ("loading system CA pool: " +:+ e)
                                | Ok roots => Ok roots
                                end
                      end in
        if negb (ValidPEM (RT_CABundle trust)) then Err "CA bundle contains no valid PEM certificate"
        else Ok (MkTransport true (Some (MkTlsConfig (Some (roots ++ [RT_CABundle trust])) (TLS_MinVersion12 config))))
  end.

Definition checkTrust (trust : RegistryTrust) (targetRegistry : string) (mirror : option registryMirrorTarget) :
    option (OciErrorCode * string) :=
  let trustedRegistry := normalizeRegistryAddress (RT_Registry trust) in
  let refused message := Some (OciInvalidTrust, message) in
  if empty trustedRegistry then refused "registry trust policy has no registry"
  else
    match mirror with
    | None =>
        if negb (bool_decide (trustedRegistry = targetRegistry))
        then refused ("registry trust policy is scoped to " +:+ trustedRegistry +:+ ", not " +:+ targetRegistry)
        else None
    | Some mirror =>
        if negb (bool_decide (normalizeRegistry trustedRegistry = normalizeRegistry (MT_host mirror)))
        then refused ("registry trust policy is scoped to " +:+ trustedRegistry +:+ ", not mirror endpoint " +:+ MT_host mirror)
        else if RT_PlainHTTP trust && negb (bool_decide (MT_scheme mirror = "http"))
        then refused ("plain-HTTP trust for " +:+ trustedRegistry +:+ " conflicts with the HTTPS mirror endpoint")
        else if negb (empty (RT_CABundle trust)) && negb (bool_decide (MT_scheme mirror = "https"))
        then refused ("CA bundle trust for " +:+ trustedRegistry +:+ " conflicts with the plain-HTTP mirror endpoint")
        else None
    end.
Definition validateRequestSecurity (request : OciRequest) (authority : string) (mirror : option registryMirrorTarget) :
    option (OciErrorCode * string) :=
  let targetRegistry := normalizeRegistry authority in
  match (match RQ_Authentication request with
         | Some authentication =>
             if negb (bool_decide (AU_registry authentication = targetRegistry)) then Some (AU_registry authentication) else None
         | None => None
         end) with
  | Some scope =>
      Some (OciInvalidAuthentication, "pull Secret credentials are scoped to " +:+ scope +:+ ", not " +:+ targetRegistry)
  | None =>
      match (match mirror with
             | Some mirror => if negb (bool_decide (MT_registry mirror = targetRegistry)) then Some (MT_registry mirror) else None
             | None => None
             end) with
      | Some scope =>
          Some (OciInvalidMirror, "registry metadata mirror is scoped to " +:+ scope +:+ ", not " +:+ targetRegistry)
      | None =>
          match RQ_Trust request with
          | None => None
          | Some trust => checkTrust trust targetRegistry mirror
          end
      end
  end.

(** Without a mirror, plain HTTP is asked for by the reference. *)
Definition prepareTransport (resolver : Resolver) (request : OciRequest) : result OciError (Reference * requestTransport) :=
  let insecure := match RQ_Trust request with Some trust => RT_PlainHTTP trust | None => false end
                  && negb (bool_decide (is_Some (RQ_Mirror request))) in
  match ParseReference (RQ_Reference request) with
  | None => Err (resolverError OciInvalidRequest request (Some "reference is invalid"))
  | Some reference =>
      let? mirrorTarget := match RQ_Mirror request with
                           | None => Ok None
                           | Some mirror => match compileMirror mirror with
                                            | Err message => Err (resolverError OciInvalidMirror request (Some message))
                                            | Ok target => Ok (Some target)
                                            end
                           end in
      match validateRequestSecurity request (Ref_Registry reference) mirrorTarget with
      | Some (code, message) => Err (resolverError code request (Some message))
      | None =>
          match transportForTrust resolver (RQ_Trust request) with
          | Err message => Err (resolverError OciInvalidTrust request (Some message))
          | Ok transport =>
              Ok (reference, MkRequestTransport transport ((λ target, (target, Ref_Repository reference)) <$> mirrorTarget) insecure)
          end
      end
  end.

(** [decodeConfig]: one JSON value and nothing after it. *)
Definition decodeConfig (raw : string) : result string OciConfigFile :=
  match decodeConfigFile raw with
  | Err e => Err ("decoding config: " +:+ e)
  | Ok (config, Ok false) => Ok config
  | Ok (_, Ok true) => Err "config contains trailing JSON values"
  | Ok (_, Err e) => Err ("decoding config trailer: " +:+ e)
  end.

Definition platformSatisfies (actual requested : OciPlatform) : bool := Satisfies actual requested.

(** The client's error as an error of the request. *)
Definition orFail {A} (code : OciErrorCode) (request : OciRequest) (prefix : string) (answer : result string A) : result OciError A :=
  match answer with
  | Ok a => Ok a
  | Err message => Err (resolverError code request (Some (prefix +:+ message)))
  end.
Definition requireThat (condition : bool) (code : OciErrorCode) (request : OciRequest) (message : string) : result OciError unit :=
  if condition then Ok () else Err (resolverError code request (Some message)).

(** What is read of the manifest and the configuration of an image. *)
Definition inspectImage (request : OciRequest) (maxConfigBytes : Z) (image : RemoteImage) :
    result OciError (string * string * Manifest * OciConfigFile) :=
  let? manifestDigest := orFail OciInspectManifest request "reading manifest digest: " (IM_Digest image) in
  let? manifestMediaType := orFail OciInspectManifest request "reading manifest media type: " (IM_MediaType image) in
  let? rawManifest := orFail OciInspectManifest request "reading manifest: " (IM_RawManifest image) in
  let? manifest := orFail OciInspectManifest request "decoding manifest: " (ParseManifest rawManifest) in
  let? _ := requireThat ((0 <=? MF_ConfigSize manifest) && (MF_ConfigSize manifest <=? maxConfigBytes)) OciConfigTooLarge request
              ("config descriptor size " +:+ Itoa (MF_ConfigSize manifest) +:+ " exceeds limit " +:+ Itoa maxConfigBytes) in
  let? rawConfig := orFail OciFetchConfig request "" (IM_RawConfigFile image) in
  let size := Z.of_nat (String.length rawConfig) in
  let? _ := requireThat (size =? MF_ConfigSize manifest) OciInvalidConfig request
              ("config size is " +:+ Itoa size +:+ ", descriptor declares " +:+ Itoa (MF_ConfigSize manifest)) in
  let? _ := requireThat (bool_decide (hashOf rawConfig = MF_ConfigDigest manifest)) OciInvalidConfig request
              ("config digest is " +:+ hashOf rawConfig +:+ ", descriptor declares " +:+ MF_ConfigDigest manifest) in
  let? configFile := orFail OciInvalidConfig request "" (decodeConfig rawConfig) in
  Ok (manifestDigest, manifestMediaType, manifest, configFile).

Definition Resolve (resolver : Resolver) (hasContext : bool) (request : OciRequest) : result OciError Metadata :=
  let request := request <| RQ_Reference := TrimSpace (RQ_Reference request) |> <| RQ_Platform := normalizeOciPlatform (RQ_Platform request) |> in
  let? _ := requireThat hasContext OciInvalidRequest request "context is nil" in
  let? _ := requireThat (negb (empty (RQ_Reference request))) OciInvalidRequest request "reference is empty" in
  let? _ := requireThat (negb (empty (PF_OS (RQ_Platform request)) || empty (PF_Architecture (RQ_Platform request)))) OciInvalidRequest request
              "platform OS and architecture are required" in
  let maxConfigBytes := if RS_MaxConfigBytes resolver =? 0 then defaultMaxConfigBytes else RS_MaxConfigBytes resolver in
  let? _ := requireThat (0 <=? maxConfigBytes) OciInvalidRequest request "maximum config size must not be negative" in
  let? prepared := prepareTransport resolver request in
  let '(reference, transport) := prepared in
  let? descriptor := orFail OciResolveManifest request ""
      (remoteGet reference (AU_config <$> RQ_Authentication request) (RQ_Platform request)
         (defaultIfEmpty (RS_UserAgent resolver) defaultUserAgent) transport) in
  let? _ := requireThat (supportedRootMediaType (DS_MediaType descriptor)) OciUnsupportedMedia request
              ("media type " +:+ fmt_q (DS_MediaType descriptor) +:+ " is not an OCI/Docker v2 image or index") in
  let? image := orFail OciSelectPlatform request "" (DS_Image descriptor) in
  let? inspected := inspectImage request maxConfigBytes image in
  let '(manifestDigest, manifestMediaType, manifest, configFile) := inspected in
  let actualPlatform := normalizeOciPlatform (CF_Platform configFile) in
  let? _ := requireThat (platformSatisfies actualPlatform (RQ_Platform request)) OciPlatformMismatch request
              ("selected image config declares " +:+ platformString actualPlatform) in
  Ok (MkMetadata OciSchemaVersion (TrimSpace (RQ_Reference request)) (DigestName reference manifestDigest) (DS_Digest descriptor)
        (DS_MediaType descriptor) manifestDigest manifestMediaType (MF_ConfigDigest manifest) (MF_ConfigMediaType manifest)
        actualPlatform (normalizeConfig (CF_Config configFile))).
End resolve.
