(* ===== verification/OciCache.v ===== *)
(** * The cache of image metadata

    Models [internal/ocimetadata/cache.go]: metadata is kept for a while under a key that
    covers everything a registry's answer may depend on, credentials included; the cache is
    bounded and drops what was not used for longest.

    Times are nanoseconds.  The JSON of metadata is [MetadataJSON]. *)

From S2P Require Import Prelude WireCodec Api GoStrings GoNet GoSort LinkAllocation Management PlanValidation CompilerNames OciAccess OciResolve.
Local Open Scope Z_scope.

(** [CanonicalJSON], and [decodeMetadata] with its errors.  The strings of metadata come out of
    decoded JSON (the image reference from the API, the configuration from the registry), so
    they are valid UTF-8, and JSON gives them back as they are. *)
Class MetadataJSON : Type := {
  canonicalJSON : Metadata → string;
  decodeMetadata : string → result string Metadata;
  metadata_json : ∀ metadata, decodeMetadata (canonicalJSON metadata) = Ok metadata
}.

Record cacheEntry := MkCacheEntry {
  CE_metadataDigest : string;
  CE_metadataJSON : string;
  CE_expiresAt : Z;
  CE_lastAccess : Z
}.
#[export] Instance cacheEntry_updatable : Updatable cacheEntry :=
  λ e, MkCacheEntry (CE_metadataDigest e) (CE_metadataJSON e) (CE_expiresAt e) (CE_lastAccess e).
Notation cacheEntries := (gmap string cacheEntry).

Record OciCache := MkOciCache {
  OC_ttl : Z;
  OC_maxEntries : Z;
  OC_entries : cacheEntries
}.
#[export] Instance OciCache_updatable : Updatable OciCache := λ c, MkOciCache (OC_ttl c) (OC_maxEntries c) (OC_entries c).

Definition defaultCacheTTL : Z := 5 * 60 * 1000000000.
Definition defaultCacheMaxEntries : Z := 256.

Inductive cacheOptionError := errNegativeCacheTTL | errNegativeCacheEntries.

Definition NewCache (ttl maxEntries : Z) : result cacheOptionError OciCache :=
  if ttl <? 0 then Err errNegativeCacheTTL
  else if maxEntries <? 0 then Err errNegativeCacheEntries
  else Ok (MkOciCache (if ttl =? 0 then defaultCacheTTL else ttl) (if maxEntries =? 0 then defaultCacheMaxEntries else maxEntries) ∅).

Section cache.
Context {registry : Containerregistry} {url : UrlCodec} {quote : FmtQuote} {order : RangeOrder string} {sha : Sha256} {json : MetadataJSON}.

(** ** Keys *)

(** [hex.EncodeToString] of a digest *)
Definition hexSum (raw : string) : string := hexString (Sum256 raw).

(** Each value with its length. *)
Definition framed (value : string) : string := Itoa (Z.of_nat (String.length value)) +:+ ":" +:+ value +:+ ";".
Definition fingerprintInput (values : list string) : string := String.concat "" (framed <$> values).
Definition fingerprintValues (values : list string) : string := hexSum (fingerprintInput values).

(** [strconv.FormatBool] *)
Definition FormatBool (b : bool) : string := if b then "true" else "false".

Definition mirrorFingerprint (mirror : option RegistryMirror) : string :=
  match mirror with
  | None => "origin"
  | Some mirror =>
      fingerprintValues [normalizeRegistry (RM_Registry mirror); TrimSpace (RM_Endpoint mirror); FormatBool (RM_OverridePath mirror)]
  end.
Definition authenticationFingerprint (authentication : option Authentication) : string :=
  match authentication with
  | None => "anonymous"
  | Some a =>
      fingerprintValues [AU_registry a; AC_Username (AU_config a); AC_Password (AU_config a); AC_Auth (AU_config a);
                         AC_IdentityToken (AU_config a); AC_RegistryToken (AU_config a)]
  end.
Definition trustFingerprint (trust : option RegistryTrust) : string :=
  match trust with
  | None => "system"
  | Some trust =>
      fingerprintValues [normalizeRegistryAddress (RT_Registry trust); FormatBool (RT_PlainHTTP trust); hexSum (RT_CABundle trust)]
  end.
Definition requestCacheKey (request : OciRequest) : string :=
  let platform := normalizeOciPlatform (RQ_Platform request) in
  fingerprintValues [TrimSpace (RQ_Reference request); PF_OS platform; PF_Architecture platform; PF_Variant platform;
                     PF_OSVersion platform; fingerprintValues (PF_OSFeatures platform);
                     authenticationFingerprint (RQ_Authentication request); trustFingerprint (RQ_Trust request);
                     mirrorFingerprint (RQ_Mirror request)].

Definition metadataJSONDigest (encoded : string) : string := hexSum encoded.

(** ** Validation *)

Definition referenceRepository (reference : string) : string :=
  match ParseReference reference with None => "" | Some parsed => Ref_Context parsed end.
Definition sourceReferenceDigest (reference : string) : option string :=
  match NewDigest reference with Err _ => None | Ok (digest, _) => Some digest end.

(** [slices.IsSorted] *)
Fixpoint IsSorted (values : list string) : bool :=
  match values with
  | a :: ((b :: _) as rest) => negb (str_ltb b a) && IsSorted rest
  | _ => true
  end.

Definition invalidMetadata {A} (reason : string) : result string A := Err ("invalid cached OCI metadata: " +:+ reason).

Definition checkHash (_ : unit) (item : string * string) : result string unit :=
  match NewHash item.2 with
  | Err e => invalidMetadata (item.1 +:+ " is invalid: " +:+ e)
  | Ok algorithm =>
      if negb (bool_decide (algorithm = "sha256")) then invalidMetadata (item.1 +:+ " uses unsupported algorithm " +:+ fmt_q algorithm) else Ok ()
  end.
Definition digestFields (metadata : Metadata) : gmap string string :=
  {[ "root digest" := MD_RootDigest metadata; "manifest digest" := MD_ManifestDigest metadata; "config digest" := MD_ConfigDigest metadata ]}.

Definition validateMetadata (metadata : Metadata) : result string unit :=
  if negb (bool_decide (MD_SchemaVersion metadata = OciSchemaVersion))
  then invalidMetadata ("schema version is " +:+ fmt_q (MD_SchemaVersion metadata) +:+ ", want " +:+ fmt_q OciSchemaVersion)
  else
    let? _ := rfold checkHash () (range_list (digestFields metadata)) in
    match NewDigest (MD_DigestReference metadata) with
    | Err e => invalidMetadata ("digest reference is invalid: " +:+ e)
    | Ok (digest, context) =>
        if negb (bool_decide (digest = MD_ManifestDigest metadata))
        then invalidMetadata ("digest reference selects " +:+ digest +:+ ", metadata declares " +:+ MD_ManifestDigest metadata)
        else if negb (bool_decide (context = referenceRepository (MD_SourceReference metadata)))
        then invalidMetadata "source and digest references use different repositories"
        else
          match sourceReferenceDigest (MD_SourceReference metadata) with
          | Some sourceDigest =>
              if negb (bool_decide (sourceDigest = MD_RootDigest metadata))
              then invalidMetadata ("source reference selects " +:+ sourceDigest +:+ ", root digest is " +:+ MD_RootDigest metadata)
              else Ok ()
          | None => Ok ()
          end ;;?
          if empty (PF_OS (MD_Platform metadata)) || empty (PF_Architecture (MD_Platform metadata))
          then invalidMetadata "resolved platform is incomplete"
          else if negb (IsSorted (PF_OSFeatures (MD_Platform metadata)))
          then invalidMetadata "resolved platform features are not normalized"
          else Ok ()
    end.

(** ** The entries *)

(** What is done under the lock: the stored JSON, if it is fresh and intact. *)
Definition lookupEntry (now : Z) (key : string) (c : OciCache) : OciCache * option string :=
  match OC_entries c !! key with
  | None => (c, None)
  | Some entry =>
      if negb (now <? CE_expiresAt entry) || negb (bool_decide (metadataJSONDigest (CE_metadataJSON entry) = CE_metadataDigest entry))
      then (c <| OC_entries := delete key (OC_entries c) |>, None)
      else (c <| OC_entries := <[key := entry <| CE_lastAccess := now |>]> (OC_entries c) |>, Some (CE_metadataJSON entry))
  end.
Definition deleteEntry (key : string) (c : OciCache) : OciCache := c <| OC_entries := delete key (OC_entries c) |>.

Definition loadMetadata (now : Z) (key : string) (c : OciCache) : OciCache * option Metadata :=
  match lookupEntry now key c with
  | (c, None) => (c, None)
  | (c, Some encoded) =>
      match decodeMetadata encoded with
      | Err _ => (deleteEntry key c, None)
      | Ok metadata => if is_ok (validateMetadata metadata) then (c, Some metadata) else (deleteEntry key c, None)
      end
  end.

(** The key and access time of the entry to drop; the key is empty before the first entry. *)
Definition oldestStep (oldest : string * Z) (item : string * cacheEntry) : string * Z :=
  let '(entryKey, entry) := item in
  if empty oldest.1 || (CE_lastAccess entry <? oldest.2) || ((CE_lastAccess entry =? oldest.2) && str_ltb entryKey oldest.1)
  then (entryKey, CE_lastAccess entry) else oldest.
Definition oldestKey (entries : cacheEntries) : string := (foldl oldestStep ("", 0) (range_list entries)).1.

Definition storeMetadata (now : Z) (key encoded : string) (c : OciCache) : OciCache :=
  let entries := filter (λ item, now < CE_expiresAt item.2) (OC_entries c) in
  let entries := if negb (bool_decide (is_Some (entries !! key))) && (OC_maxEntries c <=? Z.of_nat (size entries))
                 then delete (oldestKey entries) entries else entries in
  c <| OC_entries := <[key := MkCacheEntry (metadataJSONDigest encoded) encoded (now + OC_ttl c) now]> entries |>.

(** ** Resolving through the cache *)

(** The times at which the clock is read. *)
Record resolveTimes := MkResolveTimes {
  AT_first : Z;
  AT_second : Z;
  AT_store : Z
}.

(** The function that calls of one key share: the JSON of the metadata. *)
Definition resolveOnce (times : resolveTimes) (resolver : OciRequest → result OciError Metadata) (request : OciRequest) (c : OciCache) :
    OciCache * result OciError string :=
  let key := requestCacheKey request in
  match loadMetadata (AT_second times) key c with
  | (c, Some metadata) => (c, Ok (canonicalJSON metadata))
  | (c, None) =>
      match resolver request with
      | Err e => (c, Err e)
      | Ok metadata =>
          match validateMetadata metadata with
          | Err e => (c, Err (resolverError OciInvalidConfig request (Some ("resolved metadata failed cache validation: " +:+ e))))
          | Ok _ => (storeMetadata (AT_store times) key (canonicalJSON metadata) c, Ok (canonicalJSON metadata))
          end
      end
  end.

(** A call takes the encoded metadata of its own or of a concurrent call of its key. *)
Definition finishResolve (request : OciRequest) (c : OciCache) (answer : result OciError string) : OciCache * result OciError Metadata :=
  match answer with
  | Err e => (c, Err e)
  | Ok encoded =>
      match decodeMetadata encoded with
      | Ok metadata => (c, Ok metadata)
      | Err e => (deleteEntry (requestCacheKey request) c,
                  Err (resolverError OciInvalidConfig request (Some ("decoding cached metadata: " +:+ e))))
      end
  end.

Definition CacheResolve (hasContext : bool) (times : resolveTimes) (resolver : OciRequest → result OciError Metadata)
    (request : OciRequest) (c : OciCache) : OciCache * result OciError Metadata :=
  if negb hasContext then (c, resolver request)
  else
    match loadMetadata (AT_first times) (requestCacheKey request) c with
    | (c, Some metadata) => (c, Ok metadata)
    | (c, None) => let '(c, answer) := resolveOnce times resolver request c in finishResolve request c answer
    end.
End cache.
