(* ===== verification/OciAccessTheorems.v ===== *)
(** * Reading image metadata: credentials stay where they belong

    Which credentials are used, whom a request reaches, and what an error says. *)

From S2P Require Import Prelude WireCodec Api GoStrings GoNet GoSort LinkAllocation Management PlanValidation CompilerNames Hosts OciAccess OciResolve.
Local Open Scope Z_scope.

(** ** Redaction *)

Lemma append_nil s : "" +:+ s = s.
Proof. done. Qed.
Lemma HasPrefix_nil s : HasPrefix s "" = true.
Proof. by destruct s. Qed.
Lemma HasPrefix_cons a s b v : HasPrefix (String a s) (String b v) = bool_decide (b = a) && HasPrefix s v.
Proof. unfold HasPrefix. cbn [trim_prefix]. by destruct (decide (b = a)) as [->|Hne]; [rewrite bool_decide_eq_true_2|rewrite bool_decide_eq_false_2]. Qed.
Lemma ContainsChar_cons a s c : ContainsChar (String a s) c = bool_decide (a = c) || ContainsChar s c.
Proof. unfold ContainsChar. cbn [allChars]. rewrite negb_andb, negb_involutive. done. Qed.

(** A character that [v] does not have separates its occurrences. *)
Lemma HasPrefix_before c v x y : ContainsChar v c = false → HasPrefix (x +:+ String c y) v = true → HasPrefix x v = true.
Proof.
  revert v. induction x as [|a x IH]; intros [|b v]; rewrite ?append_nil, ?app_cons, ?HasPrefix_nil, ?ContainsChar_cons; try done.
  - rewrite HasPrefix_cons. intros Hv H. bool_to_prop. naive_solver.
  - rewrite !HasPrefix_cons, !andb_true_iff. intros [_ Hv]%orb_false_iff [H1 H2]. split; [done|]. by apply IH.
Qed.
Lemma Contains_separated c v x y :
  v ≠ "" → ContainsChar v c = false → Contains v x = false → Contains v y = false → Contains v (x +:+ String c y) = false.
Proof.
  intros Hne Hv. induction x as [|a x IH]; rewrite ?append_nil, ?app_cons; cbn [Contains]; rewrite ?orb_false_iff.
  - intros _ Hy. split; [|done]. destruct v as [|b v]; [done|]. rewrite HasPrefix_cons, ContainsChar_cons in *.
    apply orb_false_iff in Hv as [Hb _]. by rewrite Hb.
  - intros [H1 H2] Hy. split; [|by apply IH]. apply not_true_is_false. intros Hp.
    change (String a (x +:+ String c y)) with (String a x +:+ String c y) in Hp. apply HasPrefix_before in Hp; [congruence|done].
Qed.

(** [v] can only come from the text: it has no bracket and is not in the replacement. *)
Record distinctive (v : string) : Prop := {
  dv_nonempty : v ≠ "";
  dv_open : ContainsChar v (char 60) = false;
  dv_close : ContainsChar v (char 62) = false;
  dv_word : Contains v "redacted" = false
}.

Lemma Contains_redacted v r : distinctive v → Contains v r = false → Contains v (redacted +:+ r) = false.
Proof.
  intros [Hne Ho Hc Hw] Hr. change (redacted +:+ r) with ("" +:+ String (char 60) ("redacted" +:+ String (char 62) r)).
  apply Contains_separated; [done..| |by apply Contains_separated]. destruct v; done.
Qed.

Lemma HasPrefix_replaced w v t :
  ContainsChar v (char 60) = false → HasPrefix (replaceFrom w redacted 0 t) v = true → HasPrefix t v = true.
Proof.
  revert v. induction t as [|a t IH]; intros v Ho; [done|]. destruct v as [|b v]; [by rewrite HasPrefix_nil|].
  cbn [replaceFrom]. rewrite ContainsChar_cons in Ho. apply orb_false_iff in Ho as [Hb Ho]. destruct (HasPrefix (String a t) w).
  - change (redacted +:+ ?r) with (String (char 60) ("redacted>" +:+ r)). rewrite HasPrefix_cons. by rewrite Hb.
  - rewrite !HasPrefix_cons, !andb_true_iff. intros [H1 H2]. split; [done|]. by apply IH.
Qed.

(** What starts at a character that is kept was in the text. *)
Lemma HasPrefix_kept w v a t :
  ContainsChar v (char 60) = false → HasPrefix (String a (replaceFrom w redacted 0 t)) v = true → HasPrefix (String a t) v = true.
Proof.
  destruct v as [|b v]; [by rewrite !HasPrefix_nil|]. rewrite !HasPrefix_cons, !andb_true_iff, ContainsChar_cons.
  intros [_ Ho]%orb_false_iff [H1 H2]. split; [done|]. by eapply HasPrefix_replaced.
Qed.

Lemma replace_removes v s : distinctive v → Contains v (ReplaceAll s v redacted) = false.
Proof.
  intros Hv. unfold ReplaceAll. generalize 0%nat. induction s as [|a s IH]; intros skip; [by destruct Hv, v|].
  cbn [replaceFrom]. destruct skip as [|skip]; [|apply IH]. destruct (HasPrefix (String a s) v) eqn:Hp; [by apply Contains_redacted|].
  cbn [Contains]. rewrite (IH 0%nat), orb_false_r. apply not_true_is_false. intros H%HasPrefix_kept; [congruence|by destruct Hv].
Qed.

Lemma replace_keeps v w s : distinctive v → Contains v s = false → Contains v (ReplaceAll s w redacted) = false.
Proof.
  intros Hv. unfold ReplaceAll. generalize 0%nat. induction s as [|a s IH]; intros skip Hs; [by destruct Hv, v|].
  cbn [Contains] in Hs. apply orb_false_iff in Hs as [Hp Hs]. cbn [replaceFrom]. destruct skip as [|skip]; [|by apply IH].
  destruct (HasPrefix (String a s) w); [apply Contains_redacted; [done|by apply IH]|].
  cbn [Contains]. rewrite (IH 0%nat Hs), orb_false_r. apply not_true_is_false. intros H%HasPrefix_kept; [congruence|by destruct Hv].
Qed.

(** an error does not tell a credential.  Whatever message a registry, the network or the
    code gives, the error of a request contains no user name, password or token of the request,
    if it has no angle bracket and is not a part of the word that stands for it. *)
Theorem errors_redacted code request message v :
  v ∈ sensitiveValues (RQ_Authentication request) → distinctive v →
  ∃ text, OE_Err (resolverError code request (Some message)) = Some text ∧ Contains v text = false.
Proof.
  intros Hin Hv. eexists. split; [done|]. unfold redact. revert message.
  induction (sensitiveValues (RQ_Authentication request)) as [|w l IH]; intros message; [by apply elem_of_nil in Hin|]. cbn [foldl].
  apply elem_of_cons in Hin as [<-|Hin]; [|by apply IH]. clear IH. pose proof (replace_removes v message Hv) as H. revert H.
  generalize (ReplaceAll message v redacted). induction l as [|w l IH]; intros text H; [done|]. cbn [foldl]. apply IH. by apply replace_keeps.
Qed.

(** ** Credentials *)

Section credentials.
Context {registry : Containerregistry} {url : UrlCodec} {quote : FmtQuote} {order : RangeOrder string} {sort : GoSort} {docker : DockerJSON}.

Lemma compareKeys_wo target : weak_order (compareKeys target).
Proof.
  pose proof Compare_wo as [Hf Ht]. split.
  - intros a b. unfold compareKeys. repeat case_bool_decide; cbn; try lia; apply Hf.
  - intros a b c. unfold compareKeys. repeat case_bool_decide; cbn; try lia; apply Ht.
Qed.
Lemma compareKeys_tie target a b : compareKeys target a b = 0 → a = b.
Proof. unfold compareKeys. repeat case_bool_decide; cbn; try lia; apply Compare_zero. Qed.

Lemma elem_of_matchingKeys target auths key :
  key ∈ matchingKeys target auths ↔ is_Some (auths !! key) ∧ normalizeRegistry key = target.
Proof.
  unfold matchingKeys. rewrite SortFunc_perm, list_elem_of_In, filter_In, bool_decide_eq_true, <- list_elem_of_In, list_elem_of_fmap.
  split.
  - intros [([k v] & -> & Hin%elem_of_range_list) H]. split; [by eexists|done].
  - intros [[v Hv] H]. split; [|done]. exists (key, v). split; [done|]. by apply elem_of_range_list.
Qed.

(** The first of the keys for a registry: the ones that name it exactly, by name. *)
Definition preferred (target : string) (auths : gmap string string) (key : string) : Prop :=
  is_Some (auths !! key) ∧ normalizeRegistry key = target ∧
  ∀ key', is_Some (auths !! key') → normalizeRegistry key' = target → key' ≠ key →
    (normalizeRegistryAddress key = target ∧ normalizeRegistryAddress key' ≠ target)
    ∨ ((normalizeRegistryAddress key = target ↔ normalizeRegistryAddress key' = target) ∧ str_ltb key key' = true).

Lemma compareKeys_neg target a b :
  compareKeys target a b ≤ 0 → a ≠ b →
  (normalizeRegistryAddress a = target ∧ normalizeRegistryAddress b ≠ target)
  ∨ ((normalizeRegistryAddress a = target ↔ normalizeRegistryAddress b = target) ∧ str_ltb a b = true).
Proof.
  unfold compareKeys. intros H Hne. repeat case_bool_decide; cbn in H; [right|left|lia|right]; (split; [done|]); try done;
    apply Compare_le in H; by apply str_ltb_spec.
Qed.

Lemma matching_head target auths key keys : matchingKeys target auths = key :: keys → preferred target auths key.
Proof.
  intros Hm. assert (key ∈ matchingKeys target auths) as [H1 H2]%elem_of_matchingKeys by (rewrite Hm; by left).
  split; [done|]. split; [done|]. intros key' H1' H2' Hne.
  assert (key' ∈ matchingKeys target auths) as Hin by (by apply elem_of_matchingKeys). rewrite Hm in Hin.
  apply elem_of_cons in Hin as [->|Hin]; [done|].
  pose proof (SortFunc_sorted (compareKeys target) (List.filter (λ key, bool_decide (normalizeRegistry key = target)) (range_list auths).*1)
    (compareKeys_wo target)) as Hs. fold (matchingKeys target auths) in Hs. rewrite Hm in Hs. apply StronglySorted_inv in Hs as [_ Hs].
  rewrite Forall_forall in Hs. apply compareKeys_neg; [by apply Hs|done].
Qed.

Lemma preferred_unique target auths key key' : preferred target auths key → preferred target auths key' → key = key'.
Proof.
  intros (H1 & H2 & H3) (H1' & H2' & H3'). destruct (decide (key = key')) as [|Hne]; [done|].
  destruct (H3 key' H1' H2') as [[]|[He Hl]], (H3' key H1 H2) as [[]|[He' Hl']]; [done|done|naive_solver..|].
  apply str_ltb_asym in Hl. congruence.
Qed.

(** No key of the Secret is for the registry. *)
Definition silent (target : string) (secret : PullSecret) : Prop :=
  ∃ auths, secretAuths secret = Ok auths ∧ ∀ key, is_Some (auths !! key) → normalizeRegistry key ≠ target.

Lemma matching_nil target auths : matchingKeys target auths = [] ↔ ∀ key, is_Some (auths !! key) → normalizeRegistry key ≠ target.
Proof.
  split.
  - intros Hm key Hk Hn. assert (key ∈ matchingKeys target auths) as Hin by (by apply elem_of_matchingKeys). rewrite Hm in Hin.
    by apply elem_of_nil in Hin.
  - intros H. destruct (matchingKeys target auths) as [|key keys] eqn:Hm; [done|]. exfalso.
    assert (key ∈ matchingKeys target auths) as [H1 H2]%elem_of_matchingKeys by (rewrite Hm; by left). by apply (H key).
Qed.

Lemma authenticationFrom_spec parsed target secrets a :
  authenticationFrom parsed target secrets = Ok (Some a) ↔
  ∃ before secret after auths key, secrets = before ++ secret :: after ∧ Forall (silent target) before
    ∧ secretAuths secret = Ok auths ∧ preferred target auths key
    ∧ unmarshalAuthConfig (default "" (auths !! key)) = Some (AU_config a) ∧ AU_config a ≠ anonymousConfig
    ∧ AU_registry a = target ∧ AU_source a = MkSecretSource (PS_Namespace secret) (PS_Name secret).
Proof.
  induction secrets as [|secret secrets IH]; cbn [authenticationFrom].
  { split; [done|]. by intros ([] & ? & ? & ? & ? & ? & _). }
  split.
  - destruct (secretAuths secret) as [auths|] eqn:Ha; [|done]. destruct (matchingKeys target auths) as [|key keys] eqn:Hm.
    + intros (before & s & after & auths' & key & -> & Hb & H)%IH. exists (secret :: before), s, after, auths', key. split; [done|].
      split; [|done]. constructor; [|done]. exists auths. split; [done|]. by apply matching_nil.
    + destruct (unmarshalAuthConfig _) as [config|] eqn:Hu; [|done]. case_bool_decide as Hc; [done|]. intros [= <-].
      exists [], secret, secrets, auths, key. cbn. split_and!; [done|constructor|done|by eapply matching_head|done..].
  - intros (before & s & after & auths & key & Heq & Hb & Ha & Hp & Hu & Hc & Hr & Hs). destruct before as [|s' before]; injection Heq as -> ->.
    + rewrite Ha. destruct (matchingKeys target auths) as [|key' keys] eqn:Hm.
      { exfalso. destruct Hp as (H1 & H2 & _). by apply (proj1 (matching_nil _ _) Hm key). }
      assert (key' = key) as -> by (eapply preferred_unique; [by eapply matching_head|done]). rewrite Hu.
      rewrite bool_decide_eq_false_2 by done. destruct a. cbn in *. by subst.
    + apply Forall_cons in Hb as [(auths' & Ha' & Hs') Hb]. rewrite Ha', (proj2 (matching_nil _ _) Hs'). apply IH.
      exists before, s, after, auths, key. done.
Qed.

(** the credentials of an image are those of the first pull Secret that has any for its
    registry.  Every Secret before it is readable and has none; of several entries for the
    registry one that names it exactly is taken before one of its other names, then the first
    by name, whatever the order in which Go visits a map; and the credentials are marked with
    the registry they are for. *)
Theorem pull_credentials reference secrets a :
  AuthenticationFromPullSecrets reference secrets = Ok (Some a) ↔
  ∃ parsed before secret after auths key,
    ParseReference (TrimSpace reference) = Some parsed ∧ secrets = before ++ secret :: after
    ∧ Forall (silent (normalizeRegistry (Ref_Registry parsed))) before
    ∧ secretAuths secret = Ok auths ∧ preferred (normalizeRegistry (Ref_Registry parsed)) auths key
    ∧ unmarshalAuthConfig (default "" (auths !! key)) = Some (AU_config a) ∧ AU_config a ≠ anonymousConfig
    ∧ AU_registry a = normalizeRegistry (Ref_Registry parsed) ∧ AU_source a = MkSecretSource (PS_Namespace secret) (PS_Name secret).
Proof.
  unfold AuthenticationFromPullSecrets. destruct (ParseReference (TrimSpace reference)) as [parsed|].
  - rewrite authenticationFrom_spec. split.
    + intros (before & secret & after & auths & key & H). by exists parsed, before, secret, after, auths, key.
    + intros (p & before & secret & after & auths & key & [= <-] & H). by exists before, secret, after, auths, key.
  - split; [done|]. by intros (p & _ & _ & _ & _ & _ & H & _).
Qed.
End credentials.

(** ** Whom a request reaches *)

Section scope.
Context {registry : Containerregistry} {url : UrlCodec} {quote : FmtQuote} {order : RangeOrder string}.
Context (ValidPEM : string → bool) (systemRoots : result string (list string)) (defaultResolverTransport : Transport).

(** The request that leaves through the transport. *)
Definition sentThrough (transport : requestTransport) (request : HttpRequest) : HttpRequest :=
  match QT_Mirror transport with
  | None => request
  | Some (target, repository) => RoundTrip target repository request
  end.

(** The exception is for the host that is connected to, and for the way it is connected to. *)
Definition trustScoped (target : string) (transport : requestTransport) (trust : RegistryTrust) : Prop :=
  match QT_Mirror transport with
  | None => normalizeRegistryAddress (RT_Registry trust) = target
  | Some (mirror, _) =>
      normalizeRegistry (normalizeRegistryAddress (RT_Registry trust)) = normalizeRegistry (MT_host mirror)
      ∧ (RT_PlainHTTP trust = true → MT_scheme mirror = "http") ∧ (RT_CABundle trust ≠ "" → MT_scheme mirror = "https")
  end
  ∧ (RT_CABundle trust ≠ "" → ValidPEM (RT_CABundle trust) = true ∧
       ∃ config roots, TR_TLSClientConfig (QT_Base transport) = Some config ∧ TLS_RootCAs config = Some (roots ++ [RT_CABundle trust])).

Lemma security_None request authority mirror :
  validateRequestSecurity request authority mirror = None ↔
  (∀ a, RQ_Authentication request = Some a → AU_registry a = normalizeRegistry authority)
  ∧ (∀ m, mirror = Some m → MT_registry m = normalizeRegistry authority)
  ∧ (∀ t, RQ_Trust request = Some t → checkTrust t (normalizeRegistry authority) mirror = None).
Proof.
  unfold validateRequestSecurity. split.
  - intros H. split_and!.
    + intros a Ha. rewrite Ha in H. case_bool_decide; [done|]. done.
    + intros m ->. destruct (RQ_Authentication request) as [a|]; [case_bool_decide; [|done]|]; cbn in H; case_bool_decide; done.
    + intros t Ht. rewrite Ht in H. destruct (match RQ_Authentication request with Some _ => _ | None => _ end); [done|].
      by destruct (match mirror with Some _ => _ | None => _ end).
  - intros (H1 & H2 & H3). destruct (RQ_Authentication request) as [a|].
    + rewrite (H1 a eq_refl), bool_decide_eq_true_2 by done. cbn. destruct mirror as [m|].
      * rewrite (H2 m eq_refl), bool_decide_eq_true_2 by done. cbn. destruct (RQ_Trust request); [by apply H3|done].
      * destruct (RQ_Trust request); [by apply H3|done].
    + destruct mirror as [m|].
      * rewrite (H2 m eq_refl), bool_decide_eq_true_2 by done. cbn. destruct (RQ_Trust request); [by apply H3|done].
      * destruct (RQ_Trust request); [by apply H3|done].
Qed.

Lemma transportForTrust_Ok resolver trust transport :
  transportForTrust ValidPEM systemRoots defaultResolverTransport resolver (Some trust) = Ok transport → RT_CABundle trust ≠ "" →
  ValidPEM (RT_CABundle trust) = true ∧
  ∃ config roots, TR_TLSClientConfig transport = Some config ∧ TLS_RootCAs config = Some (roots ++ [RT_CABundle trust]).
Proof.
  unfold transportForTrust, empty. intros H Hne. rewrite bool_decide_eq_false_2 in H by done. destruct (negb (TR_IsHTTP _)); [done|].
  apply rbind_Ok_inv in H as (roots & _ & H). destruct (ValidPEM (RT_CABundle trust)); [|done]. injection H as <-. split; [done|].
  by do 2 eexists.
Qed.

Lemma checkTrust_None trust target mirror :
  checkTrust trust target mirror = None →
  match mirror with
  | None => normalizeRegistryAddress (RT_Registry trust) = target
  | Some mirror =>
      normalizeRegistry (normalizeRegistryAddress (RT_Registry trust)) = normalizeRegistry (MT_host mirror)
      ∧ (RT_PlainHTTP trust = true → MT_scheme mirror = "http") ∧ (RT_CABundle trust ≠ "" → MT_scheme mirror = "https")
  end.
Proof.
  unfold checkTrust. destruct (empty _); [done|]. destruct mirror as [m|]; [|by case_bool_decide].
  case_bool_decide as H1; [|done]. cbn [negb]. unfold empty. destruct (RT_PlainHTTP trust); cbn [andb]; repeat case_bool_decide; try done.
Qed.

(** C24: what a request carries is for whom it reaches.  When the metadata of an image is asked
    for, credentials are for the registry of the image; a trust exception is for the host that
    is connected to, and a certificate extends the roots instead of replacing them; plain HTTP
    is used only where it is allowed by name; and with a mirror, every HTTP request to the
    registry goes to the mirror instead. *)
Theorem registry_access_scoped resolver request reference transport :
  prepareTransport ValidPEM systemRoots defaultResolverTransport resolver request = Ok (reference, transport) →
  let target := normalizeRegistry (Ref_Registry reference) in
  (∀ a, RQ_Authentication request = Some a → AU_registry a = target)
  ∧ (∀ trust, RQ_Trust request = Some trust → trustScoped target transport trust)
  ∧ (QT_Insecure transport = true → QT_Mirror transport = None ∧ ∃ trust, RQ_Trust request = Some trust ∧ RT_PlainHTTP trust = true)
  ∧ match RQ_Mirror request with
    | None => QT_Mirror transport = None
    | Some mirror => ∃ m, compileMirror mirror = Ok m ∧ QT_Mirror transport = Some (m, Ref_Repository reference) ∧
        ∀ http, normalizeRegistry (HR_URLHost http) = target →
          HR_URLHost (sentThrough transport http) = MT_host m ∧ HR_Scheme (sentThrough transport http) = MT_scheme m
    end.
Proof.
  unfold prepareTransport. destruct (ParseReference (RQ_Reference request)) as [ref|]; [|done].
  intros (mirrorTarget & Hm & H)%rbind_Ok_inv. destruct (validateRequestSecurity _ _ _) as [[]|] eqn:Hs in H; [done|].
  apply security_None in Hs as (S1 & S2 & S3). destruct (transportForTrust _ _ _ _ _) as [base|] eqn:Ht in H; [|done].
  injection H as -> <-. cbn zeta. split_and!.
  - done.
  - intros trust Htr. specialize (S3 trust Htr). apply checkTrust_None in S3. rewrite Htr in Ht. split.
    + cbn. by destruct mirrorTarget.
    + by apply (transportForTrust_Ok resolver).
  - cbn. intros [Hi Hn]%andb_true_iff. apply negb_true_iff, bool_decide_eq_false in Hn. destruct (RQ_Mirror request); [by destruct Hn|].
    injection Hm as <-. split; [done|]. destruct (RQ_Trust request) as [trust|]; [by exists trust|done].
  - destruct (RQ_Mirror request) as [mirror|]; [|by injection Hm as <-]. destruct (compileMirror mirror) as [m|]; [|done].
    injection Hm as <-. exists m. split; [done|]. split; [done|]. intros http Hh. unfold sentThrough. cbn. unfold RoundTrip.
    rewrite (S2 m eq_refl), Hh, bool_decide_eq_true_2 by done. done.
Qed.
End scope.
