(* ===== verification/OciResolveTheorems.v ===== *)
(** * Reading image metadata: what is resolved is well formed

    The metadata that is resolved passes the check of the cache, is for the platform that was
    asked for, and is identified by the reference that was asked for. *)

From S2P Require Import Prelude WireCodec Api GoStrings GoNet GoSort LinkAllocation Management PlanValidation CompilerNames Hosts.
From S2P Require Import OciAccess OciResolve OciCache.
Local Open Scope Z_scope.

(** ** Trimming and sorting *)

Lemma trimRight_idem s : trimRight (trimRight s) = trimRight s.
Proof.
  induction s as [|a s IH]; [done|]. cbn. destruct (isSpace a && bool_decide (trimRight s = "")) eqn:Hc; [done|]. cbn. by rewrite IH, Hc.
Qed.
Lemma TrimSpace_idem s : TrimSpace (TrimSpace s) = TrimSpace s.
Proof.
  unfold TrimSpace. assert (∀ t, trimLeft t = t → trimLeft (trimRight t) = trimRight t) as Hcomm.
  { intros [|a t] Ht; [done|]. cbn in *. destruct (isSpace a) eqn:Ha; cbn.
    - exfalso. apply (f_equal String.length) in Ht. cbn in Ht. assert (∀ u, (String.length (trimLeft u) ≤ String.length u)%nat) as Hle.
      { induction u as [|b u IH]; [done|]. cbn. destruct (isSpace b); cbn; lia. } specialize (Hle t). lia.
    - by rewrite Ha. }
  rewrite Hcomm; [apply trimRight_idem|]. induction s as [|a s IH]; [done|]. cbn. destruct (isSpace a) eqn:Ha; [done|]. cbn. by rewrite Ha.
Qed.

Lemma sorted_IsSorted l : StronglySorted String.le l → IsSorted l = true.
Proof.
  induction 1 as [|a l Hs IH Ha]; [done|]. destruct l as [|b l]; [done|]. change (negb (str_ltb b a) && IsSorted (b :: l) = true). rewrite IH, andb_true_r. apply negb_true_iff.
  apply Forall_cons in Ha as [Hab _]. apply not_true_is_false. intros [H1 H2]%str_ltb_spec. apply H2.
  by apply (anti_symm String.le).
Qed.

(** ** The client *)

(** What is relied on of go-containerregistry: digests are hashes, a reference is resolved to the
    digest it names, and an image for a platform has its operating system and architecture. *)
Record lawfulRegistry {registry : Containerregistry} {sha : Sha256} {remote : Registry} : Prop := {
  law_sum : ∀ raw, NewHash (hashOf raw) = Ok "sha256";
  law_name : ∀ s reference digest, ParseReference s = Some reference → NewHash digest = Ok "sha256" →
    NewDigest (DigestName reference digest) = Ok (digest, Ref_Context reference);
  law_descriptor : ∀ reference auth platform agent transport descriptor,
    remoteGet reference auth platform agent transport = Ok descriptor → NewHash (DS_Digest descriptor) = Ok "sha256";
  law_image : ∀ reference auth platform agent transport descriptor image digest,
    remoteGet reference auth platform agent transport = Ok descriptor → DS_Image descriptor = Ok image → IM_Digest image = Ok digest →
    NewHash digest = Ok "sha256";
  law_pinned : ∀ s reference digest context auth platform agent transport descriptor,
    ParseReference s = Some reference → NewDigest s = Ok (digest, context) →
    remoteGet reference auth platform agent transport = Ok descriptor → DS_Digest descriptor = digest;
  law_platform : ∀ actual requested, Satisfies actual requested = true →
    (PF_OS requested ≠ "" → PF_OS actual = PF_OS requested) ∧ (PF_Architecture requested ≠ "" → PF_Architecture actual = PF_Architecture requested)
}.

Section resolved.
Context {registry : Containerregistry} {url : UrlCodec} {quote : FmtQuote} {order : RangeOrder string} {sha : Sha256} {remote : Registry}.
Context (ValidPEM : string → bool) (systemRoots : result string (list string)) (defaultResolverTransport : Transport).

Lemma orFail_Ok {A} code request prefix (answer : result string A) a : orFail code request prefix answer = Ok a ↔ answer = Ok a.
Proof. unfold orFail. destruct answer; split; congruence. Qed.
Lemma requireThat_Ok b code request message u : requireThat b code request message = Ok u ↔ b = true.
Proof. unfold requireThat. destruct b, u; split; done. Qed.

Lemma checkHash_all (m : gmap string string) :
  (∀ k v, m !! k = Some v → NewHash v = Ok "sha256") → rfold checkHash () (range_list m) = Ok ().
Proof.
  intros Hm. assert (∀ item, item ∈ range_list m → NewHash item.2 = Ok "sha256") as H by (intros [k v] ?%elem_of_range_list; by eapply Hm).
  induction (range_list m) as [|item l IH]; [done|]. cbn [rfold]. unfold checkHash at 1. rewrite H by (by left). rewrite bool_decide_eq_true_2 by done.
  cbn. apply IH. intros x Hx. apply H. by right.
Qed.

Lemma validate_intro metadata context :
  MD_SchemaVersion metadata = OciSchemaVersion → NewHash (MD_RootDigest metadata) = Ok "sha256" → NewHash (MD_ManifestDigest metadata) = Ok "sha256" →
  NewHash (MD_ConfigDigest metadata) = Ok "sha256" → NewDigest (MD_DigestReference metadata) = Ok (MD_ManifestDigest metadata, context) →
  referenceRepository (MD_SourceReference metadata) = context →
  (∀ digest ctx, NewDigest (MD_SourceReference metadata) = Ok (digest, ctx) → digest = MD_RootDigest metadata) →
  PF_OS (MD_Platform metadata) ≠ "" → PF_Architecture (MD_Platform metadata) ≠ "" → StronglySorted String.le (PF_OSFeatures (MD_Platform metadata)) →
  validateMetadata metadata = Ok ().
Proof.
  intros H1 H2 H3 H4 H5 H6 H7 H8 H9 H10. unfold validateMetadata. rewrite bool_decide_eq_true_2 by done. cbn [negb]. rewrite checkHash_all.
  2: { intros k v. unfold digestFields. rewrite !lookup_insert_Some, lookup_singleton_Some. naive_solver. }
  cbn [rbind]. rewrite H5, !bool_decide_eq_true_2 by done. cbn [negb]. unfold sourceReferenceDigest, empty.
  rewrite !bool_decide_eq_false_2 by done. cbn [orb]. rewrite sorted_IsSorted by done.
  destruct (NewDigest (MD_SourceReference metadata)) as [[digest ctx]|]; [|done]. rewrite bool_decide_eq_true_2; [done|]. by apply (H7 digest ctx).
Qed.

Lemma inspect_Ok request limit image digest mediaType manifest config :
  inspectImage request limit image = Ok (digest, mediaType, manifest, config) →
  IM_Digest image = Ok digest ∧ ∃ raw, hashOf raw = MF_ConfigDigest manifest.
Proof.
  unfold inspectImage. intros (digest' & Hdigest%orFail_Ok & H)%rbind_Ok_inv.
  apply rbind_Ok_inv in H as (media' & _ & H). apply rbind_Ok_inv in H as (raw & _ & H). apply rbind_Ok_inv in H as (manifest' & _ & H).
  apply rbind_Ok_inv in H as ([] & _ & H). apply rbind_Ok_inv in H as (rawConfig & _ & H). apply rbind_Ok_inv in H as ([] & _ & H).
  apply rbind_Ok_inv in H as ([] & Hhash%requireThat_Ok & H). apply rbind_Ok_inv in H as (config' & _ & H). injection H as -> -> -> ->.
  apply bool_decide_eq_true in Hhash. split; [done|]. by exists rawConfig.
Qed.

Lemma prepare_parses resolver request reference transport :
  prepareTransport ValidPEM systemRoots defaultResolverTransport resolver request = Ok (reference, transport) →
  ParseReference (RQ_Reference request) = Some reference.
Proof.
  unfold prepareTransport. destruct (ParseReference (RQ_Reference request)) as [ref|]; [|done]. intros (m & _ & H)%rbind_Ok_inv.
  destruct (validateRequestSecurity _ _ _) as [[]|]; [done|]. destruct (transportForTrust _ _ _ _ _); [|done]. by injection H as ->.
Qed.

(** C34: what is resolved is what was asked for, and can be cached.  With a client that does what
    its documentation says, the metadata that [Resolve] returns names the reference as it was
    asked for, has the operating system and the architecture that were asked for, and passes the
    check of the cache: all its digests are SHA-256 digests, the digest reference names the
    manifest in the same repository, and a reference by digest is resolved to that digest. *)
Theorem resolved_metadata_valid resolver hasContext request metadata :
  lawfulRegistry →
  Resolve ValidPEM systemRoots defaultResolverTransport resolver hasContext request = Ok metadata →
  validateMetadata metadata = Ok () ∧ MD_SourceReference metadata = TrimSpace (RQ_Reference request)
  ∧ PF_OS (MD_Platform metadata) = ToLower (TrimSpace (PF_OS (RQ_Platform request)))
  ∧ PF_Architecture (MD_Platform metadata) = ToLower (TrimSpace (PF_Architecture (RQ_Platform request))).
Proof.
  intros Hlaw. unfold Resolve. cbv zeta. set (req := request <| RQ_Reference := _ |> <| RQ_Platform := _ |>).
  intros ([] & _ & H)%rbind_Ok_inv. apply rbind_Ok_inv in H as ([] & _ & H). apply rbind_Ok_inv in H as ([] & Hplat%requireThat_Ok & H).
  apply rbind_Ok_inv in H as ([] & _ & H). apply rbind_Ok_inv in H as ([reference transport] & Hprep%prepare_parses & H).
  apply rbind_Ok_inv in H as (descriptor & Hget%orFail_Ok & H). apply rbind_Ok_inv in H as ([] & _ & H).
  apply rbind_Ok_inv in H as (image & Himage%orFail_Ok & H).
  apply rbind_Ok_inv in H as ([[[digest mediaType] manifest] config] & [Hdigest [raw Hraw]]%inspect_Ok & H).
  apply rbind_Ok_inv in H as ([] & Hsat%requireThat_Ok & H). injection H as <-.
  change (RQ_Reference req) with (TrimSpace (RQ_Reference request)) in *.
  destruct (law_platform Hlaw _ _ Hsat) as [Hos Harch]. apply negb_true_iff, orb_false_iff in Hplat as [Ho Ha].
  unfold empty in Ho, Ha. apply bool_decide_eq_false in Ho, Ha. specialize (Hos Ho). specialize (Harch Ha).
  split_and!; [|by apply TrimSpace_idem|done|done]. pose proof (law_image Hlaw _ _ _ _ _ _ _ _ Hget Himage Hdigest) as Hd.
  apply (validate_intro _ (Ref_Context reference)); cbn [MD_SchemaVersion MD_RootDigest MD_ManifestDigest MD_ConfigDigest MD_DigestReference MD_SourceReference MD_Platform].
  - done.
  - by eapply law_descriptor.
  - done.
  - rewrite <- Hraw. apply (law_sum Hlaw).
  - by eapply law_name.
  - rewrite TrimSpace_idem. unfold referenceRepository. by rewrite Hprep.
  - intros d ctx Hn. rewrite TrimSpace_idem in Hn. symmetry. by eapply law_pinned.
  - by rewrite Hos.
  - by rewrite Harch.
  - apply sort_strings_sorted.
Qed.
End resolved.
