(* ===== verification/OciCacheTheorems.v ===== *)
(** * The cache of image metadata: whom an answer is for

    The key of a request determines what the request asks for and with which credentials, so an
    answer is only given to requests that would have had the same answer; the cache stays within
    its bounds and drops what was not used for longest. *)

From S2P Require Import Prelude WireCodec Api GoStrings GoNet GoSort LinkAllocation Management PlanValidation CompilerNames Hosts.
From S2P Require Import OciAccess OciResolve OciCache.
Local Open Scope Z_scope.

(** ** Frames *)

Lemma append_inj_length (a b s t : string) : String.length a = String.length b → a +:+ s = b +:+ t → a = b ∧ s = t.
Proof.
  revert b. induction a as [|x a IH]; intros [|y b] Hl; try done. injection Hl as Hl. rewrite !app_cons. intros [= -> H].
  destruct (IH b Hl H) as [-> ->]. done.
Qed.

(** A Go string is shorter than [2^63]. *)
Definition short (s : string) : Prop := Z.of_nat (String.length s) < 2 ^ 63.

Lemma framed_inj v w s t : short v → short w → framed v +:+ s = framed w +:+ t → v = w ∧ s = t.
Proof.
  intros Hv Hw H.
  assert (∀ x r : string, Cut (char 58) (framed x +:+ r) = Some (Itoa (Z.of_nat (String.length x)), x +:+ String (char 59) r)) as Hcut.
  { intros x r. unfold framed. rewrite !app_assoc_s. apply Cut_app. unfold ContainsChar. apply negb_false_iff.
    eapply allChars_impl; [|apply Itoa_digits; lia]. intros a Ha. apply negb_true_iff, bool_decide_eq_false. by intros ->. }
  pose proof (Hcut v s) as H1. rewrite H, Hcut in H1. injection H1 as Hl Hrest.
  assert (String.length v = String.length w) as Hlen.
  { unfold short in *. apply (f_equal Atoi) in Hl. rewrite !Atoi_Itoa in Hl by lia. injection Hl. lia. }
  symmetry in Hrest. destruct (append_inj_length _ _ _ _ Hlen Hrest) as [-> [= ->]]. done.
Qed.

Lemma fingerprintInput_inj l l' : Forall short l → Forall short l' → fingerprintInput l = fingerprintInput l' → l = l'.
Proof.
  unfold fingerprintInput. revert l'. induction l as [|v l IH]; intros [|w l']; rewrite ?fmap_cons, ?concat_cons.
  - done.
  - intros _ _ H. exfalso. unfold framed in H. rewrite !app_assoc_s in H. apply (f_equal String.length) in H. rewrite !length_string_app in H. cbn in H. lia.
  - intros _ _ H. exfalso. unfold framed in H. rewrite !app_assoc_s in H. apply (f_equal String.length) in H. rewrite !length_string_app in H. cbn in H. lia.
  - intros [Hv Hl]%Forall_cons [Hw Hl']%Forall_cons H. destruct (framed_inj v w _ _ Hv Hw H) as [-> H']. f_equal. by apply IH.
Qed.

Lemma hex02_inj a b : is_byte a → is_byte b → hex02 a = hex02 b → a = b.
Proof.
  intros Ha Hb. assert (Forall (λ x, Forall (λ y, hexDigit x = hexDigit y → x = y) (seqZ 0 16)) (seqZ 0 16)) as Hall
    by (apply (bool_decide_unpack _); by vm_compute).
  assert (∀ x y, 0 ≤ x < 16 → 0 ≤ y < 16 → hexDigit x = hexDigit y → x = y) as Hinj.
  { intros x y Hx Hy. rewrite Forall_forall in Hall. specialize (Hall x). rewrite Forall_forall in Hall.
    apply Hall; apply elem_of_seqZ; lia. }
  unfold is_byte, hex02 in *. intros [= H1 H2].
  apply Hinj in H1; [|split; [apply Z.div_pos; lia|apply Z.div_lt_upper_bound; lia]..].
  apply Hinj in H2; [|apply Z.mod_pos_bound; lia..]. rewrite (Z.div_mod a 16), (Z.div_mod b 16) by lia. lia.
Qed.

Lemma hexString_inj l l' : Forall is_byte l → Forall is_byte l' → length l = length l' → hexString l = hexString l' → l = l'.
Proof.
  unfold hexString. revert l'. induction l as [|a l IH]; intros [|b l']; try done. rewrite !fmap_cons, !concat_cons.
  intros [Ha Hl]%Forall_cons [Hb Hl']%Forall_cons [= Hlen] H.
  destruct (append_inj_length (hex02 a) (hex02 b) _ _ eq_refl H) as [H1 H2]. f_equal; [by apply hex02_inj|by apply IH].
Qed.

(** ** Keys *)

Section keys.
Context {registry : Containerregistry} {url : UrlCodec} {quote : FmtQuote} {order : RangeOrder string} {sha : Sha256} {json : MetadataJSON}.

(** Two different texts with one SHA-256. *)
Definition collision : Prop := ∃ a b : string, a ≠ b ∧ Sum256 a = Sum256 b.

Lemma hexSum_inj a b : hexSum a = hexSum b → a = b ∨ collision.
Proof.
  intros H. apply hexString_inj in H; [|apply Sum256_bytes..|by rewrite !Sum256_length].
  destruct (decide (a = b)) as [|Hne]; [by left|]. right. by exists a, b.
Qed.
Lemma hexSum_length a : String.length (hexSum a) = 64%nat.
Proof. unfold hexSum. destruct (hexString_spec (Sum256 a) (Sum256_bytes a)) as [_ ->]. by rewrite Sum256_length. Qed.
Lemma hexSum_short a : short (hexSum a).
Proof. unfold short. rewrite hexSum_length. lia. Qed.
Lemma fingerprint_inj l l' : Forall short l → Forall short l' → fingerprintValues l = fingerprintValues l' → l = l' ∨ collision.
Proof. intros Hl Hl' [H|]%hexSum_inj; [left|by right]. by apply fingerprintInput_inj. Qed.

(** The texts that enter a key, besides digests. *)
Definition authParts (a : Authentication) : list string :=
  [AU_registry a; AC_Username (AU_config a); AC_Password (AU_config a); AC_Auth (AU_config a); AC_IdentityToken (AU_config a);
   AC_RegistryToken (AU_config a)].
Definition mirrorParts (m : RegistryMirror) : list string :=
  [normalizeRegistry (RM_Registry m); TrimSpace (RM_Endpoint m); FormatBool (RM_OverridePath m)].
Definition trustParts (t : RegistryTrust) : list string :=
  [normalizeRegistryAddress (RT_Registry t); FormatBool (RT_PlainHTTP t); hexSum (RT_CABundle t)].
Definition keyParts (request : OciRequest) : list string :=
  let p := normalizeOciPlatform (RQ_Platform request) in
  [TrimSpace (RQ_Reference request); PF_OS p; PF_Architecture p; PF_Variant p; PF_OSVersion p] ++ PF_OSFeatures p
  ++ default [] (authParts <$> RQ_Authentication request) ++ default [] (trustParts <$> RQ_Trust request)
  ++ default [] (mirrorParts <$> RQ_Mirror request).

(** The requests ask the same host for the same image with the same credentials and trust. *)
Record sameAccess (r r' : OciRequest) : Prop := {
  sa_reference : TrimSpace (RQ_Reference r) = TrimSpace (RQ_Reference r');
  sa_platform : normalizeOciPlatform (RQ_Platform r) = normalizeOciPlatform (RQ_Platform r');
  sa_credentials : (λ a, (AU_registry a, AU_config a)) <$> RQ_Authentication r = (λ a, (AU_registry a, AU_config a)) <$> RQ_Authentication r';
  sa_trust : (λ t, (normalizeRegistryAddress (RT_Registry t), RT_PlainHTTP t, RT_CABundle t)) <$> RQ_Trust r
    = (λ t, (normalizeRegistryAddress (RT_Registry t), RT_PlainHTTP t, RT_CABundle t)) <$> RQ_Trust r';
  sa_mirror : (λ m, (normalizeRegistry (RM_Registry m), TrimSpace (RM_Endpoint m), RM_OverridePath m)) <$> RQ_Mirror r
    = (λ m, (normalizeRegistry (RM_Registry m), TrimSpace (RM_Endpoint m), RM_OverridePath m)) <$> RQ_Mirror r'
}.

Lemma FormatBool_inj a b : FormatBool a = FormatBool b → a = b.
Proof. by destruct a, b. Qed.
Lemma FormatBool_short b : short (FormatBool b).
Proof. by destruct b. Qed.

(** A fixed word is no digest. *)
Lemma optional_inj {A} (parts : A → list string) word (o o' : option A) :
  String.length word ≠ 64%nat → Forall short (default [] (parts <$> o)) → Forall short (default [] (parts <$> o')) →
  match o with None => word | Some a => fingerprintValues (parts a) end = match o' with None => word | Some a => fingerprintValues (parts a) end →
  parts <$> o = parts <$> o' ∨ collision.
Proof.
  intros Hw Ho Ho' H. destruct o as [a|], o' as [b|]; cbn in *.
  - destruct (fingerprint_inj _ _ Ho Ho' H) as [->|]; auto.
  - exfalso. apply (f_equal String.length) in H. unfold fingerprintValues in H. rewrite hexSum_length in H. done.
  - exfalso. apply (f_equal String.length) in H. unfold fingerprintValues in H. rewrite hexSum_length in H. done.
  - by left.
Qed.

Lemma short_parts request :
  Forall short (keyParts request) →
  Forall short [TrimSpace (RQ_Reference request); PF_OS (normalizeOciPlatform (RQ_Platform request)); PF_Architecture (normalizeOciPlatform (RQ_Platform request));
    PF_Variant (normalizeOciPlatform (RQ_Platform request)); PF_OSVersion (normalizeOciPlatform (RQ_Platform request))]
  ∧ Forall short (PF_OSFeatures (normalizeOciPlatform (RQ_Platform request))) ∧ Forall short (default [] (authParts <$> RQ_Authentication request))
  ∧ Forall short (default [] (trustParts <$> RQ_Trust request)) ∧ Forall short (default [] (mirrorParts <$> RQ_Mirror request)).
Proof. unfold keyParts. cbv zeta. by rewrite !Forall_app. Qed.

Lemma word_short word : (String.length word < 100)%nat → short word.
Proof. unfold short. lia. Qed.

Lemma optional_short {A} (parts : A → list string) word (o : option A) :
  (String.length word < 100)%nat → short (match o with None => word | Some a => fingerprintValues (parts a) end).
Proof. destruct o; [intros _; apply hexSum_short|apply word_short]. Qed.

Lemma key_short request :
  Forall short (keyParts request) →
  Forall short ([TrimSpace (RQ_Reference request); PF_OS (normalizeOciPlatform (RQ_Platform request)); PF_Architecture (normalizeOciPlatform (RQ_Platform request));
    PF_Variant (normalizeOciPlatform (RQ_Platform request)); PF_OSVersion (normalizeOciPlatform (RQ_Platform request))]
    ++ [fingerprintValues (PF_OSFeatures (normalizeOciPlatform (RQ_Platform request))); authenticationFingerprint (RQ_Authentication request);
        trustFingerprint (RQ_Trust request); mirrorFingerprint (RQ_Mirror request)]).
Proof.
  intros (P & _)%short_parts. apply Forall_app. split; [done|]. repeat (apply Forall_cons; split); [| | | |constructor].
  - apply hexSum_short.
  - apply (optional_short authParts). cbn. lia.
  - apply (optional_short trustParts). cbn. lia.
  - apply (optional_short mirrorParts). cbn. lia.
Qed.

(** The key of a request tells what it asks for and with what, if SHA-256 has no collision. *)
Lemma key_separates r r' :
  Forall short (keyParts r) → Forall short (keyParts r') → requestCacheKey r = requestCacheKey r' → sameAccess r r' ∨ collision.
Proof.
  intros Hr Hr' H. unfold requestCacheKey in H. cbv zeta in H. apply fingerprint_inj in H as [H|]; [|by right|by apply key_short..].
  apply short_parts in Hr as (_ & F1 & A1 & T1 & M1), Hr' as (_ & F2 & A2 & T2 & M2).
  injection H as H1 H2 H3 H4 H5 H6 H7 H8 H9.
  apply fingerprint_inj in H6 as [H6|]; [|by right|done..].
  apply (optional_inj authParts "anonymous") in H7 as [H7|]; [|by right|done..].
  apply (optional_inj trustParts "system") in H8 as [H8|]; [|by right|done..].
  apply (optional_inj mirrorParts "origin") in H9 as [H9|]; [|by right|done..].
  assert ((λ t, (normalizeRegistryAddress (RT_Registry t), RT_PlainHTTP t, RT_CABundle t)) <$> RQ_Trust r
    = (λ t, (normalizeRegistryAddress (RT_Registry t), RT_PlainHTTP t, RT_CABundle t)) <$> RQ_Trust r' ∨ collision) as [Ht|]; [|left|by right].
  { destruct (RQ_Trust r) as [t|], (RQ_Trust r') as [t'|]; try done; [|by left]. injection H8 as Ha Hp%FormatBool_inj [Hb|]%hexSum_inj; [left|by right].
    cbn. congruence. }
  constructor; [done| | |done|].
  - unfold normalizeOciPlatform. congruence.
  - destruct (RQ_Authentication r) as [[reg src []]|], (RQ_Authentication r') as [[reg' src' []]|]; try done. injection H7 as -> -> -> -> -> ->. done.
  - destruct (RQ_Mirror r) as [m|], (RQ_Mirror r') as [m'|]; try done. injection H9 as Ha Hb Hc%FormatBool_inj. cbn. congruence.
Qed.

(** ** The entry that is dropped *)

(** Less recently used, then by name. *)
Definition older (a b : string * Z) : Prop := a.2 < b.2 ∨ (a.2 = b.2 ∧ (a.1 = b.1 ∨ str_ltb a.1 b.1 = true)).

Lemma older_refl a : older a a.
Proof. right. auto. Qed.
Lemma older_trans a b c : older a b → older b c → older a c.
Proof.
  intros [H1|[H1 K1]] [H2|[H2 K2]]; [left; lia..|]. right. split; [lia|]. destruct K1 as [->|K1], K2 as [<-|K2]; auto.
  right. by eapply str_ltb_trans.
Qed.
Lemma older_total a b : older a b ∨ older b a.
Proof.
  unfold older. destruct (Z.lt_trichotomy a.2 b.2) as [?|[He|?]]; [auto| |auto]. destruct (decide (a.1 = b.1)) as [|Hne]; [auto|].
  destruct (str_ltb_total a.1 b.1 Hne); auto 10.
Qed.

Definition usedAt (item : string * cacheEntry) : string * Z := (item.1, CE_lastAccess item.2).

Lemma oldestStep_min acc item :
  acc.1 ≠ "" → let m := oldestStep acc item in (m = acc ∨ m = usedAt item) ∧ older m acc ∧ older m (usedAt item).
Proof.
  intros Hne. destruct item as [k e]. unfold oldestStep, usedAt, empty. cbn. rewrite bool_decide_eq_false_2 by done. cbn [orb].
  destruct ((CE_lastAccess e <? acc.2) || _) eqn:Hc.
  - split; [by right|]. split; [|apply older_refl]. rewrite orb_true_iff, andb_true_iff, Z.ltb_lt, Z.eqb_eq in Hc. unfold older. cbn.
    destruct Hc as [|[? ?]]; [by left|]. right. auto.
  - split; [by left|]. split; [apply older_refl|]. rewrite orb_false_iff, andb_false_iff, Z.ltb_ge, Z.eqb_neq in Hc. destruct Hc as [H1 H2].
    destruct (older_total acc (k, CE_lastAccess e)) as [|H]; [done|]. unfold older in *. cbn in *. destruct H as [|[He Hk]]; [lia|].
    destruct H2 as [|H2]; [lia|]. destruct Hk as [->|Hk]; [right; auto|congruence].
Qed.

Lemma oldest_fold l acc :
  acc.1 ≠ "" → Forall (λ item, item.1 ≠ "") l →
  let m := foldl oldestStep acc l in (m = acc ∨ ∃ item, item ∈ l ∧ m = usedAt item) ∧ older m acc ∧ ∀ item, item ∈ l → older m (usedAt item).
Proof.
  revert acc. induction l as [|item l IH]; intros acc Hacc Hl; cbn.
  { split; [by left|]. split; [apply older_refl|]. by intros item ?%elem_of_nil. }
  apply Forall_cons in Hl as [Hi Hl]. destruct (oldestStep_min acc item Hacc) as (M1 & M2 & M3).
  destruct (IH (oldestStep acc item)) as (N1 & N2 & N3); [by destruct M1 as [->| ->]|done|]. split_and!.
  - destruct N1 as [->|(x & Hx & ->)]; [|right; exists x; set_solver]. destruct M1 as [->| ->]; [by left|]. right. exists item. set_solver.
  - by eapply older_trans.
  - intros x [->|Hx]%elem_of_cons; [by eapply older_trans|by apply N3].
Qed.

(** The entry to drop does not depend on the order in which Go visits the map. *)
Lemma oldestKey_spec entries :
  entries ≠ ∅ → (∀ k e, entries !! k = Some e → k ≠ "") →
  ∃ e, entries !! oldestKey entries = Some e ∧ ∀ k' e', entries !! k' = Some e' → older (oldestKey entries, CE_lastAccess e) (k', CE_lastAccess e').
Proof.
  intros Hne Hkeys. unfold oldestKey.
  assert (∀ item, item ∈ range_list entries → entries !! item.1 = Some item.2) as Hin by (intros [k e]; by rewrite elem_of_range_list).
  assert (Forall (λ item, item.1 ≠ "") (range_list entries)) as Hall by (apply Forall_forall; intros item Hi; by eapply Hkeys, Hin).
  destruct (range_list entries) as [|[k0 e0] l] eqn:Hl.
  { exfalso. apply Hne. apply map_empty. intros k. destruct (entries !! k) as [e|] eqn:He; [|done]. apply elem_of_range_list in He. rewrite Hl in He.
    by apply elem_of_nil in He. }
  assert (oldestStep ("", 0) (k0, e0) = usedAt (k0, e0)) as H0 by done. cbn [foldl]. rewrite H0. apply Forall_cons in Hall as [Hk0 Hall].
  destruct (oldest_fold l (usedAt (k0, e0)) Hk0 Hall) as (N1 & N2 & N3). set (m := foldl oldestStep _ l) in *.
  assert (∃ item, item ∈ (k0, e0) :: l ∧ m = usedAt item) as ([k e] & Hitem & Hm). { destruct N1 as [->|(x & ? & ->)]; [exists (k0, e0); set_solver|exists x; set_solver]. }
  rewrite Hm in N2, N3 |- *. cbn [usedAt fst]. exists e. split; [by apply (Hin (k, e))|]. intros k' e' He'.
  apply elem_of_range_list in He'. rewrite Hl in He'. apply elem_of_cons in He' as [[= -> ->]|He']; [done|]. by apply (N3 (k', e')).
Qed.

(** ** The caches there can be *)

(** An answer of the registries: the request, the metadata and when it was stored. *)
Record resolution := MkResolution {
  RV_Request : OciRequest;
  RV_Metadata : Metadata;
  RV_At : Z
}.

(** The steps that concurrent calls take under the lock, in any order, and the answers that were
    stored. *)
Inductive cacheRun (ttl maxEntries : Z) : list resolution → OciCache → Prop :=
| run_new c : NewCache ttl maxEntries = Ok c → cacheRun ttl maxEntries [] c
| run_lookup H c now key : cacheRun ttl maxEntries H c → cacheRun ttl maxEntries H (lookupEntry now key c).1
| run_delete H c key : cacheRun ttl maxEntries H c → cacheRun ttl maxEntries H (deleteEntry key c)
| run_store H c v :
    cacheRun ttl maxEntries H c → validateMetadata (RV_Metadata v) = Ok () →
    cacheRun ttl maxEntries (v :: H) (storeMetadata (RV_At v) (requestCacheKey (RV_Request v)) (canonicalJSON (RV_Metadata v)) c).

(** The entry holds the answer. *)
Definition holds (ttl : Z) (key : string) (entry : cacheEntry) (v : resolution) : Prop :=
  requestCacheKey (RV_Request v) = key ∧ CE_metadataJSON entry = canonicalJSON (RV_Metadata v)
  ∧ CE_metadataDigest entry = metadataJSONDigest (canonicalJSON (RV_Metadata v)) ∧ CE_expiresAt entry = RV_At v + ttl
  ∧ validateMetadata (RV_Metadata v) = Ok ().

Record cacheOk (H : list resolution) (c : OciCache) : Prop := {
  ok_max : 1 ≤ OC_maxEntries c;
  ok_size : Z.of_nat (size (OC_entries c)) ≤ OC_maxEntries c;
  ok_entries : ∀ key entry, OC_entries c !! key = Some entry → ∃ v, v ∈ H ∧ holds (OC_ttl c) key entry v
}.

Lemma key_nonempty request : requestCacheKey request ≠ "".
Proof. intros H. apply (f_equal String.length) in H. unfold requestCacheKey, fingerprintValues in H. rewrite hexSum_length in H. done. Qed.
Lemma ok_keys H c key entry : cacheOk H c → OC_entries c !! key = Some entry → key ≠ "".
Proof. intros Hok He. destruct (ok_entries _ _ Hok _ _ He) as (v & _ & <- & _). apply key_nonempty. Qed.

Lemma lookup_ok H c now key : cacheOk H c → cacheOk H (lookupEntry now key c).1.
Proof.
  intros Hok. unfold lookupEntry. destruct (OC_entries c !! key) as [e|] eqn:He; [|done]. destruct (_ || _); cbn.
  - destruct Hok as [H1 H2 H3]. split; [done| |].
    + cbn. pose proof (map_size_delete key (OC_entries c)) as Hs. rewrite He in Hs. lia.
    + intros k e'. cbn. rewrite lookup_delete_Some. naive_solver.
  - destruct Hok as [H1 H2 H3]. split; [done| |].
    + cbn. rewrite map_size_insert_Some by (by eexists). done.
    + intros k e'. cbn. rewrite lookup_insert_Some. intros [[<- <-]|[_ Hk]]; [|by apply H3]. destruct (H3 _ _ He) as (v & Hv & Hh). by exists v.
Qed.
Lemma delete_ok H c key : cacheOk H c → cacheOk H (deleteEntry key c).
Proof.
  intros [H1 H2 H3]. split; [done| |].
  - unfold deleteEntry. cbn. assert (delete key (OC_entries c) ⊆ OC_entries c) as Hs%map_subseteq_size by apply delete_subseteq. lia.
  - intros k e'. unfold deleteEntry. cbn. rewrite lookup_delete_Some. naive_solver.
Qed.

(** What is left when an entry is stored. *)
Definition kept (now : Z) (key : string) (c : OciCache) : cacheEntries :=
  let entries := filter (λ item, now < CE_expiresAt item.2) (OC_entries c) in
  if negb (bool_decide (is_Some (entries !! key))) && (OC_maxEntries c <=? Z.of_nat (size entries))
  then delete (oldestKey entries) entries else entries.

Lemma kept_spec H c now key :
  cacheOk H c →
  kept now key c ⊆ OC_entries c ∧ Z.of_nat (size (<[key := MkCacheEntry "" "" 0 0]> (kept now key c))) ≤ OC_maxEntries c
  ∧ ∀ k e, OC_entries c !! k = Some e → now < CE_expiresAt e → kept now key c !! k = None →
      (∀ e', OC_entries c !! key = Some e' → CE_expiresAt e' ≤ now)
      ∧ Z.of_nat (size (filter (λ item, now < CE_expiresAt item.2) (OC_entries c))) = OC_maxEntries c
      ∧ ∀ k' e', OC_entries c !! k' = Some e' → now < CE_expiresAt e' → older (k, CE_lastAccess e) (k', CE_lastAccess e').
Proof.
  intros Hok. unfold kept. cbv zeta. set (fresh := filter _ (OC_entries c)).
  assert (fresh ⊆ OC_entries c) as Hsub by apply map_filter_subseteq.
  assert (Z.of_nat (size fresh) ≤ OC_maxEntries c) as Hsize.
  { pose proof (ok_size _ _ Hok). pose proof (map_subseteq_size fresh (OC_entries c) Hsub). lia. }
  destruct (fresh !! key) as [e0|] eqn:Hk; cbn.
  { split; [done|]. split; [rewrite map_size_insert_Some by (by eexists); done|]. intros k e He Hf Hnone. exfalso.
    assert (fresh !! k = Some e) by (by apply map_lookup_filter_Some). congruence. }
  destruct (OC_maxEntries c <=? Z.of_nat (size fresh)) eqn:Hfull; bool_to_prop.
  2: { split; [done|]. split; [rewrite map_size_insert_None by done; lia|]. intros k e He Hf Hnone. exfalso.
    assert (fresh !! k = Some e) by (by apply map_lookup_filter_Some). congruence. }
  assert (fresh ≠ ∅) as Hne. { intros Hemp. rewrite Hemp, map_size_empty in Hfull. pose proof (ok_max _ _ Hok). lia. }
  destruct (oldestKey_spec fresh Hne) as (e & He & Hold).
  { intros k e He. eapply (ok_keys H c); [done|]. by eapply lookup_weaken. }
  split; [etrans; [apply delete_subseteq|done]|]. split.
  { rewrite map_size_insert_None by (rewrite lookup_delete_None; auto). pose proof (map_size_delete (oldestKey fresh) fresh) as Hs. rewrite He in Hs. pose proof (ok_max _ _ Hok). lia. }
  intros k e' He' Hf Hnone. assert (fresh !! k = Some e') as Hfk by (by apply map_lookup_filter_Some).
  apply lookup_delete_None in Hnone as [<-|]; [|congruence]. assert (e' = e) as -> by congruence. split_and!.
  - intros e1 He1. apply Z.nlt_ge. intros Hlt. assert (fresh !! key = Some e1) by (by apply map_lookup_filter_Some). congruence.
  - lia.
  - intros k' e1 He1 Hlt. apply Hold. by apply map_lookup_filter_Some.
Qed.

Lemma store_entries now key encoded c :
  OC_entries (storeMetadata now key encoded c) = <[key := MkCacheEntry (metadataJSONDigest encoded) encoded (now + OC_ttl c) now]> (kept now key c).
Proof. done. Qed.

Lemma store_ok H c v :
  cacheOk H c → validateMetadata (RV_Metadata v) = Ok () →
  cacheOk (v :: H) (storeMetadata (RV_At v) (requestCacheKey (RV_Request v)) (canonicalJSON (RV_Metadata v)) c).
Proof.
  intros Hok Hv. destruct (kept_spec H c (RV_At v) (requestCacheKey (RV_Request v)) Hok) as (K1 & K2 & _). split.
  - apply (ok_max _ _ Hok).
  - rewrite store_entries. cbn [storeMetadata OC_maxEntries]. rewrite map_size_insert in *. done.
  - intros k e. rewrite store_entries, lookup_insert_Some. intros [[<- <-]|[_ Hk]].
    + exists v. split; [by left|]. done.
    + destruct (ok_entries _ _ Hok k e) as (w & Hw & Hh); [by eapply lookup_weaken|]. exists w. split; [by right|done].
Qed.

Lemma run_ok ttl maxEntries H c : cacheRun ttl maxEntries H c → cacheOk H c ∧ OC_ttl c = (if ttl =? 0 then defaultCacheTTL else ttl)
  ∧ OC_maxEntries c = (if maxEntries =? 0 then defaultCacheMaxEntries else maxEntries).
Proof.
  induction 1 as [c Hc|H c now key _ (IH & Ht & Hm)|H c key _ (IH & Ht & Hm)|H c v _ (IH & Ht & Hm) Hv].
  - unfold NewCache in Hc. destruct (ttl <? 0) eqn:H1; [done|]. destruct (maxEntries <? 0) eqn:H2; [done|]. injection Hc as <-. bool_to_prop.
    split; [|done]. split; cbn.
    + destruct (Z.eqb_spec maxEntries 0); unfold defaultCacheMaxEntries; lia.
    + rewrite map_size_empty. destruct (Z.eqb_spec maxEntries 0); unfold defaultCacheMaxEntries; lia.
    + intros k e. by rewrite lookup_empty.
  - split; [by apply lookup_ok|]. unfold lookupEntry. destruct (OC_entries c !! key); [|done]. by destruct (_ || _).
  - split; [by apply delete_ok|done].
  - split; [by apply store_ok|done].
Qed.

(** C37: the cache stays within its bound, and gives up as little as it can.  Under any
    interleaving of concurrent calls it never holds more entries than it is made for; and
    storing an answer drops an entry that is still good only if the cache is full of such
    entries and has none for the request, and then the one that was not used for longest,
    whatever the order in which Go visits the map. *)
Theorem metadata_cache_bounded ttl maxEntries H c now key encoded :
  cacheRun ttl maxEntries H c →
  Z.of_nat (size (OC_entries c)) ≤ (if maxEntries =? 0 then defaultCacheMaxEntries else maxEntries)
  ∧ ∀ k e, OC_entries c !! k = Some e → now < CE_expiresAt e → k ≠ key →
      OC_entries (storeMetadata now key encoded c) !! k = Some e
      ∨ Z.of_nat (size (OC_entries c)) = OC_maxEntries c
        ∧ (∀ e', OC_entries c !! key = Some e' → CE_expiresAt e' ≤ now)
        ∧ (∀ k' e', OC_entries c !! k' = Some e' → older (k, CE_lastAccess e) (k', CE_lastAccess e')).
Proof.
  intros (Hok & Ht & Hm)%run_ok. split; [rewrite <- Hm; apply (ok_size _ _ Hok)|].
  intros k e He Hf Hne. rewrite store_entries, lookup_insert_ne by done.
  destruct (kept_spec H c now key Hok) as (K1 & _ & K3). destruct (kept now key c !! k) as [e'|] eqn:Hk.
  { left. pose proof (lookup_weaken _ _ _ _ Hk K1). congruence. }
  right. destruct (K3 k e He Hf Hk) as (D1 & D2 & D3).
  assert (filter (λ item, now < CE_expiresAt item.2) (OC_entries c) = OC_entries c) as Hall.
  { apply map_subseteq_size_eq; [apply map_filter_subseteq|]. pose proof (ok_size _ _ Hok). lia. }
  split_and!; [by rewrite Hall in D2|done|]. intros k' e' He'. apply D3; [done|].
  assert (filter (λ item, now < CE_expiresAt item.2) (OC_entries c) !! k' = Some e') as [_ ?]%map_lookup_filter_Some by (by rewrite Hall). done.
Qed.

(** ** Whom an answer is for *)

(** A call whose answer is that of a concurrent call with the same key. *)
Definition sharedResolve (times : resolveTimes) (resolver : OciRequest → result OciError Metadata) (leader request : OciRequest) (c : OciCache) :
    OciCache * result OciError Metadata :=
  match loadMetadata (AT_first times) (requestCacheKey request) c with
  | (c, Some metadata) => (c, Ok metadata)
  | (c, None) => let '(c, answer) := resolveOnce times resolver leader c in finishResolve request c answer
  end.
Lemma CacheResolve_shared times resolver request c :
  CacheResolve true times resolver request c = sharedResolve times resolver request request c.
Proof. done. Qed.

Definition served (H : list resolution) (ttl : Z) (key : string) (now : Z) (metadata : Metadata) : Prop :=
  ∃ v, v ∈ H ∧ requestCacheKey (RV_Request v) = key ∧ RV_Metadata v = metadata ∧ now < RV_At v + ttl.

Lemma load_spec ttl maxEntries H c now key :
  cacheRun ttl maxEntries H c →
  cacheRun ttl maxEntries H (loadMetadata now key c).1
  ∧ ∀ metadata, (loadMetadata now key c).2 = Some metadata → served H (if ttl =? 0 then defaultCacheTTL else ttl) key now metadata.
Proof.
  intros Hrun. destruct (run_ok _ _ _ _ Hrun) as (Hok & <- & _). unfold loadMetadata.
  pose proof (run_lookup _ _ H c now key Hrun) as Hrun1. destruct (lookupEntry now key c) as [c1 [encoded|]] eqn:Hl; [|done]. cbn [fst] in Hrun1.
  assert (∃ v, v ∈ H ∧ requestCacheKey (RV_Request v) = key ∧ canonicalJSON (RV_Metadata v) = encoded ∧ now < RV_At v + OC_ttl c) as (v & Hv & Hk & <- & Ht).
  { unfold lookupEntry in Hl. destruct (OC_entries c !! key) as [e|] eqn:He; [|done]. destruct (_ || _) eqn:Hc in Hl; [done|]. injection Hl as _ <-.
    destruct (ok_entries _ _ Hok _ _ He) as (v & Hv & K1 & K2 & K3 & K4 & K5). exists v. rewrite orb_false_iff, negb_false_iff, Z.ltb_lt in Hc.
    split_and!; [done..|]. rewrite <- K4. apply Hc. }
  rewrite metadata_json. destruct (is_ok _); cbn.
  - split; [done|]. intros metadata [= <-]. by exists v.
  - split; [by apply run_delete|done].
Qed.

(** C18: metadata from the cache is only given to whom it was meant for.  Under any interleaving
    of concurrent calls, also when a call takes the answer of another call of its key: what a
    request gets was just resolved for a request with its key, or is an answer that was stored
    for one less than the lifetime of an entry ago; and requests with one key ask the same
    registry or mirror for the same image and platform with the same credentials and the same
    trust, unless two texts with one SHA-256 are at hand.  An answer that is an error, or that
    is not well formed, is not kept. *)
Theorem metadata_served_to_same_access ttl maxEntries H c times resolver leader request c' res :
  cacheRun ttl maxEntries H c → requestCacheKey leader = requestCacheKey request →
  Forall short (keyParts request) → Forall short (keyParts leader) → (∀ v, v ∈ H → Forall short (keyParts (RV_Request v))) →
  sharedResolve times resolver leader request c = (c', res) →
  let ttl' := if ttl =? 0 then defaultCacheTTL else ttl in
  match res with
  | Err _ => cacheRun ttl maxEntries H c'
  | Ok metadata =>
      (resolver leader = Ok metadata ∧ cacheRun ttl maxEntries (MkResolution leader metadata (AT_store times) :: H) c'
         ∧ (sameAccess leader request ∨ collision))
      ∨ cacheRun ttl maxEntries H c' ∧ ∃ v, v ∈ H ∧ RV_Metadata v = metadata
          ∧ (AT_first times < RV_At v + ttl' ∨ AT_second times < RV_At v + ttl') ∧ (sameAccess (RV_Request v) request ∨ collision)
  end.
Proof.
  intros Hrun Hkey Hs Hsl Hsh. unfold sharedResolve. set (ttl' := if ttl =? 0 then _ else _).
  assert (∀ now md, served H ttl' (requestCacheKey request) now md → ∃ v, v ∈ H ∧ RV_Metadata v = md ∧ now < RV_At v + ttl'
    ∧ (sameAccess (RV_Request v) request ∨ collision)) as Hserved.
  { intros now md (v & Hv & Hk & Hm & Ht). exists v. split_and!; [done..|]. apply key_separates; [by apply Hsh|done|done]. }
  destruct (load_spec ttl maxEntries H c (AT_first times) (requestCacheKey request) Hrun) as [Hrun1 Hl1].
  destruct (loadMetadata (AT_first times) _ c) as [c1 [md|]]; cbn [fst snd] in *.
  { intros [= <- <-]. right. split; [done|]. destruct (Hserved _ _ (Hl1 md eq_refl)) as (v & ? & ? & ? & ?). exists v. auto. }
  unfold resolveOnce. rewrite Hkey. destruct (load_spec ttl maxEntries H c1 (AT_second times) (requestCacheKey request) Hrun1) as [Hrun2 Hl2].
  destruct (loadMetadata (AT_second times) _ c1) as [c2 [md|]]; cbn [fst snd] in *.
  { unfold finishResolve. rewrite metadata_json. intros [= <- <-]. right. split; [done|].
    destruct (Hserved _ _ (Hl2 md eq_refl)) as (v & ? & ? & ? & ?). exists v. auto. }
  destruct (resolver leader) as [md|e]; [|by intros [= <- <-]].
  destruct (validateMetadata md) as [[]|e] eqn:Hval; [|by intros [= <- <-]]. unfold finishResolve. rewrite metadata_json. intros [= <- <-].
  left. split; [done|]. split; [|by apply key_separates]. rewrite <- Hkey.
  exact (run_store ttl maxEntries H c2 (MkResolution leader md (AT_store times)) Hrun2 Hval).
Qed.
End keys.
